(* ===== verification/_CoqProject ===== *)
-Q . S2P
Prelude.v
RustStr.v
Net.v
Auth.v
FilterParser.v
DnsFilter.v
DnsWire.v
DnsCache.v
Authoritative.v
DhcpRepo.v
DhcpService.v
DhcpLaws.v
DhcpServer.v
DhcpDispatcher.v
UpstreamPool.v
DnsMessage.v
DnsPipeline.v
DnsPipelineLaws.v
PolicyRouter.v
RoutingTypes.v
Routing.v
RoutingLaws.v
RoutingEffects.v
RoutingSnapshots.v
RoutingCalls.v
ZoneTypes.v
ZoneEnforcement.v
ZoneLaws.v
PolicyDb.v
ZoneService.v
DeviceService.v
Discovery.v
PolicyLaws.v
DiscoveryLaws.v
TrackingLaws.v
DeviceLaws.v
Tables.v
WgConfig.v
Jobs.v
FilterTypes.v
FilterRepo.v
FilterAdmin.v
FilterLaws.v
FilterImport.v
FilterSync.v
FilterFollow.v
FilterServe.v
FilterCalls.v
FilterQueries.v
FilterRefresh.v
TunnelInterface.v
TunnelService.v
TunnelLaws.v
TunnelIdle.v
TunnelOps.v
LoginLimiter.v
LocalDns.v
LocalDnsLaws.v
LocalDnsRunner.v
AccountDb.v
AccountService.v
UserService.v
AccountLaws.v
AccountSafety.v
AccountInvites.v
InboundWg.v
InboundLaws.v
InboundSync.v
InboundInterface.v
Witnesses.v
DnsWitnesses.v
RoutingWitnesses.v
ZoneWitnesses.v
PolicyWitnesses.v
TunnelWitnesses.v
AccountWitnesses.v
LocalDnsWitnesses.v
FilterWitnesses.v
InboundWitnesses.v
Findings.v
