(* ===== verification/Prelude.v ===== *)
(** * Wardnet: a verification library for the daemon

    Wardnet is a home gateway: a daemon that leases addresses, answers DNS and
    filters it per device, watches which devices are there, puts them in zones and
    routes them through tunnels.  The Rust sources are under
    [src/source/daemon/crates]; paths below are relative to it, and file names
    without a crate are under [wardnetd-services/src].

    ** The parts and how they interact

    A DHCP packet enters through [wardnetd/src/dhcp/server.rs]: [server_loop]
    admits it, the [Dispatcher] runs one handler per MAC, a handler calls the
    lease service [dhcp/service.rs], which works on the SQLite tables of
    [wardnetd-data/src/repository/sqlite], and builds a reply.  A DNS query enters
    [QueryPipeline::handle] ([wardnetd/src/dns/pipeline.rs]): it is answered from
    the local view ([dns/authoritative.rs]) or from the response cache
    ([dns/cache.rs]), decided by the filter profiles of the asking device
    ([dns_filter]), and otherwise forwarded, to the server of a matching rule,
    through the client's tunnel, or down the ladder of configured upstreams.  The
    local view is built from what [dns_local/service.rs] stores; each change is an
    event on which [dns/runner.rs] rebuilds it and evicts from the cache.  The
    filter profiles are managed by [dns_filter/service.rs]: a call changes the
    tables and announces it, [dns_filter/runner.rs] rebuilds the compiled cache,
    and background jobs ([jobs.rs]) download and import blocklists.

    Discovery ([device/discovery.rs]) turns observed packets into device rows; the
    device, zone and exception services change their rules, zones and exceptions;
    the routing service ([routing/service.rs]) turns targets, leases and tunnel
    states into kernel rules and firewall calls, and zone enforcement
    ([zone_enforcement/service.rs]) isolates zones and clamps rules a zone
    forbids.  Tunnels are imported, brought up, probed and torn down by
    [tunnel/service.rs] on a [TunnelInterface], which
    [wardnetd/src/tunnel_interface_wireguard.rs] implements; an idle watcher tears
    down what nobody uses.  Remote devices dial in through [inbound_wg/service.rs],
    which keeps their credentials, an interface and the firewall rules, as long as
    the box is entitled ([entitlement.rs]).  Every service method first asks
    [auth_context::require_admin] or whose device is calling; sessions, users,
    invitations and sign-in providers are [auth/service.rs] and [user/service.rs],
    behind the limiter of [auth/rate_limit.rs].

    ** Files

    Shared:
    - [Prelude]: Rust's [Result], the state-and-error monad [ST] with Hoare triples
      and weakest preconditions on a view of the world, machine-integer ranges,
      list lemmas, tactics and the [wardnet] hints.
    - [RustStr]: the [str] operations the sources use, on bytes; case folding
      beyond ASCII is the identity.
    - [Net]: IPv4/IPv6 text and classifiers, the interface of the [ipnetwork] crate
      with a model of it, [subnet.rs].
    - [Auth]: [error.rs], [wardnet-common/src/auth.rs], [auth_context.rs].
    - [Tables]: SQL statements on lists of rows, keys, sorting under a filter.

    DNS:
    - [FilterParser], [DnsFilter]: [dns/filter_parser.rs],
      [dns_filter/filter.rs], [filter_profile.rs], [device_context.rs] and the hot
      path of [dns_filter/service.rs].
    - [FilterTypes], [FilterRepo], [FilterAdmin]: the tables of
      [sqlite/dns_filter.rs], every method of [dns_filter/service.rs], its compiled
      cache as slots that profiles and contexts share, [blocklist_downloader.rs]
      and [dns_filter/runner.rs].
    - [FilterLaws], [FilterImport]: what the tables keep, and the import.
      [FilterSync], [FilterFollow], [FilterServe], [FilterCalls], [FilterQueries]:
      rebuilds, the invariant between cache, queue and tables, calls, and the
      decision a query gets.
    - [Jobs], [FilterRefresh]: [jobs.rs], and the reservations, gate and tasks of
      [refresh_blocklist] as a transition system.
    - [DnsWire], [DnsCache]: [dns/cache.rs]; the walk over response bytes, and the
      cache with eviction, expiry and invalidation.
    - [Authoritative]: [dns/authoritative.rs].
    - [LocalDns], [LocalDnsLaws], [LocalDnsRunner]: [dns_local/service.rs],
      [sqlite/dns_local.rs], [dns/dhcp_lan_runner.rs] and the rebuilding part of
      [dns/runner.rs].
    - [UpstreamPool]: [wardnetd/src/dns/upstream_pool.rs],
      [dns/upstream_health.rs] and the ladder walk with its deadline.
    - [DnsMessage], [DnsPipeline], [DnsPipelineLaws]: messages, [dns/response.rs],
      [wardnetd/src/dns/pipeline.rs] and the reconfiguration of
      [wardnetd/src/dns/server.rs].

    DHCP:
    - [DhcpRepo], [DhcpService], [DhcpLaws]: the tables, every method of the
      service, what it guarantees.
    - [DhcpServer]: admission, handlers, replies; the handlers are proved against
      the class [LeaseService] and its laws, which [DhcpService] discharges.
    - [DhcpDispatcher]: the dispatcher as a transition system whose events are the
      atomic sections of the code, interleaved arbitrarily.

    Routing and zones:
    - [PolicyRouter]: [routing/policy_router.rs] and its netlink implementation on
      a class of kernels.
    - [RoutingTypes], [Routing], [RoutingLaws], [RoutingEffects],
      [RoutingSnapshots], [RoutingCalls]: [routing/service.rs] on any kernel,
      firewall and tunnel service; each critical section of its lock is one step.
    - [ZoneTypes], [ZoneEnforcement], [ZoneLaws]: [zone_enforcement/service.rs].

    Devices:
    - [PolicyDb]: the device, zone, exception, event and settings tables.
    - [ZoneService], [DeviceService], [Discovery]: [network_zone/service.rs],
      [zone_exception/service.rs], [device/service.rs], [device/discovery.rs],
      [device/ip_snapshot.rs].
    - [PolicyLaws], [DiscoveryLaws], [TrackingLaws], [DeviceLaws]: what they keep.

    Tunnels:
    - [WgConfig]: [wardnet-common/src/wireguard_config.rs].
    - [TunnelInterface]: the trait, its laws, and their proof for WireGuard.
    - [TunnelService], [TunnelLaws], [TunnelIdle], [TunnelOps]: the service, its
      table, the idle watcher, and their guarantees.

    Inbound WireGuard:
    - [InboundWg]: [inbound_wg/service.rs], [interface.rs], [key_store.rs],
      [keygen.rs], [sqlite/inbound_wg.rs], [entitlement.rs] and the inbound half of
      [wardnetd/src/entitlement_listener.rs].
    - [InboundLaws], [InboundSync]: what holds whatever fails, and what holds while
      nothing fails, the grant with its client configuration included; proved against the laws of the interface, which [InboundInterface] proves of
      [wardnetd/src/inbound_wg_interface_wireguard.rs]; it also holds the peer
      monitor [wardnetd/src/inbound_wg_peer_monitor.rs].

    Accounts:
    - [LoginLimiter]: [auth/rate_limit.rs].
    - [AccountDb], [AccountService], [UserService]: tables, [auth/service.rs],
      [auth/password.rs], [user/service.rs], [user/oauth.rs],
      [user/ceremony.rs], [wardnetd-data/src/bootstrap.rs].
    - [AccountLaws], [AccountSafety], [AccountInvites]: what they guarantee.

    [Witnesses], [DnsWitnesses], [RoutingWitnesses], [ZoneWitnesses],
    [PolicyWitnesses], [TunnelWitnesses], [AccountWitnesses],
    [LocalDnsWitnesses], [FilterWitnesses] and [InboundWitnesses] hold concrete
    instances of the interfaces and of the theorems; [Findings] shows where the
    code departs from its comments.

    ** What the theorems show

    - DHCP: over every history of calls, with failing storage and a changing
      environment, one active lease per client, unique ids and reservations; what
      assignment and renewal establish and leave alone, and that an assignment
      succeeds unless the pool is used up; an address is only offered or
      acknowledged to the client that holds it, and a RELEASE needs the holder's
      source address; mutual exclusion per MAC and the bound of 64 handlers.
    - Cache: capacity (one entry where it is zero) and queue bounds over every
      history, and refinement of an unbounded cache; a response inserted comes back
      aged.
    - Filter: the compiled filter equals a rule-by-rule evaluation; the parser's
      output is canonical.
    - Filter management: the tables stay consistent and the builtin profiles
      untouched, whatever fails; an import is seen whole or not at all; once the
      runner has handled its queue every query is decided as the tables say, for
      every order of calls, imports, rebuilds and discovered devices in which no
      assigned profile is deleted, an allow entry is deleted under its own profile,
      settings name no profile twice, the configuration is not changed before the
      deletion of a default profile is handled and no address changes (outside these
      the cache goes stale: [FilterWitnesses] has two cases); a blocklist has one refresh at a time and is never locked out
      of the next; a job's entry fits its task and stays half an hour after it.
    - DNS pipeline: exactly one response per query whatever the upstreams do, from
      the upstream chosen for that client where it is relayed, and one row offered to
      the log sink, which may drop it; names answered here never leave, for the types
      that are answered here; a client's queries reach only its own upstream; private
      answers for external names are refused; blocks are enforced past a cache miss
      for names without local records (and only there).
    - Local DNS: tables stay keyed and validated; lease names overwrite nothing
      anybody else recorded; however calls, the runner's reads and writes, queries
      and their answers interleave, once the runner has caught up the view is the
      stored one and a cached answer came by the rule that covers its name now,
      unless it was still on its way when the runner evicted its name.
    - Upstream ladder: one server at a time, in order, within the deadline, in the
      modes that are documented so; [fastest_not_raced] shows that the mode
      documented as a race is none.
    - Routing: every rule recorded as applied is in the kernel, over every
      interleaving of critical sections and every failing call, as long as no two
      tracked devices share an address and what [orderly] lists besides; packets
      follow the bands of their device where the band's table has a route; the
      removal loop ends; recorded rules are well typed over every history.
    - Zones: the firewall is asked for exactly the isolation the zones call for, and
      for none while DHCP is off; nothing is enforced on a device at the daemon's own
      address (what is still removed there, and the clamp of default bindings, are
      named with the theorem); forbidden rules are clamped.
    - Devices: tables stay consistent over every history; memory and tables agree
      about a tracked device; a device acting for itself
      changes only itself, and of its row the capture flag, name and type;
      flapping is exactly more than three addresses within the window.
    - Tunnels: events tell the stored status at every moment; deletion leaves no
      trace, in the tables it cascades to as well; the presence check repairs what has no interface; a sweep only takes
      what was unused for the whole timeout.
    - Inbound WireGuard: whatever fails, peers keep unique keys, addresses inside the
      subnet and devices there are, and as long as removals from the interface
      work, whoever is admitted has a row or lost it with its deleted device; while nothing fails exactly the enabled peers of an enabled
      server are admitted, the firewall follows, and lost entitlement ends the
      service; a grant takes the lowest free address, and its configuration parses.
    - Accounts: keys, links and sessions stay consistent, no token works ninety days
      after its session was opened, and an enabled admin is never lost; a stored password changes only by its owner's hand; sessions die
      with the account or its password; a disabled account looks like none; an
      invitation works once; a ceremony opens once and at most 256 are open.
    - Login limiter: one counter per subject and per address, bounded tables.
    - WireGuard files: the canonical text of a configuration parses back to it.

    ** Conventions, bounds and fuel

    Integers are [Z] with their width written out where it matters; text is a list
    of [ascii].  A loop over a slice recurses on the list; the name walk of
    [DnsWire] has fuel one more than the buffer length, proved to be enough; the
    address search of [DhcpService] counts down the pool size; trimming and
    splitting in [RustStr] are fuelled by the length of the text; the wait for a
    handshake in [TunnelService] is fuelled by its deadline over its poll interval,
    proved to be enough; batched deletion of domains has one round more than there
    are rows, proved to be enough.  Third-party crates are classes of operations, with their
    documented behaviour as separate classes of laws, and the witness files give
    instances.  A table is the list of its rows; a statement is atomic and consults
    an oracle that may make it fail.  Where a service holds a lock, the section
    under the lock is one step of a transition system ([sstep], [tstep], [astep],
    [lstep], [dstep], [rstep], [istep], [jstep]) and steps interleave; elsewhere calls run one at a time.
    [wp] and [holds] reason about the part of a world a theorem looks at.  Random
    identifiers, salts and tokens are arguments.  Log lines are dropped, and the
    text of an internal error, which is redacted before it reaches a client, is a
    fixed prefix.  The query path is modelled for one query on its own, against an
    environment that decides what every upstream, socket and table answers and
    when; the token-bucket limiter and the message codec are interfaces.

    ** Not modelled

    Sockets, packet capture, message encoding and decoding, task start and stop,
    HTTP routing and serialisation, remote-service clients, archives and downloads,
    which are input/output around the services; float statistics (latency averages,
    token counts); generated firewall text.  Routing profiles, Private DNS, access
    requests, anomaly detection, statistics, updates and backups are
    services of their own beside the ones above; they are not part of the library. *)

From Stdlib Require Export ZArith Lia Ascii.
From Stdlib Require String.
From stdpp Require Export base option gmap strings numbers.
From stdpp Require Export list.

#[global] Open Scope Z_scope.

(** ** Results: Rust's [Result<A, E>] and its [?] operator *)

Inductive result (A E : Type) : Type :=
| Ok (a : A)
| Err (e : E).
Arguments Ok {A E} _.
Arguments Err {A E} _.

Declare Scope wardnet_scope.
Delimit Scope wardnet_scope with wardnet.

Notation "'let?' x := e1 'in' e2" :=
  (match e1 with Ok x => e2 | Err err => Err err end)
  (at level 10, x name, e1 at level 100, e2 at level 200) : wardnet_scope.

Notation "'let!' x := e1 'in' e2" :=
  (match e1 with Some x => e2 | None => None end)
  (at level 10, x name, e1 at level 100, e2 at level 200) : wardnet_scope.

#[global] Open Scope wardnet_scope.

Definition is_ok {A E} (r : result A E) : bool :=
  match r with Ok _ => true | Err _ => false end.

Definition ok_or {A E} (o : option A) (e : E) : result A E :=
  match o with Some a => Ok a | None => Err e end.

(** ** Machine integers: values in [Z], the width written out *)

Definition U8_MAX : Z := 255.
Definition U16_MAX : Z := 65535.
Definition U32_MAX : Z := 4294967295.
Definition U64_MAX : Z := 18446744073709551615.

Definition wrap_u64 (x : Z) : Z := x mod 18446744073709551616.

(** [a.checked_add(b)] on [usize] (64-bit targets). *)
Definition checked_add (a b : Z) : option Z :=
  if a + b <=? U64_MAX then Some (a + b) else None.

(** [a.saturating_sub(b)] on an unsigned type. *)
Definition sat_sub (a b : Z) : Z := Z.max 0 (a - b).

(** [a.saturating_mul(b)] on [usize]. *)
Definition sat_mul (a b : Z) : Z := Z.min U64_MAX (a * b).

(** [u32::try_from(x).unwrap_or(u32::MAX)] for an unsigned [x]. *)
Definition clamp_u32 (x : Z) : Z := if x <=? U32_MAX then x else U32_MAX.

Definition is_u8 (x : Z) : Prop := 0 <= x <= U8_MAX.
Definition is_u16 (x : Z) : Prop := 0 <= x <= U16_MAX.
Definition is_u32 (x : Z) : Prop := 0 <= x <= U32_MAX.

(** ** A state and error monad

    A computation threads a world [W]; an error keeps the world it was raised
    in, because a Rust function that returns [Err] half way does not undo the
    writes it already made. *)

Definition ST (W E A : Type) : Type := W -> result A E * W.

Section st.
Context {W E : Type}.

#[export] Instance st_ret : MRet (ST W E) := fun A a w => (Ok a, w).

#[export] Instance st_bind : MBind (ST W E) := fun A B k m w =>
  match m w with
  | (Ok a, w') => k a w'
  | (Err e, w') => (Err e, w')
  end.

Definition st_fail {A} (e : E) : ST W E A := fun w => (Err e, w).
Definition st_get : ST W E W := fun w => (Ok w, w).
Definition st_gets {A} (f : W -> A) : ST W E A := fun w => (Ok (f w), w).
Definition st_modify (f : W -> W) : ST W E unit := fun w => (Ok tt, f w).
Definition st_lift {A} (r : result A E) : ST W E A := fun w => (r, w).

(** [for x in xs { body(x)?; }] *)
Fixpoint st_iter {A} (body : A -> ST W E unit) (xs : list A) : ST W E unit :=
  match xs with
  | [] => mret tt
  | x :: xs' => body x ≫= fun _ => st_iter body xs'
  end.

End st.

(** Partial-correctness triples for [ST]: [Q] relates the outcome to the final
    world. *)
Definition triple {W E A} (P : W -> Prop) (m : ST W E A)
    (Q : result A E -> W -> Prop) : Prop :=
  forall w, P w -> Q (fst (m w)) (snd (m w)).

Section triple.
Context {W E : Type}.
Implicit Types P : W -> Prop.

Lemma triple_conseq {A} P P' (m : ST W E A) Q Q' :
  triple P' m Q' -> (forall w, P w -> P' w) ->
  (forall r w, Q' r w -> Q r w) -> triple P m Q.
Proof. unfold triple. eauto. Qed.

Lemma triple_bind {A B} P (m : ST W E A) (k : A -> ST W E B)
    (R : A -> W -> Prop) (Q : result B E -> W -> Prop) :
  triple P m (fun r w => match r with Ok a => R a w | Err e => Q (Err e) w end) ->
  (forall a, triple (R a) (k a) Q) ->
  triple P (m ≫= k) Q.
Proof.
  intros Hm Hk w HP. specialize (Hm w HP). unfold mbind, st_bind.
  destruct (m w) as [[a|e] w']; simpl in *; [by apply Hk | done].
Qed.

Lemma triple_ret {A} P (a : A) (Q : result A E -> W -> Prop) :
  (forall w, P w -> Q (Ok a) w) -> triple P (mret a) Q.
Proof. intros H w. apply H. Qed.

Lemma triple_fail {A} P (e : E) (Q : result A E -> W -> Prop) :
  (forall w, P w -> Q (Err e) w) -> triple P (st_fail e) Q.
Proof. intros H w. apply H. Qed.

Lemma triple_lift {A} P (r : result A E) (Q : result A E -> W -> Prop) :
  (forall w, P w -> Q r w) -> triple P (st_lift r) Q.
Proof. intros H w. apply H. Qed.

Lemma triple_iter {A} P (body : A -> ST W E unit) (xs : list A) :
  (forall x, x ∈ xs -> triple P (body x) (fun _ w => P w)) ->
  triple P (st_iter body xs) (fun _ w => P w).
Proof.
  induction xs as [|x xs IH]; intros H; simpl.
  - by apply triple_ret.
  - eapply (triple_bind _ _ _ (fun _ => P)).
    + eapply triple_conseq; [apply H; set_solver | done | by intros [] ?].
    + intros _. apply IH. intros y Hy. apply H. set_solver.
Qed.

End triple.

(** Weakest preconditions on a part of the world: [view] is what is looked at,
    and whatever else the world holds may be anything. *)
Class View (W V : Type) : Type := { view : W -> V }.

Definition wp {W V} `{View W V} {E X} (m : ST W E X) (Q : result X E -> V -> Prop) (v : V) : Prop :=
  forall w, view w = v -> Q (fst (m w)) (view (snd (m w))).

Section wp.
Context {W V : Type} `{HV : View W V}.

Lemma wp_bind {E X Y} (m : ST W E X) (k : X -> ST W E Y) Q v :
  wp m (fun r v' => match r with Ok a => wp (k a) Q v' | Err e => Q (Err e) v' end) v ->
  wp (m ≫= k) Q v.
Proof.
  intros Hm w Hd. specialize (Hm w Hd). unfold mbind, st_bind.
  destruct (m w) as [[a|e] w']; simpl in *; [by apply Hm | done].
Qed.

Lemma wp_conseq {E X} (m : ST W E X) (Q Q' : result X E -> V -> Prop) v :
  wp m Q v -> (forall r v', Q r v' -> Q' r v') -> wp m Q' v.
Proof. intros H HQ w Hd. by apply HQ, H. Qed.

Lemma wp_ret {E X} (a : X) (Q : result X E -> V -> Prop) v : Q (Ok a) v -> wp (W := W) (mret a) Q v.
Proof. by intros HQ w <-. Qed.

Lemma wp_fail {E X} (e : E) (Q : result X E -> V -> Prop) v : Q (Err e) v -> wp (W := W) (st_fail e) Q v.
Proof. by intros HQ w <-. Qed.

Lemma wp_lift {E X} (r : result X E) Q v : Q r v -> wp (W := W) (st_lift r) Q v.
Proof. by intros HQ w <-. Qed.

(** A step that does not change what is seen. *)
Lemma wp_quiet {E X} (m : ST W E X) (Q : result X E -> V -> Prop) v :
  (forall w, view (snd (m w)) = view w) -> (forall r, Q r v) -> wp m Q v.
Proof. intros Hm HQ w <-. rewrite Hm. apply HQ. Qed.

Lemma wp_iter {E X} (body : X -> ST W E unit) (P : V -> Prop) xs v :
  (forall x v', P v' -> wp (body x) (fun _ => P) v') -> P v -> wp (st_iter body xs) (fun _ => P) v.
Proof.
  intros Hb. revert v. induction xs as [|x xs IH]; intros v Hd; simpl; [by apply wp_ret|].
  apply wp_bind. eapply wp_conseq; [by apply Hb|]. intros [?|?] v'; [apply IH | done].
Qed.

(** What holds of the view before a computation holds after it. *)
Definition holds {E X} (P : V -> Prop) (m : ST W E X) : Prop := forall v, P v -> wp m (fun _ => P) v.

Lemma holds_bind {E X Y} (P : V -> Prop) (m : ST W E X) (k : X -> ST W E Y) :
  holds P m -> (forall a, holds P (k a)) -> holds P (m ≫= k).
Proof.
  intros Hm Hk v Hv. apply wp_bind. eapply wp_conseq; [by apply Hm|]. intros [a|e] v' Hv'; [by apply Hk | done].
Qed.

Lemma holds_quiet {E X} (P : V -> Prop) (m : ST W E X) : (forall w, view (snd (m w)) = view w) -> holds P m.
Proof. intros Hm v Hv. by apply wp_quiet. Qed.

Lemma holds_after {E X} (P : V -> Prop) (m : ST W E X) w : holds P m -> P (view w) -> P (view (snd (m w))).
Proof. intros Hm Hw. by apply (Hm _ Hw w). Qed.

End wp.

(** Properties of the value a computation returns, whatever it did to the world. *)
Definition returns {W E A} (m : ST W E A) (Q : A -> Prop) : Prop :=
  forall w a w', m w = (Ok a, w') -> Q a.

Section returns.
Context {W E : Type}.

Lemma returns_bind {A B} (m : ST W E A) (k : A -> ST W E B) (R : A -> Prop) (Q : B -> Prop) :
  returns m R -> (forall a, R a -> returns (k a) Q) -> returns (m ≫= k) Q.
Proof.
  intros Hm Hk w b w'. unfold mbind, st_bind. destruct (m w) as [[a|e] w1] eqn:E1; [|done].
  apply Hk. by eapply Hm.
Qed.

Lemma returns_any {A} (m : ST W E A) : returns m (fun _ => True).
Proof. done. Qed.

Lemma returns_ret {A} (a : A) (Q : A -> Prop) : Q a -> returns (W := W) (E := E) (mret a) Q.
Proof. intros H w a' w' [= <- _]. done. Qed.

Lemma returns_lift {A} (r : result A E) (Q : A -> Prop) :
  (forall a, r = Ok a -> Q a) -> returns (W := W) (st_lift r) Q.
Proof. intros H w a w' [= -> _]. by apply H. Qed.

End returns.

Lemma bind_Ok_run {W E A B} (m : ST W E A) (k : A -> ST W E B) w a w1 :
  m w = (Ok a, w1) -> (m ≫= k) w = k a w1.
Proof. unfold mbind, st_bind. by intros ->. Qed.

(** Inverting a successful sequence. *)
Lemma bind_Ok_inv {W E A B} (m : ST W E A) (k : A -> ST W E B) w b w' :
  (m ≫= k) w = (Ok b, w') -> exists a w1, m w = (Ok a, w1) /\ k a w1 = (Ok b, w').
Proof. unfold mbind, st_bind. destruct (m w) as [[a|e] w1] eqn:E1; [eauto | done]. Qed.

(** ** A plain state monad

    For code that logs its failures and carries on: nothing is raised, and
    [SM W (result A E)] is [ST W E A]. *)

Definition SM (W A : Type) : Type := W -> A * W.

Section sm.
Context {W : Type}.

#[export] Instance sm_mret : MRet (SM W) := fun A a w => (a, w).

#[export] Instance sm_mbind : MBind (SM W) := fun A B k m w =>
  let '(a, w') := m w in k a w'.

Definition sm_ret {A} (a : A) : SM W A := mret a.
Definition sm_gets {A} (f : W -> A) : SM W A := fun w => (f w, w).
Definition sm_modify (f : W -> W) : SM W unit := fun w => (tt, f w).

(** [for x in xs { body(x) }] and the same with a running value. *)
Fixpoint sm_iter {A} (body : A -> SM W unit) (xs : list A) : SM W unit :=
  match xs with
  | [] => mret tt
  | x :: xs' => body x ≫= fun _ => sm_iter body xs'
  end.

Fixpoint sm_fold {A B} (body : B -> A -> SM W B) (b : B) (xs : list A) : SM W B :=
  match xs with
  | [] => mret b
  | x :: xs' => body b x ≫= fun b' => sm_fold body b' xs'
  end.

(** [P] before, [Q] of the value and the world after. *)
Definition sm_post {A} (P : W -> Prop) (m : SM W A) (Q : A -> W -> Prop) : Prop :=
  forall w, P w -> Q (fst (m w)) (snd (m w)).

Definition sm_keeps {A} (P : W -> Prop) (m : SM W A) : Prop := sm_post P m (fun _ => P).

Lemma sm_post_ret {A} P (a : A) (Q : A -> W -> Prop) :
  (forall w, P w -> Q a w) -> sm_post P (mret a) Q.
Proof. intros H w HP. by apply H. Qed.

Lemma sm_post_bind {A B} P (m : SM W A) (k : A -> SM W B) R Q :
  sm_post P m R -> (forall a, sm_post (R a) (k a) Q) -> sm_post P (m ≫= k) Q.
Proof.
  intros Hm Hk w HP. specialize (Hm w HP). unfold mbind, sm_mbind.
  destruct (m w) as [a w']. by apply Hk.
Qed.

Lemma sm_post_gets {A} P (f : W -> A) (Q : A -> W -> Prop) :
  (forall w, P w -> Q (f w) w) -> sm_post P (sm_gets f) Q.
Proof. intros H w HP. by apply H. Qed.

Lemma sm_post_modify P (f : W -> W) (Q : unit -> W -> Prop) :
  (forall w, P w -> Q tt (f w)) -> sm_post P (sm_modify f) Q.
Proof. intros H w HP. by apply H. Qed.

Lemma sm_post_conseq {A} (P P' : W -> Prop) (m : SM W A) (Q Q' : A -> W -> Prop) :
  sm_post P' m Q' -> (forall w, P w -> P' w) -> (forall a w, Q' a w -> Q a w) -> sm_post P m Q.
Proof. unfold sm_post. eauto. Qed.

Lemma sm_keeps_ret {A} P (a : A) : sm_keeps P (mret a).
Proof. by intros w. Qed.

Lemma sm_keeps_bind {A B} P (m : SM W A) (k : A -> SM W B) :
  sm_keeps P m -> (forall a, sm_keeps P (k a)) -> sm_keeps P (m ≫= k).
Proof. intros H1 H2. eapply sm_post_bind; [apply H1 | apply H2]. Qed.

Lemma sm_keeps_gets {A} P (f : W -> A) : sm_keeps P (sm_gets f).
Proof. by intros w. Qed.

Lemma sm_keeps_modify P (f : W -> W) : (forall w, P w -> P (f w)) -> sm_keeps P (sm_modify f).
Proof. intros H w HP. by apply H. Qed.

(** Two facts kept separately are kept together. *)
Lemma sm_post_and {A} (P : W -> Prop) (m : SM W A) Q R :
  sm_post P m Q -> sm_post P m R -> sm_post P m (fun a w => Q a w /\ R a w).
Proof. intros H1 H2 w HP. split; auto. Qed.

Lemma sm_keeps_iter {A} P (body : A -> SM W unit) xs :
  (forall x, x ∈ xs -> sm_keeps P (body x)) -> sm_keeps P (sm_iter body xs).
Proof.
  induction xs as [|x xs IH]; intros H; simpl; [by apply sm_post_ret|].
  eapply (sm_post_bind _ _ _ (fun _ => P)); [apply H; set_solver|].
  intros _. apply IH. intros y Hy. apply H. set_solver.
Qed.

Lemma sm_keeps_fold {A B} P (body : B -> A -> SM W B) xs : forall b,
  (forall b x, x ∈ xs -> sm_keeps P (body b x)) -> sm_keeps P (sm_fold body b xs).
Proof.
  induction xs as [|x xs IH]; intros b H; simpl; [by apply sm_post_ret|].
  eapply (sm_post_bind _ _ _ (fun _ => P)); [apply H; set_solver|].
  intros b'. apply IH. intros b'' y Hy. apply H. set_solver.
Qed.

Lemma sm_iter_app {A} (body : A -> SM W unit) xs ys w :
  sm_iter body (xs ++ ys) w = sm_iter body ys (snd (sm_iter body xs w)).
Proof.
  revert w. induction xs as [|x xs IH]; intros w; simpl; [done|].
  unfold mbind, sm_mbind. destruct (body x w) as [u w']. apply IH.
Qed.

Lemma sm_bind_run {A B} (m : SM W A) (k : A -> SM W B) w :
  (m ≫= k) w = k (fst (m w)) (snd (m w)).
Proof. unfold mbind, sm_mbind. by destruct (m w). Qed.

End sm.

(** ** Automation *)

Create HintDb wardnet.

(** Case analysis on the scrutinee of the innermost visible [match]/[if]. *)
Ltac case_step :=
  match goal with
  | |- context [match ?x with _ => _ end] =>
      lazymatch x with context [match _ with _ => _ end] => fail
      | _ => destruct x eqn:? end
  | H : context [match ?x with _ => _ end] |- _ =>
      lazymatch x with context [match _ with _ => _ end] => fail
      | _ => destruct x eqn:? end
  end.

(** Turn boolean facts of the code's conditions into propositions. *)
Ltac breflect :=
  repeat match goal with
  | H : andb _ _ = true |- _ => apply andb_true_iff in H; destruct H
  | H : orb _ _ = false |- _ => apply orb_false_iff in H; destruct H
  | H : negb _ = true |- _ => apply negb_true_iff in H
  | H : negb _ = false |- _ => apply negb_false_iff in H
  | H : (_ <=? _) = true |- _ => apply Z.leb_le in H
  | H : (_ <=? _) = false |- _ => apply Z.leb_gt in H
  | H : (_ <? _) = true |- _ => apply Z.ltb_lt in H
  | H : (_ <? _) = false |- _ => apply Z.ltb_ge in H
  | H : (_ =? _) = true |- _ => apply Z.eqb_eq in H
  | H : (_ =? _) = false |- _ => apply Z.eqb_neq in H
  | H : bool_decide _ = true |- _ => apply bool_decide_eq_true in H
  | H : bool_decide _ = false |- _ => apply bool_decide_eq_false in H
  end.

(** [lia] with quotients and remainders turned into equations. *)
Ltac zdiv := Z.to_euclidean_division_equations; lia.

Ltac crush := repeat (simplify_eq/=; breflect; try case_step); try done; try lia.

(** ** Generic list lemmas shared by the components *)

Lemma filter_length_le {A} (P : A -> Prop) `{forall x, Decision (P x)} (l : list A) :
  (length (filter P l) <= length l)%nat.
Proof. induction l; [done|]. rewrite filter_cons. case_decide; simpl; lia. Qed.

Lemma NoDup_filter_fmap {A B} (f : A -> B) (P : A -> Prop)
    `{forall x, Decision (P x)} (l : list A) :
  NoDup (f <$> l) -> NoDup (f <$> filter P l).
Proof.
  induction l as [|x l IH]; [done|]. rewrite fmap_cons, filter_cons, NoDup_cons.
  intros [Hx Hl]. case_decide; [|by apply IH].
  rewrite fmap_cons, NoDup_cons. split; [|by apply IH].
  rewrite list_elem_of_fmap in Hx |- *. intros (y & Heq & [_ Hy]%list_elem_of_filter).
  apply Hx. exists y. naive_solver.
Qed.

Lemma NoDup_fmap_elem_inj {A B} (f : A -> B) (l : list A) x y :
  NoDup (f <$> l) -> x ∈ l -> y ∈ l -> f x = f y -> x = y.
Proof.
  induction l as [|z l IH]; [set_solver|]. rewrite fmap_cons, NoDup_cons.
  intros [Hz Hl] [->|Hx]%elem_of_cons [->|Hy]%elem_of_cons Heq; try done.
  - exfalso. apply Hz. rewrite Heq. by apply list_elem_of_fmap_2.
  - exfalso. apply Hz. rewrite <- Heq. by apply list_elem_of_fmap_2.
  - by apply IH.
Qed.

Lemma find_Some_elem {A} (f : A -> bool) l x : List.find f l = Some x -> x ∈ l /\ f x = true.
Proof. intros [H1 H2]%List.find_some. split; [by apply list_elem_of_In | done]. Qed.

Lemma find_None_elem {A} (f : A -> bool) l x : List.find f l = None -> x ∈ l -> f x = false.
Proof. intros H Hx. apply (List.find_none f l H). by apply list_elem_of_In. Qed.
