(* ===== verification/RustStr.v ===== *)
(** * Rust strings

    A Rust [str] is its UTF-8 bytes: [str] here is [list ascii], one [ascii]
    per byte.  The operations are those of the standard library the modelled
    code calls; the character-level ones ([trim], [split_whitespace], [chars])
    follow the UTF-8 encoding, so they are exact on every well-formed string.
    [to_lowercase] folds ASCII letters and leaves every other byte alone, which
    is Rust's function on ASCII input: MAC addresses, host names, and the login
    names and e-mail addresses that are ASCII. *)

From S2P Require Import Prelude.

Abbreviation str := (list ascii).

(** String literals denote their bytes. *)
Definition of_string (s : string) : str := String.list_ascii_of_string s.
Coercion of_string : string >-> list.

Definition byte_val (c : ascii) : Z := Z.of_N (N_of_ascii c).

(** [s.len()], in bytes. *)
Definition len (s : str) : Z := Z.of_nat (length s).

Definition in_range (lo hi : Z) (c : ascii) : bool :=
  (lo <=? byte_val c) && (byte_val c <=? hi).

Definition is_ascii_uppercase : ascii -> bool := in_range 65 90.
Definition is_ascii_lowercase : ascii -> bool := in_range 97 122.
Definition is_ascii_digit : ascii -> bool := in_range 48 57.
Definition is_ascii_alphanumeric (c : ascii) : bool :=
  is_ascii_uppercase c || is_ascii_lowercase c || is_ascii_digit c.

Definition ascii_lower (c : ascii) : ascii :=
  if is_ascii_uppercase c then ascii_of_N (N_of_ascii c + 32) else c.

Definition to_ascii_lowercase (s : str) : str := ascii_lower <$> s.

Definition ascii_upper (c : ascii) : ascii :=
  if is_ascii_lowercase c then ascii_of_N (N_of_ascii c - 32) else c.

Definition to_ascii_uppercase (s : str) : str := ascii_upper <$> s.

Definition to_lowercase (s : str) : str := to_ascii_lowercase s.

Definition eq_ignore_ascii_case (s t : str) : bool :=
  bool_decide (to_ascii_lowercase s = to_ascii_lowercase t).

(** ** Prefixes, suffixes and searching *)

Fixpoint strip_prefix (p s : str) : option str :=
  match p, s with
  | [], _ => Some s
  | c :: p', d :: s' => if bool_decide (c = d) then strip_prefix p' s' else None
  | _ :: _, [] => None
  end.

Definition starts_with (p s : str) : bool :=
  match strip_prefix p s with Some _ => true | None => false end.

Definition strip_suffix (p s : str) : option str :=
  reverse <$> strip_prefix (reverse p) (reverse s).

Definition ends_with (p s : str) : bool :=
  match strip_suffix p s with Some _ => true | None => false end.

Definition contains (c : ascii) (s : str) : bool := bool_decide (c ∈ s).

(** [s.contains("text")] *)
Fixpoint contains_str (p s : str) : bool :=
  starts_with p s || match s with [] => false | _ :: s' => contains_str p s' end.

(** [s.find(c)] together with the two slices [&s[..i]] and [&s[i + 1..]] the
    callers take at the returned index. *)
Fixpoint split_at_char (c : ascii) (s : str) : option (str * str) :=
  match s with
  | [] => None
  | d :: s' =>
      if bool_decide (d = c) then Some ([], s')
      else match split_at_char c s' with
           | Some (a, b) => Some (d :: a, b)
           | None => None
           end
  end.

Definition split_once (c : ascii) (s : str) : option (str * str) := split_at_char c s.

(** [s.split(c)]: always at least one piece. *)
Fixpoint split (c : ascii) (s : str) : list str :=
  match s with
  | [] => [[]]
  | d :: s' =>
      if bool_decide (d = c) then [] :: split c s'
      else match split c s' with
           | p :: ps => (d :: p) :: ps
           | [] => [[d]]
           end
  end.

Fixpoint drop_while (f : ascii -> bool) (s : str) : str :=
  match s with
  | [] => []
  | c :: s' => if f c then drop_while f s' else s
  end.

(** [s.trim_end_matches(c)] *)
Definition trim_end_matches (c : ascii) (s : str) : str :=
  reverse (drop_while (fun d => bool_decide (d = c)) (reverse s)).

(** ** Unicode white space, on UTF-8 bytes *)

Definition bytes (l : list Z) : str := (fun z => ascii_of_N (Z.to_N z)) <$> l.

(** The characters with the [White_Space] property above U+0020, as UTF-8. *)
Definition ws_multi : list str :=
  bytes <$> [[194; 133]; [194; 160]; [225; 154; 128];
    [226; 128; 128]; [226; 128; 129]; [226; 128; 130]; [226; 128; 131];
    [226; 128; 132]; [226; 128; 133]; [226; 128; 134]; [226; 128; 135];
    [226; 128; 136]; [226; 128; 137]; [226; 128; 138]; [226; 128; 168];
    [226; 128; 169]; [226; 128; 175]; [226; 129; 159]; [227; 128; 128]].

Definition is_ws_byte (c : ascii) : bool :=
  in_range 9 13 c || bool_decide (c = " "%char).

Definition ws_chars : list str :=
  ((fun z => bytes [z]) <$> [9; 10; 11; 12; 13; 32]) ++ ws_multi.

(** The rest of [s] after the first of the given characters that starts it. *)
Fixpoint strip_any (ws : list str) (s : str) : option str :=
  match ws with
  | [] => None
  | w :: ws' =>
      match strip_prefix w s with
      | Some rest => Some rest
      | None => strip_any ws' s
      end
  end.

#[global] Arguments strip_any : simpl never.

(** Each step drops at least one byte, so [length s] steps suffice. *)
Fixpoint trim_with (fuel : nat) (ws : list str) (s : str) : str :=
  match fuel with
  | O => s
  | S fuel' =>
      match strip_any ws s with
      | Some rest => trim_with fuel' ws rest
      | None => s
      end
  end.

Definition trim_start (s : str) : str := trim_with (length s) ws_chars s.
Definition trim_end (s : str) : str :=
  reverse (trim_with (length s) (reverse <$> ws_chars) (reverse s)).
Definition trim (s : str) : str := trim_end (trim_start s).

(** [s.split_whitespace().collect()] *)
Fixpoint split_ws (fuel : nat) (cur s : str) : list str :=
  let flush := match cur with [] => [] | _ => [reverse cur] end in
  match fuel with
  | O => flush
  | S fuel' =>
      match s with
      | [] => flush
      | c :: s' =>
          match strip_any ws_chars s with
          | Some rest => flush ++ split_ws fuel' [] rest
          | None => split_ws fuel' (c :: cur) s'
          end
      end
  end.

Definition split_whitespace (s : str) : list str := split_ws (length s) [] s.

(** ** Characters *)

Definition is_continuation : ascii -> bool := in_range 128 191.

(** [s.chars()], each character as its bytes: a continuation byte belongs to
    the character before it. *)
Fixpoint chars_aux (s : str) : str * list str :=
  match s with
  | [] => ([], [])
  | c :: s' =>
      let '(pending, groups) := chars_aux s' in
      if is_continuation c then (c :: pending, groups)
      else ([], (c :: pending) :: groups)
  end.

Definition chars (s : str) : list str := snd (chars_aux s).

(** ** Decimal numbers *)

Definition digit_val (c : ascii) : Z := byte_val c - 48.

(** The digits of [s] as a number, [None] on a non-digit or when the value
    passes [bound]. *)
Fixpoint parse_digits (bound acc : Z) (s : str) : option Z :=
  match s with
  | [] => Some acc
  | c :: s' =>
      if is_ascii_digit c
      then let acc' := acc * 10 + digit_val c in
           if acc' <=? bound then parse_digits bound acc' s' else None
      else None
  end.

(** [s.parse::<uN>()]: an optional [+], then at least one digit. *)
Definition parse_uint (bound : Z) (s : str) : option Z :=
  let digits := match s with
                | c :: s' => if bool_decide (c = "+"%char) then s' else s
                | [] => s end in
  match digits with
  | [] => None
  | _ => parse_digits bound 0 digits
  end.

Definition digit_char (d : Z) : ascii := ascii_of_N (Z.to_N (48 + d)).

(** [n.to_string()] for an octet. *)
Definition show_u8 (n : Z) : str :=
  if n <? 10 then [digit_char n]
  else if n <? 100 then [digit_char (n / 10); digit_char (n mod 10)]
  else [digit_char (n / 100); digit_char (n / 10 mod 10); digit_char (n mod 10)].

(** [n.to_string()] for a [u32] (at most ten digits). *)
Fixpoint show_digits (fuel : nat) (n : Z) : str :=
  match fuel with
  | O => []
  | S fuel' =>
      if n <? 10 then [digit_char n] else show_digits fuel' (n / 10) ++ [digit_char (n mod 10)]
  end.

Definition show_u32 (n : Z) : str := show_digits 10 n.

Fixpoint join (sep : str) (parts : list str) : str :=
  match parts with
  | [] => []
  | [p] => p
  | p :: ps => p ++ sep ++ join sep ps
  end.

(** ** Lemmas *)

Lemma strip_prefix_Some p s r : strip_prefix p s = Some r <-> s = p ++ r.
Proof.
  revert s. induction p as [|c p IH]; intros s; simpl.
  - naive_solver.
  - destruct s as [|d s]; [naive_solver|]. case_bool_decide; subst.
    + rewrite IH. naive_solver.
    + naive_solver.
Qed.

Lemma strip_prefix_None p s : strip_prefix p s = None <-> forall r, s <> p ++ r.
Proof.
  destruct (strip_prefix p s) as [r|] eqn:E.
  - apply strip_prefix_Some in E. naive_solver.
  - split; [|done]. intros _ r ->. by rewrite (proj2 (strip_prefix_Some p _ r)) in E.
Qed.

Lemma strip_suffix_Some p s r : strip_suffix p s = Some r <-> s = r ++ p.
Proof.
  unfold strip_suffix. rewrite fmap_Some. split.
  - intros (x & Hx%strip_prefix_Some & ->).
    rewrite <- (reverse_involutive s), Hx, reverse_app, (reverse_involutive p). done.
  - intros ->. exists (reverse r). rewrite strip_prefix_Some, reverse_app, reverse_involutive.
    done.
Qed.

Lemma strip_suffix_None p s : strip_suffix p s = None <-> forall r, s <> r ++ p.
Proof.
  destruct (strip_suffix p s) as [r|] eqn:E.
  - apply strip_suffix_Some in E. naive_solver.
  - split; [|done]. intros _ r ->. by rewrite (proj2 (strip_suffix_Some p _ r)) in E.
Qed.

Lemma ends_with_true p s : ends_with p s = true <-> exists r, s = r ++ p.
Proof.
  unfold ends_with. destruct (strip_suffix p s) as [r|] eqn:E.
  - apply strip_suffix_Some in E. naive_solver.
  - rewrite strip_suffix_None in E. naive_solver.
Qed.

Lemma split_at_char_Some c s a b :
  split_at_char c s = Some (a, b) <-> s = a ++ c :: b /\ c ∉ a.
Proof.
  split.
  - revert a b. induction s as [|d s IH]; intros a b; simpl; [done|].
    case_bool_decide as Hd; [intros [= <- <-]; split; [by subst | set_solver] |].
    destruct (split_at_char c s) as [[x y]|]; [|done]. intros [= <- <-].
    destruct (IH x y eq_refl) as [-> Hx]. split; [done | set_solver].
  - intros [-> Hc]. induction a as [|d a IH]; simpl.
    + by rewrite bool_decide_eq_true_2.
    + rewrite bool_decide_eq_false_2 by set_solver. rewrite IH by set_solver. done.
Qed.

Lemma split_at_char_None c s : split_at_char c s = None <-> c ∉ s.
Proof.
  induction s as [|d s IH]; simpl; [set_solver|].
  case_bool_decide; subst; [set_solver|].
  destruct (split_at_char c s) as [[]|]; set_solver.
Qed.

(** A string cut at its last [c]-run: what [trim_end_matches] keeps. *)
Lemma drop_while_spec f s :
  exists pre, s = pre ++ drop_while f s /\ Forall (fun c => f c = true) pre /\
    (forall c r, drop_while f s = c :: r -> f c = false).
Proof.
  induction s as [|c s (pre & E & Hpre & Hhd)]; simpl.
  - by exists [].
  - destruct (f c) eqn:Ec.
    + exists (c :: pre). simpl. rewrite <- E. auto.
    + exists []. split; [done|]. split; [done|]. intros c' r [= <- <-]. done.
Qed.

Lemma trim_end_matches_last c s r : trim_end_matches c s <> r ++ [c].
Proof.
  unfold trim_end_matches. intros E. apply (f_equal reverse) in E.
  rewrite reverse_involutive, reverse_app in E. simpl in E.
  destruct (drop_while_spec (fun d => bool_decide (d = c)) (reverse s)) as (_ & _ & _ & H).
  specialize (H _ _ E). by case_bool_decide.
Qed.

Lemma trim_end_matches_prefix c s : exists t, s = trim_end_matches c s ++ t.
Proof.
  unfold trim_end_matches.
  destruct (drop_while_spec (fun d => bool_decide (d = c)) (reverse s)) as (pre & E & _).
  exists (reverse pre). rewrite <- reverse_app, <- E. by rewrite reverse_involutive.
Qed.

Lemma trim_end_matches_id c s : (forall r, s <> r ++ [c]) -> trim_end_matches c s = s.
Proof.
  intros H. unfold trim_end_matches.
  destruct (reverse s) as [|d t] eqn:E; simpl.
  - apply (f_equal reverse) in E. by rewrite reverse_involutive in E.
  - apply (f_equal reverse) in E. rewrite reverse_involutive, reverse_cons in E.
    rewrite bool_decide_eq_false_2 by (intros ->; by eapply H). by rewrite reverse_cons.
Qed.

Lemma trim_end_matches_idemp c s :
  trim_end_matches c (trim_end_matches c s) = trim_end_matches c s.
Proof. apply trim_end_matches_id. apply trim_end_matches_last. Qed.

(** Every fact about one byte is checked on the 256 of them. *)
Ltac all_bytes c :=
  destruct c as [[] [] [] [] [] [] [] []]; vm_compute; try done.

Lemma ascii_lower_idemp c : ascii_lower (ascii_lower c) = ascii_lower c.
Proof. all_bytes c. Qed.

Lemma ascii_lower_not_upper c : is_ascii_uppercase (ascii_lower c) = false.
Proof. all_bytes c. Qed.

Lemma ascii_lower_id c : is_ascii_uppercase c = false -> ascii_lower c = c.
Proof. unfold ascii_lower. by intros ->. Qed.

Lemma ascii_lower_dot c : ascii_lower c = "."%char <-> c = "."%char.
Proof. all_bytes c. Qed.

Lemma to_ascii_lowercase_idemp s :
  to_ascii_lowercase (to_ascii_lowercase s) = to_ascii_lowercase s.
Proof.
  unfold to_ascii_lowercase. rewrite <- list_fmap_compose.
  apply list_fmap_ext. intros. apply ascii_lower_idemp.
Qed.

Lemma to_ascii_lowercase_app s t :
  to_ascii_lowercase (s ++ t) = to_ascii_lowercase s ++ to_ascii_lowercase t.
Proof. apply fmap_app. Qed.

Lemma length_to_ascii_lowercase s : length (to_ascii_lowercase s) = length s.
Proof. apply length_fmap. Qed.

Lemma to_ascii_lowercase_id s :
  Forall (fun c => is_ascii_uppercase c = false) s -> to_ascii_lowercase s = s.
Proof.
  induction 1 as [|c s Hc _ IH]; [done|].
  change (ascii_lower c :: to_ascii_lowercase s = c :: s).
  by rewrite IH, (ascii_lower_id c).
Qed.

Lemma to_ascii_lowercase_trailing_dot s r :
  to_ascii_lowercase s = r ++ ["."%char] -> exists r', s = r' ++ ["."%char].
Proof.
  intros E. destruct (fmap_app_inv _ _ _ _ E) as (a & b & -> & Eb & ->).
  destruct b as [|c [|]]; simplify_eq/=.
  exists a. f_equal. f_equal. by apply ascii_lower_dot.
Qed.

(** [trim] on text that neither starts nor ends with white space. *)
Definition trimmed (s : str) : Prop :=
  strip_any ws_chars s = None /\ strip_any (reverse <$> ws_chars) (reverse s) = None.

Lemma trim_with_None fuel ws s : strip_any ws s = None -> trim_with fuel ws s = s.
Proof. destruct fuel; simpl; [done|]. by intros ->. Qed.

Lemma trim_id s : trimmed s -> trim s = s.
Proof.
  intros [Hs He]. unfold trim, trim_start. rewrite (trim_with_None _ _ _ Hs).
  unfold trim_end. rewrite (trim_with_None _ _ _ He). apply reverse_involutive.
Qed.

Definition is_graphic (c : ascii) : bool := in_range 33 126 c.

Lemma strip_any_graphic c s : is_graphic c = true -> strip_any ws_chars (c :: s) = None.
Proof. all_bytes c. Qed.

Lemma strip_any_graphic_rev c s :
  is_graphic c = true -> strip_any (reverse <$> ws_chars) (c :: s) = None.
Proof. all_bytes c. Qed.

Lemma trimmed_graphic s : Forall (fun c => is_graphic c = true) s -> trimmed s.
Proof.
  intros H. split.
  - destruct H; [done|]. by apply strip_any_graphic.
  - destruct (reverse s) as [|c t] eqn:E; [done|]. apply strip_any_graphic_rev.
    rewrite Forall_forall in H. apply H.
    rewrite <- (reverse_involutive s), E, reverse_cons.
    set_solver.
Qed.

Lemma split_ws_graphic fuel cur s :
  (length s <= fuel)%nat -> Forall (fun c => is_graphic c = true) s ->
  split_ws fuel cur s = match reverse cur ++ s with [] => [] | t => [t] end.
Proof.
  revert cur s. induction fuel as [|fuel IH]; intros cur s Hl Hs.
  - destruct s; simpl in *; [|lia]. rewrite app_nil_r. destruct cur; [done|].
    simpl. by destruct (reverse (a :: cur)) eqn:E; [apply (f_equal length) in E;
      rewrite length_reverse in E|].
  - destruct s as [|c s]; simpl.
    + rewrite app_nil_r. destruct cur; [done|].
      by destruct (reverse (a :: cur)) eqn:E; [apply (f_equal length) in E;
        rewrite length_reverse in E|].
    + inversion Hs; subst. rewrite strip_any_graphic by done.
      rewrite IH by (simpl in *; done || lia). by rewrite reverse_cons, <- app_assoc.
Qed.

Lemma split_whitespace_graphic s :
  Forall (fun c => is_graphic c = true) s ->
  split_whitespace s = match s with [] => [] | _ => [s] end.
Proof. intros H. unfold split_whitespace. rewrite split_ws_graphic by done. by destruct s. Qed.

Lemma split_ws_word fuel cur w s :
  Forall (fun c => is_graphic c = true) w -> reverse cur ++ w <> [] ->
  split_ws (length w + S fuel) cur (w ++ " "%char :: s) =
  (reverse cur ++ w) :: split_ws fuel [] s.
Proof.
  intros Hw. revert cur. induction Hw as [|c w Hc _ IH]; intros cur Hne; simpl.
  - change (strip_any ws_chars (" "%char :: s)) with (Some s).
    rewrite app_nil_r in *. by destruct cur.
  - rewrite strip_any_graphic by done. rewrite IH; rewrite reverse_cons, <- app_assoc; [done|].
    by destruct (reverse cur).
Qed.

Lemma split_whitespace_two w s :
  Forall (fun c => is_graphic c = true) w -> w <> [] ->
  Forall (fun c => is_graphic c = true) s -> s <> [] ->
  split_whitespace (w ++ " "%char :: s) = [w; s].
Proof.
  intros Hw Hne Hs Hs'. unfold split_whitespace. rewrite length_app. simpl length.
  rewrite split_ws_word by done. rewrite split_ws_graphic by done. by destruct s.
Qed.

Lemma trimmed_ends c s d :
  is_graphic c = true -> is_graphic d = true -> trimmed (c :: s ++ [d]).
Proof.
  intros Hc Hd. split; [by apply strip_any_graphic|].
  rewrite app_comm_cons, reverse_app. by apply strip_any_graphic_rev.
Qed.

Lemma contains_false c s : contains c s = false <-> c ∉ s.
Proof. unfold contains. apply bool_decide_eq_false. Qed.

Lemma contains_true c s : contains c s = true <-> c ∈ s.
Proof. unfold contains. apply bool_decide_eq_true. Qed.

(** ** Domain suffixes *)

(** [name] is [d] or ends in a dot and [d]. *)
Definition at_or_below (d name : str) : Prop :=
  name = d \/ exists p, name = p ++ of_string "." ++ d.

Lemma suffix_boundary_spec d name :
  (bool_decide (name = d)
   || match strip_suffix d name with Some prefix => ends_with "." prefix | None => false end)
  = true <-> at_or_below d name.
Proof.
  unfold at_or_below. rewrite orb_true_iff, bool_decide_eq_true.
  apply or_iff_compat_l. destruct (strip_suffix d name) as [pre|] eqn:E.
  - apply strip_suffix_Some in E as ->. rewrite ends_with_true. split.
    + intros [r ->]. exists r. by rewrite <- app_assoc.
    + intros [p Hp]. rewrite app_assoc in Hp. apply app_inv_tail in Hp as ->. by exists p.
  - split; [done|]. intros [p ->]. exfalso. rewrite app_assoc in E.
    by eapply strip_suffix_None.
Qed.

(** Two suffixes of one name with the same length are the same. *)
Lemma suffix_same_length (p q d e : str) :
  p ++ d = q ++ e -> length d = length e -> d = e.
Proof. intros H Hl. by apply (app_inj_2 p q) in H as [_ ?]. Qed.

Lemma at_or_below_suffix d name : at_or_below d name -> exists p, name = p ++ d.
Proof. intros [->|[p ->]]; [by exists [] | exists (p ++ of_string "."); by rewrite <- app_assoc]. Qed.

Lemma at_or_below_same_length d e name :
  at_or_below d name -> at_or_below e name -> length d = length e -> d = e.
Proof.
  intros [p ->]%at_or_below_suffix [q H]%at_or_below_suffix. by apply suffix_same_length with p q.
Qed.

(** Two domains above one name are nested, the shorter above the longer. *)
Lemma at_or_below_nested d e n :
  at_or_below d n -> at_or_below e n -> (length d <= length e)%nat -> at_or_below d e.
Proof.
  intros Hd He Hl. destruct (decide (length d = length e)) as [E|E].
  { left. symmetry. by eapply at_or_below_same_length. }
  destruct Hd as [->|[p ->]].
  { apply at_or_below_suffix in He as [q Hq]. apply (f_equal length) in Hq.
    rewrite length_app in Hq. lia. }
  apply at_or_below_suffix in He as [q Hq]. right.
  apply app_eq_inv in Hq as [(k & _ & ->)|(k & _ & Hk)]; [by exists k|].
  exists []. change (of_string "." ++ d) with ("."%char :: d) in *. simpl.
  destruct k as [|c k]; [done|]. exfalso. injection Hk as _ Hk. apply (f_equal length) in Hk.
  rewrite length_app in Hk. lia.
Qed.

(** ** Octets in text *)

Lemma show_u8_checked : forallb (fun n =>
  bool_decide (parse_uint U8_MAX (show_u8 n) = Some n)
  && (forallb is_ascii_digit (show_u8 n) && negb (bool_decide (show_u8 n = []))))
  (seqZ 0 256) = true.
Proof. vm_compute. reflexivity. Qed.

Lemma show_u8_digits n : is_u8 n -> parse_uint U8_MAX (show_u8 n) = Some n
  /\ Forall (fun c => is_ascii_digit c = true) (show_u8 n) /\ show_u8 n <> [].
Proof.
  intros Hn. unfold is_u8, U8_MAX in Hn. pose proof show_u8_checked as H.
  rewrite forallb_forall in H. specialize (H n).
  rewrite <- list_elem_of_In, elem_of_seqZ, !andb_true_iff, bool_decide_eq_true, negb_true_iff,
    bool_decide_eq_false, forallb_forall in H.
  destruct H as (H1 & H2 & H3); [lia|]. split; [done|]. split; [|done].
  apply Forall_forall. intros x Hx. apply H2. by apply list_elem_of_In.
Qed.

Lemma digits_no c s : is_ascii_digit c = false -> Forall (fun c => is_ascii_digit c = true) s ->
  c ∉ s.
Proof. intros Hc Hs Hin. rewrite Forall_forall in Hs. apply Hs in Hin. congruence. Qed.

Lemma show_u8_ok n : is_u8 n ->
  parse_uint U8_MAX (show_u8 n) = Some n /\ "."%char ∉ show_u8 n.
Proof.
  intros (H1 & H2 & _)%show_u8_digits. split; [done|]. by apply digits_no.
Qed.

Lemma split_cons_piece c a s : c ∉ a -> split c (a ++ c :: s) = a :: split c s.
Proof.
  induction a as [|x a IH]; intros H; simpl.
  - by rewrite bool_decide_eq_true_2.
  - rewrite bool_decide_eq_false_2 by set_solver. rewrite IH by set_solver. done.
Qed.

Lemma split_last_piece c a : c ∉ a -> split c a = [a].
Proof.
  induction a as [|x a IH]; intros H; simpl; [done|].
  rewrite bool_decide_eq_false_2 by set_solver. rewrite IH by set_solver. done.
Qed.

(** ** Decimal text of a [u32] *)

Lemma digit_char_val d : 0 <= d <= 9 ->
  is_ascii_digit (digit_char d) = true /\ digit_val (digit_char d) = d
  /\ digit_char d <> "+"%char.
Proof.
  intros. assert (d = 0 \/ d = 1 \/ d = 2 \/ d = 3 \/ d = 4 \/ d = 5 \/ d = 6 \/ d = 7
    \/ d = 8 \/ d = 9) as Hd by lia.
  repeat destruct Hd as [->|Hd]; try subst d; done.
Qed.

Lemma parse_digits_app bound a b : forall acc,
  parse_digits bound acc (a ++ b) =
  match parse_digits bound acc a with Some v => parse_digits bound v b | None => None end.
Proof.
  induction a as [|c a IH]; intros acc; simpl; [done|]. repeat case_match; try done.
  all: rewrite IH; by rewrite H1 || done.
Qed.

Lemma parse_show_digits fuel : forall n, 0 <= n < 10 ^ Z.of_nat (S fuel) -> n <= U32_MAX ->
  parse_digits U32_MAX 0 (show_digits (S fuel) n) = Some n
  /\ exists c s, show_digits (S fuel) n = c :: s /\ c <> "+"%char.
Proof.
  assert (Hone : forall fuel n, 0 <= n < 10 -> parse_digits U32_MAX 0 (show_digits (S fuel) n) = Some n
    /\ exists c s, show_digits (S fuel) n = c :: s /\ c <> "+"%char).
  { intros f n Hn. cbn [show_digits]. rewrite (proj2 (Z.ltb_lt _ _)) by lia.
    destruct (digit_char_val n) as (Hd & Hv & Hp); [lia|]. cbn [parse_digits]. rewrite Hd, Hv.
    rewrite (proj2 (Z.leb_le _ _)) by (unfold U32_MAX; lia). split; [f_equal; lia | eauto]. }
  induction fuel as [|fuel IH]; intros n Hn Hb; [apply Hone; simpl in Hn; lia|].
  destruct (Z.ltb_spec n 10) as [Hlt|Hge]; [apply Hone; lia|].
  assert (Hq : 0 <= n / 10 < 10 ^ Z.of_nat (S fuel)).
  { rewrite (Nat2Z.inj_succ (S fuel)), Z.pow_succ_r in Hn by lia.
    split; [apply Z.div_pos; lia | apply Z.div_lt_upper_bound; lia]. }
  destruct (IH (n / 10) Hq) as (Hpd & c & s & Hc & Hcp); [zdiv|].
  remember (S fuel) as f. cbn [show_digits]. rewrite (proj2 (Z.ltb_ge _ _)) by lia.
  rewrite parse_digits_app, Hpd. cbn [parse_digits].
  destruct (digit_char_val (n mod 10)) as (Hd & Hv & _); [zdiv|]. rewrite Hd, Hv.
  rewrite (proj2 (Z.leb_le _ _)) by zdiv. split; [f_equal; zdiv|].
  rewrite Hc. exists c, (s ++ [digit_char (n mod 10)]). done.
Qed.

Lemma parse_digits_range bound s : forall acc n, 0 <= acc <= bound ->
  parse_digits bound acc s = Some n -> acc <= n <= bound.
Proof.
  induction s as [|c s IH]; intros acc n Ha; simpl; [intros [= <-]; lia|].
  destruct (is_ascii_digit c) eqn:Ed; [|done].
  assert (0 <= digit_val c) by (unfold is_ascii_digit, in_range in Ed; unfold digit_val; breflect; lia).
  destruct (Z.leb_spec (acc * 10 + digit_val c) bound) as [Hle|]; [|done].
  intros Hp. apply IH in Hp; lia.
Qed.

Lemma parse_uint_range bound s n : 0 <= bound -> parse_uint bound s = Some n -> 0 <= n <= bound.
Proof.
  intros Hb. unfold parse_uint. set (digits := match s with [] => s | _ => _ end).
  destruct digits as [|c ds]; [done|]. intros Hp. eapply parse_digits_range in Hp; lia.
Qed.

Lemma parse_show_u32 n : is_u32 n -> parse_uint U32_MAX (show_u32 n) = Some n.
Proof.
  intros [Hlo Hhi]. destruct (parse_show_digits 9 n) as (Hp & c & s & Hc & Hne);
    [unfold U32_MAX in *; lia | done |].
  unfold parse_uint, show_u32. rewrite Hc in *. rewrite bool_decide_eq_false_2 by done. done.
Qed.
