(* ===== verification/Net.v ===== *)
(** * Addresses and subnets

    [std::net] addresses (values, classification, text), the shared
    classification of [wardnet-common/src/net.rs] and the subnet arithmetic of
    [wardnetd-services/src/subnet.rs].  An [Ipv4Addr] is its [u32]; an
    [Ipv6Addr] its 128-bit integer.  The [ipnetwork] crate is an interface
    ([Ipv4NetworkLib] with the documented laws [Ipv4NetworkLaws]); a concrete
    model of it ([cidr]) shows the laws are consistent. *)

From S2P Require Import Prelude RustStr.

(** ** [std::net] *)

Abbreviation Ipv4Addr := Z.

Definition octets (a : Ipv4Addr) : Z * Z * Z * Z :=
  (a / 16777216 mod 256, a / 65536 mod 256, a / 256 mod 256, a mod 256).

Definition ipv4_new (a b c d : Z) : Ipv4Addr :=
  a * 16777216 + b * 65536 + c * 256 + d.

Definition UNSPECIFIED : Ipv4Addr := 0.
Definition BROADCAST : Ipv4Addr := U32_MAX.

(** [u32] addition as a release build computes it. *)
Definition u32_add (a b : Z) : Z := (a + b) mod 4294967296.

Definition is_unspecified (a : Ipv4Addr) : bool := a =? UNSPECIFIED.
Definition is_broadcast (a : Ipv4Addr) : bool := a =? BROADCAST.

Definition is_private (ip : Ipv4Addr) : bool :=
  let '(a, b, _, _) := octets ip in
  (a =? 10) || ((a =? 172) && (16 <=? b) && (b <=? 31)) || ((a =? 192) && (b =? 168)).

Definition is_loopback (ip : Ipv4Addr) : bool :=
  let '(a, _, _, _) := octets ip in a =? 127.

Definition is_link_local (ip : Ipv4Addr) : bool :=
  let '(a, b, _, _) := octets ip in (a =? 169) && (b =? 254).

Definition is_documentation (ip : Ipv4Addr) : bool :=
  let '(a, b, c, _) := octets ip in
  ((a =? 192) && (b =? 0) && (c =? 2)) || ((a =? 198) && (b =? 51) && (c =? 100))
  || ((a =? 203) && (b =? 0) && (c =? 113)).

Inductive IpAddr : Type :=
| V4 (a : Z)
| V6 (a : Z).

#[export] Instance IpAddr_eq_dec : EqDecision IpAddr.
Proof. solve_decision. Defined.
#[export] Instance IpAddr_countable : Countable IpAddr.
Proof.
  refine (inj_countable' (fun ip => match ip with V4 a => inl a | V6 a => inr a end)
    (fun s => match s with inl a => V4 a | inr a => V6 a end) _).
  by intros [].
Defined.

Definition ip_is_unspecified (ip : IpAddr) : bool :=
  match ip with V4 a => a =? 0 | V6 a => a =? 0 end.

(** [addr.segments()[i]] *)
Definition segment (a i : Z) : Z := a / 2 ^ (112 - 16 * i) mod 65536.

(** [addr.to_ipv4_mapped()]: [::ffff:a.b.c.d]. *)
Definition to_ipv4_mapped (a : Z) : option Z :=
  if a / 4294967296 =? 65535 then Some (a mod 4294967296) else None.

(** *** Text *)

Fixpoint span_str (f : ascii -> bool) (s : str) : str * str :=
  match s with
  | [] => ([], [])
  | c :: s' => if f c then let '(a, b) := span_str f s' in (c :: a, b) else ([], s)
  end.

Definition hex_val (c : ascii) : option Z :=
  if is_ascii_digit c then Some (byte_val c - 48)
  else if in_range 97 102 c then Some (byte_val c - 87)
  else if in_range 65 70 c then Some (byte_val c - 55)
  else None.

Definition radix_digit (radix : Z) (c : ascii) : option Z :=
  match hex_val c with
  | Some d => if d <? radix then Some d else None
  | None => None
  end.

Definition is_radix_digit (radix : Z) (c : ascii) : bool :=
  match radix_digit radix c with Some _ => true | None => false end.

Definition digits_value (radix : Z) (ds : str) : Z :=
  foldl (fun acc c => acc * radix + default 0 (radix_digit radix c)) 0 ds.

(** [Parser::read_number]: every digit in sight, at most [max] of them when a
    maximum is given, no redundant leading zero unless allowed. *)
Definition read_number (radix : Z) (max : option nat) (allow_zero_prefix : bool)
    (bound : Z) (s : str) : option (Z * str) :=
  let '(ds, rest) := span_str (is_radix_digit radix) s in
  let n := length ds in
  if Nat.eqb n 0 then None
  else if match max with Some m => Nat.ltb m n | None => false end then None
  else if negb allow_zero_prefix && bool_decide (head ds = Some "0"%char) && Nat.ltb 1 n
  then None
  else let v := digits_value radix ds in
       if v <=? bound then Some (v, rest) else None.

Definition read_char (c : ascii) (s : str) : option str := strip_prefix [c] s.

Definition read_octet : str -> option (Z * str) := read_number 10 (Some 3%nat) false U8_MAX.

(** [Parser::read_ipv4_addr] *)
Definition read_ipv4 (s : str) : option (Ipv4Addr * str) :=
  '(a, s) ← read_octet s; s ← read_char "."%char s;
  '(b, s) ← read_octet s; s ← read_char "."%char s;
  '(c, s) ← read_octet s; s ← read_char "."%char s;
  '(d, s) ← read_octet s;
  Some (ipv4_new a b c d, s).

Definition whole {A} (r : option (A * str)) : option A :=
  match r with Some (a, []) => Some a | _ => None end.

(** [s.parse::<Ipv4Addr>()] and its inverse [a.to_string()]. *)
Definition parse_ipv4 (s : str) : option Ipv4Addr := whole (read_ipv4 s).

Definition show_ipv4 (ip : Ipv4Addr) : str :=
  let '(a, b, c, d) := octets ip in
  show_u8 a ++ "." ++ show_u8 b ++ "." ++ show_u8 c ++ "." ++ show_u8 d.

(** [Parser::read_ipv6_addr]: up to [limit] colon-separated groups; a dotted
    quad may take the place of the last two. The flag says a quad ended it. *)
Definition read_sep {A} (first : bool) (p : str -> option (A * str)) (s : str)
    : option (A * str) :=
  if first then p s else s ← read_char ":"%char s; p s.

Fixpoint read_groups (limit : nat) (first : bool) (s : str) : list Z * bool * str :=
  match limit with
  | O => ([], false, s)
  | S limit' =>
      let quad := if Nat.ltb 0 limit' then read_sep first read_ipv4 s else None in
      match quad with
      | Some (v, s') => ([v / 65536; v mod 65536], true, s')
      | None =>
          match read_sep first (read_number 16 (Some 4%nat) true U16_MAX) s with
          | Some (g, s') =>
              let '(gs, v4, s'') := read_groups limit' false s' in (g :: gs, v4, s'')
          | None => ([], false, s)
          end
      end
  end.

Definition ipv6_of_segments (gs : list Z) : Z := foldl (fun acc g => acc * 65536 + g) 0 gs.

Definition read_ipv6 (s : str) : option (Z * str) :=
  let '(hd, v4, s1) := read_groups 8 true s in
  if Nat.eqb (length hd) 8 then Some (ipv6_of_segments hd, s1)
  else if v4 then None
  else s2 ← read_char ":"%char s1; s3 ← read_char ":"%char s2;
       let '(tl, _, s4) := read_groups (8 - (length hd + 1)) true s3 in
       Some (ipv6_of_segments
               (hd ++ replicate (8 - length hd - length tl) 0 ++ tl), s4).

(** [s.parse::<IpAddr>()] *)
Definition parse_ip (s : str) : option IpAddr :=
  whole (match read_ipv4 s with
         | Some (a, r) => Some (V4 a, r)
         | None => match read_ipv6 s with
                   | Some (a, r) => Some (V6 a, r)
                   | None => None
                   end
         end).

(** A [SocketAddr]: address and port. *)
Record SocketAddr : Type := { sa_ip : IpAddr; sa_port : Z }.

Definition read_port (s : str) : option (Z * str) :=
  s ← read_char ":"%char s; read_number 10 None true U16_MAX s.

Definition read_scope_id (s : str) : str :=
  match read_char "%"%char s with
  | Some s' => match read_number 10 None true U32_MAX s' with Some (_, r) => r | None => s end
  | None => s
  end.

(** [s.parse::<SocketAddr>()] *)
Definition parse_socket_addr (s : str) : option SocketAddr :=
  whole (match ('(a, s) ← read_ipv4 s; '(p, s) ← read_port s; Some (a, p, s)) with
         | Some (a, p, r) => Some ({| sa_ip := V4 a; sa_port := p |}, r)
         | None =>
             s ← read_char "["%char s; '(a, s) ← read_ipv6 s;
             s ← read_char "]"%char (read_scope_id s); '(p, s) ← read_port s;
             Some ({| sa_ip := V6 a; sa_port := p |}, s)
         end).

Example parse_ip_v6 : parse_ip "2001:db8::1:192.0.2.33" =
  Some (V6 (0x20010db8000000000000000100000000 + 0xc0000221)).
Proof. vm_compute. reflexivity. Qed.
Example parse_ip_v4 : parse_ip "192.168.1.10" = Some (V4 (ipv4_new 192 168 1 10)).
Proof. vm_compute. reflexivity. Qed.
Example parse_ip_bad : parse_ip "192.168.01.10" = None.
Proof. vm_compute. reflexivity. Qed.

(** ** [wardnet-common/src/net.rs] *)

Definition is_reserved_ipv4 (addr : Ipv4Addr) : bool :=
  is_private addr || is_loopback addr || is_link_local addr || is_broadcast addr
  || is_documentation addr || is_unspecified addr
  || (let '(a, b, _, _) := octets addr in
      (a =? 100) && (Z.land b 192 =? 64)).

Definition BLOCKS : list (Ipv4Addr * Z) :=
  [(ipv4_new 10 0 0 0, 8); (ipv4_new 172 16 0 0, 12); (ipv4_new 192 168 0 0, 16)].

(** [u32::MAX << (32 - p)] keeps the low 32 bits. *)
Definition block_mask (block_prefix : Z) : Z :=
  if block_prefix =? 0 then 0 else Z.land (Z.shiftl U32_MAX (32 - block_prefix)) U32_MAX.

Definition is_rfc1918_subnet (base : Ipv4Addr) (prefix : Z) : bool :=
  existsb (fun '(net, block_prefix) =>
    if prefix <? block_prefix then false
    else Z.land base (block_mask block_prefix) =? net) BLOCKS.

Definition is_unique_local_v6 (addr : Z) : bool :=
  Z.land (segment addr 0) 65024 =? 64512.

Definition is_link_local_v6 (addr : Z) : bool :=
  Z.land (segment addr 0) 65472 =? 65152.

Definition is_private_ip (ip : IpAddr) : bool :=
  match ip with
  | V4 v4 => is_reserved_ipv4 v4
  | V6 v6 =>
      match to_ipv4_mapped v6 with
      | Some v4 => is_reserved_ipv4 v4
      | None => (v6 =? 1) || (v6 =? 0) || is_unique_local_v6 v6 || is_link_local_v6 v6
      end
  end.

(** ** The [ipnetwork] crate, as an interface *)

Class Ipv4NetworkLib : Type := {
  Ipv4Network : Type;
  (** [Ipv4Network::new(addr, prefix)] *)
  net_new : Ipv4Addr -> Z -> option Ipv4Network;
  (** [s.parse::<Ipv4Network>()] *)
  net_parse : str -> option Ipv4Network;
  net_network : Ipv4Network -> Ipv4Addr;
  net_broadcast : Ipv4Network -> Ipv4Addr;
  net_mask : Ipv4Network -> Ipv4Addr;
  net_prefix : Ipv4Network -> Z;
  net_contains : Ipv4Network -> Ipv4Addr -> bool;
}.

(** What the crate documents: the prefix is at most 32, [network] clears the
    host bits, [broadcast] sets them, [contains] is the range test. *)
Class Ipv4NetworkLaws (L : Ipv4NetworkLib) : Prop := {
  prefix_range n : 0 <= net_prefix n <= 32;
  network_range n : 0 <= net_network n /\ net_broadcast n <= U32_MAX;
  network_aligned n : net_network n mod 2 ^ (32 - net_prefix n) = 0;
  broadcast_spec n : net_broadcast n = net_network n + 2 ^ (32 - net_prefix n) - 1;
  contains_spec n a :
    net_contains n a = true <-> net_network n <= a <= net_broadcast n;
  new_spec a p n : is_u32 a -> net_new a p = Some n ->
    net_prefix n = p /\ net_contains n a = true;
}.

(** ** [wardnetd-services/src/subnet.rs] *)

Section subnet.
Context {L : Ipv4NetworkLib}.

Definition gateway_for (net : Ipv4Network) : Ipv4Addr := u32_add (net_network net) 1.

Definition pool_bounds (net : Ipv4Network) : option (Ipv4Addr * Ipv4Addr) :=
  let start := u32_add (net_network net) 10 in
  let end_ := sat_sub (net_broadcast net) 6 in
  if end_ <=? start then None else Some (start, end_).

Definition canonical_cidr (net : Ipv4Network) : str :=
  show_ipv4 (net_network net) ++ "/" ++ show_u8 (net_prefix net).

End subnet.

(** A model of the interface: address and prefix kept as constructed. *)
Record cidr : Type := Cidr { cidr_addr : Z; cidr_prefix : Z }.

Definition cidr_size (p : Z) : Z := 2 ^ (32 - p).

Definition cidr_new (a p : Z) : option cidr :=
  if (0 <=? p) && (p <=? 32) then Some (Cidr (a mod 4294967296) p) else None.

Definition cidr_clip (c : cidr) : Z := Z.max 0 (Z.min 32 (cidr_prefix c)).
Definition cidr_network (c : cidr) : Z :=
  (cidr_addr c mod 4294967296) / cidr_size (cidr_clip c) * cidr_size (cidr_clip c).
Definition cidr_broadcast (c : cidr) : Z := cidr_network c + cidr_size (cidr_clip c) - 1.

Definition cidr_parse (s : str) : option cidr :=
  match split_once "/"%char s with
  | Some (a, p) => a ← parse_ipv4 a; p ← parse_uint 32 p; cidr_new a p
  | None => a ← parse_ipv4 s; cidr_new a 32
  end.

#[export] Instance cidr_lib : Ipv4NetworkLib := {|
  Ipv4Network := cidr;
  net_new := cidr_new;
  net_parse := cidr_parse;
  net_network := cidr_network;
  net_broadcast := cidr_broadcast;
  net_mask := fun c => 4294967296 - cidr_size (cidr_clip c);
  net_prefix := cidr_clip;
  net_contains := fun c a => (cidr_network c <=? a) && (a <=? cidr_broadcast c);
|}.

(** ** Lemmas *)

Lemma octets_bounds ip : forall a b c d, octets ip = (a, b, c, d) ->
  is_u8 a /\ is_u8 b /\ is_u8 c /\ is_u8 d.
Proof. unfold octets, is_u8, U8_MAX. intros. simplify_eq. repeat split; zdiv. Qed.

Lemma ipv4_new_octets ip : is_u32 ip ->
  forall a b c d, octets ip = (a, b, c, d) -> ipv4_new a b c d = ip.
Proof. unfold octets, is_u32, U32_MAX, ipv4_new. intros. simplify_eq. zdiv. Qed.

Lemma octets_ipv4_new a b c d : is_u8 a -> is_u8 b -> is_u8 c -> is_u8 d ->
  octets (ipv4_new a b c d) = (a, b, c, d).
Proof. unfold is_u8, U8_MAX, octets, ipv4_new. intros. repeat f_equal; zdiv. Qed.

(** The private ranges as intervals of [u32]. *)
Lemma is_private_spec ip : is_u32 ip ->
  is_private ip = true <->
  167772160 <= ip <= 184549375 \/ 2886729728 <= ip <= 2887778303
  \/ 3232235520 <= ip <= 3232301055.
Proof.
  unfold is_private, octets, is_u32, U32_MAX. intros H.
  rewrite !orb_true_iff, !andb_true_iff, !Z.eqb_eq, !Z.leb_le. zdiv.
Qed.

Lemma land_block_mask p x : 0 <= x <= U32_MAX -> 0 < p <= 32 ->
  Z.land x (block_mask p) = x - x mod 2 ^ (32 - p).
Proof.
  intros Hx Hp. unfold block_mask. rewrite (proj2 (Z.eqb_neq p 0)) by lia.
  change U32_MAX with (Z.ones 32) in *.
  rewrite Z.land_assoc, Z.land_ones by lia.
  assert (Hl : Z.land x (Z.shiftl (Z.ones 32) (32 - p))
               = Z.shiftl (Z.shiftr x (32 - p)) (32 - p)).
  { rewrite <- Z.ldiff_ones_r by lia.
    apply Z.bits_inj'. intros i Hi.
    rewrite Z.land_spec, Z.ldiff_spec, Z.shiftl_spec, (Z.testbit_ones_nonneg (32 - p) i) by lia.
    destruct (Z.ltb_spec i (32 - p)).
    - rewrite (Z.testbit_neg_r (Z.ones 32)) by lia. by rewrite !andb_false_r.
    - rewrite andb_true_r. destruct (Z.ltb_spec (i - (32 - p)) 32).
      + rewrite Z.testbit_ones_nonneg, (proj2 (Z.ltb_lt _ _)) by lia. by rewrite andb_true_r.
      + rewrite (proj2 (Z.testbit_false x i ltac:(lia))); [done|].
        change (Z.ones 32) with (2 ^ 32 - 1) in Hx.
        pose proof (Z.pow_le_mono_r 2 32 i).
        rewrite Z.div_small by lia. done. }
  rewrite Hl, Z.shiftr_div_pow2, Z.shiftl_mul_pow2 by lia.
  pose proof (Z.div_mod x (2 ^ (32 - p))) as Hd.
  assert (0 < 2 ^ (32 - p)) by lia.
  change (Z.ones 32) with (2 ^ 32 - 1) in Hx.
  pose proof (Z.mod_pos_bound x (2 ^ (32 - p))).
  pose proof (Z.mod_le x (2 ^ (32 - p))).
  rewrite Z.mod_small; lia.
Qed.

Lemma multiple_gap s b r : 0 < s -> (s | b) -> (s | r) -> 0 <= r < b -> r + s <= b.
Proof. intros Hs [k ->] [m ->] H. assert (m < k) by nia. nia. Qed.

Lemma pow_divide i j : 0 <= i <= j -> (2 ^ i | 2 ^ j).
Proof. intros. exists (2 ^ (j - i)). rewrite <- Z.pow_add_r by lia. f_equal. lia. Qed.

(** A subnet whose base masks to a wider block lies inside the block. *)
Lemma subnet_in_block base p bp : 0 <= bp <= p -> p <= 32 ->
  base mod 2 ^ (32 - p) = 0 ->
  base - base mod 2 ^ (32 - bp) + 2 ^ (32 - bp) >= base + 2 ^ (32 - p).
Proof.
  intros Hb Hp Hal.
  assert (0 < 2 ^ (32 - p)) by (apply Z.pow_pos_nonneg; lia).
  assert (0 < 2 ^ (32 - bp)) by (apply Z.pow_pos_nonneg; lia).
  assert (Hd : (2 ^ (32 - p) | 2 ^ (32 - bp))) by (apply pow_divide; lia).
  assert (Hr : (2 ^ (32 - p) | base mod 2 ^ (32 - bp))).
  { apply Z.mod_divide in Hal; [|lia]. rewrite Z.mod_eq by lia.
    apply Z.divide_sub_r; [done|]. by apply Z.divide_mul_l. }
  pose proof (Z.mod_pos_bound base (2 ^ (32 - bp))).
  pose proof (multiple_gap (2 ^ (32 - p)) _ _ ltac:(done) Hd Hr ltac:(lia)). lia.
Qed.

Lemma is_rfc1918_subnet_true base p : is_u32 base ->
  is_rfc1918_subnet base p = true <->
  (8 <= p /\ base - base mod 2 ^ 24 = 167772160) \/
  (12 <= p /\ base - base mod 2 ^ 20 = 2886729728) \/
  (16 <= p /\ base - base mod 2 ^ 16 = 3232235520).
Proof.
  intros Hb. unfold is_rfc1918_subnet. simpl existsb.
  rewrite !land_block_mask by (done || lia). simpl (32 - _).
  rewrite !orb_true_iff. change (ipv4_new 10 0 0 0) with 167772160.
  change (ipv4_new 172 16 0 0) with 2886729728.
  change (ipv4_new 192 168 0 0) with 3232235520.
  repeat match goal with |- context [?a <? ?b] => destruct (Z.ltb_spec a b) end;
    rewrite ?Z.eqb_eq; intuition (lia || congruence).
Qed.

Lemma pow_ge_of_lt p k : 0 <= p < k -> k <= 32 -> 2 ^ (32 - k) < 2 ^ (32 - p).
Proof. intros. apply Z.pow_lt_mono_r; lia. Qed.

(** The prefix-and-mask test accepts a subnet exactly when every address in
    it is private. *)
Lemma rfc1918_subnet_private base p : is_u32 base -> 0 <= p <= 32 ->
  base mod 2 ^ (32 - p) = 0 -> base + 2 ^ (32 - p) - 1 <= U32_MAX ->
  is_rfc1918_subnet base p = true <->
  forall a, base <= a <= base + 2 ^ (32 - p) - 1 -> is_private a = true.
Proof.
  intros Hb Hp Hal Hmax. rewrite is_rfc1918_subnet_true by done.
  assert (Hsz : 0 < 2 ^ (32 - p)) by (apply Z.pow_pos_nonneg; lia). unfold is_u32, U32_MAX in *. split.
  - intros Hblk a Ha. rewrite is_private_spec by (unfold is_u32, U32_MAX; lia).
    destruct Hblk as [[Hge E]|[[Hge E]|[Hge E]]].
    + pose proof (subnet_in_block base p 8 ltac:(lia) ltac:(lia) Hal).
      change (2 ^ (32 - 8)) with (2 ^ 24) in *. zdiv.
    + pose proof (subnet_in_block base p 12 ltac:(lia) ltac:(lia) Hal).
      change (2 ^ (32 - 12)) with (2 ^ 20) in *. zdiv.
    + pose proof (subnet_in_block base p 16 ltac:(lia) ltac:(lia) Hal).
      change (2 ^ (32 - 16)) with (2 ^ 16) in *. zdiv.
  - intros Hall.
    assert (Hin : forall a, base <= a <= base + 2 ^ (32 - p) - 1 ->
      167772160 <= a <= 184549375 \/ 2886729728 <= a <= 2887778303
      \/ 3232235520 <= a <= 3232301055).
    { intros a Ha. apply is_private_spec; [unfold is_u32, U32_MAX; lia | by apply Hall]. }
    destruct (Hin base) as [H|[H|H]]; [lia| | |].
    + left. split; [|zdiv]. destruct (Z_lt_le_dec p 8) as [Hlt|]; [|done].
      pose proof (pow_ge_of_lt p 8 ltac:(lia) ltac:(lia)).
      change (2 ^ (32 - 8)) with 16777216 in *. specialize (Hin (base + 16777216)). lia.
    + right; left. split; [|zdiv]. destruct (Z_lt_le_dec p 12) as [Hlt|]; [|done].
      pose proof (pow_ge_of_lt p 12 ltac:(lia) ltac:(lia)).
      change (2 ^ (32 - 12)) with 1048576 in *. specialize (Hin (base + 1048576)). lia.
    + right; right. split; [|zdiv]. destruct (Z_lt_le_dec p 16) as [Hlt|]; [|done].
      pose proof (pow_ge_of_lt p 16 ltac:(lia) ltac:(lia)).
      change (2 ^ (32 - 16)) with 65536 in *. specialize (Hin (base + 65536)). lia.
Qed.

Lemma pow_split p : 0 <= p <= 32 -> 4294967296 = 2 ^ p * 2 ^ (32 - p).
Proof.
  intros. rewrite <- Z.pow_add_r by lia. replace (p + (32 - p)) with 32 by lia. done.
Qed.

#[export] Instance cidr_laws : Ipv4NetworkLaws cidr_lib.
Proof.
  assert (Hclip : forall c, 0 <= cidr_clip c <= 32) by (unfold cidr_clip; lia).
  assert (Hpos : forall c, 0 < cidr_size (cidr_clip c)).
  { intros c. unfold cidr_size. apply Z.pow_pos_nonneg; [lia|]. specialize (Hclip c). lia. }
  assert (Hnet : forall c, 0 <= cidr_network c /\ cidr_broadcast c <= U32_MAX).
  { intros c. unfold cidr_broadcast, cidr_network, U32_MAX.
    specialize (Hclip c). specialize (Hpos c).
    pose proof (pow_split _ Hclip) as Hs. unfold cidr_size in *.
    set (s := 2 ^ (32 - cidr_clip c)) in *. set (a := cidr_addr c mod 4294967296).
    assert (0 <= a < 4294967296) by (apply Z.mod_pos_bound; lia).
    assert (a / s < 2 ^ cidr_clip c) by (apply Z.div_lt_upper_bound; nia).
    assert (0 <= a / s) by (apply Z.div_pos; lia). nia. }
  split; simpl.
  - done.
  - done.
  - intros c. unfold cidr_network, cidr_size. rewrite Z.mod_mul; [done|].
    specialize (Hpos c). unfold cidr_size in Hpos. lia.
  - done.
  - intros c a. rewrite andb_true_iff, !Z.leb_le. done.
  - intros a p c Ha. unfold cidr_new. destruct (_ && _) eqn:E; [|done]. intros [= <-].
    breflect. unfold cidr_clip at 1. simpl. split; [lia|].
    unfold cidr_broadcast, cidr_network, cidr_size. simpl.
    replace (cidr_clip (Cidr (a mod 4294967296) p)) with p by (unfold cidr_clip; simpl; lia).
    unfold is_u32, U32_MAX in Ha. rewrite Z.mod_mod, (Z.mod_small a) by lia.
    assert (0 < 2 ^ (32 - p)) by (apply Z.pow_pos_nonneg; lia).
    pose proof (Z.div_mod a (2 ^ (32 - p))). pose proof (Z.mod_pos_bound a (2 ^ (32 - p))).
    rewrite andb_true_iff, !Z.leb_le. lia.
Qed.

(** Subnet arithmetic against the interface. *)
Section subnet_laws.
Context {L : Ipv4NetworkLib} {HL : Ipv4NetworkLaws L}.

Lemma net_size_pos n : 0 < 2 ^ (32 - net_prefix n).
Proof. apply Z.pow_pos_nonneg; [lia|]. pose proof (prefix_range n). lia. Qed.

Lemma net_small n : 28 <= net_prefix n -> 2 ^ (32 - net_prefix n) <= 16.
Proof.
  intros. pose proof (prefix_range n). change 16 with (2 ^ 4). apply Z.pow_le_mono_r; lia.
Qed.

Lemma net_large n : net_prefix n <= 27 -> 32 <= 2 ^ (32 - net_prefix n).
Proof.
  intros. pose proof (prefix_range n). change 32 with (2 ^ 5) at 1. apply Z.pow_le_mono_r; lia.
Qed.

Lemma pool_bounds_Some n s e :
  net_network n + 10 <= U32_MAX -> pool_bounds n = Some (s, e) ->
  s = net_network n + 10 /\ e = net_broadcast n - 6 /\ s < e /\ net_prefix n <= 27.
Proof.
  intros Hov. unfold pool_bounds, u32_add, sat_sub, U32_MAX in *.
  pose proof (network_range n) as [? ?]. rewrite (Z.mod_small (_ + 10)) by lia.
  destruct (Z.leb_spec (Z.max 0 (net_broadcast n - 6)) (net_network n + 10)); [done|].
  intros [= <- <-]. repeat split; try lia.
  destruct (Z_le_gt_dec (net_prefix n) 27); [done|].
  pose proof (net_small n ltac:(lia)). rewrite broadcast_spec in *. lia.
Qed.

Lemma pool_bounds_None n :
  net_network n + 10 <= U32_MAX -> pool_bounds n = None -> 28 <= net_prefix n.
Proof.
  intros Hov. unfold pool_bounds, u32_add, sat_sub, U32_MAX in *.
  pose proof (network_range n) as [? ?]. rewrite (Z.mod_small (_ + 10)) by lia.
  destruct (Z.leb_spec (Z.max 0 (net_broadcast n - 6)) (net_network n + 10)); [|done].
  intros _. destruct (Z_le_gt_dec (net_prefix n) 27); [|lia].
  pose proof (net_large n ltac:(lia)). rewrite broadcast_spec in *. lia.
Qed.

(** The pool of a zone subnet exists exactly for prefixes up to /27, lies
    inside the subnet, and never contains the gateway alias, the network
    address or the broadcast address. *)
Lemma pool_bounds_inside n s e a :
  net_network n + 10 <= U32_MAX -> pool_bounds n = Some (s, e) -> s <= a <= e ->
  net_contains n a = true /\ a <> gateway_for n /\ a <> net_network n
  /\ a <> net_broadcast n.
Proof.
  intros Hov Hp Ha. destruct (pool_bounds_Some n s e Hov Hp) as (-> & -> & ? & ?).
  unfold gateway_for, u32_add, U32_MAX in *. pose proof (network_range n).
  rewrite Z.mod_small, contains_spec by lia. lia.
Qed.

End subnet_laws.

(** *** IPv4 text: printing and parsing are inverse, and the text is canonical *)

Lemma radix_digit_char d : 0 <= d <= 9 -> radix_digit 10 (digit_char d) = Some d.
Proof.
  intros. assert (d = 0 \/ d = 1 \/ d = 2 \/ d = 3 \/ d = 4 \/ d = 5 \/ d = 6 \/ d = 7
    \/ d = 8 \/ d = 9) as Hd by lia.
  repeat destruct Hd as [->|Hd]; try subst d; reflexivity.
Qed.

Lemma radix_digit_inv c d : radix_digit 10 c = Some d -> c = digit_char d /\ 0 <= d <= 9.
Proof. all_bytes c; by intros [= <-]. Qed.

Definition no_leading_digit (s : str) : Prop :=
  match s with c :: _ => radix_digit 10 c = None | [] => True end.

Lemma span_str_app f ds rest :
  Forall (fun c => f c = true) ds -> match rest with c :: _ => f c = false | [] => True end ->
  span_str f (ds ++ rest) = (ds, rest).
Proof.
  intros Hds Hr. induction Hds as [|c ds Hc _ IH]; simpl.
  - destruct rest; simpl; [done|]. by rewrite Hr.
  - by rewrite Hc, IH.
Qed.

Lemma span_str_spec f s ds rest : span_str f s = (ds, rest) ->
  s = ds ++ rest /\ Forall (fun c => f c = true) ds
  /\ match rest with c :: _ => f c = false | [] => True end.
Proof.
  revert ds. induction s as [|c s IH]; simpl; intros ds H.
  - by simplify_eq/=.
  - destruct (f c) eqn:Ec.
    + destruct (span_str f s) as [a b] eqn:E. simplify_eq.
      destruct (IH a eq_refl) as (-> & ? & ?). split; [done|]. split; [by constructor | done].
    + by simplify_eq/=.
Qed.

Lemma is_radix_digit_char d : 0 <= d <= 9 -> is_radix_digit 10 (digit_char d) = true.
Proof. intros. unfold is_radix_digit. by rewrite radix_digit_char. Qed.

Lemma digit_char_zero d : 0 <= d <= 9 -> digit_char d = "0"%char -> d = 0.
Proof.
  intros Hd E. apply (f_equal (radix_digit 10)) in E. rewrite radix_digit_char in E by done.
  by vm_compute in E; simplify_eq.
Qed.

Lemma read_octet_show n rest : is_u8 n -> no_leading_digit rest ->
  read_octet (show_u8 n ++ rest) = Some (n, rest).
Proof.
  intros Hn Hr. unfold is_u8, U8_MAX in Hn. unfold read_octet, read_number, show_u8.
  assert (Hr' : match rest with c :: _ => is_radix_digit 10 c = false | [] => True end).
  { destruct rest; [done|]. simpl in Hr. unfold is_radix_digit. by rewrite Hr. }
  assert (H1 : 0 <= n mod 10 <= 9) by zdiv. assert (H2 : 0 <= n / 10 mod 10 <= 9) by zdiv.
  destruct (Z.ltb_spec n 10); [|destruct (Z.ltb_spec n 100)].
  - rewrite span_str_app by (try done; repeat constructor; apply is_radix_digit_char; lia).
    cbn [length Nat.eqb Nat.ltb Nat.leb]. rewrite andb_false_r.
    unfold digits_value. simpl foldl. rewrite radix_digit_char by lia. simpl default.
    rewrite (proj2 (Z.leb_le _ _)) by (unfold U8_MAX; lia). repeat f_equal; lia.
  - assert (0 <= n / 10 <= 9) by zdiv.
    rewrite span_str_app by (try done; repeat constructor; by apply is_radix_digit_char).
    cbn [length Nat.eqb Nat.ltb Nat.leb head].
    rewrite bool_decide_eq_false_2 by (intros [= E%digit_char_zero]; zdiv).
    unfold digits_value. simpl foldl. rewrite !radix_digit_char by lia. simpl.
    rewrite (proj2 (Z.leb_le _ _)) by (unfold U8_MAX; zdiv). repeat f_equal; zdiv.
  - assert (0 <= n / 100 <= 9) by zdiv.
    rewrite span_str_app by (try done; repeat constructor; by apply is_radix_digit_char).
    cbn [length Nat.eqb Nat.ltb Nat.leb head].
    rewrite bool_decide_eq_false_2 by (intros [= E%digit_char_zero]; zdiv).
    unfold digits_value. simpl foldl. rewrite !radix_digit_char by lia. simpl.
    rewrite (proj2 (Z.leb_le _ _)) by (unfold U8_MAX; zdiv). repeat f_equal; zdiv.
Qed.

Lemma read_char_cons c s : read_char c (c :: s) = Some s.
Proof. by apply strip_prefix_Some. Qed.

Lemma read_ipv4_show ip rest : is_u32 ip -> no_leading_digit rest ->
  read_ipv4 (show_ipv4 ip ++ rest) = Some (ip, rest).
Proof.
  intros Hip Hr. unfold read_ipv4, show_ipv4.
  destruct (octets ip) as [[[a b] c] d] eqn:E.
  destruct (octets_bounds _ _ _ _ _ E) as (? & ? & ? & ?).
  change (of_string ".") with ["."%char]. cbn [app]. rewrite <- !app_assoc. cbn [app].
  repeat (rewrite <- ?app_assoc; cbn [app]).
  rewrite (read_octet_show a) by done. cbn [mbind option_bind]. rewrite read_char_cons. cbn [mbind option_bind].
  rewrite (read_octet_show b) by done. cbn [mbind option_bind]. rewrite read_char_cons. cbn [mbind option_bind].
  rewrite (read_octet_show c) by done. cbn [mbind option_bind]. rewrite read_char_cons. cbn [mbind option_bind].
  rewrite (read_octet_show d) by done. cbn [mbind option_bind].
  repeat f_equal. by eapply ipv4_new_octets.
Qed.

(** [ip.to_string().parse()] gives [ip] back. *)
Lemma parse_show_ipv4 ip : is_u32 ip -> parse_ipv4 (show_ipv4 ip) = Some ip.
Proof.
  intros Hip. unfold parse_ipv4. rewrite <- (app_nil_r (show_ipv4 ip)).
  by rewrite read_ipv4_show.
Qed.

Lemma parse_show_ipv4_some ip : is_Some (parse_ipv4 (show_ipv4 ip)).
Proof.
  replace (show_ipv4 ip) with (show_ipv4 (ip mod 4294967296)).
  - eexists. apply parse_show_ipv4. unfold is_u32, U32_MAX. zdiv.
  - assert (H : octets (ip mod 4294967296) = octets ip).
    { unfold octets. apply pair_equal_spec. split; [apply pair_equal_spec; split;
        [apply pair_equal_spec; split|]|]; zdiv. }
    unfold show_ipv4. by rewrite H.
Qed.

Lemma read_octet_inv s n rest : read_octet s = Some (n, rest) ->
  s = show_u8 n ++ rest /\ is_u8 n.
Proof.
  unfold read_octet, read_number. destruct (span_str _ s) as [ds r] eqn:E.
  destruct (span_str_spec _ _ _ _ E) as (-> & Hds & _).
  destruct ds as [|x ds]; [done|]. cbn [length Nat.eqb].
  destruct (Nat.ltb 3 _) eqn:El; [done|].
  destruct (negb false && _ && _) eqn:Ez; [done|].
  destruct (_ <=? U8_MAX) eqn:Eb; [|done]. intros [= <- <-]. apply Z.leb_le in Eb.
  assert (Hd : Forall (fun c => exists k, c = digit_char k /\ 0 <= k <= 9) (x :: ds)).
  { eapply Forall_impl; [exact Hds|]. intros c. unfold is_radix_digit.
    destruct (radix_digit 10 c) as [k|] eqn:Ek; [|done]. eauto using radix_digit_inv. }
  apply Forall_cons in Hd as [(k & -> & Hk) Hd]. simpl negb in Ez. rewrite andb_true_l in Ez.
  assert (Hk0 : ds <> [] -> k <> 0).
  { intros Hne ->. destruct ds; [done|]. done. }
  unfold digits_value, is_u8, U8_MAX in *.
  destruct ds as [|y [|z [|]]]; try done; repeat apply Forall_cons in Hd as [(? & -> & ?) Hd];
    simpl foldl in Eb |- *; rewrite !radix_digit_char in Eb |- * by lia;
    simpl default in Eb |- *.
  - split; [|lia]. unfold show_u8. rewrite (proj2 (Z.ltb_lt _ _)) by lia. done.
  - specialize (Hk0 ltac:(done)). split; [|lia]. unfold show_u8.
    rewrite (proj2 (Z.ltb_ge _ 10)), (proj2 (Z.ltb_lt _ 100)) by lia.
    simpl app. repeat f_equal; zdiv.
  - specialize (Hk0 ltac:(done)). split; [|lia]. unfold show_u8.
    rewrite (proj2 (Z.ltb_ge _ 10)), (proj2 (Z.ltb_ge _ 100)) by lia.
    simpl app. repeat f_equal; zdiv.
Qed.

(** The only text an address parses from is the one it prints as. *)
Lemma show_parse_ipv4 s ip : parse_ipv4 s = Some ip -> show_ipv4 ip = s /\ is_u32 ip.
Proof.
  unfold parse_ipv4, read_ipv4, read_char.
  destruct (read_octet s) as [[a s1]|] eqn:Ea; [|done]. cbn [mbind option_bind].
  destruct (strip_prefix _ s1) as [s2|] eqn:E1; [|done]. cbn [mbind option_bind].
  destruct (read_octet s2) as [[b s3]|] eqn:Eb; [|done]. cbn [mbind option_bind].
  destruct (strip_prefix _ s3) as [s4|] eqn:E2; [|done]. cbn [mbind option_bind].
  destruct (read_octet s4) as [[c s5]|] eqn:Ec; [|done]. cbn [mbind option_bind].
  destruct (strip_prefix _ s5) as [s6|] eqn:E3; [|done]. cbn [mbind option_bind].
  destruct (read_octet s6) as [[d s7]|] eqn:Ed; [|done]. cbn [mbind option_bind whole].
  destruct s7; [|done]. intros [= <-].
  apply read_octet_inv in Ea as [-> ?], Eb as [-> ?], Ec as [-> ?], Ed as [-> ?].
  apply strip_prefix_Some in E1 as ->, E2 as ->, E3 as ->.
  unfold show_ipv4. rewrite octets_ipv4_new by done. rewrite app_nil_r. split; [done|].
  unfold is_u32, is_u8, U32_MAX, U8_MAX, ipv4_new in *. lia.
Qed.
