(* ===== verification/Auth.v ===== *)
(** * Errors and principals

    [wardnetd-services/src/error.rs] (the error type every service returns and
    its HTTP rendering), [wardnet-common/src/auth.rs] (who is calling) and the
    guards of [wardnetd-services/src/auth_context.rs].  The task-local
    [AUTH_CONTEXT] is the argument [ctx : option AuthContext], [None] where the
    task-local is not set. *)

From S2P Require Import Prelude RustStr.

Inductive AppError : Type :=
| NotFound (msg : str)
| Unauthorized (msg : str)
| Forbidden (msg : str)
| BadRequest (msg : str)
| Conflict (msg : str)
| TooManyRequests (message : str) (retry_after_seconds : Z)
| UpstreamUnavailable (msg : str)
| Internal (err : str)
| Database (err : str).

#[export] Instance AppError_eq_dec : EqDecision AppError.
Proof. solve_decision. Defined.

(** The body ([ApiError], without the request id) and the [Retry-After] header. *)
Record ErrorResponse : Type := {
  er_status : Z;
  er_error : str;
  er_detail : option str;
  er_retry_after : option Z;
}.

Definition into_response (e : AppError) : ErrorResponse :=
  let body status error detail :=
    {| er_status := status; er_error := of_string error; er_detail := detail;
       er_retry_after := match e with TooManyRequests _ s => Some s | _ => None end |} in
  match e with
  | NotFound msg => body 404 "not found" (Some msg)
  | Unauthorized msg => body 401 "unauthorized" (Some msg)
  | Forbidden msg => body 403 "forbidden" (Some msg)
  | BadRequest msg => body 400 "bad request" (Some msg)
  | Conflict msg => body 409 "conflict" (Some msg)
  | TooManyRequests message _ => body 429 "too many requests" (Some message)
  | UpstreamUnavailable msg => body 502 "upstream unavailable" (Some msg)
  | Internal _ => body 500 "internal server error" None
  | Database _ => body 500 "internal server error" None
  end.

Inductive UserRole : Type := Admin | Member.

#[export] Instance UserRole_eq_dec : EqDecision UserRole.
Proof. solve_decision. Defined.

Definition role_as_str (r : UserRole) : str :=
  match r with Admin => of_string "admin" | Member => of_string "member" end.

Definition role_parse (raw : str) : option UserRole :=
  if bool_decide (raw = of_string "admin") then Some Admin
  else if bool_decide (raw = of_string "member") then Some Member
  else None.

Record AuthenticatedUser : Type := from_validated_session {
  user_id : Z;
  role : UserRole;
}.

Inductive AuthContext : Type :=
| User (user : AuthenticatedUser)
| Device (mac : str)
| Anonymous.

(** [AuthContext::system()]: the nil UUID with the admin role. *)
Definition system_ctx : AuthContext := User (from_validated_session 0 Admin).

Definition is_admin (ctx : AuthContext) : bool :=
  match ctx with
  | User user => bool_decide (role user = Admin)
  | Device _ | Anonymous => false
  end.

Definition is_authenticated (ctx : AuthContext) : bool :=
  match ctx with
  | User _ | Device _ => true
  | Anonymous => false
  end.

Definition ctx_user_id (ctx : AuthContext) : option Z :=
  match ctx with User user => Some (user_id user) | Device _ | Anonymous => None end.

Definition ctx_role (ctx : AuthContext) : option UserRole :=
  match ctx with User user => Some (role user) | Device _ | Anonymous => None end.

Definition device_mac (ctx : AuthContext) : option str :=
  match ctx with Device mac => Some mac | User _ | Anonymous => None end.

Definition require_admin (ctx : option AuthContext) : result unit AppError :=
  if negb (is_admin (default Anonymous ctx))
  then Err (Forbidden "admin privileges required") else Ok tt.

Definition require_authenticated (ctx : option AuthContext) : result unit AppError :=
  if negb (is_authenticated (default Anonymous ctx))
  then Err (Forbidden "authentication required") else Ok tt.

(** ** Laws *)

Lemma role_parse_as_str r : role_parse (role_as_str r) = Some r.
Proof. by destruct r. Qed.

Lemma require_admin_Ok ctx : require_admin ctx = Ok tt <->
  exists u, ctx = Some (User u) /\ role u = Admin.
Proof.
  unfold require_admin. destruct ctx as [[u|m|]|]; simpl; [|naive_solver..].
  case_bool_decide; simpl; naive_solver.
Qed.

Lemma require_admin_cases ctx :
  require_admin ctx = Ok tt \/ require_admin ctx = Err (Forbidden "admin privileges required").
Proof. unfold require_admin. case_match; auto. Qed.
