(* ===== verification/FilterParser.v ===== *)
(** * The filter-rule parser

    [wardnetd-services/src/dns/filter_parser.rs]: one line of an AdGuard,
    hosts-file or domains-only list to a rule.  The [regex] crate, [hickory]'s
    record types and the [ipnetwork] crate are interfaces; a rule keeps the
    compiled regex as an opaque value. *)

From S2P Require Import Prelude RustStr Net.

(** ** Interfaces of the crates the parser calls *)

Class RegexLib : Type := {
  Regex : Type;
  (** [Regex::new(&s)]; the error is its message. *)
  regex_new : str -> result Regex str;
  regex_is_match : Regex -> str -> bool;
  (** [regex::escape(&s)] *)
  regex_escape : str -> str;
}.

Class RecordTypeLib : Type := {
  RecordType : Type;
  RecordType_eq_dec :: EqDecision RecordType;
  RecordType_countable :: Countable RecordType;
  (** [RecordType::from_str(&s).ok()] *)
  record_type_from_str : str -> option RecordType;
}.

Class IpNetworkLib : Type := {
  IpNetwork : Type;
  (** [s.parse::<IpNetwork>().ok()] *)
  ipnet_parse : str -> option IpNetwork;
  (** [IpNetwork::from(ip)]: the /32 or /128 of one address. *)
  ipnet_from_ip : IpAddr -> IpNetwork;
  ipnet_contains : IpNetwork -> IpAddr -> bool;
}.

Section parser.
Context {RL : RegexLib} {TL : RecordTypeLib} {NL : IpNetworkLib}.

Inductive ParseError : Type :=
| Empty
| InvalidHostsIp (s : str)
| InvalidDomain (s : str)
| InvalidRegex (pattern error : str)
| UnknownModifier (s : str)
| InvalidModifierValue (name value : str)
| MissingModifierValue (name : str)
| InvalidClient (s : str)
| InvalidRewrite (s : str)
| Unrecognized (s : str).

Record RuleModifiers : Type := {
  dns_types : option (list RecordType);
  rewrite_to : option IpAddr;
  clients : option (list IpNetwork);
  important : bool;
}.

Definition modifiers_default : RuleModifiers :=
  {| dns_types := None; rewrite_to := None; clients := None; important := false |}.

Definition modifiers_is_empty (m : RuleModifiers) : bool :=
  match dns_types m, rewrite_to m, clients m with
  | None, None, None => negb (important m)
  | _, _, _ => false
  end.

Inductive ParsedRule : Type :=
| DomainBlock (domain : str) (modifiers : RuleModifiers) (allow : bool)
| Pattern (regex : Regex) (source : str) (modifiers : RuleModifiers) (allow : bool)
| RegexRule (regex : Regex) (source : str) (modifiers : RuleModifiers) (allow : bool).

Definition modifiers (r : ParsedRule) : RuleModifiers :=
  match r with
  | DomainBlock _ m _ | Pattern _ _ m _ | RegexRule _ _ m _ => m
  end.

Definition is_allow (r : ParsedRule) : bool :=
  match r with
  | DomainBlock _ _ a | Pattern _ _ _ a | RegexRule _ _ _ a => a
  end.

(** ** Domains *)

Definition domain_char (c : ascii) : bool :=
  is_ascii_alphanumeric c || bool_decide (c = "."%char) || bool_decide (c = "-"%char)
  || bool_decide (c = "_"%char).

(** A non-ASCII character consists of bytes that fail every test, so testing
    the bytes is testing the characters. *)
Definition is_valid_domain (s : str) : bool :=
  if bool_decide (s = []) || (253 <? len s) then false else forallb domain_char s.

Definition normalize_domain (s : str) : result str ParseError :=
  let t := trim_end_matches "."%char s in
  if is_valid_domain t then Ok (to_ascii_lowercase t) else Err (InvalidDomain s).

(** ** Wildcards *)

Definition wildcard_char (ch : str) : str :=
  match ch with
  | [c] =>
      if bool_decide (c = "*"%char) then ".*"
      else if is_ascii_alphanumeric c || bool_decide (c = "-"%char)
              || bool_decide (c = "_"%char) || bool_decide (c = "."%char)
      then [c]
      else regex_escape ch
  | _ => regex_escape ch
  end.

Definition wildcard_regex (pat : str) : str :=
  "(?i)^" ++ concat (wildcard_char <$> chars pat) ++ "$".

Definition compile_wildcard (pat : str) : result Regex ParseError :=
  match regex_new (wildcard_regex pat) with
  | Ok r => Ok r
  | Err e => Err (InvalidRegex pat e)
  end.

(** ** Modifiers *)

Fixpoint parse_dns_types (v : str) (ts : list str) : result (list RecordType) ParseError :=
  match ts with
  | [] => Ok []
  | t :: ts' =>
      let t := trim t in
      if bool_decide (t = []) then Err (InvalidModifierValue "dnstype" v)
      else let? rt := ok_or (record_type_from_str (to_ascii_uppercase t))
                        (InvalidModifierValue "dnstype" t) in
           let? rts := parse_dns_types v ts' in Ok (rt :: rts)
  end.

Fixpoint parse_clients (v : str) (cs : list str) : result (list IpNetwork) ParseError :=
  match cs with
  | [] => Ok []
  | c :: cs' =>
      let c := trim c in
      if bool_decide (c = []) then Err (InvalidClient v)
      else let? net := (if contains "/"%char c then ok_or (ipnet_parse c) (InvalidClient c)
                        else let? ip := ok_or (parse_ip c) (InvalidClient c) in
                             Ok (ipnet_from_ip ip)) in
           let? nets := parse_clients v cs' in Ok (net :: nets)
  end.

Definition set_important (m : RuleModifiers) : RuleModifiers :=
  {| dns_types := dns_types m; rewrite_to := rewrite_to m; clients := clients m;
     important := true |}.
Definition set_dns_types (ts : list RecordType) (m : RuleModifiers) : RuleModifiers :=
  {| dns_types := Some ts; rewrite_to := rewrite_to m; clients := clients m;
     important := important m |}.
Definition set_rewrite_to (ip : IpAddr) (m : RuleModifiers) : RuleModifiers :=
  {| dns_types := dns_types m; rewrite_to := Some ip; clients := clients m;
     important := important m |}.
Definition set_clients (ns : list IpNetwork) (m : RuleModifiers) : RuleModifiers :=
  {| dns_types := dns_types m; rewrite_to := rewrite_to m; clients := Some ns;
     important := important m |}.

Definition parse_modifier (mods : RuleModifiers) (name : str) (value : option str)
    : result RuleModifiers ParseError :=
  if bool_decide (name = of_string "important") then
    match value with
    | Some v => Err (InvalidModifierValue "important" v)
    | None => Ok (set_important mods)
    end
  else if bool_decide (name = of_string "dnstype") then
    let? v := ok_or value (MissingModifierValue "dnstype") in
    let? types := parse_dns_types v (split "|"%char v) in Ok (set_dns_types types mods)
  else if bool_decide (name = of_string "dnsrewrite") then
    let? v := ok_or value (MissingModifierValue "dnsrewrite") in
    let? ip := ok_or (parse_ip v) (InvalidRewrite v) in Ok (set_rewrite_to ip mods)
  else if bool_decide (name = of_string "client") then
    let? v := ok_or value (MissingModifierValue "client") in
    let? nets := parse_clients v (split "|"%char v) in Ok (set_clients nets mods)
  else Err (UnknownModifier name).

Fixpoint parse_modifier_parts (mods : RuleModifiers) (parts : list str)
    : result RuleModifiers ParseError :=
  match parts with
  | [] => Ok mods
  | raw_part :: parts' =>
      let part := trim raw_part in
      if bool_decide (part = []) then parse_modifier_parts mods parts'
      else let '(name, value) := match split_once "="%char part with
                                 | Some (n, v) => (n, Some v)
                                 | None => (part, None)
                                 end in
           let? mods' := parse_modifier mods name value in
           parse_modifier_parts mods' parts'
  end.

Definition parse_modifiers (s : str) : result RuleModifiers ParseError :=
  if bool_decide (s = []) then Ok modifiers_default
  else parse_modifier_parts modifiers_default (split ","%char s).

(** ** Lines *)

(** [/pattern/] optionally followed by [$modifiers]. *)
Definition parse_regex_rule (line : str) (allow : bool) (after_open : str)
    : result (option ParsedRule) ParseError :=
  match split_at_char "/"%char after_open with
  | Some (pattern, after) =>
      let? mods := (match strip_prefix "$" after with
                    | Some mod_str => parse_modifiers mod_str
                    | None => if bool_decide (after = []) then Ok modifiers_default
                              else Err (Unrecognized line)
                    end) in
      if bool_decide (pattern = []) then Err Empty
      else let? regex := (match regex_new ("(?i)" ++ pattern) with
                          | Ok r => Ok r
                          | Err e => Err (InvalidRegex pattern e)
                          end) in
           Ok (Some (RegexRule regex line mods allow))
  | None => Err (Unrecognized line)
  end.

(** [||domain^] optionally followed by [$modifiers]. *)
Definition parse_adblock_rule (line : str) (allow : bool) (after : str)
    : result (option ParsedRule) ParseError :=
  let '(rule_body, mod_str) := match split_at_char "$"%char after with
                               | Some (b, m) => (b, m)
                               | None => (after, [])
                               end in
  let? mods := parse_modifiers mod_str in
  let pat := default rule_body (strip_suffix "^" rule_body) in
  if bool_decide (pat = []) then Err Empty
  else if contains "*"%char pat then
    let? regex := compile_wildcard pat in Ok (Some (Pattern regex line mods allow))
  else let? domain := normalize_domain pat in Ok (Some (DomainBlock domain mods allow)).

Definition is_sentinel_ip (t : str) : bool :=
  bool_decide (t = of_string "0.0.0.0") || bool_decide (t = of_string "127.0.0.1")
  || bool_decide (t = of_string "::") || bool_decide (t = of_string "::1").

Definition is_local_alias (d : str) : bool :=
  eq_ignore_ascii_case d "localhost" || eq_ignore_ascii_case d "localhost.localdomain"
  || eq_ignore_ascii_case d "broadcasthost".

Definition plain_rule (allow : bool) (domain : str) : option ParsedRule :=
  Some (DomainBlock domain modifiers_default allow).

(** Hosts-file line, or a bare domain. *)
Definition parse_hosts_or_bare (line : str) (allow : bool) (body : str)
    : result (option ParsedRule) ParseError :=
  match split_whitespace body with
  | t0 :: t1 :: ts =>
      if is_sentinel_ip t0 then
        let domain := List.last (t1 :: ts) t1 in
        if is_local_alias domain then Ok None
        else let? d := normalize_domain domain in Ok (plain_rule allow d)
      else Err (InvalidHostsIp t0)
  | [_] =>
      if contains "."%char body && is_valid_domain body then
        let? d := normalize_domain body in Ok (plain_rule allow d)
      else Err (Unrecognized line)
  | [] => Err (Unrecognized line)
  end.

Definition parse_line (raw : str) : result (option ParsedRule) ParseError :=
  let line := trim raw in
  if bool_decide (line = []) || starts_with "#" line || starts_with "!" line
     || starts_with "[" line then Ok None
  else
  let '(allow, body) := match strip_prefix "@@" line with
                        | Some rest => (true, rest)
                        | None => (false, line)
                        end in
  match strip_prefix "/" body with
  | Some after_open => parse_regex_rule line allow after_open
  | None =>
  match strip_prefix "||" body with
  | Some after => parse_adblock_rule line allow after
  | None =>
  match strip_prefix "*." body with
  | Some stripped =>
      if negb (contains "*"%char stripped) && negb (contains "/"%char stripped)
         && contains "."%char stripped && is_valid_domain stripped
      then let? d := normalize_domain stripped in Ok (plain_rule allow d)
      else parse_hosts_or_bare line allow body
  | None => parse_hosts_or_bare line allow body
  end end end.

(** ** Canonical domains *)

Definition canonical (d : str) : Prop :=
  is_valid_domain d = true /\ to_ascii_lowercase d = d /\ forall r, d <> r ++ ["."%char].

Lemma domain_char_graphic c : domain_char c = true -> is_graphic c = true.
Proof. all_bytes c. Qed.

Lemma domain_char_lower c : domain_char c = true -> domain_char (ascii_lower c) = true.
Proof. all_bytes c. Qed.

Lemma is_valid_domain_true s : is_valid_domain s = true <->
  s <> [] /\ len s <= 253 /\ Forall (fun c => domain_char c = true) s.
Proof.
  unfold is_valid_domain. destruct (bool_decide (s = []) || (253 <? len s)) eqn:E.
  - split; [done|]. intros (Hne & Hl & _).
    rewrite bool_decide_eq_false_2, orb_false_l in E by done. breflect. lia.
  - breflect. rewrite forallb_forall, Forall_forall. split.
    + intros Hall. split; [done|]. split; [lia|]. intros c Hc. apply Hall, list_elem_of_In, Hc.
    + intros (_ & _ & Hall) c Hc. apply Hall, list_elem_of_In, Hc.
Qed.

Lemma is_valid_domain_graphic s : is_valid_domain s = true ->
  Forall (fun c => is_graphic c = true) s.
Proof.
  intros (_ & _ & H)%is_valid_domain_true. eapply Forall_impl; [exact H|].
  apply domain_char_graphic.
Qed.

Lemma normalize_domain_canonical s d : normalize_domain s = Ok d -> canonical d.
Proof.
  unfold normalize_domain. destruct (is_valid_domain _) eqn:E; [|done]. intros [= <-].
  apply is_valid_domain_true in E as (Hne & Hl & Hc). split; [|split].
  - apply is_valid_domain_true. unfold len in *. rewrite length_to_ascii_lowercase.
    split; [by destruct (trim_end_matches _ s)|]. split; [done|].
    unfold to_ascii_lowercase. rewrite Forall_fmap. eapply Forall_impl; [exact Hc|].
    apply domain_char_lower.
  - apply to_ascii_lowercase_idemp.
  - intros r [r' E]%to_ascii_lowercase_trailing_dot. by apply trim_end_matches_last in E.
Qed.

Lemma normalize_canonical d : canonical d -> normalize_domain d = Ok d.
Proof.
  intros (Hv & Hl & Hd). unfold normalize_domain. rewrite trim_end_matches_id by done.
  by rewrite Hv, Hl.
Qed.

Lemma canonical_head d : canonical d -> exists c d', d = c :: d' /\ domain_char c = true.
Proof.
  intros [(Hne & _ & Hc)%is_valid_domain_true _]. destruct Hc as [|c d' H]; [done|]. eauto.
Qed.

Lemma canonical_graphic d : canonical d -> Forall (fun c => is_graphic c = true) d.
Proof. intros [H _]. by apply is_valid_domain_graphic. Qed.

Lemma canonical_no c d : canonical d -> domain_char c = false -> c ∉ d.
Proof.
  intros [(_ & _ & Hc)%is_valid_domain_true _] Hn Hin.
  rewrite Forall_forall in Hc. specialize (Hc c Hin). congruence.
Qed.

(** Every domain rule the parser returns carries a canonical domain. *)
Lemma plain_rule_canonical al s d m a :
  (let? d := normalize_domain s in Ok (plain_rule al d)) = Ok (Some (DomainBlock d m a)) ->
  canonical d.
Proof.
  destruct (normalize_domain s) eqn:E; [|done]. intros [= <- _ _].
  by eapply normalize_domain_canonical.
Qed.

Lemma parse_adblock_canonical line al after d m a :
  parse_adblock_rule line al after = Ok (Some (DomainBlock d m a)) -> canonical d.
Proof.
  unfold parse_adblock_rule.
  destruct (match split_at_char _ _ with Some (b, m) => (b, m) | None => _ end) as [b ms].
  destruct (parse_modifiers ms); [|done]. case_bool_decide; [done|].
  destruct (contains _ _); [by destruct (compile_wildcard _)|].
  destruct (normalize_domain _) eqn:E; [|done]. intros [= <- _ _].
  by eapply normalize_domain_canonical.
Qed.

Lemma parse_hosts_canonical line al body d m a :
  parse_hosts_or_bare line al body = Ok (Some (DomainBlock d m a)) -> canonical d.
Proof.
  unfold parse_hosts_or_bare. destruct (split_whitespace body) as [|t0 [|t1 ts]]; [done| |].
  - destruct (_ && _); [|done]. apply plain_rule_canonical.
  - destruct (is_sentinel_ip t0); [|done]. cbv zeta. destruct (is_local_alias _); [done|].
    apply plain_rule_canonical.
Qed.

Lemma parse_regex_no_domain line al after d m a :
  parse_regex_rule line al after <> Ok (Some (DomainBlock d m a)).
Proof.
  unfold parse_regex_rule. destruct (split_at_char _ _) as [[pat aft]|]; [|done].
  destruct (match strip_prefix "$" aft with Some _ => _ | None => _ end); [|done].
  case_bool_decide; [done|]. by destruct (regex_new _).
Qed.

(** Every domain rule the parser accepts carries a canonical domain: valid
    characters and length, lower case, no trailing dot; so matching it against
    normalised query names never misses for reasons of spelling. *)
Theorem parse_line_canonical raw d m a :
  parse_line raw = Ok (Some (DomainBlock d m a)) -> canonical d.
Proof.
  unfold parse_line. destruct (bool_decide (trim raw = []) || _ || _ || _); [done|].
  destruct (match strip_prefix "@@" _ with Some _ => _ | None => _ end) as [al body].
  destruct (strip_prefix "/" body); [by intros ?%parse_regex_no_domain|].
  destruct (strip_prefix "||" body); [apply parse_adblock_canonical|].
  destruct (strip_prefix "*." body); [|apply parse_hosts_canonical].
  destruct (_ && _); [apply plain_rule_canonical | apply parse_hosts_canonical].
Qed.

(** ** The four spellings of a plain rule *)

Definition allow_prefix (allow : bool) : str := if allow then "@@" else [].

Lemma parse_line_body allow body :
  trimmed (allow_prefix allow ++ body) ->
  match body with c :: _ => c ∉ of_string "#![@" | [] => False end ->
  parse_line (allow_prefix allow ++ body) =
  match strip_prefix "/" body with
  | Some after_open => parse_regex_rule (allow_prefix allow ++ body) allow after_open
  | None =>
  match strip_prefix "||" body with
  | Some after => parse_adblock_rule (allow_prefix allow ++ body) allow after
  | None =>
  match strip_prefix "*." body with
  | Some stripped =>
      if negb (contains "*"%char stripped) && negb (contains "/"%char stripped)
         && contains "."%char stripped && is_valid_domain stripped
      then let? d := normalize_domain stripped in Ok (plain_rule allow d)
      else parse_hosts_or_bare (allow_prefix allow ++ body) allow body
  | None => parse_hosts_or_bare (allow_prefix allow ++ body) allow body
  end end end.
Proof.
  intros Hg Hb. destruct body as [|c body]; [done|]. unfold parse_line.
  rewrite trim_id by done.
  assert (Hc : c <> "#"%char /\ c <> "!"%char /\ c <> "["%char /\ c <> "@"%char).
  { repeat split; intros ->; apply Hb; vm_compute; set_solver. }
  destruct Hc as (H1 & H2 & H3 & H4).
  rewrite bool_decide_eq_false_2 by (by destruct allow).
  destruct allow.
  - done.
  - change (allow_prefix false ++ c :: body) with (c :: body).
    unfold starts_with. cbn [strip_prefix of_string String.list_ascii_of_string].
    rewrite !bool_decide_eq_false_2 by congruence. done.
Qed.

Lemma allow_prefix_graphic allow : Forall (fun c => is_graphic c = true) (allow_prefix allow).
Proof. destruct allow; repeat constructor. Qed.

Lemma parse_adblock_plain line allow d : canonical d ->
  parse_adblock_rule line allow (d ++ "^") = Ok (plain_rule allow d).
Proof.
  intros Hd. unfold parse_adblock_rule.
  rewrite (proj2 (split_at_char_None _ _)).
  2: { rewrite elem_of_app. intros [H|H]; [|vm_compute in H; set_solver].
       by apply (canonical_no "$"%char d Hd). }
  change (parse_modifiers []) with (@Ok _ ParseError modifiers_default). cbv iota.
  rewrite (proj2 (strip_suffix_Some "^" (d ++ "^") d)) by done. simpl default.
  destruct (canonical_head d Hd) as (c & d' & E & _).
  rewrite bool_decide_eq_false_2 by (by rewrite E).
  rewrite (proj2 (contains_false _ _)) by (by apply canonical_no).
  by rewrite normalize_canonical.
Qed.

Lemma parse_bare_plain line allow d : canonical d -> "."%char ∈ d ->
  parse_hosts_or_bare line allow d = Ok (plain_rule allow d).
Proof.
  intros Hd Hdot. unfold parse_hosts_or_bare.
  rewrite split_whitespace_graphic by (by apply canonical_graphic).
  destruct (canonical_head d Hd) as (c & d' & E & _).
  assert (Hm : match d with [] => [] | _ :: _ => [d] end = [d]) by (by rewrite E).
  rewrite Hm, (proj2 (contains_true _ _)) by done.
  rewrite (proj1 Hd). simpl. by rewrite normalize_canonical.
Qed.

Lemma parse_hosts_plain line allow ip d : canonical d -> is_sentinel_ip ip = true ->
  is_local_alias d = false ->
  parse_hosts_or_bare line allow (ip ++ " " ++ d) = Ok (plain_rule allow d).
Proof.
  intros Hd Hip Hal. unfold parse_hosts_or_bare.
  destruct (canonical_head d Hd) as (c & d' & E & _).
  assert (Hg : Forall (fun c => is_graphic c = true) ip /\ ip <> []).
  { unfold is_sentinel_ip in Hip. rewrite !orb_true_iff, !bool_decide_eq_true in Hip.
    destruct Hip as [[[->| ->]| ->]| ->]; (split; [repeat constructor | done]). }
  change (ip ++ " " ++ d) with (ip ++ " "%char :: d).
  rewrite split_whitespace_two; [| tauto | tauto | by apply canonical_graphic | by rewrite E].
  rewrite Hip. simpl List.last. rewrite Hal. by rewrite normalize_canonical.
Qed.

Inductive spelling : Type :=
| Adblock
| Bare
| WildcardDomain
| Hosts (ip : str).

Definition spell (sp : spelling) (d : str) : str :=
  match sp with
  | Adblock => "||" ++ d ++ "^"
  | Bare => d
  | WildcardDomain => "*." ++ d
  | Hosts ip => ip ++ " " ++ d
  end.

Definition spelling_ok (sp : spelling) (d : str) : Prop :=
  match sp with
  | Adblock => True
  | Bare | WildcardDomain => "."%char ∈ d
  | Hosts ip => is_sentinel_ip ip = true /\ is_local_alias d = false
  end.

Lemma sentinel_cases ip : is_sentinel_ip ip = true ->
  ip = of_string "0.0.0.0" \/ ip = of_string "127.0.0.1" \/ ip = of_string "::"
  \/ ip = of_string "::1".
Proof. unfold is_sentinel_ip. rewrite !orb_true_iff, !bool_decide_eq_true. tauto. Qed.

Lemma spell_trimmed allow sp d : canonical d -> spelling_ok sp d ->
  trimmed (allow_prefix allow ++ spell sp d).
Proof.
  intros Hd Hok. pose proof (canonical_graphic d Hd) as Hg. destruct sp as [| | |ip].
  1-3: apply trimmed_graphic, Forall_app_2; [apply allow_prefix_graphic|]; simpl; try done.
  - repeat constructor. apply Forall_app_2; [done | repeat constructor].
  - by repeat constructor.
  - destruct Hok as [[->|[->|[->| ->]]]%sentinel_cases _].
    all: destruct (exists_last (l := d)) as (d0 & x & ->);
      [by destruct (canonical_head d Hd) as (? & ? & -> & _)|].
    all: apply Forall_app in Hg as [_ Hx]; inversion Hx; subst.
    all: unfold spell; rewrite !app_assoc; destruct allow.
    all: by apply (trimmed_ends _ _ x).
Qed.

(** The four ways a list spells a plain rule (adblock, bare, wildcard-domain,
    hosts file), with or without the exception mark, all parse to the same plain
    rule for the domain. *)
Theorem parse_line_spellings allow sp d : canonical d -> spelling_ok sp d ->
  parse_line (allow_prefix allow ++ spell sp d) = Ok (plain_rule allow d).
Proof.
  intros Hd Hok. destruct (canonical_head d Hd) as (c & d' & E & Hc).
  assert (Hcs : c <> "/"%char /\ c <> "|"%char /\ c <> "*"%char /\ c ∉ of_string "#![@").
  { repeat split; try (by intros ->). intros Hin.
    repeat (apply elem_of_cons in Hin as [->|Hin]; [done|]). set_solver. }
  destruct Hcs as (H1 & H2 & H3 & H4).
  rewrite parse_line_body; [| by apply spell_trimmed |].
  - destruct sp as [| | |ip]; simpl spell.
    + by rewrite <- (parse_adblock_plain (allow_prefix allow ++ spell Adblock d)).
    + rewrite E. cbn [strip_prefix of_string String.list_ascii_of_string].
      rewrite !bool_decide_eq_false_2 by congruence. rewrite <- E. by apply parse_bare_plain.
    + change (strip_prefix "/" _) with (@None str). change (strip_prefix "||" _) with (@None str).
      change (strip_prefix "*." _) with (Some d). cbv iota.
      rewrite !(proj2 (contains_false _ _)) by (by apply canonical_no).
      rewrite (proj2 (contains_true _ _)) by done. rewrite (proj1 Hd). simpl.
      by rewrite normalize_canonical.
    + destruct Hok as [Hip Hal]. rewrite <- (parse_hosts_plain
        (allow_prefix allow ++ spell (Hosts ip) d) allow ip d) by done.
      by destruct (sentinel_cases ip Hip) as [->|[->|[->| ->]]].
  - destruct sp as [| | |ip]; simpl spell.
    2: by rewrite E.
    3: destruct Hok as [[->|[->|[->| ->]]]%sentinel_cases _].
    all: vm_compute; set_solver.
Qed.

End parser.

(** ** Concrete instances of the interfaces, for evaluation *)

(** A regex engine that only knows literal patterns: [(?i)text] matches the
    strings that contain [text], letter case ignored. *)
Fixpoint occurs (p s : str) : bool :=
  starts_with p s || match s with [] => false | _ :: s' => occurs p s' end.

Definition literal_regex : RegexLib := {|
  Regex := str;
  regex_new := fun s => match strip_prefix "(?i)" s with
                        | Some p => Ok (to_ascii_lowercase p)
                        | None => Err (of_string "unsupported")
                        end;
  regex_is_match := fun p s => occurs p (to_ascii_lowercase s);
  regex_escape := fun s => s;
|}.

Definition basic_record_types : RecordTypeLib := {|
  RecordType := Z;
  record_type_from_str := fun s =>
    if bool_decide (s = of_string "A") then Some 1
    else if bool_decide (s = of_string "AAAA") then Some 28 else None;
|}.

(** IPv4 networks through the [cidr] model; a single IPv6 address otherwise. *)
Definition basic_ip_networks : IpNetworkLib := {|
  IpNetwork := cidr + IpAddr;
  ipnet_parse := fun s => inl <$> cidr_parse s;
  ipnet_from_ip := fun ip => match ip with V4 a => inl (Cidr a 32) | V6 _ => inr ip end;
  ipnet_contains := fun n ip =>
    match n, ip with
    | inl c, V4 a => (cidr_network c <=? a) && (a <=? cidr_broadcast c)
    | inr ip', _ => bool_decide (ip' = ip)
    | inl _, V6 _ => false
    end;
|}.
