(* ===== verification/DnsFilter.v ===== *)
(** * The per-source DNS filter, profiles and device contexts

    [wardnetd-services/src/dns_filter/{filter,filter_profile,device_context}.rs]:
    the compiled rules of one source, their evaluation, and the aggregation of
    sources into a profile and of profiles into a device's verdict.  An
    [ArcSwap] is read once per query, so a profile is the list of the snapshots
    it holds. *)

From S2P Require Import Prelude RustStr Net FilterParser.

(** ** Domain names *)

(** [normalize_owned]: trailing dots dropped, ASCII lower case. *)
Definition normalize_owned (s : str) : str :=
  to_ascii_lowercase (trim_end_matches "."%char s).

(** The position of the first byte that needs folding, as the slices around it. *)
Fixpoint span_lower (s : str) : str * str :=
  match s with
  | [] => ([], [])
  | c :: s' => if is_ascii_uppercase c then ([], s)
               else let '(a, b) := span_lower s' in (c :: a, b)
  end.

(** [normalize]: borrow when no byte needs folding, else fold from it on. *)
Definition normalize (s : str) : str :=
  let trimmed := trim_end_matches "."%char s in
  match span_lower trimmed with
  | (_, []) => trimmed
  | (a, b) => a ++ to_ascii_lowercase b
  end.

Definition is_subdomain_of (domain rule_domain : str) : bool :=
  if bool_decide (domain = rule_domain) then true
  else if len domain <=? len rule_domain then false
  else let prefix_len := (length domain - length rule_domain - 1)%nat in
       ends_with rule_domain domain && bool_decide (domain !! prefix_len = Some "."%char).

(** [while let Some(idx) = rest.find('.')]: one parent per dot. *)
Fixpoint parent_in (rest : str) (set : gset str) : bool :=
  match rest with
  | [] => false
  | c :: parent =>
      if bool_decide (c = "."%char) then bool_decide (parent ∈ set) || parent_in parent set
      else parent_in parent set
  end.

Definition matches_subdomain (domain : str) (set : gset str) : bool :=
  bool_decide (domain ∈ set) || parent_in domain set.

(** ** Outcomes *)

Inductive MatchKind : Type := Block | Allow | ImportantBlock | ImportantAllow.

#[export] Instance MatchKind_eq_dec : EqDecision MatchKind.
Proof. solve_decision. Defined.

Definition rank (k : MatchKind) : Z :=
  match k with Block => 1 | Allow => 2 | ImportantBlock => 3 | ImportantAllow => 4 end.

Definition blocks (k : MatchKind) : bool :=
  match k with Block | ImportantBlock => true | _ => false end.

Inductive MatchOutcome : Type :=
| MatchNone
| Match (k : MatchKind)
| Rewrite (ip : IpAddr).

Inductive FilterAction : Type :=
| Pass
| ActionBlock
| ActionRewrite (ip : IpAddr).

Inductive ProfileMatch : Type :=
| ProfileNone
| Decided (k : MatchKind)
| ProfileRewrite (ip : IpAddr).

Definition upgrade (cur : option MatchKind) (new : MatchKind) : option MatchKind :=
  match cur with
  | None => Some new
  | Some c => if rank c <? rank new then Some new else cur
  end.

Section filter.
Context {RL : RegexLib} {TL : RecordTypeLib} {NL : IpNetworkLib}.

Record DnsFilterInputs : Type := {
  in_blocked_domains : list str;
  in_allowlist : list str;
  in_custom_rules : list str;
}.

Record DnsFilter : Type := {
  blocked_domains : gset str;
  allowed_domains : gset str;
  complex : list ParsedRule;
}.

Definition empty_filter : DnsFilter :=
  {| blocked_domains := ∅; allowed_domains := ∅; complex := [] |}.

Definition filter_is_empty (f : DnsFilter) : bool :=
  bool_decide (blocked_domains f = ∅) && bool_decide (allowed_domains f = ∅)
  && match complex f with [] => true | _ => false end.

Record FilterStats : Type := {
  blocked_count : nat;
  allowed_count : nat;
  complex_count : nat;
}.

Definition stats (f : DnsFilter) : FilterStats :=
  {| blocked_count := size (blocked_domains f);
     allowed_count := size (allowed_domains f);
     complex_count := length (complex f) |}.

(** One custom rule: plain domain rules go to the sets, the rest to the list,
    an unparsable line is skipped. *)
Definition build_rule (f : DnsFilter) (line : str) : DnsFilter :=
  match parse_line line with
  | Ok None => f
  | Err _ => f
  | Ok (Some rule) =>
      match rule with
      | DomainBlock domain mods allow =>
          if modifiers_is_empty mods then
            if allow
            then {| blocked_domains := blocked_domains f;
                    allowed_domains := {[domain]} ∪ allowed_domains f;
                    complex := complex f |}
            else {| blocked_domains := {[domain]} ∪ blocked_domains f;
                    allowed_domains := allowed_domains f;
                    complex := complex f |}
          else {| blocked_domains := blocked_domains f;
                  allowed_domains := allowed_domains f;
                  complex := complex f ++ [rule] |}
      | _ => {| blocked_domains := blocked_domains f;
                allowed_domains := allowed_domains f;
                complex := complex f ++ [rule] |}
      end
  end.

Definition build (inputs : DnsFilterInputs) : DnsFilter :=
  foldl build_rule
    {| blocked_domains := list_to_set (normalize_owned <$> in_blocked_domains inputs);
       allowed_domains := list_to_set (normalize_owned <$> in_allowlist inputs);
       complex := [] |}
    (in_custom_rules inputs).

Definition classify (rule : ParsedRule) : MatchKind :=
  match important (modifiers rule), is_allow rule with
  | true, true => ImportantAllow
  | true, false => ImportantBlock
  | false, true => Allow
  | false, false => Block
  end.

Definition rule_matches (rule : ParsedRule) (domain : str) : bool :=
  match rule with
  | DomainBlock d _ _ => is_subdomain_of domain d
  | Pattern regex _ _ _ | RegexRule regex _ _ _ => regex_is_match regex domain
  end.

Definition modifiers_apply (mods : RuleModifiers) (qtype : RecordType) (client : IpAddr)
    : bool :=
  if match dns_types mods with Some types => negb (bool_decide (qtype ∈ types)) | None => false end
  then false
  else if match clients mods with
          | Some nets => negb (existsb (fun n => ipnet_contains n client) nets)
          | None => false
          end
  then false
  else true.

(** The loop over the complex rules: [inl ip] is the early return. *)
Fixpoint check_complex (rules : list ParsedRule) (d : str) (qtype : RecordType)
    (client : IpAddr) (best : option MatchKind) : IpAddr + option MatchKind :=
  match rules with
  | [] => inr best
  | rule :: rules' =>
      if negb (rule_matches rule d) then check_complex rules' d qtype client best
      else if negb (modifiers_apply (modifiers rule) qtype client)
      then check_complex rules' d qtype client best
      else match rewrite_to (modifiers rule) with
           | Some ip => inl ip
           | None => check_complex rules' d qtype client (upgrade best (classify rule))
           end
  end.

Definition check (f : DnsFilter) (domain : str) (qtype : RecordType) (client : IpAddr)
    : MatchOutcome :=
  let d := normalize domain in
  match check_complex (complex f) d qtype client None with
  | inl ip => Rewrite ip
  | inr best =>
      let best := if matches_subdomain d (allowed_domains f) then upgrade best Allow else best in
      let best := if matches_subdomain d (blocked_domains f) then upgrade best Block else best in
      match best with Some k => Match k | None => MatchNone end
  end.

Definition check_action (f : DnsFilter) (domain : str) (qtype : RecordType) (client : IpAddr)
    : FilterAction :=
  match check f domain qtype client with
  | Rewrite ip => ActionRewrite ip
  | Match kind => if blocks kind then ActionBlock else Pass
  | MatchNone => Pass
  end.

(** ** The streaming builder of a pure blocklist *)

Definition builder_new : gset str := ∅.
Definition builder_insert (b : gset str) (domain : str) : gset str :=
  {[normalize_owned domain]} ∪ b.
Definition builder_finish (b : gset str) : DnsFilter :=
  {| blocked_domains := b; allowed_domains := ∅; complex := [] |}.

(** ** Profiles and device contexts *)

Fixpoint profile_loop (filters : list DnsFilter) (domain : str) (qtype : RecordType)
    (client : IpAddr) (best : option MatchKind) : ProfileMatch :=
  match filters with
  | [] => match best with Some k => Decided k | None => ProfileNone end
  | f :: filters' =>
      match check f domain qtype client with
      | Rewrite ip => ProfileRewrite ip
      | Match kind => profile_loop filters' domain qtype client
                        (if match best with None => true | Some c => rank c <? rank kind end
                         then Some kind else best)
      | MatchNone => profile_loop filters' domain qtype client best
      end
  end.

Definition profile_check (filters : list DnsFilter) (domain : str) (qtype : RecordType)
    (client : IpAddr) : ProfileMatch :=
  profile_loop filters domain qtype client None.

Record DeviceFilterContext : Type := {
  ctx_enabled : bool;
  ctx_profiles : list (list DnsFilter);
}.

Definition unfiltered : DeviceFilterContext := {| ctx_enabled := true; ctx_profiles := [] |}.

Fixpoint context_loop (profiles : list (list DnsFilter)) (domain : str) (qtype : RecordType)
    (client : IpAddr) (best : option MatchKind) : FilterAction :=
  match profiles with
  | [] => match best with
          | Some k => if blocks k then ActionBlock else Pass
          | None => Pass
          end
  | p :: profiles' =>
      match profile_check p domain qtype client with
      | ProfileRewrite ip => ActionRewrite ip
      | Decided kind => context_loop profiles' domain qtype client
                          (if match best with None => true | Some c => rank c <? rank kind end
                           then Some kind else best)
      | ProfileNone => context_loop profiles' domain qtype client best
      end
  end.

Definition context_check (ctx : DeviceFilterContext) (domain : str) (qtype : RecordType)
    (client : IpAddr) : FilterAction :=
  context_loop (ctx_profiles ctx) domain qtype client None.

End filter.

(** ** Names: the canonical form and the subdomain relation *)

Lemma span_lower_spec s a b : span_lower s = (a, b) ->
  s = a ++ b /\ Forall (fun c => is_ascii_uppercase c = false) a.
Proof.
  revert a. induction s as [|c s IH]; simpl; intros a H; [by simplify_eq|].
  destruct (is_ascii_uppercase c) eqn:Ec; [by simplify_eq|].
  destruct (span_lower s) as [a' b'] eqn:E. simplify_eq.
  destruct (IH a' eq_refl) as [-> Ha]. split; [done | by constructor].
Qed.

Lemma normalize_eq s : normalize s = normalize_owned s.
Proof.
  unfold normalize, normalize_owned. set (t := trim_end_matches _ s).
  destruct (span_lower t) as [a b] eqn:E. destruct (span_lower_spec _ _ _ E) as [Ht Ha].
  rewrite Ht. destruct b.
  - rewrite app_nil_r. by rewrite to_ascii_lowercase_id.
  - rewrite to_ascii_lowercase_app. by rewrite (to_ascii_lowercase_id a).
Qed.

Lemma normalize_owned_idemp s : normalize_owned (normalize_owned s) = normalize_owned s.
Proof.
  unfold normalize_owned. rewrite (trim_end_matches_id _ (to_ascii_lowercase _)).
  - apply to_ascii_lowercase_idemp.
  - intros r [r' E]%to_ascii_lowercase_trailing_dot. by apply trim_end_matches_last in E.
Qed.

Lemma is_subdomain_of_spec d r :
  is_subdomain_of d r = true <-> d = r \/ exists p, d = p ++ "."%char :: r.
Proof.
  unfold is_subdomain_of, len. case_bool_decide as E; [by split; [left|]|].
  destruct (Z.leb_spec (Z.of_nat (length d)) (Z.of_nat (length r))) as [Hl|Hl].
  - split; [done|]. intros [->|[p ->]]; [done|]. rewrite length_app in Hl. simpl in Hl. lia.
  - rewrite andb_true_iff, bool_decide_eq_true, ends_with_true. split.
    + intros [[p ->] Hdot]. right. rewrite length_app in *.
      replace (length p + length r - length r - 1)%nat with (length p - 1)%nat in Hdot by lia.
      rewrite lookup_app_l in Hdot by lia.
      destruct (exists_last (l := p)) as (q & x & ->); [by intros ->; simpl in Hl; lia|].
      rewrite length_app in Hdot. simpl in Hdot.
      rewrite lookup_app_r in Hdot by lia.
      replace (length q + 1 - 1 - length q)%nat with 0%nat in Hdot by lia.
      simpl in Hdot. simplify_eq. exists q. by rewrite <- app_assoc.
    + intros [->|[p ->]]; [done|]. split; [exists (p ++ ["."%char]); by rewrite <- app_assoc|].
      rewrite length_app. simpl.
      replace (length p + S (length r) - length r - 1)%nat with (length p) by lia.
      by rewrite lookup_app_r, Nat.sub_diag by lia.
Qed.

Lemma parent_in_spec rest set :
  parent_in rest set = true <-> exists p r, rest = p ++ "."%char :: r /\ r ∈ set.
Proof.
  induction rest as [|c rest IH]; simpl.
  - split; [done|]. intros (p & r & E & _). by destruct p.
  - assert (Hstep : (exists p r, c :: rest = p ++ "."%char :: r /\ r ∈ set) <->
      (c = "."%char /\ rest ∈ set) \/ exists p r, rest = p ++ "."%char :: r /\ r ∈ set).
    { split.
      - intros (p & r & E & Hr). destruct p as [|x p]; simplify_eq/=; eauto 6.
      - intros [[-> Hr]|(p & r & -> & Hr)]; [by exists [], rest | by exists (c :: p), r]. }
    rewrite Hstep, <- IH. case_bool_decide as Ec.
    + rewrite orb_true_iff, bool_decide_eq_true. naive_solver.
    + naive_solver.
Qed.

Lemma matches_subdomain_suffix d set : matches_subdomain d set = true <->
  exists r, r ∈ set /\ (d = r \/ exists p, d = p ++ "."%char :: r).
Proof.
  unfold matches_subdomain. rewrite orb_true_iff, bool_decide_eq_true, parent_in_spec.
  naive_solver.
Qed.

(** The label walk over a hash set finds exactly the rules a scan with
    [is_subdomain_of] would find. *)
Theorem matches_subdomain_scan d set :
  matches_subdomain d set = true <-> exists r, r ∈ set /\ is_subdomain_of d r = true.
Proof.
  rewrite matches_subdomain_suffix. by setoid_rewrite is_subdomain_of_spec.
Qed.

(** The borrowing and the owning normaliser agree, and a normalised name is a
    fixed point of both. *)
Theorem normalize_agrees s :
  normalize s = normalize_owned s /\ normalize (normalize s) = normalize s.
Proof. rewrite !normalize_eq. split; [done | apply normalize_owned_idemp]. Qed.

(** ** The strongest verdict *)

Definition best_of (l : list MatchKind) : option MatchKind := foldl upgrade None l.

Lemma rank_inj k k' : rank k = rank k' -> k = k'.
Proof. by destruct k, k'. Qed.

Lemma foldl_upgrade_Some b l k : foldl upgrade b l = Some k <->
  (b = Some k \/ k ∈ l) /\ forall k', b = Some k' \/ k' ∈ l -> rank k' <= rank k.
Proof.
  revert b. induction l as [|x l IH]; intros b; simpl.
  - split; [|by intros [[?|[]%not_elem_of_nil] _]].
    intros ->. split; [by left|]. by intros k' [[= ->]|[]%not_elem_of_nil].
  - rewrite IH. setoid_rewrite elem_of_cons. destruct b as [c|]; simpl; [|naive_solver].
    destruct (Z.ltb_spec (rank c) (rank x)).
    + split.
      * intros [Hin Hmax]. split; [naive_solver|].
        pose proof (Hmax x (or_introl eq_refl)).
        intros k' [[= ->]|[->|Hk]]; [lia | lia | auto].
      * intros [Hin Hmax]. split; [|naive_solver].
        destruct Hin as [[= ->]|[->|Hk]]; auto.
        pose proof (Hmax x (or_intror (or_introl eq_refl))). lia.
    + split.
      * intros [Hin Hmax]. split; [naive_solver|].
        pose proof (Hmax c (or_introl eq_refl)).
        intros k' [[= ->]|[->|Hk]]; [lia | lia | auto].
      * intros [Hin Hmax]. split; [|naive_solver].
        destruct Hin as [[= ->]|[->|Hk]]; auto. left. f_equal. apply rank_inj.
        pose proof (Hmax c (or_introl eq_refl)). lia.
Qed.

Lemma best_of_Some l k :
  best_of l = Some k <-> k ∈ l /\ forall k', k' ∈ l -> rank k' <= rank k.
Proof. unfold best_of. rewrite foldl_upgrade_Some. naive_solver. Qed.

Lemma foldl_upgrade_is_Some b l : is_Some (foldl upgrade b l) <-> is_Some b \/ l <> [].
Proof.
  revert b. induction l as [|x l IH]; intros b; simpl; [naive_solver|].
  rewrite IH. destruct b as [c|]; simpl; [case_match|]; naive_solver eauto.
Qed.

Lemma best_of_None l : best_of l = None <-> l = [].
Proof.
  rewrite eq_None_not_Some. unfold best_of. rewrite foldl_upgrade_is_Some.
  destruct l; naive_solver eauto using is_Some_None.
Qed.

(** Only the set of verdicts matters, not their order or multiplicity. *)
Lemma best_of_ext l l' : (forall k, k ∈ l <-> k ∈ l') -> best_of l = best_of l'.
Proof.
  intros H. destruct (best_of l) as [k|] eqn:E; symmetry.
  - apply best_of_Some in E as [Hin Hmax]. apply best_of_Some.
    split; [by apply H|]. intros k' ?%H. auto.
  - apply best_of_None in E as ->. apply best_of_None.
    destruct l' as [|x l']; [done|]. exfalso. apply (not_elem_of_nil x), H. set_solver.
Qed.

Lemma best_of_app l l' : best_of (l ++ l') = foldl upgrade (best_of l) l'.
Proof. apply foldl_app. Qed.

Section filter_laws.
Context {RL : RegexLib} {TL : RecordTypeLib} {NL : IpNetworkLib}.

(** ** Reference semantics: every rule evaluated one by one

    A source as a plain list of rules: the applicable ones are those that match
    the name and whose modifiers admit the query; the first applicable rewrite
    wins outright, otherwise the strongest verdict does. *)

Definition applies (d : str) (qtype : RecordType) (client : IpAddr) (r : ParsedRule) : bool :=
  rule_matches r d && modifiers_apply (modifiers r) qtype client.

Definition applicable (d : str) (qtype : RecordType) (client : IpAddr)
    (rules : list ParsedRule) : list ParsedRule :=
  List.filter (applies d qtype client) rules.

Definition rewrites (rules : list ParsedRule) : list IpAddr :=
  omap (fun r => rewrite_to (modifiers r)) rules.

Definition outcome (ips : list IpAddr) (verdicts : list MatchKind) : MatchOutcome :=
  match ips with
  | ip :: _ => Rewrite ip
  | [] => match best_of verdicts with Some k => Match k | None => MatchNone end
  end.

Definition reference_check (rules : list ParsedRule) (d : str) (qtype : RecordType)
    (client : IpAddr) : MatchOutcome :=
  let app := applicable d qtype client rules in outcome (rewrites app) (classify <$> app).

Lemma check_complex_spec rules d q c b :
  check_complex rules d q c b =
  match rewrites (applicable d q c rules) with
  | ip :: _ => inl ip
  | [] => inr (foldl upgrade b (classify <$> applicable d q c rules))
  end.
Proof.
  revert b. induction rules as [|r rules IH]; intros b; [done|].
  unfold applicable in *. simpl.
  change (applies d q c r) with (rule_matches r d && modifiers_apply (modifiers r) q c).
  destruct (rule_matches r d); simpl; [|apply IH].
  destruct (modifiers_apply _ _ _); simpl; [|apply IH].
  unfold rewrites in *. simpl. destruct (rewrite_to (modifiers r)); [done|]. apply IH.
Qed.

(** What one compiled source contributes: its applicable complex rules, and at
    most one verdict from each of the two sets. *)
Definition set_verdict (d : str) (set : gset str) (k : MatchKind) : list MatchKind :=
  if matches_subdomain d set then [k] else [].

Definition verdicts (f : DnsFilter) (d : str) (qtype : RecordType) (client : IpAddr)
    : list MatchKind :=
  (classify <$> applicable d qtype client (complex f))
  ++ set_verdict d (allowed_domains f) Allow ++ set_verdict d (blocked_domains f) Block.

Lemma check_outcome f domain q c :
  check f domain q c =
  outcome (rewrites (applicable (normalize domain) q c (complex f)))
          (verdicts f (normalize domain) q c).
Proof.
  unfold check, verdicts, outcome. rewrite check_complex_spec.
  destruct (rewrites _); [|done]. rewrite best_of_app. unfold set_verdict.
  fold (best_of (classify <$> applicable (normalize domain) q c (complex f))).
  set (b := best_of _).
  by destruct (matches_subdomain _ (allowed_domains f)),
              (matches_subdomain _ (blocked_domains f)).
Qed.

(** ** Compiling a source *)

Definition parsed (lines : list str) : list ParsedRule :=
  omap (fun l => match parse_line l with Ok (Some r) => Some r | _ => None end) lines.

(** The rules of a source as written: one plain rule per list entry, then the
    custom rules that parse. *)
Definition source_rules (inputs : DnsFilterInputs) : list ParsedRule :=
  ((fun d => DomainBlock (normalize_owned d) modifiers_default false)
     <$> in_blocked_domains inputs)
  ++ ((fun d => DomainBlock (normalize_owned d) modifiers_default true)
     <$> in_allowlist inputs)
  ++ parsed (in_custom_rules inputs).

Definition is_plain (r : ParsedRule) : bool :=
  match r with DomainBlock _ m _ => modifiers_is_empty m | _ => false end.

Lemma modifiers_is_empty_default m : modifiers_is_empty m = true -> m = modifiers_default.
Proof. destruct m as [[] [] [] []]; simpl; done. Qed.

Lemma build_rules_spec lines f :
  let f' := foldl build_rule f lines in
  complex f' = complex f ++ List.filter (fun r => negb (is_plain r)) (parsed lines)
  /\ (forall d, d ∈ blocked_domains f' <->
        d ∈ blocked_domains f \/ DomainBlock d modifiers_default false ∈ parsed lines)
  /\ (forall d, d ∈ allowed_domains f' <->
        d ∈ allowed_domains f \/ DomainBlock d modifiers_default true ∈ parsed lines).
Proof.
  revert f. induction lines as [|l lines IH]; intros f; simpl.
  - rewrite app_nil_r. set_solver.
  - specialize (IH (build_rule f l)) as (Hc & Hb & Ha). rewrite Hc.
    setoid_rewrite Hb. setoid_rewrite Ha. unfold build_rule.
    destruct (parse_line l) as [[r|]|e]; [|by split|by split].
    destruct r as [d m al|rg src m al|rg src m al]; simpl.
    + destruct (modifiers_is_empty m) eqn:Em; simpl.
      * apply modifiers_is_empty_default in Em as ->. destruct al; simpl; set_solver.
      * rewrite <- app_assoc. split; [done|]. split; intros d'; rewrite elem_of_cons.
        all: assert (modifiers_default <> m) by (by intros <-); naive_solver.
    + rewrite <- app_assoc. set_solver.
    + rewrite <- app_assoc. set_solver.
Qed.

Lemma applicable_app d q c l l' :
  applicable d q c (l ++ l') = applicable d q c l ++ applicable d q c l'.
Proof. apply List.filter_app. Qed.

Lemma rewrites_app l l' : rewrites (l ++ l') = rewrites l ++ rewrites l'.
Proof. apply omap_app. Qed.

Lemma rewrites_plain d q c al ds :
  rewrites (applicable d q c ((fun x => DomainBlock x modifiers_default al) <$> ds)) = [].
Proof.
  induction ds as [|x ds IH]; [done|]. unfold applicable in *. simpl.
  destruct (applies _ _ _ _); simpl; apply IH.
Qed.

Lemma rewrites_cons r l :
  rewrites (r :: l) = option_list (rewrite_to (modifiers r)) ++ rewrites l.
Proof. unfold rewrites. simpl. by destruct (rewrite_to (modifiers r)). Qed.

Lemma rewrites_nonplain d q c l :
  rewrites (applicable d q c (List.filter (fun r => negb (is_plain r)) l)) =
  rewrites (applicable d q c l).
Proof.
  induction l as [|r l IH]; [done|]. unfold applicable in *. simpl.
  destruct (is_plain r) eqn:E; simpl.
  - rewrite IH. destruct r as [d' m al| |]; [|done|done]. simpl in E.
    apply modifiers_is_empty_default in E as ->. by destruct (applies _ _ _ _).
  - destruct (applies d q c r); [|done]. by rewrite !rewrites_cons, IH.
Qed.

Lemma elem_of_applicable d q c r l :
  r ∈ applicable d q c l <-> r ∈ l /\ applies d q c r = true.
Proof. unfold applicable. rewrite !list_elem_of_In. apply filter_In. Qed.

Lemma applies_plain d q c x al :
  applies d q c (DomainBlock x modifiers_default al) = is_subdomain_of d x.
Proof. unfold applies. simpl. apply andb_true_r. Qed.

Lemma elem_of_set_verdict k d set k' :
  k ∈ set_verdict d set k' <-> k = k' /\ exists x, x ∈ set /\ is_subdomain_of d x = true.
Proof.
  unfold set_verdict. destruct (matches_subdomain d set) eqn:E.
  - apply matches_subdomain_suffix in E. setoid_rewrite is_subdomain_of_spec. set_solver.
  - split; [set_solver|]. intros [-> (x & Hx & Hs)]. exfalso.
    apply is_subdomain_of_spec in Hs.
    assert (matches_subdomain d set = true) by (apply matches_subdomain_suffix; eauto).
    congruence.
Qed.

Lemma build_spec inputs :
  complex (build inputs) =
    List.filter (fun r => negb (is_plain r)) (parsed (in_custom_rules inputs))
  /\ (forall d, d ∈ blocked_domains (build inputs) <->
        DomainBlock d modifiers_default false ∈ source_rules inputs)
  /\ (forall d, d ∈ allowed_domains (build inputs) <->
        DomainBlock d modifiers_default true ∈ source_rules inputs).
Proof.
  destruct (build_rules_spec (in_custom_rules inputs)
    {| blocked_domains := list_to_set (normalize_owned <$> in_blocked_domains inputs);
       allowed_domains := list_to_set (normalize_owned <$> in_allowlist inputs);
       complex := [] |}) as (Hc & Hb & Ha).
  split; [exact Hc|]. unfold source_rules.
  split; intros d; [rewrite (Hb d) | rewrite (Ha d)]; simpl;
    rewrite elem_of_list_to_set, !elem_of_app, !list_elem_of_fmap; naive_solver.
Qed.

Lemma rewrites_list_rules d q c al ds :
  rewrites (applicable d q c
    ((fun x => DomainBlock (normalize_owned x) modifiers_default al) <$> ds)) = [].
Proof. rewrite <- (rewrites_plain d q c al (normalize_owned <$> ds)). by rewrite <- list_fmap_compose. Qed.

Lemma source_rules_plain inputs r : r ∈ source_rules inputs ->
  is_plain r = true \/ r ∈ parsed (in_custom_rules inputs).
Proof.
  unfold source_rules. rewrite !elem_of_app, !list_elem_of_fmap. naive_solver.
Qed.

(** The verdicts of the compiled form and of the rules as written. *)
Lemma verdict_sources inputs d q c k :
  ((exists r, k = classify r /\
      r ∈ List.filter (fun r => negb (is_plain r)) (parsed (in_custom_rules inputs))
      /\ applies d q c r = true)
   \/ (k = Allow /\ exists x, DomainBlock x modifiers_default true ∈ source_rules inputs
        /\ is_subdomain_of d x = true)
   \/ (k = Block /\ exists x, DomainBlock x modifiers_default false ∈ source_rules inputs
        /\ is_subdomain_of d x = true)) <->
  exists r, k = classify r /\ r ∈ source_rules inputs /\ applies d q c r = true.
Proof.
  split.
  - intros [(r & -> & Hr & Hap)|[(-> & x & Hx & Hs)|(-> & x & Hx & Hs)]].
    + exists r. split; [done|]. split; [|done].
      apply list_elem_of_In, filter_In in Hr as [Hr _].
      unfold source_rules. rewrite !elem_of_app. right; right. by apply list_elem_of_In.
    + eexists. split; [|split; [exact Hx|]]; [done|]. by rewrite applies_plain.
    + eexists. split; [|split; [exact Hx|]]; [done|]. by rewrite applies_plain.
  - intros (r & -> & Hr & Hap). destruct (is_plain r) eqn:Ep.
    + destruct r as [x m al| |]; [|done|done]. simpl in Ep.
      apply modifiers_is_empty_default in Ep as ->. rewrite applies_plain in Hap.
      right. destruct al; [left|right]; eauto.
    + left. exists r. split; [done|]. split; [|done].
      destruct (source_rules_plain _ _ Hr) as [?|Hp]; [congruence|].
      apply list_elem_of_In, filter_In. split; [by apply list_elem_of_In | by rewrite Ep].
Qed.

(** C12: Compiling a source keeps its meaning: evaluating the compiled filter is
    evaluating the source's rules one by one. *)
Theorem build_correct inputs domain q c :
  check (build inputs) domain q c =
  reference_check (source_rules inputs) (normalize domain) q c.
Proof.
  rewrite check_outcome. unfold reference_check. set (d := normalize domain).
  destruct (build_spec inputs) as (Hc & Hb & Ha).
  assert (Hr : rewrites (applicable d q c (complex (build inputs))) =
               rewrites (applicable d q c (source_rules inputs))).
  { unfold source_rules. rewrite Hc, rewrites_nonplain, !applicable_app, !rewrites_app.
    by rewrite !rewrites_list_rules. }
  cbv zeta. unfold outcome. rewrite Hr.
  destruct (rewrites (applicable d q c (source_rules inputs))); [|done].
  rewrite (best_of_ext (verdicts (build inputs) d q c)
    (classify <$> applicable d q c (source_rules inputs))); [done|]. intros k.
  unfold verdicts. rewrite !elem_of_app, !elem_of_set_verdict, !list_elem_of_fmap.
  setoid_rewrite elem_of_applicable. rewrite Hc.
  setoid_rewrite Hb. setoid_rewrite Ha. apply verdict_sources.
Qed.

(** ** Aggregation across sources, profiles and devices *)

Definition out_rewrites (os : list MatchOutcome) : list IpAddr :=
  omap (fun o => match o with Rewrite ip => Some ip | _ => None end) os.

Definition out_kinds (os : list MatchOutcome) : list MatchKind :=
  omap (fun o => match o with Match k => Some k | _ => None end) os.

Lemma upgrade_code b k :
  (if match b with None => true | Some c => rank c <? rank k end then Some k else b) =
  upgrade b k.
Proof. by destruct b. Qed.

Lemma profile_loop_spec fs domain q c b :
  let os := (fun f => check f domain q c) <$> fs in
  profile_loop fs domain q c b =
  match out_rewrites os with
  | ip :: _ => ProfileRewrite ip
  | [] => match foldl upgrade b (out_kinds os) with
          | Some k => Decided k | None => ProfileNone end
  end.
Proof.
  revert b. induction fs as [|f fs IH]; intros b; [done|]. simpl.
  destruct (check f domain q c) as [|k|ip]; simpl; [apply IH | | done].
  rewrite upgrade_code. apply IH.
Qed.

Lemma foldl_upgrade_best b l :
  foldl upgrade b l = match best_of l with Some k => upgrade b k | None => b end.
Proof.
  induction l as [|x l IH] using rev_ind; [done|].
  rewrite best_of_app, !foldl_app. simpl. rewrite IH.
  destruct (best_of l) as [k|]; [|done]. destruct b as [k'|]; destruct k, x; try done;
    by destruct k'.
Qed.

Lemma context_loop_spec ps domain q c b :
  let os := (fun f => check f domain q c) <$> concat ps in
  context_loop ps domain q c b =
  match out_rewrites os with
  | ip :: _ => ActionRewrite ip
  | [] => match foldl upgrade b (out_kinds os) with
          | Some k => if blocks k then ActionBlock else Pass | None => Pass end
  end.
Proof.
  revert b. induction ps as [|p ps IH]; intros b; [done|]. simpl.
  unfold profile_check. rewrite profile_loop_spec. cbv zeta.
  fold (best_of (out_kinds ((fun f => check f domain q c) <$> p))).
  rewrite fmap_app. unfold out_rewrites, out_kinds in *. rewrite !omap_app.
  destruct (omap _ (_ <$> p)) as [|ip ips] eqn:E; [|done]. simpl app.
  rewrite foldl_app, (foldl_upgrade_best b).
  destruct (best_of _) as [k|]; [rewrite upgrade_code|]; apply IH.
Qed.

(** Nesting does not matter: a device's profiles decide as the flat list of
    their sources would, first rewrite first, else the strongest verdict. *)
Theorem context_check_flat ctx domain q c :
  context_check ctx domain q c =
  match profile_check (concat (ctx_profiles ctx)) domain q c with
  | ProfileRewrite ip => ActionRewrite ip
  | Decided k => if blocks k then ActionBlock else Pass
  | ProfileNone => Pass
  end.
Proof.
  unfold context_check, profile_check. rewrite context_loop_spec, profile_loop_spec.
  cbv zeta. destruct (out_rewrites _); [|done]. by destruct (foldl _ _ _).
Qed.

Lemma elem_of_out_kinds k fs domain q c :
  k ∈ out_kinds ((fun f => check f domain q c) <$> fs) <->
  exists f, f ∈ fs /\ check f domain q c = Match k.
Proof.
  unfold out_kinds. rewrite list_elem_of_omap. setoid_rewrite list_elem_of_fmap. split.
  - intros (o & (f & -> & Hf) & Ho). exists f. destruct (check f domain q c); naive_solver.
  - intros (f & Hf & E). exists (Match k). split; [|done]. exists f. by rewrite E.
Qed.

Lemma out_rewrites_nil fs domain q c :
  out_rewrites ((fun f => check f domain q c) <$> fs) = [] <->
  forall f ip, f ∈ fs -> check f domain q c <> Rewrite ip.
Proof.
  unfold out_rewrites. induction fs as [|f fs IH]; simpl; [set_solver|].
  setoid_rewrite elem_of_cons. destruct (check f domain q c) as [|k|ip] eqn:E.
  1-2: rewrite IH; split; [|by eauto]; intros H f' ip' [->|Hf]; [by rewrite E | by apply H].
  split; [done|]. intros H. exfalso. by apply (H f ip); [left|].
Qed.

Lemma best_of_blocks l :
  (match best_of l with Some k => blocks k | None => false end) = true <->
  ImportantAllow ∉ l /\ (ImportantBlock ∈ l \/ (Block ∈ l /\ Allow ∉ l)).
Proof.
  destruct (best_of l) as [k|] eqn:E.
  - apply best_of_Some in E as [Hin Hmax].
    pose proof (Hmax ImportantAllow). pose proof (Hmax ImportantBlock).
    pose proof (Hmax Allow). destruct k; simpl in *; split; try done; intros;
    intuition (try done; try lia).
  - apply best_of_None in E as ->. set_solver.
Qed.

(** A query is blocked exactly when no source rewrites it, no source has an
    important exception for it, and some source has an important block for it,
    or a block that no exception answers. *)
Theorem context_block_iff ctx domain q c :
  let verdict k := exists f, f ∈ concat (ctx_profiles ctx) /\ check f domain q c = Match k in
  context_check ctx domain q c = ActionBlock <->
  (forall f ip, f ∈ concat (ctx_profiles ctx) -> check f domain q c <> Rewrite ip)
  /\ ~ verdict ImportantAllow
  /\ (verdict ImportantBlock \/ (verdict Block /\ ~ verdict Allow)).
Proof.
  cbv zeta. unfold context_check. rewrite context_loop_spec. cbv zeta.
  rewrite <- out_rewrites_nil. setoid_rewrite <- elem_of_out_kinds.
  rewrite <- (best_of_blocks (out_kinds _)). unfold best_of.
  destruct (out_rewrites _); [|naive_solver].
  destruct (foldl _ _ _) as [k|]; [destruct (blocks k)|]; naive_solver.
Qed.

(** Streaming a blocklist through the builder gives the filter the batch
    constructor gives. *)
Theorem builder_correct ds :
  builder_finish (foldl builder_insert builder_new ds) =
  build {| in_blocked_domains := ds; in_allowlist := []; in_custom_rules := [] |}.
Proof.
  unfold build, builder_finish, builder_new. simpl. f_equal.
  assert (H : forall b, foldl builder_insert b ds = list_to_set (normalize_owned <$> ds) ∪ b).
  { induction ds as [|d ds IH]; intros b; simpl; [set_solver|].
    rewrite IH. unfold builder_insert. set_solver. }
  rewrite H. set_solver.
Qed.

End filter_laws.

(** ** The decision for one query

    The hot path of [wardnetd-services/src/dns_filter/service.rs]: which context
    decides for a client, and the kill switches around it.  The maps the service
    keeps behind its locks are a value. *)

Section filter_service.
Context {RL : RegexLib} {TL : RecordTypeLib} {NL : IpNetworkLib}.

Record CheckOutcome : Type := { co_action : FilterAction; would_have_blocked : bool }.

(** [contexts], [device_contexts], [default_context] and [config.enabled]. *)
Record FilterState : Type := {
  fs_contexts : gmap IpAddr DeviceFilterContext;
  fs_device_contexts : gmap Z DeviceFilterContext;
  fs_default_context : DeviceFilterContext;
  fs_enabled : bool;
}.

(** The context whose profiles are consulted. *)
Definition context_for_check (s : FilterState) (context : option DeviceFilterContext)
    : DeviceFilterContext :=
  match context with
  | Some c => match ctx_profiles c with [] => fs_default_context s | _ => c end
  | None => fs_default_context s
  end.

Definition outcome_with_context (s : FilterState) (context : option DeviceFilterContext)
    (domain : str) (qtype : RecordType) (client : IpAddr) : CheckOutcome :=
  let device_enabled := match context with Some c => ctx_enabled c | None => true end in
  let effective_action := context_check (context_for_check s context) domain qtype client in
  if negb (fs_enabled s) || negb device_enabled then
    {| co_action := Pass;
       would_have_blocked := match effective_action with
                             | ActionBlock | ActionRewrite _ => true
                             | Pass => false
                             end |}
  else {| co_action := effective_action; would_have_blocked := false |}.

Definition service_check (s : FilterState) (domain : str) (qtype : RecordType) (client : IpAddr)
    : CheckOutcome :=
  outcome_with_context s (fs_contexts s !! client) domain qtype client.

Definition check_for_device (s : FilterState) (domain : str) (qtype : RecordType) (device_id : Z)
    (client : IpAddr) : CheckOutcome :=
  let context := match fs_device_contexts s !! device_id with
                 | Some ctx => Some ctx
                 | None => fs_contexts s !! client
                 end in
  outcome_with_context s context domain qtype client.

(** A suppressed block is reported, never enforced; an enforced one is never
    reported as suppressed. *)
Lemma outcome_exclusive s context domain qtype client :
  let o := outcome_with_context s context domain qtype client in
  would_have_blocked o = true -> co_action o = Pass.
Proof. unfold outcome_with_context. by case_match. Qed.

End filter_service.
