(* ===== verification/DnsWire.v ===== *)
(** * Ageing TTLs in a wire-format DNS response

    [wardnetd-services/src/dns/cache.rs], [age_wire_ttls] and its helpers: the
    in-place walk over a cached response.  A buffer is [list Z], one value in
    [0..255] per byte; offsets are [usize] values in [Z]. *)

From S2P Require Import Prelude.

Definition RR_TYPE_OPT : Z := 41.
Definition RR_FIXED_LEN : Z := 10.
Definition RR_TTL_OFFSET : Z := 4.

(** [buf.get(i)] *)
Definition bget (buf : list Z) (i : Z) : option Z :=
  if i <? 0 then None else buf !! Z.to_nat i.

(** [u16::from_be_bytes] and [u32::from_be_bytes] of consecutive bytes. *)
Definition get_u16 (buf : list Z) (i : Z) : option Z :=
  a ← bget buf i; b ← bget buf (i + 1); Some (a * 256 + b).

Definition get_u32 (buf : list Z) (i : Z) : option Z :=
  a ← bget buf i; b ← bget buf (i + 1); c ← bget buf (i + 2); d ← bget buf (i + 3);
  Some (a * 16777216 + b * 65536 + c * 256 + d).

Definition be16 (x : Z) : list Z := [x / 256 mod 256; x mod 256].
Definition be32 (x : Z) : list Z :=
  [x / 16777216 mod 256; x / 65536 mod 256; x / 256 mod 256; x mod 256].

(** [buf.get_mut(i..i + n)?.copy_from_slice(bs)] with [n = bs.len()]. *)
Definition put_bytes (buf : list Z) (i : Z) (bs : list Z) : option (list Z) :=
  if (0 <=? i) && (i + Z.of_nat (length bs) <=? Z.of_nat (length buf))
  then Some (take (Z.to_nat i) buf ++ bs ++ drop (Z.to_nat i + length bs) buf)
  else None.

(** [skip_name]: one iteration per label; every label advances the offset, so
    [length buf + 1] iterations are enough (proved below). *)
Fixpoint skip_name_loop (fuel : nat) (buf : list Z) (pos : Z) : option Z :=
  match fuel with
  | O => None
  | S fuel' =>
      len ← bget buf pos;
      let tag := Z.land len 192 in
      if tag =? 0 then
        if len =? 0 then Some (pos + 1)
        else pos' ← checked_add pos (1 + len); skip_name_loop fuel' buf pos'
      else if tag =? 192 then checked_add pos 2
      else None
  end.

Definition skip_name (buf : list Z) (pos : Z) : option Z :=
  skip_name_loop (S (length buf)) buf pos.

Fixpoint skip_questions (n : nat) (buf : list Z) (pos : Z) : option Z :=
  match n with
  | O => Some pos
  | S n' => pos ← skip_name buf pos; pos ← checked_add pos 4; skip_questions n' buf pos
  end.

(** [ttl.saturating_sub(elapsed).min(remaining).max(1)] *)
Definition aged_ttl (elapsed remaining ttl : Z) : Z :=
  Z.max 1 (Z.min remaining (sat_sub ttl elapsed)).

(** The fields the loop reads of one record before it writes: the offset past
    the name, the type and the data length. *)
Definition read_record (buf : list Z) (pos : Z) : option (Z * Z * Z) :=
  pos ← skip_name buf pos;
  rtype ← get_u16 buf pos;
  ttl_at ← checked_add pos RR_TTL_OFFSET;
  rdlen_at ← checked_add pos 8;
  rdlength ← get_u16 buf rdlen_at;
  Some (pos, rtype, rdlength).

(** The TTL write of one record, [None] where the code's [?] gives up. *)
Definition age_record (buf : list Z) (pos rtype elapsed remaining : Z) : option (list Z) :=
  if rtype =? RR_TYPE_OPT then Some buf
  else ttl ← get_u32 buf (pos + RR_TTL_OFFSET);
       if ttl =? 0 then Some buf
       else put_bytes buf (pos + RR_TTL_OFFSET) (be32 (aged_ttl elapsed remaining ttl)).

(** The record loop; the buffer keeps what was written before a [None]. *)
Fixpoint age_records (n : nat) (buf : list Z) (pos elapsed remaining : Z)
    : option unit * list Z :=
  match n with
  | O => (Some tt, buf)
  | S n' =>
      match read_record buf pos with
      | None => (None, buf)
      | Some (pos1, rtype, rdlength) =>
          match age_record buf pos1 rtype elapsed remaining with
          | None => (None, buf)
          | Some buf' =>
              match (p ← checked_add pos1 RR_FIXED_LEN; checked_add p rdlength) with
              | None => (None, buf')
              | Some pos2 => age_records n' buf' pos2 elapsed remaining
              end
          end
      end
  end.

Definition age_wire_ttls_inner (buf : list Z) (elapsed remaining : Z)
    : option unit * list Z :=
  match (qd ← get_u16 buf 4; an ← get_u16 buf 6; ns ← get_u16 buf 8; ar ← get_u16 buf 10;
         pos ← skip_questions (Z.to_nat qd) buf 12; Some (an + ns + ar, pos)) with
  | None => (None, buf)
  | Some (record_count, pos) =>
      age_records (Z.to_nat record_count) buf pos elapsed remaining
  end.

Definition age_wire_ttls (buf : list Z) (elapsed_secs remaining_secs : Z) : list Z :=
  snd (age_wire_ttls_inner buf (clamp_u32 elapsed_secs) (clamp_u32 remaining_secs)).

(** ** Termination of the name walk *)

(** What the loop of [skip_name] computes, without fuel. *)
Inductive name_walk (buf : list Z) : Z -> option Z -> Prop :=
| walk_oob pos : bget buf pos = None -> name_walk buf pos None
| walk_root pos : bget buf pos = Some 0 -> name_walk buf pos (Some (pos + 1))
| walk_label pos len pos' r : bget buf pos = Some len -> Z.land len 192 = 0 -> len <> 0 ->
    checked_add pos (1 + len) = Some pos' -> name_walk buf pos' r -> name_walk buf pos r
| walk_overflow pos len : bget buf pos = Some len -> Z.land len 192 = 0 -> len <> 0 ->
    checked_add pos (1 + len) = None -> name_walk buf pos None
| walk_pointer pos len : bget buf pos = Some len -> Z.land len 192 = 192 ->
    name_walk buf pos (checked_add pos 2)
| walk_reserved pos len : bget buf pos = Some len -> Z.land len 192 <> 0 ->
    Z.land len 192 <> 192 -> name_walk buf pos None.

Lemma bget_Some_bounds buf i x : bget buf i = Some x -> 0 <= i < Z.of_nat (length buf).
Proof.
  unfold bget. destruct (Z.ltb_spec i 0); [done|]. intros H1%lookup_lt_Some. lia.
Qed.

Definition is_buf (buf : list Z) : Prop := Forall is_u8 buf.

Lemma bget_is_u8 buf i x : is_buf buf -> bget buf i = Some x -> is_u8 x.
Proof.
  unfold bget, is_buf. destruct (i <? 0); [done|]. intros Hb Hx.
  rewrite Forall_lookup in Hb. by eapply Hb.
Qed.

Lemma skip_name_loop_walk fuel buf pos :
  is_buf buf -> 0 <= pos -> Z.of_nat (length buf) - pos < Z.of_nat fuel ->
  name_walk buf pos (skip_name_loop fuel buf pos).
Proof.
  intros Hb. revert pos. induction fuel as [|fuel IH]; intros pos Hpos Hf.
  - simpl. constructor. destruct (bget buf pos) eqn:E; [|done].
    apply bget_Some_bounds in E. lia.
  - simpl. destruct (bget buf pos) as [len|] eqn:E; simpl; [|by constructor].
    pose proof (bget_is_u8 _ _ _ Hb E) as Hu. unfold is_u8 in Hu.
    destruct (Z.eqb_spec (Z.land len 192) 0) as [Ht|Ht].
    + destruct (Z.eqb_spec len 0) as [->|Hl]; [by constructor|].
      destruct (checked_add pos (1 + len)) as [pos'|] eqn:Ea; simpl; [|by eapply walk_overflow].
      eapply walk_label; eauto. unfold checked_add in Ea. case_match; simplify_eq.
      apply IH; lia.
    + destruct (Z.eqb_spec (Z.land len 192) 192); [by eapply walk_pointer|].
      by eapply walk_reserved.
Qed.

(** The loop of [skip_name] terminates on every buffer, from every offset, with
    the result [skip_name] returns. *)
Theorem skip_name_runs buf pos : is_buf buf -> 0 <= pos ->
  name_walk buf pos (skip_name buf pos).
Proof. intros. apply skip_name_loop_walk; [done | done | lia]. Qed.

(** ** Bounds and shape: what ageing may change *)

Lemma length_put_bytes buf i bs buf' : put_bytes buf i bs = Some buf' ->
  length buf' = length buf.
Proof.
  unfold put_bytes. case_match eqn:E; [|done]. breflect. intros [= <-].
  rewrite !length_app, length_take, length_drop. lia.
Qed.

Lemma length_age_record buf pos rt e r buf' : age_record buf pos rt e r = Some buf' ->
  length buf' = length buf.
Proof.
  unfold age_record. case_match; [by intros [= <-]|].
  destruct (get_u32 _ _); simpl; [|done]. case_match; [by intros [= <-]|].
  apply length_put_bytes.
Qed.

Lemma length_age_records n buf pos e r : length (snd (age_records n buf pos e r)) = length buf.
Proof.
  revert buf pos. induction n as [|n IH]; intros buf pos; simpl; [done|].
  destruct (read_record buf pos) as [[[p rt] rd]|]; [|done].
  destruct (age_record buf p rt e r) as [buf'|] eqn:E; [|done].
  apply length_age_record in E. destruct (checked_add _ _); simpl; [|done].
  destruct (checked_add _ _); [by rewrite IH | done].
Qed.

Lemma length_age_wire_ttls buf e r : length (age_wire_ttls buf e r) = length buf.
Proof.
  unfold age_wire_ttls, age_wire_ttls_inner. destruct (mbind _ _) as [[n p]|]; [|done].
  apply length_age_records.
Qed.

(** ** Structured responses

    The messages the cache holds: a header, questions and records whose names
    are label sequences ended by the root or by a compression pointer. *)

Inductive wire_name : list Z -> Prop :=
| wn_root : wire_name [0]
| wn_pointer a b : 192 <= a <= 255 -> is_u8 b -> wire_name [a; b]
| wn_label n l rest : 1 <= n <= 63 -> Z.of_nat (length l) = n -> is_buf l ->
    wire_name rest -> wire_name (n :: l ++ rest).

Record question : Type := { q_name : list Z; q_type : Z; q_class : Z }.

Record rr : Type := {
  rr_name : list Z; rr_type : Z; rr_class : Z; rr_ttl : Z; rr_data : list Z }.

Record message : Type := {
  m_head : list Z;              (** id and flags, 4 bytes *)
  m_questions : list question;
  m_answers : list rr;
  m_authority : list rr;
  m_additional : list rr }.

Definition question_ok (q : question) : Prop :=
  wire_name (q_name q) /\ is_u16 (q_type q) /\ is_u16 (q_class q).

Definition rr_ok (r : rr) : Prop :=
  wire_name (rr_name r) /\ is_u16 (rr_type r) /\ is_u16 (rr_class r)
  /\ is_u32 (rr_ttl r) /\ Z.of_nat (length (rr_data r)) <= U16_MAX.

Definition message_ok (m : message) : Prop :=
  length (m_head m) = 4%nat
  /\ Forall question_ok (m_questions m)
  /\ Forall rr_ok (m_answers m ++ m_authority m ++ m_additional m)
  /\ Z.of_nat (length (m_questions m)) <= U16_MAX
  /\ Z.of_nat (length (m_answers m)) <= U16_MAX
  /\ Z.of_nat (length (m_authority m)) <= U16_MAX
  /\ Z.of_nat (length (m_additional m)) <= U16_MAX.

Definition enc_question (q : question) : list Z :=
  q_name q ++ be16 (q_type q) ++ be16 (q_class q).

Definition enc_rr (r : rr) : list Z :=
  rr_name r ++ be16 (rr_type r) ++ be16 (rr_class r) ++ be32 (rr_ttl r)
  ++ be16 (Z.of_nat (length (rr_data r))) ++ rr_data r.

Definition enc_rrs (rs : list rr) : list Z := concat (enc_rr <$> rs).

Definition count16 {A} (l : list A) : list Z := be16 (Z.of_nat (length l)).

Definition enc_message (m : message) : list Z :=
  m_head m ++ count16 (m_questions m) ++ count16 (m_answers m)
  ++ count16 (m_authority m) ++ count16 (m_additional m)
  ++ concat (enc_question <$> m_questions m)
  ++ enc_rrs (m_answers m ++ m_authority m ++ m_additional m).

(** The specification of ageing: every record but OPT loses the time spent in
    the cache, is capped by the remaining lifetime and stays at least 1; a zero
    TTL is left alone. *)
Definition age_rr (elapsed remaining : Z) (r : rr) : rr :=
  {| rr_name := rr_name r; rr_type := rr_type r; rr_class := rr_class r;
     rr_ttl := if (rr_type r =? RR_TYPE_OPT) || (rr_ttl r =? 0) then rr_ttl r
               else aged_ttl elapsed remaining (rr_ttl r);
     rr_data := rr_data r |}.

Definition age_message (elapsed remaining : Z) (m : message) : message :=
  {| m_head := m_head m; m_questions := m_questions m;
     m_answers := age_rr elapsed remaining <$> m_answers m;
     m_authority := age_rr elapsed remaining <$> m_authority m;
     m_additional := age_rr elapsed remaining <$> m_additional m |}.

(** *** Reading at an offset of a concatenation *)

Lemma bget_app_r pre post i : bget (pre ++ post) (Z.of_nat (length pre) + Z.of_nat i) =
  post !! i.
Proof.
  unfold bget. rewrite (proj2 (Z.ltb_ge _ 0)) by lia.
  replace (Z.to_nat _) with (length pre + i)%nat by lia.
  rewrite lookup_app_r by lia. f_equal. lia.
Qed.

Lemma bget_at pre x post i : i = Z.of_nat (length pre) -> bget (pre ++ x :: post) i = Some x.
Proof. intros ->. replace (Z.of_nat _) with (Z.of_nat (length pre) + Z.of_nat 0) by lia.
  by rewrite bget_app_r. Qed.

Lemma checked_add_small a b : 0 <= a + b <= U64_MAX -> checked_add a b = Some (a + b).
Proof. intros. unfold checked_add. rewrite (proj2 (Z.leb_le _ _)) by lia. done. Qed.

Lemma get_u16_at pre x post i : i = Z.of_nat (length pre) -> is_u16 x ->
  get_u16 (pre ++ be16 x ++ post) i = Some x.
Proof.
  intros Hi Hx. unfold get_u16, be16, is_u16, U16_MAX in *. subst i.
  rewrite <- (Z.add_0_r (Z.of_nat (length pre))) at 1.
  change 0 with (Z.of_nat 0) at 1. change 1 with (Z.of_nat 1).
  rewrite !bget_app_r. simpl. f_equal. zdiv.
Qed.

Lemma get_u32_at pre x post i : i = Z.of_nat (length pre) -> is_u32 x ->
  get_u32 (pre ++ be32 x ++ post) i = Some x.
Proof.
  intros Hi Hx. unfold get_u32, be32, is_u32, U32_MAX in *. subst i.
  rewrite <- (Z.add_0_r (Z.of_nat (length pre))) at 1.
  change 0 with (Z.of_nat 0) at 1. change 1 with (Z.of_nat 1). change 2 with (Z.of_nat 2).
  change 3 with (Z.of_nat 3). rewrite !bget_app_r. simpl. f_equal. zdiv.
Qed.

Lemma put_bytes_at pre old new post i : i = Z.of_nat (length pre) ->
  length old = length new ->
  put_bytes (pre ++ old ++ post) i new = Some (pre ++ new ++ post).
Proof.
  intros -> Hl. unfold put_bytes. rewrite (proj2 (Z.leb_le 0 _)) by lia.
  rewrite (proj2 (Z.leb_le _ _)) by (rewrite !length_app; lia). simpl.
  rewrite Nat2Z.id, take_app_length. repeat f_equal.
  rewrite <- Hl, app_assoc, <- length_app. by rewrite drop_app_length.
Qed.

(** [Vec] never holds more than [isize::MAX] bytes. *)
Definition ISIZE_MAX : Z := 9223372036854775807.

Definition buf_len (buf : list Z) : Z := Z.of_nat (length buf).

Lemma land_192 a : 0 <= a <= 255 -> Z.land a 192 = a / 64 * 64.
Proof.
  intros Ha.
  assert (H : forallb (fun a => Z.land a 192 =? a / 64 * 64) (seqZ 0 256) = true)
    by (vm_compute; reflexivity).
  rewrite forallb_forall in H. apply Z.eqb_eq, H, list_elem_of_In, elem_of_seqZ. lia.
Qed.

Lemma skip_name_loop_at name pre post fuel : wire_name name ->
  (length name < fuel)%nat -> buf_len (pre ++ name ++ post) <= ISIZE_MAX ->
  skip_name_loop fuel (pre ++ name ++ post) (buf_len pre) = Some (buf_len pre + buf_len name).
Proof.
  intros Hn. revert pre fuel. unfold buf_len, ISIZE_MAX.
  induction Hn as [|a b Ha Hb|n l rest Hr Hl Hb Hn IH]; intros pre fuel Hf Hlen;
    (destruct fuel as [|fuel]; [lia|]); simpl skip_name_loop;
    rewrite !length_app in Hlen; simpl in Hlen, Hf.
  - by rewrite bget_at.
  - rewrite bget_at by done. simpl. rewrite land_192 by lia.
    rewrite (proj2 (Z.eqb_neq _ 0)) by zdiv. rewrite (proj2 (Z.eqb_eq _ 192)) by zdiv.
    rewrite checked_add_small by (unfold U64_MAX; lia). done.
  - rewrite bget_at by done. simpl. rewrite land_192 by lia.
    rewrite length_app in Hf, Hlen.
    rewrite (proj2 (Z.eqb_eq _ 0)) by zdiv. rewrite (proj2 (Z.eqb_neq n 0)) by lia.
    rewrite checked_add_small by (unfold U64_MAX; lia). simpl.
    replace (pre ++ n :: (l ++ rest) ++ post) with ((pre ++ n :: l) ++ rest ++ post)
      by (by rewrite <- !app_assoc).
    replace (Z.of_nat (length pre) + (1 + n)) with (Z.of_nat (length (pre ++ n :: l)))
      by (rewrite length_app; simpl; lia).
    rewrite IH; [|lia|rewrite !length_app; simpl; lia].
    f_equal. cbn [length]. rewrite !length_app. cbn [length]. lia.
Qed.

Lemma skip_name_at name pre post : wire_name name ->
  buf_len (pre ++ name ++ post) <= ISIZE_MAX ->
  skip_name (pre ++ name ++ post) (buf_len pre) = Some (buf_len pre + buf_len name).
Proof.
  intros. unfold skip_name. apply skip_name_loop_at; [done | | done].
  rewrite !length_app. lia.
Qed.

Lemma buf_len_app a b : buf_len (a ++ b) = buf_len a + buf_len b.
Proof. unfold buf_len. rewrite length_app. lia. Qed.

Lemma buf_len_nonneg a : 0 <= buf_len a.
Proof. unfold buf_len. lia. Qed.

Lemma skip_questions_at qs pre post : Forall question_ok qs ->
  buf_len (pre ++ concat (enc_question <$> qs) ++ post) <= ISIZE_MAX ->
  skip_questions (length qs) (pre ++ concat (enc_question <$> qs) ++ post) (buf_len pre)
  = Some (buf_len pre + buf_len (concat (enc_question <$> qs))).
Proof.
  intros Hqs. revert pre. induction Hqs as [|q qs (Hn & Ht & Hc) _ IH]; intros pre Hlen.
  - simpl. f_equal. unfold buf_len. simpl. lia.
  - rewrite fmap_cons, concat_cons in *. cbn [length skip_questions].
    assert (exists qt, enc_question q = q_name q ++ qt /\ buf_len qt = 4) as (qt & Eq & Hqt)
      by (by eexists).
    rewrite Eq in *. clear Eq.
    set (rest := concat (enc_question <$> qs)) in *.
    rewrite <- !app_assoc in Hlen. rewrite <- !(app_assoc (q_name q)).
    rewrite <- !(app_assoc qt). rewrite skip_name_at; [|exact Hn|done]. cbn [mbind option_bind].
    specialize (IH (pre ++ q_name q ++ qt)). rewrite <- !app_assoc in IH.
    rewrite !buf_len_app in *. pose proof (buf_len_nonneg pre).
    pose proof (buf_len_nonneg rest). pose proof (buf_len_nonneg post).
    pose proof (buf_len_nonneg (q_name q)). unfold ISIZE_MAX in *.
    rewrite checked_add_small by (unfold U64_MAX; lia). cbn [mbind option_bind].
    replace (buf_len pre + buf_len (q_name q) + 4)
      with (buf_len pre + (buf_len (q_name q) + buf_len qt)) by lia.
    rewrite IH by lia. f_equal. lia.
Qed.

(** One record, at its offset. *)
Lemma read_record_at r pre post : rr_ok r ->
  buf_len (pre ++ enc_rr r ++ post) <= ISIZE_MAX ->
  read_record (pre ++ enc_rr r ++ post) (buf_len pre) =
  Some (buf_len pre + buf_len (rr_name r), rr_type r, buf_len (rr_data r)).
Proof.
  intros (Hn & Ht & Hc & Httl & Hd) Hlen. unfold read_record, enc_rr in *.
  rewrite <- !app_assoc in Hlen |- *. rewrite skip_name_at by done. cbn [mbind option_bind].
  set (tail := be16 (rr_class r) ++ be32 (rr_ttl r)).
  set (fin := be16 (Z.of_nat (length (rr_data r))) ++ rr_data r ++ post) in *.
  assert (Hl : buf_len pre + buf_len (rr_name r) + 8 <= ISIZE_MAX).
  { rewrite !buf_len_app in Hlen. pose proof (buf_len_nonneg fin).
    change (buf_len (be16 (rr_type r))) with 2 in Hlen.
    change (buf_len (be16 (rr_class r))) with 2 in Hlen.
    change (buf_len (be32 (rr_ttl r))) with 4 in Hlen. lia. }
  rewrite (app_assoc pre).
  rewrite (get_u16_at (pre ++ rr_name r) (rr_type r)) by (done || (symmetry; apply buf_len_app)).
  cbn [mbind option_bind]. pose proof (buf_len_nonneg pre). pose proof (buf_len_nonneg (rr_name r)).
  unfold RR_TTL_OFFSET, ISIZE_MAX in *.
  rewrite !checked_add_small by (unfold U64_MAX; lia). cbn [mbind option_bind].
  replace ((pre ++ rr_name r) ++ be16 (rr_type r) ++ be16 (rr_class r) ++ be32 (rr_ttl r) ++ fin)
    with ((pre ++ rr_name r ++ be16 (rr_type r) ++ tail) ++ fin)
    by (unfold tail; by rewrite <- !app_assoc).
  unfold fin. rewrite get_u16_at; [done | | unfold is_u16; lia].
  change (Z.of_nat (length ?x)) with (buf_len x). rewrite !buf_len_app.
  change (buf_len (be16 (rr_type r))) with 2. change (buf_len tail) with 6. lia.
Qed.

Lemma length_be32 x : length (be32 x) = 4%nat.
Proof. done. Qed.

Lemma age_record_at r pre post e rem : rr_ok r ->
  age_record (pre ++ enc_rr r ++ post) (buf_len pre + buf_len (rr_name r)) (rr_type r) e rem
  = Some (pre ++ enc_rr (age_rr e rem r) ++ post).
Proof.
  intros (Hn & Ht & Hc & Httl & Hd). unfold age_record, age_rr, enc_rr.
  cbn [rr_name rr_type rr_class rr_ttl rr_data].
  destruct (rr_type r =? RR_TYPE_OPT); cbn [orb]; [done|].
  set (hd := pre ++ rr_name r ++ be16 (rr_type r) ++ be16 (rr_class r)).
  set (fin := be16 (Z.of_nat (length (rr_data r))) ++ rr_data r ++ post).
  assert (Heq : forall t, pre ++ (rr_name r ++ be16 (rr_type r) ++ be16 (rr_class r) ++ be32 t
    ++ be16 (Z.of_nat (length (rr_data r))) ++ rr_data r) ++ post = hd ++ be32 t ++ fin).
  { intros t. unfold hd, fin. by rewrite <- !app_assoc. }
  assert (Hat : buf_len pre + buf_len (rr_name r) + RR_TTL_OFFSET = Z.of_nat (length hd)).
  { change (Z.of_nat (length hd)) with (buf_len hd). unfold hd. rewrite !buf_len_app.
    change (buf_len (be16 (rr_type r))) with 2. change (buf_len (be16 (rr_class r))) with 2.
    unfold RR_TTL_OFFSET. lia. }
  rewrite Heq, Hat, get_u32_at by done. cbn [mbind option_bind].
  destruct (rr_ttl r =? 0); [by rewrite Heq|].
  rewrite put_bytes_at by done. by rewrite Heq.
Qed.

Lemma buf_len_enc_rr r : buf_len (enc_rr r) = buf_len (rr_name r) + 10 + buf_len (rr_data r).
Proof.
  unfold enc_rr. rewrite !buf_len_app. change (buf_len (be16 _)) with 2.
  change (buf_len (be32 _)) with 4. lia.
Qed.

Lemma age_records_at rs pre e rem : Forall rr_ok rs ->
  buf_len (pre ++ enc_rrs rs) <= ISIZE_MAX ->
  age_records (length rs) (pre ++ enc_rrs rs) (buf_len pre) e rem =
  (Some tt, pre ++ enc_rrs (age_rr e rem <$> rs)).
Proof.
  intros Hrs. revert pre. induction Hrs as [|r rs Hr _ IH]; intros pre Hlen; [done|].
  unfold enc_rrs in *. rewrite !fmap_cons, !concat_cons in *. cbn [length age_records].
  rewrite read_record_at, age_record_at by done.
  pose proof (buf_len_nonneg pre). pose proof (buf_len_nonneg (rr_name r)).
  pose proof (buf_len_nonneg (rr_data r)). set (rest := concat (enc_rr <$> rs)) in *.
  pose proof (buf_len_nonneg rest). rewrite !buf_len_app, buf_len_enc_rr in Hlen.
  unfold ISIZE_MAX, RR_FIXED_LEN in *.
  rewrite checked_add_small by (unfold U64_MAX; lia). cbn [mbind option_bind].
  rewrite checked_add_small by (unfold U64_MAX; lia).
  specialize (IH (pre ++ enc_rr (age_rr e rem r))).
  assert (Hsz : buf_len (enc_rr (age_rr e rem r)) =
    buf_len (rr_name r) + 10 + buf_len (rr_data r)) by (by rewrite buf_len_enc_rr).
  rewrite !buf_len_app, Hsz, <- !app_assoc in IH. rewrite <- IH by lia. f_equal. lia.
Qed.

Lemma age_message_counts e rem m :
  enc_message (age_message e rem m) =
  m_head m ++ count16 (m_questions m) ++ count16 (m_answers m)
  ++ count16 (m_authority m) ++ count16 (m_additional m)
  ++ concat (enc_question <$> m_questions m)
  ++ enc_rrs (age_rr e rem <$> (m_answers m ++ m_authority m ++ m_additional m)).
Proof.
  unfold enc_message, age_message, count16. simpl. by rewrite !length_fmap, !fmap_app.
Qed.

(** The four counts of the header, at their offsets. *)
Lemma header_counts head a b c d rest :
  length head = 4%nat -> is_u16 a -> is_u16 b -> is_u16 c -> is_u16 d ->
  let buf := head ++ be16 a ++ be16 b ++ be16 c ++ be16 d ++ rest in
  get_u16 buf 4 = Some a /\ get_u16 buf 6 = Some b /\ get_u16 buf 8 = Some c
  /\ get_u16 buf 10 = Some d.
Proof.
  intros Hh Ha Hb Hc Hd buf. unfold buf. repeat split.
  - apply get_u16_at; [lia | done].
  - rewrite app_assoc. apply get_u16_at; [rewrite length_app; simpl; lia | done].
  - rewrite !app_assoc, <- (app_assoc (_ ++ be16 c)), <- app_assoc.
    apply get_u16_at; [rewrite !length_app; simpl; lia | done].
  - rewrite !app_assoc, <- app_assoc. apply get_u16_at; [rewrite !length_app; simpl; lia | done].
Qed.

(** Ageing a cached response in place is ageing every record of the message it
    encodes: the walk finds every TTL, writes nothing else, and stops short of
    nothing. *)
Lemma age_wire_ttls_enc m elapsed remaining :
  message_ok m -> buf_len (enc_message m) <= ISIZE_MAX ->
  age_wire_ttls (enc_message m) elapsed remaining =
  enc_message (age_message (clamp_u32 elapsed) (clamp_u32 remaining) m).
Proof.
  intros (Hh & Hq & Hr & Hqc & Hac & Hnc & Harc) Hlen.
  unfold age_wire_ttls, age_wire_ttls_inner.
  rewrite age_message_counts. unfold enc_message, count16 in *.
  set (rs := m_answers m ++ m_authority m ++ m_additional m) in *.
  destruct (header_counts (m_head m) (Z.of_nat (length (m_questions m)))
    (Z.of_nat (length (m_answers m))) (Z.of_nat (length (m_authority m)))
    (Z.of_nat (length (m_additional m)))
    (concat (enc_question <$> m_questions m) ++ enc_rrs rs)) as (-> & -> & -> & ->);
    [done | unfold is_u16; lia .. |]. cbn [mbind option_bind].
  set (hd := be16 (Z.of_nat (length (m_questions m))) ++ be16 (Z.of_nat (length (m_answers m)))
    ++ be16 (Z.of_nat (length (m_authority m))) ++ be16 (Z.of_nat (length (m_additional m)))).
  assert (Hhd : buf_len (m_head m ++ hd) = 12) by (rewrite buf_len_app; unfold buf_len; by rewrite Hh).
  assert (Heq : forall l, m_head m ++ be16 (Z.of_nat (length (m_questions m)))
    ++ be16 (Z.of_nat (length (m_answers m))) ++ be16 (Z.of_nat (length (m_authority m)))
    ++ be16 (Z.of_nat (length (m_additional m))) ++ l = (m_head m ++ hd) ++ l).
  { intros l. unfold hd. by rewrite <- !app_assoc. }
  rewrite !Heq in *. rewrite Nat2Z.id, <- Hhd, skip_questions_at by done.
  cbn [mbind option_bind]. rewrite <- buf_len_app, !app_assoc.
  replace (Z.to_nat _) with (length rs) by (unfold rs; rewrite !length_app; lia).
  rewrite app_assoc in Hlen. by rewrite age_records_at.
Qed.
