(* ===== verification/DnsCache.v ===== *)
(** * The DNS response cache

    [wardnetd-services/src/dns/cache.rs]: a TTL-aware map with FIFO eviction
    backed by a queue of [(key, seq)] slots.  Time is an argument, in
    nanoseconds ([Instant::now()]); the map is a [gmap], the queue a list with
    its front at the head.  [u64] counters wrap as a release build wraps them. *)

From Stdlib Require Import Sorted.
From S2P Require Import Prelude RustStr Net FilterParser DnsFilter DnsWire.

(** [wardnet_common::dns::UpstreamId]; a UUID is its 128-bit value. *)
Inductive UpstreamId : Type :=
| DefaultUpstream
| TunnelUpstream (tunnel : Z).

#[export] Instance UpstreamId_eq_dec : EqDecision UpstreamId.
Proof. solve_decision. Defined.

#[export] Instance UpstreamId_countable : Countable UpstreamId.
Proof.
  refine (inj_countable' (fun u => match u with DefaultUpstream => None | TunnelUpstream t => Some t end)
    (fun o => match o with None => DefaultUpstream | Some t => TunnelUpstream t end) _).
  by intros [].
Defined.

Definition NANOS : Z := 1000000000.
Definition ORDER_COMPACT_FLOOR : Z := 64.
Definition EXPIRED_SWEEP_DIVISOR : Z := 4.

Definition canonical_domain (domain : str) : str := normalize_owned domain.

Section cache.
Context {TL : RecordTypeLib}.

Abbreviation CacheKey := (UpstreamId * str * RecordType)%type.

Record CachedEntry : Type := {
  wire : list Z;
  inserted_at : Z;
  ttl : Z;               (** nanoseconds *)
  seq : Z;
}.

(** [self.inserted_at.elapsed()], which saturates at zero. *)
Definition elapsed (now : Z) (e : CachedEntry) : Z := Z.max 0 (now - inserted_at e).

Definition is_expired (now : Z) (e : CachedEntry) : bool := ttl e <=? elapsed now e.

Record DnsCache : Type := {
  entries : gmap CacheKey CachedEntry;
  insertion_order : list (CacheKey * Z);
  next_seq : Z;
  capacity : nat;
  inserts_since_sweep : Z;
  hits : Z;
  misses : Z;
}.

Definition new (capacity : nat) : DnsCache :=
  {| entries := ∅; insertion_order := []; next_seq := 0; capacity := capacity;
     inserts_since_sweep := 0; hits := 0; misses := 0 |}.

Definition cache_len (c : DnsCache) : nat := size (entries c).
Definition cache_is_empty (c : DnsCache) : bool := bool_decide (size (entries c) = 0%nat).

(** ** Lookup *)

Definition add_miss (c : DnsCache) : DnsCache :=
  {| entries := entries c; insertion_order := insertion_order c; next_seq := next_seq c;
     capacity := capacity c; inserts_since_sweep := inserts_since_sweep c;
     hits := hits c; misses := wrap_u64 (misses c + 1) |}.

Definition add_hit (c : DnsCache) : DnsCache :=
  {| entries := entries c; insertion_order := insertion_order c; next_seq := next_seq c;
     capacity := capacity c; inserts_since_sweep := inserts_since_sweep c;
     hits := wrap_u64 (hits c + 1); misses := misses c |}.

(** [wire[..2].copy_from_slice(&id.to_be_bytes())] when the buffer has two bytes. *)
Definition stamp_id (id : Z) (wire : list Z) : list Z :=
  match wire with
  | _ :: _ :: rest => be16 id ++ rest
  | _ => wire
  end.

Definition get (now : Z) (c : DnsCache) (upstream : UpstreamId) (domain : str)
    (rtype : RecordType) (id : Z) : option (list Z) * DnsCache :=
  let key := (upstream, canonical_domain domain, rtype) in
  match entries c !! key with
  | None => (None, add_miss c)
  | Some entry =>
      let age := elapsed now entry in
      if ttl entry <=? age then (None, add_miss c)
      else
        let elapsed_secs := age / NANOS in
        (Some (age_wire_ttls (stamp_id id (wire entry)) elapsed_secs
                 (sat_sub (ttl entry / NANOS) elapsed_secs)),
         add_hit c)
  end.

(** ** Eviction *)

(** A slot is live while its entry still carries its sequence number. *)
Definition slot_live (es : gmap CacheKey CachedEntry) (slot : CacheKey * Z) : Prop :=
  exists e, es !! (fst slot) = Some e /\ seq e = snd slot.

#[export] Instance slot_live_dec es slot : Decision (slot_live es slot).
Proof.
  refine (match es !! (fst slot) as o return es !! (fst slot) = o -> Decision (slot_live es slot) with
          | Some e => fun H => cast_if (decide (seq e = snd slot))
          | None => fun H => right _
          end eq_refl); unfold slot_live; naive_solver.
Defined.

Definition evict_expired (now : Z) (c : DnsCache) : DnsCache :=
  let es := filter (fun kv => is_expired now (snd kv) = false) (entries c) in
  {| entries := es;
     insertion_order := filter (slot_live es) (insertion_order c);
     next_seq := next_seq c; capacity := capacity c;
     inserts_since_sweep := inserts_since_sweep c; hits := hits c; misses := misses c |}.

(** [while self.entries.len() >= self.capacity { pop_front .. }] *)
Fixpoint evict_loop (capacity : nat) (es : gmap CacheKey CachedEntry)
    (order : list (CacheKey * Z)) : gmap CacheKey CachedEntry * list (CacheKey * Z) :=
  if (capacity <=? size es)%nat then
    match order with
    | [] => (es, [])
    | slot :: order' =>
        evict_loop capacity (if decide (slot_live es slot) then delete (fst slot) es else es)
          order'
    end
  else (es, order).

Definition evict_oldest (c : DnsCache) : DnsCache :=
  let '(es, order) := evict_loop (capacity c) (entries c) (insertion_order c) in
  {| entries := es; insertion_order := order; next_seq := next_seq c;
     capacity := capacity c; inserts_since_sweep := inserts_since_sweep c;
     hits := hits c; misses := misses c |}.

Definition compact_threshold (es : gmap CacheKey CachedEntry) : Z :=
  Z.max ORDER_COMPACT_FLOOR (sat_mul (Z.of_nat (size es)) 2).

Definition compact_insertion_order (c : DnsCache) : DnsCache :=
  if Z.of_nat (length (insertion_order c)) <? compact_threshold (entries c) then c
  else {| entries := entries c;
          insertion_order := filter (slot_live (entries c)) (insertion_order c);
          next_seq := next_seq c; capacity := capacity c;
          inserts_since_sweep := inserts_since_sweep c; hits := hits c; misses := misses c |}.

(** ** Insertion and removal *)

Definition set_sweep (n : Z) (c : DnsCache) : DnsCache :=
  {| entries := entries c; insertion_order := insertion_order c; next_seq := next_seq c;
     capacity := capacity c; inserts_since_sweep := n; hits := hits c; misses := misses c |}.

(** Making room for a new key at capacity. *)
Definition make_room (now : Z) (c : DnsCache) : DnsCache :=
  let n := inserts_since_sweep c + 1 in
  let c := set_sweep n c in
  let c := if Z.max 1 (Z.of_nat (capacity c) / EXPIRED_SWEEP_DIVISOR) <=? n
           then evict_expired now (set_sweep 0 c) else c in
  evict_oldest c.

Definition push_entry (now : Z) (c : DnsCache) (key : CacheKey) (w : list Z) (ttl_secs : Z)
    : DnsCache :=
  {| entries := <[key := {| wire := w; inserted_at := now; ttl := ttl_secs * NANOS;
                            seq := next_seq c |}]> (entries c);
     insertion_order := insertion_order c ++ [(key, next_seq c)];
     next_seq := wrap_u64 (next_seq c + 1); capacity := capacity c;
     inserts_since_sweep := inserts_since_sweep c; hits := hits c; misses := misses c |}.

Definition clamp_ttl (ttl_secs ttl_min ttl_max : Z) : Z :=
  Z.min ttl_max (Z.max ttl_min ttl_secs).

Definition insert (now : Z) (c : DnsCache) (upstream : UpstreamId) (domain : str)
    (rtype : RecordType) (w : list Z) (ttl_secs ttl_min ttl_max : Z) : DnsCache :=
  let ttl := clamp_ttl ttl_secs ttl_min ttl_max in
  if ttl =? 0 then c
  else
    let key := (upstream, canonical_domain domain, rtype) in
    let c := if (capacity c <=? size (entries c))%nat && bool_decide (entries c !! key = None)
             then make_room now c else c in
    compact_insertion_order (push_entry now c key w ttl).

(** At or below [d]. *)
Definition in_subtree (d cached : str) : bool :=
  bool_decide (cached = d)
  || match strip_suffix d cached with Some prefix => ends_with "." prefix | None => false end.

Definition invalidate_subtree (c : DnsCache) (domain : str) : Z * DnsCache :=
  let d := canonical_domain (default domain (strip_prefix "*." domain)) in
  let es := filter (fun kv => in_subtree d (snd (fst (fst kv))) = false) (entries c) in
  let c' := compact_insertion_order
    {| entries := es; insertion_order := insertion_order c; next_seq := next_seq c;
       capacity := capacity c; inserts_since_sweep := inserts_since_sweep c;
       hits := hits c; misses := misses c |} in
  (Z.of_nat (size (entries c)) - Z.of_nat (size (entries c')), c').

Definition flush (c : DnsCache) : Z * DnsCache :=
  (Z.of_nat (size (entries c)),
   {| entries := ∅; insertion_order := []; next_seq := next_seq c; capacity := capacity c;
      inserts_since_sweep := inserts_since_sweep c; hits := hits c; misses := misses c |}).

(** ** Histories *)

Inductive cache_op : Type :=
| OpGet (upstream : UpstreamId) (domain : str) (rtype : RecordType) (id : Z)
| OpInsert (upstream : UpstreamId) (domain : str) (rtype : RecordType) (w : list Z)
    (ttl_secs ttl_min ttl_max : Z)
| OpInvalidate (domain : str)
| OpFlush.

Definition step (c : DnsCache) (op : Z * cache_op) : DnsCache :=
  let '(now, op) := op in
  match op with
  | OpGet u d t id => snd (get now c u d t id)
  | OpInsert u d t w ttl_secs lo hi => insert now c u d t w ttl_secs lo hi
  | OpInvalidate d => snd (invalidate_subtree c d)
  | OpFlush => snd (flush c)
  end.

Definition run (c : DnsCache) (ops : list (Z * cache_op)) : DnsCache := foldl step c ops.

End cache.

Section cache_laws.
Context {TL : RecordTypeLib}.

Abbreviation CacheKey := (UpstreamId * str * RecordType)%type.
Implicit Types es : gmap CacheKey CachedEntry.
Implicit Types order : list (CacheKey * Z).

(** ** The queue *)

Definition slots_cover es order : Prop :=
  forall k e, es !! k = Some e -> (k, seq e) ∈ order.

Definition seqs_sorted order : Prop := StronglySorted Z.lt (snd <$> order).

Lemma seqs_sorted_filter order (P : CacheKey * Z -> Prop) `{forall x, Decision (P x)} :
  seqs_sorted order -> seqs_sorted (filter P order).
Proof.
  unfold seqs_sorted. induction order as [|s order IH]; [done|].
  rewrite fmap_cons, filter_cons. intros [Hs Hf]%StronglySorted_inv.
  case_decide; [|by apply IH]. rewrite fmap_cons. constructor; [by apply IH|].
  rewrite Forall_fmap in Hf |- *. rewrite Forall_forall in Hf |- *.
  intros x [_ Hx]%list_elem_of_filter. by apply Hf.
Qed.

Lemma seqs_sorted_suffix pre order : seqs_sorted (pre ++ order) -> seqs_sorted order.
Proof.
  unfold seqs_sorted. induction pre as [|s pre IH]; [done|]. simpl.
  intros [Hs _]%StronglySorted_inv. by apply IH.
Qed.

Lemma seqs_sorted_app_lt pre order x y :
  seqs_sorted (pre ++ order) -> x ∈ pre -> y ∈ order -> snd x < snd y.
Proof.
  unfold seqs_sorted. induction pre as [|s pre IH]; [set_solver|]. simpl.
  intros [Hs Hf]%StronglySorted_inv [->|Hx]%elem_of_cons Hy; [|by apply IH].
  rewrite Forall_forall in Hf. apply Hf. rewrite fmap_app, elem_of_app. right.
  by apply list_elem_of_fmap_2.
Qed.

Lemma seqs_sorted_snoc order k s :
  seqs_sorted order -> (forall x, x ∈ order -> snd x < s) -> seqs_sorted (order ++ [(k, s)]).
Proof.
  unfold seqs_sorted. induction order as [|x order IH]; intros Hs Hlt; simpl.
  - by repeat constructor.
  - apply StronglySorted_inv in Hs as [Hs Hf]. constructor; [apply IH; set_solver|].
    rewrite fmap_app. apply Forall_app_2; [done|]. repeat constructor. apply Hlt. set_solver.
Qed.

Lemma seqs_sorted_NoDup order : seqs_sorted order -> NoDup order.
Proof.
  unfold seqs_sorted. induction order as [|x order IH]; intros Hs; [constructor|].
  simpl in Hs. apply StronglySorted_inv in Hs as [Hs Hf]. constructor; [|by apply IH].
  intros Hx. rewrite Forall_forall in Hf. specialize (Hf (snd x)).
  assert (snd x < snd x); [|lia]. apply Hf. by apply list_elem_of_fmap_2.
Qed.

Lemma slots_cover_filter es order :
  slots_cover es order -> slots_cover es (filter (slot_live es) order).
Proof.
  intros H k e He. apply list_elem_of_filter. split; [|by apply H]. by exists e.
Qed.

Lemma slots_cover_mono es es' order :
  es' ⊆ es -> slots_cover es order -> slots_cover es' order.
Proof. intros Hsub H k e He. apply H. by eapply lookup_weaken. Qed.

(** Live slots are at most one per key. *)
Lemma live_slots_le es order : seqs_sorted order ->
  (length (filter (slot_live es) order) <= size es)%nat.
Proof.
  intros Hs. set (live := filter (slot_live es) order).
  assert (Hnd : NoDup (fst <$> live)).
  { apply NoDup_fmap_2_strong; [|by apply seqs_sorted_NoDup, seqs_sorted_filter].
    intros [k s] [k' s'] [(e & He & Hes) _]%list_elem_of_filter
      [(e' & He' & Hes') _]%list_elem_of_filter ?. simpl in *. subst. congruence. }
  rewrite <- (length_fmap fst live), <- (size_list_to_set (C := gset CacheKey)) by done.
  rewrite <- size_dom. apply subseteq_size.
  intros k Hk. rewrite elem_of_list_to_set, list_elem_of_fmap in Hk.
  destruct Hk as ([k' s] & -> & [(e & He & _) _]%list_elem_of_filter). apply elem_of_dom. by exists e.
Qed.

(** The eviction loop: it only deletes, keeps every remaining entry's slot,
    makes room or empties the map, and deletes oldest first. *)
Lemma evict_loop_spec cap es order es' order' :
  slots_cover es order -> seqs_sorted order -> evict_loop cap es order = (es', order') ->
  es' ⊆ es /\ slots_cover es' order' /\ (exists pre, order = pre ++ order')
  /\ ((size es' < cap)%nat \/ es' = ∅)
  /\ ((cap <= S (size es'))%nat \/ es' = es)
  /\ (forall k e k' e', es !! k = Some e -> es' !! k = None -> es' !! k' = Some e' ->
        seq e < seq e').
Proof.
  revert es. induction order as [|[k0 s0] order IH]; intros es Hcov Hs; simpl;
    destruct (Nat.leb_spec cap (size es)) as [Hge|Hlt].
  - intros [= <- <-]. assert (es = ∅) as ->.
    { apply map_eq. intros k. rewrite lookup_empty. destruct (es !! k) eqn:E; [|done].
      apply Hcov in E. set_solver. }
    split; [done|]. split; [done|]. split; [by exists []|]. split; [by right|].
    split; [by right|]. intros ?????. by rewrite lookup_empty.
  - intros [= <- <-]. split; [done|]. split; [done|]. split; [by exists []|].
    split; [by left|]. split; [by right|]. congruence.
  - intros Hev. pose proof Hs as Hs0. simpl in Hs0. apply StronglySorted_inv in Hs0 as [Hs' _].
    assert (Hfst : forall k e, es !! k = Some e -> (k, seq e) ∈ (k0, s0) :: order) by done.
    case_decide as Hlive.
    + destruct Hlive as (e0 & He0 & Hs0). simpl in *.
      apply IH in Hev; [| |done].
      2: { intros k e He. apply lookup_delete_Some in He as [Hne He].
           apply Hfst in He. apply elem_of_cons in He as [[= -> ->]|He]; [done | done]. }
      destruct Hev as (Hsub & Hcov' & (pre & ->) & Hsz & Hmin & Hfifo).
      split; [etrans; [done | apply delete_subseteq]|]. split; [done|].
      split; [by exists ((k0, s0) :: pre)|]. split; [done|]. split.
      { left. destruct Hmin as [|Hmin]; [done|]. rewrite Hmin, map_size_delete_Some by done. lia. }
      intros k e k' e' Hk Hk' He'. destruct (decide (k = k0)) as [->|Hne].
      * replace e with e0 by congruence. rewrite Hs0.
        apply (seqs_sorted_app_lt ((k0, s0) :: pre) order' (k0, s0) (k', seq e'));
          [done | set_solver | by apply Hcov'].
      * apply (Hfifo k e k' e'); [by rewrite lookup_delete_ne | done | done].
    + apply IH in Hev; [| |done].
      2: { intros k e He. pose proof (Hfst _ _ He) as Hin.
           apply elem_of_cons in Hin as [[= Hk Hse]|Hin]; [|done].
           exfalso. apply Hlive. exists e. by rewrite <- Hk. }
      destruct Hev as (Hsub & Hcov' & (pre & ->) & Hrest).
      split; [done|]. split; [done|]. split; [by exists ((k0, s0) :: pre)|]. done.
  - intros [= <- <-]. split; [done|]. split; [done|]. split; [by exists []|].
    split; [by left|]. split; [by right|]. congruence.
Qed.

(** ** The invariant *)

Record cache_inv (c : DnsCache) : Prop := {
  inv_cover : slots_cover (entries c) (insertion_order c);
  inv_sorted : seqs_sorted (insertion_order c);
  inv_seqs : forall slot, slot ∈ insertion_order c -> snd slot < next_seq c;
  inv_next : 0 <= next_seq c;
  inv_size : (size (entries c) <= Nat.max 1 (capacity c))%nat;
}.

(** What compaction restores. *)
Definition queue_bounded (c : DnsCache) : Prop :=
  (length (insertion_order c) <= Nat.max 64 (2 * size (entries c)))%nat.

Lemma entry_seq_lt c k e : cache_inv c -> entries c !! k = Some e -> seq e < next_seq c.
Proof. intros H He. apply (inv_seqs c H (k, seq e)). by apply (inv_cover c H). Qed.

Lemma evict_expired_inv now c : cache_inv c -> cache_inv (evict_expired now c).
Proof.
  intros [Hc Hs Hq Hn Hz]. split; simpl; [| | | done |].
  - apply slots_cover_filter. eapply slots_cover_mono; [apply map_filter_subseteq | done].
  - by apply seqs_sorted_filter.
  - intros slot [_ ?]%list_elem_of_filter. by apply Hq.
  - etrans; [apply map_subseteq_size, map_filter_subseteq | done].
Qed.

Lemma compact_inv c : cache_inv c ->
  cache_inv (compact_insertion_order c) /\ queue_bounded (compact_insertion_order c).
Proof.
  intros [Hc Hs Hq Hn Hz]. unfold compact_insertion_order.
  destruct (Z.ltb_spec (Z.of_nat (length (insertion_order c))) (compact_threshold (entries c))).
  - split; [done|].
    unfold queue_bounded, compact_threshold, ORDER_COMPACT_FLOOR, sat_mul in *. lia.
  - split; [split; simpl; [by apply slots_cover_filter | by apply seqs_sorted_filter | | done | done]|].
    + intros slot [_ ?]%list_elem_of_filter. by apply Hq.
    + unfold queue_bounded. simpl. pose proof (live_slots_le (entries c) _ Hs). lia.
Qed.

(** Making room: only deletions, below capacity or empty afterwards; a live
    entry it takes is the single one older than everything that stays. *)
Record room_spec (now : Z) (c c' : DnsCache) : Prop := {
  room_inv : cache_inv c';
  room_sub : entries c' ⊆ entries c;
  room_next : next_seq c' = next_seq c;
  room_cap : capacity c' = capacity c;
  room_size : (size (entries c') < capacity c)%nat \/ entries c' = ∅;
  room_fifo : forall k e k' e', entries c !! k = Some e -> is_expired now e = false ->
    entries c' !! k = None -> entries c' !! k' = Some e' -> seq e < seq e';
  room_one : forall k1 e1 k2 e2, (1 <= capacity c)%nat ->
    entries c !! k1 = Some e1 -> is_expired now e1 = false -> entries c' !! k1 = None ->
    entries c !! k2 = Some e2 -> is_expired now e2 = false -> entries c' !! k2 = None -> k1 = k2;
}.

Lemma two_missing_size (es es' : gmap CacheKey CachedEntry) k1 e1 k2 e2 :
  es' ⊆ es -> es !! k1 = Some e1 -> es !! k2 = Some e2 -> es' !! k1 = None ->
  es' !! k2 = None -> k1 <> k2 -> (S (S (size es')) <= size es)%nat.
Proof.
  intros Hsub H1 H2 N1 N2 Hne.
  assert (Hd : es' ⊆ delete k1 (delete k2 es)).
  { apply map_subseteq_spec. intros k e He.
    rewrite !lookup_delete_ne by congruence. by eapply lookup_weaken. }
  apply map_subseteq_size in Hd. rewrite map_size_delete_Some in Hd;
    [|by rewrite lookup_delete_ne; [exists e1|]].
  rewrite map_size_delete_Some in Hd by (by exists e2).
  assert (size es <> 0%nat) by (intros E%map_size_empty_inv; simplify_map_eq).
  assert (size (delete k2 es) <> 0%nat); [|rewrite map_size_delete_Some in * by (by exists e2); lia].
  intros E%map_size_empty_inv. assert (delete k2 es !! k1 = None) as X by (by rewrite E).
  rewrite lookup_delete_ne in X by done. congruence.
Qed.

Lemma evict_oldest_room now c : cache_inv c -> room_spec now c (evict_oldest c).
Proof.
  intros Hi. pose proof Hi as [Hc Hs Hq Hn Hz]. unfold evict_oldest.
  destruct (evict_loop _ _ _) as [es order] eqn:E.
  apply evict_loop_spec in E as (Hsub & Hcov & (pre & Hpre) & Hsz & Hmin & Hfifo); [|done..].
  assert (Hin : forall x, x ∈ order -> x ∈ insertion_order c) by (rewrite Hpre; set_solver).
  split; simpl; [split; simpl | | | | | |]; try done.
  - rewrite Hpre in Hs. by apply seqs_sorted_suffix in Hs.
  - intros slot Hslot. by apply Hq, Hin.
  - etrans; [by apply map_subseteq_size | done].
  - intros ? ? ? ? ? _. by apply Hfifo.
  - intros k1 e1 k2 e2 Hcap H1 _ N1 H2 _ N2. destruct (decide (k1 = k2)) as [|Hne]; [done|].
    pose proof (two_missing_size _ _ _ _ _ _ Hsub H1 H2 N1 N2 Hne).
    destruct Hmin as [?|Hmin]; [lia|]. rewrite Hmin in N1. congruence.
Qed.

Lemma evict_expired_keeps now c k e :
  entries c !! k = Some e -> is_expired now e = false ->
  entries (evict_expired now c) !! k = Some e.
Proof. intros. simpl. by apply map_lookup_filter_Some. Qed.

Lemma make_room_spec now c : cache_inv c -> room_spec now c (make_room now c).
Proof.
  intros Hi. unfold make_room. set (n := inserts_since_sweep c + 1).
  assert (Hset : forall m, cache_inv (set_sweep m c)) by (intros; by destruct Hi).
  case_match; [|by destruct (evict_oldest_room now (set_sweep n c) (Hset n))].
  set (c1 := set_sweep 0 (set_sweep n c)).
  assert (Hi1 : cache_inv (evict_expired now c1)) by (by apply evict_expired_inv; destruct Hi).
  destruct (evict_oldest_room now _ Hi1) as [I Sub N C Z F O].
  split; [done | | done | done | done | |].
  - etrans; [exact Sub | apply map_filter_subseteq].
  - intros k e k' e' He Hx. apply F; [by apply evict_expired_keeps | done].
  - intros k1 e1 k2 e2 Hcap H1 X1 N1 H2 X2 N2.
    apply (O k1 e1 k2 e2); try done; by apply evict_expired_keeps.
Qed.

Lemma push_entry_inv now c key w t : cache_inv c -> next_seq c < U64_MAX ->
  (entries c !! key <> None \/ (size (entries c) < capacity c)%nat \/ entries c = ∅) ->
  cache_inv (push_entry now c key w t) /\ next_seq (push_entry now c key w t) = next_seq c + 1.
Proof.
  intros [Hc Hs Hq Hn Hz] Hmax Hroom.
  assert (Hw : wrap_u64 (next_seq c + 1) = next_seq c + 1)
    by (unfold wrap_u64, U64_MAX in *; apply Z.mod_small; lia).
  split; [|done]. unfold push_entry. split; simpl; rewrite ?Hw.
  - intros k e. destruct (decide (k = key)) as [->|Hne].
    + rewrite lookup_insert_eq. intros [= <-]. set_solver.
    + rewrite lookup_insert_ne by done. intros He%Hc. set_solver.
  - by apply seqs_sorted_snoc.
  - intros slot [Hin%Hq|Hin]%elem_of_app; [lia|]. apply list_elem_of_singleton in Hin as ->.
    simpl. lia.
  - lia.
  - destruct (entries c !! key) eqn:E.
    + rewrite map_size_insert_Some by done. lia.
    + rewrite map_size_insert_None by done.
      destruct Hroom as [?|[?|He]]; [done | lia | rewrite He, map_size_empty; lia].
Qed.

(** The cache an insert pushes its entry onto. *)
Definition insert_base (now : Z) (c : DnsCache) (key : CacheKey) : DnsCache :=
  if (capacity c <=? size (entries c))%nat && bool_decide (entries c !! key = None)
  then make_room now c else c.

Lemma insert_base_spec now c key : cache_inv c ->
  room_spec now c (make_room now c) /\ cache_inv (insert_base now c key)
  /\ next_seq (insert_base now c key) = next_seq c
  /\ capacity (insert_base now c key) = capacity c
  /\ entries (insert_base now c key) ⊆ entries c
  /\ (entries (insert_base now c key) !! key <> None
      \/ (size (entries (insert_base now c key)) < capacity (insert_base now c key))%nat
      \/ entries (insert_base now c key) = ∅).
Proof.
  intros Hi. pose proof (make_room_spec now c Hi) as Hr. split; [done|].
  destruct Hr as [I Sub N C Z F O]. unfold insert_base.
  destruct (Nat.leb_spec (capacity c) (size (entries c))) as [Hge|Hlt]; simpl.
  - case_bool_decide as Hk; [|split_and!; [done.. | by left]].
    repeat (split; [done|]). right. destruct Z; [left; lia | by right].
  - repeat (split; [done|]). right; left. lia.
Qed.

(** An insert with a non-zero clamped TTL. *)
Lemma insert_unfold now c u d t w ttl_secs lo hi :
  clamp_ttl ttl_secs lo hi <> 0 ->
  insert now c u d t w ttl_secs lo hi =
  compact_insertion_order (push_entry now (insert_base now c (u, canonical_domain d, t))
    (u, canonical_domain d, t) w (clamp_ttl ttl_secs lo hi)).
Proof. intros H. unfold insert. by rewrite (proj2 (Z.eqb_neq _ _) H). Qed.

Lemma compact_entries c : entries (compact_insertion_order c) = entries c.
Proof. unfold compact_insertion_order. by case_match. Qed.

Lemma compact_next c : next_seq (compact_insertion_order c) = next_seq c.
Proof. unfold compact_insertion_order. by case_match. Qed.

Lemma compact_capacity c : capacity (compact_insertion_order c) = capacity c.
Proof. unfold compact_insertion_order. by case_match. Qed.

Definition cache_ok (c : DnsCache) : Prop := cache_inv c /\ queue_bounded c.

Lemma insert_ok now c u d t w ttl_secs lo hi :
  cache_ok c -> next_seq c < U64_MAX ->
  let c' := insert now c u d t w ttl_secs lo hi in
  cache_ok c' /\ next_seq c' <= next_seq c + 1 /\ capacity c' = capacity c.
Proof.
  intros [Hi Hq] Hmax. destruct (decide (clamp_ttl ttl_secs lo hi = 0)) as [E|E].
  - unfold insert. rewrite (proj2 (Z.eqb_eq _ _) E). simpl. split; [done|lia].
  - rewrite insert_unfold by done. set (key := (u, canonical_domain d, t)).
    destruct (insert_base_spec now c key Hi) as (_ & Hb & N & C & _ & Hroom).
    destruct (push_entry_inv now _ key w (clamp_ttl ttl_secs lo hi) Hb) as [Hp Hn];
      [lia | done |].
    split; [by apply compact_inv|]. rewrite compact_next, compact_capacity, Hn. simpl. lia.
Qed.

Lemma invalidate_ok c d : cache_ok c ->
  let c' := snd (invalidate_subtree c d) in
  cache_ok c' /\ next_seq c' = next_seq c /\ capacity c' = capacity c.
Proof.
  intros [[Hc Hs Hq Hn Hz] _]. simpl. rewrite compact_next, compact_capacity.
  split; [|done]. apply compact_inv. split; simpl; try done.
  - eapply slots_cover_mono; [apply map_filter_subseteq | done].
  - etrans; [apply map_subseteq_size, map_filter_subseteq | done].
Qed.

Lemma emptied_ok c : entries c = ∅ -> insertion_order c = [] -> 0 <= next_seq c -> cache_ok c.
Proof.
  intros He Ho Hn. unfold cache_ok, queue_bounded. rewrite Ho. split; [|simpl; lia].
  split; rewrite ?He, ?Ho; [|constructor | set_solver | done | rewrite map_size_empty; lia].
  intros k e. by rewrite lookup_empty.
Qed.

Lemma step_ok c op : cache_ok c -> next_seq c < U64_MAX ->
  cache_ok (step c op) /\ next_seq (step c op) <= next_seq c + 1
  /\ capacity (step c op) = capacity c.
Proof.
  intros Hok Hmax. destruct op as [now [u d t id|u d t w ttl_secs lo hi|d|]]; simpl.
  - unfold get. repeat case_match; simpl; (split; [by destruct Hok as [[] ?] | lia]).
  - by apply insert_ok.
  - destruct (invalidate_ok c d Hok) as (H & N & C). simpl in *. rewrite N. split; [done|lia].
  - destruct Hok as [[Hc Hs Hq Hn Hz] _]. split; [by apply emptied_ok | simpl; lia].
Qed.

Lemma new_ok cap : cache_ok (new cap).
Proof. by apply emptied_ok. Qed.

Lemma run_ok ops : forall c, cache_ok c -> next_seq c + Z.of_nat (length ops) <= U64_MAX ->
  cache_ok (run c ops) /\ capacity (run c ops) = capacity c.
Proof.
  induction ops as [|op ops IH]; intros c Hok Hlen; [done|]. simpl in Hlen.
  destruct (step_ok c op Hok) as (Hs & Hn & Hc); [lia|].
  destruct (IH (step c op) Hs) as [H1 H2]; [lia|]. simpl. by rewrite <- Hc.
Qed.

(** C15: over any history of operations from an empty cache, every entry keeps
    its queue slot, the queue is ordered by age, the cache never holds more
    than its capacity (one entry when the capacity is zero) and the queue never
    outgrows [max 64 (2 * len)] slots. *)
Theorem cache_run_ok cap ops : Z.of_nat (length ops) <= U64_MAX ->
  let c := run (new cap) ops in
  slots_cover (entries c) (insertion_order c) /\ seqs_sorted (insertion_order c)
  /\ (cache_len c <= Nat.max 1 cap)%nat
  /\ (length (insertion_order c) <= Nat.max 64 (2 * cache_len c))%nat.
Proof.
  intros Hlen c. destruct (run_ok ops (new cap) (new_ok cap)) as [[[Hc Hs _ _ Hz] Hq] Hcap];
    [simpl; lia|]. unfold cache_len. rewrite Hcap in Hz. by repeat split.
Qed.

(** ** Insertion *)

(** An insert stores its own entry, changes no other entry it keeps, and
    when it must drop an unexpired one it drops a single entry, the oldest. *)
Theorem insert_spec now c u d t w ttl_secs lo hi :
  cache_ok c -> clamp_ttl ttl_secs lo hi <> 0 ->
  let key := (u, canonical_domain d, t) in
  let c' := insert now c u d t w ttl_secs lo hi in
  entries c' !! key = Some {| wire := w; inserted_at := now;
                              ttl := clamp_ttl ttl_secs lo hi * NANOS; seq := next_seq c |}
  /\ (forall k e, k <> key -> entries c' !! k = Some e -> entries c !! k = Some e)
  /\ (forall k e, k <> key -> entries c !! k = Some e -> is_expired now e = false ->
        entries c' !! k = None ->
        (capacity c <= cache_len c)%nat
        /\ (forall k' e', k' <> key -> entries c' !! k' = Some e' -> seq e < seq e')
        /\ (forall k' e', (1 <= capacity c)%nat -> k' <> key -> entries c !! k' = Some e' ->
              is_expired now e' = false -> entries c' !! k' = None -> k' = k)).
Proof.
  intros [Hi _] Hne key c'.
  assert (Ent : entries c' = <[key := {| wire := w; inserted_at := now;
      ttl := clamp_ttl ttl_secs lo hi * NANOS; seq := next_seq c |}]> (entries (insert_base now c key))).
  { unfold c'. rewrite insert_unfold by done. rewrite compact_entries. simpl. fold key.
    by destruct (insert_base_spec now c key Hi) as (_ & _ & -> & _). }
  destruct (insert_base_spec now c key Hi) as (Hr & _ & _ & _ & Hsub & _).
  rewrite Ent. split; [by rewrite lookup_insert_eq|]. split.
  - intros k e Hk. rewrite lookup_insert_ne by done. intros He. by eapply lookup_weaken.
  - intros k e Hk He Hx Hn. rewrite lookup_insert_ne in Hn by done.
    unfold insert_base in *. destruct (_ && _) eqn:Hfull; [|congruence].
    apply andb_true_iff in Hfull as [Hfull _]. apply Nat.leb_le in Hfull. split; [done|].
    split; intros k' e'.
    + intros Hk' He'. rewrite lookup_insert_ne in He' by done. by eapply (room_fifo now c _ Hr).
    + intros Hcap Hk' He' Hx' Hn'. rewrite lookup_insert_ne in Hn' by done.
      by eapply (room_one now c _ Hr).
Qed.

(** ** The cache without a bound

    An ideal cache that evicts nothing: what each key was last given, dropped
    only by an invalidation or a flush. *)
Abbreviation ideal := (gmap CacheKey (list Z * Z * Z)).

Definition ideal_step (m : ideal) (op : Z * cache_op) : ideal :=
  let '(now, op) := op in
  match op with
  | OpGet _ _ _ _ => m
  | OpInsert u d t w ttl_secs lo hi =>
      if clamp_ttl ttl_secs lo hi =? 0 then m
      else <[(u, canonical_domain d, t) := (w, now, clamp_ttl ttl_secs lo hi * NANOS)]> m
  | OpInvalidate domain =>
      let d := canonical_domain (default domain (strip_prefix "*." domain)) in
      filter (fun kv => in_subtree d (snd (fst (fst kv))) = false) m
  | OpFlush => ∅
  end.

Definition ideal_run (ops : list (Z * cache_op)) : ideal := foldl ideal_step ∅ ops.

Definition under (c : DnsCache) (m : ideal) : Prop :=
  forall k e, entries c !! k = Some e -> m !! k = Some (wire e, inserted_at e, ttl e).

Lemma make_room_sub now c : entries (make_room now c) ⊆ entries c.
Proof.
  assert (H : forall cap order es, fst (evict_loop cap es order) ⊆ es).
  { intros cap. induction order as [|s order IH]; intros es; simpl; case_match; try done.
    case_decide; [|done]. etrans; [apply IH | apply delete_subseteq]. }
  unfold make_room, evict_oldest. destruct (evict_loop _ _ _) as [es o] eqn:E.
  apply (f_equal fst) in E. simpl in *. rewrite <- E. etrans; [apply H|].
  case_match; [apply map_filter_subseteq | done].
Qed.

Lemma under_step c m op : under c m -> under (step c op) (ideal_step m op).
Proof.
  intros H. destruct op as [now [u d t id|u d t w ttl_secs lo hi|d|]]; simpl.
  - unfold get. by repeat case_match.
  - destruct (decide (clamp_ttl ttl_secs lo hi = 0)) as [E|E].
    { unfold insert. by rewrite (proj2 (Z.eqb_eq _ _) E). }
    rewrite insert_unfold, (proj2 (Z.eqb_neq _ _) E) by done. intros k e. rewrite compact_entries.
    simpl. destruct (decide (k = (u, canonical_domain d, t))) as [->|Hne].
    + rewrite !lookup_insert_eq. by intros [= <-].
    + rewrite !lookup_insert_ne by done. intros He. apply H. unfold insert_base in He.
      case_match; [|done]. by eapply lookup_weaken; [|apply make_room_sub].
  - intros k e. rewrite compact_entries. simpl. intros [He Hp]%map_lookup_filter_Some.
    apply map_lookup_filter_Some. split; [by apply H | done].
  - intros k e. simpl. by rewrite lookup_empty.
Qed.

Lemma under_run ops : forall c m, under c m -> under (run c ops) (foldl ideal_step m ops).
Proof.
  induction ops as [|op ops IH]; intros c m H; [done|]. simpl. by apply IH, under_step.
Qed.

(** C4: whatever the history, a hit answers what the unbounded cache holds for
    that upstream, name and type, still inside its lifetime: eviction can lose
    an answer, never resurrect, mix up or outlive one. *)
Theorem cache_refines_ideal cap ops now u d t id out :
  fst (get now (run (new cap) ops) u d t id) = Some out ->
  exists w at_ life, ideal_run ops !! (u, canonical_domain d, t) = Some (w, at_, life)
    /\ Z.max 0 (now - at_) < life
    /\ out = age_wire_ttls (stamp_id id w) (Z.max 0 (now - at_) / NANOS)
               (sat_sub (life / NANOS) (Z.max 0 (now - at_) / NANOS)).
Proof.
  assert (Hu : under (run (new cap) ops) (ideal_run ops))
    by (apply under_run; intros k e; simpl; by rewrite lookup_empty).
  unfold get. destruct (entries _ !! _) as [e|] eqn:He; [|done].
  destruct (Z.leb_spec (ttl e) (elapsed now e)) as [|Hlt]; [done|]. simpl. intros [= <-].
  exists (wire e), (inserted_at e), (ttl e). by rewrite (Hu _ _ He).
Qed.

(** ** Serving *)

Definition with_id (id : Z) (m : message) : message :=
  {| m_head := be16 id ++ drop 2 (m_head m); m_questions := m_questions m;
     m_answers := m_answers m; m_authority := m_authority m; m_additional := m_additional m |}.

Lemma stamp_id_enc id m : length (m_head m) = 4%nat ->
  stamp_id id (enc_message m) = enc_message (with_id id m).
Proof. unfold enc_message, with_id. by destruct (m_head m) as [|? [|? ?]]. Qed.

Lemma with_id_ok id m : message_ok m -> message_ok (with_id id m).
Proof.
  intros (Hh & H). split; [|done]. simpl. rewrite length_drop, Hh. done.
Qed.

Lemma buf_len_with_id id m : length (m_head m) = 4%nat ->
  buf_len (enc_message (with_id id m)) = buf_len (enc_message m).
Proof. unfold enc_message, with_id. by destruct (m_head m) as [|? [|? ?]]. Qed.

Lemma get_inserted now now' c u d d' t id w ttl_secs lo hi :
  let life := clamp_ttl ttl_secs lo hi in
  now <= now' -> canonical_domain d' = canonical_domain d -> 0 < life ->
  fst (get now' (insert now c u d t w ttl_secs lo hi) u d' t id) =
  if life * NANOS <=? now' - now then None
  else Some (age_wire_ttls (stamp_id id w) ((now' - now) / NANOS)
               (sat_sub life ((now' - now) / NANOS))).
Proof.
  intros life Hle Hd Hlife. rewrite insert_unfold by (fold life; lia). fold life.
  unfold get. rewrite compact_entries, Hd. simpl. rewrite lookup_insert_eq.
  unfold elapsed. simpl. rewrite Z.max_r by lia. destruct (_ <=? _); [done|]. simpl.
  by rewrite Z.div_mul.
Qed.

(** A response inserted and looked up again under any spelling of its name
    is served, while its clamped lifetime lasts, as the same message with the
    caller's transaction id and every record's TTL aged by the whole seconds
    spent in the cache and capped by the lifetime left; afterwards it is not
    served. *)
Theorem cache_serves_aged now now' c u d d' t id m ttl_secs lo hi :
  let life := clamp_ttl ttl_secs lo hi in
  message_ok m -> buf_len (enc_message m) <= ISIZE_MAX ->
  now <= now' -> canonical_domain d' = canonical_domain d -> 0 < life ->
  fst (get now' (insert now c u d t (enc_message m) ttl_secs lo hi) u d' t id) =
  if life * NANOS <=? now' - now then None
  else Some (enc_message (age_message (clamp_u32 ((now' - now) / NANOS))
               (clamp_u32 (sat_sub life ((now' - now) / NANOS))) (with_id id m))).
Proof.
  intros life Hm Hlen Hle Hd Hlife. rewrite get_inserted by done. fold life.
  case_match; [done|]. destruct Hm as [Hh Hrest].
  rewrite stamp_id_enc, age_wire_ttls_enc; [done | by apply with_id_ok | | done].
  by rewrite buf_len_with_id.
Qed.

(** ** Invalidation *)

Lemma in_subtree_spec d name : in_subtree d name = true <-> at_or_below d name.
Proof. apply suffix_boundary_spec. Qed.

(** Invalidating a domain (a leading [*.] ignored) leaves nothing at or
    below it for any upstream or type, leaves every other entry as it was, and
    returns how many entries it removed. *)
Theorem invalidate_subtree_spec c domain :
  let d := canonical_domain (default domain (strip_prefix "*." domain)) in
  let '(n, c') := invalidate_subtree c domain in
  (forall now u name t id, at_or_below d (canonical_domain name) ->
     fst (get now c' u name t id) = None)
  /\ (forall u name t, ~ at_or_below d name ->
       entries c' !! (u, name, t) = entries c !! (u, name, t))
  /\ n = Z.of_nat (size (filter (fun kv => in_subtree d (snd (fst (fst kv))) = true) (entries c))).
Proof.
  intros d. unfold invalidate_subtree. fold d. split_and!.
  - intros now u name t id Hin%in_subtree_spec. unfold get. rewrite compact_entries. simpl.
    rewrite map_lookup_filter_None_2; [done|]. right. intros e _. simpl. by rewrite Hin.
  - intros u name t Hout. rewrite compact_entries. simpl. rewrite map_lookup_filter.
    destruct (entries c !! _) as [e|]; simpl; [|done]. rewrite option_guard_True; [done|].
    apply not_true_is_false. by rewrite in_subtree_spec.
  - rewrite compact_entries. simpl.
    rewrite <- (map_filter_union_complement (fun kv => in_subtree d (snd (fst (fst kv))) = true) (entries c)) at 1.
    rewrite map_size_disj_union by apply map_disjoint_filter_complement.
    assert (filter (fun kv => ~ (in_subtree d (snd (fst (fst kv))) = true)) (entries c)
      = filter (fun kv => in_subtree d (snd (fst (fst kv))) = false) (entries c)) as ->; [|lia].
    apply map_filter_ext. intros i x _. simpl. by rewrite not_true_iff_false.
Qed.

End cache_laws.
