(* ===== verification/Authoritative.v ===== *)
(** * Local authoritative DNS

    [wardnetd-services/src/dns/authoritative.rs]: the snapshot of enabled local
    records, wildcards, authoritative zones and conditional forwarding rules
    that answers a query before the cache and the upstreams, with the domain
    validators of [dns_local/service.rs] that guard what reaches it.  Hash maps
    are [gmap]s; the order in which [into_values] lists the wildcards is not
    specified by Rust, and no result depends on it ([wildcard_unique]). *)

From S2P Require Import Prelude RustStr Net Auth.

(** ** Data *)

Inductive DnsRecordType : Type := A | Aaaa | Cname | Txt | Mx | Srv.

#[export] Instance DnsRecordType_eq_dec : EqDecision DnsRecordType.
Proof. solve_decision. Defined.

#[export] Instance DnsRecordType_countable : Countable DnsRecordType.
Proof.
  refine (inj_countable'
    (fun t => match t with A => 0 | Aaaa => 1 | Cname => 2 | Txt => 3 | Mx => 4 | Srv => 5 end)
    (fun n => if n =? 0 then A else if n =? 1 then Aaaa else if n =? 2 then Cname
              else if n =? 3 then Txt else if n =? 4 then Mx else Srv) _).
  by intros [].
Defined.

Inductive DnsRecordSource : Type := ManualRecord | DhcpRecord | SystemRecord.
Inductive DnsZoneSource : Type := ManualZone | SystemZone.

(** Identifiers are 128-bit values, timestamps epoch seconds. *)
Record CustomDnsRecord : Type := {
  rec_id : Z;
  rec_zone_id : option Z;
  rec_domain : str;
  rec_type : DnsRecordType;
  rec_value : str;
  rec_ttl : Z;
  rec_enabled : bool;
  rec_source : DnsRecordSource;
  rec_created_at : Z;
  rec_updated_at : Z;
}.

Record DnsZone : Type := {
  zone_id : Z;
  zone_name : str;
  zone_enabled : bool;
  zone_source : DnsZoneSource;
  zone_created_at : Z;
  zone_updated_at : Z;
}.

Record ConditionalForwardingRule : Type := {
  rule_id : Z;
  rule_domain : str;
  rule_upstream : str;
  rule_enabled : bool;
  rule_created_at : Z;
}.

(** [hickory_proto::rr::Name::from_utf8]. *)
Class DnsNameLib : Type := {
  Name : Type;
  name_from_utf8 : str -> option Name;
}.

Definition NEGATIVE_TTL : Z := 300.

Section view.
Context {NL : DnsNameLib}.

(** The arguments of [SOA::new] and [Record::from_rdata]. *)
Record SoaRecord : Type := {
  soa_owner : Name;
  soa_ttl : Z;
  soa_mname : Name;
  soa_rname : Name;
  soa_serial : Z;
  soa_refresh : Z;
  soa_retry : Z;
  soa_expire : Z;
  soa_minimum : Z;
}.

Definition build_soa (zone : str) (serial : Z) : option SoaRecord :=
  apex ← name_from_utf8 (zone ++ ".");
  mname ← name_from_utf8 ("ns." ++ zone ++ ".");
  rname ← name_from_utf8 ("hostmaster." ++ zone ++ ".");
  Some {| soa_owner := apex; soa_ttl := NEGATIVE_TTL; soa_mname := mname; soa_rname := rname;
          soa_serial := serial; soa_refresh := 3600; soa_retry := 600; soa_expire := 604800;
          soa_minimum := NEGATIVE_TTL |}.

Record ZoneAuthority : Type := {
  za_name : str;
  za_serial : Z;
  za_soa : option SoaRecord;
}.

Abbreviation type_map := (gmap DnsRecordType (list CustomDnsRecord)).

Record WildcardEntry : Type := {
  wc_suffix : str;
  wc_all : list CustomDnsRecord;
  wc_typed : type_map;
}.

Record AuthoritativeView : Type := {
  all_records : gmap str (list CustomDnsRecord);
  typed_records : gmap str type_map;
  wildcards : list WildcardEntry;
  forwarding_rules : list ConditionalForwardingRule;
  zone_authorities : list ZoneAuthority;
  reverse_ptr : gmap Ipv4Addr (list CustomDnsRecord);
}.

Definition empty_view : AuthoritativeView :=
  {| all_records := ∅; typed_records := ∅; wildcards := []; forwarding_rules := [];
     zone_authorities := []; reverse_ptr := ∅ |}.

(** ** Building *)

(** [v.sort_by_key(|x| Reverse(key(x)))]: stable, longest first. *)
Fixpoint insert_desc {X} (key : X -> nat) (x : X) (l : list X) : list X :=
  match l with
  | [] => [x]
  | y :: l' => if (key y <=? key x)%nat then x :: l else y :: insert_desc key x l'
  end.

Definition sort_desc {X} (key : X -> nat) (l : list X) : list X :=
  foldr (insert_desc key) [] l.

Definition private_reverse_zone (ip : Ipv4Addr) : option str :=
  let '(a, b, _, _) := octets ip in
  if a =? 10 then Some (of_string "10.in-addr.arpa")
  else if (a =? 172) && ((16 <=? b) && (b <=? 31))
  then Some (show_u8 b ++ ".172.in-addr.arpa")
  else if (a =? 192) && (b =? 168) then Some (of_string "168.192.in-addr.arpa")
  else if (a =? 169) && (b =? 254) then Some (of_string "254.169.in-addr.arpa")
  else if (a =? 100) && ((64 <=? b) && (b <=? 127))
  then Some (show_u8 b ++ ".100.in-addr.arpa")
  else None.

(** [map.entry(k).or_default().push(r)] *)
Definition push {K} `{Countable K} (k : K) (r : CustomDnsRecord)
    (m : gmap K (list CustomDnsRecord)) : gmap K (list CustomDnsRecord) :=
  <[k := default [] (m !! k) ++ [r]]> m.

(** The four maps the record loop fills. *)
Record build_state : Type := {
  b_all : gmap str (list CustomDnsRecord);
  b_typed : gmap str type_map;
  b_wild : gmap str WildcardEntry;
  b_ptr : gmap Ipv4Addr (list CustomDnsRecord);
}.

Definition add_wildcard (suffix : str) (r : CustomDnsRecord) (m : gmap str WildcardEntry)
    : gmap str WildcardEntry :=
  let entry := default {| wc_suffix := suffix; wc_all := []; wc_typed := ∅ |} (m !! suffix) in
  <[suffix := {| wc_suffix := wc_suffix entry; wc_all := wc_all entry ++ [r];
                 wc_typed := push (rec_type r) r (wc_typed entry) |}]> m.

(** One iteration of the record loop, past its two [continue]s. *)
Definition add_record (st : build_state) (r : CustomDnsRecord) : build_state :=
  let domain := to_ascii_lowercase (trim_end_matches "."%char (rec_domain r)) in
  let rtype := rec_type r in
  match strip_prefix "*." domain with
  | Some suffix =>
      {| b_all := b_all st; b_typed := b_typed st; b_wild := add_wildcard suffix r (b_wild st);
         b_ptr := b_ptr st |}
  | None =>
      let ptr :=
        if bool_decide (rtype = A) then
          match parse_ipv4 (rec_value r) with
          | Some v4 =>
              match private_reverse_zone v4 with
              | Some _ => push v4 r (b_ptr st)
              | None => b_ptr st
              end
          | None => b_ptr st
          end
        else b_ptr st in
      {| b_all := push domain r (b_all st);
         b_typed := <[domain := push rtype r (default ∅ (b_typed st !! domain))]> (b_typed st);
         b_wild := b_wild st; b_ptr := ptr |}
  end.

Definition enabled_zone_ids (zones : list DnsZone) : gset Z :=
  list_to_set (zone_id <$> filter (fun z => zone_enabled z = true) zones).

(** Enabled, and its zone (if any) enabled. *)
Definition is_active (ids : gset Z) (r : CustomDnsRecord) : bool :=
  if negb (rec_enabled r) then false
  else match rec_zone_id r with
       | Some z => bool_decide (z ∈ ids)
       | None => true
       end.

Fixpoint add_records (ids : gset Z) (st : build_state) (rs : list CustomDnsRecord) : build_state :=
  match rs with
  | [] => st
  | r :: rs' => add_records ids (if is_active ids r then add_record st r else st) rs'
  end.

(** [u32::try_from(updated_at.timestamp()).unwrap_or(1)] *)
Definition zone_serial (z : DnsZone) : Z :=
  if (0 <=? zone_updated_at z) && (zone_updated_at z <=? U32_MAX) then zone_updated_at z else 1.

Definition authority_of (z : DnsZone) : ZoneAuthority :=
  let name := to_ascii_lowercase (trim_end_matches "."%char (zone_name z)) in
  {| za_name := name; za_serial := zone_serial z; za_soa := build_soa name (zone_serial z) |}.

Definition lowered_rule (r : ConditionalForwardingRule) : ConditionalForwardingRule :=
  {| rule_id := rule_id r; rule_domain := to_ascii_lowercase (rule_domain r);
     rule_upstream := rule_upstream r; rule_enabled := rule_enabled r;
     rule_created_at := rule_created_at r |}.

Definition build_view (zones : list DnsZone) (records : list CustomDnsRecord)
    (rules : list ConditionalForwardingRule) : AuthoritativeView :=
  let authorities :=
    sort_desc (fun z => length (za_name z))
      (authority_of <$> filter (fun z => zone_enabled z = true) zones) in
  let st := add_records (enabled_zone_ids zones)
    {| b_all := ∅; b_typed := ∅; b_wild := ∅; b_ptr := ∅ |} records in
  {| all_records := b_all st;
     typed_records := b_typed st;
     wildcards := sort_desc (fun w => length (wc_suffix w)) (snd <$> map_to_list (b_wild st));
     forwarding_rules :=
       sort_desc (fun r => length (rule_domain r))
         (lowered_rule <$> filter (fun r => rule_enabled r = true) rules);
     zone_authorities := authorities;
     reverse_ptr := b_ptr st |}.

(** ** Queries *)

(** [prefix.len() > 1 && prefix.ends_with('.')] after stripping the suffix. *)
Definition wildcard_covers (suffix d : str) : bool :=
  match strip_suffix suffix d with
  | Some prefix => (1 <? len prefix) && ends_with "." prefix
  | None => false
  end.

Definition match_wildcard (v : AuthoritativeView) (d : str) : option WildcardEntry :=
  List.find (fun w => wildcard_covers (wc_suffix w) d) (wildcards v).

Definition lookup (v : AuthoritativeView) (d : str) (rtype : DnsRecordType)
    : option (list CustomDnsRecord) :=
  match typed_records v !! d with
  | Some tm => Some (default [] (tm !! rtype))
  | None => w ← match_wildcard v d; wc_typed w !! rtype
  end.

Definition lookup_all (v : AuthoritativeView) (d : str) : option (list CustomDnsRecord) :=
  match all_records v !! d with
  | Some rs => Some rs
  | None => wc_all <$> match_wildcard v d
  end.

Definition lookup_cname (v : AuthoritativeView) (d : str) : option CustomDnsRecord :=
  match typed_records v !! d with
  | Some tm => tm !! Cname ≫= head
  | None => w ← match_wildcard v d; wc_typed w !! Cname ≫= head
  end.

(** Exact match or a suffix preceded by a dot. *)
Definition suffix_covers (zone d : str) : bool :=
  bool_decide (d = zone)
  || match strip_suffix zone d with Some prefix => ends_with "." prefix | None => false end.

Definition match_forwarding_rule (v : AuthoritativeView) (d : str)
    : option ConditionalForwardingRule :=
  List.find (fun r => suffix_covers (rule_domain r) d) (forwarding_rules v).

Definition authoritative_zone (v : AuthoritativeView) (d : str) : option ZoneAuthority :=
  List.find (fun z => suffix_covers (za_name z) d) (zone_authorities v).

Definition reverse_lookup (v : AuthoritativeView) (ip : Ipv4Addr) : option (list CustomDnsRecord) :=
  reverse_ptr v !! ip.

(** ** Names and addresses *)

Definition parse_ptr_ipv4 (name_lower : str) : option Ipv4Addr :=
  labels ← strip_suffix ".in-addr.arpa" name_lower;
  match split "."%char labels with
  | pa :: pb :: pc :: pd :: rest =>
      a ← parse_uint U8_MAX pa; b ← parse_uint U8_MAX pb;
      c ← parse_uint U8_MAX pc; d ← parse_uint U8_MAX pd;
      match rest with
      | [] => Some (ipv4_new d c b a)
      | _ :: _ => None
      end
  | _ => None
  end.

Definition is_some {X} (o : option X) : bool := match o with Some _ => true | None => false end.

Definition parse_conditional_upstream (s : str) : option SocketAddr :=
  let with_port :=
    if starts_with "[" s then
      if is_some (parse_socket_addr s) then s else s ++ ":53"
    else if contains ":"%char s then
      if is_some (parse_socket_addr s) then s else "[" ++ s ++ "]:53"
    else s ++ ":53" in
  parse_socket_addr with_port.

End view.

(** ** Validation of what reaches the view ([dns_local/service.rs]) *)

Definition validate_charset (s : str) : result unit AppError :=
  if forallb (fun c => match c with
                       | [b] => is_ascii_alphanumeric b || bool_decide (b ∈ of_string ".-_")
                       | _ => false
                       end) (chars s)
  then Ok tt
  else Err (BadRequest
    "value contains invalid characters (allowed: alphanumeric, '.', '-', '_')").

Definition validate_domain (domain : str) : result unit AppError :=
  if bool_decide (domain = []) then Err (BadRequest "domain must not be empty")
  else if 253 <? len domain then Err (BadRequest "domain must be <= 253 characters")
  else if negb (contains "."%char domain)
  then Err (BadRequest "domain must contain at least one '.'")
  else validate_charset domain.

Definition validate_record_domain (domain : str) : result unit AppError :=
  validate_domain (default domain (strip_prefix "*." domain)).

Definition validate_zone_name (name : str) : result unit AppError :=
  let name := trim name in
  if bool_decide (name = []) then Err (BadRequest "zone name must not be empty")
  else if 253 <? len name then Err (BadRequest "zone name must be <= 253 characters")
  else validate_charset name.

(** ** Longest-first lists *)

Section sorting.
Context {X : Type} (key : X -> nat).

Lemma insert_desc_perm x l : insert_desc key x l ≡ₚ x :: l.
Proof.
  induction l as [|y l IH]; simpl; [done|]. case_match; [done|]. rewrite IH. constructor.
Qed.

Lemma sort_desc_perm l : sort_desc key l ≡ₚ l.
Proof. induction l as [|x l IH]; simpl; [done|]. by rewrite insert_desc_perm, IH. Qed.

Fixpoint desc (l : list X) : Prop :=
  match l with
  | [] => True
  | x :: l' => (forall y, y ∈ l' -> (key y <= key x)%nat) /\ desc l'
  end.

Lemma insert_desc_sorted x l : desc l -> desc (insert_desc key x l).
Proof.
  induction l as [|y l IH]; simpl; [set_solver|]. intros [Hy Hl].
  destruct (Nat.leb_spec (key y) (key x)) as [Hle|Hlt]; simpl.
  - split; [|done]. intros z [->|Hz]%elem_of_cons; [done|]. specialize (Hy z Hz). lia.
  - split; [|by apply IH]. intros z Hz. rewrite insert_desc_perm in Hz.
    apply elem_of_cons in Hz as [->|Hz]; [lia | by apply Hy].
Qed.

Lemma sort_desc_sorted l : desc (sort_desc key l).
Proof. induction l; simpl; [done | by apply insert_desc_sorted]. Qed.

Lemma find_desc f l x : desc l -> List.find f l = Some x ->
  x ∈ l /\ f x = true /\ forall y, y ∈ l -> f y = true -> (key y <= key x)%nat.
Proof.
  induction l as [|y l IH]; [done|]. simpl. intros [Hy Hl]. destruct (f y) eqn:E.
  - intros [= <-]. split; [set_solver|]. split; [done|].
    intros z [->|Hz]%elem_of_cons _; [done | by apply Hy].
  - intros (Hin & Hf & Hmax)%IH; [|done]. split; [set_solver|]. split; [done|].
    intros z [->|Hz]%elem_of_cons Hfz; [congruence | by apply Hmax].
Qed.

(** The first match of a longest-first list is a longest match. *)
Lemma find_sort_desc f l x : List.find f (sort_desc key l) = Some x ->
  x ∈ l /\ f x = true /\ forall y, y ∈ l -> f y = true -> (key y <= key x)%nat.
Proof.
  intros (Hin & Hf & Hmax)%find_desc; [|apply sort_desc_sorted].
  rewrite sort_desc_perm in Hin. split; [done|]. split; [done|].
  intros y Hy. apply Hmax. by rewrite sort_desc_perm.
Qed.

Lemma find_sort_desc_None f l : List.find f (sort_desc key l) = None ->
  forall y, y ∈ l -> f y = false.
Proof.
  intros H y Hy. apply (find_none f _ H). apply list_elem_of_In. by rewrite sort_desc_perm.
Qed.

End sorting.

(** ** The record maps *)

Section records.
Context {NL : DnsNameLib}.
Implicit Types (r : CustomDnsRecord) (rs : list CustomDnsRecord).

(** A record's canonical name, and the suffix it covers when it is a wildcard. *)
Definition rname r : str := to_ascii_lowercase (trim_end_matches "."%char (rec_domain r)).
Definition rwild r : option str := strip_prefix "*." (rname r).

(** The private address an A record names. *)
Definition rptr r : option Ipv4Addr :=
  if bool_decide (rec_type r = A)
  then v4 ← parse_ipv4 (rec_value r); _ ← private_reverse_zone v4; Some v4
  else None.

Definition exact (n : str) rs := filter (fun r => rwild r = None /\ rname r = n) rs.
Definition wild (s : str) rs := filter (fun r => rwild r = Some s) rs.
Definition oftype (t : DnsRecordType) rs := filter (fun r => rec_type r = t) rs.
Definition ptrs (ip : Ipv4Addr) rs := filter (fun r => rwild r = None /\ rptr r = Some ip) rs.

Definition group rs : option (list CustomDnsRecord) :=
  match rs with [] => None | _ => Some rs end.

Definition typed_of rs : gmap DnsRecordType (list CustomDnsRecord) :=
  foldl (fun m r => push (rec_type r) r m) ∅ rs.

Lemma default_group rs : default [] (group rs) = rs.
Proof. by destruct rs. Qed.

Lemma group_snoc rs r : group (rs ++ [r]) = Some (rs ++ [r]).
Proof. by destruct rs. Qed.

Lemma filter_snoc (P : CustomDnsRecord -> Prop) `{forall r, Decision (P r)} rs r :
  filter P (rs ++ [r]) = if decide (P r) then filter P rs ++ [r] else filter P rs.
Proof. rewrite filter_app. case_decide; [by rewrite filter_cons_True |
  by rewrite filter_cons_False, app_nil_r]. Qed.

Lemma lookup_push_group {K} `{Countable K} (k k' : K) r m rs : m !! k = group rs ->
  push k r m !! k' = if decide (k = k') then group (rs ++ [r]) else m !! k'.
Proof.
  intros Hm. unfold push. rewrite Hm, default_group, group_snoc.
  case_decide as E; [subst; by rewrite lookup_insert_eq | by rewrite lookup_insert_ne].
Qed.

Lemma typed_of_snoc rs r : typed_of (rs ++ [r]) = push (rec_type r) r (typed_of rs).
Proof. unfold typed_of. by rewrite foldl_snoc. Qed.

Lemma lookup_typed_of t rs : typed_of rs !! t = group (oftype t rs).
Proof.
  revert t. induction rs as [|r rs IH] using rev_ind; intros t; [done|].
  rewrite typed_of_snoc, (lookup_push_group _ _ _ _ (oftype (rec_type r) rs)) by done.
  unfold oftype at 2. rewrite filter_snoc.
  case_decide as E; [by subst | by rewrite IH].
Qed.

(** What the loop has filled in after the active records [rs]. *)
Record filled (st : build_state) (rs : list CustomDnsRecord) : Prop := {
  f_all n : b_all st !! n = group (exact n rs);
  f_typed n : b_typed st !! n = typed_of <$> group (exact n rs);
  f_wild s : b_wild st !! s =
    (fun l => {| wc_suffix := s; wc_all := l; wc_typed := typed_of l |}) <$> group (wild s rs);
  f_ptr ip : b_ptr st !! ip = group (ptrs ip rs);
}.

Lemma add_records_foldl ids st rs :
  add_records ids st rs = foldl add_record st (filter (fun r => is_active ids r = true) rs).
Proof.
  revert st. induction rs as [|r rs IH]; intros st; [done|]. simpl. rewrite IH, filter_cons.
  destruct (is_active ids r); [by rewrite decide_True | by rewrite decide_False].
Qed.

Lemma add_wildcard_filled s r m rs :
  (forall s', m !! s' =
    (fun l => {| wc_suffix := s'; wc_all := l; wc_typed := typed_of l |}) <$> group (wild s' rs)) ->
  rwild r = Some s ->
  forall s', add_wildcard s r m !! s' =
    (fun l => {| wc_suffix := s'; wc_all := l; wc_typed := typed_of l |})
      <$> group (wild s' (rs ++ [r])).
Proof.
  intros Hm Hr s'. unfold add_wildcard. unfold wild. rewrite filter_snoc. fold (wild s' rs).
  destruct (decide (s = s')) as [->|Hne].
  - rewrite decide_True, lookup_insert_eq, group_snoc by done. simpl.
    rewrite Hm, typed_of_snoc. by destruct (wild s' rs).
  - rewrite decide_False, lookup_insert_ne, Hm by congruence. done.
Qed.

Lemma filled_wild st rs r s : filled st rs -> rwild r = Some s -> filled (add_record st r) (rs ++ [r]).
Proof.
  intros [Ha Ht Hw Hp] Hr. unfold add_record. fold (rname r). fold (rwild r). rewrite Hr.
  split; simpl.
  1, 2: intros n; unfold exact; rewrite filter_snoc, decide_False by (rewrite Hr; naive_solver);
    [apply Ha || apply Ht].
  - by apply add_wildcard_filled.
  - intros ip. unfold ptrs. rewrite filter_snoc, decide_False by (rewrite Hr; naive_solver). apply Hp.
Qed.

Lemma rptr_code st r :
  (if bool_decide (rec_type r = A) then
     match parse_ipv4 (rec_value r) with
     | Some v4 => match private_reverse_zone v4 with
                  | Some _ => push v4 r (b_ptr st) | None => b_ptr st end
     | None => b_ptr st
     end
   else b_ptr st) = match rptr r with Some v4 => push v4 r (b_ptr st) | None => b_ptr st end.
Proof. unfold rptr. repeat case_match; simplify_option_eq; congruence. Qed.

Lemma filled_exact st rs r : filled st rs -> rwild r = None -> filled (add_record st r) (rs ++ [r]).
Proof.
  intros [Ha Ht Hw Hp] Hr. unfold add_record. rewrite rptr_code. fold (rname r). fold (rwild r).
  rewrite Hr. split; simpl.
  - intros n. rewrite (lookup_push_group _ _ _ _ (exact (rname r) rs)) by done.
    unfold exact at 2. rewrite filter_snoc.
    case_decide as E; [rewrite decide_True by done; by subst | rewrite decide_False by naive_solver].
    apply Ha.
  - intros n. unfold exact. rewrite filter_snoc. fold (exact n rs).
    destruct (decide (rname r = n)) as [<-|E].
    + rewrite decide_True, lookup_insert_eq, Ht, group_snoc by done. simpl. rewrite typed_of_snoc.
      by destruct (exact (rname r) rs).
    + rewrite decide_False, lookup_insert_ne, Ht by naive_solver. done.
  - intros s. unfold wild. rewrite filter_snoc, decide_False by congruence. apply Hw.
  - intros ip. unfold ptrs. rewrite filter_snoc. fold (ptrs ip rs). destruct (rptr r) as [v4|].
    + rewrite (lookup_push_group _ _ _ _ (ptrs v4 rs)) by apply Hp.
      case_decide as E; [rewrite decide_True by naive_solver; by subst |
        rewrite decide_False by naive_solver; apply Hp].
    + rewrite decide_False by naive_solver. apply Hp.
Qed.

Lemma filled_foldl rs :
  filled (foldl add_record {| b_all := ∅; b_typed := ∅; b_wild := ∅; b_ptr := ∅ |} rs) rs.
Proof.
  induction rs as [|r rs IH] using rev_ind; [by split|]. rewrite foldl_snoc.
  destruct (rwild r) eqn:E; [by eapply filled_wild | by apply filled_exact].
Qed.

Definition active (zones : list DnsZone) rs : list CustomDnsRecord :=
  filter (fun r => is_active (enabled_zone_ids zones) r = true) rs.

(** The wildcard entry of suffix [s]. *)
Definition wild_entry (s : str) rs : WildcardEntry :=
  {| wc_suffix := s; wc_all := wild s rs; wc_typed := typed_of (wild s rs) |}.

Lemma view_wildcards zones records w :
  w ∈ snd <$> map_to_list (b_wild (foldl add_record
    {| b_all := ∅; b_typed := ∅; b_wild := ∅; b_ptr := ∅ |} (active zones records))) <->
  exists s, wild s (active zones records) <> [] /\ w = wild_entry s (active zones records).
Proof.
  pose proof (filled_foldl (active zones records)) as [_ _ Hw _].
  rewrite list_elem_of_fmap. split.
  - intros ([s w'] & -> & H%elem_of_map_to_list). rewrite Hw in H. exists s. simpl.
    destruct (wild s _) eqn:E; [done|]. unfold wild_entry. rewrite E. by injection H as <-.
  - intros (s & Hne & ->). exists (s, wild_entry s (active zones records)). split; [done|].
    apply elem_of_map_to_list. rewrite Hw. unfold wild_entry. by destruct (wild s _).
Qed.

Lemma wildcard_covers_spec s n : wildcard_covers s n = true <->
  exists p, p <> [] /\ n = p ++ of_string "." ++ s.
Proof.
  unfold wildcard_covers. destruct (strip_suffix s n) as [pre|] eqn:E.
  - apply strip_suffix_Some in E as ->. rewrite andb_true_iff, ends_with_true, Z.ltb_lt. split.
    + intros [Hl [p ->]]. exists p. rewrite <- app_assoc. split; [|done]. intros ->. done.
    + intros (p & Hp & H). rewrite app_assoc in H. apply app_inv_tail in H as ->.
      split; [|by exists p]. unfold len. rewrite length_app. destruct p; [done|]. simpl. lia.
  - split; [done|]. intros (p & _ & ->). rewrite app_assoc in E. exfalso.
    by eapply strip_suffix_None.
Qed.

(** Of the wildcards covering a name, at most one has a given length: the
    enumeration order of the hash map cannot matter. *)
Lemma wildcard_unique s s' n : wildcard_covers s n = true -> wildcard_covers s' n = true ->
  length s = length s' -> s = s'.
Proof.
  rewrite !wildcard_covers_spec. intros (p & _ & ->) (q & _ & H). rewrite !app_assoc in H.
  by eapply suffix_same_length.
Qed.

Lemma view_fields zones records rules :
  let st := foldl add_record {| b_all := ∅; b_typed := ∅; b_wild := ∅; b_ptr := ∅ |}
              (active zones records) in
  all_records (build_view zones records rules) = b_all st
  /\ typed_records (build_view zones records rules) = b_typed st
  /\ wildcards (build_view zones records rules) =
      sort_desc (fun w => length (wc_suffix w)) (snd <$> map_to_list (b_wild st))
  /\ reverse_ptr (build_view zones records rules) = b_ptr st.
Proof. unfold build_view. simpl. by rewrite add_records_foldl. Qed.

Lemma match_wildcard_longest zones records rules n s :
  let rs := active zones records in
  wild s rs <> [] -> wildcard_covers s n = true ->
  (forall s', wild s' rs <> [] -> wildcard_covers s' n = true -> (length s' <= length s)%nat) ->
  match_wildcard (build_view zones records rules) n = Some (wild_entry s rs).
Proof.
  intros rs Hne Hc Hmax. unfold match_wildcard.
  destruct (view_fields zones records rules) as (_ & _ & -> & _).
  destruct (List.find _ _) as [w|] eqn:E.
  - apply find_sort_desc in E as (Hin & Hw & Hlong).
    apply (view_wildcards zones records) in Hin as (s' & Hs' & ->). simpl in *.
    assert (s' = s) as ->; [|done]. apply (wildcard_unique s' s n Hw Hc).
    assert (length s' <= length s)%nat by (by apply Hmax).
    specialize (Hlong (wild_entry s rs)). simpl in Hlong. apply Nat.le_antisymm; [done|].
    apply Hlong; [|done]. apply (view_wildcards zones records). by exists s.
  - exfalso. eapply find_sort_desc_None in E; [|apply (view_wildcards zones records);
      by exists s]. simpl in E. congruence.
Qed.

Lemma match_wildcard_none zones records rules n :
  (forall s, wild s (active zones records) <> [] -> wildcard_covers s n = false) ->
  match_wildcard (build_view zones records rules) n = None.
Proof.
  intros H. unfold match_wildcard. destruct (view_fields zones records rules) as (_ & _ & -> & _).
  destruct (List.find _ _) as [w|] eqn:E; [|done].
  apply find_sort_desc in E as (Hin & Hw & _).
  apply (view_wildcards zones records) in Hin as (s & Hs & ->). simpl in Hw.
  rewrite H in Hw by done. done.
Qed.

Lemma exact_lookups zones records rules n t :
  let rs := active zones records in
  let v := build_view zones records rules in
  exact n rs <> [] ->
  lookup v n t = Some (oftype t (exact n rs)) /\ lookup_all v n = Some (exact n rs)
  /\ lookup_cname v n = head (oftype Cname (exact n rs)).
Proof.
  intros rs v Hne. unfold lookup, lookup_all, lookup_cname, v.
  destruct (view_fields zones records rules) as (-> & -> & _ & _).
  destruct (filled_foldl rs) as [Ha Ht _ _]. fold rs. rewrite Ha, Ht.
  assert (Hg : group (exact n rs) = Some (exact n rs)) by (by destruct (exact n rs)).
  rewrite Hg. simpl. rewrite !lookup_typed_of, default_group.
  split; [done|]. split; [done|]. by destruct (oftype Cname (exact n rs)).
Qed.

Lemma wild_lookups zones records rules n t :
  let rs := active zones records in
  let v := build_view zones records rules in
  exact n rs = [] ->
  lookup v n t = match_wildcard v n ≫= (fun w => wc_typed w !! t)
  /\ lookup_all v n = wc_all <$> match_wildcard v n
  /\ lookup_cname v n = match_wildcard v n ≫= (fun w => wc_typed w !! Cname ≫= head).
Proof.
  intros rs v Hne. unfold lookup, lookup_all, lookup_cname, v.
  destruct (view_fields zones records rules) as (-> & -> & _ & _).
  destruct (filled_foldl rs) as [Ha Ht _ _]. fold rs. by rewrite Ha, Ht, Hne.
Qed.

(** What the view answers, in terms of the stored records: a name with
    active records of its own answers exactly those, in their order; otherwise
    the longest wildcard strictly above the name answers, but only the types it
    carries; otherwise nothing. *)
Theorem lookup_spec zones records rules n t :
  let rs := active zones records in
  let v := build_view zones records rules in
  (exact n rs <> [] ->
     lookup v n t = Some (oftype t (exact n rs)) /\ lookup_all v n = Some (exact n rs)
     /\ lookup_cname v n = head (oftype Cname (exact n rs)))
  /\ (forall s, exact n rs = [] -> wild s rs <> [] -> wildcard_covers s n = true ->
       (forall s', wild s' rs <> [] -> wildcard_covers s' n = true ->
          (length s' <= length s)%nat) ->
       lookup v n t = group (oftype t (wild s rs)) /\ lookup_all v n = Some (wild s rs)
       /\ lookup_cname v n = head (oftype Cname (wild s rs)))
  /\ (exact n rs = [] -> (forall s, wild s rs <> [] -> wildcard_covers s n = false) ->
       lookup v n t = None /\ lookup_all v n = None /\ lookup_cname v n = None).
Proof.
  intros rs v. unfold v. split; [apply exact_lookups|]. split.
  - intros s He Hne Hc Hmax. destruct (wild_lookups zones records rules n t He) as (-> & -> & ->).
    rewrite (match_wildcard_longest zones records rules n s) by done. fold rs. simpl.
    rewrite !lookup_typed_of. split; [done|]. split; [done|].
    by destruct (oftype Cname (wild s rs)).
  - intros He Hno. destruct (wild_lookups zones records rules n t He) as (-> & -> & ->).
    by rewrite match_wildcard_none.
Qed.

(** ** Zones and forwarding rules *)

Definition canonical_zone (z : DnsZone) : str :=
  to_ascii_lowercase (trim_end_matches "."%char (zone_name z)).

Lemma suffix_covers_spec zone d : suffix_covers zone d = true <-> at_or_below zone d.
Proof. apply suffix_boundary_spec. Qed.

(** The zone that claims a name is an enabled zone the name is in, none
    more specific is enabled, and no zone claims a name outside all of them. *)
Theorem authoritative_zone_spec zones records rules n :
  match authoritative_zone (build_view zones records rules) n with
  | Some za =>
      exists z, z ∈ zones /\ zone_enabled z = true /\ za = authority_of z
        /\ at_or_below (canonical_zone z) n
        /\ forall z', z' ∈ zones -> zone_enabled z' = true -> at_or_below (canonical_zone z') n ->
             at_or_below (canonical_zone z') (canonical_zone z)
  | None => forall z, z ∈ zones -> zone_enabled z = true -> ~ at_or_below (canonical_zone z) n
  end.
Proof.
  unfold authoritative_zone, build_view. simpl. destruct (List.find _ _) as [za|] eqn:E.
  - apply find_sort_desc in E as (Hin & Hc & Hmax).
    apply list_elem_of_fmap in Hin as (z & -> & [He Hz]%list_elem_of_filter).
    apply suffix_covers_spec in Hc. exists z. do 3 (split; [done|]). split; [done|].
    intros z' Hz' He' Hc'. apply (at_or_below_nested _ _ n); [done | done |].
    apply (Hmax (authority_of z')); [|by apply suffix_covers_spec].
    apply list_elem_of_fmap. exists z'. split; [done|]. by apply list_elem_of_filter.
  - intros z Hz He Hc. eapply find_sort_desc_None in E.
    2: { apply list_elem_of_fmap. exists z. split; [done|]. by apply list_elem_of_filter. }
    apply suffix_covers_spec in Hc. unfold canonical_zone in Hc. simpl in E. congruence.
Qed.

(** Likewise for conditional forwarding: the rule used is an enabled rule
    whose domain the name is at or below, the most specific such rule. *)
Theorem forwarding_rule_spec zones records rules n :
  match match_forwarding_rule (build_view zones records rules) n with
  | Some fr =>
      exists fw, fw ∈ rules /\ rule_enabled fw = true /\ fr = lowered_rule fw
        /\ at_or_below (rule_domain fr) n
        /\ forall fw', fw' ∈ rules -> rule_enabled fw' = true ->
             at_or_below (to_ascii_lowercase (rule_domain fw')) n ->
             at_or_below (to_ascii_lowercase (rule_domain fw')) (rule_domain fr)
  | None => forall fw, fw ∈ rules -> rule_enabled fw = true ->
      ~ at_or_below (to_ascii_lowercase (rule_domain fw)) n
  end.
Proof.
  unfold match_forwarding_rule, build_view. simpl. destruct (List.find _ _) as [fr|] eqn:E.
  - apply find_sort_desc in E as (Hin & Hc & Hmax).
    apply list_elem_of_fmap in Hin as (fw & -> & [He Hr]%list_elem_of_filter).
    apply suffix_covers_spec in Hc. exists fw. do 4 (split; [done|]).
    intros fw' Hr' He' Hc'. apply (at_or_below_nested _ _ n); [done | done |].
    apply (Hmax (lowered_rule fw')); [|by apply suffix_covers_spec].
    apply list_elem_of_fmap. exists fw'. split; [done|]. by apply list_elem_of_filter.
  - intros fw Hr He Hc. eapply find_sort_desc_None in E.
    2: { apply list_elem_of_fmap. exists fw. split; [done|]. by apply list_elem_of_filter. }
    apply suffix_covers_spec in Hc. simpl in E. congruence.
Qed.

(** A forwarding rule whose domain ends in a dot passes validation but
    matches no query: query names carry no trailing dot, and rule domains are
    lower-cased without being trimmed. *)
Theorem forwarding_trailing_dot :
  validate_domain "corp.internal." = Ok tt
  /\ forall v fw n, fw ∈ forwarding_rules v -> (exists d, rule_domain fw = d ++ of_string ".") ->
       (forall m, n <> m ++ of_string ".") -> match_forwarding_rule v n <> Some fw.
Proof.
  split; [vm_compute; reflexivity|]. intros v fw n Hr [d Hd] Hn E.
  apply List.find_some in E as [_ E]. apply suffix_covers_spec in E.
  apply at_or_below_suffix in E as [p ->]. apply (Hn (p ++ d)). by rewrite Hd, <- app_assoc.
Qed.

(** ** Reverse lookups *)

(** The PTR query name of an address. *)
Definition ptr_name (ip : Ipv4Addr) : str :=
  let '(a, b, c, d) := octets ip in
  show_u8 d ++ "." ++ show_u8 c ++ "." ++ show_u8 b ++ "." ++ show_u8 a ++ ".in-addr.arpa".

Lemma parse_ptr_octets a b c d : is_u8 a -> is_u8 b -> is_u8 c -> is_u8 d ->
  parse_ptr_ipv4 (show_u8 a ++ "." ++ show_u8 b ++ "." ++ show_u8 c ++ "." ++ show_u8 d
    ++ ".in-addr.arpa") = Some (ipv4_new d c b a).
Proof.
  intros [Ea Na]%show_u8_ok [Eb Nb]%show_u8_ok [Ec Nc]%show_u8_ok [Ed Nd]%show_u8_ok.
  unfold parse_ptr_ipv4.
  rewrite (proj2 (strip_suffix_Some ".in-addr.arpa" _
    (show_u8 a ++ "." ++ show_u8 b ++ "." ++ show_u8 c ++ "." ++ show_u8 d)))
    by (rewrite <- !(app_assoc _ _ (of_string ".in-addr.arpa")); done).
  cbn [mbind option_bind]. change (of_string ".") with ["."%char]. cbn [app].
  rewrite (split_cons_piece _ (show_u8 a)), (split_cons_piece _ (show_u8 b)),
    (split_cons_piece _ (show_u8 c)), (split_last_piece _ (show_u8 d)) by done.
  by rewrite Ea, Eb, Ec, Ed.
Qed.

Lemma private_zone_above ip z : private_reverse_zone ip = Some z -> at_or_below z (ptr_name ip).
Proof.
  unfold private_reverse_zone, ptr_name. destruct (octets ip) as [[[a b] c] d]. intros H.
  set (low := show_u8 d ++ of_string "." ++ show_u8 c).
  assert (Hl : forall rest, show_u8 d ++ "." ++ show_u8 c ++ "." ++ rest =
    low ++ of_string "." ++ rest) by (intros; unfold low; by rewrite <- !app_assoc).
  right. repeat case_match; simplify_eq; breflect; subst; rewrite Hl.
  1: exists (low ++ of_string "." ++ show_u8 b); by rewrite <- !app_assoc.
  all: exists low; by rewrite <- ?app_assoc.
Qed.

(** An address's PTR name parses back to the address; the view's reverse
    answers for an address are exactly the active non-wildcard A records whose
    value is that address, kept only for private, link-local and shared (CGN)
    addresses, and each of them is also an answer of the forward lookup. *)
Theorem reverse_lookup_spec zones records rules ip :
  let rs := active zones records in
  let v := build_view zones records rules in
  is_u32 ip ->
  parse_ptr_ipv4 (ptr_name ip) = Some ip
  /\ reverse_lookup v ip = group (ptrs ip rs)
  /\ (forall z, private_reverse_zone ip = Some z -> at_or_below z (ptr_name ip))
  /\ (forall l r, reverse_lookup v ip = Some l -> r ∈ l ->
       rec_type r = A /\ parse_ipv4 (rec_value r) = Some ip
       /\ is_Some (private_reverse_zone ip)
       /\ exists l', lookup v (rname r) A = Some l' /\ r ∈ l').
Proof.
  intros rs v Hip.
  assert (Hrev : reverse_lookup v ip = group (ptrs ip rs)).
  { unfold reverse_lookup, v. destruct (view_fields zones records rules) as (_ & _ & _ & ->).
    by destruct (filled_foldl rs) as [_ _ _ ->]. }
  split_and!; [| done | apply private_zone_above |].
  - unfold ptr_name. destruct (octets ip) as [[[a b] c] d] eqn:E.
    destruct (octets_bounds _ _ _ _ _ E) as (? & ? & ? & ?).
    rewrite parse_ptr_octets by done. f_equal. by apply (ipv4_new_octets ip).
  - intros l r Hl Hr. rewrite Hrev in Hl.
    assert (Hp : r ∈ ptrs ip rs) by (destruct (ptrs ip rs); [done | by injection Hl as <-]).
    apply list_elem_of_filter in Hp as [[Hw Hptr] Hin]. unfold rptr in Hptr.
    case_bool_decide as Ht; [|done].
    destruct (parse_ipv4 (rec_value r)) as [v4|] eqn:Ev; [|done]. simpl in Hptr.
    destruct (private_reverse_zone v4) eqn:Ez; [|done]. simpl in Hptr. injection Hptr as ->.
    split; [done|]. split; [done|]. split; [by rewrite Ez|].
    assert (Hex : r ∈ exact (rname r) rs) by (by apply list_elem_of_filter).
    unfold v. destruct (exact_lookups zones records rules (rname r) A) as [-> _].
    { intros E. unfold rs in Hex. rewrite E in Hex. set_solver. }
    eexists. split; [done|]. by apply list_elem_of_filter.
Qed.

(** ** Upstream addresses *)

Lemma show_ipv4_chars ip : is_u32 ip ->
  starts_with "[" (show_ipv4 ip) = false /\ contains ":"%char (show_ipv4 ip) = false.
Proof.
  intros Hip. unfold show_ipv4. destruct (octets ip) as [[[a b] c] d] eqn:E.
  destruct (octets_bounds _ _ _ _ _ E) as (Ha & Hb & Hc & Hd).
  apply show_u8_digits in Ha as (_ & Da & Na), Hb as (_ & Db & _), Hc as (_ & Dc & _),
    Hd as (_ & Dd & _). split.
  - destruct (show_u8 a) as [|x s]; [done|]. apply Forall_cons in Da as [Dx _].
    unfold starts_with. simpl. rewrite bool_decide_eq_false_2; [done|]. by intros <-.
  - apply contains_false. rewrite !not_elem_of_app. change (of_string ".") with ["."%char].
    split_and!; first [by apply digits_no | by rewrite list_elem_of_singleton].
Qed.

(** A bare IPv4 upstream is that address on port 53, an upstream that
    already is a socket address is itself, and a bare IPv6 literal is read in
    brackets on port 53. *)
Theorem conditional_upstream_spec :
  (forall ip, is_u32 ip ->
     parse_conditional_upstream (show_ipv4 ip) = Some {| sa_ip := V4 ip; sa_port := 53 |})
  /\ (forall s sa, contains ":"%char s = true -> parse_socket_addr s = Some sa ->
       parse_conditional_upstream s = Some sa)
  /\ (forall s, starts_with "[" s = false -> contains ":"%char s = true ->
       parse_socket_addr s = None ->
       parse_conditional_upstream s = parse_socket_addr ("[" ++ s ++ "]:53")).
Proof.
  unfold parse_conditional_upstream. split_and!.
  - intros ip Hip. destruct (show_ipv4_chars ip Hip) as [-> ->].
    unfold parse_socket_addr. by rewrite read_ipv4_show.
  - intros s sa Hc E. rewrite Hc, E. simpl. by destruct (starts_with _ s).
  - intros s Hs Hc E. by rewrite Hs, Hc, E.
Qed.

End records.
