(* ===== verification/DhcpRepo.v ===== *)
(** * DHCP data and storage

    The types of [wardnet-common/src/dhcp.rs], the SQLite repository of
    [wardnetd-data/src/repository/sqlite/dhcp.rs] and the few reads of the
    device, zone and configuration repositories the DHCP service makes.

    A table is the list of its rows in insertion order; every statement is
    atomic.  A row keeps its address and status as the text the column holds and
    is decoded on every read, as the code does.  A UUID is its 128-bit value, a
    [DateTime<Utc>] its nanoseconds since the epoch; the clock does not advance
    inside one operation.  [w_faults] is an oracle for storage failures: each
    repository call consumes one entry, and an entry [Some e] makes the call
    fail with [e] before it has any effect. *)

From S2P Require Import Prelude RustStr Net Auth.

Definition NANOS_PER_SEC : Z := 1000000000.

(** ** Timestamps as column text

    [chrono]'s RFC 3339 rendering, the ["%Y-%m-%dT%H:%M:%SZ"] rendering and
    SQLite's text comparison. *)
Class TimeLib : Type := {
  TimeText : Type;
  to_rfc3339 : Z -> TimeText;
  format_z : Z -> TimeText;
  text_lt : TimeText -> TimeText -> bool;
  parse_time : TimeText -> option Z;
  (** [format!("{t}")] *)
  display_time : Z -> str;
}.

(** Both renderings parse back (the second to the whole second), and an RFC 3339
    text sorts before a [Z] text of the same second, because its next byte is
    [.] or [+]: the comparison sees whole seconds only. *)
Class TimeLaws (T : TimeLib) : Prop := {
  parse_rfc3339 t : parse_time (to_rfc3339 t) = Some t;
  parse_format_z t :
    parse_time (format_z t) = Some (t / NANOS_PER_SEC * NANOS_PER_SEC);
  text_lt_spec e n :
    text_lt (to_rfc3339 e) (format_z n) = (e / NANOS_PER_SEC <=? n / NANOS_PER_SEC);
}.

(** ** Domain types *)

Record DhcpConfig : Type := {
  dc_enabled : bool;
  dc_gateway_ip : Ipv4Addr;
  dc_pool_start : Ipv4Addr;
  dc_pool_end : Ipv4Addr;
  dc_subnet_mask : Ipv4Addr;
  dc_upstream_dns : list Ipv4Addr;
  dc_lease_duration_secs : Z;
  dc_router_ip : option Ipv4Addr;
}.

Record DhcpScope : Type := {
  sc_gateway_ip : Ipv4Addr;
  sc_pool_start : Ipv4Addr;
  sc_pool_end : Ipv4Addr;
  sc_subnet_mask : Ipv4Addr;
  sc_dns : list Ipv4Addr;
  sc_lease_duration_secs : Z;
  sc_router_ip : option Ipv4Addr;
  sc_member_isolation : bool;
  sc_subnet_prefix : option Z;
}.

Inductive DhcpLeaseStatus : Type := Active | Expired | Released.

#[export] Instance DhcpLeaseStatus_eq_dec : EqDecision DhcpLeaseStatus.
Proof. solve_decision. Defined.

Inductive DhcpLeaseEventType : Type :=
| LogAssigned | LogRenewed | LogReleased | LogExpired | LogConflict.

Record DhcpLease : Type := {
  dl_id : Z;
  dl_mac_address : str;
  dl_ip_address : Ipv4Addr;
  dl_hostname : option str;
  dl_lease_start : Z;
  dl_lease_end : Z;
  dl_status : DhcpLeaseStatus;
  dl_device_id : option Z;
  dl_created_at : Z;
  dl_updated_at : Z;
}.

Record DhcpReservation : Type := {
  dr_id : Z;
  dr_mac_address : str;
  dr_ip_address : Ipv4Addr;
  dr_hostname : option str;
  dr_description : option str;
  dr_created_at : Z;
  dr_updated_at : Z;
}.

Record DhcpLeaseLog : Type := {
  dg_id : Z;
  dg_lease_id : Z;
  dg_mac_address : str;
  dg_event_type : DhcpLeaseEventType;
  dg_details : option str;
  dg_created_at : Z;
}.

(** The fields of a device and of a Network Zone the service reads. *)
Record DeviceRec : Type := {
  dev_id : Z;
  dev_mac : str;
  dev_zone_id : Z;
  dev_managed : bool;
}.

Record ZoneRec : Type := {
  nz_id : Z;
  nz_name : str;
  nz_member_isolation : bool;
  nz_subnet : option str;          (** [ZoneSubnet::cidr] *)
  nz_is_default_for_new : bool;
}.

Inductive DhcpEvent : Type :=
| DhcpLeaseAssigned (lease_id : Z) (mac ip : str) (hostname : option str) (timestamp : Z)
| DhcpLeaseRenewed (lease_id : Z) (mac ip : str) (hostname : option str)
    (new_expiry timestamp : Z).

(** ** Rows and the world *)

(** [Uuid::to_string] *)
Class UuidLib : Type := { show_uuid : Z -> str }.

Section repo.
Context {T : TimeLib}.

Record DbLeaseRow : Type := {
  row_id : Z;
  row_mac : str;
  row_ip : str;
  row_hostname : option str;
  row_lease_start : TimeText;
  row_lease_end : TimeText;
  row_status : str;
  row_device_id : option Z;
  row_created_at : TimeText;
  row_updated_at : TimeText;
}.

Record DbReservationRow : Type := {
  rr_id : Z;
  rr_mac : str;
  rr_ip : str;
  rr_hostname : option str;
  rr_description : option str;
  rr_created_at : TimeText;
  rr_updated_at : TimeText;
}.

Record DbLeaseLogRow : Type := {
  log_id : Z;
  log_lease_id : Z;
  log_mac : str;
  log_event_type : str;
  log_details : option str;
  log_created_at : TimeText;
}.

(** Everything stored, the events published and the clock. *)
Record Data : Type := {
  w_leases : list DbLeaseRow;
  w_reservations : list DbReservationRow;
  w_log : list DbLeaseLogRow;
  w_config : gmap str str;
  w_devices : list DeviceRec;
  w_zones : list ZoneRec;
  w_events : list DhcpEvent;
  w_now : Z;
}.

Record World : Type := {
  w_data : Data;
  w_faults : list (option str);
}.

Definition set_leases (ls : list DbLeaseRow) (w : Data) : Data :=
  {| w_leases := ls; w_reservations := w_reservations w; w_log := w_log w;
     w_config := w_config w; w_devices := w_devices w; w_zones := w_zones w;
     w_events := w_events w; w_now := w_now w |}.
Definition set_reservations (rs : list DbReservationRow) (w : Data) : Data :=
  {| w_leases := w_leases w; w_reservations := rs; w_log := w_log w;
     w_config := w_config w; w_devices := w_devices w; w_zones := w_zones w;
     w_events := w_events w; w_now := w_now w |}.
Definition set_log (l : list DbLeaseLogRow) (w : Data) : Data :=
  {| w_leases := w_leases w; w_reservations := w_reservations w; w_log := l;
     w_config := w_config w; w_devices := w_devices w; w_zones := w_zones w;
     w_events := w_events w; w_now := w_now w |}.
Definition set_config (c : gmap str str) (w : Data) : Data :=
  {| w_leases := w_leases w; w_reservations := w_reservations w; w_log := w_log w;
     w_config := c; w_devices := w_devices w; w_zones := w_zones w;
     w_events := w_events w; w_now := w_now w |}.
Definition set_devices (ds : list DeviceRec) (w : Data) : Data :=
  {| w_leases := w_leases w; w_reservations := w_reservations w; w_log := w_log w;
     w_config := w_config w; w_devices := ds; w_zones := w_zones w;
     w_events := w_events w; w_now := w_now w |}.
Definition set_events (es : list DhcpEvent) (w : Data) : Data :=
  {| w_leases := w_leases w; w_reservations := w_reservations w; w_log := w_log w;
     w_config := w_config w; w_devices := w_devices w; w_zones := w_zones w;
     w_events := es; w_now := w_now w |}.
(** A repository call: [anyhow] errors are their text. *)
Abbreviation Repo := (ST World str).

Definition db {X} (call : Data -> result X str * Data) : Repo X := fun w =>
  match w_faults w with
  | Some e :: fs => (Err e, {| w_data := w_data w; w_faults := fs |})
  | fs =>
      let '(r, d) := call (w_data w) in (r, {| w_data := d; w_faults := tail fs |})
  end.

Definition db_read {X} (f : Data -> result X str) : Repo X := db (fun w => (f w, w)).
Definition db_write (f : Data -> Data) : Repo unit := db (fun w => (Ok tt, f w)).

(** ** Decoding *)

Definition parse_status (s : str) : result DhcpLeaseStatus str :=
  if bool_decide (s = of_string "active") then Ok Active
  else if bool_decide (s = of_string "expired") then Ok Expired
  else if bool_decide (s = of_string "released") then Ok Released
  else Err ("unknown DHCP lease status: " ++ s).

Definition parse_time_err (t : TimeText) : result Z str :=
  ok_or (parse_time t) (of_string "invalid timestamp").

Definition into_lease (row : DbLeaseRow) : result DhcpLease str :=
  let? status := parse_status (row_status row) in
  let? ip := ok_or (parse_ipv4 (row_ip row)) (of_string "invalid IPv4 address syntax") in
  let? lease_start := parse_time_err (row_lease_start row) in
  let? lease_end := parse_time_err (row_lease_end row) in
  let? created := parse_time_err (row_created_at row) in
  let? updated := parse_time_err (row_updated_at row) in
  Ok {| dl_id := row_id row; dl_mac_address := row_mac row; dl_ip_address := ip;
        dl_hostname := row_hostname row; dl_lease_start := lease_start;
        dl_lease_end := lease_end; dl_status := status; dl_device_id := row_device_id row;
        dl_created_at := created; dl_updated_at := updated |}.

Definition into_reservation (row : DbReservationRow) : result DhcpReservation str :=
  let? ip := ok_or (parse_ipv4 (rr_ip row)) (of_string "invalid IPv4 address syntax") in
  let? created := parse_time_err (rr_created_at row) in
  let? updated := parse_time_err (rr_updated_at row) in
  Ok {| dr_id := rr_id row; dr_mac_address := rr_mac row; dr_ip_address := ip;
        dr_hostname := rr_hostname row; dr_description := rr_description row;
        dr_created_at := created; dr_updated_at := updated |}.

Definition parse_event_type (s : str) : result DhcpLeaseEventType str :=
  if bool_decide (s = of_string "assigned") then Ok LogAssigned
  else if bool_decide (s = of_string "renewed") then Ok LogRenewed
  else if bool_decide (s = of_string "released") then Ok LogReleased
  else if bool_decide (s = of_string "expired") then Ok LogExpired
  else if bool_decide (s = of_string "conflict") then Ok LogConflict
  else Err ("unknown DHCP lease event type: " ++ s).

Definition into_log (row : DbLeaseLogRow) : result DhcpLeaseLog str :=
  let? event_type := parse_event_type (log_event_type row) in
  let? created := parse_time_err (log_created_at row) in
  Ok {| dg_id := log_id row; dg_lease_id := log_lease_id row; dg_mac_address := log_mac row;
        dg_event_type := event_type; dg_details := log_details row; dg_created_at := created |}.

(** [rows.into_iter().map(f).collect::<Result<Vec<_>, _>>()] *)
Fixpoint collect {X Y} (f : X -> result Y str) (l : list X) : result (list Y) str :=
  match l with
  | [] => Ok []
  | x :: l' => let? y := f x in let? ys := collect f l' in Ok (y :: ys)
  end.

(** [row.map(f).transpose()] *)
Definition transpose {X Y} (f : X -> result Y str) (o : option X) : result (option Y) str :=
  match o with
  | None => Ok None
  | Some x => let? y := f x in Ok (Some y)
  end.

(** ** Leases *)

(** The arguments of an insert ([DhcpLeaseRow]). *)
Record LeaseInsert : Type := {
  li_id : Z;
  li_mac : str;
  li_ip : str;
  li_hostname : option str;
  li_lease_start : Z;
  li_lease_end : Z;
  li_status : str;
  li_device_id : option Z;
}.

Definition lease_row (now : Z) (r : LeaseInsert) : DbLeaseRow :=
  {| row_id := li_id r; row_mac := to_lowercase (li_mac r); row_ip := li_ip r;
     row_hostname := li_hostname r; row_lease_start := to_rfc3339 (li_lease_start r);
     row_lease_end := to_rfc3339 (li_lease_end r); row_status := li_status r;
     row_device_id := li_device_id r; row_created_at := format_z now;
     row_updated_at := format_z now |}.

(** [id] is the primary key. *)
Definition insert_lease (r : LeaseInsert) : Repo unit :=
  db (fun w =>
    if existsb (fun row => row_id row =? li_id r) (w_leases w)
    then (Err (of_string "UNIQUE constraint failed: dhcp_leases.id"), w)
    else (Ok tt, set_leases (w_leases w ++ [lease_row (w_now w) r]) w)).

Definition is_active_row (row : DbLeaseRow) : bool :=
  bool_decide (row_status row = of_string "active").

Definition find_lease_by_id (id : Z) : Repo (option DhcpLease) :=
  db_read (fun w => transpose into_lease (List.find (fun row => row_id row =? id) (w_leases w))).

Definition find_active_lease_by_mac (mac : str) : Repo (option DhcpLease) :=
  db_read (fun w => transpose into_lease
    (List.find (fun row => bool_decide (row_mac row = to_lowercase mac) && is_active_row row)
       (w_leases w))).

Definition find_active_lease_by_ip (ip : str) : Repo (option DhcpLease) :=
  db_read (fun w => transpose into_lease
    (List.find (fun row => bool_decide (row_ip row = ip) && is_active_row row) (w_leases w))).

Definition list_active_leases : Repo (list DhcpLease) :=
  db_read (fun w => collect into_lease (filter (fun row => is_active_row row = true) (w_leases w))).

Definition set_row_status (status : str) (now : Z) (row : DbLeaseRow) : DbLeaseRow :=
  {| row_id := row_id row; row_mac := row_mac row; row_ip := row_ip row;
     row_hostname := row_hostname row; row_lease_start := row_lease_start row;
     row_lease_end := row_lease_end row; row_status := status;
     row_device_id := row_device_id row; row_created_at := row_created_at row;
     row_updated_at := format_z now |}.

Definition set_row_end (new_end now : Z) (row : DbLeaseRow) : DbLeaseRow :=
  {| row_id := row_id row; row_mac := row_mac row; row_ip := row_ip row;
     row_hostname := row_hostname row; row_lease_start := row_lease_start row;
     row_lease_end := to_rfc3339 new_end; row_status := row_status row;
     row_device_id := row_device_id row; row_created_at := row_created_at row;
     row_updated_at := format_z now |}.

Definition set_row_hostname (hostname : option str) (now : Z) (row : DbLeaseRow) : DbLeaseRow :=
  {| row_id := row_id row; row_mac := row_mac row; row_ip := row_ip row;
     row_hostname := hostname; row_lease_start := row_lease_start row;
     row_lease_end := row_lease_end row; row_status := row_status row;
     row_device_id := row_device_id row; row_created_at := row_created_at row;
     row_updated_at := format_z now |}.

(** [UPDATE dhcp_leases SET .. WHERE id = ?] *)
Definition update_where (p : DbLeaseRow -> bool) (f : DbLeaseRow -> DbLeaseRow)
    (rows : list DbLeaseRow) : list DbLeaseRow :=
  (fun row => if p row then f row else row) <$> rows.

Definition update_by_id (id : Z) (f : Z -> DbLeaseRow -> DbLeaseRow) : Repo unit :=
  db_write (fun w =>
    set_leases (update_where (fun row => row_id row =? id) (f (w_now w)) (w_leases w)) w).

Definition update_lease_status (id : Z) (status : str) : Repo unit :=
  update_by_id id (set_row_status status).
Definition repo_renew_lease (id new_end : Z) : Repo unit := update_by_id id (set_row_end new_end).
Definition update_lease_hostname (id : Z) (hostname : option str) : Repo unit :=
  update_by_id id (set_row_hostname hostname).

Definition is_stale (now : Z) (row : DbLeaseRow) : bool :=
  is_active_row row && text_lt (row_lease_end row) (format_z now).

Definition expire_stale_leases : Repo Z :=
  db (fun w =>
    (Ok (Z.of_nat (length (filter (fun row => is_stale (w_now w) row = true) (w_leases w)))),
     set_leases (update_where (is_stale (w_now w)) (set_row_status "expired" (w_now w)) (w_leases w))
       w)).

(** ** Reservations *)

Record ReservationInsert : Type := {
  ri_id : Z;
  ri_mac : str;
  ri_ip : str;
  ri_hostname : option str;
  ri_description : option str;
}.

Definition reservation_row (now : Z) (r : ReservationInsert) : DbReservationRow :=
  {| rr_id := ri_id r; rr_mac := to_lowercase (ri_mac r); rr_ip := ri_ip r;
     rr_hostname := ri_hostname r; rr_description := ri_description r;
     rr_created_at := format_z now; rr_updated_at := format_z now |}.

(** [mac_address] and [ip_address] are UNIQUE columns. *)
Definition insert_reservation (r : ReservationInsert) : Repo unit :=
  db (fun w =>
    let row := reservation_row (w_now w) r in
    if existsb (fun x => (rr_id x =? rr_id row) || bool_decide (rr_mac x = rr_mac row)
                         || bool_decide (rr_ip x = rr_ip row)) (w_reservations w)
    then (Err (of_string "UNIQUE constraint failed: dhcp_reservations"), w)
    else (Ok tt, set_reservations (w_reservations w ++ [row]) w)).

Definition delete_reservation_row (id : Z) : Repo unit :=
  db_write (fun w => set_reservations (filter (fun x => rr_id x <> id) (w_reservations w)) w).

Definition list_reservations : Repo (list DhcpReservation) :=
  db_read (fun w => collect into_reservation (w_reservations w)).

Definition find_reservation_by_mac (mac : str) : Repo (option DhcpReservation) :=
  db_read (fun w => transpose into_reservation
    (List.find (fun x => bool_decide (rr_mac x = to_lowercase mac)) (w_reservations w))).

Definition find_reservation_by_ip (ip : str) : Repo (option DhcpReservation) :=
  db_read (fun w => transpose into_reservation
    (List.find (fun x => bool_decide (rr_ip x = ip)) (w_reservations w))).

(** ** Lease log *)

Definition insert_lease_log (lease_id : Z) (mac : str) (event_type : str)
    (details : option str) : Repo unit :=
  db_write (fun w =>
    set_log (w_log w ++ [{| log_id := Z.of_nat (length (w_log w)) + 1; log_lease_id := lease_id;
                            log_mac := to_lowercase mac; log_event_type := event_type;
                            log_details := details; log_created_at := format_z (w_now w) |}]) w).

(** [ORDER BY created_at], stable. *)
Fixpoint insert_log_sorted (l : DbLeaseLogRow) (rows : list DbLeaseLogRow) : list DbLeaseLogRow :=
  match rows with
  | [] => [l]
  | r :: rows' =>
      if text_lt (log_created_at r) (log_created_at l) then r :: insert_log_sorted l rows'
      else l :: rows
  end.

Definition order_by_created (rows : list DbLeaseLogRow) : list DbLeaseLogRow :=
  foldr insert_log_sorted [] rows.

Definition find_lease_logs (lease_id : Z) : Repo (list DhcpLeaseLog) :=
  db_read (fun w =>
    collect into_log (order_by_created (filter (fun l => log_lease_id l = lease_id) (w_log w)))).

Definition find_lease_logs_by_mac (mac : str) : Repo (list DhcpLeaseLog) :=
  db_read (fun w =>
    collect into_log (order_by_created (filter (fun l => log_mac l = to_lowercase mac) (w_log w)))).

(** ** Configuration, devices and zones *)

Definition config_get (key : str) : Repo (option str) := db_read (fun w => Ok (w_config w !! key)).
Definition config_set (key value : str) : Repo unit :=
  db_write (fun w => set_config (<[key := value]> (w_config w)) w).

Definition find_device_by_mac (mac : str) : Repo (option DeviceRec) :=
  db_read (fun w => Ok (List.find (fun d => bool_decide (dev_mac d = to_lowercase mac)) (w_devices w))).

Definition set_managed (id : Z) (managed : bool) : Repo unit :=
  db_write (fun w =>
    set_devices ((fun d => if dev_id d =? id
                           then {| dev_id := dev_id d; dev_mac := dev_mac d;
                                   dev_zone_id := dev_zone_id d; dev_managed := managed |}
                           else d) <$> w_devices w) w).

Definition find_zone_by_id (id : Z) : Repo (option ZoneRec) :=
  db_read (fun w => Ok (List.find (fun z => nz_id z =? id) (w_zones w))).

Definition find_default_for_new : Repo ZoneRec :=
  db_read (fun w => ok_or (List.find nz_is_default_for_new (w_zones w))
    (of_string "no default-for-new network zone configured")).

(** [self.events.publish(..)]: a broadcast that cannot fail. *)
Definition publish {E} (e : DhcpEvent) : ST World E unit :=
  st_modify (fun w => {| w_data := set_events (w_events (w_data w) ++ [e]) (w_data w);
                         w_faults := w_faults w |}).

(** [chrono::Utc::now()] *)
Definition utc_now {E} : ST World E Z := st_gets (fun w => w_now (w_data w)).

End repo.

(** ** Reasoning about storage computations

    Pre- and postconditions speak of the data alone; a postcondition must also
    hold when a fault ends the computation early. *)

Section hoare.
Context {T : TimeLib}.
Implicit Types (P : Data -> Prop).

Definition hoare {E X} P (m : ST World E X) (Q : result X E -> Data -> Prop) : Prop :=
  triple (fun w => P (w_data w)) m (fun r w => Q r (w_data w)).

Lemma hoare_bind {E X Y} P (m : ST World E X) (k : X -> ST World E Y) R Q :
  hoare P m (fun r d => match r with Ok a => R a d | Err e => Q (Err e) d end) ->
  (forall a, hoare (R a) (k a) Q) -> hoare P (m ≫= k) Q.
Proof.
  intros Hm Hk. apply (triple_bind _ _ _ (fun a w => R a (w_data w))); [|exact Hk].
  eapply triple_conseq; [exact Hm | done |]. by intros [].
Qed.

Lemma hoare_conseq {E X} P P' (m : ST World E X) Q Q' :
  hoare P' m Q' -> (forall d, P d -> P' d) -> (forall r d, Q' r d -> Q r d) -> hoare P m Q.
Proof. intros H HP HQ w Hw. apply HQ, H, HP, Hw. Qed.

Lemma hoare_ret {E X} P (a : X) (Q : result X E -> Data -> Prop) :
  (forall d, P d -> Q (Ok a) d) -> hoare P (mret a) Q.
Proof. intros H w. apply H. Qed.

Lemma hoare_lift {E X} P (r : result X E) (Q : result X E -> Data -> Prop) :
  (forall d, P d -> Q r d) -> hoare P (st_lift r) Q.
Proof. intros H w. apply H. Qed.

Lemma hoare_db {X} P (call : Data -> result X str * Data) Q :
  (forall d, P d -> Q (fst (call d)) (snd (call d))) -> (forall d e, P d -> Q (Err e) d) ->
  hoare P (db call) Q.
Proof.
  intros Hok Herr w HP. unfold db.
  destruct (w_faults w) as [|[e|] fs]; simpl; [|by apply Herr|];
    specialize (Hok _ HP); by destruct (call (w_data w)).
Qed.

Lemma hoare_gets {E X} P (f : World -> X) (Q : result X E -> Data -> Prop) :
  (forall w, P (w_data w) -> Q (Ok (f w)) (w_data w)) -> hoare P (st_gets f) Q.
Proof. intros H w HP. by apply H. Qed.

(** A fact about arguments in the precondition. *)
Lemma hoare_pure {E X} P (phi : Prop) (m : ST World E X) Q :
  (phi -> hoare P m Q) -> hoare (fun d => P d /\ phi) m Q.
Proof. intros H w [HP Hphi]. by apply H. Qed.

(** *** Computations that keep an invariant *)

Definition keeps {E X} P (m : ST World E X) : Prop := hoare P m (fun _ d => P d).

Lemma hoare_keeps {E X} P (m : ST World E X) Q :
  keeps P m -> (forall r d, P d -> Q r d) -> hoare P m Q.
Proof. intros H HQ w HP. apply HQ, H, HP. Qed.

Lemma keeps_bind {E X Y} P (m : ST World E X) (k : X -> ST World E Y) :
  keeps P m -> (forall a, keeps P (k a)) -> keeps P (m ≫= k).
Proof.
  intros Hm Hk. apply (hoare_bind _ _ _ (fun _ => P)); [|exact Hk].
  apply (hoare_conseq P P m _ (fun _ d => P d) Hm); [done | by intros []].
Qed.

Lemma keeps_ret {E X} P (a : X) : keeps (E := E) P (mret a).
Proof. by apply hoare_ret. Qed.

Lemma keeps_lift {E X} P (r : result X E) : keeps P (st_lift r).
Proof. by apply hoare_lift. Qed.

Lemma keeps_gets {E X} P (f : World -> X) : keeps (E := E) P (st_gets f).
Proof. by apply hoare_gets. Qed.

Lemma keeps_read {X} P (f : Data -> result X str) : keeps P (db_read f).
Proof. by apply hoare_db. Qed.

Lemma keeps_write P (f : Data -> Data) : (forall d, P d -> P (f d)) -> keeps P (db_write f).
Proof. intros. by apply hoare_db. Qed.

Lemma keeps_iter {E X} P (body : X -> ST World E unit) xs :
  (forall x, x ∈ xs -> keeps P (body x)) -> keeps P (st_iter body xs).
Proof. intros H. exact (triple_iter (fun w => P (w_data w)) body xs H). Qed.

(** *** Computations that change nothing *)

Definition reads {E X} (m : ST World E X) : Prop := forall w, w_data (snd (m w)) = w_data w.

Lemma reads_keeps {E X} P (m : ST World E X) : reads m -> keeps P m.
Proof. intros H w HP. by rewrite H. Qed.

Lemma reads_of_keeps {E X} (m : ST World E X) : (forall P, keeps P m) -> reads m.
Proof. intros H w. by apply (H (fun d => d = w_data w)). Qed.

(** *** Computations on a storage that does not fail *)

Definition total {E X} P (m : ST World E X) (Q : result X E -> Data -> Prop) : Prop :=
  forall w, w_faults w = [] -> P (w_data w) ->
    w_faults (snd (m w)) = [] /\ Q (fst (m w)) (w_data (snd (m w))).

Lemma total_bind {E X Y} P (m : ST World E X) (k : X -> ST World E Y) R Q :
  total P m (fun r d => match r with Ok a => R a d | Err e => Q (Err e) d end) ->
  (forall a, total (R a) (k a) Q) -> total P (m ≫= k) Q.
Proof.
  intros Hm Hk w Hw HP. destruct (Hm w Hw HP) as [Hf Hr]. unfold mbind, st_bind.
  destruct (m w) as [[a|e] w']; simpl in *; [by apply Hk | done].
Qed.

Lemma total_ret {E X} P (a : X) (Q : result X E -> Data -> Prop) :
  (forall d, P d -> Q (Ok a) d) -> total P (mret a) Q.
Proof. intros H w Hw HP. split; [done | by apply H]. Qed.

Lemma total_lift {E X} P (r : result X E) (Q : result X E -> Data -> Prop) :
  (forall d, P d -> Q r d) -> total P (st_lift r) Q.
Proof. intros H w Hw HP. split; [done | by apply H]. Qed.

Lemma total_gets {E X} P (f : World -> X) (Q : result X E -> Data -> Prop) :
  (forall w, P (w_data w) -> Q (Ok (f w)) (w_data w)) -> total P (st_gets f) Q.
Proof. intros H w Hw HP. split; [done | by apply H]. Qed.

Lemma total_db {X} P (call : Data -> result X str * Data) Q :
  (forall d, P d -> Q (fst (call d)) (snd (call d))) -> total P (db call) Q.
Proof.
  intros H w Hw HP. specialize (H _ HP). unfold db. rewrite Hw.
  by destruct (call (w_data w)).
Qed.

(** A partial-correctness fact strengthens a total one. *)
Lemma total_and {E X} P (m : ST World E X) Q Q' :
  total P m Q -> hoare P m Q' -> total P m (fun r d => Q r d /\ Q' r d).
Proof. intros H H' w Hw HP. destruct (H w Hw HP). split; [done|]. split; [done | by apply H']. Qed.

End hoare.

#[export] Hint Resolve keeps_bind keeps_ret keeps_lift keeps_gets keeps_read keeps_iter : wardnet.

(** Decompose a computation into the calls it makes. *)
Ltac keeps_step :=
  match goal with
  | |- forall _, _ => intro
  | |- keeps _ (mbind _ _) => apply keeps_bind
  | |- keeps _ (mret _) => apply keeps_ret
  | |- keeps _ (st_lift _) => apply keeps_lift
  | |- keeps _ (st_fail _) => apply (keeps_lift _ (Err _))
  | |- keeps _ (st_gets _) => apply keeps_gets
  | |- keeps _ (db_read _) => apply keeps_read
  | |- keeps _ (st_iter _ _) => apply keeps_iter
  | |- keeps _ (match ?x with _ => _ end) => destruct x
  end.

(** ** The table invariant *)

Section invariant.
Context {T : TimeLib} {TLaws : TimeLaws T}.
Implicit Types (row : DbLeaseRow) (rows : list DbLeaseRow) (d : Data).

Definition active_rows rows : list DbLeaseRow := filter (fun row => is_active_row row = true) rows.
Definition active_macs rows : list str := row_mac <$> active_rows rows.

Definition rfc_end row : Prop := exists e, row_lease_end row = to_rfc3339 e.

Record tables_ok (d : Data) : Prop := {
  ok_one : NoDup (active_macs (w_leases d));
  ok_ids : NoDup (row_id <$> w_leases d);
  ok_rows : Forall (fun row => is_ok (into_lease row) = true) (w_leases d);
  ok_ends : Forall rfc_end (w_leases d);
  ok_rmacs : NoDup (rr_mac <$> w_reservations d);
  ok_rips : NoDup (rr_ip <$> w_reservations d);
  ok_res : Forall (fun r => is_ok (into_reservation r) = true) (w_reservations d);
}.

(** What the update statements of the lease table do to a row. *)
Record row_update (f : DbLeaseRow -> DbLeaseRow) : Prop := {
  ru_mac row : row_mac (f row) = row_mac row;
  ru_id row : row_id (f row) = row_id row;
  ru_active row : is_active_row (f row) = true -> is_active_row row = true;
  ru_ok row : is_ok (into_lease row) = true -> is_ok (into_lease (f row)) = true;
  ru_end row : rfc_end row -> rfc_end (f row);
}.

Lemma update_where_active p f rows : row_update f ->
  active_macs (update_where p f rows) `sublist_of` active_macs rows.
Proof.
  intros [Hm _ Ha _ _]. unfold active_macs, active_rows, update_where.
  induction rows as [|row rows IH]; [done|]. rewrite fmap_cons, !filter_cons.
  destruct (p row).
  - destruct (is_active_row (f row)) eqn:E.
    + rewrite !decide_True by auto. rewrite !fmap_cons, Hm. by constructor.
    + rewrite decide_False by done. case_decide; [|done]. rewrite fmap_cons. by constructor.
  - case_decide; [|done]. rewrite !fmap_cons. by constructor.
Qed.

Lemma update_where_ids p f rows : row_update f ->
  row_id <$> update_where p f rows = row_id <$> rows.
Proof.
  intros [_ Hi _ _ _]. unfold update_where. rewrite <- list_fmap_compose.
  apply list_fmap_ext. intros i row _. simpl. case_match; [apply Hi | done].
Qed.

Lemma update_where_ok p f d : row_update f -> tables_ok d ->
  tables_ok (set_leases (update_where p f (w_leases d)) d).
Proof.
  intros Hf [H1 H2 H3 H7 H4 H5 H6]. split; simpl; try done.
  - eapply sublist_NoDup; [exact H1 | by apply update_where_active].
  - by rewrite update_where_ids.
  - unfold update_where. rewrite Forall_fmap. eapply Forall_impl; [exact H3|].
    intros row Hr. simpl. case_match; [by apply (ru_ok f Hf) | done].
  - unfold update_where. rewrite Forall_fmap. eapply Forall_impl; [exact H7|].
    intros row Hr. simpl. case_match; [by apply (ru_end f Hf) | done].
Qed.

Lemma into_lease_ok row : is_ok (into_lease row) = true <->
  is_ok (parse_status (row_status row)) = true /\ is_Some (parse_ipv4 (row_ip row))
  /\ is_Some (parse_time (row_lease_start row)) /\ is_Some (parse_time (row_lease_end row))
  /\ is_Some (parse_time (row_created_at row)) /\ is_Some (parse_time (row_updated_at row)).
Proof.
  unfold into_lease, parse_time_err, ok_or. split.
  - intros H. repeat case_match; try done; split_and!; eauto; done.
  - intros (Hs & [? ->] & [? ->] & [? ->] & [? ->] & [? ->]).
    by destruct (parse_status (row_status row)).
Qed.

Lemma set_row_status_update s now : is_ok (parse_status s) = true -> s <> of_string "active" ->
  row_update (set_row_status s now).
Proof.
  intros Hs Hne. split; try done.
  - intros row Ha. apply bool_decide_eq_true in Ha. done.
  - intros row (Hst & Hip & H1 & H2 & H3 & H4)%into_lease_ok. apply into_lease_ok. simpl.
    rewrite parse_format_z. by split_and!.
Qed.

Lemma set_row_end_update t now : row_update (set_row_end t now).
Proof.
  split; try done; [|intros row _; by exists t].
  intros row (Hst & Hip & H1 & H2 & H3 & H4)%into_lease_ok.
  apply into_lease_ok. simpl. rewrite parse_format_z, parse_rfc3339. by split_and!.
Qed.

Lemma set_row_hostname_update h now : row_update (set_row_hostname h now).
Proof.
  split; try done. intros row (Hst & Hip & H1 & H2 & H3 & H4)%into_lease_ok.
  apply into_lease_ok. simpl. rewrite parse_format_z. by split_and!.
Qed.

Lemma keeps_update_by_id id f : (forall now, row_update (f now)) ->
  keeps tables_ok (update_by_id id f).
Proof. intros Hf. apply keeps_write. intros d Hd. by apply update_where_ok. Qed.

Lemma keeps_update_lease_status id s : is_ok (parse_status s) = true -> s <> of_string "active" ->
  keeps tables_ok (update_lease_status id s).
Proof. intros. apply keeps_update_by_id. intros. by apply set_row_status_update. Qed.

Lemma keeps_repo_renew_lease id t : keeps tables_ok (repo_renew_lease id t).
Proof. apply keeps_update_by_id. intros. apply set_row_end_update. Qed.

Lemma keeps_update_lease_hostname id h : keeps tables_ok (update_lease_hostname id h).
Proof. apply keeps_update_by_id. intros. apply set_row_hostname_update. Qed.

Lemma keeps_expire_stale_leases : keeps tables_ok expire_stale_leases.
Proof.
  apply hoare_db; [|done]. intros d Hd. simpl. apply update_where_ok; [|done].
  by apply set_row_status_update.
Qed.

(** Statements on other tables. *)
Lemma tables_ok_ext d d' : w_leases d' = w_leases d -> w_reservations d' = w_reservations d ->
  tables_ok d -> tables_ok d'.
Proof. intros Hl Hr []. split; rewrite ?Hl, ?Hr; done. Qed.

Lemma keeps_insert_lease_log id mac ev det : keeps tables_ok (insert_lease_log id mac ev det).
Proof. apply keeps_write. intros d. by apply tables_ok_ext. Qed.

Lemma keeps_config_set k v : keeps tables_ok (config_set k v).
Proof. apply keeps_write. intros d. by apply tables_ok_ext. Qed.

Lemma keeps_set_managed id b : keeps tables_ok (set_managed id b).
Proof. apply keeps_write. intros d. by apply tables_ok_ext. Qed.

Lemma keeps_publish {E} e : keeps (E := E) tables_ok (publish e).
Proof. intros w H. simpl. by eapply tables_ok_ext; [..|exact H]. Qed.

Lemma keeps_delete_reservation_row id : keeps tables_ok (delete_reservation_row id).
Proof.
  apply keeps_write. intros d [H1 H2 H3 H7 H4 H5 H6]. split; simpl; try done.
  - by apply NoDup_filter_fmap.
  - by apply NoDup_filter_fmap.
  - rewrite Forall_forall in H6 |- *. intros r [_ Hr]%list_elem_of_filter. by apply H6.
Qed.

(** ** Inserts *)

Definition no_active_mac (mac : str) (d : Data) : Prop := mac ∉ active_macs (w_leases d).

Lemma insert_lease_ok r : is_Some (parse_ipv4 (li_ip r)) -> li_status r = of_string "active" ->
  hoare (fun d => tables_ok d /\ no_active_mac (to_lowercase (li_mac r)) d) (insert_lease r)
    (fun _ d => tables_ok d).
Proof.
  intros Hip Hst. apply hoare_db; [|by intros d e []]. intros d [[H1 H2 H3 H7 H4 H5 H6] Hno].
  destruct (existsb _ _) eqn:E; [by split|]. simpl. split; simpl; try done.
  - unfold active_macs, active_rows. rewrite filter_app, fmap_app. apply NoDup_app.
    split; [done|]. split.
    + intros mac Hin Hin'. rewrite filter_cons in Hin'. case_decide; [|set_solver].
      simpl in Hin'. apply list_elem_of_singleton in Hin' as ->. by apply Hno.
    + rewrite filter_cons. case_decide; [apply NoDup_singleton | constructor].
  - rewrite fmap_app. apply NoDup_app. split; [done|]. split; [|apply NoDup_singleton].
    intros i Hin Hin'. apply list_elem_of_singleton in Hin' as ->.
    apply list_elem_of_fmap in Hin as (row & Heq & Hrow). simpl in Heq.
    apply not_true_iff_false in E. apply E. apply existsb_exists. exists row.
    split; [by apply list_elem_of_In | by apply Z.eqb_eq].
  - apply Forall_app_2; [done|]. repeat constructor. apply into_lease_ok. simpl.
    rewrite Hst, !parse_rfc3339, !parse_format_z. by split_and!.
  - apply Forall_app_2; [done|]. repeat constructor. by eexists.
Qed.

Lemma insert_reservation_ok r : is_Some (parse_ipv4 (ri_ip r)) ->
  keeps tables_ok (insert_reservation r).
Proof.
  intros [ip Hip]. apply hoare_db; [|done]. intros d [H1 H2 H3 H7 H4 H5 H6].
  cbv zeta. destruct (existsb _ (w_reservations d)) eqn:E; [by split|].
  simpl in *. apply not_true_iff_false in E.
  assert (Hfresh : forall x, x ∈ w_reservations d ->
    rr_mac x <> to_lowercase (ri_mac r) /\ rr_ip x <> ri_ip r).
  { intros x Hx. split; intros Heq; apply E, existsb_exists; exists x;
      (split; [by apply list_elem_of_In|]); rewrite !orb_true_iff, !bool_decide_eq_true; auto. }
  split; simpl; try done.
  1, 2: rewrite fmap_app; apply NoDup_app; (split; [done|]); (split; [|apply NoDup_singleton]);
    intros i Hin Hin'; apply list_elem_of_singleton in Hin' as ->;
    apply list_elem_of_fmap in Hin as (x & Heq & Hx); apply Hfresh in Hx as []; simpl in *; congruence.
  apply Forall_app_2; [done|]. repeat constructor. unfold into_reservation, parse_time_err. simpl.
  by rewrite Hip, !parse_format_z.
Qed.

End invariant.

#[export] Hint Resolve keeps_repo_renew_lease keeps_update_lease_hostname
  keeps_expire_stale_leases keeps_insert_lease_log keeps_config_set keeps_set_managed
  keeps_publish keeps_delete_reservation_row : wardnet.
