(* ===== verification/DhcpService.v ===== *)
(** * The DHCP service

    [wardnetd-services/src/dhcp/service.rs]: configuration, scopes, leases and
    reservations.  An operation is a computation over the [World] of [DhcpRepo];
    an error keeps every write made before it.  Random UUIDs are arguments (the
    primary key rejects a repeated one), the clock is the world's.  JSON text
    and CIDR arithmetic are the interfaces [JsonLib] and [Ipv4NetworkLib]. *)

From S2P Require Import Prelude RustStr Net Auth DhcpRepo.

(** [serde_json] on [Vec<String>]. *)
Class JsonLib : Type := {
  json_strings : list str -> str;
  json_parse_strings : str -> option (list str);
}.

Class JsonLaws (J : JsonLib) : Prop := {
  json_roundtrip l : json_parse_strings (json_strings l) = Some l;
}.

Definition DEFAULT_UPSTREAM_DNS : list Ipv4Addr := [ipv4_new 1 1 1 1; ipv4_new 8 8 8 8].

(** [wardnet_common::net::PRIVATE_RANGE_HINT] *)
Definition PRIVATE_RANGE_HINT : str :=
  of_string "a private range (10.x, 172.16-31.x, or 192.168.x)".

Record UpdateDhcpConfigRequest : Type := {
  uc_pool_start : str;
  uc_pool_end : str;
  uc_subnet_mask : str;
  uc_upstream_dns : list str;
  uc_lease_duration_secs : Z;
  uc_router_ip : option str;
}.

Record CreateDhcpReservationRequest : Type := {
  cr_mac_address : str;
  cr_ip_address : str;
  cr_hostname : option str;
  cr_description : option str;
}.

Record DhcpStatusResponse : Type := {
  ds_enabled : bool;
  ds_running : bool;
  ds_active_lease_count : Z;
  ds_pool_total : Z;
  ds_pool_used : Z;
}.

Section service.
Context {T : TimeLib} {U : UuidLib} {J : JsonLib} {L : Ipv4NetworkLib}.

(** Wardnet's own LAN address and the caller. *)
Context (gateway_ip : Ipv4Addr) (ctx : option AuthContext).

Abbreviation Svc := (ST World AppError).

(** [.await.map_err(AppError::Internal)?] *)
Definition internal {X} (m : ST World str X) : Svc X := fun w =>
  match m w with
  | (Ok x, w') => (Ok x, w')
  | (Err e, w') => (Err (Internal e), w')
  end.

(** Inspecting a repository result without propagating its error. *)
Definition attempt {X} (m : ST World str X) : Svc (result X str) := fun w =>
  let '(r, w') := m w in (Ok r, w').

Definition guard_admin : Svc unit := st_lift (require_admin ctx).

Definition normalised_hostname (hostname : option str) : option str :=
  match hostname with
  | None => None
  | Some h => let h := trim h in if bool_decide (h = []) then None else Some h
  end.

(** ** Configuration *)

Definition parse_ip_or (msg : str) (s : str) : result Ipv4Addr AppError :=
  ok_or (parse_ipv4 s) (Internal msg).

Fixpoint parse_ips (ss : list str) : result (list Ipv4Addr) AppError :=
  match ss with
  | [] => Ok []
  | s :: ss' =>
      let? ip := parse_ip_or "invalid upstream_dns IP" s in
      let? ips := parse_ips ss' in Ok (ip :: ips)
  end.

Definition load_config : Svc DhcpConfig :=
  let '(g0, g1, g2, _) := octets gateway_ip in
  let prefix := show_u8 g0 ++ "." ++ show_u8 g1 ++ "." ++ show_u8 g2 in
  let default_pool_start := prefix ++ ".100" in
  let default_pool_end := prefix ++ ".250" in
  enabled ← internal (config_get "dhcp_enabled");
  let enabled := bool_decide (default (of_string "false") enabled = of_string "true") in
  start ← internal (config_get "dhcp_pool_start");
  pool_start ← st_lift (parse_ip_or "invalid pool_start" (default default_pool_start start));
  stop ← internal (config_get "dhcp_pool_end");
  pool_end ← st_lift (parse_ip_or "invalid pool_end" (default default_pool_end stop));
  mask ← internal (config_get "dhcp_subnet_mask");
  subnet_mask ← st_lift
    (parse_ip_or "invalid subnet_mask" (default (of_string "255.255.255.0") mask));
  dns_json ← internal (config_get "dhcp_upstream_dns");
  let dns_json := default (json_strings (show_ipv4 <$> DEFAULT_UPSTREAM_DNS)) dns_json in
  dns_strs ← st_lift (ok_or (json_parse_strings dns_json) (Internal "invalid upstream_dns"));
  upstream_dns ← st_lift (parse_ips dns_strs);
  duration ← internal (config_get "dhcp_lease_duration_secs");
  lease_duration_secs ← st_lift
    (ok_or (parse_uint U32_MAX (default (of_string "86400") duration))
       (Internal "invalid lease_duration_secs"));
  router ← internal (config_get "dhcp_router_ip");
  let router_ip_str := default [] router in
  router_ip ← (if bool_decide (router_ip_str = []) then mret None
               else ip ← st_lift (parse_ip_or "invalid router_ip" router_ip_str); mret (Some ip));
  mret {| dc_enabled := enabled; dc_gateway_ip := gateway_ip; dc_pool_start := pool_start;
          dc_pool_end := pool_end; dc_subnet_mask := subnet_mask; dc_upstream_dns := upstream_dns;
          dc_lease_duration_secs := lease_duration_secs; dc_router_ip := router_ip |}.

(** ** Scopes *)

(** Any error or missing row degrades to [None]. *)
Definition resolve_zone_for_mac (mac : str) : Svc (option ZoneRec) :=
  dev ← attempt (find_device_by_mac mac);
  match dev with
  | Ok (Some d) =>
      z ← attempt (find_zone_by_id (dev_zone_id d));
      match z with
      | Ok (Some zone) => mret (Some zone)
      | Ok None => mret None
      | Err _ => mret None
      end
  | Ok None =>
      z ← attempt find_default_for_new;
      match z with
      | Ok zone => mret (Some zone)
      | Err _ => mret None
      end
  | Err _ => mret None
  end.

Definition wardnet_dns_enabled : Svc bool :=
  v ← internal (config_get "dns_enabled");
  mret (bool_decide (default (of_string "false") v = of_string "true")).

Definition advertised_dns (enabled : bool) (scope_gateway : Ipv4Addr) (upstream : list Ipv4Addr)
    : list Ipv4Addr :=
  if enabled then [scope_gateway]
  else match upstream with
       | [] => DEFAULT_UPSTREAM_DNS
       | _ => upstream
       end.

Definition base_scope (base : DhcpConfig) (wardnet_dns : bool) : DhcpScope :=
  {| sc_gateway_ip := dc_gateway_ip base; sc_pool_start := dc_pool_start base;
     sc_pool_end := dc_pool_end base; sc_subnet_mask := dc_subnet_mask base;
     sc_dns := advertised_dns wardnet_dns (dc_gateway_ip base) (dc_upstream_dns base);
     sc_lease_duration_secs := dc_lease_duration_secs base; sc_router_ip := dc_router_ip base;
     sc_member_isolation := false; sc_subnet_prefix := None |}.

(** The scope of a zone, [None] where the code keeps the base scope. *)
Definition zone_scope (base : DhcpConfig) (wardnet_dns : bool) (zone : ZoneRec)
    : option DhcpScope :=
  cidr ← nz_subnet zone;
  net ← net_parse cidr;
  '(pool_start, pool_end) ← pool_bounds net;
  let gateway := gateway_for net in
  Some {| sc_gateway_ip := gateway; sc_pool_start := pool_start; sc_pool_end := pool_end;
          sc_subnet_mask := if nz_member_isolation zone then BROADCAST else net_mask net;
          sc_dns := advertised_dns wardnet_dns gateway (dc_upstream_dns base);
          sc_lease_duration_secs := dc_lease_duration_secs base; sc_router_ip := None;
          sc_member_isolation := nz_member_isolation zone;
          sc_subnet_prefix := Some (net_prefix net) |}.

(** The two reads of [try_join!], in one order. *)
Definition resolve_scope (mac : str) : Svc DhcpScope :=
  base ← load_config;
  wardnet_dns ← wardnet_dns_enabled;
  zone ← resolve_zone_for_mac mac;
  match zone with
  | None => mret (base_scope base wardnet_dns)
  | Some z => mret (default (base_scope base wardnet_dns) (zone_scope base wardnet_dns z))
  end.

(** ** Pools *)

Definition pool_size (start stop : Ipv4Addr) : Z := if start <=? stop then stop - start + 1 else 0.

(** [for ip_num in start..=end]: the first address not in use. *)
Fixpoint first_free (used : gset Z) (start : Z) (n : nat) : option Ipv4Addr :=
  match n with
  | O => None
  | S n' => if bool_decide (start ∈ used) then first_free used (start + 1) n' else Some start
  end.

Definition used_ips (leases : list DhcpLease) (reservations : list DhcpReservation) : gset Z :=
  list_to_set ((dl_ip_address <$> leases) ++ (dr_ip_address <$> reservations)).

Definition find_available_ip (pool_start pool_end : Ipv4Addr) : Svc Ipv4Addr :=
  active_leases ← internal list_active_leases;
  reservations ← internal list_reservations;
  let used := used_ips active_leases reservations in
  st_lift (ok_or (first_free used pool_start (Z.to_nat (pool_size pool_start pool_end)))
    (Conflict "DHCP pool exhausted - no available IP addresses")).

Definition ip_in_pool (ip pool_start pool_end : Ipv4Addr) : bool :=
  (pool_start <=? ip) && (ip <=? pool_end).

Definition parse_pool_range (pool_start pool_end : str) : result (Ipv4Addr * Ipv4Addr) AppError :=
  let? start := ok_or (parse_ipv4 pool_start) (BadRequest "invalid pool_start IP address") in
  let? stop := ok_or (parse_ipv4 pool_end) (BadRequest "invalid pool_end IP address") in
  if stop <? start then Err (BadRequest "pool_end must be >= pool_start")
  else if negb (is_private start) then Err (BadRequest ("pool_start must be " ++ PRIVATE_RANGE_HINT))
  else if negb (is_private stop) then Err (BadRequest ("pool_end must be " ++ PRIVATE_RANGE_HINT))
  else Ok (start, stop).

(** ** Leases against the configuration *)

Definition stale_detail (reservation : option DhcpReservation) (ip pool_start pool_end : Ipv4Addr)
    : str :=
  match reservation with
  | Some r => "superseded by reservation for " ++ show_ipv4 (dr_ip_address r)
  | None => "orphaned: ip " ++ show_ipv4 ip ++ " has no reservation and is outside pool "
            ++ show_ipv4 pool_start ++ "-" ++ show_ipv4 pool_end
  end.

Definition still_valid (reservation : option DhcpReservation) (ip pool_start pool_end : Ipv4Addr)
    : bool :=
  match reservation with
  | Some r => dr_ip_address r =? ip
  | None => ip_in_pool ip pool_start pool_end
  end.

Definition lease_if_still_valid (mac : str) (pool_start pool_end : Ipv4Addr)
    : Svc (option DhcpLease) :=
  found ← internal (find_active_lease_by_mac mac);
  match found with
  | None => mret None
  | Some existing =>
      reservation ← internal (find_reservation_by_mac mac);
      if still_valid reservation (dl_ip_address existing) pool_start pool_end
      then mret (Some existing)
      else
        _ ← internal (update_lease_status (dl_id existing) "expired");
        _ ← internal (insert_lease_log (dl_id existing) (dl_mac_address existing) "expired"
              (Some (stale_detail reservation (dl_ip_address existing) pool_start pool_end)));
        mret None
  end.

(** The last reservation of a MAC wins, as [collect] into a [HashMap]. *)
Definition reserved_map (rs : list DhcpReservation) : gmap str Ipv4Addr :=
  foldl (fun m r => <[dr_mac_address r := dr_ip_address r]> m) ∅ rs.

Definition is_stranded (reserved : gmap str Ipv4Addr) (pool_start pool_end : Ipv4Addr)
    (l : DhcpLease) : bool :=
  negb (ip_in_pool (dl_ip_address l) pool_start pool_end)
  && negb (bool_decide (reserved !! dl_mac_address l = Some (dl_ip_address l))).

Definition leases_outside_pool (pool_start pool_end : Ipv4Addr) : Svc (list DhcpLease) :=
  leases ← internal list_active_leases;
  reservations ← internal list_reservations;
  let reserved := reserved_map reservations in
  mret (filter (fun l => is_stranded reserved pool_start pool_end l = true) leases).

Definition revoke_stranded (pool_start pool_end : Ipv4Addr) (lease : DhcpLease) : Svc unit :=
  _ ← internal (update_lease_status (dl_id lease) "expired");
  internal (insert_lease_log (dl_id lease) (dl_mac_address lease) "expired"
    (Some ("out of range after pool change: ip " ++ show_ipv4 (dl_ip_address lease)
           ++ " outside " ++ show_ipv4 pool_start ++ "-" ++ show_ipv4 pool_end))).

Definition revoke_leases_outside_pool (pool_start pool_end : Ipv4Addr) : Svc Z :=
  stranded ← leases_outside_pool pool_start pool_end;
  _ ← st_iter (revoke_stranded pool_start pool_end) stranded;
  mret (Z.of_nat (length stranded)).

(** ** Administration *)

Definition get_config : Svc DhcpConfig := _ ← guard_admin; load_config.

Fixpoint check_dns (ss : list str) : result unit AppError :=
  match ss with
  | [] => Ok tt
  | s :: ss' =>
      match parse_ipv4 s with
      | Some _ => check_dns ss'
      | None => Err (BadRequest ("invalid upstream DNS address: " ++ s))
      end
  end.

Definition check_router (router : option str) : result unit AppError :=
  match router with
  | None => Ok tt
  | Some s =>
      match parse_ipv4 s with
      | None => Err (BadRequest "invalid router_ip address")
      | Some ip => if negb (is_private ip)
                   then Err (BadRequest ("router_ip must be " ++ PRIVATE_RANGE_HINT))
                   else Ok tt
      end
  end.

(** The validation of an update, before anything is stored. *)
Definition validate_update (req : UpdateDhcpConfigRequest)
    : result (Ipv4Addr * Ipv4Addr) AppError :=
  let? range := parse_pool_range (uc_pool_start req) (uc_pool_end req) in
  let? mask := ok_or (parse_ipv4 (uc_subnet_mask req)) (BadRequest "invalid subnet_mask IP address") in
  let? dns := check_dns (uc_upstream_dns req) in
  let? router := check_router (uc_router_ip req) in
  Ok range.

(** The seven writes of an update, in order. *)
Definition update_writes (req : UpdateDhcpConfigRequest) : list (str * str) :=
  [(of_string "dhcp_pool_start", uc_pool_start req);
   (of_string "dhcp_pool_end", uc_pool_end req);
   (of_string "dhcp_subnet_mask", uc_subnet_mask req);
   (of_string "dhcp_upstream_dns", json_strings (uc_upstream_dns req));
   (of_string "dhcp_lease_duration_secs", show_u32 (uc_lease_duration_secs req));
   (of_string "dhcp_router_ip", default [] (uc_router_ip req));
   (of_string "garp_router_mac", [])].

Definition update_config (req : UpdateDhcpConfigRequest) : Svc DhcpConfig :=
  _ ← guard_admin;
  range ← st_lift (validate_update req);
  _ ← st_iter (fun kv => internal (config_set (fst kv) (snd kv))) (update_writes req);
  _ ← revoke_leases_outside_pool (fst range) (snd range);
  load_config.

Definition preview_config (pool_start pool_end : str) : Svc (list DhcpLease) :=
  _ ← guard_admin;
  range ← st_lift (parse_pool_range pool_start pool_end);
  leases_outside_pool (fst range) (snd range).

Definition toggle (enabled : bool) : Svc DhcpConfig :=
  _ ← guard_admin;
  _ ← internal (config_set "dhcp_enabled"
        (if enabled then of_string "true" else of_string "false"));
  load_config.

Definition list_leases : Svc (list DhcpLease) := _ ← guard_admin; internal list_active_leases.

Definition revoke_lease (id : Z) : Svc str :=
  _ ← guard_admin;
  found ← internal (find_lease_by_id id);
  lease ← st_lift (ok_or found (NotFound ("lease " ++ show_uuid id ++ " not found")));
  if negb (bool_decide (dl_status lease = Active))
  then st_fail (BadRequest "lease is not active")
  else
    _ ← internal (update_lease_status id "released");
    _ ← internal (insert_lease_log id (dl_mac_address lease) "released"
          (Some (of_string "admin revoked")));
    mret ("lease " ++ show_uuid id ++ " revoked").

Definition svc_list_reservations : Svc (list DhcpReservation) :=
  _ ← guard_admin; internal list_reservations.

Definition create_reservation (id : Z) (req : CreateDhcpReservationRequest)
    : Svc (DhcpReservation * str) :=
  _ ← guard_admin;
  let mac := cr_mac_address req in
  _ ← st_lift (ok_or (parse_ipv4 (cr_ip_address req)) (BadRequest "invalid ip_address"));
  by_mac ← internal (find_reservation_by_mac mac);
  match by_mac with
  | Some _ => st_fail (Conflict ("reservation for MAC " ++ mac ++ " already exists"))
  | None =>
      by_ip ← internal (find_reservation_by_ip (cr_ip_address req));
      match by_ip with
      | Some _ => st_fail (Conflict ("reservation for IP " ++ cr_ip_address req ++ " already exists"))
      | None =>
          _ ← internal (insert_reservation
                {| ri_id := id; ri_mac := mac; ri_ip := cr_ip_address req;
                   ri_hostname := cr_hostname req; ri_description := cr_description req |});
          device ← internal (find_device_by_mac mac);
          _ ← (match device with
               | Some d => internal (set_managed (dev_id d) true)
               | None => mret tt
               end);
          found ← internal (find_reservation_by_mac mac);
          reservation ← st_lift (ok_or found (Internal "reservation not found after insert"));
          mret (reservation, of_string "reservation created")
      end
  end.

Definition delete_reservation (id : Z) : Svc str :=
  _ ← guard_admin;
  reservations ← internal list_reservations;
  if negb (existsb (fun r => dr_id r =? id) reservations)
  then st_fail (NotFound ("reservation " ++ show_uuid id ++ " not found"))
  else
    _ ← internal (delete_reservation_row id);
    mret ("reservation " ++ show_uuid id ++ " deleted").

Definition status : Svc DhcpStatusResponse :=
  _ ← guard_admin;
  config ← load_config;
  leases ← internal list_active_leases;
  reservations ← internal list_reservations;
  let pool_total := pool_size (dc_pool_start config) (dc_pool_end config) in
  let reservations_in_pool :=
    Z.of_nat (length (filter (fun r =>
      ip_in_pool (dr_ip_address r) (dc_pool_start config) (dc_pool_end config) = true)
      reservations)) in
  mret {| ds_enabled := dc_enabled config; ds_running := dc_enabled config;
          ds_active_lease_count := Z.of_nat (length leases); ds_pool_total := pool_total;
          ds_pool_used := Z.of_nat (length leases) + reservations_in_pool |}.

(** ** Runtime *)

Definition set_hostname (h : option str) (l : DhcpLease) : DhcpLease :=
  {| dl_id := dl_id l; dl_mac_address := dl_mac_address l; dl_ip_address := dl_ip_address l;
     dl_hostname := h; dl_lease_start := dl_lease_start l; dl_lease_end := dl_lease_end l;
     dl_status := dl_status l; dl_device_id := dl_device_id l;
     dl_created_at := dl_created_at l; dl_updated_at := dl_updated_at l |}.

(** The new name, when the client sent one that differs. *)
Definition changed_hostname (hostname : option str) (existing : DhcpLease) : option str :=
  match hostname with
  | Some new_h => if bool_decide (dl_hostname existing = Some new_h) then None else Some new_h
  | None => None
  end.

(** The reuse branch of [assign_lease]. *)
Definition reuse_lease (mac : str) (hostname : option str) (existing : DhcpLease)
    : Svc DhcpLease :=
  match changed_hostname hostname existing with
  | None => mret existing
  | Some new_h =>
      _ ← internal (update_lease_hostname (dl_id existing) (Some new_h));
      _ ← internal (insert_lease_log (dl_id existing) mac "assigned"
            (Some ("hostname updated: " ++ default (of_string "<none>") (dl_hostname existing)
                   ++ " -> " ++ new_h)));
      let existing := set_hostname (Some new_h) existing in
      now ← utc_now;
      _ ← publish (DhcpLeaseAssigned (dl_id existing) mac (show_ipv4 (dl_ip_address existing))
            (dl_hostname existing) now);
      mret existing
  end.

(** A zone scope honours only reservations inside its subnet. *)
Definition reservation_compatible (scope : DhcpScope) (r : DhcpReservation) : bool :=
  match sc_subnet_prefix scope with
  | Some prefix =>
      match net_new (sc_gateway_ip scope) prefix with
      | Some net => net_contains net (dr_ip_address r)
      | None => true
      end
  | None => true
  end.

(** The reserved address when the reservation is honoured, else the pool's. *)
Definition choose_ip (scope : DhcpScope) (found : option DhcpReservation) : Svc Ipv4Addr :=
  match (match found with
         | Some r => if reservation_compatible scope r then Some r else None
         | None => None
         end) with
  | Some r => mret (dr_ip_address r)
  | None => find_available_ip (sc_pool_start scope) (sc_pool_end scope)
  end.

(** The allocation branch of [assign_lease]. *)
Definition allocate_lease (id : Z) (scope : DhcpScope) (mac : str) (hostname : option str)
    : Svc DhcpLease :=
  found ← internal (find_reservation_by_mac mac);
  ip ← choose_ip scope found;
  now ← utc_now;
  let lease_end := now + sc_lease_duration_secs scope * NANOS_PER_SEC in
  _ ← internal (insert_lease
        {| li_id := id; li_mac := mac; li_ip := show_ipv4 ip; li_hostname := hostname;
           li_lease_start := now; li_lease_end := lease_end; li_status := of_string "active";
           li_device_id := None |});
  _ ← internal (insert_lease_log id mac "assigned"
        ((fun h => "hostname: " ++ h) <$> hostname));
  _ ← publish (DhcpLeaseAssigned id mac (show_ipv4 ip) hostname now);
  created ← internal (find_lease_by_id id);
  st_lift (ok_or created (Internal "lease not found after insert")).

Definition assign_lease (id : Z) (mac : str) (hostname : option str) : Svc DhcpLease :=
  _ ← guard_admin;
  let hostname := normalised_hostname hostname in
  scope ← resolve_scope mac;
  valid ← lease_if_still_valid mac (sc_pool_start scope) (sc_pool_end scope);
  match valid with
  | Some existing => reuse_lease mac hostname existing
  | None => allocate_lease id scope mac hostname
  end.

(** The extension branch of [renew_lease]. *)
Definition extend_lease (scope : DhcpScope) (mac : str) (hostname : option str)
    (existing : DhcpLease) : Svc DhcpLease :=
  now ← utc_now;
  let new_end := now + sc_lease_duration_secs scope * NANOS_PER_SEC in
  _ ← internal (repo_renew_lease (dl_id existing) new_end);
  let changed := changed_hostname hostname existing in
  _ ← (match changed with
       | Some new_h => internal (update_lease_hostname (dl_id existing) (Some new_h))
       | None => mret tt
       end);
  let existing := match changed with
                  | Some new_h => set_hostname (Some new_h) existing
                  | None => existing
                  end in
  let details := match changed with
                 | Some new_h => "new expiry: " ++ display_time new_end ++ "; hostname: " ++ new_h
                 | None => "new expiry: " ++ display_time new_end
                 end in
  _ ← internal (insert_lease_log (dl_id existing) mac "renewed" (Some details));
  _ ← publish (DhcpLeaseRenewed (dl_id existing) mac (show_ipv4 (dl_ip_address existing))
        (dl_hostname existing) new_end now);
  found ← internal (find_lease_by_id (dl_id existing));
  st_lift (ok_or found (Internal "lease not found after renew")).

Definition renew_lease (id : Z) (mac : str) (hostname : option str) : Svc DhcpLease :=
  _ ← guard_admin;
  let hostname := normalised_hostname hostname in
  scope ← resolve_scope mac;
  valid ← lease_if_still_valid mac (sc_pool_start scope) (sc_pool_end scope);
  match valid with
  | Some existing => extend_lease scope mac hostname existing
  | None => assign_lease id mac hostname
  end.

Definition release_lease (mac : str) : Svc unit :=
  _ ← guard_admin;
  found ← internal (find_active_lease_by_mac mac);
  match found with
  | None => mret tt
  | Some lease =>
      _ ← internal (update_lease_status (dl_id lease) "released");
      internal (insert_lease_log (dl_id lease) (dl_mac_address lease) "released"
        (Some (of_string "client DHCPRELEASE")))
  end.

Definition active_lease (mac : str) : Svc (option DhcpLease) :=
  _ ← guard_admin; internal (find_active_lease_by_mac mac).

Definition cleanup_expired : Svc Z := _ ← guard_admin; internal expire_stale_leases.

Definition get_dhcp_config : Svc DhcpConfig := _ ← guard_admin; load_config.

Definition scope_for_mac (mac : str) : Svc DhcpScope := _ ← guard_admin; resolve_scope mac.

End service.

(** ** Which calls keep the tables *)

Section keeping.
Context {T : TimeLib} {TLaws : TimeLaws T} {U : UuidLib} {J : JsonLib} {L : Ipv4NetworkLib}.

Lemma hoare_internal {X} P (m : ST World str X) Q :
  hoare P m (fun r d => Q (match r with Ok x => Ok x | Err e => Err (Internal e) end) d) ->
  hoare P (internal m) Q.
Proof.
  intros H w HP. specialize (H w HP). unfold internal. by destruct (m w) as [[] ?].
Qed.

Lemma keeps_internal {X} P (m : ST World str X) : keeps P m -> keeps P (internal m).
Proof. intros H. by apply hoare_internal. Qed.

Lemma keeps_attempt {X} P (m : ST World str X) : keeps P m -> keeps P (attempt m).
Proof. intros H w HP. specialize (H w HP). unfold attempt. by destruct (m w). Qed.

End keeping.

#[export] Hint Resolve keeps_internal keeps_attempt : wardnet.

(** Decompose a service operation down to the statements it issues. *)
Ltac svc_keeps :=
  repeat first
    [ keeps_step
    | match goal with
      | |- keeps _ (internal _) => apply keeps_internal
      | |- keeps _ (attempt _) => apply keeps_attempt
      | |- keeps _ (config_get _) => apply keeps_read
      | |- keeps _ (utc_now) => apply keeps_gets
      end ];
  eauto with wardnet.

Section laws.
Context {T : TimeLib} {TLaws : TimeLaws T} {U : UuidLib} {J : JsonLib} {L : Ipv4NetworkLib}.
Context (gateway_ip : Ipv4Addr) (ctx : option AuthContext).

Lemma keeps_load_config P : keeps P (load_config gateway_ip).
Proof. unfold load_config. destruct (octets gateway_ip) as [[[g0 g1] g2] g3]. svc_keeps. Qed.

Lemma keeps_resolve_scope P mac : keeps P (resolve_scope gateway_ip mac).
Proof.
  unfold resolve_scope, wardnet_dns_enabled, resolve_zone_for_mac.
  apply keeps_bind; [apply keeps_load_config|]. svc_keeps.
Qed.

Lemma keeps_find_available_ip P a b : keeps P (find_available_ip a b).
Proof. unfold find_available_ip. svc_keeps. Qed.

Lemma keeps_leases_outside_pool P a b : keeps P (leases_outside_pool a b).
Proof. unfold leases_outside_pool. svc_keeps. Qed.

Lemma keeps_guard P : keeps P (guard_admin ctx).
Proof. apply keeps_lift. Qed.

Lemma into_lease_id row lease : into_lease row = Ok lease ->
  dl_id lease = row_id row /\ dl_mac_address lease = row_mac row.
Proof. unfold into_lease. intros. by repeat case_match; simplify_eq/=. Qed.

Lemma into_lease_ip row l : into_lease row = Ok l -> parse_ipv4 (row_ip row) = Some (dl_ip_address l).
Proof. unfold into_lease, ok_or. intros. by repeat case_match; simplify_eq/=. Qed.

(** ** One client's operations leave the others alone *)

(** The rows of every other MAC. *)
Definition others (mac : str) (d : Data) : list DbLeaseRow :=
  filter (fun row => row_mac row <> to_lowercase mac) (w_leases d).

(** Rows carrying [id] belong to [mac]. *)
Definition owned (id : Z) (mac : str) (d : Data) : Prop :=
  forall row, row ∈ w_leases d -> row_id row = id -> row_mac row = to_lowercase mac.

(** The client [mac] holds [lease] in the table. *)
Definition holds (mac : str) (lease : DhcpLease) (d : Data) : Prop :=
  exists row, row ∈ active_rows (w_leases d) /\ row_mac row = to_lowercase mac
    /\ row_id row = dl_id lease /\ parse_ipv4 (row_ip row) = Some (dl_ip_address lease).

(** Ghost: what the other clients and the reservations looked like before. *)
Record framed (mac : str) (X : list DbLeaseRow) (R : list DbReservationRow) (d : Data) : Prop := {
  fr_ok : tables_ok d;
  fr_others : others mac d = X;
  fr_res : w_reservations d = R;
}.

Lemma others_update mac id f d : row_update f -> owned id mac d ->
  others mac (set_leases (update_where (fun row => row_id row =? id) f (w_leases d)) d)
  = others mac d.
Proof.
  intros Hf. unfold others, owned, update_where. simpl. induction (w_leases d) as [|row rows IH];
    intros Ho; [done|]. rewrite fmap_cons, !filter_cons.
  rewrite IH by (intros; apply Ho; set_solver).
  destruct (Z.eqb_spec (row_id row) id) as [E|E]; [|done].
  assert (Hm : row_mac row = to_lowercase mac) by (apply Ho; set_solver).
  rewrite !decide_False; [done | |]; rewrite ?(ru_mac f Hf), Hm; naive_solver.
Qed.

Lemma owned_update id' mac id f d : row_update f -> owned id' mac d ->
  owned id' mac (set_leases (update_where (fun row => row_id row =? id) f (w_leases d)) d).
Proof.
  intros Hf Ho row Hin Hid. simpl in Hin. apply list_elem_of_fmap in Hin as (r & -> & Hr).
  specialize (Ho r Hr). destruct (row_id r =? id); [|by apply Ho].
  rewrite (ru_id f Hf) in Hid. rewrite (ru_mac f Hf). by apply Ho.
Qed.

(** Updates that keep a row active keep its holder. *)
Record keeps_active (f : DbLeaseRow -> DbLeaseRow) : Prop := {
  ka_status row : row_status (f row) = row_status row;
  ka_ip row : row_ip (f row) = row_ip row;
}.

Lemma holds_update mac lease id f d : row_update f -> keeps_active f -> holds mac lease d ->
  holds mac lease (set_leases (update_where (fun row => row_id row =? id) f (w_leases d)) d).
Proof.
  intros Hf [Hs Hi] (row & [Ha Hin]%list_elem_of_filter & Hm & Hid & Hip).
  exists (if row_id row =? id then f row else row). unfold active_rows. rewrite list_elem_of_filter.
  simpl. unfold is_active_row in *. split.
  - split; [case_match; [by rewrite Hs | done]|]. unfold update_where.
    apply list_elem_of_fmap. by exists row.
  - case_match; [|done]. by rewrite (ru_mac f Hf), (ru_id f Hf), Hi.
Qed.

(** The invariant of the branches that work on a known lease. *)
Definition working (mac : str) (X : list DbLeaseRow) (R : list DbReservationRow)
    (lease : DhcpLease) (d : Data) : Prop :=
  framed mac X R d /\ owned (dl_id lease) mac d /\ holds mac lease d.

Lemma keeps_working_update mac X R lease f : (forall now, row_update (f now)) ->
  (forall now, keeps_active (f now)) ->
  keeps (working mac X R lease) (update_by_id (dl_id lease) f).
Proof.
  intros Hf Ha. apply keeps_write. intros d ([Hok Ho Hr] & Hown & Hh).
  split; [|split; [by apply owned_update | by apply holds_update]].
  split; [by apply update_where_ok | by rewrite others_update | done].
Qed.

Lemma working_ext mac X R lease d d' : w_leases d' = w_leases d ->
  w_reservations d' = w_reservations d -> working mac X R lease d -> working mac X R lease d'.
Proof.
  intros Hl Hr ([Hok Ho Hres] & Hown & Hh). unfold working, owned, holds. rewrite Hl.
  split; [|done]. split; [by eapply tables_ok_ext | unfold others; by rewrite Hl | congruence].
Qed.

Lemma keeps_working_log mac X R lease id m ev det :
  keeps (working mac X R lease) (insert_lease_log id m ev det).
Proof. apply keeps_write. intros d. by apply working_ext. Qed.

Lemma keeps_working_publish {E} mac X R lease e :
  keeps (E := E) (working mac X R lease) (publish e).
Proof. intros w. by apply working_ext. Qed.

Lemma working_set_hostname mac X R lease h d :
  working mac X R lease d -> working mac X R (set_hostname h lease) d.
Proof. done. Qed.

Lemma found_working mac X R lease row d : framed mac X R d ->
  row ∈ active_rows (w_leases d) -> row_mac row = to_lowercase mac -> into_lease row = Ok lease ->
  working mac X R lease d.
Proof.
  intros Hfr Hrow Hm Hl. destruct (into_lease_id _ _ Hl) as [Hid _]. split; [done|]. split.
  - intros r Hr Heq. rewrite Hid in Heq. rewrite <- Hm. f_equal.
    apply (NoDup_fmap_elem_inj row_id (w_leases d));
      [apply (ok_ids d (fr_ok _ _ _ _ Hfr)) | done | | done].
    by apply list_elem_of_filter in Hrow as [].
  - exists row. split; [done|]. split; [done|]. split; [done|]. by apply into_lease_ip.
Qed.

(** ** Expiring a lease that no longer fits *)

Lemma no_active_after_update status mac row d : status <> of_string "active" -> tables_ok d ->
  row ∈ active_rows (w_leases d) -> row_mac row = mac ->
  no_active_mac mac
    (set_leases (update_where (fun r => row_id r =? row_id row)
       (set_row_status status (w_now d)) (w_leases d)) d).
Proof.
  intros Hst Hok Hrow Hmac Hin. unfold active_macs in Hin.
  apply list_elem_of_fmap in Hin as (r' & -> & Hr'). simpl in Hr'.
  apply list_elem_of_filter in Hr' as [Hact Hr'].
  apply list_elem_of_fmap in Hr' as (r & -> & Hr).
  destruct (Z.eqb_spec (row_id r) (row_id row)) as [E|E];
    [by apply bool_decide_eq_true in Hact|].
  apply E. f_equal. apply (NoDup_fmap_elem_inj row_mac (active_rows (w_leases d)));
    [apply (ok_one d Hok) | by apply list_elem_of_filter | done | done].
Qed.

Lemma find_active_row mac d lease :
  transpose into_lease (List.find
    (fun row => bool_decide (row_mac row = to_lowercase mac) && is_active_row row) (w_leases d))
  = Ok (Some lease) ->
  exists row, row ∈ active_rows (w_leases d) /\ row_mac row = to_lowercase mac
    /\ into_lease row = Ok lease.
Proof.
  destruct (List.find _ _) as [row|] eqn:E; [|done]. apply find_Some_elem in E as [Hin Hf].
  breflect. unfold transpose. destruct (into_lease row) as [l|e] eqn:El; [|done].
  intros [= <-]. exists row. split; [by apply list_elem_of_filter | done].
Qed.

Lemma find_no_active_row mac d :
  transpose into_lease (List.find
    (fun row => bool_decide (row_mac row = to_lowercase mac) && is_active_row row) (w_leases d))
  = Ok None -> no_active_mac (to_lowercase mac) d.
Proof.
  destruct (List.find _ _) as [row|] eqn:E.
  { unfold transpose. by destruct (into_lease row). }
  intros _ Hin. apply list_elem_of_fmap in Hin as (row & Hm & [Ha Hr]%list_elem_of_filter).
  pose proof (find_None_elem _ _ row E Hr) as H. simpl in H.
  by rewrite bool_decide_eq_true_2, Ha in H.
Qed.

(** The reservation row of a MAC, decoded. *)
Definition res_lookup (mac : str) (R : list DbReservationRow) : result (option DhcpReservation) str :=
  transpose into_reservation
    (List.find (fun x => bool_decide (rr_mac x = to_lowercase mac)) R).

Definition valid_spec (mac : str) X R (a b : Ipv4Addr)
    (r : result (option DhcpLease) AppError) (d : Data) : Prop :=
  match r with
  | Ok None => no_active_mac (to_lowercase mac) d
  | Ok (Some l) =>
      working mac X R l d
      /\ exists res, res_lookup mac R = Ok res /\ still_valid res (dl_ip_address l) a b = true
  | Err _ => True
  end.

Lemma keeps_framed_log mac X R id m ev det : keeps (framed mac X R) (insert_lease_log id m ev det).
Proof.
  apply keeps_write. intros d [Hok Ho Hr].
  split; [by eapply tables_ok_ext; [..|exact Hok] | done | done].
Qed.

Lemma lease_if_still_valid_spec mac a b X R :
  hoare (framed mac X R) (lease_if_still_valid mac a b)
    (fun r d => framed mac X R d /\ valid_spec mac X R a b r d).
Proof.
  unfold lease_if_still_valid.
  eapply (hoare_bind _ _ _ (fun found d => framed mac X R d /\ transpose into_lease (List.find
    (fun row => bool_decide (row_mac row = to_lowercase mac) && is_active_row row) (w_leases d))
    = Ok found)).
  { apply hoare_internal, hoare_db; [|done]. intros d Hd. simpl. by destruct (transpose _ _). }
  intros [existing|].
  2: { apply hoare_ret. intros d [Hd Hf]. split; [done|]. by apply find_no_active_row. }
  eapply (hoare_bind _ _ _ (fun res d => framed mac X R d /\
    (exists row, row ∈ active_rows (w_leases d) /\ row_mac row = to_lowercase mac
      /\ into_lease row = Ok existing) /\ res_lookup mac R = Ok res)).
  { apply hoare_internal, hoare_db; [|by intros d e []]. intros d [Hd Hf%find_active_row]. simpl.
    rewrite (fr_res _ _ _ _ Hd). fold (res_lookup mac R). by destruct (res_lookup mac R). }
  intros res. destruct (still_valid _ _ _ _) eqn:Hv.
  { apply hoare_ret. intros d (Hd & (row & Hrow & Hm & Hl) & Hres). split; [done|].
    split; [by eapply found_working | by exists res]. }
  eapply (hoare_bind _ _ _ (fun _ d => framed mac X R d /\ no_active_mac (to_lowercase mac) d)).
  - apply hoare_internal, hoare_db; [|by intros d e []].
    intros d (Hd & (row & Hrow & Hm & Hl) & _). simpl.
    destruct (found_working _ _ _ _ _ _ Hd Hrow Hm Hl) as (_ & Hown & _).
    destruct (into_lease_id _ _ Hl) as [Hid _]. destruct Hd as [Hok Ho Hr].
    assert (Hup : row_update (set_row_status "expired" (w_now d)))
      by (by apply set_row_status_update).
    split; [|rewrite Hid; by apply no_active_after_update].
    split; [by apply update_where_ok | by rewrite others_update | done].
  - intros _. eapply (hoare_bind _ _ _ (fun _ d => framed mac X R d /\ no_active_mac (to_lowercase mac) d)).
    + apply hoare_internal, hoare_db; [|by intros d e []]. intros d [Hd Hn]. simpl.
      split; [|done]. destruct Hd as [Hok Ho Hr].
      split; [by eapply tables_ok_ext; [..|exact Hok] | done | done].
    + intros _. apply hoare_ret. by intros d [].
Qed.

Lemma framed_intro mac d : tables_ok d -> framed mac (others mac d) (w_reservations d) d.
Proof. by split. Qed.

(** ** Every operation keeps the tables *)

Lemma keeps_choose_ip P scope found : keeps P (choose_ip scope found).
Proof. unfold choose_ip. case_match; [apply keeps_ret | apply keeps_find_available_ip]. Qed.

Lemma keeps_allocate_lease id scope mac h :
  hoare (fun d => tables_ok d /\ no_active_mac (to_lowercase mac) d)
    (allocate_lease id scope mac h) (fun _ d => tables_ok d).
Proof.
  unfold allocate_lease. set (I := fun d => tables_ok d /\ no_active_mac (to_lowercase mac) d).
  assert (HI : forall X (m : ST World AppError X), keeps I m ->
    hoare I m (fun r d => match r with Ok _ => I d | Err _ => tables_ok d end)).
  { intros X m Hm. apply hoare_keeps; [done|]. by intros [] d []. }
  eapply (hoare_bind _ _ _ (fun _ => I)); [apply HI; svc_keeps|].
  intros found. eapply (hoare_bind _ _ _ (fun _ => I)).
  { apply HI, keeps_choose_ip. }
  intros ip. eapply (hoare_bind _ _ _ (fun _ => I)); [apply HI, keeps_gets|].
  intros now. eapply (hoare_bind _ _ _ (fun _ => tables_ok)).
  - apply hoare_internal. eapply hoare_conseq; [apply insert_lease_ok | done |]; try done.
    + apply parse_show_ipv4_some.
    + by intros [] d.
  - intros _. apply (keeps_bind tables_ok); svc_keeps.
Qed.

Lemma keeps_reuse_lease mac h l : keeps tables_ok (reuse_lease mac h l).
Proof. unfold reuse_lease. svc_keeps. Qed.

Lemma keeps_lease_if_still_valid mac a b : keeps tables_ok (lease_if_still_valid mac a b).
Proof.
  intros w Hw. by apply (lease_if_still_valid_spec mac a b _ _ w (framed_intro mac _ Hw)).
Qed.

Lemma keeps_assign_lease id mac h : keeps tables_ok (assign_lease gateway_ip ctx id mac h).
Proof.
  unfold assign_lease. apply keeps_bind; [apply keeps_guard|]. intros _.
  apply keeps_bind; [apply keeps_resolve_scope|]. intros scope.
  eapply (hoare_bind _ _ _ (fun v d => tables_ok d /\
    (v = None -> no_active_mac (to_lowercase mac) d))).
  - intros w Hw. destruct (lease_if_still_valid_spec mac (sc_pool_start scope) (sc_pool_end scope)
      _ _ w (framed_intro mac _ Hw)) as [[Hok _ _] Hv].
    destruct (fst _) as [v|e]; [|done]. split; [done|]. by intros ->.
  - intros [l|].
    + eapply hoare_conseq; [apply keeps_reuse_lease | by intros d [] | done].
    + eapply hoare_conseq; [apply keeps_allocate_lease | | done]. intros d [Hd Hn].
      split; [done | by apply Hn].
Qed.

Lemma keeps_renew_lease id mac h : keeps tables_ok (renew_lease gateway_ip ctx id mac h).
Proof.
  unfold renew_lease. apply keeps_bind; [apply keeps_guard|]. intros _.
  apply keeps_bind; [apply keeps_resolve_scope|]. intros scope.
  apply keeps_bind; [apply keeps_lease_if_still_valid|]. intros [l|]; [|apply keeps_assign_lease].
  unfold extend_lease. svc_keeps.
Qed.

Lemma keeps_release_lease mac : keeps tables_ok (release_lease ctx mac).
Proof.
  unfold release_lease. apply keeps_bind; [apply keeps_guard|]. svc_keeps.
  by apply keeps_update_lease_status.
Qed.

Lemma keeps_revoke_lease id : keeps tables_ok (revoke_lease ctx id).
Proof.
  unfold revoke_lease. apply keeps_bind; [apply keeps_guard|]. svc_keeps.
  by apply keeps_update_lease_status.
Qed.

Lemma keeps_update_config req : keeps tables_ok (update_config gateway_ip ctx req).
Proof.
  unfold update_config. apply keeps_bind; [apply keeps_guard|]. intros _.
  apply keeps_bind; [apply keeps_lift|]. intros range.
  apply keeps_bind; [svc_keeps|]. intros _.
  apply keeps_bind; [|intros; apply keeps_load_config].
  unfold revoke_leases_outside_pool, revoke_stranded.
  apply keeps_bind; [apply keeps_leases_outside_pool|]. svc_keeps.
  by apply keeps_update_lease_status.
Qed.

Lemma keeps_create_reservation id req : keeps tables_ok (create_reservation ctx id req).
Proof.
  unfold create_reservation. apply keeps_bind; [apply keeps_guard|]. intros _.
  destruct (parse_ipv4 (cr_ip_address req)) as [ip|] eqn:E.
  - apply keeps_bind; [apply keeps_lift|]. intros _. svc_keeps.
    apply insert_reservation_ok. simpl. by rewrite E.
  - intros w Hw. done.
Qed.

(** ** Allocation from the pool *)

Lemma first_free_Some used n : forall start ip, first_free used start n = Some ip ->
  start <= ip < start + Z.of_nat n /\ (ip ∉ used) /\ forall j, start <= j < ip -> j ∈ used.
Proof.
  induction n as [|n IH]; intros start ip; simpl; [done|]. case_bool_decide as Hu.
  - intros (Hr & Hf & Hall)%IH. split; [lia|]. split; [done|]. intros j Hj.
    destruct (decide (j = start)) as [->|]; [done | apply Hall; lia].
  - intros [= <-]. split; [lia|]. split; [done|]. lia.
Qed.

Lemma first_free_None used n : forall start, first_free used start n = None ->
  forall j, start <= j < start + Z.of_nat n -> j ∈ used.
Proof.
  induction n as [|n IH]; intros start; simpl; [lia|]. case_bool_decide as Hu; [|done].
  intros H j Hj. destruct (decide (j = start)) as [->|]; [done | apply (IH (start + 1) H); lia].
Qed.

Lemma pool_size_range a b ip : a <= ip < a + Z.of_nat (Z.to_nat (pool_size a b)) <->
  ip_in_pool ip a b = true.
Proof.
  unfold pool_size, ip_in_pool. rewrite andb_true_iff, !Z.leb_le.
  destruct (Z.leb_spec a b); lia.
Qed.

Lemma collect_elem {X Y} (f : X -> result Y str) l ys : collect f l = Ok ys ->
  forall y, y ∈ ys <-> exists x, x ∈ l /\ f x = Ok y.
Proof.
  revert ys. induction l as [|x l IH]; intros ys; simpl.
  - intros [= <-]. set_solver.
  - destruct (f x) as [y0|] eqn:Ex; [|done]. destruct (collect f l) as [ys0|] eqn:E; [|done].
    intros [= <-] y. rewrite elem_of_cons, (IH ys0 eq_refl y). split.
    + intros [->|(x' & Hx' & Hf)]; [exists x; set_solver | exists x'; set_solver].
    + intros (x' & [->|Hx']%elem_of_cons & Hf); [left; congruence | right; eauto].
Qed.

(** An address no pool allocation may hand out. *)
Definition taken (d : Data) (ip : Ipv4Addr) : Prop :=
  (exists row, row ∈ active_rows (w_leases d) /\ parse_ipv4 (row_ip row) = Some ip)
  \/ (exists r, r ∈ w_reservations d /\ parse_ipv4 (rr_ip r) = Some ip).

Lemma into_reservation_ip row r : into_reservation row = Ok r ->
  parse_ipv4 (rr_ip row) = Some (dr_ip_address r) /\ dr_mac_address r = rr_mac row.
Proof. unfold into_reservation, ok_or. intros. by repeat case_match; simplify_eq/=. Qed.

Lemma used_ips_taken d leases reservations ip :
  collect into_lease (active_rows (w_leases d)) = Ok leases ->
  collect into_reservation (w_reservations d) = Ok reservations ->
  tables_ok d -> ip ∈ used_ips leases reservations <-> taken d ip.
Proof.
  intros Hl Hr Hok. unfold used_ips, taken.
  rewrite elem_of_list_to_set, elem_of_app, !list_elem_of_fmap.
  pose proof (collect_elem _ _ _ Hl) as El. pose proof (collect_elem _ _ _ Hr) as Er. split.
  - intros [(l & -> & (row & Hrow & Hi)%El)|(r & -> & (row & Hrow & Hi)%Er)].
    + left. exists row. split; [done|]. by apply into_lease_ip.
    + right. exists row. split; [done|]. by apply into_reservation_ip.
  - intros [(row & Hrow & Hp)|(row & Hrow & Hp)].
    + left. assert (Hi : is_ok (into_lease row) = true).
      { pose proof (ok_rows d Hok) as F. rewrite Forall_forall in F. apply F.
        by apply list_elem_of_filter in Hrow as []. }
      destruct (into_lease row) as [l|] eqn:E; [|done]. exists l.
      pose proof (into_lease_ip _ _ E). split; [congruence|]. apply El. eauto.
    + right. assert (Hi : is_ok (into_reservation row) = true).
      { pose proof (ok_res d Hok) as F. rewrite Forall_forall in F. by apply F. }
      destruct (into_reservation row) as [r|] eqn:E; [|done]. exists r.
      destruct (into_reservation_ip _ _ E). split; [congruence|]. apply Er. eauto.
Qed.

(** What [find_available_ip] promises about the data it read. *)
Definition available_spec (d : Data) (a b : Ipv4Addr) (r : result Ipv4Addr AppError) : Prop :=
  match r with
  | Ok ip => ip_in_pool ip a b = true /\ ~ taken d ip /\ forall j, a <= j < ip -> taken d j
  | Err (Conflict _) => forall j, ip_in_pool j a b = true -> taken d j
  | Err _ => True
  end.

Lemma find_available_ip_hoare a b :
  hoare tables_ok (find_available_ip a b) (fun r d => tables_ok d /\ available_spec d a b r).
Proof.
  unfold find_available_ip.
  eapply (hoare_bind _ _ _ (fun leases d => tables_ok d /\
    collect into_lease (active_rows (w_leases d)) = Ok leases)).
  { apply hoare_internal, hoare_db; [|done]. intros d Hd. unfold active_rows. simpl.
    by destruct (collect _ _). }
  intros leases. eapply (hoare_bind _ _ _ (fun rs d => (tables_ok d /\
    collect into_lease (active_rows (w_leases d)) = Ok leases) /\
    collect into_reservation (w_reservations d) = Ok rs)).
  { apply hoare_internal, hoare_db; [|by intros d e []]. intros d [Hd Hl]. simpl.
    by destruct (collect into_reservation _). }
  intros rs. apply hoare_lift. intros d [[Hd Hl] Hr]. split; [done|].
  pose proof (fun ip => used_ips_taken d leases rs ip Hl Hr Hd) as Hu.
  destruct (first_free _ _ _) as [ip|] eqn:E; simpl.
  - apply first_free_Some in E as (Hrange & Hfree & Hall).
    split; [by apply pool_size_range|]. split; [by rewrite <- Hu|].
    intros j Hj. by apply Hu, Hall.
  - intros j Hj%pool_size_range. apply Hu. by eapply first_free_None.
Qed.

(** ** What an assignment gives *)

Lemma keeps_working_reuse mac X R h l :
  hoare (working mac X R l) (reuse_lease mac h l)
    (fun r d => working mac X R l d /\
       match r with Ok l' => exists h', l' = l \/ l' = set_hostname h' l | Err _ => True end).
Proof.
  unfold reuse_lease. destruct (changed_hostname h l) as [new_h|].
  2: { apply hoare_ret. intros d Hd. split; [done|]. exists None. by left. }
  assert (HI : forall Y (m : ST World AppError Y), keeps (working mac X R l) m ->
    hoare (working mac X R l) m (fun r d => match r with
      | Ok _ => working mac X R l d | Err _ => working mac X R l d /\ True end)).
  { intros Y m Hm. apply hoare_keeps; [done|]. by intros []. }
  eapply (hoare_bind _ _ _ (fun _ => working mac X R l)).
  { apply HI, keeps_internal, keeps_working_update; intros;
      [apply set_row_hostname_update | by split]. }
  intros _. eapply (hoare_bind _ _ _ (fun _ => working mac X R l)).
  { apply HI, keeps_internal, keeps_working_log. }
  intros _. eapply (hoare_bind _ _ _ (fun _ => working mac X R l)); [apply HI, keeps_gets|].
  intros now. eapply (hoare_bind _ _ _ (fun _ => working mac X R l));
    [apply HI, keeps_working_publish|].
  intros _. apply hoare_ret. intros d Hd. split; [done|]. exists (Some new_h). by right.
Qed.

(** An address somebody else holds or has reserved. *)
Definition taken_elsewhere (X : list DbLeaseRow) (R : list DbReservationRow) (ip : Ipv4Addr)
    : Prop :=
  (exists row, row ∈ X /\ is_active_row row = true /\ parse_ipv4 (row_ip row) = Some ip)
  \/ (exists r, r ∈ R /\ parse_ipv4 (rr_ip r) = Some ip).

Lemma taken_framed mac X R d ip : framed mac X R d -> taken_elsewhere X R ip -> taken d ip.
Proof.
  intros [_ <- <-] [(row & [Hm Hin]%list_elem_of_filter & Ha & Hp)|H]; [left|by right].
  exists row. split; [by apply list_elem_of_filter | done].
Qed.

(** Why an allocation may use an address. *)
Definition allocatable (scope : DhcpScope) (mac : str) X R (ip : Ipv4Addr) : Prop :=
  (exists r, res_lookup mac R = Ok (Some r) /\ reservation_compatible scope r = true
     /\ ip = dr_ip_address r)
  \/ (ip_in_pool ip (sc_pool_start scope) (sc_pool_end scope) = true
      /\ ~ taken_elsewhere X R ip).

Definition scope_u32 (scope : DhcpScope) : Prop :=
  0 <= sc_pool_start scope /\ sc_pool_end scope <= U32_MAX.

Lemma res_lookup_u32 mac R r : res_lookup mac R = Ok (Some r) -> is_u32 (dr_ip_address r).
Proof.
  unfold res_lookup. destruct (List.find _ _) as [row|]; [|done]. simpl.
  destruct (into_reservation row) as [r0|] eqn:E; [|done]. intros [= ->].
  apply into_reservation_ip in E as [E _]. by apply show_parse_ipv4 in E as [_ E].
Qed.

Definition fits (scope : DhcpScope) (mac : str) X R (ip : Ipv4Addr) (d : Data) : Prop :=
  framed mac X R d /\ no_active_mac (to_lowercase mac) d /\ is_u32 ip
  /\ allocatable scope mac X R ip.

(** Choosing the address. *)
Lemma choose_ip_spec scope mac X R found : scope_u32 scope -> res_lookup mac R = Ok found ->
  hoare (fun d => framed mac X R d /\ no_active_mac (to_lowercase mac) d) (choose_ip scope found)
    (fun r d => match r with Ok ip => fits scope mac X R ip d | Err _ => framed mac X R d end).
Proof.
  intros [Hlo Hhi] Hres.
  assert (Hpool : hoare (fun d => framed mac X R d /\ no_active_mac (to_lowercase mac) d)
    (find_available_ip (sc_pool_start scope) (sc_pool_end scope))
    (fun r d => match r with Ok ip => fits scope mac X R ip d | Err _ => framed mac X R d end)).
  { intros w [Hfr Hno].
    destruct (find_available_ip_hoare (sc_pool_start scope) (sc_pool_end scope) w
      (fr_ok _ _ _ _ Hfr)) as [_ Hav].
    rewrite (reads_of_keeps _ (fun P => keeps_find_available_ip P _ _) w) in *.
    destruct (fst _) as [ip|e]; [|done]. destruct Hav as (Hin & Hfree & _).
    split; [done|]. split; [done|]. split.
    - unfold ip_in_pool in Hin. breflect. unfold is_u32. lia.
    - right. split; [done|]. intros Ht. by eapply Hfree, (taken_framed mac X R). }
  unfold choose_ip. destruct found as [r|]; [|exact Hpool]. destruct (reservation_compatible scope r) eqn:Hc;
    [|exact Hpool].
  apply hoare_ret. intros d [Hfr Hno]. split; [done|]. split; [done|].
  split; [by eapply res_lookup_u32 | left; by exists r].
Qed.

(** Inserting the row. *)
Lemma insert_lease_working scope mac X R ip id h now e :
  let l := {| li_id := id; li_mac := mac; li_ip := show_ipv4 ip; li_hostname := h;
              li_lease_start := now; li_lease_end := e; li_status := of_string "active";
              li_device_id := None |} in
  hoare (fits scope mac X R ip) (insert_lease l)
    (fun r d => match r with
     | Ok _ => framed mac X R d /\ exists rows n, w_leases d = rows ++ [lease_row n l]
         /\ (forall row, row ∈ rows -> row_id row <> id)
     | Err _ => framed mac X R d end).
Proof.
  intros l. apply hoare_db; [|by intros d e' []]. intros d ([Hok Ho Hr] & Hno & Hu & _).
  pose proof (insert_lease_ok l (parse_show_ipv4_some ip) eq_refl
    {| w_data := d; w_faults := [] |} (conj Hok Hno)) as Hins.
  unfold insert_lease, db in Hins. simpl in Hins.
  destruct (existsb _ _) eqn:E; simpl in *; [by split|]. split.
  - split; [done| |done]. unfold others. simpl. rewrite filter_app, filter_cons_False;
      [by rewrite app_nil_r | simpl; naive_solver].
  - exists (w_leases d), (w_now d). split; [done|]. intros row Hrow Hid.
    apply not_true_iff_false in E. apply E, existsb_exists. exists row.
    split; [by apply list_elem_of_In | by apply Z.eqb_eq].
Qed.

(** The inserted row is the last one, and the only one with its id. *)
Definition placed (mac : str) X R (l : LeaseInsert) (d : Data) : Prop :=
  framed mac X R d /\ exists rows n, w_leases d = rows ++ [lease_row n l]
    /\ (forall row, row ∈ rows -> row_id row <> li_id l).

Lemma keeps_placed mac X R l f : (forall d, w_leases (f d) = w_leases d) ->
  (forall d, w_reservations (f d) = w_reservations d) -> keeps (placed mac X R l) (db_write f).
Proof.
  intros Hl Hr. apply keeps_write. intros d ([Hok Ho Hres] & H). unfold placed. rewrite Hl.
  split; [|done]. split; [by eapply tables_ok_ext; [..|exact Hok] | | by rewrite Hr].
  unfold others. by rewrite Hl.
Qed.

Lemma find_app_last {Y} (f : Y -> bool) l x : (forall y, y ∈ l -> f y = false) -> f x = true ->
  List.find f (l ++ [x]) = Some x.
Proof.
  induction l as [|y l IH]; intros Hl Hx; simpl; [by rewrite Hx|].
  rewrite (Hl y) by set_solver. apply IH; [|done]. intros z Hz. apply Hl. set_solver.
Qed.

Lemma placed_found mac X R l d : placed mac X R l d ->
  exists n, List.find (fun row => row_id row =? li_id l) (w_leases d) = Some (lease_row n l)
    /\ lease_row n l ∈ w_leases d.
Proof.
  intros (_ & rows & n & -> & Hf). exists n. split; [|set_solver].
  apply find_app_last; [|simpl; lia]. intros row Hrow. apply Z.eqb_neq. by apply Hf.
Qed.

Lemma placed_decodes mac ip id h now e :
  let l := {| li_id := id; li_mac := mac; li_ip := show_ipv4 ip; li_hostname := h;
              li_lease_start := now; li_lease_end := e; li_status := of_string "active";
              li_device_id := None |} in
  is_u32 ip -> forall n, exists lease, into_lease (lease_row n l) = Ok lease
    /\ dl_id lease = id /\ dl_ip_address lease = ip /\ dl_lease_end lease = e
    /\ dl_mac_address lease = to_lowercase mac.
Proof.
  intros l Hip n. unfold into_lease, parse_time_err, lease_row. simpl.
  rewrite parse_show_ipv4, !parse_rfc3339, !parse_format_z by done. simpl. eauto 10.
Qed.

Definition allocated (scope : DhcpScope) (mac : str) X R (id now : Z)
    (r : result DhcpLease AppError) (d : Data) : Prop :=
  framed mac X R d /\
  match r with
  | Ok l => holds mac l d /\ allocatable scope mac X R (dl_ip_address l) /\ dl_id l = id
            /\ dl_lease_end l = now + sc_lease_duration_secs scope * NANOS_PER_SEC
  | Err _ => True
  end.

(** After the insert: the log row, the event and the read-back. *)
Lemma allocate_tail scope mac X R ip id h now :
  let l := {| li_id := id; li_mac := mac; li_ip := show_ipv4 ip; li_hostname := h;
              li_lease_start := now;
              li_lease_end := now + sc_lease_duration_secs scope * NANOS_PER_SEC;
              li_status := of_string "active"; li_device_id := None |} in
  is_u32 ip -> allocatable scope mac X R ip ->
  hoare (placed mac X R l)
    (_ ← internal (insert_lease_log id mac "assigned" ((fun h => "hostname: " ++ h) <$> h));
     _ ← publish (DhcpLeaseAssigned id mac (show_ipv4 ip) h now);
     created ← internal (find_lease_by_id id);
     st_lift (ok_or created (Internal "lease not found after insert")))
    (allocated scope mac X R id now).
Proof.
  intros l Hip Hall.
  eapply (hoare_bind _ _ _ (fun _ => placed mac X R l)).
  { apply hoare_keeps; [by apply keeps_internal, keeps_placed|]. by intros [] d; [|intros []]. }
  intros _. eapply (hoare_bind _ _ _ (fun _ => placed mac X R l)).
  { intros w ([Hok Ho Hr] & H). split; [|done]. simpl.
    split; [by eapply tables_ok_ext; [..|exact Hok] | done | done]. }
  intros _. eapply (hoare_bind _ _ _ (fun created d => placed mac X R l d /\
    exists n lease, lease_row n l ∈ w_leases d /\ created = Some lease
      /\ into_lease (lease_row n l) = Ok lease)).
  - apply hoare_internal, hoare_db; [|by intros d e []]. intros d Hp. cbn [fst snd].
    destruct (placed_found _ _ _ _ _ Hp) as (n & Hf & Hin). simpl li_id in Hf. rewrite Hf.
    destruct (placed_decodes mac ip id h now
      (now + sc_lease_duration_secs scope * NANOS_PER_SEC) Hip n) as (lease & Hl & _).
    unfold transpose. fold l in Hl. rewrite Hl. split; [done|]. eauto.
  - intros created. apply hoare_lift. intros d (Hp & n & lease & Hin & -> & Hl). simpl.
    destruct (placed_decodes mac ip id h now
      (now + sc_lease_duration_secs scope * NANOS_PER_SEC) Hip n) as (l' & Hl' & Hid & Hlip & He & _).
    fold l in Hl'. assert (l' = lease) as -> by congruence.
    split; [apply Hp|]. rewrite Hlip. split; [|done].
    exists (lease_row n l). split; [by apply list_elem_of_filter|]. split; [done|].
    split; [done|]. by apply into_lease_ip.
Qed.

Lemma allocate_lease_spec scope mac X R id h now : scope_u32 scope ->
  hoare (fun d => (framed mac X R d /\ no_active_mac (to_lowercase mac) d) /\ w_now d = now)
    (allocate_lease id scope mac h) (allocated scope mac X R id now).
Proof.
  intros Hs. unfold allocate_lease.
  eapply (hoare_bind _ _ _ (fun found d => ((framed mac X R d /\ no_active_mac (to_lowercase mac) d)
    /\ w_now d = now) /\ res_lookup mac R = Ok found)).
  { apply hoare_internal, hoare_db; [|by intros d e [[]]]. intros d [[Hd Hn] Hw]. simpl.
    rewrite (fr_res _ _ _ _ Hd). fold (res_lookup mac R). by destruct (res_lookup mac R). }
  intros found. eapply (hoare_bind _ _ _ (fun ip d => fits scope mac X R ip d /\ w_now d = now)).
  { intros w [[Hp Hw] Hres].
    pose proof (choose_ip_spec scope mac X R found Hs Hres w Hp) as Hc. cbv beta in Hc.
    rewrite (reads_of_keeps _ (fun P => keeps_choose_ip P scope found) w) in *.
    destruct (fst (_ w)); by split. }
  intros ip. eapply (hoare_bind _ _ _ (fun n d => fits scope mac X R ip d /\ n = now)).
  { apply hoare_gets. intros w [Hf <-]. done. }
  intros n. intros w [Hf ->]. pose proof Hf as (_ & _ & Hu & Hall). revert w Hf.
  apply (hoare_bind (fits scope mac X R ip) _ _ (fun _ => placed mac X R
    {| li_id := id; li_mac := mac; li_ip := show_ipv4 ip; li_hostname := h; li_lease_start := now;
       li_lease_end := now + sc_lease_duration_secs scope * NANOS_PER_SEC;
       li_status := of_string "active"; li_device_id := None |})).
  - apply hoare_internal. eapply hoare_conseq; [apply insert_lease_working | done |].
    intros [] d Hd; [exact Hd | by split].
  - intros _. by apply allocate_tail.
Qed.

(** ** Scopes *)

Lemma parse_ip_or_u32 msg s ip : parse_ip_or msg s = Ok ip -> is_u32 ip.
Proof.
  unfold parse_ip_or. destruct (parse_ipv4 s) eqn:E; [|done]. intros [= ->].
  by apply show_parse_ipv4 in E as [_ E].
Qed.

Lemma load_config_returns :
  returns (load_config gateway_ip) (fun c => dc_gateway_ip c = gateway_ip
    /\ is_u32 (dc_pool_start c) /\ is_u32 (dc_pool_end c)).
Proof.
  unfold load_config. destruct (octets gateway_ip) as [[[g0 g1] g2] g3].
  eapply returns_bind; [apply returns_any|]. intros enabled _.
  eapply returns_bind; [apply returns_any|]. intros start _.
  eapply returns_bind; [apply returns_lift, parse_ip_or_u32|]. intros pool_start Hs.
  eapply returns_bind; [apply returns_any|]. intros stop _.
  eapply returns_bind; [apply returns_lift, parse_ip_or_u32|]. intros pool_end He.
  do 8 (eapply returns_bind; [apply returns_any|]; intros ? _).
  eapply returns_bind; [apply returns_any|]. intros router_ip _. by apply returns_ret.
Qed.

Lemma advertised_dns_nonempty b gw up : advertised_dns b gw up <> [].
Proof. unfold advertised_dns. destruct b; [done|]. by destruct up. Qed.

Definition scope_ok (sc : DhcpScope) : Prop :=
  sc_dns sc <> [] /\ scope_u32 sc /\
  match sc_subnet_prefix sc with
  | None => sc_gateway_ip sc = gateway_ip /\ sc_member_isolation sc = false
  | Some p => exists net, net_prefix net = p /\ sc_gateway_ip sc = gateway_for net
      /\ pool_bounds net = Some (sc_pool_start sc, sc_pool_end sc) /\ sc_router_ip sc = None
      /\ sc_subnet_mask sc = if sc_member_isolation sc then BROADCAST else net_mask net
  end.

End laws.

Section scopes.
Context {T : TimeLib} {TLaws : TimeLaws T} {U : UuidLib} {J : JsonLib}.
Context {L : Ipv4NetworkLib} {HL : Ipv4NetworkLaws L}.
Context (gateway_ip : Ipv4Addr) (ctx : option AuthContext).

Lemma zone_scope_ok base b z sc : zone_scope base b z = Some sc -> scope_ok gateway_ip sc.
Proof.
  unfold zone_scope. destruct (nz_subnet z) as [cidr|]; [|done]. simpl.
  destruct (net_parse cidr) as [net|]; [|done]. simpl.
  destruct (pool_bounds net) as [[s e]|] eqn:E; [|done]. simpl. intros [= <-].
  split; [apply advertised_dns_nonempty|]. split; [|by exists net].
  unfold scope_u32, pool_bounds, u32_add, sat_sub, U32_MAX in *. simpl.
  pose proof (network_range net) as [Hn Hb]. unfold U32_MAX in Hb. case_match; [done|].
  simplify_eq/=. zdiv.
Qed.

Lemma resolve_scope_returns mac : returns (resolve_scope gateway_ip mac) (scope_ok gateway_ip).
Proof.
  unfold resolve_scope. eapply returns_bind; [apply load_config_returns|].
  intros base (Hg & [Hs _] & [_ He]). eapply returns_bind; [apply returns_any|]. intros b _.
  assert (Hbase : scope_ok gateway_ip (base_scope base b)).
  { split; [apply advertised_dns_nonempty|]. split; [by split | by rewrite <- Hg]. }
  eapply returns_bind; [apply returns_any|]. intros [z|] _; [|by apply returns_ret].
  apply returns_ret. destruct (zone_scope base b z) as [sc|] eqn:E; [|done].
  by apply zone_scope_ok in E.
Qed.

(** The scope a client leases from always advertises a resolver; a zone
    scope advertises the subnet's gateway alias, no fallback router and a /32
    mask exactly for isolated members; every address of its pool lies in the
    zone's subnet (anywhere below the last ten IPv4 addresses) and is neither
    the gateway, the network nor the broadcast address. *)
Theorem resolve_scope_sound mac w sc w' :
  resolve_scope gateway_ip mac w = (Ok sc, w') ->
  sc_dns sc <> [] /\
  match sc_subnet_prefix sc with
  | None => sc_gateway_ip sc = gateway_ip
  | Some p => exists net, net_prefix net = p /\ sc_gateway_ip sc = gateway_for net
      /\ sc_router_ip sc = None
      /\ sc_subnet_mask sc = (if sc_member_isolation sc then BROADCAST else net_mask net)
      /\ forall a, net_network net + 10 <= U32_MAX ->
           ip_in_pool a (sc_pool_start sc) (sc_pool_end sc) = true ->
           net_contains net a = true /\ a <> sc_gateway_ip sc /\ a <> net_network net
           /\ a <> net_broadcast net
  end.
Proof.
  intros H. destruct (resolve_scope_returns mac w sc w' H) as (Hd & _ & Hp). split; [done|].
  destruct (sc_subnet_prefix sc) as [p|]; [|apply Hp].
  destruct Hp as (net & Hnp & Hg & Hb & Hr & Hm). exists net. do 4 (split; [done|]).
  intros a Hov Ha. unfold ip_in_pool in Ha. breflect. rewrite Hg.
  eapply pool_bounds_inside; [done | exact Hb | lia].
Qed.

End scopes.
