(* ===== verification/DhcpLaws.v ===== *)
(** * What the DHCP service guarantees

    The theorems on the operations of [DhcpService]: authorization, histories,
    assignment, renewal, release, expiry and reconfiguration.  Storage faults
    ([w_faults]) are arbitrary unless a statement fixes them. *)

From S2P Require Import Prelude RustStr Net Auth DhcpRepo DhcpService.

Section laws.
Context {T : TimeLib} {TLaws : TimeLaws T} {U : UuidLib} {J : JsonLib}.
Context {L : Ipv4NetworkLib} {HL : Ipv4NetworkLaws L}.
Context (gateway_ip : Ipv4Addr) (ctx : option AuthContext).

(** ** Helpers *)

Lemma reads_run {E X} (m : ST World E X) w r w' : reads m -> m w = (r, w') -> w_data w' = w_data w.
Proof. intros H Hm. specialize (H w). by rewrite Hm in H. Qed.

Lemma reads_internal_read {X} (f : Data -> result X str) : reads (internal (db_read f)).
Proof. apply reads_of_keeps. intros. apply keeps_internal, keeps_read. Qed.

Lemma reads_guard : reads (guard_admin ctx).
Proof. done. Qed.

Lemma reads_resolve_scope mac : reads (resolve_scope gateway_ip mac).
Proof. apply reads_of_keeps. intros. apply keeps_resolve_scope. Qed.

(** A lease that is still valid is found without a write. *)
Lemma valid_reads mac a b w l w' :
  lease_if_still_valid mac a b w = (Ok (Some l), w') -> w_data w' = w_data w.
Proof.
  unfold lease_if_still_valid. intros (found & w1 & H1 & H)%bind_Ok_inv.
  apply reads_run in H1; [|apply reads_internal_read]. destruct found as [existing|]; [|done].
  apply bind_Ok_inv in H as (res & w2 & H2 & H). apply reads_run in H2; [|apply reads_internal_read].
  case_match.
  - injection H as _ <-. congruence.
  - apply bind_Ok_inv in H as (? & ? & _ & H). apply bind_Ok_inv in H as (? & ? & _ & H). done.
Qed.

Lemma keeps_now_valid n mac a b : keeps (fun d => w_now d = n) (lease_if_still_valid mac a b).
Proof. unfold lease_if_still_valid. svc_keeps; by apply keeps_write. Qed.

(** ** Assignment *)

Lemma assign_lease_facts id mac h w lease w' :
  tables_ok (w_data w) -> assign_lease gateway_ip ctx id mac h w = (Ok lease, w') ->
  let X := others mac (w_data w) in
  let R := w_reservations (w_data w) in
  exists scope, fst (resolve_scope gateway_ip mac w) = Ok scope
  /\ tables_ok (w_data w') /\ holds mac lease (w_data w') /\ others mac (w_data w') = X
  /\ ((holds mac lease (w_data w) /\ exists res, res_lookup mac R = Ok res
         /\ still_valid res (dl_ip_address lease) (sc_pool_start scope) (sc_pool_end scope) = true)
      \/ (dl_id lease = id /\ allocatable scope mac X R (dl_ip_address lease)
          /\ dl_lease_end lease =
             w_now (w_data w) + sc_lease_duration_secs scope * NANOS_PER_SEC)).
Proof.
  intros Hok (u & w0 & Hg & H)%bind_Ok_inv X R. injection Hg as _ <-.
  apply bind_Ok_inv in H as (scope & w1 & Hs & H). exists scope. rewrite Hs.
  split; [done|]. destruct (resolve_scope_returns gateway_ip mac w scope w1 Hs) as (_ & Hu & _).
  apply reads_run in Hs; [|apply reads_resolve_scope].
  apply bind_Ok_inv in H as (valid & w2 & Hv & H).
  assert (Hfr : framed mac X R (w_data w1)) by (rewrite Hs; by apply framed_intro).
  pose proof (lease_if_still_valid_spec mac (sc_pool_start scope) (sc_pool_end scope) X R w1 Hfr)
    as [Hfr2 Hspec]. rewrite Hv in Hfr2, Hspec. simpl in Hfr2, Hspec.
  destruct valid as [existing|].
  - pose proof (keeps_working_reuse mac X R (normalised_hostname h) existing w2 (proj1 Hspec)) as Hr.
    rewrite H in Hr. simpl in Hr. destruct Hr as [([Hok' Ho _] & _ & Hh) (h' & Hl)].
    destruct Hspec as [(_ & _ & Hh0) Hres]. apply valid_reads in Hv. rewrite Hv, Hs in Hh0.
    split; [done|]. destruct Hl as [->| ->]; (split; [exact Hh|]); (split; [done|]); left; done.
  - assert (Hn : w_now (w_data w2) = w_now (w_data w)).
    { pose proof (keeps_now_valid (w_now (w_data w1)) mac (sc_pool_start scope) (sc_pool_end scope)
        w1 eq_refl) as Hn. rewrite Hv in Hn. simpl in Hn. congruence. }
    pose proof (allocate_lease_spec scope mac X R id (normalised_hostname h) (w_now (w_data w))
      Hu w2 (conj (conj Hfr2 Hspec) Hn)) as Ha. rewrite H in Ha. simpl in Ha.
    destruct Ha as ([Hok' Ho _] & Hh & Hall & Hid & He).
    split; [done|]. split; [done|]. split; [done|]. by right.
Qed.

(** C2: a successful assignment gives the client a lease it alone holds; it is
    either the lease it already had and that still fits the configuration, or
    a new one: the reserved address when the reservation is inside the scope's
    subnet, else an address of the scope's pool that no other client holds and
    nobody has reserved.  No other client's rows change. *)
Theorem assign_lease_correct id mac h w lease w' :
  tables_ok (w_data w) -> assign_lease gateway_ip ctx id mac h w = (Ok lease, w') ->
  let X := others mac (w_data w) in
  let R := w_reservations (w_data w) in
  exists scope, fst (resolve_scope gateway_ip mac w) = Ok scope
  /\ tables_ok (w_data w') /\ holds mac lease (w_data w') /\ others mac (w_data w') = X
  /\ ((holds mac lease (w_data w) /\ exists res, res_lookup mac R = Ok res
         /\ still_valid res (dl_ip_address lease) (sc_pool_start scope) (sc_pool_end scope) = true)
      \/ (dl_id lease = id /\ allocatable scope mac X R (dl_ip_address lease)
          /\ dl_lease_end lease =
             w_now (w_data w) + sc_lease_duration_secs scope * NANOS_PER_SEC)).
Proof. apply assign_lease_facts. Qed.

(** ** Renewal *)

(** The rows with this id end at [e]. *)
Definition ends (id e : Z) (d : Data) : Prop :=
  forall row, row ∈ w_leases d -> row_id row = id -> row_lease_end row = to_rfc3339 e.

Lemma ends_renewed id e now rows d : w_leases d = rows ->
  ends id e (set_leases (update_where (fun row => row_id row =? id) (set_row_end e now) rows) d).
Proof.
  intros <- row Hin Hid. simpl in Hin. apply list_elem_of_fmap in Hin as (r & -> & Hr).
  destruct (Z.eqb_spec (row_id r) id) as [E|E]; simpl in *; [done | congruence].
Qed.

Lemma ends_hostname id e id' h now d : ends id e d ->
  ends id e (set_leases (update_where (fun row => row_id row =? id') (set_row_hostname h now)
    (w_leases d)) d).
Proof.
  intros He row Hin Hid. simpl in Hin. apply list_elem_of_fmap in Hin as (r & -> & Hr).
  destruct (row_id r =? id'); simpl in *; by apply He.
Qed.

(** The read-back of a held lease by its id finds the held row. *)
Lemma working_found mac X R l e d : working mac X R l d -> ends (dl_id l) e d ->
  exists l', transpose into_lease (List.find (fun row => row_id row =? dl_id l) (w_leases d))
             = Ok (Some l')
    /\ holds mac l' d /\ dl_id l' = dl_id l /\ dl_ip_address l' = dl_ip_address l
    /\ dl_lease_end l' = e.
Proof.
  intros ([Hok _ _] & _ & (row & Hrow & Hm & Hid & Hip)) He.
  pose proof Hrow as [_ Hin]%list_elem_of_filter.
  destruct (List.find _ _) as [row'|] eqn:Ef.
  2: { apply (find_None_elem _ _ row) in Ef; [|done]. simpl in Ef. breflect. done. }
  apply find_Some_elem in Ef as [Hin' Heq]. simpl in Heq. breflect.
  assert (row' = row) as ->
    by (eapply (NoDup_fmap_elem_inj row_id); [apply (ok_ids d Hok) | done | done | congruence]).
  pose proof (ok_rows d Hok) as F. rewrite Forall_forall in F. specialize (F row Hin).
  unfold transpose. destruct (into_lease row) as [l'|] eqn:El; [|done].
  destruct (into_lease_id _ _ El) as [Hid' _]. pose proof (into_lease_ip _ _ El) as Hip'.
  exists l'. split; [done|]. split; [exists row; repeat split; congruence|].
  split; [congruence|]. split; [congruence|].
  unfold into_lease, parse_time_err in El. rewrite (He row Hin Hid), parse_rfc3339 in El.
  repeat case_match; simplify_eq/=; congruence.
Qed.

Lemma keeps_renewing_hostname mac X R l e h :
  keeps (fun d => working mac X R l d /\ ends (dl_id l) e d)
    (update_lease_hostname (dl_id l) h).
Proof.
  apply keeps_write. intros d [([Hok Ho Hr] & Hown & Hh) He].
  split; [|by apply ends_hostname].
  split; [|split; [by apply owned_update, Hown; apply set_row_hostname_update |
    apply holds_update; [apply set_row_hostname_update | by split | done]]].
  split; [by apply update_where_ok, Hok; apply set_row_hostname_update |
    by rewrite others_update; [|apply set_row_hostname_update|] | done].
Qed.

Lemma extend_lease_spec scope mac X R h l n :
  hoare (fun d => working mac X R l d /\ w_now d = n) (extend_lease scope mac h l)
    (fun r d => framed mac X R d /\ match r with
     | Ok l' => holds mac l' d /\ dl_id l' = dl_id l /\ dl_ip_address l' = dl_ip_address l
                /\ dl_lease_end l' = n + sc_lease_duration_secs scope * NANOS_PER_SEC
     | Err _ => True end).
Proof.
  unfold extend_lease. set (e := n + sc_lease_duration_secs scope * NANOS_PER_SEC).
  set (K := fun d => working mac X R l d /\ ends (dl_id l) e d).
  assert (HK : forall Y (m : ST World AppError Y), keeps K m -> hoare K m (fun r d =>
    match r with Ok _ => K d | Err _ => framed mac X R d /\ True end)).
  { intros Y m Hm. apply hoare_keeps; [done|]. by intros [] d [[]]. }
  eapply (hoare_bind _ _ _ (fun now d => working mac X R l d /\ now = n)).
  { apply hoare_gets. by intros w [Hw <-]. }
  intros now. apply hoare_pure. intros ->. fold e.
  eapply (hoare_bind _ _ _ (fun _ => K)).
  { apply hoare_internal, hoare_db; [|by intros d e' []].
    intros d ([Hok Ho Hr] & Hown & Hh). simpl.
    split; [|by apply ends_renewed]. pose proof (set_row_end_update e (w_now d)) as Hup.
    split; [split; [by apply update_where_ok | by rewrite others_update | done]|].
    split; [by apply owned_update | by apply holds_update]. }
  intros _. eapply (hoare_bind _ _ _ (fun _ => K)).
  { apply HK. case_match; [apply keeps_internal, keeps_renewing_hostname | apply keeps_ret]. }
  intros _. eapply (hoare_bind _ _ _ (fun _ => K)).
  { apply HK, keeps_internal, keeps_write. intros d [Hw He]. split; [by apply working_ext with d|done]. }
  intros _. eapply (hoare_bind _ _ _ (fun _ => K)).
  { apply HK. intros w [Hw He]. split; [by eapply working_ext; [..|exact Hw] | done]. }
  intros _. set (l0 := match changed_hostname h l with Some _ => _ | None => _ end).
  assert (Hl0 : dl_id l0 = dl_id l) by (unfold l0; by case_match). rewrite Hl0.
  eapply (hoare_bind _ _ _ (fun found d => framed mac X R d /\ exists l', found = Some l'
    /\ holds mac l' d /\ dl_id l' = dl_id l /\ dl_ip_address l' = dl_ip_address l
    /\ dl_lease_end l' = e)).
  - apply hoare_internal, hoare_db; [|by intros d e' [[]]]. intros d [Hw He]. cbn [fst snd].
    destruct (working_found _ _ _ _ _ _ Hw He) as (l' & -> & Hl'). split; [apply Hw|]. eauto.
  - intros found. apply hoare_lift. by intros d (Hd & l' & -> & Hl').
Qed.

Lemma renew_lease_facts id mac h w lease w' :
  tables_ok (w_data w) -> renew_lease gateway_ip ctx id mac h w = (Ok lease, w') ->
  let X := others mac (w_data w) in
  let R := w_reservations (w_data w) in
  tables_ok (w_data w') /\ holds mac lease (w_data w') /\ others mac (w_data w') = X
  /\ ((holds mac lease (w_data w) /\ exists scope, fst (resolve_scope gateway_ip mac w) = Ok scope
         /\ dl_lease_end lease = w_now (w_data w) + sc_lease_duration_secs scope * NANOS_PER_SEC)
      \/ (dl_id lease = id /\ exists scope, scope_ok gateway_ip scope
          /\ allocatable scope mac X R (dl_ip_address lease))).
Proof.
  intros Hok (u & w0 & Hg & H)%bind_Ok_inv X R. injection Hg as _ <-.
  apply bind_Ok_inv in H as (scope & w1 & Hs & H). pose proof Hs as Hs0.
  apply reads_run in Hs; [|apply reads_resolve_scope].
  apply bind_Ok_inv in H as (valid & w2 & Hv & H).
  assert (Hfr : framed mac X R (w_data w1)) by (rewrite Hs; by apply framed_intro).
  pose proof (lease_if_still_valid_spec mac (sc_pool_start scope) (sc_pool_end scope) X R w1 Hfr)
    as [Hfr2 Hspec]. rewrite Hv in Hfr2, Hspec. simpl in Hfr2, Hspec.
  destruct valid as [existing|].
  - apply valid_reads in Hv. destruct Hspec as [Hw Hres].
    assert (Hn : w_now (w_data w2) = w_now (w_data w)) by congruence.
    pose proof (extend_lease_spec scope mac X R (normalised_hostname h) existing (w_now (w_data w)) w2
      (conj Hw Hn)) as He. rewrite H in He. simpl in He.
    destruct He as ([Hok' Ho _] & Hh & Hid & Hip & Hend). do 3 (split; [done|]). left.
    split; [|exists scope; by rewrite Hs0].
    destruct Hw as (_ & _ & Hh0). rewrite Hv, Hs in Hh0.
    destruct Hh0 as (row & ? & ? & ? & ?). exists row. repeat split; congruence.
  - apply (assign_lease_facts id mac) in H as (scope' & Hs' & Hok' & Hh & Ho & Hcase);
      [|apply Hfr2]. destruct Hfr2 as [_ Ho2 Hr2].
    rewrite Ho2 in Ho. do 3 (split; [done|]). right.
    destruct Hcase as [[(row & Hrow & Hm & _) _]|(Hid & Hall & _)].
    + exfalso. apply Hspec. rewrite <- Hm. by apply list_elem_of_fmap_2.
    + rewrite Ho2, Hr2 in Hall. split; [done|]. exists scope'. split; [|done].
      destruct (resolve_scope gateway_ip mac w2) as [r w3] eqn:E. simpl in Hs'. subst r.
      by apply resolve_scope_returns in E.
Qed.

(** A successful renewal either extends the lease the client holds, keeping
    its id and address and moving its end to now plus the scope's duration, or
    replaces a lease that no longer fits (or none) by a fresh assignment; no
    other client's rows change. *)
Theorem renew_lease_correct id mac h w lease w' :
  tables_ok (w_data w) -> renew_lease gateway_ip ctx id mac h w = (Ok lease, w') ->
  let X := others mac (w_data w) in
  let R := w_reservations (w_data w) in
  tables_ok (w_data w') /\ holds mac lease (w_data w') /\ others mac (w_data w') = X
  /\ ((holds mac lease (w_data w) /\ exists scope, fst (resolve_scope gateway_ip mac w) = Ok scope
         /\ dl_lease_end lease = w_now (w_data w) + sc_lease_duration_secs scope * NANOS_PER_SEC)
      \/ (dl_id lease = id /\ exists scope, scope_ok gateway_ip scope
          /\ allocatable scope mac X R (dl_ip_address lease))).
Proof. apply renew_lease_facts. Qed.

(** ** Release and expiry *)

(** After a successful release the client holds no lease, and no other
    client's rows changed. *)
Theorem release_lease_correct mac w w' :
  tables_ok (w_data w) -> release_lease ctx mac w = (Ok tt, w') ->
  tables_ok (w_data w') /\ no_active_mac (to_lowercase mac) (w_data w')
  /\ others mac (w_data w') = others mac (w_data w)
  /\ w_reservations (w_data w') = w_reservations (w_data w).
Proof.
  intros Hok H. set (X := others mac (w_data w)). set (R := w_reservations (w_data w)).
  assert (Hp : hoare (framed mac X R) (release_lease ctx mac) (fun r d => match r with
    | Ok _ => framed mac X R d /\ no_active_mac (to_lowercase mac) d | Err _ => True end)).
  2: { specialize (Hp w (framed_intro mac _ Hok)). rewrite H in Hp. simpl in Hp.
       destruct Hp as [[? ? ?] ?]. by split_and!. }
  unfold release_lease. eapply (hoare_bind _ _ _ (fun _ => framed mac X R)).
  { apply hoare_keeps; [apply keeps_lift | by intros []]. }
  intros _. eapply (hoare_bind _ _ _ (fun found d => framed mac X R d /\ transpose into_lease
    (List.find (fun row => bool_decide (row_mac row = to_lowercase mac) && is_active_row row)
      (w_leases d)) = Ok found)).
  { apply hoare_internal, hoare_db; [|done]. intros d Hd. simpl. by destruct (transpose _ _). }
  intros [l|].
  2: { apply hoare_ret. intros d [Hd Hf]. split; [done|]. by apply find_no_active_row. }
  eapply (hoare_bind _ _ _ (fun _ d => framed mac X R d /\ no_active_mac (to_lowercase mac) d)).
  - apply hoare_internal, hoare_db; [|done]. intros d [Hd Hf]. simpl.
    apply find_active_row in Hf as (row & Hrow & Hm & Hl).
    destruct (found_working _ _ _ _ _ _ Hd Hrow Hm Hl) as (_ & Hown & _).
    destruct (into_lease_id _ _ Hl) as [Hid _]. destruct Hd as [Hok' Ho Hr].
    assert (Hup : row_update (set_row_status "released" (w_now d)))
      by (by apply set_row_status_update).
    split; [split; [by apply update_where_ok | by rewrite others_update | done]|].
    rewrite Hid. by apply no_active_after_update.
  - intros _. apply hoare_internal, hoare_db; [|done]. intros d [[Hok' Ho Hr] Hn]. simpl.
    split; [|done]. split; [by eapply tables_ok_ext; [..|exact Hok'] | done | done].
Qed.

(** Expiry takes exactly the active leases whose end second has been
    reached, leaves every other row as it is, and returns how many it took. *)
Theorem cleanup_expired_correct w n w' :
  tables_ok (w_data w) -> cleanup_expired ctx w = (Ok n, w') ->
  let now := w_now (w_data w) in
  let due row := is_active_row row = true /\ exists e, row_lease_end row = to_rfc3339 e
                 /\ e / NANOS_PER_SEC <= now / NANOS_PER_SEC in
  length (w_leases (w_data w')) = length (w_leases (w_data w))
  /\ (forall i row, w_leases (w_data w) !! i = Some row ->
       (due row -> exists row', w_leases (w_data w') !! i = Some row'
          /\ parse_status (row_status row') = Ok Expired /\ row_id row' = row_id row)
       /\ (~ due row -> w_leases (w_data w') !! i = Some row))
  /\ n = Z.of_nat (length (filter (fun row => is_stale now row = true) (w_leases (w_data w)))).
Proof.
  intros Hok (u & w0 & Hg & H)%bind_Ok_inv now due. injection Hg as _ <-.
  assert (Hd : w_leases (w_data w') = update_where (is_stale now)
      (set_row_status "expired" now) (w_leases (w_data w))
    /\ n = Z.of_nat (length (filter (fun row => is_stale now row = true) (w_leases (w_data w))))).
  { unfold internal, expire_stale_leases, db in H.
    destruct (w_faults w) as [|[e|] fs]; [|done|]; by injection H as <- <-. }
  destruct Hd as [-> Hn]. split; [by unfold update_where; rewrite length_fmap|].
  split; [|done].
  intros i row Hi. unfold update_where. rewrite list_lookup_fmap, Hi. simpl.
  destruct (proj1 (Forall_forall _ _) (ok_ends _ Hok) row) as [e He];
    [by apply list_elem_of_lookup_2 with i|].
  assert (Hst : is_stale now row = true <-> due row).
  { unfold is_stale, due. rewrite He, text_lt_spec, andb_true_iff, Z.leb_le. split.
    - intros [? ?]. eauto.
    - intros [? (e' & Heq & ?)]. split; [done|].
      apply (f_equal parse_time) in Heq. rewrite !parse_rfc3339 in Heq. by injection Heq as ->. }
  destruct (is_stale now row) eqn:E; split; intros Hdue; try done; try naive_solver.
Qed.

(** ** Reconfiguration *)

Lemma reserved_map_elem rs : forall k v, reserved_map rs !! k = Some v ->
  exists r, r ∈ rs /\ dr_mac_address r = k /\ dr_ip_address r = v.
Proof.
  unfold reserved_map. assert (H : forall (m : gmap str Ipv4Addr) k v,
    foldl (fun m r => <[dr_mac_address r := dr_ip_address r]> m) m rs !! k = Some v ->
    m !! k = Some v \/ exists r, r ∈ rs /\ dr_mac_address r = k /\ dr_ip_address r = v).
  { induction rs as [|r rs IH]; intros m k v; simpl; [by left|]. intros [Hm|Hr]%IH.
    - apply lookup_insert_Some in Hm as [[<- <-]|[_ Hm]]; [|by left].
      right. exists r. set_solver.
    - destruct Hr as (r' & Hr' & ?). right. exists r'. set_solver. }
  intros k v [Hm|Hr]%H; [by rewrite lookup_empty in Hm | done].
Qed.

(** A lease row the new pool keeps: inside it, or pinned by its reservation. *)
Definition justified (a b : Ipv4Addr) (R : list DbReservationRow) (row : DbLeaseRow) : Prop :=
  exists ip, parse_ipv4 (row_ip row) = Some ip /\
    (ip_in_pool ip a b = true
     \/ exists r, r ∈ R /\ rr_mac r = row_mac row /\ parse_ipv4 (rr_ip r) = Some ip).

(** While revoking: every active row is justified or still on the list. *)
Definition revoking (a b : Ipv4Addr) R (todo : list DhcpLease) (d : Data) : Prop :=
  tables_ok d /\ w_reservations d = R /\
  forall row, row ∈ active_rows (w_leases d) ->
    justified a b R row \/ row_id row ∈ dl_id <$> todo.

Lemma revoke_iter a b R todo :
  hoare (revoking a b R todo) (st_iter (revoke_stranded a b) todo)
    (fun r d => tables_ok d /\ (r = Ok tt -> revoking a b R [] d)).
Proof.
  induction todo as [|l todo IH]; simpl.
  { apply hoare_ret. intros d Hd. split; [apply Hd | done]. }
  eapply (hoare_bind _ _ _ (fun _ => revoking a b R todo)); [|intros _; exact IH].
  unfold revoke_stranded. eapply (hoare_bind _ _ _ (fun _ => revoking a b R todo)).
  - apply hoare_internal, hoare_db; [|by intros d e []]. intros d (Hok & Hr & Hj). simpl.
    split; [apply update_where_ok; [by apply set_row_status_update | done]|]. split; [done|].
    intros row [Ha Hin]%list_elem_of_filter. simpl in Hin.
    apply list_elem_of_fmap in Hin as (r & -> & Hin).
    destruct (Z.eqb_spec (row_id r) (dl_id l)) as [E|E]; [done|].
    destruct (Hj r) as [Hjr|Hid]; [by apply list_elem_of_filter | by left|].
    right. rewrite fmap_cons in Hid. set_solver.
  - intros _. apply hoare_internal, hoare_db; [|by intros d e []].
    intros d (Hok & Hr & Hj). split; [by eapply tables_ok_ext; [..|exact Hok] | done].
Qed.

Lemma stranded_or_justified a b d leases rs row :
  tables_ok d -> collect into_lease (active_rows (w_leases d)) = Ok leases ->
  collect into_reservation (w_reservations d) = Ok rs -> row ∈ active_rows (w_leases d) ->
  justified a b (w_reservations d) row
  \/ row_id row ∈ dl_id <$> filter (fun l => is_stranded (reserved_map rs) a b l = true) leases.
Proof.
  intros Hok Hl Hr Hrow. pose proof Hrow as [_ Hin]%list_elem_of_filter.
  pose proof (proj1 (Forall_forall _ _) (ok_rows _ Hok) row Hin) as Hi. cbv beta in Hi.
  destruct (into_lease row) as [l|] eqn:E; [|done].
  destruct (into_lease_id _ _ E) as [Hid Hmac]. pose proof (into_lease_ip _ _ E) as Hip.
  destruct (is_stranded (reserved_map rs) a b l) eqn:Es.
  - right. rewrite <- Hid. apply list_elem_of_fmap_2, list_elem_of_filter. split; [done|].
    apply (collect_elem _ _ _ Hl). eauto.
  - left. exists (dl_ip_address l). split; [done|]. unfold is_stranded in Es.
    apply andb_false_iff in Es as [Es|Es]; breflect; [by left|]. right.
    apply reserved_map_elem in Es as (r & Hrin & Hrm & Hrip).
    apply (collect_elem _ _ _ Hr) in Hrin as (x & Hx & Hxr).
    destruct (into_reservation_ip _ _ Hxr) as [Hp Hm]. exists x. repeat split; congruence.
Qed.

Lemma revoke_spec a b R :
  hoare (fun d => tables_ok d /\ w_reservations d = R) (revoke_leases_outside_pool a b)
    (fun r d => tables_ok d /\ match r with Ok _ => revoking a b R [] d | Err _ => True end).
Proof.
  unfold revoke_leases_outside_pool.
  eapply (hoare_bind _ _ _ (fun stranded d => revoking a b R stranded d)).
  - unfold leases_outside_pool.
    eapply (hoare_bind _ _ _ (fun leases d => (tables_ok d /\ w_reservations d = R) /\
      collect into_lease (active_rows (w_leases d)) = Ok leases)).
    { apply hoare_internal, hoare_db; [|by intros d e []]. intros d [Hd Hr]. unfold active_rows.
      simpl. by destruct (collect into_lease _). }
    intros leases. eapply (hoare_bind _ _ _ (fun rs d => ((tables_ok d /\ w_reservations d = R) /\
      collect into_lease (active_rows (w_leases d)) = Ok leases) /\
      collect into_reservation (w_reservations d) = Ok rs)).
    { apply hoare_internal, hoare_db; [|by intros d e [[]]]. intros d [[Hd Hr] Hl]. simpl.
      by destruct (collect into_reservation _). }
    intros rs. apply hoare_ret. intros d [[[Hd Hr] Hl] Hrs]. split; [done|]. split; [done|].
    intros row Hrow. rewrite <- Hr. by eapply stranded_or_justified.
  - intros stranded. eapply (hoare_bind _ _ _ (fun _ => revoking a b R [])).
    + eapply hoare_conseq; [apply revoke_iter | done |].
      intros [[]|e] d [Hd Hr]; [by apply Hr | done].
    + intros _. apply hoare_ret. intros d Hd. split; [apply Hd | done].
Qed.

Lemma keeps_reservations_writes R kvs :
  keeps (fun d => tables_ok d /\ w_reservations d = R)
    (st_iter (fun kv : str * str => internal (config_set (fst kv) (snd kv))) kvs).
Proof.
  apply keeps_iter. intros kv _. apply keeps_internal, keeps_write. intros d [Hd Hr].
  split; [by eapply tables_ok_ext; [..|exact Hd] | done].
Qed.

(** After a successful reconfiguration every lease still active is inside
    the new pool or pinned by a reservation of its client for that very
    address; reservations are untouched. *)
Theorem update_config_leases req w c w' :
  tables_ok (w_data w) -> update_config gateway_ip ctx req w = (Ok c, w') ->
  exists a b, parse_pool_range (uc_pool_start req) (uc_pool_end req) = Ok (a, b)
  /\ tables_ok (w_data w') /\ w_reservations (w_data w') = w_reservations (w_data w)
  /\ forall row, row ∈ active_rows (w_leases (w_data w')) ->
       justified a b (w_reservations (w_data w)) row.
Proof.
  intros Hok (u & w0 & Hg & H)%bind_Ok_inv. injection Hg as _ <-.
  apply bind_Ok_inv in H as ([a b] & w1 & Hv & H). injection Hv as Hv <-.
  apply bind_Ok_inv in H as (u1 & w2 & Hw & H).
  apply bind_Ok_inv in H as (n & w3 & Hr & H). apply reads_run in H;
    [|apply reads_of_keeps; intros; apply keeps_load_config].
  exists a, b. split.
  { unfold validate_update in Hv. by destruct (parse_pool_range _ _) as [range|];
      repeat case_match; simplify_eq/=. }
  pose proof (keeps_reservations_writes (w_reservations (w_data w)) (update_writes req) w
    (conj Hok eq_refl)) as Hk. rewrite Hw in Hk. simpl in Hk.
  pose proof (revoke_spec a b (w_reservations (w_data w)) w2 Hk) as Hs. simpl in Hr.
  rewrite Hr in Hs. simpl in Hs. destruct Hs as [_ (Hok3 & Hres & Hj)]. rewrite H.
  split; [done|]. split; [done|]. intros row Hrow.
  destruct (Hj row Hrow) as [Hjr|Hid]; [done|]. simpl in Hid. set_solver.
Qed.

(** *** What was stored is what is loaded *)

Lemma config_get_inv k w v w1 : internal (config_get k) w = (Ok v, w1) ->
  v = w_config (w_data w) !! k /\ w_data w1 = w_data w.
Proof.
  unfold internal, config_get, db_read, db.
  destruct (w_faults w) as [|[e|] fs]; [|done|]; intros H; by injection H as <- <-.
Qed.

Lemma lift_inv {X} (r : result X AppError) (w : World) a w1 :
  st_lift r w = (Ok a, w1) -> r = Ok a /\ w1 = w.
Proof. intros H. by injection H as <- <-. Qed.

Lemma parse_ip_or_inv msg s ip : parse_ip_or msg s = Ok ip -> parse_ipv4 s = Some ip.
Proof. unfold parse_ip_or. destruct (parse_ipv4 s); [|done]. by intros [= ->]. Qed.

(** The configuration keys, as loaded. *)
Record loaded (C : gmap str str) (c : DhcpConfig) : Prop := {
  ld_start s : C !! of_string "dhcp_pool_start" = Some s -> parse_ipv4 s = Some (dc_pool_start c);
  ld_end s : C !! of_string "dhcp_pool_end" = Some s -> parse_ipv4 s = Some (dc_pool_end c);
  ld_mask s : C !! of_string "dhcp_subnet_mask" = Some s -> parse_ipv4 s = Some (dc_subnet_mask c);
  ld_dns s : C !! of_string "dhcp_upstream_dns" = Some s ->
    exists ss, json_parse_strings s = Some ss /\ parse_ips ss = Ok (dc_upstream_dns c);
  ld_secs s : C !! of_string "dhcp_lease_duration_secs" = Some s ->
    parse_uint U32_MAX s = Some (dc_lease_duration_secs c);
  ld_router s : C !! of_string "dhcp_router_ip" = Some s ->
    dc_router_ip c = if bool_decide (s = []) then None else parse_ipv4 s;
  ld_enabled : dc_enabled c =
    bool_decide (default (of_string "false") (C !! of_string "dhcp_enabled") = of_string "true");
}.

Ltac next_get H v Hv :=
  let w := fresh "w" in
  apply bind_Ok_inv in H as (v & w & Hv & H); apply config_get_inv in Hv as [Hv ?].
Ltac next_lift H v Hv :=
  let w := fresh "w" in
  apply bind_Ok_inv in H as (v & w & Hv & H); apply lift_inv in Hv as [Hv ->].

Lemma load_config_loaded w c w' : load_config gateway_ip w = (Ok c, w') ->
  loaded (w_config (w_data w)) c.
Proof.
  unfold load_config. destruct (octets gateway_ip) as [[[g0 g1] g2] g3]. intros H.
  next_get H enabled Hen. next_get H start Hst. next_lift H a Ha. next_get H stop Hsp.
  next_lift H b Hb. next_get H msk Hm. next_lift H m Hma. next_get H dns Hd.
  next_lift H ss Hss. next_lift H ips Hips. next_get H dur Hdu. next_lift H secs Hsecs.
  next_get H router Hro. apply bind_Ok_inv in H as (rip & wr & Hr & H). injection H as <- _.
  apply parse_ip_or_inv in Ha, Hb, Hma.
  assert (Hrip : rip = if bool_decide (default [] router = []) then None
    else parse_ipv4 (default [] router)).
  { case_bool_decide; [by injection Hr as <-|]. apply bind_Ok_inv in Hr as (ip & w9 & Hi & Hr).
    apply lift_inv in Hi as [Hi ->]. apply parse_ip_or_inv in Hi. injection Hr as <- _. done. }
  split; cbn [dc_enabled dc_pool_start dc_pool_end dc_subnet_mask dc_upstream_dns
    dc_lease_duration_secs dc_router_ip]; try (intros s Hs).
  all: repeat match goal with E : w_data _ = w_data _ |- _ => rewrite E in *; clear E end.
  - by rewrite Hst, Hs in Ha.
  - by rewrite Hsp, Hs in Hb.
  - by rewrite Hm, Hs in Hma.
  - rewrite Hd, Hs in Hss. simpl in Hss. exists ss. split; [|done].
    by destruct (json_parse_strings s); simplify_eq/=.
  - rewrite Hdu, Hs in Hsecs. simpl in Hsecs. by destruct (parse_uint _ s); simplify_eq/=.
  - by rewrite Hro, Hs in Hrip.
  - by rewrite Hen.
Qed.

Lemma config_set_inv k v w u w1 : internal (config_set k v) w = (Ok u, w1) ->
  w_config (w_data w1) = <[k := v]> (w_config (w_data w)).
Proof.
  unfold internal, config_set, db_write, db.
  destruct (w_faults w) as [|[e|] fs]; [|done|]; intros H; by injection H as _ <-.
Qed.

Lemma config_sets_inv kvs : forall w u w1,
  st_iter (fun kv : str * str => internal (config_set (fst kv) (snd kv))) kvs w = (Ok u, w1) ->
  w_config (w_data w1) = foldl (fun m kv => <[fst kv := snd kv]> m) (w_config (w_data w)) kvs.
Proof.
  induction kvs as [|kv kvs IH]; intros w u w1; simpl.
  - intros H. by injection H as _ <-.
  - intros (u' & w2 & Hs & H)%bind_Ok_inv. apply config_set_inv in Hs. apply IH in H.
    by rewrite H, Hs.
Qed.

Lemma keeps_config_revoke C a b :
  keeps (fun d => w_config d = C) (revoke_leases_outside_pool a b).
Proof.
  unfold revoke_leases_outside_pool, revoke_stranded.
  apply keeps_bind; [apply keeps_leases_outside_pool|]. svc_keeps; by apply keeps_write.
Qed.

Lemma parse_pool_range_Ok s e a b : parse_pool_range s e = Ok (a, b) ->
  parse_ipv4 s = Some a /\ parse_ipv4 e = Some b /\ a <= b
  /\ is_private a = true /\ is_private b = true.
Proof.
  unfold parse_pool_range. destruct (parse_ipv4 s) as [x|]; [|done].
  destruct (parse_ipv4 e) as [y|]; [|done]. simpl. destruct (Z.ltb_spec y x); [done|].
  destruct (is_private x) eqn:Ex; [|done]. destruct (is_private y) eqn:Ey; [|done].
  intros [= <- <-]. by split_and!.
Qed.

Lemma validate_update_Ok req a b : validate_update req = Ok (a, b) ->
  parse_pool_range (uc_pool_start req) (uc_pool_end req) = Ok (a, b)
  /\ is_Some (parse_ipv4 (uc_subnet_mask req)) /\ check_router (uc_router_ip req) = Ok tt.
Proof.
  unfold validate_update. destruct (parse_pool_range _ _) as [[x y]|]; [|done].
  destruct (parse_ipv4 (uc_subnet_mask req)); [|done]. simpl.
  destruct (check_dns _) as [[]|]; [|done]. destruct (check_router _) as [[]|] eqn:E; [|done].
  intros [= <- <-]. by split_and!.
Qed.

Ltac find_key := cbn [foldl fst snd];
  repeat first [rewrite lookup_insert_eq | rewrite lookup_insert_ne by (by vm_compute)].

(** The keys an update leaves behind. *)
Lemma update_writes_stored (C : gmap str str) req :
  let C' := foldl (fun m kv => <[fst kv := snd kv]> m) C (update_writes req) in
  C' !! of_string "dhcp_pool_start" = Some (uc_pool_start req)
  /\ C' !! of_string "dhcp_pool_end" = Some (uc_pool_end req)
  /\ C' !! of_string "dhcp_subnet_mask" = Some (uc_subnet_mask req)
  /\ C' !! of_string "dhcp_upstream_dns" = Some (json_strings (uc_upstream_dns req))
  /\ C' !! of_string "dhcp_lease_duration_secs" = Some (show_u32 (uc_lease_duration_secs req))
  /\ C' !! of_string "dhcp_router_ip" = Some (default [] (uc_router_ip req)).
Proof. intros C'. unfold C', update_writes. split_and!; find_key; done. Qed.

(** A successful reconfiguration returns the configuration that was asked
    for: what it stores as text is what a later load reads back. *)
Theorem update_config_roundtrip {JL : JsonLaws J} req w c w' :
  is_u32 (uc_lease_duration_secs req) ->
  update_config gateway_ip ctx req w = (Ok c, w') ->
  parse_pool_range (uc_pool_start req) (uc_pool_end req) = Ok (dc_pool_start c, dc_pool_end c)
  /\ parse_ipv4 (uc_subnet_mask req) = Some (dc_subnet_mask c)
  /\ parse_ips (uc_upstream_dns req) = Ok (dc_upstream_dns c)
  /\ dc_lease_duration_secs c = uc_lease_duration_secs req
  /\ dc_router_ip c = match uc_router_ip req with Some s => parse_ipv4 s | None => None end.
Proof.
  intros Hsecs (u & w0 & Hg & H)%bind_Ok_inv. injection Hg as _ <-.
  apply bind_Ok_inv in H as ([a b] & w1 & Hv & H). injection Hv as Hv <-.
  apply validate_update_Ok in Hv as (Hp & [m Hm] & Hr).
  apply bind_Ok_inv in H as (u1 & w2 & Hw & H). apply config_sets_inv in Hw.
  apply bind_Ok_inv in H as (n & w3 & Hrev & H).
  pose proof (keeps_config_revoke _ a b w2 Hw) as Hk. simpl in Hk, Hrev. rewrite Hrev in Hk.
  simpl in Hk. apply load_config_loaded in H as [Ls Le Lm Ld Ln Lr _]. rewrite Hk in *.
  destruct (update_writes_stored (w_config (w_data w)) req) as (Ks & Ke & Km & Kd & Kn & Kr).
  specialize (Ls _ Ks). specialize (Le _ Ke). specialize (Lm _ Km). specialize (Ln _ Kn).
  specialize (Lr _ Kr). destruct (Ld _ Kd) as (ss & Hss & Hips).
  rewrite json_roundtrip in Hss. injection Hss as <-.
  rewrite parse_show_u32 in Ln by done. injection Ln as Ln.
  destruct (parse_pool_range_Ok _ _ _ _ Hp) as (Pa & Pb & _).
  split; [congruence|]. split; [done|]. split; [done|]. split; [done|]. rewrite Lr.
  destruct (uc_router_ip req) as [s|]; [|done]. simpl in *. case_bool_decide as E; [|done].
  subst s. done.
Qed.

Lemma bad_request_range s e err : parse_pool_range s e = Err err -> exists m, err = BadRequest m.
Proof. unfold parse_pool_range, ok_or. intros. repeat case_match; simplify_eq; eauto. Qed.

Lemma bad_request_dns ss err : check_dns ss = Err err -> exists m, err = BadRequest m.
Proof.
  induction ss as [|s ss IH]; simpl; [done|]. destruct (parse_ipv4 s); [done|].
  intros [= <-]. eauto.
Qed.

(** An invalid reconfiguration is a [BadRequest] that writes nothing. *)
Theorem update_config_rejects req w err :
  require_admin ctx = Ok tt -> validate_update req = Err err ->
  update_config gateway_ip ctx req w = (Err err, w) /\ exists m, err = BadRequest m.
Proof.
  intros Ha Hv. split.
  - unfold update_config, guard_admin, mbind, st_bind, st_lift. by rewrite Ha, Hv.
  - unfold validate_update in Hv. destruct (parse_pool_range _ _) eqn:E1;
      [|injection Hv as <-; by eapply bad_request_range].
    unfold ok_or, check_router in Hv. repeat case_match; simplify_eq; eauto using bad_request_dns.
Qed.

(** ** Progress *)

Definition EXHAUSTED : AppError := Conflict "DHCP pool exhausted - no available IP addresses".

Definition fresh_id (id : Z) (d : Data) : Prop := id ∉ row_id <$> w_leases d.

Lemma total_internal {X} P (m : ST World str X) Q :
  total P m (fun r d => Q (match r with Ok x => Ok x | Err e => Err (Internal e) end) d) ->
  total P (internal m) Q.
Proof.
  intros H w Hw HP. specialize (H w Hw HP). unfold internal. by destruct (m w) as [[] ?].
Qed.

Lemma find_decodes d (p : DbLeaseRow -> bool) : tables_ok d ->
  exists o, transpose into_lease (List.find p (w_leases d)) = Ok o.
Proof.
  intros Hok. destruct (List.find p _) as [row|] eqn:E; [|by eexists].
  apply find_Some_elem in E as [Hin _].
  pose proof (proj1 (Forall_forall _ _) (ok_rows _ Hok) row Hin) as Hi. cbv beta in Hi. simpl.
  destruct (into_lease row) eqn:El; [by eexists | done].
Qed.

Lemma find_res_decodes d (p : DbReservationRow -> bool) : tables_ok d ->
  exists o, transpose into_reservation (List.find p (w_reservations d)) = Ok o.
Proof.
  intros Hok. destruct (List.find p _) as [row|] eqn:E; [|by eexists].
  apply find_Some_elem in E as [Hin _].
  pose proof (proj1 (Forall_forall _ _) (ok_res _ Hok) row Hin) as Hi. cbv beta in Hi. simpl.
  destruct (into_reservation row) eqn:El; [by eexists | done].
Qed.

Lemma collect_ok {X Y} (f : X -> result Y str) l :
  Forall (fun x => is_ok (f x) = true) l -> exists ys, collect f l = Ok ys.
Proof.
  induction 1 as [|x l Hx _ [ys Hys]]; simpl; [by eexists|].
  destruct (f x); [|done]. rewrite Hys. by eexists.
Qed.

(** A new id on good tables with no address taken that was free in [d0]. *)
Definition ready (d0 : Data) (id : Z) (d : Data) : Prop :=
  tables_ok d /\ fresh_id id d /\ forall j, taken d j -> taken d0 j.

Lemma ready_update d0 id i f d : row_update f -> (forall row, row_ip (f row) = row_ip row) ->
  ready d0 id d ->
  ready d0 id (set_leases (update_where (fun row => row_id row =? i) f (w_leases d)) d).
Proof.
  intros Hf Hip (Hok & Hid & Ht). split_and!; [by apply update_where_ok | |].
  - unfold fresh_id. simpl. by rewrite update_where_ids.
  - intros j Hj. apply Ht. destruct Hj as [(row & [Ha Hin]%list_elem_of_filter & Hp)|Hr]; [left|by right].
    simpl in Hin. apply list_elem_of_fmap in Hin as (x & -> & Hx). exists x.
    unfold active_rows. rewrite list_elem_of_filter. destruct (row_id x =? i); [|done].
    rewrite Hip in Hp. split; [split; [by apply (ru_active f Hf) | done] | done].
Qed.

(** The pool has no address that was free in [d0]. *)
Definition exhausted {X} (d0 : Data) (scope : DhcpScope) (r : result X AppError) : Prop :=
  r = Err EXHAUSTED
  /\ forall j, ip_in_pool j (sc_pool_start scope) (sc_pool_end scope) = true -> taken d0 j.

Lemma total_valid d0 id mac a b :
  total (ready d0 id) (lease_if_still_valid mac a b) (fun r d => ready d0 id d /\ exists v, r = Ok v).
Proof.
  unfold lease_if_still_valid. eapply (total_bind _ _ _ (fun _ => ready d0 id)).
  { apply total_internal, total_db. intros d Hd. simpl.
    by destruct (find_decodes d (fun row => bool_decide (row_mac row = to_lowercase mac)
      && is_active_row row) (proj1 Hd)) as [o ->]. }
  intros [l|]; [|apply total_ret; eauto].
  eapply (total_bind _ _ _ (fun _ => ready d0 id)).
  { apply total_internal, total_db. intros d Hd. simpl.
    by destruct (find_res_decodes d (fun x => bool_decide (rr_mac x = to_lowercase mac))
      (proj1 Hd)) as [o ->]. }
  intros res. case_match; [apply total_ret; eauto|].
  eapply (total_bind _ _ _ (fun _ => ready d0 id)).
  { apply total_internal, total_db. intros d Hd. simpl.
    apply ready_update; [by apply set_row_status_update | done | done]. }
  intros _. eapply (total_bind _ _ _ (fun _ => ready d0 id)); [|intros; apply total_ret; eauto].
  apply total_internal, total_db. intros d (Hok & Hid & Ht). split; [|done].
  by eapply tables_ok_ext; [..|exact Hok].
Qed.

Lemma total_choose d0 id scope found :
  total (ready d0 id) (choose_ip scope found) (fun r d => ready d0 id d /\ (is_ok r = true \/ exhausted d0 scope r)).
Proof.
  unfold choose_ip. case_match; [apply total_ret; auto|].
  assert (Ht : total (ready d0 id) (find_available_ip (sc_pool_start scope) (sc_pool_end scope))
    (fun r d => ready d0 id d /\ (is_ok r = true \/ r = Err EXHAUSTED))).
  { unfold find_available_ip. eapply (total_bind _ _ _ (fun _ => ready d0 id)).
    { apply total_internal, total_db. intros d Hd. cbn [fst snd].
      destruct (collect_ok into_lease (filter (fun row => is_active_row row = true) (w_leases d)))
        as [ys ->]; [|done].
      apply Forall_forall. intros row [_ Hin]%list_elem_of_filter.
      exact (proj1 (Forall_forall _ _) (ok_rows _ (proj1 Hd)) row Hin). }
    intros ls. eapply (total_bind _ _ _ (fun _ => ready d0 id)).
    { apply total_internal, total_db. intros d Hd. cbn [fst snd].
      by destruct (collect_ok into_reservation (w_reservations d) (ok_res _ (proj1 Hd))) as [ys ->]. }
    intros rs. apply total_lift. intros d Hd. split; [done|].
    destruct (first_free _ _ _); [by left | by right]. }
  intros w Hw Hd. destruct (Ht w Hw Hd) as (Hf & Hr & Hc). split; [done|]. split; [done|].
  destruct (find_available_ip_hoare (sc_pool_start scope) (sc_pool_end scope) w (proj1 Hd))
    as [_ Ha]. destruct Hc as [Hc|Hc]; [by left | right].
  rewrite Hc in Ha |- *. split; [done|]. intros j Hj. by apply (proj2 (proj2 Hr)), Ha.
Qed.

Lemma total_allocate d0 id scope mac h :
  total (ready d0 id) (allocate_lease id scope mac h)
    (fun r _ => is_ok r = true \/ exhausted d0 scope r).
Proof.
  unfold allocate_lease. eapply (total_bind _ _ _ (fun _ => ready d0 id)).
  { apply total_internal, total_db. intros d Hd. simpl.
    by destruct (find_res_decodes d (fun x => bool_decide (rr_mac x = to_lowercase mac))
      (proj1 Hd)) as [o ->]. }
  intros found. eapply (total_bind _ _ _ (fun _ => ready d0 id)).
  { intros w Hw Hd. destruct (total_choose d0 id scope found w Hw Hd) as [Hf [Hr Hc]].
    split; [done|]. destruct (fst (choose_ip scope found w)) as [ip|e]; [done|].
    destruct Hc as [Hc|[Hc Hall]]; [done|]. right. split; [congruence | done]. }
  intros ip. eapply (total_bind _ _ _ (fun _ => ready d0 id)); [by apply total_gets|]. intros now.
  set (l := {| li_id := id; li_mac := mac |}).
  set (K := fun d => exists rows n, w_leases d = rows ++ [lease_row n l]
    /\ forall row, row ∈ rows -> row_id row <> id).
  eapply (total_bind _ _ _ (fun _ => K)).
  { apply total_internal, total_db. intros d (Hok & Hid & _). destruct (existsb _ _) eqn:E; simpl.
    - apply existsb_exists in E as (row & Hin & Heq). simpl in Heq. breflect.
      exfalso. apply Hid. rewrite <- Heq. apply list_elem_of_fmap_2. by apply list_elem_of_In.
    - exists (w_leases d), (w_now d). split; [done|]. intros row Hin Heq. apply Hid.
      rewrite <- Heq. by apply list_elem_of_fmap_2. }
  intros _. eapply (total_bind _ _ _ (fun _ => K)); [by apply total_internal, total_db|].
  intros _. eapply (total_bind _ _ _ (fun _ => K)); [by intros w Hw Hd|].
  intros _. eapply (total_bind _ _ _ (fun v _ => is_Some v)).
  - apply total_internal, total_db. intros d (rows & n & Hl & Hf). cbn [fst snd]. rewrite Hl.
    rewrite (find_app_last _ rows (lease_row n l)); [|intros; apply Z.eqb_neq; auto | apply Z.eqb_refl].
    assert (Hok : is_ok (into_lease (lease_row n l)) = true).
    { apply into_lease_ok. simpl. rewrite !parse_rfc3339, !parse_format_z.
      split_and!; try done. apply parse_show_ipv4_some. }
    unfold transpose. by destruct (into_lease (lease_row n l)).
  - intros v. apply total_lift. intros d [x ->]. by left.
Qed.

(** Reading does not make the storage fail. *)
Ltac quiet_step :=
  match goal with
  | |- forall _, _ => intro
  | |- total _ (mbind _ _) _ => apply (total_bind _ _ _ (fun _ _ => True))
  | |- total _ (mret _) _ => apply total_ret
  | |- total _ (st_lift _) _ => apply total_lift
  | |- total _ (internal _) _ => apply total_internal
  | |- total _ (config_get _) _ => apply total_db
  | |- total _ (match ?x with _ => _ end) _ => destruct x
  end.

Lemma total_attempt {X} (f : Data -> result X str) :
  total (fun _ => True) (attempt (db_read f)) (fun _ _ => True).
Proof. intros w Hw _. unfold attempt, db_read, db. by rewrite Hw. Qed.

Lemma total_weaken {E X} (m : ST World E X) Q :
  total (fun _ => True) m (fun _ _ => True) -> (forall r d, Q r d) -> total (fun _ => True) m Q.
Proof. intros H HQ w Hw HP. destruct (H w Hw HP). by split. Qed.

Ltac quiet := repeat first
  [ quiet_step | done
  | match goal with |- context [match ?r with Ok _ => _ | Err _ => _ end] => destruct r end ].

Lemma total_load_config : total (fun _ => True) (load_config gateway_ip) (fun _ _ => True).
Proof. unfold load_config. destruct (octets gateway_ip) as [[[g0 g1] g2] g3]. quiet. Qed.

Lemma total_resolve_zone mac :
  total (fun _ => True) (resolve_zone_for_mac mac) (fun _ _ => True).
Proof.
  unfold resolve_zone_for_mac. eapply (total_bind _ _ _ (fun _ _ => True)).
  { apply total_weaken; [apply total_attempt | by intros []]. }
  intros [[d|]|e]; [| |by apply total_ret];
    (eapply (total_bind _ _ _ (fun _ _ => True));
      [apply total_weaken; [apply total_attempt | by intros []]|]); quiet.
Qed.

Lemma total_resolve_scope mac :
  total (fun _ => True) (resolve_scope gateway_ip mac) (fun _ _ => True).
Proof.
  unfold resolve_scope, wardnet_dns_enabled.
  eapply (total_bind _ _ _ (fun _ _ => True));
    [apply total_weaken; [apply total_load_config | by intros []]|]. intros base.
  eapply (total_bind _ _ _ (fun _ _ => True)); [quiet|]. intros b.
  eapply (total_bind _ _ _ (fun _ _ => True));
    [apply total_weaken; [apply total_resolve_zone | by intros []]|]. quiet.
Qed.

(** C22: on storage that does not fail, a known caller with a readable
    configuration and a new lease id always gets a lease, unless every address
    of its pool is leased or reserved. *)
Theorem assign_lease_progress id mac h w scope :
  require_admin ctx = Ok tt -> w_faults w = [] -> tables_ok (w_data w) -> fresh_id id (w_data w) ->
  fst (resolve_scope gateway_ip mac w) = Ok scope ->
  let r := fst (assign_lease gateway_ip ctx id mac h w) in
  (exists lease, r = Ok lease)
  \/ (r = Err EXHAUSTED
      /\ forall j, ip_in_pool j (sc_pool_start scope) (sc_pool_end scope) = true ->
           taken (w_data w) j).
Proof.
  intros Ha Hw Hok Hid Hs r.
  assert (Ht : total (ready (w_data w) id)
    (valid ← lease_if_still_valid mac (sc_pool_start scope) (sc_pool_end scope);
     match valid with
     | Some existing => reuse_lease mac (normalised_hostname h) existing
     | None => allocate_lease id scope mac (normalised_hostname h)
     end) (fun r _ => is_ok r = true \/ exhausted (w_data w) scope r)).
  { eapply (total_bind _ _ _ (fun _ => ready (w_data w) id)).
    - intros w1 Hw1 Hd. destruct (total_valid (w_data w) id mac (sc_pool_start scope) (sc_pool_end scope)
        w1 Hw1 Hd) as [Hf [Hr [v Hv]]]. split; [done|]. by rewrite Hv.
    - intros [l|]; [|apply total_allocate]. unfold reuse_lease. intros w1 Hw1 _.
      case_match; [|by split; [|left]]. unfold mbind, st_bind, internal, update_lease_hostname,
        insert_lease_log, update_by_id, db_write, db. rewrite Hw1. simpl. by split; [|left]. }
  assert (Hx : is_ok r = true \/ exhausted (w_data w) scope r).
  { destruct (resolve_scope gateway_ip mac w) as [r1 w1] eqn:E. simpl in Hs. subst r1.
    pose proof (reads_run _ _ _ _ (reads_resolve_scope mac) E) as Hd.
    destruct (total_resolve_scope mac w Hw I) as [Hf _]. rewrite E in Hf.
    unfold r, assign_lease. rewrite (bind_Ok_run _ _ w tt w) by (unfold guard_admin; by rewrite Ha).
    cbv zeta. rewrite (bind_Ok_run _ _ w scope w1 E). apply (Ht w1); [done|]. rewrite Hd. by split_and!. }
  destruct r as [l|e]; [left; by eexists | right]. by destruct Hx as [|[? ?]].
Qed.

End laws.

(** ** Histories of operations *)

Inductive dhcp_op : Type :=
| OpGetConfig
| OpUpdateConfig (req : UpdateDhcpConfigRequest)
| OpPreviewConfig (pool_start pool_end : str)
| OpToggle (enabled : bool)
| OpListLeases
| OpRevokeLease (id : Z)
| OpListReservations
| OpCreateReservation (id : Z) (req : CreateDhcpReservationRequest)
| OpDeleteReservation (id : Z)
| OpStatus
| OpAssignLease (id : Z) (mac : str) (hostname : option str)
| OpRenewLease (id : Z) (mac : str) (hostname : option str)
| OpReleaseLease (mac : str)
| OpActiveLease (mac : str)
| OpCleanupExpired
| OpGetDhcpConfig
| OpScopeForMac (mac : str).

Section histories.
Context {T : TimeLib} {TLaws : TimeLaws T} {U : UuidLib} {J : JsonLib} {L : Ipv4NetworkLib}.
Context (gateway_ip : Ipv4Addr).

Definition discard {X} (m : ST World AppError X) : ST World AppError unit := _ ← m; mret tt.

(** Every method of the service's trait. *)
Definition exec (ctx : option AuthContext) (op : dhcp_op) : ST World AppError unit :=
  match op with
  | OpGetConfig => discard (get_config gateway_ip ctx)
  | OpUpdateConfig req => discard (update_config gateway_ip ctx req)
  | OpPreviewConfig a b => discard (preview_config ctx a b)
  | OpToggle e => discard (toggle gateway_ip ctx e)
  | OpListLeases => discard (list_leases ctx)
  | OpRevokeLease id => discard (revoke_lease ctx id)
  | OpListReservations => discard (svc_list_reservations ctx)
  | OpCreateReservation id req => discard (create_reservation ctx id req)
  | OpDeleteReservation id => discard (delete_reservation ctx id)
  | OpStatus => discard (status gateway_ip ctx)
  | OpAssignLease id mac h => discard (assign_lease gateway_ip ctx id mac h)
  | OpRenewLease id mac h => discard (renew_lease gateway_ip ctx id mac h)
  | OpReleaseLease mac => release_lease ctx mac
  | OpActiveLease mac => discard (active_lease ctx mac)
  | OpCleanupExpired => discard (cleanup_expired ctx)
  | OpGetDhcpConfig => discard (get_dhcp_config gateway_ip ctx)
  | OpScopeForMac mac => discard (scope_for_mac gateway_ip ctx mac)
  end.

(** Every method answers [Forbidden] to a caller who is not an admin, and
    touches nothing: not the tables, not the configuration, not even the
    storage. *)
Theorem exec_requires_admin ctx op w :
  (forall u, ctx = Some (User u) -> role u <> Admin) ->
  exec ctx op w = (Err (Forbidden "admin privileges required"), w).
Proof.
  intros Hna. assert (Ha : require_admin ctx = Err (Forbidden "admin privileges required")).
  { destruct (require_admin_cases ctx) as [(u & -> & Hr)%require_admin_Ok|]; [|done].
    by exfalso; eapply Hna. }
  assert (Hg : forall X (k : unit -> ST World AppError X),
    (guard_admin ctx ≫= k) w = (Err (Forbidden "admin privileges required"), w)).
  { intros X k. unfold guard_admin, mbind, st_bind, st_lift. by rewrite Ha. }
  destruct op; simpl; try apply Hg;
    unfold discard, mbind at 1, st_bind at 1;
    unfold get_config, update_config, preview_config, toggle, list_leases, svc_list_reservations,
      create_reservation, revoke_lease, delete_reservation, status, assign_lease, renew_lease,
      active_lease, cleanup_expired,
      get_dhcp_config, scope_for_mac; by rewrite Hg.
Qed.

(** One step of a history: who calls, when, what fails, and how the rest of the
    daemon changed the configuration, devices and zones meanwhile. *)
Record history_step : Type := {
  hs_ctx : option AuthContext;
  hs_now : Z;
  hs_faults : list (option str);
  hs_config : gmap str str;
  hs_devices : list DeviceRec;
  hs_zones : list ZoneRec;
  hs_op : dhcp_op;
}.

Definition step_data (d : Data) (s : history_step) : Data :=
  w_data (snd (exec (hs_ctx s) (hs_op s)
    {| w_data := {| w_leases := w_leases d; w_reservations := w_reservations d; w_log := w_log d;
                    w_config := hs_config s; w_devices := hs_devices s; w_zones := hs_zones s;
                    w_events := w_events d; w_now := hs_now s |};
       w_faults := hs_faults s |})).

Definition run_history (d : Data) (steps : list history_step) : Data := foldl step_data d steps.

Definition fresh_data : Data :=
  {| w_leases := []; w_reservations := []; w_log := []; w_config := ∅; w_devices := [];
     w_zones := []; w_events := []; w_now := 0 |}.

Lemma keeps_discard {X} (m : ST World AppError X) : keeps tables_ok m -> keeps tables_ok (discard m).
Proof. intros H. apply keeps_bind; [done|]. intros. apply keeps_ret. Qed.

Lemma keeps_exec ctx op : keeps tables_ok (exec ctx op).
Proof.
  destruct op; simpl; try apply keeps_discard;
    unfold get_config, preview_config, toggle, list_leases, svc_list_reservations,
      delete_reservation, status, active_lease, cleanup_expired, get_dhcp_config, scope_for_mac;
    eauto using keeps_update_config, keeps_revoke_lease, keeps_create_reservation,
      keeps_assign_lease, keeps_renew_lease, keeps_release_lease;
    (apply keeps_bind; [apply keeps_guard|]; intros _);
    eauto using keeps_load_config, keeps_resolve_scope with wardnet; svc_keeps;
    eauto using keeps_load_config, keeps_leases_outside_pool.
Qed.

(** C1: whatever the callers do, in whatever order, with storage failing at any
    call and the rest of the daemon changing zones, devices and configuration
    in between: no client ever holds two active leases, lease ids stay unique,
    reservations stay unique per MAC and per address, and every stored row
    still decodes. *)
Theorem dhcp_history_ok steps : tables_ok (run_history fresh_data steps).
Proof.
  assert (H : forall d, tables_ok d -> tables_ok (run_history d steps)).
  { induction steps as [|s steps IH]; intros d Hd; [done|]. simpl. apply IH.
    unfold step_data. apply (keeps_exec (hs_ctx s) (hs_op s)). simpl.
    by eapply tables_ok_ext; [..|exact Hd]. }
  apply H. split; simpl; constructor.
Qed.

End histories.
