(* ===== verification/DhcpServer.v ===== *)
(** * The DHCP packet server

    [wardnetd/src/dhcp/server.rs], the packet half: admission of a decoded
    message, the DISCOVER, REQUEST and RELEASE handlers, the replies they build
    and where a reply is sent.  The concurrent half is [DhcpDispatcher].

    The [dhcproto] crate is seen through what the code reads and writes: a
    received message is the record of the accessors the code calls ([Request]),
    a reply the record of the setters it calls on [Message::default()] and the
    options it inserts ([Reply]).  The lease service is the interface
    [LeaseService]; the handlers are verified against its laws and the service
    of [DhcpService] is an instance. *)

From S2P Require Import Prelude RustStr Net Auth DhcpRepo DhcpService DhcpLaws.

Inductive MessageType : Type :=
| Discover | Offer | DRequest | Decline | Ack | Nak | Release | Inform | OtherType (n : Z).

#[export] Instance MessageType_eq_dec : EqDecision MessageType.
Proof. solve_decision. Defined.

Inductive HType : Type := Eth | OtherHType (n : Z).

#[export] Instance HType_eq_dec : EqDecision HType.
Proof. solve_decision. Defined.

(** ** Messages *)

Record Request : Type := {
  rq_htype : HType;
  rq_hlen : Z;
  rq_chaddr_field : list Z;          (** the fixed 16-byte field *)
  rq_xid : Z;
  rq_broadcast : bool;               (** [flags().broadcast()] *)
  rq_ciaddr : Ipv4Addr;
  rq_giaddr : Ipv4Addr;
  rq_msg_type : option MessageType;  (** option 53 *)
  rq_requested_ip : option Ipv4Addr; (** option 50 *)
  rq_hostname : option str;          (** option 12 *)
  rq_param_list : option (list Z);   (** option 55, as codes *)
}.

(** [msg.chaddr()] slices the field by the wire's [hlen]; [None] is its panic. *)
Definition chaddr (msg : Request) : option (list Z) :=
  if rq_hlen msg <=? Z.of_nat (length (rq_chaddr_field msg))
  then Some (take (Z.to_nat (rq_hlen msg)) (rq_chaddr_field msg)) else None.

Inductive DhcpOption : Type :=
| OptMessageType (t : MessageType)
| OptServerIdentifier (ip : Ipv4Addr)
| OptAddressLeaseTime (secs : Z)
| OptSubnetMask (mask : Ipv4Addr)
| OptRouter (routers : list Ipv4Addr)
| OptDomainNameServer (servers : list Ipv4Addr)
| OptClasslessStaticRoute (routes : list (Ipv4Addr * Z * Ipv4Addr)).

Record Reply : Type := {
  rp_xid : Z;
  rp_yiaddr : Ipv4Addr;
  rp_siaddr : Ipv4Addr;
  rp_broadcast : bool;               (** [Flags::default()], with the bit or not *)
  rp_chaddr : option (list Z);
  rp_opts : list DhcpOption;
}.

(** [reply.opts().msg_type()] *)
Fixpoint opt_msg_type (opts : list DhcpOption) : option MessageType :=
  match opts with
  | OptMessageType t :: _ => Some t
  | _ :: opts' => opt_msg_type opts'
  | [] => None
  end.

(** ** Reading a message *)

Definition hex_digit (d : Z) : ascii :=
  ascii_of_N (Z.to_N (if d <? 10 then 48 + d else 87 + d)).

(** [format!("{b:02x}")] *)
Definition hex_byte (b : Z) : str := [hex_digit (b / 16); hex_digit (b mod 16)].

Definition format_mac (chaddr : list Z) : str :=
  let bytes := if (6 <=? length chaddr)%nat then take 6 chaddr else chaddr in
  join ":" (hex_byte <$> bytes).

Definition extract_hostname (msg : Request) : option str := rq_hostname msg.

Definition extract_requested_ip (msg : Request) : Ipv4Addr :=
  if negb (is_unspecified (rq_ciaddr msg)) then rq_ciaddr msg
  else match rq_requested_ip msg with
       | Some ip => ip
       | None => UNSPECIFIED
       end.

Definition extract_param_list (msg : Request) : option str :=
  match rq_param_list msg with
  | Some [] => None
  | Some codes => Some (join "," (show_u8 <$> codes))
  | None => None
  end.

(** ** Building a reply *)

Definition build_nak (request : Request) (scope : DhcpScope) : Reply :=
  {| rp_xid := rq_xid request; rp_yiaddr := UNSPECIFIED; rp_siaddr := UNSPECIFIED;
     rp_broadcast := true; rp_chaddr := chaddr request;
     rp_opts := [OptMessageType Nak; OptServerIdentifier (sc_gateway_ip scope)] |}.

Definition build_response (request : Request) (msg_type : MessageType) (lease : DhcpLease)
    (scope : DhcpScope) : Reply :=
  let server_ip := sc_gateway_ip scope in
  let routers :=
    match sc_router_ip scope with
    | Some router_ip => if router_ip =? server_ip then [server_ip] else [server_ip; router_ip]
    | None => [server_ip]
    end in
  let dns_servers := match sc_dns scope with [] => [server_ip] | dns => dns end in
  {| rp_xid := rq_xid request; rp_yiaddr := dl_ip_address lease; rp_siaddr := server_ip;
     rp_broadcast := rq_broadcast request; rp_chaddr := chaddr request;
     rp_opts :=
       [OptMessageType msg_type; OptServerIdentifier server_ip;
        OptAddressLeaseTime (sc_lease_duration_secs scope); OptSubnetMask (sc_subnet_mask scope);
        OptRouter routers; OptDomainNameServer dns_servers]
       ++ (if sc_member_isolation scope
           then [OptClasslessStaticRoute [(UNSPECIFIED, 0, server_ip)]] else []) |}.

Definition broadcast_68 : SocketAddr := {| sa_ip := V4 BROADCAST; sa_port := 68 |}.

Definition reply_destination (request : Request) (reply : Reply) (src_addr : SocketAddr)
    : SocketAddr :=
  if negb (is_unspecified (rq_giaddr request))
  then {| sa_ip := V4 (rq_giaddr request); sa_port := 67 |}
  else if bool_decide (opt_msg_type (rp_opts reply) = Some Nak) then broadcast_68
  else if rq_broadcast request then broadcast_68
  else if ip_is_unspecified (sa_ip src_addr) then broadcast_68
  else src_addr.

(** ** The lease service the handlers call *)

Class LeaseService (W : Type) : Type := {
  svc_assign : option AuthContext -> Z -> str -> option str -> ST W AppError DhcpLease;
  svc_renew : option AuthContext -> Z -> str -> option str -> ST W AppError DhcpLease;
  svc_release : option AuthContext -> str -> ST W AppError unit;
  svc_active : option AuthContext -> str -> ST W AppError (option DhcpLease);
  svc_scope : option AuthContext -> str -> ST W AppError DhcpScope;
}.

(** What the handlers rely on, for a notion [good] of world, of the lease a
    client holds ([held]) and of an observation that lookups leave alone. *)
Class LeaseServiceLaws (W : Type) {S : LeaseService W} (D : Type) (data : W -> D)
    (good : D -> Prop) (held : str -> DhcpLease -> D -> Prop) : Prop := {
  law_active_reads ctx mac w : data (snd (svc_active ctx mac w)) = data w;
  law_scope_reads ctx mac w : data (snd (svc_scope ctx mac w)) = data w;
  law_assign ctx id mac h w l w' : good (data w) -> svc_assign ctx id mac h w = (Ok l, w') ->
    good (data w') /\ held mac l (data w');
  law_renew ctx id mac h w l w' : good (data w) -> svc_renew ctx id mac h w = (Ok l, w') ->
    good (data w') /\ held mac l (data w');
  law_active ctx mac w l w' : good (data w) -> svc_active ctx mac w = (Ok (Some l), w') ->
    held mac l (data w);
  law_scope_dns ctx mac w sc w' : svc_scope ctx mac w = (Ok sc, w') -> sc_dns sc <> [];
}.

(** ** Handlers *)

Section handlers.
Context {W : Type} {S : LeaseService W}.

Definition sys : option AuthContext := Some system_ctx.

Definition handle_discover (id : Z) (msg : Request) (mac : str) : ST W AppError Reply :=
  lease ← svc_assign sys id mac (extract_hostname msg);
  scope ← svc_scope sys mac;
  mret (build_response msg Offer lease scope).

Definition handle_request (id : Z) (msg : Request) (mac : str) : ST W AppError Reply :=
  let requested_ip := extract_requested_ip msg in
  lease ← svc_renew sys id mac (extract_hostname msg);
  scope ← svc_scope sys mac;
  if negb (is_unspecified requested_ip) && negb (dl_ip_address lease =? requested_ip)
  then mret (build_nak msg scope)
  else mret (build_response msg Ack lease scope).

Definition handle_release (mac : str) (src_addr : SocketAddr) (w : W) : W :=
  let claimed_ip := match sa_ip src_addr with V4 v4 => v4 | V6 _ => UNSPECIFIED end in
  if is_unspecified claimed_ip || is_broadcast claimed_ip then w
  else
    match svc_active sys mac w with
    | (Err _, w1) => w1
    | (Ok None, w1) => w1
    | (Ok (Some lease), w1) =>
        if negb (dl_ip_address lease =? claimed_ip) then w1
        else snd (svc_release sys mac w1)
    end.

(** One message: the reply to send, if any, and its destination. *)
Definition handle_packet (id : Z) (msg_type : MessageType) (msg : Request) (mac : str)
    (src_addr : SocketAddr) (w : W) : option (Reply * SocketAddr) * W :=
  match msg_type with
  | Discover =>
      match handle_discover id msg mac w with
      | (Ok response, w') => (Some (response, broadcast_68), w')
      | (Err _, w') => (None, w')
      end
  | DRequest =>
      match handle_request id msg mac w with
      | (Ok response, w') => (Some (response, reply_destination msg response src_addr), w')
      | (Err _, w') => (None, w')
      end
  | Release => (None, handle_release mac src_addr w)
  | _ => (None, w)
  end.

End handlers.

(** The acceptance test of [server_loop] on a decoded message: what reaches the
    dispatcher, with the MAC it is filed under. *)
Definition accept_packet (own_macs : gset str) (msg : Request) : option (MessageType * str) :=
  if negb (bool_decide (rq_htype msg = Eth)) || negb (rq_hlen msg =? 6) then None
  else
    msg_type ← rq_msg_type msg;
    addr ← chaddr msg;
    let mac := format_mac addr in
    if bool_decide (mac ∈ own_macs) then None else Some (msg_type, mac).

(** [decode_bounded], after [Message::decode]. *)
Definition decode_bounded (decode : list Z -> option Request) (packet : list Z)
    : option Request :=
  msg ← decode packet;
  if rq_hlen msg <=? 16 then Some msg else None.

(** ** MAC addresses *)

Lemma hex_byte_checked : forallb (fun b =>
  bool_decide (to_lowercase (hex_byte b) = hex_byte b)
  && forallb (fun c => bool_decide (hex_byte b = hex_byte c -> b = c)) (seqZ 0 256)) (seqZ 0 256)
  = true.
Proof. vm_compute. reflexivity. Qed.

Lemma hex_byte_ok b : is_u8 b -> to_lowercase (hex_byte b) = hex_byte b
  /\ forall c, is_u8 c -> hex_byte b = hex_byte c -> b = c.
Proof.
  unfold is_u8, U8_MAX. intros Hb. pose proof hex_byte_checked as H.
  rewrite forallb_forall in H. specialize (H b).
  rewrite <- list_elem_of_In, elem_of_seqZ, andb_true_iff, bool_decide_eq_true, forallb_forall in H.
  destruct H as [H1 H2]; [lia|]. split; [done|]. intros c Hc. specialize (H2 c).
  rewrite <- list_elem_of_In, elem_of_seqZ, bool_decide_eq_true in H2. apply H2. lia.
Qed.

(** The text of a six-byte hardware address. *)
Lemma format_mac_six a b c d e f : format_mac [a; b; c; d; e; f] =
  hex_byte a ++ ":" ++ hex_byte b ++ ":" ++ hex_byte c ++ ":" ++ hex_byte d ++ ":"
  ++ hex_byte e ++ ":" ++ hex_byte f.
Proof. done. Qed.

Lemma format_mac_lower bs : length bs = 6%nat -> Forall is_u8 bs ->
  to_lowercase (format_mac bs) = format_mac bs.
Proof.
  intros Hl Hb. destruct bs as [|a [|b [|c [|d [|e [|f [|]]]]]]]; try done.
  repeat (apply Forall_cons in Hb as [? Hb]). rewrite format_mac_six.
  unfold to_lowercase. rewrite !to_ascii_lowercase_app.
  repeat match goal with H : is_u8 ?x |- _ =>
    let Hx := fresh in pose proof (proj1 (hex_byte_ok x H)) as Hx; unfold to_lowercase in Hx;
    rewrite Hx; clear H end. done.
Qed.

Lemma format_mac_inj bs cs : length bs = 6%nat -> length cs = 6%nat -> Forall is_u8 bs ->
  Forall is_u8 cs -> format_mac bs = format_mac cs -> bs = cs.
Proof.
  intros Hl Hl' Hb Hc. destruct bs as [|a [|b [|c [|d [|e [|f [|]]]]]]]; try done.
  destruct cs as [|a' [|b' [|c' [|d' [|e' [|f' [|]]]]]]]; try done.
  rewrite !format_mac_six. repeat (apply Forall_cons in Hb as [? Hb]).
  repeat (apply Forall_cons in Hc as [? Hc]). intros Heq. unfold hex_byte in Heq. simpl in Heq.
  injection Heq as E1 E2 E3 E4 E5 E6 E7 E8 E9 E10 E11 E12.
  repeat f_equal; (apply hex_byte_ok; [done | done |]); unfold hex_byte; congruence.
Qed.

(** A message reaches the dispatcher only from an Ethernet interface with a
    six-byte address and a message type, so reading its hardware address cannot
    run past the field; it is filed under the lower-case text of that address,
    which identifies the address, and never for one of the daemon's own. *)
Theorem accept_packet_sound own msg t mac :
  length (rq_chaddr_field msg) = 16%nat -> Forall is_u8 (rq_chaddr_field msg) ->
  accept_packet own msg = Some (t, mac) ->
  rq_msg_type msg = Some t
  /\ (exists addr, chaddr msg = Some addr /\ addr = take 6 (rq_chaddr_field msg)
        /\ length addr = 6%nat /\ mac = format_mac addr
        /\ forall other, length other = 6%nat -> Forall is_u8 other ->
             format_mac other = mac -> other = addr)
  /\ to_lowercase mac = mac /\ (mac ∉ own).
Proof.
  intros Hlen Hb. unfold accept_packet. destruct (_ || _) eqn:Hg; [done|]. breflect.
  destruct (rq_msg_type msg) as [t'|]; [|done]. simpl.
  assert (Hc : chaddr msg = Some (take 6 (rq_chaddr_field msg))).
  { unfold chaddr. rewrite Hlen. by replace (rq_hlen msg) with 6. }
  rewrite Hc. simpl. case_bool_decide as Hown; [done|]. intros [= -> <-].
  assert (Hl6 : length (take 6 (rq_chaddr_field msg)) = 6%nat) by (rewrite length_take; lia).
  assert (Hb6 : Forall is_u8 (take 6 (rq_chaddr_field msg))) by (by apply Forall_take).
  split; [done|]. split; [|split; [by apply format_mac_lower | done]].
  eexists. split; [done|]. split; [done|]. split; [done|]. split; [done|].
  intros other Ho Hob Heq. by apply format_mac_inj in Heq.
Qed.

(** ** Replies *)

(** Every reply a handler builds names one server, always tells the client
    a resolver and a router (the server first), adds the default classless
    route exactly for isolated members, and reflects no more of the client's
    flags than the broadcast bit. *)
Theorem build_response_options msg t lease scope :
  let r := build_response msg t lease scope in
  opt_msg_type (rp_opts r) = Some t
  /\ rp_yiaddr r = dl_ip_address lease /\ rp_siaddr r = sc_gateway_ip scope
  /\ rp_broadcast r = rq_broadcast msg
  /\ (exists rest, OptRouter (sc_gateway_ip scope :: rest) ∈ rp_opts r
        /\ (forall x, x ∈ rest -> sc_router_ip scope = Some x /\ x <> sc_gateway_ip scope))
  /\ (exists dns, OptDomainNameServer dns ∈ rp_opts r /\ dns <> []
        /\ (sc_dns scope <> [] -> dns = sc_dns scope))
  /\ (sc_member_isolation scope = true <->
      OptClasslessStaticRoute [(UNSPECIFIED, 0, sc_gateway_ip scope)] ∈ rp_opts r).
Proof.
  intros r. split_and!; try done.
  - unfold r, build_response. simpl. destruct (sc_router_ip scope) as [x|].
    + destruct (Z.eqb_spec x (sc_gateway_ip scope)) as [E|E].
      * exists []. split; [set_solver|]. set_solver.
      * exists [x]. split; [set_solver|]. intros y ->%list_elem_of_singleton. done.
    + exists []. split; [set_solver|]. set_solver.
  - unfold r, build_response. simpl. destruct (sc_dns scope) as [|x dns].
    + exists [sc_gateway_ip scope]. split; [set_solver|]. done.
    + exists (x :: dns). split; [set_solver|]. done.
  - unfold r, build_response. simpl. destruct (sc_member_isolation scope); [set_solver|].
    split; [done|]. intros H. exfalso. set_solver.
Qed.

(** Where a reply goes.  A relayed request is answered to its relay;
    otherwise a NAK, a client that asked for broadcast and a client without an
    address are answered by broadcast; only then is the reply sent to the
    address the request came from, which is then a real address. *)
Theorem reply_destination_spec request reply src :
  let dest := reply_destination request reply src in
  (rq_giaddr request <> UNSPECIFIED ->
     dest = {| sa_ip := V4 (rq_giaddr request); sa_port := 67 |})
  /\ (rq_giaddr request = UNSPECIFIED ->
      (dest = broadcast_68
       /\ (opt_msg_type (rp_opts reply) = Some Nak \/ rq_broadcast request = true
           \/ ip_is_unspecified (sa_ip src) = true))
      \/ (dest = src /\ opt_msg_type (rp_opts reply) <> Some Nak
          /\ rq_broadcast request = false /\ ip_is_unspecified (sa_ip src) = false)).
Proof.
  intros dest. unfold dest, reply_destination, is_unspecified. split.
  - intros Hg. by rewrite (proj2 (Z.eqb_neq _ _) Hg).
  - intros ->. simpl. case_bool_decide as Hn; [by auto|].
    destruct (rq_broadcast request); [by auto|].
    destruct (ip_is_unspecified (sa_ip src)); [by auto | by right].
Qed.

(** ** Handlers, against the interface *)

Section handler_laws.
Context {W D : Type} {S : LeaseService W} {data : W -> D} {good : D -> Prop}.
Context {held : str -> DhcpLease -> D -> Prop}.
Context {SL : LeaseServiceLaws W D data good held}.

(** C14: an OFFER or ACK carries an address only if the client holds a lease on
    it when the reply is built; an ACK never grants another address than the
    one the client asked to keep, and such a request is answered by a NAK that
    carries no address. *)
Theorem replies_hold_leases id msg mac w r w' :
  good (data w) ->
  (handle_discover id msg mac w = (Ok r, w') ->
     opt_msg_type (rp_opts r) = Some Offer
     /\ exists l, rp_yiaddr r = dl_ip_address l /\ held mac l (data w'))
  /\ (handle_request id msg mac w = (Ok r, w') ->
      exists l, held mac l (data w') /\
        ((opt_msg_type (rp_opts r) = Some Ack /\ rp_yiaddr r = dl_ip_address l
          /\ (extract_requested_ip msg = UNSPECIFIED
              \/ rp_yiaddr r = extract_requested_ip msg))
         \/ (opt_msg_type (rp_opts r) = Some Nak /\ rp_yiaddr r = UNSPECIFIED
             /\ dl_ip_address l <> extract_requested_ip msg
             /\ extract_requested_ip msg <> UNSPECIFIED))).
Proof.
  intros Hg. split.
  - unfold handle_discover. intros (l & w1 & Ha & H)%bind_Ok_inv.
    apply bind_Ok_inv in H as (sc & w2 & Hs & H). injection H as <- <-.
    apply (law_assign (data := data)) in Ha as [_ Hh]; [|done].
    split; [done|]. exists l. split; [done|].
    pose proof (law_scope_reads (data := data) sys mac w1) as Hr. rewrite Hs in Hr. simpl in Hr.
    by rewrite Hr.
  - unfold handle_request. intros (l & w1 & Ha & H)%bind_Ok_inv.
    apply bind_Ok_inv in H as (sc & w2 & Hs & H).
    apply (law_renew (data := data)) in Ha as [_ Hh]; [|done].
    pose proof (law_scope_reads (data := data) sys mac w1) as Hr. rewrite Hs in Hr. simpl in Hr.
    exists l. unfold is_unspecified in H.
    destruct (Z.eqb_spec (extract_requested_ip msg) UNSPECIFIED) as [E|E]; simpl in H.
    + injection H as <- <-. rewrite Hr. split; [done|]. left. by auto.
    + destruct (Z.eqb_spec (dl_ip_address l) (extract_requested_ip msg)) as [E'|E']; simpl in H;
        injection H as <- <-; rewrite Hr; (split; [done|]).
      * left. split; [done|]. split; [done|]. right. done.
      * right. by auto.
Qed.

(** C13: a RELEASE has an effect only when the datagram came from the very
    address of the lease the client holds; any other source, or an unspecified
    or broadcast one, changes nothing whatever the message claims. *)
Theorem release_needs_source mac src w :
  good (data w) ->
  data (handle_release mac src w) <> data w ->
  exists l ip, sa_ip src = V4 ip /\ ip <> UNSPECIFIED /\ ip <> BROADCAST
    /\ held mac l (data w) /\ dl_ip_address l = ip.
Proof.
  intros Hg. unfold handle_release.
  pose proof (law_active_reads (data := data) sys mac w) as Hr.
  destruct (is_unspecified _ || is_broadcast _) eqn:Hc; [done|].
  destruct (svc_active sys mac w) as [[[l|]|e] w1] eqn:Ha; simpl in Hr; [|by rewrite Hr..].
  apply (law_active (data := data)) in Ha; [|done].
  destruct (Z.eqb_spec (dl_ip_address l) (match sa_ip src with V4 v4 => v4 | V6 _ => UNSPECIFIED end))
    as [E|E]; simpl; [|by rewrite Hr].
  intros _. apply orb_false_iff in Hc as [Hu Hb]. unfold is_unspecified, is_broadcast in *. breflect.
  destruct (sa_ip src) as [ip|ip]; [|done]. exists l, ip. by split_and!.
Qed.

End handler_laws.

(** ** The service of [DhcpService] is such a service *)

Section instance.
Context {T : TimeLib} {TLaws : TimeLaws T} {U : UuidLib} {J : JsonLib}.
Context {L : Ipv4NetworkLib} {HL : Ipv4NetworkLaws L}.
Context (gateway_ip : Ipv4Addr).

Definition dhcp_lease_service : LeaseService World := {|
  svc_assign := fun ctx => assign_lease gateway_ip ctx;
  svc_renew := fun ctx => renew_lease gateway_ip ctx;
  svc_release := release_lease;
  svc_active := active_lease;
  svc_scope := fun ctx => scope_for_mac gateway_ip ctx;
|}.

Lemma active_lease_holds ctx mac w l w' : tables_ok (w_data w) ->
  active_lease ctx mac w = (Ok (Some l), w') -> holds mac l (w_data w).
Proof.
  intros Hok (u & w0 & Hg & H)%bind_Ok_inv. injection Hg as _ <-.
  assert (Hf : transpose into_lease (List.find (fun row => bool_decide (row_mac row = to_lowercase mac)
    && is_active_row row) (w_leases (w_data w))) = Ok (Some l)).
  { unfold internal, find_active_lease_by_mac, db_read, db in H.
    destruct (w_faults w) as [|[e|] fs]; [|done|]; by destruct (transpose _ _); simplify_eq/=. }
  apply find_active_row in Hf as (row & Hrow & Hm & Hl).
  by destruct (found_working mac _ _ _ _ _ (framed_intro mac _ Hok) Hrow Hm Hl) as (_ & _ & Hh).
Qed.

#[export] Instance dhcp_lease_service_laws :
  @LeaseServiceLaws World dhcp_lease_service Data w_data tables_ok holds.
Proof.
  split; simpl.
  - intros ctx mac w. apply (reads_of_keeps (active_lease ctx mac)). intros P.
    unfold active_lease. apply keeps_bind; [apply keeps_guard|]. svc_keeps.
  - intros ctx mac w. apply (reads_of_keeps (scope_for_mac gateway_ip ctx mac)). intros P.
    unfold scope_for_mac. apply keeps_bind; [apply keeps_guard|].
    intros. apply keeps_resolve_scope.
  - intros ctx id mac h w l w' Hok H.
    by destruct (assign_lease_facts gateway_ip ctx id mac h w l w' Hok H) as (? & ? & ? & ? & _).
  - intros ctx id mac h w l w' Hok H.
    by destruct (renew_lease_facts gateway_ip ctx id mac h w l w' Hok H) as (? & ? & _).
  - intros ctx mac w l w'. apply active_lease_holds.
  - intros ctx mac w sc w' (u & w0 & _ & H)%bind_Ok_inv.
    by destruct (resolve_scope_returns gateway_ip mac _ _ _ H).
Qed.

(** The whole packet path keeps the table invariant. *)
Lemma handle_packet_ok id t msg mac src w :
  tables_ok (w_data w) ->
  tables_ok (w_data (snd (@handle_packet World dhcp_lease_service id t msg mac src w))).
Proof.
  intros Hok. destruct t; simpl; try done.
  - assert (H : keeps tables_ok (@handle_discover World dhcp_lease_service id msg mac)).
    { unfold handle_discover. simpl. apply keeps_bind; [apply keeps_assign_lease|]. intros l.
      unfold scope_for_mac. apply keeps_bind; [|intros; apply keeps_ret].
      apply keeps_bind; [apply keeps_guard|]. intros. apply keeps_resolve_scope. }
    specialize (H w Hok). by destruct (handle_discover id msg mac w) as [[] ?].
  - assert (H : keeps tables_ok (@handle_request World dhcp_lease_service id msg mac)).
    { unfold handle_request. simpl. apply keeps_bind; [apply keeps_renew_lease|]. intros l.
      apply keeps_bind; [|intros; case_match; apply keeps_ret]. unfold scope_for_mac.
      apply keeps_bind; [apply keeps_guard|]. intros. apply keeps_resolve_scope. }
    specialize (H w Hok). by destruct (handle_request id msg mac w) as [[] ?].
  - unfold handle_release. simpl. case_match; [done|].
    destruct (active_lease sys mac w) as [r w1] eqn:E.
    assert (H1 : tables_ok (w_data w1)).
    { pose proof (law_active_reads (S := dhcp_lease_service) (data := w_data) sys mac w) as Hr.
      simpl in Hr. rewrite E in Hr. simpl in Hr. by rewrite Hr. }
    destruct r as [[l|]|e]; [|done..]. destruct (negb (dl_ip_address l =? _)); [done|].
    by apply keeps_release_lease.
Qed.

End instance.
