(* ===== verification/DhcpDispatcher.v ===== *)
(** * The DHCP dispatcher

    [wardnetd/src/dhcp/server.rs], the concurrent half: [Dispatcher],
    [InflightGuard] and [drain].  A step is one atomic section of the code (the
    locked part of [dispatch], the locked part at the end of a handler's loop,
    the drop of a guard or a permit); tasks interleave arbitrarily, so a run is
    any sequence of enabled events.  The mutex is never poisoned, because no
    locked section can panic.  [st_seq] and [st_started] are ghost: they number
    the packets handed to [dispatch] and record which ones were handled. *)

From Stdlib Require Import Sorted.
From S2P Require Import Prelude RustStr Net DhcpServer.

Definition MAX_CONCURRENT_HANDLERS : nat := 64.

(** [PendingPacket], with its arrival number. *)
Record packet : Type := {
  pk_seq : nat;
  pk_type : MessageType;
  pk_msg : Request;
  pk_src : SocketAddr;
}.

Inductive phase : Type :=
| Working (p : packet)    (** inside [handle_packet] *)
| Panicking               (** unwinding, the guard still armed *)
| Releasing.              (** slot released, the permit not yet dropped *)

Record task : Type := { t_mac : str; t_phase : phase }.

Record state : Type := {
  inflight : gmap str (option packet);
  permits : nat;
  tasks : gmap nat task;
  drained : bool;
  st_next : nat;
  st_seq : nat;
  st_started : list (str * nat);
}.

Definition init : state :=
  {| inflight := ∅; permits := MAX_CONCURRENT_HANDLERS; tasks := ∅; drained := false;
     st_next := 0; st_seq := 0; st_started := [] |}.

(** The locked section of [dispatch]. *)
Definition dispatch (mac : str) (t : MessageType) (msg : Request) (src : SocketAddr) (st : state)
    : state :=
  let p := {| pk_seq := st_seq st; pk_type := t; pk_msg := msg; pk_src := src |} in
  match inflight st !! mac with
  | Some slot =>
      if match slot with Some q => bool_decide (pk_type q = Release) | None => false end
      then {| inflight := inflight st; permits := permits st; tasks := tasks st;
              drained := drained st; st_next := st_next st; st_seq := S (st_seq st);
              st_started := st_started st |}
      else {| inflight := <[mac := Some p]> (inflight st); permits := permits st;
              tasks := tasks st; drained := drained st; st_next := st_next st;
              st_seq := S (st_seq st); st_started := st_started st |}
  | None =>
      match permits st with
      | O => {| inflight := inflight st; permits := O; tasks := tasks st; drained := drained st;
                st_next := st_next st; st_seq := S (st_seq st); st_started := st_started st |}
      | S n =>
          {| inflight := <[mac := None]> (inflight st); permits := n;
             tasks := <[st_next st := {| t_mac := mac; t_phase := Working p |}]> (tasks st);
             drained := drained st; st_next := S (st_next st); st_seq := S (st_seq st);
             st_started := st_started st ++ [(mac, st_seq st)] |}
      end
  end.

Definition set_phase (i : nat) (mac : str) (ph : phase) (st : state) : state :=
  {| inflight := inflight st; permits := permits st;
     tasks := <[i := {| t_mac := mac; t_phase := ph |}]> (tasks st); drained := drained st;
     st_next := st_next st; st_seq := st_seq st; st_started := st_started st |}.

Definition set_inflight (m : gmap str (option packet)) (st : state) : state :=
  {| inflight := m; permits := permits st; tasks := tasks st; drained := drained st;
     st_next := st_next st; st_seq := st_seq st; st_started := st_started st |}.

Definition log_start (mac : str) (n : nat) (st : state) : state :=
  {| inflight := inflight st; permits := permits st; tasks := tasks st; drained := drained st;
     st_next := st_next st; st_seq := st_seq st; st_started := st_started st ++ [(mac, n)] |}.

(** The locked section after [handle_packet] returned in task [i]. *)
Definition finish (i : nat) (st : state) : option state :=
  match tasks st !! i with
  | Some {| t_mac := mac; t_phase := Working _ |} =>
      match inflight st !! mac with
      | Some (Some next) =>
          Some (log_start mac (pk_seq next)
            (set_phase i mac (Working next) (set_inflight (<[mac := None]> (inflight st)) st)))
      | _ => Some (set_phase i mac Releasing (set_inflight (delete mac (inflight st)) st))
      end
  | _ => None
  end.

(** [handle_packet] panics; unwinding drops the guard, then the permit. *)
Definition panic (i : nat) (st : state) : option state :=
  match tasks st !! i with
  | Some {| t_mac := mac; t_phase := Working _ |} => Some (set_phase i mac Panicking st)
  | _ => None
  end.

Definition guard_drop (i : nat) (st : state) : option state :=
  match tasks st !! i with
  | Some {| t_mac := mac; t_phase := Panicking |} =>
      Some (set_phase i mac Releasing (set_inflight (delete mac (inflight st)) st))
  | _ => None
  end.

Definition permit_drop (i : nat) (st : state) : option state :=
  match tasks st !! i with
  | Some {| t_phase := Releasing |} =>
      Some {| inflight := inflight st; permits := S (permits st); tasks := delete i (tasks st);
              drained := drained st; st_next := st_next st; st_seq := st_seq st;
              st_started := st_started st |}
  | _ => None
  end.

(** [acquire_many(all)] then [forget]: waits for every permit. *)
Definition drain (st : state) : option state :=
  if negb (drained st) && bool_decide (permits st = MAX_CONCURRENT_HANDLERS)
  then Some {| inflight := inflight st; permits := 0; tasks := tasks st; drained := true;
               st_next := st_next st; st_seq := st_seq st; st_started := st_started st |}
  else None.

Inductive event : Type :=
| EvDispatch (mac : str) (t : MessageType) (msg : Request) (src : SocketAddr)
| EvFinish (i : nat)
| EvPanic (i : nat)
| EvGuardDrop (i : nat)
| EvPermitDrop (i : nat)
| EvDrain.

Definition apply_event (st : state) (e : event) : option state :=
  match e with
  | EvDispatch mac t msg src => Some (dispatch mac t msg src st)
  | EvFinish i => finish i st
  | EvPanic i => panic i st
  | EvGuardDrop i => guard_drop i st
  | EvPermitDrop i => permit_drop i st
  | EvDrain => drain st
  end.

Inductive reachable : state -> Prop :=
| reach_init : reachable init
| reach_step st e st' : reachable st -> apply_event st e = Some st' -> reachable st'.

(** ** The invariant *)

Definition busy (t : task) : Prop :=
  match t_phase t with Working _ | Panicking => True | Releasing => False end.

Definition starts (mac : str) (l : list (str * nat)) : list nat :=
  snd <$> filter (fun x => fst x = mac) l.

Record inv (st : state) : Prop := {
  i_slots mac : is_Some (inflight st !! mac) <->
    exists i t, tasks st !! i = Some t /\ t_mac t = mac /\ busy t;
  i_unique i j t u : tasks st !! i = Some t -> tasks st !! j = Some u -> t_mac t = t_mac u ->
    busy t -> busy u -> i = j;
  i_fresh i : is_Some (tasks st !! i) -> (i < st_next st)%nat;
  i_permits : (permits st + size (tasks st) =
    if drained st then 0 else MAX_CONCURRENT_HANDLERS)%nat;
  i_seq mac n : (mac, n) ∈ st_started st -> (n < st_seq st)%nat;
  i_pending mac p : inflight st !! mac = Some (Some p) ->
    (pk_seq p < st_seq st)%nat /\ forall n, (mac, n) ∈ st_started st -> (n < pk_seq p)%nat;
  i_order mac : StronglySorted lt (starts mac (st_started st));
}.

Lemma starts_snoc mac l m n :
  starts mac (l ++ [(m, n)]) = if decide (m = mac) then starts mac l ++ [n] else starts mac l.
Proof.
  unfold starts. rewrite filter_app, fmap_app. case_decide as E.
  - by rewrite filter_cons_True.
  - by rewrite filter_cons_False, app_nil_r.
Qed.

Lemma elem_of_starts mac n l : n ∈ starts mac l <-> (mac, n) ∈ l.
Proof.
  unfold starts. rewrite list_elem_of_fmap. split.
  - intros ([m k] & -> & [Hm Hin]%list_elem_of_filter). simpl in *. by subst.
  - intros Hin. exists (mac, n). split; [done|]. by apply list_elem_of_filter.
Qed.

Lemma sorted_snoc l n : StronglySorted lt l -> (forall x, x ∈ l -> (x < n)%nat) ->
  StronglySorted lt (l ++ [n]).
Proof.
  induction l as [|x l IH]; intros Hs Hn; simpl; [by repeat constructor|].
  apply StronglySorted_inv in Hs as [Hs Hf]. constructor; [apply IH; set_solver|].
  apply Forall_app_2; [done|]. repeat constructor. apply Hn. set_solver.
Qed.

(** Starting a packet newer than everything started for its MAC. *)
Lemma order_snoc st m n mac : inv st ->
  (forall k, (m, k) ∈ st_started st -> (k < n)%nat) ->
  StronglySorted lt (starts mac (st_started st ++ [(m, n)])).
Proof.
  intros Hi Hn. rewrite starts_snoc. case_decide as E; [|apply (i_order st Hi)]. subst m.
  apply sorted_snoc; [apply (i_order st Hi)|]. intros x Hx%elem_of_starts. by apply Hn.
Qed.

(** A task that stays busy for the same MAC. *)
Lemma slots_rework (st : state) (i : nat) (mac : str) (ph ph' : phase) (m' : gmap str (option packet)) :
  inv st ->
  tasks st !! i = Some {| t_mac := mac; t_phase := ph |} ->
  busy {| t_mac := mac; t_phase := ph |} -> busy {| t_mac := mac; t_phase := ph' |} ->
  (forall k, is_Some (m' !! k) <-> is_Some (inflight st !! k)) ->
  let ts := <[i := {| t_mac := mac; t_phase := ph' |}]> (tasks st) in
  (forall k, is_Some (m' !! k) <-> exists j t, ts !! j = Some t /\ t_mac t = k /\ busy t)
  /\ (forall a b t u, ts !! a = Some t -> ts !! b = Some u -> t_mac t = t_mac u ->
        busy t -> busy u -> a = b)
  /\ (forall j, is_Some (ts !! j) -> (j < st_next st)%nat) /\ size ts = size (tasks st).
Proof.
  intros Hi Ht Hb Hb' Hm ts.
  assert (Hback : forall j t, ts !! j = Some t -> busy t ->
    exists u, tasks st !! j = Some u /\ t_mac u = t_mac t /\ busy u).
  { intros j t Hj Hbt. unfold ts in Hj. destruct (decide (i = j)) as [->|Hne].
    - rewrite lookup_insert_eq in Hj. injection Hj as <-. eauto.
    - rewrite lookup_insert_ne in Hj by done. eauto. }
  split_and!.
  - intros k. rewrite Hm, (i_slots st Hi). split.
    + intros (j & t & Hj & Hk & Hbt). destruct (decide (i = j)) as [->|Hne].
      * exists j, {| t_mac := mac; t_phase := ph' |}. unfold ts. rewrite lookup_insert_eq.
        rewrite Ht in Hj. injection Hj as <-. done.
      * exists j, t. unfold ts. by rewrite lookup_insert_ne.
    + intros (j & t & Hj & Hk & Hbt). destruct (Hback j t Hj Hbt) as (u & ? & ? & ?).
      exists j, u. by split_and!; [| congruence |].
  - intros a b t u Ha Hbu Heq Hbt Hbu'. destruct (Hback a t Ha Hbt) as (t' & ? & ? & ?).
    destruct (Hback b u Hbu Hbu') as (u' & ? & ? & ?).
    apply (i_unique st Hi a b t' u'); try done. congruence.
  - intros j Hj. apply (i_fresh st Hi). unfold ts in Hj. destruct (decide (i = j)) as [->|Hne];
      [by eexists|]. by rewrite lookup_insert_ne in Hj.
  - unfold ts. by rewrite map_size_insert_Some.
Qed.

(** A task that gives its slot back. *)
Lemma inv_release st i mac ph : inv st ->
  tasks st !! i = Some {| t_mac := mac; t_phase := ph |} ->
  busy {| t_mac := mac; t_phase := ph |} ->
  inv (set_phase i mac Releasing (set_inflight (delete mac (inflight st)) st)).
Proof.
  intros Hi Ht Hb. split; simpl.
  - intros k. destruct (decide (k = mac)) as [->|Hk].
    + rewrite lookup_delete_eq. split; [by intros [] | intros (j & t & Hj & Hm & Hbt)].
      destruct (decide (i = j)) as [->|Hne].
      * rewrite lookup_insert_eq in Hj. by injection Hj as <-.
      * rewrite lookup_insert_ne in Hj by done. exfalso. apply Hne. by eapply (i_unique st Hi).
    + rewrite lookup_delete_ne, (i_slots st Hi) by done. split; intros (j & t & Hj & Hm & Hbt).
      * exists j, t. rewrite lookup_insert_ne; [done|]. intros ->. rewrite Ht in Hj.
        injection Hj as <-. by simpl in Hm.
      * destruct (decide (i = j)) as [->|Hne];
          [rewrite lookup_insert_eq in Hj; by injection Hj as <-|].
        rewrite lookup_insert_ne in Hj by done. eauto.
  - intros a b t u Ha Hbu Heq Hbt Hbu'.
    destruct (decide (i = a)) as [->|Hna]; [rewrite lookup_insert_eq in Ha; by injection Ha as <-|].
    destruct (decide (i = b)) as [->|Hnb]; [rewrite lookup_insert_eq in Hbu; by injection Hbu as <-|].
    rewrite lookup_insert_ne in Ha, Hbu by done. by eapply (i_unique st Hi).
  - intros j Hj. apply (i_fresh st Hi). destruct (decide (i = j)) as [->|Hne]; [by eexists|].
    by rewrite lookup_insert_ne in Hj.
  - rewrite map_size_insert_Some by (by eexists). apply (i_permits st Hi).
  - apply (i_seq st Hi).
  - intros k p Hp. apply (i_pending st Hi). by apply lookup_delete_Some in Hp as [_ ?].
  - apply (i_order st Hi).
Qed.

(** Numbering one more packet. *)
Lemma inv_bump st : inv st ->
  inv {| inflight := inflight st; permits := permits st; tasks := tasks st; drained := drained st;
         st_next := st_next st; st_seq := S (st_seq st); st_started := st_started st |}.
Proof.
  intros [H1 H2 H3 H4 H5 H6 H7]. split; simpl; try done.
  - intros mac n Hn%H5. lia.
  - intros mac p Hp%H6. destruct Hp. split; [lia | done].
Qed.

(** Parking a packet behind a running handler. *)
Lemma inv_park st mac p slot : inv st -> inflight st !! mac = Some slot -> pk_seq p = st_seq st ->
  inv {| inflight := <[mac := Some p]> (inflight st); permits := permits st; tasks := tasks st;
         drained := drained st; st_next := st_next st; st_seq := S (st_seq st);
         st_started := st_started st |}.
Proof.
  intros [H1 H2 H3 H4 H5 H6 H7] Hs Hp. split; simpl; try done.
  - intros k. rewrite <- H1. destruct (decide (k = mac)) as [->|Hne].
    + rewrite lookup_insert_eq, Hs. by split.
    + by rewrite lookup_insert_ne.
  - intros k n Hn%H5. lia.
  - intros k q Hq. apply lookup_insert_Some in Hq as [[<- Hq]|[_ Hq]].
    + injection Hq as <-. rewrite Hp. split; [lia|]. intros n Hn. by apply H5 in Hn.
    + apply H6 in Hq as [? ?]. split; [lia | done].
Qed.

(** Starting a handler for a MAC that has none. *)
Lemma inv_start st mac p n : inv st -> inflight st !! mac = None -> permits st = S n ->
  inv {| inflight := <[mac := None]> (inflight st); permits := n;
         tasks := <[st_next st := {| t_mac := mac; t_phase := Working p |}]> (tasks st);
         drained := drained st; st_next := S (st_next st); st_seq := S (st_seq st);
         st_started := st_started st ++ [(mac, st_seq st)] |}.
Proof.
  intros Hi Hno Hp. pose proof Hi as [H1 H2 H3 H4 H5 H6 H7].
  assert (Hnew : tasks st !! st_next st = None).
  { destruct (tasks st !! st_next st) eqn:E; [|done]. assert (H : is_Some (tasks st !! st_next st))
      by (by eexists). apply H3 in H. lia. }
  assert (Hfree : forall j t, tasks st !! j = Some t -> busy t -> t_mac t <> mac).
  { intros j t Hj Hb Hm. assert (H : is_Some (inflight st !! mac)) by (apply H1; eauto).
    rewrite Hno in H. by destruct H. }
  split; simpl.
  - intros k. destruct (decide (k = mac)) as [->|Hk].
    + rewrite lookup_insert_eq. split; [|done]. intros _. eexists (st_next st), _.
      by rewrite lookup_insert_eq.
    + rewrite lookup_insert_ne, H1 by done. split; intros (j & t & Hj & Hm & Hb).
      * exists j, t. rewrite lookup_insert_ne; [done|]. intros <-. congruence.
      * destruct (decide (st_next st = j)) as [<-|Hne].
        -- rewrite lookup_insert_eq in Hj. injection Hj as <-. by simpl in Hm.
        -- rewrite lookup_insert_ne in Hj by done. eauto.
  - intros a b t u Ha Hb Heq Hbt Hbu.
    destruct (decide (st_next st = a)) as [<-|Hna], (decide (st_next st = b)) as [<-|Hnb]; [done|..];
      rewrite ?lookup_insert_eq in Ha; rewrite ?lookup_insert_eq in Hb;
      rewrite ?lookup_insert_ne in Ha by done; rewrite ?lookup_insert_ne in Hb by done.
    + injection Ha as <-. exfalso. by eapply Hfree.
    + injection Hb as <-. exfalso. by eapply (Hfree a t).
    + by eapply H2.
  - intros j Hj. destruct (decide (st_next st = j)) as [<-|Hne]; [lia|].
    rewrite lookup_insert_ne in Hj by done. apply H3 in Hj. lia.
  - rewrite map_size_insert_None by done. rewrite Hp in H4. lia.
  - intros k m [Hin|Hin]%elem_of_app; [apply H5 in Hin; lia|].
    apply list_elem_of_singleton in Hin. injection Hin as -> ->. lia.
  - intros k q Hq. apply lookup_insert_Some in Hq as [[_ ?]|[Hne Hq]]; [done|].
    destruct (H6 k q Hq) as [? Hlt]. split; [lia|]. intros m [Hm|Hm]%elem_of_app; [by apply Hlt|].
    apply list_elem_of_singleton in Hm. injection Hm as -> ->. done.
  - intros k. apply order_snoc; [done|]. intros m Hm. by apply H5 in Hm.
Qed.

Lemma inv_dispatch mac t msg src st : inv st -> inv (dispatch mac t msg src st).
Proof.
  intros Hi. unfold dispatch. destruct (inflight st !! mac) as [slot|] eqn:Hs.
  - destruct (match slot with Some q => _ | None => _ end); [by apply inv_bump|].
    by eapply inv_park.
  - destruct (permits st) as [|n] eqn:Hp; [|by apply inv_start].
    rewrite <- Hp. by apply inv_bump.
Qed.

Lemma inv_next st i mac p next : inv st ->
  tasks st !! i = Some {| t_mac := mac; t_phase := Working p |} ->
  inflight st !! mac = Some (Some next) ->
  inv (log_start mac (pk_seq next)
    (set_phase i mac (Working next) (set_inflight (<[mac := None]> (inflight st)) st))).
Proof.
  intros Hi Ht Hs. pose proof Hi as [H1 H2 H3 H4 H5 H6 H7].
  destruct (slots_rework st i mac (Working p) (Working next) (<[mac := None]> (inflight st)) Hi Ht I I)
    as (Hsl & Hun & Hfr & Hsz).
  { intros k. destruct (decide (k = mac)) as [->|Hne].
    - rewrite lookup_insert_eq, Hs. by split.
    - by rewrite lookup_insert_ne. }
  destruct (H6 mac next Hs) as [Hlt Hall].
  split; simpl; try done.
  - by rewrite Hsz.
  - intros k m [Hin|Hin]%elem_of_app; [by apply (H5 k)|].
    apply list_elem_of_singleton in Hin. by injection Hin as -> ->.
  - intros k q Hq. apply lookup_insert_Some in Hq as [[_ ?]|[Hne Hq]]; [done|].
    destruct (H6 k q Hq) as [? Hk]. split; [done|]. intros m [Hm|Hm]%elem_of_app; [by apply Hk|].
    apply list_elem_of_singleton in Hm. injection Hm as -> ->. done.
  - intros k. by apply order_snoc.
Qed.

Lemma inv_step st e st' : inv st -> apply_event st e = Some st' -> inv st'.
Proof.
  intros Hi. destruct e as [mac t msg src|i|i|i|i|]; simpl.
  - intros [= <-]. by apply inv_dispatch.
  - unfold finish. destruct (tasks st !! i) as [[mac [p| |]]|] eqn:Ht; try done.
    destruct (inflight st !! mac) as [[next|]|] eqn:Hs; intros [= <-];
      [by eapply inv_next | by eapply inv_release..].
  - unfold panic. destruct (tasks st !! i) as [[mac [p| |]]|] eqn:Ht; try done. intros [= <-].
    destruct (slots_rework st i mac (Working p) Panicking (inflight st) Hi Ht I I)
      as (Hsl & Hun & Hfr & Hsz); [done|]. destruct Hi. split; simpl; try done. by rewrite Hsz.
  - unfold guard_drop. destruct (tasks st !! i) as [[mac [p| |]]|] eqn:Ht; try done. intros [= <-].
    by eapply inv_release.
  - unfold permit_drop. destruct (tasks st !! i) as [[mac [p| |]]|] eqn:Ht; try done. intros [= <-].
    pose proof Hi as [H1 H2 H3 H4 H5 H6 H7]. split; simpl; try done.
    + intros k. rewrite H1. split; intros (j & t & Hj & Hm & Hb).
      * exists j, t. rewrite lookup_delete_ne; [done|]. intros ->. rewrite Ht in Hj.
        by injection Hj as <-.
      * apply lookup_delete_Some in Hj as [_ Hj]. eauto.
    + intros a b t u [_ Ha]%lookup_delete_Some [_ Hb]%lookup_delete_Some. by eapply H2.
    + intros j [x [_ Hj]%lookup_delete_Some]. apply H3. by eexists.
    + rewrite map_size_delete_Some by (by eexists).
      assert (size (tasks st) <> 0%nat) by (intros E%map_size_empty_inv; by rewrite E, lookup_empty in Ht).
      destruct (drained st); lia.
  - unfold drain. destruct (drained st) eqn:Hd; [done|]. simpl. case_bool_decide as Hp; [|done].
    intros [= <-]. destruct Hi as [H1 H2 H3 H4 H5 H6 H7]. split; simpl; try done.
    rewrite Hd, Hp in H4. lia.
Qed.

Lemma inv_init : inv init.
Proof.
  split; simpl; try done.
  - intros mac. rewrite lookup_empty. split; [by intros [] | intros (i & t & Hi & _)].
    by rewrite lookup_empty in Hi.
  - intros i [x Hx]. by rewrite lookup_empty in Hx.
  - intros mac n Hin. by apply elem_of_nil in Hin.
  - intros mac. constructor.
Qed.

Lemma reachable_inv st : reachable st -> inv st.
Proof. induction 1; [apply inv_init | by eapply inv_step]. Qed.

(** ** What clients are promised *)

(** C3: in every reachable state at most one handler works for a MAC, at most 64
    handlers exist and each holds one permit, and a MAC is marked busy exactly
    while a handler works for it, so a panic never locks a client out and no
    packet waits without a handler to take it. *)
Theorem dispatcher_exclusive st : reachable st ->
  (forall i j t u, tasks st !! i = Some t -> tasks st !! j = Some u -> t_mac t = t_mac u ->
     busy t -> busy u -> i = j)
  /\ (size (tasks st) <= MAX_CONCURRENT_HANDLERS)%nat
  /\ (drained st = false -> (permits st + size (tasks st) = MAX_CONCURRENT_HANDLERS)%nat)
  /\ (forall mac, is_Some (inflight st !! mac) <->
        exists i t, tasks st !! i = Some t /\ t_mac t = mac /\ busy t).
Proof.
  intros Hi%reachable_inv. split; [apply (i_unique st Hi)|].
  pose proof (i_permits st Hi) as Hp. split; [|split; [|apply (i_slots st Hi)]].
  - destruct (drained st); unfold MAX_CONCURRENT_HANDLERS in *; lia.
  - intros Hd. by rewrite Hd in Hp.
Qed.

(** The packets of one MAC are handled one at a time in the order they
    arrived, and a packet parked for it is newer than any already handled. *)
Theorem dispatcher_in_order st mac : reachable st ->
  StronglySorted lt (starts mac (st_started st))
  /\ (forall p n, inflight st !! mac = Some (Some p) -> n ∈ starts mac (st_started st) ->
        (n < pk_seq p)%nat).
Proof.
  intros Hi%reachable_inv. split; [apply (i_order st Hi)|].
  intros p n Hp Hn%elem_of_starts. by apply (i_pending st Hi) in Hp as [_ ?]; auto.
Qed.

(** A handler that returns takes the packet parked for its MAC. *)
Lemma finish_takes st i mac p q :
  tasks st !! i = Some {| t_mac := mac; t_phase := Working p |} ->
  inflight st !! mac = Some (Some q) ->
  exists st', finish i st = Some st'
    /\ tasks st' !! i = Some {| t_mac := mac; t_phase := Working q |}.
Proof.
  intros Ht Hq. unfold finish. rewrite Ht, Hq. eexists. split; [done|]. simpl.
  by rewrite lookup_insert_eq.
Qed.

(** A packet that arrives while its MAC is being served replaces the parked
    one and is the next one handled when the handler returns, except that a
    parked RELEASE is never dropped for a later packet. *)
Theorem dispatcher_newest_wins st mac t msg src slot i p :
  inflight st !! mac = Some slot ->
  tasks st !! i = Some {| t_mac := mac; t_phase := Working p |} ->
  let st1 := dispatch mac t msg src st in
  exists q st2, inflight st1 !! mac = Some (Some q) /\ finish i st1 = Some st2
    /\ tasks st2 !! i = Some {| t_mac := mac; t_phase := Working q |}
    /\ match slot with
       | Some r => if bool_decide (pk_type r = Release) then q = r
                   else pk_msg q = msg /\ pk_type q = t /\ pk_src q = src
       | None => pk_msg q = msg /\ pk_type q = t /\ pk_src q = src
       end.
Proof.
  intros Hs Ht st1.
  assert (Hts : tasks st1 = tasks st)
    by (unfold st1, dispatch; rewrite Hs; by repeat case_match).
  assert (Hq : exists q, inflight st1 !! mac = Some (Some q) /\
    match slot with
    | Some r => if bool_decide (pk_type r = Release) then q = r
                else pk_msg q = msg /\ pk_type q = t /\ pk_src q = src
    | None => pk_msg q = msg /\ pk_type q = t /\ pk_src q = src
    end).
  { unfold st1, dispatch. rewrite Hs. destruct slot as [r|]; [case_bool_decide|];
      eexists; (split; [first [exact Hs | apply lookup_insert_eq] | done]). }
  destruct Hq as (q & Hq & Hw). rewrite <- Hts in Ht.
  destruct (finish_takes st1 i mac p q Ht Hq) as (st2 & Hf & Hw2). exists q, st2. by split_and!.
Qed.

(** Once [drain] has returned, no handler is running and none ever starts
    again, whatever packets still arrive. *)
Theorem dispatcher_drained st e st' : reachable st -> drained st = true ->
  tasks st = ∅ /\ (apply_event st e = Some st' -> drained st' = true /\ tasks st' = ∅
    /\ st_started st' = st_started st).
Proof.
  intros Hi%reachable_inv Hd. pose proof (i_permits st Hi) as Hp. rewrite Hd in Hp.
  assert (Ht : tasks st = ∅) by (apply map_size_empty_inv; lia).
  assert (Hp0 : permits st = 0%nat) by lia. split; [done|].
  assert (Hin : forall mac, inflight st !! mac = None).
  { intros mac. destruct (inflight st !! mac) eqn:E; [|done].
    destruct (proj1 (i_slots st Hi mac)) as (i & t & Hti & _); [by eexists|].
    by rewrite Ht, lookup_empty in Hti. }
  destruct e as [mac t msg src|i|i|i|i|]; simpl;
    unfold finish, panic, guard_drop, permit_drop, drain; rewrite ?Ht, ?lookup_empty, ?Hd; try done.
  unfold dispatch. rewrite Hin, Hp0. by intros [= <-].
Qed.
