(* ===== verification/UpstreamPool.v ===== *)
(** * The forwarding ladder

    [wardnetd/src/dns/upstream_pool.rs], the reachability snapshot of
    [wardnetd-services/src/dns/upstream_health.rs], and [walk_ladder] of
    [wardnetd/src/dns/pipeline.rs] with the deadline its caller puts on it.  A
    resolver is the configuration it is built from; what the servers answer, and
    when, is an argument.  Times are milliseconds.  A finite [f64] is its integer
    multiple of [2 ^ -1074]. *)

From Stdlib Require Import Sorted.
From S2P Require Import Prelude RustStr Net.

Inductive DnsResolutionMode : Type := Forwarding | Recursive.
Inductive ForwarderSelectionMode : Type := Failover | Fastest | Single.
Inductive DnsProtocol : Type := Udp | Tcp | Tls | Https.

#[export] Instance DnsResolutionMode_eq_dec : EqDecision DnsResolutionMode.
Proof. solve_decision. Defined.
#[export] Instance ForwarderSelectionMode_eq_dec : EqDecision ForwarderSelectionMode.
Proof. solve_decision. Defined.
#[export] Instance DnsProtocol_eq_dec : EqDecision DnsProtocol.
Proof. solve_decision. Defined.

Record UpstreamDns : Type := {
  up_address : str;
  up_name : str;
  up_protocol : DnsProtocol;
  up_port : option Z;
  up_tls_server_name : option str;
}.

#[export] Instance UpstreamDns_eq_dec : EqDecision UpstreamDns.
Proof. solve_decision. Defined.

Record UpstreamLatency : Type := {
  ul_address : str;
  ul_avg_latency_ms : option Z;
  ul_reachable : bool;
}.

(** The fields the query path reads. *)
Record DnsConfig : Type := {
  resolution_mode : DnsResolutionMode;
  upstream_servers : list UpstreamDns;
  forwarder_selection_mode : ForwarderSelectionMode;
  single_upstream : option str;
  cache_ttl_min_secs : Z;
  cache_ttl_max_secs : Z;
  dnssec_enabled : bool;
  rebinding_protection : bool;
  rate_limit_per_second : Z;
  upstream_timeout_ms : Z;
  forward_deadline_ms : Z;
}.

(** ** Reachability *)

Abbreviation UpstreamHealth := (list UpstreamLatency).

Definition unreachable (h : UpstreamHealth) : list str :=
  ul_address <$> filter (fun u => ul_reachable u = false) h.

Definition is_unreachable (h : UpstreamHealth) (address : str) : bool :=
  existsb (fun u => bool_decide (ul_address u = address) && negb (ul_reachable u)) h.

Definition latency_ms (h : UpstreamHealth) (address : str) : option Z :=
  List.find (fun u => bool_decide (ul_address u = address)) h ≫= ul_avg_latency_ms.

(** ** Resolvers *)

(** [ConnectionConfig]: transport, server name where encrypted, port. *)
Record ConnectionConfig : Type := {
  cc_protocol : DnsProtocol;
  cc_sni : option str;
  cc_port : Z;
}.

(** What [TokioResolver::builder_with_config] is given. *)
Record Resolver : Type := {
  rs_name_servers : list (IpAddr * list ConnectionConfig);
  rs_cache_size : Z;
  rs_timeout : Z;
  rs_attempts : Z;
  rs_num_concurrent_reqs : Z;
  rs_validate : bool;
}.

Definition default_port (p : DnsProtocol) : Z :=
  match p with Udp | Tcp => 53 | Tls => 853 | Https => 443 end.

Definition resolver_for (upstream : UpstreamDns) (dnssec_enabled : bool) (timeout : Z) : Resolver :=
  let conn :=
    {| cc_protocol := up_protocol upstream;
       cc_sni := match up_protocol upstream with
                 | Udp | Tcp => None
                 | Tls | Https => Some (default [] (up_tls_server_name upstream))
                 end;
       cc_port := default (default_port (up_protocol upstream)) (up_port upstream) |} in
  {| rs_name_servers := match parse_ip (up_address upstream) with
                        | Some ip => [(ip, [conn])]
                        | None => []
                        end;
     rs_cache_size := 0; rs_timeout := timeout; rs_attempts := 0; rs_num_concurrent_reqs := 1;
     rs_validate := dnssec_enabled |}.

Definition build_resolver (upstream : UpstreamDns) (config : DnsConfig) : Resolver :=
  resolver_for upstream (dnssec_enabled config) (upstream_timeout_ms config).

Record UpstreamEntry : Type := { ue_upstream : UpstreamDns; ue_resolver : Resolver }.

Definition address (e : UpstreamEntry) : str := up_address (ue_upstream e).

(** ** The pool *)

Record UpstreamPool : Type := {
  pool_all : list UpstreamEntry;
  pool_serving : list UpstreamEntry;
}.

Definition FALLBACK_UPSTREAM : str := of_string "1.1.1.1".

Definition fallback : UpstreamDns :=
  {| up_address := FALLBACK_UPSTREAM; up_name := of_string "Cloudflare"; up_protocol := Udp;
     up_port := None; up_tls_server_name := None |}.

Definition usable (u : UpstreamDns) : bool :=
  match parse_ip (up_address u) with
  | None => false
  | Some _ =>
      negb (match up_protocol u with Tls | Https => true | Udp | Tcp => false end
            && bool_decide (up_tls_server_name u = None))
  end.

Definition resolvable_upstreams (configured : list UpstreamDns) : list UpstreamDns :=
  match filter (fun u => usable u = true) configured with
  | [] => [fallback]
  | us => us
  end.

Definition effective (all : list UpstreamEntry) (config : DnsConfig) : list UpstreamEntry :=
  match forwarder_selection_mode config, single_upstream config with
  | Single, Some addr =>
      match filter (fun e => address e = addr) all with
      | [] => all
      | selected => selected
      end
  | _, _ => all
  end.

(** [f64::MAX] *)
Definition F64_MAX : Z := (2 ^ 53 - 1) * 2 ^ 2045.

(** [sort_by] on an ascending key: stable. *)
Fixpoint insert_asc {X} (key : X -> Z) (x : X) (l : list X) : list X :=
  match l with
  | [] => [x]
  | y :: l' => if key x <=? key y then x :: l else y :: insert_asc key x l'
  end.

Definition sort_asc {X} (key : X -> Z) (l : list X) : list X := foldr (insert_asc key) [] l.

Definition latency_key (health : UpstreamHealth) (e : UpstreamEntry) : Z :=
  default F64_MAX (latency_ms health (address e)).

Definition serving_order (all : list UpstreamEntry) (config : DnsConfig) (health : UpstreamHealth)
    : list UpstreamEntry :=
  let eff := effective all config in
  let serving := filter (fun e => is_unreachable health (address e) = false) eff in
  let serving := match serving with [] => eff | _ => serving end in
  if bool_decide (forwarder_selection_mode config = Fastest)
  then sort_asc (latency_key health) serving else serving.

Definition pool_build (config : DnsConfig) : UpstreamPool :=
  let all := (fun u => {| ue_upstream := u; ue_resolver := build_resolver u config |})
             <$> resolvable_upstreams (upstream_servers config) in
  {| pool_all := all; pool_serving := effective all config |}.

Definition with_serving (p : UpstreamPool) (config : DnsConfig) (health : UpstreamHealth)
    : UpstreamPool :=
  {| pool_all := pool_all p; pool_serving := serving_order (pool_all p) config health |}.

(** ** The walk *)

Section ladder.
(** Records, and the authority record of a negative answer. *)
Context {R SOA : Type}.

(** A resolver error as the callers inspect it. *)
Record NetError : Type := {
  is_no_records_found : bool;
  is_nx_domain : bool;
  into_soa : option SOA;
}.

(** A server's reply to the lookup and when it comes; [None] is silence. *)
Abbreviation attempt := (option (Z * result (list R) NetError)).

Inductive LadderOutcome : Type :=
| Answered (addr : str) (lookup : list R)
| Negative (addr : str) (nx_domain : bool) (soa : option SOA)
| Exhausted.

(** [tokio::time::timeout(per_upstream, entry.resolver.lookup(..))]: the reply,
    if in time, and the time spent. *)
Definition bounded (per_upstream : Z) (a : attempt) : option (result (list R) NetError) * Z :=
  match a with
  | Some (d, r) => if d <=? per_upstream then (Some r, d) else (None, per_upstream)
  | None => (None, per_upstream)
  end.

(** The outcome, the time it took, and the servers asked, each with the time it
    was asked, counted from [t]. *)
Fixpoint walk_ladder (ask : UpstreamEntry -> attempt) (per_upstream : Z) (t : Z)
    (serving : list UpstreamEntry) : LadderOutcome * Z * list (Z * str) :=
  match serving with
  | [] => (Exhausted, t, [])
  | entry :: rest =>
      let '(reply, spent) := bounded per_upstream (ask entry) in
      let next :=
        let '(o, t', asked) := walk_ladder ask per_upstream (t + spent) rest in
        (o, t', (t, address entry) :: asked) in
      match reply with
      | Some (Ok lookup) => (Answered (address entry) lookup, t + spent, [(t, address entry)])
      | Some (Err e) =>
          if is_no_records_found e || is_nx_domain e
          then (Negative (address entry) (is_nx_domain e) (into_soa e), t + spent,
                [(t, address entry)])
          else next
      | None => next
      end
  end.

(** [tokio::time::timeout(deadline, walk_ladder(..))]: a walk cut off leaves
    what it had asked by then. *)
Definition ladder_within (deadline : Z) (walk : LadderOutcome * Z * list (Z * str))
    : LadderOutcome * Z * list (Z * str) :=
  let '(o, t, asked) := walk in
  if t <=? deadline then walk
  else (Exhausted, deadline, filter (fun a => fst a <= deadline) asked).

End ladder.
Arguments NetError : clear implicits.
Arguments LadderOutcome : clear implicits.

(** ** Stable sorting *)

Section sort_laws.
Context {X : Type} (key : X -> Z).

Lemma insert_asc_perm x l : insert_asc key x l ≡ₚ x :: l.
Proof.
  induction l as [|y l IH]; [done|]. simpl. case_match; [done|]. rewrite IH. apply Permutation_swap.
Qed.

Lemma sort_asc_perm l : sort_asc key l ≡ₚ l.
Proof. induction l as [|x l IH]; [done|]. simpl. by rewrite insert_asc_perm, IH. Qed.

Definition ascending : list X -> Prop := StronglySorted (fun x y => key x <= key y).

Lemma insert_asc_sorted x l : ascending l -> ascending (insert_asc key x l).
Proof.
  induction 1 as [|y l Hl IH Hy]; simpl; [by repeat constructor|].
  destruct (Z.leb_spec (key x) (key y)) as [Hle|Hlt].
  - constructor; [by constructor|]. constructor; [done|].
    eapply Forall_impl; [exact Hy|]. simpl. lia.
  - constructor; [done|]. rewrite insert_asc_perm. constructor; [lia | done].
Qed.

Lemma sort_asc_sorted l : ascending (sort_asc key l).
Proof. induction l as [|x l IH]; [constructor | by apply insert_asc_sorted]. Qed.

(** Equal keys keep their order. *)
Lemma insert_asc_stable k x l :
  filter (fun y => key y = k) (insert_asc key x l) = filter (fun y => key y = k) (x :: l).
Proof.
  induction l as [|y l IH]; [done|]. simpl. destruct (Z.leb_spec (key x) (key y)); [done|].
  rewrite (filter_cons _ y), IH, !filter_cons. repeat case_decide; try done. lia.
Qed.

Lemma sort_asc_stable k l :
  filter (fun y => key y = k) (sort_asc key l) = filter (fun y => key y = k) l.
Proof.
  induction l as [|x l IH]; [done|]. simpl. rewrite insert_asc_stable, !filter_cons.
  by rewrite <- IH.
Qed.

End sort_laws.

(** ** What is served *)

Lemma effective_nonempty all config : all <> [] -> effective all config <> [].
Proof.
  intros H. unfold effective. destruct (forwarder_selection_mode config), (single_upstream config); try done.
  by case_match.
Qed.

Lemma effective_sub all config e : e ∈ effective all config -> e ∈ all.
Proof.
  unfold effective. destruct (forwarder_selection_mode config), (single_upstream config) as [a|]; try done.
  destruct (filter _ all) eqn:E; [done|]. rewrite <- E. by intros [_ ?]%list_elem_of_filter.
Qed.

(** A pinned server is the only one, when the pool has it. *)
Lemma effective_single all config a : forwarder_selection_mode config = Single ->
  single_upstream config = Some a -> Exists (fun e => address e = a) all ->
  Forall (fun e => address e = a) (effective all config).
Proof.
  intros Hm Ha He. unfold effective. rewrite Hm, Ha. destruct (filter _ all) eqn:E.
  - exfalso. apply Exists_exists in He as (e & Hin & Hadr).
    assert (Hf : e ∈ filter (fun e => address e = a) all) by (by apply list_elem_of_filter).
    rewrite E in Hf. by apply elem_of_nil in Hf.
  - rewrite <- E. apply Forall_forall. by intros e' [? _]%list_elem_of_filter.
Qed.

(** The servers worth trying, before ordering. *)
Definition candidates (all : list UpstreamEntry) (config : DnsConfig) (health : UpstreamHealth)
    : list UpstreamEntry :=
  let eff := effective all config in
  let serving := filter (fun e => is_unreachable health (address e) = false) eff in
  match serving with [] => eff | _ => serving end.

Lemma candidates_nonempty all config health : all <> [] -> candidates all config health <> [].
Proof. intros H%(effective_nonempty _ config). unfold candidates. by case_match. Qed.

Lemma serving_candidates all config health :
  serving_order all config health =
  if bool_decide (forwarder_selection_mode config = Fastest)
  then sort_asc (latency_key health) (candidates all config health)
  else candidates all config health.
Proof. reflexivity. Qed.

Lemma resolvable_nonempty us : resolvable_upstreams us <> [].
Proof. unfold resolvable_upstreams. by case_match. Qed.

Lemma resolvable_usable us u : u ∈ resolvable_upstreams us ->
  usable u = true /\ (u ∈ us \/ (u = fallback /\ Forall (fun u => usable u = false) us)).
Proof.
  unfold resolvable_upstreams. destruct (filter _ us) eqn:E.
  - intros ->%list_elem_of_singleton. split; [vm_compute; reflexivity|]. right. split; [done|].
    apply Forall_forall. intros u Hu. destruct (usable u) eqn:Eu; [|done].
    assert (Hf : u ∈ filter (fun u => usable u = true) us) by (by apply list_elem_of_filter).
    rewrite E in Hf. by apply elem_of_nil in Hf.
  - rewrite <- E. intros [Hu Hin]%list_elem_of_filter. auto.
Qed.

(** One resolver talks to one server, over the configured transport, and an
    encrypted one names the certificate it expects. *)
Definition entry_ok (config : DnsConfig) (e : UpstreamEntry) : Prop :=
  exists ip sni, parse_ip (address e) = Some ip
  /\ rs_name_servers (ue_resolver e) =
       [(ip, [{| cc_protocol := up_protocol (ue_upstream e); cc_sni := sni;
                 cc_port := default (default_port (up_protocol (ue_upstream e)))
                              (up_port (ue_upstream e)) |}])]
  /\ match up_protocol (ue_upstream e) with
     | Tls | Https => sni = up_tls_server_name (ue_upstream e) /\ is_Some sni
     | Udp | Tcp => sni = None
     end
  /\ rs_timeout (ue_resolver e) = upstream_timeout_ms config
  /\ rs_validate (ue_resolver e) = dnssec_enabled config.

Lemma build_resolver_ok config u : usable u = true ->
  entry_ok config {| ue_upstream := u; ue_resolver := build_resolver u config |}.
Proof.
  unfold usable, entry_ok, address, build_resolver, resolver_for. simpl.
  destruct (parse_ip (up_address u)) as [ip|]; [|done]. intros H.
  eexists ip, _. split; [done|]. split; [done|]. split; [|done].
  destruct (up_protocol u); try done; simpl in H; breflect;
    by destruct (up_tls_server_name u) as [s|]; [split; [|eexists] | ].
Qed.

(** Whatever the configuration and the probe results, the pool serves at
    least one upstream; each is a configured one (or the fallback when none is
    usable), asked over exactly its configured transport and, when encrypted,
    under its certificate name; servers the prober reports down are left out
    unless all are; a pinned server is the only one used; the order is the
    configured one, or by measured latency with ties in configured order. *)
Theorem pool_serves config health :
  let pool := with_serving (pool_build config) config health in
  let serving := pool_serving pool in
  let cand := candidates (pool_all pool) config health in
  serving <> []
  /\ Forall (fun e => entry_ok config e /\ (ue_upstream e ∈ upstream_servers config
       \/ (ue_upstream e = fallback
           /\ Forall (fun u => usable u = false) (upstream_servers config)))) serving
  /\ (Forall (fun e => is_unreachable health (address e) = false) serving
      \/ (Forall (fun e => is_unreachable health (address e) = true) (effective (pool_all pool) config)
          /\ serving ≡ₚ effective (pool_all pool) config))
  /\ (forall a, forwarder_selection_mode config = Single -> single_upstream config = Some a ->
       Exists (fun e => address e = a) (pool_all pool) -> Forall (fun e => address e = a) serving)
  /\ (forwarder_selection_mode config <> Fastest -> serving = cand)
  /\ (forwarder_selection_mode config = Fastest ->
       serving ≡ₚ cand /\ ascending (latency_key health) serving
       /\ forall k, filter (fun e => latency_key health e = k) serving
                    = filter (fun e => latency_key health e = k) cand).
Proof.
  intros pool serving cand. subst serving. unfold pool. simpl.
  set (all := _ <$> resolvable_upstreams _) in *. fold cand in pool.
  assert (Hall : all <> []) by (intros H%fmap_nil_inv; by eapply resolvable_nonempty).
  assert (Hp : serving_order all config health ≡ₚ candidates all config health).
  { rewrite serving_candidates. case_bool_decide; [apply sort_asc_perm | done]. }
  assert (Hsub : forall e, e ∈ candidates all config health -> e ∈ effective all config).
  { intros e. unfold candidates. destruct (filter _ _) eqn:E; [done|]. rewrite <- E.
    by intros [_ ?]%list_elem_of_filter. }
  split; [|split; [|split; [|split; [|split]]]].
  - intros H. rewrite H in Hp. symmetry in Hp. apply Permutation_nil_r in Hp.
    by eapply candidates_nonempty.
  - rewrite Hp. apply Forall_forall. intros e He%Hsub%effective_sub.
    apply list_elem_of_fmap in He as (u & -> & Hu). apply resolvable_usable in Hu as [Hu1 Hu2].
    split; [by apply build_resolver_ok | done].
  - rewrite Hp. unfold candidates. destruct (filter _ (effective all config)) eqn:E.
    + right. split; [|done]. apply Forall_forall. intros e He.
      destruct (is_unreachable health (address e)) eqn:Er; [done|].
      assert (Hf : e ∈ filter (fun e => is_unreachable health (address e) = false) (effective all config))
        by (by apply list_elem_of_filter).
      rewrite E in Hf. by apply elem_of_nil in Hf.
    + left. rewrite <- E. apply Forall_forall. by intros e [? _]%list_elem_of_filter.
  - intros a Hm Ha He. rewrite Hp. apply Forall_forall. intros e He'%Hsub.
    by apply (proj1 (Forall_forall _ _) (effective_single all config a Hm Ha He)).
  - intros Hm. rewrite serving_candidates. by rewrite bool_decide_eq_false_2.
  - intros Hm. split; [exact Hp|]. rewrite serving_candidates, bool_decide_eq_true_2 by done.
    split; [apply sort_asc_sorted | intros k; apply sort_asc_stable].
Qed.

(** ** The walk asks one server at a time, in order *)

Section ladder_laws.
Context {R SOA : Type} (ask : UpstreamEntry -> option (Z * result (list R) (NetError SOA))) (per : Z).

(** No reply in time, or an error that is not an answer. *)
Definition failed (e : UpstreamEntry) : Prop :=
  match fst (bounded per (ask e)) with
  | None => True
  | Some (Ok _) => False
  | Some (Err err) => is_no_records_found err || is_nx_domain err = false
  end.

(** Each server is asked when the one before it is given up. *)
Fixpoint timeline (t : Z) (es : list UpstreamEntry) : list (Z * str) :=
  match es with
  | [] => []
  | e :: es' => (t, address e) :: timeline (t + snd (bounded per (ask e))) es'
  end.

Fixpoint time_after (t : Z) (es : list UpstreamEntry) : Z :=
  match es with
  | [] => t
  | e :: es' => time_after (t + snd (bounded per (ask e))) es'
  end.

(** How a walk that asked [pre] ended. *)
Definition ladder_end (o : LadderOutcome R SOA) (pre : list UpstreamEntry) : Prop :=
  match o with
  | Answered a rs => exists es e, pre = es ++ [e] /\ Forall failed es /\ address e = a
      /\ fst (bounded per (ask e)) = Some (Ok rs)
  | Negative a nx soa => exists es e err, pre = es ++ [e] /\ Forall failed es /\ address e = a
      /\ fst (bounded per (ask e)) = Some (Err err)
      /\ is_no_records_found err || is_nx_domain err = true
      /\ nx = is_nx_domain err /\ soa = into_soa err
  | Exhausted => Forall failed pre
  end.

Lemma ladder_end_cons o e pre : failed e -> ladder_end o pre -> ladder_end o (e :: pre).
Proof.
  intros He. destruct o; simpl.
  - intros (es & e' & -> & Hes & H). exists (e :: es), e'. split; [done|]. split; [by constructor | done].
  - intros (es & e' & err & -> & Hes & H). exists (e :: es), e', err. split; [done|].
    split; [by constructor | done].
  - by constructor.
Qed.

Lemma walk_ladder_spec serving : forall t o t' asked,
  walk_ladder ask per t serving = (o, t', asked) ->
  exists pre post, serving = pre ++ post /\ asked = timeline t pre /\ t' = time_after t pre
  /\ ladder_end o pre /\ (o = Exhausted -> post = []).
Proof.
  induction serving as [|e rest IH]; intros t o t' asked; simpl.
  { intros [= <- <- <-]. exists [], []. repeat split; constructor. }
  destruct (bounded per (ask e)) as [reply spent] eqn:Eb.
  assert (Hone : forall o', ladder_end o' [e] -> o' <> Exhausted ->
    (o', t + spent, [(t, address e)]) = (o, t', asked) ->
    exists pre post, e :: rest = pre ++ post /\ asked = timeline t pre /\ t' = time_after t pre
    /\ ladder_end o pre /\ (o = Exhausted -> post = [])).
  { intros o' He Hne [= <- <- <-]. exists [e], rest. simpl. by rewrite Eb. }
  assert (Hnext : failed e -> forall o1 t1 asked1, walk_ladder ask per (t + spent) rest = (o1, t1, asked1) ->
    (o1, t1, (t, address e) :: asked1) = (o, t', asked) ->
    exists pre post, e :: rest = pre ++ post /\ asked = timeline t pre /\ t' = time_after t pre
    /\ ladder_end o pre /\ (o = Exhausted -> post = [])).
  { intros Hf o1 t1 asked1 (pre & post & -> & -> & -> & He & Hx)%IH [= <- <- <-].
    exists (e :: pre), post. simpl. rewrite Eb. split_and!; try done. by apply ladder_end_cons. }
  destruct (walk_ladder ask per (t + spent) rest) as [[o1 t1] asked1] eqn:Ew.
  destruct reply as [[rs|err]|].
  - apply Hone; [|done]. exists [], e. by rewrite Eb.
  - destruct (is_no_records_found err || is_nx_domain err) eqn:En.
    + apply Hone; [|done]. exists [], e, err. by rewrite Eb.
    + apply Hnext; [|done]. unfold failed. by rewrite Eb.
  - apply Hnext; [|done]. unfold failed. by rewrite Eb.
Qed.

(** Replies do not come before they are asked for. *)
Context (Hper : 0 <= per) (Hask : forall e d r, ask e = Some (d, r) -> 0 <= d).

Lemma spent_range e : 0 <= snd (bounded per (ask e)) <= per.
Proof.
  unfold bounded. destruct (ask e) as [[d r]|] eqn:E; simpl; [|lia].
  apply Hask in E. destruct (Z.leb_spec d per); simpl; lia.
Qed.

Lemma time_after_range es : forall t, t <= time_after t es <= t + per * Z.of_nat (length es).
Proof.
  induction es as [|e es IH]; intros t; simpl; [lia|].
  pose proof (spent_range e). specialize (IH (t + snd (bounded per (ask e)))). nia.
Qed.

Lemma timeline_cut deadline pre : forall t, exists n,
  filter (fun a => fst a <= deadline) (timeline t pre) = timeline t (take n pre).
Proof.
  induction pre as [|e pre IH]; intros t; simpl; [by exists 0%nat|].
  destruct (decide (t <= deadline)) as [Hle|Hgt].
  - destruct (IH (t + snd (bounded per (ask e)))) as [n Hn]. exists (S n).
    rewrite filter_cons, decide_True by done. by rewrite Hn.
  - exists 0%nat. rewrite filter_cons, decide_False by done. simpl.
    assert (Hall : forall es t', deadline < t' ->
      filter (fun a : Z * str => fst a <= deadline) (timeline t' es) = []).
    { induction es as [|e' es IHes]; intros t' Ht'; [done|]. simpl. rewrite filter_cons.
      rewrite decide_False by (simpl; lia). apply IHes. pose proof (spent_range e'). lia. }
    apply Hall. pose proof (spent_range e). lia.
Qed.

Lemma ladder_run deadline serving o t asked : 0 <= deadline ->
  ladder_within deadline (walk_ladder ask per 0 serving) = (o, t, asked) ->
  0 <= t <= deadline /\ t <= per * Z.of_nat (length serving)
  /\ exists pre post, serving = pre ++ post /\ asked = timeline 0 pre
  /\ (ladder_end o pre /\ (o = Exhausted -> post = []) \/ o = Exhausted /\ t = deadline).
Proof.
  intros Hd. destruct (walk_ladder ask per 0 serving) as [[o1 t1] asked1] eqn:Ew.
  apply walk_ladder_spec in Ew as (pre & post & -> & -> & -> & He & Hx).
  pose proof (time_after_range pre 0) as Hr. rewrite length_app. unfold ladder_within.
  destruct (Z.leb_spec (time_after 0 pre) deadline) as [Hle|Hgt]; intros [= <- <- <-].
  - split; [lia|]. split; [nia|]. exists pre, post. auto.
  - split; [lia|]. split; [nia|]. destruct (timeline_cut deadline pre 0) as [n Hn].
    exists (take n pre), (drop n pre ++ post). rewrite app_assoc, take_drop. auto.
Qed.

End ladder_laws.

(** Outside the fastest mode the serving servers keep the configured order, and
    with a single upstream chosen from the list nobody else serves. *)
Lemma serving_order_sublist all config health : forwarder_selection_mode config <> Fastest ->
  serving_order all config health `sublist_of` all
  /\ forall a, forwarder_selection_mode config = Single -> single_upstream config = Some a ->
       (exists e, e ∈ all /\ address e = a) ->
       Forall (fun e => address e = a) (serving_order all config health).
Proof.
  intros Hm. unfold serving_order. rewrite bool_decide_false by done.
  set (eff := effective all config). set (up := filter _ eff).
  assert (Hup : (match up with [] => eff | _ => up end) `sublist_of` eff).
  { destruct up eqn:E; [done|]. rewrite <- E. apply sublist_filter. }
  assert (Heff : eff `sublist_of` all).
  { unfold eff, effective. destruct (forwarder_selection_mode config); try done.
    destruct (single_upstream config) as [a|]; [|done].
    destruct (filter _ all) eqn:E; [done|]. rewrite <- E. apply sublist_filter. }
  split; [by etrans|]. intros a Hs Ha (e & He & Hea). apply Forall_forall. intros x Hx.
  apply (elem_of_sublist _ _ _ Hx) in Hup. revert Hup. unfold eff, effective. rewrite Hs, Ha.
  destruct (filter (fun e => address e = a) all) as [|y l] eqn:E.
  - exfalso. apply (not_elem_of_nil e). rewrite <- E. by apply list_elem_of_filter.
  - rewrite <- E. by intros [? _]%list_elem_of_filter.
Qed.


(** In the fastest mode too the servers are asked one after the other: they are
    put in the order of their measured latency, and while the first of them
    answers in time no other is asked. *)
Theorem fastest_not_raced {R SOA} (ask : UpstreamEntry -> option (Z * result (list R) (NetError SOA)))
    config health e rest d rs :
  forwarder_selection_mode config = Fastest ->
  pool_serving (with_serving (pool_build config) config health) = e :: rest ->
  ask e = Some (d, Ok rs) -> d <= upstream_timeout_ms config -> d <= forward_deadline_ms config ->
  ladder_within (forward_deadline_ms config)
    (walk_ladder ask (upstream_timeout_ms config) 0
       (pool_serving (with_serving (pool_build config) config health)))
  = (Answered (address e) rs, d, [(0, address e)]).
Proof.
  intros _ -> He Hd Hdl. simpl. unfold bounded. rewrite He, (proj2 (Z.leb_le _ _) Hd). simpl.
  unfold ladder_within. rewrite Z.add_0_l. by rewrite (proj2 (Z.leb_le _ _) Hdl).
Qed.
