(* ===== verification/DnsMessage.v ===== *)
(** * DNS messages as the query path handles them

    The parts of [hickory_proto]'s message types the sources construct or
    inspect, the interface of its name and wire code, [rtype_from_hickory] and
    [make_rdata] of [wardnetd/src/dns/pipeline.rs], and
    [wardnetd-services/src/dns/response.rs]. *)

From S2P Require Import Prelude RustStr Net FilterParser Authoritative.

(** Names, record types, and the data of record types the sources do not look
    into. *)
Class DnsTypesLib {TL : RecordTypeLib} {NL : DnsNameLib} : Type := {
  RT_A : RecordType; RT_AAAA : RecordType; RT_CNAME : RecordType; RT_TXT : RecordType;
  RT_MX : RecordType; RT_SRV : RecordType; RT_PTR : RecordType; RT_ANY : RecordType;
  (** [name.to_string()] *)
  name_to_string : Name -> str;
  (** [Name::from_str_relaxed(s).ok()] *)
  name_from_str_relaxed : str -> option Name;
  (** [==] on names *)
  name_eqb : Name -> Name -> bool;
  OtherData : Type;
}.

Inductive ResponseCode : Type := NoError | NXDomain | ServFail | Refused | OtherCode (code : Z).

#[export] Instance ResponseCode_eq_dec : EqDecision ResponseCode.
Proof. solve_decision. Defined.

Section messages.
Context {TL : RecordTypeLib} {NL : DnsNameLib} {DL : DnsTypesLib}.

Inductive RData : Type :=
| RD_A (ip : Ipv4Addr)
| RD_AAAA (ip : Z)
| RD_CNAME (target : Name)
| RD_PTR (target : Name)
| RD_TXT (texts : list str)
| RD_MX (preference : Z) (exchange : Name)
| RD_SRV (priority weight port : Z) (target : Name)
| RD_SOA (mname rname : Name) (serial refresh retry expire minimum : Z)
| RD_Other (data : OtherData).

(** [Record] *)
Record DnsRR : Type := { dr_name : Name; dr_ttl : Z; dr_data : RData }.

(** [Query] *)
Record DnsQuery : Type := { dq_name : Name; dq_type : RecordType }.

Record Message : Type := {
  msg_id : Z;
  response_code : ResponseCode;
  authoritative : bool;
  recursion_desired : bool;
  recursion_available : bool;
  queries : list DnsQuery;
  answers : list DnsRR;
  authorities : list DnsRR;
  additionals : list DnsRR;
}.

(** The records of a [Record<SOA>]. *)
Definition soa_rr (s : SoaRecord) : DnsRR :=
  {| dr_name := soa_owner s; dr_ttl := soa_ttl s;
     dr_data := RD_SOA (soa_mname s) (soa_rname s) (soa_serial s) (soa_refresh s) (soa_retry s)
                  (soa_expire s) (soa_minimum s) |}.

Definition with_ttl (t : Z) (r : DnsRR) : DnsRR :=
  {| dr_name := dr_name r; dr_ttl := t; dr_data := dr_data r |}.

(** [classify_response] *)
Definition negative_ttl (authorities : list DnsRR) : Z :=
  default 0 (head (omap (fun r => match dr_data r with
                                  | RD_SOA _ _ _ _ _ _ minimum => Some (Z.min (dr_ttl r) minimum)
                                  | _ => None
                                  end) authorities)).

(** [.iter().map(|r| r.ttl).min().unwrap_or(0)] *)
Definition least_ttl (rs : list DnsRR) : Z :=
  match dr_ttl <$> rs with [] => 0 | t :: ts => foldl Z.min t ts end.

Definition classify_response (parsed : Message) : bool * Z :=
  let negative :=
    bool_decide (response_code parsed = NXDomain)
    || (bool_decide (response_code parsed = NoError)
        && match answers parsed with [] => true | _ => false end) in
  if negative then (true, negative_ttl (authorities parsed)) else (false, least_ttl (answers parsed)).

(** [rtype_from_hickory] *)
Definition rtype_from_hickory (rt : RecordType) : option DnsRecordType :=
  if bool_decide (rt = RT_A) then Some A
  else if bool_decide (rt = RT_AAAA) then Some Aaaa
  else if bool_decide (rt = RT_CNAME) then Some Cname
  else if bool_decide (rt = RT_TXT) then Some Txt
  else if bool_decide (rt = RT_MX) then Some Mx
  else if bool_decide (rt = RT_SRV) then Some Srv
  else None.

(** [value.splitn(n, c)] *)
Fixpoint splitn (n : nat) (c : ascii) (s : str) : list str :=
  match n with
  | O => []
  | S O => [s]
  | S n' => match split_once c s with
            | Some (a, b) => a :: splitn n' c b
            | None => [s]
            end
  end.

Definition make_rdata (rt : DnsRecordType) (value : str) : option RData :=
  match rt with
  | A => RD_A <$> parse_ipv4 value
  | Aaaa => RD_AAAA <$> whole (read_ipv6 value)
  | Cname => RD_CNAME <$> name_from_str_relaxed value
  | Txt => Some (RD_TXT [value])
  | Mx =>
      '(prio_str, exchange_str) ← split_once " "%char value;
      preference ← parse_uint U16_MAX prio_str;
      exchange ← name_from_str_relaxed exchange_str;
      Some (RD_MX preference exchange)
  | Srv =>
      match splitn 4 " "%char value with
      | [p0; p1; p2; p3] =>
          priority ← parse_uint U16_MAX p0;
          weight ← parse_uint U16_MAX p1;
          port ← parse_uint U16_MAX p2;
          target ← name_from_str_relaxed p3;
          Some (RD_SRV priority weight port target)
      | _ => None
      end
  end.

(** [Message::response(id, OpCode::Query)] with the metadata and the question
    every response of the pipeline carries. *)
Definition response (id : Z) (request : Message) : Message :=
  {| msg_id := id; response_code := NoError; authoritative := false; recursion_desired := true;
     recursion_available := true; queries := queries request; answers := []; authorities := [];
     additionals := [] |}.

Definition set_code (c : ResponseCode) (m : Message) : Message :=
  {| msg_id := msg_id m; response_code := c; authoritative := authoritative m;
     recursion_desired := recursion_desired m; recursion_available := recursion_available m;
     queries := queries m; answers := answers m; authorities := authorities m;
     additionals := additionals m |}.

Definition set_authoritative (m : Message) : Message :=
  {| msg_id := msg_id m; response_code := response_code m; authoritative := true;
     recursion_desired := recursion_desired m; recursion_available := recursion_available m;
     queries := queries m; answers := answers m; authorities := authorities m;
     additionals := additionals m |}.

Definition add_answers (rs : list DnsRR) (m : Message) : Message :=
  {| msg_id := msg_id m; response_code := response_code m; authoritative := authoritative m;
     recursion_desired := recursion_desired m; recursion_available := recursion_available m;
     queries := queries m; answers := answers m ++ rs; authorities := authorities m;
     additionals := additionals m |}.

Definition add_authorities (rs : list DnsRR) (m : Message) : Message :=
  {| msg_id := msg_id m; response_code := response_code m; authoritative := authoritative m;
     recursion_desired := recursion_desired m; recursion_available := recursion_available m;
     queries := queries m; answers := answers m; authorities := authorities m ++ rs;
     additionals := additionals m |}.

Definition add_additionals (rs : list DnsRR) (m : Message) : Message :=
  {| msg_id := msg_id m; response_code := response_code m; authoritative := authoritative m;
     recursion_desired := recursion_desired m; recursion_available := recursion_available m;
     queries := queries m; answers := answers m; authorities := authorities m;
     additionals := additionals m ++ rs |}.

(** [RData::A] and [RData::AAAA] addresses. *)
Definition rr_ip (r : DnsRR) : option IpAddr :=
  match dr_data r with
  | RD_A a => Some (V4 a)
  | RD_AAAA a => Some (V6 a)
  | _ => None
  end.

Definition private_answer (r : DnsRR) : bool :=
  match rr_ip r with Some ip => is_private_ip ip | None => false end.

End messages.

(** [Message::from_bytes] and [Message::to_bytes]. *)
Class DnsCodec {TL : RecordTypeLib} {NL : DnsNameLib} {DL : DnsTypesLib} : Type := {
  from_bytes : list Z -> option Message;
  to_bytes : Message -> option (list Z);
}.
