(* ===== verification/DnsPipeline.v ===== *)
(** * The resolve core

    [wardnetd/src/dns/pipeline.rs]: [QueryPipeline::handle], from the bytes of a
    query to at most one response, with the forwarders it ends in, and
    [update_config] of [wardnetd/src/dns/server.rs].  The snapshots a query loads
    are a value ([Pipeline]); what it writes is threaded ([World]); what the
    network, the tunnel table and the reply socket do is an environment ([Env])
    that may do anything.  One query runs on its own; log rows keep everything
    but the timestamp and the latency, and labels stay typed instead of rendered. *)

From S2P Require Import Prelude RustStr Net FilterParser DnsFilter DnsWire DnsCache Authoritative.
From S2P Require Import UpstreamPool DnsMessage.

(** ** Query results *)

Inductive DnsQueryResult : Type :=
| QForwarded | QCacheHit | QBlocked | QBlockedSkipped | QRewritten | QRecursive | QUpstreamError
| QNegative | QAuthoritative | QAuthoritativeNodata | QAuthoritativeNxdomain | QRateLimited
| QRebindingBlocked | QRecursorFailed | QError.

Definition result_as_str (r : DnsQueryResult) : str :=
  match r with
  | QForwarded => of_string "forwarded"
  | QCacheHit => of_string "cache_hit"
  | QBlocked => of_string "blocked"
  | QBlockedSkipped => of_string "blocked_skipped"
  | QRewritten => of_string "rewritten"
  | QRecursive => of_string "recursive"
  | QUpstreamError => of_string "upstream_error"
  | QNegative => of_string "negative"
  | QAuthoritative => of_string "authoritative"
  | QAuthoritativeNodata => of_string "authoritative_nodata"
  | QAuthoritativeNxdomain => of_string "authoritative_nxdomain"
  | QRateLimited => of_string "rate_limited"
  | QRebindingBlocked => of_string "rebinding_blocked"
  | QRecursorFailed => of_string "recursor_failed"
  | QError => of_string "error"
  end.

Definition ALL_RESULTS : list DnsQueryResult :=
  [QForwarded; QCacheHit; QBlocked; QBlockedSkipped; QRewritten; QRecursive; QUpstreamError;
   QNegative; QAuthoritative; QAuthoritativeNodata; QAuthoritativeNxdomain; QRateLimited;
   QRebindingBlocked; QRecursorFailed; QError].

(** Each arm of [from_db_str] accepts the string its variant renders to. *)
Definition from_db_str (s : str) : option DnsQueryResult :=
  List.find (fun r => bool_decide (result_as_str r = s)) ALL_RESULTS.

Definition parse_result (s : str) : DnsQueryResult := default QError (from_db_str s).

(** What the resolver writes is read back as the same result. *)
Lemma result_roundtrip r : parse_result (result_as_str r) = r.
Proof. by destruct r. Qed.

(** ** Who asks *)

Inductive ClientIdentity : Type :=
| ClientIp (ip : IpAddr)
| ClientDevice (device_id : Z) (token : str).

Inductive TransportProtocol : Type := TransportUdp | TransportDot.

Record QueryAttribution : Type := { qa_device_id : option Z; qa_protocol : TransportProtocol }.

Record TunnelForwarderInfo : Type := { tf_interface_name : str; tf_upstream : SocketAddr }.

Definition CONDITIONAL_SOCKET_POOL_SIZE : nat := 8.
Definition CONDITIONAL_RECV_TIMEOUT : Z := 5000.
Definition TUNNEL_RECV_TIMEOUT : Z := 5000.
Definition RECV_BUFFER : nat := Z.to_nat 4096.
Definition LOCAL_ZONE_SUFFIX : str := of_string "lan".

(** The token-bucket limiter of [rate_limit.rs], whose token counts are floats. *)
Class RateLimiter : Type := {
  Buckets : Type;
  (** [self.rate_limiter.check(key)] at a time *)
  bucket_check : Z -> IpAddr -> Buckets -> bool * Buckets;
  (** [self.rate_limiter.set_rate(rate)] *)
  bucket_set_rate : Z -> Buckets -> Buckets;
}.

Section pipeline.
Context {RL : RegexLib} {TL : RecordTypeLib} {IL : IpNetworkLib} {NL : DnsNameLib}.
Context {DL : DnsTypesLib} {CL : DnsCodec} {LL : RateLimiter}.

Abbreviation NetErr := (NetError SoaRecord).

(** ** State *)

(** What a query loads once. *)
Record Pipeline : Type := {
  pl_config : DnsConfig;
  pl_pool : UpstreamPool;
  pl_recursor : bool;
  pl_filter : FilterState;
  pl_routing_profile : bool;
  pl_log_sink : bool;
  pl_routing_snapshot : gmap IpAddr UpstreamId;
  pl_device_routing_snapshot : gmap Z UpstreamId;
  pl_device_snapshot : gmap IpAddr Z;
  pl_view : AuthoritativeView;
}.

(** What an upstream label of a log row names. *)
Inductive UpstreamLabel : Type :=
| LabelServer (address : str)
| LabelIp (ip : IpAddr)
| LabelRecursive.

Record QueryLogRow : Type := {
  ql_client_ip : IpAddr;
  ql_domain : str;
  ql_query_type : RecordType;
  ql_result : str;
  ql_upstream : option UpstreamLabel;
  ql_device_id : option Z;
  ql_protocol : TransportProtocol;
}.

(** [DnsLogSink]: the rows its persistence channel took, how many were handed to
    it, and its [dropped_entries] counter. *)
Record LogSink : Type := {
  ls_rows : list QueryLogRow;
  ls_recorded : nat;
  ls_dropped : Z;
}.

(** What the channel does with one [try_send]. *)
Inductive TrySend : Type := Queued | Full | Closed.

(** Whom a query was sent to. *)
Inductive Contact : Type :=
| ToServer (address : str)
| ToRoots
| ToTunnel (forwarder : TunnelForwarderInfo)
| ToConditional (upstream : SocketAddr).

(** A [note_resolution] call. *)
Record Note : Type := {
  nt_device_id : Z; nt_client : IpAddr; nt_domain : str; nt_ips : list IpAddr; nt_ttl : Z }.

Record World : Type := {
  w_now : Z;
  w_cache : DnsCache;
  w_sends : nat;
  w_sent : list (list Z * SocketAddr);
  w_log : LogSink;
  w_contacts : list Contact;
  w_notes : list Note;
  w_buckets : Buckets;
  w_forwarders : gmap Z TunnelForwarderInfo;
  w_sockets : nat;
}.

(** A tunnel round trip: the socket could not be set up or written, or receiving
    ended after some milliseconds with a datagram or an error; silence is an end
    after the timeout. *)
Inductive TunnelIo : Type :=
| TunnelUnready
| TunnelReceived (after : Z) (received : option (list Z)).

(** A conditional round trip: whether a socket can be bound, connected and
    written, and everything the socket then delivers, stale datagrams included;
    [None] is a receive error. *)
Record ConditionalIo : Type := {
  ci_bind : bool;
  ci_send : bool;
  ci_datagrams : list (Z * option (list Z));
}.

Record Env : Type := {
  env_send : nat -> bool;
  env_log : nat -> TrySend;
  env_ask : UpstreamEntry -> str -> RecordType -> option (Z * result (list DnsRR) NetErr);
  env_recurse : DnsQuery -> Z * result Message NetErr;
  env_tunnel : TunnelForwarderInfo -> list Z -> TunnelIo;
  env_conditional : SocketAddr -> list Z -> ConditionalIo;
  env_find_tunnel : Z -> option (option str);
  env_find_config : Z -> option (option (list str));
  env_build_recursor : bool -> bool;
}.

Inductive PipelineError : Type := EParse | EName | EEncode | ESend | EUpstream.

Abbreviation P := (ST World PipelineError).

Definition set_time (t : Z) (w : World) : World :=
  {| w_now := t; w_cache := w_cache w; w_sends := w_sends w; w_sent := w_sent w; w_log := w_log w;
     w_contacts := w_contacts w; w_notes := w_notes w; w_buckets := w_buckets w;
     w_forwarders := w_forwarders w; w_sockets := w_sockets w |}.

Definition set_cache (c : DnsCache) (w : World) : World :=
  {| w_now := w_now w; w_cache := c; w_sends := w_sends w; w_sent := w_sent w; w_log := w_log w;
     w_contacts := w_contacts w; w_notes := w_notes w; w_buckets := w_buckets w;
     w_forwarders := w_forwarders w; w_sockets := w_sockets w |}.

Definition set_sent (s : list (list Z * SocketAddr)) (w : World) : World :=
  {| w_now := w_now w; w_cache := w_cache w; w_sends := S (w_sends w); w_sent := s;
     w_log := w_log w; w_contacts := w_contacts w; w_notes := w_notes w;
     w_buckets := w_buckets w; w_forwarders := w_forwarders w; w_sockets := w_sockets w |}.

Definition set_log (s : LogSink) (w : World) : World :=
  {| w_now := w_now w; w_cache := w_cache w; w_sends := w_sends w; w_sent := w_sent w;
     w_log := s; w_contacts := w_contacts w; w_notes := w_notes w;
     w_buckets := w_buckets w; w_forwarders := w_forwarders w; w_sockets := w_sockets w |}.

Definition add_contacts (cs : list Contact) (w : World) : World :=
  {| w_now := w_now w; w_cache := w_cache w; w_sends := w_sends w; w_sent := w_sent w;
     w_log := w_log w; w_contacts := w_contacts w ++ cs; w_notes := w_notes w;
     w_buckets := w_buckets w; w_forwarders := w_forwarders w; w_sockets := w_sockets w |}.

Definition add_note (n : Note) (w : World) : World :=
  {| w_now := w_now w; w_cache := w_cache w; w_sends := w_sends w; w_sent := w_sent w;
     w_log := w_log w; w_contacts := w_contacts w; w_notes := w_notes w ++ [n];
     w_buckets := w_buckets w; w_forwarders := w_forwarders w; w_sockets := w_sockets w |}.

Definition set_buckets (b : Buckets) (w : World) : World :=
  {| w_now := w_now w; w_cache := w_cache w; w_sends := w_sends w; w_sent := w_sent w;
     w_log := w_log w; w_contacts := w_contacts w; w_notes := w_notes w; w_buckets := b;
     w_forwarders := w_forwarders w; w_sockets := w_sockets w |}.

Definition set_forwarders (f : gmap Z TunnelForwarderInfo) (w : World) : World :=
  {| w_now := w_now w; w_cache := w_cache w; w_sends := w_sends w; w_sent := w_sent w;
     w_log := w_log w; w_contacts := w_contacts w; w_notes := w_notes w;
     w_buckets := w_buckets w; w_forwarders := f; w_sockets := w_sockets w |}.

Definition set_sockets (n : nat) (w : World) : World :=
  {| w_now := w_now w; w_cache := w_cache w; w_sends := w_sends w; w_sent := w_sent w;
     w_log := w_log w; w_contacts := w_contacts w; w_notes := w_notes w;
     w_buckets := w_buckets w; w_forwarders := w_forwarders w; w_sockets := n |}.

Definition MILLIS : Z := 1000000.

(** Waiting [ms] milliseconds. *)
Definition wait (ms : Z) : P unit := st_modify (fun w => set_time (w_now w + ms * MILLIS) w).

Definition contact (cs : list Contact) : P unit := st_modify (add_contacts cs).

(** ** One query *)

Context (p : Pipeline) (env : Env).

Record QueryCtx : Type := {
  qc_packet : list Z;
  qc_request : Message;
  qc_id : Z;
  qc_src : SocketAddr;
  qc_client : ClientIdentity;
  qc_attribution : QueryAttribution;
  qc_domain : str;
  qc_rtype : RecordType;
  qc_upstream : UpstreamId;
}.

Definition domain_lower (q : QueryCtx) : str :=
  to_ascii_lowercase (trim_end_matches "."%char (qc_domain q)).

(** [reply.send_to(&bytes, src).await?] *)
Definition send_to (q : QueryCtx) (bytes : list Z) : P unit := fun w =>
  if env_send env (w_sends w)
  then (Ok tt, set_sent (w_sent w ++ [(bytes, qc_src q)]) w)
  else (Err ESend, set_sent (w_sent w) w).

(** [response.to_bytes()?] and the send. *)
Definition reply (q : QueryCtx) (m : Message) : P (list Z) :=
  bytes ← st_lift (ok_or (to_bytes m) EEncode);
  _ ← send_to q bytes;
  mret bytes.

(** [DnsLogSink::record]: a row the full channel refuses is dropped and counted,
    one a closed channel refuses just dropped. *)
Definition sink_record (row : QueryLogRow) (s : LogSink) : LogSink :=
  let sent := env_log env (ls_recorded s) in
  {| ls_rows := match sent with Queued => ls_rows s ++ [row] | _ => ls_rows s end;
     ls_recorded := S (ls_recorded s);
     ls_dropped := match sent with
                   | Full => (ls_dropped s + 1) mod 18446744073709551616
                   | _ => ls_dropped s
                   end |}.

Definition record_query (q : QueryCtx) (result : str) (upstream : option UpstreamLabel) : P unit :=
  if pl_log_sink p then
    st_modify (fun w => set_log (sink_record
      {| ql_client_ip := sa_ip (qc_src q);
         ql_domain := trim_end_matches "."%char (qc_domain q);
         ql_query_type := qc_rtype q; ql_result := result;
         ql_upstream := upstream;
         ql_device_id := qa_device_id (qc_attribution q);
         ql_protocol := qa_protocol (qc_attribution q) |} (w_log w)) w)
  else mret tt.

(** A response built here, sent and logged. *)
Definition respond (q : QueryCtx) (m : Message) (result : DnsQueryResult) : P unit :=
  _ ← reply q m;
  record_query q (result_as_str result) None.

(** *** 0.4: private reverse names *)

(** [None]: not a private reverse query; otherwise the response and the logged
    result, or the failure to render the question name. *)
Definition reverse_answer (q : QueryCtx) : option (option (Message * DnsQueryResult)) :=
  if bool_decide (qc_rtype q = RT_PTR \/ qc_rtype q = RT_ANY) then
    ptr_ip ← parse_ptr_ipv4 (domain_lower q);
    zone ← private_reverse_zone ptr_ip;
    if is_some (match_forwarding_rule (pl_view p) (domain_lower q)) then None
    else Some
      (let ptr_records := default [] (reverse_lookup (pl_view p) ptr_ip) in
       name ← name_from_str_relaxed (qc_domain q);
       let response := set_authoritative (response (qc_id q) (qc_request q)) in
       let rendered := omap (fun r => (fun tname => {| dr_name := name; dr_ttl := rec_ttl r;
                                                       dr_data := RD_PTR tname |})
                                       <$> name_from_str_relaxed (rec_domain r)) ptr_records in
       match rendered with
       | [] =>
           let response := match ptr_records with [] => set_code NXDomain response | _ => response end in
           let response := match build_soa zone 1 with
                           | Some soa => add_authorities [soa_rr soa] response
                           | None => response
                           end in
           Some (response, match ptr_records with
                           | [] => QAuthoritativeNxdomain
                           | _ => QAuthoritativeNodata
                           end)
       | _ => Some (add_answers rendered response, QAuthoritative)
       end)
  else None.

(** *** 0.5: local records *)

Definition view_lookup (rtype : RecordType) (name : str) : option (list CustomDnsRecord) :=
  if bool_decide (rtype = RT_ANY) then lookup_all (pl_view p) name
  else match rtype_from_hickory rtype with
       | Some rt => Authoritative.lookup (pl_view p) name rt
       | None => None
       end.

Definition is_system (r : CustomDnsRecord) : bool :=
  match rec_source r with SystemRecord => true | _ => false end.

Definition search_domain_hop (q : QueryCtx) (auth_lookup : option (list CustomDnsRecord))
    : option (list CustomDnsRecord) :=
  let d := domain_lower q in
  if match auth_lookup with Some (_ :: _) => false | _ => true end
     && negb (bool_decide (d = [])) && negb (contains "."%char d)
  then
    match view_lookup (qc_rtype q) (d ++ "." ++ LOCAL_ZONE_SUFFIX) with
    | Some (r :: recs) => if forallb is_system (r :: recs) then Some (r :: recs) else auth_lookup
    | _ => auth_lookup
    end
  else auth_lookup.

Definition record_rr (name : Name) (rec : CustomDnsRecord) : option DnsRR :=
  (fun rdata => {| dr_name := name; dr_ttl := rec_ttl rec; dr_data := rdata |})
  <$> make_rdata (rec_type rec) (rec_value rec).

(** The answer and additional records of the CNAME branch. *)
Definition cname_answer (q : QueryCtx) (name : Name) : list DnsRR * list DnsRR :=
  match lookup_cname (pl_view p) (domain_lower q) with
  | None => ([], [])
  | Some cname_rec =>
      let target_domain := to_ascii_lowercase (trim_end_matches "."%char (rec_value cname_rec)) in
      let answer := match make_rdata Cname (rec_value cname_rec) with
                    | Some rdata => [{| dr_name := name; dr_ttl := rec_ttl cname_rec; dr_data := rdata |}]
                    | None => []
                    end in
      let additional :=
        match rtype_from_hickory (qc_rtype q) with
        | None => []
        | Some target_rt =>
            match Authoritative.lookup (pl_view p) target_domain target_rt with
            | None => []
            | Some target_records =>
                match name_from_str_relaxed (rec_value cname_rec) with
                | None => []
                | Some target_name => omap (record_rr target_name) target_records
                end
            end
        end in
      (answer, additional)
  end.

Definition authoritative_answer (q : QueryCtx) : option (option (Message * DnsQueryResult)) :=
  auth_records ← search_domain_hop q (view_lookup (qc_rtype q) (domain_lower q));
  Some
    (name ← name_from_str_relaxed (qc_domain q);
     let response := set_authoritative (response (qc_id q) (qc_request q)) in
     match auth_records with
     | [] =>
         let soa := z ← authoritative_zone (pl_view p) (domain_lower q); za_soa z in
         Some (match soa with
               | Some s => add_authorities [soa_rr s] response
               | None => response
               end, QAuthoritative)
     | _ =>
         let response := add_answers (omap (record_rr name) auth_records) response in
         let response :=
           match rtype_from_hickory (qc_rtype q), answers response with
           | Some (A | Aaaa), [] =>
               let '(answer, additional) := cname_answer q name in
               add_additionals additional (add_answers answer response)
           | _, _ => response
           end in
         Some (response, QAuthoritative)
     end).

(** *** 0.6 and 0.7: forwarding rules and zone authority *)

Definition conditional_upstream (q : QueryCtx) : option SocketAddr :=
  r ← match_forwarding_rule (pl_view p) (domain_lower q);
  parse_conditional_upstream (rule_upstream r).

Definition zone_negative (q : QueryCtx) : option (Message * DnsQueryResult) :=
  match conditional_upstream q with
  | Some _ => None
  | None =>
      z ← authoritative_zone (pl_view p) (domain_lower q);
      let name_exists := is_some (lookup_all (pl_view p) (domain_lower q))
                         || bool_decide (domain_lower q = za_name z) in
      let response := set_authoritative (response (qc_id q) (qc_request q)) in
      let response := if name_exists then response else set_code NXDomain response in
      let response := match za_soa z with
                      | Some soa => add_authorities [soa_rr soa] response
                      | None => response
                      end in
      Some (response, if name_exists then QAuthoritativeNodata else QAuthoritativeNxdomain)
  end.

(** *** Upstream answers *)

Definition relayed_result (is_negative : bool) (pass_result : str) : str :=
  if is_negative && negb (bool_decide (pass_result = result_as_str QBlockedSkipped))
  then result_as_str QNegative else pass_result.

Definition cache_insert (q : QueryCtx) (bytes : list Z) (ttl : Z) : P unit :=
  st_modify (fun w => set_cache
    (DnsCache.insert (w_now w) (w_cache w) (qc_upstream q) (qc_domain q) (qc_rtype q) bytes ttl
       (cache_ttl_min_secs (pl_config p)) (cache_ttl_max_secs (pl_config p))) w).

(** The routing-profile hook: only for clients attributed by address. *)
Definition note_resolution (q : QueryCtx) (rs : list DnsRR) (ttl : Z) : P unit :=
  match qc_client q, qa_device_id (qc_attribution q) with
  | ClientIp _, Some device_id =>
      match pl_routing_profile p, omap rr_ip rs with
      | true, (_ :: _) as ips =>
          st_modify (add_note {| nt_device_id := device_id; nt_client := sa_ip (qc_src q);
                                 nt_domain := qc_domain q; nt_ips := ips; nt_ttl := ttl |})
      | _, _ => mret tt
      end
  | _, _ => mret tt
  end.

Definition min_ttl (rs : list DnsRR) : Z := foldl (fun m r => Z.min m (dr_ttl r)) U32_MAX rs.

Definition send_negative (q : QueryCtx) (nx_domain : bool) (authority : option DnsRR) : P (list Z) :=
  let m := set_code (if nx_domain then NXDomain else NoError) (response (qc_id q) (qc_request q)) in
  reply q (match authority with Some a => add_authorities [a] m | None => m end).

Definition send_resolved (q : QueryCtx) (pass_result : str) (label : option UpstreamLabel)
    (rs : list DnsRR) : P unit :=
  if rebinding_protection (pl_config p) && existsb private_answer rs then
    _ ← send_negative q false None;
    record_query q (result_as_str QRebindingBlocked) label
  else
    bytes ← reply q (add_answers rs (response (qc_id q) (qc_request q)));
    _ ← (if (min_ttl rs <? U32_MAX) && (0 <? min_ttl rs)
         then cache_insert q bytes (min_ttl rs) else mret tt);
    _ ← note_resolution q rs (if min_ttl rs =? U32_MAX then 0 else min_ttl rs);
    record_query q pass_result label.

Definition relay_negative (q : QueryCtx) (pass_result : str) (label : option UpstreamLabel)
    (nx_domain : bool) (soa : option SoaRecord) : P unit :=
  let '(authority, negative_ttl) :=
    match soa with
    | Some soa =>
        let raw_ttl := Z.min (soa_ttl soa) (soa_minimum soa) in
        let ttl := if raw_ttl =? 0 then 0
                   else Z.min (Z.max raw_ttl (cache_ttl_min_secs (pl_config p)))
                          (cache_ttl_max_secs (pl_config p)) in
        (Some (with_ttl ttl (soa_rr soa)), ttl)
    | None => (None, 0)
    end in
  bytes ← send_negative q nx_domain authority;
  _ ← (if 0 <? negative_ttl then cache_insert q bytes negative_ttl else mret tt);
  record_query q (relayed_result true pass_result) label.

Definition send_servfail (q : QueryCtx) : P (list Z) :=
  reply q (set_code ServFail (response (qc_id q) (qc_request q))).

Definition send_refused (q : QueryCtx) : P (list Z) :=
  reply q (set_code Refused (response (qc_id q) (qc_request q))).

Definition forward_via_default_resolver (q : QueryCtx) (pass_result : str) : P unit :=
  let ask e := env_ask env e (qc_domain q) (qc_rtype q) in
  let '(outcome, t, asked) :=
    ladder_within (forward_deadline_ms (pl_config p))
      (walk_ladder ask (upstream_timeout_ms (pl_config p)) 0 (pool_serving (pl_pool p))) in
  _ ← contact ((fun a => ToServer (snd a)) <$> asked);
  _ ← wait t;
  match outcome with
  | Answered addr rs => send_resolved q pass_result (Some (LabelServer addr)) rs
  | Negative addr nx soa => relay_negative q pass_result (Some (LabelServer addr)) nx soa
  | Exhausted =>
      _ ← send_servfail q;
      record_query q (result_as_str QUpstreamError) None
  end.

Definition handle_recursor_outcome (q : QueryCtx) (pass_result : str)
    (recursor_result : option (result Message NetErr)) : P unit :=
  let fall_back :=
    match upstream_servers (pl_config p) with
    | _ :: _ => forward_via_default_resolver q pass_result
    | [] =>
        _ ← send_servfail q;
        record_query q (result_as_str QRecursorFailed) None
    end in
  match recursor_result with
  | Some (Ok msg) => send_resolved q pass_result (Some LabelRecursive) (answers msg)
  | Some (Err e) =>
      if is_no_records_found e || is_nx_domain e
      then relay_negative q pass_result (Some LabelRecursive) (is_nx_domain e) (into_soa e)
      else fall_back
  | None => fall_back
  end.

Definition resolve_via_recursor (q : QueryCtx) (pass_result : str) : P unit :=
  match head (queries (qc_request q)) with
  | None => _ ← send_servfail q; mret tt
  | Some query =>
      if pl_recursor p then
        let '(t, r) := env_recurse env query in
        _ ← contact [ToRoots];
        _ ← wait t;
        handle_recursor_outcome q pass_result (Some r)
      else handle_recursor_outcome q pass_result None
  end.

(** The part the tunnel and the conditional path share: classify what was
    relayed, cache it, and name the result. *)
Definition cache_relayed (q : QueryCtx) (buf : list Z) (pass_result : str) (parsed : Message)
    : P str :=
  let '(is_negative, raw_ttl) := classify_response parsed in
  _ ← (if 0 <? raw_ttl then cache_insert q buf raw_ttl else mret tt);
  mret (relayed_result is_negative pass_result).

Definition forward_via_tunnel (q : QueryCtx) (forwarder : TunnelForwarderInfo) (pass_result : str)
    : P unit :=
  match env_tunnel env forwarder (qc_packet q) with
  | TunnelUnready => st_fail EUpstream
  | TunnelReceived after received =>
      _ ← contact [ToTunnel forwarder];
      _ ← wait (Z.min after TUNNEL_RECV_TIMEOUT);
      match (if TUNNEL_RECV_TIMEOUT <? after then None else received) with
      | None => st_fail EUpstream
      | Some bytes =>
        let buf := take RECV_BUFFER bytes in
        _ ← send_to q buf;
        result ← match from_bytes buf with
                 | Some parsed =>
                     result ← cache_relayed q buf pass_result parsed;
                     _ ← note_resolution q (answers parsed) (snd (classify_response parsed));
                     mret result
                 | None => mret pass_result
                 end;
        record_query q result (Some (LabelIp (sa_ip (tf_upstream forwarder))))
      end
  end.

Definition get_or_build_tunnel_forwarder (tunnel_id : Z) : P TunnelForwarderInfo := fun w =>
  match w_forwarders w !! tunnel_id with
  | Some f => (Ok f, w)
  | None =>
      match env_find_tunnel env tunnel_id, env_find_config env tunnel_id with
      | Some (Some interface_name), Some (Some (dns :: _)) =>
          match parse_ip dns with
          | Some upstream_ip =>
              let info := {| tf_interface_name := interface_name;
                             tf_upstream := {| sa_ip := upstream_ip; sa_port := 53 |} |} in
              (Ok info, set_forwarders (<[tunnel_id := info]> (w_forwarders w)) w)
          | None => (Err EUpstream, w)
          end
      | _, _ => (Err EUpstream, w)
      end
  end.

(** The receive loop: when it settled (or gave up), and on what. *)
Definition answers_query (q : QueryCtx) (m : Message) : bool :=
  bool_decide (msg_id m = qc_id q)
  && match head (queries m), head (queries (qc_request q)) with
     | Some a, Some b => name_eqb (dq_name a) (dq_name b)
     | None, None => true
     | _, _ => false
     end.

Fixpoint recv_loop (q : QueryCtx) (first_recv : bool) (datagrams : list (Z * option (list Z)))
    : result (Z * option Message * list Z) Z :=
  match datagrams with
  | [] => Err CONDITIONAL_RECV_TIMEOUT
  | (t, received) :: datagrams' =>
      if CONDITIONAL_RECV_TIMEOUT <? t then Err CONDITIONAL_RECV_TIMEOUT
      else
        match received with
        | None => Err t
        | Some bytes =>
            let buf := take RECV_BUFFER bytes in
            match from_bytes buf with
            | Some msg =>
                if answers_query q msg then Ok (t, Some msg, buf)
                else recv_loop q false datagrams'
            | None => if first_recv then Ok (t, None, buf) else recv_loop q false datagrams'
            end
        end
  end.

Definition return_socket_to_pool : P unit :=
  st_modify (fun w => if (w_sockets w <? CONDITIONAL_SOCKET_POOL_SIZE)%nat
                      then set_sockets (S (w_sockets w)) w else w).

Definition checkout_socket (io : ConditionalIo) : P unit := fun w =>
  match w_sockets w with
  | S n => (Ok tt, set_sockets n w)
  | O => if ci_bind io then (Ok tt, w) else (Err EUpstream, w)
  end.

Definition forward_via_conditional (q : QueryCtx) (upstream : SocketAddr) (pass_result : str)
    : P unit :=
  let io := env_conditional env upstream (qc_packet q) in
  _ ← checkout_socket io;
  if negb (ci_send io) then st_fail EUpstream
  else
    _ ← contact [ToConditional upstream];
    match recv_loop q true (ci_datagrams io) with
    | Err t => _ ← wait t; st_fail EUpstream
    | Ok (t, parsed, buf) =>
        _ ← wait t;
        _ ← send_to q buf;
        _ ← return_socket_to_pool;
        result ← match parsed with
                 | Some m => cache_relayed q buf pass_result m
                 | None => mret pass_result
                 end;
        record_query q result (Some (LabelIp (sa_ip upstream)))
    end.

(** [if let Err(e) = forward { send_servfail(..).await?; record_query(..) }] *)
Definition or_servfail (q : QueryCtx) (label : option UpstreamLabel) (forward : P unit) : P unit :=
  fun w => match forward w with
           | (Ok tt, w') => (Ok tt, w')
           | (Err _, w') => (_ ← send_servfail q;
                             record_query q (result_as_str QUpstreamError) label) w'
           end.

(** *** 3: forwarding *)

Definition forward (q : QueryCtx) (pass_result : str) : P unit :=
  match conditional_upstream q with
  | Some cond_upstream =>
      or_servfail q (Some (LabelIp (sa_ip cond_upstream)))
        (forward_via_conditional q cond_upstream pass_result)
  | None =>
      match qc_upstream q with
      | DefaultUpstream =>
          if bool_decide (resolution_mode (pl_config p) = Recursive)
          then resolve_via_recursor q pass_result
          else forward_via_default_resolver q pass_result
      | TunnelUpstream tunnel_id => fun w =>
          match get_or_build_tunnel_forwarder tunnel_id w with
          | (Ok forwarder, w') =>
              or_servfail q (Some (LabelIp (sa_ip (tf_upstream forwarder))))
                (forward_via_tunnel q forwarder pass_result) w'
          | (Err _, w') => (_ ← send_servfail q;
                            record_query q (result_as_str QUpstreamError) None) w'
          end
      end
  end.

(** *** 1, 2 and 2.5: cache, filter and rate limit *)

Definition cache_get (q : QueryCtx) : P (option (list Z)) := fun w =>
  let '(hit, c) := DnsCache.get (w_now w) (w_cache w) (qc_upstream q) (qc_domain q) (qc_rtype q)
                     (qc_id q) in
  (Ok hit, set_cache c w).

Definition filter_outcome (q : QueryCtx) : CheckOutcome :=
  match qc_client q with
  | ClientIp _ => service_check (pl_filter p) (domain_lower q) (qc_rtype q) (sa_ip (qc_src q))
  | ClientDevice device_id _ =>
      check_for_device (pl_filter p) (domain_lower q) (qc_rtype q) device_id (sa_ip (qc_src q))
  end.

(** [!matches!(client, Ip(_)) || self.rate_limiter.check(src.ip())] *)
Definition rate_gate (q : QueryCtx) : P bool := fun w =>
  match qc_client q with
  | ClientIp _ =>
      let '(ok, b) := bucket_check (w_now w) (sa_ip (qc_src q)) (w_buckets w) in
      (Ok ok, set_buckets b w)
  | ClientDevice _ _ => (Ok true, w)
  end.

Definition rewrite_message (q : QueryCtx) (ip : IpAddr) : option Message :=
  name ← name_from_str_relaxed (qc_domain q);
  Some (add_answers [{| dr_name := name; dr_ttl := 60;
                        dr_data := match ip with V4 a => RD_A a | V6 a => RD_AAAA a end |}]
          (response (qc_id q) (qc_request q))).

(** Past a cache miss. *)
Definition filtered (q : QueryCtx) : P unit :=
  let outcome := filter_outcome q in
  match co_action outcome with
  | ActionBlock => respond q (set_code NXDomain (response (qc_id q) (qc_request q))) QBlocked
  | ActionRewrite ip =>
      m ← st_lift (ok_or (rewrite_message q ip) EName);
      respond q m QRewritten
  | Pass =>
      allowed ← rate_gate q;
      if negb allowed then
        _ ← send_refused q;
        record_query q (result_as_str QRateLimited) None
      else
        forward q (result_as_str (if would_have_blocked outcome then QBlockedSkipped
                                  else QForwarded))
  end.

Definition resolve (q : QueryCtx) : P unit :=
  cached ← cache_get q;
  match cached with
  | Some bytes =>
      _ ← send_to q bytes;
      record_query q (result_as_str QCacheHit) None
  | None => filtered q
  end.

(** The stages that answer from the local view, in order. *)
Definition local_answer (q : QueryCtx) : option (option (Message * DnsQueryResult)) :=
  match reverse_answer q with
  | Some r => Some r
  | None =>
      match authoritative_answer q with
      | Some r => Some r
      | None => Some <$> zone_negative q
      end
  end.

Definition handle_query (q : QueryCtx) : P unit :=
  match local_answer q with
  | Some r =>
      m ← st_lift (ok_or r EName);
      respond q (fst m) (snd m)
  | None => resolve q
  end.

Definition select_upstream (client : ClientIdentity) (src : SocketAddr) : UpstreamId :=
  default DefaultUpstream
    match client with
    | ClientIp _ => pl_routing_snapshot p !! sa_ip src
    | ClientDevice device_id _ =>
        match pl_device_routing_snapshot p !! device_id with
        | Some u => Some u
        | None => pl_routing_snapshot p !! sa_ip src
        end
    end.

Definition attributed_device (client : ClientIdentity) : option Z :=
  match client with
  | ClientIp ip => pl_device_snapshot p !! ip
  | ClientDevice device_id _ => Some device_id
  end.

Definition query_ctx (packet : list Z) (request : Message) (question : DnsQuery) (src : SocketAddr)
    (client : ClientIdentity) (protocol : TransportProtocol) : QueryCtx :=
  {| qc_packet := packet; qc_request := request; qc_id := msg_id request; qc_src := src;
     qc_client := client;
     qc_attribution := {| qa_device_id := attributed_device client; qa_protocol := protocol |};
     qc_domain := name_to_string (dq_name question); qc_rtype := dq_type question;
     qc_upstream := select_upstream client src |}.

Definition handle (packet : list Z) (src : SocketAddr) (client : ClientIdentity)
    (protocol : TransportProtocol) : P unit :=
  match from_bytes packet with
  | None => st_fail EParse
  | Some request =>
      match head (queries request) with
      | None => mret tt
      | Some question => handle_query (query_ctx packet request question src client protocol)
      end
  end.

(** ** Reconfiguration ([wardnetd/src/dns/server.rs]) *)

Definition update_config (config : DnsConfig) (w : World) : Pipeline * World :=
  let prev := pl_config p in
  let upstream_changed := negb (bool_decide (upstream_servers prev = upstream_servers config)) in
  let dnssec_changed := negb (bool_decide (dnssec_enabled prev = dnssec_enabled config)) in
  let rebinding_changed :=
    negb (bool_decide (rebinding_protection prev = rebinding_protection config)) in
  let mode_changed := negb (bool_decide (resolution_mode prev = resolution_mode config)) in
  let forwarder_changed :=
    negb (bool_decide (forwarder_selection_mode prev = forwarder_selection_mode config))
    || negb (bool_decide (single_upstream prev = single_upstream config)) in
  let pool := if upstream_changed || dnssec_changed || forwarder_changed
              then pool_build config else pl_pool p in
  let recursor :=
    if mode_changed || dnssec_changed then
      if bool_decide (resolution_mode config = Recursive)
      then env_build_recursor env (dnssec_enabled config) else false
    else pl_recursor p in
  let cache := if upstream_changed || dnssec_changed || rebinding_changed || mode_changed
                  || forwarder_changed
               then snd (DnsCache.flush (w_cache w)) else w_cache w in
  ({| pl_config := config; pl_pool := pool; pl_recursor := recursor; pl_filter := pl_filter p;
      pl_routing_profile := pl_routing_profile p; pl_log_sink := pl_log_sink p;
      pl_routing_snapshot := pl_routing_snapshot p;
      pl_device_routing_snapshot := pl_device_routing_snapshot p;
      pl_device_snapshot := pl_device_snapshot p; pl_view := pl_view p |},
   set_buckets (bucket_set_rate (rate_limit_per_second config) (w_buckets w)) (set_cache cache w)).

(** [pool.rcu(|current| current.with_serving(&cfg, &health))] *)
Definition republish_serving (health : UpstreamHealth) : Pipeline :=
  {| pl_config := pl_config p; pl_pool := with_serving (pl_pool p) (pl_config p) health;
     pl_recursor := pl_recursor p; pl_filter := pl_filter p;
     pl_routing_profile := pl_routing_profile p; pl_log_sink := pl_log_sink p;
     pl_routing_snapshot := pl_routing_snapshot p;
     pl_device_routing_snapshot := pl_device_routing_snapshot p;
     pl_device_snapshot := pl_device_snapshot p; pl_view := pl_view p |}.

Definition update_authoritative_view (view : AuthoritativeView) : Pipeline :=
  {| pl_config := pl_config p; pl_pool := pl_pool p; pl_recursor := pl_recursor p;
     pl_filter := pl_filter p; pl_routing_profile := pl_routing_profile p;
     pl_log_sink := pl_log_sink p; pl_routing_snapshot := pl_routing_snapshot p;
     pl_device_routing_snapshot := pl_device_routing_snapshot p;
     pl_device_snapshot := pl_device_snapshot p; pl_view := view |}.

End pipeline.
