(* ===== verification/DnsPipelineLaws.v ===== *)
(** * What the resolve core guarantees

    Every query is answered exactly once and its row handed once to the log sink,
    whatever the upstreams do; local names stay local; a client's queries go only to its own
    upstream; private answers for external names are refused; and the filter
    decides what the cache does not. *)

From S2P Require Import Prelude RustStr Net FilterParser DnsFilter DnsWire DnsCache Authoritative.
From S2P Require Import UpstreamPool DnsMessage DnsPipeline.

Section pipeline_laws.
Context {RL : RegexLib} {TL : RecordTypeLib} {IL : IpNetworkLib} {NL : DnsNameLib}.
Context {DL : DnsTypesLib} {CL : DnsCodec} {LL : RateLimiter}.
Context (p : Pipeline) (env : Env).
Implicit Types (q : QueryCtx) (w : World).

Abbreviation P := (ST World PipelineError).

(** ** One response, one log row *)

(** A response the pipeline built for this query. *)
Definition built q (bytes : list Z) : Prop :=
  exists m, to_bytes m = Some bytes /\ msg_id m = qc_id q /\ queries m = queries (qc_request q).

(** The forwarder a tunnel's queries go through: the one already known, or the
    one its stored configuration describes. *)
Definition forwarder_of (fw : gmap Z TunnelForwarderInfo) (t : Z) (f : TunnelForwarderInfo) : Prop :=
  fw !! t = Some f
  \/ (fw !! t = None /\ exists dns rest ip,
       env_find_tunnel env t = Some (Some (tf_interface_name f))
       /\ env_find_config env t = Some (Some (dns :: rest)) /\ parse_ip dns = Some ip
       /\ tf_upstream f = {| sa_ip := ip; sa_port := 53 |}).

(** Whom a query may be sent to: the server of the rule that covers it, else the
    upstream its client is bound to, and nobody else. *)
Definition allowed (fw : gmap Z TunnelForwarderInfo) q (c : Contact) : Prop :=
  match c with
  | ToConditional u => conditional_upstream p q = Some u
  | ToServer a => conditional_upstream p q = None /\ qc_upstream q = DefaultUpstream
      /\ a ∈ address <$> pool_serving (pl_pool p)
  | ToRoots => conditional_upstream p q = None /\ qc_upstream q = DefaultUpstream
      /\ resolution_mode (pl_config p) = Recursive
  | ToTunnel f => conditional_upstream p q = None
      /\ exists t, qc_upstream q = TunnelUpstream t /\ forwarder_of fw t f
  end.

Lemma get_forwarder_of t w f w' : get_or_build_tunnel_forwarder env t w = (Ok f, w') ->
  forwarder_of (w_forwarders w) t f.
Proof.
  unfold get_or_build_tunnel_forwarder, forwarder_of. destruct (w_forwarders w !! t) eqn:E.
  { intros [= <- <-]. by left. }
  destruct (env_find_tunnel env t) as [[name|]|]; try done.
  destruct (env_find_config env t) as [[[|dns rest]|]|]; try done.
  destruct (parse_ip dns) as [ip|] eqn:Ei; [|done]. intros [= <- <-]. right. split; [done|].
  by exists dns, rest, ip.
Qed.

(** A datagram an upstream sent for this query: the resolver of the tunnel its
    client is bound to, over that tunnel and in time, or the server of the rule
    that covers it.  [fw] are the forwarders known when the query arrives. *)
Definition relayed (fw : gmap Z TunnelForwarderInfo) q (bytes : list Z) : Prop :=
  (exists f after received, allowed fw q (ToTunnel f) /\ after <= TUNNEL_RECV_TIMEOUT
    /\ env_tunnel env f (qc_packet q) = TunnelReceived after (Some received)
    /\ bytes = take RECV_BUFFER received)
  \/ (exists up t parsed, allowed fw q (ToConditional up)
    /\ recv_loop q true (ci_datagrams (env_conditional env up (qc_packet q))) = Ok (t, parsed, bytes)).

Definition log_row q (result : str) (label : option UpstreamLabel) : QueryLogRow :=
  {| ql_client_ip := sa_ip (qc_src q); ql_domain := trim_end_matches "."%char (qc_domain q);
     ql_query_type := qc_rtype q; ql_result := result; ql_upstream := label;
     ql_device_id := qa_device_id (qc_attribution q);
     ql_protocol := qa_protocol (qc_attribution q) |}.

(** The log after one row is handed to it, when there is one. *)
Definition logged q (result : str) (label : option UpstreamLabel) (s : LogSink) : LogSink :=
  if pl_log_sink p then sink_record env (log_row q result label) s else s.

(** Nothing sent, nothing logged so far. *)
Definition silent {X} (m : P X) : Prop := forall w,
  w_sent (snd (m w)) = w_sent w /\ w_log (snd (m w)) = w_log w.

(** Success is one datagram to the client and nothing logged yet; failure is
    neither. *)
Definition sends q (from : list Z -> Prop) {X} (m : P X) : Prop := forall w,
  match m w with
  | (Ok _, w') => (exists bytes, from bytes /\ w_sent w' = w_sent w ++ [(bytes, qc_src q)])
                  /\ w_log w' = w_log w
  | (Err e, w') => w_sent w' = w_sent w /\ w_log w' = w_log w
  end.

(** Success is one datagram to the client and one row; failure is neither. *)
Definition once_in q (from : list Z -> Prop) (m : P unit) w : Prop :=
  match m w with
  | (Ok _, w') =>
      (exists bytes, from bytes /\ w_sent w' = w_sent w ++ [(bytes, qc_src q)])
      /\ (exists result label,
           w_log w' = logged q result label (w_log w))
  | (Err e, w') => w_sent w' = w_sent w /\ w_log w' = w_log w
  end.

Definition once q (from : list Z -> Prop) (m : P unit) : Prop := forall w, once_in q from m w.

Lemma once_weaken q (f g : list Z -> Prop) m : (forall b, f b -> g b) -> once q f m -> once q g m.
Proof.
  intros Hfg Hm w. specialize (Hm w). unfold once_in in *. destruct (m w) as [[u|e] w']; [|done].
  destruct Hm as [(b & Hb & Hs) Hl]. split; [exists b; auto | done].
Qed.

Lemma silent_bind {X Y} (m : P X) (k : X -> P Y) :
  silent m -> (forall x, silent (k x)) -> silent (m ≫= k).
Proof.
  intros Hm Hk w. unfold mbind, st_bind. specialize (Hm w).
  destruct (m w) as [[x|e] w1]; simpl in *; [|done]. destruct (Hk x w1), Hm. split; congruence.
Qed.

Lemma silent_ret {X} (x : X) : silent (mret x).
Proof. done. Qed.

Lemma once_after_silent q f {X} (m : P X) (k : X -> P unit) :
  silent m -> (forall x, once q f (k x)) -> once q f (m ≫= k).
Proof.
  intros Hm Hk w. unfold once_in, mbind, st_bind. specialize (Hm w).
  destruct (m w) as [[x|e] w1]; simpl in *; [|done]. destruct Hm as [<- <-]. apply Hk.
Qed.

Lemma sends_then_silent q f {X Y} (m : P X) (k : X -> P Y) :
  sends q f m -> (forall x, silent (k x)) -> (forall x w e, fst (k x w) <> Err e) ->
  sends q f (m ≫= k).
Proof.
  intros Hm Hk Hok w. unfold mbind, st_bind. specialize (Hm w).
  destruct (m w) as [[x|e] w1]; simpl in *; [|done]. specialize (Hk x w1). specialize (Hok x w1).
  destruct (k x w1) as [[y|e] w2]; simpl in *; [|by destruct (Hok e)].
  destruct Hk as [-> ->]. done.
Qed.

Lemma record_query_spec q result label w :
  record_query p env q result label w
  = (Ok tt, if pl_log_sink p then set_log (sink_record env (log_row q result label) (w_log w)) w else w).
Proof. unfold record_query. by destruct (pl_log_sink p). Qed.

Lemma once_record q f {X} (m : P X) result label :
  sends q f m -> once q f (m ≫= fun x => record_query p env q (result x) label).
Proof.
  intros Hm w. unfold once_in, mbind, st_bind. specialize (Hm w).
  destruct (m w) as [[x|e] w1]; simpl in *; [|done]. rewrite record_query_spec.
  destruct Hm as [(b & Hb & Hs) Hl]. split; [exists b; split; [done|] | exists (result x), label];
    unfold logged; destruct (pl_log_sink p); simpl; rewrite ?Hs, ?Hl; done.
Qed.

Lemma send_to_sends q bytes : sends q (fun b => b = bytes) (send_to env q bytes).
Proof.
  intros w. unfold send_to. destruct (env_send env (w_sends w)); simpl; [|done].
  split; [|done]. by exists bytes.
Qed.

Lemma reply_sends q m : msg_id m = qc_id q -> queries m = queries (qc_request q) ->
  sends q (built q) (reply env q m).
Proof.
  intros Hid Hq w. unfold reply, mbind, st_bind, st_lift.
  destruct (to_bytes m) as [bytes|] eqn:E; simpl; [|done].
  unfold send_to. destruct (env_send env (w_sends w)); simpl; [|done].
  split; [|done]. exists bytes. split; [|done]. by exists m.
Qed.

Lemma respond_once q m r : msg_id m = qc_id q -> queries m = queries (qc_request q) ->
  once q (built q) (respond p env q m r).
Proof.
  intros Hid Hq. unfold respond. apply (once_record q _ _ (fun _ => result_as_str r)).
  by apply reply_sends.
Qed.

Lemma servfail_once q r label :
  once q (built q) (_ ← send_servfail env q; record_query p env q r label).
Proof. apply (once_record q _ _ (fun _ => r)). by apply reply_sends. Qed.

Lemma contact_silent cs : silent (contact cs).
Proof. done. Qed.
Lemma wait_silent t : silent (wait t).
Proof. done. Qed.
Lemma cache_insert_silent q b t : silent (cache_insert p q b t).
Proof. done. Qed.
Lemma note_silent q rs t : silent (note_resolution p q rs t).
Proof.
  unfold note_resolution. destruct (qc_client q), (qa_device_id (qc_attribution q)); try done.
  by destruct (pl_routing_profile p), (omap rr_ip rs).
Qed.
Lemma note_ok q rs t w e : fst (note_resolution p q rs t w) <> Err e.
Proof.
  unfold note_resolution. destruct (qc_client q), (qa_device_id (qc_attribution q)); try done.
  by destruct (pl_routing_profile p), (omap rr_ip rs).
Qed.

Lemma send_negative_sends q nx a : sends q (built q) (send_negative env q nx a).
Proof. unfold send_negative. destruct a; by apply reply_sends. Qed.

Lemma bind_assoc {X Y V} (m : P X) (k : X -> P Y) (h : Y -> P V) w :
  ((m ≫= k) ≫= h) w = (m ≫= fun x => k x ≫= h) w.
Proof. unfold mbind, st_bind. by destruct (m w) as [[x|e] w1]. Qed.

Lemma bind_ext {X Y} (m : P X) (k k' : X -> P Y) w :
  (forall x w, k x w = k' x w) -> (m ≫= k) w = (m ≫= k') w.
Proof. intros H. unfold mbind, st_bind. by destruct (m w) as [[x|e] w1]. Qed.

Lemma once_ext q f (m m' : P unit) : (forall w, m w = m' w) -> once q f m' -> once q f m.
Proof. intros H Hm w. unfold once_in. rewrite H. apply Hm. Qed.

(** A send, silent bookkeeping that cannot fail, and the log row. *)
Lemma once_send_note_log q f {X Y} (m : P X) (k : X -> P Y) (result : Y -> str) label :
  sends q f m -> (forall x, silent (k x)) -> (forall x w e, fst (k x w) <> Err e) ->
  once q f (m ≫= fun x => k x ≫= fun y => record_query p env q (result y) label).
Proof.
  intros Hm Hk Hok w. unfold once_in. rewrite <- bind_assoc.
  apply (once_record q f (m ≫= k) result label). by apply sends_then_silent.
Qed.

Lemma send_resolved_once q r label rs : once q (built q) (send_resolved p env q r label rs).
Proof.
  unfold send_resolved. destruct (_ && _).
  - apply (once_record q _ _ (fun _ => result_as_str QRebindingBlocked)), send_negative_sends.
  - set (k := fun bytes : list Z =>
      (_ ← (if (min_ttl rs <? U32_MAX) && (0 <? min_ttl rs) then cache_insert p q bytes (min_ttl rs) else mret tt);
       note_resolution p q rs (if min_ttl rs =? U32_MAX then 0 else min_ttl rs)) : P unit).
    apply (once_ext q _ _ (reply env q (add_answers rs (response (qc_id q) (qc_request q)))
      ≫= fun b => k b ≫= fun _ => record_query p env q r label)).
    { intros w. apply bind_ext. intros b w1. symmetry. apply bind_assoc. }
    apply (once_send_note_log q (built q) _ k (fun _ => r)).
    + by apply reply_sends.
    + intros b. apply silent_bind; [by destruct (_ && _) | intros _; apply note_silent].
    + intros b w' e. unfold k, mbind, st_bind. destruct (_ && _); apply note_ok.
Qed.

Lemma relay_negative_once q r label nx soa :
  once q (built q) (relay_negative p env q r label nx soa).
Proof.
  unfold relay_negative. destruct (match soa with Some _ => _ | None => _ end) as [a t].
  apply (once_send_note_log q (built q) _ (fun b => if 0 <? t then cache_insert p q b t else mret tt)
    (fun _ => relayed_result true r)).
  - apply send_negative_sends.
  - intros b. by destruct (0 <? t).
  - intros b w e. by destruct (0 <? t).
Qed.

Lemma default_once q r : once q (built q) (forward_via_default_resolver p env q r).
Proof.
  unfold forward_via_default_resolver. destruct (ladder_within _ _) as [[o t] asked].
  apply once_after_silent; [done|]. intros _. apply once_after_silent; [done|]. intros _.
  destruct o; [apply send_resolved_once | apply relay_negative_once | apply servfail_once].
Qed.

Lemma recursor_outcome_once q r o : once q (built q) (handle_recursor_outcome p env q r o).
Proof.
  unfold handle_recursor_outcome.
  set (fb := match upstream_servers (pl_config p) with [] => _ | _ :: _ => _ end).
  assert (Hfb : once q (built q) fb).
  { unfold fb. destruct (upstream_servers _); [apply servfail_once | apply default_once]. }
  destruct o as [[msg|e]|]; [apply send_resolved_once | | done].
  destruct (_ || _); [apply relay_negative_once | done].
Qed.

Lemma recursor_once q r : is_Some (head (queries (qc_request q))) ->
  once q (built q) (resolve_via_recursor p env q r).
Proof.
  intros [query Hq]. unfold resolve_via_recursor. rewrite Hq.
  destruct (pl_recursor p); [|apply recursor_outcome_once].
  destruct (env_recurse env query) as [t o].
  apply once_after_silent; [done|]. intros _. apply once_after_silent; [done|]. intros _.
  apply recursor_outcome_once.
Qed.

Lemma cache_relayed_silent q buf r m : silent (cache_relayed p q buf r m).
Proof.
  unfold cache_relayed. destruct (classify_response m) as [neg t].
  apply silent_bind; [by destruct (0 <? t) | done].
Qed.

Lemma cache_relayed_ok q buf r m w : exists s w', cache_relayed p q buf r m w = (Ok s, w').
Proof.
  unfold cache_relayed. destruct (classify_response m) as [neg t]. unfold mbind, st_bind.
  destruct (0 <? t); simpl; eauto.
Qed.

Lemma tunnel_once fw q f r : allowed fw q (ToTunnel f) ->
  once q (relayed fw q) (forward_via_tunnel p env q f r).
Proof.
  intros Hf.
  unfold forward_via_tunnel. destruct (env_tunnel env f (qc_packet q)) as [|after received] eqn:Et; [done|].
  apply once_after_silent; [done|]. intros _. apply once_after_silent; [done|]. intros _.
  destruct (Z.ltb_spec TUNNEL_RECV_TIMEOUT after); [done|]. destruct received as [bytes|]; [|done].
  apply (once_weaken q (fun b => b = take RECV_BUFFER bytes)).
  { intros b ->. left. exists f, after, bytes. done. }
  set (buf := take RECV_BUFFER bytes).
  apply (once_send_note_log q (fun b => b = buf) _ (fun _ =>
    match from_bytes buf with
    | Some parsed =>
        result ← cache_relayed p q buf r parsed;
        _ ← note_resolution p q (answers parsed) (snd (classify_response parsed));
        mret result
    | None => mret r
    end) (fun s => s)).
  - apply send_to_sends.
  - intros ?. cbv beta. destruct (from_bytes _) as [m|]; [|done].
    apply silent_bind; [apply cache_relayed_silent|]. intros s.
    apply silent_bind; [apply note_silent | done].
  - intros ? w e. cbv beta. destruct (from_bytes _) as [m|]; [|done]. unfold mbind, st_bind.
    destruct (cache_relayed_ok q buf r m w) as (s & w' & ->).
    pose proof (note_ok q (answers m) (snd (classify_response m)) w') as Hn.
    destruct (note_resolution p q _ _ w') as [[[]|e'] w2]; [done | by destruct (Hn e')].
Qed.

Lemma conditional_once fw q up r : conditional_upstream p q = Some up ->
  once q (relayed fw q) (forward_via_conditional p env q up r).
Proof.
  intros Hup. unfold forward_via_conditional. apply once_after_silent.
  { intros w. unfold checkout_socket. destruct (w_sockets w); [by destruct (ci_bind _) | done]. }
  intros _. destruct (negb _); [done|]. apply once_after_silent; [done|]. intros _.
  destruct (recv_loop q true _) as [[[t parsed] buf]|t] eqn:El;
    (apply once_after_silent; [done|]; intros _); [|done].
  apply (once_weaken q (fun b => b = buf)); [intros b ->; right; eauto|].
  set (k := fun _ : unit => (_ ← return_socket_to_pool;
    match parsed with Some m => cache_relayed p q buf r m | None => mret r end) : P str).
  apply (once_ext q _ _
    (send_to env q buf ≫= fun x => k x ≫= fun s => record_query p env q s (Some (LabelIp (sa_ip up))))).
  { intros w. apply bind_ext. intros [] w1. symmetry. apply bind_assoc. }
  apply (once_send_note_log q (fun b => b = buf) _ k (fun s => s)); [apply send_to_sends | |].
  - intros ?. apply silent_bind.
    + intros w. unfold return_socket_to_pool, st_modify. simpl. by case_match.
    + intros _. destruct parsed; [apply cache_relayed_silent | done].
  - intros ? w e. unfold k, mbind, st_bind, return_socket_to_pool, st_modify.
    destruct parsed as [m|]; [|done].
    edestruct (cache_relayed_ok q buf r m) as (s & w' & ->). done.
Qed.

Lemma or_servfail_once fw q label m : once q (relayed fw q) m ->
  once q (fun b => built q b \/ relayed fw q b) (or_servfail p env q label m).
Proof.
  intros Hm w. unfold once_in, or_servfail. specialize (Hm w). unfold once_in in Hm. destruct (m w) as [[[]|e] w1].
  - destruct Hm as [(b & Hb & Hs) Hl]. split; [exists b; auto | done].
  - destruct Hm as [Hs Hl]. pose proof (servfail_once q (result_as_str QUpstreamError) label w1) as H.
    unfold once_in in H. rewrite Hs, Hl in H.
    destruct ((send_servfail env q ≫= fun _ => record_query p env q (result_as_str QUpstreamError) label) w1)
      as [[u|e'] w2]; [|done].
    destruct H as [(b & Hb & Hs') Hl']. split; [exists b; auto | done].
Qed.

Lemma forward_once q r w : is_Some (head (queries (qc_request q))) ->
  once_in q (fun b => built q b \/ relayed (w_forwarders w) q b) (forward p env q r) w.
Proof.
  intros Hq. set (fw := w_forwarders w). unfold forward, once_in.
  destruct (conditional_upstream p q) as [up|] eqn:Ec.
  { by apply (or_servfail_once fw), conditional_once. }
  destruct (qc_upstream q) as [|t] eqn:Eu.
  - apply (once_weaken q (built q)); [auto|].
    case_bool_decide; [by apply recursor_once | apply default_once].
  - destruct (get_or_build_tunnel_forwarder env t w) as [[f|e] w1] eqn:Ef.
    + assert (H : w_sent w1 = w_sent w /\ w_log w1 = w_log w).
      { revert Ef. unfold get_or_build_tunnel_forwarder. repeat (case_match; try done); by intros [= <- <-]. }
      assert (Ha : allowed fw q (ToTunnel f)) by (split; [done|]; exists t; split; [done | by eapply get_forwarder_of]).
      pose proof (or_servfail_once fw q (Some (LabelIp (sa_ip (tf_upstream f)))) _ (tunnel_once fw q f r Ha) w1) as Ho.
      unfold once_in in Ho. by rewrite (proj1 H), (proj2 H) in Ho.
    + assert (H : w1 = w).
      { revert Ef. unfold get_or_build_tunnel_forwarder. repeat (case_match; try done); by intros [= <- <-]. }
      subst. exact (once_weaken q (built q) (fun b => built q b \/ relayed fw q b) _
        (fun b H => or_introl H) (servfail_once q (result_as_str QUpstreamError) None) w).
Qed.

(** What may be sent for a query in a state: a response built for it, a datagram
    relayed for it, or a cache hit. *)
Definition served q w (b : list Z) : Prop :=
  built q b \/ relayed (w_forwarders w) q b
  \/ fst (DnsCache.get (w_now w) (w_cache w) (qc_upstream q) (qc_domain q) (qc_rtype q) (qc_id q)) = Some b.

Lemma once_at q (f : list Z -> Prop) m w w0 : once_in q f m w ->
  w_sent w = w_sent w0 -> w_log w = w_log w0 -> (forall b, f b -> served q w0 b) ->
  match m w with
  | (Ok _, w') =>
      (exists bytes, served q w0 bytes /\ w_sent w' = w_sent w0 ++ [(bytes, qc_src q)])
      /\ (exists result label,
           w_log w' = logged q result label (w_log w0))
  | (Err e, w') => w_sent w' = w_sent w0 /\ w_log w' = w_log w0
  end.
Proof.
  intros Hm Hs Hl Hf. unfold once_in in Hm. rewrite Hs, Hl in Hm. destruct (m w) as [[u|e] w']; [|done].
  destruct Hm as [(b & Hb & Hs') Hl']. split; [exists b; auto | done].
Qed.

Lemma rewrite_message_ok q ip m : rewrite_message q ip = Some m ->
  msg_id m = qc_id q /\ queries m = queries (qc_request q).
Proof.
  unfold rewrite_message. destruct (name_from_str_relaxed _); [|done]. by intros [= <-].
Qed.

Lemma refused_once q r : once q (built q) (_ ← send_refused env q; record_query p env q r None).
Proof. apply (once_record q _ _ (fun _ => r)). by apply reply_sends. Qed.

(** After a miss: filter, rate limit, forward. *)
Lemma miss_once q w : is_Some (head (queries (qc_request q))) ->
  once_in q (fun b => built q b \/ relayed (w_forwarders w) q b) (filtered p env q) w.
Proof.
  intros Hq. unfold filtered. destruct (co_action (filter_outcome p q)) as [| |ip].
  - unfold once_in, mbind, st_bind.
    assert (Hg : exists ok w1, rate_gate q w = (Ok ok, w1) /\ w_sent w1 = w_sent w /\ w_log w1 = w_log w
      /\ w_forwarders w1 = w_forwarders w).
    { unfold rate_gate. destruct (qc_client q); [|by exists true, w].
      destruct (bucket_check _ _ _) as [ok b]. by eexists ok, _. }
    destruct Hg as (ok & w1 & -> & <- & <- & <-). destruct ok; [exact (forward_once q _ w1 Hq)|].
    exact (once_weaken q (built q) (fun b => built q b \/ relayed (w_forwarders w1) q b) _
      (fun b H => or_introl H) (refused_once q _) w1).
  - apply (once_weaken q (built q)); [auto|]. by apply respond_once.
  - apply (once_weaken q (built q)); [auto|]. destruct (rewrite_message q ip) as [m|] eqn:E; [|done].
    pose proof (rewrite_message_ok q ip m E) as [H1 H2]. apply (respond_once q m QRewritten H1 H2).
Qed.

Lemma resolve_once q w : is_Some (head (queries (qc_request q))) ->
  match resolve p env q w with
  | (Ok _, w') =>
      (exists bytes, served q w bytes /\ w_sent w' = w_sent w ++ [(bytes, qc_src q)])
      /\ (exists result label,
           w_log w' = logged q result label (w_log w))
  | (Err e, w') => w_sent w' = w_sent w /\ w_log w' = w_log w
  end.
Proof.
  intros Hq. unfold resolve. unfold mbind at 1. unfold st_bind at 1. unfold cache_get at 1.
  destruct (DnsCache.get _ _ _ _ _ _) as [[bytes|] c] eqn:Eg.
  - apply (once_at q (fun b => b = bytes)); [|done | done |].
    + apply (once_record q _ _ (fun _ => result_as_str QCacheHit)), send_to_sends.
    + intros b ->. right. right. by rewrite Eg.
  - apply (once_at q (fun b => built q b \/ relayed (w_forwarders w) q b));
      [exact (miss_once q (set_cache c w) Hq) | done | done |].
    intros b [?|?]; [by left | by right; left].
Qed.

(** The two ways a query that is not answered here goes on. *)
Lemma handle_hit q w b c : local_answer p q = None ->
  DnsCache.get (w_now w) (w_cache w) (qc_upstream q) (qc_domain q) (qc_rtype q) (qc_id q) = (Some b, c) ->
  handle_query p env q w =
  (_ ← send_to env q b; record_query p env q (result_as_str QCacheHit) None) (set_cache c w).
Proof.
  intros Hl Hg. unfold handle_query, resolve. rewrite Hl. unfold mbind at 1. unfold st_bind at 1.
  unfold cache_get. by rewrite Hg.
Qed.

Lemma handle_miss q w c : local_answer p q = None ->
  DnsCache.get (w_now w) (w_cache w) (qc_upstream q) (qc_domain q) (qc_rtype q) (qc_id q) = (None, c) ->
  handle_query p env q w = filtered p env q (set_cache c w).
Proof.
  intros Hl Hg. unfold handle_query, resolve. rewrite Hl. unfold mbind, st_bind.
  unfold cache_get. by rewrite Hg.
Qed.

Lemma get_entries now c u d t id : entries (snd (DnsCache.get now c u d t id)) = entries c.
Proof. unfold DnsCache.get. destruct (_ !! _); [case_match|]; done. Qed.

(** ** Local answers *)

Lemma reverse_answer_ok q m r : reverse_answer p q = Some (Some (m, r)) ->
  msg_id m = qc_id q /\ queries m = queries (qc_request q) /\ authoritative m = true.
Proof.
  unfold reverse_answer. case_bool_decide as Ht; [|done].
  destruct (parse_ptr_ipv4 _) as [ip|]; simpl; [|done].
  destruct (private_reverse_zone ip) as [z|]; simpl; [|done].
  destruct (is_some _); [done|]. intros [= H]. revert H.
  destruct (name_from_str_relaxed _) as [name|]; simpl; [|done].
  destruct (omap _ _); [|by intros [= <- <-]].
  destruct (build_soa z 1), (default [] _); by intros [= <- <-].
Qed.

Lemma authoritative_answer_ok q m r : authoritative_answer p q = Some (Some (m, r)) ->
  msg_id m = qc_id q /\ queries m = queries (qc_request q) /\ authoritative m = true.
Proof.
  unfold authoritative_answer. destruct (search_domain_hop _ _ _) as [recs|]; simpl; [|done].
  intros [= H]. revert H. destruct (name_from_str_relaxed _) as [name|]; simpl; [|done].
  destruct recs as [|rec recs].
  - destruct (authoritative_zone _ _ ≫= _); by intros [= <- <-].
  - destruct (rtype_from_hickory _) as [[]|]; try (by intros [= <- <-]);
      (destruct (omap _ _); [destruct (cname_answer _ _ _)|]; by intros [= <- <-]).
Qed.

Lemma zone_negative_ok q m r : zone_negative p q = Some (m, r) ->
  msg_id m = qc_id q /\ queries m = queries (qc_request q) /\ authoritative m = true
  /\ answers m = [].
Proof.
  unfold zone_negative. destruct (conditional_upstream p q); [done|].
  destruct (authoritative_zone _ _) as [z|]; simpl; [|done].
  destruct (is_some _ || _), (za_soa z); by intros [= <- <-].
Qed.

Lemma local_answer_ok q m r : local_answer p q = Some (Some (m, r)) ->
  msg_id m = qc_id q /\ queries m = queries (qc_request q) /\ authoritative m = true.
Proof.
  unfold local_answer. destruct (reverse_answer p q) eqn:E1.
  { intros [= ->]. by eapply reverse_answer_ok. }
  destruct (authoritative_answer p q) eqn:E2.
  { intros [= ->]. by eapply authoritative_answer_ok. }
  destruct (zone_negative p q) as [[m' r']|] eqn:E3; [|done]. intros [= -> ->].
  apply zone_negative_ok in E3. tauto.
Qed.

Lemma handle_query_once q w : is_Some (head (queries (qc_request q))) ->
  match handle_query p env q w with
  | (Ok _, w') =>
      (exists bytes, served q w bytes /\ w_sent w' = w_sent w ++ [(bytes, qc_src q)])
      /\ (exists result label,
           w_log w' = logged q result label (w_log w))
  | (Err e, w') => w_sent w' = w_sent w /\ w_log w' = w_log w
  end.
Proof.
  intros Hq. unfold handle_query. destruct (local_answer p q) as [[[m r]|]|] eqn:El;
    [|done | by apply resolve_once].
  apply local_answer_ok in El as (H1 & H2 & _).
  apply (once_at q (built q) (respond p env q m r)); [by apply respond_once | done | done |].
  intros b Hb. by left.
Qed.

(** Upstream failures never surface: what can fail is rendering the question's
    name, encoding the response, or the client's socket. *)
Definition own_error (e : PipelineError) : Prop := e = EName \/ e = EEncode \/ e = ESend.

Definition own_errors {X} (m : P X) : Prop := forall w e w', m w = (Err e, w') -> own_error e.

Lemma own_errors_bind {X Y} (m : P X) (k : X -> P Y) :
  own_errors m -> (forall x, own_errors (k x)) -> own_errors (m ≫= k).
Proof.
  intros Hm Hk w e w'. unfold mbind, st_bind. destruct (m w) as [[x|e1] w1] eqn:E1; [apply Hk|].
  intros [= <- <-]. by eapply Hm.
Qed.

Lemma own_modify (f : World -> World) : own_errors (st_modify f).
Proof. by intros w e w'. Qed.
Lemma own_ret {X} (x : X) : own_errors (mret x).
Proof. by intros w e w'. Qed.
Lemma own_send q b : own_errors (send_to env q b).
Proof. intros w e w'. unfold send_to. destruct (env_send _ _); [done|]. intros [= <- <-]. by right; right. Qed.
Lemma own_lift {X} (o : option X) e : own_error e -> own_errors (st_lift (ok_or o e)).
Proof. intros He w e' w'. destruct o; [done|]. by intros [= <- <-]. Qed.

(** Runs through a computation, primitive by primitive. *)
Ltac own_steps :=
  repeat first
    [ apply own_errors_bind; [|intros ?]
    | apply own_modify | apply own_ret | apply own_send | (apply own_lift; solve [unfold own_error; auto])
    | progress cbv beta
    | match goal with
      | |- own_errors (match ?x with _ => _ end) => destruct x
      | |- own_errors (let '(_, _) := ?x in _) => destruct x
      end ].

Lemma own_record q r l : own_errors (record_query p env q r l).
Proof. unfold record_query. own_steps. Qed.
Lemma own_reply q m : own_errors (reply env q m).
Proof. unfold reply. own_steps. Qed.
Lemma own_note q rs t : own_errors (note_resolution p q rs t).
Proof. unfold note_resolution. own_steps. Qed.

Lemma own_resolved q r l rs : own_errors (send_resolved p env q r l rs).
Proof.
  unfold send_resolved, send_negative, cache_insert. own_steps; auto using own_record, own_reply, own_note.
Qed.

Lemma own_negative q r l nx soa : own_errors (relay_negative p env q r l nx soa).
Proof.
  unfold relay_negative, send_negative, cache_insert. own_steps; auto using own_record, own_reply.
Qed.

Lemma own_default q r : own_errors (forward_via_default_resolver p env q r).
Proof.
  unfold forward_via_default_resolver, contact, wait, send_servfail.
  own_steps; auto using own_record, own_reply, own_resolved, own_negative.
Qed.

Lemma own_recursor q r : own_errors (resolve_via_recursor p env q r).
Proof.
  unfold resolve_via_recursor, handle_recursor_outcome, contact, wait, send_servfail.
  own_steps; auto using own_record, own_reply, own_resolved, own_negative, own_default.
Qed.

Lemma own_servfail q r l : own_errors (_ ← send_servfail env q; record_query p env q r l).
Proof. unfold send_servfail. own_steps; auto using own_record, own_reply. Qed.

Lemma own_or_servfail q l m : own_errors (or_servfail p env q l m).
Proof. intros w e w'. unfold or_servfail. destruct (m w) as [[[]|e1] w1]; [done | apply own_servfail]. Qed.

Lemma own_forward q r : own_errors (forward p env q r).
Proof.
  unfold forward. destruct (conditional_upstream p q); [apply own_or_servfail|].
  destruct (qc_upstream q); [case_bool_decide; [apply own_recursor | apply own_default]|].
  intros w e w'. destruct (get_or_build_tunnel_forwarder _ _ _) as [[f|e1] w1];
    [apply own_or_servfail | apply own_servfail].
Qed.

Lemma own_query q : own_errors (handle_query p env q).
Proof.
  unfold handle_query, resolve, filtered, respond, send_refused.
  own_steps; auto using own_record, own_reply, own_forward; intros w e w'.
  - unfold cache_get. by destruct (DnsCache.get _ _ _ _ _ _).
  - unfold rate_gate. destruct (qc_client q); [|done]. by destruct (bucket_check _ _ _).
Qed.

(** ** Whom a query reaches and what it caches *)

(** The key of the query's cache entry. *)
Definition query_key q : UpstreamId * str * RecordType :=
  (qc_upstream q, canonical_domain (qc_domain q), qc_rtype q).

Section effects.
Context (S : Contact -> Prop) (K : list Z -> Prop) (q : QueryCtx).

(** Only contacts in [S]; only the query's own entry written, with bytes in [K];
    only bytes in [K] sent. *)
Record eff (w w' : World) : Prop := {
  ef_contacts : exists cs, w_contacts w' = w_contacts w ++ cs /\ Forall S cs;
  ef_cache : forall key e, entries (w_cache w') !! key = Some e ->
    entries (w_cache w) !! key = Some e \/ (key = query_key q /\ K (wire e));
  ef_sent : exists ds, w_sent w' = w_sent w ++ ds /\ Forall (fun d => K (fst d)) ds;
}.

Lemma eff_same w w' : w_contacts w' = w_contacts w -> w_cache w' = w_cache w ->
  w_sent w' = w_sent w -> eff w w'.
Proof.
  intros H1 H2 H3. split.
  - exists []. by rewrite H1, app_nil_r.
  - rewrite H2. auto.
  - exists []. by rewrite H3, app_nil_r.
Qed.

Lemma eff_trans w1 w2 w3 : eff w1 w2 -> eff w2 w3 -> eff w1 w3.
Proof.
  intros [(c1 & Hc1 & Hs1) Hk1 (d1 & Hd1 & Hf1)] [(c2 & Hc2 & Hs2) Hk2 (d2 & Hd2 & Hf2)]. split.
  - exists (c1 ++ c2). rewrite Hc2, Hc1, app_assoc. split; [done | by apply Forall_app].
  - intros key e [H|H]%Hk2; auto.
  - exists (d1 ++ d2). rewrite Hd2, Hd1, app_assoc. split; [done | by apply Forall_app].
Qed.

Definition effect {X} (m : P X) : Prop := forall w, eff w (snd (m w)).

Lemma effect_bind {X Y} (m : P X) (k : X -> P Y) :
  effect m -> (forall x, (exists w w', m w = (Ok x, w')) -> effect (k x)) -> effect (m ≫= k).
Proof.
  intros Hm Hk w. specialize (Hm w). unfold mbind, st_bind. destruct (m w) as [[x|e] w1] eqn:E; [|done].
  eapply eff_trans; [exact Hm|]. simpl. apply Hk. eauto.
Qed.

Lemma effect_ret {X} (x : X) : effect (mret x).
Proof. intros w. by apply eff_same. Qed.

Lemma effect_fail {X} e : effect (X := X) (st_fail e).
Proof. intros w. by apply eff_same. Qed.

Lemma effect_lift {X} (r : result X PipelineError) : effect (st_lift r).
Proof. intros w. by apply eff_same. Qed.

Lemma effect_wait t : effect (wait t).
Proof. intros w. by apply eff_same. Qed.

Lemma effect_contact cs : Forall S cs -> effect (contact cs).
Proof.
  intros Hs w. split; [by exists cs | auto |]. exists []. by rewrite app_nil_r.
Qed.

Lemma effect_send b : K b -> effect (send_to env q b).
Proof.
  intros Hb w. unfold send_to. destruct (env_send env (w_sends w)); simpl.
  - split; [exists []; by rewrite app_nil_r | auto |]. exists [(b, qc_src q)].
    split; [done | by apply Forall_singleton].
  - split; [exists []; by rewrite app_nil_r | auto |]. exists []. by rewrite app_nil_r.
Qed.

Lemma effect_record r l : effect (record_query p env q r l).
Proof. intros w. rewrite record_query_spec. by destruct (pl_log_sink p); apply eff_same. Qed.

Lemma effect_note rs t : effect (note_resolution p q rs t).
Proof.
  unfold note_resolution. destruct (qc_client q), (qa_device_id (qc_attribution q)); try apply effect_ret.
  destruct (pl_routing_profile p), (omap rr_ip rs); try apply effect_ret. intros w. by apply eff_same.
Qed.

Lemma insert_gains now c u d t b ttl lo hi key e :
  entries (DnsCache.insert now c u d t b ttl lo hi) !! key = Some e ->
  entries c !! key = Some e \/ (key = (u, canonical_domain d, t) /\ wire e = b).
Proof.
  unfold DnsCache.insert. destruct (clamp_ttl ttl lo hi =? 0); [by left|].
  set (c1 := if _ && _ then _ else _).
  assert (Hsub : entries c1 ⊆ entries c).
  { unfold c1. destruct (_ && _); [apply make_room_sub | done]. }
  assert (Hc : forall c', entries (compact_insertion_order c') = entries c').
  { intros c'. unfold compact_insertion_order. by case_match. }
  rewrite Hc. simpl. destruct (decide (key = (u, canonical_domain d, t))) as [->|Hne].
  - rewrite lookup_insert_eq. intros [= <-]. by right.
  - rewrite lookup_insert_ne by done. intros H. left. by eapply lookup_weaken.
Qed.

Lemma effect_cache_insert b t : K b -> effect (cache_insert p q b t).
Proof.
  intros Hb w. split; simpl; [exists []; by rewrite app_nil_r | | exists []; by rewrite app_nil_r].
  intros key e [H|[-> ->]]%insert_gains; [by left | by right].
Qed.

Lemma effect_cache_get : effect (cache_get q).
Proof.
  intros w. unfold cache_get. destruct (DnsCache.get _ _ _ _ _ _) as [hit c] eqn:E. simpl.
  split; simpl; [exists []; by rewrite app_nil_r | | exists []; by rewrite app_nil_r].
  revert E. unfold DnsCache.get. destruct (_ !! _); [case_match|]; intros [= <- <-]; auto.
Qed.

Lemma effect_rate : effect (rate_gate q).
Proof.
  intros w. unfold rate_gate. destruct (qc_client q); [|by apply eff_same].
  destruct (bucket_check _ _ _). by apply eff_same.
Qed.

(** Runs through a computation, primitive by primitive. *)
Ltac eff_steps :=
  repeat first
    [ apply effect_bind; [|intros ? ?]
    | apply effect_ret | apply effect_fail | apply effect_lift | apply effect_wait
    | apply effect_record | apply effect_note | apply effect_rate
    | progress cbv beta
    | match goal with
      | |- effect (match ?x with _ => _ end) => destruct x
      | |- effect (let '(_, _) := ?x in _) => destruct x
      end ].

(** *** Messages built here *)

(** What the pipeline may send in answer to an upstream's records. *)
Definition shielded (m : Message) : Prop :=
  rebinding_protection (pl_config p) = true -> existsb private_answer (answers m) = false.

Context (HK : forall m b, to_bytes m = Some b -> shielded m -> K b).

Lemma reply_bytes m b : (exists w w', reply env q m w = (Ok b, w')) -> to_bytes m = Some b.
Proof.
  intros (w & w' & H). revert H. unfold reply, mbind, st_bind, st_lift.
  destruct (to_bytes m) as [b'|]; simpl; [|done]. unfold send_to.
  destruct (env_send _ _); simpl; [|done]. by intros [= <- _].
Qed.

Lemma effect_reply m : shielded m -> effect (reply env q m).
Proof.
  intros Hm. unfold reply. apply effect_bind; [apply effect_lift|]. intros b (w & w' & Hb).
  unfold st_lift in Hb. destruct (to_bytes m) as [b'|] eqn:E; [|done]. injection Hb as -> _.
  apply effect_bind; [apply effect_send; eauto|]. intros _ _. apply effect_ret.
Qed.

Lemma effect_respond m r : shielded m -> effect (respond p env q m r).
Proof.
  intros Hm. unfold respond. apply effect_bind; [by apply effect_reply | intros ? _; apply effect_record].
Qed.

Lemma effect_negative_reply nx a : effect (send_negative env q nx a).
Proof. unfold send_negative. destruct a; by apply effect_reply. Qed.

Lemma effect_servfail r l : effect (_ ← send_servfail env q; record_query p env q r l).
Proof. apply effect_bind; [by apply effect_reply | intros ? _; apply effect_record]. Qed.

Lemma effect_resolved r l rs : effect (send_resolved p env q r l rs).
Proof.
  unfold send_resolved. destruct (rebinding_protection (pl_config p) && existsb private_answer rs) eqn:E.
  { apply effect_bind; [apply effect_negative_reply | intros ? _; apply effect_record]. }
  assert (Hm : shielded (add_answers rs (response (qc_id q) (qc_request q)))).
  { intros Hr. rewrite Hr in E. exact E. }
  apply effect_bind; [by apply effect_reply|]. intros b Hb%reply_bytes.
  eff_steps. apply effect_cache_insert. eauto.
Qed.

Lemma effect_negative r l nx soa : effect (relay_negative p env q r l nx soa).
Proof.
  unfold relay_negative. destruct (match soa with Some _ => _ | None => _ end) as [a t].
  apply effect_bind; [apply effect_negative_reply|]. intros b Hb.
  eff_steps. apply effect_cache_insert.
  unfold send_negative in Hb. destruct a; apply reply_bytes in Hb; by eapply HK.
Qed.

(** *** Forwarders *)

Lemma timeline_addresses {R SOA} (ask : UpstreamEntry -> option (Z * result (list R) (NetError SOA))) per es :
  forall t, snd <$> timeline ask per t es = address <$> es.
Proof. induction es as [|e es IH]; intros t; [done|]. simpl. by rewrite IH. Qed.

Lemma asked_serving ask per deadline serving (o : LadderOutcome DnsRR SoaRecord) t asked a :
  ladder_within deadline (walk_ladder ask per 0 serving) = (o, t, asked) ->
  a ∈ asked -> snd a ∈ address <$> serving.
Proof.
  destruct (walk_ladder ask per 0 serving) as [[o1 t1] asked1] eqn:Ew.
  apply walk_ladder_spec in Ew as (pre & post & -> & -> & -> & _).
  assert (Hin : forall a, a ∈ timeline ask per 0 pre -> snd a ∈ address <$> pre ++ post).
  { intros a' Ha'. rewrite fmap_app. apply elem_of_app. left.
    rewrite <- (timeline_addresses ask per pre 0). by apply list_elem_of_fmap_2. }
  unfold ladder_within. destruct (_ <=? _); intros [= <- <- <-]; [apply Hin|].
  intros [_ Ha]%list_elem_of_filter. by apply Hin.
Qed.

Context (HS_server : forall e, e ∈ pool_serving (pl_pool p) -> S (ToServer (address e))).

Lemma effect_default r : effect (forward_via_default_resolver p env q r).
Proof.
  unfold forward_via_default_resolver. destruct (ladder_within _ _) as [[o t] asked] eqn:E.
  apply effect_bind; [apply effect_contact|].
  - apply Forall_fmap, Forall_forall. intros a Ha. apply (asked_serving _ _ _ _ _ _ _ _ E) in Ha.
    apply list_elem_of_fmap in Ha as (e & Heq & He). unfold compose. rewrite Heq. by apply HS_server.
  - intros _ _. apply effect_bind; [apply effect_wait|]. intros _ _.
    destruct o; [apply effect_resolved | apply effect_negative | apply effect_servfail].
Qed.

Lemma effect_recursor r : S ToRoots -> effect (resolve_via_recursor p env q r).
Proof.
  intros HS. unfold resolve_via_recursor.
  assert (Ho : forall o, effect (handle_recursor_outcome p env q r o)).
  { intros o. unfold handle_recursor_outcome.
    set (fb := match upstream_servers (pl_config p) with [] => _ | _ :: _ => _ end).
    assert (Hfb : effect fb).
    { unfold fb. destruct (upstream_servers _); [apply effect_servfail | apply effect_default]. }
    destruct o as [[msg|e]|]; [apply effect_resolved | | done].
    destruct (_ || _); [apply effect_negative | done]. }
  destruct (head _) as [query|].
  - destruct (pl_recursor p); [|apply Ho]. destruct (env_recurse env query) as [t o].
    apply effect_bind; [by apply effect_contact, Forall_singleton|]. intros _ _.
    apply effect_bind; [apply effect_wait|]. intros _ _. apply Ho.
  - apply effect_bind; [by apply effect_reply|]. intros _ _. apply effect_ret.
Qed.

End effects.

(** *** Raw relays: any bytes may come back *)

Section relays.
Context (S : Contact -> Prop) (q : QueryCtx).
Abbreviation any := (fun _ : list Z => True).

Lemma effect_respond_any m r : effect S any q (respond p env q m r).
Proof.
  unfold respond. apply effect_bind; [|intros ? _; apply effect_record].
  unfold reply. apply effect_bind; [apply effect_lift|]. intros b _.
  apply effect_bind; [by apply effect_send|]. intros _ _. apply effect_ret.
Qed.

Lemma effect_cache_relayed buf r m : effect S any q (cache_relayed p q buf r m).
Proof.
  unfold cache_relayed. destruct (classify_response m) as [neg t].
  apply effect_bind; [destruct (0 <? t); [by apply effect_cache_insert | apply effect_ret]|].
  intros _ _. apply effect_ret.
Qed.

Lemma effect_tunnel f r : S (ToTunnel f) -> effect S any q (forward_via_tunnel p env q f r).
Proof.
  intros HS. unfold forward_via_tunnel. destruct (env_tunnel env f (qc_packet q)) as [|after received];
    [apply effect_fail|].
  apply effect_bind; [by apply effect_contact, Forall_singleton|]. intros _ _.
  apply effect_bind; [apply effect_wait|]. intros _ _.
  destruct (if TUNNEL_RECV_TIMEOUT <? after then None else received) as [bytes|]; [|apply effect_fail].
  apply effect_bind; [by apply effect_send|]. intros _ _. cbv zeta.
  apply effect_bind; [|intros ? _; apply effect_record].
  destruct (from_bytes _) as [m|]; [|apply effect_ret].
  apply effect_bind; [apply effect_cache_relayed|]. intros s _.
  apply effect_bind; [apply effect_note|]. intros _ _. apply effect_ret.
Qed.

Lemma effect_conditional up r : S (ToConditional up) ->
  effect S any q (forward_via_conditional p env q up r).
Proof.
  intros HS. unfold forward_via_conditional. apply effect_bind.
  { intros w. unfold checkout_socket. destruct (w_sockets w); [destruct (ci_bind _)|]; by apply eff_same. }
  intros _ _. destruct (negb _); [apply effect_fail|].
  apply effect_bind; [by apply effect_contact, Forall_singleton|]. intros _ _.
  destruct (recv_loop q true _) as [[[t parsed] buf]|t].
  - apply effect_bind; [apply effect_wait|]. intros _ _.
    apply effect_bind; [by apply effect_send|]. intros _ _.
    apply effect_bind.
    { intros w. unfold return_socket_to_pool, st_modify. simpl. case_match; by apply eff_same. }
    intros _ _. apply effect_bind; [|intros ? _; apply effect_record].
    destruct parsed; [apply effect_cache_relayed | apply effect_ret].
  - apply effect_bind; [apply effect_wait|]. intros _ _. apply effect_fail.
Qed.

Lemma effect_or_servfail l m : effect S any q m -> effect S any q (or_servfail p env q l m).
Proof.
  intros Hm w. unfold or_servfail. specialize (Hm w). destruct (m w) as [[[]|e] w1]; [done|].
  eapply eff_trans; [exact Hm|]. simpl. by apply effect_servfail.
Qed.

End relays.

(** *** The whole query *)

Lemma forward_allowed q r w : eff (allowed (w_forwarders w) q) (fun _ => True) q w
  (snd (forward p env q r w)).
Proof.
  unfold forward. destruct (conditional_upstream p q) as [up|] eqn:Ec.
  { apply effect_or_servfail, effect_conditional. exact Ec. }
  destruct (qc_upstream q) as [|t] eqn:Eu.
  - case_bool_decide as Hm.
    + apply effect_recursor; [done | |by split_and!]. intros e He. simpl.
      split_and!; [done | done | by apply list_elem_of_fmap_2].
    + apply effect_default; [done|]. intros e He. simpl.
      split_and!; [done | done | by apply list_elem_of_fmap_2].
  - destruct (get_or_build_tunnel_forwarder env t w) as [[f|e] w1] eqn:Ef.
    + assert (Hw : eff (allowed (w_forwarders w) q) (fun _ => True) q w w1).
      { revert Ef. unfold get_or_build_tunnel_forwarder.
        repeat (case_match; try done); intros [= <- <-]; by apply eff_same. }
      eapply eff_trans; [exact Hw|]. apply effect_or_servfail, effect_tunnel. simpl.
      split; [done|]. exists t. split; [done|]. by eapply get_forwarder_of.
    + assert (w1 = w) as ->.
      { revert Ef. unfold get_or_build_tunnel_forwarder. repeat (case_match; try done); by intros [= <- <-]. }
      by apply effect_servfail.
Qed.

Lemma eff_forwarders_after q w : w_forwarders (snd (cache_get q w)) = w_forwarders w
  /\ forall w1, w_forwarders (snd (rate_gate q w1)) = w_forwarders w1.
Proof.
  split.
  - unfold cache_get. by destruct (DnsCache.get _ _ _ _ _ _).
  - intros w1. unfold rate_gate. destruct (qc_client q); [|done]. by destruct (bucket_check _ _ _).
Qed.

Lemma handle_query_allowed q w :
  eff (allowed (w_forwarders w) q) (fun _ => True) q w (snd (handle_query p env q w)).
Proof.
  set (S := allowed (w_forwarders w) q). unfold handle_query. destruct (local_answer p q) as [r|].
  { apply (effect_bind S (fun _ => True) q); [apply effect_lift|]. intros m _. apply effect_respond_any. }
  unfold resolve. unfold mbind at 1. unfold st_bind at 1.
  pose proof (effect_cache_get S (fun _ => True) q w) as Hg.
  pose proof (proj1 (eff_forwarders_after q w)) as Hf.
  destruct (cache_get q w) as [[cached|e] w1] eqn:Eg; [|done]. simpl in Hg, Hf.
  eapply eff_trans; [exact Hg|]. destruct cached as [bytes|].
  { apply (effect_bind S (fun _ => True) q); [by apply effect_send | intros ? _; apply effect_record]. }
  unfold filtered. destruct (co_action _) as [| |ip].
  - unfold mbind at 1. unfold st_bind at 1.
    pose proof (effect_rate S (fun _ => True) q w1) as Hr.
    pose proof (proj2 (eff_forwarders_after q w1) w1) as Hf1.
    destruct (rate_gate q w1) as [[ok|e] w2]; [|done]. simpl in Hr, Hf1.
    eapply eff_trans; [exact Hr|]. destruct ok; simpl.
    + assert (HS : S = allowed (w_forwarders w2) q) by (unfold S; by rewrite Hf1, Hf).
      rewrite HS. apply forward_allowed.
    + apply (effect_bind S (fun _ => True) q); [by apply effect_reply | intros ? _; apply effect_record].
  - apply effect_respond_any.
  - apply (effect_bind S (fun _ => True) q); [apply effect_lift|]. intros m _. apply effect_respond_any.
Qed.


(** *** Names that are answered here *)

(** A private reverse name, or a name inside an enabled zone. *)
Definition owned (zones : list DnsZone) q : Prop :=
  ((qc_rtype q = RT_PTR \/ qc_rtype q = RT_ANY)
   /\ exists ip, parse_ptr_ipv4 (domain_lower q) = Some ip /\ is_Some (private_reverse_zone ip))
  \/ (exists z, z ∈ zones /\ zone_enabled z = true /\ at_or_below (canonical_zone z) (domain_lower q)).

Definition uncovered (rules : list ConditionalForwardingRule) q : Prop :=
  forall r, r ∈ rules -> rule_enabled r = true ->
    ~ at_or_below (to_ascii_lowercase (rule_domain r)) (domain_lower q).

(** A name with active records of its own, asked for a type records can have. *)
Definition recorded (zones : list DnsZone) (records : list CustomDnsRecord) q : Prop :=
  exact (domain_lower q) (active zones records) <> []
  /\ (qc_rtype q = RT_ANY \/ is_Some (rtype_from_hickory (qc_rtype q))).

Lemma uncovered_no_rule zones records rules q : pl_view p = build_view zones records rules ->
  uncovered rules q -> match_forwarding_rule (pl_view p) (domain_lower q) = None.
Proof.
  intros -> Hu. unfold match_forwarding_rule. destruct (List.find _ _) as [r|] eqn:E; [|done].
  apply find_sort_desc in E as (Hin & Hc & _). apply list_elem_of_fmap in Hin as (r' & -> & Hr').
  apply list_elem_of_filter in Hr' as [He Hr']. apply suffix_covers_spec in Hc.
  by destruct (Hu r' Hr' He).
Qed.

Lemma recorded_lookup zones records rules q : pl_view p = build_view zones records rules ->
  recorded zones records q -> is_Some (view_lookup p (qc_rtype q) (domain_lower q)).
Proof.
  intros Hv [Hne Ht]. unfold view_lookup. rewrite Hv. case_bool_decide as Ha.
  - destruct (exact_lookups zones records rules (domain_lower q) A Hne) as (_ & -> & _). eauto.
  - destruct Ht as [?|[t ->]]; [done|].
    destruct (exact_lookups zones records rules (domain_lower q) t Hne) as (-> & _). eauto.
Qed.

Lemma lookup_local q : is_Some (view_lookup p (qc_rtype q) (domain_lower q)) -> is_Some (local_answer p q).
Proof.
  intros [rs Hl]. unfold local_answer. destruct (reverse_answer p q); [eauto|].
  unfold authoritative_answer, search_domain_hop. rewrite Hl.
  destruct (_ && _ && _); simpl; [|eauto].
  destruct (view_lookup p _ (_ ++ _)) as [[|r recs]|]; simpl; [eauto | | eauto].
  destruct (is_system r && _); simpl; eauto.
Qed.

Lemma owned_local zones records rules q : pl_view p = build_view zones records rules ->
  uncovered rules q -> owned zones q -> is_Some (local_answer p q).
Proof.
  intros Hv Hu Ho. pose proof (uncovered_no_rule _ _ _ q Hv Hu) as Hr. unfold local_answer.
  destruct Ho as [(Ht & ip & Hip & z & Hz)|(z & Hz & He & Hb)].
  - assert (Hrev : is_Some (reverse_answer p q)).
    { unfold reverse_answer. rewrite bool_decide_eq_true_2 by done. rewrite Hip. simpl.
      rewrite Hz. simpl. rewrite Hr. simpl. eauto. }
    destruct Hrev as [r ->]. eauto.
  - destruct (reverse_answer p q); [eauto|]. destruct (authoritative_answer p q); [eauto|].
    unfold zone_negative, conditional_upstream. rewrite Hr. simpl.
    destruct (authoritative_zone (pl_view p) (domain_lower q)) as [za|] eqn:Ez; [simpl; eauto|].
    exfalso. rewrite Hv in Ez. unfold authoritative_zone in Ez. simpl in Ez.
    pose proof (find_sort_desc_None _ _ _ Ez) as Hnone.
    specialize (Hnone (authority_of z)). rewrite list_elem_of_fmap in Hnone.
    assert (Hc : suffix_covers (za_name (authority_of z)) (domain_lower q) = true)
      by (by apply suffix_covers_spec).
    rewrite Hnone in Hc; [done|]. exists z. split; [done|]. by apply list_elem_of_filter.
Qed.

(** C18: what is answered here never leaves.  A PTR or ANY query for the reverse
    name of a private address, or any query for a name in an enabled zone, when no
    forwarding rule covers the name; and a query for a name with active records of
    its own, of type ANY or a type records can have: each reaches no upstream,
    reads and writes no cache entry and pins no route, and what is sent is an
    authoritative response to the question.  (Other types are not covered: a TXT
    query for a private reverse name outside every zone is forwarded.) *)
Theorem local_names_stay_local zones records rules packet src client protocol w request question :
  from_bytes packet = Some request -> head (queries request) = Some question ->
  pl_view p = build_view zones records rules ->
  let q := query_ctx p packet request question src client protocol in
  (uncovered rules q /\ owned zones q) \/ recorded zones records q ->
  let w' := snd (handle p env packet src client protocol w) in
  w_contacts w' = w_contacts w /\ w_cache w' = w_cache w
  /\ w_notes w' = w_notes w
  /\ (w_sent w' = w_sent w \/ exists m bytes, w_sent w' = w_sent w ++ [(bytes, src)]
       /\ to_bytes m = Some bytes /\ authoritative m = true /\ msg_id m = msg_id request
       /\ queries m = queries request).
Proof.
  intros Hb Hq Hv q Ho. unfold handle. rewrite Hb, Hq. fold q.
  assert (Hl : is_Some (local_answer p q)).
  { destruct Ho as [[Hu Ho]|Hr]; [by eapply owned_local | by eapply lookup_local, recorded_lookup]. }
  destruct Hl as [r Hl]. unfold handle_query. rewrite Hl. destruct r as [[m res]|]; [|simpl; split_and!; auto].
  apply local_answer_ok in Hl as (Hid & Hqs & Haa).
  change (let w' := snd (respond p env q m res w) in
    w_contacts w' = w_contacts w /\ w_cache w' = w_cache w
    /\ w_notes w' = w_notes w
    /\ (w_sent w' = w_sent w \/ exists m bytes, w_sent w' = w_sent w ++ [(bytes, src)]
       /\ to_bytes m = Some bytes /\ authoritative m = true /\ msg_id m = msg_id request
       /\ queries m = queries request)).
  unfold respond, reply, mbind, st_bind, st_lift. destruct (to_bytes m) as [b|] eqn:Em; simpl; [|split_and!; auto].
  unfold send_to. destruct (env_send env (w_sends w)); simpl; [|split_and!; auto].
  rewrite record_query_spec. destruct (pl_log_sink p); simpl; split_and!; try done; right;
    by exists m, b.
Qed.

(** C17: a query is sent only where its client's binding allows: to the server of
    the forwarding rule that covers the name; else, for a client bound to a
    tunnel, to that tunnel's resolver over its interface and to nobody else; and
    to the default servers or the roots only for clients with no binding.  The
    only cache entry it writes is its own, in its upstream's name space. *)
Theorem queries_confined packet src client protocol w request question :
  from_bytes packet = Some request -> head (queries request) = Some question ->
  let q := query_ctx p packet request question src client protocol in
  let w' := snd (handle p env packet src client protocol w) in
  (exists cs, w_contacts w' = w_contacts w ++ cs /\ Forall (allowed (w_forwarders w) q) cs)
  /\ forall key e, entries (w_cache w') !! key = Some e ->
       entries (w_cache w) !! key = Some e
       \/ key = (select_upstream p client src, canonical_domain (qc_domain q), dq_type question).
Proof.
  intros Hb Hq q. unfold handle. rewrite Hb, Hq. fold q. cbv zeta.
  destruct (handle_query_allowed q w) as [Hc Hk _]. split; [exact Hc|].
  intros key e [H|[-> _]]%Hk; [by left | by right].
Qed.

(** ** Rebinding *)

(** The bytes of a message without a private address among its answers. *)
Definition public_bytes (b : list Z) : Prop :=
  exists m, to_bytes m = Some b /\ existsb private_answer (answers m) = false.

(** The default upstream's entries hold no private answer. *)
Definition guarded (c : DnsCache) : Prop := forall key e,
  entries c !! key = Some e -> fst (fst key) = DefaultUpstream -> public_bytes (wire e).

Lemma shielded_public q : rebinding_protection (pl_config p) = true ->
  forall m b, to_bytes m = Some b -> shielded m -> public_bytes b.
Proof. intros Hr m b Hm Hs. exists m. auto. Qed.

Lemma miss_public q : rebinding_protection (pl_config p) = true ->
  conditional_upstream p q = None -> qc_upstream q = DefaultUpstream ->
  (forall ip, co_action (filter_outcome p q) <> ActionRewrite ip) ->
  effect (fun _ => True) public_bytes q (filtered p env q).
Proof.
  intros Hr Hc Hu Hrw. pose proof (shielded_public q Hr) as HK. unfold filtered.
  destruct (co_action (filter_outcome p q)) as [| |ip].
  - apply effect_bind; [apply effect_rate|]. intros ok _. destruct (negb ok).
    + apply effect_bind; [by apply effect_reply | intros ? _; apply effect_record].
    + unfold forward. rewrite Hc, Hu.
      case_bool_decide; [by apply effect_recursor | by apply effect_default].
  - by apply effect_respond.
  - by destruct (Hrw ip).
Qed.

(** C19: with rebinding protection on, a client of the default upstreams that asks
    for a name not answered here, not covered by a forwarding rule and not
    rewritten by its filter is never sent a private address: every datagram it is
    sent encodes a message without one, or is the aged copy of a cached one; and
    the cache stays free of them, so that no later hit leaks one either. *)
Theorem rebinding_refused packet src client protocol w request question :
  from_bytes packet = Some request -> head (queries request) = Some question ->
  rebinding_protection (pl_config p) = true ->
  let q := query_ctx p packet request question src client protocol in
  local_answer p q = None -> conditional_upstream p q = None ->
  select_upstream p client src = DefaultUpstream ->
  (forall ip, co_action (filter_outcome p q) <> ActionRewrite ip) ->
  guarded (w_cache w) ->
  let w' := snd (handle p env packet src client protocol w) in
  guarded (w_cache w')
  /\ exists ds, w_sent w' = w_sent w ++ ds
     /\ Forall (fun d => public_bytes (fst d)
          \/ exists e age left, public_bytes (wire e)
             /\ fst d = age_wire_ttls (stamp_id (msg_id request) (wire e)) age left) ds.
Proof.
  intros Hb Hq Hr q Hl Hc Hu Hrw Hg. unfold handle. rewrite Hb, Hq. fold q.
  destruct (DnsCache.get (w_now w) (w_cache w) (qc_upstream q) (qc_domain q) (qc_rtype q) (qc_id q))
    as [hit c] eqn:Eg.
  assert (Hg' : guarded c).
  { intros key e. pose proof (get_entries (w_now w) (w_cache w) (qc_upstream q) (qc_domain q)
      (qc_rtype q) (qc_id q)) as H. rewrite Eg in H. simpl in H. rewrite H. apply Hg. }
  destruct hit as [bytes|].
  - assert (Hhit : exists e age left, public_bytes (wire e)
      /\ bytes = age_wire_ttls (stamp_id (msg_id request) (wire e)) age left).
    { revert Eg. unfold DnsCache.get. destruct (entries _ !! _) as [e|] eqn:Ee; [|done].
      case_match; [done|]. intros [= <- _]. eexists e, _, _. split; [|reflexivity].
      by eapply Hg. }
    rewrite (handle_hit q w bytes c Hl Eg). unfold mbind, st_bind, send_to.
    destruct (env_send _ _); simpl; [rewrite record_query_spec|].
    + assert (Hs : forall w', w_cache w' = c -> w_sent w' = w_sent w ++ [(bytes, src)] ->
        guarded (w_cache w') /\ exists ds, w_sent w' = w_sent w ++ ds
        /\ Forall (fun d : list Z * SocketAddr => public_bytes (fst d) \/ exists e age left,
             public_bytes (wire e)
             /\ fst d = age_wire_ttls (stamp_id (msg_id request) (wire e)) age left) ds).
      { intros w' -> ->. split; [done|]. exists [(bytes, src)]. split; [done|].
        apply Forall_singleton. by right. }
      by destruct (pl_log_sink p); apply Hs.
    + split; [done|]. exists []. by rewrite app_nil_r.
  - rewrite (handle_miss q w c Hl Eg).
    destruct (miss_public q Hr Hc Hu Hrw (set_cache c w)) as [_ Hk (ds & Hds & Hf)]. split.
    + intros key e [He|[-> He]]%Hk Hkey; [by eapply Hg' | done].
    + exists ds. split; [exact Hds|]. eapply Forall_impl; [exact Hf|]. by left.
Qed.

(** ** Filtering *)

Definition with_filter (f : FilterState) : Pipeline :=
  {| pl_config := pl_config p; pl_pool := pl_pool p; pl_recursor := pl_recursor p; pl_filter := f;
     pl_routing_profile := pl_routing_profile p; pl_log_sink := pl_log_sink p;
     pl_routing_snapshot := pl_routing_snapshot p;
     pl_device_routing_snapshot := pl_device_routing_snapshot p;
     pl_device_snapshot := pl_device_snapshot p; pl_view := pl_view p |}.

(** C21: a query whose name the client's filter blocks, when no local zone,
    record or private reverse name answers it and the client's upstream has no
    live cached answer for it (both are served before the filter is asked), is
    answered NXDOMAIN without records; nobody is asked and nothing is cached. *)
Theorem block_enforced packet src client protocol w request question :
  from_bytes packet = Some request -> head (queries request) = Some question ->
  let q := query_ctx p packet request question src client protocol in
  local_answer p q = None ->
  fst (DnsCache.get (w_now w) (w_cache w) (qc_upstream q) (qc_domain q) (qc_rtype q) (qc_id q)) = None ->
  co_action (filter_outcome p q) = ActionBlock ->
  let w' := snd (handle p env packet src client protocol w) in
  w_contacts w' = w_contacts w /\ entries (w_cache w') = entries (w_cache w)
  /\ (w_sent w' = w_sent w \/ exists m bytes, w_sent w' = w_sent w ++ [(bytes, src)]
       /\ to_bytes m = Some bytes /\ response_code m = NXDomain /\ answers m = []
       /\ msg_id m = msg_id request /\ queries m = queries request).
Proof.
  intros Hb Hq q Hl Hmiss Hblock. unfold handle. rewrite Hb, Hq. fold q.
  pose proof (get_entries (w_now w) (w_cache w) (qc_upstream q) (qc_domain q) (qc_rtype q) (qc_id q)) as Hent.
  destruct (DnsCache.get (w_now w) (w_cache w) _ _ _ _) as [hit c] eqn:Eg. simpl in Hmiss, Hent. subst hit.
  rewrite (handle_miss q w c Hl Eg). unfold filtered. rewrite Hblock.
  unfold respond, reply, mbind, st_bind, st_lift.
  destruct (to_bytes _) as [b|] eqn:Em; simpl; [|split_and!; auto].
  unfold send_to. destruct (env_send _ _); simpl; [|split_and!; auto].
  rewrite record_query_spec. destruct (pl_log_sink p); simpl; split_and!; try done; right;
    eexists _, b; (split; [done|]; split; [exact Em|]; done).
Qed.

(** A cached answer is sent whatever the client's filter says: with a fresh
    entry for the name under the client's upstream, replacing the whole filter
    state changes nothing about the handling of the query. *)
Theorem hit_ignores_filter packet src client protocol w request question f b :
  from_bytes packet = Some request -> head (queries request) = Some question ->
  let q := query_ctx p packet request question src client protocol in
  fst (DnsCache.get (w_now w) (w_cache w) (qc_upstream q) (qc_domain q) (qc_rtype q) (qc_id q)) = Some b ->
  handle (with_filter f) env packet src client protocol w = handle p env packet src client protocol w.
Proof.
  intros Hb Hq q Hhit. unfold handle. rewrite Hb, Hq.
  change (query_ctx (with_filter f) packet request question src client protocol) with q. fold q.
  destruct (DnsCache.get (w_now w) (w_cache w) _ _ _ _) as [hit c] eqn:Eg. simpl in Hhit. subst hit.
  destruct (local_answer p q) eqn:El.
  - unfold handle_query. change (local_answer (with_filter f) q) with (local_answer p q). by rewrite El.
  - rewrite (handle_hit q w b c El Eg). unfold handle_query.
    change (local_answer (with_filter f) q) with (local_answer p q). rewrite El.
    unfold resolve, mbind, st_bind, cache_get. by rewrite Eg.
Qed.

(** ** Conditional forwarding *)

(** What a conditional forward relays is its own answer: received within the
    timeout, with the query's transaction id and question name, whatever stale or
    forged datagrams the socket delivers before it; the one exception is a first
    datagram that cannot be decoded, which is passed on as it is. *)
Theorem conditional_own_answer q first datagrams t parsed buf :
  recv_loop q first datagrams = Ok (t, parsed, buf) ->
  t <= CONDITIONAL_RECV_TIMEOUT
  /\ (exists bytes, (t, Some bytes) ∈ datagrams /\ buf = take RECV_BUFFER bytes)
  /\ match parsed with
     | Some m => from_bytes buf = Some m /\ answers_query q m = true
     | None => first = true /\ from_bytes buf = None
         /\ exists bytes, head datagrams = Some (t, Some bytes) /\ buf = take RECV_BUFFER bytes
     end.
Proof.
  revert first. induction datagrams as [|[t' received] ds IH]; intros first; simpl; [done|].
  destruct (Z.ltb_spec CONDITIONAL_RECV_TIMEOUT t'); [done|].
  destruct received as [bytes|]; [|done]. set (b := take RECV_BUFFER bytes).
  assert (Hskip : recv_loop q false ds = Ok (t, parsed, buf) ->
    t <= CONDITIONAL_RECV_TIMEOUT
    /\ (exists bytes', (t, Some bytes') ∈ (t', Some bytes) :: ds /\ buf = take RECV_BUFFER bytes')
    /\ match parsed with
       | Some m => from_bytes buf = Some m /\ answers_query q m = true
       | None => first = true /\ from_bytes buf = None
           /\ exists bytes', Some (t', Some bytes) = Some (t, Some bytes') /\ buf = take RECV_BUFFER bytes'
       end).
  { intros H1. destruct (IH false H1) as (Ht & (bytes' & Hin & Hb) & Hp). split; [done|].
    split; [exists bytes'; split; [by right | done]|]. destruct parsed; [done | by destruct Hp]. }
  destruct (from_bytes b) as [msg|] eqn:Eb.
  - destruct (answers_query q msg) eqn:Ea; [|done]. intros [= <- <- <-].
    split; [done|]. split; [exists bytes; split; [by left | done] | done].
  - destruct first; [|done]. intros [= <- <- <-].
    split; [done|]. split; [exists bytes; split; [by left | done]|]. split_and!; eauto.
Qed.

(** ** Local aliases *)

(** A local name that has records but none of the queried address type, a
    CNAME among them or not, is answered with no records at all: the branch that
    would add the alias and its target is reached only when there are address
    records and none of them can be rendered. *)
Theorem cname_not_chased zones records rules q t m r :
  pl_view p = build_view zones records rules ->
  let rs := exact (domain_lower q) (active zones records) in
  rs <> [] -> oftype t rs = [] -> t = A \/ t = Aaaa ->
  qc_rtype q <> RT_ANY -> rtype_from_hickory (qc_rtype q) = Some t ->
  contains "."%char (domain_lower q) = true ->
  authoritative_answer p q = Some (Some (m, r)) -> answers m = [] /\ additionals m = [].
Proof.
  intros Hv rs Hne Hno Ht Hany Hrt Hdot. unfold authoritative_answer, search_domain_hop.
  assert (Hl : view_lookup p (qc_rtype q) (domain_lower q) = Some []).
  { unfold view_lookup. rewrite bool_decide_eq_false_2 by done. rewrite Hrt, Hv.
    destruct (exact_lookups zones records rules (domain_lower q) t Hne) as (-> & _).
    fold rs. by rewrite Hno. }
  rewrite Hl, Hdot, andb_false_r. simpl. destruct (name_from_str_relaxed _); simpl; [|done].
  destruct (authoritative_zone _ _ ≫= _); by intros [= <- <-].
Qed.

(** ** Reconfiguration *)

(** The pool in force matches the configuration in force. *)
Definition pool_current (pl : Pipeline) : Prop :=
  let pool := pl_pool pl in
  ue_upstream <$> pool_all pool = resolvable_upstreams (upstream_servers (pl_config pl))
  /\ Forall (fun e => rs_validate (ue_resolver e) = dnssec_enabled (pl_config pl)) (pool_all pool)
  /\ pool_serving pool <> []
  /\ Forall (fun e => e ∈ effective (pool_all pool) (pl_config pl)) (pool_serving pool).

Lemma pool_build_current config :
  let pool := pool_build config in
  ue_upstream <$> pool_all pool = resolvable_upstreams (upstream_servers config)
  /\ Forall (fun e => rs_validate (ue_resolver e) = dnssec_enabled config) (pool_all pool)
  /\ pool_serving pool <> []
  /\ Forall (fun e => e ∈ effective (pool_all pool) config) (pool_serving pool).
Proof.
  simpl. split; [|split; [|split]].
  - rewrite <- list_fmap_compose. by apply list_fmap_id.
  - by apply Forall_fmap, Forall_true.
  - apply effective_nonempty. intros H%fmap_nil_inv. by eapply resolvable_nonempty.
  - by apply Forall_forall.
Qed.

Lemma effective_config all c c' : forwarder_selection_mode c = forwarder_selection_mode c' ->
  single_upstream c = single_upstream c' -> effective all c = effective all c'.
Proof. intros H1 H2. unfold effective. by rewrite H1, H2. Qed.

(** Reconfiguring and re-probing keep the pool in step with the
    configuration: it holds exactly the usable configured upstreams, validates
    exactly when asked to, serves at least one and only those the selection mode
    allows; and after a change of upstreams, selection, validation, rebinding
    protection or resolution mode no earlier answer is served from the cache. *)
Theorem pool_stays_current config health w : pool_current p ->
  pool_current (fst (update_config p env config w)) /\ pool_current (republish_serving p health)
  /\ (upstream_servers (pl_config p) <> upstream_servers config
      \/ forwarder_selection_mode (pl_config p) <> forwarder_selection_mode config
      \/ single_upstream (pl_config p) <> single_upstream config
      \/ dnssec_enabled (pl_config p) <> dnssec_enabled config
      \/ rebinding_protection (pl_config p) <> rebinding_protection config
      \/ resolution_mode (pl_config p) <> resolution_mode config ->
      entries (w_cache (snd (update_config p env config w))) = ∅).
Proof.
  intros (Hu & Hd & Hne & Hs). split; [|split].
  - unfold update_config, pool_current. simpl.
    destruct (negb _ || negb _ || (negb _ || negb _)) eqn:E; [apply pool_build_current|].
    breflect. rewrite <- (effective_config _ (pl_config p)) by done. split_and!; [congruence| | done | done].
    eapply Forall_impl; [exact Hd|]. simpl. congruence.
  - unfold republish_serving, pool_current. simpl. split; [done|]. split; [done|].
    assert (Hall : pool_all (pl_pool p) <> []).
    { intros H. rewrite H in Hu. symmetry in Hu. by apply resolvable_nonempty in Hu. }
    assert (Hp : serving_order (pool_all (pl_pool p)) (pl_config p) health
      ≡ₚ candidates (pool_all (pl_pool p)) (pl_config p) health).
    { rewrite serving_candidates. case_bool_decide; [apply sort_asc_perm | done]. }
    split.
    + intros H. rewrite H in Hp. symmetry in Hp. apply Permutation_nil_r in Hp.
      by eapply candidates_nonempty.
    + rewrite Hp. apply Forall_forall. intros e. unfold candidates. destruct (filter _ _) eqn:E; [done|].
      rewrite <- E. by intros [_ ?]%list_elem_of_filter.
  - intros Hch. unfold update_config. simpl.
    destruct (negb _ || negb _ || negb _ || negb _ || (negb _ || negb _)) eqn:E; [done|].
    exfalso. breflect. tauto.
Qed.

(** A new timeout alone leaves the resolvers built with the old one in place. *)
Lemma timeout_not_applied config w :
  upstream_servers (pl_config p) = upstream_servers config ->
  forwarder_selection_mode (pl_config p) = forwarder_selection_mode config ->
  single_upstream (pl_config p) = single_upstream config ->
  dnssec_enabled (pl_config p) = dnssec_enabled config ->
  pl_pool (fst (update_config p env config w)) = pl_pool p.
Proof.
  intros H1 H2 H3 H4. unfold update_config. simpl. by rewrite !bool_decide_eq_true_2.
Qed.
End pipeline_laws.
