(* ===== verification/PolicyRouter.v ===== *)
(** * Policy routing: the trait and its netlink implementation

    [wardnetd-services/src/routing/policy_router.rs] is the interface the
    routing service and the zone enforcer work against; [PolicyRouter] states it
    with [PolicyRouterLaws], what each method does to the kernel's rule list
    ([ip_rules]).  [wardnetd/src/policy_router_netlink.rs] implements it on
    rtnetlink sockets; the kernel and the [rtnetlink] crate are the class
    [Netlink] with [NetlinkLaws], the documented behaviour of RTM_NEWRULE with
    NLM_F_EXCL, RTM_DELRULE (an omitted attribute is a wildcard) and the dumps.
    The implementation discharges the interface ([netlink_router_laws]).  The
    kernel's choice of a rule for a packet is the class [FibLookup]. *)

From S2P Require Import Prelude RustStr Net.

(** ** The kernel's policy database *)

Definition RT_TABLE_MAIN : Z := 254.

(** A prefix of length 0 selects nothing in particular: the kernel keeps no
    address for it. *)
Abbreviation Prefix := (option (Ipv4Addr * Z)).
Definition mk_prefix (a len : Z) : Prefix := if len =? 0 then None else Some (a, len).

Record IpRule : Type := mkIpRule {
  ru_src : Prefix;
  ru_dst : Prefix;
  ru_table : Z;
  ru_priority : Z;
}.

#[export] Instance IpRule_eq_dec : EqDecision IpRule.
Proof. solve_decision. Defined.

Definition prefix_wf (p : Prefix) : Prop :=
  match p with Some (a, len) => is_u32 a /\ 0 < len <= 32 | None => True end.

Definition rule_wf (r : IpRule) : Prop :=
  prefix_wf (ru_src r) /\ prefix_wf (ru_dst r) /\ is_u32 (ru_table r) /\ is_u32 (ru_priority r).

(** [from <ip>/32 lookup <table>], [from <ip>/32 to <dst> lookup <table>] *)
Definition from_rule (ip table prio : Z) : IpRule := mkIpRule (mk_prefix ip 32) None table prio.
Definition from_to_rule (ip dst len table prio : Z) : IpRule :=
  mkIpRule (mk_prefix ip 32) (mk_prefix dst len) table prio.

(** Does a packet match the selectors of a rule. *)
Definition in_prefix (p : Prefix) (a : Ipv4Addr) : bool :=
  match p with
  | None => true
  | Some (net, len) => net / 2 ^ (32 - len) =? a / 2 ^ (32 - len)
  end.

Definition rule_applies (src dst : Ipv4Addr) (r : IpRule) : bool :=
  in_prefix (ru_src r) src && in_prefix (ru_dst r) dst.

(** The kernel's route lookup, which is not code of the repository: from the
    tables that have a route to the destination, the rules and the packet's
    addresses, the rule that decides.  ip-rule(8) documents it: rules are scanned
    in the order of their priority numbers, and the scan ends at the first rule
    that matches the packet and whose table yields a route; where the table has
    none, the scan goes on with the next rule. *)
Class FibLookup : Type :=
  fib_lookup : (Z -> Ipv4Addr -> bool) -> list IpRule -> Ipv4Addr -> Ipv4Addr -> option IpRule.

(** The rule matches and its table has a route to the destination. *)
Definition decides (routes : Z -> Ipv4Addr -> bool) (src dst : Ipv4Addr) (r : IpRule) : bool :=
  rule_applies src dst r && routes (ru_table r) dst.

Class FibLookupLaws (F : FibLookup) : Prop := {
  fib_lookup_found : forall routes rules src dst r, fib_lookup routes rules src dst = Some r ->
    r ∈ rules /\ decides routes src dst r = true /\
    forall r', r' ∈ rules -> decides routes src dst r' = true -> ru_priority r <= ru_priority r';
  fib_lookup_goes_on : forall routes rules src dst, fib_lookup routes rules src dst = None ->
    forall r, r ∈ rules -> decides routes src dst r = false;
}.

(** ** The trait *)

Class PolicyRouter (N : Type) : Type := {
  (** what the kernel holds: an observation, not a method *)
  ip_rules : N -> list IpRule;
  enable_ip_forwarding : ST N str unit;
  add_route_table : str -> Z -> ST N str unit;
  remove_route_table : Z -> ST N str unit;
  has_route_table : Z -> ST N str bool;
  add_ip_rule : str -> Z -> Z -> ST N str unit;
  remove_ip_rule : str -> Z -> Z -> ST N str unit;
  list_wardnet_rules : ST N str (list (str * Z * Z));
  add_switchback_rule : str -> str -> Z -> ST N str unit;
  remove_switchback_rule : str -> str -> Z -> ST N str unit;
  list_switchback_rules : ST N str (list (str * str * Z));
  add_domain_route_rule : str -> str -> Z -> Z -> ST N str unit;
  remove_domain_route_rule : str -> str -> Z -> Z -> ST N str unit;
  list_domain_route_rules : Z -> ST N str (list (str * str * Z));
  flush_conntrack : str -> ST N str unit;
  flush_route_cache : ST N str unit;
  check_tools_available : ST N str unit;
  add_interface_alias : str -> str -> Z -> ST N str unit;
  remove_interface_alias : str -> str -> Z -> ST N str unit;
  list_interface_aliases : str -> ST N str (list (str * Z));
  set_proxy_arp : str -> bool -> ST N str unit;
  add_neigh_proxy : str -> str -> ST N str unit;
  remove_neigh_proxy : str -> str -> ST N str unit;
  list_neigh_proxies : str -> ST N str (list str);
  add_host_route : str -> str -> Ipv4Addr -> ST N str unit;
  remove_host_route : str -> str -> ST N str unit;
}.

(** Parse an IPv4 [a.b.c.d/p]; a bare address is a /32 host. *)
Definition parse_ipv4_cidr (cidr : str) : result (Ipv4Addr * Z) str :=
  match split_once "/"%char cidr with
  | None =>
      match parse_ipv4 cidr with
      | Some ip => Ok (ip, 32)
      | None => Err (of_string "invalid CIDR")
      end
  | Some (addr, prefix) =>
      match parse_ipv4 addr with
      | None => Err (of_string "invalid CIDR address")
      | Some ip =>
          match parse_uint U8_MAX prefix with
          | None => Err (of_string "invalid CIDR prefix")
          | Some len =>
              if 32 <? len then Err (of_string "invalid CIDR prefix: prefix > 32")
              else Ok (ip, len)
          end
      end
  end.

(** A method that leaves the rule list alone. *)
Definition frames {N A} `{PolicyRouter N} (m : ST N str A) : Prop :=
  forall n, ip_rules (snd (m n)) = ip_rules n.

(** The rule is in the list afterwards and nothing else changed. *)
Definition rule_added (r : IpRule) (before after : list IpRule) : Prop :=
  r ∈ before /\ after = before \/ after ≡ₚ r :: before.

(** One rule that [sel] selects left the list. *)
Definition rule_removed (sel : IpRule -> Prop) (before after : list IpRule) : Prop :=
  exists r, sel r /\ before ≡ₚ r :: after.

(** What the delete requests select: omitted attributes, and table 0, match
    anything. *)
Definition from_selects (ip table prio : Z) (r : IpRule) : Prop :=
  ru_src r = mk_prefix ip 32 /\ (table = 0 \/ ru_table r = table) /\ ru_priority r = prio.
Definition from_to_selects (ip dst len table prio : Z) (r : IpRule) : Prop :=
  from_selects ip table prio r /\ (len = 0 \/ ru_dst r = mk_prefix dst len).

(** What the listings report of a rule. *)
Definition wardnet_entry (r : IpRule) : option (str * Z * Z) :=
  if ru_table r <? 100 then None
  else match ru_src r with
       | Some (ip, _) => Some (show_ipv4 ip, ru_table r, ru_priority r)
       | None => None
       end.

Definition switchback_entry (r : IpRule) : option (str * str * Z) :=
  if negb (ru_table r =? RT_TABLE_MAIN) || (ru_priority r =? 0) then None
  else match ru_src r, ru_dst r with
       | Some (src, _), Some (dst, len) =>
           Some (show_ipv4 src, show_ipv4 dst ++ "/" ++ show_u8 len, ru_priority r)
       | _, _ => None
       end.

Definition domain_entry (priority : Z) (r : IpRule) : option (str * str * Z) :=
  if (ru_priority r =? 0) || negb (ru_priority r =? priority) then None
  else match ru_src r, ru_dst r with
       | Some (src, _), Some (dst, _) => Some (show_ipv4 src, show_ipv4 dst, ru_table r)
       | _, _ => None
       end.

Class PolicyRouterLaws (N : Type) `{PolicyRouter N} : Prop := {
  ip_rules_wf n : Forall rule_wf (ip_rules n);
  add_ip_rule_law s t p n : is_u32 t -> is_u32 p ->
    let '(res, n') := add_ip_rule s t p n in
    match res with
    | Ok _ => exists ip, parse_ipv4 s = Some ip /\
                rule_added (from_rule ip t p) (ip_rules n) (ip_rules n')
    | Err _ => ip_rules n' = ip_rules n
    end;
  remove_ip_rule_law s t p n :
    let '(res, n') := remove_ip_rule s t p n in
    match res with
    | Ok _ => exists ip, parse_ipv4 s = Some ip /\
                rule_removed (from_selects ip t p) (ip_rules n) (ip_rules n')
    | Err _ => ip_rules n' = ip_rules n
    end;
  list_wardnet_rules_law n :
    let '(res, n') := list_wardnet_rules n in
    ip_rules n' = ip_rules n /\ forall l, res = Ok l -> l = omap wardnet_entry (ip_rules n);
  add_switchback_rule_law s c p n : is_u32 p ->
    let '(res, n') := add_switchback_rule s c p n in
    match res with
    | Ok _ => exists ip dst len, parse_ipv4 s = Some ip /\ parse_ipv4_cidr c = Ok (dst, len) /\
                rule_added (from_to_rule ip dst len RT_TABLE_MAIN p) (ip_rules n) (ip_rules n')
    | Err _ => ip_rules n' = ip_rules n
    end;
  remove_switchback_rule_law s c p n :
    let '(res, n') := remove_switchback_rule s c p n in
    match res with
    | Ok _ => exists ip dst len, parse_ipv4 s = Some ip /\ parse_ipv4_cidr c = Ok (dst, len) /\
                let sel := from_to_selects ip dst len RT_TABLE_MAIN p in
                rule_removed sel (ip_rules n) (ip_rules n')
                \/ ip_rules n' = ip_rules n /\ forall r, r ∈ ip_rules n -> ~ sel r
    | Err _ => ip_rules n' = ip_rules n
    end;
  list_switchback_rules_law n :
    let '(res, n') := list_switchback_rules n in
    ip_rules n' = ip_rules n /\ forall l, res = Ok l -> l = omap switchback_entry (ip_rules n);
  add_domain_route_rule_law s d t p n : is_u32 t -> is_u32 p ->
    let '(res, n') := add_domain_route_rule s d t p n in
    match res with
    | Ok _ => exists ip dst, parse_ipv4 s = Some ip /\ parse_ipv4 d = Some dst /\
                rule_added (from_to_rule ip dst 32 t p) (ip_rules n) (ip_rules n')
    | Err _ => ip_rules n' = ip_rules n
    end;
  remove_domain_route_rule_law s d t p n :
    let '(res, n') := remove_domain_route_rule s d t p n in
    match res with
    | Ok _ => exists ip dst, parse_ipv4 s = Some ip /\ parse_ipv4 d = Some dst /\
                let sel := from_to_selects ip dst 32 t p in
                rule_removed sel (ip_rules n) (ip_rules n')
                \/ ip_rules n' = ip_rules n /\ forall r, r ∈ ip_rules n -> ~ sel r
    | Err _ => ip_rules n' = ip_rules n
    end;
  list_domain_route_rules_law p n :
    let '(res, n') := list_domain_route_rules p n in
    ip_rules n' = ip_rules n /\ forall l, res = Ok l -> l = omap (domain_entry p) (ip_rules n);
  frames_enable : frames enable_ip_forwarding;
  frames_add_table i t : frames (add_route_table i t);
  frames_remove_table t : frames (remove_route_table t);
  frames_has_table t : frames (has_route_table t);
  frames_conntrack s : frames (flush_conntrack s);
  frames_cache : frames flush_route_cache;
  frames_tools : frames check_tools_available;
}.

(** A kernel that never fails on its own: a method errs only for an unusable
    argument, and a removal by [remove_ip_rule] also when nothing matches. *)
Class PolicyRouterReliable (N : Type) `{PolicyRouter N} : Prop := {
  add_ip_rule_ok s t p n ip : parse_ipv4 s = Some ip -> is_u32 t -> is_u32 p ->
    is_ok (fst (add_ip_rule s t p n)) = true;
  remove_ip_rule_ok s t p n ip : parse_ipv4 s = Some ip ->
    (exists r, r ∈ ip_rules n /\ from_selects ip t p r) ->
    is_ok (fst (remove_ip_rule s t p n)) = true;
  list_wardnet_rules_ok n : is_ok (fst (list_wardnet_rules n)) = true;
  add_switchback_rule_ok s c p n ip d : parse_ipv4 s = Some ip -> parse_ipv4_cidr c = Ok d ->
    is_u32 p -> is_ok (fst (add_switchback_rule s c p n)) = true;
  remove_switchback_rule_ok s c p n ip d : parse_ipv4 s = Some ip -> parse_ipv4_cidr c = Ok d ->
    is_ok (fst (remove_switchback_rule s c p n)) = true;
  list_switchback_rules_ok n : is_ok (fst (list_switchback_rules n)) = true;
  add_domain_route_rule_ok s d t p n ip dst : parse_ipv4 s = Some ip -> parse_ipv4 d = Some dst ->
    is_u32 t -> is_u32 p -> is_ok (fst (add_domain_route_rule s d t p n)) = true;
  remove_domain_route_rule_ok s d t p n ip dst : parse_ipv4 s = Some ip ->
    parse_ipv4 d = Some dst -> is_ok (fst (remove_domain_route_rule s d t p n)) = true;
  list_domain_route_rules_ok p n : is_ok (fst (list_domain_route_rules p n)) = true;
}.

(** ** Netlink *)

Inductive NlError : Type :=
| NetlinkError (text : str)
| OtherError (text : str).

Definition show_nl (e : NlError) : str :=
  match e with NetlinkError t | OtherError t => t end.

(** [libc] codes the code compares, by the text the kernel error prints. *)
Definition is_already_exists (e : NlError) : bool :=
  match e with
  | NetlinkError msg => contains_str (of_string "File exists") msg
  | OtherError _ => false
  end.

Definition is_not_found (e : NlError) : bool :=
  match e with
  | NetlinkError s =>
      contains_str (of_string "No such file or directory") s
      || contains_str (of_string "No such process") s
  | OtherError _ => false
  end.

Inductive RuleAttribute : Type :=
| RuleTable (t : Z)
| RuleSource (addr : Ipv4Addr)
| RuleDestination (addr : Ipv4Addr)
| RulePriority (p : Z).

Record RuleMessage : Type := {
  rm_src_len : Z;
  rm_dst_len : Z;
  rm_table : Z;
  rm_attributes : list RuleAttribute;
}.

Inductive RouteScope : Type := ScopeUniverse | ScopeLink | ScopeHost.

Inductive RouteAttribute : Type :=
| RouteTable (t : Z)
| RouteDestination (addr : Ipv4Addr)
| RouteOif (oif : Z)
| RoutePrefSource (addr : Ipv4Addr).

Record RouteMessage : Type := {
  rt_dst_len : Z;
  rt_table : Z;
  rt_scope : RouteScope;
  rt_attributes : list RouteAttribute;
}.

#[export] Instance RouteScope_eq_dec : EqDecision RouteScope.
Proof. solve_decision. Defined.
#[export] Instance RouteAttribute_eq_dec : EqDecision RouteAttribute.
Proof. solve_decision. Defined.
#[export] Instance RouteMessage_eq_dec : EqDecision RouteMessage.
Proof. solve_decision. Defined.

Record AddressMessage : Type := {
  am_prefix_len : Z;
  am_local : option Ipv4Addr;
  am_address : option Ipv4Addr;
}.

Record NeighbourMessage : Type := {
  nm_ifindex : Z;
  nm_destination : option Ipv4Addr;
}.

Record CommandOutput : Type := { co_success : bool; co_stdout : str; co_stderr : str }.

Inductive IoError : Type := IoNotFound | IoOther (text : str).

(** A dump: the messages that arrived, and the error that ended it if one did. *)
Abbreviation Dump A := (list A * option NlError)%type.

(** The kernel behind [rtnetlink::Handle], the filesystem and the command
    executor. *)
Class Netlink (K : Type) : Type := {
  nl_rules : K -> list IpRule;
  nl_routes : K -> list RouteMessage;
  nl_rule_add : IpRule -> ST K NlError unit;
  nl_rule_del : RuleMessage -> ST K NlError unit;
  nl_rule_get : K -> Dump RuleMessage * K;
  nl_link_index : str -> ST K NlError (option Z);
  nl_link_get : ST K NlError unit;
  (** the flag is NLM_F_REPLACE instead of NLM_F_EXCL *)
  nl_route_add : bool -> RouteMessage -> ST K NlError unit;
  nl_route_del : RouteMessage -> ST K NlError unit;
  nl_route_get : K -> Dump RouteMessage * K;
  nl_address_add : Z -> Ipv4Addr -> Z -> ST K NlError unit;
  nl_address_del : Z -> AddressMessage -> ST K NlError unit;
  nl_address_get : Z -> K -> Dump AddressMessage * K;
  nl_neigh_add_proxy : Z -> Ipv4Addr -> ST K NlError unit;
  nl_neigh_del_proxy : NeighbourMessage -> ST K NlError unit;
  (** the error carries ENOENT *)
  nl_enoent : NlError -> bool;
  nl_neigh_get_proxies : K -> Dump NeighbourMessage * K;
  fs_read : str -> ST K IoError str;
  fs_write : str -> str -> ST K IoError unit;
  run_command : str -> list str -> ST K IoError CommandOutput;
}.

(** The attribute lookups of the code: [attributes.iter().find_map(..)]. *)
Fixpoint find_map {A B} (f : A -> option B) (l : list A) : option B :=
  match l with
  | [] => None
  | x :: l' => match f x with Some b => Some b | None => find_map f l' end
  end.

Definition attr_table (a : RuleAttribute) : option Z :=
  match a with RuleTable t => Some t | _ => None end.
Definition attr_source (a : RuleAttribute) : option Ipv4Addr :=
  match a with RuleSource t => Some t | _ => None end.
Definition attr_destination (a : RuleAttribute) : option Ipv4Addr :=
  match a with RuleDestination t => Some t | _ => None end.
Definition attr_priority (a : RuleAttribute) : option Z :=
  match a with RulePriority t => Some t | _ => None end.

Definition rule_table (rule : RuleMessage) : Z :=
  default (rm_table rule) (find_map attr_table (rm_attributes rule)).

Definition route_table (route : RouteMessage) : Z :=
  default (rt_table route)
    (find_map (fun a => match a with RouteTable t => Some t | _ => None end)
       (rt_attributes route)).

(** [RouteMessageBuilder::table_id]: small tables in the header, wide ones in an
    attribute; and the header a message without [table_id] has. *)
Definition table_header (table : Z) : Z * list RouteAttribute :=
  if table <=? 255 then (table, []) else (0, [RouteTable table]).

Definition build_host_route (addr : Ipv4Addr) (oif : Z) (pref_src : Ipv4Addr) : RouteMessage :=
  {| rt_dst_len := 32; rt_table := RT_TABLE_MAIN; rt_scope := ScopeLink;
     rt_attributes := [RouteDestination addr; RouteOif oif; RoutePrefSource pref_src] |}.

Definition is_removable_host_route (route : RouteMessage) (addr : Ipv4Addr) (oif : Z) : bool :=
  if negb (rt_dst_len route =? 32) then false
  else if negb (bool_decide (rt_scope route = ScopeLink)) then false
  else if negb (route_table route =? RT_TABLE_MAIN) then false
  else
    let dest_matches := existsb (fun a =>
      match a with RouteDestination d => d =? addr | _ => false end) (rt_attributes route) in
    let oif_matches := existsb (fun a =>
      match a with RouteOif o => o =? oif | _ => false end) (rt_attributes route) in
    dest_matches && oif_matches.

Definition neigh_destination (msg : NeighbourMessage) : option Ipv4Addr := nm_destination msg.

Section netlink_router.
Context {K : Type} {NL : Netlink K}.

(** [.map_err(|e| anyhow!("{what}: {e}"))] *)
Definition bail {A} (what : str) (m : ST K NlError A) : ST K str A := fun k =>
  match m k with
  | (Ok a, k') => (Ok a, k')
  | (Err e, k') => (Err (what ++ ": " ++ show_nl e), k')
  end.

(** [match execute { Ok | Err(e) if benign(e) => Ok(()), Err(e) => bail!(..) }] *)
Definition tolerate (benign : NlError -> bool) (what : str) (m : ST K NlError unit)
    : ST K str unit := fun k =>
  match m k with
  | (Ok _, k') => (Ok tt, k')
  | (Err e, k') => if benign e then (Ok tt, k') else (Err (what ++ ": " ++ show_nl e), k')
  end.

Definition parse_or {A} (o : option A) (what : str) : ST K str A := st_lift (ok_or o what).

(** A dump that must arrive whole: [while let Some(m) = try_next().await? ..]. *)
Definition drain {A} (get : K -> Dump A * K) : ST K str (list A) := fun k =>
  match get k with
  | ((ms, None), k') => (Ok ms, k')
  | ((_, Some e), k') => (Err (show_nl e), k')
  end.

(** A dump searched until the first match: later errors are never seen. *)
Definition search_dump {A} (f : A -> bool) (get : K -> Dump A * K) : ST K str (option A) := fun k =>
  let '((ms, e), k') := get k in
  match List.find f ms with
  | Some m => (Ok (Some m), k')
  | None => match e with None => (Ok None, k') | Some e => (Err (show_nl e), k') end
  end.

Definition link_index (interface : str) : ST K str Z :=
  i ← bail [] (nl_link_index interface);
  parse_or i ("interface " ++ interface ++ " not found").

(** Read the value, write it, or fall back to [sysctl -w]. *)
Definition set_sysctl (path want setting what : str) : ST K str unit := fun k =>
  let '(v, k) := fs_read path k in
  let already := match v with Ok v => bool_decide (trim v = want) | Err _ => false end in
  if already then (Ok tt, k)
  else match fs_write path want k with
       | (Ok _, k) => (Ok tt, k)
       | (Err _, k) =>
           match run_command (of_string "sysctl") [of_string "-w"; setting] k with
           | (Err _, k) => (Err what, k)
           | (Ok out, k) => if negb (co_success out) then (Err what, k) else (Ok tt, k)
           end
       end.

Definition netlink_enable_ip_forwarding : ST K str unit :=
  set_sysctl (of_string "/proc/sys/net/ipv4/ip_forward") (of_string "1")
    (of_string "net.ipv4.ip_forward=1") (of_string "failed to enable IP forwarding").

Definition netlink_set_proxy_arp (interface : str) (enabled : bool) : ST K str unit :=
  let want := of_string (if enabled then "1" else "0") in
  set_sysctl ("/proc/sys/net/ipv4/conf/" ++ interface ++ "/proxy_arp") want
    ("net.ipv4.conf." ++ interface ++ ".proxy_arp=" ++ want)
    ("failed to set proxy_arp on " ++ interface).

Definition netlink_add_route_table (interface : str) (table : Z) : ST K str unit :=
  index ← link_index interface;
  let '(header, attrs) := table_header table in
  tolerate is_already_exists
    ("failed to add default route dev " ++ interface ++ " table " ++ show_u32 table)
    (nl_route_add false
       {| rt_dst_len := 0; rt_table := header; rt_scope := ScopeLink;
          rt_attributes := RouteOif index :: attrs |}).

(** The test of [remove_route_table] and [has_route_table]: header or attribute. *)
Definition in_table (table : Z) (route : RouteMessage) : bool :=
  (rt_table route =? table)
  || existsb (fun a => match a with RouteTable t => t =? table | _ => false end)
       (rt_attributes route).

Definition netlink_remove_route_table (table : Z) : ST K str unit :=
  r ← search_dump (in_table table) nl_route_get;
  match r with
  | Some route => (fun k => (Ok tt, snd (nl_route_del route k))) : ST K str unit
  | None => mret tt
  end.

Definition netlink_has_route_table (table : Z) : ST K str bool :=
  r ← search_dump (in_table table) nl_route_get;
  mret (bool_decide (is_Some r)).

Definition netlink_add_ip_rule (src_ip : str) (table priority : Z) : ST K str unit :=
  ip ← parse_or (parse_ipv4 src_ip) ("invalid IP " ++ src_ip);
  tolerate is_already_exists (of_string "failed to add ip rule")
    (nl_rule_add (from_rule ip table priority)).

Definition netlink_remove_ip_rule (src_ip : str) (table priority : Z) : ST K str unit :=
  ip ← parse_or (parse_ipv4 src_ip) ("invalid IP " ++ src_ip);
  let rule_msg :=
    {| rm_src_len := 32; rm_dst_len := 0;
       rm_table := if 255 <? table then 0 else table;
       rm_attributes := [RuleSource ip; RulePriority priority]
                        ++ (if 255 <? table then [RuleTable table] else []) |} in
  bail (of_string "failed to remove ip rule") (nl_rule_del rule_msg).

(** One round of the loop of [list_wardnet_rules]. *)
Definition wardnet_rule (rule : RuleMessage) : option (str * Z * Z) :=
  let table := default (rm_table rule) (find_map attr_table (rm_attributes rule)) in
  if table <? 100 then None
  else
    let src_ip := show_ipv4 <$> find_map attr_source (rm_attributes rule) in
    let priority := default 0 (find_map attr_priority (rm_attributes rule)) in
    match src_ip with
    | Some ip => Some (ip, table, priority)
    | None => None
    end.

Definition netlink_list_wardnet_rules : ST K str (list (str * Z * Z)) :=
  ms ← drain nl_rule_get; mret (omap wardnet_rule ms).

Definition netlink_add_switchback_rule (src_ip dst_cidr : str) (priority : Z) : ST K str unit :=
  src ← parse_or (parse_ipv4 src_ip) ("invalid switchback src IP " ++ src_ip);
  '(dst, dst_len) ← st_lift (parse_ipv4_cidr dst_cidr);
  tolerate is_already_exists (of_string "failed to add switchback rule")
    (nl_rule_add (from_to_rule src dst dst_len RT_TABLE_MAIN priority)).

Definition netlink_remove_switchback_rule (src_ip dst_cidr : str) (priority : Z) : ST K str unit :=
  src ← parse_or (parse_ipv4 src_ip) ("invalid switchback src IP " ++ src_ip);
  '(dst, dst_len) ← st_lift (parse_ipv4_cidr dst_cidr);
  tolerate is_not_found (of_string "failed to remove switchback rule")
    (nl_rule_del
       {| rm_src_len := 32; rm_dst_len := dst_len; rm_table := RT_TABLE_MAIN;
          rm_attributes := [RuleSource src; RuleDestination dst; RulePriority priority] |}).

(** One round of the loop of [list_switchback_rules]. *)
Definition switchback_rule (rule : RuleMessage) : option (str * str * Z) :=
  if negb (rule_table rule =? RT_TABLE_MAIN) then None
  else match find_map attr_priority (rm_attributes rule) with
       | None => None
       | Some priority =>
           match show_ipv4 <$> find_map attr_source (rm_attributes rule),
                 show_ipv4 <$> find_map attr_destination (rm_attributes rule) with
           | Some src, Some dst => Some (src, dst ++ "/" ++ show_u8 (rm_dst_len rule), priority)
           | _, _ => None
           end
       end.

Definition netlink_list_switchback_rules : ST K str (list (str * str * Z)) :=
  ms ← drain nl_rule_get; mret (omap switchback_rule ms).

Definition netlink_add_domain_route_rule (src_ip dst_ip : str) (table priority : Z)
    : ST K str unit :=
  src ← parse_or (parse_ipv4 src_ip) ("invalid domain-route src IP " ++ src_ip);
  dst ← parse_or (parse_ipv4 dst_ip) ("invalid domain-route dst IP " ++ dst_ip);
  tolerate is_already_exists (of_string "failed to add domain-route rule")
    (nl_rule_add (from_to_rule src dst 32 table priority)).

Definition netlink_remove_domain_route_rule (src_ip dst_ip : str) (table priority : Z)
    : ST K str unit :=
  src ← parse_or (parse_ipv4 src_ip) ("invalid domain-route src IP " ++ src_ip);
  dst ← parse_or (parse_ipv4 dst_ip) ("invalid domain-route dst IP " ++ dst_ip);
  let wide := negb (table <=? 255) in
  tolerate is_not_found (of_string "failed to remove domain-route rule")
    (nl_rule_del
       {| rm_src_len := 32; rm_dst_len := 32; rm_table := if wide then 0 else table;
          rm_attributes := (if wide then [RuleTable table] else [])
            ++ [RuleSource src; RuleDestination dst; RulePriority priority] |}).

(** One round of the loop of [list_domain_route_rules]. *)
Definition domain_route_rule (priority : Z) (rule : RuleMessage) : option (str * str * Z) :=
  match find_map attr_priority (rm_attributes rule) with
  | None => None
  | Some rule_priority =>
      if negb (rule_priority =? priority) then None
      else match show_ipv4 <$> find_map attr_source (rm_attributes rule),
                 show_ipv4 <$> find_map attr_destination (rm_attributes rule) with
           | Some src, Some dst => Some (src, dst, rule_table rule)
           | _, _ => None
           end
  end.

Definition netlink_list_domain_route_rules (priority : Z) : ST K str (list (str * str * Z)) :=
  ms ← drain nl_rule_get; mret (omap (domain_route_rule priority) ms).

(** One [conntrack -D flag src_ip]; a missing binary counts as success. *)
Definition conntrack_run (src_ip flag : str) : ST K str CommandOutput := fun k =>
  match run_command (of_string "conntrack") [of_string "-D"; flag; src_ip] k with
  | (Ok o, k) => (Ok o, k)
  | (Err IoNotFound, k) => (Ok {| co_success := true; co_stdout := []; co_stderr := [] |}, k)
  | (Err (IoOther e), k) => (Err ("failed to execute `conntrack`: " ++ e), k)
  end.

Definition conntrack_failed (o : CommandOutput) : bool :=
  negb (co_success o)
  && negb (contains_str (of_string "flow entries have been deleted") (co_stderr o)).

Definition netlink_flush_conntrack (src_ip : str) : ST K str unit :=
  src_output ← conntrack_run src_ip (of_string "-s");
  if conntrack_failed src_output then st_fail (of_string "`conntrack -D -s` failed")
  else
    dst_output ← conntrack_run src_ip (of_string "-d");
    if conntrack_failed dst_output then st_fail (of_string "`conntrack -D -d` failed")
    else mret tt.

Definition netlink_flush_route_cache : ST K str unit := mret tt.

Definition netlink_check_tools_available : ST K str unit :=
  bail (of_string "netlink socket not working") nl_link_get.

Definition netlink_add_interface_alias (interface ip : str) (prefix : Z) : ST K str unit :=
  addr ← parse_or (parse_ipv4 ip) ("invalid alias IP " ++ ip);
  index ← link_index interface;
  tolerate is_already_exists (of_string "failed to add alias") (nl_address_add index addr prefix).

Definition alias_matches (addr : Ipv4Addr) (prefix : Z) (msg : AddressMessage) : bool :=
  (am_prefix_len msg =? prefix)
  && (bool_decide (am_local msg = Some addr) || bool_decide (am_address msg = Some addr)).

Definition netlink_remove_interface_alias (interface ip : str) (prefix : Z) : ST K str unit :=
  addr ← parse_or (parse_ipv4 ip) ("invalid alias IP " ++ ip);
  index ← link_index interface;
  m ← search_dump (alias_matches addr prefix) (nl_address_get index);
  match m with
  | Some msg => bail (of_string "failed to remove alias") (nl_address_del index msg)
  | None => mret tt
  end.

Definition alias_entry (msg : AddressMessage) : option (str * Z) :=
  let ip := match am_local msg with Some v => Some v | None => am_address msg end in
  v ← ip; Some (show_ipv4 v, am_prefix_len msg).

Definition netlink_list_interface_aliases (interface : str) : ST K str (list (str * Z)) :=
  index ← link_index interface;
  ms ← drain (nl_address_get index); mret (omap alias_entry ms).

Definition netlink_add_neigh_proxy (ip interface : str) : ST K str unit :=
  addr ← parse_or (parse_ipv4 ip) ("invalid neigh-proxy IP " ++ ip);
  index ← link_index interface;
  bail (of_string "failed to add neigh proxy") (nl_neigh_add_proxy index addr).

Definition netlink_remove_neigh_proxy (ip interface : str) : ST K str unit :=
  addr ← parse_or (parse_ipv4 ip) ("invalid neigh-proxy IP " ++ ip);
  index ← link_index interface;
  tolerate nl_enoent (of_string "failed to remove neigh proxy")
    (nl_neigh_del_proxy {| nm_ifindex := index; nm_destination := Some addr |}).

Definition netlink_list_neigh_proxies (interface : str) : ST K str (list str) :=
  index ← link_index interface;
  ms ← drain nl_neigh_get_proxies;
  mret (omap (fun msg => if nm_ifindex msg =? index
                         then show_ipv4 <$> neigh_destination msg else None) ms).

Definition netlink_add_host_route (ip interface : str) (pref_src : Ipv4Addr) : ST K str unit :=
  addr ← parse_or (parse_ipv4 ip) ("invalid host-route IP " ++ ip);
  index ← link_index interface;
  bail (of_string "failed to add host route")
    (nl_route_add true (build_host_route addr index pref_src)).

Definition netlink_remove_host_route (ip interface : str) : ST K str unit :=
  addr ← parse_or (parse_ipv4 ip) ("invalid host-route IP " ++ ip);
  index ← link_index interface;
  r ← search_dump (fun route => is_removable_host_route route addr index) nl_route_get;
  match r with
  | Some route => bail (of_string "failed to remove host route") (nl_route_del route)
  | None => mret tt
  end.

#[export] Instance netlink_router : PolicyRouter K := {|
  ip_rules := nl_rules;
  enable_ip_forwarding := netlink_enable_ip_forwarding;
  add_route_table := netlink_add_route_table;
  remove_route_table := netlink_remove_route_table;
  has_route_table := netlink_has_route_table;
  add_ip_rule := netlink_add_ip_rule;
  remove_ip_rule := netlink_remove_ip_rule;
  list_wardnet_rules := netlink_list_wardnet_rules;
  add_switchback_rule := netlink_add_switchback_rule;
  remove_switchback_rule := netlink_remove_switchback_rule;
  list_switchback_rules := netlink_list_switchback_rules;
  add_domain_route_rule := netlink_add_domain_route_rule;
  remove_domain_route_rule := netlink_remove_domain_route_rule;
  list_domain_route_rules := netlink_list_domain_route_rules;
  flush_conntrack := netlink_flush_conntrack;
  flush_route_cache := netlink_flush_route_cache;
  check_tools_available := netlink_check_tools_available;
  add_interface_alias := netlink_add_interface_alias;
  remove_interface_alias := netlink_remove_interface_alias;
  list_interface_aliases := netlink_list_interface_aliases;
  set_proxy_arp := netlink_set_proxy_arp;
  add_neigh_proxy := netlink_add_neigh_proxy;
  remove_neigh_proxy := netlink_remove_neigh_proxy;
  list_neigh_proxies := netlink_list_neigh_proxies;
  add_host_route := netlink_add_host_route;
  remove_host_route := netlink_remove_host_route;
|}.

End netlink_router.

(** ** What the kernel documents

    A rule as the kernel dumps it, and the rules a delete request selects: the
    table from the attribute if there is one, 0 for any; a zero prefix length
    and a missing priority for any. *)

Definition rule_dump (r : IpRule) : RuleMessage :=
  {| rm_src_len := match ru_src r with Some (_, len) => len | None => 0 end;
     rm_dst_len := match ru_dst r with Some (_, len) => len | None => 0 end;
     rm_table := if ru_table r <=? 255 then ru_table r else 252;
     rm_attributes :=
       [RuleTable (ru_table r)]
       ++ (if ru_priority r =? 0 then [] else [RulePriority (ru_priority r)])
       ++ match ru_dst r with Some (a, _) => [RuleDestination a] | None => [] end
       ++ match ru_src r with Some (a, _) => [RuleSource a] | None => [] end |}.

Definition prefix_selects (len : Z) (addr : option Ipv4Addr) (p : Prefix) : Prop :=
  len = 0 \/ exists a, addr = Some a /\ p = Some (a, len).

Definition rule_selects (m : RuleMessage) (r : IpRule) : Prop :=
  prefix_selects (rm_src_len m) (find_map attr_source (rm_attributes m)) (ru_src r)
  /\ prefix_selects (rm_dst_len m) (find_map attr_destination (rm_attributes m)) (ru_dst r)
  /\ (rule_table m = 0 \/ rule_table m = ru_table r)
  /\ (forall p, find_map attr_priority (rm_attributes m) = Some p -> p = ru_priority r).

Definition keeps_rules {K A} `{Netlink K} (f : K -> A * K) : Prop :=
  forall k, nl_rules (snd (f k)) = nl_rules k.

Class NetlinkLaws (K : Type) `{Netlink K} : Prop := {
  nl_rules_wf k : Forall rule_wf (nl_rules k);
  (** RTM_NEWRULE with NLM_F_EXCL *)
  nl_rule_add_law r k : rule_wf r ->
    let '(res, k') := nl_rule_add r k in
    match res with
    | Ok _ => nl_rules k' ≡ₚ r :: nl_rules k
    | Err e => nl_rules k' = nl_rules k /\ (is_already_exists e = true -> r ∈ nl_rules k)
    end;
  (** RTM_DELRULE *)
  nl_rule_del_law m k :
    let '(res, k') := nl_rule_del m k in
    match res with
    | Ok _ => exists r, rule_selects m r /\ nl_rules k ≡ₚ r :: nl_rules k'
    | Err e => nl_rules k' = nl_rules k /\
                (is_not_found e = true -> forall r, r ∈ nl_rules k -> ~ rule_selects m r)
    end;
  nl_rule_get_law k :
    let '((ms, e), k') := nl_rule_get k in
    nl_rules k' = nl_rules k /\ (e = None -> ms = rule_dump <$> nl_rules k);
  nl_link_index_rules i : keeps_rules (nl_link_index i);
  nl_link_get_rules : keeps_rules nl_link_get;
  nl_route_add_rules b m : keeps_rules (nl_route_add b m);
  nl_route_del_rules m : keeps_rules (nl_route_del m);
  nl_route_get_rules : keeps_rules nl_route_get;
  fs_read_rules p : keeps_rules (fs_read p);
  fs_write_rules p v : keeps_rules (fs_write p v);
  run_command_rules c a : keeps_rules (run_command c a);
  (** the dump of routes, and RTM_DELROUTE of a message taken from it *)
  nl_route_get_law k :
    let '((ms, e), k') := nl_route_get k in
    nl_routes k' = nl_routes k /\ forall m, m ∈ ms -> m ∈ nl_routes k;
  nl_route_del_law m k : m ∈ nl_routes k ->
    let '(res, k') := nl_route_del m k in
    match res with
    | Ok _ => nl_routes k ≡ₚ m :: nl_routes k'
    | Err _ => nl_routes k' = nl_routes k
    end;
  nl_link_index_routes i k : nl_routes (snd (nl_link_index i k)) = nl_routes k;
}.

Class NetlinkReliable (K : Type) `{Netlink K} : Prop := {
  nl_rule_add_err r k e k' : nl_rule_add r k = (Err e, k') -> is_already_exists e = true;
  nl_rule_del_err m k e k' : nl_rule_del m k = (Err e, k') -> is_not_found e = true;
  nl_rule_get_err k ms e k' : nl_rule_get k = ((ms, e), k') -> e = None;
}.

(** ** The implementation discharges the interface *)

Lemma mk_prefix_wf a len : is_u32 a -> 0 <= len <= 32 -> prefix_wf (mk_prefix a len).
Proof. intros Ha Hl. unfold mk_prefix. case_match; simpl; [done|]. breflect. split; [done | lia]. Qed.

Lemma parse_ipv4_u32 s ip : parse_ipv4 s = Some ip -> is_u32 ip.
Proof. by intros [_ H]%show_parse_ipv4. Qed.

Lemma parse_ipv4_cidr_range c dst len : parse_ipv4_cidr c = Ok (dst, len) ->
  is_u32 dst /\ 0 <= len <= 32.
Proof.
  unfold parse_ipv4_cidr. intros H. repeat case_match; simplify_eq; breflect.
  - split; [by eapply parse_ipv4_u32|].
    match goal with E : parse_uint _ _ = Some _ |- _ =>
      apply parse_uint_range in E; [lia | done] end.
  - split; [by eapply parse_ipv4_u32 | lia].
Qed.

Lemma from_rule_wf ip t p : is_u32 ip -> is_u32 t -> is_u32 p -> rule_wf (from_rule ip t p).
Proof. intros. unfold rule_wf. simpl. split_and!; try apply mk_prefix_wf; try done; lia. Qed.

Lemma from_to_rule_wf ip dst len t p : is_u32 ip -> is_u32 dst -> 0 <= len <= 32 ->
  is_u32 t -> is_u32 p -> rule_wf (from_to_rule ip dst len t p).
Proof. intros. unfold rule_wf. simpl. split_and!; try apply mk_prefix_wf; try done; lia. Qed.

Lemma u32_main : is_u32 RT_TABLE_MAIN.
Proof. unfold is_u32, U32_MAX, RT_TABLE_MAIN. lia. Qed.

#[export] Hint Resolve parse_ipv4_u32 from_rule_wf from_to_rule_wf u32_main : wardnet.

Lemma mk_prefix_select a len p :
  prefix_selects len (Some a) p <-> len = 0 \/ p = mk_prefix a len.
Proof.
  unfold prefix_selects, mk_prefix. destruct (Z.eqb_spec len 0); naive_solver.
Qed.

Lemma mk_prefix_select_pos a len p : len <> 0 ->
  prefix_selects len (Some a) p <-> p = mk_prefix a len.
Proof. intros. rewrite mk_prefix_select. naive_solver. Qed.

Section netlink_laws.
Context {K : Type} {NL : Netlink K} {LW : NetlinkLaws K}.

Lemma bind_run {A B} (m : ST K str A) (k : A -> ST K str B) w :
  (m ≫= k) w = match m w with (Ok a, w') => k a w' | (Err e, w') => (Err e, w') end.
Proof. done. Qed.

(** Adding through [tolerate]: present afterwards, or nothing happened. *)
Lemma tolerate_add what r k : rule_wf r ->
  let '(res, k') := tolerate is_already_exists what (nl_rule_add r) k in
  match res with
  | Ok _ => rule_added r (nl_rules k) (nl_rules k')
  | Err _ => nl_rules k' = nl_rules k
  end.
Proof.
  intros Hr. unfold tolerate. pose proof (nl_rule_add_law r k Hr) as H.
  destruct (nl_rule_add r k) as [[u|e] k']; [by right|]. destruct H as [H1 H2].
  destruct (is_already_exists e); [left; auto | done].
Qed.

Lemma tolerate_del what m k :
  let '(res, k') := tolerate is_not_found what (nl_rule_del m) k in
  match res with
  | Ok _ => rule_removed (rule_selects m) (nl_rules k) (nl_rules k')
            \/ nl_rules k' = nl_rules k /\ forall r, r ∈ nl_rules k -> ~ rule_selects m r
  | Err _ => nl_rules k' = nl_rules k
  end.
Proof.
  unfold tolerate. pose proof (nl_rule_del_law m k) as H.
  destruct (nl_rule_del m k) as [[u|e] k']; [by left|]. destruct H as [H1 H2].
  destruct (is_not_found e); auto.
Qed.

Lemma bail_del what m k :
  let '(res, k') := bail what (nl_rule_del m) k in
  match res with
  | Ok _ => rule_removed (rule_selects m) (nl_rules k) (nl_rules k')
  | Err _ => nl_rules k' = nl_rules k
  end.
Proof.
  unfold bail. pose proof (nl_rule_del_law m k) as H.
  destruct (nl_rule_del m k) as [[u|e] k']; [done | by destruct H].
Qed.

Lemma drain_rules k :
  let '(res, k') := drain nl_rule_get k in
  nl_rules k' = nl_rules k /\ forall ms, res = Ok ms -> ms = rule_dump <$> nl_rules k.
Proof.
  unfold drain. pose proof (nl_rule_get_law k) as H.
  destruct (nl_rule_get k) as [[ms [e|]] k']; destruct H as [H1 H2]; split; try done.
  intros ? [= <-]. by apply H2.
Qed.

(** What each request selects. *)
Lemma remove_msg_selects ip table prio r :
  rule_selects {| rm_src_len := 32; rm_dst_len := 0;
                  rm_table := if 255 <? table then 0 else table;
                  rm_attributes := [RuleSource ip; RulePriority prio]
                    ++ (if 255 <? table then [RuleTable table] else []) |} r
  <-> from_selects ip table prio r.
Proof.
  unfold rule_selects, from_selects, rule_table. simpl.
  rewrite mk_prefix_select_pos by lia. unfold prefix_selects.
  destruct (Z.ltb_spec 255 table); simpl; naive_solver lia.
Qed.

Lemma domain_msg_selects src dst table prio r :
  let wide := negb (table <=? 255) in
  rule_selects {| rm_src_len := 32; rm_dst_len := 32; rm_table := if wide then 0 else table;
                  rm_attributes := (if wide then [RuleTable table] else [])
                    ++ [RuleSource src; RuleDestination dst; RulePriority prio] |} r
  <-> from_to_selects src dst 32 table prio r.
Proof.
  intros wide. subst wide. unfold rule_selects, from_to_selects, from_selects, rule_table.
  destruct (Z.leb_spec table 255); simpl; rewrite !mk_prefix_select_pos by lia; naive_solver lia.
Qed.

Lemma switchback_msg_selects src dst len prio r :
  rule_selects {| rm_src_len := 32; rm_dst_len := len; rm_table := RT_TABLE_MAIN;
                  rm_attributes := [RuleSource src; RuleDestination dst; RulePriority prio] |} r
  <-> from_to_selects src dst len RT_TABLE_MAIN prio r.
Proof.
  unfold rule_selects, from_to_selects, from_selects, rule_table. simpl.
  rewrite mk_prefix_select_pos by lia. rewrite mk_prefix_select. unfold RT_TABLE_MAIN.
  naive_solver lia.
Qed.

Lemma rule_removed_iff sel sel' l l' : (forall r, sel r <-> sel' r) ->
  rule_removed sel l l' -> rule_removed sel' l l'.
Proof. unfold rule_removed. naive_solver. Qed.

(** What each listing reports of a dumped rule. *)
Lemma wardnet_rule_dump r : rule_wf r -> wardnet_rule (rule_dump r) = wardnet_entry r.
Proof.
  intros _. unfold wardnet_rule, wardnet_entry, rule_dump. simpl.
  destruct (ru_table r <? 100); [done|].
  destruct (Z.eqb_spec (ru_priority r) 0) as [Hp|], (ru_dst r) as [[]|], (ru_src r) as [[]|];
    simpl; congruence.
Qed.

Lemma switchback_rule_dump r : rule_wf r -> switchback_rule (rule_dump r) = switchback_entry r.
Proof.
  intros _. unfold switchback_rule, switchback_entry, rule_dump, rule_table. simpl.
  destruct (ru_table r =? RT_TABLE_MAIN); [|done].
  destruct (ru_priority r =? 0), (ru_dst r) as [[]|], (ru_src r) as [[]|]; done.
Qed.

Lemma domain_route_rule_dump p r : rule_wf r ->
  domain_route_rule p (rule_dump r) = domain_entry p r.
Proof.
  intros _. unfold domain_route_rule, domain_entry, rule_dump, rule_table. simpl.
  destruct (ru_priority r =? 0), (ru_dst r) as [[]|], (ru_src r) as [[]|];
    simpl; try done; destruct (ru_priority r =? p); done.
Qed.

Lemma omap_dump {B} (f : RuleMessage -> option B) (g : IpRule -> option B) (l : list IpRule) :
  (forall r, rule_wf r -> f (rule_dump r) = g r) -> Forall rule_wf l ->
  omap f (rule_dump <$> l) = omap g l.
Proof.
  intros Hfg. unfold omap, fmap. induction 1 as [|r l Hr _ IH]; [done|]. simpl.
  rewrite Hfg by done. by rewrite IH.
Qed.

Lemma list_law {B} (f : RuleMessage -> option B) (g : IpRule -> option B) k :
  (forall r, rule_wf r -> f (rule_dump r) = g r) ->
  let '(res, k') := (ms ← drain nl_rule_get; mret (omap f ms)) k in
  nl_rules k' = nl_rules k /\ forall l, res = Ok l -> l = omap g (nl_rules k).
Proof.
  intros Hfg. pose proof (drain_rules k) as H. rewrite bind_run.
  destruct (drain nl_rule_get k) as [[ms|e] k']; destruct H as [H1 H2]; [|done].
  split; [done|]. intros ? [= <-]. rewrite (H2 ms eq_refl). apply omap_dump; [done|].
  apply nl_rules_wf.
Qed.

(** Framing. *)
Lemma keeps_bail {A} what (m : ST K NlError A) : keeps_rules m -> keeps_rules (bail what m).
Proof. intros H k. specialize (H k). unfold bail. by destruct (m k) as [[]]. Qed.

Lemma keeps_tolerate b what (m : ST K NlError unit) :
  keeps_rules m -> keeps_rules (tolerate b what m).
Proof.
  intros H k. specialize (H k). unfold tolerate. destruct (m k) as [[|e]]; [done|].
  by destruct (b e).
Qed.

Lemma nl_keeps_bind {A B} (m : ST K str A) (f : A -> ST K str B) :
  keeps_rules m -> (forall a, keeps_rules (f a)) -> keeps_rules (m ≫= f).
Proof.
  intros Hm Hf k. rewrite bind_run. specialize (Hm k).
  destruct (m k) as [[a|e] k']; simpl in *; [by rewrite Hf | done].
Qed.

Lemma nl_keeps_lift {A} (r : result A str) : keeps_rules (K := K) (st_lift r).
Proof. done. Qed.

Lemma keeps_search {A} f (get : K -> Dump A * K) :
  keeps_rules get -> keeps_rules (search_dump f get).
Proof.
  intros H k. specialize (H k). unfold search_dump. destruct (get k) as [[ms e] k'].
  repeat case_match; simpl in *; simplify_eq; done.
Qed.

Lemma keeps_link_index i : keeps_rules (link_index i).
Proof.
  apply nl_keeps_bind; [apply keeps_bail, nl_link_index_rules | intros a; apply nl_keeps_lift].
Qed.

Lemma keeps_run_conntrack s f : keeps_rules (conntrack_run s f).
Proof.
  intros k. unfold conntrack_run.
  pose proof (run_command_rules (of_string "conntrack") [of_string "-D"; f; s] k) as H.
  by destruct (run_command _ _ k) as [[o|[]] k'].
Qed.

Lemma keeps_sysctl path want setting what : keeps_rules (set_sysctl path want setting what).
Proof.
  intros k. unfold set_sysctl. cbv zeta.
  pose proof (fs_read_rules path k) as H1. destruct (fs_read path k) as [v k1]. simpl in H1.
  destruct (match v with Ok _ => _ | Err _ => _ end); [done|].
  pose proof (fs_write_rules path want k1) as H2.
  destruct (fs_write path _ k1) as [[u|e] k2]; simpl in H2; [simpl; congruence|].
  pose proof (run_command_rules (of_string "sysctl") [of_string "-w"; setting] k2) as H3.
  destruct (run_command _ _ k2) as [[o|e'] k3]; simpl in *; [case_match|]; simpl; congruence.
Qed.

Lemma keeps_flush s : keeps_rules (netlink_flush_conntrack s).
Proof.
  apply nl_keeps_bind; [apply keeps_run_conntrack|]. intros o. case_match; [done|].
  apply nl_keeps_bind; [apply keeps_run_conntrack|]. intros o'. by case_match.
Qed.

Lemma keeps_add_table i t : keeps_rules (netlink_add_route_table i t).
Proof.
  apply nl_keeps_bind; [apply keeps_link_index|]. intros x.
  destruct (table_header t). apply keeps_tolerate, nl_route_add_rules.
Qed.

Lemma keeps_remove_table t : keeps_rules (netlink_remove_route_table t).
Proof.
  apply nl_keeps_bind; [apply keeps_search, nl_route_get_rules|]. intros [m|]; [|done].
  apply (nl_route_del_rules m).
Qed.

Lemma keeps_has_table t : keeps_rules (netlink_has_route_table t).
Proof. by apply nl_keeps_bind; [apply keeps_search, nl_route_get_rules|]. Qed.

Local Ltac step_parse :=
  rewrite bind_run; unfold parse_or, st_lift; simpl;
  match goal with |- context [ok_or ?o _] => destruct o eqn:?; simpl; [|done] end.

#[export] Instance netlink_router_laws : PolicyRouterLaws K.
Proof.
  split; simpl.
  - apply nl_rules_wf.
  - intros s t p n Ht Hp. unfold netlink_add_ip_rule. step_parse.
    pose proof (tolerate_add (of_string "failed to add ip rule") (from_rule z t p) n) as H.
    destruct (tolerate _ _ _ n) as [[] n']; [exists z; split; [done|]|]; apply H; eauto with wardnet.
  - intros s t p n. unfold netlink_remove_ip_rule. step_parse.
    match goal with |- context [nl_rule_del ?m] =>
      pose proof (bail_del (of_string "failed to remove ip rule") m n) as H end.
    destruct (bail _ _ n) as [[] n']; [|done]. exists z. split; [done|].
    eapply rule_removed_iff, H. intros r. by apply remove_msg_selects.
  - intros n. apply list_law, wardnet_rule_dump.
  - intros s c p n Hp. unfold netlink_add_switchback_rule. step_parse.
    rewrite bind_run. unfold st_lift. destruct (parse_ipv4_cidr c) as [[dst len]|] eqn:Ec; [|done].
    apply parse_ipv4_cidr_range in Ec as Hr. destruct Hr.
    pose proof (tolerate_add (of_string "failed to add switchback rule")
                  (from_to_rule z dst len RT_TABLE_MAIN p) n) as H'.
    destruct (tolerate _ _ _ n) as [[] n'];
      [exists z, dst, len; split_and!; [done..|]|]; apply H'; eauto with wardnet.
  - intros s c p n. unfold netlink_remove_switchback_rule. step_parse.
    rewrite bind_run. unfold st_lift. destruct (parse_ipv4_cidr c) as [[dst len]|] eqn:Ec; [|done].
    match goal with |- context [nl_rule_del ?m] =>
      pose proof (tolerate_del (of_string "failed to remove switchback rule") m n) as H' end.
    destruct (tolerate _ _ _ n) as [[] n']; [|done]. exists z, dst, len. split_and!; [done..|].
    destruct H' as [H'|[H1 H2]]; [left|right].
    + eapply rule_removed_iff, H'. intros r. apply switchback_msg_selects.
    + split; [done|]. intros r Hr. rewrite <- switchback_msg_selects. by apply H2.
  - intros n. apply list_law, switchback_rule_dump.
  - intros s d t p n Ht Hp. unfold netlink_add_domain_route_rule. step_parse. step_parse.
    pose proof (tolerate_add (of_string "failed to add domain-route rule")
                  (from_to_rule z z0 32 t p) n) as H'.
    destruct (tolerate _ _ _ n) as [[] n'];
      [exists z, z0; split_and!; [done..|]|]; (apply H', from_to_rule_wf; eauto with wardnet; lia).
  - intros s d t p n. unfold netlink_remove_domain_route_rule. step_parse. step_parse.
    match goal with |- context [nl_rule_del ?m] =>
      pose proof (tolerate_del (of_string "failed to remove domain-route rule") m n) as H' end.
    destruct (tolerate _ _ _ n) as [[] n']; [|done]. exists z, z0. split_and!; [done..|].
    destruct H' as [H'|[H1 H2]]; [left|right].
    + eapply rule_removed_iff, H'. intros r. by apply domain_msg_selects.
    + split; [done|]. intros r Hr. rewrite <- domain_msg_selects. by apply H2.
  - intros p n. apply list_law. intros r. apply domain_route_rule_dump.
  - apply keeps_sysctl.
  - apply keeps_add_table.
  - apply keeps_remove_table.
  - apply keeps_has_table.
  - apply keeps_flush.
  - done.
  - apply keeps_bail, nl_link_get_rules.
Qed.

Lemma tolerate_ok benign what (m : ST K NlError unit) k :
  (forall e k', m k = (Err e, k') -> benign e = true) -> is_ok (fst (tolerate benign what m k)) = true.
Proof.
  intros H. unfold tolerate. destruct (m k) as [[u|e] k']; [done|]. by rewrite (H e k' eq_refl).
Qed.

Local Ltac run_parse :=
  repeat (rewrite bind_run; unfold parse_or, st_lift;
    match goal with H : ?x = _ |- context [?x] => rewrite H; simpl end).

#[export] Instance netlink_router_reliable : NetlinkReliable K -> PolicyRouterReliable K.
Proof.
  intros NR.
  assert (Hlist : forall B (f : RuleMessage -> option B) k,
    is_ok (fst ((ms ← drain nl_rule_get; mret (omap f ms)) k)) = true).
  { intros B f k. rewrite bind_run. unfold drain.
    destruct (nl_rule_get k) as [[ms e] k'] eqn:E. by rewrite (nl_rule_get_err _ _ _ _ E). }
  split; simpl; try (intros; apply Hlist).
  - intros s t p n ip Hs Ht Hp. unfold netlink_add_ip_rule. run_parse.
    apply tolerate_ok. intros; by eapply nl_rule_add_err.
  - intros s t p n ip Hs (r & Hr & Hsel). unfold netlink_remove_ip_rule. run_parse.
    unfold bail. match goal with |- context [nl_rule_del ?m n] =>
      pose proof (nl_rule_del_law m n) as H; destruct (nl_rule_del m n) as [[u|e] n'] eqn:E end;
      [done|].
    exfalso. eapply (proj2 H); [by eapply nl_rule_del_err | done |]. by apply remove_msg_selects.
  - intros s c p n ip [dst len] Hs Hc Hp. unfold netlink_add_switchback_rule. run_parse.
    apply tolerate_ok. intros; by eapply nl_rule_add_err.
  - intros s c p n ip [dst len] Hs Hc. unfold netlink_remove_switchback_rule. run_parse.
    apply tolerate_ok. intros; by eapply nl_rule_del_err.
  - intros s d t p n ip dst Hs Hd Ht Hp. unfold netlink_add_domain_route_rule. run_parse.
    apply tolerate_ok. intros; by eapply nl_rule_add_err.
  - intros s d t p n ip dst Hs Hd. unfold netlink_remove_domain_route_rule. run_parse.
    apply tolerate_ok. intros; by eapply nl_rule_del_err.
Qed.

(** Removing a device's host route deletes at most one route of the box, and
    that one is a link-scope /32 for the device's address in the [main] table:
    the [local]-table route that delivers the daemon's own address to itself,
    which has the same destination and interface, is never the one deleted. *)
Theorem remove_host_route_spares_local ip interface k :
  let k' := snd (netlink_remove_host_route ip interface k) in
  nl_routes k' = nl_routes k \/
  exists route addr, parse_ipv4 ip = Some addr /\ nl_routes k ≡ₚ route :: nl_routes k' /\
    rt_dst_len route = 32 /\ rt_scope route = ScopeLink /\ route_table route = RT_TABLE_MAIN /\
    RouteDestination addr ∈ rt_attributes route.
Proof.
  destruct (netlink_remove_host_route ip interface k) as [res k'] eqn:E. simpl. revert E.
  unfold netlink_remove_host_route. rewrite bind_run. unfold parse_or at 1, st_lift.
  destruct (parse_ipv4 ip) as [addr|] eqn:Ea; simpl; [|intros [= <- <-]; by left].
  rewrite bind_run. unfold link_index. rewrite bind_run. unfold bail at 1.
  pose proof (nl_link_index_routes interface k) as Hi.
  destruct (nl_link_index interface k) as [[[index|]|e] k1]; simpl in Hi |- *;
    [|intros [= <- <-]; by left..].
  rewrite bind_run. unfold search_dump. pose proof (nl_route_get_law k1) as Hg.
  destruct (nl_route_get k1) as [[ms e] k2]. destruct Hg as [Hk2 Hms].
  destruct (List.find _ ms) as [route|] eqn:Ef;
    [|destruct e; intros [= <- <-]; left; simpl; congruence].
  apply find_Some_elem in Ef as [Hin Hrem]. unfold bail.
  pose proof (nl_route_del_law route k2) as Hd. rewrite Hk2, Hi in Hd.
  specialize (Hd ltac:(rewrite <- Hi; by apply Hms)).
  destruct (nl_route_del route k2) as [[u|e2] k3]; intros [= <- <-]; [right | by left].
  exists route, addr. unfold is_removable_host_route in Hrem. cbv zeta in Hrem.
  destruct (Z.eqb_spec (rt_dst_len route) 32); [simpl in Hrem | done].
  case_bool_decide; [simpl in Hrem | done].
  destruct (Z.eqb_spec (route_table route) RT_TABLE_MAIN); [simpl in Hrem | done].
  split_and!; try done. apply andb_true_iff in Hrem as [Hrem _].
  apply existsb_exists in Hrem as (a & Ha%list_elem_of_In & Hd').
  destruct a; try done. by apply Z.eqb_eq in Hd' as ->.
Qed.

End netlink_laws.

Lemma rule_added_elem r l l' x : rule_added r l l' -> x ∈ l' <-> x = r \/ x ∈ l.
Proof. intros [[H ->]| ->]; [naive_solver | by rewrite elem_of_cons]. Qed.

Lemma rule_removed_elem sel l l' x : rule_removed sel l l' -> x ∈ l' -> x ∈ l.
Proof. intros (r & _ & ->) Hx. set_solver. Qed.

Lemma rule_removed_keeps sel l l' x : rule_removed sel l l' -> x ∈ l -> ~ sel x -> x ∈ l'.
Proof. intros (r & Hr & ->) [->|Hx]%elem_of_cons Hs; [done | done]. Qed.

Lemma rule_removed_length sel l l' : rule_removed sel l l' -> length l = S (length l').
Proof. intros (r & _ & Hp). by rewrite (Permutation_length Hp). Qed.

(** ** The text of a CIDR *)

Lemma slash_free_ipv4 ip : "/"%char ∉ show_ipv4 ip.
Proof.
  unfold show_ipv4. destruct (octets ip) as [[[a b] c] d] eqn:E.
  destruct (octets_bounds _ _ _ _ _ E) as (Ha & Hb & Hc & Hd).
  assert (Hn : forall n, is_u8 n -> "/"%char ∉ show_u8 n).
  { intros n (_ & H & _)%show_u8_digits. by apply digits_no. }
  rewrite !not_elem_of_app. split_and!; auto; vm_compute; set_solver.
Qed.

Lemma parse_cidr_show dst len : is_u32 dst -> 0 <= len <= 32 ->
  parse_ipv4_cidr (show_ipv4 dst ++ "/" ++ show_u8 len) = Ok (dst, len).
Proof.
  intros Hd Hl. unfold parse_ipv4_cidr, split_once.
  replace (split_at_char _ _) with (Some (show_ipv4 dst, show_u8 len)).
  2:{ symmetry. apply split_at_char_Some. split; [done | apply slash_free_ipv4]. }
  rewrite parse_show_ipv4 by done.
  destruct (show_u8_digits len) as [-> _]; [unfold is_u8, U8_MAX; lia|].
  by rewrite (proj2 (Z.ltb_ge _ _)) by lia.
Qed.
