(* ===== verification/RoutingTypes.v ===== *)
(** * Routing and zone data

    [wardnet-common/src/routing.rs], [network_zone.rs], the tunnel and device
    rows the routing service and the zone enforcer read ([tunnel.rs],
    [device.rs]), the domain targets of [routing_profile.rs], and the traits
    those services work against: firewall, repositories, tunnel lifecycle.  A
    UUID is its 128-bit value; [Uuid::parse_str] is the class [UuidParse]. *)

From S2P Require Import Prelude RustStr Net Auth PolicyRouter.

Abbreviation Uuid := Z.

(** [s.parse::<Uuid>()] *)
Class UuidParse : Type := { parse_uuid : str -> option Uuid }.

(** ** [routing.rs] *)

Inductive RoutingTarget : Type :=
| Tunnel (tunnel_id : Uuid)
| Direct
| Default.

#[export] Instance RoutingTarget_eq_dec : EqDecision RoutingTarget.
Proof. solve_decision. Defined.

Definition from_default_policy `{UuidParse} (policy : str) : RoutingTarget :=
  if bool_decide (policy = of_string "direct") then Direct
  else match parse_uuid policy with
       | Some tunnel_id => Tunnel tunnel_id
       | None => Direct
       end.

Inductive RuleCreator : Type := CreatedByAdmin | CreatedByUser.

Record RoutingRule : Type := {
  rr_device_id : Uuid;
  rr_target : RoutingTarget;
  rr_created_by : RuleCreator;
}.

(** [routing_profile.rs] *)
Inductive DomainRoutingTarget : Type :=
| DomainTunnel (tunnel_id : Uuid)
| DomainDirect.

Definition to_storage (t : DomainRoutingTarget) : str * option Uuid :=
  match t with
  | DomainTunnel tunnel_id => (of_string "tunnel", Some tunnel_id)
  | DomainDirect => (of_string "direct", None)
  end.

Definition from_storage (kind : str) (tunnel_id : option Uuid) : option DomainRoutingTarget :=
  if bool_decide (kind = of_string "tunnel") then DomainTunnel <$> tunnel_id
  else if bool_decide (kind = of_string "direct") then Some DomainDirect
  else None.

(** ** [tunnel.rs], [device.rs] *)

Inductive TunnelStatus : Type := Up | Down | Connecting | Reconnecting.

#[export] Instance TunnelStatus_eq_dec : EqDecision TunnelStatus.
Proof. solve_decision. Defined.

(** The columns of a tunnel row the services here look at. *)
Record TunnelRow : Type := {
  tn_id : Uuid;
  tn_interface_name : str;
  tn_status : TunnelStatus;
}.

Record TunnelConfig : Type := {
  tc_dns : list str;
  tc_override_default_dns : bool;
}.

Record Device : Type := {
  dv_id : Uuid;
  dv_mac : str;
  dv_last_ip : str;
  dv_zone_id : Uuid;
}.

(** ** [network_zone.rs] *)

Inductive AllowedTargetKind : Type := KindDirect | KindTunnel.

#[export] Instance AllowedTargetKind_eq_dec : EqDecision AllowedTargetKind.
Proof. solve_decision. Defined.

Definition of_target (target : RoutingTarget) : option AllowedTargetKind :=
  match target with
  | Direct => Some KindDirect
  | Tunnel _ => Some KindTunnel
  | Default => None
  end.

Definition kind_as_str (k : AllowedTargetKind) : str :=
  match k with KindDirect => of_string "direct" | KindTunnel => of_string "tunnel" end.

Inductive ZoneStance : Type := SharedSubnet | IsolateMembers.
Inductive ZoneProvenance : Type := System | Manual.

#[export] Instance ZoneStance_eq_dec : EqDecision ZoneStance.
Proof. solve_decision. Defined.
#[export] Instance ZoneProvenance_eq_dec : EqDecision ZoneProvenance.
Proof. solve_decision. Defined.

Record NetworkZone : Type := {
  z_id : Uuid;
  z_name : str;
  z_provenance : ZoneProvenance;
  z_isolation_stance : ZoneStance;
  z_allowed_targets : list AllowedTargetKind;
  z_member_isolation : bool;
  (** [subnet.cidr] *)
  z_subnet : option str;
  z_admin_ui_reachable : bool;
  z_is_default : bool;
  z_is_default_for_new : bool;
}.

Definition permits_kind (z : NetworkZone) (kind : AllowedTargetKind) : bool :=
  bool_decide (kind ∈ z_allowed_targets z).

(** ** The traits the services depend on *)

(** [routing/firewall.rs] *)
Record ZoneRules : Type := {
  allow_direct : bool;
  allow_tunnel : bool;
  zr_admin_ui_reachable : bool;
}.

Record ExceptionAllow : Type := {
  from_cidr : str;
  to_cidr : str;
  proto : str;
  port_start : Z;
  port_end : Z;
  bidirectional : bool;
}.

Record ZoneIsolationRules : Type := {
  allows : list ExceptionAllow;
  deny_pairs : list (str * str);
  member_isolation_subnets : list str;
  nat_exempt_pairs : list (str * str);
}.

#[export] Instance ZoneRules_eq_dec : EqDecision ZoneRules.
Proof. solve_decision. Defined.
#[export] Instance ExceptionAllow_eq_dec : EqDecision ExceptionAllow.
Proof. solve_decision. Defined.
#[export] Instance ZoneIsolationRules_eq_dec : EqDecision ZoneIsolationRules.
Proof. solve_decision. Defined.

Class FirewallManager (N : Type) : Type := {
  init_wardnet_table : ST N str unit;
  ensure_isolation_jumps : ST N str unit;
  flush_wardnet_table : ST N str unit;
  add_masquerade : str -> ST N str unit;
  cleanup_legacy_dns_redirects : ST N str unit;
  add_tcp_reset_reject : str -> ST N str unit;
  remove_tcp_reset_reject : str -> ST N str unit;
  apply_zone_rules : str -> ZoneRules -> str -> ST N str unit;
  remove_zone_rules : str -> ST N str unit;
  list_zone_rule_ips : ST N str (list str);
  apply_zone_isolation : ZoneIsolationRules -> ST N str unit;
  firewall_check_tools_available : ST N str unit;
}.

(** What the routing service asks of [DeviceRepository], [TunnelRepository],
    [NetworkZoneRepository], [SystemConfigRepository] and [TunnelService]. *)
Class RoutingDeps (N : Type) : Type := {
  rd_router :: PolicyRouter N;
  rd_firewall :: FirewallManager N;
  devices_find_all : ST N str (list Device);
  devices_find_by_id : Uuid -> ST N str (option Device);
  devices_find_all_rules : ST N str (list RoutingRule);
  devices_find_rule_for_device : Uuid -> ST N str (option RoutingRule);
  tunnels_find_by_id : Uuid -> ST N str (option TunnelRow);
  tunnels_find_config_by_id : Uuid -> ST N str (option TunnelConfig);
  zones_find_by_id : Uuid -> ST N str (option NetworkZone);
  config_get_default_policy : ST N str (option str);
  config_set_default_policy : str -> ST N str unit;
  get_tunnel : Uuid -> ST N str TunnelRow;
  bring_up_internal : Uuid -> ST N str unit;
}.

(** Only the policy router touches the kernel's [ip rule]s. *)
Class RoutingDepsLaws (N : Type) `{RoutingDeps N} : Prop := {
  rd_router_laws :: PolicyRouterLaws N;
  frames_init : frames init_wardnet_table;
  frames_jumps : frames ensure_isolation_jumps;
  frames_flush_table : frames flush_wardnet_table;
  frames_masquerade i : frames (add_masquerade i);
  frames_legacy : frames cleanup_legacy_dns_redirects;
  frames_add_rst s : frames (add_tcp_reset_reject s);
  frames_remove_rst s : frames (remove_tcp_reset_reject s);
  frames_fw_tools : frames firewall_check_tools_available;
  frames_find_all : frames devices_find_all;
  frames_find_by_id i : frames (devices_find_by_id i);
  frames_find_all_rules : frames devices_find_all_rules;
  frames_find_rule i : frames (devices_find_rule_for_device i);
  frames_tunnel_by_id i : frames (tunnels_find_by_id i);
  frames_tunnel_config i : frames (tunnels_find_config_by_id i);
  frames_zone_by_id i : frames (zones_find_by_id i);
  frames_get_policy : frames config_get_default_policy;
  frames_set_policy p : frames (config_set_default_policy p);
  frames_get_tunnel i : frames (get_tunnel i);
  frames_bring_up i : frames (bring_up_internal i);
}.

(** ** Services

    A method is a computation on the service's world that returns a result. *)

Section service_plumbing.
Context {W : Type}.

(** [expr?]: continue with the value or return the error. *)
Definition andthen {A B} (m : SM W (result A AppError)) (k : A -> SM W (result B AppError))
    : SM W (result B AppError) := fun w =>
  match m w with
  | (Ok a, w') => k a w'
  | (Err e, w') => (Err e, w')
  end.

(** [auth_context::require_admin()?] *)
Definition guard_admin {A} (ctx : option AuthContext) (m : SM W (result A AppError))
    : SM W (result A AppError) :=
  match require_admin ctx with
  | Ok _ => m
  | Err e => mret (Err e)
  end.

Definition ok_unit : SM W (result unit AppError) := mret (Ok tt).

End service_plumbing.

(** ** Lemmas *)

Section plumbing_laws.
Context {W : Type}.

Lemma keeps_andthen {A B} P (m : SM W (result A AppError)) (k : A -> SM W (result B AppError)) :
  sm_keeps P m -> (forall a, sm_keeps P (k a)) -> sm_keeps P (andthen m k).
Proof.
  intros Hm Hk w HP. specialize (Hm w HP). unfold andthen.
  destruct (m w) as [[a|e] w']; [by apply Hk | done].
Qed.

Lemma post_andthen {A B} (P : W -> Prop) (m : SM W (result A AppError))
    (k : A -> SM W (result B AppError)) (R : A -> W -> Prop) (Q : result B AppError -> W -> Prop) :
  sm_post P m (fun r w => match r with Ok a => R a w | Err e => Q (Err e) w end) ->
  (forall a, sm_post (R a) (k a) Q) -> sm_post P (andthen m k) Q.
Proof.
  intros Hm Hk w HP. specialize (Hm w HP). unfold andthen.
  destruct (m w) as [[a|e] w']; [by apply Hk | exact Hm].
Qed.

Lemma sm_keeps_guard {A} P ctx (m : SM W (result A AppError)) :
  sm_keeps P m -> sm_keeps P (guard_admin ctx m).
Proof. intros H. unfold guard_admin. case_match; [done | by apply sm_keeps_ret]. Qed.

End plumbing_laws.

Lemma from_default_policy_concrete `{UuidParse} policy : from_default_policy policy <> Default.
Proof. unfold from_default_policy. repeat case_match; done. Qed.

Lemma storage_roundtrip t : let '(kind, id) := to_storage t in from_storage kind id = Some t.
Proof. by destruct t. Qed.
