(* ===== verification/Routing.v ===== *)
(** * The routing service

    [wardnetd-services/src/routing/service.rs]: per-device policy routing.  The
    world [Routing] holds the mutex-protected [RoutingState], the cached default
    policy, the two DNS snapshots and the environment [N]: kernel, firewall,
    repositories and tunnel service, behind [RoutingDeps].  A failed call of the
    environment is a value the code branches on; what it logs is dropped.  A
    method's sections between lock acquisitions are definitions of their own
    ([apply_locked], [gc_expire], ...), so that the laws can interleave them.
    [HashMap] iteration follows [map_to_list]; sleeps have no effect here. *)

From S2P Require Import Prelude RustStr Net Auth DnsCache PolicyRouter RoutingTypes.

Definition SWITCHBACK_RULE_PRIORITY : Z := 1000.
Definition DOMAIN_ROUTE_RULE_PRIORITY : Z := 2000.
Definition DEVICE_RULE_PRIORITY : Z := 3000.
Definition MIN_DOMAIN_ROUTE_TTL_SECS : Z := 30.
Definition MAX_DOMAIN_ROUTE_TTL_SECS : Z := 3600.
Definition ROUTE_ADD_MAX_RETRIES : nat := 5.

(** ** State *)

Record DomainRouteEntry : Type := { dr_table : Z; dr_expiry : Z }.

Record AppliedRule : Type := {
  ar_device_ip : str;
  ar_target : RoutingTarget;
  ar_table : option Z;
  ar_tunnel_id : option Uuid;
  ar_dns_upstream : UpstreamId;
}.

Record RoutingState : Type := {
  applied : gmap Uuid AppliedRule;
  tunnel_tables : gset Z;
  switchback_targets : gmap Uuid (str * list str);
  applied_switchback : gmap Uuid (str * list str);
  domain_routes : gmap (str * str) DomainRouteEntry;
}.

Inductive WardnetEvent : Type := DefaultPolicyChanged (policy : str).

Record Routing (N : Type) : Type := {
  state : RoutingState;
  (** [None]: the lock is poisoned *)
  default_policy_cell : option str;
  dns_upstream_snapshot : gmap IpAddr UpstreamId;
  dns_device_upstream_snapshot : gmap Uuid UpstreamId;
  events : list WardnetEvent;
  env : N;
}.
Arguments state {N}. Arguments default_policy_cell {N}. Arguments dns_upstream_snapshot {N}.
Arguments dns_device_upstream_snapshot {N}. Arguments events {N}. Arguments env {N}.

Definition set_applied (m : gmap Uuid AppliedRule) (s : RoutingState) : RoutingState :=
  {| applied := m; tunnel_tables := tunnel_tables s; switchback_targets := switchback_targets s;
     applied_switchback := applied_switchback s; domain_routes := domain_routes s |}.
Definition set_tables (t : gset Z) (s : RoutingState) : RoutingState :=
  {| applied := applied s; tunnel_tables := t; switchback_targets := switchback_targets s;
     applied_switchback := applied_switchback s; domain_routes := domain_routes s |}.
Definition set_targets (m : gmap Uuid (str * list str)) (s : RoutingState) : RoutingState :=
  {| applied := applied s; tunnel_tables := tunnel_tables s; switchback_targets := m;
     applied_switchback := applied_switchback s; domain_routes := domain_routes s |}.
Definition set_switchback (m : gmap Uuid (str * list str)) (s : RoutingState) : RoutingState :=
  {| applied := applied s; tunnel_tables := tunnel_tables s;
     switchback_targets := switchback_targets s;
     applied_switchback := m; domain_routes := domain_routes s |}.
Definition set_domain_routes (m : gmap (str * str) DomainRouteEntry) (s : RoutingState)
    : RoutingState :=
  {| applied := applied s; tunnel_tables := tunnel_tables s;
     switchback_targets := switchback_targets s;
     applied_switchback := applied_switchback s; domain_routes := m |}.

Definition on_state {N} (f : RoutingState -> RoutingState) (w : Routing N) : Routing N :=
  {| state := f (state w); default_policy_cell := default_policy_cell w;
     dns_upstream_snapshot := dns_upstream_snapshot w;
     dns_device_upstream_snapshot := dns_device_upstream_snapshot w;
     events := events w; env := env w |}.
Definition set_env {N} (n : N) (w : Routing N) : Routing N :=
  {| state := state w; default_policy_cell := default_policy_cell w;
     dns_upstream_snapshot := dns_upstream_snapshot w;
     dns_device_upstream_snapshot := dns_device_upstream_snapshot w;
     events := events w; env := n |}.
Definition set_ip_snapshot {N} (m : gmap IpAddr UpstreamId) (w : Routing N) : Routing N :=
  {| state := state w; default_policy_cell := default_policy_cell w;
     dns_upstream_snapshot := m;
     dns_device_upstream_snapshot := dns_device_upstream_snapshot w;
     events := events w; env := env w |}.
Definition set_device_snapshot {N} (m : gmap Uuid UpstreamId) (w : Routing N) : Routing N :=
  {| state := state w; default_policy_cell := default_policy_cell w;
     dns_upstream_snapshot := dns_upstream_snapshot w;
     dns_device_upstream_snapshot := m; events := events w; env := env w |}.
Definition set_policy {N} (p : str) (w : Routing N) : Routing N :=
  {| state := state w; default_policy_cell := Some p;
     dns_upstream_snapshot := dns_upstream_snapshot w;
     dns_device_upstream_snapshot := dns_device_upstream_snapshot w;
     events := events w; env := env w |}.
Definition publish {N} (e : WardnetEvent) (w : Routing N) : Routing N :=
  {| state := state w; default_policy_cell := default_policy_cell w;
     dns_upstream_snapshot := dns_upstream_snapshot w;
     dns_device_upstream_snapshot := dns_device_upstream_snapshot w;
     events := events w ++ [e]; env := env w |}.

(** [RoutingServiceImpl::new] *)
Definition new {N} (default_policy : str) (n : N) : Routing N :=
  {| state := {| applied := ∅; tunnel_tables := ∅; switchback_targets := ∅;
                 applied_switchback := ∅; domain_routes := ∅ |};
     default_policy_cell := Some default_policy; dns_upstream_snapshot := ∅;
     dns_device_upstream_snapshot := ∅; events := []; env := n |}.

(** ** Interface names and tables *)

Definition TUNNEL_INTERFACE_PREFIX : str := of_string "wg_ward".

Definition parse_interface_index (interface_name : str) : option Z :=
  rest ← strip_prefix TUNNEL_INTERFACE_PREFIX interface_name; parse_uint U32_MAX rest.

(** [100 + index] on [u32], as a release build computes it. *)
Definition table_for_index (index : Z) : Z := u32_add 100 index.

Definition direct_rule (device_ip : str) : AppliedRule :=
  {| ar_device_ip := device_ip; ar_target := Direct; ar_table := None;
     ar_tunnel_id := None; ar_dns_upstream := DefaultUpstream |}.

Definition self_cidr (device_ip : str) : str := device_ip ++ "/32".

Definition build_dns_upstream_map (s : RoutingState) : gmap IpAddr UpstreamId :=
  foldl (fun map '(_, rule) =>
    match ar_dns_upstream rule with
    | DefaultUpstream => map
    | u => match parse_ip (ar_device_ip rule) with
           | None => map
           | Some ip => <[ip := u]> map
           end
    end) ∅ (map_to_list (applied s)).

Section service.
Context {N : Type} {D : RoutingDeps N} {U : UuidParse}.

Abbreviation W := (Routing N).
Abbreviation M := (SM W).
Abbreviation Svc A := (SM W (result A AppError)).

(** A call of the environment, its outcome as a value. *)
Definition try_env {A} (m : ST N str A) : M (result A str) := fun w =>
  let '(r, n) := m (env w) in (r, set_env n w).

Definition modify_state (f : RoutingState -> RoutingState) : M unit := sm_modify (on_state f).
Definition gets {A} (f : RoutingState -> A) : M A := sm_gets (fun w => f (state w)).

(** [call.await.map_err(AppError::Internal)?] *)
Definition internal {A} (m : ST N str A) : Svc A := fun w =>
  let '(r, w') := try_env m w in
  (match r with Ok a => Ok a | Err e => Err (Internal e) end, w').

(** ** DNS snapshots and gates *)

Definition refresh_dns_upstream_snapshot : M unit :=
  sm_modify (fun w => set_ip_snapshot (build_dns_upstream_map (state w)) w).

Definition tunnel_dns_override_active (tunnel_id : Uuid) : M (option bool) :=
  r ← try_env (tunnels_find_config_by_id tunnel_id);
  mret (match r with
        | Ok (Some cfg) => Some (tc_override_default_dns cfg && negb (bool_decide (tc_dns cfg = [])))
        | Ok None => Some false
        | Err _ => None
        end).

Definition tunnel_dns_upstream_gate (tunnel_id : Uuid) : M (option bool) :=
  r ← try_env (tunnels_find_by_id tunnel_id);
  match r with
  | Ok (Some tunnel) =>
      if bool_decide (tn_status tunnel = Down) then mret (Some false)
      else tunnel_dns_override_active tunnel_id
  | Ok None => mret (Some false)
  | Err _ => mret None
  end.

Abbreviation ZoneCache := (gmap Uuid (option NetworkZone)).

Definition zone_clamps_default_to_direct (zone_cache : ZoneCache) (zone_id : option Uuid)
    : M (bool * ZoneCache) :=
  match zone_id with
  | None => mret (false, zone_cache)
  | Some zone_id =>
      '(zone, zone_cache) ←
        match zone_cache !! zone_id with
        | Some z => mret (z, zone_cache)
        | None =>
            r ← try_env (zones_find_by_id zone_id);
            let z := match r with Ok z => z | Err _ => None end in
            mret (z, <[zone_id := z]> zone_cache)
        end;
      mret (match zone with
            | None => false
            | Some zone => negb (permits_kind zone KindTunnel) && permits_kind zone KindDirect
            end, zone_cache)
  end.

(** ** Default policy *)

Definition current_default_policy (w : W) : str :=
  default (of_string "direct") (default_policy_cell w).

Definition write_cached_policy (policy : str) : Svc bool := fun w =>
  match default_policy_cell w with
  | Some p => if bool_decide (p = policy) then (Ok false, w) else (Ok true, set_policy policy w)
  | None => (Err (Internal (of_string "default_policy lock poisoned")), w)
  end.

Definition resolve_target (target : RoutingTarget) (w : W) : RoutingTarget :=
  match target with
  | Default => from_default_policy (current_default_policy w)
  | other => other
  end.

(** ** Kernel state of one device *)

Definition remove_switchback_for_device (device_id : Uuid) : M unit :=
  entry ← gets (fun s => applied_switchback s !! device_id);
  match entry with
  | None => mret tt
  | Some (device_ip, cidrs) =>
      modify_state (fun s => set_switchback (delete device_id (applied_switchback s)) s) ;;
      sm_iter (fun cidr =>
        try_env (remove_switchback_rule device_ip cidr SWITCHBACK_RULE_PRIORITY) ;; mret tt) cidrs
  end.

(** [loop { match remove_ip_rule(..) { Ok => removed += 1, Err => break } }]:
    [None] only if the fuel runs out. *)
Fixpoint remove_ip_rules (fuel : nat) (device_ip : str) (table : Z) : M (option Z) :=
  match fuel with
  | O => mret None
  | S fuel' =>
      r ← try_env (remove_ip_rule device_ip table DEVICE_RULE_PRIORITY);
      match r with
      | Ok _ => n ← remove_ip_rules fuel' device_ip table; mret (Z.succ <$> n)
      | Err _ => mret (Some 0)
      end
  end.

(** One more round than the kernel has rules. *)
Definition drain_ip_rules (device_ip : str) (table : Z) : M (option Z) := fun w =>
  remove_ip_rules (S (length (ip_rules (env w)))) device_ip table w.

Definition remove_device_kernel_state (device_id : Uuid) : M unit :=
  entry ← gets (fun s => applied s !! device_id);
  match entry with
  | None => mret tt
  | Some rule =>
      modify_state (fun s => set_applied (delete device_id (applied s)) s) ;;
      remove_switchback_for_device device_id ;;
      match ar_table rule with
      | Some table => drain_ip_rules (ar_device_ip rule) table ;; mret tt
      | None => mret tt
      end
  end.

Definition tunnel_bound (s : RoutingState) (device_id : Uuid) : bool :=
  match applied s !! device_id with
  | Some r => bool_decide (is_Some (ar_table r))
  | None => false
  end.

Definition desired_set (s : RoutingState) (device_id : Uuid) (device_ip : str)
    (desired : list str) : list str :=
  if tunnel_bound s device_id
  then filter (fun c => c <> self_cidr device_ip) desired
  else [].

(** Adds the desired carve-outs the device does not have yet; the result is what
    the kernel has accepted. *)
Definition install_switchback (device_ip : str) (have : list str) (desired : list str)
    : M (list str) :=
  sm_fold (fun installed cidr =>
    if bool_decide (cidr ∈ have) then mret (installed ++ [cidr])
    else
      r ← try_env (add_switchback_rule device_ip cidr SWITCHBACK_RULE_PRIORITY);
      mret (match r with Ok _ => installed ++ [cidr] | Err _ => installed end)) [] desired.

(** What is installed under this very address; carve-outs written for an older
    address are torn down at that address. *)
Definition carveouts_at (device_id : Uuid) (device_ip : str) : M (list str) :=
  entry ← gets (fun s => applied_switchback s !! device_id);
  match entry with
  | Some (ip, cidrs) =>
      if bool_decide (ip = device_ip) then mret cidrs
      else remove_switchback_for_device device_id ;; mret []
  | None => mret []
  end.

Definition reconcile_switchback_for_device (device_id : Uuid) : M unit :=
  targets ← gets (fun s => switchback_targets s !! device_id);
  match targets with
  | None => remove_switchback_for_device device_id
  | Some (device_ip, desired) =>
      desired_set ← gets (fun s => desired_set s device_id device_ip desired);
      have ← carveouts_at device_id device_ip;
      sm_iter (fun cidr =>
        if bool_decide (cidr ∈ desired_set) then mret tt
        else try_env (remove_switchback_rule device_ip cidr SWITCHBACK_RULE_PRIORITY) ;; mret tt)
        have ;;
      installed ← install_switchback device_ip have desired_set;
      modify_state (fun s => set_switchback
        (if bool_decide (installed = [])
         then delete device_id (applied_switchback s)
         else <[device_id := (device_ip, installed)]> (applied_switchback s)) s)
  end.

(** ** Tunnel tables *)

(** [for attempt in 0..=ROUTE_ADD_MAX_RETRIES]; [left] attempts may follow. *)
Fixpoint add_route_table_retrying (left : nat) (interface_name : str) (table : Z)
    : M (result unit str) :=
  r ← try_env (add_route_table interface_name table);
  match r with
  | Ok _ => mret (Ok tt)
  | Err e =>
      let is_not_up := contains_str (of_string "not up") e
                       || contains_str (of_string "not ready") e in
      match left with
      | S left' => if is_not_up then add_route_table_retrying left' interface_name table
                   else mret (Err e)
      | O => mret (Err e)
      end
  end.

Definition ensure_tunnel_table (interface_name : str) (table : Z) : M (result unit str) :=
  tracked ← gets (fun s => bool_decide (table ∈ tunnel_tables s));
  (if tracked : bool then
     r ← try_env (has_route_table table);
     match r with
     | Ok true => mret tt
     | _ => modify_state (fun s => set_tables (tunnel_tables s ∖ {[table]}) s)
     end
   else mret tt) ;;
  tracked ← gets (fun s => bool_decide (table ∈ tunnel_tables s));
  if tracked : bool then mret (Ok tt)
  else
    r ← add_route_table_retrying ROUTE_ADD_MAX_RETRIES interface_name table;
    match r with
    | Err e => mret (Err e)
    | Ok _ =>
        r ← try_env (add_masquerade interface_name);
        match r with
        | Err e => mret (Err e)
        | Ok _ => modify_state (fun s => set_tables ({[table]} ∪ tunnel_tables s) s) ;; mret (Ok tt)
        end
    end.

Definition flush_stale_connections (device_ip : str) : M unit :=
  rst ← try_env (add_tcp_reset_reject device_ip);
  try_env (flush_conntrack device_ip) ;;
  (if is_ok rst then try_env (remove_tcp_reset_reject device_ip) ;; mret tt else mret tt) ;;
  try_env flush_route_cache ;; mret tt.

(** ** [apply_rule] *)

(** Phases 1 and 3 skip a rule that is already applied to the same address. *)
Definition already_applied (device_id : Uuid) (device_ip : str) (resolved : RoutingTarget)
    (s : RoutingState) : bool :=
  match applied s !! device_id with
  | Some existing =>
      bool_decide (ar_target existing = resolved) && bool_decide (ar_device_ip existing = device_ip)
  | None => false
  end.

(** Phase 2, no lock held: the tunnel, brought up if it is down. *)
Definition tunnel_info (resolved : RoutingTarget) : M (option TunnelRow) :=
  match resolved with
  | Tunnel tunnel_id =>
      r ← try_env (get_tunnel tunnel_id);
      match r with
      | Ok tunnel =>
          if bool_decide (tn_status tunnel = Down) then
            r ← try_env (bring_up_internal tunnel_id);
            match r with
            | Err _ => mret None
            | Ok _ =>
                r ← try_env (get_tunnel tunnel_id);
                mret (match r with Ok t => Some t | Err _ => None end)
            end
          else mret (Some tunnel)
      | Err _ => mret None
      end
  | _ => mret None
  end.

Definition dns_override_of (info : option TunnelRow) : M bool :=
  match info with
  | Some tunnel => o ← tunnel_dns_override_active (tn_id tunnel); mret (default false o)
  | None => mret false
  end.

Definition record_rule (device_id : Uuid) (rule : AppliedRule) : M unit :=
  modify_state (fun s => set_applied (<[device_id := rule]> (applied s)) s).

(** The early returns of phase 3: the device falls back to direct routing. *)
Definition fall_back (device_id : Uuid) (device_ip : str) : M bool :=
  record_rule device_id (direct_rule device_ip) ;;
  refresh_dns_upstream_snapshot ;; mret false.

(** The end of phase 3 once the binding is decided. *)
Definition settle (device_id : Uuid) (rule : AppliedRule) : M bool :=
  record_rule device_id rule ;;
  refresh_dns_upstream_snapshot ;;
  reconcile_switchback_for_device device_id ;; mret true.

(** Phase 3, one critical section; the result says whether stale connections are
    flushed after the lock is released. *)
Definition apply_locked (device_id : Uuid) (device_ip : str) (resolved : RoutingTarget)
    (info : option TunnelRow) (tunnel_dns_override : bool) : M bool :=
  skip ← gets (already_applied device_id device_ip resolved);
  if skip : bool then mret false
  else
    remove_device_kernel_state device_id ;;
    match resolved, info with
    | Tunnel tunnel_id, Some tunnel =>
        match parse_interface_index (tn_interface_name tunnel) with
        | None => fall_back device_id device_ip
        | Some index =>
            let table := table_for_index index in
            r ← ensure_tunnel_table (tn_interface_name tunnel) table;
            match r with
            | Err _ => fall_back device_id device_ip
            | Ok _ =>
                r ← try_env (add_ip_rule device_ip table DEVICE_RULE_PRIORITY);
                match r with
                | Err _ => fall_back device_id device_ip
                | Ok _ =>
                    settle device_id
                      {| ar_device_ip := device_ip; ar_target := resolved;
                         ar_table := Some table; ar_tunnel_id := Some tunnel_id;
                         ar_dns_upstream := if tunnel_dns_override
                                            then TunnelUpstream tunnel_id else DefaultUpstream |}
                end
            end
        end
    | _, _ => settle device_id (direct_rule device_ip)
    end.

Definition apply_rule_checked (device_id : Uuid) (device_ip : str) (target : RoutingTarget)
    : M unit :=
  resolved ← sm_gets (resolve_target target);
  skip ← gets (already_applied device_id device_ip resolved);
  if skip : bool then mret tt
  else
    info ← tunnel_info resolved;
    override ← dns_override_of info;
    flush ← apply_locked device_id device_ip resolved info override;
    if flush : bool then flush_stale_connections device_ip else mret tt.

Definition apply_rule (ctx : option AuthContext) (device_id : Uuid) (device_ip : str)
    (target : RoutingTarget) : Svc unit :=
  guard_admin ctx (apply_rule_checked device_id device_ip target ;; ok_unit).

(** [if let Err(e) = self.apply_rule(..)]: only the log differs. *)
Definition apply_rule_logged (ctx : option AuthContext) (device_id : Uuid) (device_ip : str)
    (target : RoutingTarget) : M unit :=
  apply_rule ctx device_id device_ip target ;; mret tt.

(** ** Devices and tunnels coming and going *)

Definition remove_device_routes (ctx : option AuthContext) (device_id : Uuid) (device_ip : str)
    : Svc unit :=
  guard_admin ctx
    (remove_device_kernel_state device_id ;;
     modify_state (fun s => set_targets (delete device_id (switchback_targets s)) s) ;;
     refresh_dns_upstream_snapshot ;; ok_unit).

(** The critical section of [handle_ip_change]. *)
Definition ip_change_locked (device_id : Uuid) (new_ip : str) : M (option RoutingTarget) :=
  target ← gets (fun s => ar_target <$> applied s !! device_id);
  remove_device_kernel_state device_id ;;
  modify_state (fun s => set_targets
    (match switchback_targets s !! device_id with
     | Some (_, cidrs) => <[device_id := (new_ip, cidrs)]> (switchback_targets s)
     | None => switchback_targets s
     end) s) ;;
  mret target.

Definition handle_ip_change (ctx : option AuthContext) (device_id : Uuid) (old_ip new_ip : str)
    : Svc unit :=
  guard_admin ctx
    (target ← ip_change_locked device_id new_ip;
     match target with
     | Some target => apply_rule ctx device_id new_ip target
     | None => ok_unit
     end).

Definition uses_tunnel (tunnel_id : Uuid) (rule : AppliedRule) : bool :=
  bool_decide (ar_tunnel_id rule = Some tunnel_id).

Definition devices_on (tunnel_id : Uuid) (s : RoutingState) : list (Uuid * AppliedRule) :=
  filter (fun p => uses_tunnel tunnel_id (snd p) = true) (map_to_list (applied s)).

(** The critical section of [handle_tunnel_down]: the addresses to flush. *)
Definition tunnel_down_locked (tunnel_id : Uuid) : M (list str) :=
  affected ← gets (devices_on tunnel_id);
  let tunnel_table := match affected with (_, r) :: _ => ar_table r | [] => None end in
  affected_ips ← sm_fold (fun ips '(device_id, _) =>
    ip ← gets (fun s => ar_device_ip <$> applied s !! device_id);
    remove_device_kernel_state device_id ;;
    mret (ips ++ option_list ip)) [] affected;
  match tunnel_table with
  | Some table =>
      try_env (remove_route_table table) ;;
      modify_state (fun s => set_tables (tunnel_tables s ∖ {[table]}) s)
  | None => mret tt
  end ;;
  refresh_dns_upstream_snapshot ;;
  mret affected_ips.

Definition handle_tunnel_down (ctx : option AuthContext) (tunnel_id : Uuid) : Svc unit :=
  guard_admin ctx
    (ips ← tunnel_down_locked tunnel_id;
     sm_iter flush_stale_connections ips ;; ok_unit).

Fixpoint collect_targeting (tunnel_id : Uuid) (devices : list Device)
    : Svc (list (Device * RoutingRule)) :=
  match devices with
  | [] => mret (Ok [])
  | device :: rest =>
      andthen (internal (devices_find_rule_for_device (dv_id device))) (fun rule =>
      resolved ← sm_gets (fun w => (fun r => resolve_target (rr_target r) w) <$> rule);
      andthen (collect_targeting tunnel_id rest) (fun found =>
      mret (Ok (match rule, resolved with
                | Some rule, Some (Tunnel tid) =>
                    if tid =? tunnel_id then (device, rule) :: found else found
                | _, _ => found
                end))))
  end.

Definition load_devices_targeting_tunnel (tunnel_id : Uuid) : Svc (list (Device * RoutingRule)) :=
  andthen (internal devices_find_all) (collect_targeting tunnel_id).

Definition handle_tunnel_up (ctx : option AuthContext) (tunnel_id : Uuid) : Svc unit :=
  guard_admin ctx
    (andthen (load_devices_targeting_tunnel tunnel_id) (fun devices =>
     sm_iter (fun '(device, rule) =>
       apply_rule_logged ctx (dv_id device) (dv_last_ip device) (rr_target rule)) devices ;;
     ok_unit)).

Definition reapply_default_ruled_devices (ctx : option AuthContext) : Svc unit :=
  andthen (internal devices_find_all) (fun devices =>
  andthen (internal devices_find_all_rules) (fun rules =>
  let default_ruled : gset Uuid := list_to_set
    (rr_device_id <$> filter (fun r => rr_target r = Default) rules) in
  sm_iter (fun device =>
    if bool_decide (dv_id device ∈ default_ruled)
    then apply_rule_logged ctx (dv_id device) (dv_last_ip device) Default
    else mret tt) devices ;;
  ok_unit)).

(** The critical section of [handle_route_table_lost]. *)
Definition table_lost_locked (table : Z) : M (list (Uuid * str * RoutingTarget)) :=
  modify_state (fun s => set_tables (tunnel_tables s ∖ {[table]}) s) ;;
  affected ← gets (fun s =>
    filter (fun p => ar_table (snd p) = Some table) (map_to_list (applied s)));
  modify_state (fun s => set_applied (foldl (fun m '(id, _) => delete id m) (applied s) affected) s) ;;
  mret ((fun '(id, r) => (id, ar_device_ip r, ar_target r)) <$> affected).

Definition handle_route_table_lost (ctx : option AuthContext) (table : Z) : Svc unit :=
  guard_admin ctx
    (re_apply ← table_lost_locked table;
     sm_iter (fun '(device_id, device_ip, target) =>
       apply_rule_logged ctx device_id device_ip target) re_apply ;;
     ok_unit).

Definition devices_using_tunnel (ctx : option AuthContext) (tunnel_id : Uuid) : Svc (list Uuid) :=
  guard_admin ctx (l ← gets (devices_on tunnel_id); mret (Ok (fst <$> l))).

Definition apply_rule_for_device (ctx : option AuthContext) (device_id : Uuid)
    (target : RoutingTarget) : Svc unit :=
  guard_admin ctx
    (r ← try_env (devices_find_by_id device_id);
     match r with
     | Ok (Some device) => apply_rule_logged ctx device_id (dv_last_ip device) target
     | _ => mret tt
     end ;; ok_unit).

Definition apply_rule_for_discovered_device (ctx : option AuthContext) (device_id : Uuid)
    (ip : str) : Svc unit :=
  guard_admin ctx
    (r ← try_env (devices_find_rule_for_device device_id);
     match r with
     | Ok (Some rule) => apply_rule_logged ctx device_id ip (rr_target rule)
     | _ => mret tt
     end ;; ok_unit).

(** ** Switchback targets *)

(** [sort(); dedup()] on strings: bytewise order. *)
Fixpoint str_leb (a b : str) : bool :=
  match a, b with
  | [], _ => true
  | _ :: _, [] => false
  | c :: a', d :: b' =>
      if byte_val c <? byte_val d then true
      else if byte_val d <? byte_val c then false
      else str_leb a' b'
  end.

Fixpoint insert_sorted (x : str) (l : list str) : list str :=
  match l with
  | [] => [x]
  | y :: l' => if str_leb x y then x :: l else y :: insert_sorted x l'
  end.

Definition sort_strs (l : list str) : list str := foldr insert_sorted [] l.

Fixpoint dedup (l : list str) : list str :=
  match l with
  | x :: (y :: _) as l' => if bool_decide (x = y) then dedup l' else x :: dedup l'
  | _ => l
  end.

Definition switchback_locked (device_id : Uuid) (device_ip : str) (target_cidrs : list str)
    : M unit :=
  if bool_decide (target_cidrs = []) then
    modify_state (fun s => set_targets (delete device_id (switchback_targets s)) s) ;;
    remove_switchback_for_device device_id
  else
    modify_state (fun s =>
      set_targets (<[device_id := (device_ip, target_cidrs)]> (switchback_targets s)) s) ;;
    reconcile_switchback_for_device device_id.

Definition set_switchback_targets (ctx : option AuthContext) (device_id : Uuid) (device_ip : str)
    (target_cidrs : list str) : Svc unit :=
  guard_admin ctx
    (switchback_locked device_id device_ip (dedup (sort_strs target_cidrs)) ;; ok_unit).

(** ** Domain routes *)

(** The destination table, without the lock; [None] where the call gives up. *)
Definition domain_table (target : DomainRoutingTarget) : M (option (Z * option str)) :=
  match target with
  | DomainDirect => mret (Some (RT_TABLE_MAIN, None))
  | DomainTunnel tunnel_id =>
      r ← try_env (get_tunnel tunnel_id);
      match r with
      | Err _ => mret None
      | Ok tunnel =>
          up ← (if bool_decide (tn_status tunnel = Down)
                then r ← try_env (bring_up_internal tunnel_id); mret (is_ok r)
                else mret true);
          if up : bool then
            mret (match parse_interface_index (tn_interface_name tunnel) with
                  | None => None
                  | Some index => Some (table_for_index index, Some (tn_interface_name tunnel))
                  end)
          else mret None
      end
  end.

Definition set_route (key : str * str) (e : DomainRouteEntry) : M unit :=
  modify_state (fun s => set_domain_routes (<[key := e]> (domain_routes s)) s).

(** One destination of [route_resolved_domain]. *)
Definition route_one (device_ip : str) (table expiry : Z) (ip : IpAddr) : M unit :=
  match ip with
  | V6 _ => mret tt
  | V4 v4 =>
      let dst := show_ipv4 v4 in
      let key := (device_ip, dst) in
      existing ← gets (fun s => dr_table <$> domain_routes s !! key);
      match existing with
      | Some existing =>
          if existing =? table then set_route key {| dr_table := table; dr_expiry := expiry |}
          else
            try_env (remove_domain_route_rule device_ip dst existing DOMAIN_ROUTE_RULE_PRIORITY) ;;
            r ← try_env (add_domain_route_rule device_ip dst table DOMAIN_ROUTE_RULE_PRIORITY);
            match r with
            | Err _ => modify_state (fun s => set_domain_routes (delete key (domain_routes s)) s)
            | Ok _ => set_route key {| dr_table := table; dr_expiry := expiry |}
            end
      | None =>
          r ← try_env (add_domain_route_rule device_ip dst table DOMAIN_ROUTE_RULE_PRIORITY);
          match r with
          | Err _ => mret tt
          | Ok _ => set_route key {| dr_table := table; dr_expiry := expiry |}
          end
      end
  end.

Definition lease_secs (ttl_secs : Z) : Z :=
  Z.max MIN_DOMAIN_ROUTE_TTL_SECS (Z.min MAX_DOMAIN_ROUTE_TTL_SECS ttl_secs).

Definition route_locked (now : Z) (device_ip : str) (resolved_ips : list IpAddr) (ttl_secs : Z)
    (table : Z) (tunnel_iface : option str) : M unit :=
  ready ← match tunnel_iface with
          | Some interface_name => r ← ensure_tunnel_table interface_name table; mret (is_ok r)
          | None => mret true
          end;
  if ready : bool
  then sm_iter (route_one device_ip table (now + lease_secs ttl_secs)) resolved_ips
  else mret tt.

Definition route_resolved_domain (now : Z) (device_ip : str) (resolved_ips : list IpAddr)
    (target : DomainRoutingTarget) (ttl_secs : Z) : Svc unit :=
  t ← domain_table target;
  match t with
  | None => ok_unit
  | Some (table, tunnel_iface) =>
      route_locked now device_ip resolved_ips ttl_secs table tunnel_iface ;; ok_unit
  end.

(** Phase 1 of [gc_domain_routes]: lapsed leases, with their rules. *)
Definition gc_expire (now : Z) : M (gset (str * str)) :=
  expired ← gets (fun s =>
    filter (fun p => dr_expiry (snd p) <= now) (map_to_list (domain_routes s)));
  sm_iter (fun '((src, dst), entry) =>
    try_env (remove_domain_route_rule src dst (dr_table entry) DOMAIN_ROUTE_RULE_PRIORITY) ;;
    modify_state (fun s => set_domain_routes (delete (src, dst) (domain_routes s)) s)) expired ;;
  gets (fun s => dom (domain_routes s)).

(** Phase 3: rules without a lease, checked again under the lock. *)
Definition gc_prune (orphans : list (str * str * Z)) : M unit :=
  sm_iter (fun '(src, dst, table) =>
    tracked ← gets (fun s => bool_decide (is_Some (domain_routes s !! (src, dst))));
    if tracked : bool then mret tt
    else try_env (remove_domain_route_rule src dst table DOMAIN_ROUTE_RULE_PRIORITY) ;; mret tt)
    orphans.

Definition gc_domain_routes (now : Z) : Svc unit :=
  tracked ← gc_expire now;
  andthen (internal (list_domain_route_rules DOMAIN_ROUTE_RULE_PRIORITY)) (fun kernel =>
  gc_prune (filter (fun '(src, dst, _) => (src, dst) ∉ tracked) kernel) ;; ok_unit).

(** ** Default policy, over the wire *)

Definition dquote : str := ["034"%char].

Definition set_default_policy (ctx : option AuthContext) (policy : str) : Svc unit :=
  guard_admin ctx
    (if bool_decide (policy <> of_string "direct") && bool_decide (parse_uuid policy = None)
     then mret (Err (BadRequest
            ("default_policy must be " ++ dquote ++ "direct" ++ dquote
             ++ " or a tunnel UUID, got " ++ policy)))
     else
       andthen (internal (config_set_default_policy policy)) (fun _ =>
       andthen (write_cached_policy policy) (fun _ =>
       sm_modify (publish (DefaultPolicyChanged policy)) ;; ok_unit))).

Definition default_policy (ctx : option AuthContext) : Svc str :=
  guard_admin ctx (p ← sm_gets current_default_policy; mret (Ok p)).

Definition handle_default_policy_changed (ctx : option AuthContext) : Svc unit :=
  andthen (internal config_get_default_policy) (fun policy =>
  match policy with
  | None => ok_unit
  | Some policy =>
      andthen (write_cached_policy policy) (fun _ => reapply_default_ruled_devices ctx)
  end).

(** ** Snapshot rebuilds *)

Definition with_upstream (u : UpstreamId) (rule : AppliedRule) : AppliedRule :=
  {| ar_device_ip := ar_device_ip rule; ar_target := ar_target rule; ar_table := ar_table rule;
     ar_tunnel_id := ar_tunnel_id rule; ar_dns_upstream := u |}.

Definition refresh_rule (st : gmap Uuid bool * gmap Uuid AppliedRule) (p : Uuid * AppliedRule)
    : M (gmap Uuid bool * gmap Uuid AppliedRule) :=
  let '(cache, out) := st in
  let '(device_id, rule) := p in
  match ar_tunnel_id rule with
  | None => mret (cache, <[device_id := with_upstream DefaultUpstream rule]> out)
  | Some tunnel_id =>
      '(active, cache) ←
        match cache !! tunnel_id with
        | Some v => mret (v, cache)
        | None =>
            o ← tunnel_dns_override_active tunnel_id;
            let v := default false o in
            mret (v, <[tunnel_id := v]> cache)
        end;
      mret (cache, <[device_id := with_upstream
        (if active : bool then TunnelUpstream tunnel_id else DefaultUpstream) rule]> out)
  end.

Definition rebuild_dns_upstream_snapshot : Svc unit :=
  rules ← gets (fun s => map_to_list (applied s));
  '(_, out) ← sm_fold refresh_rule (∅, ∅) rules;
  modify_state (set_applied out) ;;
  refresh_dns_upstream_snapshot ;; ok_unit.

Abbreviation Caches := (gmap Uuid (option bool) * ZoneCache * gmap Uuid UpstreamId)%type.

(** One rule of [rebuild_dns_device_upstream_snapshot]. *)
Definition snapshot_rule (zone_of : gmap Uuid Uuid) (prev : gmap Uuid UpstreamId) (st : Caches)
    (rule : RoutingRule) : M Caches :=
  let '(gate_cache, zone_cache, map) := st in
  resolved ← sm_gets (resolve_target (rr_target rule));
  match resolved with
  | Tunnel tunnel_id =>
      '(clamped, zone_cache) ←
        (if bool_decide (rr_target rule = Default)
         then zone_clamps_default_to_direct zone_cache (zone_of !! rr_device_id rule)
         else mret (false, zone_cache));
      if clamped : bool then mret (gate_cache, zone_cache, map)
      else
        '(gate, gate_cache) ←
          match gate_cache !! tunnel_id with
          | Some g => mret (g, gate_cache)
          | None =>
              g ← tunnel_dns_upstream_gate tunnel_id;
              mret (g, <[tunnel_id := g]> gate_cache)
          end;
        mret (gate_cache, zone_cache,
          match gate with
          | Some true => <[rr_device_id rule := TunnelUpstream tunnel_id]> map
          | Some false => map
          | None =>
              match prev !! rr_device_id rule with
              | Some entry => <[rr_device_id rule := entry]> map
              | None => map
              end
          end)
  | _ => mret st
  end.

Definition rebuild_dns_device_upstream_snapshot (ctx : option AuthContext) : Svc unit :=
  guard_admin ctx
    (andthen (internal devices_find_all_rules) (fun rules =>
     andthen (internal devices_find_all) (fun devices =>
     let zone_of : gmap Uuid Uuid :=
       foldl (fun m d => <[dv_id d := dv_zone_id d]> m) ∅ devices in
     prev ← sm_gets dns_device_upstream_snapshot;
     '(_, _, map) ← sm_fold (snapshot_rule zone_of prev) (∅, ∅, ∅) rules;
     sm_modify (set_device_snapshot map) ;; ok_unit))).

Definition refresh_dns_device_upstream_snapshot (ctx : option AuthContext) : M unit :=
  rebuild_dns_device_upstream_snapshot ctx ;; mret tt.

(** ** Start-up *)

(** The environment steps before the in-memory state is cleared. *)
Definition reconcile_setup (lan_interface : str) : Svc unit :=
  andthen (internal check_tools_available) (fun _ =>
  andthen (internal firewall_check_tools_available) (fun _ =>
  andthen (internal enable_ip_forwarding) (fun _ =>
  andthen (internal init_wardnet_table) (fun _ =>
  try_env cleanup_legacy_dns_redirects ;;
  andthen (internal flush_wardnet_table) (fun _ =>
  andthen (internal ensure_isolation_jumps) (fun _ =>
  internal (add_masquerade lan_interface))))))).

Definition clear_tracking (s : RoutingState) : RoutingState :=
  {| applied := ∅; tunnel_tables := ∅; switchback_targets := switchback_targets s;
     applied_switchback := ∅; domain_routes := ∅ |}.

Definition prune_domain_rules : M unit :=
  r ← try_env (list_domain_route_rules DOMAIN_ROUTE_RULE_PRIORITY);
  match r with
  | Ok rules =>
      sm_iter (fun '(src, dst, table) =>
        try_env (remove_domain_route_rule src dst table DOMAIN_ROUTE_RULE_PRIORITY) ;; mret tt)
        rules
  | Err _ => mret tt
  end.

Fixpoint apply_stored (ctx : option AuthContext) (devices : list Device) : Svc unit :=
  match devices with
  | [] => ok_unit
  | device :: rest =>
      andthen (internal (devices_find_rule_for_device (dv_id device))) (fun rule =>
      match rule with
      | Some rule => apply_rule_logged ctx (dv_id device) (dv_last_ip device) (rr_target rule)
      | None => mret tt
      end ;;
      apply_stored ctx rest)
  end.

(** [for _ in 0..times { if let Err(e) = remove_ip_rule(..) { break } }]; true
    when every removal went through. *)
Fixpoint remove_times (times : nat) (src_ip : str) (table priority : Z) : M bool :=
  match times with
  | O => mret true
  | S times' =>
      r ← try_env (remove_ip_rule src_ip table priority);
      match r with
      | Ok _ => remove_times times' src_ip table priority
      | Err _ => mret false
      end
  end.

Abbreviation RuleCounts := (gmap (str * Z * Z) Z).

Definition count_rule (counts : RuleCounts) (p : str * Z * Z) : RuleCounts :=
  let '(src_ip, table, priority) := p in
  if (priority =? SWITCHBACK_RULE_PRIORITY) || (priority =? DOMAIN_ROUTE_RULE_PRIORITY)
  then counts
  else <[(src_ip, table, priority) := default 0 (counts !! (src_ip, table, priority)) + 1]> counts.

Definition count_rules (kernel_rules : list (str * Z * Z)) : RuleCounts :=
  foldl count_rule ∅ kernel_rules.

Definition wanted_bindings (s : RoutingState) : gset (str * Z) :=
  list_to_set (omap (fun p => (fun t => (ar_device_ip (snd p), t)) <$> ar_table (snd p))
                 (map_to_list (applied s))).

(** One counted group of kernel rules: rewrite, remove or deduplicate. *)
Definition repair_rule (wanted : gset (str * Z)) (counts : RuleCounts)
    (p : str * Z * Z * Z) : M unit :=
  let '((src_ip, table, priority), count) := p in
  let is_current_binding := bool_decide ((src_ip, table) ∈ wanted) in
  if is_current_binding && negb (priority =? DEVICE_RULE_PRIORITY) then
    let already_correct :=
      bool_decide (is_Some (counts !! (src_ip, table, DEVICE_RULE_PRIORITY))) in
    removed_all ← remove_times (Z.to_nat count) src_ip table priority;
    if negb removed_all then mret tt
    else if already_correct then mret tt
    else try_env (add_ip_rule src_ip table DEVICE_RULE_PRIORITY) ;; mret tt
  else if negb is_current_binding then
    remove_times (Z.to_nat count) src_ip table priority ;; mret tt
  else if 1 <? count then
    remove_times (Z.to_nat (count - 1)) src_ip table priority ;; mret tt
  else mret tt.

Definition reconcile_ip_rules : M unit :=
  r ← try_env list_wardnet_rules;
  match r with
  | Ok kernel_rules =>
      wanted ← gets wanted_bindings;
      let counts := count_rules kernel_rules in
      sm_iter (repair_rule wanted counts) (map_to_list counts)
  | Err _ => mret tt
  end.

Definition desired_carveouts (s : RoutingState) : gset (str * str) :=
  list_to_set (concat ((fun '(device_id, (ip, cidrs)) =>
    (fun c => (ip, c)) <$> desired_set s device_id ip cidrs)
    <$> map_to_list (switchback_targets s))).

Definition reconcile_carveouts : M unit :=
  r ← try_env list_switchback_rules;
  match r with
  | Ok kernel_carveouts =>
      desired ← gets desired_carveouts;
      sm_iter (fun '(src_ip, dst_cidr, priority) =>
        if negb (priority =? SWITCHBACK_RULE_PRIORITY) then mret tt
        else if bool_decide ((src_ip, dst_cidr) ∈ desired) then mret tt
        else try_env (remove_switchback_rule src_ip dst_cidr priority) ;; mret tt)
        kernel_carveouts ;;
      device_ids ← gets (fun s => fst <$> map_to_list (switchback_targets s));
      sm_iter reconcile_switchback_for_device device_ids
  | Err _ => mret tt
  end.

Definition reconcile (ctx : option AuthContext) (lan_interface : str) : Svc unit :=
  guard_admin ctx
    (andthen (reconcile_setup lan_interface) (fun _ =>
     modify_state clear_tracking ;;
     prune_domain_rules ;;
     andthen (internal devices_find_all) (fun all_devices =>
     andthen (apply_stored ctx all_devices) (fun _ =>
     reconcile_ip_rules ;;
     reconcile_carveouts ;;
     refresh_dns_device_upstream_snapshot ctx ;;
     ok_unit)))).

End service.
