(* ===== verification/RoutingLaws.v ===== *)
(** * What the routing service guarantees

    First what one call of the kernel does to the rule list, then the sections
    of the service, then the transition system whose steps are those sections
    in any order, and the theorems over its histories, the ones on the kernel's
    rules for the histories that are [orderly] in what the service does not check. *)

From S2P Require Import Prelude RustStr Net Auth DnsCache PolicyRouter RoutingTypes.
From S2P Require Import Routing.

Section basics.
Context {N : Type} {D : RoutingDeps N} {U : UuidParse}.

Abbreviation W := (Routing N).

Definition rules (w : W) : list IpRule := ip_rules (env w).

(** ** Automation: a computation keeps [P] if its parts do *)

Lemma keeps_state P f : (forall w : W, P w -> P (on_state f w)) -> sm_keeps P (modify_state f).
Proof. apply sm_keeps_modify. Qed.

Lemma keeps_get {A} P (f : RoutingState -> A) : sm_keeps P (gets (N := N) f).
Proof. apply sm_keeps_gets. Qed.

Lemma keeps_try {A} P (m : ST N str A) :
  (forall w : W, P w -> P (set_env (snd (m (env w))) w)) -> sm_keeps P (try_env m).
Proof. intros H w HP. unfold try_env. specialize (H w HP). by destruct (m (env w)). Qed.

Lemma sm_keeps_internal {A} P (m : ST N str A) :
  sm_keeps P (try_env m) -> sm_keeps (A := result A AppError) P (internal m).
Proof. intros H w HP. specialize (H w HP). unfold internal. by destruct (try_env m w). Qed.

End basics.

(** Walks through binds, iterations and case distinctions, leaving the calls. *)
Ltac walk :=
  repeat match goal with
  | |- sm_keeps _ (mret _) => apply sm_keeps_ret
  | |- sm_keeps _ (gets _) => apply keeps_get
  | |- sm_keeps _ (sm_gets _) => apply sm_keeps_gets
  | |- sm_keeps _ (mbind _ _) => apply sm_keeps_bind; [|intros ?]
  | |- sm_keeps _ (andthen _ _) => apply keeps_andthen; [|intros ?]
  | |- sm_keeps _ (guard_admin _ _) => apply sm_keeps_guard
  | |- sm_keeps _ (internal _) => apply sm_keeps_internal
  | |- sm_keeps _ ok_unit => apply sm_keeps_ret
  | |- sm_keeps _ (sm_iter _ _) => apply sm_keeps_iter; intros ? ?
  | |- sm_keeps _ (sm_fold _ _ _) => apply sm_keeps_fold; intros ? ? ?
  | |- sm_keeps _ (match ?x with _ => _ end) => destruct x
  | |- sm_keeps _ (let '_ := ?x in _) => destruct x
  | |- sm_keeps _ (if ?b then _ else _) => destruct b
  | |- sm_keeps _ ((fun _ => _) _) => cbv beta
  end.

Section laws.
Context {N : Type} {D : RoutingDeps N} {U : UuidParse}.

Abbreviation W := (Routing N).

(** ** The loop that removes a device's rules *)

Section kernel.
Context {L : RoutingDepsLaws N}.

(** A call that leaves the rule list alone keeps any property of it. *)
Lemma keeps_frame {A} (P : RoutingState -> list IpRule -> Prop) (m : ST N str A) :
  frames m -> sm_keeps (fun w => P (state w) (rules w)) (try_env m).
Proof. intros H. apply keeps_try. intros w. unfold rules. simpl. by rewrite H. Qed.

Lemma remove_ip_rules_run fuel ip t (w : W) : (length (rules w) < fuel)%nat ->
  exists n, fst (remove_ip_rules fuel ip t w) = Some n /\
    length (rules w) = (Z.to_nat n + length (rules (snd (remove_ip_rules fuel ip t w))))%nat /\ 0 <= n.
Proof.
  revert w. induction fuel as [|fuel IH]; intros w Hf; [lia|]. simpl.
  rewrite sm_bind_run. unfold try_env at 1 2 3 4.
  pose proof (remove_ip_rule_law ip t DEVICE_RULE_PRIORITY (env w)) as Hl.
  destruct (remove_ip_rule ip t DEVICE_RULE_PRIORITY (env w)) as [[u|e] n'] eqn:E; simpl.
  - destruct Hl as (a & _ & Hr%rule_removed_length).
    rewrite sm_bind_run. unfold rules in *.
    destruct (IH (set_env n' w)) as (n & Hn & Hlen & Hpos); [simpl; lia|].
    rewrite Hn. simpl. exists (Z.succ n). unfold rules in Hlen. simpl in Hlen |- *.
    split; [done|]. split; [|lia]. rewrite Hr, Hlen. lia.
  - exists 0. unfold rules. simpl. rewrite Hl. split; [done|]. split; [lia|done].
Qed.

(** C27: the loop that removes a device's [ip rule]s until the kernel refuses
    ends, whatever the kernel holds and however it fails: it stops after at most
    one round more than there are rules, and the count it keeps is the number of
    rules that left the kernel. *)
Theorem drain_terminates ip t (w : W) :
  exists removed, fst (drain_ip_rules ip t w) = Some removed /\ 0 <= removed /\
    Z.of_nat (length (rules w)) = removed + Z.of_nat (length (rules (snd (drain_ip_rules ip t w)))).
Proof.
  unfold drain_ip_rules.
  destruct (remove_ip_rules_run (S (length (ip_rules (env w)))) ip t w) as (n & H1 & H2 & H3);
    [unfold rules; lia|].
  exists n. rewrite H1. unfold rules in *. split; [done|]. split; [done | lia].
Qed.

(** ** Tracking

    A rule is tracked when the in-memory state says it is installed: a device's
    binding, a domain lease, a carve-out.  [shape] is what the state satisfies
    on its own: usable addresses and tables, one device per address. *)

Definition cidr_ok (c : str) : Prop :=
  exists dst len, parse_ipv4_cidr c = Ok (dst, len) /\ 0 < len /\
    c = show_ipv4 dst ++ "/" ++ show_u8 len.

Inductive tracked (s : RoutingState) : IpRule -> Prop :=
| tracked_binding id a t ip :
    applied s !! id = Some a -> ar_table a = Some t -> parse_ipv4 (ar_device_ip a) = Some ip ->
    tracked s (from_rule ip t DEVICE_RULE_PRIORITY)
| tracked_lease src dst e ip d :
    domain_routes s !! (src, dst) = Some e -> parse_ipv4 src = Some ip -> parse_ipv4 dst = Some d ->
    tracked s (from_to_rule ip d 32 (dr_table e) DOMAIN_ROUTE_RULE_PRIORITY)
| tracked_carveout id src cs c ip d len :
    applied_switchback s !! id = Some (src, cs) -> c ∈ cs -> parse_ipv4 src = Some ip ->
    parse_ipv4_cidr c = Ok (d, len) ->
    tracked s (from_to_rule ip d len RT_TABLE_MAIN SWITCHBACK_RULE_PRIORITY).

Definition usable_table (t : Z) : Prop := 0 < t /\ is_u32 t.

Definition distinct_on {A} (addr : A -> str) (m1 m2 : gmap Uuid A) : Prop :=
  forall id1 id2 a1 a2, id1 <> id2 -> m1 !! id1 = Some a1 -> m2 !! id2 = Some a2 -> addr a1 <> addr a2.

Record shape (s : RoutingState) : Prop := {
  sh_addr : distinct_on ar_device_ip (applied s) (applied s);
  sh_bind : forall id a t, applied s !! id = Some a -> ar_table a = Some t ->
    usable_table t /\ is_Some (parse_ipv4 (ar_device_ip a));
  sh_lease : forall src dst e, domain_routes s !! (src, dst) = Some e ->
    usable_table (dr_table e) /\ is_Some (parse_ipv4 src) /\ is_Some (parse_ipv4 dst);
  sh_carve : forall id src cs, applied_switchback s !! id = Some (src, cs) ->
    Forall cidr_ok cs /\ is_Some (parse_ipv4 src);
  sh_targets : forall id src cs, switchback_targets s !! id = Some (src, cs) -> Forall cidr_ok cs;
  sh_carve_addr : distinct_on fst (applied_switchback s) (applied_switchback s);
  sh_cross_addr : distinct_on fst (switchback_targets s) (applied_switchback s);
  sh_target_addr : distinct_on fst (switchback_targets s) (switchback_targets s);
}.

Definition synced (s : RoutingState) (l : list IpRule) : Prop :=
  shape s /\ forall r, tracked s r -> r ∈ l.

Abbreviation inv := (fun w : W => synced (state w) (rules w)).

Lemma parse_ipv4_inj s1 s2 ip : parse_ipv4 s1 = Some ip -> parse_ipv4 s2 = Some ip -> s1 = s2.
Proof. intros [<- _]%show_parse_ipv4 [<- _]%show_parse_ipv4. done. Qed.

Lemma cidr_ok_inj c1 c2 d : cidr_ok c1 -> cidr_ok c2 ->
  parse_ipv4_cidr c1 = Ok d -> parse_ipv4_cidr c2 = Ok d -> c1 = c2.
Proof. intros (d1 & l1 & H1 & _ & ->) (d2 & l2 & H2 & _ & ->) E1 E2. congruence. Qed.

Lemma u32_prio : is_u32 DEVICE_RULE_PRIORITY /\ is_u32 DOMAIN_ROUTE_RULE_PRIORITY
  /\ is_u32 SWITCHBACK_RULE_PRIORITY.
Proof. repeat split; done. Qed.

(** *** The calls, on any property of the rule list *)

Section calls.
Context (P : RoutingState -> list IpRule -> Prop).
Abbreviation on_P := (fun w : W => P (state w) (rules w)).

Definition grows : Prop := forall s l l' r, P s l -> rule_added r l l' -> P s l'.
Definition survives (sel : IpRule -> Prop) : Prop :=
  forall s l l', P s l -> rule_removed sel l l' -> P s l'.

Lemma keeps_add_ip_rule ip t p : grows -> is_u32 t -> is_u32 p ->
  sm_keeps on_P (try_env (add_ip_rule ip t p)).
Proof.
  intros Hg Ht Hp. apply keeps_try. intros w HP. unfold rules in *. simpl.
  pose proof (add_ip_rule_law ip t p (env w) Ht Hp) as Hl.
  destruct (add_ip_rule ip t p (env w)) as [[u|e] n']; simpl.
  - destruct Hl as (a & _ & Ha). by eapply Hg.
  - by rewrite Hl.
Qed.

Lemma keeps_add_switchback ip c p : grows -> is_u32 p ->
  sm_keeps on_P (try_env (add_switchback_rule ip c p)).
Proof.
  intros Hg Hp. apply keeps_try. intros w HP. unfold rules in *. simpl.
  pose proof (add_switchback_rule_law ip c p (env w) Hp) as Hl.
  destruct (add_switchback_rule ip c p (env w)) as [[u|e] n']; simpl.
  - destruct Hl as (a & d & len & _ & _ & Ha). by eapply Hg.
  - by rewrite Hl.
Qed.

Lemma keeps_add_domain ip d t p : grows -> is_u32 t -> is_u32 p ->
  sm_keeps on_P (try_env (add_domain_route_rule ip d t p)).
Proof.
  intros Hg Ht Hp. apply keeps_try. intros w HP. unfold rules in *. simpl.
  pose proof (add_domain_route_rule_law ip d t p (env w) Ht Hp) as Hl.
  destruct (add_domain_route_rule ip d t p (env w)) as [[u|e] n']; simpl.
  - destruct Hl as (a & b & _ & _ & Ha). by eapply Hg.
  - by rewrite Hl.
Qed.

Lemma keeps_remove_ip_rule ip t p :
  (forall a, parse_ipv4 ip = Some a -> survives (from_selects a t p)) ->
  sm_keeps on_P (try_env (remove_ip_rule ip t p)).
Proof.
  intros Hs. apply keeps_try. intros w HP. unfold rules in *. simpl.
  pose proof (remove_ip_rule_law ip t p (env w)) as Hl.
  destruct (remove_ip_rule ip t p (env w)) as [[u|e] n']; simpl.
  - destruct Hl as (a & Ha & Hr). by eapply Hs.
  - by rewrite Hl.
Qed.

Lemma keeps_remove_switchback ip c p :
  (forall a d len, parse_ipv4 ip = Some a -> parse_ipv4_cidr c = Ok (d, len) ->
     survives (from_to_selects a d len RT_TABLE_MAIN p)) ->
  sm_keeps on_P (try_env (remove_switchback_rule ip c p)).
Proof.
  intros Hs. apply keeps_try. intros w HP. unfold rules in *. simpl.
  pose proof (remove_switchback_rule_law ip c p (env w)) as Hl.
  destruct (remove_switchback_rule ip c p (env w)) as [[u|e] n']; simpl; [|by rewrite Hl].
  destruct Hl as (a & d & len & Ha & Hd & [Hr|[-> _]]); [by eapply Hs | done].
Qed.

Lemma keeps_remove_domain ip d t p :
  (forall a b, parse_ipv4 ip = Some a -> parse_ipv4 d = Some b ->
     survives (from_to_selects a b 32 t p)) ->
  sm_keeps on_P (try_env (remove_domain_route_rule ip d t p)).
Proof.
  intros Hs. apply keeps_try. intros w HP. unfold rules in *. simpl.
  pose proof (remove_domain_route_rule_law ip d t p (env w)) as Hl.
  destruct (remove_domain_route_rule ip d t p (env w)) as [[u|e] n']; simpl; [|by rewrite Hl].
  destruct Hl as (a & b & Ha & Hb & [Hr|[-> _]]); [by eapply Hs | done].
Qed.

(** The loops built on them. *)
Lemma keeps_remove_ip_rules fuel ip t :
  (forall a, parse_ipv4 ip = Some a -> survives (from_selects a t DEVICE_RULE_PRIORITY)) ->
  sm_keeps on_P (remove_ip_rules fuel ip t).
Proof.
  intros Hs. induction fuel as [|fuel IH]; simpl; [apply sm_keeps_ret|].
  apply sm_keeps_bind; [by apply keeps_remove_ip_rule|]. intros []; walk. apply IH.
Qed.

Lemma keeps_remove_times n ip t p :
  (forall a, parse_ipv4 ip = Some a -> survives (from_selects a t p)) ->
  sm_keeps on_P (remove_times n ip t p).
Proof.
  intros Hs. induction n as [|n IH]; simpl; [apply sm_keeps_ret|].
  apply sm_keeps_bind; [by apply keeps_remove_ip_rule|]. intros []; walk. apply IH.
Qed.

Lemma keeps_add_table_retrying n i t :
  sm_keeps on_P (add_route_table_retrying n i t).
Proof.
  induction n as [|n IH]; simpl;
    (apply sm_keeps_bind; [apply keeps_frame, frames_add_table|]; intros []; walk).
  apply IH.
Qed.

Lemma keeps_ensure_table i t : (forall s l x, P s l -> P (set_tables x s) l) ->
  sm_keeps on_P (ensure_tunnel_table i t).
Proof.
  intros Ht. unfold ensure_tunnel_table.
  walk; try (apply keeps_state; intros w HP; by apply Ht);
    try apply keeps_add_table_retrying; apply keeps_frame;
    try apply frames_has_table; apply frames_masquerade.
Qed.

End calls.

(** *** Tracking survives the calls *)

Lemma synced_grows (C : RoutingState -> Prop) : grows (fun s l => C s /\ synced s l).
Proof.
  intros s l l' r [HC [Hs Ht]] Ha. split_and!; [done..|]. split; [done|].
  intros x Hx. rewrite (rule_added_elem _ _ _ _ Ha). auto.
Qed.

Lemma synced_survives (C : RoutingState -> Prop) sel :
  (forall s r, C s -> shape s -> sel r -> ~ tracked s r) ->
  survives (fun s l => C s /\ synced s l) sel.
Proof.
  intros Hn s l l' [HC [Hs Ht]] Hr. split_and!; [done..|]. split; [done|].
  intros x Hx. eapply rule_removed_keeps; [done | by apply Ht |]. intros Hsel. by eapply Hn.
Qed.

Lemma from_tracked s a t p r : shape s -> from_selects a t p r -> tracked s r ->
  p = DEVICE_RULE_PRIORITY /\
    (exists id ar, applied s !! id = Some ar /\ (t = 0 \/ ar_table ar = Some t) /\
       parse_ipv4 (ar_device_ip ar) = Some a)
  \/ p = DOMAIN_ROUTE_RULE_PRIORITY \/ p = SWITCHBACK_RULE_PRIORITY.
Proof.
  intros _ (Hsrc & Ht & Hp) Htr. destruct Htr; simpl in *; subst; auto.
  left. split; [done|]. exists id, a0. split_and!; [done | naive_solver |].
  unfold mk_prefix in Hsrc. simpl in Hsrc. congruence.
Qed.

Lemma carve_tracked s a d len r : from_to_selects a d len RT_TABLE_MAIN SWITCHBACK_RULE_PRIORITY r ->
  tracked s r ->
  exists id src cs c len', applied_switchback s !! id = Some (src, cs) /\ c ∈ cs /\
    parse_ipv4 src = Some a /\ (len = 0 \/ parse_ipv4_cidr c = Ok (d, len)) /\
    parse_ipv4_cidr c = Ok len'.
Proof.
  intros [(Hsrc & _ & Hp) Hd] Htr. destruct Htr as [| |id src cs c ip d' len' H1 H2 H3 H4];
    simpl in *; try done.
  exists id, src, cs, c, (d', len'). split_and!; try done.
  - unfold mk_prefix in Hsrc. simpl in Hsrc. congruence.
  - destruct Hd as [Hd|Hd]; [by left|]. destruct (Z.eq_dec len 0); [by left|]. right.
    unfold mk_prefix in Hd. rewrite (proj2 (Z.eqb_neq len 0)) in Hd by done.
    destruct (len' =? 0); simplify_eq. done.
Qed.

Lemma lease_tracked s a d t r : from_to_selects a d 32 t DOMAIN_ROUTE_RULE_PRIORITY r ->
  tracked s r ->
  exists src dst e, domain_routes s !! (src, dst) = Some e /\
    parse_ipv4 src = Some a /\ parse_ipv4 dst = Some d.
Proof.
  intros [(Hsrc & _ & Hp) Hd] Htr. destruct Htr as [|src dst e ip d' H1 H2 H3|];
    simpl in *; try done.
  exists src, dst, e. unfold mk_prefix in *. simpl in *. destruct Hd as [|Hd]; [lia|].
  split_and!; congruence.
Qed.

(** Forgetting entries keeps both parts. *)
Lemma tracked_mono s s' r :
  (forall id a, applied s' !! id = Some a -> applied s !! id = Some a) ->
  (forall k e, domain_routes s' !! k = Some e -> domain_routes s !! k = Some e) ->
  (forall id e, applied_switchback s' !! id = Some e -> applied_switchback s !! id = Some e) ->
  tracked s' r -> tracked s r.
Proof. intros H1 H2 H3 []; econstructor; eauto. Qed.

Lemma shape_mono s s' : shape s ->
  (forall id a, applied s' !! id = Some a -> applied s !! id = Some a) ->
  (forall k e, domain_routes s' !! k = Some e -> domain_routes s !! k = Some e) ->
  (forall id e, applied_switchback s' !! id = Some e -> applied_switchback s !! id = Some e) ->
  (forall id e, switchback_targets s' !! id = Some e -> switchback_targets s !! id = Some e) ->
  shape s'.
Proof. intros [] H1 H2 H3 H4. split; unfold distinct_on in *; eauto. Qed.

Lemma synced_mono s s' l : synced s l ->
  (forall id a, applied s' !! id = Some a -> applied s !! id = Some a) ->
  (forall k e, domain_routes s' !! k = Some e -> domain_routes s !! k = Some e) ->
  (forall id e, applied_switchback s' !! id = Some e -> applied_switchback s !! id = Some e) ->
  (forall id e, switchback_targets s' !! id = Some e -> switchback_targets s !! id = Some e) ->
  synced s' l.
Proof.
  intros [Hs Ht] H1 H2 H3 H4. split; [by eapply shape_mono|].
  intros r Hr. apply Ht. by eapply tracked_mono.
Qed.

Lemma delete_lookup_sub {K A} `{Countable K} (m : gmap K A) k k' a :
  delete k m !! k' = Some a -> m !! k' = Some a.
Proof. by intros [_ ?]%lookup_delete_Some. Qed.

#[local] Hint Resolve delete_lookup_sub : wardnet.

(** *** The sections: removing *)

(** Carve-outs of an address nobody tracks may go. *)
Definition no_carve (ip : str) (s : RoutingState) : Prop :=
  forall id cs, applied_switchback s !! id <> Some (ip, cs).

Lemma keeps_drop_carve (C : RoutingState -> Prop) ip c :
  (forall s, C s -> no_carve ip s) ->
  sm_keeps (fun w => C (state w) /\ inv w)
    (try_env (remove_switchback_rule ip c SWITCHBACK_RULE_PRIORITY)).
Proof.
  intros HC. apply (keeps_remove_switchback (fun s l => C s /\ synced s l)).
  intros a d len Ha Hd. apply synced_survives. intros s r Hs Hsh Hsel Htr.
  destruct (carve_tracked _ _ _ _ _ Hsel Htr) as (id & src & cs & c' & l' & H1 & _ & H2 & _).
  rewrite (parse_ipv4_inj _ _ _ H2 Ha) in H1. by eapply HC.
Qed.

Lemma keeps_remove_switchback_for_device id (C : RoutingState -> Prop) :
  (forall s, C s -> C (set_switchback (delete id (applied_switchback s)) s)) ->
  sm_keeps (fun w => C (state w) /\ inv w) (remove_switchback_for_device id).
Proof.
  intros HC w [Hw Hi]. unfold remove_switchback_for_device. rewrite sm_bind_run. simpl.
  destruct (applied_switchback (state w) !! id) as [[ip cs]|] eqn:E; [|done].
  rewrite sm_bind_run. simpl.
  match goal with |- context [on_state ?f w] => set (w1 := on_state f w) end.
  assert (H1 : (fun w => (C (state w) /\ no_carve ip (state w)) /\ inv w) w1).
  { split_and!.
    - by apply HC.
    - intros id' cs' Hl. unfold w1 in Hl. simpl in Hl.
      apply lookup_delete_Some in Hl as [Hne H].
      destruct Hi as [Hsh _]. by apply (sh_carve_addr _ Hsh id id' _ _ Hne E H).
    - eapply synced_mono; [exact Hi|..]; simpl; eauto with wardnet. }
  match goal with |- context [sm_iter ?f cs w1] => assert (Hk : sm_keeps
    (fun w => (C (state w) /\ no_carve ip (state w)) /\ inv w) (sm_iter f cs)) end.
  { apply sm_keeps_iter. intros c _. walk.
    apply (keeps_drop_carve (fun s => C s /\ no_carve ip s)). by intros s []. }
  by destruct (Hk w1 H1) as [[? ?] ?].
Qed.

Definition nobody_at (ip : str) (s : RoutingState) : Prop :=
  forall id a, applied s !! id = Some a -> ar_device_ip a <> ip.

Lemma keeps_drain (C : RoutingState -> Prop) ip t : (forall s, C s -> nobody_at ip s) ->
  sm_keeps (fun w => C (state w) /\ inv w) (drain_ip_rules ip t).
Proof.
  intros HC w Hw. unfold drain_ip_rules. generalize (S (length (ip_rules (env w)))) as n.
  intros n. revert w Hw. apply (keeps_remove_ip_rules (fun s l => C s /\ synced s l)).
  intros a Ha. apply synced_survives. intros s r Hs Hsh Hsel Htr.
  destruct (from_tracked _ _ _ _ _ Hsh Hsel Htr) as [(_ & id & ar & H1 & _ & H2)|[H|H]]; [|done..].
  apply (HC s Hs id ar H1). by eapply parse_ipv4_inj.
Qed.

Lemma remove_device_kernel_state_post id (C : RoutingState -> Prop) :
  (forall s, C s -> C (set_applied (delete id (applied s)) s)) ->
  (forall s, C s -> C (set_switchback (delete id (applied_switchback s)) s)) ->
  sm_post (fun w => C (state w) /\ inv w) (remove_device_kernel_state id)
    (fun _ w => (C (state w) /\ applied (state w) !! id = None) /\ inv w).
Proof.
  intros HC1 HC2 w [Hw Hi]. unfold remove_device_kernel_state. rewrite sm_bind_run. simpl.
  destruct (applied (state w) !! id) as [rule|] eqn:E; [|done].
  rewrite sm_bind_run. simpl.
  match goal with |- context [on_state ?f w] => set (w1 := on_state f w) end.
  set (C' := fun s => (C s /\ applied s !! id = None) /\ nobody_at (ar_device_ip rule) s).
  assert (H1 : C' (state w1) /\ inv w1).
  { unfold w1. split; [split; [split|]|]; simpl.
    - by apply HC1.
    - by rewrite lookup_delete_eq.
    - intros id' a' Hl. simpl in Hl. apply lookup_delete_Some in Hl as [Hne H].
      destruct Hi as [Hsh _]. apply not_eq_sym. by apply (sh_addr _ Hsh id id').
    - eapply synced_mono; [exact Hi|..]; simpl; eauto with wardnet. }
  rewrite sm_bind_run.
  pose proof (keeps_remove_switchback_for_device id C' ltac:(unfold C'; naive_solver) w1 H1) as H3.
  destruct (remove_switchback_for_device id w1) as [u w2]. simpl in *.
  destruct (ar_table rule) as [t|]; [|by destruct H3 as [[? _] ?]].
  rewrite sm_bind_run. simpl.
  pose proof (keeps_drain C' (ar_device_ip rule) t ltac:(by intros s []) w2 H3) as H4.
  by destruct H4 as [[? _] ?].
Qed.

(** *** The sections: carve-outs *)

Lemma distinct_insert {A} (addr : A -> str) (m m' : gmap Uuid A) id a :
  distinct_on addr m m' -> (forall id' a', id' <> id -> m' !! id' = Some a' -> addr a <> addr a') ->
  distinct_on addr (<[id := a]> m) m'.
Proof.
  intros H Hn id1 id2 a1 a2 Hne [[-> ->]|[_ H1]]%lookup_insert_Some H2; [|by eapply H].
  by apply (Hn id2).
Qed.

Lemma distinct_sym {A} (addr : A -> str) (m m' : gmap Uuid A) :
  distinct_on addr m m' -> distinct_on addr m' m.
Proof. intros H id1 id2 a1 a2 Hne H1 H2. apply not_eq_sym. by apply (H id2 id1). Qed.

Lemma distinct_insert_both {A} (addr : A -> str) (m : gmap Uuid A) id a :
  distinct_on addr m m -> (forall id' a', id' <> id -> m !! id' = Some a' -> addr a <> addr a') ->
  distinct_on addr (<[id := a]> m) (<[id := a]> m).
Proof.
  intros H Hn. apply distinct_insert; [apply distinct_sym, distinct_insert; [done|]|].
  - by apply Hn.
  - intros id' a' Hne. rewrite lookup_insert_ne by congruence. by apply Hn.
Qed.

Definition forget (id : Uuid) (s : RoutingState) : RoutingState :=
  set_switchback (delete id (applied_switchback s)) s.

(** In the middle of a carve-out reconciliation: the tracked rules of everybody
    else, and those in [keep], are in the kernel. *)
Definition carving (id : Uuid) (ip : str) (keep : list str) (s : RoutingState) (l : list IpRule)
    : Prop :=
  shape s /\ (forall r, tracked (forget id s) r -> r ∈ l) /\
  (exists cs, switchback_targets s !! id = Some (ip, cs)) /\
  forall c, c ∈ keep -> cidr_ok c /\ exists a d len, parse_ipv4 ip = Some a /\
    parse_ipv4_cidr c = Ok (d, len) /\
    from_to_rule a d len RT_TABLE_MAIN SWITCHBACK_RULE_PRIORITY ∈ l.

Lemma carving_grows id ip keep : grows (carving id ip keep).
Proof.
  intros s l l' r (H1 & H2 & H3 & H4) Ha.
  split_and!; [done | | done |].
  - intros x Hx. rewrite (rule_added_elem _ _ _ _ Ha). auto.
  - intros c Hc. destruct (H4 c Hc) as (Hok & a & d & len & Hp & Hc' & Hin). split; [done|].
    exists a, d, len. rewrite (rule_added_elem _ _ _ _ Ha). auto.
Qed.

(** A stale carve-out is nobody else's and not one to keep. *)
Lemma carving_survives id ip keep c a d len :
  parse_ipv4 ip = Some a -> parse_ipv4_cidr c = Ok (d, len) -> cidr_ok c -> c ∉ keep ->
  survives (carving id ip keep) (from_to_selects a d len RT_TABLE_MAIN SWITCHBACK_RULE_PRIORITY).
Proof.
  intros Ha Hd Hok Hc s l l' (H1 & H2 & (cs & H3) & H4) Hr. split_and!; eauto.
  - intros x Hx. eapply rule_removed_keeps; [done | by apply H2 |]. intros Hsel.
    destruct (carve_tracked _ _ _ _ _ Hsel Hx) as (id' & src & cs' & c' & l'' & Hl & _ & Hp & _).
    simpl in Hl. apply lookup_delete_Some in Hl as [Hne Hl].
    apply (sh_cross_addr _ H1 id id' (ip, cs) (src, cs')); [done..|].
    by eapply parse_ipv4_inj.
  - intros c' Hc'. destruct (H4 c' Hc') as (Hok' & a' & d' & len' & Hp & Hd' & Hin).
    split; [done|]. exists a', d', len'. split_and!; [done..|].
    eapply rule_removed_keeps; [done..|]. intros [_ [Hz|Hdst]]; simpl in *.
    + destruct Hok as (d1 & l1 & E1 & Hl1 & _). assert (l1 = len) by congruence. lia.
    + assert (Hpos : forall c0 d0 l0, cidr_ok c0 -> parse_ipv4_cidr c0 = Ok (d0, l0) -> 0 < l0).
      { intros c0 d0 l0 (x & y & E & Hy & _) E'. congruence. }
      pose proof (Hpos _ _ _ Hok Hd). pose proof (Hpos _ _ _ Hok' Hd').
      unfold mk_prefix in Hdst.
      rewrite (proj2 (Z.eqb_neq len' 0)), (proj2 (Z.eqb_neq len 0)) in Hdst by lia.
      simplify_eq. apply Hc. by rewrite (cidr_ok_inj c c' (d, len)).
Qed.

Lemma desired_set_sub s id ip desired c : c ∈ desired_set s id ip desired -> c ∈ desired.
Proof. unfold desired_set. case_match; [|set_solver]. by intros [_ ?]%list_elem_of_filter. Qed.

Lemma try_add_carve (C : RoutingState -> Prop) id ip keep c : cidr_ok c ->
  sm_post (fun w : W => C (state w) /\ carving id ip keep (state w) (rules w))
    (try_env (add_switchback_rule ip c SWITCHBACK_RULE_PRIORITY))
    (fun r w => C (state w) /\
       carving id ip (match r with Ok _ => keep ++ [c] | Err _ => keep end) (state w) (rules w)).
Proof.
  intros Hok w [HC Hc]. unfold try_env.
  pose proof (add_switchback_rule_law ip c SWITCHBACK_RULE_PRIORITY (env w) ltac:(done)) as Hl.
  destruct (add_switchback_rule _ _ _ (env w)) as [[u|e] n'] eqn:E; simpl; (split; [done|]);
    unfold rules in *; simpl; [|by rewrite Hl].
  destruct Hl as (a & d & len & Ha & Hd & Hr).
  pose proof (carving_grows _ _ _ _ _ _ _ Hc Hr) as (H1 & H2 & H3 & H4).
  split_and!; [done..|]. intros c' [Hc'|Hc']%elem_of_app; [by apply H4|].
  apply list_elem_of_singleton in Hc' as ->. split; [done|]. exists a, d, len.
  split_and!; [done..|]. rewrite (rule_added_elem _ _ _ _ Hr). by left.
Qed.

Lemma carving_weaken id ip k1 k2 s l : carving id ip k1 s l -> (forall c, c ∈ k2 -> c ∈ k1) ->
  carving id ip k2 s l.
Proof. intros (H1 & H2 & H3 & H4) Hk. split_and!; auto. Qed.

Lemma install_switchback_post (C : RoutingState -> Prop) id ip have ds :
  (forall c, c ∈ ds -> cidr_ok c) ->
  sm_post (fun w : W => C (state w) /\
             carving id ip (filter (fun c => c ∈ ds) have) (state w) (rules w))
    (install_switchback ip have ds)
    (fun inst w => C (state w) /\ carving id ip inst (state w) (rules w)).
Proof.
  intros Hok. unfold install_switchback. set (body := fun installed cidr => _).
  enough (H : forall todo inst, (forall c, c ∈ todo -> c ∈ ds) ->
    sm_post (fun w : W => C (state w) /\
        carving id ip (filter (fun c => c ∈ ds) have ++ inst) (state w) (rules w))
      (sm_fold body inst todo)
      (fun inst w => C (state w) /\
         carving id ip (filter (fun c => c ∈ ds) have ++ inst) (state w) (rules w))).
  { intros w Hw. destruct (H ds [] ltac:(done) w) as [H1 H2]; [by rewrite app_nil_r|].
    split; [done|]. eapply carving_weaken; [done|]. set_solver. }
  induction todo as [|c todo IH]; intros inst Hsub; simpl; [by apply sm_post_ret|].
  eapply (sm_post_bind _ _ _ (fun b (w : W) => C (state w) /\
    carving id ip (filter (fun c => c ∈ ds) have ++ b) (state w) (rules w))).
  2:{ intros b. apply IH. set_solver. }
  unfold body. case_bool_decide as Hh.
  - apply sm_post_ret. intros w [HC Hw]. split; [done|]. eapply carving_weaken; [exact Hw|].
    intros c'. rewrite !elem_of_app, list_elem_of_singleton. intros [?|[?| ->] ]; [by auto..|].
    left. apply list_elem_of_filter. set_solver.
  - eapply sm_post_bind; [apply (try_add_carve C id ip); set_solver|].
    intros [u|e]; apply sm_post_ret; intros w [HC Hw]; split; try done.
    by rewrite app_assoc.
Qed.

(** The tracked carve-outs of the device, once they are those of [inst]. *)
Lemma carving_done id ip inst s l : carving id ip inst s l ->
  synced (set_switchback (if bool_decide (inst = []) then delete id (applied_switchback s)
                          else <[id := (ip, inst)]> (applied_switchback s)) s) l.
Proof.
  intros (Hsh & Htr & (cs & Htg) & Hin). case_bool_decide as Hnil.
  { split; [|done]. eapply shape_mono; [done|..]; simpl; eauto with wardnet. }
  destruct inst as [|c0 inst']; [done|]. set (inst := c0 :: inst') in *. clear Hnil.
  assert (Hip : is_Some (parse_ipv4 ip)).
  { destruct (Hin c0) as (_ & a & _ & _ & Ha & _); [unfold inst; set_solver | by eexists]. }
  split.
  - destruct Hsh. split; simpl; try done.
    + intros id' src cs' [[-> [= <- <-] ]|[_ H]]%lookup_insert_Some; [|eauto].
      split; [|done]. apply Forall_forall. intros c Hc. by apply Hin.
    + apply distinct_insert_both; [done|]. intros id' a' Hne Ha'.
      by apply (sh_cross_addr0 id id' (ip, cs)).
    + apply distinct_sym, distinct_insert; [by apply distinct_sym|].
      intros id' a' Hne Ha'. apply (sh_target_addr0 id id' (ip, cs)); [done..|]. done.
  - intros r Hr. inversion Hr as [? ? ? ? H1 H2 H3|? ? ? ? ? H1 H2 H3|id' src cs' c a d len H1 H2 H3 H4];
      subst; simpl in *.
    + apply Htr. by econstructor.
    + apply Htr. by econstructor.
    + apply lookup_insert_Some in H1 as [[-> [= <- <-] ]|[Hne H1]].
      * destruct (Hin c H2) as (_ & a' & d' & len' & Ha' & Hd' & Hl).
        rewrite H3 in Ha'. rewrite H4 in Hd'. by simplify_eq.
      * apply Htr. eapply tracked_carveout; [|done..]. simpl. by rewrite lookup_delete_ne.
Qed.

Lemma carveouts_at_post id ip desired (ds : list str) (C : RoutingState -> Prop) :
  (forall s m, C s -> C (set_switchback m s)) -> (forall c, c ∈ ds -> cidr_ok c) ->
  sm_post (fun w : W => (C (state w) /\ switchback_targets (state w) !! id = Some (ip, desired))
             /\ inv w)
    (carveouts_at id ip)
    (fun have w => C (state w) /\
       carving id ip (filter (fun c => c ∈ ds) have) (state w) (rules w) /\ Forall cidr_ok have).
Proof.
  intros HC Hds w [[Hw Et] Hi]. unfold carveouts_at. rewrite sm_bind_run. simpl.
  pose proof Hi as [Hsh Htr].
  assert (Hforget : forall s (l : list IpRule) r, (forall x, tracked s x -> x ∈ l) -> tracked (forget id s) r -> r ∈ l).
  { intros s l r Ht Hr. apply Ht. eapply tracked_mono; [..|exact Hr]; simpl; eauto with wardnet. }
  destruct (applied_switchback (state w) !! id) as [[ip' cs]|] eqn:Ea.
  - destruct (bool_decide_reflect (ip' = ip)) as [->|Hne]; simpl.
    + destruct (sh_carve _ Hsh _ _ _ Ea) as [Hcs [a Ha]]. split_and!; [done| |done].
      split_and!; [done | eauto | by eexists |].
      intros c [Hc1 Hc2]%list_elem_of_filter. split; [by apply Hds|].
      rewrite Forall_forall in Hcs. destruct (Hcs c Hc2) as (d & len & Hd & _).
      exists a, d, len. split_and!; [done..|]. apply Htr. by econstructor.
    + pose proof (keeps_remove_switchback_for_device id
        (fun s => C s /\ switchback_targets s !! id = Some (ip, desired)) ltac:(naive_solver)
        w ltac:(done)) as [[H1 H2] [H3 H4]].
      rewrite sm_bind_run. simpl. split_and!; [done| |done].
      split_and!; [done | eauto | by eexists | set_solver].
  - simpl. split_and!; [done| |done]. split_and!; [done | eauto | by eexists | set_solver].
Qed.

Lemma keeps_reconcile_switchback id (C : RoutingState -> Prop) :
  (forall s m, C s -> C (set_switchback m s)) ->
  sm_keeps (fun w => C (state w) /\ inv w) (reconcile_switchback_for_device id).
Proof.
  intros HC w [Hw Hi]. unfold reconcile_switchback_for_device. rewrite sm_bind_run. simpl.
  destruct (switchback_targets (state w) !! id) as [[ip desired]|] eqn:Et.
  2:{ apply (keeps_remove_switchback_for_device id C); eauto. }
  rewrite sm_bind_run. simpl. rewrite sm_bind_run.
  set (ds := desired_set (state w) id ip desired).
  assert (Hds : forall c, c ∈ ds -> cidr_ok c).
  { intros c Hc%desired_set_sub. destruct Hi as [Hsh _]. pose proof (sh_targets _ Hsh _ _ _ Et) as H.
    rewrite Forall_forall in H. by apply H. }
  pose proof (carveouts_at_post id ip desired ds C HC Hds w ltac:(done)) as Hhave.
  destruct (carveouts_at id ip w) as [have w1]. simpl in Hhave |- *. destruct Hhave as (HC1 & Hcv & Hhok).
  rewrite sm_bind_run. match goal with |- context [sm_iter ?f have w1] =>
    assert (Hk : sm_keeps (fun w => C (state w) /\
      carving id ip (filter (fun c => c ∈ ds) have) (state w) (rules w)) (sm_iter f have)) end.
  { apply sm_keeps_iter. intros c Hc. case_bool_decide as Hcd; walk.
    apply (keeps_remove_switchback (fun s l => C s /\ carving id ip (filter (fun c => c ∈ ds) have) s l)).
    intros a d len Ha Hd s l l' [Hs Hl] Hr. split; [done|].
    rewrite Forall_forall in Hhok. eapply carving_survives; eauto.
    rewrite list_elem_of_filter. naive_solver. }
  specialize (Hk w1 (conj HC1 Hcv)). destruct (sm_iter _ have w1) as [u w2]. simpl in *.
  pose proof (install_switchback_post C id ip have ds Hds w2 Hk) as Hinst.
  rewrite sm_bind_run. destruct (install_switchback ip have ds w2) as [inst w3]. simpl in *.
  destruct Hinst as [HC3 Hcv3]. split; [by apply HC|]. by apply (carving_done id ip inst).
Qed.

(** *** The sections: binding *)

Definition addr_free (id : Uuid) (ip : str) (s : RoutingState) : Prop :=
  forall id' a, id' <> id -> applied s !! id' = Some a -> ar_device_ip a <> ip.

Lemma addr_free_delete id ip s : addr_free id ip s ->
  addr_free id ip (set_applied (delete id (applied s)) s).
Proof. intros Hs id' a Hne H. simpl in H. apply lookup_delete_Some in H as [_ H]. by eapply Hs. Qed.

(** The interface numbering stays clear of the top of [u32]. *)
Definition index_sane (info : option TunnelRow) : Prop :=
  forall t i, info = Some t -> parse_interface_index (tn_interface_name t) = Some i ->
    i <= U32_MAX - 100.

Lemma table_usable info t i : index_sane info -> info = Some t ->
  parse_interface_index (tn_interface_name t) = Some i ->
  usable_table (table_for_index i) /\ table_for_index i = 100 + i.
Proof.
  intros Hs Hi Hp. pose proof (Hs t i Hi Hp). unfold parse_interface_index in Hp.
  destruct (strip_prefix _ _) as [rest|]; simpl in Hp; [|done].
  apply parse_uint_range in Hp; [|done]. unfold usable_table, table_for_index, u32_add, is_u32, U32_MAX in *.
  rewrite Z.mod_small by lia. lia.
Qed.

(** The state around the recording of a rule for [id] at [ip]. *)
Definition unbound (id : Uuid) (ip : str) (s : RoutingState) : Prop :=
  addr_free id ip s /\ applied s !! id = None.

Lemma synced_record id rule s l : synced s l -> unbound id (ar_device_ip rule) s ->
  (forall t, ar_table rule = Some t -> usable_table t /\
     exists ip, parse_ipv4 (ar_device_ip rule) = Some ip /\ from_rule ip t DEVICE_RULE_PRIORITY ∈ l) ->
  synced (set_applied (<[id := rule]> (applied s)) s) l.
Proof.
  intros [Hsh Htr] [Hfree _] Hb. split.
  - destruct Hsh. split; simpl; try done.
    + apply distinct_insert_both; [done|]. intros id' a' Hne Ha'. apply not_eq_sym. by eapply Hfree.
    + intros id' a t [[-> ->]|[_ H]]%lookup_insert_Some Ht; [|eauto].
      destruct (Hb t Ht) as [? (ip & -> & _)]. split; [done | by eexists].
  - intros r Hr. inversion Hr as [id' a t ip H1 H2 H3|? ? ? ? ? H1 H2 H3|? ? ? ? ? ? ? H1 H2 H3 H4];
      subst; simpl in *.
    + apply lookup_insert_Some in H1 as [[-> ->]|[Hne H1]].
      * destruct (Hb t H2) as [_ (ip' & E & Hin)]. rewrite H3 in E. by simplify_eq.
      * apply Htr. by econstructor.
    + apply Htr. by econstructor.
    + apply Htr. by econstructor.
Qed.

Lemma fall_back_post id ip : sm_post (fun w : W => unbound id ip (state w) /\ inv w)
  (fall_back id ip) (fun _ w => inv w).
Proof. intros w [Hu Hi]. unfold fall_back. simpl. by apply synced_record. Qed.

Lemma settle_post id rule :
  sm_post (fun w : W => unbound id (ar_device_ip rule) (state w) /\ inv w /\
      forall t, ar_table rule = Some t -> usable_table t /\
        exists ip, parse_ipv4 (ar_device_ip rule) = Some ip /\
          from_rule ip t DEVICE_RULE_PRIORITY ∈ rules w)
    (settle id rule) (fun _ w => inv w).
Proof.
  intros w (Hu & Hi & Hb). unfold settle. rewrite !sm_bind_run. simpl.
  by apply (keeps_reconcile_switchback id (fun _ => True)); [|split; [|apply synced_record]].
Qed.

Lemma add_binding_post id ip t : is_u32 t ->
  sm_post (fun w : W => unbound id ip (state w) /\ inv w)
    (try_env (add_ip_rule ip t DEVICE_RULE_PRIORITY))
    (fun r w => (unbound id ip (state w) /\ inv w) /\
       (is_ok r = true -> exists a, parse_ipv4 ip = Some a /\
          from_rule a t DEVICE_RULE_PRIORITY ∈ rules w)).
Proof.
  intros Ht w Hw. split.
  - by apply (keeps_add_ip_rule (fun s l => unbound id ip s /\ synced s l));
      [apply synced_grows|..].
  - unfold try_env. pose proof (add_ip_rule_law ip t DEVICE_RULE_PRIORITY (env w) Ht ltac:(done)) as Hl.
    destruct (add_ip_rule _ _ _ (env w)) as [[u|e] n']; simpl; [|done]. intros _.
    destruct Hl as (a & Ha & Hr). exists a. split; [done|].
    unfold rules. simpl. rewrite (rule_added_elem _ _ _ _ Hr). by left.
Qed.

Lemma keeps_ensure_unbound id ip i t :
  sm_keeps (fun w : W => unbound id ip (state w) /\ inv w) (ensure_tunnel_table i t).
Proof.
  apply (keeps_ensure_table (fun s l => unbound id ip s /\ synced s l)).
  intros s l x [Hu Hs]. split; [done|]. eapply synced_mono; [exact Hs|..]; done.
Qed.

Lemma apply_locked_inv id ip resolved info ov : index_sane info ->
  sm_post (fun w : W => addr_free id ip (state w) /\ inv w)
    (apply_locked id ip resolved info ov) (fun _ w => inv w).
Proof.
  intros Hsane w Hw. unfold apply_locked. rewrite sm_bind_run. simpl.
  destruct (already_applied id ip resolved (state w)); [by destruct Hw|].
  rewrite sm_bind_run.
  pose proof (remove_device_kernel_state_post id (addr_free id ip) (addr_free_delete id ip)
                ltac:(done) w Hw) as Hrm.
  destruct (remove_device_kernel_state id w) as [u w1]. simpl in Hrm |- *.
  assert (Hdirect : inv (snd (settle id (direct_rule ip) w1))).
  { apply settle_post. destruct Hrm. split_and!; done. }
  destruct resolved as [tid| |], info as [t|]; try exact Hdirect.
  destruct (parse_interface_index (tn_interface_name t)) as [i|] eqn:Ei;
    [|by apply fall_back_post].
  destruct (table_usable _ t i Hsane eq_refl Ei) as [Hus _].
  rewrite sm_bind_run.
  pose proof (keeps_ensure_unbound id ip (tn_interface_name t) (table_for_index i) w1 Hrm) as H2.
  destruct (ensure_tunnel_table _ _ w1) as [[u2|e] w2]; simpl in H2 |- *; [|by apply fall_back_post].
  rewrite sm_bind_run.
  pose proof (add_binding_post id ip (table_for_index i) (proj2 Hus) w2 H2) as [H3 H4].
  destruct (try_env _ w2) as [[u3|e] w3]; simpl in H3, H4 |- *; [|by apply fall_back_post].
  apply settle_post. simpl. split_and!; [apply H3..|]. intros t' [= <-]. split; [done|]. by apply H4.
Qed.

(** *** The sections: leases *)

Definition forget_lease (key : str * str) (s : RoutingState) : RoutingState :=
  set_domain_routes (delete key (domain_routes s)) s.

Definition leasing (key : str * str) (s : RoutingState) (l : list IpRule) : Prop :=
  synced (forget_lease key s) l.

Lemma leasing_start key s l : synced s l -> leasing key s l.
Proof. intros H. eapply synced_mono; [exact H|..]; simpl; eauto with wardnet. Qed.

Lemma leasing_grows key : grows (leasing key).
Proof.
  intros s l l' r H Ha. by apply (synced_grows (fun _ => True) (forget_lease key s) l l' r).
Qed.

Lemma leasing_survives src dst t a d : parse_ipv4 src = Some a -> parse_ipv4 dst = Some d ->
  survives (leasing (src, dst)) (from_to_selects a d 32 t DOMAIN_ROUTE_RULE_PRIORITY).
Proof.
  intros Ha Hd s l l' H Hr.
  apply (synced_survives (fun s => domain_routes s !! (src, dst) = None)
    (from_to_selects a d 32 t DOMAIN_ROUTE_RULE_PRIORITY)) with (l := l); [|split|done].
  - intros s' r HC _ Hsel Htr.
    destruct (lease_tracked _ _ _ _ _ Hsel Htr) as (src' & dst' & e & H1 & H2 & H3).
    rewrite (parse_ipv4_inj _ _ _ H2 Ha), (parse_ipv4_inj _ _ _ H3 Hd) in H1. congruence.
  - simpl. apply lookup_delete_eq.
  - exact H.
Qed.

Lemma keeps_drop_lease src dst t : sm_keeps (fun w : W => leasing (src, dst) (state w) (rules w))
  (try_env (remove_domain_route_rule src dst t DOMAIN_ROUTE_RULE_PRIORITY)).
Proof.
  apply (keeps_remove_domain (leasing (src, dst))). intros a b Ha Hb. by apply leasing_survives.
Qed.

Lemma leasing_insert src dst e s l a d : leasing (src, dst) s l -> usable_table (dr_table e) ->
  parse_ipv4 src = Some a -> parse_ipv4 dst = Some d ->
  from_to_rule a d 32 (dr_table e) DOMAIN_ROUTE_RULE_PRIORITY ∈ l ->
  synced (set_domain_routes (<[(src, dst) := e]> (domain_routes s)) s) l.
Proof.
  intros [Hsh Htr] Hu Ha Hd Hin. split.
  - destruct Hsh. simpl in *. split; simpl; try done.
    intros src' dst' e' [[[= <- <-] <-]|[Hne H]]%lookup_insert_Some; [eauto|].
    apply sh_lease0. by rewrite lookup_delete_ne.
  - intros r Hr. inversion Hr as [? ? ? ? H1 H2 H3|src' dst' e' ip d' H1 H2 H3|? ? ? ? ? ? ? H1 H2 H3 H4];
      subst; simpl in *; [apply Htr; by econstructor | | apply Htr; by econstructor].
    apply lookup_insert_Some in H1 as [[[= <- <-] <-]|[Hne H1]].
    + by simplify_eq.
    + apply Htr. eapply tracked_lease; [|done..]. simpl. by rewrite lookup_delete_ne.
Qed.

(** Adding the rule and recording the lease, from a state that tracks no rule
    for the key; on failure the caller's [onerr] drops the key. *)
Lemma add_lease_post (C : RoutingState -> Prop) src dst e (onerr : SM W unit) :
  usable_table (dr_table e) ->
  sm_post (fun w : W => C (state w) /\ leasing (src, dst) (state w) (rules w)) onerr
    (fun _ w => inv w) ->
  sm_post (fun w : W => C (state w) /\ leasing (src, dst) (state w) (rules w))
    (r ← try_env (add_domain_route_rule src dst (dr_table e) DOMAIN_ROUTE_RULE_PRIORITY);
     match r with Err _ => onerr | Ok _ => set_route (src, dst) e end)
    (fun _ w => inv w).
Proof.
  intros Hu He w [HC Hw]. rewrite sm_bind_run. unfold try_env.
  pose proof (add_domain_route_rule_law src dst (dr_table e) DOMAIN_ROUTE_RULE_PRIORITY (env w)
                (proj2 Hu) ltac:(done)) as Hl.
  destruct (add_domain_route_rule _ _ _ _ (env w)) as [[u|x] n']; simpl.
  - destruct Hl as (a & d & Ha & Hd & Hr).
    apply (leasing_insert src dst e (state w) (ip_rules n') a d); try done.
    + by eapply leasing_grows.
    + rewrite (rule_added_elem _ _ _ _ Hr). by left.
  - apply He. unfold rules in *. simpl. by rewrite Hl.
Qed.

Lemma keeps_route_one ip table expiry dst : usable_table table ->
  sm_keeps (fun w : W => inv w) (route_one ip table expiry dst).
Proof.
  intros Hu. destruct dst as [v4|]; [|apply sm_keeps_ret]. unfold route_one.
  intros w Hi. rewrite sm_bind_run. simpl.
  set (e := {| dr_table := table; dr_expiry := expiry |}).
  destruct (domain_routes (state w) !! (ip, show_ipv4 v4)) as [old|] eqn:E; simpl.
  - destruct (Z.eqb_spec (dr_table old) table) as [Heq|Hne].
    + pose proof Hi as [Hsh Htr].
      destruct (sh_lease _ Hsh _ _ _ E) as (Hu' & [a Ha] & [d Hd]).
      apply (leasing_insert _ _ e _ _ a d); try done; [by apply leasing_start|].
      apply Htr. simpl. rewrite <- Heq. by econstructor.
    + rewrite sm_bind_run.
      pose proof (keeps_drop_lease ip (show_ipv4 v4) (dr_table old) w (leasing_start _ _ _ Hi)) as H2.
      destruct (try_env _ w) as [r w1]. simpl in H2 |- *.
      apply (add_lease_post (fun _ => True) ip (show_ipv4 v4) e); [done| |done].
      by intros w2 [_ H3].
  - apply (add_lease_post (fun s => domain_routes s !! (ip, show_ipv4 v4) = None)
             ip (show_ipv4 v4) e); [done| |split; [done | by apply leasing_start]].
    intros w2 [H3 H4]. simpl. unfold leasing, forget_lease in H4.
    rewrite delete_id in H4 by done. by destruct (state w2).
Qed.

Lemma keeps_route_locked now ip ips ttl table iface : usable_table table ->
  sm_keeps (fun w : W => inv w) (route_locked now ip ips ttl table iface).
Proof.
  intros Hu. unfold route_locked. walk; [|by apply keeps_route_one..].
  apply (keeps_ensure_table synced). intros ? ? ? Hs. eapply synced_mono; [exact Hs|..]; done.
Qed.

Lemma keeps_gc_expire now : sm_keeps (fun w : W => inv w) (gc_expire now).
Proof.
  apply sm_keeps_bind; [apply keeps_get|]. intros expired.
  apply sm_keeps_bind; [|intros _; apply keeps_get].
  apply sm_keeps_iter. intros [[src dst] e] _ w Hi. rewrite sm_bind_run. simpl.
  pose proof (keeps_drop_lease src dst (dr_table e) w (leasing_start _ _ _ Hi)) as H2.
  by destruct (try_env _ w) as [r w1].
Qed.

Lemma keeps_gc_prune orphans : sm_keeps (fun w : W => inv w) (gc_prune orphans).
Proof.
  unfold gc_prune. apply sm_keeps_iter. intros [[src dst] t] _ w Hi. rewrite sm_bind_run. simpl.
  case_bool_decide as Ht; [done|]. rewrite sm_bind_run. simpl.
  pose proof (keeps_drop_lease src dst t w (leasing_start _ _ _ Hi)) as H2.
  assert (Hst : state (snd (try_env (remove_domain_route_rule src dst t DOMAIN_ROUTE_RULE_PRIORITY) w))
                = state w).
  { unfold try_env. by destruct (remove_domain_route_rule _ _ _ _ _). }
  destruct (try_env _ w) as [r w1]. simpl in *. unfold leasing, forget_lease in H2.
  rewrite delete_id in H2; [by destruct (state w1)|]. rewrite Hst.
  destruct (domain_routes (state w) !! (src, dst)); [exfalso; eauto | done].
Qed.

(** *** The sections: devices, tunnels, targets *)

(** No other device is to have, or has, carve-outs at the address. *)
Definition target_free (id : Uuid) (ip : str) (s : RoutingState) : Prop :=
  forall id' p, id' <> id ->
    switchback_targets s !! id' = Some p \/ applied_switchback s !! id' = Some p -> ip <> fst p.

Lemma target_free_delete id ip s : target_free id ip s ->
  target_free id ip (set_switchback (delete id (applied_switchback s)) s).
Proof.
  intros H id' p Hne [H'|H']; simpl in *; [|apply lookup_delete_Some in H' as [_ H']]; eauto.
Qed.

Lemma synced_retarget id ip cs s l : synced s l -> target_free id ip s -> Forall cidr_ok cs ->
  synced (set_targets (<[id := (ip, cs)]> (switchback_targets s)) s) l.
Proof.
  intros [Hsh Htr] Hf Hok. split.
  - destruct Hsh. split; simpl; try done.
    + intros id' src cs' [[-> [= <- <-] ]|[_ H]]%lookup_insert_Some; eauto.
    + apply distinct_insert; [done|]. intros id' a' Hne Ha. simpl. eauto.
    + apply distinct_insert_both; [done|]. intros id' a' Hne Ha. simpl. eauto.
  - intros r Hr. apply Htr. by eapply tracked_mono; [..|exact Hr].
Qed.

Lemma keeps_remove_kernel_state id : sm_keeps (fun w : W => inv w) (remove_device_kernel_state id).
Proof.
  intros w Hi. by destruct (remove_device_kernel_state_post id (fun _ => True) ltac:(done)
    ltac:(done) w (conj I Hi)).
Qed.

Lemma keeps_remove_routes ctx id ip : sm_keeps (fun w : W => inv w) (remove_device_routes ctx id ip).
Proof.
  unfold remove_device_routes. walk; [apply keeps_remove_kernel_state| |by apply sm_keeps_modify].
  apply keeps_state. intros w Hi. eapply synced_mono; [exact Hi|..]; simpl; eauto with wardnet.
Qed.

Lemma ip_change_locked_inv id ip :
  sm_post (fun w : W => target_free id ip (state w) /\ inv w) (ip_change_locked id ip)
    (fun _ w => inv w).
Proof.
  intros w Hw. unfold ip_change_locked. rewrite sm_bind_run. simpl. rewrite sm_bind_run.
  pose proof (remove_device_kernel_state_post id (target_free id ip) ltac:(done)
    (target_free_delete id ip) w Hw) as [[H1 _] H2].
  destruct (remove_device_kernel_state id w) as [u w1]. simpl in *.
  destruct (switchback_targets (state w1) !! id) as [[old cs]|] eqn:E.
  - apply synced_retarget; [done..|]. destruct H2 as [Hsh _]. by eapply sh_targets.
  - by destruct (state w1).
Qed.

Lemma keeps_tunnel_down tid : sm_keeps (fun w : W => inv w) (tunnel_down_locked tid).
Proof.
  unfold tunnel_down_locked. walk; try apply keeps_remove_kernel_state;
    try (by apply sm_keeps_modify).
  all: try (apply (keeps_frame synced), frames_remove_table).
  all: apply keeps_state; intros w Hi; eapply synced_mono; [exact Hi|..]; done.
Qed.

Lemma foldl_delete_sub (ps : list (Uuid * AppliedRule)) : forall (m : gmap Uuid AppliedRule) id a,
  foldl (fun m '(id, _) => delete id m) m ps !! id = Some a -> m !! id = Some a.
Proof.
  induction ps as [|[id' a'] ps IH]; intros m id a; simpl; [done|].
  intros H%IH. by eapply delete_lookup_sub.
Qed.

Lemma keeps_table_lost t : sm_keeps (fun w : W => inv w) (table_lost_locked t).
Proof.
  unfold table_lost_locked. walk; apply keeps_state; intros w Hi;
    eapply synced_mono; [exact Hi|..]; simpl; try done.
  intros ? ?. apply foldl_delete_sub.
Qed.

Lemma switchback_locked_inv id ip cs : Forall cidr_ok cs ->
  sm_post (fun w : W => target_free id ip (state w) /\ inv w) (switchback_locked id ip cs)
    (fun _ w => inv w).
Proof.
  intros Hok w [Hf Hi]. unfold switchback_locked. case_bool_decide; rewrite sm_bind_run; simpl.
  - apply (keeps_remove_switchback_for_device id (fun _ => True)); [done|]. split; [done|].
    eapply synced_mono; [exact Hi|..]; simpl; eauto with wardnet.
  - apply (keeps_reconcile_switchback id (fun _ => True)); [done|]. split; [done|].
    by apply synced_retarget.
Qed.

(** *** Start-up *)

Lemma clear_prune_inv : sm_keeps (fun w : W => inv w)
  (modify_state clear_tracking ;; prune_domain_rules).
Proof.
  intros w Hi. rewrite sm_bind_run. simpl.
  match goal with |- context [on_state ?f w] => set (w1 := on_state f w) end.
  set (P := fun s l => domain_routes s = ∅ /\ synced s l).
  assert (H1 : P (state w1) (rules w1)).
  { split; [done|]. eapply synced_mono; [exact Hi|..]; simpl; try done; intros ? ? H;
      by rewrite lookup_empty in H. }
  assert (Hk : sm_keeps (fun w => P (state w) (rules w)) prune_domain_rules).
  { unfold prune_domain_rules. walk.
    - apply (keeps_frame P). intros n. pose proof (list_domain_route_rules_law DOMAIN_ROUTE_RULE_PRIORITY n).
      by destruct (list_domain_route_rules _ n) as [r n']; destruct H.
    - apply (keeps_remove_domain P). intros ? ? _ _. apply synced_survives.
      intros s r Hs _ Hsel Htr.
      destruct (lease_tracked _ _ _ _ _ Hsel Htr) as (src & dst & e & Hl & _).
      by rewrite Hs, lookup_empty in Hl. }
  by destruct (Hk w1 H1).
Qed.

(** *** Start-up: the repair of the device band *)

Definition occ (r0 : IpRule) (l : list IpRule) : nat := length (filter (fun r => r = r0) l).

Lemma occ_elem r l : r ∈ l <-> (0 < occ r l)%nat.
Proof.
  unfold occ. split.
  - intros H. assert (Hf : r ∈ filter (fun x => x = r) l) by by apply list_elem_of_filter.
    destruct (filter _ l); [set_solver | simpl; lia].
  - destruct (filter (fun x => x = r) l) as [|x xs] eqn:E; simpl; [lia|]. intros _.
    assert (Hx : x ∈ filter (fun y => y = r) l) by (rewrite E; set_solver).
    by apply list_elem_of_filter in Hx as [-> ?].
Qed.

Lemma occ_perm r l l' : l ≡ₚ l' -> occ r l = occ r l'.
Proof. intros H. unfold occ. by rewrite H. Qed.

Lemma occ_cons r x l : occ r (x :: l) = ((if decide (x = r) then 1 else 0) + occ r l)%nat.
Proof. unfold occ. rewrite filter_cons. by case_decide. Qed.

Lemma occ_added r0 r l l' : rule_added r l l' -> (occ r0 l <= occ r0 l')%nat.
Proof. intros [[_ ->]|Hp]; [lia|]. rewrite (occ_perm _ _ _ Hp), occ_cons. lia. Qed.

Lemma occ_removed r0 sel l l' : rule_removed sel l l' -> (occ r0 l <= S (occ r0 l'))%nat.
Proof. intros (r & _ & Hp). rewrite (occ_perm _ _ _ Hp), occ_cons. case_decide; lia. Qed.

Lemma occ_kept r0 sel l l' : rule_removed sel l l' -> ~ sel r0 -> (occ r0 l <= occ r0 l')%nat.
Proof.
  intros (r & Hr & Hp) Hn. rewrite (occ_perm _ _ _ Hp), occ_cons.
  case_decide; [by subst | lia].
Qed.

(** The rules of the device band are all the daemon's own. *)
Definition device_band (l : list IpRule) : Prop :=
  forall r, r ∈ l -> ru_priority r = DEVICE_RULE_PRIORITY ->
    exists ip t, r = from_rule ip t DEVICE_RULE_PRIORITY.

Abbreviation key_of ip t := (show_ipv4 ip, t, DEVICE_RULE_PRIORITY).

Lemma count_rules_spec ks (k : str * Z * Z) : forall m,
  snd k <> SWITCHBACK_RULE_PRIORITY -> snd k <> DOMAIN_ROUTE_RULE_PRIORITY ->
  default 0 (foldl count_rule m ks !! k)
  = default 0 (m !! k) + Z.of_nat (length (filter (fun x => x = k) ks)).
Proof.
  induction ks as [|[[src t] p] ks IH]; intros m H1 H2; simpl; [lia|].
  rewrite IH by done. rewrite filter_cons. unfold count_rule. case_decide as Hk.
  - subst k. simpl in H1, H2.
    rewrite (proj2 (Z.eqb_neq p SWITCHBACK_RULE_PRIORITY)), (proj2 (Z.eqb_neq p DOMAIN_ROUTE_RULE_PRIORITY))
      by done. simpl. rewrite lookup_insert_eq. simpl. lia.
  - case_match; [done|]. by rewrite lookup_insert_ne by congruence.
Qed.

Lemma count_rules_dom ks k c : count_rules ks !! k = Some c -> k ∈ ks /\
  snd k <> SWITCHBACK_RULE_PRIORITY /\ snd k <> DOMAIN_ROUTE_RULE_PRIORITY.
Proof.
  unfold count_rules. enough (H : forall ks m, foldl count_rule m ks !! k = Some c ->
    is_Some (m !! k) \/ k ∈ ks /\ snd k <> SWITCHBACK_RULE_PRIORITY /\ snd k <> DOMAIN_ROUTE_RULE_PRIORITY).
  { intros Hc. destruct (H ks ∅ Hc) as [[x Hx]|]; [by rewrite lookup_empty in Hx | done]. }
  clear ks. induction ks as [|[[src t] p] ks IH]; intros m; simpl; [eauto|].
  intros [Hm|(Hin & Hp)]%IH; [|right; split; [set_solver | done]]. unfold count_rule in Hm.
  destruct ((p =? _) || (p =? _)) eqn:Ep; [by left|]. breflect.
  destruct Hm as [x [[<- _]|[_ Hx]]%lookup_insert_Some]; [right; split; [set_solver | done] | left; eauto].
Qed.

(** The listing counts exactly the copies of a device rule. *)
Lemma listing_occ ip t l : device_band l -> Forall rule_wf l -> is_u32 ip -> 100 <= t ->
  length (filter (fun x => x = key_of ip t) (omap wardnet_entry l))
  = occ (from_rule ip t DEVICE_RULE_PRIORITY) l.
Proof.
  intros Hb Hwf Hip Ht. unfold occ, omap.
  induction l as [|r l IH]; [done|]. apply Forall_cons in Hwf as [Hr Hwf].
  specialize (IH ltac:(intros x Hx; apply Hb; set_solver) Hwf). rewrite filter_cons. simpl.
  assert (Heq : wardnet_entry r = Some (key_of ip t) <-> r = from_rule ip t DEVICE_RULE_PRIORITY).
  { unfold wardnet_entry. split.
    - destruct (ru_table r <? 100); [done|]. destruct (ru_src r) as [[a len]|] eqn:Es; [|done].
      intros [= Ha <- Hp]. destruct (Hb r ltac:(set_solver) Hp) as (ip' & t' & ->).
      simpl in *. unfold mk_prefix in Es. simpl in Es. simplify_eq. f_equal.
      destruct Hr as [[Hu _] _].
      pose proof (parse_show_ipv4 a Hu) as H1. rewrite Ha, parse_show_ipv4 in H1 by done. congruence.
    - intros ->. simpl. by rewrite (proj2 (Z.ltb_ge _ _)) by lia. }
  destruct (wardnet_entry r) as [e|] eqn:Ee.
  - rewrite filter_cons. case_decide as H1; case_decide as H2; simpl; naive_solver.
  - case_decide as H2; naive_solver.
Qed.

Lemma remove_times_occ r0 m ip t p n (w : W) : (m + n <= occ r0 (rules w))%nat ->
  (n <= occ r0 (rules (snd (remove_times m ip t p w))))%nat.
Proof.
  revert w. induction m as [|m IH]; intros w Hw; simpl; [done|].
  rewrite sm_bind_run. unfold try_env.
  pose proof (remove_ip_rule_law ip t p (env w)) as Hl.
  destruct (remove_ip_rule ip t p (env w)) as [[u|e] n'] eqn:E; simpl; unfold rules in *; simpl in *.
  - destruct Hl as (a & _ & Hr). apply IH. simpl. pose proof (occ_removed r0 _ _ _ Hr). lia.
  - rewrite Hl. lia.
Qed.

(** One group leaves any rule it does not name alone. *)
Lemma repair_rule_keeps r0 n wanted counts k c :
  (forall a, parse_ipv4 (fst (fst k)) = Some a -> ~ from_selects a (snd (fst k)) (snd k) r0) ->
  is_u32 (snd (fst k)) ->
  sm_keeps (fun w : W => (n <= occ r0 (rules w))%nat) (repair_rule wanted counts (k, c)).
Proof.
  destruct k as [[src t] p]. simpl. intros Hn Ht.
  assert (Hrm : forall m, sm_keeps (fun w : W => (n <= occ r0 (rules w))%nat) (remove_times m src t p)).
  { intros m. apply (keeps_remove_times (fun _ l => (n <= occ r0 l)%nat)).
    intros a Ha s l l' Hl Hr. pose proof (occ_kept r0 _ _ _ Hr (Hn a Ha)). lia. }
  unfold repair_rule. walk; try apply Hrm.
  apply (keeps_add_ip_rule (fun _ l => (n <= occ r0 l)%nat)); [|done..].
  intros s' l l' r Hl Ha. pose proof (occ_added r0 _ _ _ Ha). lia.
Qed.

Lemma wanted_binding s id a t : applied s !! id = Some a -> ar_table a = Some t ->
  (ar_device_ip a, t) ∈ wanted_bindings s.
Proof.
  intros Ha Ht. unfold wanted_bindings. rewrite elem_of_list_to_set, list_elem_of_omap.
  exists (id, a). split; [by apply elem_of_map_to_list|]. simpl. by rewrite Ht.
Qed.

Lemma keeps_state_eq {A} (m : ST N str A) (s : RoutingState) :
  sm_keeps (fun w : W => state w = s) (try_env m).
Proof. apply keeps_try. done. Qed.

Lemma repair_rule_state s wanted counts p :
  sm_keeps (fun w : W => state w = s) (repair_rule wanted counts p).
Proof.
  assert (Hrm : forall m i t p, sm_keeps (fun w : W => state w = s) (remove_times m i t p)).
  { induction m as [|m IH]; intros; simpl; walk; [apply keeps_state_eq | apply IH]. }
  unfold repair_rule. walk; try apply Hrm. apply keeps_state_eq.
Qed.

(** The groups of other keys leave a binding's rule alone. *)
Lemma repair_others wanted ip t (w : W) n ps :
  let counts := count_rules (omap wardnet_entry (rules w)) in
  (forall p, p ∈ ps -> p ∈ map_to_list counts /\ fst p <> key_of ip t) ->
  sm_keeps (fun w : W => (n <= occ (from_rule ip t DEVICE_RULE_PRIORITY) (rules w))%nat)
    (sm_iter (repair_rule wanted counts) ps).
Proof.
  intros counts Hps. apply sm_keeps_iter. intros [k c] Hkc.
  destruct (Hps _ Hkc) as [Hk%elem_of_map_to_list Hne]. simpl in Hne.
  apply count_rules_dom in Hk as (Hk & _).
  apply list_elem_of_omap in Hk as (r & Hr & He). unfold wardnet_entry in He.
  destruct (Z.ltb_spec (ru_table r) 100) as [|Hge]; [done|].
  destruct (ru_src r) as [[a len]|]; [|done]. injection He as <-.
  apply repair_rule_keeps; cbn [fst snd].
  - intros a' [Ha' _]%show_parse_ipv4 (Hs & [Hz|Hz] & Hp); [lia|]. simpl in *.
    apply Hne. unfold mk_prefix in Hs. simpl in Hs. congruence.
  - pose proof (ip_rules_wf (env w)) as Hwf. rewrite Forall_forall in Hwf.
    by destruct (Hwf r Hr) as (_ & _ & ? & _).
Qed.

(** The count of a binding's own group is its number of copies. *)
Lemma binding_count ip t (w : W) c : device_band (rules w) -> is_u32 ip ->
  count_rules (omap wardnet_entry (rules w)) !! key_of ip t = Some c ->
  c = Z.of_nat (occ (from_rule ip t DEVICE_RULE_PRIORITY) (rules w)).
Proof.
  intros Hb Hip Ek. set (kr := omap wardnet_entry (rules w)) in *.
  assert (H100 : 100 <= t).
  { apply count_rules_dom in Ek as (Ek & _). apply list_elem_of_omap in Ek as (r & _ & He).
    unfold wardnet_entry in He. destruct (Z.ltb_spec (ru_table r) 100); [done|].
    destruct (ru_src r) as [[]|]; naive_solver lia. }
  pose proof (count_rules_spec kr (key_of ip t) ∅ ltac:(done) ltac:(done)) as Hs.
  change (foldl count_rule ∅ kr) with (count_rules kr) in Hs.
  rewrite Ek, lookup_empty in Hs. simpl in Hs. rewrite Hs. unfold kr.
  rewrite listing_occ; [lia | done | apply ip_rules_wf | done | done].
Qed.

(** A device's binding outlives the repair: its own group keeps one copy. *)
Lemma repair_binding wanted ip t (w : W) :
  let counts := count_rules (omap wardnet_entry (rules w)) in
  device_band (rules w) -> from_rule ip t DEVICE_RULE_PRIORITY ∈ rules w -> is_u32 ip ->
  (show_ipv4 ip, t) ∈ wanted ->
  from_rule ip t DEVICE_RULE_PRIORITY
    ∈ rules (snd (sm_iter (repair_rule wanted counts) (map_to_list counts) w)).
Proof.
  intros counts Hb Hin Hip Hw. rewrite occ_elem in Hin |- *.
  destruct (counts !! key_of ip t) as [c|] eqn:Ek.
  2:{ apply (repair_others wanted ip t w 1); [|lia]. intros [k c] Hkc. split; [done|].
      apply elem_of_map_to_list in Hkc. simpl. change (counts !! k = Some c) in Hkc. congruence. }
  pose proof (binding_count ip t w c Hb Hip Ek) as Hc.
  apply elem_of_map_to_list, list_elem_of_split in Ek as (l1 & l2 & El).
  assert (Hne : forall p, p ∈ l1 ++ l2 -> p ∈ map_to_list counts /\ fst p <> key_of ip t).
  { intros p Hp. rewrite El. split; [set_solver|].
    pose proof (NoDup_fst_map_to_list counts) as Hnd. rewrite El, fmap_app, fmap_cons in Hnd.
    apply NoDup_app in Hnd as (_ & Hd1 & [Hd2 _]%NoDup_cons). intros Hk.
    apply elem_of_app in Hp as [Hp|Hp]; apply (list_elem_of_fmap_2 fst) in Hp; rewrite Hk in Hp;
      simpl in *; set_solver. }
  rewrite El, sm_iter_app. cbn [sm_iter]. rewrite sm_bind_run.
  apply (repair_others wanted ip t w 1); [intros p Hp; apply Hne; set_solver|].
  set (w1 := snd (sm_iter _ l1 w)).
  assert (H1 : (Z.to_nat c <= occ (from_rule ip t DEVICE_RULE_PRIORITY) (rules w1))%nat).
  { apply (repair_others wanted ip t w); [intros p Hp; apply Hne; set_solver|]. lia. }
  unfold repair_rule. rewrite (bool_decide_eq_true_2 _ Hw). cbn [negb andb].
  rewrite Z.eqb_refl. cbn [negb]. destruct (Z.ltb_spec 1 c) as [Hc1|]; cbn [snd].
  - rewrite sm_bind_run. cbn [snd mret sm_mret]. apply remove_times_occ. lia.
  - unfold mret, sm_mret. cbn [snd]. lia.
Qed.

Lemma reconcile_ip_rules_inv : sm_post (fun w : W => device_band (rules w) /\ inv w)
  reconcile_ip_rules (fun _ w => inv w).
Proof.
  intros w [Hb Hi]. unfold reconcile_ip_rules. rewrite sm_bind_run. unfold try_env.
  pose proof (list_wardnet_rules_law (env w)) as Hl.
  destruct (list_wardnet_rules (env w)) as [[kr|e] n'] eqn:E; simpl in *;
    [|unfold rules in *; simpl; by rewrite (proj1 Hl)].
  rewrite sm_bind_run. destruct Hl as [Hr Hk]. specialize (Hk kr eq_refl). subst kr.
  change (gets wanted_bindings (set_env n' w)) with (wanted_bindings (state w), set_env n' w).
  cbn [fst snd]. set (w1 := set_env n' w). set (wanted := wanted_bindings (state w)).
  assert (Hw1 : rules w1 = rules w) by done.
  change (ip_rules (env w)) with (rules w). rewrite <- Hw1.
  set (counts := count_rules _). set (w2 := snd (sm_iter _ _ w1)).
  assert (Hst : state w2 = state w).
  { apply (sm_keeps_iter (fun w' : W => state w' = state w)); [|done].
    intros p _. apply repair_rule_state. }
  destruct Hi as [Hsh Htr]. split; [by rewrite Hst|]. rewrite Hst. intros r Hr'.
  pose proof (Htr r Hr') as Hin.
  destruct (decide (ru_priority r = DEVICE_RULE_PRIORITY)) as [Hp|Hp].
  - destruct Hr' as [id a t ip H1 H2 H3| |]; [|done..].
    destruct (show_parse_ipv4 _ _ H3) as [Hs Hu].
    apply repair_binding; [by rewrite Hw1.. | done |]. rewrite Hs. by eapply wanted_binding.
  - apply (sm_keeps_iter (fun w' : W => r ∈ rules w')); [|by rewrite Hw1].
    intros [k c] Hkc%elem_of_map_to_list. pose proof (count_rules_dom _ _ _ Hkc) as (Hk & Hk1 & Hk2).
    assert (Hu : is_u32 (snd (fst k))).
    { apply list_elem_of_omap in Hk as (r' & Hr'' & He). unfold wardnet_entry in He.
      pose proof (ip_rules_wf (env w1)) as Hwf. rewrite Forall_forall in Hwf.
      destruct (Hwf r' Hr'') as (_ & _ & ? & _).
      destruct (ru_table r' <? 100); [done|]. destruct (ru_src r') as [[]|]; [|done].
      by injection He as <-. }
    intros w' Hw'. rewrite occ_elem in Hw' |- *.
    apply (repair_rule_keeps r 1 wanted counts k c); [|done|lia].
    intros a' _ (_ & _ & Hp'). destruct Hr'; simpl in *; congruence.
Qed.

(** *** Start-up: the sweep of the carve-outs *)

(** Every tracked carve-out is one the targets still ask for. *)
Definition carve_current (s : RoutingState) : Prop :=
  forall id ip cs c, applied_switchback s !! id = Some (ip, cs) -> c ∈ cs ->
    (ip, c) ∈ desired_carveouts s.

Lemma cidr_ok_parse c d len : cidr_ok c -> parse_ipv4_cidr c = Ok (d, len) ->
  0 < len /\ c = show_ipv4 d ++ "/" ++ show_u8 len.
Proof. intros (d' & l' & H1 & H2 & H3) H. rewrite H in H1. by simplify_eq. Qed.

Lemma sweep_one (s : RoutingState) src dst len : is_u32 dst -> 0 < len <= 32 -> carve_current s ->
  let cidr := show_ipv4 dst ++ "/" ++ show_u8 len in (src, cidr) ∉ desired_carveouts s ->
  sm_keeps (fun w : W => state w = s /\ inv w)
    (try_env (remove_switchback_rule src cidr SWITCHBACK_RULE_PRIORITY)).
Proof.
  intros Hu Hlen Hcur cidr Hn.
  apply (keeps_remove_switchback (fun s' l => s' = s /\ synced s' l)).
  intros a d len' Ha Hd. apply (synced_survives (fun s' => s' = s)). intros s' r -> Hsh Hsel Htr.
  unfold cidr in *. rewrite parse_cidr_show in Hd by lia || done. injection Hd as <- <-.
  destruct (carve_tracked _ _ _ _ _ Hsel Htr) as (id & src' & cs & c & p & H1 & H2 & H3 & [|H4] & _);
    [lia|].
  apply Hn. rewrite (parse_ipv4_inj _ _ _ Ha H3).
  assert (Hc : cidr_ok c).
  { destruct (sh_carve _ Hsh _ _ _ H1) as [Hf _]. rewrite Forall_forall in Hf. by apply Hf. }
  destruct (cidr_ok_parse _ _ _ Hc H4) as [_ <-]. by eapply Hcur.
Qed.

Lemma reconcile_carveouts_inv : sm_post (fun w : W => carve_current (state w) /\ inv w)
  reconcile_carveouts (fun _ w => inv w).
Proof.
  intros w [Hcur Hi]. unfold reconcile_carveouts. rewrite sm_bind_run. unfold try_env.
  pose proof (list_switchback_rules_law (env w)) as Hl.
  destruct (list_switchback_rules (env w)) as [[kc|e] n'] eqn:E; simpl in *;
    [|unfold rules in *; simpl; by rewrite (proj1 Hl)].
  destruct Hl as [Hr Hk]. specialize (Hk kc eq_refl). subst kc.
  rewrite sm_bind_run.
  change (gets desired_carveouts (set_env n' w)) with (desired_carveouts (state w), set_env n' w).
  cbn [fst snd]. rewrite sm_bind_run. set (w1 := set_env n' w).
  match goal with |- context [sm_iter ?f (omap ?g ?l) w1] => assert (Hk : sm_keeps
    (fun w' : W => state w' = state w /\ inv w') (sm_iter f (omap g l))) end.
  { apply sm_keeps_iter. intros x (r & Hin & He)%list_elem_of_omap.
    pose proof (ip_rules_wf (env w)) as Hwf. rewrite Forall_forall in Hwf.
    destruct (Hwf r Hin) as (_ & Hd & _). unfold switchback_entry in He.
    destruct (negb _ || _); [done|].
    destruct (ru_src r) as [[src ?]|]; [|done]. destruct (ru_dst r) as [[dst len]|]; [|done].
    injection He as <-. cbn [fst snd]. destruct (ru_priority r =? _) eqn:Ep; cbn [negb];
      [|apply sm_keeps_ret].
    case_bool_decide; [apply sm_keeps_ret|]. apply sm_keeps_bind; [|intros; apply sm_keeps_ret].
    apply Z.eqb_eq in Ep. rewrite Ep. by apply sweep_one; [apply Hd..| |]. }
  specialize (Hk w1). destruct (sm_iter _ (omap _ _) w1) as [u w2]. cbn [snd] in *.
  destruct Hk as [_ H2]; [split; [done|]; unfold rules, w1; simpl; by rewrite Hr|].
  rewrite sm_bind_run.
  change (gets (λ s : RoutingState, (map_to_list (switchback_targets s)).*1) w2)
    with ((map_to_list (switchback_targets (state w2))).*1, w2). cbn [fst snd].
  apply (sm_keeps_iter (fun w => inv w)); [|done]. intros id _ w3 H3.
  by apply (keeps_reconcile_switchback id (fun _ => True)).
Qed.

(** *** Rebuilding the address snapshot *)

(** The rule with another upstream, never a foreign tunnel's. *)
Definition rebound (a a' : AppliedRule) : Prop :=
  exists u, a' = with_upstream u a /\
    (u = DefaultUpstream \/ exists t, ar_tunnel_id a = Some t /\ u = TunnelUpstream t).

Lemma override_frame P tid : sm_keeps (fun w : W => P (state w) (rules w))
  (tunnel_dns_override_active tid).
Proof. unfold tunnel_dns_override_active. walk. apply keeps_frame, frames_tunnel_config. Qed.

Lemma refresh_rule_post s l cache out p :
  sm_post (fun w : W => state w = s /\ rules w = l) (refresh_rule (cache, out) p)
    (fun r w => (state w = s /\ rules w = l) /\ exists a', snd r = <[fst p := a']> out /\
       rebound (snd p) a').
Proof.
  destruct p as [id a]. unfold refresh_rule. destruct (ar_tunnel_id a) as [t|] eqn:Et.
  2:{ apply sm_post_ret. intros w Hw. split; [done|]. eexists. split; [done|].
      exists DefaultUpstream. eauto. }
  assert (Hrb : forall b : bool, rebound a (with_upstream (if b then TunnelUpstream t else DefaultUpstream) a)).
  { intros []; eexists; eauto. }
  eapply (sm_post_bind _ _ _ (fun _ w => state w = s /\ rules w = l)).
  2:{ intros [b c]. apply sm_post_ret. intros w Hw. split; [done|]. eexists. split; [done|]. apply Hrb. }
  destruct (cache !! t) as [v|]; [by apply sm_post_ret|].
  eapply sm_post_bind; [apply (override_frame (fun s' l' => s' = s /\ l' = l))|].
  intros o. by apply sm_post_ret.
Qed.

Lemma refresh_rules_post s l ps : forall st,
  sm_post (fun w : W => state w = s /\ rules w = l) (sm_fold refresh_rule st ps)
    (fun r w => (state w = s /\ rules w = l) /\ forall id a', snd r !! id = Some a' ->
       snd st !! id = Some a' \/ exists a, (id, a) ∈ ps /\ rebound a a').
Proof.
  induction ps as [|[id a] ps IH]; intros [cache out]; cbn [sm_fold]; [apply sm_post_ret; auto|].
  eapply sm_post_bind; [apply refresh_rule_post|]. intros [cache' out'] w (Hw & a' & Ho & Hr).
  simpl in Ho. destruct (IH (cache', out') w Hw) as [H1 H2]. split; [done|].
  intros id' x Hx. destruct (H2 id' x Hx) as [H|(a0 & Hin & H)]; [|right; exists a0; split; [set_solver | done]].
  simpl in H. rewrite Ho in H. apply lookup_insert_Some in H as [[<- <-]|[_ H]]; [|by left].
  right. exists a. split; [set_solver | done].
Qed.

Lemma rebuild_applied (w : W) : let w' := snd (rebuild_dns_upstream_snapshot w) in
  rules w' = rules w /\ (exists out, state w' = set_applied out (state w)) /\
  forall id a', applied (state w') !! id = Some a' ->
    exists a, applied (state w) !! id = Some a /\ rebound a a'.
Proof.
  cbv zeta. unfold rebuild_dns_upstream_snapshot. rewrite sm_bind_run.
  change (gets _ w) with (map_to_list (applied (state w)), w). cbn [fst snd]. rewrite sm_bind_run.
  pose proof (refresh_rules_post (state w) (rules w) (map_to_list (applied (state w))) (∅, ∅) w
                ltac:(done)) as H.
  destruct (sm_fold refresh_rule _ _ w) as [[cache out] w1]. simpl in H |- *.
  destruct H as [[H1 H2] H3]. split_and!; [done | by rewrite H1; eexists |].
  intros id a' Ha. destruct (H3 id a' Ha) as [H|(a & Hin & Hr)]; [by rewrite lookup_empty in H|].
  exists a. split; [by apply elem_of_map_to_list | done].
Qed.

Lemma keeps_rebuild : sm_keeps (fun w : W => inv w) rebuild_dns_upstream_snapshot.
Proof.
  intros w [Hsh Htr]. destruct (rebuild_applied w) as (Hr & (out & Hs) & Ha).
  set (w' := snd (rebuild_dns_upstream_snapshot w)) in *. rewrite Hs in *. simpl in Ha.
  unfold rules in *. rewrite Hr. split.
  - destruct Hsh. split; simpl; try done.
    + intros id1 id2 a1 a2 Hne H1 H2.
      destruct (Ha _ _ H1) as (b1 & Hb1 & u1 & -> & _), (Ha _ _ H2) as (b2 & Hb2 & u2 & -> & _).
      exact (sh_addr0 id1 id2 b1 b2 Hne Hb1 Hb2).
    + intros id a t H1 H2. destruct (Ha _ _ H1) as (b & Hb & u & -> & _). by apply (sh_bind0 id b t).
  - intros r Hr'. apply Htr.
    inversion Hr' as [id a t ip H1 H2 H3|? ? ? ? ? H1 H2 H3|? ? ? ? ? ? ? H1 H2 H3 H4]; subst; simpl in *.
    + destruct (Ha _ _ H1) as (b & Hb & u & -> & _). by eapply (tracked_binding _ id b).
    + by econstructor.
    + by econstructor.
Qed.

(** ** Histories

    The steps are the critical sections of the service, in any order and with
    any arguments, failing or not, and anything that leaves the tracking and the
    kernel's rules alone (tunnels, database, snapshots, policy). *)

Inductive RoutingSection : Type :=
| SecApply (id : Uuid) (ip : str) (resolved : RoutingTarget) (info : option TunnelRow) (override : bool)
| SecRemove (ctx : option AuthContext) (id : Uuid) (ip : str)
| SecIpChange (id : Uuid) (ip : str)
| SecTunnelDown (tid : Uuid)
| SecTableLost (table : Z)
| SecTargets (id : Uuid) (ip : str) (cs : list str)
| SecRoute (now : Z) (ip : str) (ips : list IpAddr) (ttl table : Z) (iface : option str)
| SecExpire (now : Z)
| SecPrune (orphans : list (str * str * Z))
| SecClear
| SecRepair
| SecSweep
| SecRebuild.

Definition run_section (x : RoutingSection) (w : W) : W :=
  match x with
  | SecApply id ip resolved info override => snd (apply_locked id ip resolved info override w)
  | SecRemove ctx id ip => snd (remove_device_routes ctx id ip w)
  | SecIpChange id ip => snd (ip_change_locked id ip w)
  | SecTunnelDown tid => snd (tunnel_down_locked tid w)
  | SecTableLost t => snd (table_lost_locked t w)
  | SecTargets id ip cs => snd (switchback_locked id ip cs w)
  | SecRoute now ip ips ttl table iface => snd (route_locked now ip ips ttl table iface w)
  | SecExpire now => snd (gc_expire now w)
  | SecPrune orphans => snd (gc_prune orphans w)
  | SecClear => snd ((modify_state clear_tracking ;; prune_domain_rules) w)
  | SecRepair => snd (reconcile_ip_rules w)
  | SecSweep => snd (reconcile_carveouts w)
  | SecRebuild => snd (rebuild_dns_upstream_snapshot w)
  end.

Inductive rstep : W -> W -> Prop :=
| step_section x w : rstep w (run_section x w)
| step_other w w' : state w' = state w -> rules w' = rules w -> rstep w w'.

(** What the service does not check and the bookkeeping relies on: a device is
    not bound (or given carve-out targets, or moved) at an address another tracked
    device still holds; carve-out targets are networks as the daemon prints them;
    interface numbers stay below [u32::MAX - 100] and tables are not zero; the
    device band of the kernel holds only rules of the daemon's shape when it is
    repaired; and the sweep of carve-outs runs while every tracked one is wanted
    (as at start-up, when none is tracked). *)
Definition orderly (x : RoutingSection) (w : W) : Prop :=
  match x with
  | SecApply id ip _ info _ => index_sane info /\ addr_free id ip (state w)
  | SecIpChange id ip => target_free id ip (state w)
  | SecTargets id ip cs => target_free id ip (state w) /\ Forall cidr_ok cs
  | SecRoute _ _ _ _ table _ => usable_table table
  | SecRepair => device_band (rules w)
  | SecSweep => carve_current (state w)
  | _ => True
  end.

Inductive orderly_step : W -> W -> Prop :=
| orderly_section x w : orderly x w -> orderly_step w (run_section x w)
| orderly_other w w' : state w' = state w -> rules w' = rules w -> orderly_step w w'.

Lemma orderly_rstep w w' : orderly_step w w' -> rstep w w'.
Proof. destruct 1; by constructor. Qed.

Lemma orderly_inv w w' : orderly_step w w' -> inv w -> inv w'.
Proof.
  destruct 1 as [x w Ho|w w' Es Er]; [destruct x; cbn [run_section orderly] in * |]; intros Hi.
  - destruct Ho. by apply apply_locked_inv.
  - by apply keeps_remove_routes.
  - by apply ip_change_locked_inv.
  - by apply keeps_tunnel_down.
  - by apply keeps_table_lost.
  - destruct Ho. by apply switchback_locked_inv.
  - by apply keeps_route_locked.
  - by apply keeps_gc_expire.
  - by apply keeps_gc_prune.
  - by apply clear_prune_inv.
  - by apply reconcile_ip_rules_inv.
  - by apply reconcile_carveouts_inv.
  - by apply keeps_rebuild.
  - congruence.
Qed.

Lemma history_inv w w' : rtc orderly_step w w' -> inv w -> inv w'.
Proof. induction 1 as [|x y z Hxy _ IH]; [done|]. intros Hx. apply IH. by eapply orderly_inv. Qed.

Lemma new_inv policy n : inv (new policy n).
Proof.
  split; [split; simpl; unfold distinct_on; intros; by simplify_map_eq|].
  intros r []; simpl in *; by simplify_map_eq.
Qed.

(** C25: whatever the order of device, tunnel, lease and target changes and
    whichever kernel calls fail, every rule the service believes installed (the
    binding of a tunnel-bound device, an unexpired domain lease, a carve-out) is
    in the kernel, and the bookkeeping is well formed: one device per address,
    usable tables, parseable addresses.  The history is orderly in what the
    service leaves unchecked: no device is bound, moved or given carve-out targets
    at an address that another tracked device still holds (draining the first one
    then takes the second one's rule with it), carve-out targets are canonical
    networks, interface numbers stay below [u32::MAX - 100] and routing tables are
    not zero, the device band holds no foreign rule when it is repaired, and the
    carve-outs are swept while every tracked one is wanted. *)
Theorem tracked_in_kernel policy n w : rtc orderly_step (new policy n) w ->
  shape (state w) /\ forall r, tracked (state w) r -> r ∈ ip_rules (env w).
Proof.
  intros H. by apply (history_inv _ _ H), new_inv.
Qed.

End kernel.
End laws.
