(* ===== verification/RoutingEffects.v ===== *)
(** * The routing service: bindings, snapshots, leases, policy

    What each operation achieves: the types of the recorded rules over every
    history, the DNS snapshots, that a reliable kernel ends up with exactly the
    recorded binding and with no orphaned lease, how the bands of rules decide a
    packet's table, and the handling of the default policy. *)

From S2P Require Import Prelude RustStr Net Auth DnsCache PolicyRouter RoutingTypes.
From S2P Require Import Routing RoutingLaws.

(** ** The types of recorded rules *)

(** A recorded target is resolved; table, tunnel and upstream fit it. *)
Definition rule_ok (a : AppliedRule) : Prop :=
  match ar_target a with
  | Tunnel t => ar_tunnel_id a = Some t /\ is_Some (ar_table a) /\
                (ar_dns_upstream a = DefaultUpstream \/ ar_dns_upstream a = TunnelUpstream t)
  | Direct => ar_tunnel_id a = None /\ ar_table a = None /\ ar_dns_upstream a = DefaultUpstream
  | Default => False
  end.

Definition applied_ok (s : RoutingState) : Prop :=
  forall id a, applied s !! id = Some a -> rule_ok a.

Lemma direct_rule_ok ip : rule_ok (direct_rule ip).
Proof. done. Qed.

Lemma rebound_ok a a' : rule_ok a -> rebound a a' -> rule_ok a'.
Proof.
  intros H (u & -> & Hu). unfold rule_ok in *. simpl. destruct (ar_target a) as [t| |]; [| |done].
  - destruct H as (H1 & H2 & _). split_and!; [done..|].
    destruct Hu as [->|(t' & Ht & ->)]; [by left | right; congruence].
  - destruct H as (H1 & H2 & _). split_and!; [done..|].
    destruct Hu as [->|(t' & Ht & ->)]; congruence.
Qed.

Section effects.
Context {N : Type} {D : RoutingDeps N} {U : UuidParse}.

Abbreviation W := (Routing N).

(** A property of the applied rules and the address snapshot alone: kept by
    every environment call and by the updates of the other tables. *)
Section applied_only.
Context (P : gmap Uuid AppliedRule -> gmap IpAddr UpstreamId -> Prop).
Abbreviation on_applied := (fun w : W => P (applied (state w)) (dns_upstream_snapshot w)).

Lemma applied_try {A} (m : ST N str A) : sm_keeps on_applied (try_env m).
Proof. by apply keeps_try. Qed.

Lemma applied_state f : (forall s sn, P (applied s) sn -> P (applied (f s)) sn) ->
  sm_keeps on_applied (modify_state f).
Proof. intros H. apply keeps_state. intros w. apply H. Qed.

Ltac ap := walk; try apply applied_try; try (by apply applied_state).

Lemma applied_drain ip t : sm_keeps on_applied (drain_ip_rules ip t).
Proof.
  intros w Hw. unfold drain_ip_rules. generalize (S (length (ip_rules (env w)))) as n.
  intros n. revert w Hw. change (sm_keeps on_applied (remove_ip_rules n ip t)).
  induction n as [|n IH]; simpl; ap. apply IH.
Qed.

Lemma applied_remove_switchback id : sm_keeps on_applied (remove_switchback_for_device id).
Proof. unfold remove_switchback_for_device. ap. Qed.

Lemma applied_reconcile_switchback id : sm_keeps on_applied (reconcile_switchback_for_device id).
Proof.
  unfold reconcile_switchback_for_device, carveouts_at, install_switchback. ap;
    apply applied_remove_switchback.
Qed.

Lemma applied_ensure i t : sm_keeps on_applied (ensure_tunnel_table i t).
Proof.
  assert (Hr : forall n, sm_keeps on_applied (add_route_table_retrying n i t)).
  { induction n as [|n IH]; simpl; ap. apply IH. }
  unfold ensure_tunnel_table. ap; apply Hr.
Qed.

Lemma applied_flush ip : sm_keeps on_applied (flush_stale_connections ip).
Proof. unfold flush_stale_connections. ap. Qed.

Lemma applied_route now ip ips ttl t i : sm_keeps on_applied (route_locked now ip ips ttl t i).
Proof.
  unfold route_locked, route_one, set_route. ap. apply applied_ensure.
Qed.

Lemma applied_expire now : sm_keeps on_applied (gc_expire now).
Proof. unfold gc_expire. ap. Qed.

Lemma applied_prune o : sm_keeps on_applied (gc_prune o).
Proof. unfold gc_prune. ap. Qed.

Lemma applied_targets id ip cs : sm_keeps on_applied (switchback_locked id ip cs).
Proof.
  unfold switchback_locked. ap; [apply applied_remove_switchback | apply applied_reconcile_switchback].
Qed.

Lemma applied_repair : sm_keeps on_applied reconcile_ip_rules.
Proof.
  assert (Hr : forall n i t p, sm_keeps on_applied (remove_times n i t p)).
  { induction n as [|n IH]; intros; simpl; ap. apply IH. }
  unfold reconcile_ip_rules, repair_rule. ap; apply Hr.
Qed.

Lemma applied_sweep : sm_keeps on_applied reconcile_carveouts.
Proof. unfold reconcile_carveouts. ap. apply applied_reconcile_switchback. Qed.

(** Closed under deletions and refreshes as well: the sections that forget
    devices. *)
Context (Pdel : forall m sn id, P m sn -> P (delete id m) sn).
Context (Pref : forall s sn, P (applied s) sn -> P (applied s) (build_dns_upstream_map s)).

Lemma applied_snapshot : sm_keeps on_applied refresh_dns_upstream_snapshot.
Proof. apply sm_keeps_modify. intros w. apply Pref. Qed.

Lemma applied_remove_kernel id : sm_keeps on_applied (remove_device_kernel_state id).
Proof.
  unfold remove_device_kernel_state.
  ap; try (apply applied_state; intros; by apply Pdel);
    try apply applied_remove_switchback; apply applied_drain.
Qed.

Lemma applied_remove_routes ctx id ip : sm_keeps on_applied (remove_device_routes ctx id ip).
Proof. unfold remove_device_routes. ap; [apply applied_remove_kernel | apply applied_snapshot]. Qed.

Lemma applied_ip_change id ip : sm_keeps on_applied (ip_change_locked id ip).
Proof. unfold ip_change_locked. ap. apply applied_remove_kernel. Qed.

Lemma applied_tunnel_down tid : sm_keeps on_applied (tunnel_down_locked tid).
Proof.
  unfold tunnel_down_locked. ap; try apply applied_snapshot; apply applied_remove_kernel.
Qed.

Lemma applied_table_lost t : sm_keeps on_applied (table_lost_locked t).
Proof.
  assert (H : forall (l : list (Uuid * AppliedRule)) m sn, P m sn ->
    P (foldl (fun m '(id, _) => delete id m) m l) sn).
  { induction l as [|[id a] l IH]; intros m sn Hm; simpl; [done | by apply IH, Pdel]. }
  unfold table_lost_locked. ap. apply applied_state. intros s sn. apply H.
Qed.

End applied_only.

Abbreviation ok := (fun (m : gmap Uuid AppliedRule) (_ : gmap IpAddr UpstreamId) =>
  forall i a, m !! i = Some a -> rule_ok a).
Abbreviation ok_world := (fun w : W => ok (applied (state w)) (dns_upstream_snapshot w)).

Lemma applied_ok_delete m sn id : ok m sn -> ok (delete id m) sn.
Proof. intros H i a [_ Hi]%lookup_delete_Some. eauto. Qed.

Lemma record_ok id rule : rule_ok rule ->
  sm_keeps ok_world (record_rule id rule).
Proof.
  intros Hr. apply keeps_state. intros w Hw i a H. simpl in H.
  apply lookup_insert_Some in H as [[_ <-]|[_ H]]; eauto.
Qed.

Lemma apply_locked_ok id ip resolved info ov :
  sm_keeps ok_world (apply_locked id ip resolved info ov).
Proof.
  assert (Hset : forall rule, rule_ok rule ->
    sm_keeps ok_world (settle id rule)).
  { intros rule Hr. unfold settle. walk; [by apply record_ok | by apply (applied_snapshot ok) |
      apply (applied_reconcile_switchback ok)]. }
  assert (Hfb : sm_keeps ok_world (fall_back id ip)).
  { unfold fall_back. walk; [by apply record_ok | by apply (applied_snapshot ok)]. }
  unfold apply_locked. walk; try apply Hfb; try (by apply Hset);
    try (apply (applied_remove_kernel ok), applied_ok_delete);
    try apply (applied_ensure ok); try apply (applied_try ok).
  all: apply Hset; unfold rule_ok; simpl; split_and!; [done | by eexists | destruct ov; auto].
Qed.

Context {L : RoutingDepsLaws N}.

Lemma rstep_ok w w' : rstep w w' -> applied_ok (state w) -> applied_ok (state w').
Proof.
  pose proof applied_ok_delete as Hdel. unfold applied_ok.
  destruct 1 as [x w|w w' Es _]; [destruct x; cbn [run_section]|]; intros Hi.
  - by apply apply_locked_ok.
  - by apply (applied_remove_routes ok).
  - by apply (applied_ip_change ok).
  - by apply (applied_tunnel_down ok).
  - by apply (applied_table_lost ok).
  - by apply (applied_targets ok).
  - by apply (applied_route ok).
  - by apply (applied_expire ok).
  - by apply (applied_prune ok).
  - assert (Hk : sm_keeps ok_world
      (modify_state clear_tracking ;; prune_domain_rules)).
    { unfold prune_domain_rules. walk; try apply (applied_try ok).
      apply keeps_state. intros w' _ i a H. simpl in H. by rewrite lookup_empty in H. }
    by apply Hk.
  - by apply (applied_repair ok).
  - by apply (applied_sweep ok).
  - destruct (rebuild_applied w) as (_ & _ & H). intros id a' Ha.
    destruct (H id a' Ha) as (a & Ha' & Hr). eauto using rebound_ok.
  - by rewrite Es.
Qed.

(** C28: over every history a recorded rule is well typed: its target is
    resolved, never [Default]; a device bound to a tunnel has a table and its
    queries go to that tunnel's resolver or to the default one, never to another
    tunnel's; a direct device has no table, no tunnel and the default resolver. *)
Theorem applied_well_typed policy n w id a : rtc rstep (new policy n) w ->
  applied (state w) !! id = Some a -> rule_ok a.
Proof.
  intros H Ha. enough (Hok : applied_ok (state w)) by eauto. clear Ha.
  assert (H0 : applied_ok (state (new policy n))) by (intros i x Hx; simpl in Hx; by rewrite lookup_empty in Hx).
  revert H0. generalize dependent (new policy n). induction 1; eauto using rstep_ok.
Qed.

(** ** Which band decides a packet *)

Section lookup.
Context {F : FibLookup} {FL : FibLookupLaws F}.

Lemma selected_by routes (r : IpRule) l src dst : r ∈ l -> rule_applies src dst r = true ->
  routes (ru_table r) dst = true ->
  exists r', fib_lookup routes l src dst = Some r' /\ r' ∈ l /\ decides routes src dst r' = true /\
    ru_priority r' <= ru_priority r.
Proof.
  intros Hr Ha Ht. assert (Hd : decides routes src dst r = true) by (unfold decides; by rewrite Ha, Ht).
  destruct (fib_lookup routes l src dst) as [r'|] eqn:E.
  - apply fib_lookup_found in E as (H1 & H2 & H3). exists r'. auto.
  - pose proof (fib_lookup_goes_on _ _ _ _ E r Hr). congruence.
Qed.

Lemma in_prefix_host ip : in_prefix (mk_prefix ip 32) ip = true.
Proof. simpl. apply Z.eqb_refl. Qed.

(** C26: packets of a device follow its bands in order, as long as the table of
    the band has a route to the destination (where it has none, the kernel goes
    on to later rules, and nothing is said): those of a tunnel-bound device are
    decided by a rule of priority 3000 or better, hence not by the host's own
    tables at 32766, those to a leased destination by 2000 or better, and those
    to a carve-out by 1000 or better, so that neither a lease nor the tunnel
    binding captures them.  This is for an orderly history (C25: no device is
    bound, moved or given carve-outs at an address another tracked device still
    holds, and the other conditions of [orderly]) and for a kernel lookup that
    behaves as ip-rule(8) documents. *)
Theorem bands_decide policy n w routes src dst : rtc orderly_step (new policy n) w ->
  (forall id a t, applied (state w) !! id = Some a -> ar_table a = Some t ->
     parse_ipv4 (ar_device_ip a) = Some src -> routes t dst = true ->
     exists r, fib_lookup routes (ip_rules (env w)) src dst = Some r /\ r ∈ ip_rules (env w) /\
       decides routes src dst r = true /\ ru_priority r <= 3000) /\
  (forall s d e, domain_routes (state w) !! (s, d) = Some e ->
     parse_ipv4 s = Some src -> parse_ipv4 d = Some dst -> routes (dr_table e) dst = true ->
     exists r, fib_lookup routes (ip_rules (env w)) src dst = Some r /\ r ∈ ip_rules (env w) /\
       decides routes src dst r = true /\ ru_priority r <= 2000) /\
  (forall id s cs c net len, applied_switchback (state w) !! id = Some (s, cs) -> c ∈ cs ->
     parse_ipv4 s = Some src -> parse_ipv4_cidr c = Ok (net, len) ->
     in_prefix (mk_prefix net len) dst = true -> routes RT_TABLE_MAIN dst = true ->
     exists r, fib_lookup routes (ip_rules (env w)) src dst = Some r /\ r ∈ ip_rules (env w) /\
       decides routes src dst r = true /\ ru_priority r <= 1000).
Proof.
  intros H. destruct (history_inv _ _ H (new_inv _ _)) as [_ Ht]. unfold rules in Ht. split_and!.
  - intros id a t Ha Hb Hs Hr. apply (selected_by routes (from_rule src t DEVICE_RULE_PRIORITY)).
    + apply Ht. by eapply tracked_binding.
    + unfold rule_applies. simpl. by rewrite Z.eqb_refl.
    + done.
  - intros s d e He Hs Hd Hr.
    apply (selected_by routes (from_to_rule src dst 32 (dr_table e) DOMAIN_ROUTE_RULE_PRIORITY)).
    + apply Ht. by eapply tracked_lease.
    + unfold rule_applies. simpl. by rewrite !Z.eqb_refl.
    + done.
  - intros id s cs c net len Hc Hin Hs Hn Hp Hr.
    apply (selected_by routes (from_to_rule src net len RT_TABLE_MAIN SWITCHBACK_RULE_PRIORITY)).
    + apply Ht. by eapply tracked_carveout.
    + unfold rule_applies. simpl ru_src. simpl ru_dst. by rewrite in_prefix_host.
    + done.
Qed.

End lookup.

End effects.
