(* ===== verification/RoutingSnapshots.v ===== *)
(** * The routing service: the DNS snapshots

    The resolver reads two maps the routing service publishes: by client address
    ([dns_upstream_snapshot]) and by device ([dns_device_upstream_snapshot]).
    Here: what the first contains after any sequence of calls, and that the
    second is what a direct computation without caches gives. *)

From S2P Require Import Prelude RustStr Net Auth DnsCache PolicyRouter RoutingTypes.
From S2P Require Import Routing RoutingLaws RoutingEffects.

(** ** The map built from the recorded rules *)

Definition upstream_step (m : gmap IpAddr UpstreamId) (p : Uuid * AppliedRule)
    : gmap IpAddr UpstreamId :=
  match ar_dns_upstream (snd p), parse_ip (ar_device_ip (snd p)) with
  | TunnelUpstream t, Some ip => <[ip := TunnelUpstream t]> m
  | _, _ => m
  end.

Lemma build_map_steps s :
  build_dns_upstream_map s = foldl upstream_step ∅ (map_to_list (applied s)).
Proof.
  unfold build_dns_upstream_map. generalize (∅ : gmap IpAddr UpstreamId).
  induction (map_to_list (applied s)) as [|[id a] l IH]; intros m; [done|].
  cbn [foldl]. by rewrite IH.
Qed.

(** A rule that sends the queries of an address to a tunnel's resolver. *)
Definition sends (ip : IpAddr) (u : UpstreamId) (a : AppliedRule) : Prop :=
  parse_ip (ar_device_ip a) = Some ip /\ ar_dns_upstream a = u /\ u <> DefaultUpstream.

Lemma upstream_steps_origin l : forall m ip u, foldl upstream_step m l !! ip = Some u ->
  m !! ip = Some u \/ exists p, p ∈ l /\ sends ip u (snd p).
Proof.
  induction l as [|p l IH]; intros m ip u; simpl; [by left|].
  intros [H|(q & Hq & Hs)]%IH; [|right; exists q; set_solver].
  unfold upstream_step in H.
  destruct (ar_dns_upstream (snd p)) as [|t] eqn:Eu; [by left|].
  destruct (parse_ip (ar_device_ip (snd p))) as [ip'|] eqn:Ei; [|by left].
  apply lookup_insert_Some in H as [[-> <-]|[_ H]]; [right | by left].
  exists p. split; [set_solver|]. done.
Qed.

Lemma upstream_steps_hit l ip u : (forall p v, p ∈ l -> sends ip v (snd p) -> v = u) ->
  forall m, (m !! ip = Some u \/ exists p, p ∈ l /\ sends ip u (snd p)) ->
  foldl upstream_step m l !! ip = Some u.
Proof.
  induction l as [|p l IH]; intros Hu m H; simpl; [destruct H as [?|(? & ?%elem_of_nil & _)]; done|].
  apply IH; [set_solver|]. unfold upstream_step.
  destruct (ar_dns_upstream (snd p)) as [|t] eqn:Eu.
  { destruct H as [H|(q & [->|Hq]%elem_of_cons & Hs)]; [by left | | right; eauto].
    destruct Hs as (_ & H1 & H2). congruence. }
  destruct (parse_ip (ar_device_ip (snd p))) as [ip'|] eqn:Ei.
  2:{ destruct H as [H|(q & [->|Hq]%elem_of_cons & Hs)]; [by left | | right; eauto].
      destruct Hs as (H1 & _). congruence. }
  destruct (decide (ip' = ip)) as [->|Hne].
  - left. rewrite lookup_insert_eq. f_equal. apply (Hu p); [set_solver | done].
  - rewrite lookup_insert_ne by done.
    destruct H as [H|(q & [->|Hq]%elem_of_cons & Hs)]; [by left | | right; eauto].
    destruct Hs as (H1 & _). congruence.
Qed.

Lemma build_map_origin s ip u : build_dns_upstream_map s !! ip = Some u ->
  exists id a, applied s !! id = Some a /\ sends ip u a.
Proof.
  rewrite build_map_steps. intros [H|([id a] & Hp & Hs)]%upstream_steps_origin; [done|].
  exists id, a. by apply elem_of_map_to_list in Hp.
Qed.

Lemma build_map_hit s ip u id a : applied s !! id = Some a -> sends ip u a ->
  (forall id' a', applied s !! id' = Some a' -> parse_ip (ar_device_ip a') = Some ip -> id' = id) ->
  build_dns_upstream_map s !! ip = Some u.
Proof.
  intros Ha Hs Huniq. rewrite build_map_steps. apply upstream_steps_hit.
  - intros [id' a'] v Hp%elem_of_map_to_list (Hi & Hv & _).
    assert (id' = id) as -> by by eapply Huniq. destruct Hs as (_ & Hu & _). simpl in *. congruence.
  - right. exists (id, a). split; [by apply elem_of_map_to_list | done].
Qed.

(** ** Deleting the keys of a list *)

Lemma foldl_delete_lookup {K A} `{Countable K} (l : list (K * A)) : forall (m : gmap K A) k a,
  (k, a) ∈ l -> foldl (fun m '(k, _) => delete k m) m l !! k = None.
Proof.
  assert (Hk : forall (l : list (K * A)) (m : gmap K A) i, m !! i = None ->
    foldl (fun m '(k, _) => delete k m) m l !! i = None).
  { intros l'. induction l' as [|[j b] l' IH]; intros m i Hi; simpl; [done|]. apply IH.
    by rewrite lookup_delete_None; right. }
  induction l as [|[j b] l IH]; intros m k a; [set_solver|].
  intros [[= -> ->]|Hin]%elem_of_cons; simpl; [apply Hk, lookup_delete_eq | by eapply IH].
Qed.

Lemma foldl_delete_other {K A} `{Countable K} (l : list (K * A)) : forall (m : gmap K A) k,
  (forall a, (k, a) ∉ l) -> foldl (fun m '(k, _) => delete k m) m l !! k = m !! k.
Proof.
  induction l as [|[j b] l IH]; intros m k Hk; simpl; [done|].
  rewrite IH by set_solver. apply lookup_delete_ne. intros ->. apply (Hk b). set_solver.
Qed.

(** ** Whole calls keep the address snapshot current *)

Section calls.
Context {N : Type} {D : RoutingDeps N} {U : UuidParse}.

Abbreviation W := (Routing N).

Abbreviation current := (fun (m : gmap Uuid AppliedRule) (sn : gmap IpAddr UpstreamId) =>
  sn = foldl upstream_step ∅ (map_to_list m)).
Abbreviation fresh := (fun w : W => current (applied (state w)) (dns_upstream_snapshot w)).

Lemma fresh_refresh (P : W -> Prop) : sm_post P refresh_dns_upstream_snapshot (fun _ => fresh).
Proof. intros w _. simpl. apply build_map_steps. Qed.

Lemma keeps_tunnel_info (P : W -> Prop) r : (forall w n, P w -> P (set_env n w)) ->
  sm_keeps P (tunnel_info r).
Proof. intros HP. unfold tunnel_info. walk; apply keeps_try; eauto. Qed.

Lemma keeps_override (P : W -> Prop) i : (forall w n, P w -> P (set_env n w)) ->
  sm_keeps P (dns_override_of i).
Proof. intros HP. unfold dns_override_of, tunnel_dns_override_active. walk. apply keeps_try; eauto. Qed.

Lemma settle_fresh id rule (P : W -> Prop) : sm_post P (settle id rule) (fun _ => fresh).
Proof.
  unfold settle. eapply sm_post_bind; [by apply (sm_post_modify _ _ (fun _ _ => True))|]. intros [].
  eapply sm_post_bind; [apply fresh_refresh|]. intros [].
  eapply sm_post_bind; [apply (applied_reconcile_switchback current)|]. intros [].
  by apply sm_post_ret.
Qed.

Lemma fall_back_fresh id ip (P : W -> Prop) : sm_post P (fall_back id ip) (fun _ => fresh).
Proof.
  unfold fall_back. eapply sm_post_bind; [by apply (sm_post_modify _ _ (fun _ _ => True))|]. intros [].
  eapply sm_post_bind; [apply fresh_refresh|]. intros []. by apply sm_post_ret.
Qed.

(** The snapshot is current, or this device's rule is gone and must be applied. *)
Abbreviation fresh_but := (fun (id : Uuid) (w : W) => fresh w \/ applied (state w) !! id = None).

Lemma apply_locked_fresh id ip resolved info ov :
  sm_post (fresh_but id) (apply_locked id ip resolved info ov) (fun _ => fresh).
Proof.
  unfold apply_locked.
  eapply (sm_post_bind _ _ _ (fun skip w => skip = true -> fresh w)).
  { intros w [H|H] Hs; [done|]. unfold gets, sm_gets, already_applied in Hs. simpl in Hs.
    rewrite H in Hs. discriminate. }
  intros [|]; [apply sm_post_ret; auto|].
  eapply (sm_post_bind _ _ _ (fun _ _ => True)); [done|]. intros [].
  assert (Hs : forall rule, sm_post (fun _ => True) (settle id rule) (fun _ => fresh))
    by (intros; apply settle_fresh).
  assert (Hf : sm_post (fun _ => True) (fall_back id ip) (fun _ => fresh)) by apply fall_back_fresh.
  repeat first [apply Hs | apply Hf | case_match
               | eapply (sm_post_bind _ _ _ (fun _ _ => True)); [done|]; intros [?|?]].
Qed.

Lemma apply_checked_fresh id ip target :
  sm_post (fresh_but id) (apply_rule_checked id ip target) (fun _ => fresh).
Proof.
  unfold apply_rule_checked.
  eapply sm_post_bind; [apply sm_keeps_gets|]. intros resolved.
  eapply (sm_post_bind _ _ _ (fun skip w => fresh_but id w /\ (skip = true -> fresh w))).
  { intros w H. split; [done|]. intros Hs. destruct H as [H|H]; [done|].
    unfold gets, sm_gets, already_applied in Hs. simpl in Hs. rewrite H in Hs. discriminate. }
  intros [|]; [apply sm_post_ret; intros w [_ H]; by apply H|].
  eapply (sm_post_bind _ _ _ (fun _ => fresh_but id)).
  { eapply sm_post_conseq; [apply (keeps_tunnel_info (fresh_but id)) | by intros w [H _] | done].
    intros w n H. exact H. }
  intros info. eapply (sm_post_bind _ _ _ (fun _ => fresh_but id)).
  { apply (keeps_override (fresh_but id)). intros w n H. exact H. }
  intros ov. eapply sm_post_bind; [apply apply_locked_fresh|].
  intros [|]; [apply (applied_flush current) | by apply sm_post_ret].
Qed.

Lemma apply_rule_fresh ctx id ip target : sm_keeps fresh (apply_rule ctx id ip target).
Proof.
  unfold apply_rule. walk.
  eapply sm_post_conseq; [apply apply_checked_fresh | by left | done].
Qed.

Lemma apply_logged_fresh ctx id ip target : sm_keeps fresh (apply_rule_logged ctx id ip target).
Proof. unfold apply_rule_logged. walk. apply apply_rule_fresh. Qed.

(** A device whose rule was just dropped: an authorised re-application makes the
    snapshot current again. *)
Lemma reapply_fresh ctx id ip target : is_ok (require_admin ctx) = true ->
  sm_post (fresh_but id) (apply_rule ctx id ip target) (fun _ => fresh).
Proof.
  intros Hc. unfold apply_rule, guard_admin. destruct (require_admin ctx); [|done].
  eapply sm_post_bind; [apply apply_checked_fresh|]. intros []. by apply sm_post_ret.
Qed.

Lemma guarded_fresh {A} ctx (P : W -> Prop) (m : SM W (result A AppError)) :
  (is_ok (require_admin ctx) = true -> sm_keeps P m) -> sm_keeps P (guard_admin ctx m).
Proof.
  intros H. unfold guard_admin. destruct (require_admin ctx); [by apply H | by apply sm_post_ret].
Qed.

Lemma remove_routes_fresh ctx id ip : sm_keeps fresh (remove_device_routes ctx id ip).
Proof.
  unfold remove_device_routes. apply guarded_fresh. intros _.
  do 2 (eapply (sm_post_bind _ _ _ (fun _ _ => True)); [done|]; intros []).
  eapply sm_post_bind; [apply fresh_refresh|]. intros []. by apply sm_post_ret.
Qed.

(** What teardown does to the recorded rules: the device is forgotten. *)
Lemma remove_kernel_applied id (w : W) :
  applied (state (snd (remove_device_kernel_state id w))) = delete id (applied (state w)) /\
  dns_upstream_snapshot (snd (remove_device_kernel_state id w)) = dns_upstream_snapshot w.
Proof.
  unfold remove_device_kernel_state. rewrite sm_bind_run. unfold gets, sm_gets at 1 2. simpl.
  destruct (applied (state w) !! id) as [rule|] eqn:E; simpl.
  2:{ split; [|done]. symmetry. by apply delete_id. }
  unfold modify_state at 1 2. rewrite sm_bind_run. unfold sm_modify at 1 2. simpl.
  rewrite sm_bind_run. set (P := fun m sn => m = delete id (applied (state w)) /\
    sn = dns_upstream_snapshot w).
  match goal with |- context [remove_switchback_for_device id ?w1] => set (w1' := w1) end.
  pose proof (applied_remove_switchback P id w1' (conj eq_refl eq_refl)) as H.
  destruct (ar_table rule) as [t|]; [|exact H].
  rewrite sm_bind_run. exact (applied_drain P _ t _ H).
Qed.

Lemma ip_change_fresh ctx id old ip : sm_keeps fresh (handle_ip_change ctx id old ip).
Proof.
  unfold handle_ip_change. apply guarded_fresh. intros Hc.
  eapply (sm_post_bind _ _ _ (fun target w => fresh_but id w /\ (target = None -> fresh w))).
  - intros w Hw. unfold ip_change_locked. rewrite !sm_bind_run. simpl.
    destruct (remove_kernel_applied id w) as [H1 H2].
    set (w1 := snd (remove_device_kernel_state id w)) in *. split.
    + right. rewrite H1. apply lookup_delete_eq.
    + intros Hn. apply fmap_None in Hn. rewrite H1, H2, Hw. by rewrite delete_id.
  - intros [target|].
    + eapply sm_post_conseq; [by apply reapply_fresh | by intros w [H _] | done].
    + apply sm_post_ret. intros w [_ H]. by apply H.
Qed.

Lemma tunnel_down_fresh ctx tid : sm_keeps fresh (handle_tunnel_down ctx tid).
Proof.
  unfold handle_tunnel_down. apply guarded_fresh. intros _.
  eapply (sm_post_bind _ _ _ (fun _ => fresh)).
  - unfold tunnel_down_locked.
    eapply (sm_post_bind _ _ _ (fun _ _ => True)); [done|]. intros affected.
    eapply (sm_post_bind _ _ _ (fun _ _ => True)); [done|]. intros ips.
    eapply (sm_post_bind _ _ _ (fun _ _ => True)); [done|]. intros [].
    eapply sm_post_bind; [apply fresh_refresh|]. intros []. by apply sm_post_ret.
  - intros ips. eapply (sm_keeps_bind fresh); [|intros []]; walk. apply (applied_flush current).
Qed.

Lemma table_lost_fresh ctx t : sm_keeps fresh (handle_route_table_lost ctx t).
Proof.
  unfold handle_route_table_lost. apply guarded_fresh. intros Hc.
  eapply (sm_post_bind _ _ _ (fun re_apply w =>
    match re_apply with [] => fresh w | (id, _, _) :: _ => fresh_but id w end)).
  - intros w Hw. unfold table_lost_locked. rewrite !sm_bind_run. simpl.
    set (affected := filter _ _). destruct affected as [|[id a] l] eqn:E; simpl; [done|].
    right. apply (foldl_delete_lookup ((id, a) :: l) _ id a). set_solver.
  - intros [|[[id ip] target] l]; simpl; [by apply sm_post_ret|].
    eapply (sm_post_bind _ _ _ (fun _ => fresh)); [|intros []; by apply sm_post_ret].
    eapply (sm_post_bind _ _ _ (fun _ => fresh)).
    + unfold apply_rule_logged. eapply sm_post_bind; [by apply reapply_fresh|].
      intros r. by apply sm_post_ret.
    + intros []. apply sm_keeps_iter. intros [[id' ip'] target'] _. apply apply_logged_fresh.
Qed.

Lemma collect_keeps (P : W -> Prop) tid ds : (forall w n, P w -> P (set_env n w)) ->
  sm_keeps P (collect_targeting tid ds).
Proof. intros HP. induction ds as [|d ds IH]; simpl; walk; try apply keeps_try; eauto. Qed.

Lemma apply_stored_fresh ctx ds : sm_keeps fresh (apply_stored ctx ds).
Proof.
  induction ds as [|d ds IH]; simpl; walk; try apply (applied_try current); [|apply IH].
  apply apply_logged_fresh.
Qed.

(** ** Histories of whole calls

    One call after another, each with any arguments, by anyone, with any kernel,
    firewall and database outcomes; the environment may change on its own in
    between.  Start-up reconciliation runs before any device is recorded. *)

Inductive rcall : W -> W -> Prop :=
| call_start ctx lan w : applied (state w) = ∅ -> rcall w (snd (reconcile ctx lan w))
| call_apply ctx id ip target w : rcall w (snd (apply_rule ctx id ip target w))
| call_apply_device ctx id target w : rcall w (snd (apply_rule_for_device ctx id target w))
| call_discovered ctx id ip w : rcall w (snd (apply_rule_for_discovered_device ctx id ip w))
| call_remove ctx id ip w : rcall w (snd (remove_device_routes ctx id ip w))
| call_ip_change ctx id old ip w : rcall w (snd (handle_ip_change ctx id old ip w))
| call_tunnel_down ctx tid w : rcall w (snd (handle_tunnel_down ctx tid w))
| call_tunnel_up ctx tid w : rcall w (snd (handle_tunnel_up ctx tid w))
| call_table_lost ctx t w : rcall w (snd (handle_route_table_lost ctx t w))
| call_targets ctx id ip cs w : rcall w (snd (set_switchback_targets ctx id ip cs w))
| call_route now ip ips target ttl w :
    rcall w (snd (route_resolved_domain now ip ips target ttl w))
| call_gc now w : rcall w (snd (gc_domain_routes now w))
| call_set_policy ctx p w : rcall w (snd (set_default_policy ctx p w))
| call_policy_changed ctx w : rcall w (snd (handle_default_policy_changed ctx w))
| call_rebuild w : rcall w (snd (rebuild_dns_upstream_snapshot w))
| call_rebuild_devices ctx w : rcall w (snd (rebuild_dns_device_upstream_snapshot ctx w))
| call_env n w : rcall w (set_env n w).

Ltac fr := walk; try apply (applied_try current); try apply apply_logged_fresh;
  try (by apply sm_keeps_modify).

Lemma write_policy_fresh p : sm_keeps fresh (write_cached_policy p).
Proof. intros w Hw. unfold write_cached_policy. by repeat case_match. Qed.

Lemma device_rebuild_fresh ctx : sm_keeps fresh (rebuild_dns_device_upstream_snapshot ctx).
Proof.
  unfold rebuild_dns_device_upstream_snapshot, snapshot_rule, zone_clamps_default_to_direct,
    tunnel_dns_upstream_gate, tunnel_dns_override_active. fr.
Qed.

Lemma start_fresh ctx lan (w : W) : applied (state w) = ∅ -> fresh w ->
  fresh (snd (reconcile ctx lan w)).
Proof.
  intros He Hw.
  assert (H : sm_post (fun w : W => applied (state w) = ∅ /\ fresh w) (reconcile ctx lan)
                (fun _ => fresh)); [|by apply H].
  unfold reconcile, guard_admin. destruct (require_admin ctx); [|by apply sm_post_ret; intros ? []].
  assert (Hs : sm_keeps (fun w : W => applied (state w) = ∅ /\ fresh w) (reconcile_setup lan)).
  { unfold reconcile_setup. walk;
      apply (applied_try (fun m sn => m = ∅ /\ current m sn)). }
  eapply (post_andthen _ _ _ (fun _ w => applied (state w) = ∅ /\ fresh w)).
  { eapply sm_post_conseq; [apply Hs | done |]. intros [u|e] w0; [done | by intros []]. }
  intros []. eapply (sm_post_bind _ _ _ (fun _ => fresh)).
  { apply sm_post_modify. intros w0 [H1 H2]. simpl. by rewrite H1 in H2. }
  intros []. change (sm_keeps fresh (prune_domain_rules ;;
    andthen (internal devices_find_all) (fun all_devices =>
    andthen (apply_stored ctx all_devices) (fun _ =>
    reconcile_ip_rules ;; reconcile_carveouts ;;
    refresh_dns_device_upstream_snapshot ctx ;; ok_unit)))).
  unfold prune_domain_rules, refresh_dns_device_upstream_snapshot.
  fr; [apply apply_stored_fresh | apply (applied_repair current) | apply (applied_sweep current) |
       apply device_rebuild_fresh].
Qed.

Lemma rcall_fresh w w' : rcall w w' -> fresh w -> fresh w'.
Proof.
  assert (Hcol : forall tid, sm_keeps fresh (load_devices_targeting_tunnel tid)).
  { intros tid. unfold load_devices_targeting_tunnel. fr. apply (collect_keeps fresh). intros w0 n H. exact H. }
  assert (Hre : forall ctx, sm_keeps fresh (reapply_default_ruled_devices ctx)).
  { intros ctx. unfold reapply_default_ruled_devices. fr. }
  destruct 1; intros Hw.
  - by apply start_fresh.
  - by apply apply_rule_fresh.
  - revert w Hw. unfold apply_rule_for_device. change (sm_keeps fresh (apply_rule_for_device ctx id target)).
    unfold apply_rule_for_device. fr.
  - revert w Hw. change (sm_keeps fresh (apply_rule_for_discovered_device ctx id ip)).
    unfold apply_rule_for_discovered_device. fr.
  - by apply remove_routes_fresh.
  - by apply ip_change_fresh.
  - by apply tunnel_down_fresh.
  - revert w Hw. change (sm_keeps fresh (handle_tunnel_up ctx tid)). unfold handle_tunnel_up. fr. apply Hcol.
  - by apply table_lost_fresh.
  - revert w Hw. change (sm_keeps fresh (set_switchback_targets ctx id ip cs)).
    unfold set_switchback_targets. fr. apply (applied_targets current).
  - revert w Hw. change (sm_keeps fresh (route_resolved_domain now ip ips target ttl)).
    unfold route_resolved_domain, domain_table. fr. apply (applied_route current).
  - revert w Hw. change (sm_keeps fresh (gc_domain_routes now)).
    unfold gc_domain_routes. fr; [apply (applied_expire current) | apply (applied_prune current)].
  - revert w Hw. change (sm_keeps fresh (set_default_policy ctx p)).
    unfold set_default_policy. fr. apply write_policy_fresh.
  - revert w Hw. change (sm_keeps fresh (handle_default_policy_changed ctx)).
    unfold handle_default_policy_changed. fr; [apply write_policy_fresh | apply Hre].
  - assert (H : sm_post (fun _ : W => True) rebuild_dns_upstream_snapshot (fun _ => fresh)); [|by apply H].
    unfold rebuild_dns_upstream_snapshot.
    eapply (sm_post_bind _ _ _ (fun _ _ => True)); [done|]. intros rules.
    eapply (sm_post_bind _ _ _ (fun _ _ => True)); [done|]. intros [cache out].
    eapply (sm_post_bind _ _ _ (fun _ _ => True)); [done|]. intros [].
    eapply sm_post_bind; [apply fresh_refresh|]. intros []. by apply sm_post_ret.
  - by apply device_rebuild_fresh.
  - exact Hw.
Qed.

Lemma calls_fresh w w' : rtc rcall w w' -> fresh w -> fresh w'.
Proof. induction 1; eauto using rcall_fresh. Qed.

(** After any sequence of calls of the service the address snapshot the
    resolver reads agrees with the recorded rules: an address is sent to a
    tunnel's resolver only if a device recorded at that address is, and the
    queries of a device that is alone at its address go where its rule says. *)
Theorem snapshot_tracks_devices policy n w ip u : rtc rcall (new policy n) w ->
  (dns_upstream_snapshot w !! ip = Some u ->
     exists id a, applied (state w) !! id = Some a /\ sends ip u a) /\
  (forall id a, applied (state w) !! id = Some a -> sends ip u a ->
     (forall id' a', applied (state w) !! id' = Some a' ->
        parse_ip (ar_device_ip a') = Some ip -> id' = id) ->
     dns_upstream_snapshot w !! ip = Some u).
Proof.
  intros H. pose proof (calls_fresh _ _ H eq_refl) as Hf. cbv beta in Hf.
  rewrite Hf, <- (build_map_steps (state w)). split; [apply build_map_origin | apply build_map_hit].
Qed.

(** ** The device snapshot, without caches *)

Section quiet.

(** Repositories that answer from the database and leave it alone. *)
Context (tunnel_of : N -> Uuid -> result (option TunnelRow) str).
Context (config_of : N -> Uuid -> result (option TunnelConfig) str).
Context (zone_of_id : N -> Uuid -> result (option NetworkZone) str).
Context (tunnels_quiet : forall t n, tunnels_find_by_id t n = (tunnel_of n t, n)).
Context (configs_quiet : forall t n, tunnels_find_config_by_id t n = (config_of n t, n)).
Context (zones_quiet : forall z n, zones_find_by_id z n = (zone_of_id n z, n)).
Context (rules_quiet : forall n, snd (devices_find_all_rules n) = n).
Context (devices_quiet : forall n, snd (devices_find_all n) = n).

(** Whether a tunnel's resolver is used; [None]: the database did not say. *)
Definition gate_of (n : N) (t : Uuid) : option bool :=
  match tunnel_of n t with
  | Ok (Some row) =>
      if bool_decide (tn_status row = Down) then Some false
      else match config_of n t with
           | Ok (Some cfg) =>
               Some (tc_override_default_dns cfg && negb (bool_decide (tc_dns cfg = [])))
           | Ok None => Some false
           | Err _ => None
           end
  | Ok None => Some false
  | Err _ => None
  end.

Definition zone_value (n : N) (z : Uuid) : option NetworkZone :=
  match zone_of_id n z with Ok zone => zone | Err _ => None end.

(** The zone refuses tunnels: a device on the default policy stays direct. *)
Definition clamped_by (zone : option NetworkZone) : bool :=
  match zone with
  | Some z => negb (permits_kind z KindTunnel) && permits_kind z KindDirect
  | None => false
  end.

(** The entry of a device, straight from its rule. *)
Definition device_upstream (w : W) (zone_of : gmap Uuid Uuid) (rule : RoutingRule)
    : option UpstreamId :=
  match resolve_target (rr_target rule) w with
  | Tunnel t =>
      if bool_decide (rr_target rule = Default)
         && clamped_by (zone_of !! rr_device_id rule ≫= zone_value (env w))
      then None
      else match gate_of (env w) t with
           | Some true => Some (TunnelUpstream t)
           | Some false => None
           | None => dns_device_upstream_snapshot w !! rr_device_id rule
           end
  | _ => None
  end.

Definition gates_right (n : N) (c : gmap Uuid (option bool)) : Prop :=
  forall t g, c !! t = Some g -> g = gate_of n t.
Definition zones_right (n : N) (c : gmap Uuid (option NetworkZone)) : Prop :=
  forall z v, c !! z = Some v -> v = zone_value n z.

Lemma set_env_same (w : W) : set_env (env w) w = w.
Proof. by destruct w. Qed.

Lemma gate_run t (w : W) : tunnel_dns_upstream_gate t w = (gate_of (env w) t, w).
Proof.
  unfold tunnel_dns_upstream_gate, tunnel_dns_override_active. rewrite sm_bind_run. unfold try_env, gate_of.
  rewrite tunnels_quiet. simpl. rewrite set_env_same.
  destruct (tunnel_of (env w) t) as [[row|]|e]; [|done..]. case_bool_decide; [done|].
  rewrite sm_bind_run, configs_quiet. simpl. rewrite set_env_same.
  by destruct (config_of (env w) t) as [[cfg|]|e'].
Qed.

Lemma clamp_run zc z (w : W) : zones_right (env w) zc -> exists zc',
  zone_clamps_default_to_direct zc z w = ((clamped_by (z ≫= zone_value (env w)), zc'), w)
  /\ zones_right (env w) zc'.
Proof.
  intros Hz. unfold zone_clamps_default_to_direct.
  destruct z as [z|]; [|by exists zc]. rewrite sm_bind_run. simpl.
  destruct (zc !! z) as [v|] eqn:E; simpl.
  - exists zc. by rewrite (Hz _ _ E).
  - rewrite sm_bind_run. unfold try_env. rewrite zones_quiet. simpl. rewrite set_env_same.
    exists (<[z := zone_value (env w) z]> zc). split; [done|].
    intros z' v' [[<- <-]|[_ H]]%lookup_insert_Some; [done | by apply Hz].
Qed.

(** The gate through the cache. *)
Lemma gate_cached c t (w : W) : gates_right (env w) c -> exists c',
  (match c !! t with
   | Some g => mret (g, c)
   | None => g ← tunnel_dns_upstream_gate t; mret (g, <[t := g]> c)
   end) w = ((gate_of (env w) t, c'), w) /\ gates_right (env w) c'.
Proof.
  intros Hc. destruct (c !! t) as [g|] eqn:E.
  - exists c. by rewrite (Hc _ _ E).
  - rewrite sm_bind_run, gate_run. simpl. exists (<[t := gate_of (env w) t]> c). split; [done|].
    intros t' v' [[<- <-]|[_ H]]%lookup_insert_Some; [done | by apply Hc].
Qed.

Definition put_upstream (w : W) (zone_of : gmap Uuid Uuid) (m : gmap Uuid UpstreamId)
    (rule : RoutingRule) : gmap Uuid UpstreamId :=
  match device_upstream w zone_of rule with
  | Some u => <[rr_device_id rule := u]> m
  | None => m
  end.

Lemma snapshot_rule_run zone_of gc zc m rule (w : W) : gates_right (env w) gc ->
  zones_right (env w) zc -> exists gc' zc',
  snapshot_rule zone_of (dns_device_upstream_snapshot w) (gc, zc, m) rule w
    = ((gc', zc', put_upstream w zone_of m rule), w)
  /\ gates_right (env w) gc' /\ zones_right (env w) zc'.
Proof.
  intros Hg Hz. unfold snapshot_rule, put_upstream, device_upstream. rewrite sm_bind_run. simpl.
  destruct (resolve_target (rr_target rule) w) as [t| |]; [|by exists gc, zc..].
  rewrite sm_bind_run.
  assert (Hc : exists zc', (if bool_decide (rr_target rule = Default)
      then zone_clamps_default_to_direct zc (zone_of !! rr_device_id rule)
      else mret (false, zc)) w
    = ((bool_decide (rr_target rule = Default) &&
        clamped_by (zone_of !! rr_device_id rule ≫= zone_value (env w)), zc'), w)
    /\ zones_right (env w) zc').
  { case_bool_decide; [by apply clamp_run | by exists zc]. }
  destruct Hc as (zc' & -> & Hz'). simpl.
  destruct (bool_decide (rr_target rule = Default) && _); [by exists gc, zc'|].
  rewrite sm_bind_run. destruct (gate_cached gc t w Hg) as (gc' & -> & Hg'). simpl.
  exists gc', zc'. split; [|done]. unfold mret, sm_mret.
  destruct (gate_of (env w) t) as [[|]|]; [done..|].
  by destruct (dns_device_upstream_snapshot w !! rr_device_id rule).
Qed.

Lemma snapshot_fold_run zone_of rules (w : W) : forall gc zc m, gates_right (env w) gc ->
  zones_right (env w) zc -> exists gc' zc',
  sm_fold (snapshot_rule zone_of (dns_device_upstream_snapshot w)) (gc, zc, m) rules w
    = ((gc', zc', foldl (put_upstream w zone_of) m rules), w).
Proof.
  induction rules as [|rule rules IH]; intros gc zc m Hg Hz; cbn [sm_fold foldl]; [by exists gc, zc|].
  destruct (snapshot_rule_run zone_of gc zc m rule w Hg Hz) as (gc' & zc' & E & Hg' & Hz').
  rewrite sm_bind_run, E. simpl. by apply IH.
Qed.

Lemma put_upstream_other w zone_of rules id : id ∉ rr_device_id <$> rules -> forall m,
  foldl (put_upstream w zone_of) m rules !! id = m !! id.
Proof.
  induction rules as [|rule rules IH]; intros Hid m; cbn [foldl]; [done|].
  rewrite fmap_cons, not_elem_of_cons in Hid. destruct Hid as [Hne Hid]. rewrite IH by done.
  unfold put_upstream. destruct (device_upstream w zone_of rule); [by rewrite lookup_insert_ne | done].
Qed.

Lemma put_upstream_rule w zone_of rules rule : NoDup (rr_device_id <$> rules) -> rule ∈ rules ->
  forall m, m !! rr_device_id rule = None ->
  foldl (put_upstream w zone_of) m rules !! rr_device_id rule = device_upstream w zone_of rule.
Proof.
  induction rules as [|r rules IH]; [set_solver|].
  rewrite fmap_cons, NoDup_cons. intros [Hr Hnd] [->|Hin]%elem_of_cons m Hm; cbn [foldl].
  - rewrite put_upstream_other by done. unfold put_upstream.
    destruct (device_upstream w zone_of r); [by rewrite lookup_insert_eq | done].
  - apply IH; [done..|]. unfold put_upstream.
    destruct (device_upstream w zone_of r); [|done].
    rewrite lookup_insert_ne; [done|]. intros E. apply Hr. rewrite E. by apply list_elem_of_fmap_2.
Qed.

Definition device_zones (devices : list Device) : gmap Uuid Uuid :=
  foldl (fun m d => <[dv_id d := dv_zone_id d]> m) ∅ devices.

(** The per-device snapshot rebuilt with its gate and zone caches is, for
    every device with a rule, what computing that device's entry on its own from
    the database gives; devices without a rule have no entry, and where the
    database does not answer the previous entry stays. *)
Theorem device_snapshot_direct ctx (w : W) rules devices :
  is_ok (require_admin ctx) = true ->
  fst (devices_find_all_rules (env w)) = Ok rules -> fst (devices_find_all (env w)) = Ok devices ->
  NoDup (rr_device_id <$> rules) ->
  fst (rebuild_dns_device_upstream_snapshot ctx w) = Ok tt /\
  let published := dns_device_upstream_snapshot (snd (rebuild_dns_device_upstream_snapshot ctx w)) in
  (forall rule, rule ∈ rules ->
     published !! rr_device_id rule = device_upstream w (device_zones devices) rule) /\
  (forall id, id ∉ rr_device_id <$> rules -> published !! id = None).
Proof.
  intros Hc Hr Hd Hnd. unfold rebuild_dns_device_upstream_snapshot, guard_admin.
  destruct (require_admin ctx); [|done].
  pose proof (rules_quiet (env w)) as Hrq. pose proof (devices_quiet (env w)) as Hdq.
  unfold andthen, internal, try_env.
  destruct (devices_find_all_rules (env w)) as [rr n1]. simpl in Hr, Hrq. subst rr n1.
  rewrite set_env_same.
  destruct (devices_find_all (env w)) as [dd n2]. simpl in Hd, Hdq. subst dd n2.
  rewrite set_env_same. fold (device_zones devices).
  rewrite !sm_bind_run. unfold sm_gets. simpl.
  destruct (snapshot_fold_run (device_zones devices) rules w ∅ ∅ ∅) as (gc & zc & E); [done..|].
  rewrite E. simpl. split; [done|]. split.
  - intros rule Hin. by apply put_upstream_rule.
  - intros id Hid. by rewrite put_upstream_other.
Qed.

End quiet.
End calls.
