(* ===== verification/RoutingCalls.v ===== *)
(** * The routing service, call by call

    What single calls achieve: the binding [apply_rule] leaves, a tunnel that
    goes down, the default policy, and the collection of domain leases. *)

From S2P Require Import Prelude RustStr Net Auth DnsCache PolicyRouter RoutingTypes.
From S2P Require Import Routing RoutingLaws RoutingEffects RoutingSnapshots.

Section calls.
Context {N : Type} {D : RoutingDeps N} {U : UuidParse}.

Abbreviation W := (Routing N).

(** ** [apply_rule] *)

(** The device's rule after an application of [resolved], the rest as in [m]. *)
Definition bound (m : gmap Uuid AppliedRule) (id : Uuid) (ip : str) (resolved : RoutingTarget)
    (m' : gmap Uuid AppliedRule) : Prop :=
  exists a, m' = <[id := a]> m /\ ar_device_ip a = ip /\
    (ar_target a = resolved \/ a = direct_rule ip).

Lemma settle_bound m id rule ip resolved : ar_device_ip rule = ip ->
  (ar_target rule = resolved \/ rule = direct_rule ip) ->
  sm_post (fun w : W => delete id (applied (state w)) = delete id m) (settle id rule)
    (fun _ w => bound m id ip resolved (applied (state w))).
Proof.
  intros Hip Ht. unfold settle.
  set (P := fun (m' : gmap Uuid AppliedRule) (_ : gmap IpAddr UpstreamId) => bound m id ip resolved m').
  eapply (sm_post_bind _ _ _ (fun _ w => P (applied (state w)) (dns_upstream_snapshot w))).
  { apply sm_post_modify. intros w Hw. exists rule. simpl. split; [|done].
    by rewrite <- insert_delete_eq, Hw, insert_delete_eq. }
  intros []. eapply sm_post_bind; [by apply (applied_snapshot P)|]. intros [].
  eapply sm_post_bind; [apply (applied_reconcile_switchback P)|]. intros []. by apply sm_post_ret.
Qed.

Lemma fall_back_bound m id ip resolved :
  sm_post (fun w : W => delete id (applied (state w)) = delete id m) (fall_back id ip)
    (fun _ w => bound m id ip resolved (applied (state w))).
Proof.
  unfold fall_back. eapply sm_post_bind.
  { apply (sm_post_modify _ _ (fun _ w => bound m id ip resolved (applied (state w)))).
    intros w Hw. exists (direct_rule ip). simpl. split; [|by auto].
    by rewrite <- insert_delete_eq, Hw, insert_delete_eq. }
  intros []. eapply sm_post_bind; [by apply sm_keeps_modify|]. intros []. by apply sm_post_ret.
Qed.

Lemma apply_locked_bound m id ip resolved info ov :
  sm_post (fun w : W => applied (state w) = m) (apply_locked id ip resolved info ov)
    (fun _ w => bound m id ip resolved (applied (state w))).
Proof.
  unfold apply_locked. set (gone := fun w : W => delete id (applied (state w)) = delete id m).
  eapply (sm_post_bind _ _ _ (fun skip w => gone w /\
    (skip = true -> bound m id ip resolved (applied (state w))))).
  { intros w Hw. split; [unfold gone; simpl; by rewrite Hw|]. simpl. unfold already_applied. rewrite Hw.
    destruct (m !! id) as [a|] eqn:E; [|done]. intros [?%bool_decide_eq_true ?%bool_decide_eq_true]%andb_prop.
    exists a. split; [by rewrite insert_id | auto]. }
  intros [|]; [apply sm_post_ret; intros w [_ H]; by apply H|].
  eapply (sm_post_bind _ _ _ (fun _ => gone)).
  { intros w [Hw _]. unfold gone. destruct (remove_kernel_applied id w) as [-> _].
    by rewrite delete_delete_eq. }
  intros [].
  set (P := fun (m' : gmap Uuid AppliedRule) (_ : gmap IpAddr UpstreamId) => delete id m' = delete id m).
  assert (Hen : forall i t, sm_keeps gone (ensure_tunnel_table i t)) by (intros; apply (applied_ensure P)).
  assert (Hadd : forall t, sm_keeps gone (try_env (add_ip_rule ip t DEVICE_RULE_PRIORITY)))
    by (intros; apply (applied_try P)).
  destruct resolved as [t| |], info as [tn|]; try (apply settle_bound; auto).
  destruct (parse_interface_index (tn_interface_name tn)); [|apply fall_back_bound].
  eapply sm_post_bind; [apply Hen|]. intros [?|?]; [|apply fall_back_bound].
  eapply sm_post_bind; [apply Hadd|]. intros [?|?]; [|apply fall_back_bound].
  apply settle_bound; auto.
Qed.

Lemma apply_rule_run ctx id ip target (w : W) :
  let '(r, w') := apply_rule ctx id ip target w in
  match require_admin ctx with
  | Ok _ => r = Ok tt /\
      bound (applied (state w)) id ip (resolve_target target w) (applied (state w'))
  | Err e => r = Err e /\ w' = w
  end.
Proof.
  destruct (apply_rule ctx id ip target w) as [r w'] eqn:E. unfold apply_rule, guard_admin in E.
  destruct (require_admin ctx) as [[]|e]; [|by injection E as <- <-].
  rewrite sm_bind_run in E. injection E as <- <-. split; [done|].
  set (m := applied (state w)). unfold apply_rule_checked. rewrite sm_bind_run. simpl.
  set (resolved := resolve_target target w).
  set (same := fun (m' : gmap Uuid AppliedRule) (_ : gmap IpAddr UpstreamId) => m' = m).
  set (done' := fun (m' : gmap Uuid AppliedRule) (_ : gmap IpAddr UpstreamId) => bound m id ip resolved m').
  rewrite sm_bind_run. simpl. destruct (already_applied id ip resolved (state w)) eqn:Es.
  { unfold already_applied in Es. fold m in Es. simpl. destruct (m !! id) as [a|] eqn:Ea; [|done].
    apply andb_prop in Es as [?%bool_decide_eq_true ?%bool_decide_eq_true].
    exists a. split; [by rewrite insert_id | auto]. }
  assert (H : sm_post (fun w : W => applied (state w) = m)
    (info ← tunnel_info resolved; override ← dns_override_of info;
     flush ← apply_locked id ip resolved info override;
     if flush : bool then flush_stale_connections ip else mret tt)
    (fun _ w => bound m id ip resolved (applied (state w)))); [|by apply H].
  eapply sm_post_bind; [by apply (keeps_tunnel_info (fun w : W => applied (state w) = m))|].
  intros info. eapply sm_post_bind; [by apply (keeps_override (fun w : W => applied (state w) = m))|].
  intros ov. eapply sm_post_bind; [apply apply_locked_bound|].
  intros [|]; [apply (applied_flush done') | by apply sm_post_ret].
Qed.

(** An administrator's [apply_rule] always succeeds and leaves the device
    recorded at the given address with the resolved target (the default policy
    looked up), or direct when the tunnel cannot carry it; no other device's
    rule changes.  Anybody else is refused and nothing changes. *)
Theorem apply_rule_binds ctx id ip target (w : W) :
  let '(r, w') := apply_rule ctx id ip target w in
  match require_admin ctx with
  | Ok _ => r = Ok tt /\
      bound (applied (state w)) id ip (resolve_target target w) (applied (state w'))
  | Err e => r = Err e /\ w' = w
  end.
Proof. apply apply_rule_run. Qed.

(** ** A tunnel goes down *)

Lemma uses_spec tid a : uses_tunnel tid a = true <-> ar_tunnel_id a = Some tid.
Proof. unfold uses_tunnel. by rewrite bool_decide_eq_true. Qed.

Lemma teardown_list (l : list (Uuid * AppliedRule)) : forall (ips : list str) (w : W),
  let w' := snd (sm_fold (fun ips '(device_id, _) =>
    ip ← gets (fun s => ar_device_ip <$> applied s !! device_id);
    remove_device_kernel_state device_id ;;
    mret (ips ++ option_list ip)) ips l w) in
  applied (state w') = foldl (fun m '(id, _) => delete id m) (applied (state w)) l.
Proof.
  induction l as [|[id a] l IH]; intros ips w; [done|]. cbn [sm_fold foldl]. rewrite sm_bind_run.
  rewrite IH. f_equal. rewrite sm_bind_run. simpl. rewrite sm_bind_run. simpl.
  apply remove_kernel_applied.
Qed.

(** The rules that remain: everybody not on the tunnel. *)
Definition without_tunnel (tid : Uuid) (s : RoutingState) : gmap Uuid AppliedRule :=
  foldl (fun m '(id, _) => delete id m) (applied s) (devices_on tid s).

Lemma without_tunnel_spec tid s id a : without_tunnel tid s !! id = Some a <->
  applied s !! id = Some a /\ ar_tunnel_id a <> Some tid.
Proof.
  assert (Hon : forall b, (id, b) ∈ devices_on tid s <->
    applied s !! id = Some b /\ ar_tunnel_id b = Some tid).
  { intros b. unfold devices_on. rewrite list_elem_of_filter, elem_of_map_to_list. simpl.
    rewrite uses_spec. tauto. }
  unfold without_tunnel. destruct (applied s !! id) as [b|] eqn:Eb.
  - destruct (decide (ar_tunnel_id b = Some tid)) as [Ht|Ht].
    + assert (Hb : (id, b) ∈ devices_on tid s) by by apply Hon.
      rewrite (foldl_delete_lookup _ _ _ _ Hb). split; [done|]. by intros [[= <-] ?].
    + rewrite foldl_delete_other; [rewrite Eb; naive_solver|]. by intros b' [[= <-] ?]%Hon.
  - rewrite foldl_delete_other; [rewrite Eb; naive_solver|]. by intros b' [? _]%Hon.
Qed.

Lemma tunnel_down_locked_applied tid (w : W) :
  let w' := snd (tunnel_down_locked tid w) in
  applied (state w') = without_tunnel tid (state w) /\
  dns_upstream_snapshot w' = foldl upstream_step ∅ (map_to_list (applied (state w'))).
Proof.
  assert (H : sm_post (fun w0 => w0 = w) (tunnel_down_locked tid) (fun _ w' =>
    applied (state w') = without_tunnel tid (state w) /\
    dns_upstream_snapshot w' = foldl upstream_step ∅ (map_to_list (applied (state w')))));
    [|by apply H].
  unfold tunnel_down_locked.
  eapply (sm_post_bind _ _ _ (fun l w0 => w0 = w /\ l = devices_on tid (state w)));
    [by intros ? ->|]. intros l.
  set (P := fun (m : gmap Uuid AppliedRule) (_ : gmap IpAddr UpstreamId) => m = without_tunnel tid (state w)).
  eapply (sm_post_bind _ _ _ (fun _ w0 => P (applied (state w0)) (dns_upstream_snapshot w0))).
  { intros w0 [-> ->]. apply (teardown_list (devices_on tid (state w)) [] w). }
  intros ips. eapply (sm_post_bind _ _ _ (fun _ w0 => P (applied (state w0)) (dns_upstream_snapshot w0))).
  { destruct (match l with [] => _ | _ => _ end) as [table|]; [|by apply sm_post_ret].
    eapply sm_post_bind; [apply (applied_try P)|]. intros ?. by apply (applied_state P). }
  intros []. eapply (sm_post_bind _ _ _ (fun _ w0 => P (applied (state w0)) (dns_upstream_snapshot w0) /\
    dns_upstream_snapshot w0 = foldl upstream_step ∅ (map_to_list (applied (state w0))))).
  { apply sm_post_modify. intros w0 H0. split; [exact H0 | apply build_map_steps]. }
  intros []. by apply sm_post_ret.
Qed.

(** When a tunnel goes down exactly the devices bound to it are torn down;
    every other device keeps its rule, and the address snapshot no longer sends
    any query to that tunnel's resolver. *)
Theorem tunnel_down_clears ctx tid (w : W) :
  (forall id a, applied (state w) !! id = Some a -> rule_ok a) ->
  let '(r, w') := handle_tunnel_down ctx tid w in
  match require_admin ctx with
  | Ok _ => r = Ok tt /\
      (forall id a, applied (state w') !! id = Some a <->
         applied (state w) !! id = Some a /\ ar_tunnel_id a <> Some tid) /\
      (forall ip, dns_upstream_snapshot w' !! ip <> Some (TunnelUpstream tid))
  | Err e => r = Err e /\ w' = w
  end.
Proof.
  intros Hok. destruct (handle_tunnel_down ctx tid w) as [r w'] eqn:E.
  unfold handle_tunnel_down, guard_admin in E.
  destruct (require_admin ctx) as [[]|e]; [|by injection E as <- <-].
  rewrite !sm_bind_run in E. injection E as <- <-. split; [done|].
  set (P := fun (m : gmap Uuid AppliedRule) (sn : gmap IpAddr UpstreamId) =>
    m = without_tunnel tid (state w) /\ sn = foldl upstream_step ∅ (map_to_list m)).
  assert (HQ : sm_keeps (fun w : W => P (applied (state w)) (dns_upstream_snapshot w))
    (sm_iter flush_stale_connections (fst (tunnel_down_locked tid w)))).
  { apply sm_keeps_iter. intros ip _. apply (applied_flush P). }
  destruct (HQ _ (tunnel_down_locked_applied tid w)) as [Ha Hs]. clear HQ. simpl in Ha, Hs |- *. split.
  - intros id a. rewrite Ha. apply without_tunnel_spec.
  - intros ip H. rewrite Hs, Ha in H. apply upstream_steps_origin in H as [H|([id a] & Hin & _ & Hu & _)];
      [done|]. apply elem_of_map_to_list, without_tunnel_spec in Hin as [Hin Hne]. simpl in Hu.
    specialize (Hok id a Hin). unfold rule_ok in Hok. destruct (ar_target a) as [t| |];
      [|destruct Hok as (_ & _ & Hd); congruence | done].
    destruct Hok as (Ht & _ & [Hd|Hd]); congruence.
Qed.

(** ** The default policy *)

(** [set_default_policy] either records the new policy everywhere (it is
    [direct] or a tunnel id, it is stored, cached and announced once, and
    devices on the default resolve to it from then on) or fails and leaves cache,
    announcements and routing state as they were; a caller without the role or
    an unusable policy does not reach the database. *)
Theorem set_default_policy_atomic ctx policy (w : W) :
  let '(r, w') := set_default_policy ctx policy w in
  state w' = state w /\
  match r with
  | Ok _ =>
      require_admin ctx = Ok tt /\
      (policy = of_string "direct" /\ resolve_target Default w' = Direct \/
       policy <> of_string "direct" /\
         exists t, parse_uuid policy = Some t /\ resolve_target Default w' = Tunnel t) /\
      fst (config_set_default_policy policy (env w)) = Ok tt /\
      default_policy_cell w' = Some policy /\ events w' = events w ++ [DefaultPolicyChanged policy]
  | Err e =>
      default_policy_cell w' = default_policy_cell w /\ events w' = events w /\
      (require_admin ctx = Ok tt -> policy = of_string "direct" \/ is_Some (parse_uuid policy) ->
         exists why, e = Internal why) /\
      ((forall why, e <> Internal why) -> w' = w)
  end.
Proof.
  destruct (set_default_policy ctx policy w) as [r w'] eqn:E.
  unfold set_default_policy, guard_admin in E. destruct (require_admin ctx) as [[]|e].
  2:{ injection E as <- <-. naive_solver. }
  destruct (bool_decide (policy <> of_string "direct") && bool_decide (parse_uuid policy = None)) eqn:Ev.
  { injection E as <- <-. split; [done|]. split_and!; [done..| |done].
    apply andb_prop in Ev as [H1%bool_decide_eq_true H2%bool_decide_eq_true]. rewrite H2.
    intros _ [?|[? ?]]; done. }
  unfold andthen at 1, internal, try_env in E.
  destruct (config_set_default_policy policy (env w)) as [[u|e] n'] eqn:Ec.
  2:{ injection E as <- <-. split; [done|]. split_and!; [done..| |]; [by intros; eexists|].
      intros Hne. by destruct (Hne e). }
  unfold andthen, write_cached_policy in E. simpl in E.
  destruct (default_policy_cell w) as [p|] eqn:Ep.
  2:{ injection E as <- <-. split; [done|]. split_and!; [done..| |]; [by intros; eexists|].
      intros Hne. by destruct (Hne (of_string "default_policy lock poisoned")). }
  assert (Hw : r = Ok tt /\ state w' = state w /\ default_policy_cell w' = Some policy /\
    events w' = events w ++ [DefaultPolicyChanged policy]).
  { case_bool_decide; injection E as <- <-; simpl; naive_solver. }
  destruct Hw as (-> & Hs & Hd & He). split; [done|]. split_and!; try done; [|by destruct u].
  unfold resolve_target, current_default_policy, from_default_policy. rewrite Hd. simpl.
  destruct (bool_decide (policy = _)) eqn:Eb.
  - left. by apply bool_decide_eq_true in Eb.
  - right. apply bool_decide_eq_false in Eb. split; [done|].
    rewrite bool_decide_true in Ev by done. apply bool_decide_eq_false in Ev.
    destruct (parse_uuid policy) as [t|]; [by exists t | done].
Qed.

(** ** Leases are collected *)

Section reliable.
Context {L : RoutingDepsLaws N} {R : PolicyRouterReliable N}.

(** The rules of the lease band are all the daemon's own. *)
Definition domain_band (l : list IpRule) : Prop :=
  forall r, r ∈ l -> ru_priority r = DOMAIN_ROUTE_RULE_PRIORITY ->
    exists src dst t, r = from_to_rule src dst 32 t DOMAIN_ROUTE_RULE_PRIORITY /\ t <> 0.

Abbreviation lease_rule src dst t := (from_to_rule src dst 32 t DOMAIN_ROUTE_RULE_PRIORITY).

Lemma lease_select src dst t r : t <> 0 ->
  from_to_selects src dst 32 t DOMAIN_ROUTE_RULE_PRIORITY r <-> r = lease_rule src dst t.
Proof.
  intros Ht. unfold from_to_selects, from_selects. destruct r as [s d t' p]. simpl. split.
  - intros ((-> & [?| ->] & ->) & [?| ->]); done.
  - intros [= -> -> -> ->]. auto.
Qed.

(** Removing a lease's rule removes exactly one copy, if there is one. *)
Lemma remove_lease_run src dst t (w : W) : is_u32 src -> is_u32 dst -> t <> 0 ->
  let w' := snd (try_env (remove_domain_route_rule (show_ipv4 src) (show_ipv4 dst) t
                            DOMAIN_ROUTE_RULE_PRIORITY) w) in
  state w' = state w /\
  forall r, occ r (rules w') =
    (occ r (rules w) - if decide (r = lease_rule src dst t) then 1 else 0)%nat.
Proof.
  intros Hs Hd Ht. unfold try_env.
  pose proof (remove_domain_route_rule_law (show_ipv4 src) (show_ipv4 dst) t
    DOMAIN_ROUTE_RULE_PRIORITY (env w)) as H.
  pose proof (remove_domain_route_rule_ok (show_ipv4 src) (show_ipv4 dst) t
    DOMAIN_ROUTE_RULE_PRIORITY (env w) src dst (parse_show_ipv4 _ Hs) (parse_show_ipv4 _ Hd)) as Hok.
  destruct (remove_domain_route_rule _ _ _ _ (env w)) as [[u|e] n']; [|done]. simpl in *. split; [done|].
  destruct H as (src' & dst' & Hs' & Hd' & H). rewrite parse_show_ipv4 in Hs', Hd' by done.
  injection Hs' as <-. injection Hd' as <-. intros r. unfold rules. simpl.
  destruct H as [(r0 & Hr0%lease_select & Hp)|[-> Hno]]; [|done|].
  - subst r0. rewrite (occ_perm r _ _ Hp), occ_cons. repeat case_decide; try congruence; lia.
  - case_decide; [|lia]. subst r. assert (Hn : ~ (0 < occ (lease_rule src dst t) (ip_rules (env w)))%nat); [|lia].
    rewrite <- occ_elem. intros Hin. by apply (Hno _ Hin), lease_select.
Qed.

Lemma expire_run now (w : W) : let w' := snd (gc_expire now w) in
  fst (gc_expire now w) = dom (domain_routes (state w')) /\
  (forall k e, domain_routes (state w') !! k = Some e <->
     domain_routes (state w) !! k = Some e /\ now < dr_expiry e) /\
  forall r, r ∈ rules w' -> r ∈ rules w.
Proof.
  unfold gc_expire. rewrite sm_bind_run. simpl. set (l := filter _ _). rewrite sm_bind_run.
  set (body := fun '((src, dst), entry) => _ : SM W unit).
  assert (H1 : forall src dst e w, let w' := snd (body (src, dst, e) w) in
    domain_routes (state w') = delete (src, dst) (domain_routes (state w)) /\
    forall r, r ∈ rules w' -> r ∈ rules w).
  { clear -L. intros src dst e w. unfold body, rules. rewrite sm_bind_run. unfold try_env.
    pose proof (remove_domain_route_rule_law src dst (dr_table e) DOMAIN_ROUTE_RULE_PRIORITY (env w)) as H.
    destruct (remove_domain_route_rule _ _ _ _ (env w)) as [[u|err] n']; simpl in *; (split; [done|]);
      intros r Hr; [|by rewrite H in Hr].
    destruct H as (? & ? & _ & _ & [H|[H _]]); [by eapply rule_removed_elem | by rewrite H in Hr]. }
  assert (Hb : forall l w, let w' := snd (sm_iter body l w) in
    domain_routes (state w') = foldl (fun m '(k, _) => delete k m) (domain_routes (state w)) l /\
    forall r, r ∈ rules w' -> r ∈ rules w).
  { clearbody body. clear -H1. induction l as [|[[src dst] e] l IH]; intros w; [done|].
    cbn [sm_iter foldl]. rewrite sm_bind_run. destruct (H1 src dst e w) as [<- Hr].
    destruct (IH (snd (body (src, dst, e) w))) as [-> IHr]. split; [done | auto]. }
  destruct (Hb l w) as [Hm Hr]. split; [done|]. split; [|done]. simpl. rewrite Hm.
  assert (Hl : forall k e, (k, e) ∈ l <-> domain_routes (state w) !! k = Some e /\ dr_expiry e <= now).
  { intros k e. unfold l. rewrite list_elem_of_filter, elem_of_map_to_list. simpl. tauto. }
  intros k e. destruct (domain_routes (state w) !! k) as [e'|] eqn:E.
  - destruct (decide (dr_expiry e' <= now)) as [Hx|Hx].
    + rewrite (foldl_delete_lookup l _ k e') by (by apply Hl). split; [done|]. intros [[= <-] ?]. lia.
    + rewrite foldl_delete_other, E; [|intros a [? ?]%Hl; simplify_eq; done]. split; [|naive_solver].
      intros [= <-]. split; [done | lia].
  - rewrite foldl_delete_other, E; [naive_solver|]. intros a [? _]%Hl. congruence.
Qed.

(** An entry of the listing that a rule of the daemon's own gives. *)
Definition lease_entry (x : str * str * Z) : Prop :=
  exists src dst t, x = (show_ipv4 src, show_ipv4 dst, t) /\ is_u32 src /\ is_u32 dst /\ t <> 0.

Definition entries (x : str * str * Z) (l : list (str * str * Z)) : nat :=
  length (filter (fun y => y = x) l).

Lemma show_ipv4_inj a b : is_u32 a -> is_u32 b -> show_ipv4 a = show_ipv4 b -> a = b.
Proof. intros Ha Hb H. apply (f_equal parse_ipv4) in H. rewrite !parse_show_ipv4 in H by done. congruence. Qed.

Lemma prune_occ orphans : forall w : W, Forall lease_entry orphans ->
  let w' := snd (gc_prune orphans w) in
  state w' = state w /\ (forall r, (occ r (rules w') <= occ r (rules w))%nat) /\
  forall src dst t, is_u32 src -> is_u32 dst -> t <> 0 ->
    domain_routes (state w) !! (show_ipv4 src, show_ipv4 dst) = None ->
    (occ (lease_rule src dst t) (rules w') <=
     occ (lease_rule src dst t) (rules w) - entries (show_ipv4 src, show_ipv4 dst, t) orphans)%nat.
Proof.
  induction orphans as [|x l IH]; intros w Hall.
  { simpl. split_and!; [done | done |]. intros. unfold entries. simpl. lia. }
  apply Forall_cons in Hall as [(s & d & t0 & -> & Hs & Hd & Ht) Hall].
  unfold gc_prune. cbn [sm_iter]. fold (gc_prune l). rewrite sm_bind_run, sm_bind_run. simpl.
  destruct (domain_routes (state w) !! (show_ipv4 s, show_ipv4 d)) as [e|] eqn:Ek.
  - rewrite bool_decide_true by by eexists. simpl. destruct (IH w Hall) as (H1 & H2 & H3).
    split_and!; [done..|]. intros src dst t Hsrc Hdst Htn Hk. unfold entries. rewrite filter_cons.
    case_decide as Hx; [|by apply H3]. injection Hx as E1 E2 E3. congruence.
  - rewrite bool_decide_false by by intros []. rewrite sm_bind_run. simpl.
    destruct (remove_lease_run s d t0 w Hs Hd Ht) as [Hst Hocc].
    set (w1 := snd (try_env _ w)) in *. destruct (IH w1 Hall) as (H1 & H2 & H3).
    split_and!; [congruence | intros r; specialize (H2 r); specialize (Hocc r); lia |].
    intros src dst t Hsrc Hdst Htn Hk. rewrite <- Hst in Hk. specialize (H3 src dst t Hsrc Hdst Htn Hk).
    specialize (Hocc (lease_rule src dst t)). unfold entries in *. rewrite filter_cons.
    destruct (decide ((show_ipv4 s, show_ipv4 d, t0) = _)) as [Hx|Hx]; [|lia].
    injection Hx as E1 E2 E3. apply show_ipv4_inj in E1, E2; [|done..]. subst.
    rewrite decide_True in Hocc by done. simpl. lia.
Qed.

(** The listing reports every copy of a lease rule. *)
Lemma listing_lease l src dst t : domain_band l -> Forall rule_wf l -> is_u32 src -> is_u32 dst ->
  let k := omap (domain_entry DOMAIN_ROUTE_RULE_PRIORITY) l in
  Forall lease_entry k /\
  entries (show_ipv4 src, show_ipv4 dst, t) k = occ (lease_rule src dst t) l.
Proof.
  intros Hb Hwf Hs Hd. induction l as [|r l IH]; [done|].
  apply Forall_cons in Hwf as [Hr Hwf]. destruct IH as [IH1 IH2]; [intros r' ?; apply Hb; set_solver | done |].
  rewrite occ_cons, <- IH2. cbn [omap list_omap].
  destruct (decide (ru_priority r = DOMAIN_ROUTE_RULE_PRIORITY)) as [Hp|Hp].
  - destruct (Hb r) as (a & b & t' & -> & Ht'); [set_solver | done |].
    unfold domain_entry at 1 3. simpl. destruct Hr as ([Ha _] & [Hb' _] & _).
    split; [apply Forall_cons; split; [by exists a, b, t' | done]|].
    unfold entries. rewrite filter_cons. case_decide as Hx; [|rewrite decide_False; [done|]].
    + injection Hx as E1 E2 ->. apply show_ipv4_inj in E1, E2; [|done..]. subst.
      by rewrite decide_True.
    + intros [= E1 E2 E3]. congruence.
  - assert (E : domain_entry DOMAIN_ROUTE_RULE_PRIORITY r = None).
    { unfold domain_entry. apply Z.eqb_neq in Hp. by rewrite Hp, orb_true_r. }
    rewrite E. split; [done|]. rewrite decide_False; [done|]. intros ->. done.
Qed.

Lemma entries_untracked (tracked : gset (str * str)) k src dst t : (src, dst) ∉ tracked ->
  entries (src, dst, t) (filter (fun '(s, d, _) => (s, d) ∉ tracked) k) = entries (src, dst, t) k.
Proof.
  intros Hn. unfold entries. f_equal. induction k as [|[[s d] t'] k IH]; [done|].
  rewrite !filter_cons. destruct (decide ((s, d) ∉ tracked)) as [H|H].
  - rewrite filter_cons. case_decide; [by rewrite IH | done].
  - rewrite IH. case_decide as E; [|done]. injection E as -> -> ->. done.
Qed.

(** On a kernel that does what it is asked, one collection of the domain
    leases succeeds; afterwards exactly the leases that had not expired are
    left, and every rule left in the lease band belongs to one of them: a rule
    whose lease lapsed, or that the service had lost track of, is gone however
    many copies of it there were. *)
Theorem gc_leaves_no_orphan now (w : W) : domain_band (rules w) ->
  let w' := snd (gc_domain_routes now w) in
  fst (gc_domain_routes now w) = Ok tt /\
  (forall k e, domain_routes (state w') !! k = Some e <->
     domain_routes (state w) !! k = Some e /\ now < dr_expiry e) /\
  (forall r, r ∈ rules w' -> ru_priority r = DOMAIN_ROUTE_RULE_PRIORITY ->
     exists src dst t, r = from_to_rule src dst 32 t DOMAIN_ROUTE_RULE_PRIORITY /\
       is_Some (domain_routes (state w') !! (show_ipv4 src, show_ipv4 dst))).
Proof.
  intros Hb. unfold gc_domain_routes. rewrite sm_bind_run.
  destruct (expire_run now w) as (Ht & Hm & Hr). destruct (gc_expire now w) as [tracked w1]. simpl in *.
  assert (Hb1 : domain_band (rules w1)) by (intros r ?; apply Hb; auto).
  unfold andthen, internal, try_env.
  pose proof (list_domain_route_rules_law DOMAIN_ROUTE_RULE_PRIORITY (env w1)) as Hl.
  pose proof (list_domain_route_rules_ok DOMAIN_ROUTE_RULE_PRIORITY (env w1)) as Hok.
  destruct (list_domain_route_rules _ (env w1)) as [[k|e] n2]; [|done]. simpl in *.
  destruct Hl as [Hn2 Hk]. specialize (Hk k eq_refl). rewrite sm_bind_run. simpl.
  set (orphans := filter _ k). set (w2 := set_env n2 w1).
  assert (Hw2 : rules w2 = rules w1) by exact Hn2.
  pose proof (ip_rules_wf (env w1)) as Hwf.
  assert (Hent : Forall lease_entry k).
  { rewrite Hk. by apply (listing_lease _ 0 0 0 Hb1 Hwf). }
  destruct (prune_occ orphans w2) as (Hst & Hocc & Hgone).
  { apply Forall_forall. intros x [_ Hx]%list_elem_of_filter. by apply (Forall_forall _ k). }
  split; [done|]. rewrite Hst. split; [exact Hm|]. intros r Hin Hp.
  assert (Hin1 : r ∈ rules w1).
  { apply occ_elem in Hin. specialize (Hocc r). rewrite Hw2 in Hocc. apply occ_elem. lia. }
  destruct (Hb1 r Hin1 Hp) as (src & dst & t & -> & Htn). exists src, dst, t. split; [done|].
  destruct (domain_routes (state w2) !! (show_ipv4 src, show_ipv4 dst)) as [e|] eqn:E; [done|]. exfalso.
  pose proof (proj1 (Forall_forall _ _) Hwf _ Hin1) as ([Hsrc _] & [Hdst _] & _).
  specialize (Hgone src dst t Hsrc Hdst Htn E).
  assert (He : entries (show_ipv4 src, show_ipv4 dst, t) orphans =
               occ (from_to_rule src dst 32 t DOMAIN_ROUTE_RULE_PRIORITY) (rules w1)).
  { unfold orphans. rewrite entries_untracked; [|rewrite Ht; by apply not_elem_of_dom].
    rewrite Hk. by apply listing_lease. }
  rewrite He, Hw2 in Hgone. apply occ_elem in Hin. lia.
Qed.

End reliable.
End calls.
