(* ===== verification/ZoneTypes.v ===== *)
(** * Zones, exceptions and what the enforcer depends on

    [wardnet-common/src/zone_exception.rs], [parse_zone_subnets] of
    [wardnetd-services/src/subnet.rs], the orderings that the sorted vectors and
    B-tree collections of the enforcer use, and its repositories. *)

From S2P Require Import Prelude RustStr Net Auth PolicyRouter RoutingTypes Routing.

(** ** [zone_exception.rs] *)

Inductive ExceptionEndpointKind : Type := EndpointDevice | EndpointZone.

Record ExceptionEndpoint : Type := { ee_kind : ExceptionEndpointKind; ee_id : Uuid }.

Inductive Proto : Type := Tcp | Udp.

Definition proto_as_str (p : Proto) : str :=
  match p with Tcp => of_string "tcp" | Udp => of_string "udp" end.

Record PortSpec : Type := { ps_proto : Proto; ps_from : Z; ps_to : Z }.

Inductive ServiceSet : Type := Casting | Mirroring | SmartHome.

Definition one (proto : Proto) (port : Z) : PortSpec :=
  {| ps_proto := proto; ps_from := port; ps_to := port |}.

Definition ports (s : ServiceSet) : list PortSpec :=
  match s with
  | Casting =>
      [one Udp 5353; one Udp 1900; one Tcp 8008; one Tcp 8009; one Tcp 8443; one Tcp 9000;
       one Tcp 7000; one Tcp 7100]
  | Mirroring =>
      [{| ps_proto := Tcp; ps_from := 1; ps_to := U16_MAX |};
       {| ps_proto := Udp; ps_from := 1; ps_to := U16_MAX |}]
  | SmartHome =>
      [one Udp 4001; one Udp 4002; one Udp 4003; one Udp 5353; one Udp 1900; one Udp 5683;
       one Tcp 6668; one Tcp 8883; one Udp 56700; one Tcp 9123]
  end.

Inductive ServiceSpec : Type := Preset (set : ServiceSet) | Ports (ports : list PortSpec).

Definition resolve_ports (s : ServiceSpec) : list PortSpec :=
  match s with Preset set => ports set | Ports ports => ports end.

Record ZoneException : Type := {
  ze_id : Uuid;
  ze_from : ExceptionEndpoint;
  ze_to : ExceptionEndpoint;
  ze_service : ServiceSpec;
  ze_bidirectional : bool;
}.

(** ** Orderings *)

Fixpoint str_compare (a b : str) : comparison :=
  match a, b with
  | [], [] => Eq
  | [], _ => Lt
  | _, [] => Gt
  | c :: a', d :: b' =>
      match byte_val c ?= byte_val d with Eq => str_compare a' b' | r => r end
  end.

(** Lexicographic: the second comparison decides a tie. *)
Definition then_with (c d : comparison) : comparison := match c with Eq => d | _ => c end.

Definition bool_compare (a b : bool) : comparison :=
  match a, b with false, true => Lt | true, false => Gt | _, _ => Eq end.

Definition pair_compare (a b : str * str) : comparison :=
  then_with (str_compare (fst a) (fst b)) (str_compare (snd a) (snd b)).

(** [#[derive(Ord)]] on [ExceptionAllow]: by its fields in order. *)
Definition allow_compare (a b : ExceptionAllow) : comparison :=
  then_with (str_compare (from_cidr a) (from_cidr b))
  (then_with (str_compare (to_cidr a) (to_cidr b))
  (then_with (str_compare (proto a) (proto b))
  (then_with (port_start a ?= port_start b)
  (then_with (port_end a ?= port_end b)
             (bool_compare (bidirectional a) (bidirectional b)))))).

Section sorting.
Context {A : Type} (cmp : A -> A -> comparison).

Fixpoint insert_by (x : A) (l : list A) : list A :=
  match l with
  | [] => [x]
  | y :: l' => match cmp x y with Gt => y :: insert_by x l' | _ => x :: l end
  end.

(** [sort()], stable *)
Definition sort_by (l : list A) : list A := foldr insert_by [] l.

(** The elements of a B-tree set in order: sorted, equal ones once. *)
Fixpoint dedup_by (l : list A) : list A :=
  match l with
  | x :: (y :: _) as l' => match cmp x y with Eq => dedup_by l' | _ => x :: dedup_by l' end
  | _ => l
  end.

Definition btree_set (l : list A) : list A := dedup_by (sort_by l).

Lemma insert_by_perm x l : insert_by x l ≡ₚ x :: l.
Proof.
  induction l as [|y l IH]; simpl; [done|].
  destruct (cmp x y); [done..|]. rewrite IH. apply Permutation_swap.
Qed.

Lemma sort_by_perm l : sort_by l ≡ₚ l.
Proof. induction l as [|x l IH]; simpl; [done|]. by rewrite insert_by_perm, IH. Qed.

Lemma elem_of_sort_by x l : x ∈ sort_by l <-> x ∈ l.
Proof. by rewrite sort_by_perm. Qed.

Lemma elem_of_dedup_by (Hcmp : forall x y, cmp x y = Eq -> x = y) x l : x ∈ dedup_by l <-> x ∈ l.
Proof.
  induction l as [|y l IH]; [done|]. destruct l as [|z l]; [done|].
  cbn [dedup_by]. destruct (cmp y z) eqn:E.
  - apply Hcmp in E as ->. rewrite IH. set_solver.
  - rewrite !elem_of_cons, IH. set_solver.
  - rewrite !elem_of_cons, IH. set_solver.
Qed.

End sorting.

Lemma str_compare_eq a b : str_compare a b = Eq -> a = b.
Proof.
  revert b. induction a as [|c a IH]; intros [|d b]; simpl; try done.
  destruct (Z.compare_spec (byte_val c) (byte_val d)) as [E|?|?]; try done.
  intros Hb%IH. subst. f_equal. unfold byte_val in E. apply N2Z.inj in E.
  rewrite <- (ascii_N_embedding c), <- (ascii_N_embedding d). by rewrite E.
Qed.

Lemma pair_compare_eq a b : pair_compare a b = Eq -> a = b.
Proof.
  unfold pair_compare, then_with. destruct (str_compare (fst a) (fst b)) eqn:E; try done.
  intros H%str_compare_eq. apply str_compare_eq in E. destruct a, b. simpl in *. congruence.
Qed.

(** ** Zone subnets *)

Definition parse_zone_subnets `{Ipv4NetworkLib} (zones : list NetworkZone) : list (Uuid * Ipv4Network) :=
  omap (fun zone => cidr ← z_subnet zone; net ← net_parse cidr; Some (z_id zone, net)) zones.

(** ** What the enforcer depends on

    Besides kernel, firewall and the repositories of the routing service: all
    zones, all exceptions, system settings, and the lease release of the DHCP
    service. *)
Class ZoneDeps (N : Type) : Type := {
  zd_routing :: RoutingDeps N;
  zones_find_all : ST N str (list NetworkZone);
  exceptions_find_all : ST N str (list ZoneException);
  config_get : str -> ST N str (option str);
  dhcp_release_lease : str -> ST N str unit;
}.
