(* ===== verification/ZoneEnforcement.v ===== *)
(** * The zone enforcer

    [wardnetd-services/src/zone_enforcement/service.rs]: per-device zone rules,
    host routes, and the L3 isolation between zone subnets.  Its world
    [Enforcer] holds the two change snapshots and the routing service it calls
    back into, whose environment is also the enforcer's own kernel, firewall and
    database: a change of the network is one change for both.  Interface name
    and LAN address are the parameters [lan_interface] and [lan_ip]; the entries
    of [join_all] are made in order; [HashMap] iteration follows [map_to_list]. *)

From S2P Require Import Prelude RustStr Net Auth PolicyRouter RoutingTypes Routing ZoneTypes.

Abbreviation SwitchbackSnapshot := (list (Uuid * str * list str)).

Record Enforcer (N : Type) : Type := {
  last_isolation : option (ZoneIsolationRules * list str);
  last_switchback : option SwitchbackSnapshot;
  routing : Routing N;
}.
Arguments last_isolation {N}. Arguments last_switchback {N}. Arguments routing {N}.

(** [ZoneEnforcementServiceImpl::new] *)
Definition enforcer_new {N} (r : Routing N) : Enforcer N :=
  {| last_isolation := None; last_switchback := None; routing := r |}.

Definition set_routing {N} (r : Routing N) (w : Enforcer N) : Enforcer N :=
  {| last_isolation := last_isolation w; last_switchback := last_switchback w; routing := r |}.
Definition set_last_isolation {N} (i : ZoneIsolationRules * list str) (w : Enforcer N) : Enforcer N :=
  {| last_isolation := Some i; last_switchback := last_switchback w; routing := routing w |}.
Definition set_last_switchback {N} (s : SwitchbackSnapshot) (w : Enforcer N) : Enforcer N :=
  {| last_isolation := last_isolation w; last_switchback := Some s; routing := routing w |}.

(** ** Pure parts *)

Definition zone_rules (zone : NetworkZone) : ZoneRules :=
  {| allow_direct := permits_kind zone KindDirect;
     allow_tunnel := permits_kind zone KindTunnel;
     zr_admin_ui_reachable := z_admin_ui_reachable zone |}.

(** [u32::count_ones] *)
Definition count_ones (a : Z) : Z :=
  foldl (fun n i => n + (if Z.testbit a (Z.of_nat i) then 1 else 0)) 0 (seq 0 32).

Definition endpoint_source_devices (endpoint : ExceptionEndpoint) (devices : list Device)
    : list Device :=
  match ee_kind endpoint with
  | EndpointDevice => filter (fun d => dv_id d = ee_id endpoint) devices
  | EndpointZone => filter (fun d => dv_zone_id d = ee_id endpoint) devices
  end.

Abbreviation SwitchbackAcc := (gmap Uuid (str * list str)).

Definition add_switchback_target (acc : SwitchbackAcc) (device : Device) (target_cidr : str)
    : SwitchbackAcc :=
  match parse_ipv4 (dv_last_ip device) with
  | None => acc
  | Some ip =>
      if bool_decide (target_cidr = show_ipv4 ip ++ "/32") then acc
      else
        let '(dev_ip, cidrs) := default (show_ipv4 ip, []) (acc !! dv_id device) in
        <[dv_id device := (dev_ip, btree_set str_compare (target_cidr :: cidrs))]> acc
  end.

Definition default_rules : ZoneIsolationRules :=
  {| allows := []; deny_pairs := []; member_isolation_subnets := []; nat_exempt_pairs := [] |}.

Definition sort_rules (r : ZoneIsolationRules) : ZoneIsolationRules :=
  {| allows := sort_by allow_compare (allows r);
     deny_pairs := sort_by pair_compare (deny_pairs r);
     member_isolation_subnets := sort_by str_compare (member_isolation_subnets r);
     nat_exempt_pairs := sort_by pair_compare (nat_exempt_pairs r) |}.

(** The allows one exception expands to, its endpoints resolved. *)
Definition exception_allows (exc : ZoneException) (from to_ : str) : list ExceptionAllow :=
  (fun port => {| from_cidr := from; to_cidr := to_; proto := proto_as_str (ps_proto port);
                  port_start := ps_from port; port_end := ps_to port;
                  bidirectional := ze_bidirectional exc |}) <$> resolve_ports (ze_service exc).

Definition exception_switchback (exc : ZoneException) (from to_ : str) (devices : list Device)
    (acc : SwitchbackAcc) : SwitchbackAcc :=
  let acc := foldl (fun acc dev => add_switchback_target acc dev to_) acc
               (endpoint_source_devices (ze_from exc) devices) in
  if ze_bidirectional exc
  then foldl (fun acc dev => add_switchback_target acc dev from) acc
         (endpoint_source_devices (ze_to exc) devices)
  else acc.

Definition nat_pairs (l : list ExceptionAllow) : list (str * str) :=
  btree_set pair_compare ((fun a => (from_cidr a, to_cidr a)) <$> l).

Definition cross_pairs (subnets : list str) : list (str * str) :=
  concat ((fun a => omap (fun b => if bool_decide (a <> b) then Some (a, b) else None) subnets)
            <$> subnets).

Definition switchback_snapshot (acc : SwitchbackAcc) (devices : list Device) : SwitchbackSnapshot :=
  sort_by (fun a b => fst (fst a) ?= fst (fst b))
    ((fun d => (dv_id d, dv_last_ip d, default [] (snd <$> acc !! dv_id d))) <$> devices).

Section networks.
Context {L : Ipv4NetworkLib}.

Definition zone_nets (zones : list NetworkZone) : gmap Uuid Ipv4Network :=
  foldl (fun m '(id, net) => <[id := net]> m) ∅ (parse_zone_subnets zones).

Definition nets (zn : gmap Uuid Ipv4Network) : list Ipv4Network := snd <$> map_to_list zn.

(** The base subnet and each zone subnet, once. *)
Definition all_subnets (base : Ipv4Network) (zn : gmap Uuid Ipv4Network) : list str :=
  foldl (fun l net => let s := canonical_cidr net in
                      if bool_decide (s ∈ l) then l else l ++ [s])
    [canonical_cidr base] (nets zn).

Definition member_subnets (zones : list NetworkZone) (zn : gmap Uuid Ipv4Network) : list str :=
  omap (fun z => if z_member_isolation z then canonical_cidr <$> zn !! z_id z else None) zones.

(** [BTreeMap<Ipv4Addr, u8>] *)
Definition gateway_aliases (zn : gmap Uuid Ipv4Network) : gmap Ipv4Addr Z :=
  foldl (fun m net => <[gateway_for net := net_prefix net]> m) ∅ (nets zn).

Definition alias_list (m : gmap Ipv4Addr Z) : list (Ipv4Addr * Z) :=
  sort_by (fun a b => fst a ?= fst b) (map_to_list m).

Definition alias_strings (m : gmap Ipv4Addr Z) : list str :=
  btree_set str_compare ((fun p => show_ipv4 (fst p)) <$> alias_list m).

Definition member_zone_nets (zones : list NetworkZone) (zn : gmap Uuid Ipv4Network)
    : gmap Uuid Ipv4Network :=
  foldl (fun m z => if z_member_isolation z
                    then match zn !! z_id z with Some net => <[z_id z := net]> m | None => m end
                    else m) ∅ zones.

(** The addresses the box answers ARP for. *)
Definition proxy_neighbours (lan_ip : Ipv4Addr) (zones : list NetworkZone)
    (zn : gmap Uuid Ipv4Network) (aliases : gmap Ipv4Addr Z) (devices : list Device) : list str :=
  btree_set str_compare (omap (fun dev =>
    net ← member_zone_nets zones zn !! dv_zone_id dev;
    parsed ← parse_ipv4 (dv_last_ip dev);
    if negb (net_contains net parsed) then None
    else if (parsed =? lan_ip) || bool_decide (is_Some (aliases !! parsed)) then None
    else Some (dv_last_ip dev)) devices).

End networks.

Section enforcer.
Context {N : Type} {D : ZoneDeps N} {U : UuidParse} {L : Ipv4NetworkLib}.
Context (lan_interface : str) (lan_ip : Ipv4Addr).

Abbreviation W := (Enforcer N).
Abbreviation M := (SM W).
Abbreviation Svc A := (SM W (result A AppError)).

Definition on_routing {A} (m : SM (Routing N) A) : M A := fun w =>
  let '(a, r) := m (routing w) in (a, set_routing r w).

(** A call of the shared environment; [required] propagates its error. *)
Definition call {A} (m : ST N str A) : M (result A str) := on_routing (try_env m).
Definition attempt (m : ST N str unit) : M unit := call m ;; mret tt.
Definition required {A} (m : ST N str A) : Svc A := on_routing (internal m).

(** ** Own addresses *)

Definition is_zone_gateway (addr : Ipv4Addr) : M bool :=
  r ← call zones_find_all;
  mret (match r with
        | Ok zones => existsb (fun p => gateway_for (snd p) =? addr) (parse_zone_subnets zones)
        | Err _ => false
        end).

Definition is_own_address (ip : str) : M bool :=
  match parse_ipv4 ip with
  | None => mret false
  | Some parsed =>
      if negb (is_unspecified lan_ip) && (parsed =? lan_ip) then mret true
      else is_zone_gateway parsed
  end.

(** ** Per-device rules *)

Definition apply_one (device_ip : str) (zone : NetworkZone) (flush : bool) : Svc unit :=
  own ← is_own_address device_ip;
  if own : bool then ok_unit
  else
    andthen (required (apply_zone_rules device_ip (zone_rules zone) lan_interface)) (fun _ =>
    (if flush then attempt (flush_conntrack device_ip) else mret tt) ;; ok_unit).

Definition load_device_and_zone (device_id : Uuid) : Svc (option (Device * NetworkZone)) :=
  andthen (required (devices_find_by_id device_id)) (fun device =>
  match device with
  | None => mret (Ok None)
  | Some device =>
      andthen (required (zones_find_by_id (dv_zone_id device))) (fun zone =>
      match zone with
      | None => mret (Ok None)
      | Some zone =>
          match parse_ipv4 (dv_last_ip device) with
          | None => mret (Ok None)
          | Some _ =>
              own ← is_own_address (dv_last_ip device);
              mret (Ok (if own : bool then None else Some (device, zone)))
          end
      end)
  end).

(** One device of [clamp_default_bindings]. *)
Definition clamp_device (ctx : option AuthContext) (kind : AllowedTargetKind) (device : Device)
    : M unit :=
  r ← call (devices_find_rule_for_device (dv_id device));
  match r with
  | Ok (Some rule) =>
      if negb (bool_decide (rr_target rule = Default)) then mret tt
      else
        z ← call (zones_find_by_id (dv_zone_id device));
        match z with
        | Ok (Some zone) =>
            if permits_kind zone kind then mret tt
            else if negb (permits_kind zone KindDirect) then mret tt
            else on_routing (apply_rule_for_device ctx (dv_id device) Direct) ;; mret tt
        | _ => mret tt
        end
  | _ => mret tt
  end.

Definition clamp_default_bindings (ctx : option AuthContext) (policy : str) : Svc unit :=
  match of_target (from_default_policy policy) with
  | None => ok_unit
  | Some kind =>
      andthen (required devices_find_all) (fun devices =>
      sm_iter (clamp_device ctx kind) devices ;; ok_unit)
  end.

Definition zone_default_policy : Svc str :=
  andthen (required config_get_default_policy) (fun p =>
  mret (Ok (default (of_string "direct") p))).

Definition dhcp_enabled : Svc bool :=
  andthen (required (config_get (of_string "dhcp_enabled"))) (fun v =>
  mret (Ok (bool_decide (v = Some (of_string "true"))))).

(** [None]: no network at all can be built, where the code panics. *)
Definition base_cidr : M (option Ipv4Network) :=
  r ← call (config_get (of_string "dhcp_subnet_mask"));
  let mask := match r with Ok (Some m) => parse_ipv4 m | _ => None end in
  let prefix := match mask with Some mask => count_ones mask | None => 24 end in
  mret (match net_new lan_ip prefix with
        | Some n => Some n
        | None => match net_new lan_ip 24 with Some n => Some n | None => net_new lan_ip 32 end
        end).

Definition resolve_endpoint_cidr (base : Ipv4Network) (endpoint : ExceptionEndpoint)
    : M (option str) :=
  match ee_kind endpoint with
  | EndpointDevice =>
      r ← call (devices_find_by_id (ee_id endpoint));
      mret (match r with
            | Ok (Some device) => ip ← parse_ipv4 (dv_last_ip device); Some (show_ipv4 ip ++ "/32")
            | _ => None
            end)
  | EndpointZone =>
      r ← call (zones_find_by_id (ee_id endpoint));
      mret (match r with
            | Ok (Some zone) => Some (default (canonical_cidr base) (z_subnet zone))
            | _ => None
            end)
  end.

(** ** Host routes *)

(** The preferred source of a member's host route: its zone gateway, for a
    device that is inside the subnet of an isolating zone. *)
Definition host_gateway (device : Device) (zone : NetworkZone) (dhcp_enabled : bool)
    : option Ipv4Addr :=
  if dhcp_enabled && z_member_isolation zone then
    cidr ← z_subnet zone;
    net ← net_parse cidr;
    parsed ← parse_ipv4 (dv_last_ip device);
    if net_contains net parsed then Some (gateway_for net) else None
  else None.

Definition manage_host_route (device : Device) (zone : NetworkZone) (dhcp_enabled : bool) : M unit :=
  own ← is_own_address (dv_last_ip device);
  if own : bool then mret tt
  else match host_gateway device zone dhcp_enabled with
       | Some pref_src => attempt (add_host_route (dv_last_ip device) lan_interface pref_src)
       | None => attempt (remove_host_route (dv_last_ip device) lan_interface)
       end.

(** ** Proxy-neighbour entries *)

Definition missing_from (have : list str) (l : list str) : list str := filter (fun x => x ∉ have) l.

Definition reconcile_proxy_neigh (desired : list str) : M unit :=
  r ← call (list_neigh_proxies lan_interface);
  let existing := match r with Ok entries => btree_set str_compare entries | Err _ => [] end in
  if bool_decide (desired = existing) then mret tt
  else
    sm_iter (fun ip => attempt (add_neigh_proxy ip lan_interface)) (missing_from existing desired) ;;
    sm_iter (fun ip => attempt (remove_neigh_proxy ip lan_interface)) (missing_from desired existing).

(** ** Isolation *)

(** What one pass wants the kernel to look like. *)
Record Desired : Type := {
  de_rules : ZoneIsolationRules;
  de_aliases : gmap Ipv4Addr Z;
  de_proxies : list str;
  de_switchback : SwitchbackAcc;
}.

Definition expand_exception (base : Ipv4Network) (devices : list Device)
    (st : list ExceptionAllow * SwitchbackAcc) (exc : ZoneException)
    : M (list ExceptionAllow * SwitchbackAcc) :=
  from ← resolve_endpoint_cidr base (ze_from exc);
  match from with
  | None => mret st
  | Some from =>
      to_ ← resolve_endpoint_cidr base (ze_to exc);
      mret (match to_ with
            | None => st
            | Some to_ => (fst st ++ exception_allows exc from to_,
                           exception_switchback exc from to_ devices (snd st))
            end)
  end.

(** The desired state while the daemon hands out the addresses. *)
Definition desired_isolation (base : Ipv4Network) (devices : list Device) : Svc Desired :=
  andthen (required zones_find_all) (fun zones =>
  andthen (required exceptions_find_all) (fun exceptions =>
  let zn := zone_nets zones in
  '(allows, acc) ← sm_fold (expand_exception base devices) ([], ∅) exceptions;
  let aliases := gateway_aliases zn in
  mret (Ok {| de_rules := {| allows := allows;
                             deny_pairs := cross_pairs (all_subnets base zn);
                             member_isolation_subnets := member_subnets zones zn;
                             nat_exempt_pairs := nat_pairs allows |};
              de_aliases := aliases;
              de_proxies := proxy_neighbours lan_ip zones zn aliases devices;
              de_switchback := acc |}))).

(** The desired state while another server does. *)
Definition no_isolation : Desired :=
  {| de_rules := default_rules; de_aliases := ∅; de_proxies := []; de_switchback := ∅ |}.

Definition wanted_isolation (on : bool) (base : Ipv4Network) (devices : list Device) : Svc Desired :=
  if on then desired_isolation base devices else mret (Ok no_isolation).

Definition looks_managed (ip : Ipv4Addr) (prefix : Z) : bool :=
  match net_new ip prefix with Some net => ip =? gateway_for net | None => false end.

Definition remove_stale_gateway_aliases (desired : gmap Ipv4Addr Z) (base : Ipv4Network) : M unit :=
  r ← call (list_interface_aliases lan_interface);
  match r with
  | Err _ => mret tt
  | Ok aliases =>
      sm_iter (fun '(ip_str, prefix) =>
        match parse_ipv4 ip_str with
        | None => mret tt
        | Some ip =>
            if (ip =? lan_ip) || bool_decide (is_Some (desired !! ip)) || net_contains base ip
            then mret tt
            else if negb (looks_managed ip prefix) then mret tt
            else attempt (remove_interface_alias lan_interface ip_str prefix)
        end) aliases
  end.

Definition push_switchback (ctx : option AuthContext) (snapshot : SwitchbackSnapshot) : M unit :=
  sm_iter (fun '(device_id, device_ip, targets) =>
    on_routing (set_switchback_targets ctx device_id device_ip targets) ;; mret tt) snapshot ;;
  sm_modify (set_last_switchback snapshot).

Definition apply_isolation (rules : ZoneIsolationRules) (aliases : gmap Ipv4Addr Z)
    (base : Ipv4Network) : M unit :=
  attempt (apply_zone_isolation rules) ;;
  sm_iter (fun '(gw, prefix) =>
    attempt (add_interface_alias lan_interface (show_ipv4 gw) prefix)) (alias_list aliases) ;;
  remove_stale_gateway_aliases aliases base ;;
  sm_modify (set_last_isolation (rules, alias_strings aliases)).

(** The part of [reconcile_isolation] after the desired state is known. *)
Definition install (ctx : option AuthContext) (base : Ipv4Network) (devices : list Device)
    (d : Desired) : M unit :=
  let rules := sort_rules (de_rules d) in
  let snapshot := switchback_snapshot (de_switchback d) devices in
  switchback_changed ← sm_gets (fun w => negb (bool_decide (last_switchback w = Some snapshot)));
  iso_changed ← sm_gets (fun w =>
    negb (bool_decide (last_isolation w = Some (rules, alias_strings (de_aliases d)))));
  reconcile_proxy_neigh (de_proxies d) ;;
  (if switchback_changed : bool then push_switchback ctx snapshot else mret tt) ;;
  (if iso_changed : bool then apply_isolation rules (de_aliases d) base else mret tt).

Definition reconcile_isolation (ctx : option AuthContext) : Svc unit :=
  base ← base_cidr;
  match base with
  | None => mret (Err (Internal (of_string "a /32 is always valid")))
  | Some base =>
      andthen (required devices_find_all) (fun devices =>
      andthen dhcp_enabled (fun on =>
      andthen (wanted_isolation on base devices) (fun d =>
      install ctx base devices d ;; ok_unit)))
  end.

(** ** The service *)

(** The per-device loop of [reconcile]; the result is the live addresses. *)
Definition reapply_devices (zone_by_id : gmap Uuid NetworkZone) (devices : list Device)
    : M (list str) :=
  sm_fold (fun live device =>
    match parse_ipv4 (dv_last_ip device) with
    | None => mret live
    | Some _ =>
        let live := live ++ [dv_last_ip device] in
        match zone_by_id !! dv_zone_id device with
        | None => mret live
        | Some zone => apply_one (dv_last_ip device) zone false ;; mret live
        end
    end) [] devices.

Definition remove_orphans (live : list str) : M unit :=
  r ← call list_zone_rule_ips;
  match r with
  | Ok ips => sm_iter (fun ip => if bool_decide (ip ∈ live) then mret tt
                                 else attempt (remove_zone_rules ip)) ips
  | Err _ => mret tt
  end.

Definition zones_by_id (zones : list NetworkZone) : gmap Uuid NetworkZone :=
  foldl (fun m z => <[z_id z := z]> m) ∅ zones.

Definition reconcile_host_routes (zone_by_id : gmap Uuid NetworkZone) (devices : list Device)
    (on : bool) : M unit :=
  sm_iter (fun device =>
    match parse_ipv4 (dv_last_ip device), zone_by_id !! dv_zone_id device with
    | Some _, Some zone =>
        if negb on || negb (z_member_isolation zone) then mret tt
        else manage_host_route device zone on
    | _, _ => mret tt
    end) devices.

Definition enforcer_reconcile (ctx : option AuthContext) : Svc unit :=
  guard_admin ctx
    (attempt (set_proxy_arp lan_interface false) ;;
     andthen (required devices_find_all) (fun devices =>
     andthen (required zones_find_all) (fun all_zones =>
     let zone_by_id := zones_by_id all_zones in
     live ← reapply_devices zone_by_id devices;
     remove_orphans live ;;
     andthen zone_default_policy (fun policy =>
     andthen (clamp_default_bindings ctx policy) (fun _ =>
     andthen (reconcile_isolation ctx) (fun _ =>
     andthen dhcp_enabled (fun on =>
     reconcile_host_routes zone_by_id devices on ;; ok_unit))))))).

(** Isolation first, then the host route of the device that triggered it. *)
Definition isolate_then_route (ctx : option AuthContext) (pending : option (Device * NetworkZone))
    : Svc unit :=
  andthen (reconcile_isolation ctx) (fun _ =>
  match pending with
  | Some (device, zone) =>
      andthen dhcp_enabled (fun on => manage_host_route device zone on ;; ok_unit)
  | None => ok_unit
  end).

Definition apply_device (ctx : option AuthContext) (device_id : Uuid) : Svc unit :=
  guard_admin ctx
    (andthen (load_device_and_zone device_id) (fun pending =>
     andthen (match pending with
              | Some (device, zone) => apply_one (dv_last_ip device) zone true
              | None => ok_unit
              end) (fun _ =>
     isolate_then_route ctx pending))).

Definition apply_zone (ctx : option AuthContext) (zone_id : Uuid) : Svc unit :=
  guard_admin ctx
    (andthen (required (zones_find_by_id zone_id)) (fun zone =>
     match zone with
     | None => ok_unit
     | Some zone =>
         andthen (required devices_find_all) (fun devices =>
         sm_iter (fun device =>
           if bool_decide (dv_zone_id device <> zone_id) then mret tt
           else apply_one (dv_last_ip device) zone true ;; mret tt) devices ;;
         andthen (reconcile_isolation ctx) (fun _ =>
         andthen dhcp_enabled (fun on =>
         sm_iter (fun device =>
           if bool_decide (dv_zone_id device <> zone_id)
              || bool_decide (parse_ipv4 (dv_last_ip device) = None) then mret tt
           else manage_host_route device zone on) devices ;; ok_unit)))
     end)).

(** The rules and the host route of an address the device has left. *)
Definition drop_address (ip : str) : Svc unit :=
  own ← is_own_address ip;
  if own : bool then ok_unit
  else
    andthen (required (remove_zone_rules ip)) (fun _ =>
    attempt (remove_host_route ip lan_interface) ;; ok_unit).

Definition moved_to (ip : str) (device : Device) : Device :=
  {| dv_id := dv_id device; dv_mac := dv_mac device; dv_last_ip := ip;
     dv_zone_id := dv_zone_id device |}.

Definition enforcer_ip_change (ctx : option AuthContext) (device_id : Uuid) (old_ip new_ip : str)
    : Svc unit :=
  guard_admin ctx
    (andthen (drop_address old_ip) (fun _ =>
     andthen (load_device_and_zone device_id) (fun loaded =>
     andthen (match loaded with
              | Some (_, zone) => apply_one new_ip zone true
              | None => ok_unit
              end) (fun _ =>
     isolate_then_route ctx ((fun '(device, zone) => (moved_to new_ip device, zone)) <$> loaded))))).

Definition remove_device (ctx : option AuthContext) (device_id : Uuid) (last_ip : str) : Svc unit :=
  guard_admin ctx (andthen (drop_address last_ip) (fun _ => reconcile_isolation ctx)).

Definition enforcer_policy_changed (ctx : option AuthContext) (policy : str) : Svc unit :=
  guard_admin ctx (clamp_default_bindings ctx policy).

Definition handle_zone_change (ctx : option AuthContext) (device_id : Uuid) : Svc unit :=
  guard_admin ctx
    (andthen (load_device_and_zone device_id) (fun loaded =>
     andthen (match loaded with
              | Some (device, zone) =>
                  attempt (dhcp_release_lease (dv_mac device)) ;;
                  attempt (flush_conntrack (dv_last_ip device)) ;;
                  apply_one (dv_last_ip device) zone true
              | None => ok_unit
              end) (fun _ =>
     isolate_then_route ctx loaded))).

Definition handle_exceptions_changed (ctx : option AuthContext) : Svc unit :=
  guard_admin ctx (reconcile_isolation ctx).

End enforcer.
