(* ===== verification/ZoneLaws.v ===== *)
(** * What the zone enforcer guarantees

    First a frame: which calls of the environment a method can make.  From it,
    that zone rules, host routes and proxy entries are never keyed on the box's
    own LAN address; then what the isolation state contains, that a pass without changes does nothing,
    and that forbidden default bindings are unbound. *)

From S2P Require Import Prelude RustStr Net Auth DnsCache PolicyRouter RoutingTypes.
From S2P Require Import Routing RoutingLaws RoutingEffects RoutingSnapshots RoutingCalls.
From S2P Require Import ZoneTypes ZoneEnforcement.

Definition env_keeps {N A} (P : N -> Prop) (m : ST N str A) : Prop := forall n, P n -> P (snd (m n)).

(** A property of the environment that only enforcement on the own address, or
    the removal of an alias the daemon does not manage, could spoil.  [base] is
    every base subnet the daemon may compute. *)
Class Spared {N} {D : ZoneDeps N} {L : Ipv4NetworkLib} (lan_ip : Ipv4Addr) (P : N -> Prop) : Prop := {
  sp_devices : env_keeps P devices_find_all;
  sp_device id : env_keeps P (devices_find_by_id id);
  sp_rule id : env_keeps P (devices_find_rule_for_device id);
  sp_zones : env_keeps P zones_find_all;
  sp_zone id : env_keeps P (zones_find_by_id id);
  sp_exceptions : env_keeps P exceptions_find_all;
  sp_config k : env_keeps P (config_get k);
  sp_policy : env_keeps P config_get_default_policy;
  sp_release mac : env_keeps P (dhcp_release_lease mac);
  sp_remove_rule s t p : env_keeps P (remove_ip_rule s t p);
  sp_add_carve s c p : env_keeps P (add_switchback_rule s c p);
  sp_remove_carve s c p : env_keeps P (remove_switchback_rule s c p);
  sp_add_rst s : env_keeps P (add_tcp_reset_reject s);
  sp_remove_rst s : env_keeps P (remove_tcp_reset_reject s);
  sp_conntrack s : env_keeps P (flush_conntrack s);
  sp_cache : env_keeps P flush_route_cache;
  sp_proxy_arp i b : env_keeps P (set_proxy_arp i b);
  sp_proxies i : env_keeps P (list_neigh_proxies i);
  sp_remove_proxy s i : env_keeps P (remove_neigh_proxy s i);
  sp_aliases i : env_keeps P (list_interface_aliases i);
  sp_add_alias i s p : env_keeps P (add_interface_alias i s p);
  sp_zone_ips : env_keeps P list_zone_rule_ips;
  sp_remove_zone s : env_keeps P (remove_zone_rules s);
  sp_isolation r : env_keeps P (apply_zone_isolation r);
  (** guarded calls *)
  sp_apply_zone s r i : parse_ipv4 s <> Some lan_ip -> env_keeps P (apply_zone_rules s r i);
  sp_add_host s i g : parse_ipv4 s <> Some lan_ip -> env_keeps P (add_host_route s i g);
  sp_remove_host s i : parse_ipv4 s <> Some lan_ip -> env_keeps P (remove_host_route s i);
  sp_add_proxy s i : parse_ipv4 s <> Some lan_ip -> env_keeps P (add_neigh_proxy s i);
  sp_remove_alias i s p ip : parse_ipv4 s = Some ip -> ip <> lan_ip -> looks_managed ip p = true ->
    env_keeps P (remove_interface_alias i s p);
}.

Create HintDb spared.

Section laws.
Context {N : Type} {D : ZoneDeps N} {U : UuidParse} {L : Ipv4NetworkLib}.
Context (lan_interface : str) (lan_ip : Ipv4Addr).

Abbreviation W := (Enforcer N).

(** ** Histories *)

(** One call of the service, with any arguments, by anyone. *)
Inductive ecall : W -> W -> Prop :=
| ecall_reconcile ctx w : ecall w (snd (enforcer_reconcile lan_interface lan_ip ctx w))
| ecall_device ctx id w : ecall w (snd (apply_device lan_interface lan_ip ctx id w))
| ecall_zone ctx id w : ecall w (snd (apply_zone lan_interface lan_ip ctx id w))
| ecall_ip ctx id old new w : ecall w (snd (enforcer_ip_change lan_interface lan_ip ctx id old new w))
| ecall_remove ctx id ip w : ecall w (snd (remove_device lan_interface lan_ip ctx id ip w))
| ecall_policy ctx p w : ecall w (snd (enforcer_policy_changed ctx p w))
| ecall_zone_change ctx id w : ecall w (snd (handle_zone_change lan_interface lan_ip ctx id w))
| ecall_exceptions ctx w : ecall w (snd (handle_exceptions_changed lan_interface lan_ip ctx w)).

Section spared.
Context (P : N -> Prop) {S : Spared lan_ip P}.
Abbreviation holds := (fun w : W => P (env (routing w))).

Lemma keeps_call {A} (m : ST N str A) : env_keeps P m -> sm_keeps holds (call m).
Proof.
  intros H w Hw. unfold call, on_routing, try_env. specialize (H _ Hw).
  by destruct (m (env (routing w))).
Qed.

Lemma spared_attempt (m : ST N str unit) : env_keeps P m -> sm_keeps holds (attempt m).
Proof. intros H. unfold attempt. walk. by apply keeps_call. Qed.

Lemma keeps_required {A} (m : ST N str A) : env_keeps P m -> sm_keeps holds (required m).
Proof.
  intros H w Hw. unfold required, on_routing, internal, try_env. specialize (H _ Hw).
  by destruct (m (env (routing w))).
Qed.

Lemma keeps_on_routing {A} (m : SM (Routing N) A) :
  sm_keeps (fun r => P (env r)) m -> sm_keeps holds (on_routing m).
Proof. intros H w Hw. specialize (H _ Hw). unfold on_routing. by destruct (m (routing w)). Qed.

Lemma keeps_env_try {A} (m : ST N str A) : env_keeps P m ->
  sm_keeps (fun r : Routing N => P (env r)) (try_env m).
Proof. intros H. apply keeps_try. intros w Hw. by apply H. Qed.

Hint Resolve sp_devices sp_device sp_rule sp_zones sp_zone sp_exceptions sp_config sp_policy
  sp_release sp_remove_rule sp_add_carve sp_remove_carve sp_add_rst sp_remove_rst sp_conntrack
  sp_cache sp_proxy_arp sp_proxies sp_remove_proxy sp_aliases sp_add_alias sp_zone_ips
  sp_remove_zone sp_isolation : spared.

Ltac zw := walk;
  try (apply keeps_call; eauto with spared); try (apply spared_attempt; eauto with spared);
  try (apply keeps_required; eauto with spared); try (apply keeps_env_try; eauto with spared);
  try (by apply sm_keeps_modify).

(** ** The routing calls the enforcer makes *)

Abbreviation rholds := (fun r : Routing N => P (env r)).

Lemma spared_drain ip t : sm_keeps rholds (drain_ip_rules ip t).
Proof.
  intros w Hw. unfold drain_ip_rules. generalize (Datatypes.S (length (ip_rules (env w)))) as n.
  intros n. revert w Hw. change (sm_keeps rholds (remove_ip_rules n ip t)).
  induction n as [|n IH]; simpl; zw. apply IH.
Qed.

Lemma spared_remove_carves id : sm_keeps rholds (remove_switchback_for_device id).
Proof. unfold remove_switchback_for_device. zw. Qed.

Lemma spared_remove_kernel id : sm_keeps rholds (remove_device_kernel_state id).
Proof.
  unfold remove_device_kernel_state. zw; [apply spared_remove_carves | apply spared_drain].
Qed.

Lemma spared_reconcile_carves id : sm_keeps rholds (reconcile_switchback_for_device id).
Proof.
  unfold reconcile_switchback_for_device, carveouts_at, install_switchback. zw; apply spared_remove_carves.
Qed.

Lemma spared_targets ctx id ip cs : sm_keeps rholds (set_switchback_targets ctx id ip cs).
Proof.
  unfold set_switchback_targets, switchback_locked. zw;
    [apply spared_remove_carves | apply spared_reconcile_carves].
Qed.

(** Binding a device to direct asks nothing of tunnels. *)
Lemma apply_direct_run id ip (w : Routing N) : apply_rule_checked id ip Direct w =
  (skip ← gets (already_applied id ip Direct);
   if skip : bool then mret tt
   else flush ← apply_locked id ip Direct None false;
        if flush : bool then flush_stale_connections ip else mret tt) w.
Proof.
  unfold apply_rule_checked. rewrite !sm_bind_run. simpl.
  by destruct (already_applied id ip Direct (state w)).
Qed.

Lemma spared_direct ctx id : sm_keeps rholds (apply_rule_for_device ctx id Direct).
Proof.
  unfold apply_rule_for_device, apply_rule_logged, apply_rule. zw.
  intros w Hw. rewrite apply_direct_run. apply (sm_keeps_bind rholds); [..|exact Hw]; zw.
  intros skip. unfold apply_locked, settle, record_rule, refresh_dns_upstream_snapshot, flush_stale_connections. zw;
    try apply spared_remove_kernel; apply spared_reconcile_carves.
Qed.

(** ** The guard *)

Context (lan_set : is_unspecified lan_ip = false).

(** A negative answer means a foreign address. *)
Lemma own_address_post ip :
  sm_post holds (is_own_address lan_ip ip) (fun own w =>
    holds w /\ (own = false -> parse_ipv4 ip <> Some lan_ip)).
Proof.
  unfold is_own_address. rewrite lan_set. simpl.
  destruct (parse_ipv4 ip) as [a|]; [|apply sm_post_ret; auto].
  destruct (Z.eqb_spec a lan_ip) as [->|Hne]; [apply sm_post_ret; auto|].
  apply (sm_post_conseq _ holds _ _ (fun _ => holds)); [|done|].
  - change (sm_keeps holds (is_zone_gateway a)). unfold is_zone_gateway. zw.
  - intros own w Hw. split; [exact Hw|]. congruence.
Qed.

(** A guarded computation: the rest runs on foreign addresses only. *)
Lemma keeps_guarded {A} ip (yes no : SM W A) : sm_keeps holds yes ->
  (parse_ipv4 ip <> Some lan_ip -> sm_keeps holds no) ->
  sm_keeps holds (own ← is_own_address lan_ip ip; if own : bool then yes else no).
Proof.
  intros Hy Hn. eapply sm_post_bind; [apply own_address_post|]. intros [|] w [Hw Hf].
  - by apply Hy.
  - apply Hn; [by apply Hf | done].
Qed.

Lemma spared_apply_one ip zone flush : sm_keeps holds (apply_one lan_interface lan_ip ip zone flush).
Proof.
  unfold apply_one. apply keeps_guarded; [zw|]. intros Hip. zw. by apply sp_apply_zone.
Qed.

Lemma spared_load id : sm_keeps holds (load_device_and_zone lan_ip id).
Proof.
  unfold load_device_and_zone. zw. eapply sm_post_conseq; [apply own_address_post | done |]. by intros ? ? [].
Qed.

Lemma spared_host_route device zone on :
  sm_keeps holds (manage_host_route lan_interface lan_ip device zone on).
Proof.
  unfold manage_host_route. apply keeps_guarded; [zw|]. intros Hip. zw; [by apply sp_add_host | by apply sp_remove_host].
Qed.

Lemma spared_drop ip : sm_keeps holds (drop_address lan_interface lan_ip ip).
Proof.
  unfold drop_address. apply keeps_guarded; [zw|]. intros Hip. zw. by apply sp_remove_host.
Qed.

Lemma spared_clamp ctx policy : sm_keeps holds (clamp_default_bindings ctx policy).
Proof.
  unfold clamp_default_bindings, clamp_device. zw. apply keeps_on_routing, spared_direct.
Qed.

Lemma spared_proxies desired : (forall ip, ip ∈ desired -> parse_ipv4 ip <> Some lan_ip) ->
  sm_keeps holds (reconcile_proxy_neigh lan_interface desired).
Proof.
  intros Hd. unfold reconcile_proxy_neigh. zw. apply sp_add_proxy, Hd.
  by match goal with H : _ ∈ missing_from _ _ |- _ => apply list_elem_of_filter in H as [_ H] end.
Qed.

Lemma proxy_neighbours_spec zones zn aliases devices ip :
  ip ∈ proxy_neighbours lan_ip zones zn aliases devices <->
  exists dev net addr, dev ∈ devices /\ dv_last_ip dev = ip /\
    member_zone_nets zones zn !! dv_zone_id dev = Some net /\ parse_ipv4 ip = Some addr /\
    net_contains net addr = true /\ addr <> lan_ip /\ aliases !! addr = None.
Proof.
  unfold proxy_neighbours, btree_set.
  rewrite (elem_of_dedup_by _ str_compare_eq), elem_of_sort_by, list_elem_of_omap. split.
  - intros (dev & Hdev & H).
    destruct (member_zone_nets zones zn !! dv_zone_id dev) as [net|] eqn:En; [|done]. simpl in H.
    destruct (parse_ipv4 (dv_last_ip dev)) as [addr|] eqn:Ea; [|done]. simpl in H.
    destruct (net_contains net addr) eqn:Ec; [|done]. simpl in H.
    destruct (Z.eqb_spec addr lan_ip); [done|]. case_bool_decide as Hal; [done|]. simpl in H.
    injection H as <-. exists dev, net, addr. split_and!; try done. by apply eq_None_not_Some.
  - intros (dev & net & addr & Hdev & <- & Hn & Ha & Hc & Hl & Hal). exists dev. split; [done|].
    rewrite Hn. simpl. rewrite Ha. simpl. rewrite Hc. simpl. rewrite (proj2 (Z.eqb_neq _ _) Hl).
    rewrite bool_decide_false; [done|]. rewrite Hal. by intros [].
Qed.

Lemma spared_desired base devices :
  sm_post holds (desired_isolation lan_ip base devices) (fun r w => holds w /\
    forall d, r = Ok d -> forall ip, ip ∈ de_proxies d -> parse_ipv4 ip <> Some lan_ip).
Proof.
  unfold desired_isolation. eapply (post_andthen _ _ _ (fun _ => holds)).
  { intros w Hw. pose proof (keeps_required zones_find_all sp_zones w Hw) as H.
    destruct (required zones_find_all w) as [[?|?] ?]; [done | split; [done|discriminate]]. }
  intros zones. eapply (post_andthen _ _ _ (fun _ => holds)).
  { intros w Hw. pose proof (keeps_required exceptions_find_all sp_exceptions w Hw) as H.
    destruct (required exceptions_find_all w) as [[?|?] ?]; [done | split; [done|discriminate]]. }
  intros exceptions. eapply (sm_post_bind _ _ _ (fun _ => holds)).
  { change (sm_keeps holds (sm_fold (expand_exception base devices) ([], ∅) exceptions)).
    unfold expand_exception, resolve_endpoint_cidr. zw. }
  intros [allows acc]. apply sm_post_ret. intros w Hw. split; [exact Hw|].
  intros d [= <-] ip (dev & net & addr & _ & <- & _ & Ha & _ & Hl & _)%proxy_neighbours_spec. congruence.
Qed.

Lemma spared_stale desired base :
  sm_keeps holds (remove_stale_gateway_aliases lan_interface lan_ip desired base).
Proof.
  unfold remove_stale_gateway_aliases. apply sm_keeps_bind; [apply keeps_call, sp_aliases|].
  intros [aliases|e]; [|apply sm_keeps_ret]. apply sm_keeps_iter. intros [s p] _.
  destruct (parse_ipv4 s) as [ip|] eqn:Es; [|apply sm_keeps_ret].
  destruct (Z.eqb_spec ip lan_ip); [apply sm_keeps_ret|].
  destruct (_ || _); [apply sm_keeps_ret|].
  destruct (looks_managed ip p) eqn:Em; [|apply sm_keeps_ret].
  by eapply spared_attempt, sp_remove_alias.
Qed.

Lemma spared_install ctx base devices d :
  (forall ip, ip ∈ de_proxies d -> parse_ipv4 ip <> Some lan_ip) ->
  sm_keeps holds (install lan_interface lan_ip ctx base devices d).
Proof.
  intros Hp. unfold install, push_switchback, apply_isolation. zw.
  - by apply spared_proxies.
  - apply keeps_on_routing, spared_targets.
  - apply spared_stale.
Qed.

Lemma spared_isolation ctx : sm_keeps holds (reconcile_isolation lan_interface lan_ip ctx).
Proof.
  unfold reconcile_isolation. apply sm_keeps_bind; [unfold base_cidr; zw|].
  intros [base|]; [|apply sm_keeps_ret].
  apply keeps_andthen; [zw|]. intros devices. apply keeps_andthen; [unfold dhcp_enabled; zw|].
  intros on. eapply (post_andthen _ _ _ (fun d w => holds w /\
    forall ip, ip ∈ de_proxies d -> parse_ipv4 ip <> Some lan_ip)).
  - unfold wanted_isolation. destruct on.
    + eapply sm_post_conseq; [apply spared_desired | done |]. intros [d|e] w [H1 H2]; [|done].
      split; [exact H1 | by apply H2].
    + apply sm_post_ret. intros w Hw. split; [exact Hw | set_solver].
  - intros d w [Hw Hp]. revert w Hw. change (sm_keeps holds
      (install lan_interface lan_ip ctx base devices d ;; ok_unit)).
    zw. by apply spared_install.
Qed.

Lemma spared_isolate_route ctx pending :
  sm_keeps holds (isolate_then_route lan_interface lan_ip ctx pending).
Proof.
  unfold isolate_then_route, dhcp_enabled. zw; [apply spared_isolation | apply spared_host_route].
Qed.

Lemma ecall_spared w w' : ecall w w' -> holds w -> holds w'.
Proof.
  destruct 1; intros Hw.
  - revert w Hw. change (sm_keeps holds (enforcer_reconcile lan_interface lan_ip ctx)).
    unfold enforcer_reconcile, reapply_devices, remove_orphans, zone_default_policy, dhcp_enabled,
      reconcile_host_routes. zw;
      [apply spared_apply_one | apply spared_clamp | apply spared_isolation | apply spared_host_route].
  - revert w Hw. change (sm_keeps holds (apply_device lan_interface lan_ip ctx id)).
    unfold apply_device. zw; [apply spared_load | apply spared_apply_one | apply spared_isolate_route..].
  - revert w Hw. change (sm_keeps holds (apply_zone lan_interface lan_ip ctx id)).
    unfold apply_zone, dhcp_enabled.
    zw; [apply spared_apply_one | apply spared_isolation | apply spared_host_route].
  - revert w Hw. change (sm_keeps holds (enforcer_ip_change lan_interface lan_ip ctx id old new)).
    unfold enforcer_ip_change.
    zw; [apply spared_drop | apply spared_load | apply spared_apply_one | apply spared_isolate_route..].
  - revert w Hw. change (sm_keeps holds (remove_device lan_interface lan_ip ctx id ip)).
    unfold remove_device. zw; [apply spared_drop | apply spared_isolation].
  - revert w Hw. change (sm_keeps holds (enforcer_policy_changed ctx p)).
    unfold enforcer_policy_changed. zw. apply spared_clamp.
  - revert w Hw. change (sm_keeps holds (handle_zone_change lan_interface lan_ip ctx id)).
    unfold handle_zone_change.
    zw; [apply spared_load | apply spared_apply_one | apply spared_isolate_route..].
  - revert w Hw. change (sm_keeps holds (handle_exceptions_changed lan_interface lan_ip ctx)).
    unfold handle_exceptions_changed. zw. apply spared_isolation.
Qed.

End spared.


(** ** What the isolation state contains *)

Definition zone_net (z : NetworkZone) : option Ipv4Network := cidr ← z_subnet z; net_parse cidr.

(** Folding keyed insertions over a list whose keys are distinct. *)
Lemma foldl_insert_lookup {K A B} `{Countable K} (key : A -> K) (val : A -> option B) (l : list A) :
  NoDup (key <$> l) -> forall (m : gmap K B) k b, (forall x, x ∈ l -> m !! key x = None) ->
  foldl (fun m x => match val x with Some v => <[key x := v]> m | None => m end) m l !! k = Some b <->
  m !! k = Some b \/ exists x, x ∈ l /\ key x = k /\ val x = Some b.
Proof.
  induction l as [|x l IH]; intros Hnd m k b Hm; cbn [foldl].
  { split; [by left|]. by intros [?|(? & ?%elem_of_nil & _)]. }
  rewrite fmap_cons in Hnd. apply NoDup_cons in Hnd as [Hx Hnd].
  rewrite IH; [|done|].
  - destruct (val x) as [v|] eqn:Ev.
    + rewrite lookup_insert_Some. split.
      * intros [[[<- <-]|[_ ?]]|(y & Hy & ? & ?)]; [right; exists x; set_solver | by left |].
        right. exists y. set_solver.
      * intros [Hk|(y & [->|Hy]%elem_of_cons & <- & Hv)].
        -- left. right. split; [|done]. intros <-. rewrite (Hm x) in Hk by set_solver. done.
        -- left. left. naive_solver.
        -- right. eauto.
    + split.
      * intros [?|(y & Hy & ? & ?)]; [by left | right; exists y; set_solver].
      * intros [?|(y & [->|Hy]%elem_of_cons & ? & ?)]; [by left | congruence | right; eauto].
  - intros y Hy. destruct (val x) as [v|]; [|apply Hm; set_solver].
    rewrite lookup_insert_ne; [apply Hm; set_solver|]. intros E. apply Hx. rewrite E. by apply list_elem_of_fmap_2.
Qed.

Lemma zone_nets_spec zones id net : NoDup (z_id <$> zones) ->
  zone_nets zones !! id = Some net <-> exists z, z ∈ zones /\ z_id z = id /\ zone_net z = Some net.
Proof.
  intros Hnd. unfold zone_nets.
  assert (H : forall m : gmap Uuid Ipv4Network,
    foldl (fun m '(id, net) => <[id := net]> m) m (parse_zone_subnets zones)
    = foldl (fun m z => match zone_net z with Some v => <[z_id z := v]> m | None => m end) m zones).
  { clear Hnd. unfold parse_zone_subnets. induction zones as [|z zones IH]; intros m; [done|].
    cbn [foldl omap list_omap]. unfold zone_net at 2. destruct (z_subnet z) as [c|]; simpl; [|apply IH].
    destruct (net_parse c); simpl; apply IH. }
  rewrite H, (foldl_insert_lookup z_id zone_net); [|done..]. rewrite lookup_empty. naive_solver.
Qed.

Lemma member_zone_nets_spec zones id net : NoDup (z_id <$> zones) ->
  member_zone_nets zones (zone_nets zones) !! id = Some net <->
  exists z, z ∈ zones /\ z_id z = id /\ z_member_isolation z = true /\ zone_net z = Some net.
Proof.
  intros Hnd. unfold member_zone_nets.
  assert (H : forall (l : list NetworkZone) (zn m : gmap Uuid Ipv4Network),
    foldl (fun m z => if z_member_isolation z
                      then match zn !! z_id z with Some net => <[z_id z := net]> m | None => m end
                      else m) m l
    = foldl (fun m z => match (if z_member_isolation z then zn !! z_id z else None) with
                        | Some v => <[z_id z := v]> m | None => m end) m l).
  { induction l as [|z l IH]; intros zn m; [done|]. cbn [foldl]. rewrite IH. by destruct (z_member_isolation z). }
  rewrite H, (foldl_insert_lookup z_id (fun z => if z_member_isolation z then zone_nets zones !! z_id z else None));
    [|done..]. rewrite lookup_empty. split.
  - intros [?|(z & Hz & <- & Hv)]; [done|]. destruct (z_member_isolation z) eqn:Em; [|done].
    apply zone_nets_spec in Hv as (z' & Hz' & E & Hn); [|done].
    exists z. assert (z' = z) as -> by by eapply (NoDup_fmap_elem_inj z_id). done.
  - intros (z & Hz & <- & Hm & Hn). right. exists z. split_and!; [done..|]. rewrite Hm.
    apply zone_nets_spec; eauto.
Qed.

Lemma all_subnets_spec base (zn : gmap Uuid Ipv4Network) s : s ∈ all_subnets base zn <->
  s = canonical_cidr base \/ exists id net, zn !! id = Some net /\ s = canonical_cidr net.
Proof.
  unfold all_subnets, nets.
  assert (H : forall ns l, s ∈ foldl (fun l net => let s := canonical_cidr net in
      if bool_decide (s ∈ l) then l else l ++ [s]) l ns <->
    s ∈ l \/ exists net, net ∈ ns /\ s = canonical_cidr net).
  { induction ns as [|n ns IH]; intros l; cbn [foldl]; [set_solver|]. rewrite IH. cbv zeta.
    case_bool_decide; set_solver. }
  rewrite H, list_elem_of_singleton. split.
  - intros [?|(net & ([id net'] & -> & Hp%elem_of_map_to_list)%list_elem_of_fmap & ->)]; [by left|].
    right. by exists id, net'.
  - intros [?|(id & net & Hn & ->)]; [by left|]. right. exists net. split; [|done].
    apply list_elem_of_fmap. exists (id, net). split; [done | by apply elem_of_map_to_list].
Qed.

Lemma cross_pairs_spec l a b : (a, b) ∈ cross_pairs l <-> a ∈ l /\ b ∈ l /\ a <> b.
Proof.
  unfold cross_pairs. rewrite list_elem_of_In, in_concat. split.
  - intros (ps & Hps%list_elem_of_In & Hin%list_elem_of_In).
    apply list_elem_of_fmap in Hps as (x & -> & Hx).
    apply list_elem_of_omap in Hin as (y & Hy & E). case_bool_decide; [|done]. by injection E as -> ->.
  - intros (Ha & Hb & Hne). eexists. split.
    + apply list_elem_of_In, list_elem_of_fmap. exists a. split; [reflexivity | done].
    + apply list_elem_of_In, list_elem_of_omap. exists b. split; [done|]. by rewrite bool_decide_true.
Qed.

Lemma gateway_aliases_spec (zn : gmap Uuid Ipv4Network) addr : is_Some (gateway_aliases zn !! addr) <->
  exists id net, zn !! id = Some net /\ gateway_for net = addr.
Proof.
  unfold gateway_aliases, nets.
  assert (H : forall (ns : list Ipv4Network) (m : gmap Ipv4Addr Z),
    is_Some (foldl (fun m net => <[gateway_for net := net_prefix net]> m) m ns !! addr) <->
    is_Some (m !! addr) \/ exists net, net ∈ ns /\ gateway_for net = addr).
  { induction ns as [|n ns IH]; intros m; cbn [foldl]; [set_solver|].
    rewrite IH, lookup_insert_is_Some. destruct (decide (gateway_for n = addr)); set_solver. }
  rewrite H, lookup_empty. split.
  - intros [[? ?]|(net & ([id net'] & -> & Hp%elem_of_map_to_list)%list_elem_of_fmap & ?)]; [done|].
    by exists id, net'.
  - intros (id & net & Hn & ?). right. exists net. split; [|done].
    apply list_elem_of_fmap. exists (id, net). split; [done | by apply elem_of_map_to_list].
Qed.

Lemma sm_fold_result {X A B} (I : B -> Prop) (body : B -> A -> SM X B) xs : forall b w, I b ->
  (forall b x w, x ∈ xs -> I b -> I (fst (body b x w))) -> I (fst (sm_fold body b xs w)).
Proof.
  induction xs as [|x xs IH]; intros b w Hb Hstep; [done|]. cbn [sm_fold]. rewrite sm_bind_run.
  apply IH; [apply Hstep; set_solver | intros; apply Hstep; set_solver].
Qed.

(** An allow that an exception, its endpoints resolved, accounts for. *)
Definition accounted (exceptions : list ZoneException) (a : ExceptionAllow) : Prop :=
  exists exc port, exc ∈ exceptions /\ port ∈ resolve_ports (ze_service exc) /\
    proto a = proto_as_str (ps_proto port) /\ port_start a = ps_from port /\ port_end a = ps_to port /\
    bidirectional a = ze_bidirectional exc.

Lemma expand_accounted base devices exceptions st exc (w : W) : exc ∈ exceptions ->
  Forall (accounted exceptions) (fst st) ->
  Forall (accounted exceptions) (fst (fst (expand_exception base devices st exc w))).
Proof.
  intros Hin Hst. unfold expand_exception. rewrite sm_bind_run.
  destruct (fst (resolve_endpoint_cidr base (ze_from exc) w)) as [from|]; [|done].
  rewrite sm_bind_run. simpl.
  destruct (fst (resolve_endpoint_cidr base (ze_to exc) _)) as [to_|]; [|done]. simpl.
  apply Forall_app. split; [done|]. apply Forall_forall. intros a Ha.
  apply list_elem_of_fmap in Ha as (port & -> & Hp). by exists exc, port.
Qed.

Lemma desired_run base devices (w : W) d :
  fst (desired_isolation lan_ip base devices w) = Ok d ->
  exists zones exceptions,
    fst (zones_find_all (env (routing w))) = Ok zones /\
    fst (exceptions_find_all (snd (zones_find_all (env (routing w))))) = Ok exceptions /\
    deny_pairs (de_rules d) = cross_pairs (all_subnets base (zone_nets zones)) /\
    member_isolation_subnets (de_rules d) = member_subnets zones (zone_nets zones) /\
    Forall (accounted exceptions) (allows (de_rules d)) /\
    de_proxies d = proxy_neighbours lan_ip zones (zone_nets zones) (gateway_aliases (zone_nets zones)) devices.
Proof.
  unfold desired_isolation, andthen at 1, required, on_routing, internal, try_env.
  destruct (zones_find_all (env (routing w))) as [[zones|e] n1]; simpl; [|done].
  unfold andthen. simpl.
  destruct (exceptions_find_all n1) as [[exceptions|e] n2]; simpl; [|done].
  rewrite sm_bind_run. set (w2 := set_routing _ _).
  pose proof (sm_fold_result (fun st => Forall (accounted exceptions) (fst st))
    (expand_exception base devices) exceptions ([], ∅) w2) as Hf.
  destruct (sm_fold _ _ exceptions w2) as [[allows acc] w3]. simpl in Hf |- *. intros [= <-]. simpl.
  exists zones, exceptions. split_and!; try done. apply Hf; [done|].
  intros st exc w' Hin Hst. by apply expand_accounted.
Qed.

Lemma desired_spec base devices (w : W) d zones exceptions :
  fst (zones_find_all (env (routing w))) = Ok zones -> NoDup (z_id <$> zones) ->
  fst (exceptions_find_all (snd (zones_find_all (env (routing w))))) = Ok exceptions ->
  fst (desired_isolation lan_ip base devices w) = Ok d ->
  let rules := sort_rules (de_rules d) in
  let subnet s := s = canonical_cidr base \/
    exists z net, z ∈ zones /\ zone_net z = Some net /\ s = canonical_cidr net in
  (forall a b, (a, b) ∈ deny_pairs rules <-> subnet a /\ subnet b /\ a <> b) /\
  (forall s, s ∈ member_isolation_subnets rules <-> exists z net, z ∈ zones /\
     z_member_isolation z = true /\ zone_net z = Some net /\ s = canonical_cidr net) /\
  (forall a, a ∈ allows rules -> accounted exceptions a) /\
  (forall ip, ip ∈ de_proxies d <-> exists dev z net addr, dev ∈ devices /\ dv_last_ip dev = ip /\
     z ∈ zones /\ z_id z = dv_zone_id dev /\ z_member_isolation z = true /\ zone_net z = Some net /\
     parse_ipv4 ip = Some addr /\ net_contains net addr = true /\ addr <> lan_ip /\
     forall z' net', z' ∈ zones -> zone_net z' = Some net' -> gateway_for net' <> addr).
Proof.
  intros Hz Hnd Hx (zones' & exceptions' & Hz' & Hx' & Hdeny & Hmem & Hacc & Hpx)%desired_run.
  rewrite Hz in Hz'. injection Hz' as <-. rewrite Hx in Hx'. injection Hx' as <-.
  assert (Hsub : forall s, s ∈ all_subnets base (zone_nets zones) <-> s = canonical_cidr base \/
    exists z net, z ∈ zones /\ zone_net z = Some net /\ s = canonical_cidr net).
  { intros s. rewrite all_subnets_spec. setoid_rewrite zone_nets_spec; [|done]. naive_solver. }
  cbv zeta. simpl. split_and!.
  - intros a b. rewrite elem_of_sort_by, Hdeny, cross_pairs_spec, !Hsub. done.
  - intros s. rewrite elem_of_sort_by, Hmem. unfold member_subnets. rewrite list_elem_of_omap. split.
    + intros (z & Hin & E). destruct (z_member_isolation z) eqn:Em; [|done].
      apply fmap_Some in E as (net & Hn & ->). apply zone_nets_spec in Hn as (z' & Hz' & E & Hn); [|done].
      assert (z' = z) as -> by by eapply (NoDup_fmap_elem_inj z_id). by exists z, net.
    + intros (z & net & Hin & Hm & Hn & ->). exists z. split; [done|]. rewrite Hm.
      rewrite (proj2 (zone_nets_spec zones (z_id z) net Hnd)); [done | eauto].
  - intros a Ha. rewrite elem_of_sort_by in Ha. by apply (proj1 (Forall_forall _ _) Hacc).
  - intros ip. rewrite Hpx, proxy_neighbours_spec.
    setoid_rewrite (fun id net => member_zone_nets_spec zones id net Hnd).
    assert (Hal : forall addr, gateway_aliases (zone_nets zones) !! addr = None <->
      forall z' net', z' ∈ zones -> zone_net z' = Some net' -> gateway_for net' <> addr).
    { intros addr. rewrite eq_None_not_Some, gateway_aliases_spec.
      setoid_rewrite (fun id net => zone_nets_spec zones id net Hnd). naive_solver. }
    setoid_rewrite Hal. naive_solver.
Qed.

(** C30: What a pass asks for, when zones (with distinct ids) and exceptions
    can be read.  While the daemon hands out addresses, it denies exactly the
    ordered pairs of distinct subnets among the base subnet and the zone subnets
    that parse, isolates the members of exactly the zones that want it and have
    such a subnet, opens only ports that some exception names, and answers ARP
    for exactly the devices that are inside the subnet of their isolating zone
    and hold neither the LAN address nor a zone gateway.  While another server
    hands them out, it asks for no denial, no isolation, no opening, no ARP
    answer, no gateway alias and no carve-out at all. *)
Theorem isolation_spec on base devices (w : W) d zones exceptions :
  fst (zones_find_all (env (routing w))) = Ok zones -> NoDup (z_id <$> zones) ->
  fst (exceptions_find_all (snd (zones_find_all (env (routing w))))) = Ok exceptions ->
  fst (wanted_isolation lan_ip on base devices w) = Ok d ->
  let rules := sort_rules (de_rules d) in
  let subnet s := s = canonical_cidr base \/
    exists z net, z ∈ zones /\ zone_net z = Some net /\ s = canonical_cidr net in
  (forall a b, (a, b) ∈ deny_pairs rules <-> on = true /\ subnet a /\ subnet b /\ a <> b) /\
  (forall s, s ∈ member_isolation_subnets rules <-> on = true /\ exists z net, z ∈ zones /\
     z_member_isolation z = true /\ zone_net z = Some net /\ s = canonical_cidr net) /\
  (forall a, a ∈ allows rules -> on = true /\ accounted exceptions a) /\
  (forall ip, ip ∈ de_proxies d <-> on = true /\ exists dev z net addr, dev ∈ devices /\
     dv_last_ip dev = ip /\ z ∈ zones /\ z_id z = dv_zone_id dev /\ z_member_isolation z = true /\
     zone_net z = Some net /\ parse_ipv4 ip = Some addr /\ net_contains net addr = true /\
     addr <> lan_ip /\ forall z' net', z' ∈ zones -> zone_net z' = Some net' -> gateway_for net' <> addr) /\
  (on = false -> nat_exempt_pairs rules = [] /\ de_aliases d = ∅ /\ de_switchback d = ∅).
Proof.
  intros Hz Hnd Hx Hd. destruct on.
  - destruct (desired_spec base devices w d zones exceptions Hz Hnd Hx Hd) as (H1 & H2 & H3 & H4).
    cbv zeta in H1, H2, H3 |- *. split_and!; [| | | |done]; naive_solver.
  - injection Hd as <-. cbv zeta. cbn. split_and!; [set_solver..|done].
Qed.

(** ** A pass without changes *)

(** The change snapshots are written by nothing but their own setters. *)
Section memory.
Context (i : option (ZoneIsolationRules * list str)) (s : option SwitchbackSnapshot).
Abbreviation remembers := (fun w : W => last_isolation w = i /\ last_switchback w = s).

Lemma remembers_routing {A} (m : SM (Routing N) A) : sm_keeps remembers (on_routing m).
Proof. intros w Hw. unfold on_routing. by destruct (m (routing w)). Qed.

Lemma remembers_attempt (m : ST N str unit) : sm_keeps remembers (attempt m).
Proof. unfold attempt, call. walk. apply remembers_routing. Qed.

Lemma remembers_proxies l : sm_keeps remembers (reconcile_proxy_neigh lan_interface l).
Proof. unfold reconcile_proxy_neigh, call. walk; try apply remembers_attempt. apply remembers_routing. Qed.

Lemma remembers_stale desired base :
  sm_keeps remembers (remove_stale_gateway_aliases lan_interface lan_ip desired base).
Proof.
  unfold remove_stale_gateway_aliases, call. walk; try apply remembers_attempt. apply remembers_routing.
Qed.

End memory.

Lemma push_remembers ctx snap i s :
  sm_post (fun w : W => last_isolation w = i /\ last_switchback w = s) (push_switchback ctx snap)
    (fun _ w => last_isolation w = i /\ last_switchback w = Some snap).
Proof.
  unfold push_switchback. eapply sm_post_bind.
  { apply sm_keeps_iter. intros [[id ip] ts] _. apply sm_keeps_bind; [apply remembers_routing|].
    intros ?. apply sm_keeps_ret. }
  intros []. apply sm_post_modify. by intros w [H _].
Qed.

Lemma apply_remembers rules aliases base i s :
  sm_post (fun w : W => last_isolation w = i /\ last_switchback w = s)
    (apply_isolation lan_interface lan_ip rules aliases base)
    (fun _ w => last_isolation w = Some (rules, alias_strings aliases) /\ last_switchback w = s).
Proof.
  unfold apply_isolation. eapply sm_post_bind; [apply remembers_attempt|]. intros [].
  eapply sm_post_bind.
  { apply sm_keeps_iter. intros [gw p] _. apply remembers_attempt. }
  intros []. eapply sm_post_bind; [apply remembers_stale|]. intros [].
  apply sm_post_modify. by intros w [_ H].
Qed.

Lemma install_remembers ctx base devices d (w : W) :
  let w' := snd (install lan_interface lan_ip ctx base devices d w) in
  last_isolation w' = Some (sort_rules (de_rules d), alias_strings (de_aliases d)) /\
  last_switchback w' = Some (switchback_snapshot (de_switchback d) devices).
Proof.
  unfold install. rewrite !sm_bind_run. simpl.
  set (snap := switchback_snapshot _ _). set (iso := (sort_rules _, _)).
  pose proof (remembers_proxies _ _ (de_proxies d) w (conj eq_refl eq_refl)) as H1.
  set (w1 := snd (reconcile_proxy_neigh _ _ w)) in *.
  assert (H2 : last_isolation (snd ((if negb (bool_decide (last_switchback w = Some snap))
      then push_switchback ctx snap else mret tt) w1)) = last_isolation w /\
    last_switchback (snd ((if negb (bool_decide (last_switchback w = Some snap))
      then push_switchback ctx snap else mret tt) w1)) = Some snap).
  { case_bool_decide as E; simpl; [by destruct H1 as [-> ->]|]. by apply (push_remembers _ _ _ _ w1 H1). }
  set (w2 := snd (_ w1)) in *. fold iso in H2 |- *.
  case_bool_decide as E; simpl; [by destruct H2 as [-> ->]|].
  by apply (apply_remembers _ _ _ _ _ w2 H2).
Qed.

(** Repeating an isolation pass whose outcome is the same does nothing but
    compare the proxy entries with the kernel: no rule is pushed, no alias
    touched, no firewall rebuilt.  The comparison is with what was asked for,
    so this holds as well when the first pass failed at the firewall: the
    refused isolation is not tried again until the desired state changes. *)
Theorem isolation_debounced ctx base devices d (w : W) :
  let w' := snd (install lan_interface lan_ip ctx base devices d w) in
  install lan_interface lan_ip ctx base devices d w' =
  reconcile_proxy_neigh lan_interface (de_proxies d) w'.
Proof.
  cbv zeta. destruct (install_remembers ctx base devices d w) as [H1 H2].
  set (w' := snd (install _ _ _ _ _ _ w)) in *. unfold install at 1.
  rewrite !sm_bind_run. simpl. rewrite H1, H2, !bool_decide_true by done. simpl.
  by destruct (reconcile_proxy_neigh lan_interface (de_proxies d) w') as [[] ?].
Qed.

(** ** Forbidden default bindings *)

Section clamp.
(** A database with this content: [Q] is what kernel work does not change. *)
Context (Q : N -> Prop) {HQ : Spared lan_ip Q}.
Context (devices : list Device) (rule_of : Uuid -> option RoutingRule) (zone_of : Uuid -> option NetworkZone).
Context (q_devices : forall n, Q n -> fst (devices_find_all n) = Ok devices).
Context (q_device : forall n d, Q n -> d ∈ devices -> fst (devices_find_by_id (dv_id d) n) = Ok (Some d)).
Context (q_rule : forall n id, Q n -> fst (devices_find_rule_for_device id n) = Ok (rule_of id)).
Context (q_zone : forall n id, Q n -> fst (zones_find_by_id id n) = Ok (zone_of id)).

(** A device on the default policy whose zone forbids what the policy resolves
    to, and permits direct. *)
Definition must_clamp (kind : AllowedTargetKind) (d : Device) : bool :=
  match rule_of (dv_id d), zone_of (dv_zone_id d) with
  | Some rule, Some zone =>
      bool_decide (rr_target rule = Default) && negb (permits_kind zone kind)
      && permits_kind zone KindDirect
  | _, _ => false
  end.

Abbreviation table := (fun w : W => applied (state (routing w))).
Abbreviation stored := (fun w : W => Q (env (routing w))).

Lemma call_answer {A} (m : ST N str A) (v : A) (w : W) : env_keeps Q m -> stored w ->
  (forall n, Q n -> fst (m n) = Ok v) ->
  exists w', call m w = (Ok v, w') /\ stored w' /\ table w' = table w.
Proof.
  intros Hk Hw Hv. unfold call, on_routing, try_env. specialize (Hk _ Hw). specialize (Hv _ Hw).
  destruct (m (env (routing w))) as [r n']. simpl in *. subst r. by eexists.
Qed.

Lemma bind_direct ctx d (w : W) : is_ok (require_admin ctx) = true -> stored w -> d ∈ devices ->
  let w' := snd ((on_routing (apply_rule_for_device ctx (dv_id d) Direct)) w) in
  stored w' /\ bound (table w) (dv_id d) (dv_last_ip d) Direct (table w').
Proof.
  intros Hc Hw Hd. cbv zeta. split.
  { exact (keeps_on_routing Q _ (spared_direct Q ctx (dv_id d)) w Hw). }
  unfold on_routing, apply_rule_for_device, guard_admin. destruct (require_admin ctx) as [u|e] eqn:Ec; [|done].
  rewrite !sm_bind_run. unfold try_env. pose proof (q_device _ d Hw Hd) as Hv.
  destruct (devices_find_by_id (dv_id d) (env (routing w))) as [r n']. simpl in Hv. subst r. simpl.
  unfold apply_rule_logged. rewrite !sm_bind_run. simpl.
  pose proof (apply_rule_run ctx (dv_id d) (dv_last_ip d) Direct (set_env n' (routing w))) as H.
  rewrite Ec in H. destruct (apply_rule ctx (dv_id d) (dv_last_ip d) Direct _) as [r w']. simpl in H |- *.
  by destruct H as [_ H].
Qed.

Lemma clamp_device_run ctx kind d (w : W) : is_ok (require_admin ctx) = true -> stored w ->
  d ∈ devices ->
  let w' := snd (clamp_device ctx kind d w) in
  stored w' /\
  if must_clamp kind d then bound (table w) (dv_id d) (dv_last_ip d) Direct (table w')
  else table w' = table w.
Proof.
  intros Hc Hw Hd. unfold clamp_device, must_clamp. rewrite sm_bind_run.
  destruct (call_answer (devices_find_rule_for_device (dv_id d)) (rule_of (dv_id d)) w)
    as (w1 & -> & Hw1 & Ht1); [apply sp_rule | done | intros; by apply q_rule |]. simpl.
  destruct (rule_of (dv_id d)) as [rule|]; [|done].
  destruct (decide (rr_target rule = Default)) as [E|E].
  2:{ rewrite !(bool_decide_false _ E). simpl. destruct (zone_of (dv_zone_id d)); done. }
  rewrite !(bool_decide_true _ E). simpl. rewrite sm_bind_run.
  destruct (call_answer (zones_find_by_id (dv_zone_id d)) (zone_of (dv_zone_id d)) w1)
    as (w2 & -> & Hw2 & Ht2); [apply sp_zone | done | intros; by apply q_zone |]. simpl.
  rewrite <- Ht1, <- Ht2. destruct (zone_of (dv_zone_id d)) as [zone|]; [|done].
  destruct (permits_kind zone kind); [done|]. destruct (permits_kind zone KindDirect); [|done]. simpl.
  rewrite sm_bind_run. by apply bind_direct.
Qed.

(** What a device ends up with. *)
Definition settled (kind : AllowedTargetKind) (m m' : gmap Uuid AppliedRule) (d : Device) : Prop :=
  if must_clamp kind d
  then exists a, m' !! dv_id d = Some a /\ ar_target a = Direct /\ ar_device_ip a = dv_last_ip d
  else m' !! dv_id d = m !! dv_id d.

Lemma bound_direct m id ip m' : bound m id ip Direct m' ->
  (exists a, m' !! id = Some a /\ ar_target a = Direct /\ ar_device_ip a = ip) /\
  forall id', id' <> id -> m' !! id' = m !! id'.
Proof.
  intros (a & -> & Hip & Ht). split.
  - exists a. rewrite lookup_insert_eq. split_and!; [done | | done]. by destruct Ht as [?| ->].
  - intros id' Hne. by rewrite lookup_insert_ne.
Qed.

Lemma clamp_list_run ctx kind ds : is_ok (require_admin ctx) = true ->
  NoDup (dv_id <$> ds) -> (forall d, d ∈ ds -> d ∈ devices) -> forall w : W, stored w ->
  let w' := snd (sm_iter (clamp_device ctx kind) ds w) in
  (forall d, d ∈ ds -> settled kind (table w) (table w') d) /\
  (forall id, id ∉ dv_id <$> ds -> table w' !! id = table w !! id).
Proof.
  intros Hc. induction ds as [|d ds IH]; intros Hnd Hin w Hw; [by split; [set_solver|]|].
  rewrite fmap_cons in Hnd. apply NoDup_cons in Hnd as [Hd Hnd]. cbn [sm_iter]. rewrite sm_bind_run.
  destruct (clamp_device_run ctx kind d w Hc Hw) as [Hw1 H1]; [apply Hin; set_solver|].
  set (w1 := snd (clamp_device ctx kind d w)) in *.
  destruct (IH Hnd ltac:(set_solver) w1 Hw1) as [H2 H3].
  set (w' := snd (sm_iter (clamp_device ctx kind) ds w1)) in *.
  assert (Hother : forall id, id <> dv_id d -> table w1 !! id = table w !! id).
  { intros id Hne. destruct (must_clamp kind d); [by apply (bound_direct _ _ _ _ H1) | by rewrite H1]. }
  split.
  - intros x [->|Hx]%elem_of_cons.
    + unfold settled. rewrite (H3 (dv_id d) Hd).
      destruct (must_clamp kind d); [by apply (bound_direct _ _ _ _ H1) | by rewrite H1].
    + specialize (H2 x Hx). unfold settled in *. destruct (must_clamp kind x); [done|].
      rewrite H2. apply Hother. intros E. apply Hd. rewrite <- E. by apply list_elem_of_fmap_2.
  - intros id Hid. rewrite fmap_cons, not_elem_of_cons in Hid. destruct Hid as [Hne Hid].
    rewrite H3 by done. by apply Hother.
Qed.

(** When the default policy changes, every device that follows it into a
    kind of target its zone forbids while permitting direct is bound to direct
    at its address; every other device keeps the rule it had. *)
Theorem clamp_enforced ctx policy kind (w : W) : is_ok (require_admin ctx) = true ->
  Q (env (routing w)) -> NoDup (dv_id <$> devices) ->
  of_target (from_default_policy policy) = Some kind ->
  let '(r, w') := enforcer_policy_changed ctx policy w in
  r = Ok tt /\ forall d, d ∈ devices ->
    settled kind (applied (state (routing w))) (applied (state (routing w'))) d.
Proof.
  intros Hc Hw Hnd Hk. destruct (enforcer_policy_changed ctx policy w) as [r w'] eqn:E.
  unfold enforcer_policy_changed, guard_admin in E. destruct (require_admin ctx) as [u|e] eqn:Ec; [|done].
  unfold clamp_default_bindings in E. rewrite Hk in E.
  unfold andthen, required, on_routing, internal, try_env in E.
  pose proof (q_devices _ Hw) as Hv. pose proof (sp_devices _ Hw) as Hq.
  destruct (devices_find_all (env (routing w))) as [rd n']. simpl in Hv, Hq, E. subst rd.
  set (w1 := set_routing (set_env n' (routing w)) w) in E. rewrite sm_bind_run in E.
  injection E as <- <-. split; [done|]. intros d Hd.
  destruct (clamp_list_run ctx kind devices) with (w := w1) as [H _]; [by rewrite Ec | done | done | exact Hq |].
  by apply H.
Qed.

End clamp.
End laws.
