(* ===== verification/PolicyDb.v ===== *)
(** * Devices, zones and exceptions in storage

    The device of [wardnet-common/src/device.rs] and the SQLite repositories
    [device.rs], [network_zone.rs], [zone_exception.rs], [dns_events.rs] and
    [system_config.rs] under [wardnetd-data/src/repository/sqlite], on one
    database, with the constraints of its schema: primary keys, unique columns,
    the two partial unique indexes on the default flags, and the foreign keys
    with their actions (SQLite's [foreign_keys] is on, as in the daemon's pools).

    A table is the list of its rows in insertion order and every statement or
    transaction is atomic.  Columns that are written and read back by the same
    serializer (ids, enums, timestamps, JSON) hold the value they stand for; the
    [last_seen] texts are all RFC 3339 in UTC, which sort as the times do.
    [LENGTH] counts the bytes of a text, as it does for ASCII.  [po_faults] is an
    oracle for storage failures: a call consumes one entry, and [Some e] makes
    it fail with [e] without effect. *)

From S2P Require Import Prelude RustStr Net Auth PolicyRouter RoutingTypes ZoneTypes.

(** [Uuid::to_string] with [str::parse::<Uuid>] as its inverse. *)
Class UuidText : Type := {
  ut_parse :: UuidParse;
  uuid_to_string : Uuid -> str;
}.

Class UuidTextLaws (U : UuidText) : Prop := {
  parse_to_string id : parse_uuid (uuid_to_string id) = Some id;
}.

#[export] Instance uuid_to_string_inj `{UuidTextLaws} : Inj (=) (=) uuid_to_string.
Proof. intros a b E. apply (f_equal parse_uuid) in E. rewrite !parse_to_string in E. congruence. Qed.

(** ** [device.rs] *)

Inductive DeviceType : Type :=
| Tv | Phone | Laptop | Tablet | GameConsole | SettopBox | Iot | Router | ManagedSwitch | Server
| UnknownType.

Inductive DeviceConnectionMode : Type := Lan | Remote.

Inductive ManufacturerSource : Type := Ieee | Catalog | Signal.

#[export] Instance DeviceType_eq_dec : EqDecision DeviceType.
Proof. solve_decision. Defined.
#[export] Instance DeviceConnectionMode_eq_dec : EqDecision DeviceConnectionMode.
Proof. solve_decision. Defined.
#[export] Instance ManufacturerSource_eq_dec : EqDecision ManufacturerSource.
Proof. solve_decision. Defined.

Record DeviceRow : Type := {
  dr_id : Uuid;
  dr_mac : str;
  dr_name : option str;
  dr_hostname : option str;
  dr_manufacturer : option str;
  dr_manufacturer_source : option ManufacturerSource;
  dr_is_randomized : bool;
  dr_device_type : DeviceType;
  dr_first_seen : Z;
  dr_last_seen : Z;
  dr_last_ip : str;
  dr_admin_locked : bool;
  dr_zone_id : Uuid;
  dr_owner_user_id : option Uuid;
  dr_dns_capture_enabled : bool;
  dr_dns_capture_cap_count : Z;
  dr_dns_capture_cap_days : Z;
  dr_connection_mode : DeviceConnectionMode;
  dr_managed : bool;
}.

(** [into_device]: a source without a name is dropped. *)
Definition into_device (d : DeviceRow) : DeviceRow :=
  {| dr_id := dr_id d; dr_mac := dr_mac d; dr_name := dr_name d; dr_hostname := dr_hostname d;
     dr_manufacturer := dr_manufacturer d;
     dr_manufacturer_source :=
       match dr_manufacturer d with Some _ => dr_manufacturer_source d | None => None end;
     dr_is_randomized := dr_is_randomized d; dr_device_type := dr_device_type d;
     dr_first_seen := dr_first_seen d; dr_last_seen := dr_last_seen d; dr_last_ip := dr_last_ip d;
     dr_admin_locked := dr_admin_locked d; dr_zone_id := dr_zone_id d;
     dr_owner_user_id := dr_owner_user_id d; dr_dns_capture_enabled := dr_dns_capture_enabled d;
     dr_dns_capture_cap_count := dr_dns_capture_cap_count d;
     dr_dns_capture_cap_days := dr_dns_capture_cap_days d;
     dr_connection_mode := dr_connection_mode d; dr_managed := dr_managed d |}.

(** [SET column = value] *)
Inductive Assignment : Type :=
| SetName (name : option str)
| SetHostname (hostname : option str)
| SetDeviceType (t : DeviceType)
| SetLastSeen (at_ : Z)
| SetLastIp (ip : str)
| SetAdminLocked (locked : bool)
| SetZoneId (zone_id : Uuid)
| SetOwnerUserId (owner : option Uuid)
| SetDnsCaptureEnabled (enabled : bool)
| SetDnsCaptureCapCount (count : Z)
| SetDnsCaptureCapDays (days : Z)
| SetConnectionMode (mode : DeviceConnectionMode)
| SetManaged (managed : bool).

Definition set_column (d : DeviceRow) (a : Assignment) : DeviceRow :=
  {| dr_id := dr_id d; dr_mac := dr_mac d;
     dr_name := match a with SetName x => x | _ => dr_name d end;
     dr_hostname := match a with SetHostname x => x | _ => dr_hostname d end;
     dr_manufacturer := dr_manufacturer d; dr_manufacturer_source := dr_manufacturer_source d;
     dr_is_randomized := dr_is_randomized d;
     dr_device_type := match a with SetDeviceType x => x | _ => dr_device_type d end;
     dr_first_seen := dr_first_seen d;
     dr_last_seen := match a with SetLastSeen x => x | _ => dr_last_seen d end;
     dr_last_ip := match a with SetLastIp x => x | _ => dr_last_ip d end;
     dr_admin_locked := match a with SetAdminLocked x => x | _ => dr_admin_locked d end;
     dr_zone_id := match a with SetZoneId x => x | _ => dr_zone_id d end;
     dr_owner_user_id := match a with SetOwnerUserId x => x | _ => dr_owner_user_id d end;
     dr_dns_capture_enabled := match a with SetDnsCaptureEnabled x => x | _ => dr_dns_capture_enabled d end;
     dr_dns_capture_cap_count :=
       match a with SetDnsCaptureCapCount x => x | _ => dr_dns_capture_cap_count d end;
     dr_dns_capture_cap_days :=
       match a with SetDnsCaptureCapDays x => x | _ => dr_dns_capture_cap_days d end;
     dr_connection_mode := match a with SetConnectionMode x => x | _ => dr_connection_mode d end;
     dr_managed := match a with SetManaged x => x | _ => dr_managed d end |}.

Definition set_columns (u : list Assignment) (d : DeviceRow) : DeviceRow := foldl set_column d u.

Record DnsEventRow : Type := {
  ev_id : Z;
  ev_device_id : Uuid;
  ev_domain : str;
  ev_status : str;
  ev_captured_at : str;
  ev_sync_state : str;
}.

Record DnsCaptureStats : Type := { cs_row_count : Z; cs_size_bytes : Z }.

Record PrunedDevice : Type := { pd_id : Uuid; pd_mac : str; pd_last_seen : Z }.

(** ** The database *)

Record PolicyDb : Type := {
  t_zones : list NetworkZone;
  t_devices : list DeviceRow;
  t_rules : list RoutingRule;
  t_exceptions : list ZoneException;
  t_dns_events : list DnsEventRow;
  t_users : list Uuid;
  t_config : gmap str str;
}.

Definition set_zones (l : list NetworkZone) (d : PolicyDb) : PolicyDb :=
  {| t_zones := l; t_devices := t_devices d; t_rules := t_rules d; t_exceptions := t_exceptions d;
     t_dns_events := t_dns_events d; t_users := t_users d; t_config := t_config d |}.
Definition set_devices (l : list DeviceRow) (d : PolicyDb) : PolicyDb :=
  {| t_zones := t_zones d; t_devices := l; t_rules := t_rules d; t_exceptions := t_exceptions d;
     t_dns_events := t_dns_events d; t_users := t_users d; t_config := t_config d |}.
Definition set_rule_rows (l : list RoutingRule) (d : PolicyDb) : PolicyDb :=
  {| t_zones := t_zones d; t_devices := t_devices d; t_rules := l; t_exceptions := t_exceptions d;
     t_dns_events := t_dns_events d; t_users := t_users d; t_config := t_config d |}.
Definition set_exceptions (l : list ZoneException) (d : PolicyDb) : PolicyDb :=
  {| t_zones := t_zones d; t_devices := t_devices d; t_rules := t_rules d; t_exceptions := l;
     t_dns_events := t_dns_events d; t_users := t_users d; t_config := t_config d |}.
Definition set_dns_events (l : list DnsEventRow) (d : PolicyDb) : PolicyDb :=
  {| t_zones := t_zones d; t_devices := t_devices d; t_rules := t_rules d;
     t_exceptions := t_exceptions d; t_dns_events := l; t_users := t_users d;
     t_config := t_config d |}.
Definition set_config (m : gmap str str) (d : PolicyDb) : PolicyDb :=
  {| t_zones := t_zones d; t_devices := t_devices d; t_rules := t_rules d;
     t_exceptions := t_exceptions d; t_dns_events := t_dns_events d; t_users := t_users d;
     t_config := m |}.

(** ** Events the services publish *)

Inductive PolicyEvent : Type :=
| NetworkZoneChanged (zone_id : Uuid)
| DeviceZoneChanged (device_id old_zone_id new_zone_id : Uuid)
| ZoneExceptionsChanged
| RoutingRuleChanged (device_id : Uuid) (target : RoutingTarget)
    (previous_target : option RoutingTarget) (changed_by : RuleCreator)
| DeviceAdminLocked (device_id : Uuid) (locked : bool)
| DeviceCaptureSettingsChanged (device_id : Uuid) (enabled : bool)
| DeviceDiscovered (device_id : Uuid) (mac ip : str) (hostname : option str)
| DeviceIpChanged (device_id : Uuid) (mac old_ip new_ip : str)
| DeviceGone (device_id : Uuid) (mac last_ip : str)
| NewDeviceQuarantined (device_id : Uuid) (mac zone_name : str).

Record Policy : Type := {
  po_db : PolicyDb;
  po_faults : list (option str);
  po_now : Z;
  po_events : list PolicyEvent;
}.

Definition set_db (d : PolicyDb) (w : Policy) : Policy :=
  {| po_db := d; po_faults := po_faults w; po_now := po_now w; po_events := po_events w |}.
Definition set_faults (fs : list (option str)) (w : Policy) : Policy :=
  {| po_db := po_db w; po_faults := fs; po_now := po_now w; po_events := po_events w |}.
Definition add_event (e : PolicyEvent) (w : Policy) : Policy :=
  {| po_db := po_db w; po_faults := po_faults w; po_now := po_now w; po_events := po_events w ++ [e] |}.

(** One repository call. *)
Definition stmt {X} (f : PolicyDb -> result X str * PolicyDb) : ST Policy str X := fun w =>
  match po_faults w with
  | Some e :: fs => (Err e, set_faults fs w)
  | fs => let '(r, d) := f (po_db w) in (r, set_db d (set_faults (tail fs) w))
  end.

Definition select {X} (f : PolicyDb -> result X str) : ST Policy str X := stmt (fun d => (f d, d)).
Definition execute (f : PolicyDb -> PolicyDb) : ST Policy str unit := stmt (fun d => (Ok tt, f d)).
(** A statement that may violate a constraint. *)
Definition execute_checked (f : PolicyDb -> result PolicyDb str) : ST Policy str unit :=
  stmt (fun d => match f d with Ok d' => (Ok tt, d') | Err e => (Err e, d) end).

Definition unique_failed : str := of_string "UNIQUE constraint failed".
Definition foreign_key_failed : str := of_string "FOREIGN KEY constraint failed".

Abbreviation Svc := (ST Policy AppError).

Section repositories.
Context {U : UuidText}.

Definition has_id (id : str) (x : Uuid) : bool := bool_decide (uuid_to_string x = id).

(** ** [network_zone.rs] *)

Definition zone_find_all : ST Policy str (list NetworkZone) :=
  select (fun d => Ok (sort_by (fun a b => str_compare (z_name a) (z_name b)) (t_zones d))).

Definition zone_find_by_id (id : str) : ST Policy str (option NetworkZone) :=
  select (fun d => Ok (List.find (fun z => has_id id (z_id z)) (t_zones d))).

Definition zone_find_default : ST Policy str NetworkZone :=
  select (fun d => ok_or (List.find z_is_default (t_zones d)) (of_string "no default network zone configured")).

Definition zone_find_default_for_new : ST Policy str NetworkZone :=
  select (fun d => ok_or (List.find z_is_default_for_new (t_zones d))
                     (of_string "no default-for-new network zone configured")).

(** Primary key, unique name, and the partial unique indexes. *)
Definition zone_clash (z : NetworkZone) (x : NetworkZone) : bool :=
  (z_id x =? z_id z) || bool_decide (z_name x = z_name z)
  || (z_is_default x && z_is_default z) || (z_is_default_for_new x && z_is_default_for_new z).

Definition zone_insert (z : NetworkZone) : ST Policy str unit :=
  execute_checked (fun d =>
    if existsb (zone_clash z) (t_zones d) then Err unique_failed
    else Ok (set_zones (t_zones d ++ [z]) d)).

(** The columns [update] assigns: all but the default flags. *)
Definition zone_assign (z x : NetworkZone) : NetworkZone :=
  {| z_id := z_id x; z_name := z_name z; z_provenance := z_provenance z;
     z_isolation_stance := z_isolation_stance z; z_allowed_targets := z_allowed_targets z;
     z_member_isolation := z_member_isolation z; z_subnet := z_subnet z;
     z_admin_ui_reachable := z_admin_ui_reachable z; z_is_default := z_is_default x;
     z_is_default_for_new := z_is_default_for_new x |}.

Definition zone_update (z : NetworkZone) : ST Policy str unit :=
  execute_checked (fun d =>
    if existsb (fun x => z_id x =? z_id z) (t_zones d)
       && existsb (fun x => negb (z_id x =? z_id z) && bool_decide (z_name x = z_name z)) (t_zones d)
    then Err unique_failed
    else Ok (set_zones ((fun x => if z_id x =? z_id z then zone_assign z x else x) <$> t_zones d) d)).

(** [ON DELETE RESTRICT] *)
Definition zone_delete (id : str) : ST Policy str unit :=
  execute_checked (fun d =>
    if existsb (fun z => has_id id (z_id z) && existsb (fun v => dr_zone_id v =? z_id z) (t_devices d))
         (t_zones d)
    then Err foreign_key_failed
    else Ok (set_zones (filter (fun z => has_id id (z_id z) = false) (t_zones d)) d)).

Definition with_default (b : bool) (z : NetworkZone) : NetworkZone :=
  {| z_id := z_id z; z_name := z_name z; z_provenance := z_provenance z;
     z_isolation_stance := z_isolation_stance z; z_allowed_targets := z_allowed_targets z;
     z_member_isolation := z_member_isolation z; z_subnet := z_subnet z;
     z_admin_ui_reachable := z_admin_ui_reachable z; z_is_default := b;
     z_is_default_for_new := z_is_default_for_new z |}.
Definition with_default_for_new (b : bool) (z : NetworkZone) : NetworkZone :=
  {| z_id := z_id z; z_name := z_name z; z_provenance := z_provenance z;
     z_isolation_stance := z_isolation_stance z; z_allowed_targets := z_allowed_targets z;
     z_member_isolation := z_member_isolation z; z_subnet := z_subnet z;
     z_admin_ui_reachable := z_admin_ui_reachable z; z_is_default := z_is_default z;
     z_is_default_for_new := b |}.

(** Clear, set, and roll back when the second statement matched no row. *)
Definition move_flag (flag : bool -> NetworkZone -> NetworkZone) (id : str) (l : list NetworkZone)
    : option (list NetworkZone) :=
  let cleared := flag false <$> l in
  if existsb (fun z => has_id id (z_id z)) cleared
  then Some ((fun z => if has_id id (z_id z) then flag true z else z) <$> cleared)
  else None.

Definition zone_set_default (id : str) : ST Policy str unit :=
  execute_checked (fun d =>
    match move_flag with_default id (t_zones d) with
    | Some l => Ok (set_zones l d)
    | None => Err ("cannot set default: no network zone with id " ++ id)
    end).

Definition zone_set_default_for_new (id : str) : ST Policy str unit :=
  execute_checked (fun d =>
    match move_flag with_default_for_new id (t_zones d) with
    | Some l => Ok (set_zones l d)
    | None => Err ("cannot set default-for-new: no network zone with id " ++ id)
    end).

Definition members_in (id : str) (l : list DeviceRow) : Z :=
  Z.of_nat (length (List.filter (fun v => has_id id (dr_zone_id v)) l)).

Definition zone_count_members (id : str) : ST Policy str Z :=
  select (fun d => Ok (members_in id (t_devices d))).

(** [GROUP BY zone_id] *)
Definition zone_member_counts : ST Policy str (gmap str Z) :=
  select (fun d => Ok (foldl (fun m v =>
    let id := uuid_to_string (dr_zone_id v) in <[id := default 0 (m !! id) + 1]> m) ∅ (t_devices d))).

(** ** [zone_exception.rs] *)

Definition exc_find_all : ST Policy str (list ZoneException) := select (fun d => Ok (t_exceptions d)).

Definition exc_find_by_id (id : str) : ST Policy str (option ZoneException) :=
  select (fun d => Ok (List.find (fun e => has_id id (ze_id e)) (t_exceptions d))).

Definition exc_insert (e : ZoneException) : ST Policy str unit :=
  execute_checked (fun d =>
    if existsb (fun x => ze_id x =? ze_id e) (t_exceptions d) then Err unique_failed
    else Ok (set_exceptions (t_exceptions d ++ [e]) d)).

Definition exc_update (e : ZoneException) : ST Policy str unit :=
  execute (fun d =>
    set_exceptions ((fun x => if ze_id x =? ze_id e then e else x) <$> t_exceptions d) d).

Definition exc_delete (id : str) : ST Policy str unit :=
  execute (fun d => set_exceptions (filter (fun e => has_id id (ze_id e) = false) (t_exceptions d)) d).

(** ** [device.rs] *)

(** [ORDER BY last_seen DESC] *)
Definition newest_first (l : list DeviceRow) : list DeviceRow :=
  sort_by (fun a b => dr_last_seen b ?= dr_last_seen a) l.

Definition dev_find_all_by_ip (ip : str) : ST Policy str (list DeviceRow) :=
  if bool_decide (ip = []) then mret []
  else select (fun d => Ok (into_device <$>
         newest_first (List.filter (fun v => bool_decide (dr_last_ip v = ip)) (t_devices d)))).

Definition dev_find_by_ip (ip : str) : ST Policy str (option DeviceRow) :=
  if bool_decide (ip = []) then mret None
  else select (fun d => Ok (into_device <$> head
         (newest_first (List.filter (fun v => bool_decide (dr_last_ip v = ip)) (t_devices d))))).

Definition dev_find_by_id (id : str) : ST Policy str (option DeviceRow) :=
  select (fun d => Ok (into_device <$> List.find (fun v => has_id id (dr_id v)) (t_devices d))).

Definition dev_find_by_mac (mac : str) : ST Policy str (option DeviceRow) :=
  select (fun d => Ok (into_device <$>
    List.find (fun v => bool_decide (dr_mac v = to_lowercase mac)) (t_devices d))).

Definition dev_find_all : ST Policy str (list DeviceRow) :=
  select (fun d => Ok (into_device <$> newest_first (t_devices d))).

(** [lowercase] on the MAC; [managed] and the admin columns take their schema
    defaults. *)
Definition inserted_row (v : DeviceRow) : DeviceRow :=
  {| dr_id := dr_id v; dr_mac := to_lowercase (dr_mac v); dr_name := None; dr_hostname := dr_hostname v;
     dr_manufacturer := dr_manufacturer v; dr_manufacturer_source := dr_manufacturer_source v;
     dr_is_randomized := dr_is_randomized v; dr_device_type := dr_device_type v;
     dr_first_seen := dr_first_seen v; dr_last_seen := dr_last_seen v; dr_last_ip := dr_last_ip v;
     dr_admin_locked := false; dr_zone_id := dr_zone_id v; dr_owner_user_id := None;
     dr_dns_capture_enabled := false; dr_dns_capture_cap_count := 1000;
     dr_dns_capture_cap_days := 7; dr_connection_mode := dr_connection_mode v; dr_managed := false |}.

Definition dev_insert (v : DeviceRow) : ST Policy str unit :=
  execute_checked (fun d =>
    let v := inserted_row v in
    if existsb (fun x => (dr_id x =? dr_id v) || bool_decide (dr_mac x = dr_mac v)) (t_devices d)
    then Err unique_failed
    else if negb (existsb (fun z => z_id z =? dr_zone_id v) (t_zones d)) then Err foreign_key_failed
    else Ok (set_devices (t_devices d ++ [v]) d)).

Definition assign_row (id : str) (u : list Assignment) (l : list DeviceRow) : list DeviceRow :=
  (fun v => if has_id id (dr_id v) then set_columns u v else v) <$> l.

Definition assign (id : str) (u : list Assignment) (d : PolicyDb) : PolicyDb :=
  set_devices (assign_row id u (t_devices d)) d.

(** [rows_affected() > 0] *)
Definition affects (id : str) (d : PolicyDb) : bool :=
  existsb (fun v => has_id id (dr_id v)) (t_devices d).

Definition dev_update_last_seen_and_ip (id ip : str) (last_seen : Z) (mode : DeviceConnectionMode)
    : ST Policy str unit := execute (assign id [SetLastSeen last_seen; SetLastIp ip; SetConnectionMode mode]).

Definition dev_clear_last_ip (id : str) : ST Policy str unit := execute (assign id [SetLastIp []]).

(** One transaction. *)
Definition dev_update_last_seen_batch (updates : list (str * Z)) : ST Policy str unit :=
  execute (fun d => foldl (fun d '(id, last_seen) => assign id [SetLastSeen last_seen] d) d updates).

Definition dev_update_connection_mode (id : str) (mode : DeviceConnectionMode) : ST Policy str unit :=
  execute (assign id [SetConnectionMode mode]).

Definition dev_update_hostname (id hostname : str) : ST Policy str unit :=
  execute (assign id [SetHostname (Some hostname)]).

Definition dev_update_name_and_type (id : str) (name : option str) (t : DeviceType)
    : ST Policy str unit := execute (assign id [SetName name; SetDeviceType t]).

Definition dev_find_stale (before : Z) : ST Policy str (list DeviceRow) :=
  select (fun d => Ok (into_device <$> List.filter (fun v => dr_last_seen v <? before) (t_devices d))).

Definition rule_of_device (id : str) (d : PolicyDb) : option RoutingRule :=
  List.find (fun r => has_id id (rr_device_id r)) (t_rules d).

Definition dev_find_rule_for_device (id : str) : ST Policy str (option RoutingRule) :=
  select (fun d => Ok (rule_of_device id d)).

Definition dev_find_all_rules : ST Policy str (list RoutingRule) := select (fun d => Ok (t_rules d)).

Definition dev_delete_rule_for_device (id : str) : ST Policy str unit :=
  execute (fun d => set_rule_rows (filter (fun r => has_id id (rr_device_id r) = false) (t_rules d)) d).

(** A new row is created by ['user'] whoever asks; on conflict only the target
    changes.  The device must exist. *)
Definition dev_upsert_user_rule (id : str) (target : RoutingTarget) : ST Policy str unit :=
  execute_checked (fun d =>
    match List.find (fun v => has_id id (dr_id v)) (t_devices d) with
    | None => Err foreign_key_failed
    | Some v =>
        Ok (set_rule_rows
          (if existsb (fun r => rr_device_id r =? dr_id v) (t_rules d)
           then (fun r => if rr_device_id r =? dr_id v
                          then {| rr_device_id := rr_device_id r; rr_target := target;
                                  rr_created_by := rr_created_by r |} else r) <$> t_rules d
           else t_rules d ++ [{| rr_device_id := dr_id v; rr_target := target;
                                 rr_created_by := CreatedByUser |}]) d)
    end).

Definition dev_update_admin_locked (id : str) (locked : bool) : ST Policy str unit :=
  execute (assign id [SetAdminLocked locked]).

(** The zone must exist when a row is assigned to it. *)
Definition dev_assign_zone (id : str) (zone_id : Uuid) : ST Policy str bool :=
  stmt (fun d =>
    if affects id d && negb (existsb (fun z => z_id z =? zone_id) (t_zones d))
    then (Err foreign_key_failed, d) else (Ok (affects id d), assign id [SetZoneId zone_id] d)).

Definition dev_set_owner (id : str) (owner : option Uuid) : ST Policy str bool :=
  stmt (fun d =>
    if affects id d && negb (match owner with Some u => existsb (Z.eqb u) (t_users d) | None => true end)
    then (Err foreign_key_failed, d) else (Ok (affects id d), assign id [SetOwnerUserId owner] d)).

Definition dev_count : ST Policy str Z := select (fun d => Ok (Z.of_nat (length (t_devices d)))).

(** [COALESCE(?, column)] *)
Definition dev_update_dns_capture_settings (id : str) (enabled : option bool)
    (cap_count cap_days : option Z) : ST Policy str bool :=
  stmt (fun d => (Ok (affects id d),
    assign id (option_list (SetDnsCaptureEnabled <$> enabled)
               ++ option_list (SetDnsCaptureCapCount <$> cap_count)
               ++ option_list (SetDnsCaptureCapDays <$> cap_days)) d)).

Definition dev_find_all_capture_enabled_ids : ST Policy str (list str) :=
  select (fun d => Ok ((fun v => uuid_to_string (dr_id v)) <$>
    List.filter dr_dns_capture_enabled (t_devices d))).

Definition dev_set_managed (id : str) (managed : bool) : ST Policy str unit :=
  execute (assign id [SetManaged managed]).

(** Deleting a device takes its routing rule and its DNS events along. *)
Definition keep_devices (keep : DeviceRow -> bool) (d : PolicyDb) : PolicyDb :=
  let gone id := existsb (fun v => negb (keep v) && (dr_id v =? id)) (t_devices d) in
  set_devices (filter (fun v => keep v = true) (t_devices d))
    (set_rule_rows (filter (fun r => gone (rr_device_id r) = false) (t_rules d))
      (set_dns_events (filter (fun e => gone (ev_device_id e) = false) (t_dns_events d)) d)).

Definition prunable (cutoff : Z) (v : DeviceRow) : bool := negb (dr_managed v) && (dr_last_seen v <? cutoff).

Definition dev_delete_unmanaged_before (cutoff : Z) : ST Policy str (list PrunedDevice) :=
  stmt (fun d =>
    (Ok ((fun v => {| pd_id := dr_id v; pd_mac := dr_mac v; pd_last_seen := dr_last_seen v |}) <$>
         List.filter (prunable cutoff) (t_devices d)),
     keep_devices (fun v => negb (prunable cutoff v)) d)).

(** ** [dns_events.rs] *)

Definition ev_of (id : str) (e : DnsEventRow) : bool := has_id id (ev_device_id e).

Definition ev_size (e : DnsEventRow) : Z :=
  Z.of_nat (length (ev_domain e) + length (ev_status e) + length (ev_captured_at e)
            + length (ev_sync_state e)) + 50.

(** Two statements. *)
Definition ev_stats_for_device (id : str) : ST Policy str DnsCaptureStats :=
  row_count ← select (fun d => Ok (Z.of_nat (length (List.filter (ev_of id) (t_dns_events d)))));
  size_bytes ← select (fun d => Ok (foldl Z.add 0 (ev_size <$> List.filter (ev_of id) (t_dns_events d))));
  mret {| cs_row_count := row_count; cs_size_bytes := size_bytes |}.

(** [LIMIT]: a negative one is none. *)
Definition limited {A} (limit : Z) (l : list A) : list A :=
  if limit <? 0 then l else take (Z.to_nat limit) l.

Definition ev_fetch_pending (id : str) (after_id limit : Z) : ST Policy str (list DnsEventRow) :=
  select (fun d => Ok (limited limit (sort_by (fun a b => ev_id a ?= ev_id b)
    (List.filter (fun e => ev_of id e && (bool_decide (ev_sync_state e = of_string "pending")
                                          && (after_id <? ev_id e))) (t_dns_events d))))).

Definition ev_delete_up_to (id : str) (up_to_id : Z) : ST Policy str unit :=
  execute (fun d => set_dns_events
    (filter (fun e => ev_of id e && (ev_id e <=? up_to_id) = false) (t_dns_events d)) d).

(** ** [system_config.rs] *)

Definition cfg_get (key : str) : ST Policy str (option str) := select (fun d => Ok (t_config d !! key)).
Definition cfg_set (key value : str) : ST Policy str unit :=
  execute (fun d => set_config (<[key := value]> (t_config d)) d).
Definition cfg_get_default_policy : ST Policy str (option str) := cfg_get (of_string "default_policy").
Definition cfg_get_router_mac : ST Policy str (option str) := cfg_get (of_string "router_mac").
Definition cfg_is_quarantine_new_devices : ST Policy str bool :=
  value ← cfg_get (of_string "quarantine_new_devices");
  mret (bool_decide (value = Some (of_string "true"))).
Definition cfg_set_quarantine_new_devices (enabled : bool) : ST Policy str unit :=
  cfg_set (of_string "quarantine_new_devices") (of_string (if enabled then "true" else "false")).

(** ** What a service method does with a repository call *)

(** [.map_err(AppError::Internal)] *)
Definition repo {X} (m : ST Policy str X) : Svc X := fun w =>
  match m w with
  | (Ok a, w') => (Ok a, w')
  | (Err e, w') => (Err (Internal e), w')
  end.

(** A call whose error is only logged. *)
Definition logged {X} (m : ST Policy str X) : Svc (option X) := fun w =>
  match m w with
  | (Ok a, w') => (Ok (Some a), w')
  | (Err _, w') => (Ok None, w')
  end.

Definition admin_only (ctx : option AuthContext) : Svc unit := st_lift (require_admin ctx).
Definition publish (e : PolicyEvent) : Svc unit := st_modify (add_event e).
Definition fail_with {X} (e : AppError) : Svc X := st_fail e.
Definition found {X} (o : option X) (e : AppError) : Svc X := st_lift (ok_or o e).

End repositories.

Lemma has_id_string {U : UuidText} {UL : UuidTextLaws U} a x : has_id (uuid_to_string a) x = (x =? a).
Proof.
  unfold has_id. destruct (Z.eqb_spec x a) as [->|Hne]; [by apply bool_decide_eq_true|].
  apply bool_decide_eq_false. by intros ?%(inj uuid_to_string).
Qed.
