(* ===== verification/ZoneService.v ===== *)
(** * The network-zone and zone-exception services

    [wardnetd-services/src/network_zone/service.rs] and
    [wardnetd-services/src/zone_exception/service.rs]: every method of the two
    traits and their helpers, over the repositories of [PolicyDb].  A fresh
    [Uuid::new_v4()] is an argument; the [created_at] and [updated_at] stamps are
    not kept. *)

From S2P Require Import Prelude RustStr Net Auth PolicyRouter RoutingTypes ZoneTypes PolicyDb.

(** ** Requests and answers *)

Record CreateNetworkZoneRequest : Type := {
  cz_name : str;
  cz_isolation_stance : ZoneStance;
  cz_allowed_targets : list AllowedTargetKind;
  cz_member_isolation : bool;
  cz_admin_ui_reachable : bool;
  cz_subnet : option str;
}.

Record UpdateNetworkZoneRequest : Type := {
  uz_name : option str;
  uz_isolation_stance : option ZoneStance;
  uz_allowed_targets : option (list AllowedTargetKind);
  uz_member_isolation : option bool;
  uz_admin_ui_reachable : option bool;
  uz_subnet : option (option str);
  uz_is_default : option bool;
  uz_is_default_for_new : option bool;
}.

Record NetworkZoneView : Type := { nv_zone : NetworkZone; nv_member_count : Z }.

Record CreateZoneExceptionRequest : Type := {
  cx_from : ExceptionEndpoint;
  cx_to : ExceptionEndpoint;
  cx_service : ServiceSpec;
  cx_bidirectional : bool;
}.

Record UpdateZoneExceptionRequest : Type := {
  ux_from : option ExceptionEndpoint;
  ux_to : option ExceptionEndpoint;
  ux_service : option ServiceSpec;
  ux_bidirectional : option bool;
}.

#[export] Instance ExceptionEndpointKind_eq_dec : EqDecision ExceptionEndpointKind.
Proof. solve_decision. Defined.
#[export] Instance ExceptionEndpoint_eq_dec : EqDecision ExceptionEndpoint.
Proof. solve_decision. Defined.

Section zones.
Context {U : UuidText} {L : Ipv4NetworkLib}.
Context (ctx : option AuthContext).

(** ** Helpers of the zone service *)

(** The kind a target resolves to under the default policy. *)
Definition resolved_kind (policy : str) (target : RoutingTarget) : AllowedTargetKind :=
  let concrete := match target with Default => from_default_policy policy | other => other end in
  default KindDirect (of_target concrete).

Definition policy_or_direct : Svc str :=
  p ← repo cfg_get_default_policy; mret (default (of_string "direct") p).

Definition current_rule_kind (device_id : str) : Svc (option AllowedTargetKind) :=
  rule ← repo (dev_find_rule_for_device device_id);
  match rule with
  | None => mret None
  | Some rule =>
      match rr_target rule with
      | Default => policy ← policy_or_direct; mret (Some (resolved_kind policy Default))
      | other => mret (Some (resolved_kind [] other))
      end
  end.

(** The loop over the rules. *)
Fixpoint check_rules (policy : str) (members : list str) (allowed : list AllowedTargetKind)
    (rules : list RoutingRule) : result unit AppError :=
  match rules with
  | [] => Ok tt
  | rule :: rest =>
      if negb (bool_decide (uuid_to_string (rr_device_id rule) ∈ members))
      then check_rules policy members allowed rest
      else
        let kind := resolved_kind policy (rr_target rule) in
        if negb (bool_decide (kind ∈ allowed))
        then Err (Conflict ("cannot narrow allowed_targets: device "
               ++ uuid_to_string (rr_device_id rule) ++ " has a '" ++ kind_as_str kind
               ++ "' rule the new set forbids; change or clear its rule first"))
        else check_rules policy members allowed rest
  end.

Definition assert_members_conform (zone_id : Uuid) (allowed : list AllowedTargetKind) : Svc unit :=
  devices ← repo dev_find_all;
  let members := (fun v => uuid_to_string (dr_id v)) <$> List.filter (fun v => dr_zone_id v =? zone_id) devices in
  if bool_decide (members = []) then mret tt
  else
    policy ← policy_or_direct;
    rules ← repo dev_find_all_rules;
    st_lift (check_rules policy members allowed rules).

Definition require_zone (id : Uuid) : Svc NetworkZone :=
  zone ← repo (zone_find_by_id (uuid_to_string id));
  found zone (NotFound ("network zone " ++ uuid_to_string id ++ " not found")).

Definition PRIVATE_RANGE_HINT : str :=
  of_string "a private range (10.x, 172.16-31.x, or 192.168.x)".

Definition validate_targets_and_subnet (allowed_targets : list AllowedTargetKind)
    (subnet : option str) : result unit AppError :=
  if bool_decide (allowed_targets = []) then Err (BadRequest "allowed_targets must not be empty")
  else match subnet with
       | None => Ok tt
       | Some cidr =>
           match net_parse cidr with
           | None => Err (BadRequest ("subnet cidr '" ++ cidr ++ "' is not a valid CIDR"))
           | Some net =>
               if negb (is_rfc1918_subnet (net_network net) (net_prefix net))
               then Err (BadRequest ("subnet cidr '" ++ cidr ++ "' must be " ++ PRIVATE_RANGE_HINT))
               else match pool_bounds net with
                    | None => Err (BadRequest ("subnet cidr '" ++ cidr
                                               ++ "' is too small to host a DHCP pool"))
                    | Some _ => Ok tt
                    end
           end
       end.

Definition ensure_name_available (name : str) (exclude : option Uuid) : Svc unit :=
  if bool_decide (trim name = []) then fail_with (BadRequest "zone name must not be empty")
  else
    existing ← repo zone_find_all;
    if existsb (fun z => bool_decide (z_name z = name) && negb (bool_decide (Some (z_id z) = exclude))) existing
    then fail_with (Conflict ("a network zone named '" ++ name ++ "' already exists"))
    else mret tt.

Definition view_of (zone : NetworkZone) : Svc NetworkZoneView :=
  n ← repo (zone_count_members (uuid_to_string (z_id zone)));
  mret {| nv_zone := zone; nv_member_count := n |}.

Definition emit_zone_changed (zone_id : Uuid) : Svc unit := publish (NetworkZoneChanged zone_id).

(** ** The zone service *)

Definition list_zones : Svc (list NetworkZoneView) :=
  _ ← admin_only ctx;
  zones ← repo zone_find_all;
  counts ← repo zone_member_counts;
  mret ((fun z => {| nv_zone := z;
                     nv_member_count := default 0 (counts !! uuid_to_string (z_id z)) |}) <$> zones).

Definition get_zone (id : Uuid) : Svc NetworkZoneView :=
  _ ← admin_only ctx;
  zone ← require_zone id;
  view_of zone.

Definition create_zone (fresh : Uuid) (req : CreateNetworkZoneRequest) : Svc NetworkZone :=
  _ ← admin_only ctx;
  _ ← st_lift (validate_targets_and_subnet (cz_allowed_targets req) (cz_subnet req));
  _ ← ensure_name_available (cz_name req) None;
  let zone := {| z_id := fresh; z_name := cz_name req; z_provenance := Manual;
                 z_isolation_stance := cz_isolation_stance req;
                 z_allowed_targets := cz_allowed_targets req;
                 z_member_isolation := cz_member_isolation req; z_subnet := cz_subnet req;
                 z_admin_ui_reachable := cz_admin_ui_reachable req; z_is_default := false;
                 z_is_default_for_new := false |} in
  _ ← repo (zone_insert zone);
  _ ← emit_zone_changed (z_id zone);
  mret zone.

(** The fields of a request written over a zone. *)
Definition apply_update (req : UpdateNetworkZoneRequest) (zone : NetworkZone) : NetworkZone :=
  {| z_id := z_id zone; z_name := default (z_name zone) (uz_name req);
     z_provenance := z_provenance zone;
     z_isolation_stance := default (z_isolation_stance zone) (uz_isolation_stance req);
     z_allowed_targets := default (z_allowed_targets zone) (uz_allowed_targets req);
     z_member_isolation := default (z_member_isolation zone) (uz_member_isolation req);
     z_subnet := default (z_subnet zone) (uz_subnet req);
     z_admin_ui_reachable := default (z_admin_ui_reachable zone) (uz_admin_ui_reachable req);
     z_is_default := z_is_default zone; z_is_default_for_new := z_is_default_for_new zone |}.

Definition check_new_name (id : Uuid) (name : option str) (zone : NetworkZone) : Svc unit :=
  match name with
  | Some name => if bool_decide (name = z_name zone) then mret tt
                 else ensure_name_available name (Some id)
  | None => mret tt
  end.

Definition when (b : bool) (m : Svc unit) : Svc unit := if b then m else mret tt.

Definition update_zone (id : Uuid) (req : UpdateNetworkZoneRequest) : Svc NetworkZone :=
  _ ← admin_only ctx;
  if bool_decide (uz_is_default req = Some false) || bool_decide (uz_is_default_for_new req = Some false)
  then fail_with (BadRequest
    "default flags cannot be cleared directly; promote another zone instead")
  else
    zone ← require_zone id;
    _ ← check_new_name id (uz_name req) zone;
    let zone := apply_update req zone in
    _ ← st_lift (validate_targets_and_subnet (z_allowed_targets zone) (z_subnet zone));
    _ ← when (bool_decide (is_Some (uz_allowed_targets req)))
          (assert_members_conform id (z_allowed_targets zone));
    _ ← repo (zone_update zone);
    let promoted_default := bool_decide (uz_is_default req = Some true) in
    let promoted_default_for_new := bool_decide (uz_is_default_for_new req = Some true) in
    _ ← when promoted_default (repo (zone_set_default (uuid_to_string id)));
    _ ← when promoted_default_for_new (repo (zone_set_default_for_new (uuid_to_string id)));
    _ ← emit_zone_changed id;
    if promoted_default || promoted_default_for_new then require_zone id else mret zone.

Definition delete_zone (id : Uuid) : Svc unit :=
  _ ← admin_only ctx;
  zone ← require_zone id;
  if bool_decide (z_provenance zone = System) then fail_with (Conflict "system zones cannot be deleted")
  else if z_is_default zone then fail_with (Conflict "the default (anchor) zone cannot be deleted")
  else if z_is_default_for_new zone
  then fail_with (Conflict "the default-for-new zone cannot be deleted; promote another zone first")
  else
    members ← repo (zone_count_members (uuid_to_string id));
    if 0 <? members
    then fail_with (Conflict ("zone still has " ++ show_digits 20 members ++ " member device(s); reassign them first"))
    else
      _ ← repo (zone_delete (uuid_to_string id));
      emit_zone_changed id.

Definition set_default (id : Uuid) : Svc unit :=
  _ ← admin_only ctx;
  _ ← require_zone id;
  _ ← repo (zone_set_default (uuid_to_string id));
  emit_zone_changed id.

Definition set_default_for_new (id : Uuid) : Svc unit :=
  _ ← admin_only ctx;
  _ ← require_zone id;
  _ ← repo (zone_set_default_for_new (uuid_to_string id));
  emit_zone_changed id.

Definition device_missing (device_id : Uuid) : AppError :=
  NotFound ("device " ++ uuid_to_string device_id ++ " not found").

Definition assign_device (device_id zone_id : Uuid) : Svc unit :=
  _ ← admin_only ctx;
  device ← repo (dev_find_by_id (uuid_to_string device_id));
  device ← found device (device_missing device_id);
  target_zone ← require_zone zone_id;
  let old_zone_id := dr_zone_id device in
  if old_zone_id =? zone_id then mret tt
  else
    kind ← current_rule_kind (uuid_to_string device_id);
    match kind with
    | Some kind =>
        if negb (permits_kind target_zone kind)
        then fail_with (Conflict ("device's current routing target '" ++ kind_as_str kind
               ++ "' is not permitted by zone '" ++ z_name target_zone
               ++ "'; change or clear its rule first"))
        else mret tt
    | None => mret tt
    end ≫= fun _ : unit =>
    updated ← repo (dev_assign_zone (uuid_to_string device_id) zone_id);
    if negb updated then fail_with (device_missing device_id)
    else
      _ ← repo (dev_set_managed (uuid_to_string device_id) true);
      publish (DeviceZoneChanged device_id old_zone_id zone_id).

Definition get_quarantine_new_devices : Svc bool :=
  _ ← admin_only ctx; repo cfg_is_quarantine_new_devices.

Definition set_quarantine_new_devices (enabled : bool) : Svc unit :=
  _ ← admin_only ctx; repo (cfg_set_quarantine_new_devices enabled).

(** ** The exception service *)

Definition require_exception (id : Uuid) : Svc ZoneException :=
  e ← repo (exc_find_by_id (uuid_to_string id));
  found e (NotFound ("zone exception " ++ uuid_to_string id ++ " not found")).

Definition endpoint_kind_str (k : ExceptionEndpointKind) : str :=
  match k with EndpointDevice => of_string "device" | EndpointZone => of_string "zone" end.

Definition assert_endpoint_exists (endpoint : ExceptionEndpoint) : Svc unit :=
  let id := uuid_to_string (ee_id endpoint) in
  exists_ ← match ee_kind endpoint with
            | EndpointDevice => d ← repo (dev_find_by_id id); mret (bool_decide (is_Some d))
            | EndpointZone => z ← repo (zone_find_by_id id); mret (bool_decide (is_Some z))
            end;
  if negb exists_
  then fail_with (BadRequest ("endpoint " ++ endpoint_kind_str (ee_kind endpoint) ++ " " ++ id ++ " does not exist"))
  else mret tt.

Definition wide_open (service : ServiceSpec) : bool :=
  existsb (fun p => (ps_from p <=? 1) && (ps_to p =? U16_MAX)) (resolve_ports service).

Fixpoint check_ports (ports : list PortSpec) : result unit AppError :=
  match ports with
  | [] => Ok tt
  | port :: rest =>
      if (ps_from port <? 1) || (ps_to port <? ps_from port)
      then Err (BadRequest ("invalid port range " ++ show_u32 (ps_from port) ++ "-"
                            ++ show_u32 (ps_to port) ++ ": from must be >= 1 and <= to"))
      else check_ports rest
  end.

Definition validate_service (service : ServiceSpec) : result unit AppError :=
  match service with
  | Preset _ => Ok tt
  | Ports ports =>
      if bool_decide (ports = []) then Err (BadRequest "custom port list must not be empty")
      else check_ports ports
  end.

Definition validate (from to_ : ExceptionEndpoint) (service : ServiceSpec) : Svc unit :=
  if bool_decide (from = to_)
  then fail_with (BadRequest "an exception's from and to endpoints must differ")
  else if wide_open service
          && (negb (bool_decide (ee_kind from = EndpointDevice))
              || negb (bool_decide (ee_kind to_ = EndpointDevice)))
  then fail_with (BadRequest
    "a full-range (all-ports) exception requires device-to-device endpoints")
  else
    _ ← assert_endpoint_exists from;
    _ ← assert_endpoint_exists to_;
    st_lift (validate_service service).

Definition emit_changed : Svc unit := publish ZoneExceptionsChanged.

Definition list_exceptions : Svc (list ZoneException) := _ ← admin_only ctx; repo exc_find_all.

Definition get_exception (id : Uuid) : Svc ZoneException := _ ← admin_only ctx; require_exception id.

(** A device an exception names becomes managed. *)
Definition promote_endpoint (endpoint : ExceptionEndpoint) : Svc unit :=
  when (bool_decide (ee_kind endpoint = EndpointDevice))
    (repo (dev_set_managed (uuid_to_string (ee_id endpoint)) true)).

Definition create_exception (fresh : Uuid) (req : CreateZoneExceptionRequest) : Svc ZoneException :=
  _ ← admin_only ctx;
  _ ← validate (cx_from req) (cx_to req) (cx_service req);
  let exception := {| ze_id := fresh; ze_from := cx_from req; ze_to := cx_to req;
                      ze_service := cx_service req; ze_bidirectional := cx_bidirectional req |} in
  _ ← repo (exc_insert exception);
  _ ← st_iter promote_endpoint [ze_from exception; ze_to exception];
  _ ← emit_changed;
  mret exception.

Definition update_exception (id : Uuid) (req : UpdateZoneExceptionRequest) : Svc ZoneException :=
  _ ← admin_only ctx;
  exception ← require_exception id;
  let exception := {| ze_id := ze_id exception;
                      ze_from := default (ze_from exception) (ux_from req);
                      ze_to := default (ze_to exception) (ux_to req);
                      ze_service := default (ze_service exception) (ux_service req);
                      ze_bidirectional := default (ze_bidirectional exception) (ux_bidirectional req) |} in
  _ ← validate (ze_from exception) (ze_to exception) (ze_service exception);
  _ ← repo (exc_update exception);
  _ ← emit_changed;
  mret exception.

Definition delete_exception (id : Uuid) : Svc unit :=
  _ ← admin_only ctx;
  _ ← require_exception id;
  _ ← repo (exc_delete (uuid_to_string id));
  emit_changed.

End zones.
