(* ===== verification/DeviceService.v ===== *)
(** * The device service

    [wardnetd-services/src/device/service.rs]: every method of the trait and its
    helpers.  A device id arrives as the text of the request.  Rendering a target
    to JSON does not fail; reading one back, which only [clear_rule] does, is the
    parameter [target_from_json]. *)

From S2P Require Import Prelude RustStr Net Auth PolicyRouter RoutingTypes ZoneTypes PolicyDb.
From S2P Require Import ZoneService.

Record DeviceMeResponse : Type := {
  me_device : option DeviceRow;
  me_current_rule : option RoutingTarget;
  me_admin_locked : bool;
}.

Record SetMyRuleResponse : Type := { sr_message : str; sr_target : RoutingTarget }.

Record DnsCaptureSettingsResponse : Type := {
  ds_enabled : bool;
  ds_cap_count : Z;
  ds_cap_days : Z;
  ds_row_count : Z;
  ds_size_bytes : Z;
}.

Record DnsEventItem : Type := {
  ei_id : Z;
  ei_domain : str;
  ei_status : str;
  ei_captured_at : str;
}.

Section device_service.
Context {U : UuidText}.
Context (ctx : option AuthContext).

(** ** Helpers *)

Definition resolve_target_kind (target : RoutingTarget) : Svc AllowedTargetKind :=
  match of_target target with
  | Some kind => mret kind
  | None =>
      policy ← policy_or_direct;
      mret (default KindDirect (of_target (from_default_policy policy)))
  end.

Definition validate_target_against_zone (device : DeviceRow) (target : RoutingTarget) : Svc unit :=
  kind ← resolve_target_kind target;
  zone ← repo (zone_find_by_id (uuid_to_string (dr_zone_id device)));
  zone ← found zone (Internal ("device " ++ uuid_to_string (dr_id device) ++ " references unknown zone "
                               ++ uuid_to_string (dr_zone_id device)));
  if negb (permits_kind zone kind)
  then fail_with (Conflict ("routing target '" ++ kind_as_str kind
         ++ "' is not permitted by this device's zone '" ++ z_name zone ++ "'"))
  else mret tt.

Definition check_device_mutation_auth (c : AuthContext) (device_mac : str) (admin_locked : bool)
    : result unit AppError :=
  let refused := Err (Forbidden "not authorised to modify this device") in
  match c with
  | User user => if bool_decide (role user = Admin) then Ok tt else refused
  | Auth.Device mac =>
      if bool_decide (mac = device_mac)
      then if admin_locked then Err (Forbidden "routing is locked by admin for this device") else Ok tt
      else refused
  | Anonymous => refused
  end.

Definition caller : AuthContext := default Anonymous ctx.

Definition changed_by : RuleCreator :=
  match caller with
  | User user => if bool_decide (role user = Admin) then CreatedByAdmin else CreatedByUser
  | Auth.Device _ | Anonymous => CreatedByUser
  end.

Definition may_modify (device : DeviceRow) (locked : bool) : Svc unit :=
  st_lift (check_device_mutation_auth caller (dr_mac device) locked).

Definition no_device : AppError := NotFound "device not found".
Definition no_device_for_ip : AppError := NotFound "device not found for this IP".

Definition device_at_ip (ip : str) : Svc DeviceRow :=
  d ← repo (dev_find_by_ip ip); found d no_device_for_ip.
Definition device_with_id (device_id : str) : Svc DeviceRow :=
  d ← repo (dev_find_by_id device_id); found d no_device.

(** ** Rules *)

Definition get_device_for_ip (ip : str) : Svc DeviceMeResponse :=
  device ← repo (dev_find_by_ip ip);
  match device with
  | Some d =>
      rule ← repo (dev_find_rule_for_device (uuid_to_string (dr_id d)));
      mret {| me_device := Some d; me_current_rule := rr_target <$> rule;
              me_admin_locked := dr_admin_locked d |}
  | None => mret {| me_device := None; me_current_rule := None; me_admin_locked := false |}
  end.

Definition set_rule_for_ip (ip : str) (target : RoutingTarget) : Svc SetMyRuleResponse :=
  device ← device_at_ip ip;
  _ ← may_modify device (dr_admin_locked device);
  _ ← validate_target_against_zone device target;
  previous ← repo (dev_find_rule_for_device (uuid_to_string (dr_id device)));
  _ ← repo (dev_upsert_user_rule (uuid_to_string (dr_id device)) target);
  _ ← publish (RoutingRuleChanged (dr_id device) target (rr_target <$> previous) changed_by);
  mret {| sr_message := of_string "routing rule updated"; sr_target := target |}.

Definition set_rule (device_id : str) (target : RoutingTarget) : Svc unit :=
  device ← device_with_id device_id;
  _ ← may_modify device (dr_admin_locked device);
  _ ← validate_target_against_zone device target;
  previous ← repo (dev_find_rule_for_device (uuid_to_string (dr_id device)));
  _ ← repo (dev_upsert_user_rule device_id target);
  _ ← match changed_by with
      | CreatedByAdmin => repo (dev_set_managed device_id true)
      | CreatedByUser => mret tt
      end;
  publish (RoutingRuleChanged (dr_id device) target (rr_target <$> previous) changed_by).

Definition current_rules : Svc (gmap Uuid RoutingTarget) :=
  _ ← admin_only ctx;
  rules ← repo dev_find_all_rules;
  mret (foldl (fun m r => <[rr_device_id r := rr_target r]> m) ∅ rules).

Definition get_rule_for_device (device_id : str) : Svc (option RoutingTarget) :=
  _ ← admin_only ctx;
  rule ← repo (dev_find_rule_for_device device_id);
  mret (rr_target <$> rule).

(** ** Lock, owner *)

Definition update_admin_locked (device_id : str) (locked : bool) : Svc unit :=
  _ ← admin_only ctx;
  _ ← repo (dev_update_admin_locked device_id locked);
  _ ← when locked (repo (dev_set_managed device_id true));
  match parse_uuid device_id with
  | Some id => publish (DeviceAdminLocked id locked)
  | None => mret tt
  end.

Definition set_device_owner (device_id : str) (owner_user_id : option Uuid) : Svc unit :=
  _ ← admin_only ctx;
  updated ← repo (dev_set_owner device_id owner_user_id);
  if negb updated then fail_with no_device else mret tt.

(** ** DNS capture *)

Definition get_dns_capture_settings (device_id : str) : Svc DnsCaptureSettingsResponse :=
  _ ← admin_only ctx;
  device ← device_with_id device_id;
  stats ← repo (ev_stats_for_device device_id);
  mret {| ds_enabled := dr_dns_capture_enabled device; ds_cap_count := dr_dns_capture_cap_count device;
          ds_cap_days := dr_dns_capture_cap_days device; ds_row_count := cs_row_count stats;
          ds_size_bytes := cs_size_bytes stats |}.

Definition update_dns_capture_settings (device_id : str) (enabled : option bool)
    (cap_count cap_days : option Z) : Svc unit :=
  _ ← admin_only ctx;
  hit ← repo (dev_update_dns_capture_settings device_id enabled cap_count cap_days);
  if negb hit then fail_with no_device
  else
    device_uuid ← found (parse_uuid device_id) no_device;
    now_enabled ← match enabled with
                  | Some e => mret e
                  | None => d ← repo (dev_find_by_id device_id);
                            mret (match d with Some d => dr_dns_capture_enabled d | None => false end)
                  end;
    _ ← when now_enabled (repo (dev_set_managed device_id true));
    publish (DeviceCaptureSettingsChanged device_uuid now_enabled).

Definition set_my_capture_enabled (ip : str) (enabled : bool) : Svc DnsCaptureSettingsResponse :=
  device ← device_at_ip ip;
  _ ← may_modify device false;
  let device_id := uuid_to_string (dr_id device) in
  hit ← repo (dev_update_dns_capture_settings device_id (Some enabled) None None);
  if negb hit then fail_with no_device
  else
    _ ← publish (DeviceCaptureSettingsChanged (dr_id device) enabled);
    stats ← repo (ev_stats_for_device device_id);
    mret {| ds_enabled := enabled; ds_cap_count := dr_dns_capture_cap_count device;
            ds_cap_days := dr_dns_capture_cap_days device; ds_row_count := cs_row_count stats;
            ds_size_bytes := cs_size_bytes stats |}.

Definition fetch_pending_dns_events (device_id : str) (after_id limit : Z) : Svc (list DnsEventItem) :=
  device ← device_with_id device_id;
  _ ← may_modify device false;
  rows ← repo (ev_fetch_pending device_id after_id limit);
  mret ((fun r => {| ei_id := ev_id r; ei_domain := ev_domain r; ei_status := ev_status r;
                     ei_captured_at := ev_captured_at r |}) <$> rows).

Definition ack_dns_events (device_id : str) (up_to_id : Z) : Svc unit :=
  device ← device_with_id device_id;
  _ ← may_modify device false;
  repo (ev_delete_up_to device_id up_to_id).

Definition list_capture_enabled_device_ids : Svc (list str) :=
  _ ← admin_only ctx; repo dev_find_all_capture_enabled_ids.

Definition get_device_capture_settings (device_id : str) : Svc (option (bool * Z * Z)) :=
  _ ← admin_only ctx;
  d ← repo (dev_find_by_id device_id);
  mret ((fun d => (dr_dns_capture_enabled d, dr_dns_capture_cap_count d, dr_dns_capture_cap_days d)) <$> d).

(** ** Internal callers *)

Definition get_device (device_id : str) : Svc (option DeviceRow) := repo (dev_find_by_id device_id).

Definition clear_remote_connection_mode (device_id : str) : Svc unit :=
  d ← repo (dev_find_by_id device_id);
  match d with
  | None => mret tt
  | Some device =>
      when (bool_decide (dr_connection_mode device = Remote))
        (repo (dev_update_connection_mode device_id Lan))
  end.

(** ** Managed *)

Definition clear_rule (target_from_json : str -> option RoutingTarget) (device_id : str) : Svc unit :=
  _ ← admin_only ctx;
  device_uuid ← found (parse_uuid device_id) no_device;
  previous ← repo (dev_find_rule_for_device device_id);
  _ ← repo (dev_delete_rule_for_device device_id);
  match previous with
  | None => mret tt
  | Some previous =>
      raw ← repo cfg_get_default_policy;
      let target := default Direct (raw ≫= target_from_json) in
      publish (RoutingRuleChanged device_uuid target (Some (rr_target previous)) CreatedByAdmin)
  end.

Definition mark_managed (device_id : str) : Svc unit :=
  _ ← admin_only ctx; repo (dev_set_managed device_id true).

Definition clear_managed (device_id : str) : Svc unit :=
  _ ← admin_only ctx; repo (dev_set_managed device_id false).

End device_service.
