(* ===== verification/Discovery.v ===== *)
(** * Device discovery

    [wardnetd-services/src/device/discovery.rs] (every method of the trait and
    its helpers), [ip_snapshot.rs] and the classifiers of
    [wardnetd-data/src/oui.rs].  The world [Discovery] is the in-memory tracking
    state over the shared [Policy] world; [Instant] is nanoseconds of a monotonic
    clock that stands still within a critical section.

    The per-MAC lock makes the handling of one observation atomic for its MAC.
    [scan_departures] and [prune_unmanaged_devices] take it per device, after
    their sweep: the sweep and the per-device part are separate definitions, so
    that histories can interleave other work between them.  Maps are walked in
    the order of [map_to_list]. *)

From S2P Require Import Prelude RustStr Net Auth PolicyRouter RoutingTypes ZoneTypes PolicyDb.
From S2P Require Import ZoneService.

(** What discovery looks up elsewhere: the generated IEEE table, the vendor
    catalog, the hostname of an active lease ([DhcpRepository]), reverse DNS. *)
Class DiscoveryDeps : Type := {
  oui_entry : Z * Z * Z -> option str;
  catalog_entry : Z * Z * Z -> option str;
  active_lease_hostname : str -> result (option (option str)) str;
  reverse_dns : str -> option str;
}.

(** ** [oui.rs] *)

(** [u8::from_str_radix(s, 16)] *)
Definition u8_from_hex (s : str) : option Z :=
  let ds := match s with c :: _ :: _ => if bool_decide (c = "+"%char) then tail s else s | _ => s end in
  if bool_decide (ds = []) || negb (forallb (is_radix_digit 16) ds) then None
  else let v := digits_value 16 ds in if v <=? U8_MAX then Some v else None.

Definition oui_prefix (mac : str) : option (Z * Z * Z) :=
  match split ":" mac with
  | p0 :: p1 :: p2 :: _ => b0 ← u8_from_hex p0; b1 ← u8_from_hex p1; b2 ← u8_from_hex p2; Some (b0, b1, b2)
  | _ => None
  end.

Definition locally_administered (b0 : Z) : bool := negb (Z.land b0 2 =? 0).

Definition is_randomized_mac (mac : str) : bool :=
  match oui_prefix mac with Some (b0, _, _) => locally_administered b0 | None => false end.

Definition guess_device_type (manufacturer : str) : DeviceType :=
  let lower := to_lowercase manufacturer in
  let any names := existsb (fun n => contains_str (of_string n) lower) names in
  if any ["nintendo"] then GameConsole
  else if any ["sony interactive"] then GameConsole
  else if any ["apple"; "samsung"; "google"; "huawei"; "xiaomi"; "oneplus"; "motorola"] then Phone
  else if any ["lg electronics"; "sony"; "vizio"; "tcl"; "hisense"] then Tv
  else if any ["intel"; "dell"; "hp"; "lenovo"; "asus"; "microsoft"] then Laptop
  else if any ["amazon"; "espressif"; "tuya"; "shenzhen"; "raspberry"; "tp-link"] then Iot
  else UnknownType.

(** ** State *)

Record DeviceMemoryState : Type := {
  ms_device_id : Uuid;
  ms_mac : str;
  ms_last_ip : str;
  ms_last_seen : Z;
  ms_gone : bool;
}.

Definition DEVICE_RETENTION_DAYS : Z := 30.
Definition FLAP_WINDOW : Z := 60 * 1000000000.
Definition FLAP_MAX_DISTINCT_IPS : nat := 3.

Record IpFlapHistory : Type := { fh_ips : list (str * Z); fh_warned : bool }.

Inductive ObservationResult : Type :=
| NewDevice (device_id : Uuid) (manufacturer : option str) (device_type : DeviceType)
| IpChanged (device_id : Uuid) (old_ip : str)
| Seen (device_id : Uuid)
| Reappeared (device_id : Uuid)
| Ignored.

Inductive ObsAction : Type :=
| ObsUnknown
| ObsReappear (device_id : Uuid) (mac : str)
| ObsIpChanged (device_id : Uuid) (mac old_ip : str)
| ObsJustSeen (device_id : Uuid).

Record ObservedDevice : Type := { ob_mac : str; ob_ip : str }.

Section discovery.
Context {U : UuidText} {L : Ipv4NetworkLib} {DD : DiscoveryDeps}.

Record Discovery : Type := {
  di_policy : Policy;
  di_state : gmap str DeviceMemoryState;
  di_ip_history : gmap str IpFlapHistory;
  di_trusted_subnets : list Ipv4Network;
  di_gateway : option (str * str);
  di_instant : Z;
}.

Context (lan_subnet : Ipv4Network) (lan_ip : Ipv4Addr).
Context (ctx : option AuthContext).

Definition set_policy (p : Policy) (w : Discovery) : Discovery :=
  {| di_policy := p; di_state := di_state w; di_ip_history := di_ip_history w;
     di_trusted_subnets := di_trusted_subnets w; di_gateway := di_gateway w; di_instant := di_instant w |}.
Definition set_memory (s : gmap str DeviceMemoryState) (w : Discovery) : Discovery :=
  {| di_policy := di_policy w; di_state := s; di_ip_history := di_ip_history w;
     di_trusted_subnets := di_trusted_subnets w; di_gateway := di_gateway w; di_instant := di_instant w |}.
Definition set_ip_history (h : gmap str IpFlapHistory) (w : Discovery) : Discovery :=
  {| di_policy := di_policy w; di_state := di_state w; di_ip_history := h;
     di_trusted_subnets := di_trusted_subnets w; di_gateway := di_gateway w; di_instant := di_instant w |}.
Definition set_trusted (l : list Ipv4Network) (w : Discovery) : Discovery :=
  {| di_policy := di_policy w; di_state := di_state w; di_ip_history := di_ip_history w;
     di_trusted_subnets := l; di_gateway := di_gateway w; di_instant := di_instant w |}.
Definition set_gateway (g : option (str * str)) (w : Discovery) : Discovery :=
  {| di_policy := di_policy w; di_state := di_state w; di_ip_history := di_ip_history w;
     di_trusted_subnets := di_trusted_subnets w; di_gateway := g; di_instant := di_instant w |}.

Abbreviation M := (ST Discovery AppError).

Definition policy {A} (m : Svc A) : M A := fun w =>
  let '(r, p) := m (di_policy w) in (r, set_policy p w).

Definition db_call {A} (m : ST Policy str A) : M A := policy (repo m).

(** [DeviceDiscoveryServiceImpl::new] *)
Definition discovery_new (p : Policy) (instant : Z) : Discovery :=
  {| di_policy := p; di_state := ∅; di_ip_history := ∅; di_trusted_subnets := [lan_subnet];
     di_gateway := None; di_instant := instant |}.

(** ** Helpers *)

(** The addresses claimed within the window, the observed one refreshed. *)
Definition claim (now : Z) (ip : str) (ips : list (str * Z)) : list (str * Z) :=
  let recent := List.filter (fun p => now - snd p <? FLAP_WINDOW) ips in
  if existsb (fun p => bool_decide (fst p = ip)) recent
  then (fun p => if bool_decide (fst p = ip) then (fst p, now) else p) <$> recent
  else recent ++ [(ip, now)].

Definition is_flapping (mac ip : str) : M bool := fun w =>
  let entry := default {| fh_ips := []; fh_warned := false |} (di_ip_history w !! mac) in
  let ips := claim (di_instant w) ip (fh_ips entry) in
  let flapping := (FLAP_MAX_DISTINCT_IPS <? length ips)%nat in
  (Ok flapping, set_ip_history (<[mac := {| fh_ips := ips; fh_warned := flapping |}]> (di_ip_history w)) w).

Definition present_at (now : Z) (e : DeviceMemoryState) : DeviceMemoryState :=
  {| ms_device_id := ms_device_id e; ms_mac := ms_mac e; ms_last_ip := ms_last_ip e;
     ms_last_seen := now; ms_gone := ms_gone e |}.
Definition moved_at (now : Z) (ip : str) (e : DeviceMemoryState) : DeviceMemoryState :=
  {| ms_device_id := ms_device_id e; ms_mac := ms_mac e; ms_last_ip := ip; ms_last_seen := now;
     ms_gone := false |}.
Definition departed (e : DeviceMemoryState) : DeviceMemoryState :=
  {| ms_device_id := ms_device_id e; ms_mac := ms_mac e; ms_last_ip := ms_last_ip e;
     ms_last_seen := ms_last_seen e; ms_gone := true |}.

Definition touch_presence (mac : str) : M unit := st_modify (fun w =>
  match di_state w !! mac with
  | Some e => if ms_gone e then w else set_memory (<[mac := present_at (di_instant w) e]> (di_state w)) w
  | None => w
  end).

Definition track (mac : str) (device_id : Uuid) (ip : str) : M unit := st_modify (fun w =>
  set_memory (<[mac := {| ms_device_id := device_id; ms_mac := mac; ms_last_ip := ip;
                          ms_last_seen := di_instant w; ms_gone := false |}]> (di_state w)) w).

Definition clear_departed_ip (device_id : Uuid) (mac : str) : M unit := fun w =>
  let still_gone := match di_state w !! mac with Some e => ms_gone e | None => true end in
  if still_gone
  then (_ ← policy (logged (dev_clear_last_ip (uuid_to_string device_id))); mret tt) w
  else (Ok tt, w).

Definition utc_now : M Z := st_gets (fun w => po_now (di_policy w)).

(** Persist an observed address. *)
Definition record_ip (device_id : Uuid) (ip : str) (mode : DeviceConnectionMode) : M unit :=
  now ← utc_now;
  db_call (dev_update_last_seen_and_ip (uuid_to_string device_id) ip now mode).

Definition reappear_device (device_id : Uuid) (mac : str) (obs : ObservedDevice)
    (hostname : option str) : M ObservationResult :=
  _ ← track (ob_mac obs) device_id (ob_ip obs);
  _ ← record_ip device_id (ob_ip obs) Lan;
  _ ← policy (publish (DeviceDiscovered device_id mac (ob_ip obs) hostname));
  mret (Reappeared device_id).

(** Manufacturer with its provenance: IEEE first, then the catalog. *)
Definition manufacturer_of (mac : str) : option (str * ManufacturerSource) :=
  let prefix := oui_prefix mac in
  match prefix ≫= (fun p => if locally_administered (fst (fst p)) then None else oui_entry p) with
  | Some m => Some (m, Ieee)
  | None => (fun v => (v, Catalog)) <$> (prefix ≫= catalog_entry)
  end.

Definition guessed_type (mac : str) : DeviceType :=
  match manufacturer_of mac with
  | Some (m, _) => guess_device_type m
  | None => if is_randomized_mac mac then Phone else UnknownType
  end.

Definition new_row (device_id : Uuid) (obs : ObservedDevice) (zone_id : Uuid) (now : Z) : DeviceRow :=
  {| dr_id := device_id; dr_mac := ob_mac obs; dr_name := None; dr_hostname := None;
     dr_manufacturer := fst <$> manufacturer_of (ob_mac obs);
     dr_manufacturer_source := snd <$> manufacturer_of (ob_mac obs);
     dr_is_randomized := is_randomized_mac (ob_mac obs); dr_device_type := guessed_type (ob_mac obs);
     dr_first_seen := now; dr_last_seen := now; dr_last_ip := ob_ip obs; dr_admin_locked := false;
     dr_zone_id := zone_id; dr_owner_user_id := None; dr_dns_capture_enabled := false;
     dr_dns_capture_cap_count := 1000; dr_dns_capture_cap_days := 7; dr_connection_mode := Lan;
     dr_managed := false |}.

Definition insert_new_device (fresh : Uuid) (obs : ObservedDevice) : M ObservationResult :=
  now ← utc_now;
  zone ← db_call zone_find_default_for_new;
  _ ← db_call (dev_insert (new_row fresh obs (z_id zone) now));
  _ ← track (ob_mac obs) fresh (ob_ip obs);
  _ ← policy (publish (DeviceDiscovered fresh (ob_mac obs) (ob_ip obs) None));
  quarantine ← policy (logged cfg_is_quarantine_new_devices);
  _ ← match quarantine with
      | Some true => policy (publish (NewDeviceQuarantined fresh (ob_mac obs) (z_name zone)))
      | _ => mret tt
      end;
  mret (NewDevice fresh (fst <$> manufacturer_of (ob_mac obs)) (guessed_type (ob_mac obs))).

Definition handle_unknown_mac (fresh : Uuid) (obs : ObservedDevice) : M ObservationResult :=
  db_device ← db_call (dev_find_by_mac (ob_mac obs));
  match db_device with
  | Some device => reappear_device (dr_id device) (ob_mac obs) obs (dr_hostname device)
  | None => insert_new_device fresh obs
  end.

Definition publish_device_gone (device_id : Uuid) (mac last_ip : str) : M unit :=
  policy (publish (DeviceGone device_id mac last_ip)).

Definition observation_action (mac ip : str) (on_unknown : option Uuid) : M ObsAction := fun w =>
  let now := di_instant w in
  let put e := set_memory (<[mac := e]> (di_state w)) w in
  match di_state w !! mac with
  | Some e =>
      if ms_gone e then (Ok (ObsReappear (ms_device_id e) (ms_mac e)), put (moved_at now ip e))
      else if negb (bool_decide (ms_last_ip e = ip))
      then (Ok (ObsIpChanged (ms_device_id e) (ms_mac e) (ms_last_ip e)), put (moved_at now ip e))
      else (Ok (ObsJustSeen (ms_device_id e)), put (present_at now e))
  | None =>
      match on_unknown with
      | Some device_id =>
          (Ok (ObsReappear device_id mac),
           put {| ms_device_id := device_id; ms_mac := mac; ms_last_ip := ip; ms_last_seen := now;
                  ms_gone := false |})
      | None => (Ok ObsUnknown, w)
      end
  end.

(** ** The service *)

Definition rebuild_trusted_subnets : M unit :=
  zones ← db_call zone_find_all;
  _ ← st_modify (set_trusted (lan_subnet :: (snd <$> parse_zone_subnets zones)));
  mac ← db_call cfg_get_router_mac;
  ip ← db_call (cfg_get (of_string "dhcp_router_ip"));
  st_modify (set_gateway (m ← mac; i ← ip; Some (to_lowercase m, i))).

(** A row that claims the daemon's own address. *)
Definition poisoned (v : DeviceRow) : bool :=
  match parse_ipv4 (dr_last_ip v) with
  | Some ip => negb (is_unspecified ip) && (ip =? lan_ip)
  | None => false
  end.

Definition restored (instant : Z) (v : DeviceRow) : DeviceMemoryState :=
  {| ms_device_id := dr_id v; ms_mac := dr_mac v;
     ms_last_ip := if poisoned v then [] else dr_last_ip v; ms_last_seen := instant; ms_gone := true |}.

Definition restore_devices : M unit :=
  _ ← st_lift (require_admin ctx);
  _ ← rebuild_trusted_subnets;
  devices ← db_call dev_find_all;
  _ ← st_modify (fun w => set_memory
        (foldl (fun s v => <[dr_mac v := restored (di_instant w) v]> s) (di_state w) devices) w);
  st_iter (fun v =>
    now ← utc_now;
    _ ← policy (logged (dev_update_last_seen_and_ip (uuid_to_string (dr_id v)) [] now (dr_connection_mode v)));
    mret tt) (List.filter poisoned devices).

(** The address filter: outside every trusted subnet, or forwarded by the gateway. *)
Definition untrusted (obs : ObservedDevice) (w : Discovery) : bool :=
  match parse_ipv4 (ob_ip obs) with
  | Some ip => negb (existsb (fun net => net_contains net ip) (di_trusted_subnets w))
  | None => false
  end.

Definition forwarded (obs : ObservedDevice) (w : Discovery) : bool :=
  match di_gateway w with
  | Some (gateway_mac, gateway_ip) =>
      eq_ignore_ascii_case (ob_mac obs) gateway_mac && negb (bool_decide (ob_ip obs = gateway_ip))
  | None => false
  end.

(** An observation that passed the filters, classified and persisted. *)
Definition act_on (fresh : Uuid) (obs : ObservedDevice) (action : ObsAction) : M ObservationResult :=
  match action with
  | ObsUnknown => handle_unknown_mac fresh obs
  | ObsReappear device_id mac =>
      _ ← record_ip device_id (ob_ip obs) Lan;
      _ ← policy (publish (DeviceDiscovered device_id mac (ob_ip obs) None));
      mret (Reappeared device_id)
  | ObsIpChanged device_id mac old_ip =>
      _ ← record_ip device_id (ob_ip obs) Lan;
      _ ← policy (publish (DeviceIpChanged device_id mac old_ip (ob_ip obs)));
      mret (IpChanged device_id old_ip)
  | ObsJustSeen device_id => mret (Seen device_id)
  end.

Definition process_observation (fresh : Uuid) (obs : ObservedDevice) : M ObservationResult :=
  _ ← st_lift (require_admin ctx);
  drop ← st_gets (untrusted obs);
  if drop : bool then mret Ignored
  else
    hairpin ← st_gets (forwarded obs);
    if hairpin : bool then mret Ignored
    else
      flapping ← is_flapping (ob_mac obs) (ob_ip obs);
      if bool_decide (parse_ipv4 (ob_ip obs) = Some lan_ip)
      then _ ← touch_presence (ob_mac obs); mret Ignored
      else if flapping : bool
      then _ ← touch_presence (ob_mac obs); mret Ignored
      else
        action ← observation_action (ob_mac obs) (ob_ip obs) None;
        act_on fresh obs action.

Definition flush_last_seen : M Z :=
  _ ← st_lift (require_admin ctx);
  now ← utc_now;
  updates ← st_gets (fun w => (fun e => (uuid_to_string (ms_device_id e), now)) <$>
    List.filter (fun e => negb (ms_gone e)) (snd <$> map_to_list (di_state w)));
  _ ← (if bool_decide (updates = []) then mret tt else db_call (dev_update_last_seen_batch updates));
  mret (Z.of_nat (length updates)).

Definition overdue (now timeout : Z) (e : DeviceMemoryState) : bool :=
  negb (ms_gone e) && (timeout <? now - ms_last_seen e).

(** The sweep of [scan_departures], under the state lock. *)
Definition sweep_departures (timeout : Z) (w : Discovery)
    : list (Uuid * str * str) * Discovery :=
  let late := overdue (di_instant w) timeout in
  ((fun e => (ms_device_id e, ms_mac e, ms_last_ip e)) <$>
     List.filter late (snd <$> map_to_list (di_state w)),
   set_memory ((fun e => if late e then departed e else e) <$> di_state w) w).

(** What follows for each departed device. *)
Definition depart (d : Uuid * str * str) : M unit :=
  let '(device_id, mac, last_ip) := d in
  _ ← clear_departed_ip device_id mac;
  publish_device_gone device_id mac last_ip.

Definition scan_departures (timeout_secs : Z) : M (list Uuid) :=
  _ ← st_lift (require_admin ctx);
  gone ← (fun w => let '(l, w') := sweep_departures (timeout_secs * 1000000000) w in (Ok l, w'));
  _ ← st_iter depart gone;
  mret ((fun d => fst (fst d)) <$> gone).

Definition resolve_hostname (mac ip : str) : M unit :=
  _ ← st_lift (require_admin ctx);
  device ← db_call (dev_find_by_mac mac);
  match device with
  | None => mret tt
  | Some device =>
      match active_lease_hostname mac with
      | Err e => st_fail (Internal e)
      | Ok lease =>
          let dhcp_hostname := h ← lease; h ← h;
            if bool_decide (trim h = []) then None else Some (trim h) in
          match (match dhcp_hostname with Some h => Some h | None => reverse_dns ip end) with
          | Some hostname => db_call (dev_update_hostname (uuid_to_string (dr_id device)) hostname)
          | None => mret tt
          end
      end
  end.

Definition refused {A} (msg : str) : M A := st_fail (Forbidden msg).

Definition get_all_devices : M (list DeviceRow) :=
  _ ← st_lift (require_authenticated ctx);
  match default Anonymous ctx with
  | User user => if bool_decide (role user = Admin) then db_call dev_find_all
                 else refused (of_string "admin privileges required")
  | Auth.Device mac => d ← db_call (dev_find_by_mac mac); mret (option_list d)
  | Anonymous => refused (of_string "authentication required")
  end.

Definition get_device_by_id (id : Uuid) : M DeviceRow :=
  _ ← st_lift (require_authenticated ctx);
  device ← db_call (dev_find_by_id (uuid_to_string id));
  device ← st_lift (ok_or device (device_missing id));
  match default Anonymous ctx with
  | User user => if bool_decide (role user = Admin) then mret device
                 else refused (of_string "admin privileges required")
  | Auth.Device mac => if bool_decide (dr_mac device = mac) then mret device
                       else refused (of_string "not authorised to view this device")
  | Anonymous => refused (of_string "authentication required")
  end.

(** The gate of [update_device]. *)
Definition may_update (id : Uuid) : M unit :=
  match default Anonymous ctx with
  | User user => if bool_decide (role user = Admin) then mret tt
                 else refused (of_string "admin privileges required")
  | Auth.Device mac =>
      device ← db_call (dev_find_by_id (uuid_to_string id));
      device ← st_lift (ok_or device (device_missing id));
      if negb (bool_decide (dr_mac device = mac))
      then refused (of_string "not authorised to modify this device")
      else if dr_admin_locked device then refused (of_string "device is locked by admin")
      else mret tt
  | Anonymous => refused (of_string "authentication required")
  end.

Definition update_device (id : Uuid) (name : option str) (device_type : option DeviceType) : M DeviceRow :=
  _ ← st_lift (require_authenticated ctx);
  _ ← may_update id;
  current ← (if bool_decide (name = None) || bool_decide (device_type = None)
             then d ← db_call (dev_find_by_id (uuid_to_string id));
                  d ← st_lift (ok_or d (device_missing id)); mret (Some d)
             else mret None);
  let device_type := default UnknownType
    (match device_type with Some t => Some t | None => dr_device_type <$> current end) in
  let name_to_write := match name with
                       | Some n => if bool_decide (trim n = []) then None else Some n
                       | None => current ≫= dr_name
                       end in
  _ ← db_call (dev_update_name_and_type (uuid_to_string id) name_to_write device_type);
  _ ← (if is_admin (default Anonymous ctx)
       then db_call (dev_set_managed (uuid_to_string id) true) else mret tt);
  d ← db_call (dev_find_by_id (uuid_to_string id));
  st_lift (ok_or d (device_missing id)).

Definition peer_missing (what : str) (id : Uuid) : AppError :=
  Internal (what ++ ": device " ++ uuid_to_string id ++ " not found (FK should prevent this)").

Definition process_peer_observation (device_id : Uuid) (ip : str) : M ObservationResult :=
  device ← db_call (dev_find_by_id (uuid_to_string device_id));
  device ← st_lift (ok_or device (peer_missing (of_string "process_peer_observation") device_id));
  action ← observation_action (dr_mac device) ip (Some device_id);
  _ ← record_ip device_id ip Remote;
  match action with
  | ObsReappear device_id mac =>
      _ ← policy (publish (DeviceDiscovered device_id mac ip None)); mret (Reappeared device_id)
  | ObsIpChanged device_id mac old_ip =>
      _ ← policy (publish (DeviceIpChanged device_id mac old_ip ip)); mret (IpChanged device_id old_ip)
  | ObsJustSeen device_id => mret (Seen device_id)
  | ObsUnknown => st_fail (Internal ("process_peer_observation: unexpected Unknown action for device "
                                     ++ uuid_to_string device_id))
  end.

Definition touch_peer_presence (device_id : Uuid) : M unit :=
  device ← db_call (dev_find_by_id (uuid_to_string device_id));
  device ← st_lift (ok_or device (peer_missing (of_string "touch_peer_presence") device_id));
  touch_presence (dr_mac device).

(** The sweep of [mark_peer_gone]: one entry. *)
Definition sweep_peer (mac : str) (timeout : Z) : M (option (Uuid * str * str)) := fun w =>
  match di_state w !! mac with
  | Some e =>
      if overdue (di_instant w) timeout e
      then (Ok (Some (ms_device_id e, ms_mac e, ms_last_ip e)),
            set_memory (<[mac := departed e]> (di_state w)) w)
      else (Ok None, w)
  | None => (Ok None, w)
  end.

Definition mark_peer_gone (device_id : Uuid) (timeout : Z) : M (option Uuid) :=
  device ← db_call (dev_find_by_id (uuid_to_string device_id));
  match device with
  | None => mret None
  | Some device =>
      gone ← sweep_peer (dr_mac device) timeout;
      match gone with
      | Some d => _ ← depart d; mret (Some (fst (fst d)))
      | None => mret None
      end
  end.

(** The delete of [prune_unmanaged_devices], and the eviction of one row's MAC. *)
Definition delete_stale : M (list PrunedDevice) :=
  now ← utc_now;
  db_call (dev_delete_unmanaged_before (now - DEVICE_RETENTION_DAYS * 86400 * 1000000000)).

Definition evict (mac : str) (w : Discovery) : Discovery :=
  set_ip_history (delete mac (di_ip_history w)) (set_memory (delete mac (di_state w)) w).

Definition prune_unmanaged_devices : M Z :=
  _ ← st_lift (require_admin ctx);
  pruned ← delete_stale;
  _ ← st_iter (fun p => st_modify (evict (pd_mac p))) pruned;
  mret (Z.of_nat (length pruned)).

End discovery.

(** ** [ip_snapshot.rs] *)

Definition snapshot_entry (m : gmap IpAddr Uuid) (v : DeviceRow) : gmap IpAddr Uuid :=
  if bool_decide (dr_last_ip v = []) then m
  else match parse_ip (dr_last_ip v) with
       | Some ip => <[ip := dr_id v]> m
       | None => m
       end.

Definition rebuild_snapshot (devices : list DeviceRow) : gmap IpAddr Uuid :=
  foldl snapshot_entry ∅ (sort_by (fun a b => dr_last_seen a ?= dr_last_seen b) devices).

Definition ip_snapshot_rebuild {U : UuidText} : ST Policy str (gmap IpAddr Uuid) :=
  devices ← dev_find_all; mret (rebuild_snapshot devices).
