(* ===== verification/PolicyLaws.v ===== *)
(** * What the device policy database keeps to

    Weakest preconditions on the database for the services over [Policy], what
    each statement does to the invariant of the database, and that every call of
    the zone, exception and device services keeps it, also when storage fails
    half way. *)

From S2P Require Import Prelude RustStr Net Auth PolicyRouter RoutingTypes ZoneTypes PolicyDb.
From S2P Require Import ZoneService DeviceService.

(** ** Weakest preconditions on the database *)

Abbreviation HasDb W := (View W PolicyDb).
Abbreviation dbof := (view (V := PolicyDb)).
#[export] Instance policy_has_db : HasDb Policy := {| view := po_db |}.

Lemma wp_stmt {X} (f : PolicyDb -> result X str * PolicyDb) Q d :
  (forall e, Q (Err e) d) -> Q (fst (f d)) (snd (f d)) -> wp (stmt f) Q d.
Proof.
  intros He HQ w Hd. change (po_db w = d) in Hd. unfold stmt. rewrite Hd.
  destruct (po_faults w) as [|[e|] fs]; simpl; [|rewrite Hd; apply He|]; by destruct (f d).
Qed.

Lemma wp_select {X} (f : PolicyDb -> result X str) (Q : result X str -> PolicyDb -> Prop) d :
  (forall e, Q (Err e) d) -> Q (f d) d -> wp (select f) Q d.
Proof. intros He HQ. by apply wp_stmt. Qed.

Lemma wp_execute f (Q : result unit str -> PolicyDb -> Prop) d :
  (forall e, Q (Err e) d) -> Q (Ok tt) (f d) -> wp (execute f) Q d.
Proof. intros He HQ. by apply wp_stmt. Qed.

Lemma wp_checked f (Q : result unit str -> PolicyDb -> Prop) d :
  (forall e, Q (Err e) d) -> (forall d', f d = Ok d' -> Q (Ok tt) d') -> wp (execute_checked f) Q d.
Proof. intros He HQ. apply wp_stmt; [done|]. destruct (f d) as [d'|e] eqn:E; simpl; [by apply HQ | apply He]. Qed.

Lemma wp_repo {X} (m : ST Policy str X) (Q : result X AppError -> PolicyDb -> Prop) d :
  wp m (fun r => Q (match r with Ok a => Ok a | Err e => Err (Internal e) end)) d -> wp (repo m) Q d.
Proof. intros Hm w Hd. specialize (Hm w Hd). unfold repo. by destruct (m w) as [[a|e] w']. Qed.

Lemma wp_logged {X} (m : ST Policy str X) (Q : result (option X) AppError -> PolicyDb -> Prop) d :
  wp m (fun r => Q (match r with Ok a => Ok (Some a) | Err _ => Ok None end)) d -> wp (logged m) Q d.
Proof. intros Hm w Hd. specialize (Hm w Hd). unfold logged. by destruct (m w) as [[a|e] w']. Qed.

Lemma wp_publish e (Q : result unit AppError -> PolicyDb -> Prop) d : Q (Ok tt) d -> wp (publish e) Q d.
Proof. by intros HQ w <-. Qed.

Lemma wp_when b m (Q : result unit AppError -> PolicyDb -> Prop) d :
  (b = true -> wp m Q d) -> (b = false -> Q (Ok tt) d) -> wp (when b m) Q d.
Proof. intros H1 H2. destruct b; simpl; [by apply H1 | by apply wp_ret, H2]. Qed.

(** One step of a method: the rule its head calls for; error branches that the
    hypotheses give are closed. *)
Ltac wp_head :=
  lazymatch goal with
  | |- wp (_ ≫= _) _ _ => apply wp_bind
  | |- wp (mret _) _ _ => apply wp_ret
  | |- wp (repo _) _ _ => apply wp_repo
  | |- wp (logged _) _ _ => apply wp_logged
  | |- wp (publish _) _ _ => apply wp_publish
  | |- wp (emit_zone_changed _) _ _ => apply wp_publish
  | |- wp emit_changed _ _ => apply wp_publish
  | |- wp (admin_only _) _ _ => apply wp_lift
  | |- wp (found _ _) _ _ => apply wp_lift
  | |- wp (fail_with _) _ _ => apply wp_fail
  | |- wp (st_lift _) _ _ => apply wp_lift
  | |- wp (st_fail _) _ _ => apply wp_fail
  | |- wp (select _) _ _ => apply wp_select; [intros ?|]
  | |- wp (execute _) _ _ => apply wp_execute; [intros ?|]
  | |- wp (execute_checked _) _ _ => apply wp_checked; [intros ? | intros ? ?]
  | |- wp (stmt _) _ _ => apply wp_stmt; [intros ?|]
  | |- wp (when _ _) _ _ => apply wp_when; intros ?
  | |- wp (if ?b then _ else _) _ _ => destruct b eqn:?
  | |- wp (match ?x with _ => _ end) _ _ => destruct x eqn:?
  end.

Create HintDb policy.

(** Steps through a method whose writes are covered by the hints. *)
Ltac wp_run :=
  repeat first
    [ wp_head
    | progress cbv zeta beta iota
    | lazymatch goal with |- match ?x with _ => _ end => destruct x eqn:? end ];
  auto with policy.

(** The calls that only read, or write by the statements of the hints. *)
Ltac plain_call :=
  unfold list_zones, get_zone, view_of, get_quarantine_new_devices, set_quarantine_new_devices,
    list_exceptions, get_exception, require_exception, get_device_for_ip, current_rules,
    get_rule_for_device, update_admin_locked, set_device_owner, get_dns_capture_settings,
    update_dns_capture_settings, set_my_capture_enabled, fetch_pending_dns_events, ack_dns_events,
    list_capture_enabled_device_ids, get_device_capture_settings, get_device,
    clear_remote_connection_mode, clear_rule, mark_managed, clear_managed, device_at_ip, device_with_id,
    may_modify, require_zone,
    zone_find_all, zone_member_counts, zone_find_by_id, zone_count_members, cfg_is_quarantine_new_devices,
    cfg_set_quarantine_new_devices, cfg_get_default_policy, cfg_get, cfg_set, exc_find_all, exc_find_by_id,
    dev_find_by_ip, dev_find_rule_for_device, dev_find_all_rules, dev_update_admin_locked, dev_set_managed,
    dev_set_owner, dev_find_by_id, ev_stats_for_device, dev_update_dns_capture_settings, ev_fetch_pending,
    ev_delete_up_to, dev_find_all_capture_enabled_ids, dev_update_connection_mode, dev_delete_rule_for_device;
  wp_run.

(** ** The invariant *)

Section invariant.
Context {U : UuidText} {UL : UuidTextLaws U} {L : Ipv4NetworkLib}.

Definition defaults (flag : NetworkZone -> bool) (l : list NetworkZone) : nat :=
  length (List.filter flag l).

Record zones_ok (l : list NetworkZone) : Prop := {
  zo_ids : NoDup (z_id <$> l);
  zo_names : NoDup (z_name <$> l);
  zo_default : defaults z_is_default l = 1%nat;
  zo_default_for_new : defaults z_is_default_for_new l = 1%nat;
  zo_valid z : z ∈ l -> validate_targets_and_subnet (z_allowed_targets z) (z_subnet z) = Ok tt;
}.

Record devices_ok (l : list DeviceRow) : Prop := {
  vo_ids : NoDup (dr_id <$> l);
  vo_macs : NoDup (dr_mac <$> l);
  vo_lower v : v ∈ l -> to_lowercase (dr_mac v) = dr_mac v;
}.

(** Every device is in a zone, every rule belongs to a device, and a rule that
    names its target is one the zone of the device permits. *)
Record links_ok (d : PolicyDb) : Prop := {
  lo_member v : v ∈ t_devices d -> exists z, z ∈ t_zones d /\ z_id z = dr_zone_id v;
  lo_rule_ids : NoDup (rr_device_id <$> t_rules d);
  lo_rule r : r ∈ t_rules d -> exists v, v ∈ t_devices d /\ dr_id v = rr_device_id r;
  lo_permitted r v z kind : r ∈ t_rules d -> v ∈ t_devices d -> dr_id v = rr_device_id r ->
    z ∈ t_zones d -> z_id z = dr_zone_id v -> of_target (rr_target r) = Some kind ->
    permits_kind z kind = true;
}.

(** Distinct ends, usable ports, and all ports only between two devices. *)
Definition exception_ok (e : ZoneException) : Prop :=
  ze_from e <> ze_to e /\ validate_service (ze_service e) = Ok tt /\
  (wide_open (ze_service e) = true ->
   ee_kind (ze_from e) = EndpointDevice /\ ee_kind (ze_to e) = EndpointDevice).

Record exceptions_ok (l : list ZoneException) : Prop := {
  eo_ids : NoDup (ze_id <$> l);
  eo_all e : e ∈ l -> exception_ok e;
}.

Record db_ok (d : PolicyDb) : Prop := {
  ok_zones : zones_ok (t_zones d);
  ok_devices : devices_ok (t_devices d);
  ok_links : links_ok d;
  ok_exceptions : exceptions_ok (t_exceptions d);
}.

(** ** What the statements do to it *)

Lemma NoDup_fmap_filter {A B} (f : A -> B) (P : A -> Prop) `{!forall x, Decision (P x)} l :
  NoDup (f <$> l) -> NoDup (f <$> filter P l).
Proof.
  induction l as [|x l IH]; [done|]. rewrite fmap_cons, filter_cons. intros [Hx Hl]%NoDup_cons.
  case_decide; [|by apply IH]. rewrite fmap_cons. apply NoDup_cons. split; [|by apply IH].
  intros (y & Hfy & [_ Hy]%list_elem_of_filter)%list_elem_of_fmap. apply Hx. rewrite Hfy.
  by apply list_elem_of_fmap_2.
Qed.

Lemma NoDup_fmap_snoc {A B} (f : A -> B) (l : list A) x : NoDup (f <$> l) -> (forall y, y ∈ l -> f y <> f x) ->
  NoDup (f <$> (l ++ [x])).
Proof.
  intros Hl Hx. rewrite fmap_app. apply NoDup_app. split; [done|]. split; [|apply NoDup_singleton].
  intros b Hb ->%list_elem_of_singleton. apply list_elem_of_fmap in Hb as (y & Hy & Hin).
  by apply (Hx y Hin).
Qed.

Lemma existsb_false {A} (f : A -> bool) l : existsb f l = false -> forall x, x ∈ l -> f x = false.
Proof.
  intros H x Hx. destruct (f x) eqn:E; [|done]. rewrite <- H. symmetry. apply existsb_exists.
  exists x. by rewrite <- list_elem_of_In.
Qed.

Lemma find_elem {A} (f : A -> bool) l x : List.find f l = Some x -> x ∈ l /\ f x = true.
Proof. intros [H1%list_elem_of_In H2]%find_some. done. Qed.

(** Equal keys, equal rows. *)
Lemma same_key {A B} (f : A -> B) (l : list A) x y : NoDup (f <$> l) -> x ∈ l -> y ∈ l -> f x = f y -> x = y.
Proof.
  induction l as [|a l IH]; [set_solver|]. rewrite fmap_cons. intros [Ha Hl]%NoDup_cons Hx Hy E.
  apply elem_of_cons in Hx as [->|Hx]; apply elem_of_cons in Hy as [->|Hy]; [done | | | by apply IH].
  - exfalso. apply Ha. rewrite E. by apply list_elem_of_fmap_2.
  - exfalso. apply Ha. rewrite <- E. by apply list_elem_of_fmap_2.
Qed.

Lemma fmap_key {A B} (f : A -> B) (g : A -> A) (l : list A) : (forall x, f (g x) = f x) -> f <$> (g <$> l) = f <$> l.
Proof. intros H. rewrite <- list_fmap_compose. apply list_fmap_ext. intros i x _. apply H. Qed.

Lemma defaults_map flag g l : (forall z, flag (g z) = flag z) -> defaults flag (g <$> l) = defaults flag l.
Proof.
  intros H. induction l as [|z l IH]; [done|]. rewrite fmap_cons. unfold defaults in *.
  cbn [List.filter]. rewrite H. destruct (flag z); cbn [length]; by rewrite IH.
Qed.

Lemma defaults_app flag l l' : defaults flag (l ++ l') = (defaults flag l + defaults flag l')%nat.
Proof. unfold defaults. by rewrite List.filter_app, length_app. Qed.

(** After the flag moved exactly the named zone has it. *)
Lemma moved_flag_count (flag : NetworkZone -> bool) set_flag id l l' :
  (forall b z, flag (set_flag b z) = b) -> (forall b z, z_id (set_flag b z) = z_id z) ->
  NoDup (z_id <$> l) -> move_flag set_flag (uuid_to_string id) l = Some l' -> defaults flag l' = 1%nat.
Proof.
  intros Hf Hi Hnd. unfold move_flag. destruct (existsb _ _) eqn:E; [|done]. intros [= <-].
  assert (Hcount : forall k, NoDup (z_id <$> k) -> defaults flag
    ((fun z => if has_id (uuid_to_string id) (z_id z) then set_flag true z else z) <$> (set_flag false <$> k))
    = if decide (id ∈ z_id <$> k) then 1%nat else 0%nat).
  { clear E Hnd. intros k. induction k as [|z k IH]; [done|].
    rewrite !fmap_cons. intros [Hz Hk]%NoDup_cons. specialize (IH Hk).
    unfold defaults in *. cbn [List.filter]. rewrite Hi, has_id_string.
    destruct (Z.eqb_spec (z_id z) id) as [<-|Hne]; rewrite Hf.
    - cbn [length]. rewrite IH, decide_False, decide_True by set_solver. done.
    - rewrite IH. destruct (decide (id ∈ z_id <$> k)); [rewrite decide_True | rewrite decide_False]; set_solver. }
  rewrite Hcount by done. rewrite decide_True; [done|].
  apply existsb_exists in E as (z & Hz%list_elem_of_In & Hid).
  apply list_elem_of_fmap in Hz as (z0 & -> & Hz0). rewrite Hi, has_id_string in Hid.
  apply Z.eqb_eq in Hid as <-. by apply list_elem_of_fmap_2.
Qed.

(** *** Devices *)

Lemma set_columns_keeps {A} (f : DeviceRow -> A) u v :
  Forall (fun a => forall x, f (set_column x a) = f x) u -> f (set_columns u v) = f v.
Proof.
  unfold set_columns. revert v. induction u as [|a u IH]; intros v H; [done|].
  apply Forall_cons in H as [Ha Hu]. simpl. by rewrite IH, Ha.
Qed.

Lemma set_columns_id u v : dr_id (set_columns u v) = dr_id v.
Proof. apply set_columns_keeps. by apply Forall_true. Qed.
Lemma set_columns_mac u v : dr_mac (set_columns u v) = dr_mac v.
Proof. apply set_columns_keeps. by apply Forall_true. Qed.

Lemma devices_map f l : (forall v, dr_id (f v) = dr_id v) -> (forall v, dr_mac (f v) = dr_mac v) ->
  devices_ok l -> devices_ok (f <$> l).
Proof.
  intros Hi Hm [H1 H2 H3]. split; [by rewrite fmap_key | by rewrite fmap_key |].
  intros ? (v & -> & Hv)%list_elem_of_fmap. rewrite Hm. by apply H3.
Qed.

(** Columns other than the zone. *)
Lemma devices_map_ok f d : (forall v, dr_id (f v) = dr_id v) -> (forall v, dr_mac (f v) = dr_mac v) ->
  (forall v, dr_zone_id (f v) = dr_zone_id v) -> db_ok d -> db_ok (set_devices (f <$> t_devices d) d).
Proof.
  intros Hi Hm Hz [H1 H2 [L1 L2 L3 L4] H4]. split; try done; [by apply devices_map|]. split; simpl.
  - intros ? (v & -> & Hv)%list_elem_of_fmap. rewrite Hz. by apply L1.
  - done.
  - intros r (v & Hv & Hid)%L3. exists (f v). split; [by apply list_elem_of_fmap_2|]. by rewrite Hi.
  - intros r ? z kind Hr (v & -> & Hv)%list_elem_of_fmap. rewrite Hi, Hz. by apply L4.
Qed.

Definition keeps_zone (a : Assignment) : bool := match a with SetZoneId _ => false | _ => true end.

Lemma assign_ok id u d : forallb keeps_zone u = true -> db_ok d -> db_ok (assign id u d).
Proof.
  intros Hu. apply devices_map_ok; intros v; destruct (has_id id (dr_id v)); try done;
    [apply set_columns_id | apply set_columns_mac |].
  apply set_columns_keeps. apply Forall_forall. intros a Ha x.
  rewrite forallb_forall in Hu. specialize (Hu a). rewrite <- list_elem_of_In in Hu. by destruct a; try done; specialize (Hu Ha).
Qed.

Lemma batch_ok updates d : db_ok d ->
  db_ok (foldl (fun d '(id, last_seen) => assign id [SetLastSeen last_seen] d) d updates).
Proof. revert d. induction updates as [|[id t] l IH]; intros d Hd; [done|]. simpl. by apply IH, assign_ok. Qed.

(** A move to a zone that permits the device's own rule. *)
Lemma assign_zone_ok id zone d : db_ok d -> zone ∈ t_zones d ->
  (forall r kind, r ∈ t_rules d -> rr_device_id r = id -> of_target (rr_target r) = Some kind ->
     permits_kind zone kind = true) ->
  db_ok (assign (uuid_to_string id) [SetZoneId (z_id zone)] d).
Proof.
  intros [H1 H2 [L1 L2 L3 L4] H4] Hzone Hper.
  set (f := fun v => if has_id (uuid_to_string id) (dr_id v) then set_columns [SetZoneId (z_id zone)] v else v).
  assert (Hid : forall v, dr_id (f v) = dr_id v) by (intros v; unfold f; by destruct (has_id _ _)).
  split; try done.
  - apply devices_map; [done | | done]. intros v. unfold f. by destruct (has_id _ _).
  - split; simpl.
    + intros ? (v & -> & Hv)%list_elem_of_fmap. fold f. unfold f. destruct (has_id _ _); [by exists zone | by apply L1].
    + done.
    + intros r (v & Hv & E)%L3. exists (f v). split; [by apply list_elem_of_fmap_2 | by rewrite Hid].
    + intros r ? z kind Hr (v & -> & Hv)%list_elem_of_fmap. fold (f v). rewrite Hid. intros Hrv Hz Hzid Hk.
      unfold f in Hzid. rewrite has_id_string in Hzid. destruct (Z.eqb_spec (dr_id v) id) as [E|E].
      * simpl in Hzid. assert (z = zone) as -> by (by apply (same_key z_id (t_zones d)); [apply H1|..]).
        apply (Hper r kind); [done | congruence | done].
      * by apply (L4 r v z kind).
Qed.

Lemma dev_insert_ok v d : db_ok d ->
  existsb (fun x => (dr_id x =? dr_id v) || bool_decide (dr_mac x = dr_mac v)) (t_devices d) = false ->
  existsb (fun z => z_id z =? dr_zone_id v) (t_zones d) = true -> to_lowercase (dr_mac v) = dr_mac v ->
  db_ok (set_devices (t_devices d ++ [v]) d).
Proof.
  intros [H1 [V1 V2 V3] [L1 L2 L3 L4] H4] Hnew Hz Hlow.
  assert (Hfresh : forall x, x ∈ t_devices d -> dr_id x <> dr_id v /\ dr_mac x <> dr_mac v).
  { intros x Hx. pose proof (existsb_false _ _ Hnew x Hx) as H. apply orb_false_iff in H as [Ha Hb].
    split; [by apply Z.eqb_neq | by apply bool_decide_eq_false in Hb]. }
  apply existsb_exists in Hz as (z0 & Hz0%list_elem_of_In & Ez0%Z.eqb_eq).
  assert (Hin : forall x, x ∈ t_devices d ++ [v] -> x ∈ t_devices d \/ x = v) by set_solver.
  split; try done.
  - split; simpl; [apply NoDup_fmap_snoc; [done|]; intros; by apply Hfresh.. |].
    intros x [Hx| ->]%Hin; [by apply V3 | done].
  - split; simpl.
    + intros x [Hx| ->]%Hin; [by apply L1 | by exists z0].
    + done.
    + intros r (x & Hx & E)%L3. exists x. split; [apply elem_of_app; by left | done].
    + intros r x z kind Hr [Hx| ->]%Hin Hid; [by apply L4|]. exfalso.
      destruct (L3 r Hr) as (x & Hx & E). destruct (Hfresh x Hx) as [Hne _]. congruence.
Qed.

Lemma keep_devices_ok keep d : db_ok d -> db_ok (keep_devices keep d).
Proof.
  intros [H1 [V1 V2 V3] [L1 L2 L3 L4] H4]. split; try done.
  - split; simpl; [by apply NoDup_fmap_filter.. |]. intros v [_ Hv]%list_elem_of_filter. by apply V3.
  - split; simpl.
    + intros v [_ Hv]%list_elem_of_filter. by apply L1.
    + by apply NoDup_fmap_filter.
    + intros r [Hg Hr]%list_elem_of_filter. destruct (L3 r Hr) as (v & Hv & E). exists v.
      split; [|done]. apply list_elem_of_filter. split; [|done].
      pose proof (existsb_false _ _ Hg v Hv) as Hk. simpl in Hk. rewrite E, Z.eqb_refl, andb_true_r in Hk.
      by apply negb_false_iff.
    + intros r v z kind [_ Hr]%list_elem_of_filter [_ Hv]%list_elem_of_filter. by apply L4.
Qed.

(** *** Rules *)

Lemma rules_filter_ok (P : RoutingRule -> Prop) `{!forall r, Decision (P r)} d : db_ok d ->
  db_ok (set_rule_rows (filter P (t_rules d)) d).
Proof.
  intros [H1 H2 [L1 L2 L3 L4] H4]. split; try done. split; simpl; [done | by apply NoDup_fmap_filter | |].
  - intros r [_ Hr]%list_elem_of_filter. by apply L3.
  - intros r v z kind [_ Hr]%list_elem_of_filter. by apply L4.
Qed.

Definition upserted (v : DeviceRow) (target : RoutingTarget) (l : list RoutingRule) : list RoutingRule :=
  if existsb (fun r => rr_device_id r =? dr_id v) l
  then (fun r => if rr_device_id r =? dr_id v
                 then {| rr_device_id := rr_device_id r; rr_target := target;
                         rr_created_by := rr_created_by r |} else r) <$> l
  else l ++ [{| rr_device_id := dr_id v; rr_target := target; rr_created_by := CreatedByUser |}].

(** Where a row of the new table comes from. *)
Lemma upserted_elem v target l r : r ∈ upserted v target l ->
  (r ∈ l /\ rr_device_id r <> dr_id v) \/ (rr_device_id r = dr_id v /\ rr_target r = target).
Proof.
  unfold upserted. destruct (existsb _ l) eqn:E.
  - intros (r0 & -> & Hr0)%list_elem_of_fmap. destruct (Z.eqb_spec (rr_device_id r0) (dr_id v)); [by right | by left].
  - intros [Hr| ->%list_elem_of_singleton]%elem_of_app; [left | by right].
    split; [done|]. pose proof (existsb_false _ _ E r Hr) as H. by apply Z.eqb_neq.
Qed.

Lemma upsert_ok v target d : db_ok d -> v ∈ t_devices d ->
  (forall z kind, z ∈ t_zones d -> z_id z = dr_zone_id v -> of_target target = Some kind -> permits_kind z kind = true) ->
  db_ok (set_rule_rows (upserted v target (t_rules d)) d).
Proof.
  intros [H1 H2 [L1 L2 L3 L4] H4] Hv Hper. split; try done. split; simpl; [done | | |].
  - unfold upserted. destruct (existsb _ _) eqn:E.
    + rewrite fmap_key; [done|]. intros r. by destruct (_ =? _).
    + apply NoDup_fmap_snoc; [done|]. intros r Hr. simpl. pose proof (existsb_false _ _ E r Hr). by apply Z.eqb_neq.
  - intros r [[Hr _]|[-> _]]%upserted_elem; [by apply L3 | by exists v].
  - intros r x z kind [[Hr _]|[Hid ->]]%upserted_elem Hx Hxr Hz Hzid Hk; [by apply (L4 r x z kind)|].
    assert (x = v) as -> by (apply (same_key dr_id (t_devices d)); [apply H2 | done | done | congruence]).
    by apply (Hper z kind).
Qed.

(** *** Zones *)

(** Replacing the zones by a map that keeps ids, and targets where rules need them. *)
Lemma links_zones_map f d : (forall z, z_id (f z) = z_id z) -> links_ok d ->
  (forall r v z kind, r ∈ t_rules d -> v ∈ t_devices d -> dr_id v = rr_device_id r -> z ∈ t_zones d ->
     z_id z = dr_zone_id v -> of_target (rr_target r) = Some kind -> permits_kind (f z) kind = true) ->
  links_ok (set_zones (f <$> t_zones d) d).
Proof.
  intros Hi [L1 L2 L3 L4] Hper. split; simpl; [|done|done|].
  - intros v (z & Hz & E)%L1. exists (f z). split; [by apply list_elem_of_fmap_2 | by rewrite Hi].
  - intros r v ? kind Hr Hv Hid (z & -> & Hz)%list_elem_of_fmap. rewrite Hi. intros. by apply (Hper r v z kind).
Qed.

Lemma zone_insert_ok z d : db_ok d -> existsb (zone_clash z) (t_zones d) = false ->
  z_is_default z = false -> z_is_default_for_new z = false ->
  validate_targets_and_subnet (z_allowed_targets z) (z_subnet z) = Ok tt -> db_ok (set_zones (t_zones d ++ [z]) d).
Proof.
  intros [[Z1 Z2 Z3 Z4 Z5] [V1 V2 V3] [L1 L2 L3 L4] H4] Hnew Hd Hn Hv.
  assert (Hfresh : forall x, x ∈ t_zones d -> z_id x <> z_id z /\ z_name x <> z_name z).
  { intros x Hx. pose proof (existsb_false _ _ Hnew x Hx) as H. unfold zone_clash in H.
    rewrite !orb_false_iff in H. destruct H as [[[Ha Hb] _] _].
    split; [by apply Z.eqb_neq | by apply bool_decide_eq_false in Hb]. }
  split; try done.
  - split; simpl; [apply NoDup_fmap_snoc; [done|]; intros; by apply Hfresh.. | | |].
    + rewrite defaults_app, Z3. unfold defaults. simpl. by rewrite Hd.
    + rewrite defaults_app, Z4. unfold defaults. simpl. by rewrite Hn.
    + intros x [Hx| ->%list_elem_of_singleton]%elem_of_app; [by apply Z5 | done].
  - split; simpl; [|done|done|].
    + intros v (x & Hx & E)%L1. exists x. split; [apply elem_of_app; by left | done].
    + intros r v x kind Hr Hv' Hid [Hx| ->%list_elem_of_singleton]%elem_of_app Hx2 Hk; [by apply (L4 r v x kind)|].
      exfalso. destruct (L1 v Hv') as (x & Hx & E). destruct (Hfresh x Hx) as [Hne _]. congruence.
Qed.

Lemma zone_update_ok z d : db_ok d -> (exists x, x ∈ t_zones d /\ z_id x = z_id z) ->
  existsb (fun x => z_id x =? z_id z) (t_zones d)
    && existsb (fun x => negb (z_id x =? z_id z) && bool_decide (z_name x = z_name z)) (t_zones d) = false ->
  validate_targets_and_subnet (z_allowed_targets z) (z_subnet z) = Ok tt ->
  (forall r v kind, r ∈ t_rules d -> v ∈ t_devices d -> dr_id v = rr_device_id r -> dr_zone_id v = z_id z ->
     of_target (rr_target r) = Some kind -> permits_kind z kind = true) ->
  db_ok (set_zones ((fun x => if z_id x =? z_id z then zone_assign z x else x) <$> t_zones d) d).
Proof.
  intros [[Z1 Z2 Z3 Z4 Z5] HV HL H4] (x0 & Hx0 & Ex0) Hclash Hval Hper.
  assert (Hn : forall x, x ∈ t_zones d -> z_id x <> z_id z -> z_name x <> z_name z).
  { intros x Hx Hne E. replace (existsb (fun x => z_id x =? z_id z) (t_zones d)) with true in Hclash.
    - pose proof (existsb_false _ _ Hclash x Hx) as H. simpl in H.
      rewrite (proj2 (Z.eqb_neq _ _) Hne) in H. by apply bool_decide_eq_false in H.
    - symmetry. apply existsb_exists. exists x0. rewrite <- list_elem_of_In. by rewrite Ex0, Z.eqb_refl. }
  set (f := fun x => if z_id x =? z_id z then zone_assign z x else x).
  assert (Hid : forall x, z_id (f x) = z_id x) by (intros x; unfold f; by destruct (_ =? _)).
  split; try done.
  - split; simpl.
    + by rewrite fmap_key.
    + apply NoDup_alt. intros i j nm Hi Hj. rewrite !list_lookup_fmap in Hi, Hj.
      apply fmap_Some in Hi as (xi' & Hi & ->). apply fmap_Some in Hi as (xi & Hi & ->).
      apply fmap_Some in Hj as (xj' & Hj & Ej). apply fmap_Some in Hj as (xj & Hj & ->).
      pose proof (list_elem_of_lookup_2 _ _ _ Hi) as Hi'. pose proof (list_elem_of_lookup_2 _ _ _ Hj) as Hj'.
      cut (z_id xi = z_id xj).
      { intros E. eapply (NoDup_lookup (z_id <$> t_zones d)); [done | rewrite list_lookup_fmap; by rewrite Hi |].
        rewrite list_lookup_fmap, Hj. simpl. by rewrite E. }
      unfold f in Ej.
      destruct (Z.eqb_spec (z_id xi) (z_id z)) as [Ei|Ei], (Z.eqb_spec (z_id xj) (z_id z)) as [Ej'|Ej'];
        simpl in Ej; [congruence | destruct (Hn xj Hj' Ej'); congruence | destruct (Hn xi Hi' Ei); congruence |].
      f_equal. by apply (same_key z_name (t_zones d)).
    + rewrite defaults_map; [done|]. intros x. unfold f. by destruct (_ =? _).
    + rewrite defaults_map; [done|]. intros x. unfold f. by destruct (_ =? _).
    + intros ? (x & -> & Hx)%list_elem_of_fmap. unfold f. destruct (_ =? _); [done | by apply Z5].
  - apply (links_zones_map f); [done | done |]. intros r v x kind Hr Hv Hrv Hx Hxv Hk. unfold f.
    destruct (Z.eqb_spec (z_id x) (z_id z)); [|by apply (lo_permitted d HL r v x kind)].
    apply (Hper r v kind); [done.. | congruence | done].
Qed.

Lemma zone_delete_ok id d z : db_ok d -> z ∈ t_zones d -> z_id z = id -> z_is_default z = false ->
  z_is_default_for_new z = false ->
  existsb (fun z => has_id (uuid_to_string id) (z_id z) && existsb (fun v => dr_zone_id v =? z_id z) (t_devices d))
    (t_zones d) = false ->
  db_ok (set_zones (filter (fun z => has_id (uuid_to_string id) (z_id z) = false) (t_zones d)) d).
Proof.
  intros [[Z1 Z2 Z3 Z4 Z5] HV [L1 L2 L3 L4] H4] Hz <- Hd Hn Href.
  assert (Hcount : forall flag, flag z = false -> forall l, (forall x, x ∈ l -> z_id x = z_id z -> x = z) ->
    defaults flag (filter (fun x => has_id (uuid_to_string (z_id z)) (z_id x) = false) l) = defaults flag l).
  { intros flag Hf l. induction l as [|x l IH]; intros Hl; [done|]. rewrite filter_cons, has_id_string.
    unfold defaults in *. cbn [List.filter]. destruct (Z.eqb_spec (z_id x) (z_id z)) as [E|E].
    - rewrite decide_False by done. rewrite (Hl x ltac:(set_solver) E), Hf. apply IH. set_solver.
    - rewrite decide_True by done. cbn [List.filter].
      destruct (flag x); cbn [length]; rewrite IH by set_solver; done. }
  assert (Hsame : forall x, x ∈ t_zones d -> z_id x = z_id z -> x = z)
    by (intros x Hx E; by apply (same_key z_id (t_zones d))).
  split; try done.
  - split; simpl; [by apply NoDup_fmap_filter.. | by rewrite Hcount | by rewrite Hcount |].
    intros x [_ Hx]%list_elem_of_filter. by apply Z5.
  - split; simpl; [|done|done|].
    + intros v Hv. destruct (L1 v Hv) as (x & Hx & E). exists x. split; [|done].
      apply list_elem_of_filter. split; [|done]. pose proof (existsb_false _ _ Href x Hx) as H. simpl in H.
      destruct (has_id _ (z_id x)); [|done]. simpl in H. pose proof (existsb_false _ _ H v Hv) as H'.
      simpl in H'. by rewrite E, Z.eqb_refl in H'.
    + intros r v x kind Hr Hv Hid [_ Hx]%list_elem_of_filter. by apply L4.
Qed.

(** Either flag moves; the other, and everything else, stays. *)
Lemma move_flag_ok (set_flag : bool -> NetworkZone -> NetworkZone) id d l :
  (set_flag = with_default \/ set_flag = with_default_for_new) -> db_ok d ->
  move_flag set_flag (uuid_to_string id) (t_zones d) = Some l -> db_ok (set_zones l d).
Proof.
  intros Hset [[Z1 Z2 Z3 Z4 Z5] HV HL H4] Hl.
  assert (Hl' : exists f, l = f <$> t_zones d /\ (forall z, exists b, f z = set_flag b (set_flag false z) \/ f z = set_flag false z)).
  { unfold move_flag in Hl. destruct (existsb _ _); [|done]. injection Hl as <-.
    exists (fun z => if has_id (uuid_to_string id) (z_id (set_flag false z)) then set_flag true (set_flag false z) else set_flag false z).
    rewrite <- list_fmap_compose. split; [done|]. intros z. exists true. destruct (has_id _ _); [by left | by right]. }
  destruct Hl' as (f & -> & Hf).
  assert (Hkeep : forall {A} (g : NetworkZone -> A), (forall b z, g (set_flag b z) = g z) -> forall z, g (f z) = g z).
  { intros A g Hg z. destruct (Hf z) as (b & [->| ->]); by rewrite ?Hg. }
  assert (Hid : forall b z, z_id (set_flag b z) = z_id z) by (by destruct Hset as [->| ->]).
  assert (Hnm : forall b z, z_name (set_flag b z) = z_name z) by (by destruct Hset as [->| ->]).
  assert (Hat : forall b z, z_allowed_targets (set_flag b z) = z_allowed_targets z) by (by destruct Hset as [->| ->]).
  assert (Hsn : forall b z, z_subnet (set_flag b z) = z_subnet z) by (by destruct Hset as [->| ->]).
  split; try done.
  - split; simpl.
    + rewrite fmap_key; [done|]. by apply Hkeep.
    + rewrite fmap_key; [done|]. by apply Hkeep.
    + destruct Hset as [->| ->].
      * apply (moved_flag_count z_is_default with_default id (t_zones d)); try done.
      * rewrite defaults_map; [done|]. by apply Hkeep.
    + destruct Hset as [->| ->].
      * rewrite defaults_map; [done|]. by apply Hkeep.
      * apply (moved_flag_count z_is_default_for_new with_default_for_new id (t_zones d)); try done.
    + intros ? (z & -> & Hz)%list_elem_of_fmap.
      rewrite (Hkeep _ z_allowed_targets) by done. rewrite (Hkeep _ z_subnet) by done. by apply Z5.
  - apply links_zones_map; [by apply Hkeep | done |]. intros r v z kind Hr Hv Hrv Hz Hzv Hk.
    unfold permits_kind. rewrite (Hkeep _ z_allowed_targets) by done. by apply (lo_permitted d HL r v z kind).
Qed.

(** *** Exceptions, settings, events *)

Lemma exceptions_set_ok l d : exceptions_ok l -> db_ok d -> db_ok (set_exceptions l d).
Proof. intros Hl [? ? [? ? ? ?] ?]. by split. Qed.
Lemma config_set_ok m d : db_ok d -> db_ok (set_config m d).
Proof. intros [? ? [? ? ? ?] ?]. by split. Qed.
Lemma dns_events_set_ok l d : db_ok d -> db_ok (set_dns_events l d).
Proof. intros [? ? [? ? ? ?] ?]. by split. Qed.

Lemma exception_insert_ok e l : exceptions_ok l -> existsb (fun x => ze_id x =? ze_id e) l = false ->
  exception_ok e -> exceptions_ok (l ++ [e]).
Proof.
  intros [H1 H2] Hnew He. split.
  - apply NoDup_fmap_snoc; [done|]. intros x Hx. pose proof (existsb_false _ _ Hnew x Hx). by apply Z.eqb_neq.
  - intros x [Hx| ->%list_elem_of_singleton]%elem_of_app; [by apply H2 | done].
Qed.

Lemma exception_update_ok e l : exceptions_ok l -> exception_ok e ->
  exceptions_ok ((fun x => if ze_id x =? ze_id e then e else x) <$> l).
Proof.
  intros [H1 H2] He. split.
  - rewrite fmap_key; [done|]. intros x. by destruct (Z.eqb_spec (ze_id x) (ze_id e)).
  - intros ? (x & -> & Hx)%list_elem_of_fmap. destruct (_ =? _); [done | by apply H2].
Qed.

Lemma exception_delete_ok (P : ZoneException -> Prop) `{!forall e, Decision (P e)} l :
  exceptions_ok l -> exceptions_ok (filter P l).
Proof.
  intros [H1 H2]. split; [by apply NoDup_fmap_filter|]. intros x [_ Hx]%list_elem_of_filter. by apply H2.
Qed.

(** ** The helpers of the services: what a successful one has found out *)

Abbreviation post A := (result A AppError -> PolicyDb -> Prop).

Lemma elem_of_newest v l : v ∈ newest_first l <-> v ∈ l.
Proof. apply elem_of_sort_by. Qed.

Lemma wp_require_zone id (Q : post NetworkZone) d : (forall e, Q (Err e) d) ->
  (forall z, z ∈ t_zones d -> z_id z = id -> Q (Ok z) d) -> wp (require_zone id) Q d.
Proof.
  intros He Hok. unfold require_zone, zone_find_by_id. repeat wp_head; try apply He.
  destruct (List.find _ _) as [z|] eqn:E; simpl; [|apply He].
  apply find_elem in E as [Hz Hid]. rewrite has_id_string in Hid. apply Hok; [done | by apply Z.eqb_eq].
Qed.

Lemma wp_device_by_id id (Q : post (option DeviceRow)) d : (forall e, Q (Err e) d) -> Q (Ok None) d ->
  (forall v, v ∈ t_devices d -> has_id id (dr_id v) = true -> Q (Ok (Some (into_device v))) d) ->
  wp (repo (dev_find_by_id id)) Q d.
Proof.
  intros He Hn Hok. unfold dev_find_by_id. repeat wp_head; try apply He.
  destruct (List.find _ _) as [v|] eqn:E; simpl; [|done]. apply find_elem in E as [Hv Hid]. by apply Hok.
Qed.

Lemma wp_policy_or_direct (Q : post str) d : (forall e, Q (Err e) d) -> (forall p, Q (Ok p) d) ->
  wp policy_or_direct Q d.
Proof. intros He Hok. unfold policy_or_direct, cfg_get_default_policy, cfg_get. repeat wp_head; auto. Qed.

Lemma resolved_concrete policy target kind : of_target target = Some kind -> resolved_kind policy target = kind.
Proof. by destruct target; intros [= <-]. Qed.

Lemma wp_current_rule_kind id (Q : post (option AllowedTargetKind)) d : NoDup (rr_device_id <$> t_rules d) ->
  (forall e, Q (Err e) d) ->
  (forall k, (forall r kind, r ∈ t_rules d -> rr_device_id r = id -> of_target (rr_target r) = Some kind -> k = Some kind) ->
     Q (Ok k) d) ->
  wp (current_rule_kind (uuid_to_string id)) Q d.
Proof.
  intros Hnd He Hok. unfold current_rule_kind, dev_find_rule_for_device, rule_of_device.
  apply wp_bind, wp_repo, wp_select; [intros; apply He|].
  destruct (List.find _ _) as [r0|] eqn:E.
  - apply find_elem in E as [Hr0 Hid0]. rewrite has_id_string in Hid0. apply Z.eqb_eq in Hid0.
    assert (Hsame : forall r, r ∈ t_rules d -> rr_device_id r = id -> r = r0)
      by (intros r Hr Hid; apply (same_key rr_device_id (t_rules d)); congruence).
    destruct (rr_target r0) eqn:Et.
    1,2: apply wp_ret, Hok; intros r kind Hr Hid Hk; rewrite (Hsame r Hr Hid), Et in Hk; f_equal;
      by apply resolved_concrete.
    apply wp_bind, wp_policy_or_direct; [apply He|]. intros p. apply wp_ret, Hok.
    intros r kind Hr Hid Hk. by rewrite (Hsame r Hr Hid), Et in Hk.
  - apply wp_ret, Hok. intros r kind Hr Hid _. exfalso.
    pose proof (find_none _ _ E r) as H. rewrite <- list_elem_of_In in H. specialize (H Hr). simpl in H.
    by rewrite Hid, has_id_string, Z.eqb_refl in H.
Qed.

Lemma check_rules_spec policy members allowed rules : check_rules policy members allowed rules = Ok tt ->
  forall r kind, r ∈ rules -> uuid_to_string (rr_device_id r) ∈ members ->
    of_target (rr_target r) = Some kind -> kind ∈ allowed.
Proof.
  induction rules as [|r0 rules IH]; simpl; [set_solver|].
  destruct (decide (uuid_to_string (rr_device_id r0) ∈ members)) as [Hm|Hm].
  - rewrite (bool_decide_true _ Hm). simpl. case_bool_decide as Ha; simpl; [|done]. intros Hr r kind.
    intros [->|Hin]%elem_of_cons Hmem Hk; [|by apply (IH Hr r)]. by rewrite (resolved_concrete _ _ _ Hk) in Ha.
  - rewrite (bool_decide_false _ Hm). simpl. intros Hr r kind [->|Hin]%elem_of_cons Hmem Hk; [done | by apply (IH Hr r)].
Qed.

Lemma wp_members_conform id allowed (Q : post unit) d : (forall e, Q (Err e) d) ->
  ((forall r v kind, r ∈ t_rules d -> v ∈ t_devices d -> dr_id v = rr_device_id r -> dr_zone_id v = id ->
      of_target (rr_target r) = Some kind -> kind ∈ allowed) -> Q (Ok tt) d) ->
  wp (assert_members_conform id allowed) Q d.
Proof.
  intros He Hok. unfold assert_members_conform, dev_find_all.
  apply wp_bind, wp_repo, wp_select; [intros; apply He|]. cbv zeta beta.
  set (members := _ <$> _).
  assert (Hmem : forall v, v ∈ t_devices d -> dr_zone_id v = id -> uuid_to_string (dr_id v) ∈ members).
  { intros v Hv Hz. apply list_elem_of_fmap. exists (into_device v). split; [done|].
    apply list_elem_of_In, filter_In. split; [|by apply Z.eqb_eq].
    apply list_elem_of_In, list_elem_of_fmap_2, elem_of_newest, Hv. }
  case_bool_decide as Hempty.
  - apply wp_ret, Hok. intros r v kind _ Hv _ Hz. specialize (Hmem v Hv Hz). rewrite Hempty in Hmem. set_solver.
  - apply wp_bind, wp_policy_or_direct; [apply He|]. intros p. unfold dev_find_all_rules.
    apply wp_bind, wp_repo, wp_select; [intros; apply He|]. apply wp_lift.
    destruct (check_rules p members allowed (t_rules d)) as [[]|e] eqn:E; [|apply He].
    apply Hok. intros r v kind Hr Hv Hid Hz Hk.
    apply (check_rules_spec _ _ _ _ E r kind); [done | rewrite <- Hid; by apply Hmem | done].
Qed.

Lemma wp_name_available name excl (Q : post unit) d : (forall e, Q (Err e) d) -> Q (Ok tt) d ->
  wp (ensure_name_available name excl) Q d.
Proof. intros He Hok. unfold ensure_name_available, zone_find_all. repeat wp_head; auto. Qed.

Lemma wp_endpoint e (Q : post unit) d : (forall e, Q (Err e) d) -> Q (Ok tt) d -> wp (assert_endpoint_exists e) Q d.
Proof. intros He Hok. unfold assert_endpoint_exists, dev_find_by_id, zone_find_by_id. repeat wp_head; auto. Qed.

Lemma wp_validate from to_ service (Q : post unit) d : (forall e, Q (Err e) d) ->
  ((forall id b, exception_ok {| ze_id := id; ze_from := from; ze_to := to_; ze_service := service;
                                 ze_bidirectional := b |}) -> Q (Ok tt) d) ->
  wp (validate from to_ service) Q d.
Proof.
  intros He Hok. unfold validate. case_bool_decide as Hne; [by apply wp_fail|].
  destruct (wide_open service && _) eqn:Hw; [by apply wp_fail|].
  apply wp_bind, wp_endpoint; [done|]. apply wp_bind, wp_endpoint; [done|]. apply wp_lift.
  destruct (validate_service service) as [[]|e] eqn:Ev; [|done]. apply Hok. intros id b.
  split; [done|]. split; [done|]. simpl. intros Hwide. rewrite Hwide in Hw. simpl in Hw.
  apply orb_false_iff in Hw as [Ha Hb]. rewrite negb_false_iff, bool_decide_eq_true in Ha, Hb. done.
Qed.

(** ** Every call keeps the invariant *)

#[local] Hint Resolve assign_ok batch_ok rules_filter_ok config_set_ok dns_events_set_ok keep_devices_ok : policy.

Lemma create_zone_ok ctx fresh req d : db_ok d -> wp (create_zone ctx fresh req) (fun _ => db_ok) d.
Proof.
  intros Hd. unfold create_zone. apply wp_bind, wp_lift. destruct (require_admin ctx); [|done].
  apply wp_bind, wp_lift. destruct (validate_targets_and_subnet _ _) as [[]|] eqn:Ev; [|done].
  apply wp_bind, wp_name_available; [done|]. apply wp_bind, wp_repo, wp_checked; [done|]. intros d'.
  destruct (existsb _ _) eqn:Ec; [done|]. intros [= <-]. wp_run. by apply zone_insert_ok.
Qed.

Lemma wp_set_default id d : db_ok d -> wp (zone_set_default (uuid_to_string id)) (fun _ => db_ok) d.
Proof.
  intros Hd. apply wp_checked; [done|]. intros d'. destruct (move_flag _ _ _) as [l|] eqn:El; [|done].
  intros [= <-]. apply (move_flag_ok with_default id d l); [by left | done | done].
Qed.

Lemma wp_set_default_for_new id d : db_ok d -> wp (zone_set_default_for_new (uuid_to_string id)) (fun _ => db_ok) d.
Proof.
  intros Hd. apply wp_checked; [done|]. intros d'. destruct (move_flag _ _ _) as [l|] eqn:El; [|done].
  intros [= <-]. apply (move_flag_ok with_default_for_new id d l); [by right | done | done].
Qed.

Lemma update_zone_ok ctx id req d : db_ok d -> wp (update_zone ctx id req) (fun _ => db_ok) d.
Proof.
  intros Hd. unfold update_zone. apply wp_bind, wp_lift. destruct (require_admin ctx); [|done].
  destruct (_ || _); [by apply wp_fail|]. apply wp_bind, wp_require_zone; [done|]. intros z Hz Hid.
  apply wp_bind. apply (wp_conseq _ (fun _ d' => d' = d)).
  { unfold check_new_name. repeat (wp_head || apply wp_name_available); done. }
  intros [[]|e] d' ->; [|done]. apply wp_bind, wp_lift.
  destruct (validate_targets_and_subnet _ _) as [[]|] eqn:Ev; [|done]. cbv zeta.
  apply wp_bind. apply (wp_conseq _ (fun r d' => d' = d /\ (r = Ok tt -> forall r v kind, r ∈ t_rules d ->
    v ∈ t_devices d -> dr_id v = rr_device_id r -> dr_zone_id v = id -> of_target (rr_target r) = Some kind ->
    permits_kind (apply_update req z) kind = true))).
  { apply wp_when; intros Ht.
    - apply wp_members_conform; [done|]. intros H. split; [done|]. intros _ r v kind Hr Hv Hrv Hvz Hk.
      apply bool_decide_eq_true. by apply (H r v kind).
    - apply bool_decide_eq_false, eq_None_not_Some in Ht. split; [done|]. intros _ r v kind Hr Hv Hrv Hvz Hk.
      pose proof (lo_permitted d (ok_links d Hd) r v z kind Hr Hv Hrv Hz ltac:(congruence) Hk) as Hp.
      unfold permits_kind, apply_update in *. simpl. by rewrite Ht. }
  intros [[]|e] d' [-> Hper]; [specialize (Hper eq_refl)|done].
  apply wp_bind, wp_repo, wp_checked; [done|]. intros d1. destruct (_ && _) eqn:Ec; [done|]. intros [= <-].
  match goal with |- wp _ _ ?dd => assert (H1 : db_ok dd); [|revert H1; generalize dd; intros d1 H1] end.
  { apply (zone_update_ok (apply_update req z)); [done | by exists z | done | done |]. intros r v kind Hr Hv Hrv Hvz Hk.
    apply (Hper r v kind); try done. by rewrite Hvz. }
  apply wp_bind, (wp_conseq _ (fun _ => db_ok)).
  { apply wp_when; intros _; [|done]. apply wp_repo. by apply wp_set_default. }
  intros [[]|e] d2 H2; [|done]. apply wp_bind, (wp_conseq _ (fun _ => db_ok)).
  { apply wp_when; intros _; [|done]. apply wp_repo. by apply wp_set_default_for_new. }
  intros [[]|e] d3 H3; [|done]. apply wp_bind, wp_publish. destruct (_ || _); [|by apply wp_ret].
  by apply wp_require_zone.
Qed.

Lemma delete_zone_ok ctx id d : db_ok d -> wp (delete_zone ctx id) (fun _ => db_ok) d.
Proof.
  intros Hd. unfold delete_zone. apply wp_bind, wp_lift. destruct (require_admin ctx); [|done].
  apply wp_bind, wp_require_zone; [done|]. intros z Hz Hid.
  case_bool_decide; [by apply wp_fail|]. destruct (z_is_default z) eqn:E1; [by apply wp_fail|].
  destruct (z_is_default_for_new z) eqn:E2; [by apply wp_fail|]. unfold zone_count_members, zone_delete.
  wp_run; try done. match goal with H : (if _ then _ else _) = Ok _ |- _ => revert H end.
  destruct (existsb _ _) eqn:Er; [done|]. intros [= <-]. by apply (zone_delete_ok id d z).
Qed.

Lemma set_default_ok ctx id d : db_ok d -> wp (set_default ctx id) (fun _ => db_ok) d.
Proof.
  intros Hd. unfold set_default. apply wp_bind, wp_lift. destruct (require_admin ctx); [|done].
  apply wp_bind, wp_require_zone; [done|]. intros z _ _.
  apply wp_bind, wp_repo. eapply wp_conseq; [by apply wp_set_default|]. intros [[]|e] d' Hd'; [by apply wp_publish | done].
Qed.

Lemma set_default_for_new_ok ctx id d : db_ok d -> wp (set_default_for_new ctx id) (fun _ => db_ok) d.
Proof.
  intros Hd. unfold set_default_for_new. apply wp_bind, wp_lift. destruct (require_admin ctx); [|done].
  apply wp_bind, wp_require_zone; [done|]. intros z _ _.
  apply wp_bind, wp_repo. eapply wp_conseq; [by apply wp_set_default_for_new|]. intros [[]|e] d' Hd'; [by apply wp_publish | done].
Qed.

Lemma assign_device_ok ctx device zone d : db_ok d -> wp (assign_device ctx device zone) (fun _ => db_ok) d.
Proof.
  intros Hd. unfold assign_device. apply wp_bind, wp_lift. destruct (require_admin ctx); [|done].
  apply wp_bind, wp_device_by_id; [done | by apply wp_bind, wp_lift |]. intros v Hv Hvid.
  apply wp_bind, wp_lift. simpl. apply wp_bind, wp_require_zone; [done|]. intros z Hz Hzid.
  destruct (_ =? _); [by apply wp_ret|].
  apply wp_bind, wp_current_rule_kind; [apply Hd | done |]. intros k Hk.
  apply wp_bind, (wp_conseq _ (fun r d' => d' = d /\ (r = Ok tt -> forall r kind, r ∈ t_rules d ->
    rr_device_id r = device -> of_target (rr_target r) = Some kind -> permits_kind z kind = true))).
  { destruct k as [k|].
    - destruct (permits_kind z k) eqn:Ep; simpl; [apply wp_ret | by apply wp_fail].
      split; [done|]. intros _ r kind Hr Hid Ht. specialize (Hk r kind Hr Hid Ht). congruence.
    - apply wp_ret. split; [done|]. intros _ r kind Hr Hid Ht. by specialize (Hk r kind Hr Hid Ht). }
  intros [[]|e] d' [-> Hper]; [specialize (Hper eq_refl)|done].
  unfold dev_assign_zone. apply wp_bind, wp_repo, wp_stmt; [done|].
  destruct (_ && _); [done|]. simpl.
  assert (Hd2 : db_ok (assign (uuid_to_string device) [SetZoneId zone] d))
    by (rewrite <- Hzid; by apply assign_zone_ok).
  unfold dev_set_managed. wp_run.
Qed.

Lemma create_exception_ok ctx fresh req d : db_ok d -> wp (create_exception ctx fresh req) (fun _ => db_ok) d.
Proof.
  intros Hd. unfold create_exception. apply wp_bind, wp_lift. destruct (require_admin ctx); [|done].
  apply wp_bind, wp_validate; [done|]. intros He. cbv zeta.
  apply wp_bind, wp_repo, wp_checked; [done|]. intros d'. destruct (existsb _ _) eqn:Ec; [done|]. intros [= <-].
  apply wp_bind, (wp_conseq _ (fun _ => db_ok)).
  - apply wp_iter.
    + intros x d' Hd'. unfold promote_endpoint, dev_set_managed. wp_run.
    + apply exceptions_set_ok; [|done]. by apply exception_insert_ok; [apply Hd|..].
  - intros [[]|e] d' Hd'; wp_run.
Qed.

Lemma update_exception_ok ctx id req d : db_ok d -> wp (update_exception ctx id req) (fun _ => db_ok) d.
Proof.
  intros Hd. unfold update_exception, require_exception, exc_find_by_id. apply wp_bind, wp_lift.
  destruct (require_admin ctx); [|done]. apply wp_bind, wp_bind, wp_repo, wp_select; [done|].
  destruct (List.find _ _) as [e|]; simpl; [|by apply wp_lift]. apply wp_lift. simpl.
  apply wp_bind, wp_validate; [done|]. intros He. apply wp_bind, wp_repo, wp_execute; [done|].
  wp_run; (apply exceptions_set_ok; [|done]; apply exception_update_ok; [apply Hd | apply He]).
Qed.

Lemma delete_exception_ok ctx id d : db_ok d -> wp (delete_exception ctx id) (fun _ => db_ok) d.
Proof.
  intros Hd. unfold delete_exception, require_exception, exc_find_by_id, exc_delete.
  wp_run. apply exceptions_set_ok; [|done]. apply exception_delete_ok, Hd.
Qed.

(** *** The device service *)

Lemma wp_validate_target v target (Q : post unit) d : NoDup (z_id <$> t_zones d) -> (forall e, Q (Err e) d) ->
  ((forall z kind, z ∈ t_zones d -> z_id z = dr_zone_id v -> of_target target = Some kind ->
      permits_kind z kind = true) -> Q (Ok tt) d) ->
  wp (validate_target_against_zone v target) Q d.
Proof.
  intros Hnd He Hok. unfold validate_target_against_zone. apply wp_bind.
  apply (wp_conseq _ (fun r d' => d' = d /\ match r with
    Ok k => forall kind, of_target target = Some kind -> k = kind | Err _ => True end)).
  { unfold resolve_target_kind. destruct (of_target target) as [k|] eqn:Et.
    - apply wp_ret. split; [done|]. congruence.
    - apply wp_bind, wp_policy_or_direct; [done|]. intros p. apply wp_ret. done. }
  intros [k|e] d' [-> Hk]; [|apply He]. unfold zone_find_by_id.
  apply wp_bind, wp_repo, wp_select; [done|]. apply wp_bind, wp_lift.
  destruct (List.find _ _) as [z|] eqn:E; simpl; [|apply He].
  apply find_elem in E as [Hz Hid]. rewrite has_id_string in Hid. apply Z.eqb_eq in Hid.
  destruct (permits_kind z k) eqn:Ep; simpl; [|by apply wp_fail]. apply wp_ret, Hok.
  intros z' kind Hz' Hid' Ht. rewrite <- (Hk kind Ht).
  by rewrite (same_key z_id (t_zones d) z' z Hnd Hz' Hz ltac:(congruence)).
Qed.

Lemma wp_upsert v id target (Q : result unit str -> PolicyDb -> Prop) d : db_ok d -> v ∈ t_devices d ->
  has_id id (dr_id v) = true ->
  (forall z kind, z ∈ t_zones d -> z_id z = dr_zone_id v -> of_target target = Some kind -> permits_kind z kind = true) ->
  (forall e, Q (Err e) d) -> (forall d', db_ok d' -> Q (Ok tt) d') -> wp (dev_upsert_user_rule id target) Q d.
Proof.
  intros Hd Hv Hid Hper He Hok. unfold dev_upsert_user_rule. apply wp_checked; [done|]. intros d'.
  destruct (List.find _ _) as [v'|] eqn:E; [|done]. apply find_elem in E as [Hv' Hid'].
  unfold has_id in Hid, Hid'. rewrite bool_decide_eq_true in Hid, Hid'.
  assert (v' = v) as -> by (apply (same_key dr_id (t_devices d)); [apply Hd | done | done |];
    apply (inj uuid_to_string); congruence).
  intros [= <-]. by apply Hok, upsert_ok.
Qed.

Lemma set_rule_for_ip_ok ctx ip target d : db_ok d -> wp (set_rule_for_ip ctx ip target) (fun _ => db_ok) d.
Proof.
  intros Hd. unfold set_rule_for_ip, device_at_ip, dev_find_by_ip. apply wp_bind, wp_bind, wp_repo.
  case_bool_decide; [by apply wp_ret, wp_lift|]. apply wp_select; [done|]. apply wp_lift.
  destruct (head _) as [v|] eqn:Eh; simpl; [|done].
  assert (Hv : v ∈ t_devices d).
  { destruct (newest_first _) as [|x l] eqn:En; [done|]. injection Eh as <-.
    assert (Hx : x ∈ newest_first (List.filter (fun v => bool_decide (dr_last_ip v = ip)) (t_devices d)))
      by (rewrite En; apply list_elem_of_here).
    apply elem_of_newest, list_elem_of_In, filter_In in Hx as [Hx _]. by apply list_elem_of_In. }
  apply wp_bind, wp_lift. destruct (check_device_mutation_auth _ _ _); [|done].
  apply wp_bind, wp_validate_target; [apply Hd | done |]. simpl. intros Hper. unfold dev_find_rule_for_device.
  apply wp_bind, wp_repo, wp_select; [done|]. apply wp_bind, wp_repo.
  apply (wp_upsert v); [done | done | by rewrite has_id_string, Z.eqb_refl | done | done |]. intros d' Hd'. wp_run.
Qed.

Lemma set_rule_ok ctx id target d : db_ok d -> wp (set_rule ctx id target) (fun _ => db_ok) d.
Proof.
  intros Hd. unfold set_rule, device_with_id. apply wp_bind, wp_bind, wp_device_by_id; [done | by apply wp_lift |].
  intros v Hv Hid. apply wp_lift. simpl. apply wp_bind, wp_lift. destruct (check_device_mutation_auth _ _ _); [|done].
  apply wp_bind, wp_validate_target; [apply Hd | done |]. simpl. intros Hper. unfold dev_find_rule_for_device.
  apply wp_bind, wp_repo, wp_select; [done|]. apply wp_bind, wp_repo.
  apply (wp_upsert v); [done.. |]. intros d' Hd'. unfold dev_set_managed. wp_run.
Qed.

(** ** Histories *)

(** A call of one of the three services. *)
Inductive PolicyCall : Type :=
| CallListZones | CallGetZone (id : Uuid)
| CallCreateZone (fresh : Uuid) (req : CreateNetworkZoneRequest)
| CallUpdateZone (id : Uuid) (req : UpdateNetworkZoneRequest)
| CallDeleteZone (id : Uuid) | CallSetDefault (id : Uuid) | CallSetDefaultForNew (id : Uuid)
| CallAssignDevice (device_id zone_id : Uuid)
| CallGetQuarantine | CallSetQuarantine (enabled : bool)
| CallListExceptions | CallGetException (id : Uuid)
| CallCreateException (fresh : Uuid) (req : CreateZoneExceptionRequest)
| CallUpdateException (id : Uuid) (req : UpdateZoneExceptionRequest)
| CallDeleteException (id : Uuid)
| CallDeviceForIp (ip : str) | CallSetRuleForIp (ip : str) (target : RoutingTarget)
| CallSetRule (device_id : str) (target : RoutingTarget)
| CallCurrentRules | CallRuleForDevice (device_id : str)
| CallUpdateAdminLocked (device_id : str) (locked : bool)
| CallSetOwner (device_id : str) (owner : option Uuid)
| CallGetCapture (device_id : str)
| CallUpdateCapture (device_id : str) (enabled : option bool) (cap_count cap_days : option Z)
| CallSetMyCapture (ip : str) (enabled : bool)
| CallFetchEvents (device_id : str) (after_id limit : Z) | CallAckEvents (device_id : str) (up_to_id : Z)
| CallListCaptureIds | CallDeviceCapture (device_id : str) | CallGetDevice (device_id : str)
| CallClearRemote (device_id : str)
| CallClearRule (target_from_json : str -> option RoutingTarget) (device_id : str)
| CallMarkManaged (device_id : str) | CallClearManaged (device_id : str).

Definition run_call (ctx : option AuthContext) (c : PolicyCall) (w : Policy) : Policy :=
  match c with
  | CallListZones => snd (list_zones ctx w) | CallGetZone id => snd (get_zone ctx id w)
  | CallCreateZone fresh req => snd (create_zone ctx fresh req w)
  | CallUpdateZone id req => snd (update_zone ctx id req w)
  | CallDeleteZone id => snd (delete_zone ctx id w)
  | CallSetDefault id => snd (set_default ctx id w)
  | CallSetDefaultForNew id => snd (set_default_for_new ctx id w)
  | CallAssignDevice device zone => snd (assign_device ctx device zone w)
  | CallGetQuarantine => snd (get_quarantine_new_devices ctx w)
  | CallSetQuarantine b => snd (set_quarantine_new_devices ctx b w)
  | CallListExceptions => snd (list_exceptions ctx w) | CallGetException id => snd (get_exception ctx id w)
  | CallCreateException fresh req => snd (create_exception ctx fresh req w)
  | CallUpdateException id req => snd (update_exception ctx id req w)
  | CallDeleteException id => snd (delete_exception ctx id w)
  | CallDeviceForIp ip => snd (get_device_for_ip ip w)
  | CallSetRuleForIp ip target => snd (set_rule_for_ip ctx ip target w)
  | CallSetRule id target => snd (set_rule ctx id target w)
  | CallCurrentRules => snd (current_rules ctx w)
  | CallRuleForDevice id => snd (get_rule_for_device ctx id w)
  | CallUpdateAdminLocked id b => snd (update_admin_locked ctx id b w)
  | CallSetOwner id o => snd (set_device_owner ctx id o w)
  | CallGetCapture id => snd (get_dns_capture_settings ctx id w)
  | CallUpdateCapture id e c t => snd (update_dns_capture_settings ctx id e c t w)
  | CallSetMyCapture ip b => snd (set_my_capture_enabled ctx ip b w)
  | CallFetchEvents id a l => snd (fetch_pending_dns_events ctx id a l w)
  | CallAckEvents id n => snd (ack_dns_events ctx id n w)
  | CallListCaptureIds => snd (list_capture_enabled_device_ids ctx w)
  | CallDeviceCapture id => snd (get_device_capture_settings ctx id w)
  | CallGetDevice id => snd (get_device id w)
  | CallClearRemote id => snd (clear_remote_connection_mode id w)
  | CallClearRule json id => snd (clear_rule ctx json id w)
  | CallMarkManaged id => snd (mark_managed ctx id w)
  | CallClearManaged id => snd (clear_managed ctx id w)
  end.

Lemma wp_snd {X} (m : Svc X) (P : PolicyDb -> Prop) w : wp m (fun _ => P) (po_db w) -> P (po_db (snd (m w))).
Proof. intros H. by apply (H w). Qed.

Lemma capture_columns (e : option bool) (c t : option Z) : forallb keeps_zone
  (option_list (SetDnsCaptureEnabled <$> e) ++ option_list (SetDnsCaptureCapCount <$> c)
   ++ option_list (SetDnsCaptureCapDays <$> t)) = true.
Proof. by destruct e, c, t. Qed.
#[local] Hint Resolve capture_columns : policy.

Lemma run_call_ok ctx c w : db_ok (po_db w) -> db_ok (po_db (run_call ctx c w)).
Proof.
  intros Hd. destruct c; simpl; apply wp_snd;
    first [ by apply create_zone_ok | by apply update_zone_ok | by apply delete_zone_ok | by apply set_default_ok
          | by apply set_default_for_new_ok | by apply assign_device_ok | by apply create_exception_ok
          | by apply update_exception_ok | by apply delete_exception_ok | by apply set_rule_for_ip_ok
          | by apply set_rule_ok | plain_call ].
  all: cbn [snd]; try (destruct (_ && _)); cbn [snd]; auto with policy.
Qed.

End invariant.
