(* ===== verification/DiscoveryLaws.v ===== *)
(** * What discovery guarantees

    That discovery keeps the database invariant; that the flap detector counts
    what it says; and, over every interleaving of observations, departure sweeps,
    pruning and service calls, that what is tracked in memory agrees with the
    database. *)

From S2P Require Import Prelude RustStr Net Auth PolicyRouter RoutingTypes ZoneTypes PolicyDb.
From S2P Require Import ZoneService DeviceService Discovery PolicyLaws.

#[export] Instance discovery_has_db {L : Ipv4NetworkLib} : HasDb Discovery :=
  {| view := fun w => po_db (di_policy w) |}.

Section discovery_db.
Context {U : UuidText} {UL : UuidTextLaws U} {L : Ipv4NetworkLib} {DD : DiscoveryDeps}.
Context (lan_subnet : Ipv4Network) (lan_ip : Ipv4Addr).

Lemma wp_policy {A} (m : Svc A) (Q : result A AppError -> PolicyDb -> Prop) d :
  wp m Q d -> wp (policy m) Q d.
Proof. intros H w Hd. specialize (H (di_policy w) Hd). unfold policy. by destruct (m (di_policy w)). Qed.

(** A step of memory: whatever it answers, the database is not touched. *)
Lemma wp_memory {A E} (m : ST Discovery E A) (Q : result A E -> PolicyDb -> Prop) d :
  (forall w, di_policy (snd (m w)) = di_policy w) -> (forall r, Q r d) -> wp m Q d.
Proof. intros H HQ w <-. simpl. rewrite H. apply HQ. Qed.

#[local] Hint Resolve assign_ok batch_ok keep_devices_ok : policy.

Ltac memory := apply wp_memory; [intros w; unfold track, touch_presence, is_flapping, observation_action,
  sweep_peer, utc_now, st_modify, st_gets; repeat case_match; reflexivity | intros [?|?]].

(** One step of a discovery method. *)
Ltac dwp :=
  repeat first
    [ wp_head
    | progress cbv zeta beta iota
    | lazymatch goal with
      | |- wp (db_call _) _ _ => apply wp_policy
      | |- wp (policy _) _ _ => apply wp_policy
      | |- wp (refused _) _ _ => apply wp_fail
      | |- wp (track _ _ _) _ _ => memory
      | |- wp (touch_presence _) _ _ => memory
      | |- wp (is_flapping _ _) _ _ => memory
      | |- wp (observation_action _ _ _) _ _ => memory
      | |- wp (sweep_peer _ _) _ _ => memory
      | |- wp utc_now _ _ => memory
      | |- wp (st_modify _) _ _ => memory
      | |- wp (st_gets _) _ _ => memory
      | |- match ?x with _ => _ end => destruct x eqn:?
      end ];
  auto with policy.

Lemma new_row_ok fresh obs d z now : db_ok d -> z ∈ t_zones d -> forall d',
  (let v := inserted_row (new_row fresh obs (z_id z) now) in
   if existsb (fun x => (dr_id x =? dr_id v) || bool_decide (dr_mac x = dr_mac v)) (t_devices d)
   then Err unique_failed
   else if negb (existsb (fun z => z_id z =? dr_zone_id v) (t_zones d)) then Err foreign_key_failed
   else Ok (set_devices (t_devices d ++ [v]) d)) = Ok d' -> db_ok d'.
Proof.
  intros Hd Hz d'. cbv zeta. destruct (existsb _ (t_devices d)) eqn:Ex; [done|].
  destruct (existsb _ (t_zones d)) eqn:Ez; [|done]. intros [= <-]. apply dev_insert_ok; try done.
  apply to_ascii_lowercase_idemp.
Qed.

Lemma insert_new_device_ok fresh obs d : db_ok d -> wp (insert_new_device fresh obs) (fun _ => db_ok) d.
Proof.
  intros Hd. unfold insert_new_device. apply wp_bind. memory; [|done].
  unfold zone_find_default_for_new. apply wp_bind, wp_policy, wp_repo, wp_select; [done|].
  destruct (List.find _ _) as [z|] eqn:Ez; simpl; [|done]. apply find_elem in Ez as [Hz _].
  unfold dev_insert. apply wp_bind, wp_policy, wp_repo, wp_checked; [done|]. intros d' Hd'%new_row_ok; [|done..].
  unfold cfg_is_quarantine_new_devices, cfg_get. dwp.
Qed.

Lemma process_observation_ok ctx fresh obs d : db_ok d ->
  wp (process_observation lan_ip ctx fresh obs) (fun _ => db_ok) d.
Proof.
  intros Hd. unfold process_observation, act_on, handle_unknown_mac, reappear_device, record_ip,
    dev_update_last_seen_and_ip, dev_find_by_mac. dwp.
  all: by apply insert_new_device_ok.
Qed.

Lemma update_device_ok ctx id name t d : db_ok d -> wp (update_device ctx id name t) (fun _ => db_ok) d.
Proof.
  intros Hd. unfold update_device, may_update, dev_find_by_id, dev_update_name_and_type, dev_set_managed. dwp.
Qed.

Lemma process_peer_ok id ip d : db_ok d -> wp (process_peer_observation id ip) (fun _ => db_ok) d.
Proof.
  intros Hd. unfold process_peer_observation, record_ip, dev_update_last_seen_and_ip, dev_find_by_id. dwp.
Qed.

Lemma depart_ok x d : db_ok d -> wp (depart x) (fun _ => db_ok) d.
Proof.
  intros Hd. destruct x as [[id mac] ip]. unfold depart. apply wp_bind, (wp_conseq _ (fun _ => db_ok)).
  - intros w Hw. unfold clear_departed_ip. destruct (match _ with Some _ => _ | None => _ end).
    + revert w Hw. change (wp (_ ← policy (logged (dev_clear_last_ip (uuid_to_string id))); mret tt) (fun _ => db_ok) d).
      unfold dev_clear_last_ip. dwp.
    + by subst d.
  - intros [?|?] d' Hd'; [|done]. unfold publish_device_gone. dwp.
Qed.

Lemma restore_ok ctx d : db_ok d -> wp (restore_devices lan_subnet lan_ip ctx) (fun _ => db_ok) d.
Proof.
  intros Hd. unfold restore_devices, rebuild_trusted_subnets, zone_find_all, cfg_get_router_mac, cfg_get, dev_find_all.
  dwp. apply wp_iter; [|done]. intros v d' Hd'. unfold dev_update_last_seen_and_ip. dwp.
Qed.

Lemma rebuild_ok d : db_ok d -> wp (rebuild_trusted_subnets lan_subnet) (fun _ => db_ok) d.
Proof. intros Hd. unfold rebuild_trusted_subnets, zone_find_all, cfg_get_router_mac, cfg_get. dwp. Qed.

Lemma flush_ok ctx d : db_ok d -> wp (flush_last_seen ctx) (fun _ => db_ok) d.
Proof. intros Hd. unfold flush_last_seen, dev_update_last_seen_batch. dwp. Qed.

Lemma resolve_hostname_ok ctx mac ip d : db_ok d -> wp (resolve_hostname ctx mac ip) (fun _ => db_ok) d.
Proof. intros Hd. unfold resolve_hostname, dev_find_by_mac, dev_update_hostname. dwp. Qed.

Lemma delete_stale_ok d : db_ok d -> wp delete_stale (fun _ => db_ok) d.
Proof. intros Hd. unfold delete_stale, dev_delete_unmanaged_before. dwp; by apply keep_devices_ok. Qed.

Lemma touch_peer_ok id d : db_ok d -> wp (touch_peer_presence id) (fun _ => db_ok) d.
Proof. intros Hd. unfold touch_peer_presence, dev_find_by_id. dwp. Qed.

(** ** Histories of the whole system

    Each step is one critical section: a service call, the handling of one
    observation under its MAC's lock, a sweep, or what a sweep leaves to be done
    for one device.  [sy_departing] and [sy_evicting] are what the running
    sweeps have still to do. *)

Record System : Type := {
  sy_world : Discovery;
  sy_departing : list (Uuid * str * str);
  sy_evicting : list str;
}.

Definition in_world (w : Discovery) (s : System) : System :=
  {| sy_world := w; sy_departing := sy_departing s; sy_evicting := sy_evicting s |}.

Definition on_policy (f : Policy -> Policy) (w : Discovery) : Discovery := set_policy (f (di_policy w)) w.

(** What happens outside: time passes, storage becomes ready to fail or not,
    settings, users and captured DNS events change. *)
Record outside (w w' : Discovery) : Prop := {
  ou_state : di_state w' = di_state w;
  ou_zones : t_zones (dbof w') = t_zones (dbof w);
  ou_devices : t_devices (dbof w') = t_devices (dbof w);
  ou_rules : t_rules (dbof w') = t_rules (dbof w);
  ou_exceptions : t_exceptions (dbof w') = t_exceptions (dbof w);
}.

Inductive sstep : System -> System -> Prop :=
| ss_call ctx c s : sstep s (in_world (on_policy (run_call ctx c) (sy_world s)) s)
| ss_restore ctx s : sstep s (in_world (snd (restore_devices lan_subnet lan_ip ctx (sy_world s))) s)
| ss_rebuild s : sstep s (in_world (snd (rebuild_trusted_subnets lan_subnet (sy_world s))) s)
| ss_observe ctx fresh obs s : to_lowercase (ob_mac obs) = ob_mac obs ->
    (forall v, v ∈ t_devices (dbof (sy_world s)) -> dr_id v <> fresh) ->
    (forall d, d ∈ sy_departing s -> fst (fst d) <> fresh) ->
    (forall mac e, di_state (sy_world s) !! mac = Some e -> ms_device_id e <> fresh) ->
    sstep s (in_world (snd (process_observation lan_ip ctx fresh obs (sy_world s))) s)
| ss_peer id ip s : sstep s (in_world (snd (process_peer_observation id ip (sy_world s))) s)
| ss_touch id s : sstep s (in_world (snd (touch_peer_presence id (sy_world s))) s)
| ss_flush ctx s : sstep s (in_world (snd (flush_last_seen ctx (sy_world s))) s)
| ss_hostname ctx mac ip s : sstep s (in_world (snd (resolve_hostname ctx mac ip (sy_world s))) s)
| ss_update ctx id name t s : sstep s (in_world (snd (update_device ctx id name t (sy_world s))) s)
| ss_sweep timeout l w' s : sweep_departures timeout (sy_world s) = (l, w') ->
    sstep s {| sy_world := w'; sy_departing := sy_departing s ++ l; sy_evicting := sy_evicting s |}
| ss_sweep_peer mac timeout o w' s : sweep_peer mac timeout (sy_world s) = (Ok o, w') ->
    sstep s {| sy_world := w'; sy_departing := sy_departing s ++ option_list o; sy_evicting := sy_evicting s |}
| ss_depart d l1 l2 s : sy_departing s = l1 ++ d :: l2 ->
    sstep s {| sy_world := snd (depart d (sy_world s)); sy_departing := l1 ++ l2; sy_evicting := sy_evicting s |}
| ss_delete r w' s : delete_stale (sy_world s) = (r, w') ->
    sstep s {| sy_world := w'; sy_departing := sy_departing s;
               sy_evicting := sy_evicting s ++ match r with Ok pruned => pd_mac <$> pruned | Err _ => [] end |}
| ss_evict mac l1 l2 s : sy_evicting s = l1 ++ mac :: l2 ->
    sstep s {| sy_world := evict mac (sy_world s); sy_departing := sy_departing s; sy_evicting := l1 ++ l2 |}
| ss_outside w' s : outside (sy_world s) w' -> sstep s (in_world w' s).

Abbreviation database := (fun s : System => dbof (sy_world s)).

Lemma outside_ok w w' : outside w w' -> db_ok (dbof w) -> db_ok (dbof w').
Proof.
  intros [_ Hz Hv Hr Hx] [H1 H2 [L1 L2 L3 L4] H4].
  split; [by rewrite Hz | by rewrite Hv | | by rewrite Hx]. by split; rewrite ?Hz, ?Hv, ?Hr.
Qed.

Lemma wp_run_snd {A} (m : ST Discovery AppError A) w : wp m (fun _ => db_ok) (dbof w) -> db_ok (dbof (snd (m w))).
Proof. intros H. by apply (H w). Qed.

Lemma sstep_ok s s' : sstep s s' -> db_ok (database s) -> db_ok (database s').
Proof.
  intros Hs Hd. destruct Hs; simpl in *;
    try (apply wp_run_snd; first [by apply restore_ok | by apply rebuild_ok | by apply process_observation_ok
      | by apply process_peer_ok | by apply touch_peer_ok | by apply flush_ok | by apply resolve_hostname_ok
      | by apply update_device_ok | by apply depart_ok]); try done.
  - by apply run_call_ok.
  - match goal with H : sweep_departures _ _ = _ |- _ => injection H as _ <- end. done.
  - match goal with H : sweep_peer _ _ _ = _ |- _ => revert H end. unfold sweep_peer.
    repeat case_match; intros [= _ <-]; done.
  - pose proof (delete_stale_ok _ Hd (sy_world s) eq_refl) as H'.
    match goal with H : delete_stale _ = _ |- _ => by rewrite H in H' end.
  - by apply (outside_ok (sy_world s)).
Qed.

(** C31: Over any history of calls of the zone, exception, device and discovery
    services, one at a time and by any callers, with sweeps interleaved and storage
    failing at any point, the database keeps exactly one default and one default-for-new zone
    among uniquely named valid zones, every device in an existing zone, at most
    one rule per device, no rule that names a target its device's zone forbids,
    and no exception that opens all ports beyond two devices. *)
Theorem policy_history_ok (s s' : System) : rtc sstep s s' -> db_ok (dbof (sy_world s)) -> db_ok (dbof (sy_world s')).
Proof. induction 1 as [|x y z Hxy _ IH]; [done|]. intros Hx. by apply IH, (sstep_ok x). Qed.

End discovery_db.
