(* ===== verification/TrackingLaws.v ===== *)
(** * Memory and database agree on where devices are

    Symbolic execution of discovery on storage that answers, and the invariant of
    the tracking state over every interleaving of its critical sections. *)

From S2P Require Import Prelude RustStr Net Auth PolicyRouter RoutingTypes ZoneTypes PolicyDb.
From S2P Require Import ZoneService DeviceService Discovery PolicyLaws DiscoveryLaws.

Abbreviation Memory := (gmap str DeviceMemoryState).

(** Identity and address of every row. *)
Definition idents (d : PolicyDb) : list (Uuid * str * str) :=
  (fun v => (dr_id v, dr_mac v, dr_last_ip v)) <$> t_devices d.

Section symbolic.
Context {U : UuidText} {UL : UuidTextLaws U} {L : Ipv4NetworkLib} {DD : DiscoveryDeps}.

(** ** Symbolic execution *)

Definition faultless (w : Discovery) : Prop := po_faults (di_policy w) = [].

Definition twp {A} (m : ST Discovery AppError A) (Q : result A AppError -> Memory -> PolicyDb -> Prop)
    (st : Memory) (d : PolicyDb) : Prop :=
  forall w, faultless w -> di_state w = st -> dbof w = d ->
    faultless (snd (m w)) /\ Q (fst (m w)) (di_state (snd (m w))) (dbof (snd (m w))).

Lemma twp_bind {A B} (m : ST Discovery AppError A) (k : A -> ST Discovery AppError B) Q st d :
  twp m (fun r st d => match r with Ok a => twp (k a) Q st d | Err e => Q (Err e) st d end) st d ->
  twp (m ≫= k) Q st d.
Proof.
  intros Hm w Hf Hst Hd. specialize (Hm w Hf Hst Hd) as [Hf' Hm]. unfold mbind, st_bind.
  destruct (m w) as [[a|e] w']; simpl in *; [by apply Hm | done].
Qed.

Lemma twp_conseq {A} (m : ST Discovery AppError A) (Q Q' : result A AppError -> Memory -> PolicyDb -> Prop) st d :
  twp m Q st d -> (forall r st d, Q r st d -> Q' r st d) -> twp m Q' st d.
Proof. intros H HQ w Hf Hst Hd. destruct (H w Hf Hst Hd). eauto. Qed.

Lemma twp_ret {A} (a : A) (Q : result A AppError -> Memory -> PolicyDb -> Prop) st d : Q (Ok a) st d -> twp (mret a) Q st d.
Proof. intros HQ w Hf <- <-. done. Qed.

Lemma twp_lift {A} (r : result A AppError) Q st d : Q r st d -> twp (st_lift r) Q st d.
Proof. intros HQ w Hf <- <-. done. Qed.

Lemma twp_fail {A} (e : AppError) (Q : result A AppError -> Memory -> PolicyDb -> Prop) st d :
  Q (Err e) st d -> twp (st_fail e) Q st d.
Proof. intros HQ w Hf <- <-. done. Qed.

(** A computation that reads the world only, or changes what is not looked at here. *)
Lemma twp_other {A} (m : ST Discovery AppError A) (Q : result A AppError -> Memory -> PolicyDb -> Prop) st d :
  (forall w, di_policy (snd (m w)) = di_policy w) -> (forall w, di_state (snd (m w)) = di_state w) ->
  (forall w, di_state w = st -> Q (fst (m w)) st d) -> twp m Q st d.
Proof. intros H1 H2 HQ w Hf Hst <-. unfold faultless. simpl. rewrite H1, H2, Hst. split; [done | by apply HQ]. Qed.

Lemma stmt_run {X} (f : PolicyDb -> result X str * PolicyDb) p : po_faults p = [] ->
  stmt f p = (fst (f (po_db p)), set_db (snd (f (po_db p))) p).
Proof. intros H. unfold stmt. rewrite H. destruct (f (po_db p)) as [r d]. destruct p; simpl in *. by subst. Qed.

Lemma twp_stmt {X} (f : PolicyDb -> result X str * PolicyDb) Q st d :
  Q (match fst (f d) with Ok a => Ok a | Err e => Err (Internal e) end) st (snd (f d)) ->
  twp (db_call (stmt f)) Q st d.
Proof.
  intros HQ w Hf <- <-. unfold db_call, policy, repo. rewrite stmt_run by done.
  simpl in HQ. destruct (fst (f _)); by split.
Qed.

Lemma twp_checked (f : PolicyDb -> result PolicyDb str) (Q : result unit AppError -> Memory -> PolicyDb -> Prop) st d :
  (forall d', f d = Ok d' -> Q (Ok tt) st d') -> (forall e, f d = Err e -> Q (Err (Internal e)) st d) ->
  twp (db_call (execute_checked f)) Q st d.
Proof. intros H1 H2. apply twp_stmt. destruct (f d) as [d'|e] eqn:E; simpl; auto. Qed.

Lemma twp_publish (e : PolicyEvent) (Q : result unit AppError -> Memory -> PolicyDb -> Prop) st d :
  Q (Ok tt) st d -> twp (policy (publish e)) Q st d.
Proof. intros HQ w Hf <- <-. done. Qed.

Lemma twp_logged {X} (f : PolicyDb -> result X str * PolicyDb) Q st d :
  Q (Ok (match fst (f d) with Ok a => Some a | Err _ => None end)) st (snd (f d)) ->
  twp (policy (logged (stmt f))) Q st d.
Proof.
  intros HQ w Hf <- <-. unfold policy, logged. rewrite stmt_run by done.
  simpl in HQ. destruct (fst (f _)); by split.
Qed.

Lemma twp_track (mac : str) (id : Uuid) (ip : str) (Q : result unit AppError -> Memory -> PolicyDb -> Prop) st d :
  (forall now, Q (Ok tt) (<[mac := {| ms_device_id := id; ms_mac := mac; ms_last_ip := ip; ms_last_seen := now;
                                     ms_gone := false |}]> st) d) -> twp (track mac id ip) Q st d.
Proof. intros HQ w Hf <- <-. split; [done | apply HQ]. Qed.

Definition touched (now : Z) (mac : str) (st : Memory) : Memory :=
  match st !! mac with
  | Some e => if ms_gone e then st else <[mac := present_at now e]> st
  | None => st
  end.

Lemma twp_touch (mac : str) (Q : result unit AppError -> Memory -> PolicyDb -> Prop) st d :
  (forall now, Q (Ok tt) (touched now mac st) d) -> twp (touch_presence mac) Q st d.
Proof.
  intros HQ w Hf <- <-. specialize (HQ (di_instant w)). unfold touch_presence, st_modify, touched in *. simpl.
  destruct (di_state w !! mac) as [e|]; [destruct (ms_gone e)|]; by split.
Qed.

Lemma twp_action (mac ip : str) (unknown : option Uuid) (Q : result ObsAction AppError -> Memory -> PolicyDb -> Prop) st d :
  (forall now, match st !! mac with
    | Some e =>
        if ms_gone e then Q (Ok (ObsReappear (ms_device_id e) (ms_mac e))) (<[mac := moved_at now ip e]> st) d
        else if bool_decide (ms_last_ip e = ip)
        then Q (Ok (ObsJustSeen (ms_device_id e))) (<[mac := present_at now e]> st) d
        else Q (Ok (ObsIpChanged (ms_device_id e) (ms_mac e) (ms_last_ip e))) (<[mac := moved_at now ip e]> st) d
    | None => match unknown with
        | Some id => Q (Ok (ObsReappear id mac))
            (<[mac := {| ms_device_id := id; ms_mac := mac; ms_last_ip := ip; ms_last_seen := now;
                         ms_gone := false |}]> st) d
        | None => Q (Ok ObsUnknown) st d
        end
    end) -> twp (observation_action mac ip unknown) Q st d.
Proof.
  intros HQ w Hf <- <-. specialize (HQ (di_instant w)). unfold observation_action.
  destruct (di_state w !! mac) as [e|]; [|by destruct unknown].
  destruct (ms_gone e); [done|]. by destruct (bool_decide (ms_last_ip e = ip)).
Qed.

Lemma twp_iter {A} (body : A -> ST Discovery AppError unit) (I : Memory -> PolicyDb -> Prop) xs :
  (forall x st d, x ∈ xs -> I st d -> twp (body x) (fun _ => I) st d) ->
  forall st d, I st d -> twp (st_iter body xs) (fun _ => I) st d.
Proof.
  induction xs as [|x xs IH]; intros Hb st d HI; simpl; [by apply twp_ret|].
  apply twp_bind, (twp_conseq _ (fun _ => I)); [apply Hb; [left | done]|].
  intros [?|?] st' d' HI'; [|done]. apply IH; [|done]. intros y st1 d1 Hy. apply Hb. by right.
Qed.

End symbolic.

(** One step of a method. *)
Ltac twp_head :=
  lazymatch goal with
  | |- twp (_ ≫= _) _ _ _ => apply twp_bind
  | |- twp (mret _) _ _ _ => apply twp_ret
  | |- twp (st_lift _) _ _ _ => apply twp_lift
  | |- twp (st_fail _) _ _ _ => apply twp_fail
  | |- twp (refused _) _ _ _ => apply twp_fail
  | |- twp (db_call _) _ _ _ => apply twp_stmt; cbn [fst snd]
  | |- twp (policy (publish _)) _ _ _ => apply twp_publish
  | |- twp (policy (logged _)) _ _ _ => apply twp_logged; cbn [fst snd]
  | |- twp utc_now _ _ _ => apply twp_other; [done | done | intros ? _; cbn [fst utc_now st_gets]]
  | |- twp (st_gets _) _ _ _ => apply twp_other; [done | done | intros ? ?; cbn [fst st_gets]]
  | |- twp (st_modify _) _ _ _ => apply twp_other; [done | done | intros ? _; cbn [fst st_modify]]
  | |- twp (is_flapping _ _) _ _ _ => apply twp_other; [done | done | intros ? _; cbn [fst is_flapping]]
  | |- twp (if ?b then _ else _) _ _ _ => destruct b eqn:?
  | |- twp (match ?x with _ => _ end) _ _ _ => destruct x eqn:?
  | |- match ?x with _ => _ end => destruct x eqn:?
  end.

(** ** The invariant *)

Section agree.
Context {U : UuidText} {UL : UuidTextLaws U} {L : Ipv4NetworkLib}.

Definition bound (l : list (Uuid * str * str)) (id : Uuid) (mac : str) : Prop :=
  forall m ip, (id, m, ip) ∈ l -> m = mac.

(** The row of a device moved to [ip]. *)
Definition moved (id : Uuid) (ip : str) (l : list (Uuid * str * str)) : list (Uuid * str * str) :=
  (fun x => if fst (fst x) =? id then (fst x, ip) else x) <$> l.

(** What is tracked under a MAC names that MAC and no row of another one; every
    row of the MAC is that device's; and unless the row was just pruned, it is
    there, at the tracked address while the device is present.  A departure still
    to be handled names no row of another MAC. *)
Record agree (st : Memory) (l : list (Uuid * str * str)) (dep : list (Uuid * str * str)) (ev : list str)
    : Prop := {
  ag_mac mac e : st !! mac = Some e -> ms_mac e = mac;
  ag_bound mac e : st !! mac = Some e -> bound l (ms_device_id e) mac;
  ag_owner mac e id ip : st !! mac = Some e -> (id, mac, ip) ∈ l -> id = ms_device_id e;
  ag_row mac e : st !! mac = Some e -> mac ∉ ev ->
    exists ip, (ms_device_id e, mac, ip) ∈ l /\ (ms_gone e = false -> ip = ms_last_ip e);
  ag_departing id mac ip : (id, mac, ip) ∈ dep -> bound l id mac;
}.

Lemma elem_of_moved i m x id ip l : (i, m, x) ∈ moved id ip l <->
  exists y, (i, m, y) ∈ l /\ x = if i =? id then ip else y.
Proof.
  unfold moved. rewrite list_elem_of_fmap. split.
  - intros ([[i' m'] y] & H & Hy). simpl in H. destruct (i' =? id) eqn:E; injection H as -> -> ->;
      exists y; by rewrite E.
  - intros (y & Hy & ->). exists (i, m, y). simpl. by destruct (i =? id).
Qed.

Lemma bound_moved id ip l i m : bound l i m -> bound (moved id ip l) i m.
Proof. intros H m' x (y & Hy & _)%elem_of_moved. by apply (H m' y). Qed.

Lemma idents_assign id ip u d : (forall v, dr_last_ip (set_columns u v) = ip) ->
  idents (assign (uuid_to_string id) u d) = moved id ip (idents d).
Proof.
  intros Hu. unfold idents, moved, assign, assign_row. simpl. rewrite <- !list_fmap_compose.
  apply list_fmap_ext. intros k v _. simpl. rewrite has_id_string. destruct (dr_id v =? id); [|done].
  by rewrite set_columns_id, set_columns_mac, Hu.
Qed.

Lemma in_idents v d : v ∈ t_devices d -> (dr_id v, dr_mac v, dr_last_ip v) ∈ idents d.
Proof. intros H. by apply (list_elem_of_fmap_2 (fun v => (dr_id v, dr_mac v, dr_last_ip v))). Qed.

Lemma idents_inv id mac ip d : (id, mac, ip) ∈ idents d ->
  exists v, v ∈ t_devices d /\ dr_id v = id /\ dr_mac v = mac /\ dr_last_ip v = ip.
Proof. intros (v & [= -> -> ->] & Hv)%list_elem_of_fmap. by exists v. Qed.

(** The row of a MAC is one. *)
Lemma idents_mac d i j m x y : db_ok d -> (i, m, x) ∈ idents d -> (j, m, y) ∈ idents d -> i = j.
Proof.
  intros Hd (v & Hv & <- & Hm & <-)%idents_inv (u & Hu & <- & Hm' & <-)%idents_inv.
  f_equal. apply (same_key dr_mac (t_devices d)); [apply Hd | done | done | congruence].
Qed.

Lemma idents_bound d i m x : db_ok d -> (i, m, x) ∈ idents d -> bound (idents d) i m.
Proof.
  intros Hd (v & Hv & <- & Hm & <-)%idents_inv m' y (u & Hu & Hi & Hm' & <-)%idents_inv.
  assert (v = u) as -> by (apply (same_key dr_id (t_devices d)); [apply Hd | done | done | congruence]).
  congruence.
Qed.

(** An entry for a present device, and its row at the same address. *)
Lemma agree_seen st l dep ev mac e : agree st l dep ev -> ms_mac e = mac -> ms_gone e = false ->
  bound l (ms_device_id e) mac -> (forall id ip, (id, mac, ip) ∈ l -> id = ms_device_id e) ->
  (mac ∉ ev -> exists ip, (ms_device_id e, mac, ip) ∈ l) ->
  agree (<[mac := e]> st) (moved (ms_device_id e) (ms_last_ip e) l) dep ev.
Proof.
  intros [A1 A2 A3 A4 A5] Hm Hg Hb Ho Hr. split.
  - intros m x [[<- <-]|[_ Hx]]%lookup_insert_Some; [done | by apply A1].
  - intros m x [[<- <-]|[_ Hx]]%lookup_insert_Some; apply bound_moved; [done | by apply A2].
  - intros m x i ip Hx (y & Hy & _)%elem_of_moved. apply lookup_insert_Some in Hx as [[<- <-]|[_ Hx]];
      [by apply (Ho i y) | by apply (A3 m x i y)].
  - intros m x [[<- <-]|[Hne Hx]]%lookup_insert_Some Hev.
    + destruct (Hr Hev) as [y Hy]. exists (ms_last_ip e). split; [|done]. apply elem_of_moved.
      exists y. by rewrite Z.eqb_refl.
    + destruct (A4 m x Hx Hev) as (y & Hy & Hip). exists y. split; [|done]. apply elem_of_moved. exists y.
      split; [done|]. destruct (Z.eqb_spec (ms_device_id x) (ms_device_id e)) as [E|]; [|done].
      exfalso. apply Hne. symmetry. apply (Hb m y). by rewrite <- E.
  - intros i m x Hx. by apply bound_moved, (A5 i m x).
Qed.

(** An entry replaced by one of the same device that claims no more. *)
Lemma agree_entry st l dep ev mac e e' : agree st l dep ev -> st !! mac = Some e ->
  ms_device_id e' = ms_device_id e -> ms_mac e' = ms_mac e ->
  (ms_gone e' = false -> ms_gone e = false /\ ms_last_ip e' = ms_last_ip e) ->
  agree (<[mac := e']> st) l dep ev.
Proof.
  intros [A1 A2 A3 A4 A5] He Hi Hm Hg. split.
  - intros m x [[<- <-]|[_ Hx]]%lookup_insert_Some; [rewrite Hm|]; by apply A1.
  - intros m x [[<- <-]|[_ Hx]]%lookup_insert_Some; [rewrite Hi|]; by apply A2.
  - intros m x i ip [[<- <-]|[_ Hx]]%lookup_insert_Some; [rewrite Hi|]; by apply A3.
  - intros m x [[<- <-]|[_ Hx]]%lookup_insert_Some Hev; [|by apply A4].
    rewrite Hi. destruct (A4 mac e He Hev) as (y & Hy & Hip). exists y. split; [done|].
    intros [Hg1 Hl]%Hg. rewrite Hl. by apply Hip.
  - done.
Qed.

Lemma agree_touched now mac st l dep ev : agree st l dep ev -> agree (touched now mac st) l dep ev.
Proof.
  intros H. unfold touched. destruct (st !! mac) as [e|] eqn:E; [|done]. destruct (ms_gone e) eqn:Eg; [done|].
  by apply (agree_entry _ _ _ _ _ e).
Qed.

(** The address of a device that is not present is cleared. *)
Lemma agree_cleared st l dep ev id mac : agree st l dep ev -> bound l id mac ->
  (forall e, st !! mac = Some e -> ms_gone e = true) -> agree st (moved id [] l) dep ev.
Proof.
  intros [A1 A2 A3 A4 A5] Hb Hg. split.
  - done.
  - intros m x Hx. by apply bound_moved, A2.
  - intros m x i ip Hx (y & Hy & _)%elem_of_moved. by apply (A3 m x i y).
  - intros m x Hx Hev. destruct (A4 m x Hx Hev) as (y & Hy & Hip).
    destruct (Z.eqb_spec (ms_device_id x) id) as [E|E].
    + exists []. split; [apply elem_of_moved; exists y; rewrite <- E, Z.eqb_refl; done|].
      assert (m = mac) as -> by (apply (Hb m y); by rewrite <- E). by rewrite (Hg x Hx).
    + exists y. split; [|done]. apply elem_of_moved. exists y. by apply Z.eqb_neq in E as ->.
  - intros i m x Hx. by apply bound_moved, (A5 i m x).
Qed.

(** A row that no entry and no departure names, tracked at once. *)
Lemma agree_new st l dep ev id mac ip now : agree st l dep ev -> st !! mac = None ->
  (forall m x, (id, m, x) ∉ l) -> (forall i x, (i, mac, x) ∉ l) ->
  (forall m x, (id, m, x) ∉ dep) -> (forall m e, st !! m = Some e -> ms_device_id e <> id) ->
  agree (<[mac := {| ms_device_id := id; ms_mac := mac; ms_last_ip := ip; ms_last_seen := now;
                     ms_gone := false |}]> st) (l ++ [(id, mac, ip)]) dep ev.
Proof.
  intros [A1 A2 A3 A4 A5] Hn Hl Hm Hd Hs. split.
  - intros m x [[<- <-]|[_ Hx]]%lookup_insert_Some; [done | by apply A1].
  - intros m x Hx m' y [Hy|[= Hid -> _]%list_elem_of_singleton]%elem_of_app.
    + apply lookup_insert_Some in Hx as [[<- <-]|[_ Hx]]; [by destruct (Hl m' y) | by apply (A2 m x Hx m' y)].
    + apply lookup_insert_Some in Hx as [[<- <-]|[_ Hx]]; [done|]. by destruct (Hs m x).
  - intros m x i y Hx [Hy|[= -> -> ->]%list_elem_of_singleton]%elem_of_app.
    + apply lookup_insert_Some in Hx as [[<- <-]|[Hne Hx]]; [by destruct (Hm i y) | by apply (A3 m x i y)].
    + rewrite lookup_insert_eq in Hx. by injection Hx as <-.
  - intros m x [[<- <-]|[Hne Hx]]%lookup_insert_Some Hev.
    + exists ip. split; [|done]. apply elem_of_app. right. by left.
    + destruct (A4 m x Hx Hev) as (y & Hy & Hip). exists y. split; [|done]. apply elem_of_app. by left.
  - intros i m x Hx m' y [Hy|[= -> -> ->]%list_elem_of_singleton]%elem_of_app; [by apply (A5 i m x Hx m' y)|].
    by destruct (Hd m x).
Qed.

(** Rows pruned, their MACs still to be evicted. *)
Lemma agree_pruned st l l' dep ev macs : agree st l dep ev -> (forall x, x ∈ l' -> x ∈ l) ->
  (forall x, x ∈ l -> x ∈ l' \/ snd (fst x) ∈ macs) -> agree st l' dep (ev ++ macs).
Proof.
  intros [A1 A2 A3 A4 A5] Hsub Hall. split.
  - done.
  - intros m x Hx m' y Hy. by apply (A2 m x Hx m' y), Hsub.
  - intros m x i y Hx Hy. by apply (A3 m x i y Hx), Hsub.
  - intros m x Hx Hev. destruct (A4 m x Hx) as (y & Hy & Hip); [set_solver|]. exists y. split; [|done].
    destruct (Hall _ Hy) as [|Hm]; [done|]. simpl in Hm. set_solver.
  - intros i m x Hx m' y Hy. by apply (A5 i m x Hx m' y), Hsub.
Qed.

Lemma agree_evicted st l dep l1 mac l2 : agree st l dep (l1 ++ mac :: l2) ->
  agree (delete mac st) l dep (l1 ++ l2).
Proof.
  intros [A1 A2 A3 A4 A5]. split; try done.
  - intros m x [_ Hx]%lookup_delete_Some. by apply A1.
  - intros m x [_ Hx]%lookup_delete_Some. by apply A2.
  - intros m x i ip [_ Hx]%lookup_delete_Some. by apply A3.
  - intros m x [Hne Hx]%lookup_delete_Some Hev. apply A4; [done|]. set_solver.
Qed.

Lemma agree_handled st l l1 x l2 ev : agree st l (l1 ++ x :: l2) ev -> agree st l (l1 ++ l2) ev.
Proof. intros [A1 A2 A3 A4 A5]. split; try done. intros i m y Hy. apply (A5 i m y). set_solver. Qed.

Lemma agree_more st l dep dep' ev : agree st l dep ev ->
  (forall id mac ip, (id, mac, ip) ∈ dep' -> bound l id mac) -> agree st l (dep ++ dep') ev.
Proof.
  intros [A1 A2 A3 A4 A5] Hd. split; try done.
  intros i m x [Hx|Hx]%elem_of_app; [by apply (A5 i m x) | by apply (Hd i m x)].
Qed.

(** A row restored: its device is not present. *)
Lemma agree_restored st d dep ev v e : db_ok d -> agree st (idents d) dep ev -> v ∈ t_devices d ->
  ms_device_id e = dr_id v -> ms_mac e = dr_mac v -> ms_gone e = true ->
  agree (<[dr_mac v := e]> st) (idents d) dep ev.
Proof.
  intros Hd [A1 A2 A3 A4 A5] Hv Hi Hm Hg. pose proof (in_idents v d Hv) as Hid. split; try done.
  - intros m x [[<- <-]|[_ Hx]]%lookup_insert_Some; [done | by apply A1].
  - intros m x [[<- <-]|[_ Hx]]%lookup_insert_Some; [|by apply A2]. rewrite Hi. by eapply idents_bound.
  - intros m x i ip [[<- <-]|[_ Hx]]%lookup_insert_Some; [|by apply A3].
    intros Hip. rewrite Hi. by eapply idents_mac.
  - intros m x [[<- <-]|[_ Hx]]%lookup_insert_Some Hev; [|by apply A4]. rewrite Hi, Hg. by exists (dr_last_ip v).
Qed.

End agree.

(** ** Every critical section keeps it *)

(** Calls of the services leave identities and addresses alone. *)

Definition keeps_ip (a : Assignment) : bool := match a with SetLastIp _ => false | _ => true end.

Section calls.
Context {U : UuidText} {UL : UuidTextLaws U} {L : Ipv4NetworkLib}.

Lemma idents_kept id u d l : forallb keeps_ip u = true -> idents d = l -> idents (assign id u d) = l.
Proof.
  intros Hu <-. unfold idents, assign, assign_row. simpl. rewrite <- list_fmap_compose. apply list_fmap_ext.
  intros k v _. simpl. destruct (has_id id (dr_id v)); [|done]. rewrite set_columns_id, set_columns_mac.
  f_equal. apply set_columns_keeps, Forall_forall. intros a Ha x. rewrite forallb_forall in Hu.
  specialize (Hu a). rewrite <- list_elem_of_In in Hu. by destruct a; try done; specialize (Hu Ha).
Qed.

Lemma idents_batch updates d :
  idents (foldl (fun d '(id, last_seen) => assign id [SetLastSeen last_seen] d) d updates) = idents d.
Proof. revert d. induction updates as [|[id t] l IH]; intros d; [done|]. simpl. rewrite IH. by apply idents_kept. Qed.

#[local] Hint Resolve idents_kept : policy.

Lemma idents_capture (e : option bool) (c t : option Z) : forallb keeps_ip
  (option_list (SetDnsCaptureEnabled <$> e) ++ option_list (SetDnsCaptureCapCount <$> c)
   ++ option_list (SetDnsCaptureCapDays <$> t)) = true.
Proof. by destruct e, c, t. Qed.
#[local] Hint Resolve idents_capture : policy.

(** A conflict reported leaves the tables; otherwise they are as the statement says. *)
Ltac settle :=
  repeat match goal with
  | H : (if ?b then _ else _) = Ok _ |- _ => destruct b; try discriminate H
  | H : match ?b with _ => _ end = Ok _ |- _ => destruct b; try discriminate H
  | H : Ok _ = Ok _ |- _ => injection H as <-
  | |- context [if ?b then _ else _] => destruct b; cbn [snd]
  end; auto with policy.

Ltac frame :=
  repeat first
    [ wp_head | progress cbv zeta beta iota
    | lazymatch goal with |- match ?x with _ => _ end => destruct x eqn:? end ];
  settle.

(** The calls that write more than [plain_call] covers. *)
Ltac other_call :=
  unfold create_zone, update_zone, delete_zone, set_default, set_default_for_new, assign_device, check_new_name,
    ensure_name_available, require_zone, assert_members_conform, current_rule_kind,
    create_exception, update_exception, delete_exception, require_exception, validate, assert_endpoint_exists,
    promote_endpoint, set_rule, set_rule_for_ip, device_at_ip, device_with_id, may_modify,
    validate_target_against_zone, resolve_target_kind, policy_or_direct,
    dev_find_rule_for_device, dev_find_all_rules, cfg_get_default_policy, cfg_get,
    zone_find_by_id, zone_find_all, zone_insert, zone_update, zone_delete, zone_count_members, zone_set_default,
    zone_set_default_for_new, exc_find_by_id, exc_insert, exc_update, exc_delete,
    dev_find_by_id, dev_find_by_ip, dev_find_all, dev_assign_zone, dev_set_managed, dev_upsert_user_rule;
  cbn [st_iter]; frame.

Lemma run_call_idents ctx c w : idents (po_db (run_call ctx c w)) = idents (po_db w).
Proof.
  destruct c; simpl; apply (wp_snd _ (fun d => idents d = idents (po_db w)));
    first [ solve [other_call] | plain_call ].
  all: cbn [snd]; try (destruct (_ && _)); cbn [snd]; auto with policy.
Qed.

End calls.

Section tracking.
Context {U : UuidText} {UL : UuidTextLaws U} {L : Ipv4NetworkLib} {DD : DiscoveryDeps}.
Context (lan_subnet : Ipv4Network) (lan_ip : Ipv4Addr).

(** Runs a method rule by rule; what remains are the final states. *)
Ltac twp_run := repeat first [ twp_head | progress cbv zeta beta iota ].

(** Identities and memory as they were. *)
Abbreviation same st l := (fun _ st' d' => st' = st /\ idents d' = l).

Lemma frame_agree {A} (m : ST Discovery AppError A) w dep ev : faultless w ->
  twp m (same (di_state w) (idents (dbof w))) (di_state w) (dbof w) ->
  agree (di_state w) (idents (dbof w)) dep ev ->
  agree (di_state (snd (m w))) (idents (dbof (snd (m w)))) dep ev.
Proof. intros Hf H Ha. by destruct (H w Hf eq_refl eq_refl) as [_ [-> ->]]. Qed.

Lemma rebuild_same st d : twp (rebuild_trusted_subnets lan_subnet) (same st (idents d)) st d.
Proof.
  unfold rebuild_trusted_subnets, zone_find_all, cfg_get_router_mac, cfg_get, select. twp_run; simplify_eq; auto.
Qed.

Lemma hostname_same ctx mac ip st d : twp (resolve_hostname ctx mac ip) (same st (idents d)) st d.
Proof.
  unfold resolve_hostname, dev_find_by_mac, dev_update_hostname, select, execute. twp_run;
    simplify_eq/=; eauto using idents_kept.
Qed.

Lemma flush_same ctx st d : twp (flush_last_seen ctx) (same st (idents d)) st d.
Proof.
  unfold flush_last_seen, dev_update_last_seen_batch, execute. twp_run; simplify_eq/=; auto using idents_batch.
Qed.

Lemma update_same ctx id name t st d : twp (update_device ctx id name t) (same st (idents d)) st d.
Proof.
  unfold update_device, may_update, dev_find_by_id, dev_update_name_and_type, dev_set_managed, select, execute.
  twp_run; simplify_eq/=; eauto using idents_kept.
Qed.

Abbreviation agreeing dep ev := (fun _ st d => agree st (idents d) dep ev).

Lemma recorded id ip now mode d : idents (assign (uuid_to_string id)
  [SetLastSeen now; SetLastIp ip; SetConnectionMode mode] d) = moved id ip (idents d).
Proof. by apply idents_assign. Qed.

(** An address recorded for the tracked device. *)
Lemma agree_moved st d dep ev mac e now ip t mode : agree st (idents d) dep ev -> st !! mac = Some e ->
  agree (<[mac := moved_at now ip e]> st) (idents (assign (uuid_to_string (ms_device_id e))
    [SetLastSeen t; SetLastIp ip; SetConnectionMode mode] d)) dep ev.
Proof.
  intros Ha He. rewrite recorded. apply (agree_seen st _ dep ev mac (moved_at now ip e)); try done; simpl.
  - by apply (ag_mac _ _ _ _ Ha).
  - by apply (ag_bound _ _ _ _ Ha).
  - intros i x. by apply (ag_owner _ _ _ _ Ha).
  - intros Hev. destruct (ag_row _ _ _ _ Ha mac e He Hev) as (y & Hy & _). by exists y.
Qed.

(** A row found, its device not tracked. *)
Lemma agree_found st d dep ev v now ip t mode : db_ok d -> agree st (idents d) dep ev -> v ∈ t_devices d ->
  agree (<[dr_mac v := {| ms_device_id := dr_id v; ms_mac := dr_mac v; ms_last_ip := ip; ms_last_seen := now;
                          ms_gone := false |}]> st)
    (idents (assign (uuid_to_string (dr_id v)) [SetLastSeen t; SetLastIp ip; SetConnectionMode mode] d)) dep ev.
Proof.
  intros Hd Ha Hv. pose proof (in_idents v d Hv) as Hi. rewrite recorded.
  apply (agree_seen st _ dep ev (dr_mac v) {| ms_device_id := dr_id v; ms_mac := dr_mac v; ms_last_ip := ip;
    ms_last_seen := now; ms_gone := false |}); try done; simpl.
  - by apply (idents_bound d _ _ (dr_last_ip v)).
  - intros i x Hx. by apply (idents_mac d i (dr_id v) (dr_mac v) x (dr_last_ip v)).
  - intros _. by exists (dr_last_ip v).
Qed.

Lemma insert_agrees fresh obs st d dep ev : db_ok d -> agree st (idents d) dep ev ->
  to_lowercase (ob_mac obs) = ob_mac obs -> st !! ob_mac obs = None ->
  (forall v, v ∈ t_devices d -> dr_id v <> fresh) -> (forall d, d ∈ dep -> fst (fst d) <> fresh) ->
  (forall mac e, st !! mac = Some e -> ms_device_id e <> fresh) ->
  twp (insert_new_device fresh obs) (agreeing dep ev) st d.
Proof.
  intros Hd Ha Hl Hn F1 F2 F3. unfold insert_new_device, zone_find_default_for_new, select, dev_insert, execute_checked.
  do 4 twp_head. destruct (List.find _ _) as [z|]; simpl; [|done]. twp_head. twp_head. cbv zeta.
  destruct (existsb _ (t_devices d)) eqn:Ex; [done|]. destruct (negb _); [done|]. simpl.
  twp_head. apply twp_track. intros now. twp_head. twp_head. apply twp_bind.
  apply (twp_conseq _ (fun r st' d' => exists b, r = Ok b /\ st' = <[ob_mac obs := {| ms_device_id := fresh;
    ms_mac := ob_mac obs; ms_last_ip := ob_ip obs; ms_last_seen := now; ms_gone := false |}]> st /\
    idents d' = idents d ++ [(fresh, ob_mac obs, ob_ip obs)])).
  - intros w' Hf <- Hw. unfold policy, logged, cfg_is_quarantine_new_devices, cfg_get, select, mbind, st_bind.
    rewrite stmt_run by done. simpl. split; [done|]. eexists. split; [done|]. split; [done|].
    simpl in Hw. rewrite Hw. unfold idents. simpl. rewrite fmap_app. simpl. by rewrite Hl.
  - intros r st' d' (b & -> & -> & Hd').
    assert (H : agree (<[ob_mac obs := {| ms_device_id := fresh; ms_mac := ob_mac obs; ms_last_ip := ob_ip obs;
      ms_last_seen := now; ms_gone := false |}]> st) (idents d') dep ev); [|twp_run; done].
    rewrite Hd'. apply agree_new; try done.
    + intros m x (v & Hv & Hi & _)%idents_inv. by destruct (F1 v Hv).
    + intros i x (v & Hv & _ & Hm & _)%idents_inv. apply (existsb_false _ _ Ex) in Hv. simpl in Hv.
      rewrite Hl in Hv. apply orb_false_iff in Hv as [_ Hv]. by apply bool_decide_eq_false in Hv.
    + intros m x Hx. by destruct (F2 _ Hx).
Qed.

Lemma observation_agrees ctx fresh obs st d dep ev : db_ok d -> agree st (idents d) dep ev ->
  to_lowercase (ob_mac obs) = ob_mac obs ->
  (forall v, v ∈ t_devices d -> dr_id v <> fresh) -> (forall d, d ∈ dep -> fst (fst d) <> fresh) ->
  (forall mac e, st !! mac = Some e -> ms_device_id e <> fresh) ->
  twp (process_observation lan_ip ctx fresh obs) (agreeing dep ev) st d.
Proof.
  intros Hd Ha Hl F1 F2 F3. unfold process_observation.
  twp_run; try done; try (apply twp_touch; intros now; twp_run; by apply agree_touched).
  apply twp_action. intros now. destruct (st !! ob_mac obs) as [e|] eqn:He.
  - destruct (ms_gone e); [|case_bool_decide]; unfold act_on, record_ip, dev_update_last_seen_and_ip, execute; twp_run;
      first [by apply agree_moved | by apply (agree_entry _ _ _ _ _ e)].
  - unfold act_on, handle_unknown_mac, dev_find_by_mac, select. do 2 twp_head.
    destruct (List.find _ _) as [v|] eqn:Ev; simpl; [|by apply insert_agrees].
    apply find_elem in Ev as [Hv Hm%bool_decide_eq_true]. rewrite Hl in Hm.
    unfold reappear_device, record_ip, dev_update_last_seen_and_ip, execute. twp_head. apply twp_track. intros now'.
    twp_run. rewrite <- Hm. by apply agree_found.
Qed.

Lemma peer_agrees id ip st d dep ev : db_ok d -> agree st (idents d) dep ev ->
  twp (process_peer_observation id ip) (agreeing dep ev) st d.
Proof.
  intros Hd Ha. unfold process_peer_observation, dev_find_by_id, select. do 2 twp_head.
  destruct (List.find _ _) as [v|] eqn:Ev; simpl; [|by twp_run].
  apply find_elem in Ev as [Hv Hid]. rewrite has_id_string in Hid. apply Z.eqb_eq in Hid as <-.
  do 2 twp_head. simpl. twp_head. apply twp_action. intros now. simpl. destruct (st !! dr_mac v) as [e|] eqn:He.
  - assert (dr_id v = ms_device_id e) as Hi by exact (ag_owner _ _ _ _ Ha _ _ _ _ He (in_idents v d Hv)).
    rewrite Hi. unfold record_ip, dev_update_last_seen_and_ip, execute.
    destruct (ms_gone e) eqn:Eg; [|case_bool_decide]; twp_run; try by apply agree_moved.
    subst ip. replace (present_at now e) with (moved_at now (ms_last_ip e) e); [by apply agree_moved|].
    unfold moved_at, present_at. by rewrite Eg.
  - unfold record_ip, dev_update_last_seen_and_ip, execute. twp_run. by apply agree_found.
Qed.

Lemma touch_peer_agrees id st d dep ev : agree st (idents d) dep ev ->
  twp (touch_peer_presence id) (agreeing dep ev) st d.
Proof.
  intros Ha. unfold touch_peer_presence, dev_find_by_id, select. twp_run; simplify_eq/=; try done.
  apply twp_touch. intros now. by apply agree_touched.
Qed.

Lemma depart_agrees w id mac ip dep ev : faultless w -> agree (di_state w) (idents (dbof w)) dep ev ->
  bound (idents (dbof w)) id mac ->
  agree (di_state (snd (depart (id, mac, ip) w))) (idents (dbof (snd (depart (id, mac, ip) w)))) dep ev.
Proof.
  intros Hf Ha Hb. unfold depart, clear_departed_ip, mbind, st_bind.
  destruct (match di_state w !! mac with Some e => ms_gone e | None => true end) eqn:Eg; [|done].
  unfold policy, logged, dev_clear_last_ip, execute. rewrite stmt_run by done. simpl.
  rewrite (idents_assign id []) by done. apply (agree_cleared _ _ _ _ _ mac); [done | done |].
  intros e He. by rewrite He in Eg.
Qed.

Lemma restored_agrees now d dep ev (vs : list DeviceRow) st : db_ok d ->
  (forall v, v ∈ vs -> exists u, u ∈ t_devices d /\ v = into_device u) ->
  agree st (idents d) dep ev ->
  let st' := foldl (fun s v => <[dr_mac v := restored lan_ip now v]> s) st vs in
  agree st' (idents d) dep ev /\
  (forall mac e, st' !! mac = Some e -> (exists v, v ∈ vs /\ dr_mac v = mac) -> ms_gone e = true).
Proof.
  intros Hd. revert st. induction vs as [|v vs IH] using rev_ind; intros st Hvs Ha; simpl.
  - split; [done|]. by intros mac e _ (v & Hv%not_elem_of_nil & _).
  - rewrite foldl_app. simpl. destruct (IH st) as [H1 H2]; [intros v' Hv'; apply Hvs, elem_of_app; by left | done |].
    destruct (Hvs v) as (u & Hu & ->); [apply elem_of_app; right; by left|]. split.
    + by apply (agree_restored _ _ _ _ u).
    + intros mac e [[<- <-]|[Hne He]]%lookup_insert_Some; [done|].
      intros (v & [Hv| ->%list_elem_of_singleton]%elem_of_app & Hm); [|done]. apply (H2 mac e He). by exists v.
Qed.

Lemma restore_agrees ctx st d dep ev : db_ok d -> agree st (idents d) dep ev ->
  twp (restore_devices lan_subnet lan_ip ctx) (agreeing dep ev) st d.
Proof.
  intros Hd Ha. unfold restore_devices. twp_head. twp_head. destruct (require_admin ctx); [|done].
  twp_head. apply (twp_conseq _ (fun _ st' d' => st' = st /\ d' = d)).
  { unfold rebuild_trusted_subnets, zone_find_all, cfg_get_router_mac, cfg_get, select.
    twp_run; simplify_eq; auto. }
  intros r st' d' [-> ->]. destruct r as [[]|e]; [|done]. unfold dev_find_all, select. do 2 twp_head.
  set (vs := into_device <$> newest_first (t_devices d)).
  assert (Hvs : forall v, v ∈ vs -> exists u, u ∈ t_devices d /\ v = into_device u).
  { intros v (u & -> & Hu)%list_elem_of_fmap. exists u. by rewrite <- elem_of_newest. }
  twp_head. intros w Hf <- <-. unfold st_modify. simpl. split; [done|].
  destruct (restored_agrees (di_instant w) (dbof w) dep ev vs (di_state w) Hd Hvs Ha) as [H1 H2].
  set (st' := foldl _ _ vs) in *.
  apply (twp_conseq _ (fun _ st1 d1 => st1 = st' /\ agree st1 (idents d1) dep ev /\
    forall v, v ∈ vs -> bound (idents d1) (dr_id v) (dr_mac v))); [|by intros r st1 d1 (-> & Ha1 & _)].
  apply (twp_iter _ (fun st1 d1 => st1 = st' /\ agree st1 (idents d1) dep ev /\
    forall v, v ∈ vs -> bound (idents d1) (dr_id v) (dr_mac v))).
  - intros v st1 d1 [Hv _]%list_elem_of_In%filter_In (-> & Ha1 & Hb). apply list_elem_of_In in Hv.
    unfold dev_update_last_seen_and_ip, execute. twp_run. rewrite recorded. split_and!; [done | |].
    + apply (agree_cleared _ _ _ _ _ (dr_mac v)); [done | by apply Hb |]. intros e He. apply (H2 _ _ He). by exists v.
    + intros v' Hv'. by apply bound_moved, Hb.
  - split_and!; [done | done |]. intros v (u & Hu & ->)%Hvs. apply (idents_bound _ _ _ (dr_last_ip u)); [done|].
    exact (in_idents u _ Hu).
Qed.

(** ** Histories *)

Abbreviation agreed := (fun s : System =>
  agree (di_state (sy_world s)) (idents (dbof (sy_world s))) (sy_departing s) (sy_evicting s)).

Lemma twp_use {A} (m : ST Discovery AppError A) w dep ev : faultless w ->
  twp m (agreeing dep ev) (di_state w) (dbof w) ->
  agree (di_state (snd (m w))) (idents (dbof (snd (m w)))) dep ev.
Proof. intros Hf H. by apply (H w). Qed.

Lemma sweep_agrees timeout w l w' dep ev : sweep_departures timeout w = (l, w') ->
  agree (di_state w) (idents (dbof w)) dep ev -> agree (di_state w') (idents (dbof w')) (dep ++ l) ev.
Proof.
  intros [= <- <-] Ha. simpl. apply agree_more.
  - destruct Ha as [A1 A2 A3 A4 A5]. split; [| | | |done].
    + intros m x (e & <- & He)%lookup_fmap_Some. destruct (overdue _ _ e); exact (A1 m e He).
    + intros m x (e & <- & He)%lookup_fmap_Some. destruct (overdue _ _ e); exact (A2 m e He).
    + intros m x i ip (e & <- & He)%lookup_fmap_Some. destruct (overdue _ _ e); exact (A3 m e i ip He).
    + intros m x (e & <- & He)%lookup_fmap_Some Hev.
      destruct (A4 m e He Hev) as (y & Hy & Hip), (overdue _ _ e); by exists y.
  - intros id mac ip (e & [= -> -> ->] & [He _]%list_elem_of_In%filter_In)%list_elem_of_fmap.
    apply list_elem_of_In, list_elem_of_fmap in He as ([m x] & -> & He%elem_of_map_to_list). simpl.
    rewrite (ag_mac _ _ _ _ Ha m x He). by apply (ag_bound _ _ _ _ Ha).
Qed.

Lemma sweep_peer_agrees mac timeout w o w' dep ev : sweep_peer mac timeout w = (Ok o, w') ->
  agree (di_state w) (idents (dbof w)) dep ev -> agree (di_state w') (idents (dbof w')) (dep ++ option_list o) ev.
Proof.
  unfold sweep_peer. destruct (di_state w !! mac) as [e|] eqn:He;
    [destruct (overdue _ _ e)|]; intros [= <- <-] Ha; simpl; rewrite ?app_nil_r; try done.
  apply agree_more; [by apply (agree_entry _ _ _ _ _ e)|].
  intros i m x [= -> -> ->]%list_elem_of_singleton. rewrite (ag_mac _ _ _ _ Ha mac e He). by apply (ag_bound _ _ _ _ Ha).
Qed.

Lemma delete_agrees w r w' dep ev : faultless w -> delete_stale w = (r, w') ->
  agree (di_state w) (idents (dbof w)) dep ev ->
  agree (di_state w') (idents (dbof w')) dep
    (ev ++ match r with Ok pruned => pd_mac <$> pruned | Err _ => [] end).
Proof.
  intros Hf. unfold delete_stale, mbind, st_bind, utc_now, st_gets, db_call, policy, repo, dev_delete_unmanaged_before.
  rewrite stmt_run by done. intros [= <- <-] Ha. simpl. apply (agree_pruned _ (idents (dbof w))); [done | |].
  - intros x (v & -> & [_ Hv]%list_elem_of_filter)%list_elem_of_fmap. by apply in_idents.
  - intros x (v & -> & Hv)%list_elem_of_fmap. destruct (prunable (po_now (di_policy w) -
      DEVICE_RETENTION_DAYS * 86400 * 1000000000) v) eqn:E; [right|left]; simpl.
    + rewrite <- list_fmap_compose. apply list_elem_of_fmap. exists v. split; [done|].
      by apply list_elem_of_In, filter_In; rewrite <- list_elem_of_In.
    + apply in_idents. simpl. apply list_elem_of_filter. by rewrite E.
Qed.

(** A step taken while storage answers. *)
Definition answered (s s' : System) : Prop := sstep lan_subnet lan_ip s s' /\ faultless (sy_world s).

Lemma answered_agrees s s' : answered s s' -> db_ok (dbof (sy_world s)) -> agreed s -> agreed s'.
Proof.
  intros [Hs Hf] Hd Ha. destruct Hs; simpl in *;
    try (apply (twp_use _ _ _ _ Hf); first [by apply restore_agrees | by apply observation_agrees
      | by apply peer_agrees | by apply touch_peer_agrees]);
    try (apply (frame_agree _ _ _ _ Hf); [|done]; first [apply rebuild_same | apply flush_same
      | apply hostname_same | apply update_same]).
  - unfold on_policy. simpl. by rewrite run_call_idents.
  - by apply (sweep_agrees timeout (sy_world s)).
  - by apply (sweep_peer_agrees mac timeout (sy_world s)).
  - destruct d as [[id mac] ip]. rewrite H in Ha. apply (depart_agrees (sy_world s) id mac ip); [done | |].
    + by apply (agree_handled _ _ l1 (id, mac, ip)).
    + apply (ag_departing _ _ _ _ Ha id mac ip). set_solver.
  - by apply (delete_agrees (sy_world s)).
  - rewrite H in Ha. by apply agree_evicted.
  - destruct H as [Hst _ Hdev _ _]. simpl in Hdev. unfold idents. by rewrite Hst, Hdev.
Qed.

(** C32: While storage answers, over any history of observations, departures,
    restores, prunings and calls of the services, with sweeps interleaved with
    what they leave to be done: a device tracked as present has a row in the
    database with its own id and MAC, and that row records the address the memory
    holds, unless the row has just been pruned and the MAC is about to be
    forgotten. *)
Theorem tracking_agrees (s s' : System) mac e :
  rtc answered s s' -> db_ok (dbof (sy_world s)) -> agreed s ->
  di_state (sy_world s') !! mac = Some e -> ms_gone e = false -> mac ∉ sy_evicting s' ->
  exists v, v ∈ t_devices (dbof (sy_world s')) /\ dr_id v = ms_device_id e /\ dr_mac v = mac /\
    dr_last_ip v = ms_last_ip e.
Proof.
  intros Hr Hd Ha. assert (agreed s') as Ha'.
  { induction Hr as [|x y z Hxy _ IH]; [done|]. apply IH; [|by apply (answered_agrees x)].
    destruct Hxy as [Hs _]. by apply (sstep_ok lan_subnet lan_ip x). }
  intros He Hg Hev. destruct (ag_row _ _ _ _ Ha' mac e He Hev) as (ip & Hi & Hip).
  rewrite (Hip Hg) in Hi. apply idents_inv in Hi. naive_solver.
Qed.

End tracking.
