(* ===== verification/DeviceLaws.v ===== *)
(** * What the device and discovery services promise their callers

    Self-service: a call made by a device on its own behalf touches nothing but
    that device, and nothing an administrator locked.  The flap detector counts
    the addresses claimed within its window, an observation that is ignored
    leaves no durable trace, and the address snapshot names the device seen last. *)

From Stdlib Require Import Sorting.Sorted.
From S2P Require Import Prelude RustStr Net Auth PolicyRouter RoutingTypes ZoneTypes PolicyDb.
From S2P Require Import ZoneService DeviceService Discovery PolicyLaws DiscoveryLaws.

(** ** Self-service *)

Section self_service.
Context {U : UuidText} {UL : UuidTextLaws U} {L : Ipv4NetworkLib} {DD : DiscoveryDeps}.
Context (lan_subnet : Ipv4Network) (lan_ip : Ipv4Addr).

Definition rules_of (id : Uuid) (d : PolicyDb) : list RoutingRule :=
  List.filter (fun r => rr_device_id r =? id) (t_rules d).
Definition events_of (id : Uuid) (d : PolicyDb) : list DnsEventRow :=
  List.filter (fun e => ev_device_id e =? id) (t_dns_events d).

(** What a device may have done to its own row: switched the capture of its DNS
    queries; given itself a name and a type, unless an administrator locked it. *)
Definition row_by_owner (v v' : DeviceRow) : Prop :=
  (exists b, v' = set_column v (SetDnsCaptureEnabled b)) \/
  dr_admin_locked v = false /\ exists name t, v' = set_columns [SetName name; SetDeviceType t] v.

(** What the owner of [mac] may have done between [d] and [d']: changed its own
    row, set its own rule unless locked, dropped its own DNS events. *)
Record confined (mac : str) (d d' : PolicyDb) : Prop := {
  cf_zones : t_zones d' = t_zones d;
  cf_exceptions : t_exceptions d' = t_exceptions d;
  cf_users : t_users d' = t_users d;
  cf_config : t_config d' = t_config d;
  cf_devices : Forall2 (fun v v' => v' = v \/ dr_mac v = mac /\ row_by_owner v v')
    (t_devices d) (t_devices d');
  cf_rules v : v ∈ t_devices d -> dr_mac v <> mac \/ dr_admin_locked v = true ->
    rules_of (dr_id v) d' = rules_of (dr_id v) d;
  cf_events v : v ∈ t_devices d -> dr_mac v <> mac -> events_of (dr_id v) d' = events_of (dr_id v) d;
}.

Lemma confined_refl mac d : confined mac d d.
Proof. split; try done. apply Forall_Forall2_diag, Forall_forall. by left. Qed.
#[local] Hint Resolve confined_refl : policy.

Lemma upserted_other v target l id : dr_id v <> id ->
  List.filter (fun r => rr_device_id r =? id) (upserted v target l) = List.filter (fun r => rr_device_id r =? id) l.
Proof.
  intros Hne. unfold upserted. destruct (existsb _ l).
  - induction l as [|r l IH]; [done|]. rewrite fmap_cons. cbn [List.filter]. rewrite IH.
    destruct (Z.eqb_spec (rr_device_id r) (dr_id v)) as [E|]; [|done]. cbn [rr_device_id].
    by destruct (Z.eqb_spec (rr_device_id r) id); [congruence|].
  - rewrite List.filter_app. simpl. apply Z.eqb_neq in Hne as ->. apply app_nil_r.
Qed.

Lemma confined_upsert v target d : db_ok d -> v ∈ t_devices d -> dr_admin_locked v = false ->
  confined (dr_mac v) d (set_rule_rows (upserted v target (t_rules d)) d).
Proof.
  intros Hd Hv Hl. destruct (confined_refl (dr_mac v) d) as [H1 H2 H3 H4 H5 H6 H7]. split; try done.
  intros u Hu Hor. apply upserted_other. intros E.
  assert (v = u) as -> by (apply (same_key dr_id (t_devices d)); [apply Hd | done..]).
  destruct Hor as [?|?]; congruence.
Qed.

Lemma confined_capture v b d : db_ok d -> v ∈ t_devices d ->
  confined (dr_mac v) d (assign (uuid_to_string (dr_id v)) [SetDnsCaptureEnabled b] d).
Proof.
  intros Hd Hv. destruct (confined_refl (dr_mac v) d) as [H1 H2 H3 H4 H5 H6 H7]. split; try done.
  unfold assign, assign_row. simpl. apply Forall2_fmap_r, Forall_Forall2_diag, Forall_forall. intros u Hu. simpl.
  rewrite has_id_string. destruct (Z.eqb_spec (dr_id u) (dr_id v)) as [E|]; [right|by left].
  assert (u = v) as -> by (apply (same_key dr_id (t_devices d)); [apply Hd | done..]). split; [done|]. left. by exists b.
Qed.

Lemma confined_renamed v name t d : db_ok d -> v ∈ t_devices d -> dr_admin_locked v = false ->
  confined (dr_mac v) d (assign (uuid_to_string (dr_id v)) [SetName name; SetDeviceType t] d).
Proof.
  intros Hd Hv Hl. destruct (confined_refl (dr_mac v) d) as [H1 H2 H3 H4 H5 H6 H7]. split; try done.
  unfold assign, assign_row. simpl. apply Forall2_fmap_r, Forall_Forall2_diag, Forall_forall. intros u Hu. simpl.
  rewrite has_id_string. destruct (Z.eqb_spec (dr_id u) (dr_id v)) as [E|]; [right|by left].
  assert (u = v) as -> by (apply (same_key dr_id (t_devices d)); [apply Hd | done..]). split; [done|]. right.
  split; [done|]. by exists name, t.
Qed.

Lemma confined_ack v id n d : db_ok d -> v ∈ t_devices d -> has_id id (dr_id v) = true ->
  confined (dr_mac v) d
    (set_dns_events (filter (fun e => ev_of id e && (ev_id e <=? n) = false) (t_dns_events d)) d).
Proof.
  intros Hd Hv Hid. destruct (confined_refl (dr_mac v) d) as [H1 H2 H3 H4 H5 H6 H7]. split; try done.
  intros u Hu Hne. unfold events_of. simpl. clear H7. induction (t_dns_events d) as [|e l IH]; [done|].
  apply bool_decide_eq_true in Hid as <-. rewrite filter_cons. unfold ev_of in *. rewrite has_id_string in *.
  case_decide as E; simpl; rewrite IH; [done|]. destruct (Z.eqb_spec (ev_device_id e) (dr_id u)) as [Eu|]; [|done].
  exfalso. apply E. rewrite Eu. apply andb_false_iff. left. apply Z.eqb_neq. intros Euv. apply Hne. f_equal.
  by apply (same_key dr_id (t_devices d)); [apply Hd | ..].
Qed.

Abbreviation post A := (result A AppError -> PolicyDb -> Prop).

Lemma wp_device_at_ip ip (Q : post DeviceRow) d : (forall e, Q (Err e) d) ->
  (forall v, v ∈ t_devices d -> Q (Ok (into_device v)) d) -> wp (device_at_ip ip) Q d.
Proof.
  intros He Hok. unfold device_at_ip, dev_find_by_ip. apply wp_bind, wp_repo.
  case_bool_decide; [apply wp_ret, wp_lift, He|]. apply wp_select; [intros e; apply He|]. apply wp_lift.
  destruct (newest_first _) as [|x l] eqn:En; simpl; [apply He|]. apply Hok.
  assert (Hx : x ∈ newest_first (List.filter (fun v => bool_decide (dr_last_ip v = ip)) (t_devices d)))
    by (rewrite En; apply list_elem_of_here).
  apply elem_of_newest, list_elem_of_In, filter_In in Hx as [Hx _]. by apply list_elem_of_In.
Qed.

Lemma wp_device_with_id id (Q : post DeviceRow) d : (forall e, Q (Err e) d) ->
  (forall v, v ∈ t_devices d -> has_id id (dr_id v) = true -> Q (Ok (into_device v)) d) -> wp (device_with_id id) Q d.
Proof.
  intros He Hok. unfold device_with_id. apply wp_bind, wp_device_by_id; [done | apply wp_lift, He |].
  intros v Hv Hid. apply wp_lift. by apply Hok.
Qed.

(** A device passes the gate on its own row only, and unless it is locked. *)
Lemma wp_may_modify mac v locked (Q : post unit) d : (forall e, Q (Err e) d) ->
  (dr_mac v = mac -> locked = false -> Q (Ok tt) d) -> wp (may_modify (Some (Auth.Device mac)) v locked) Q d.
Proof.
  intros He Hok. unfold may_modify. apply wp_lift. simpl. case_bool_decide as E; [|apply He]. destruct locked; [apply He|].
  by apply Hok.
Qed.

Lemma wp_upsert_row v id target (Q : result unit str -> PolicyDb -> Prop) d : db_ok d -> v ∈ t_devices d ->
  has_id id (dr_id v) = true -> (forall e, Q (Err e) d) ->
  Q (Ok tt) (set_rule_rows (upserted v target (t_rules d)) d) -> wp (dev_upsert_user_rule id target) Q d.
Proof.
  intros Hd Hv Hid He Hok. unfold dev_upsert_user_rule. apply wp_checked; [done|]. intros d'.
  destruct (List.find _ _) as [v'|] eqn:E; [|done]. apply find_elem in E as [Hv' Hid'].
  unfold has_id in Hid, Hid'. rewrite bool_decide_eq_true in Hid, Hid'.
  assert (v' = v) as -> by (apply (same_key dr_id (t_devices d)); [apply Hd | done | done |];
    apply (inj uuid_to_string); congruence).
  by intros [= <-].
Qed.

Lemma own_rule_confined mac d : db_ok d ->
  (forall ip target, wp (set_rule_for_ip (Some (Auth.Device mac)) ip target) (fun _ => confined mac d) d) /\
  (forall id target, wp (set_rule (Some (Auth.Device mac)) id target) (fun _ => confined mac d) d).
Proof.
  intros Hd. pose proof (confined_refl mac d) as Hr. split; intros x target; unfold set_rule_for_ip, set_rule.
  - apply wp_bind, wp_device_at_ip; [done|]. intros v Hv. apply wp_bind, wp_may_modify; [done|]. simpl. intros <- Hl.
    apply wp_bind, wp_validate_target; [apply Hd | done |]. intros _. unfold dev_find_rule_for_device.
    apply wp_bind, wp_repo, wp_select; [done|]. apply wp_bind, wp_repo.
    apply (wp_upsert_row v); [done | done | by rewrite has_id_string, Z.eqb_refl | done |].
    pose proof (confined_upsert v target d Hd Hv Hl). wp_run.
  - apply wp_bind, wp_device_with_id; [done|]. intros v Hv Hid. apply wp_bind, wp_may_modify; [done|]. simpl. intros <- Hl.
    apply wp_bind, wp_validate_target; [apply Hd | done |]. intros _. unfold dev_find_rule_for_device.
    apply wp_bind, wp_repo, wp_select; [done|]. apply wp_bind, wp_repo.
    apply (wp_upsert_row v); [done | done | done | done |].
    pose proof (confined_upsert v target d Hd Hv Hl). wp_run.
Qed.

Lemma own_capture_confined mac d : db_ok d ->
  (forall ip b, wp (set_my_capture_enabled (Some (Auth.Device mac)) ip b) (fun _ => confined mac d) d) /\
  (forall id n, wp (ack_dns_events (Some (Auth.Device mac)) id n) (fun _ => confined mac d) d) /\
  (forall id n k, wp (fetch_pending_dns_events (Some (Auth.Device mac)) id n k) (fun _ => confined mac d) d).
Proof.
  intros Hd. pose proof (confined_refl mac d) as Hr. split_and!.
  - intros ip b. unfold set_my_capture_enabled. apply wp_bind, wp_device_at_ip; [done|]. intros v Hv.
    apply wp_bind, wp_may_modify; [done|]. simpl. intros <- _.
    pose proof (confined_capture v b d Hd Hv). unfold dev_update_dns_capture_settings, ev_stats_for_device. wp_run.
  - intros id n. unfold ack_dns_events. apply wp_bind, wp_device_with_id; [done|]. intros v Hv Hid.
    apply wp_bind, wp_may_modify; [done|]. simpl. intros <- _. pose proof (confined_ack v id n d Hd Hv Hid).
    unfold ev_delete_up_to. wp_run.
  - intros id n k. unfold fetch_pending_dns_events. apply wp_bind, wp_device_with_id; [done|]. intros v Hv Hid.
    apply wp_bind, wp_may_modify; [done|]. intros _ _. unfold ev_fetch_pending. wp_run.
Qed.

Lemma services_confined mac c w : db_ok (po_db w) -> (forall id, c <> CallClearRemote id) ->
  confined mac (po_db w) (po_db (run_call (Some (Auth.Device mac)) c w)).
Proof.
  intros Hd Hc. destruct c; try exact (confined_refl mac (po_db w)); simpl; apply wp_snd;
    first [ by apply own_rule_confined | by apply own_capture_confined
    | by destruct (Hc device_id)
    | unfold get_device_for_ip, get_device, dev_find_by_ip, dev_find_by_id, dev_find_rule_for_device; wp_run ].
Qed.

(** Renaming oneself: the gate of [update_device] lets the owner of an unlocked
    row through; the write names the row by the same id. *)
Lemma update_confined mac id name t d : db_ok d ->
  wp (update_device (Some (Auth.Device mac)) id name t) (fun _ => confined mac d) d.
Proof.
  intros Hd. pose proof (confined_refl mac d) as Hr. unfold update_device. apply wp_bind, wp_lift. simpl.
  apply wp_bind. unfold may_update. cbn [default]. apply wp_bind, wp_policy, wp_device_by_id;
    [done | by apply wp_bind, wp_lift |]. intros v Hv Hid. apply wp_bind, wp_lift. simpl.
  case_bool_decide as Em; [|by apply wp_fail].
  simpl. destruct (dr_admin_locked v) eqn:El; [by apply wp_fail|]. apply wp_ret. rewrite has_id_string in Hid.
  apply Z.eqb_eq in Hid as <-. subst mac.
  assert (Hw : forall n k, wp (db_call (dev_update_name_and_type (uuid_to_string (dr_id v)) n k) ≫= fun _ =>
      _ ← mret tt;
      x ← db_call (dev_find_by_id (uuid_to_string (dr_id v)));
      st_lift (ok_or x (device_missing (dr_id v)))) (fun _ => confined (dr_mac v) d) d).
  { intros n k. pose proof (confined_renamed v n k d Hd Hv El) as Hc. apply wp_bind, wp_policy.
    unfold dev_update_name_and_type. apply wp_repo, wp_execute; [done|]. simpl. apply wp_bind, wp_ret, wp_bind, wp_policy.
    apply wp_device_by_id; [done | by apply wp_lift |]. intros; by apply wp_lift. }
  apply wp_bind. destruct (_ || _); [|apply wp_ret, Hw].
  apply wp_bind, wp_policy, wp_device_by_id; [done | by apply wp_bind, wp_lift |]. intros u _ _.
  apply wp_bind, wp_lift. apply wp_ret, Hw.
Qed.

(** A call of the zone, exception or device service, or of a discovery method
    that asks who calls. *)
Inductive DeviceCall : Type :=
| ServiceCall (c : PolicyCall)
| CallUpdateDevice (id : Uuid) (name : option str) (t : option DeviceType)
| CallGetAllDevices | CallGetDeviceById (id : Uuid)
| CallRestoreDevices | CallProcessObservation (fresh : Uuid) (obs : ObservedDevice)
| CallFlushLastSeen | CallScanDepartures (timeout_secs : Z)
| CallResolveHostname (mac ip : str) | CallPruneUnmanaged.

Definition run_device_call (ctx : option AuthContext) (c : DeviceCall) (w : Discovery) : Discovery :=
  match c with
  | ServiceCall c => set_policy (run_call ctx c (di_policy w)) w
  | CallUpdateDevice id name t => snd (update_device ctx id name t w)
  | CallGetAllDevices => snd (get_all_devices ctx w)
  | CallGetDeviceById id => snd (get_device_by_id ctx id w)
  | CallRestoreDevices => snd (restore_devices lan_subnet lan_ip ctx w)
  | CallProcessObservation fresh obs => snd (process_observation lan_ip ctx fresh obs w)
  | CallFlushLastSeen => snd (flush_last_seen ctx w)
  | CallScanDepartures timeout => snd (scan_departures ctx timeout w)
  | CallResolveHostname mac ip => snd (resolve_hostname ctx mac ip w)
  | CallPruneUnmanaged => snd (prune_unmanaged_devices ctx w)
  end.

(** C33: A call that a device makes on its own behalf, of any method of the
    zone, exception, device and discovery services that checks its caller, and
    wherever storage fails in it, changes nothing but that device: no zone,
    exception, setting or other row; of its own row only whether its DNS queries
    are captured and, unless an administrator has locked it, its name and type;
    the rule of no other device, nor its own while locked; and the DNS events of
    no other device.  [clear_remote_connection_mode], which no request reaches
    and which checks no caller, is left out. *)
Theorem device_principal_confined mac c w : db_ok (po_db (di_policy w)) ->
  (forall id, c <> ServiceCall (CallClearRemote id)) ->
  confined mac (po_db (di_policy w)) (po_db (di_policy (run_device_call (Some (Auth.Device mac)) c w))).
Proof.
  intros Hd Hc. pose proof (confined_refl mac (po_db (di_policy w))) as Hr.
  destruct c; try exact Hr; cbn [run_device_call].
  - apply services_confined; [done|]. intros id ->. by apply (Hc id).
  - exact (update_confined mac id name t _ Hd w eq_refl).
  - refine ((_ : wp (get_all_devices _) (fun _ => confined mac _) _) w eq_refl).
    unfold get_all_devices, dev_find_by_mac. apply wp_bind, wp_lift. simpl. apply wp_bind, wp_policy, wp_repo, wp_select; [done|]. by apply wp_ret.
  - refine ((_ : wp (get_device_by_id _ _) (fun _ => confined mac _) _) w eq_refl).
    unfold get_device_by_id. apply wp_bind, wp_lift. simpl.
    apply wp_bind, wp_policy, wp_device_by_id; [done | by apply wp_bind, wp_lift |]. intros u _ _.
    apply wp_bind, wp_lift. simpl. by case_bool_decide; [apply wp_ret | apply wp_fail].
Qed.

End self_service.

(** ** The flap detector *)

Section flapping.
Context {L : Ipv4NetworkLib}.

(** An observed claim of an address: who, which, when. *)
Record Claim : Type := { cl_mac : str; cl_ip : str; cl_at : Z }.

Definition at_instant (t : Z) (w : Discovery) : Discovery :=
  {| di_policy := di_policy w; di_state := di_state w; di_ip_history := di_ip_history w;
     di_trusted_subnets := di_trusted_subnets w; di_gateway := di_gateway w; di_instant := t |}.

Definition observe_claim (w : Discovery) (c : Claim) : Discovery :=
  snd (is_flapping (cl_mac c) (cl_ip c) (at_instant (cl_at c) w)).

(** The distinct addresses [mac] claimed within the window that ends at [now]. *)
Definition claimed_recently (mac : str) (now : Z) (cs : list Claim) : list str :=
  remove_dups (cl_ip <$> List.filter (fun c => bool_decide (cl_mac c = mac) && (now - cl_at c <? FLAP_WINDOW)) cs).

(** What the history of a MAC holds after claims up to [now]. *)
Record history_of (mac : str) (now : Z) (cs : list Claim) (ips : list (str * Z)) : Prop := {
  ho_distinct : NoDup (fst <$> ips);
  ho_claimed ip t : (ip, t) ∈ ips -> exists c, c ∈ cs /\ cl_mac c = mac /\ cl_ip c = ip /\ cl_at c = t;
  ho_recent c : c ∈ cs -> cl_mac c = mac -> now - cl_at c < FLAP_WINDOW ->
    exists t, (cl_ip c, t) ∈ ips /\ cl_at c <= t;
}.

Lemma claim_fsts now ip ips : fst <$> claim now ip ips =
  let recent := fst <$> List.filter (fun p => now - snd p <? FLAP_WINDOW) ips in
  if bool_decide (ip ∈ recent) then recent else recent ++ [ip].
Proof.
  unfold claim. cbv zeta. set (l := List.filter _ ips). destruct (existsb _ l) eqn:E.
  - rewrite existsb_exists in E. destruct E as ([x t] & Hx & Hip%bool_decide_eq_true). simpl in Hip. subst x.
    rewrite bool_decide_eq_true_2 by (apply list_elem_of_fmap; exists (ip, t); by rewrite list_elem_of_In).
    rewrite <- list_fmap_compose. apply list_fmap_ext. intros k [x u] _. simpl. by case_bool_decide.
  - rewrite bool_decide_eq_false_2, fmap_app; [done|]. intros ([x t] & -> & Hx)%list_elem_of_fmap.
    apply (existsb_false _ _ E) in Hx. simpl in Hx. by apply bool_decide_eq_false in Hx.
Qed.

(** A claim at [now] of the address [ip]. *)
Lemma elem_of_claim now ip ips x t : (x, t) ∈ claim now ip ips ->
  (x = ip /\ t = now) \/ (x <> ip /\ (x, t) ∈ ips /\ now - t < FLAP_WINDOW).
Proof.
  unfold claim. destruct (existsb _ _) eqn:E.
  - intros ([y u] & Hy & [Hin Hu]%list_elem_of_In%filter_In)%list_elem_of_fmap. apply list_elem_of_In in Hin.
    simpl in *. case_bool_decide; simplify_eq; [by left | right]. by apply Z.ltb_lt in Hu.
  - intros [Hin|[= -> ->]%list_elem_of_singleton]%elem_of_app; [|by left].
    pose proof (existsb_false _ _ E _ Hin) as Hx. apply bool_decide_eq_false in Hx.
    apply list_elem_of_In, filter_In in Hin as [Hin Hu]. right. split; [done|].
    split; [by apply list_elem_of_In | by apply Z.ltb_lt in Hu].
Qed.

Lemma claim_keeps now ip ips x t : (x, t) ∈ ips -> now - t < FLAP_WINDOW -> t <= now ->
  exists u, (x, u) ∈ claim now ip ips /\ t <= u.
Proof.
  intros Hx Ht Hle. assert (Hin : (x, t) ∈ List.filter (fun p => now - snd p <? FLAP_WINDOW) ips).
  { apply list_elem_of_In, filter_In. rewrite <- list_elem_of_In. split; [done | by apply Z.ltb_lt]. }
  unfold claim. destruct (existsb _ _).
  - exists (if bool_decide (x = ip) then now else t). split; [|by case_bool_decide].
    apply list_elem_of_fmap. exists (x, t). split; [|done]. simpl. by case_bool_decide.
  - exists t. split; [|done]. apply elem_of_app. by left.
Qed.

Lemma claim_now now ip ips : exists t, (ip, t) ∈ claim now ip ips /\ t = now.
Proof.
  exists now. split; [|done]. unfold claim. destruct (existsb _ _) eqn:E; [|apply elem_of_app; right; by left].
  rewrite existsb_exists in E. destruct E as ([x t] & Hx & Hip%bool_decide_eq_true). simpl in Hip. subst x.
  apply list_elem_of_fmap. exists (ip, t). rewrite list_elem_of_In. split; [|done]. simpl. by rewrite bool_decide_eq_true_2.
Qed.

Lemma history_claim mac t cs ips now ip : history_of mac t cs ips -> t <= now -> (forall c, c ∈ cs -> cl_at c <= now) ->
  history_of mac now (cs ++ [{| cl_mac := mac; cl_ip := ip; cl_at := now |}]) (claim now ip ips).
Proof.
  intros [H1 H2 H3] Hle Hts. split.
  - rewrite claim_fsts. simpl. assert (Hn : NoDup (fst <$> List.filter (fun p => now - snd p <? FLAP_WINDOW) ips)).
    { apply (sublist_NoDup _ _ H1), fmap_sublist. clear. induction ips as [|x l IH]; simpl; [done|].
      case_match; by constructor. }
    case_bool_decide; [done|]. apply NoDup_app. split_and!; [done | | apply NoDup_singleton]. set_solver.
  - intros x u [[-> ->]|(_ & Hx & _)]%elem_of_claim.
    + eexists. split; [apply elem_of_app; right; by left | done].
    + destruct (H2 x u Hx) as (c & Hc & Hr). exists c. split; [apply elem_of_app; by left | done].
  - intros c [Hc| ->%list_elem_of_singleton]%elem_of_app Hm Hw.
    + destruct (H3 c Hc Hm ltac:(lia)) as (u & Hu & Hlu).
      destruct (claim_keeps now ip ips (cl_ip c) u Hu) as (u' & ? & ?); [lia | | exists u'; split; [done | lia]].
      destruct (H2 _ _ Hu) as (c' & Hc' & _ & _ & <-). by apply Hts.
    + destruct (claim_now now ip ips) as (u & Hu & ->). by exists now.
Qed.

Lemma history_other mac t cs ips now c : history_of mac t cs ips -> t <= now -> cl_mac c <> mac ->
  history_of mac now (cs ++ [c]) ips.
Proof.
  intros [H1 H2 H3] Hle Hc. split; [done | |].
  - intros ip u Hu. destruct (H2 ip u Hu) as (c' & Hc' & Hr). exists c'. split; [apply elem_of_app; by left | done].
  - intros c' [Hc'| ->%list_elem_of_singleton]%elem_of_app Hm Hw; [|done]. apply (H3 c'); [done | done | lia].
Qed.

Lemma history_length mac now cs ips : history_of mac now cs ips ->
  (forall x t, (x, t) ∈ ips -> now - t < FLAP_WINDOW) -> length ips = length (claimed_recently mac now cs).
Proof.
  intros [H1 H2 H3] Hw. rewrite <- (length_fmap fst ips). apply Permutation_length, NoDup_Permutation;
    [done | apply NoDup_remove_dups |]. intros x. unfold claimed_recently. rewrite elem_of_remove_dups, !list_elem_of_fmap. split.
  - intros ([y t] & -> & Hy). destruct (H2 y t Hy) as (c & Hc & Hm & Hip & Ht). exists c. split; [done|].
    apply list_elem_of_In, filter_In. rewrite <- list_elem_of_In. split; [done|].
    rewrite bool_decide_eq_true_2 by done. simpl. apply Z.ltb_lt. rewrite Ht. by apply (Hw y).
  - intros (c & -> & Hc). apply list_elem_of_In, filter_In in Hc as [Hc Hb]. apply list_elem_of_In in Hc.
    apply andb_true_iff in Hb as [Hm%bool_decide_eq_true Ht%Z.ltb_lt].
    destruct (H3 c Hc Hm Ht) as (t & Hin & _). by exists (cl_ip c, t).
Qed.

(** Claims that come in order of time, up to [now]. *)
Fixpoint in_order (t : Z) (cs : list Claim) (now : Z) : Prop :=
  match cs with
  | [] => t <= now
  | c :: cs => t <= cl_at c /\ in_order (cl_at c) cs now
  end.

Definition history (mac : str) (w : Discovery) : list (str * Z) :=
  fh_ips (default {| fh_ips := []; fh_warned := false |} (di_ip_history w !! mac)).

Lemma history_observe mac w c : history mac (observe_claim w c) =
  if bool_decide (cl_mac c = mac) then claim (cl_at c) (cl_ip c) (history mac w) else history mac w.
Proof.
  unfold history, observe_claim, is_flapping. simpl. case_bool_decide as E.
  - rewrite E, lookup_insert_eq. done.
  - by rewrite lookup_insert_ne.
Qed.

Lemma history_after mac cs : forall pre t w now, history_of mac t pre (history mac w) ->
  (forall c, c ∈ pre -> cl_at c <= t) -> in_order t cs now ->
  exists t', t' <= now /\ (forall c, c ∈ pre ++ cs -> cl_at c <= t') /\
    history_of mac t' (pre ++ cs) (history mac (foldl observe_claim w cs)).
Proof.
  induction cs as [|c cs IH]; intros pre t w now Hh Hpre Ho; simpl in *.
  - exists t. by rewrite app_nil_r.
  - destruct Ho as [Hc Ho]. rewrite (cons_middle c pre cs), (app_assoc pre [c] cs).
    assert (Hle : forall x, x ∈ pre -> cl_at x <= cl_at c) by (intros x Hx; specialize (Hpre x Hx); lia).
    apply (IH (pre ++ [c]) (cl_at c) (observe_claim w c) now); [| |done].
    + rewrite history_observe. case_bool_decide as E; [|by apply (history_other mac t)].
      destruct c as [m ip at_]. simpl in *. subst m. by apply (history_claim mac t).
    + intros x [Hx| ->%list_elem_of_singleton]%elem_of_app; [by apply Hle | done].
Qed.

(** However the claims of many devices interleave, a device is found to flap
    exactly when it has claimed more than three distinct addresses within the
    sixty seconds that end with the claim at hand. *)
Theorem flap_spec (w : Discovery) (mac ip : str) (now t0 : Z) (cs : list Claim) :
  di_ip_history w !! mac = None -> in_order t0 cs now ->
  fst (is_flapping mac ip (at_instant now (foldl observe_claim w cs))) =
  Ok (FLAP_MAX_DISTINCT_IPS <?
      length (claimed_recently mac now (cs ++ [{| cl_mac := mac; cl_ip := ip; cl_at := now |}])))%nat.
Proof.
  intros Hn Ho. destruct (history_after mac cs [] t0 w now) as (t & Ht & Hcs & Hh); [| |done|].
  - unfold history. rewrite Hn. simpl. split; [constructor | by intros x u Hx%not_elem_of_nil | by intros c Hc%not_elem_of_nil].
  - by intros c Hc%not_elem_of_nil.
  - assert (Hh' := history_claim mac t cs (history mac (foldl observe_claim w cs)) now ip Hh Ht
      ltac:(intros c Hc; specialize (Hcs c Hc); lia)).
    unfold is_flapping. simpl. do 2 f_equal. apply (history_length _ _ _ _ Hh').
    intros x u [[-> ->]|(_ & _ & Hu)]%elem_of_claim; [|done]. unfold FLAP_WINDOW. lia.
Qed.

End flapping.

(** ** Observations that are ignored *)

Section observations.
Context {U : UuidText} {L : Ipv4NetworkLib} {DD : DiscoveryDeps} (lan_ip : Ipv4Addr).

(** What memory says of a device, but for when it was last seen. *)
Definition whereabouts (e : DeviceMemoryState) : Uuid * str * str * bool :=
  (ms_device_id e, ms_mac e, ms_last_ip e, ms_gone e).

Lemma touch_whereabouts mac w :
  whereabouts <$> di_state (snd (touch_presence mac w)) = whereabouts <$> di_state w.
Proof.
  unfold touch_presence, st_modify. simpl. destruct (di_state w !! mac) as [e|] eqn:E; [|done].
  destruct (ms_gone e) eqn:Eg; [done|]. simpl. rewrite fmap_insert. apply insert_id. rewrite lookup_fmap, E. done.
Qed.

Lemma act_on_answers fresh obs action w : fst (act_on fresh obs action w) <> Ok Ignored.
Proof.
  unfold act_on, handle_unknown_mac, insert_new_device, reappear_device, mbind, st_bind.
  destruct action; repeat case_match; simplify_eq/=; try done.
Qed.

(** An observation is ignored exactly when its address lies outside every
    trusted subnet, or it is traffic the gateway forwarded, or it claims the
    daemon's own address, or its device is flapping; and an observation that is
    ignored writes nothing to the database, publishes nothing, and moves no
    tracked device. *)
Theorem observation_ignored ctx fresh obs w : require_admin ctx = Ok tt ->
  let r := process_observation lan_ip ctx fresh obs w in
  (fst r = Ok Ignored <-> untrusted obs w = true \/ forwarded obs w = true \/
     parse_ipv4 (ob_ip obs) = Some lan_ip \/ fst (is_flapping (ob_mac obs) (ob_ip obs) w) = Ok true) /\
  (fst r = Ok Ignored ->
     di_policy (snd r) = di_policy w /\ whereabouts <$> di_state (snd r) = whereabouts <$> di_state w).
Proof.
  intros Ha. cbv zeta. unfold process_observation, mbind, st_bind, st_lift, st_gets. rewrite Ha.
  destruct (untrusted obs w); [by split; [split; [by left|] |]|].
  destruct (forwarded obs w); [by split; [split; [by right; left|] |]|].
  destruct (is_flapping (ob_mac obs) (ob_ip obs) w) as [f w1] eqn:Ef. unfold is_flapping in Ef.
  injection Ef as <- <-. set (w1 := set_ip_history _ w). case_bool_decide as Eo.
  { split; [split; [by right; right; left | done]|]. intros _. split; [|apply (touch_whereabouts _ w1)].
    unfold touch_presence, st_modify. simpl. by repeat case_match. }
  destruct (_ <? _)%nat.
  { split; [split; [by right; right; right | done]|]. intros _. split; [|apply (touch_whereabouts _ w1)].
    unfold touch_presence, st_modify. simpl. by repeat case_match. }
  destruct (observation_action (ob_mac obs) (ob_ip obs) None w1) as [[a|e] w2] eqn:Ea.
  - pose proof (act_on_answers fresh obs a w2). split; [|done]. split; [done|].
    by intros [?|[?|[?|?]]].
  - unfold observation_action in Ea. repeat case_match; simplify_eq.
Qed.

End observations.

(** ** The address snapshot *)

(** A row that claims an address. *)
Definition claims_ip (ip : IpAddr) (v : DeviceRow) : Prop := dr_last_ip v <> [] /\ parse_ip (dr_last_ip v) = Some ip.

Lemma insert_by_sorted (f : DeviceRow -> Z) x l : StronglySorted (fun a b => f a <= f b) l ->
  StronglySorted (fun a b => f a <= f b) (insert_by (fun a b => f a ?= f b) x l).
Proof.
  induction l as [|y l IH]; simpl; intros Hl; [by repeat constructor|].
  pose proof (StronglySorted_inv Hl) as [Hl' Hy].
  destruct (Z.compare_spec (f x) (f y)).
  1-2: constructor; [done|]; constructor; [lia|]; eapply Forall_impl; [done|]; simpl; intros; lia.
  constructor; [by apply IH|]. rewrite insert_by_perm. constructor; [lia | done].
Qed.

Lemma sort_by_sorted (f : DeviceRow -> Z) l : StronglySorted (fun a b => f a <= f b) (sort_by (fun a b => f a ?= f b) l).
Proof. induction l; simpl; [constructor | by apply insert_by_sorted]. Qed.

Lemma snapshot_entry_lookup m v ip : snapshot_entry m v !! ip =
  if bool_decide (dr_last_ip v <> [] /\ parse_ip (dr_last_ip v) = Some ip) then Some (dr_id v) else m !! ip.
Proof.
  unfold snapshot_entry. case_bool_decide as E1; case_bool_decide as E2; try (by destruct E2 as [? _]); try done.
  - destruct E2 as [_ ->]. apply lookup_insert_eq.
  - destruct (parse_ip (dr_last_ip v)) as [x|]; [|done]. apply lookup_insert_ne. intros ->. by apply E2.
Qed.

Lemma snapshot_fold l : forall m ip, StronglySorted (fun a b => dr_last_seen a <= dr_last_seen b) l ->
  (foldl snapshot_entry m l !! ip = m !! ip /\ forall v, v ∈ l -> ~ claims_ip ip v) \/
  exists v, v ∈ l /\ claims_ip ip v /\ foldl snapshot_entry m l !! ip = Some (dr_id v) /\
    forall u, u ∈ l -> claims_ip ip u -> dr_last_seen u <= dr_last_seen v.
Proof.
  induction l as [|x l IH]; intros m ip Hs; simpl; [left; split; [done | by intros v Hv%not_elem_of_nil]|].
  apply StronglySorted_inv in Hs as [Hs Hx]. rewrite Forall_forall in Hx.
  destruct (IH (snapshot_entry m x) ip Hs) as [[-> Hn]|(v & Hv & Hc & -> & Hmax)].
  - rewrite snapshot_entry_lookup. case_bool_decide as E.
    + right. exists x. split_and!; [by left | done | done |]. intros u [->|Hu]%elem_of_cons Hcu; [done|]. by destruct (Hn u).
    + left. split; [done|]. intros v [->|Hv]%elem_of_cons; [done | by apply Hn].
  - right. exists v. split_and!; [by right | done | done |]. intros u [->|Hu]%elem_of_cons Hcu; [by apply Hx | by apply Hmax].
Qed.

(** The address snapshot maps an address to the device that was seen last
    among those whose row claims it, and an address nobody claims to nothing. *)
Theorem snapshot_newest (devices : list DeviceRow) (ip : IpAddr) :
  match rebuild_snapshot devices !! ip with
  | Some id => exists v, v ∈ devices /\ dr_id v = id /\ claims_ip ip v /\
      forall u, u ∈ devices -> claims_ip ip u -> dr_last_seen u <= dr_last_seen v
  | None => forall v, v ∈ devices -> ~ claims_ip ip v
  end.
Proof.
  unfold rebuild_snapshot. pose proof (fun v => elem_of_sort_by (fun a b => dr_last_seen a ?= dr_last_seen b) v devices) as Hp.
  destruct (snapshot_fold _ ∅ ip (sort_by_sorted dr_last_seen devices)) as [[E Hn]|(v & Hv & Hc & E & Hmax)];
    rewrite E; simpl.
  - rewrite lookup_empty. intros v Hv. apply Hn. by rewrite Hp.
  - exists v. rewrite Hp in Hv. split_and!; [done | done | done |]. intros u Hu. apply Hmax. by rewrite Hp.
Qed.
