(* ===== verification/Tables.v ===== *)
(** * Tables

    A table is the list of its rows in insertion order.  What SQL statements do to
    it, keys and unique indexes, and sorting under a filter: [ORDER BY] and
    [sort_by_key] are stable, so rows that are filtered out do not matter. *)

From S2P Require Import Prelude RustStr Net RoutingTypes ZoneTypes Authoritative.

(** ** Statements *)

Definition count {A} (f : A -> bool) (l : list A) : Z := Z.of_nat (length (List.filter f l)).
Definition where_ {A} (f : A -> bool) (g : A -> A) (l : list A) : list A := (fun x => if f x then g x else x) <$> l.
Definition deleted {A} (f : A -> bool) (l : list A) : list A := List.filter (fun x => negb (f x)) l.

Lemma existsb_elem {A} (f : A -> bool) l : existsb f l = true <-> exists x, x ∈ l /\ f x = true.
Proof. rewrite existsb_exists. setoid_rewrite list_elem_of_In. done. Qed.

Lemma existsb_none {A} (f : A -> bool) l x : existsb f l = false -> x ∈ l -> f x = false.
Proof. intros H Hx. apply not_true_iff_false. intros E. rewrite <- not_true_iff_false in H. apply H, existsb_elem; eauto. Qed.

(** ** Tables with a key

    [R] relates rows that a unique index forbids to coexist. *)

Record keyed {A} (id : A -> Z) (R : A -> A -> Prop) (l : list A) : Prop := {
  ky_ids : NoDup (id <$> l);
  ky_unique x y : x ∈ l -> y ∈ l -> R x y -> id x = id y;
}.
Arguments ky_ids {A id R l} _.
Arguments ky_unique {A id R l} _ x y.

Lemma elem_of_deleted {A} (f : A -> bool) (l : list A) x : x ∈ deleted f l <-> f x = false /\ x ∈ l.
Proof. unfold deleted. rewrite !list_elem_of_In, filter_In, negb_true_iff. tauto. Qed.

Lemma elem_of_where {A} (f : A -> bool) (g : A -> A) (l : list A) x : x ∈ where_ f g l <-> exists y, y ∈ l /\ x = if f y then g y else y.
Proof. unfold where_. rewrite list_elem_of_fmap. naive_solver. Qed.

Section keyed.
Context {A : Type} (id : A -> Z) (R : A -> A -> Prop).

Lemma where_ids (f : A -> bool) (g : A -> A) (l : list A) : (forall x, id (g x) = id x) -> id <$> where_ f g l = id <$> l.
Proof. intros Hg. unfold where_. rewrite <- list_fmap_compose. apply list_fmap_ext. intros _ x _. simpl. by destruct (f x). Qed.

Lemma deleted_ids (f : A -> bool) (l : list A) : NoDup (id <$> l) -> NoDup (id <$> deleted f l).
Proof.
  induction l as [|x l IH]; [done|]. unfold deleted. simpl. rewrite NoDup_cons. intros [Hx Hl].
  destruct (f x); simpl; [by apply IH|]. apply NoDup_cons. split; [|by apply IH].
  intros (y & Hy & [_ Hin]%elem_of_deleted)%list_elem_of_fmap. apply Hx. rewrite Hy. by apply list_elem_of_fmap_2.
Qed.

Lemma keyed_deleted (f : A -> bool) (l : list A) : keyed id R l -> keyed id R (deleted f l).
Proof.
  intros [H1 H2]. split; [by apply deleted_ids|]. intros x y [_ Hx]%elem_of_deleted [_ Hy]%elem_of_deleted. by apply H2.
Qed.

Lemma keyed_snoc l x : keyed id R l -> (forall y, y ∈ l -> id y <> id x /\ ~ R x y /\ ~ R y x) -> keyed id R (l ++ [x]).
Proof.
  intros [H1 H2] Hx. split.
  - rewrite fmap_app. apply NoDup_app. split_and!; [done | | apply NoDup_singleton].
    intros k (y & -> & Hy)%list_elem_of_fmap E%list_elem_of_singleton. by destruct (Hx y Hy).
  - intros y z [Hy| ->%list_elem_of_singleton]%elem_of_app [Hz| ->%list_elem_of_singleton]%elem_of_app HR.
    + by apply H2.
    + by destruct (Hx y Hy) as (_ & _ & ?).
    + by destruct (Hx z Hz) as (_ & ? & _).
    + done.
Qed.

(** Rows changed in columns no index looks at. *)
Lemma keyed_where (f : A -> bool) (g : A -> A) (l : list A) : (forall x, id (g x) = id x) ->
  (forall x y, R (if f x then g x else x) (if f y then g y else y) -> R x y) -> keyed id R l -> keyed id R (where_ f g l).
Proof.
  intros Hg HR [H1 H2]. split; [by rewrite where_ids|].
  intros x y (x' & Hx & ->)%elem_of_where (y' & Hy & ->)%elem_of_where E%HR.
  specialize (H2 x' y' Hx Hy E). destruct (f x'), (f y'); by rewrite ?Hg.
Qed.

(** The rows of one id changed, the new ones in nobody's way. *)
Lemma keyed_replace (f : A -> bool) (g : A -> A) (l : list A) : (forall x, id (g x) = id x) ->
  (forall x y, x ∈ l -> y ∈ l -> f x = true -> f y = true -> id x = id y) ->
  (forall x y, x ∈ l -> y ∈ l -> f x = true -> f y = false -> ~ R (g x) y /\ ~ R y (g x)) ->
  keyed id R l -> keyed id R (where_ f g l).
Proof.
  intros Hg Hf HR [H1 H2]. split; [by rewrite where_ids|].
  intros x y (x' & Hx & ->)%elem_of_where (y' & Hy & ->)%elem_of_where E.
  destruct (f x') eqn:Ex, (f y') eqn:Ey; rewrite ?Hg.
  - by apply Hf.
  - by destruct (HR x' y' Hx Hy Ex Ey).
  - by destruct (HR y' x' Hy Hx Ey Ex).
  - by apply H2.
Qed.

End keyed.

(** ** Selecting *)

Lemma filter_bool {A} (f : A -> bool) (l : list A) : filter (fun x => f x = true) l = List.filter f l.
Proof. induction l as [|x l IH]; [done|]. rewrite filter_cons. simpl. destruct (f x); simpl; by rewrite IH. Qed.

Lemma filter_and {A} (p q : A -> bool) l : List.filter p (List.filter q l) = List.filter (fun x => p x && q x) l.
Proof.
  induction l as [|x l IH]; simpl; [done|]. destruct (q x); simpl; [|by rewrite andb_false_r].
  rewrite andb_true_r. destruct (p x); by rewrite IH.
Qed.

Lemma filter_none {A} (f : A -> bool) (l : list A) : (forall x, x ∈ l -> f x = false) -> List.filter f l = [].
Proof.
  induction l as [|x l IH]; intros H; simpl; [done|]. rewrite (H x (list_elem_of_here _ _)). apply IH. intros y Hy. apply H. by right.
Qed.

Lemma filter_all {A} (f : A -> bool) (l : list A) : (forall x, x ∈ l -> f x = true) -> List.filter f l = l.
Proof.
  induction l as [|x l IH]; intros H; simpl; [done|]. rewrite (H x (list_elem_of_here _ _)). f_equal. apply IH. intros y Hy. apply H. by right.
Qed.

(** Elementwise facts may use that the element is there. *)
Lemma Forall2_impl_in {A B} (P Q : A -> B -> Prop) l k : Forall2 P l k -> (forall x y, x ∈ l -> P x y -> Q x y) -> Forall2 Q l k.
Proof.
  induction 1 as [|x y l k Hxy _ IH]; intros H; constructor; [apply H; [by left | done]|]. apply IH. intros a b Ha. apply H. by right.
Qed.

Section rows.
Context {A : Type} (p f : A -> bool).

Lemma filter_deleted l : (forall x, x ∈ l -> f x = true -> p x = false) -> List.filter p (deleted f l) = List.filter p l.
Proof.
  induction l as [|x l IH]; [done|]. intros H. unfold deleted. simpl. assert (IH' : List.filter p (deleted f l) = List.filter p l).
  { apply IH. intros y Hy. apply H. by right. }
  destruct (f x) eqn:E; simpl; [rewrite (H x (list_elem_of_here _ _) E); exact IH'|].
  unfold deleted in IH'. by rewrite IH'.
Qed.

Lemma filter_where (g : A -> A) l : (forall x, x ∈ l -> f x = true -> p x = false /\ p (g x) = false) ->
  List.filter p (where_ f g l) = List.filter p l.
Proof.
  induction l as [|x l IH]; [done|]. intros H.
  assert (IH' : List.filter p (where_ f g l) = List.filter p l) by (apply IH; intros y Hy; apply H; by right).
  change (where_ f g (x :: l)) with ((if f x then g x else x) :: where_ f g l). cbn [List.filter].
  destruct (f x) eqn:E; [|by rewrite IH']. destruct (H x (list_elem_of_here _ _) E) as [-> ->]. exact IH'.
Qed.

Lemma filter_snoc_out l x : p x = false -> List.filter p (l ++ [x]) = List.filter p l.
Proof. intros Hx. rewrite List.filter_app. simpl. rewrite Hx. by rewrite app_nil_r. Qed.

End rows.

(** ** Sorting under a filter *)

Section sorting.
Context {A : Type} (cmp : A -> A -> comparison).
Hypothesis trans : forall x y z, cmp x y <> Gt -> cmp y z <> Gt -> cmp x z <> Gt.
Hypothesis total : forall x y, cmp x y = Gt -> cmp y x <> Gt.

Fixpoint ascending (l : list A) : Prop :=
  match l with [] => True | x :: l => (forall y, y ∈ l -> cmp x y <> Gt) /\ ascending l end.

Lemma elem_of_insert_by x y l : y ∈ insert_by cmp x l <-> y = x \/ y ∈ l.
Proof. induction l as [|z l IH]; simpl; [set_solver|]. destruct (cmp x z); set_solver. Qed.

Lemma insert_ascending x l : ascending l -> ascending (insert_by cmp x l).
Proof.
  induction l as [|y l IH]; simpl; [set_solver|]. intros [Hy Hl]. destruct (cmp x y) eqn:E; simpl.
  1, 2: split; [|done]; intros z [->|Hz]%elem_of_cons; [congruence | apply (trans x y); [congruence | by apply Hy]].
  split; [|by apply IH]. intros z [->|Hz]%elem_of_insert_by; [by apply total | by apply Hy].
Qed.

Lemma sort_ascending l : ascending (sort_by cmp l).
Proof. induction l; simpl; [done | by apply insert_ascending]. Qed.

Lemma insert_front x l : (forall y, y ∈ l -> cmp x y <> Gt) -> insert_by cmp x l = x :: l.
Proof. destruct l as [|y l]; [done|]. intros H. simpl. specialize (H y (list_elem_of_here _ _)). by destruct (cmp x y). Qed.

Lemma filter_insert (f : A -> bool) x l : ascending l ->
  List.filter f (insert_by cmp x l) = if f x then insert_by cmp x (List.filter f l) else List.filter f l.
Proof.
  induction l as [|y l IH]; simpl; [by destruct (f x)|]. intros [Hy Hl]. destruct (cmp x y) eqn:E; simpl.
  1, 2: destruct (f x) eqn:Ex; [|done]; destruct (f y) eqn:Ey; simpl; [by rewrite E|];
    rewrite insert_front; [done|]; intros z [Hz _]%list_elem_of_In%filter_In;
    apply list_elem_of_In in Hz; apply (trans x y); [congruence | by apply Hy].
  rewrite (IH Hl). destruct (f x), (f y); simpl; by rewrite ?E.
Qed.

Lemma filter_sort (f : A -> bool) l : List.filter f (sort_by cmp l) = sort_by cmp (List.filter f l).
Proof.
  induction l as [|x l IH]; simpl; [done|]. rewrite filter_insert by apply sort_ascending.
  rewrite IH. by destruct (f x).
Qed.

End sorting.

Lemma find_filter {A} (f : A -> bool) l : List.find f l = head (List.filter f l).
Proof. induction l as [|x l IH]; simpl; [done|]. by destruct (f x). Qed.

Lemma filter_map {A B} (g : A -> B) (f : B -> bool) l : List.filter f (g <$> l) = g <$> List.filter (fun x => f (g x)) l.
Proof. induction l as [|x l IH]; simpl; [done|]. destruct (f (g x)); simpl; [f_equal|]; exact IH. Qed.

(** Longest first is a sort. *)
Definition longer {A} (key : A -> nat) (x y : A) : comparison := (key y ?= key x)%nat.

Lemma sort_desc_by {A} (key : A -> nat) l : sort_desc key l = sort_by (longer key) l.
Proof.
  induction l as [|x l IH]; simpl; [done|]. rewrite IH. clear IH. generalize (sort_by (longer key) l) as s. intros s.
  induction s as [|y s IH]; simpl; [done|]. unfold longer at 1. rewrite IH.
  destruct (Nat.compare_spec (key y) (key x)), (Nat.leb_spec (key y) (key x)); try done; lia.
Qed.

Lemma longer_trans {A} (key : A -> nat) x y z : longer key x y <> Gt -> longer key y z <> Gt -> longer key x z <> Gt.
Proof. unfold longer. rewrite !Nat.compare_gt_iff. lia. Qed.
Lemma longer_total {A} (key : A -> nat) x y : longer key x y = Gt -> longer key y x <> Gt.
Proof. unfold longer. rewrite !Nat.compare_gt_iff. lia. Qed.

(** Texts are ordered. *)
Lemma str_compare_trans a b c : str_compare a b <> Gt -> str_compare b c <> Gt -> str_compare a c <> Gt.
Proof.
  revert b c. induction a as [|x a IH]; intros [|y b] [|z c]; simpl; try done.
  destruct (Z.compare_spec (byte_val x) (byte_val y)) as [E1|E1|E1], (Z.compare_spec (byte_val y) (byte_val z)) as [E2|E2|E2];
    destruct (Z.compare_spec (byte_val x) (byte_val z)); try done; try lia. apply IH.
Qed.

Lemma str_compare_total a b : str_compare a b = Gt -> str_compare b a <> Gt.
Proof.
  revert b. induction a as [|x a IH]; intros [|y b]; simpl; try done.
  destruct (Z.compare_spec (byte_val x) (byte_val y)), (Z.compare_spec (byte_val y) (byte_val x)); try done; try lia. apply IH.
Qed.
