(* ===== verification/WgConfig.v ===== *)
(** * WireGuard configuration files

    [wardnet-common/src/wireguard_config.rs]: the parser of [.conf] files an
    admin imports as a tunnel.  The parser's mutable locals are the record
    [parser]; a [&mut] builder is a field of it. *)

From S2P Require Import Prelude RustStr.

Record WgInterfaceConfig : Type := {
  wi_private_key : str;
  wi_address : list str;
  wi_listen_port : option Z;
  wi_dns : list str;
}.

Record WgPeerConfig : Type := {
  wp_public_key : str;
  wp_endpoint : option str;
  wp_allowed_ips : list str;
  wp_preshared_key : option str;
  wp_persistent_keepalive : option Z;
}.

Record WgConfig : Type := { wg_interface : WgInterfaceConfig; wg_peers : list WgPeerConfig }.

Inductive WgConfigError : Type :=
| MissingInterface
| MissingPrivateKey
| MissingPeer
| MissingPublicKey
| InvalidLine (line : str)
| UnknownSection (name : str).

Definition split_csv (value : str) : list str :=
  filter (fun s => s <> []) (trim <$> split ","%char value).

Inductive Section_ : Type := SInterface | SPeer.

Record InterfaceBuilder : Type := {
  ib_private_key : option str;
  ib_address : list str;
  ib_listen_port : option Z;
  ib_dns : list str;
  ib_present : bool;
}.

Record PeerBuilder : Type := {
  pb_public_key : option str;
  pb_endpoint : option str;
  pb_allowed_ips : list str;
  pb_preshared_key : option str;
  pb_persistent_keepalive : option Z;
  pb_active : bool;
}.

Definition iface_default : InterfaceBuilder :=
  {| ib_private_key := None; ib_address := []; ib_listen_port := None; ib_dns := [];
     ib_present := false |}.

Definition peer_default : PeerBuilder :=
  {| pb_public_key := None; pb_endpoint := None; pb_allowed_ips := []; pb_preshared_key := None;
     pb_persistent_keepalive := None; pb_active := false |}.

(** [PeerBuilder::flush]: taking every field leaves the default builder. *)
Definition peer_flush (p : PeerBuilder) : result (option WgPeerConfig * PeerBuilder) WgConfigError :=
  if negb (pb_active p) then Ok (None, p)
  else
    match pb_public_key p with
    | None => Err MissingPublicKey
    | Some pk =>
        Ok (Some {| wp_public_key := pk; wp_endpoint := pb_endpoint p;
                    wp_allowed_ips := pb_allowed_ips p; wp_preshared_key := pb_preshared_key p;
                    wp_persistent_keepalive := pb_persistent_keepalive p |},
            peer_default)
    end.

Record parser : Type := {
  ps_section : option Section_;
  ps_iface : InterfaceBuilder;
  ps_peer : PeerBuilder;
  ps_peers : list WgPeerConfig;
}.

Definition parser_init : parser :=
  {| ps_section := None; ps_iface := iface_default; ps_peer := peer_default; ps_peers := [] |}.

Definition set_present (i : InterfaceBuilder) : InterfaceBuilder :=
  {| ib_private_key := ib_private_key i; ib_address := ib_address i;
     ib_listen_port := ib_listen_port i; ib_dns := ib_dns i; ib_present := true |}.

Definition set_active (p : PeerBuilder) : PeerBuilder :=
  {| pb_public_key := pb_public_key p; pb_endpoint := pb_endpoint p;
     pb_allowed_ips := pb_allowed_ips p; pb_preshared_key := pb_preshared_key p;
     pb_persistent_keepalive := pb_persistent_keepalive p; pb_active := true |}.

Definition push_peer (o : option WgPeerConfig) (l : list WgPeerConfig) : list WgPeerConfig :=
  match o with Some p => l ++ [p] | None => l end.

(** [&line[1..line.len() - 1]], lower case. *)
Definition header_name (line : str) : str :=
  to_ascii_lowercase (take (length line - 2) (drop 1 line)).

Definition parse_section_header (line : str) (st : parser) : result parser WgConfigError :=
  let header := header_name line in
  if bool_decide (header = of_string "interface") then
    Ok {| ps_section := Some SInterface; ps_iface := set_present (ps_iface st);
          ps_peer := ps_peer st; ps_peers := ps_peers st |}
  else if bool_decide (header = of_string "peer") then
    let? flushed := peer_flush (ps_peer st) in
    Ok {| ps_section := Some SPeer; ps_iface := ps_iface st; ps_peer := set_active (snd flushed);
          ps_peers := push_peer (fst flushed) (ps_peers st) |}
  else Err (UnknownSection header).

Definition iface_key (key value : str) (i : InterfaceBuilder) : InterfaceBuilder :=
  if bool_decide (key = of_string "privatekey") then
    {| ib_private_key := Some value; ib_address := ib_address i; ib_listen_port := ib_listen_port i;
       ib_dns := ib_dns i; ib_present := ib_present i |}
  else if bool_decide (key = of_string "address") then
    {| ib_private_key := ib_private_key i; ib_address := ib_address i ++ split_csv value;
       ib_listen_port := ib_listen_port i; ib_dns := ib_dns i; ib_present := ib_present i |}
  else if bool_decide (key = of_string "listenport") then
    {| ib_private_key := ib_private_key i; ib_address := ib_address i;
       ib_listen_port := parse_uint U16_MAX value; ib_dns := ib_dns i; ib_present := ib_present i |}
  else if bool_decide (key = of_string "dns") then
    {| ib_private_key := ib_private_key i; ib_address := ib_address i;
       ib_listen_port := ib_listen_port i; ib_dns := ib_dns i ++ split_csv value;
       ib_present := ib_present i |}
  else i.

Definition peer_key (key value : str) (p : PeerBuilder) : PeerBuilder :=
  if bool_decide (key = of_string "publickey") then
    {| pb_public_key := Some value; pb_endpoint := pb_endpoint p; pb_allowed_ips := pb_allowed_ips p;
       pb_preshared_key := pb_preshared_key p;
       pb_persistent_keepalive := pb_persistent_keepalive p; pb_active := pb_active p |}
  else if bool_decide (key = of_string "endpoint") then
    {| pb_public_key := pb_public_key p; pb_endpoint := Some value;
       pb_allowed_ips := pb_allowed_ips p; pb_preshared_key := pb_preshared_key p;
       pb_persistent_keepalive := pb_persistent_keepalive p; pb_active := pb_active p |}
  else if bool_decide (key = of_string "allowedips") then
    {| pb_public_key := pb_public_key p; pb_endpoint := pb_endpoint p;
       pb_allowed_ips := pb_allowed_ips p ++ split_csv value;
       pb_preshared_key := pb_preshared_key p;
       pb_persistent_keepalive := pb_persistent_keepalive p; pb_active := pb_active p |}
  else if bool_decide (key = of_string "presharedkey") then
    {| pb_public_key := pb_public_key p; pb_endpoint := pb_endpoint p;
       pb_allowed_ips := pb_allowed_ips p; pb_preshared_key := Some value;
       pb_persistent_keepalive := pb_persistent_keepalive p; pb_active := pb_active p |}
  else if bool_decide (key = of_string "persistentkeepalive") then
    {| pb_public_key := pb_public_key p; pb_endpoint := pb_endpoint p;
       pb_allowed_ips := pb_allowed_ips p; pb_preshared_key := pb_preshared_key p;
       pb_persistent_keepalive := parse_uint U16_MAX value; pb_active := pb_active p |}
  else p.

Definition apply_key_value (key value : str) (st : parser) : parser :=
  let key := to_ascii_lowercase key in
  match ps_section st with
  | Some SInterface =>
      {| ps_section := ps_section st; ps_iface := iface_key key value (ps_iface st);
         ps_peer := ps_peer st; ps_peers := ps_peers st |}
  | Some SPeer =>
      {| ps_section := ps_section st; ps_iface := ps_iface st;
         ps_peer := peer_key key value (ps_peer st); ps_peers := ps_peers st |}
  | None => st
  end.

(** A line after [raw_line.trim().trim_end_matches('\r')]. *)
Definition ignorable (line : str) : bool :=
  bool_decide (line = []) || starts_with "#" line || starts_with ";" line.

Definition is_header (line : str) : bool := starts_with "[" line && ends_with "]" line.

Definition CR : ascii := ascii_of_N 13.
Definition LF : ascii := ascii_of_N 10.

Definition clean (raw_line : str) : str := trim_end_matches CR (trim raw_line).

Definition parse_one (line : str) (st : parser) : result parser WgConfigError :=
  if ignorable line then Ok st
  else if is_header line then parse_section_header line st
  else
    match split_once "="%char line with
    | None => Err (InvalidLine line)
    | Some (key, value) => Ok (apply_key_value (trim key) (trim value) st)
    end.

Fixpoint parse_lines (raw_lines : list str) (st : parser) : result parser WgConfigError :=
  match raw_lines with
  | [] => Ok st
  | l :: ls => let? st := parse_one (clean l) st in parse_lines ls st
  end.

Definition validate_and_build (iface : InterfaceBuilder) (peers : list WgPeerConfig)
    : result WgConfig WgConfigError :=
  if negb (ib_present iface) then Err MissingInterface
  else
    match ib_private_key iface with
    | None => Err MissingPrivateKey
    | Some private_key =>
        match peers with
        | [] => Err MissingPeer
        | _ => Ok {| wg_interface := {| wi_private_key := private_key; wi_address := ib_address iface;
                                        wi_listen_port := ib_listen_port iface;
                                        wi_dns := ib_dns iface |};
                     wg_peers := peers |}
        end
    end.

Definition finish_parse (st : parser) : result WgConfig WgConfigError :=
  let? flushed := peer_flush (ps_peer st) in
  validate_and_build (ps_iface st) (push_peer (fst flushed) (ps_peers st)).

(** [str::lines]: an unterminated last line counts, an empty one does not; only
    a terminated line loses a trailing carriage return. *)
Fixpoint lines_of (pieces : list str) : list str :=
  match pieces with
  | [] => []
  | [last] => if bool_decide (last = []) then [] else [last]
  | p :: ps => default p (strip_suffix [CR] p) :: lines_of ps
  end.

Definition lines (s : str) : list str := lines_of (split LF s).

Definition wg_parse (input : str) : result WgConfig WgConfigError :=
  let? st := parse_lines (lines input) parser_init in finish_parse st.

(** ** The canonical text of a configuration *)

Definition kv (key value : str) : str := key ++ " = " ++ value.

Definition csv (items : list str) : str := join ", " items.

Definition csv_line (key : str) (items : list str) : list str :=
  match items with [] => [] | _ => [kv key (csv items)] end.

Definition opt_line (key : str) (o : option str) : list str :=
  match o with Some v => [kv key v] | None => [] end.

Definition interface_lines (i : WgInterfaceConfig) : list str :=
  [of_string "[Interface]"; kv "PrivateKey" (wi_private_key i)]
  ++ csv_line "Address" (wi_address i)
  ++ opt_line "ListenPort" (show_u32 <$> wi_listen_port i)
  ++ csv_line "DNS" (wi_dns i).

Definition peer_lines (p : WgPeerConfig) : list str :=
  [of_string "[Peer]"; kv "PublicKey" (wp_public_key p)]
  ++ opt_line "Endpoint" (wp_endpoint p)
  ++ csv_line "AllowedIPs" (wp_allowed_ips p)
  ++ opt_line "PresharedKey" (wp_preshared_key p)
  ++ opt_line "PersistentKeepalive" (show_u32 <$> wp_persistent_keepalive p).

Definition config_lines (c : WgConfig) : list str :=
  interface_lines (wg_interface c) ++ concat (peer_lines <$> wg_peers c).

(** Words: non-empty, printable, without spaces. *)
Definition word (w : str) : Prop := w <> [] /\ Forall (fun c => is_graphic c = true) w.
Definition item (w : str) : Prop := word w /\ ","%char ∉ w.

Definition interface_ok (i : WgInterfaceConfig) : Prop :=
  word (wi_private_key i) /\ Forall item (wi_address i) /\ Forall item (wi_dns i)
  /\ forall p, wi_listen_port i = Some p -> is_u16 p.

Definition peer_ok (p : WgPeerConfig) : Prop :=
  word (wp_public_key p) /\ (forall e, wp_endpoint p = Some e -> word e)
  /\ Forall item (wp_allowed_ips p) /\ (forall k, wp_preshared_key p = Some k -> word k)
  /\ forall n, wp_persistent_keepalive p = Some n -> is_u16 n.

Definition config_ok (c : WgConfig) : Prop :=
  interface_ok (wg_interface c) /\ Forall peer_ok (wg_peers c) /\ wg_peers c <> [].

(** ** Words and comma-separated values *)

Lemma word_ends w : word w -> exists c s, w = c :: s /\ is_graphic c = true
  /\ exists s' d, w = s' ++ [d] /\ is_graphic d = true.
Proof.
  intros [Hne Hg]. destruct w as [|c s]; [done|]. exists c, s. split; [done|].
  split; [by inversion Hg|]. destruct (exists_last Hne) as (s' & d & E). rewrite E in *.
  exists s', d. split; [done|]. apply Forall_app in Hg as [_ Hg]. by inversion Hg.
Qed.

Lemma trim_space v : trimmed v -> trim (" "%char :: v) = v.
Proof.
  intros [Hs He]. unfold trim, trim_start. cbn [length trim_with].
  assert (E : strip_any ws_chars (" "%char :: v) = Some v) by reflexivity. rewrite E.
  rewrite trim_with_None by done. unfold trim_end. rewrite trim_with_None by done.
  apply reverse_involutive.
Qed.

Lemma trimmed_between c s s' d : is_graphic c = true -> is_graphic d = true ->
  c :: s = s' ++ [d] -> trimmed (c :: s).
Proof.
  intros Hc Hd E. split; [by apply strip_any_graphic|]. rewrite E, reverse_app.
  by apply strip_any_graphic_rev.
Qed.

Lemma csv_ends items : items <> [] -> Forall item items ->
  exists c s s' d, csv items = c :: s /\ c :: s = s' ++ [d] /\ is_graphic c = true
    /\ is_graphic d = true.
Proof.
  intros Hne H. induction H as [|w items [Hw _] Hf IH]; [done|].
  destruct (word_ends w Hw) as (c & s & -> & Hc & s' & d & E & Hd).
  destruct items as [|w' items]; [by exists c, s, s', d|].
  destruct IH as (c1 & s1 & s2 & d2 & E1 & E2 & _ & Hd2); [done|].
  exists c, (s ++ ", " ++ csv (w' :: items)), ((c :: s) ++ ", " ++ s2), d2.
  split; [done|]. split; [|done]. rewrite E1, E2. by rewrite <- !app_assoc.
Qed.

Lemma csv_trimmed items : items <> [] -> Forall item items -> trimmed (csv items).
Proof.
  intros Hne H. destruct (csv_ends items Hne H) as (c & s & s' & d & -> & E & Hc & Hd).
  by eapply trimmed_between.
Qed.

Lemma word_trimmed w : word w -> trimmed w.
Proof. intros [_ H]. by apply trimmed_graphic. Qed.

Lemma split_csv_pieces items pre : items <> [] -> Forall item items -> pre = [] \/ pre = [" "%char] ->
  trim <$> split ","%char (pre ++ csv items) = items.
Proof.
  intros Hne H. revert pre. induction H as [|w items [Hw Hc] Hf IH]; [done|]. intros pre Hpre.
  assert (Ht : trim (pre ++ w) = w).
  { destruct Hpre as [->| ->]; [apply trim_id | apply trim_space]; by apply word_trimmed. }
  assert (Hn : ","%char ∉ pre ++ w) by (destruct Hpre as [->| ->]; set_solver).
  destruct items as [|w' items].
  - unfold csv. simpl. rewrite split_last_piece by done. simpl. by rewrite Ht.
  - change (csv (w :: w' :: items)) with (w ++ ","%char :: " "%char :: csv (w' :: items)).
    rewrite app_assoc, split_cons_piece, fmap_cons, Ht by done. f_equal.
    apply (IH ltac:(done) [" "%char]). by right.
Qed.

Lemma split_csv_join items : items <> [] -> Forall item items -> split_csv (csv items) = items.
Proof.
  intros Hne H. unfold split_csv.
  pose proof (split_csv_pieces items [] Hne H (or_introl eq_refl)) as E. simpl in E. rewrite E.
  clear Hne E. induction H as [|w items [[Hw _] _] _ IH]; [done|].
  rewrite filter_cons_True by done. by rewrite IH.
Qed.

Lemma parse_digits_bound b b' s : forall acc n, 0 <= acc ->
  parse_digits b acc s = Some n -> n <= b' -> acc <= n /\ parse_digits b' acc s = Some n.
Proof.
  induction s as [|c s IH]; intros acc n Ha; simpl; [intros [= <-]; by split|].
  destruct (is_ascii_digit c) eqn:Ed; [|done]. intros H Hn.
  assert (0 <= digit_val c).
  { unfold is_ascii_digit, in_range in Ed. unfold digit_val. breflect. lia. }
  destruct (Z.leb_spec (acc * 10 + digit_val c) b); [|done].
  destruct (IH (acc * 10 + digit_val c) n) as [Hle Hp]; [lia | done | done |].
  split; [lia|]. by rewrite (proj2 (Z.leb_le _ _)) by lia.
Qed.

Lemma parse_show_u16 n : is_u16 n -> parse_uint U16_MAX (show_u32 n) = Some n.
Proof.
  intros [Hlo Hhi]. assert (H : parse_uint U32_MAX (show_u32 n) = Some n).
  { apply parse_show_u32. split; [done|]. unfold U16_MAX, U32_MAX in *. lia. }
  unfold parse_uint in *. destruct (match show_u32 n with [] => _ | _ => _ end) as [|c s]; [done|].
  by eapply parse_digits_bound.
Qed.

(** ** Lines *)

(** The fold over lines already cleaned. *)
Fixpoint parse_clean (ls : list str) (st : parser) : result parser WgConfigError :=
  match ls with
  | [] => Ok st
  | l :: ls' => let? st := parse_one l st in parse_clean ls' st
  end.

Lemma parse_clean_app a b st :
  parse_clean (a ++ b) st = (let? st := parse_clean a st in parse_clean b st).
Proof.
  revert st. induction a as [|l a IH]; intros st; [done|]. simpl.
  destruct (parse_one l st); [apply IH | done].
Qed.

(** Comments, blank lines, indentation and line endings do not matter. *)
Lemma parse_lines_clean ls st :
  parse_lines ls st = parse_clean (filter (fun l => ignorable l = false) (clean <$> ls)) st.
Proof.
  revert st. induction ls as [|l ls IH]; intros st; [done|]. simpl. rewrite filter_cons. simpl.
  destruct (ignorable (clean l)) eqn:E.
  - unfold parse_one. rewrite E. apply IH.
  - rewrite decide_True by done. simpl. destruct (parse_one (clean l) st); [apply IH | done].
Qed.

(** Keys the printer writes. *)
Definition key_ok (k : str) : Prop :=
  exists c s, k = c :: s /\ c <> "["%char /\ c <> "#"%char /\ c <> ";"%char
    /\ ("="%char ∉ k ++ of_string " ") /\ trim (k ++ " ") = k.

Lemma parse_kv k v st : key_ok k -> trimmed v ->
  parse_one (kv k v) st = Ok (apply_key_value k v st).
Proof.
  intros (c & s & Hk & H1 & H2 & H3 & Heq & Ht) Hv. unfold parse_one.
  assert (Hsw : forall p x, p = [x] -> c <> x -> starts_with p (kv k v) = false).
  { intros p x -> Hx. unfold starts_with, kv. rewrite Hk. simpl. by rewrite bool_decide_eq_false_2. }
  unfold ignorable, is_header. rewrite (Hsw "#" "#"%char), (Hsw ";" ";"%char), (Hsw "[" "["%char) by done.
  rewrite bool_decide_eq_false_2 by (by rewrite Hk).
  simpl. assert (E : split_once "="%char (kv k v) = Some (k ++ " ", " "%char :: v)).
  { unfold kv. replace (k ++ " = " ++ v) with ((k ++ " ") ++ "="%char :: " "%char :: v)
      by (by rewrite <- app_assoc). unfold split_once. by apply split_at_char_Some. }
  rewrite E, Ht, trim_space by done. done.
Qed.

Lemma csv_line_step k items st (f : list str -> parser) : key_ok k -> Forall item items ->
  (forall v, apply_key_value k v st = f (split_csv v)) -> f [] = st ->
  parse_clean (csv_line k items) st = Ok (f items).
Proof.
  intros Hk Hi Hf Hn. destruct items as [|w items]; [by rewrite <- Hn at 1|].
  cbn [csv_line parse_clean]. rewrite parse_kv by (by try apply csv_trimmed).
  by rewrite Hf, split_csv_join.
Qed.

Lemma opt_line_step k o st (f : option str -> parser) : key_ok k ->
  (forall v, o = Some v -> trimmed v) ->
  (forall v, apply_key_value k v st = f (Some v)) -> f None = st ->
  parse_clean (opt_line k o) st = Ok (f o).
Proof.
  intros Hk Ho Hf Hn. destruct o as [v|]; [|by rewrite <- Hn at 1].
  cbn [opt_line parse_clean]. rewrite parse_kv by auto. by rewrite Hf.
Qed.

Ltac solve_key :=
  eexists _, _; split; [reflexivity|]; split_and!; [done..| |vm_compute; reflexivity];
  apply contains_false; vm_compute; reflexivity.

Lemma word_head_trimmed k v st : key_ok k -> word v ->
  parse_clean [kv k v] st = Ok (apply_key_value k v st).
Proof. intros Hk Hv. cbn [parse_clean]. by rewrite parse_kv by (by try apply word_trimmed). Qed.

Lemma show_digits_graphic fuel : forall n, 0 <= n ->
  Forall (fun c => is_graphic c = true) (show_digits fuel n).
Proof.
  assert (Hd : forall d, 0 <= d <= 9 -> is_graphic (digit_char d) = true).
  { intros d Hd. destruct (digit_char_val d Hd) as [H _]. revert H.
    unfold is_ascii_digit, is_graphic, in_range. intros H. breflect. lia. }
  induction fuel as [|fuel IH]; intros n Hn; simpl; [constructor|].
  destruct (Z.ltb_spec n 10); [repeat constructor; apply Hd; lia|].
  apply Forall_app. split; [apply IH; apply Z.div_pos; lia|]. repeat constructor. apply Hd.
  pose proof (Z.mod_pos_bound n 10). lia.
Qed.

Lemma port_trimmed o v : (forall p, o = Some p -> is_u16 p) -> show_u32 <$> o = Some v -> trimmed v.
Proof.
  intros Ho H. destruct o as [p|]; [|done]. injection H as <-. apply trimmed_graphic.
  apply show_digits_graphic. by destruct (Ho p eq_refl).
Qed.

Lemma port_parses o : (forall p, o = Some p -> is_u16 p) ->
  (show_u32 <$> o) ≫= parse_uint U16_MAX = o.
Proof. intros Ho. destruct o as [p|]; [|done]. simpl. by apply parse_show_u16, Ho. Qed.

(** ** Sections *)

Definition iface_built (i : WgInterfaceConfig) : InterfaceBuilder :=
  {| ib_private_key := Some (wi_private_key i); ib_address := wi_address i;
     ib_listen_port := wi_listen_port i; ib_dns := wi_dns i; ib_present := true |}.

Lemma interface_parses i : interface_ok i ->
  parse_clean (interface_lines i) parser_init
  = Ok {| ps_section := Some SInterface; ps_iface := iface_built i; ps_peer := peer_default;
          ps_peers := [] |}.
Proof.
  intros (Hk & Ha & Hd & Hp).
  set (st a p d := {| ps_section := Some SInterface;
    ps_iface := {| ib_private_key := Some (wi_private_key i); ib_address := a; ib_listen_port := p;
                   ib_dns := d; ib_present := true |};
    ps_peer := peer_default; ps_peers := [] |}).
  unfold interface_lines. rewrite parse_clean_app.
  assert (E1 : parse_clean [of_string "[Interface]"; kv "PrivateKey" (wi_private_key i)] parser_init
    = Ok (st [] None [])).
  { change (parse_clean [kv "PrivateKey" (wi_private_key i)]
      {| ps_section := Some SInterface; ps_iface := set_present iface_default;
         ps_peer := peer_default; ps_peers := [] |} = Ok (st [] None [])).
    rewrite word_head_trimmed; [done | solve_key | done]. }
  rewrite E1. cbv beta iota. rewrite parse_clean_app.
  rewrite (csv_line_step _ _ _ (fun a => st a None [])); [|solve_key | done | done | done].
  cbv beta iota. rewrite parse_clean_app.
  rewrite (opt_line_step _ _ _ (fun o => st (wi_address i) (o ≫= parse_uint U16_MAX) []));
    [|solve_key | intros v; by apply port_trimmed | done | done].
  cbv beta iota. rewrite port_parses by done.
  rewrite (csv_line_step _ _ _ (fun d => st (wi_address i) (wi_listen_port i) d));
    [done | solve_key | done | done | done].
Qed.

Definition peer_built (p : WgPeerConfig) : PeerBuilder :=
  {| pb_public_key := Some (wp_public_key p); pb_endpoint := wp_endpoint p;
     pb_allowed_ips := wp_allowed_ips p; pb_preshared_key := wp_preshared_key p;
     pb_persistent_keepalive := wp_persistent_keepalive p; pb_active := true |}.

(** One peer section after any section whose peer, if any, is complete. *)
Lemma peer_parses p s i pb peers o : peer_ok p -> peer_flush pb = Ok (o, peer_default) ->
  parse_clean (peer_lines p) {| ps_section := s; ps_iface := i; ps_peer := pb; ps_peers := peers |}
  = Ok {| ps_section := Some SPeer; ps_iface := i; ps_peer := peer_built p;
          ps_peers := push_peer o peers |}.
Proof.
  intros (Hk & He & Ha & Hpsk & Hka) Hfl.
  set (st e a k n := {| ps_section := Some SPeer; ps_iface := i;
    ps_peer := {| pb_public_key := Some (wp_public_key p); pb_endpoint := e; pb_allowed_ips := a;
                  pb_preshared_key := k; pb_persistent_keepalive := n; pb_active := true |};
    ps_peers := push_peer o peers |}).
  unfold peer_lines. rewrite parse_clean_app.
  assert (E1 : parse_clean [of_string "[Peer]"; kv "PublicKey" (wp_public_key p)]
    {| ps_section := s; ps_iface := i; ps_peer := pb; ps_peers := peers |}
    = Ok (st None [] None None)).
  { transitivity (parse_clean [kv "PublicKey" (wp_public_key p)]
      {| ps_section := Some SPeer; ps_iface := i; ps_peer := set_active peer_default;
         ps_peers := push_peer o peers |}).
    - cbn [parse_clean]. change (parse_one (of_string "[Peer]") ?st) with
        (parse_section_header (of_string "[Peer]") st).
      unfold parse_section_header. cbn [ps_peer]. rewrite Hfl. reflexivity.
    - rewrite word_head_trimmed; [done | solve_key | done]. }
  rewrite E1. cbv beta iota. rewrite parse_clean_app.
  rewrite (opt_line_step _ _ _ (fun e => st e [] None None));
    [|solve_key | intros v Hv; by apply word_trimmed, He | done | done].
  cbv beta iota. rewrite parse_clean_app.
  rewrite (csv_line_step _ _ _ (fun a => st (wp_endpoint p) a None None));
    [|solve_key | done | done | done].
  cbv beta iota. rewrite parse_clean_app.
  rewrite (opt_line_step _ _ _ (fun k => st (wp_endpoint p) (wp_allowed_ips p) k None));
    [|solve_key | intros v Hv; by apply word_trimmed, Hpsk | done | done].
  cbv beta iota.
  rewrite (opt_line_step _ _ _ (fun n => st (wp_endpoint p) (wp_allowed_ips p) (wp_preshared_key p)
    (n ≫= parse_uint U16_MAX))); [|solve_key | intros v; by apply port_trimmed | done | done].
  by rewrite port_parses.
Qed.

Lemma peers_parse i ps : Forall peer_ok ps -> forall s pb peers o, ps <> [] ->
  peer_flush pb = Ok (o, peer_default) ->
  exists st, parse_clean (concat (peer_lines <$> ps))
      {| ps_section := s; ps_iface := i; ps_peer := pb; ps_peers := peers |} = Ok st
    /\ ps_iface st = i /\ exists q, peer_flush (ps_peer st) = Ok (Some q, peer_default)
    /\ ps_peers st ++ [q] = push_peer o peers ++ ps.
Proof.
  induction 1 as [|p ps Hp Hps IH]; [done|]. intros s pb peers o _ Hfl.
  change (concat (peer_lines <$> p :: ps)) with (peer_lines p ++ concat (peer_lines <$> ps)).
  rewrite parse_clean_app, (peer_parses p s i pb peers o Hp Hfl).
  destruct ps as [|p' ps].
  - simpl. eexists. split; [done|]. split; [done|]. exists p. split; [by destruct p | done].
  - destruct (IH (Some SPeer) (peer_built p) (push_peer o peers) (Some p)) as (st & Hst & Hi & q & Hq & Hl);
      [done | by destruct p|].
    exists st. split; [exact Hst|]. split; [done|]. exists q. split; [done|]. rewrite Hl. simpl.
    by rewrite <- app_assoc.
Qed.

Lemma canonical_parses input c : config_ok c ->
  filter (fun l => ignorable l = false) (clean <$> lines input) = config_lines c ->
  wg_parse input = Ok c.
Proof.
  intros (Hi & Hp & Hne) Hl. unfold wg_parse. rewrite parse_lines_clean, Hl.
  unfold config_lines. rewrite parse_clean_app, (interface_parses _ Hi).
  destruct (peers_parse (iface_built (wg_interface c)) (wg_peers c) Hp (Some SInterface) peer_default
    [] None Hne eq_refl) as (st & Hst & Hif & q & Hq & Hps).
  cbv beta iota. rewrite Hst. unfold finish_parse. rewrite Hq, Hif. simpl in *. rewrite Hps.
  unfold validate_and_build. simpl. destruct c as [[] ps], ps; [done | reflexivity].
Qed.

(** C24: a file whose significant lines (comments, blank lines, indentation and
    line endings aside) are the canonical text of a configuration parses to
    exactly that configuration: every key, list, port and peer, in order. *)
Theorem wg_roundtrip input c : config_ok c ->
  filter (fun l => ignorable l = false) (clean <$> lines input) = config_lines c ->
  wg_parse input = Ok c.
Proof. apply canonical_parses. Qed.

(** ** No peer is lost *)

Definition names_section (name : str) (l : str) : Prop :=
  ignorable l = false /\ is_header l = true /\ header_name l = name.

#[export] Instance names_section_dec name l : Decision (names_section name l).
Proof. unfold names_section. apply _. Defined.

Definition sections (name : str) (ls : list str) : nat := length (filter (names_section name) ls).

Lemma sections_cons name l ls : sections name (l :: ls) = (sections name [l] + sections name ls)%nat.
Proof. unfold sections. rewrite !filter_cons, filter_nil. case_decide; cbn [length]; lia. Qed.

Lemma sections_significant name ls :
  sections name (filter (fun l => ignorable l = false) ls) = sections name ls.
Proof.
  induction ls as [|l ls IH]; [done|]. rewrite filter_cons, (sections_cons name l ls). case_decide as Hi.
  - by rewrite sections_cons, IH.
  - rewrite IH. unfold sections at 2. rewrite filter_cons, filter_nil.
    by rewrite decide_False by (by intros [? _]).
Qed.

(** Peers finished or under way. *)
Definition peers_seen (st : parser) : nat :=
  (length (ps_peers st) + if pb_active (ps_peer st) then 1 else 0)%nat.

Lemma push_peer_length o l : length (push_peer o l) = (length l + match o with Some _ => 1 | None => 0 end)%nat.
Proof. destruct o; simpl; [rewrite length_app; simpl|]; lia. Qed.

Lemma peer_flush_seen pb o pb' : peer_flush pb = Ok (o, pb') ->
  match o with Some _ => 1%nat | None => 0%nat end = (if pb_active pb then 1 else 0)%nat /\ pb_active pb' = false.
Proof.
  unfold peer_flush. destruct (pb_active pb) eqn:E; simpl.
  - destruct (pb_public_key pb); [|done]. by intros [= <- <-].
  - intros [= <- <-]. done.
Qed.

Lemma peer_key_active k v p : pb_active (peer_key k v p) = pb_active p.
Proof. unfold peer_key. by repeat case_bool_decide. Qed.

Lemma iface_key_present k v i : ib_present (iface_key k v i) = ib_present i.
Proof. unfold iface_key. by repeat case_bool_decide. Qed.

Lemma apply_key_value_seen k v st : peers_seen (apply_key_value k v st) = peers_seen st
  /\ ib_present (ps_iface (apply_key_value k v st)) = ib_present (ps_iface st).
Proof.
  unfold apply_key_value, peers_seen. destruct (ps_section st) as [[]|]; simpl;
    rewrite ?peer_key_active, ?iface_key_present; done.
Qed.

Lemma parse_one_seen l st st' : parse_one l st = Ok st' ->
  peers_seen st' = (peers_seen st + sections "peer" [l])%nat
  /\ (ib_present (ps_iface st') = true ->
      ib_present (ps_iface st) = true \/ names_section "interface" l).
Proof.
  unfold parse_one, sections. rewrite filter_cons, filter_nil.
  destruct (ignorable l) eqn:Ei.
  { intros [= <-]. rewrite decide_False by (intros [? _]; congruence). simpl. split; [lia | by left]. }
  destruct (is_header l) eqn:Eh.
  - unfold parse_section_header. case_bool_decide as E1; [|case_bool_decide as E2; [|done]].
    + intros [= <-]. rewrite decide_False by (intros (_ & _ & E); by rewrite E1 in E).
      unfold peers_seen. simpl. split; [lia | by right].
    + rewrite decide_True by done. destruct (peer_flush (ps_peer st)) as [[o pb]|] eqn:Ef; [|done].
      intros [= <-]. apply peer_flush_seen in Ef as [Ho Hpb]. unfold peers_seen. simpl.
      rewrite push_peer_length, Ho. split; [lia | by left].
  - rewrite decide_False by (intros (_ & ? & _); congruence).
    destruct (split_once _ _) as [[k v]|]; [|done]. intros [= <-].
    destruct (apply_key_value_seen (trim k) (trim v) st) as [-> ->]. simpl. split; [lia | by left].
Qed.

Lemma parse_clean_seen ls : forall st st', parse_clean ls st = Ok st' ->
  peers_seen st' = (peers_seen st + sections "peer" ls)%nat
  /\ (ib_present (ps_iface st') = true ->
      ib_present (ps_iface st) = true \/ Exists (names_section "interface") ls).
Proof.
  induction ls as [|l ls IH]; intros st st'; cbn [parse_clean].
  - intros [= <-]. split; [unfold sections; rewrite filter_nil; simpl; lia | by left].
  - destruct (parse_one l st) as [st1|] eqn:E; [|done]. intros H.
    destruct (parse_one_seen l st st1 E) as [H1 H2]. destruct (IH st1 st' H) as [H3 H4].
    split.
    + rewrite H3, H1, (sections_cons _ l ls). lia.
    + intros [Hp|He]%H4; [destruct (H2 Hp); [by left | right; by constructor] | right; by constructor].
Qed.

(** An accepted file has an [Interface] section, and the configuration has
    exactly one peer per [Peer] section of the file, at least one, whatever else
    the file contains. *)
Theorem wg_parse_peers input c : wg_parse input = Ok c ->
  let ls := clean <$> lines input in
  length (wg_peers c) = sections "peer" ls /\ wg_peers c <> []
  /\ exists l, l ∈ ls /\ names_section "interface" l.
Proof.
  unfold wg_parse. rewrite parse_lines_clean. set (sig := filter _ _).
  destruct (parse_clean sig parser_init) as [st|] eqn:E; [|done].
  destruct (parse_clean_seen sig parser_init st E) as [Hc Hp]. unfold finish_parse.
  destruct (peer_flush (ps_peer st)) as [[o pb]|] eqn:Ef; [|done].
  apply peer_flush_seen in Ef as [Ho _]. unfold validate_and_build. simpl.
  destruct (ib_present (ps_iface st)) eqn:Ei; [|done]. simpl.
  destruct (ib_private_key (ps_iface st)) as [pk|]; [|done].
  destruct (push_peer o (ps_peers st)) as [|p ps] eqn:Epp; [done|]. intros [= <-].
  pose proof (sections_significant "peer" (clean <$> lines input)) as Hsig. fold sig in Hsig.
  assert (Hlen : length (p :: ps) = sections "peer" sig).
  { rewrite <- Epp, push_peer_length, Ho. unfold peers_seen in Hc.
    cbn [ps_peers ps_peer pb_active parser_init peer_default length] in Hc. lia. }
  split; [|split; [done|]].
  - change (length (p :: ps) = sections "peer" (clean <$> lines input)). by rewrite Hlen, Hsig.
  - destruct (Hp eq_refl) as [Hx|Hx]; [done|]. apply Exists_exists in Hx as (l & Hl & Hn).
    exists l. split; [|done]. by apply list_elem_of_filter in Hl as [_ ?].
Qed.
