(* ===== verification/Jobs.v ===== *)
(** * Background jobs

    [wardnetd-services/src/jobs.rs] with the types of [wardnet-common/src/jobs.rs]: the
    registry of dispatched jobs, what a job's task does to its entry, and the sweep of
    terminated jobs.  Every definition is one critical section under the registry's lock. *)

From S2P Require Import Prelude RustStr.

Inductive JobKind : Type := BlocklistRefresh | SpeedTest.
Inductive JobStatus : Type := JobPending | JobRunning | JobSucceeded | JobFailed.
#[export] Instance JobStatus_eq_dec : EqDecision JobStatus.
Proof. solve_decision. Defined.

Definition is_terminal (s : JobStatus) : bool := match s with JobSucceeded | JobFailed => true | _ => false end.

Record Job : Type := {
  jb_id : Z; jb_kind : JobKind; jb_status : JobStatus; jb_percentage_done : Z; jb_error : option str;
  jb_created_at : Z; jb_updated_at : Z;
}.

(** Seconds. *)
Definition JOB_GC_TTL : Z := 30 * 60.

Abbreviation JobRegistry := (gmap Z Job).

(** The entry [dispatch_boxed] inserts. *)
Definition new_job (id : Z) (kind : JobKind) (now : Z) : Job :=
  {| jb_id := id; jb_kind := kind; jb_status := JobPending; jb_percentage_done := 0; jb_error := None;
     jb_created_at := now; jb_updated_at := now |}.
Definition insert_job (id : Z) (kind : JobKind) (now : Z) (reg : JobRegistry) : JobRegistry := <[id := new_job id kind now]> reg.

(** The task: running, and its result. *)
Definition running (now : Z) (j : Job) : Job :=
  {| jb_id := jb_id j; jb_kind := jb_kind j; jb_status := JobRunning; jb_percentage_done := jb_percentage_done j;
     jb_error := jb_error j; jb_created_at := jb_created_at j; jb_updated_at := now |}.
Definition mark_running (id : Z) (now : Z) (reg : JobRegistry) : JobRegistry := alter (running now) id reg.

Definition ended (r : result unit str) (now : Z) (j : Job) : Job :=
  match r with
  | Ok _ => {| jb_id := jb_id j; jb_kind := jb_kind j; jb_status := JobSucceeded; jb_percentage_done := 100;
               jb_error := jb_error j; jb_created_at := jb_created_at j; jb_updated_at := now |}
  | Err e => {| jb_id := jb_id j; jb_kind := jb_kind j; jb_status := JobFailed; jb_percentage_done := jb_percentage_done j;
                jb_error := Some e; jb_created_at := jb_created_at j; jb_updated_at := now |}
  end.
Definition record_result (id : Z) (r : result unit str) (now : Z) (reg : JobRegistry) : JobRegistry := alter (ended r now) id reg.

(** [ProgressReporter::set_progress] *)
Definition progressed (percentage now : Z) (j : Job) : Job :=
  let pct := Z.min percentage 100 in
  if jb_percentage_done j =? pct then j
  else {| jb_id := jb_id j; jb_kind := jb_kind j; jb_status := jb_status j; jb_percentage_done := pct;
          jb_error := jb_error j; jb_created_at := jb_created_at j; jb_updated_at := now |}.
Definition set_progress (id : Z) (percentage now : Z) (reg : JobRegistry) : JobRegistry := alter (progressed percentage now) id reg.

(** One round of the collector. *)
Definition expired (now : Z) (j : Job) : bool := is_terminal (jb_status j) && (jb_updated_at j <? now - JOB_GC_TTL).
Definition sweep (now : Z) (reg : JobRegistry) : JobRegistry := filter (fun kv => expired now kv.2 = false) reg.

Definition get_job (id : Z) (reg : JobRegistry) : option Job := reg !! id.

(** ** The life of a job *)

(** What a task still has to do. *)
Inductive Phase : Type := Spawned | Working | Recorded.

Record JobWorld : Type := { jw_registry : JobRegistry; jw_tasks : gmap Z Phase; jw_now : Z }.

Definition jw (reg : JobRegistry) (tasks : gmap Z Phase) (w : JobWorld) : JobWorld :=
  {| jw_registry := reg; jw_tasks := tasks; jw_now := jw_now w |}.

(** Dispatching under a new id, a task's steps in their order (one that panics takes no
    more), the collector's round and the clock. *)
Inductive jstep : JobWorld -> JobWorld -> Prop :=
| jstep_dispatch id kind w : jw_tasks w !! id = None ->
    jstep w (jw (insert_job id kind (jw_now w) (jw_registry w)) (<[id := Spawned]> (jw_tasks w)) w)
| jstep_start id w : jw_tasks w !! id = Some Spawned ->
    jstep w (jw (mark_running id (jw_now w) (jw_registry w)) (<[id := Working]> (jw_tasks w)) w)
| jstep_progress id pct w : jw_tasks w !! id = Some Working -> 0 <= pct <= 255 ->
    jstep w (jw (set_progress id pct (jw_now w) (jw_registry w)) (jw_tasks w) w)
| jstep_end id r w : jw_tasks w !! id = Some Working ->
    jstep w (jw (record_result id r (jw_now w) (jw_registry w)) (<[id := Recorded]> (jw_tasks w)) w)
| jstep_sweep w : jstep w (jw (sweep (jw_now w) (jw_registry w)) (jw_tasks w) w)
| jstep_clock now w : jw_now w <= now -> jstep w {| jw_registry := jw_registry w; jw_tasks := jw_tasks w; jw_now := now |}.

Definition new_jobs (now : Z) : JobWorld := {| jw_registry := ∅; jw_tasks := ∅; jw_now := now |}.

(** An entry as the phase of its task has it. *)
Definition fits (j : Job) (p : Phase) : Prop :=
  match p with
  | Spawned => jb_status j = JobPending /\ jb_error j = None /\ jb_percentage_done j = 0
  | Working => jb_status j = JobRunning /\ jb_error j = None /\ 0 <= jb_percentage_done j <= 100
  | Recorded => jb_status j = JobSucceeded /\ jb_error j = None /\ jb_percentage_done j = 100
                \/ jb_status j = JobFailed /\ is_Some (jb_error j) /\ 0 <= jb_percentage_done j <= 100
  end.

Record jobs_ok (w : JobWorld) : Prop := {
  jo_entry id p : jw_tasks w !! id = Some p ->
    match jw_registry w !! id with Some j => jb_id j = id /\ fits j p /\ jb_updated_at j <= jw_now w | None => p = Recorded end;
  jo_task id j : jw_registry w !! id = Some j -> is_Some (jw_tasks w !! id);
}.

Lemma jobs_ok_alter id p0 p f w : jobs_ok w -> jw_tasks w !! id = Some p0 -> p0 <> Recorded ->
  (forall j, jb_id j = id -> fits j p0 -> jb_updated_at j <= jw_now w -> jb_id (f j) = id /\ fits (f j) p /\ jb_updated_at (f j) <= jw_now w) ->
  jobs_ok (jw (alter f id (jw_registry w)) (<[id := p]> (jw_tasks w)) w).
Proof.
  intros [H1 H2] Hp Hne Hf. specialize (H1 id p0 Hp) as Hid. destruct (jw_registry w !! id) as [j|] eqn:Ej; [|done].
  destruct Hid as (E1 & E2 & E3). split; simpl.
  - intros x q [[<- <-]|[Hx Hq]]%lookup_insert_Some; [rewrite lookup_alter_eq, Ej; by apply Hf|]. rewrite lookup_alter_ne by done. by apply H1.
  - intros x k Hk. destruct (decide (x = id)) as [->|Hx]; [rewrite lookup_insert_eq; by eexists|].
    rewrite lookup_insert_ne by done. rewrite lookup_alter_ne in Hk by done. by eapply H2.
Qed.

Lemma progressed_fits pct now j : 0 <= pct <= 255 -> fits j Working -> fits (progressed pct now j) Working.
Proof. unfold progressed, fits. intros Hp (E1 & E2 & E3). destruct (_ =? _); simpl; [done|]. split_and!; [done | done | lia..]. Qed.

Lemma jobs_ok_step w w' : jstep w w' -> jobs_ok w -> jobs_ok w'.
Proof.
  intros Hs H. destruct Hs as [id kind w Hid|id w Hid|id pct w Hid Hp|id r w Hid|w|now w Hn].
  - destruct H as [H1 H2]. split; simpl; unfold insert_job.
    + intros x p [[<- <-]|[Hx Hq]]%lookup_insert_Some; [by rewrite lookup_insert_eq|]. rewrite lookup_insert_ne by done. by apply H1.
    + intros x j [[<- _]|[Hx Hj]]%lookup_insert_Some; [rewrite lookup_insert_eq; by eexists|]. rewrite lookup_insert_ne by done. by eapply H2.
  - eapply jobs_ok_alter; [exact H | exact Hid | done|]. simpl. intros j E1 (E2 & E3 & E4) E5. split_and!; simpl; [done | done | done | lia..].
  - assert (E : jw_tasks w = <[id := Working]> (jw_tasks w)) by (by rewrite insert_id). rewrite E.
    eapply jobs_ok_alter; [exact H | exact Hid | done|]. intros j E1 E2 E3. split_and!; [|by apply progressed_fits|]; unfold progressed; by destruct (_ =? _).
  - eapply jobs_ok_alter; [exact H | exact Hid | done|]. simpl. intros j E1 (E2 & E3 & E4) E5. destruct r as [[]|e]; simpl; split_and!; try done; [by left | right; split_and!; [done | by eexists | lia..]].
  - destruct H as [H1 H2]. split; simpl; unfold sweep.
    + intros x p Hp. specialize (H1 x p Hp). destruct (filter _ _ !! x) as [j|] eqn:E.
      * apply map_lookup_filter_Some in E as [E _]. by rewrite E in H1.
      * destruct (jw_registry w !! x) as [j|] eqn:Ej; [|done]. apply map_lookup_filter_None in E as [E|E]; [congruence|].
        specialize (E j Ej). simpl in E. destruct (expired (jw_now w) j) eqn:Ex; [|done]. destruct H1 as (_ & Hf & _).
        unfold expired in Ex. apply andb_true_iff in Ex as [Ht _]. destruct p; simpl in Hf; [destruct Hf as [Hs _]; by rewrite Hs in Ht..|done].
    + intros x j [Hj _]%map_lookup_filter_Some. by eapply H2.
  - destruct H as [H1 H2]. split; [|exact H2]. simpl. intros x p Hp. specialize (H1 x p Hp). destruct (jw_registry w !! x) as [j|]; [|done].
    destruct H1 as (E1 & E2 & E3). split_and!; [done | done | lia].
Qed.

Lemma jobs_reached now w : rtc jstep (new_jobs now) w -> jobs_ok w.
Proof.
  intros Hr. assert (H : jobs_ok (new_jobs now)) by (split; simpl; intros *; by rewrite lookup_empty). revert H.
  induction Hr as [|x y z Hxy _ IH]; [done|]. intros H. by apply IH, (jobs_ok_step x).
Qed.

Lemma recorded_step w w' id j : jstep w w' -> jobs_ok w -> jw_registry w !! id = Some j -> jw_tasks w !! id = Some Recorded ->
  jw_now w' <= jb_updated_at j + JOB_GC_TTL -> jw_registry w' !! id = Some j /\ jw_tasks w' !! id = Some Recorded.
Proof.
  intros Hs Hok Hj Ht Hn. destruct Hs as [x kind w Hx|x w Hx|x pct w Hx Hp|x r w Hx|w|now w Hc]; simpl in *.
  1, 2, 4: assert (x <> id) by congruence; unfold insert_job, mark_running, record_result;
    rewrite ?lookup_insert_ne, ?lookup_alter_ne by done; done.
  - assert (x <> id) by congruence. unfold set_progress. rewrite lookup_alter_ne by done. done.
  - split; [|done]. apply map_lookup_filter_Some. split; [done|]. simpl. unfold expired. apply andb_false_iff. right. apply Z.ltb_ge. lia.
  - done.
Qed.

Lemma clock_grows w w' : rtc jstep w w' -> jw_now w <= jw_now w'.
Proof. induction 1 as [|x y z Hxy _ IH]; [lia|]. destruct Hxy; simpl in *; lia. Qed.

(** A job's entry always fits what its task has done: pending until it starts, then
    running, then succeeded at one hundred percent without an error or failed with one;
    a task that has not ended can always be polled; and an ended job's entry stays,
    unchanged, for half an hour, whatever else happens. *)
Theorem job_lifecycle now w w' id p : rtc jstep (new_jobs now) w -> jw_tasks w !! id = Some p ->
  match get_job id (jw_registry w) with
  | Some j => fits j p /\ (rtc jstep w w' -> p = Recorded -> jw_now w' <= jb_updated_at j + JOB_GC_TTL -> get_job id (jw_registry w') = Some j)
  | None => p = Recorded
  end.
Proof.
  intros Hr Hp. pose proof (jobs_reached now w Hr) as Hok. pose proof (jo_entry _ Hok id p Hp) as He. unfold get_job.
  destruct (jw_registry w !! id) as [j|] eqn:Ej; [|done]. destruct He as (_ & Hf & _). split; [done|]. intros Hr' -> Hn. clear Hr Hf.
  revert Hok Hp Ej. induction Hr' as [|x y z Hxy Hyz IH]; [done|]. intros Hok Hp Ej.
  destruct (recorded_step x y id j Hxy Hok Ej Hp) as [E1 E2]; [apply clock_grows in Hyz; lia|]. by apply IH; [|eapply jobs_ok_step| |].
Qed.
