(* ===== verification/FilterTypes.v ===== *)
(** * DNS filter management: data and state

    The rows of the [dns_filter_*] tables, the requests of the management API, the
    events and the compiled cache of [dns_filter/service.rs].

    The cache shares its compiled filters: a profile holds the same
    [Arc<ArcSwap<DnsFilter>>] as [blocklist_filters], and a device context the same
    [Arc<ArcSwap<RuntimeDnsFilterProfile>>] as [profiles].  A slot is an address of
    [fm_filters] or [fm_runtime]; storing into it is seen by everybody who holds it.

    Ids hold the UUID they are the text of; times are epoch seconds.  [fl_faults] is
    an oracle for storage failures: a statement consumes one entry, and [Some e]
    makes it fail with [e] without effect. *)

From S2P Require Import Prelude RustStr Net Auth FilterParser DnsFilter PolicyRouter RoutingTypes ZoneTypes PolicyDb Tables.

(** ** Rows *)

Record DnsFilterProfile : Type := {
  pf_id : Uuid; pf_name : str; pf_description : option str; pf_builtin : bool; pf_created_at : Z; pf_updated_at : Z;
}.

Record Blocklist : Type := {
  bl_id : Uuid; bl_profile_id : Uuid; bl_name : str; bl_url : str; bl_enabled : bool; bl_entry_count : Z;
  bl_last_updated : option Z; bl_cron_schedule : str; bl_last_error : option str; bl_last_error_at : option Z;
  bl_consecutive_failures : Z; bl_created_at : Z; bl_updated_at : Z;
}.

(** A row of [dns_filter_blocklists]: what [into_blocklist] makes a [Blocklist] of, and the
    generation its readers are pinned to. *)
Record DbBlocklistRow : Type := { db_blocklist : Blocklist; db_active_generation : Z }.

Record DomainRow : Type := { dm_domain : str; dm_blocklist_id : Uuid; dm_generation : Z }.

Record AllowlistEntry : Type := {
  al_id : Uuid; al_profile_id : Uuid; al_domain : str; al_reason : option str; al_created_at : Z;
}.

Record CustomFilterRule : Type := {
  ru_id : Uuid; ru_profile_id : Uuid; ru_rule_text : str; ru_enabled : bool; ru_comment : option str;
  ru_created_at : Z; ru_updated_at : Z;
}.

Record SettingsRow : Type := { st_device_id : Uuid; st_enabled : bool; st_updated_at : Z }.
Record DeviceProfileRow : Type := { dp_device_id : Uuid; dp_profile_id : Uuid }.
Record DefaultProfileRow : Type := { df_profile_id : Uuid; df_created_at : Z }.

Record DeviceDnsFilterSettings : Type := {
  fs_device_id : Uuid; fs_filtering : bool; fs_profile_ids : list Uuid; fs_updated_at : Z;
}.
Record DeviceSettingsWithIp : Type := { ws_settings : DeviceDnsFilterSettings; ws_ip : option str }.

Record DnsFilterConfig : Type := {
  fc_enabled : bool; fc_default_profile_ids : list Uuid; fc_blocklist_failure_alert_threshold : Z;
}.

Definition default_blocklist_failure_alert_threshold : Z := 5.
Definition default_filter_config : DnsFilterConfig :=
  {| fc_enabled := true; fc_default_profile_ids := [];
     fc_blocklist_failure_alert_threshold := default_blocklist_failure_alert_threshold |}.

Definition default_for (device_id : Uuid) (now : Z) : DeviceDnsFilterSettings :=
  {| fs_device_id := device_id; fs_filtering := true; fs_profile_ids := []; fs_updated_at := now |}.

Record ProfileFilterInputs : Type := { pi_allowlist : list str; pi_custom_rules : list str }.

(** ** Requests *)

Record CreateProfileRequest : Type := { cp_name : str; cp_description : option str }.
Record UpdateProfileRequest : Type := { up_name : option str; up_description : option (option str) }.
Record CreateBlocklistRequest : Type := {
  cb_name : str; cb_url : str; cb_enabled : bool; cb_cron_schedule : str;
}.
Record BlocklistRow : Type := {
  br_id : Uuid; br_profile_id : Uuid; br_name : str; br_url : str; br_enabled : bool; br_cron_schedule : str;
}.
(** [UpdateBlocklistRequest] and [UpdateFilterRuleRequest] have the fields of these. *)
Record BlocklistUpdate : Type := {
  bu_name : option str; bu_url : option str; bu_enabled : option bool; bu_cron_schedule : option str;
}.
Record CustomRuleUpdate : Type := { cu_rule_text : option str; cu_enabled : option bool; cu_comment : option str }.
Record CreateAllowlistRequest : Type := { ca_domain : str; ca_reason : option str }.
Record CreateFilterRuleRequest : Type := { cr_rule_text : str; cr_rule_enabled : bool; cr_comment : option str }.
Record UpdateDeviceFilterSettingsRequest : Type := { ud_enabled : bool; ud_profile_ids : list Uuid }.
Record UpdateDnsFilterConfigRequest : Type := {
  uc_enabled : option bool; uc_default_profile_ids : option (list Uuid); uc_threshold : option Z;
}.
Record DnsFilterConfigResponse : Type := {
  cf_config : DnsFilterConfig; cf_filters_ready : bool; cf_pending_blocklists : Z;
}.

(** ** Events *)

Inductive DnsFilterChange : Type :=
| ProfileContent (profile_id : Uuid)
| ProfileMembership (profile_id : Uuid)
| DeviceAssignment (device_id : Uuid)
| DefaultProfile
| GlobalToggle.

(** The events the filter runner acts on. *)
Inductive FilterEvent : Type :=
| DnsFilterChanged (change : DnsFilterChange)
| DnsFilterBlocklistUpdated (blocklist_id : Uuid) (entry_count : Z)
| FilterDeviceIpChanged (device_id : Uuid) (old_ip new_ip : str).

(** ** Tables *)

Record FilterDb : Type := {
  f_profiles : list DnsFilterProfile;
  f_blocklists : list DbBlocklistRow;
  f_domains : list DomainRow;
  f_allowlist : list AllowlistEntry;
  f_rules : list CustomFilterRule;
  f_settings : list SettingsRow;
  f_assigned : list DeviceProfileRow;
  f_defaults : list DefaultProfileRow;
  f_config : gmap str str;
  f_devices : list DeviceRow;
}.

Definition set_profiles (l : list DnsFilterProfile) (d : FilterDb) : FilterDb :=
  {| f_profiles := l; f_blocklists := f_blocklists d; f_domains := f_domains d; f_allowlist := f_allowlist d;
     f_rules := f_rules d; f_settings := f_settings d; f_assigned := f_assigned d; f_defaults := f_defaults d;
     f_config := f_config d; f_devices := f_devices d |}.
Definition set_blocklists (l : list DbBlocklistRow) (d : FilterDb) : FilterDb :=
  {| f_profiles := f_profiles d; f_blocklists := l; f_domains := f_domains d; f_allowlist := f_allowlist d;
     f_rules := f_rules d; f_settings := f_settings d; f_assigned := f_assigned d; f_defaults := f_defaults d;
     f_config := f_config d; f_devices := f_devices d |}.
Definition set_domains (l : list DomainRow) (d : FilterDb) : FilterDb :=
  {| f_profiles := f_profiles d; f_blocklists := f_blocklists d; f_domains := l; f_allowlist := f_allowlist d;
     f_rules := f_rules d; f_settings := f_settings d; f_assigned := f_assigned d; f_defaults := f_defaults d;
     f_config := f_config d; f_devices := f_devices d |}.
Definition set_allowlist (l : list AllowlistEntry) (d : FilterDb) : FilterDb :=
  {| f_profiles := f_profiles d; f_blocklists := f_blocklists d; f_domains := f_domains d; f_allowlist := l;
     f_rules := f_rules d; f_settings := f_settings d; f_assigned := f_assigned d; f_defaults := f_defaults d;
     f_config := f_config d; f_devices := f_devices d |}.
Definition set_custom_rules (l : list CustomFilterRule) (d : FilterDb) : FilterDb :=
  {| f_profiles := f_profiles d; f_blocklists := f_blocklists d; f_domains := f_domains d; f_allowlist := f_allowlist d;
     f_rules := l; f_settings := f_settings d; f_assigned := f_assigned d; f_defaults := f_defaults d;
     f_config := f_config d; f_devices := f_devices d |}.
Definition set_settings (l : list SettingsRow) (d : FilterDb) : FilterDb :=
  {| f_profiles := f_profiles d; f_blocklists := f_blocklists d; f_domains := f_domains d; f_allowlist := f_allowlist d;
     f_rules := f_rules d; f_settings := l; f_assigned := f_assigned d; f_defaults := f_defaults d;
     f_config := f_config d; f_devices := f_devices d |}.
Definition set_assigned (l : list DeviceProfileRow) (d : FilterDb) : FilterDb :=
  {| f_profiles := f_profiles d; f_blocklists := f_blocklists d; f_domains := f_domains d; f_allowlist := f_allowlist d;
     f_rules := f_rules d; f_settings := f_settings d; f_assigned := l; f_defaults := f_defaults d;
     f_config := f_config d; f_devices := f_devices d |}.
Definition set_defaults (l : list DefaultProfileRow) (d : FilterDb) : FilterDb :=
  {| f_profiles := f_profiles d; f_blocklists := f_blocklists d; f_domains := f_domains d; f_allowlist := f_allowlist d;
     f_rules := f_rules d; f_settings := f_settings d; f_assigned := f_assigned d; f_defaults := l;
     f_config := f_config d; f_devices := f_devices d |}.
Definition set_filter_config (m : gmap str str) (d : FilterDb) : FilterDb :=
  {| f_profiles := f_profiles d; f_blocklists := f_blocklists d; f_domains := f_domains d; f_allowlist := f_allowlist d;
     f_rules := f_rules d; f_settings := f_settings d; f_assigned := f_assigned d; f_defaults := f_defaults d;
     f_config := m; f_devices := f_devices d |}.
Definition set_filter_devices (l : list DeviceRow) (d : FilterDb) : FilterDb :=
  {| f_profiles := f_profiles d; f_blocklists := f_blocklists d; f_domains := f_domains d; f_allowlist := f_allowlist d;
     f_rules := f_rules d; f_settings := f_settings d; f_assigned := f_assigned d; f_defaults := f_defaults d;
     f_config := f_config d; f_devices := l |}.

(** ** The compiled cache *)

(** The address of an [Arc<ArcSwap<_>>]. *)
Abbreviation Slot := nat.

Section cache.
Context {RL : RegexLib} {TL : RecordTypeLib} {NL : IpNetworkLib}.

Record RuntimeDnsFilterProfile : Type := { rp_id : Uuid; rp_name : str; rp_filters : list Slot }.

(** [DeviceFilterContext], before its profiles are loaded. *)
Record RuntimeContext : Type := { rc_enabled : bool; rc_profiles : list Slot }.
Definition runtime_unfiltered : RuntimeContext := {| rc_enabled := true; rc_profiles := [] |}.

Record FilterMem : Type := {
  fm_filters : list DnsFilter;
  fm_runtime : list RuntimeDnsFilterProfile;
  fm_blocklist_filters : gmap Uuid Slot;
  fm_profile_aux_filters : gmap Uuid Slot;
  fm_profiles : gmap Uuid Slot;
  fm_contexts : gmap IpAddr RuntimeContext;
  fm_device_contexts : gmap Uuid RuntimeContext;
  fm_default_context : RuntimeContext;
  fm_config : DnsFilterConfig;
  fm_bootstrapped : bool;
}.

Definition set_blocklist_slots (h : list DnsFilter) (m : gmap Uuid Slot) (s : FilterMem) : FilterMem :=
  {| fm_filters := h; fm_runtime := fm_runtime s; fm_blocklist_filters := m;
     fm_profile_aux_filters := fm_profile_aux_filters s; fm_profiles := fm_profiles s; fm_contexts := fm_contexts s;
     fm_device_contexts := fm_device_contexts s; fm_default_context := fm_default_context s;
     fm_config := fm_config s; fm_bootstrapped := fm_bootstrapped s |}.
Definition set_aux_slots (h : list DnsFilter) (m : gmap Uuid Slot) (s : FilterMem) : FilterMem :=
  {| fm_filters := h; fm_runtime := fm_runtime s; fm_blocklist_filters := fm_blocklist_filters s;
     fm_profile_aux_filters := m; fm_profiles := fm_profiles s; fm_contexts := fm_contexts s;
     fm_device_contexts := fm_device_contexts s; fm_default_context := fm_default_context s;
     fm_config := fm_config s; fm_bootstrapped := fm_bootstrapped s |}.
Definition set_profile_slots (h : list RuntimeDnsFilterProfile) (m : gmap Uuid Slot) (s : FilterMem) : FilterMem :=
  {| fm_filters := fm_filters s; fm_runtime := h; fm_blocklist_filters := fm_blocklist_filters s;
     fm_profile_aux_filters := fm_profile_aux_filters s; fm_profiles := m; fm_contexts := fm_contexts s;
     fm_device_contexts := fm_device_contexts s; fm_default_context := fm_default_context s;
     fm_config := fm_config s; fm_bootstrapped := fm_bootstrapped s |}.
Definition set_contexts (m : gmap IpAddr RuntimeContext) (s : FilterMem) : FilterMem :=
  {| fm_filters := fm_filters s; fm_runtime := fm_runtime s; fm_blocklist_filters := fm_blocklist_filters s;
     fm_profile_aux_filters := fm_profile_aux_filters s; fm_profiles := fm_profiles s; fm_contexts := m;
     fm_device_contexts := fm_device_contexts s; fm_default_context := fm_default_context s;
     fm_config := fm_config s; fm_bootstrapped := fm_bootstrapped s |}.
Definition set_device_contexts (m : gmap Uuid RuntimeContext) (s : FilterMem) : FilterMem :=
  {| fm_filters := fm_filters s; fm_runtime := fm_runtime s; fm_blocklist_filters := fm_blocklist_filters s;
     fm_profile_aux_filters := fm_profile_aux_filters s; fm_profiles := fm_profiles s; fm_contexts := fm_contexts s;
     fm_device_contexts := m; fm_default_context := fm_default_context s;
     fm_config := fm_config s; fm_bootstrapped := fm_bootstrapped s |}.
Definition set_default_context (c : RuntimeContext) (s : FilterMem) : FilterMem :=
  {| fm_filters := fm_filters s; fm_runtime := fm_runtime s; fm_blocklist_filters := fm_blocklist_filters s;
     fm_profile_aux_filters := fm_profile_aux_filters s; fm_profiles := fm_profiles s; fm_contexts := fm_contexts s;
     fm_device_contexts := fm_device_contexts s; fm_default_context := c;
     fm_config := fm_config s; fm_bootstrapped := fm_bootstrapped s |}.
Definition set_mem_config (c : DnsFilterConfig) (s : FilterMem) : FilterMem :=
  {| fm_filters := fm_filters s; fm_runtime := fm_runtime s; fm_blocklist_filters := fm_blocklist_filters s;
     fm_profile_aux_filters := fm_profile_aux_filters s; fm_profiles := fm_profiles s; fm_contexts := fm_contexts s;
     fm_device_contexts := fm_device_contexts s; fm_default_context := fm_default_context s;
     fm_config := c; fm_bootstrapped := fm_bootstrapped s |}.
Definition set_bootstrapped (b : bool) (s : FilterMem) : FilterMem :=
  {| fm_filters := fm_filters s; fm_runtime := fm_runtime s; fm_blocklist_filters := fm_blocklist_filters s;
     fm_profile_aux_filters := fm_profile_aux_filters s; fm_profiles := fm_profiles s; fm_contexts := fm_contexts s;
     fm_device_contexts := fm_device_contexts s; fm_default_context := fm_default_context s;
     fm_config := fm_config s; fm_bootstrapped := b |}.

(** [DnsFilterServiceImpl::new] *)
Definition new_filter_mem : FilterMem :=
  {| fm_filters := []; fm_runtime := []; fm_blocklist_filters := ∅; fm_profile_aux_filters := ∅; fm_profiles := ∅;
     fm_contexts := ∅; fm_device_contexts := ∅; fm_default_context := runtime_unfiltered;
     fm_config := default_filter_config; fm_bootstrapped := false |}.

(** [fl_events]: what the runner has not yet received, oldest first; [fl_rebuilt] counts
    the [DnsFilterRebuilt] announcements. *)
Record Filters : Type := {
  fl_db : FilterDb; fl_faults : list (option str); fl_now : Z; fl_events : list FilterEvent; fl_rebuilt : Z;
  fl_mem : FilterMem;
}.

Definition set_fl_db (d : FilterDb) (w : Filters) : Filters :=
  {| fl_db := d; fl_faults := fl_faults w; fl_now := fl_now w; fl_events := fl_events w; fl_rebuilt := fl_rebuilt w;
     fl_mem := fl_mem w |}.
Definition set_fl_faults (fs : list (option str)) (w : Filters) : Filters :=
  {| fl_db := fl_db w; fl_faults := fs; fl_now := fl_now w; fl_events := fl_events w; fl_rebuilt := fl_rebuilt w;
     fl_mem := fl_mem w |}.
Definition set_fl_now (t : Z) (w : Filters) : Filters :=
  {| fl_db := fl_db w; fl_faults := fl_faults w; fl_now := t; fl_events := fl_events w; fl_rebuilt := fl_rebuilt w;
     fl_mem := fl_mem w |}.
Definition set_fl_events (es : list FilterEvent) (w : Filters) : Filters :=
  {| fl_db := fl_db w; fl_faults := fl_faults w; fl_now := fl_now w; fl_events := es; fl_rebuilt := fl_rebuilt w;
     fl_mem := fl_mem w |}.
Definition set_fl_mem (m : FilterMem) (w : Filters) : Filters :=
  {| fl_db := fl_db w; fl_faults := fl_faults w; fl_now := fl_now w; fl_events := fl_events w; fl_rebuilt := fl_rebuilt w;
     fl_mem := m |}.

(** [publish_rebuilt] *)
Definition count_rebuilt (w : Filters) : Filters :=
  {| fl_db := fl_db w; fl_faults := fl_faults w; fl_now := fl_now w; fl_events := fl_events w;
     fl_rebuilt := fl_rebuilt w + 1; fl_mem := fl_mem w |}.

(** One statement. *)
Definition fstmt {X} (f : Z -> FilterDb -> result X str * FilterDb) : ST Filters str X := fun w =>
  match fl_faults w with
  | Some e :: fs => (Err e, set_fl_faults fs w)
  | fs => let '(r, d) := f (fl_now w) (fl_db w) in (r, set_fl_db d (set_fl_faults (tail fs) w))
  end.

Definition fselect {X} (f : FilterDb -> X) : ST Filters str X := fstmt (fun _ d => (Ok (f d), d)).

End cache.
