(* ===== verification/FilterRepo.v ===== *)
(** * DNS filter management: the repository

    The statements of [wardnetd-data/src/repository/sqlite/dns_filter.rs].  Rows a
    query does not order come back in the order of their table. *)

From S2P Require Import Prelude RustStr Net Auth FilterParser DnsFilter PolicyRouter RoutingTypes ZoneTypes PolicyDb Tables FilterTypes.

Definition INSERT_CHUNK_ROWS : nat := 500.
Definition IMPORT_BATCH_ROWS : nat := 2000.
Definition DELETE_BATCH_ROWS : nat := 2000.
Definition DRAIN_MAX_PASSES : nat := 5.

(** ** What the statements do to the tables *)

Definition profile_is (id : Uuid) (p : DnsFilterProfile) : bool := pf_id p =? id.
Definition row_is (id : Uuid) (b : DbBlocklistRow) : bool := bl_id (db_blocklist b) =? id.

(** [list_profiles]: [ORDER BY builtin DESC, name ASC] *)
Definition by_builtin_name (a b : DnsFilterProfile) : comparison :=
  then_with (bool_compare (pf_builtin b) (pf_builtin a)) (str_compare (pf_name a) (pf_name b)).

Definition by_bl_created (a b : DbBlocklistRow) : comparison :=
  bl_created_at (db_blocklist a) ?= bl_created_at (db_blocklist b).
Definition by_al_created (a b : AllowlistEntry) : comparison := al_created_at a ?= al_created_at b.
Definition by_ru_created (a b : CustomFilterRule) : comparison := ru_created_at a ?= ru_created_at b.

(** [ORDER BY created_at, profile_id]; ids sort as their texts do. *)
Definition by_default_row (a b : DefaultProfileRow) : comparison :=
  then_with (df_created_at a ?= df_created_at b) (df_profile_id a ?= df_profile_id b).

(** [into_blocklist]: the failure count is clamped to a [u32]. *)
Definition into_blocklist (r : DbBlocklistRow) : Blocklist :=
  let b := db_blocklist r in
  {| bl_id := bl_id b; bl_profile_id := bl_profile_id b; bl_name := bl_name b; bl_url := bl_url b;
     bl_enabled := bl_enabled b; bl_entry_count := bl_entry_count b; bl_last_updated := bl_last_updated b;
     bl_cron_schedule := bl_cron_schedule b; bl_last_error := bl_last_error b; bl_last_error_at := bl_last_error_at b;
     bl_consecutive_failures := (if bl_consecutive_failures b <? 0 then U32_MAX else clamp_u32 (bl_consecutive_failures b));
     bl_created_at := bl_created_at b; bl_updated_at := bl_updated_at b |}.

Definition in_profile (p : Uuid) (b : DbBlocklistRow) : bool := bl_profile_id (db_blocklist b) =? p.
Definition blocklists_of (p : Uuid) (d : FilterDb) : list DbBlocklistRow :=
  sort_by by_bl_created (List.filter (in_profile p) (f_blocklists d)).

(** The rows of the generation a blocklist's readers are pinned to. *)
Definition active_row (b : DbBlocklistRow) (r : DomainRow) : bool :=
  (dm_blocklist_id r =? bl_id (db_blocklist b)) && (dm_generation r =? db_active_generation b).
Definition active_domains (id : Uuid) (d : FilterDb) : list str :=
  match List.find (row_is id) (f_blocklists d) with
  | Some b => dm_domain <$> List.filter (active_row b) (f_domains d)
  | None => []
  end.

Definition profile_exists (id : Uuid) (d : FilterDb) : bool := existsb (profile_is id) (f_profiles d).
Definition device_exists (id : Uuid) (d : FilterDb) : bool := existsb (fun v => dr_id v =? id) (f_devices d).

Definition profiles_of_device (id : Uuid) (d : FilterDb) : list Uuid :=
  dp_profile_id <$> List.filter (fun r => dp_device_id r =? id) (f_assigned d).

Definition settings_of (id : Uuid) (d : FilterDb) : option SettingsRow :=
  List.find (fun s => st_device_id s =? id) (f_settings d).

Definition KEY_DNS_FILTERING_ENABLED : str := of_string "dns_filtering_enabled".
Definition KEY_BLOCKLIST_FAILURE_ALERT_THRESHOLD : str := of_string "dns_filter_blocklist_failure_alert_threshold".

Definition stored_config (d : FilterDb) : DnsFilterConfig :=
  {| fc_enabled := negb (bool_decide (f_config d !! KEY_DNS_FILTERING_ENABLED = Some (of_string "false")));
     fc_default_profile_ids := df_profile_id <$> sort_by by_default_row (f_defaults d);
     fc_blocklist_failure_alert_threshold :=
       default default_blocklist_failure_alert_threshold
         (f_config d !! KEY_BLOCKLIST_FAILURE_ALERT_THRESHOLD ≫= parse_uint U32_MAX) |}.

(** Deleting blocklists takes their domains along. *)
Definition drop_blocklists (gone : DbBlocklistRow -> bool) (d : FilterDb) : FilterDb :=
  set_domains (deleted (fun r => existsb (fun b => gone b && (bl_id (db_blocklist b) =? dm_blocklist_id r)) (f_blocklists d))
                 (f_domains d))
    (set_blocklists (deleted gone (f_blocklists d)) d).

(** Deleting a profile takes everything that references it along. *)
Definition drop_profile (id : Uuid) (d : FilterDb) : FilterDb :=
  let d := drop_blocklists (in_profile id) d in
  set_profiles (deleted (profile_is id) (f_profiles d))
   (set_allowlist (deleted (fun e => al_profile_id e =? id) (f_allowlist d))
    (set_custom_rules (deleted (fun r => ru_profile_id r =? id) (f_rules d))
     (set_assigned (deleted (fun r => dp_profile_id r =? id) (f_assigned d))
      (set_defaults (deleted (fun r => df_profile_id r =? id) (f_defaults d)) d)))).

(** [DELETE .. WHERE .. IN (SELECT .. LIMIT n)]: the first [n] matching rows. *)
Fixpoint delete_first {A} (n : nat) (f : A -> bool) (l : list A) : list A :=
  match l, n with
  | [], _ => []
  | _, O => l
  | x :: l', S n' => if f x then delete_first n' f l' else x :: delete_first n f l'
  end.

Fixpoint chunks_fuel {A} (fuel n : nat) (l : list A) : list (list A) :=
  match fuel, l with
  | S fuel', _ :: _ => take n l :: chunks_fuel fuel' n (drop n l)
  | _, _ => []
  end.
(** [slice::chunks] *)
Definition chunks {A} (n : nat) (l : list A) : list (list A) := chunks_fuel (length l) n l.

Definition unique_text : str := of_string "UNIQUE constraint failed".
Definition fk_text : str := of_string "FOREIGN KEY constraint failed".

Section repo.
Context {RL : RegexLib} {TL : RecordTypeLib} {NL : IpNetworkLib} {U : UuidText}.
Abbreviation R := (ST Filters str).

(** ** Profiles *)

Definition repo_list_profiles : R (list DnsFilterProfile) := fselect (fun d => sort_by by_builtin_name (f_profiles d)).

Definition repo_get_profile (id : Uuid) : R (option DnsFilterProfile) :=
  fselect (fun d => List.find (profile_is id) (f_profiles d)).

Definition repo_create_profile (id : Uuid) (name : str) (description : option str) : R DnsFilterProfile :=
  fstmt (fun now d =>
    if existsb (fun p => profile_is id p || bool_decide (pf_name p = name)) (f_profiles d) then (Err unique_text, d)
    else
      let p := {| pf_id := id; pf_name := name; pf_description := description; pf_builtin := false;
                  pf_created_at := now; pf_updated_at := now |} in
      (Ok p, set_profiles (f_profiles d ++ [p]) d)).

Definition with_profile_fields (name : option str) (description : option (option str)) (now : Z) (p : DnsFilterProfile)
    : DnsFilterProfile :=
  {| pf_id := pf_id p; pf_name := default (pf_name p) name; pf_description := default (pf_description p) description;
     pf_builtin := pf_builtin p; pf_created_at := pf_created_at p; pf_updated_at := now |}.

Definition profile_name_taken (id : Uuid) (name : option str) (d : FilterDb) : bool :=
  match name with
  | Some n => profile_exists id d && existsb (fun p => negb (profile_is id p) && bool_decide (pf_name p = n)) (f_profiles d)
  | None => false
  end.

Definition repo_update_profile_fields (id : Uuid) (name : option str) (description : option (option str)) : R bool :=
  match name, description with
  | None, None => mret true
  | _, _ =>
      fstmt (fun now d =>
        if profile_name_taken id name d then (Err unique_text, d)
        else (Ok (0 <? count (profile_is id) (f_profiles d)),
              set_profiles (where_ (profile_is id) (with_profile_fields name description now) (f_profiles d)) d))
  end.

(** ** Domains *)

Inductive DomainScope : Type := AllDomains | Generation (g : Z) | AllExcept (g : Z).

Definition in_scope (id : Uuid) (scope : DomainScope) (r : DomainRow) : bool :=
  (dm_blocklist_id r =? id) &&
  match scope with
  | AllDomains => true
  | Generation g => dm_generation r =? g
  | AllExcept g => negb (dm_generation r =? g)
  end.

(** One bounded [DELETE]; the rows it removed. *)
Definition delete_batch (f : DomainRow -> bool) : R Z :=
  fstmt (fun _ d => (Ok (Z.min (Z.of_nat DELETE_BATCH_ROWS) (count f (f_domains d))),
                     set_domains (delete_first DELETE_BATCH_ROWS f (f_domains d)) d)).

Fixpoint delete_loop (fuel : nat) (f : DomainRow -> bool) (removed : Z) : R Z :=
  match fuel with
  | O => mret removed
  | S fuel' => affected ← delete_batch f;
               if affected =? 0 then mret (removed + affected) else delete_loop fuel' f (removed + affected)
  end.

(** Each round but the last removes a row, so one more round than rows is enough. *)
Definition delete_domains_in_batches (id : Uuid) (scope : DomainScope) : R Z := fun w =>
  delete_loop (S (length (f_domains (fl_db w)))) (in_scope id scope) 0 w.

(** ** Deleting a profile *)

(** One pass: the rows removed from every blocklist of the profile. *)
Fixpoint drain (ids : list Uuid) (removed : Z) : R Z :=
  match ids with
  | [] => mret removed
  | b :: ids' => n ← delete_domains_in_batches b AllDomains; drain ids' (removed + n)
  end.

Fixpoint drain_passes (passes : nat) (id : Uuid) : R unit :=
  match passes with
  | O => mret tt
  | S passes' =>
      ids ← fselect (fun d => (fun b => bl_id (db_blocklist b)) <$> List.filter (in_profile id) (f_blocklists d));
      removed ← drain ids 0;
      if removed =? 0 then mret tt else drain_passes passes' id
  end.

Definition deletable (id : Uuid) (p : DnsFilterProfile) : bool := profile_is id p && negb (pf_builtin p).

Definition repo_delete_profile (id : Uuid) : R bool :=
  deletable_row ← fselect (fun d => List.find (deletable id) (f_profiles d));
  match deletable_row with
  | None => mret false
  | Some _ =>
      _ ← drain_passes DRAIN_MAX_PASSES id;
      fstmt (fun _ d => if existsb (deletable id) (f_profiles d) then (Ok true, drop_profile id d) else (Ok false, d))
  end.

(** ** Blocklists *)

Definition repo_list_blocklists (profile_id : Uuid) : R (list Blocklist) :=
  fselect (fun d => into_blocklist <$> blocklists_of profile_id d).

Definition repo_get_blocklist (id : Uuid) : R (option Blocklist) :=
  fselect (fun d => into_blocklist <$> List.find (row_is id) (f_blocklists d)).

Definition same_feed (p : Uuid) (url : str) (b : DbBlocklistRow) : bool :=
  in_profile p b && bool_decide (bl_url (db_blocklist b) = url).

Definition repo_create_blocklist (row : BlocklistRow) : R unit :=
  fstmt (fun now d =>
    if existsb (fun b => row_is (br_id row) b || same_feed (br_profile_id row) (br_url row) b) (f_blocklists d)
    then (Err unique_text, d)
    else if negb (profile_exists (br_profile_id row) d) then (Err fk_text, d)
    else
      let b := {| bl_id := br_id row; bl_profile_id := br_profile_id row; bl_name := br_name row; bl_url := br_url row;
                  bl_enabled := br_enabled row; bl_entry_count := 0; bl_last_updated := None;
                  bl_cron_schedule := br_cron_schedule row; bl_last_error := None; bl_last_error_at := None;
                  bl_consecutive_failures := 0; bl_created_at := now; bl_updated_at := now |} in
      (Ok tt, set_blocklists (f_blocklists d ++ [{| db_blocklist := b; db_active_generation := 0 |}]) d)).

(** A new URL clears the failures of the old one. *)
Definition with_blocklist_update (u : BlocklistUpdate) (now : Z) (r : DbBlocklistRow) : DbBlocklistRow :=
  let b := db_blocklist r in
  let fresh := bool_decide (is_Some (bu_url u)) in
  {| db_blocklist :=
       {| bl_id := bl_id b; bl_profile_id := bl_profile_id b; bl_name := default (bl_name b) (bu_name u);
          bl_url := default (bl_url b) (bu_url u); bl_enabled := default (bl_enabled b) (bu_enabled u);
          bl_entry_count := bl_entry_count b; bl_last_updated := bl_last_updated b;
          bl_cron_schedule := default (bl_cron_schedule b) (bu_cron_schedule u);
          bl_last_error := if fresh then None else bl_last_error b;
          bl_last_error_at := if fresh then None else bl_last_error_at b;
          bl_consecutive_failures := if fresh then 0 else bl_consecutive_failures b;
          bl_created_at := bl_created_at b; bl_updated_at := now |};
     db_active_generation := db_active_generation r |}.

Definition feed_taken (id : Uuid) (url : option str) (d : FilterDb) : bool :=
  match url, List.find (row_is id) (f_blocklists d) with
  | Some u, Some r =>
      existsb (fun b => negb (row_is id b) && same_feed (bl_profile_id (db_blocklist r)) u b) (f_blocklists d)
  | _, _ => false
  end.

Definition repo_update_blocklist (id : Uuid) (u : BlocklistUpdate) : R unit :=
  match u with
  | {| bu_name := None; bu_url := None; bu_enabled := None; bu_cron_schedule := None |} => mret tt
  | _ =>
      fstmt (fun now d =>
        if feed_taken id (bu_url u) d then (Err unique_text, d)
        else (Ok tt, set_blocklists (where_ (row_is id) (with_blocklist_update u now) (f_blocklists d)) d))
  end.

Definition repo_delete_blocklist (id : Uuid) : R bool :=
  _ ← delete_domains_in_batches id AllDomains;
  fstmt (fun _ d => (Ok (0 <? count (row_is id) (f_blocklists d)), drop_blocklists (row_is id) d)).

(** ** Importing a feed *)

(** [i64::wrapping_add(1)] *)
Definition next_generation (g : Z) : Z := if g =? 9223372036854775807 then -9223372036854775808 else g + 1.

(** [filter(|d| seen.insert(d))]: the first occurrence of each. *)
Fixpoint first_seen (seen : gset str) (l : list str) : list str :=
  match l with
  | [] => []
  | x :: l' => if bool_decide (x ∈ seen) then first_seen seen l' else x :: first_seen ({[x]} ∪ seen) l'
  end.

Definition domain_row (id : Uuid) (g : Z) (x : str) : DomainRow :=
  {| dm_domain := x; dm_blocklist_id := id; dm_generation := g |}.

(** One multi-row [INSERT] on the tables of a transaction. *)
Definition insert_chunk (id : Uuid) (g : Z) (chunk : list str) (d : FilterDb) : result FilterDb str :=
  if existsb (fun x => existsb (fun r => bool_decide (dm_domain r = x) && (dm_blocklist_id r =? id) && (dm_generation r =? g))
                         (f_domains d)) chunk then Err unique_text
  else if negb (existsb (row_is id) (f_blocklists d)) then Err fk_text
  else Ok (set_domains (f_domains d ++ (domain_row id g <$> chunk)) d).

Fixpoint insert_chunks (id : Uuid) (g : Z) (cs : list (list str)) (d : FilterDb) : result FilterDb str :=
  match cs with
  | [] => Ok d
  | c :: cs' => let? d' := insert_chunk id g c d in insert_chunks id g cs' d'
  end.

(** A batch is one transaction: it is stored whole or not at all. *)
Definition import_batch (id : Uuid) (g : Z) (batch : list str) : R unit :=
  fstmt (fun _ d => match insert_chunks id g (chunks INSERT_CHUNK_ROWS batch) d with
                    | Ok d' => (Ok tt, d')
                    | Err e => (Err e, d)
                    end).

Definition with_generation (g n : Z) (now : Z) (r : DbBlocklistRow) : DbBlocklistRow :=
  let b := db_blocklist r in
  {| db_blocklist :=
       {| bl_id := bl_id b; bl_profile_id := bl_profile_id b; bl_name := bl_name b; bl_url := bl_url b;
          bl_enabled := bl_enabled b; bl_entry_count := n; bl_last_updated := Some now;
          bl_cron_schedule := bl_cron_schedule b; bl_last_error := None; bl_last_error_at := None;
          bl_consecutive_failures := 0; bl_created_at := bl_created_at b; bl_updated_at := now |};
     db_active_generation := g |}.

(** The swap: readers move to the new generation. *)
Definition swap_generation (id : Uuid) (g n : Z) : R unit :=
  fstmt (fun now d => (Ok tt, set_blocklists (where_ (row_is id) (with_generation g n now) (f_blocklists d)) d)).

(** [if let Err(e) = .. { warn }] *)
Definition best_effort {X} (m : R X) : R unit := fun w => (Ok tt, snd (m w)).

Definition blocklist_not_found (id : Uuid) : str := of_string "blocklist " ++ uuid_to_string id ++ of_string " not found".

Definition repo_replace_blocklist_domains (id : Uuid) (domains : list str) : R Z :=
  let domains := first_seen ∅ domains in
  let n := Z.of_nat (length domains) in
  row ← fselect (fun d => List.find (row_is id) (f_blocklists d));
  active ← st_lift (ok_or (db_active_generation <$> row) (blocklist_not_found id));
  let next := next_generation active in
  _ ← delete_domains_in_batches id (Generation next);
  _ ← st_iter (import_batch id next) (chunks IMPORT_BATCH_ROWS domains);
  _ ← swap_generation id next n;
  _ ← best_effort (delete_domains_in_batches id (AllExcept next));
  mret n.

Definition repo_count_unimported_blocklists : R Z :=
  fselect (fun d => count (fun b => bl_enabled (db_blocklist b) && bool_decide (bl_last_updated (db_blocklist b) = None))
                      (f_blocklists d)).

Definition with_error (error : option str) (now : Z) (r : DbBlocklistRow) : DbBlocklistRow :=
  let b := db_blocklist r in
  {| db_blocklist :=
       {| bl_id := bl_id b; bl_profile_id := bl_profile_id b; bl_name := bl_name b; bl_url := bl_url b;
          bl_enabled := bl_enabled b; bl_entry_count := bl_entry_count b; bl_last_updated := bl_last_updated b;
          bl_cron_schedule := bl_cron_schedule b; bl_last_error := error;
          bl_last_error_at := (match error with Some _ => Some now | None => None end);
          bl_consecutive_failures := (match error with Some _ => bl_consecutive_failures b + 1 | None => 0 end);
          bl_created_at := bl_created_at b; bl_updated_at := now |};
     db_active_generation := db_active_generation r |}.

Definition repo_set_blocklist_error (id : Uuid) (error : option str) : R unit :=
  fstmt (fun now d => (Ok tt, set_blocklists (where_ (row_is id) (with_error error now) (f_blocklists d)) d)).

(** ** Allowlist and custom rules *)

Definition repo_list_allowlist (profile_id : Uuid) : R (list AllowlistEntry) :=
  fselect (fun d => sort_by by_al_created (List.filter (fun e => al_profile_id e =? profile_id) (f_allowlist d))).

Definition repo_create_allowlist_entry (id profile_id : Uuid) (domain : str) (reason : option str) : R unit :=
  fstmt (fun now d =>
    if existsb (fun e => (al_id e =? id) || (al_profile_id e =? profile_id) && bool_decide (al_domain e = domain))
         (f_allowlist d) then (Err unique_text, d)
    else if negb (profile_exists profile_id d) then (Err fk_text, d)
    else
      let e := {| al_id := id; al_profile_id := profile_id; al_domain := domain; al_reason := reason;
                  al_created_at := now |} in
      (Ok tt, set_allowlist (f_allowlist d ++ [e]) d)).

Definition repo_delete_allowlist_entry (id : Uuid) : R bool :=
  fstmt (fun _ d => (Ok (0 <? count (fun e => al_id e =? id) (f_allowlist d)),
                     set_allowlist (deleted (fun e => al_id e =? id) (f_allowlist d)) d)).

Definition repo_list_custom_rules (profile_id : Uuid) : R (list CustomFilterRule) :=
  fselect (fun d => sort_by by_ru_created (List.filter (fun r => ru_profile_id r =? profile_id) (f_rules d))).

Definition repo_get_custom_rule (id : Uuid) : R (option CustomFilterRule) :=
  fselect (fun d => List.find (fun r => ru_id r =? id) (f_rules d)).

Definition repo_create_custom_rule (id profile_id : Uuid) (rule_text : str) (enabled : bool) (comment : option str) : R unit :=
  fstmt (fun now d =>
    if existsb (fun r => ru_id r =? id) (f_rules d) then (Err unique_text, d)
    else if negb (profile_exists profile_id d) then (Err fk_text, d)
    else
      let r := {| ru_id := id; ru_profile_id := profile_id; ru_rule_text := rule_text; ru_enabled := enabled;
                  ru_comment := comment; ru_created_at := now; ru_updated_at := now |} in
      (Ok tt, set_custom_rules (f_rules d ++ [r]) d)).

Definition with_custom_rule_update (u : CustomRuleUpdate) (now : Z) (r : CustomFilterRule) : CustomFilterRule :=
  {| ru_id := ru_id r; ru_profile_id := ru_profile_id r; ru_rule_text := default (ru_rule_text r) (cu_rule_text u);
     ru_enabled := default (ru_enabled r) (cu_enabled u);
     ru_comment := (match cu_comment u with Some c => Some c | None => ru_comment r end);
     ru_created_at := ru_created_at r; ru_updated_at := now |}.

Definition repo_update_custom_rule (id : Uuid) (u : CustomRuleUpdate) : R unit :=
  match u with
  | {| cu_rule_text := None; cu_enabled := None; cu_comment := None |} => mret tt
  | _ => fstmt (fun now d =>
           (Ok tt, set_custom_rules (where_ (fun r => ru_id r =? id) (with_custom_rule_update u now) (f_rules d)) d))
  end.

Definition repo_delete_custom_rule (id : Uuid) : R bool :=
  fstmt (fun _ d => (Ok (0 <? count (fun r => ru_id r =? id) (f_rules d)),
                     set_custom_rules (deleted (fun r => ru_id r =? id) (f_rules d)) d)).

Definition allowed_of (profile_id : Uuid) (d : FilterDb) : list str :=
  al_domain <$> List.filter (fun e => al_profile_id e =? profile_id) (f_allowlist d).
Definition rules_of (profile_id : Uuid) (d : FilterDb) : list str :=
  ru_rule_text <$> List.filter (fun r => (ru_profile_id r =? profile_id) && ru_enabled r) (f_rules d).

Definition repo_load_filter_inputs_for_profile (profile_id : Uuid) : R ProfileFilterInputs :=
  allow ← fselect (allowed_of profile_id);
  rules ← fselect (rules_of profile_id);
  mret {| pi_allowlist := allow; pi_custom_rules := rules |}.

(** [stream_blocklist_domains] read to its end *)
Definition repo_stream_blocklist_domains (id : Uuid) : R (list str) := fselect (active_domains id).

(** ** Device settings *)

Definition repo_find_device_settings (id : Uuid) : R (option DeviceDnsFilterSettings) :=
  row ← fselect (settings_of id);
  ids ← fselect (profiles_of_device id);
  now ← st_gets fl_now;
  match row, ids with
  | None, [] => mret None
  | _, _ =>
      mret (Some {| fs_device_id := id; fs_filtering := (match row with Some s => st_enabled s | None => true end);
                    fs_profile_ids := ids;
                    fs_updated_at := (match row with Some s => st_updated_at s | None => now end) |})
  end.

Definition repo_upsert_device_settings (id : Uuid) (enabled : bool) : R unit :=
  fstmt (fun now d =>
    if negb (device_exists id d) then (Err fk_text, d)
    else
      let row := {| st_device_id := id; st_enabled := enabled; st_updated_at := now |} in
      let f s := st_device_id s =? id in
      (Ok tt, set_settings (if existsb f (f_settings d) then where_ f (fun _ => row) (f_settings d)
                            else f_settings d ++ [row]) d)).

(** The inserts of one transaction; [None]: a key occurs twice or a reference is missing. *)
Fixpoint insert_assigned (id : Uuid) (ids : list Uuid) (d : FilterDb) (rows : list DeviceProfileRow)
    : result (list DeviceProfileRow) str :=
  match ids with
  | [] => Ok rows
  | p :: ids' =>
      if existsb (fun r => (dp_device_id r =? id) && (dp_profile_id r =? p)) rows then Err unique_text
      else if negb (device_exists id d) || negb (profile_exists p d) then Err fk_text
      else insert_assigned id ids' d (rows ++ [{| dp_device_id := id; dp_profile_id := p |}])
  end.

Definition repo_set_device_profiles (id : Uuid) (ids : list Uuid) : R unit :=
  fstmt (fun _ d =>
    match insert_assigned id ids d (deleted (fun r => dp_device_id r =? id) (f_assigned d)) with
    | Ok rows => (Ok tt, set_assigned rows d)
    | Err e => (Err e, d)
    end).

Definition has_settings (d : FilterDb) (v : DeviceRow) : bool :=
  existsb (fun s => st_device_id s =? dr_id v) (f_settings d) || existsb (fun r => dp_device_id r =? dr_id v) (f_assigned d).

Definition filtering_active (id : Uuid) (d : FilterDb) : bool :=
  match settings_of id d with Some s => st_enabled s | None => true end.

(** One [SELECT] for the devices and their settings, then one for the profiles of each. *)
Fixpoint with_ips (rows : list (DeviceRow * option SettingsRow)) : R (list DeviceSettingsWithIp) :=
  match rows with
  | [] => mret []
  | (v, s) :: rows' =>
      ids ← fselect (profiles_of_device (dr_id v));
      now ← st_gets fl_now;
      rest ← with_ips rows';
      mret ({| ws_settings := {| fs_device_id := dr_id v;
                                 fs_filtering := (match s with Some s => st_enabled s | None => true end);
                                 fs_profile_ids := ids;
                                 fs_updated_at := (match s with Some s => st_updated_at s | None => now end) |};
               ws_ip := Some (dr_last_ip v) |} :: rest)
  end.

Definition repo_list_device_settings_with_ips (only_filtering_active : bool) : R (list DeviceSettingsWithIp) :=
  rows ← fselect (fun d => (fun v => (v, settings_of (dr_id v) d)) <$>
    List.filter (fun v => has_settings d v && (negb only_filtering_active || filtering_active (dr_id v) d)) (f_devices d));
  with_ips rows.

(** ** Configuration *)

Definition repo_get_dns_filter_config : R DnsFilterConfig :=
  enabled ← fselect (fun d => f_config d !! KEY_DNS_FILTERING_ENABLED);
  ids ← fselect (fun d => df_profile_id <$> sort_by by_default_row (f_defaults d));
  threshold ← fselect (fun d => f_config d !! KEY_BLOCKLIST_FAILURE_ALERT_THRESHOLD);
  mret {| fc_enabled := negb (bool_decide (enabled = Some (of_string "false")));
          fc_default_profile_ids := ids;
          fc_blocklist_failure_alert_threshold :=
            default default_blocklist_failure_alert_threshold (threshold ≫= parse_uint U32_MAX) |}.

Fixpoint insert_defaults (ids : list Uuid) (now : Z) (d : FilterDb) (rows : list DefaultProfileRow)
    : result (list DefaultProfileRow) str :=
  match ids with
  | [] => Ok rows
  | p :: ids' =>
      if existsb (fun r => df_profile_id r =? p) rows then Err unique_text
      else if negb (profile_exists p d) then Err fk_text
      else insert_defaults ids' now d (rows ++ [{| df_profile_id := p; df_created_at := now |}])
  end.

Definition repo_set_dns_filter_config (c : DnsFilterConfig) : R unit :=
  fstmt (fun now d =>
    match insert_defaults (fc_default_profile_ids c) now d [] with
    | Ok rows =>
        (Ok tt, set_defaults rows
           (set_filter_config
              (<[KEY_BLOCKLIST_FAILURE_ALERT_THRESHOLD := show_u32 (fc_blocklist_failure_alert_threshold c)]>
                 (<[KEY_DNS_FILTERING_ENABLED := if fc_enabled c then of_string "true" else of_string "false"]> (f_config d))) d))
    | Err e => (Err e, d)
    end).

(** ** Devices *)

Definition repo_find_device (id : Uuid) : R (option DeviceRow) :=
  fselect (fun d => List.find (fun v => dr_id v =? id) (f_devices d)).

Definition repo_set_managed (id : Uuid) (managed : bool) : R unit :=
  fstmt (fun _ d => (Ok tt, set_filter_devices (where_ (fun v => dr_id v =? id) (set_columns [SetManaged managed]) (f_devices d)) d)).

End repo.
