(* ===== verification/FilterAdmin.v ===== *)
(** * DNS filter management: the service

    [dns_filter/service.rs] past its hot path: validation, the calls of the
    management API and the event each announces, and the rebuilding of the compiled
    cache; [dns_filter/runner.rs], which rebuilds what an event names;
    [dns_filter/blocklist_downloader.rs], the body of a refresh job.

    Responses are the rows in them; their fixed messages are left out, and so is
    what the parsers of rules and schedules say about a rejected text. *)

From S2P Require Import Prelude RustStr Net Auth FilterParser DnsFilter PolicyRouter RoutingTypes ZoneTypes PolicyDb.
From S2P Require Import Authoritative Tables WgConfig FilterTypes FilterRepo.

(** The [cron] crate: a schedule, and its first time after a given one. *)
Class CronLib : Type := {
  Schedule : Type;
  schedule_from_str : str -> result Schedule str;
  schedule_after : Schedule -> Z -> option Z;
}.

Section validation.
Context {CL : CronLib} {RL : RegexLib} {TL : RecordTypeLib} {NL : IpNetworkLib}.

(** [parse_schedule]: five fields get a leading [0]. *)
Definition parse_schedule (expr : str) : result Schedule str :=
  let trimmed := trim expr in
  if (length (split_whitespace trimmed) =? 5)%nat then schedule_from_str ("0 " ++ trimmed) else schedule_from_str trimmed.

Definition validate_filter_domain (domain : str) : result unit AppError :=
  if bool_decide (domain = []) then Err (BadRequest "domain must not be empty")
  else if 253 <? len domain then Err (BadRequest "domain must be <= 253 characters")
  else if negb (contains "."%char domain) then Err (BadRequest "domain must contain at least one '.'")
  else if negb (forallb (fun c => match c with
                                  | [b] => is_ascii_alphanumeric b || bool_decide (b ∈ of_string ".-_")
                                  | _ => false
                                  end) (chars domain))
  then Err (BadRequest "domain contains invalid characters (allowed: alphanumeric, '.', '-', '_')")
  else Ok tt.

Definition validate_url (url : str) : result unit AppError :=
  if negb (starts_with "http://" url) && negb (starts_with "https://" url)
  then Err (BadRequest "URL must start with http:// or https://")
  else Ok tt.

Definition validate_cron (schedule : str) : result unit AppError :=
  match parse_schedule schedule with Ok _ => Ok tt | Err e => Err (BadRequest (of_string "Invalid cron expression: " ++ e)) end.

Definition quoted (s : str) : str := of_string "`" ++ s ++ of_string "`".
(** [Display] of [ParseError] *)
Definition parse_error_text (e : ParseError) : str :=
  match e with
  | Empty => of_string "rule is empty after trimming"
  | InvalidHostsIp s => of_string "hosts-file rule must use 0.0.0.0, 127.0.0.1, ::, or ::1 (got " ++ quoted s ++ of_string ")"
  | InvalidDomain s => of_string "invalid domain: " ++ quoted s
  | InvalidRegex pattern error => of_string "invalid regex " ++ quoted pattern ++ of_string ": " ++ error
  | UnknownModifier s => of_string "unknown modifier: " ++ quoted s
  | InvalidModifierValue name value => of_string "invalid " ++ quoted name ++ of_string " modifier value: " ++ quoted value
  | MissingModifierValue name => of_string "modifier " ++ quoted name ++ of_string " requires a value"
  | InvalidClient s => of_string "invalid CIDR or IP for $client: " ++ quoted s
  | InvalidRewrite s => of_string "invalid rewrite IP for $dnsrewrite: " ++ quoted s
  | Unrecognized s => of_string "unrecognized rule format: " ++ quoted s
  end.

Definition validate_rule_text (rule_text : str) : result unit AppError :=
  match parse_line rule_text with
  | Err e => Err (BadRequest (of_string "Invalid filter rule: " ++ parse_error_text e))
  | Ok None => Err (BadRequest "Rule parses as a comment or blank line")
  | Ok (Some _) => Ok tt
  end.

End validation.

(** ** The cache *)

Section cache.
Context {RL : RegexLib} {TL : RecordTypeLib} {NL : IpNetworkLib}.

(** [slot.store] if there is one, a new slot otherwise. *)
Definition store_filter (f : DnsFilter) (h : list DnsFilter) (m : gmap Uuid Slot) (id : Uuid) : list DnsFilter * gmap Uuid Slot :=
  match m !! id with
  | Some s => (<[s := f]> h, m)
  | None => (h ++ [f], <[id := length h]> m)
  end.

Definition store_blocklist (id : Uuid) (f : DnsFilter) (s : FilterMem) : FilterMem :=
  let '(h, m) := store_filter f (fm_filters s) (fm_blocklist_filters s) id in set_blocklist_slots h m s.

Definition store_aux (id : Uuid) (f : DnsFilter) (s : FilterMem) : FilterMem :=
  let '(h, m) := store_filter f (fm_filters s) (fm_profile_aux_filters s) id in set_aux_slots h m s.

Definition store_profile (id : Uuid) (p : RuntimeDnsFilterProfile) (s : FilterMem) : FilterMem :=
  match fm_profiles s !! id with
  | Some slot => set_profile_slots (<[slot := p]> (fm_runtime s)) (fm_profiles s) s
  | None => set_profile_slots (fm_runtime s ++ [p]) (<[id := length (fm_runtime s)]> (fm_profiles s)) s
  end.

Definition forget_blocklist (id : Uuid) (s : FilterMem) : FilterMem :=
  set_blocklist_slots (fm_filters s) (delete id (fm_blocklist_filters s)) s.

Definition forget_profile (id : Uuid) (s : FilterMem) : FilterMem :=
  set_aux_slots (fm_filters s) (delete id (fm_profile_aux_filters s))
    (set_profile_slots (fm_runtime s) (delete id (fm_profiles s)) s).

Definition wipe (s : FilterMem) : FilterMem :=
  set_device_contexts ∅ (set_contexts ∅ (set_profile_slots (fm_runtime s) ∅
    (set_aux_slots (fm_filters s) ∅ (set_blocklist_slots (fm_filters s) ∅ s)))).

(** [filter_map(|id| map.get(id).cloned())] *)
Definition known_slots (m : gmap Uuid Slot) (ids : list Uuid) : list Slot := omap (fun id => m !! id) ids.

Definition materialise_context (settings : DeviceDnsFilterSettings) (s : FilterMem) : RuntimeContext :=
  if negb (fs_filtering settings) then {| rc_enabled := false; rc_profiles := [] |}
  else {| rc_enabled := true;
          rc_profiles := (match fs_profile_ids settings with [] => [] | ids => known_slots (fm_profiles s) ids end) |}.

Definition default_context_of (c : DnsFilterConfig) (s : FilterMem) : RuntimeContext :=
  match fc_default_profile_ids c with
  | [] => runtime_unfiltered
  | ids => match known_slots (fm_profiles s) ids with
           | [] => runtime_unfiltered
           | profiles => {| rc_enabled := true; rc_profiles := profiles |}
           end
  end.

(** What a query sees: every slot loaded. *)
Definition load_profile (s : FilterMem) (slot : Slot) : list DnsFilter :=
  match fm_runtime s !! slot with
  | Some p => omap (fun f => fm_filters s !! f) (rp_filters p)
  | None => []
  end.
Definition load_context (s : FilterMem) (c : RuntimeContext) : DeviceFilterContext :=
  {| ctx_enabled := rc_enabled c; ctx_profiles := load_profile s <$> rc_profiles c |}.
Definition hot_state (s : FilterMem) : FilterState :=
  {| fs_contexts := load_context s <$> fm_contexts s;
     fs_device_contexts := load_context s <$> fm_device_contexts s;
     fs_default_context := load_context s (fm_default_context s);
     fs_enabled := fc_enabled (fm_config s) |}.

End cache.

(** ** Rebuilding *)

Section service.
Context {CL : CronLib} {RL : RegexLib} {TL : RecordTypeLib} {NL : IpNetworkLib} {U : UuidText}.

Abbreviation M := (ST Filters AppError).

(** [.map_err(AppError::Internal)] *)
Definition stored {X} (m : ST Filters str X) : M X := fun w =>
  let '(r, w') := m w in (match r with Ok a => Ok a | Err e => Err (Internal e) end, w').

(** [drop(..)] on a result. *)
Definition ignored {X} (m : M X) : M unit := fun w => (Ok tt, snd (m w)).

Definition on_mem (f : FilterMem -> FilterMem) : M unit := st_modify (fun w => set_fl_mem (f (fl_mem w)) w).
Definition from_mem {X} (f : FilterMem -> X) : M X := st_gets (fun w => f (fl_mem w)).
Definition announce (e : FilterEvent) : M unit := st_modify (fun w => set_fl_events (fl_events w ++ [e]) w).
Definition publish_change (c : DnsFilterChange) : M unit := announce (DnsFilterChanged c).
Definition publish_rebuilt : M unit := st_modify count_rebuilt.

Definition compile_blocklist (bl : Blocklist) : M DnsFilter :=
  if bl_enabled bl then
    domains ← stored (repo_stream_blocklist_domains (bl_id bl));
    mret (builder_finish (foldl builder_insert builder_new domains))
  else mret empty_filter.

Definition rebuild_blocklist_inner (id : Uuid) : M unit :=
  bl ← stored (repo_get_blocklist id);
  match bl with
  | None => on_mem (forget_blocklist id)
  | Some bl =>
      new_filter ← compile_blocklist bl;
      _ ← on_mem (store_blocklist id new_filter);
      publish_rebuilt
  end.

(** The slots of the enabled blocklists; a missing one is built on demand. *)
Fixpoint collect_slots (blocklists : list Blocklist) : M (list Slot) :=
  match blocklists with
  | [] => mret []
  | bl :: rest =>
      if negb (bl_enabled bl) then collect_slots rest
      else
        entry ← from_mem (fun s => fm_blocklist_filters s !! bl_id bl);
        mine ← match entry with
               | Some slot => mret [slot]
               | None => _ ← ignored (rebuild_blocklist_inner (bl_id bl));
                         from_mem (fun s => option_list (fm_blocklist_filters s !! bl_id bl))
               end;
        others ← collect_slots rest;
        mret (mine ++ others)
  end.

Definition rebuild_profile_inner (profile_id : Uuid) : M unit :=
  profile ← stored (repo_get_profile profile_id);
  match profile with
  | None => on_mem (forget_profile profile_id)
  | Some profile =>
      inputs ← stored (repo_load_filter_inputs_for_profile profile_id);
      _ ← on_mem (store_aux profile_id (build {| in_blocked_domains := []; in_allowlist := pi_allowlist inputs;
                                                in_custom_rules := pi_custom_rules inputs |}));
      aux ← from_mem (fun s => option_list (fm_profile_aux_filters s !! profile_id));
      blocklists ← stored (repo_list_blocklists profile_id);
      filters ← collect_slots blocklists;
      _ ← on_mem (store_profile profile_id {| rp_id := pf_id profile; rp_name := pf_name profile; rp_filters := filters ++ aux |});
      publish_rebuilt
  end.

Definition rebuild_device_inner (device_id : Uuid) : M unit :=
  settings ← stored (repo_find_device_settings device_id);
  device ← stored (repo_find_device device_id);
  context ← match settings with
            | None => mret runtime_unfiltered
            | Some s => from_mem (materialise_context s)
            end;
  _ ← match v ← device; parse_ip (dr_last_ip v) with
      | Some ip => on_mem (fun s => set_contexts (<[ip := context]> (fm_contexts s)) s)
      | None => mret tt
      end;
  _ ← on_mem (fun s => set_device_contexts (<[device_id := context]> (fm_device_contexts s)) s);
  publish_rebuilt.

Definition rebuild_default_context_inner : M unit :=
  _ ← on_mem (fun s => set_default_context (default_context_of (fm_config s) s) s);
  publish_rebuilt.

Definition refresh_config : M unit :=
  cfg ← stored repo_get_dns_filter_config;
  on_mem (set_mem_config cfg).

Definition rebuild_blocklists (blocklists : list Blocklist) : M unit :=
  st_iter (fun bl => rebuild_blocklist_inner (bl_id bl)) blocklists.

(** One profile of [rebuild_all], also the head of [rebuild_profile]. *)
Definition rebuild_whole_profile (profile_id : Uuid) : M unit :=
  blocklists ← stored (repo_list_blocklists profile_id);
  _ ← rebuild_blocklists blocklists;
  rebuild_profile_inner profile_id.

Definition install_context (entry : DeviceSettingsWithIp) : M unit :=
  ctx ← from_mem (materialise_context (ws_settings entry));
  _ ← match ip ← ws_ip entry; parse_ip ip with
      | Some ip => on_mem (fun s => set_contexts (<[ip := ctx]> (fm_contexts s)) s)
      | None => mret tt
      end;
  on_mem (fun s => set_device_contexts (<[fs_device_id (ws_settings entry) := ctx]> (fm_device_contexts s)) s).

Definition rebuild_all (ctx : option AuthContext) : M unit :=
  _ ← st_lift (require_admin ctx);
  _ ← refresh_config;
  _ ← on_mem wipe;
  profiles ← stored repo_list_profiles;
  _ ← st_iter (fun p => rebuild_whole_profile (pf_id p)) profiles;
  device_settings ← stored (repo_list_device_settings_with_ips false);
  _ ← st_iter install_context device_settings;
  _ ← rebuild_default_context_inner;
  on_mem (set_bootstrapped true).

Definition rebuild_blocklist_filter (ctx : option AuthContext) (id : Uuid) : M unit :=
  _ ← st_lift (require_admin ctx);
  _ ← rebuild_blocklist_inner id;
  bl ← stored (repo_get_blocklist id);
  match bl with
  | Some bl => rebuild_profile_inner (bl_profile_id bl)
  | None => mret tt
  end.

Definition rebuild_profile (ctx : option AuthContext) (profile_id : Uuid) : M unit :=
  _ ← st_lift (require_admin ctx);
  _ ← rebuild_whole_profile profile_id;
  cfg ← from_mem fm_config;
  _ ← (if bool_decide (profile_id ∈ fc_default_profile_ids cfg) then rebuild_default_context_inner else mret tt);
  device_settings ← stored (repo_list_device_settings_with_ips false);
  st_iter (fun entry => if bool_decide (profile_id ∈ fs_profile_ids (ws_settings entry))
                        then rebuild_device_inner (fs_device_id (ws_settings entry)) else mret tt) device_settings.

Definition rebuild_device (ctx : option AuthContext) (device_id : Uuid) : M unit :=
  _ ← st_lift (require_admin ctx); rebuild_device_inner device_id.

Definition rebuild_default_context (ctx : option AuthContext) : M unit :=
  _ ← st_lift (require_admin ctx);
  _ ← refresh_config;
  rebuild_default_context_inner.

Definition handle_device_ip_changed (ctx : option AuthContext) (device_id : Uuid) (old_ip new_ip : str) : M unit :=
  _ ← st_lift (require_admin ctx);
  entry ← from_mem (fun s => ip ← parse_ip old_ip; fm_contexts s !! ip);
  _ ← match parse_ip old_ip with
      | Some ip => on_mem (fun s => set_contexts (delete ip (fm_contexts s)) s)
      | None => mret tt
      end;
  match parse_ip new_ip, entry with
  | Some new, Some context => on_mem (fun s => set_contexts (<[new := context]> (fm_contexts s)) s)
  | _, _ => rebuild_device_inner device_id
  end.

(** ** The runner *)

Definition handle_filter_change (change : DnsFilterChange) : M unit :=
  match change with
  | ProfileContent profile_id | ProfileMembership profile_id => rebuild_profile (Some system_ctx) profile_id
  | DeviceAssignment device_id => rebuild_device (Some system_ctx) device_id
  | DefaultProfile | GlobalToggle => rebuild_default_context (Some system_ctx)
  end.

Definition handle_event (e : FilterEvent) : M unit :=
  match e with
  | DnsFilterChanged change => handle_filter_change change
  | DnsFilterBlocklistUpdated id _ => rebuild_blocklist_filter (Some system_ctx) id
  | FilterDeviceIpChanged device_id old_ip new_ip => handle_device_ip_changed (Some system_ctx) device_id old_ip new_ip
  end.

(** Receiving the oldest event; a failure is logged. *)
Definition runner_step (w : Filters) : Filters :=
  match fl_events w with
  | [] => w
  | e :: es => snd (handle_event e (set_fl_events es w))
  end.

(** ** The calls *)

Definition missing (what : str) (id : Uuid) : AppError := NotFound (what ++ " " ++ uuid_to_string id ++ of_string " not found").
Definition missing_in (what : str) (id profile_id : Uuid) : AppError :=
  NotFound (what ++ " " ++ uuid_to_string id ++ of_string " not found in profile " ++ uuid_to_string profile_id).

Definition ensure_profile_exists (id : Uuid) : M DnsFilterProfile :=
  p ← stored (repo_get_profile id); st_lift (ok_or p (missing (of_string "profile") id)).

Definition ensure_blocklist_in_profile (profile_id id : Uuid) : M Blocklist :=
  bl ← stored (repo_get_blocklist id);
  bl ← st_lift (ok_or bl (missing (of_string "blocklist") id));
  if negb (bl_profile_id bl =? profile_id) then st_fail (missing_in (of_string "blocklist") id profile_id) else mret bl.

Definition ensure_rule_in_profile (profile_id id : Uuid) : M CustomFilterRule :=
  r ← stored (repo_get_custom_rule id);
  r ← st_lift (ok_or r (missing (of_string "rule") id));
  if negb (ru_profile_id r =? profile_id) then st_fail (missing_in (of_string "rule") id profile_id) else mret r.

Definition config_response (config : DnsFilterConfig) : M DnsFilterConfigResponse :=
  pending ← stored repo_count_unimported_blocklists;
  bootstrapped ← from_mem fm_bootstrapped;
  mret {| cf_config := config; cf_filters_ready := bootstrapped && (pending =? 0);
          cf_pending_blocklists := clamp_u32 pending |}.

Definition list_profiles (ctx : option AuthContext) : M (list DnsFilterProfile) :=
  _ ← st_lift (require_admin ctx); stored repo_list_profiles.

Definition get_profile (ctx : option AuthContext) (id : Uuid) : M DnsFilterProfile :=
  _ ← st_lift (require_admin ctx); ensure_profile_exists id.

Definition check_name (name : option str) : result unit AppError :=
  match name with
  | Some n => if bool_decide (trim n = []) then Err (BadRequest "name must not be empty") else Ok tt
  | None => Ok tt
  end.

Definition check_description (description : option str) : result unit AppError :=
  match description with
  | Some t => if 200 <? len t then Err (BadRequest "description must not exceed 200 characters") else Ok tt
  | None => Ok tt
  end.

Definition create_profile (ctx : option AuthContext) (id : Uuid) (req : CreateProfileRequest) : M DnsFilterProfile :=
  _ ← st_lift (require_admin ctx);
  _ ← st_lift (check_name (Some (cp_name req)));
  _ ← st_lift (check_description (cp_description req));
  profile ← stored (repo_create_profile id (cp_name req) (cp_description req));
  _ ← publish_change (ProfileMembership id);
  mret profile.

(** [.await.unwrap_or(existing)] *)
Definition or_else {X} (m : M X) (x : X) : M X := fun w =>
  let '(r, w') := m w in (match r with Ok a => Ok a | Err _ => Ok x end, w').

Definition update_profile (ctx : option AuthContext) (id : Uuid) (req : UpdateProfileRequest) : M DnsFilterProfile :=
  _ ← st_lift (require_admin ctx);
  existing ← ensure_profile_exists id;
  if pf_builtin existing then st_fail (Conflict "builtin profiles cannot be modified")
  else
    _ ← st_lift (check_name (up_name req));
    _ ← st_lift (check_description (mjoin (up_description req)));
    _ ← stored (repo_update_profile_fields id (up_name req) (up_description req));
    profile ← or_else (ensure_profile_exists id) existing;
    _ ← publish_change (ProfileMembership id);
    mret profile.

Definition delete_profile (ctx : option AuthContext) (id : Uuid) : M unit :=
  _ ← st_lift (require_admin ctx);
  existing ← ensure_profile_exists id;
  if pf_builtin existing then st_fail (Conflict "builtin profiles cannot be deleted")
  else
    deleted ← stored (repo_delete_profile id);
    if negb deleted then st_fail (missing (of_string "profile") id)
    else publish_change (ProfileMembership id).

Definition list_blocklists (ctx : option AuthContext) (profile_id : Uuid) : M (list Blocklist) :=
  _ ← st_lift (require_admin ctx);
  _ ← ensure_profile_exists profile_id;
  stored (repo_list_blocklists profile_id).

Definition not_after (what : string) : AppError := Internal (of_string what).

Definition create_blocklist (ctx : option AuthContext) (profile_id id : Uuid) (req : CreateBlocklistRequest) : M Blocklist :=
  _ ← st_lift (require_admin ctx);
  _ ← ensure_profile_exists profile_id;
  _ ← st_lift (validate_url (cb_url req));
  _ ← st_lift (validate_cron (cb_cron_schedule req));
  _ ← stored (repo_create_blocklist {| br_id := id; br_profile_id := profile_id; br_name := cb_name req;
                                       br_url := cb_url req; br_enabled := cb_enabled req;
                                       br_cron_schedule := cb_cron_schedule req |});
  bl ← stored (repo_get_blocklist id);
  blocklist ← st_lift (ok_or bl (not_after "blocklist not found after insert"));
  _ ← publish_change (ProfileContent profile_id);
  mret blocklist.

Definition check_given (check : str -> result unit AppError) (o : option str) : result unit AppError :=
  match o with Some t => check t | None => Ok tt end.

Definition update_blocklist (ctx : option AuthContext) (profile_id id : Uuid) (req : BlocklistUpdate) : M Blocklist :=
  _ ← st_lift (require_admin ctx);
  _ ← ensure_blocklist_in_profile profile_id id;
  _ ← st_lift (check_given validate_url (bu_url req));
  _ ← st_lift (check_given validate_cron (bu_cron_schedule req));
  _ ← stored (repo_update_blocklist id req);
  bl ← stored (repo_get_blocklist id);
  blocklist ← st_lift (ok_or bl (not_after "blocklist not found after update"));
  _ ← publish_change (ProfileContent profile_id);
  mret blocklist.

Definition delete_blocklist (ctx : option AuthContext) (profile_id id : Uuid) : M unit :=
  _ ← st_lift (require_admin ctx);
  _ ← ensure_blocklist_in_profile profile_id id;
  deleted ← stored (repo_delete_blocklist id);
  if negb deleted then st_fail (missing (of_string "blocklist") id)
  else publish_change (ProfileContent profile_id).

Definition list_allowlist (ctx : option AuthContext) (profile_id : Uuid) : M (list AllowlistEntry) :=
  _ ← st_lift (require_admin ctx);
  _ ← ensure_profile_exists profile_id;
  stored (repo_list_allowlist profile_id).

Definition create_allowlist_entry (ctx : option AuthContext) (profile_id id : Uuid) (req : CreateAllowlistRequest)
    : M AllowlistEntry :=
  _ ← st_lift (require_admin ctx);
  _ ← ensure_profile_exists profile_id;
  _ ← st_lift (validate_filter_domain (ca_domain req));
  _ ← stored (repo_create_allowlist_entry id profile_id (ca_domain req) (ca_reason req));
  entries ← stored (repo_list_allowlist profile_id);
  entry ← st_lift (ok_or (List.find (fun e => al_id e =? id) entries) (not_after "allowlist entry not found after insert"));
  _ ← publish_change (ProfileContent profile_id);
  mret entry.

Definition delete_allowlist_entry (ctx : option AuthContext) (profile_id id : Uuid) : M unit :=
  _ ← st_lift (require_admin ctx);
  _ ← ensure_profile_exists profile_id;
  deleted ← stored (repo_delete_allowlist_entry id);
  if negb deleted then st_fail (missing (of_string "allowlist entry") id)
  else publish_change (ProfileContent profile_id).

Definition list_custom_rules (ctx : option AuthContext) (profile_id : Uuid) : M (list CustomFilterRule) :=
  _ ← st_lift (require_admin ctx);
  _ ← ensure_profile_exists profile_id;
  stored (repo_list_custom_rules profile_id).

Definition create_custom_rule (ctx : option AuthContext) (profile_id id : Uuid) (req : CreateFilterRuleRequest)
    : M CustomFilterRule :=
  _ ← st_lift (require_admin ctx);
  _ ← ensure_profile_exists profile_id;
  _ ← st_lift (validate_rule_text (cr_rule_text req));
  _ ← stored (repo_create_custom_rule id profile_id (cr_rule_text req) (cr_rule_enabled req) (cr_comment req));
  r ← stored (repo_get_custom_rule id);
  rule ← st_lift (ok_or r (not_after "custom rule not found after insert"));
  _ ← publish_change (ProfileContent profile_id);
  mret rule.

Definition update_custom_rule (ctx : option AuthContext) (profile_id id : Uuid) (req : CustomRuleUpdate) : M CustomFilterRule :=
  _ ← st_lift (require_admin ctx);
  _ ← ensure_rule_in_profile profile_id id;
  _ ← st_lift (check_given validate_rule_text (cu_rule_text req));
  _ ← stored (repo_update_custom_rule id req);
  r ← stored (repo_get_custom_rule id);
  rule ← st_lift (ok_or r (not_after "custom rule not found after update"));
  _ ← publish_change (ProfileContent profile_id);
  mret rule.

Definition delete_custom_rule (ctx : option AuthContext) (profile_id id : Uuid) : M unit :=
  _ ← st_lift (require_admin ctx);
  _ ← ensure_rule_in_profile profile_id id;
  deleted ← stored (repo_delete_custom_rule id);
  if negb deleted then st_fail (missing (of_string "rule") id)
  else publish_change (ProfileContent profile_id).

Definition list_device_settings (ctx : option AuthContext) (enabled : option bool) : M (list DeviceDnsFilterSettings) :=
  _ ← st_lift (require_admin ctx);
  entries ← stored (repo_list_device_settings_with_ips (bool_decide (enabled = Some true)));
  mret (ws_settings <$> List.filter (fun e => match enabled with
                                              | Some want => eqb (fs_filtering (ws_settings e)) want
                                              | None => true
                                              end) entries).

Definition settings_or_default (device_id : Uuid) : M DeviceDnsFilterSettings :=
  settings ← stored (repo_find_device_settings device_id);
  now ← st_gets fl_now;
  mret (default (default_for device_id now) settings).

Definition get_device_settings (ctx : option AuthContext) (device_id : Uuid) : M DeviceDnsFilterSettings :=
  _ ← st_lift (require_admin ctx); settings_or_default device_id.

Definition ensure_profiles_exist (ids : list Uuid) : M unit :=
  st_iter (fun pid => _ ← ensure_profile_exists pid; mret tt) ids.

Definition update_device_settings (ctx : option AuthContext) (device_id : Uuid) (req : UpdateDeviceFilterSettingsRequest)
    : M DeviceDnsFilterSettings :=
  _ ← st_lift (require_admin ctx);
  _ ← ensure_profiles_exist (ud_profile_ids req);
  _ ← stored (repo_upsert_device_settings device_id (ud_enabled req));
  _ ← stored (repo_set_device_profiles device_id (ud_profile_ids req));
  _ ← stored (repo_set_managed device_id true);
  settings ← settings_or_default device_id;
  _ ← publish_change (DeviceAssignment device_id);
  mret settings.

Definition get_filter_config (ctx : option AuthContext) : M DnsFilterConfigResponse :=
  _ ← st_lift (require_admin ctx);
  config ← stored repo_get_dns_filter_config;
  config_response config.

Definition publish_if (b : bool) (c : DnsFilterChange) : M unit := if b then publish_change c else mret tt.

Definition update_filter_config (ctx : option AuthContext) (req : UpdateDnsFilterConfigRequest) : M DnsFilterConfigResponse :=
  _ ← st_lift (require_admin ctx);
  current ← stored repo_get_dns_filter_config;
  let enabled := default (fc_enabled current) (uc_enabled req) in
  let changed_global := negb (eqb (fc_enabled current) enabled) in
  ids ← match uc_default_profile_ids req with
        | Some ids =>
            let ids := btree_set Z.compare ids in
            _ ← ensure_profiles_exist ids;
            mret ids
        | None => mret (fc_default_profile_ids current)
        end;
  let changed_default := match uc_default_profile_ids req with
                         | Some _ => negb (bool_decide (sort_by Z.compare (fc_default_profile_ids current) = ids))
                         | None => false
                         end in
  let current := {| fc_enabled := enabled; fc_default_profile_ids := ids;
                    fc_blocklist_failure_alert_threshold :=
                      default (fc_blocklist_failure_alert_threshold current) (uc_threshold req) |} in
  _ ← stored (repo_set_dns_filter_config current);
  _ ← on_mem (set_mem_config current);
  _ ← publish_if changed_default DefaultProfile;
  _ ← publish_if changed_global GlobalToggle;
  config_response current.

(** ** Refreshing *)

(** The domains a feed blocks outright, each once; a hash set has no order. *)
Definition blocked_by_line (line : str) : option str :=
  match parse_line line with
  | Ok (Some (DomainBlock domain mods false)) => if modifiers_is_empty mods then Some domain else None
  | _ => None
  end.
Definition parse_blocklist_body (body : str) : list str :=
  elements (list_to_set (omap blocked_by_line (lines body)) : gset str).

(** [let _ = repo.set_blocklist_error(..)] *)
Definition note_error (id : Uuid) (msg : str) : ST Filters str unit := best_effort (repo_set_blocklist_error id (Some msg)).

(** [blocklist_downloader::refresh_blocklist] with what the fetcher returned. *)
Definition import_feed (bl : Blocklist) (fetched : result str str) : ST Filters str Z :=
  match fetched with
  | Err e => _ ← note_error (bl_id bl) (of_string "download failed: " ++ e); st_fail e
  | Ok body =>
      let domains := parse_blocklist_body body in
      let n := Z.of_nat (length domains) in
      if n =? 0 then
        let msg := of_string "parsed 0 domains from response (check the URL - it may redirect to an HTML page)" in
        _ ← note_error (bl_id bl) msg; st_fail msg
      else fun w =>
        match repo_replace_blocklist_domains (bl_id bl) domains w with
        | (Err e, w') =>
            let '(_, w'') := note_error (bl_id bl) (of_string "failed to store domains: " ++ e) w' in (Err e, w'')
        | (Ok _, w') =>
            let '(_, w'') := best_effort (repo_set_blocklist_error (bl_id bl) None) w' in
            (Ok n, set_fl_events (fl_events w'' ++ [DnsFilterBlocklistUpdated (bl_id bl) n]) w'')
        end
  end.

Definition REFRESH_BACKOFF_BASE_MINS : Z := 5.
Definition REFRESH_BACKOFF_MAX_MINS : Z := 6 * 60.

Definition backoff_mins (failures : Z) : Z :=
  let steps := Z.min (sat_sub failures 1) 16 in
  Z.max REFRESH_BACKOFF_BASE_MINS (Z.min REFRESH_BACKOFF_MAX_MINS (Z.shiftl REFRESH_BACKOFF_BASE_MINS steps)).

Definition retry_not_before (bl : Blocklist) : option Z :=
  if bl_consecutive_failures bl =? 0 then None
  else last_error_at ← bl_last_error_at bl; Some (last_error_at + 60 * backoff_mins (bl_consecutive_failures bl)).

Definition is_due (bl : Blocklist) (schedule : Schedule) (now : Z) : bool :=
  match bl_last_updated bl with
  | None => true
  | Some last => match schedule_after schedule last with Some t => t <=? now | None => false end
  end.

(** Whether the minute tick dispatches a refresh. *)
Definition wants_refresh (bl : Blocklist) (now : Z) : bool :=
  bl_enabled bl &&
  match parse_schedule (bl_cron_schedule bl) with
  | Ok schedule =>
      is_due bl schedule now &&
      match retry_not_before bl with Some retry_at => negb (now <? retry_at) | None => true end
  | Err _ => false
  end.

(** [for bl in &blocklists { .. }] of the tick; [dispatch] is [service.refresh_blocklist]. *)
Fixpoint tick_blocklists (dispatch : Uuid -> Uuid -> M unit) (now : Z) (profile_id : Uuid) (blocklists : list Blocklist)
    : M unit :=
  match blocklists with
  | [] => mret tt
  | bl :: rest =>
      _ ← (if wants_refresh bl now then ignored (dispatch profile_id (bl_id bl)) else mret tt);
      tick_blocklists dispatch now profile_id rest
  end.

Fixpoint tick_profiles (dispatch : Uuid -> Uuid -> M unit) (now : Z) (profiles : list DnsFilterProfile) : M unit :=
  match profiles with
  | [] => mret tt
  | p :: rest =>
      _ ← ignored (blocklists ← list_blocklists (Some system_ctx) (pf_id p);
                   tick_blocklists dispatch now (pf_id p) blocklists);
      tick_profiles dispatch now rest
  end.

Definition check_blocklist_cron (dispatch : Uuid -> Uuid -> M unit) : M unit :=
  ignored (profiles ← list_profiles (Some system_ctx);
           now ← st_gets fl_now;
           tick_profiles dispatch now profiles).

End service.
