(* ===== verification/FilterLaws.v ===== *)
(** * What filter management keeps in its tables

    Over any history of calls, imports and rebuilds, whatever storage refuses: keys
    are unique, references resolve, only validated texts are stored and no builtin
    profile is changed or lost.  An import replaces the domains readers see at once:
    it either succeeds and they are the feed's, or fails and they are what they were. *)

From S2P Require Import Prelude RustStr Net Auth FilterParser DnsFilter PolicyRouter RoutingTypes ZoneTypes PolicyDb.
From S2P Require Import Tables FilterTypes FilterRepo FilterAdmin.

(** ** Reasoning about statements *)

Section statements.
Context {RL : RegexLib} {TL : RecordTypeLib} {NL : IpNetworkLib}.

#[export] Instance filter_view : View Filters FilterDb := {| view := fl_db |}.

Lemma wp_fstmt {X} (f : Z -> FilterDb -> result X str * FilterDb) (Q : result X str -> FilterDb -> Prop) d :
  (forall e, Q (Err e) d) -> (forall now, Q (fst (f now d)) (snd (f now d))) -> wp (fstmt f) Q d.
Proof.
  intros He Hf w <-. unfold fstmt. simpl in *. specialize (Hf (fl_now w)).
  destruct (fl_faults w) as [|[e|] fs]; simpl; [| apply He |]; by destruct (f _ _).
Qed.

Lemma wp_fselect {X} (f : FilterDb -> X) (Q : result X str -> FilterDb -> Prop) d :
  (forall e, Q (Err e) d) -> Q (Ok (f d)) d -> wp (fselect f) Q d.
Proof. intros He Hf. by apply wp_fstmt. Qed.

Lemma wp_stored {X} (m : ST Filters str X) (Q : result X AppError -> FilterDb -> Prop) d :
  wp m (fun r d' => match r with Ok a => Q (Ok a) d' | Err _ => forall e, Q (Err e) d' end) d -> wp (stored m) Q d.
Proof. intros Hm w Hw. specialize (Hm w Hw). unfold stored. destruct (m w) as [[a|e] w']; simpl in *; auto. Qed.

Lemma wp_best_effort {X} (m : ST Filters str X) (Q : result unit str -> FilterDb -> Prop) d :
  wp m (fun _ d' => Q (Ok tt) d') d -> wp (best_effort m) Q d.
Proof. intros Hm w Hw. exact (Hm w Hw). Qed.

Context {P : FilterDb -> Prop}.

Lemma holds_fstmt {X} (f : Z -> FilterDb -> result X str * FilterDb) :
  (forall now d, P d -> P (snd (f now d))) -> holds P (fstmt f).
Proof. intros Hf d Hd. apply wp_fstmt; [done|]. intros now. by apply Hf. Qed.

Lemma holds_fselect {X} (f : FilterDb -> X) : holds P (fselect f).
Proof. by apply holds_fstmt. Qed.

Lemma holds_stored {X} (m : ST Filters str X) : holds P m -> holds P (stored m).
Proof. intros Hm d Hd. apply wp_stored. eapply wp_conseq; [by apply Hm|]. by intros []. Qed.

Lemma holds_best_effort {X} (m : ST Filters str X) : holds P m -> holds P (best_effort m).
Proof. intros Hm d Hd. apply wp_best_effort. by apply Hm. Qed.

Lemma holds_ignored {X} (m : ST Filters AppError X) : holds P m -> holds P (ignored m).
Proof. intros Hm d Hd w Hw. exact (Hm d Hd w Hw). Qed.

Lemma holds_or_else {X} (m : ST Filters AppError X) x : holds P m -> holds P (or_else m x).
Proof. intros Hm d Hd w Hw. specialize (Hm d Hd w Hw). unfold or_else. by destruct (m w) as [[]]. Qed.

Lemma holds_iter {A E} (body : A -> ST Filters E unit) xs : (forall x, holds P (body x)) -> holds P (st_iter body xs).
Proof. intros Hb d Hd. by apply wp_iter; [intros x v Hv; apply Hb|]. Qed.

(** A check that passed is known. *)
Lemma holds_if_ok {X} (r : result unit AppError) (k : unit -> ST Filters AppError X) :
  (r = Ok tt -> holds P (k tt)) -> holds P (st_lift r ≫= k).
Proof. intros Hk d Hd. apply wp_bind, wp_lift. destruct r as [[]|]; [by apply Hk | done]. Qed.

Lemma holds_delete_loop fuel f removed : (forall d, P d -> P (set_domains (delete_first DELETE_BATCH_ROWS f (f_domains d)) d)) ->
  holds P (delete_loop fuel f removed).
Proof.
  intros Hf. revert removed. induction fuel as [|fuel IH]; intros removed; [by apply holds_quiet|]. simpl.
  apply holds_bind; [by apply holds_fstmt; intros now; apply Hf|]. intros n. case_match; [by apply holds_quiet | apply IH].
Qed.

Lemma holds_delete_domains id scope :
  (forall d, P d -> P (set_domains (delete_first DELETE_BATCH_ROWS (in_scope id scope) (f_domains d)) d)) ->
  holds P (delete_domains_in_batches id scope).
Proof. intros Hf d Hd w Hw. by apply (holds_delete_loop _ _ 0 Hf d Hd w Hw). Qed.

End statements.

Ltac fwalk :=
  repeat first
    [ match goal with
      | |- holds _ (st_lift _ ≫= _) => first [apply holds_if_ok; intros ? | apply holds_bind; [|intros ?]]
      | |- holds _ (_ ≫= _) => apply holds_bind; [|intros ?]
      | |- holds _ (stored _) => apply holds_stored
      | |- holds _ (ignored _) => apply holds_ignored
      | |- holds _ (best_effort _) => apply holds_best_effort
      | |- holds _ (or_else _ _) => apply holds_or_else
      | |- holds _ (st_iter _ _) => apply holds_iter; intros ?
      | |- holds _ (fselect _) => apply holds_fselect
      | |- holds _ (if ?b then _ else _) => destruct b eqn:?
      | |- holds _ (match ?x with _ => _ end) => destruct x eqn:?
      | |- holds _ (mret _) => apply holds_quiet; intros ?; reflexivity
      | |- holds _ (st_fail _) => apply holds_quiet; intros ?; reflexivity
      | |- holds _ (st_lift _) => apply holds_quiet; intros ?; reflexivity
      | |- holds _ (st_gets _) => apply holds_quiet; intros ?; reflexivity
      | |- holds _ (on_mem _) => apply holds_quiet; intros ?; reflexivity
      | |- holds _ (from_mem _) => apply holds_quiet; intros ?; reflexivity
      | |- holds _ (announce _) => apply holds_quiet; intros ?; reflexivity
      | |- holds _ (publish_change _) => apply holds_quiet; intros ?; reflexivity
      | |- holds _ publish_rebuilt => apply holds_quiet; intros ?; reflexivity
      end ].

(** ** Rebuilding only reads *)

Section rebuilding.
Context {CL : CronLib} {RL : RegexLib} {TL : RecordTypeLib} {NL : IpNetworkLib} {U : UuidText}.
Context {P : FilterDb -> Prop}.
Abbreviation reads m := (holds (W := Filters) P m).

Lemma reads_get_profile id : reads (repo_get_profile id).
Proof. apply holds_fselect. Qed.
Lemma reads_find_settings id : reads (repo_find_device_settings id).
Proof. unfold repo_find_device_settings. fwalk. Qed.
Lemma reads_with_ips rows : reads (with_ips rows).
Proof. induction rows as [|[v s] rows IH]; simpl; fwalk. exact IH. Qed.
Lemma reads_list_settings b : reads (repo_list_device_settings_with_ips b).
Proof. unfold repo_list_device_settings_with_ips. fwalk. apply reads_with_ips. Qed.
Lemma reads_config : reads repo_get_dns_filter_config.
Proof. unfold repo_get_dns_filter_config. fwalk. Qed.

Lemma reads_rebuild_blocklist id : reads (rebuild_blocklist_inner id).
Proof. unfold rebuild_blocklist_inner, repo_get_blocklist, compile_blocklist, repo_stream_blocklist_domains. fwalk. Qed.

Lemma reads_collect bls : reads (collect_slots bls).
Proof.
  induction bls as [|bl bls IH]; simpl; [by apply holds_quiet|]. destruct (negb _); [exact IH|].
  fwalk; [apply reads_rebuild_blocklist | exact IH].
Qed.

Lemma reads_rebuild_profile_inner id : reads (rebuild_profile_inner id).
Proof.
  unfold rebuild_profile_inner, repo_load_filter_inputs_for_profile, repo_list_blocklists, repo_get_profile. fwalk.
  apply reads_collect.
Qed.

Lemma reads_rebuild_device_inner id : reads (rebuild_device_inner id).
Proof. unfold rebuild_device_inner, repo_find_device. fwalk; apply reads_find_settings. Qed.

Lemma reads_rebuild_default : reads rebuild_default_context_inner.
Proof. unfold rebuild_default_context_inner. fwalk. Qed.

Lemma reads_rebuild_whole id : reads (rebuild_whole_profile id).
Proof.
  unfold rebuild_whole_profile, rebuild_blocklists, repo_list_blocklists. fwalk;
    [apply reads_rebuild_blocklist | apply reads_rebuild_profile_inner].
Qed.

Lemma reads_refresh_config : reads refresh_config.
Proof. unfold refresh_config. fwalk. apply reads_config. Qed.

Lemma reads_rebuild_all ctx : reads (rebuild_all ctx).
Proof.
  unfold rebuild_all, repo_list_profiles, install_context. fwalk;
    first [apply reads_refresh_config | apply reads_rebuild_whole | apply reads_list_settings | apply reads_rebuild_default].
Qed.

Lemma reads_handle_event e : reads (handle_event e).
Proof.
  destruct e as [[]| |]; simpl; unfold rebuild_profile, rebuild_device, rebuild_default_context, rebuild_blocklist_filter,
    handle_device_ip_changed, repo_get_blocklist; fwalk;
    first [apply reads_rebuild_whole | apply reads_rebuild_default | apply reads_list_settings | apply reads_rebuild_device_inner
          | apply reads_refresh_config | apply reads_rebuild_blocklist | apply reads_rebuild_profile_inner].
Qed.

End rebuilding.

(** ** Consistent tables *)

Definition row_id (b : DbBlocklistRow) : Uuid := bl_id (db_blocklist b).
Definition row_profile (b : DbBlocklistRow) : Uuid := bl_profile_id (db_blocklist b).
Definition same_name (a b : DnsFilterProfile) : Prop := pf_name a = pf_name b.
Definition same_source (a b : DbBlocklistRow) : Prop :=
  row_profile a = row_profile b /\ bl_url (db_blocklist a) = bl_url (db_blocklist b).
Definition same_allowed (a b : AllowlistEntry) : Prop := al_profile_id a = al_profile_id b /\ al_domain a = al_domain b.

Definition has_profile (id : Uuid) (d : FilterDb) : Prop := exists p, p ∈ f_profiles d /\ pf_id p = id.
Definition has_device (id : Uuid) (d : FilterDb) : Prop := exists v, v ∈ f_devices d /\ dr_id v = id.
Definition has_blocklist (id : Uuid) (d : FilterDb) : Prop := exists b, b ∈ f_blocklists d /\ row_id b = id.

Section tables.
Context {CL : CronLib} {RL : RegexLib} {TL : RecordTypeLib} {NL : IpNetworkLib} {U : UuidText}.

Definition good_feed (b : Blocklist) : Prop :=
  validate_url (bl_url b) = Ok tt /\ validate_cron (bl_cron_schedule b) = Ok tt.

Record filter_ok (d : FilterDb) : Prop := {
  fo_profiles : keyed pf_id same_name (f_profiles d);
  fo_blocklists : keyed row_id same_source (f_blocklists d);
  fo_allowlist : keyed al_id same_allowed (f_allowlist d);
  fo_rules : NoDup (ru_id <$> f_rules d);
  fo_settings : NoDup (st_device_id <$> f_settings d);
  fo_assigned : NoDup (f_assigned d);
  fo_defaults : NoDup (df_profile_id <$> f_defaults d);
  fo_domains : NoDup (f_domains d);
  fo_feeds b : b ∈ f_blocklists d -> has_profile (row_profile b) d /\ good_feed (db_blocklist b);
  fo_allowed e : e ∈ f_allowlist d -> has_profile (al_profile_id e) d /\ validate_filter_domain (al_domain e) = Ok tt;
  fo_texts r : r ∈ f_rules d -> has_profile (ru_profile_id r) d /\ validate_rule_text (ru_rule_text r) = Ok tt;
  fo_stored r : r ∈ f_domains d -> has_blocklist (dm_blocklist_id r) d;
  fo_owned s : s ∈ f_settings d -> has_device (st_device_id s) d;
  fo_links r : r ∈ f_assigned d -> has_device (dp_device_id r) d /\ has_profile (dp_profile_id r) d;
  fo_default r : r ∈ f_defaults d -> has_profile (df_profile_id r) d;
}.

(** The builtin profiles of [d0] are still there as they were. *)
Definition builtins_kept (d0 d : FilterDb) : Prop := forall p, p ∈ f_profiles d0 -> pf_builtin p = true -> p ∈ f_profiles d.

Lemma profile_exists_has id d : profile_exists id d = true <-> has_profile id d.
Proof. unfold profile_exists, has_profile. rewrite existsb_elem. by setoid_rewrite Z.eqb_eq. Qed.
Lemma device_exists_has id d : device_exists id d = true <-> has_device id d.
Proof. unfold device_exists, has_device. rewrite existsb_elem. by setoid_rewrite Z.eqb_eq. Qed.

Lemma NoDup_snoc {A} (l : list A) x : NoDup l -> x ∉ l -> NoDup (l ++ [x]).
Proof. intros Hl Hx. apply NoDup_app. split_and!; [done | set_solver | apply NoDup_singleton]. Qed.

Lemma NoDup_deleted {A} (f : A -> bool) (l : list A) : NoDup l -> NoDup (deleted f l).
Proof. intros Hl. unfold deleted. rewrite <- filter_bool. by apply NoDup_filter. Qed.

Lemma elem_of_delete_first {A} n (f : A -> bool) (l : list A) x : x ∈ delete_first n f l -> x ∈ l.
Proof.
  revert n. induction l as [|y l IH]; intros [|n]; simpl; [done..|]. destruct (f y); [|rewrite !elem_of_cons; naive_solver].
  intros H%IH. by right.
Qed.

Lemma NoDup_delete_first {A} n (f : A -> bool) (l : list A) : NoDup l -> NoDup (delete_first n f l).
Proof.
  revert n. induction l as [|y l IH]; intros [|n]; simpl; [done..|]. intros [Hy Hl]%NoDup_cons.
  destruct (f y); [by apply IH|]. apply NoDup_cons. split; [|by apply IH]. intros H%elem_of_delete_first. done.
Qed.

(** A change of one table leaves what is said of the others alone. *)
Ltac others H := constructor; try apply H.

Lemma ok_delete_domains n f d : filter_ok d -> filter_ok (set_domains (delete_first n f (f_domains d)) d).
Proof.
  intros H. others H; simpl; [apply NoDup_delete_first, (fo_domains _ H)|].
  intros r Hr%elem_of_delete_first. by apply (fo_stored _ H).
Qed.

Lemma ok_drop_blocklists gone d : filter_ok d -> filter_ok (drop_blocklists gone d).
Proof.
  intros H. others H; simpl.
  - apply keyed_deleted, H.
  - apply NoDup_deleted, (fo_domains _ H).
  - intros b [_ Hb]%elem_of_deleted. by apply (fo_feeds _ H).
  - intros r [Hf Hr]%elem_of_deleted. destruct (fo_stored _ H r Hr) as (b & Hb & Hid). exists b. split; [|done].
    apply elem_of_deleted. split; [|done]. apply (existsb_none _ _ b) in Hf; [|done]. cbv beta in Hf.
    apply andb_false_iff in Hf as [Hf|Hf]; [done|]. breflect. by destruct Hf.
Qed.

Lemma has_profile_dropped id x d : x <> id -> has_profile x d -> has_profile x (drop_profile id d).
Proof.
  intros Hne (p & Hp & Hid). exists p. split; [|done]. simpl. apply elem_of_deleted. split; [|done].
  unfold profile_is. apply Z.eqb_neq. congruence.
Qed.

Lemma ok_drop_profile id d : filter_ok d -> filter_ok (drop_profile id d).
Proof.
  intros H0. pose proof (ok_drop_blocklists (in_profile id) d H0) as H.
  assert (Hkeep : forall x, x <> id -> has_profile x d -> has_profile x (drop_profile id d)) by (intros; by apply has_profile_dropped).
  constructor; simpl; try apply H.
  - apply keyed_deleted, H0.
  - apply keyed_deleted, H0.
  - apply deleted_ids, (fo_rules _ H0).
  - apply NoDup_deleted, (fo_assigned _ H0).
  - apply deleted_ids, (fo_defaults _ H0).
  - intros b Hb. destruct (fo_feeds _ H b Hb) as [Hp Hg]. split; [|done].
    apply Hkeep; [|done]. apply elem_of_deleted in Hb as [Hb _]. unfold in_profile in Hb. by breflect.
  - intros e [He Hin]%elem_of_deleted. destruct (fo_allowed _ H0 e Hin). breflect. split; [by apply Hkeep | done].
  - intros r [He Hin]%elem_of_deleted. destruct (fo_texts _ H0 r Hin). breflect. split; [by apply Hkeep | done].
  - intros r [He Hin]%elem_of_deleted. destruct (fo_links _ H0 r Hin). breflect. split; [done | by apply Hkeep].
  - intros r [He Hin]%elem_of_deleted. breflect. apply Hkeep; [done | by apply (fo_default _ H0)].
Qed.

(** Blocklists changed in columns nobody refers to. *)
Lemma ok_where_blocklists id (g : DbBlocklistRow -> DbBlocklistRow) d :
  (forall b, row_id (g b) = row_id b /\ row_profile (g b) = row_profile b) ->
  (forall b, b ∈ f_blocklists d -> row_id b = id -> good_feed (db_blocklist b) -> good_feed (db_blocklist (g b))) ->
  keyed row_id same_source (where_ (row_is id) g (f_blocklists d)) ->
  filter_ok d -> filter_ok (set_blocklists (where_ (row_is id) g (f_blocklists d)) d).
Proof.
  intros Hg Hfeed Hkey H. others H; simpl; [done | |].
  - intros b (b' & Hb & ->)%elem_of_where. destruct (fo_feeds _ H b' Hb) as [Hp Hf].
    destruct (row_is id b') eqn:E; [|done]. destruct (Hg b') as [_ ->]. split; [done|]. apply Hfeed; [done| |done].
    unfold row_is in E. by breflect.
  - intros r Hr. destruct (fo_stored _ H r Hr) as (b & Hb & Hid).
    exists (if row_is id b then g b else b). split; [apply elem_of_where; eauto|].
    case_match; [|done]. by destruct (Hg b) as [-> _].
Qed.

Lemma keyed_where_blocklists id g d : (forall b, row_id (g b) = row_id b /\ row_profile (g b) = row_profile b) ->
  (forall b, bl_url (db_blocklist (g b)) = bl_url (db_blocklist b)) ->
  filter_ok d -> keyed row_id same_source (where_ (row_is id) g (f_blocklists d)).
Proof.
  intros Hg Hu H. apply keyed_where; [apply Hg | |apply H].
  intros x y. unfold same_source. destruct (Hg x) as [_ Hx], (Hg y) as [_ Hy]. by destruct (row_is id x), (row_is id y); rewrite ?Hu, ?Hx, ?Hy.
Qed.

Lemma ok_generation id g n now d : filter_ok d ->
  filter_ok (set_blocklists (where_ (row_is id) (with_generation g n now) (f_blocklists d)) d).
Proof. intros H. apply ok_where_blocklists; [done | done | | done]. by apply keyed_where_blocklists. Qed.

Lemma ok_error id e now d : filter_ok d ->
  filter_ok (set_blocklists (where_ (row_is id) (with_error e now) (f_blocklists d)) d).
Proof. intros H. apply ok_where_blocklists; [done | done | | done]. by apply keyed_where_blocklists. Qed.

Lemma ok_blocklist_update id u now d : check_given validate_url (bu_url u) = Ok tt ->
  check_given validate_cron (bu_cron_schedule u) = Ok tt -> feed_taken id (bu_url u) d = false -> filter_ok d ->
  filter_ok (set_blocklists (where_ (row_is id) (with_blocklist_update u now) (f_blocklists d)) d).
Proof.
  intros Hu Hc Hfree H. apply ok_where_blocklists; [done | | | done].
  - intros b _ _ [H1 H2]. split; simpl; [destruct (bu_url u) | destruct (bu_cron_schedule u)]; done.
  - unfold feed_taken in Hfree. destruct (bu_url u) as [url|] eqn:Eu.
    2: { apply keyed_where_blocklists; [done | | done]. intros b. simpl. by rewrite Eu. }
    apply keyed_replace; [done | | | apply H].
    + intros x y _ _ Hx Hy. unfold row_is in *. breflect. unfold row_id. congruence.
    + intros x y Hx Hy Ex Ey. destruct (List.find (row_is id) (f_blocklists d)) as [r|] eqn:Er.
      2: { apply (find_None_elem _ _ x) in Er; [congruence | done]. }
      apply find_Some_elem in Er as [Hr Eid]. assert (r = x) as ->.
      { apply (NoDup_fmap_elem_inj row_id (f_blocklists d)); [apply H | done | done |].
        unfold row_is in *. breflect. unfold row_id. congruence. }
      assert (E : negb (row_is id y) && same_feed (row_profile x) url y = false) by (by apply (existsb_none _ _ y) in Hfree).
      rewrite Ey in E. simpl in E. unfold same_feed, in_profile in E. fold (row_profile y) in E.
      unfold same_source. simpl. rewrite Eu. simpl. change (row_profile (with_blocklist_update u now x)) with (row_profile x).
      split; intros [E1 E2]; apply not_true_iff_false in E; apply E, andb_true_intro; split;
        first [apply Z.eqb_eq; congruence | apply bool_decide_eq_true; congruence].
Qed.

(** More profiles, or the same ones under another name. *)
Lemma ok_profiles l d : keyed pf_id same_name l -> (forall id, has_profile id d -> has_profile id (set_profiles l d)) ->
  filter_ok d -> filter_ok (set_profiles l d).
Proof.
  intros Hk Hp H. others H; simpl; [done | | | | |].
  - intros b Hb. destruct (fo_feeds _ H b Hb). eauto.
  - intros e He. destruct (fo_allowed _ H e He). eauto.
  - intros r Hr. destruct (fo_texts _ H r Hr). eauto.
  - intros r Hr. destruct (fo_links _ H r Hr). eauto.
  - intros r Hr. apply Hp. by apply (fo_default _ H).
Qed.

Lemma ok_create_profile p d : existsb (fun x => profile_is (pf_id p) x || bool_decide (pf_name x = pf_name p)) (f_profiles d) = false ->
  filter_ok d -> filter_ok (set_profiles (f_profiles d ++ [p]) d).
Proof.
  intros Hfree H. apply ok_profiles; [| |done].
  - apply keyed_snoc; [apply H|]. intros y Hy. apply (existsb_none _ _ y) in Hfree; [|done]. cbv beta in Hfree. unfold profile_is in Hfree. breflect.
    unfold same_name. split_and!; congruence.
  - intros id (x & Hx & Hid). exists x. simpl. set_solver.
Qed.

Lemma ok_profile_fields id name desc now d : profile_name_taken id name d = false -> filter_ok d ->
  filter_ok (set_profiles (where_ (profile_is id) (with_profile_fields name desc now) (f_profiles d)) d).
Proof.
  intros Hfree H. apply ok_profiles; [| |done].
  - unfold profile_name_taken in Hfree. destruct name as [n|].
    + apply keyed_replace; [done | | | apply H].
      * intros x y _ _ Hx Hy. unfold profile_is in *. breflect. congruence.
      * intros x y Hx Hy Ex Ey. assert (E : profile_exists id d = true).
        { apply existsb_elem. eauto. }
        rewrite E, andb_true_l in Hfree. apply (existsb_none _ _ y) in Hfree; [|done]. cbv beta in Hfree. rewrite Ey, andb_true_l in Hfree.
        unfold same_name. simpl. breflect. split; congruence.
    + apply keyed_where; [done | | apply H]. intros x y. unfold same_name. by destruct (profile_is id x), (profile_is id y).
  - intros x (p & Hp & Hid). exists (if profile_is id p then with_profile_fields name desc now p else p).
    split; [apply elem_of_where; eauto | by case_match].
Qed.

Lemma ok_create_blocklist b d :
  existsb (fun x => row_is (row_id b) x || same_feed (row_profile b) (bl_url (db_blocklist b)) x) (f_blocklists d) = false ->
  profile_exists (row_profile b) d = true -> good_feed (db_blocklist b) -> filter_ok d ->
  filter_ok (set_blocklists (f_blocklists d ++ [b]) d).
Proof.
  intros Hfree Hp Hg H. others H; simpl.
  - apply keyed_snoc; [apply H|]. intros y Hy. apply (existsb_none _ _ y) in Hfree; [|done]. cbv beta in Hfree.
    apply orb_false_iff in Hfree as [H1 H2]. unfold row_is in H1. apply Z.eqb_neq in H1. split; [done|].
    unfold same_feed, in_profile in H2. fold (row_profile y) in H2. unfold same_source.
    split; intros [E1 E2]; apply not_true_iff_false in H2; apply H2, andb_true_intro; split;
        first [apply Z.eqb_eq; congruence | apply bool_decide_eq_true; congruence].
  - intros x [Hx| ->%list_elem_of_singleton]%elem_of_app; [by apply (fo_feeds _ H)|]. split; [by apply profile_exists_has | done].
  - intros r Hr. destruct (fo_stored _ H r Hr) as (x & Hx & Hid). exists x. simpl. set_solver.
Qed.

Lemma ok_create_allowed e d :
  existsb (fun x => (al_id x =? al_id e) || (al_profile_id x =? al_profile_id e) && bool_decide (al_domain x = al_domain e))
    (f_allowlist d) = false ->
  profile_exists (al_profile_id e) d = true -> validate_filter_domain (al_domain e) = Ok tt -> filter_ok d ->
  filter_ok (set_allowlist (f_allowlist d ++ [e]) d).
Proof.
  intros Hfree Hp Hg H. others H; simpl.
  - apply keyed_snoc; [apply H|]. intros y Hy. apply (existsb_none _ _ y) in Hfree; [|done]. cbv beta in Hfree.
    apply orb_false_iff in Hfree as [H1 H2]. apply Z.eqb_neq in H1. split; [done|]. unfold same_allowed.
    split; intros [E1 E2]; apply not_true_iff_false in H2; apply H2, andb_true_intro; split;
        first [apply Z.eqb_eq; congruence | apply bool_decide_eq_true; congruence].
  - intros x [Hx| ->%list_elem_of_singleton]%elem_of_app; [by apply (fo_allowed _ H)|]. split; [by apply profile_exists_has | done].
Qed.

Lemma ok_delete_allowed f d : filter_ok d -> filter_ok (set_allowlist (deleted f (f_allowlist d)) d).
Proof.
  intros H. others H; simpl; [apply keyed_deleted, H|]. intros e [_ He]%elem_of_deleted. by apply (fo_allowed _ H).
Qed.

Lemma ok_create_custom_rule r d : existsb (fun x => ru_id x =? ru_id r) (f_rules d) = false -> profile_exists (ru_profile_id r) d = true ->
  validate_rule_text (ru_rule_text r) = Ok tt -> filter_ok d -> filter_ok (set_custom_rules (f_rules d ++ [r]) d).
Proof.
  intros Hfree Hp Hg H. others H; simpl.
  - rewrite fmap_app. apply NoDup_snoc; [apply H|]. intros (x & E & Hx)%list_elem_of_fmap.
    apply (existsb_none _ _ x) in Hfree; [|done]. cbv beta in Hfree. breflect. by destruct Hfree.
  - intros x [Hx| ->%list_elem_of_singleton]%elem_of_app; [by apply (fo_texts _ H)|]. split; [by apply profile_exists_has | done].
Qed.

Lemma ok_update_custom_rule id u now d : check_given validate_rule_text (cu_rule_text u) = Ok tt -> filter_ok d ->
  filter_ok (set_custom_rules (where_ (fun r => ru_id r =? id) (with_custom_rule_update u now) (f_rules d)) d).
Proof.
  intros Hc H. others H; simpl; [by rewrite where_ids; [apply H|]|].
  intros r (x & Hx & ->)%elem_of_where. destruct (fo_texts _ H x Hx) as [H1 H2]. destruct (ru_id x =? id); [|done].
  split; [done|]. simpl. by destruct (cu_rule_text u).
Qed.

Lemma ok_delete_custom_rule f d : filter_ok d -> filter_ok (set_custom_rules (deleted f (f_rules d)) d).
Proof. intros H. others H; simpl; [apply deleted_ids, H|]. intros r [_ Hr]%elem_of_deleted. by apply (fo_texts _ H). Qed.

Lemma ok_upsert_settings s d : device_exists (st_device_id s) d = true -> filter_ok d ->
  filter_ok (set_settings (if existsb (fun x => st_device_id x =? st_device_id s) (f_settings d)
                           then where_ (fun x => st_device_id x =? st_device_id s) (fun _ => s) (f_settings d)
                           else f_settings d ++ [s]) d).
Proof.
  intros Hd%device_exists_has H. others H; simpl; destruct (existsb _ _) eqn:E.
  - unfold where_. rewrite <- list_fmap_compose. rewrite (list_fmap_ext _ st_device_id); [apply H|].
    intros _ x _. simpl. case_match; [|done]. by breflect.
  - rewrite fmap_app. apply NoDup_snoc; [apply H|]. intros (x & Ex & Hx)%list_elem_of_fmap.
    apply (existsb_none _ _ x) in E; [|done]. cbv beta in E. breflect. by destruct E.
  - intros x (y & Hy & ->)%elem_of_where. case_match; [done | by apply (fo_owned _ H)].
  - intros x [Hx| ->%list_elem_of_singleton]%elem_of_app; [by apply (fo_owned _ H) | done].
Qed.

Lemma insert_assigned_ok id ids d rows rows' : insert_assigned id ids d rows = Ok rows' -> NoDup rows ->
  (forall r, r ∈ rows -> has_device (dp_device_id r) d /\ has_profile (dp_profile_id r) d) ->
  NoDup rows' /\ (forall r, r ∈ rows' -> has_device (dp_device_id r) d /\ has_profile (dp_profile_id r) d).
Proof.
  revert rows. induction ids as [|p ids IH]; simpl; intros rows; [by intros [= <-]|].
  destruct (existsb _ rows) eqn:E1; [done|]. destruct (device_exists id d) eqn:Ed; [|done].
  destruct (profile_exists p d) eqn:Ep; [|done]. simpl. intros H Hn Hr. apply (IH _ H).
  - apply NoDup_snoc; [done|]. intros Hin. apply (existsb_none _ _ _ E1) in Hin. simpl in Hin. by rewrite !Z.eqb_refl in Hin.
  - intros r [Hx| ->%list_elem_of_singleton]%elem_of_app; [by apply Hr|]. split; [by apply device_exists_has | by apply profile_exists_has].
Qed.

Lemma ok_assigned id ids rows d : insert_assigned id ids d (deleted (fun r => dp_device_id r =? id) (f_assigned d)) = Ok rows ->
  filter_ok d -> filter_ok (set_assigned rows d).
Proof.
  intros E H. apply insert_assigned_ok in E as [E1 E2].
  - others H; done.
  - apply NoDup_deleted, H.
  - intros r [_ Hr]%elem_of_deleted. by apply (fo_links _ H).
Qed.

Lemma insert_defaults_ok ids now d rows rows' : insert_defaults ids now d rows = Ok rows' -> NoDup (df_profile_id <$> rows) ->
  (forall r, r ∈ rows -> has_profile (df_profile_id r) d) ->
  NoDup (df_profile_id <$> rows') /\ (forall r, r ∈ rows' -> has_profile (df_profile_id r) d).
Proof.
  revert rows. induction ids as [|p ids IH]; simpl; intros rows; [by intros [= <-]|].
  destruct (existsb _ rows) eqn:E1; [done|]. destruct (profile_exists p d) eqn:Ep; [|done]. simpl. intros H Hn Hr. apply (IH _ H).
  - rewrite fmap_app. apply NoDup_snoc; [done|]. intros (x & Ex & Hx)%list_elem_of_fmap. apply (existsb_none _ _ x) in E1; [|done]. cbv beta in E1.
    simpl in Ex. breflect. by destruct E1.
  - intros r [Hx| ->%list_elem_of_singleton]%elem_of_app; [by apply Hr | by apply profile_exists_has].
Qed.

Lemma ok_config ids now rows m d : insert_defaults ids now d [] = Ok rows -> filter_ok d ->
  filter_ok (set_defaults rows (set_filter_config m d)).
Proof.
  intros E H. apply insert_defaults_ok in E as [E1 E2]; [others H; done | by apply NoDup_nil | set_solver].
Qed.

(** Another part of the daemon changes the device table; a device that goes takes its rows along. *)
Definition env_devices (l : list DeviceRow) (d : FilterDb) : FilterDb :=
  let gone id := negb (existsb (fun v => dr_id v =? id) l) in
  set_filter_devices l (set_settings (deleted (fun s => gone (st_device_id s)) (f_settings d))
    (set_assigned (deleted (fun r => gone (dp_device_id r)) (f_assigned d)) d)).

Lemma ok_env_devices l d : filter_ok d -> filter_ok (env_devices l d).
Proof.
  intros H. others H; simpl.
  - apply deleted_ids, H.
  - apply NoDup_deleted, H.
  - intros s [E _]%elem_of_deleted. breflect. by apply device_exists_has.
  - intros r [E Hr]%elem_of_deleted. breflect. split; [by apply device_exists_has | by apply (fo_links _ H)].
Qed.

Lemma ok_set_managed id b d : filter_ok d ->
  filter_ok (set_filter_devices (where_ (fun v => dr_id v =? id) (set_columns [SetManaged b]) (f_devices d)) d).
Proof.
  intros H. assert (Hd : forall x, has_device x d ->
    has_device x (set_filter_devices (where_ (fun v => dr_id v =? id) (set_columns [SetManaged b]) (f_devices d)) d)).
  { intros x (v & Hv & Hid). exists (if dr_id v =? id then set_columns [SetManaged b] v else v).
    split; [apply elem_of_where; eauto | by case_match]. }
  others H; simpl; [intros s Hs; apply Hd; by apply (fo_owned _ H)|].
  intros r Hr. destruct (fo_links _ H r Hr). eauto.
Qed.

(** ** Histories *)

Inductive FilterCall : Type :=
| CallCreateProfile (id : Uuid) (req : CreateProfileRequest)
| CallUpdateProfile (id : Uuid) (req : UpdateProfileRequest)
| CallDeleteProfile (id : Uuid)
| CallCreateBlocklist (profile_id id : Uuid) (req : CreateBlocklistRequest)
| CallUpdateBlocklist (profile_id id : Uuid) (req : BlocklistUpdate)
| CallDeleteBlocklist (profile_id id : Uuid)
| CallCreateAllowed (profile_id id : Uuid) (req : CreateAllowlistRequest)
| CallDeleteAllowed (profile_id id : Uuid)
| CallCreateRule (profile_id id : Uuid) (req : CreateFilterRuleRequest)
| CallUpdateRule (profile_id id : Uuid) (req : CustomRuleUpdate)
| CallDeleteRule (profile_id id : Uuid)
| CallUpdateSettings (device_id : Uuid) (req : UpdateDeviceFilterSettingsRequest)
| CallUpdateConfig (req : UpdateDnsFilterConfigRequest).

Definition to_unit {X} (m : ST Filters AppError X) : ST Filters AppError unit := _ ← m; mret tt.

Definition run_call (ctx : option AuthContext) (c : FilterCall) : ST Filters AppError unit :=
  match c with
  | CallCreateProfile id req => to_unit (create_profile ctx id req)
  | CallUpdateProfile id req => to_unit (update_profile ctx id req)
  | CallDeleteProfile id => delete_profile ctx id
  | CallCreateBlocklist p id req => to_unit (create_blocklist ctx p id req)
  | CallUpdateBlocklist p id req => to_unit (update_blocklist ctx p id req)
  | CallDeleteBlocklist p id => delete_blocklist ctx p id
  | CallCreateAllowed p id req => to_unit (create_allowlist_entry ctx p id req)
  | CallDeleteAllowed p id => delete_allowlist_entry ctx p id
  | CallCreateRule p id req => to_unit (create_custom_rule ctx p id req)
  | CallUpdateRule p id req => to_unit (update_custom_rule ctx p id req)
  | CallDeleteRule p id => delete_custom_rule ctx p id
  | CallUpdateSettings v req => to_unit (update_device_settings ctx v req)
  | CallUpdateConfig req => to_unit (update_filter_config ctx req)
  end.

(** One thing that happens: a call, a finished download, a received event, a start, or
    the rest of the daemon, the storage and the clock moving on. *)
Inductive fstep : Filters -> Filters -> Prop :=
| fstep_call ctx c w : fstep w (snd (run_call ctx c w))
| fstep_import bl fetched w : fstep w (snd (import_feed bl fetched w))
| fstep_runner w : fstep w (runner_step w)
| fstep_start w : fstep w (snd (rebuild_all (Some system_ctx) w))
| fstep_devices l w : fstep w (set_fl_db (env_devices l (fl_db w)) w)
| fstep_world fs now w : fstep w (set_fl_faults fs (set_fl_now now w)).

Section history.
Variable d0 : FilterDb.

Definition kept (d : FilterDb) : Prop := filter_ok d /\ builtins_kept d0 d.
Abbreviation keeps m := (holds (W := Filters) kept m).

(** Statements that do not touch the profiles. *)
Lemma keeps_stmt {X} (f : Z -> FilterDb -> result X str * FilterDb) :
  (forall now d, filter_ok d -> filter_ok (snd (f now d)) /\ f_profiles (snd (f now d)) = f_profiles d) -> keeps (fstmt f).
Proof.
  intros Hf. apply holds_fstmt. intros now d [Hd Hb]. destruct (Hf now d Hd) as [H1 H2]. split; [done|].
  intros p Hp Hbt. rewrite H2. by apply Hb.
Qed.

Lemma keeps_delete_domains id scope : keeps (delete_domains_in_batches id scope).
Proof. apply holds_delete_domains. intros d [Hd Hb]. split; [by apply ok_delete_domains | exact Hb]. Qed.

Lemma insert_chunks_ok id g cs : forall d d', insert_chunks id g cs d = Ok d' ->
  (forall c, c ∈ cs -> NoDup c) -> filter_ok d -> filter_ok d' /\ f_profiles d' = f_profiles d.
Proof.
  induction cs as [|c cs IH]; intros d d'; simpl; [by intros [= <-]|]. unfold insert_chunk.
  destruct (existsb _ c) eqn:E1; [done|]. destruct (existsb _ (f_blocklists d)) eqn:E2; [|done]. simpl. intros E Hc H.
  apply IH in E as [H1 H2]; [by split | intros; apply Hc; by right|]. clear IH E.
  others H; simpl.
  - apply NoDup_app. split_and!; [apply H | | apply NoDup_fmap_2; [by intros ?? [=] | apply Hc; by left]].
    intros r Hr (x & -> & Hx)%list_elem_of_fmap. apply (existsb_none _ _ x) in E1; [|done]. cbv beta in E1.
    apply (existsb_none _ _ _ E1) in Hr. simpl in Hr. rewrite bool_decide_true, !Z.eqb_refl in Hr; done.
  - intros r [Hr|(x & -> & Hx)%list_elem_of_fmap]%elem_of_app; [by apply (fo_stored _ H)|].
    apply existsb_elem in E2 as (b & Hb & E). exists b. split; [done|]. unfold row_is in E. by breflect.
Qed.

Lemma NoDup_first_seen seen l : NoDup (first_seen seen l) /\ (forall x, x ∈ first_seen seen l <-> x ∈ l /\ x ∉ seen).
Proof.
  revert seen. induction l as [|y l IH]; intros seen; simpl; [split; [by apply NoDup_nil | set_solver]|].
  case_bool_decide as Hy; [destruct (IH seen) as [H1 H2]; split; [done|]; set_solver|].
  destruct (IH ({[y]} ∪ seen)) as [H1 H2]. split; [apply NoDup_cons; set_solver|].
  intros x. rewrite elem_of_cons, H2. destruct (decide (x = y)); set_solver.
Qed.

Lemma chunks_fuel_join {A} fuel n (l : list A) : (0 < n)%nat -> (length l <= fuel)%nat -> concat (chunks_fuel fuel n l) = l.
Proof.
  intros Hn. revert l. induction fuel as [|fuel IH]; intros [|x l]; simpl; [done | lia | done|]. intros Hl.
  rewrite IH; [apply take_drop|]. rewrite length_drop. simpl. lia.
Qed.
Lemma chunks_join {A} n (l : list A) : (0 < n)%nat -> concat (chunks n l) = l.
Proof. intros Hn. by apply chunks_fuel_join. Qed.

Lemma NoDup_chunk {A} n (l c : list A) : (0 < n)%nat -> NoDup l -> c ∈ chunks n l -> NoDup c.
Proof.
  intros Hn Hl (l1 & l2 & E)%list_elem_of_split. rewrite <- (chunks_join n l Hn), E, concat_app in Hl. simpl in Hl.
  apply NoDup_app in Hl as (_ & _ & Hl). by apply NoDup_app in Hl as (? & _ & _).
Qed.

Lemma keeps_import_batch id g batch : NoDup batch -> keeps (import_batch id g batch).
Proof.
  intros Hn. apply keeps_stmt. intros now d Hd. destruct (insert_chunks _ _ _ d) as [d'|e] eqn:E; simpl; [|done].
  apply insert_chunks_ok in E; [done | | done]. intros c. apply NoDup_chunk; [unfold INSERT_CHUNK_ROWS; lia | done].
Qed.

Lemma keeps_replace id domains : keeps (repo_replace_blocklist_domains id domains).
Proof.
  unfold repo_replace_blocklist_domains. apply holds_bind; [fwalk|intros row]. apply holds_bind; [fwalk|intros active].
  apply holds_bind; [apply keeps_delete_domains|intros _].
  apply holds_bind; [|intros _; apply holds_bind; [|intros _; fwalk; apply keeps_delete_domains]].
  - set (batches := chunks _ _).
    assert (Hn : forall b, b ∈ batches -> NoDup b).
    { intros b. apply NoDup_chunk; [unfold IMPORT_BATCH_ROWS; lia | apply NoDup_first_seen]. }
    clearbody batches. induction batches as [|b bs IH]; simpl; [by apply holds_quiet|].
    apply holds_bind; [apply keeps_import_batch, Hn; by left | intros _; apply IH; intros; apply Hn; by right].
  - apply keeps_stmt. intros now d Hd. simpl. split; [by apply ok_generation | done].
Qed.

Lemma keeps_set_error id e : keeps (repo_set_blocklist_error id e).
Proof. apply keeps_stmt. intros now d Hd. simpl. split; [by apply ok_error | done]. Qed.

Lemma keeps_import bl fetched : keeps (import_feed bl fetched).
Proof.
  unfold import_feed, note_error. destruct fetched as [body|e]; [|fwalk; apply keeps_set_error].
  destruct (_ =? 0); [fwalk; apply keeps_set_error|]. intros d Hd w Hw.
  pose proof (keeps_replace (bl_id bl) (parse_blocklist_body body) d Hd w Hw) as H.
  destruct (repo_replace_blocklist_domains _ _ w) as [[n|e] w']; simpl in H.
  - apply (holds_best_effort _ (keeps_set_error (bl_id bl) None) _ H w' eq_refl).
  - apply (holds_best_effort _ (keeps_set_error (bl_id bl) (Some (of_string "failed to store domains: " ++ e))) _ H w' eq_refl).
Qed.

Lemma keeps_ensure_profile id : keeps (ensure_profile_exists id).
Proof. unfold ensure_profile_exists. fwalk. apply reads_get_profile. Qed.
Lemma keeps_ensure_profiles ids : keeps (ensure_profiles_exist ids).
Proof. unfold ensure_profiles_exist. fwalk. apply keeps_ensure_profile. Qed.
Lemma keeps_ensure_blocklist p id : keeps (ensure_blocklist_in_profile p id).
Proof. unfold ensure_blocklist_in_profile, repo_get_blocklist. fwalk. Qed.
Lemma keeps_ensure_rule p id : keeps (ensure_rule_in_profile p id).
Proof. unfold ensure_rule_in_profile, repo_get_custom_rule. fwalk. Qed.

(** What a successful lookup says about the tables. *)
Lemma wp_ensure_profile id (Q : result DnsFilterProfile AppError -> FilterDb -> Prop) d :
  (forall e, Q (Err e) d) -> (forall p, List.find (profile_is id) (f_profiles d) = Some p -> Q (Ok p) d) ->
  wp (ensure_profile_exists id) Q d.
Proof.
  intros He Hp. unfold ensure_profile_exists. apply wp_bind, wp_stored, wp_fselect; [done|]. apply wp_lift.
  destruct (List.find _ _) as [p|] eqn:E; simpl; [by apply Hp | done].
Qed.

Lemma keeps_create_profile id name desc : keeps (repo_create_profile id name desc).
Proof.
  apply holds_fstmt. intros now d [Hd Hb]. cbv zeta. case_match eqn:E; simpl; [by split|]. split; [by apply ok_create_profile|].
  intros p Hp Hbt. simpl. apply elem_of_app. left. by apply Hb.
Qed.

Lemma find_profile_only id p q d : filter_ok d -> List.find (profile_is id) (f_profiles d) = Some p ->
  q ∈ f_profiles d -> profile_is id q = true -> q = p.
Proof.
  intros H [Hp Ep]%find_Some_elem Hq Eq. unfold profile_is in *. breflect.
  apply (NoDup_fmap_elem_inj pf_id (f_profiles d)); [apply H | done | done | congruence].
Qed.

Lemma keeps_update_profile_fields id name desc d p : kept d -> List.find (profile_is id) (f_profiles d) = Some p ->
  pf_builtin p = false -> wp (repo_update_profile_fields id name desc) (fun _ => kept) d.
Proof.
  intros [Hd Hb] Hp Hbt. assert (Hk : forall now, profile_name_taken id name d = false ->
    kept (set_profiles (where_ (profile_is id) (with_profile_fields name desc now) (f_profiles d)) d)).
  { intros now Hfree. split; [by apply ok_profile_fields|]. intros q Hq Hbq. specialize (Hb q Hq Hbq). simpl.
    apply elem_of_where. exists q. split; [done|]. destruct (profile_is id q) eqn:E; [|done].
    by rewrite (find_profile_only id p q d Hd Hp Hb E) in Hbq; rewrite Hbt in Hbq. }
  unfold repo_update_profile_fields. destruct name as [n|], desc as [t|]; try (apply wp_ret; by split).
  all: apply wp_fstmt; [by split|]; intros now; cbv beta zeta; case_match eqn:E; simpl; [by split | by apply Hk].
Qed.

Lemma keeps_update_profile ctx id req : keeps (update_profile ctx id req).
Proof.
  unfold update_profile. apply holds_if_ok. intros _ d Hd. apply wp_bind, wp_ensure_profile; [done|].
  intros p Hp. destruct (pf_builtin p) eqn:E; [by apply wp_fail|].
  apply wp_bind, wp_lift. destruct (check_name _); [|done]. apply wp_bind, wp_lift. destruct (check_description _); [|done].
  apply wp_bind, wp_stored. eapply wp_conseq; [by eapply keeps_update_profile_fields|]. intros [b|e] d' Hd'; [|by intros].
  revert d' Hd'. assert (H : keeps (profile ← or_else (ensure_profile_exists id) p; _ ← publish_change (ProfileMembership id); mret profile)).
  { fwalk. apply keeps_ensure_profile. }
  exact H.
Qed.

Lemma keeps_drained ids removed : keeps (drain ids removed).
Proof. revert removed. induction ids as [|b ids IH]; intros removed; simpl; fwalk; [apply keeps_delete_domains | apply IH]. Qed.
Lemma keeps_drain_passes n id : keeps (drain_passes n id).
Proof. induction n as [|n IH]; simpl; fwalk; [apply keeps_drained | exact IH]. Qed.

Lemma keeps_repo_delete_profile id : keeps (repo_delete_profile id).
Proof.
  unfold repo_delete_profile. fwalk; [apply keeps_drain_passes|]. apply holds_fstmt. intros now db [Hd Hb].
  cbv zeta. case_match eqn:E; simpl; [|by split]. split; [by apply ok_drop_profile|]. intros p Hp Hbt. specialize (Hb p Hp Hbt).
  simpl. apply elem_of_deleted. split; [|done]. apply existsb_elem in E as (q & Hq & Eq). unfold deletable in Eq. breflect.
  destruct (profile_is id p) eqn:Ep; [|done]. assert (p = q); [|congruence]. unfold profile_is in *. breflect.
  apply (NoDup_fmap_elem_inj pf_id (f_profiles db)); [apply Hd | done | done | congruence].
Qed.

Lemma keeps_repo_create_blocklist row : validate_url (br_url row) = Ok tt -> validate_cron (br_cron_schedule row) = Ok tt ->
  keeps (repo_create_blocklist row).
Proof.
  intros Hu Hc. apply keeps_stmt. intros now d Hd. cbv zeta. case_match eqn:E1; simpl; [done|].
  destruct (profile_exists _ d) eqn:E2; simpl; [|done]. split; [|done]. by apply ok_create_blocklist.
Qed.

Lemma keeps_repo_update_blocklist id u : check_given validate_url (bu_url u) = Ok tt ->
  check_given validate_cron (bu_cron_schedule u) = Ok tt -> keeps (repo_update_blocklist id u).
Proof.
  intros Hu Hc. assert (H : keeps (fstmt (fun now d => if feed_taken id (bu_url u) d then (Err unique_text, d)
    else (Ok tt, set_blocklists (where_ (row_is id) (with_blocklist_update u now) (f_blocklists d)) d)))).
  { apply keeps_stmt. intros now d Hd. case_match eqn:E; simpl; [done|]. split; [by apply ok_blocklist_update | done]. }
  unfold repo_update_blocklist. destruct u as [[] [] [] []]; try exact H. by apply holds_quiet.
Qed.

Lemma keeps_repo_delete_blocklist id : keeps (repo_delete_blocklist id).
Proof.
  unfold repo_delete_blocklist. fwalk; [apply keeps_delete_domains|]. apply keeps_stmt. intros now d Hd. simpl.
  split; [by apply ok_drop_blocklists | done].
Qed.

Lemma keeps_repo_create_allowed id p domain reason : validate_filter_domain domain = Ok tt ->
  keeps (repo_create_allowlist_entry id p domain reason).
Proof.
  intros Hv. apply keeps_stmt. intros now d Hd. cbv zeta. case_match eqn:E1; simpl; [done|].
  destruct (profile_exists _ d) eqn:E2; simpl; [|done]. split; [|done]. by apply ok_create_allowed.
Qed.

Lemma keeps_repo_create_rule id p text en comment : validate_rule_text text = Ok tt ->
  keeps (repo_create_custom_rule id p text en comment).
Proof.
  intros Hv. apply keeps_stmt. intros now d Hd. cbv zeta. case_match eqn:E1; simpl; [done|].
  destruct (profile_exists _ d) eqn:E2; simpl; [|done]. split; [|done]. by apply ok_create_custom_rule.
Qed.

Lemma keeps_repo_update_rule id u : check_given validate_rule_text (cu_rule_text u) = Ok tt -> keeps (repo_update_custom_rule id u).
Proof.
  intros Hv. assert (H : keeps (fstmt (fun now d =>
    (Ok tt, set_custom_rules (where_ (fun r => ru_id r =? id) (with_custom_rule_update u now) (f_rules d)) d)))).
  { apply keeps_stmt. intros now d Hd. simpl. split; [by apply ok_update_custom_rule | done]. }
  unfold repo_update_custom_rule. destruct u as [[] [] []]; try exact H. by apply holds_quiet.
Qed.

Lemma keeps_settings v req : keeps (repo_upsert_device_settings v (ud_enabled req)).
Proof.
  apply keeps_stmt. intros now d Hd. cbv zeta. destruct (device_exists v d) eqn:E; simpl; [|done]. split; [|done].
  by apply (ok_upsert_settings {| st_device_id := v; st_enabled := ud_enabled req; st_updated_at := now |}).
Qed.

Lemma keeps_device_profiles v ids : keeps (repo_set_device_profiles v ids).
Proof. apply keeps_stmt. intros now d Hd. case_match eqn:E; simpl; [|done]. split; [by eapply ok_assigned | done]. Qed.

Lemma keeps_managed v b : keeps (repo_set_managed v b).
Proof. apply keeps_stmt. intros now d Hd. simpl. split; [by apply ok_set_managed | done]. Qed.

Lemma keeps_set_config c : keeps (repo_set_dns_filter_config c).
Proof. apply keeps_stmt. intros now d Hd. case_match eqn:E; simpl; [|done]. split; [by eapply ok_config | done]. Qed.

Lemma keeps_filter_call ctx c : keeps (run_call ctx c).
Proof.
  destruct c; simpl; unfold to_unit, create_profile, delete_profile, create_blocklist, update_blocklist, delete_blocklist,
    create_allowlist_entry, delete_allowlist_entry, create_custom_rule, update_custom_rule, delete_custom_rule,
    update_device_settings, settings_or_default, update_filter_config, config_response, publish_if,
    repo_get_blocklist, repo_get_custom_rule, repo_list_allowlist, repo_count_unimported_blocklists; cbv zeta.
  2: { apply holds_bind; [apply keeps_update_profile | intros; by apply holds_quiet]. }
  all: fwalk; first
    [ apply keeps_create_profile | apply keeps_ensure_profile | apply keeps_repo_delete_profile
    | by apply keeps_repo_create_blocklist | apply keeps_ensure_blocklist | by apply keeps_repo_update_blocklist
    | apply keeps_repo_delete_blocklist | by apply keeps_repo_create_allowed | by apply keeps_repo_create_rule
    | apply keeps_ensure_rule | by apply keeps_repo_update_rule | apply keeps_ensure_profiles | apply keeps_settings
    | apply keeps_device_profiles | apply keeps_managed | apply reads_find_settings | apply reads_config | apply keeps_set_config
    | apply keeps_stmt; intros now d Hd; simpl; split; [|done]; first [by apply ok_delete_allowed | by apply ok_delete_custom_rule] ].
Qed.

Lemma fstep_kept w w' : fstep w w' -> kept (fl_db w) -> kept (fl_db w').
Proof.
  intros Hs Hk. destruct Hs as [ctx c w|bl fetched w|w|w|l w|fs now w].
  - by apply (holds_after (V := FilterDb) kept _ w (keeps_filter_call ctx c)).
  - by apply (holds_after (V := FilterDb) kept _ w (keeps_import bl fetched)).
  - unfold runner_step. destruct (fl_events w) as [|e es]; [done|].
    by apply (holds_after (V := FilterDb) kept _ (set_fl_events es w) (reads_handle_event e)).
  - by apply (holds_after (V := FilterDb) kept _ w (reads_rebuild_all _)).
  - destruct Hk as [Hd Hb]. split; [by apply ok_env_devices | exact Hb].
  - exact Hk.
Qed.

End history.

(** C8: Over any history of management calls, downloads, rebuilds, other parts of the
    daemon changing the devices and storage failing at any statement, the filter tables
    stay consistent (unique keys, resolving references, only validated URLs, schedules,
    domains and rules) and every builtin profile is still there unchanged. *)
Theorem filter_history_ok w w' : filter_ok (fl_db w) -> rtc fstep w w' ->
  filter_ok (fl_db w') /\ builtins_kept (fl_db w) (fl_db w').
Proof.
  intros Hd Hr. assert (H : forall v v', rtc fstep v v' -> kept (fl_db w) (fl_db v) -> kept (fl_db w) (fl_db v')).
  { induction 1 as [|x y z Hxy _ IH]; [done|]. intros Hx. apply IH. by eapply fstep_kept. }
  apply (H w w' Hr). split; [done | by intros p Hp _].
Qed.

End tables.
