(* ===== verification/FilterImport.v ===== *)
(** * Importing a feed

    [replace_blocklist_domains] writes a new generation beside the one readers are
    pinned to and swaps it in with one statement.  Whatever fails on the way, a reader
    sees either the whole old list or the whole new one. *)

From S2P Require Import Prelude RustStr Net Auth FilterParser DnsFilter PolicyRouter RoutingTypes ZoneTypes PolicyDb.
From S2P Require Import Tables FilterTypes FilterRepo FilterAdmin FilterLaws.

Lemma filter_delete_first {A} n (f p : A -> bool) (l : list A) : (forall x, f x = true -> p x = false) ->
  List.filter p (delete_first n f l) = List.filter p l.
Proof.
  intros Hf. revert n. induction l as [|x l IH]; intros [|n]; simpl; [done..|].
  destruct (f x) eqn:E; simpl; [rewrite (Hf x E); apply IH|]. by rewrite IH.
Qed.

Lemma length_filter_delete_first {A} n (f : A -> bool) (l : list A) :
  length (List.filter f (delete_first n f l)) = (length (List.filter f l) - n)%nat.
Proof.
  revert n. induction l as [|x l IH]; intros [|n]; simpl; [done | done | lia|].
  destruct (f x) eqn:E; simpl; [apply IH | rewrite E; apply IH].
Qed.

Section import.
Context {RL : RegexLib} {TL : RecordTypeLib} {NL : IpNetworkLib} {U : UuidText}.

(** ** Batched deletion *)

Section deleting.
Variables (f : DomainRow -> bool) (J : FilterDb -> Prop).
Hypothesis J_delete : forall d, J d -> J (set_domains (delete_first DELETE_BATCH_ROWS f (f_domains d)) d).

(** The loop ends with nothing left that matches. *)
Lemma wp_delete_loop fuel removed d : J d -> (length (List.filter f (f_domains d)) < fuel)%nat ->
  wp (delete_loop fuel f removed)
    (fun r d' => J d' /\ match r with Ok _ => List.filter f (f_domains d') = [] | Err _ => True end) d.
Proof.
  revert removed d. induction fuel as [|fuel IH]; intros removed d Hd Hl; [lia|]. simpl. unfold delete_batch.
  apply wp_bind, wp_fstmt; [done|]. intros now. simpl. unfold count. specialize (J_delete d Hd).
  destruct (List.filter f (f_domains d)) as [|r rs] eqn:E.
  - simpl. apply wp_ret. split; [done|]. simpl. apply length_zero_iff_nil. rewrite length_filter_delete_first, E. done.
  - assert (Hn : (Z.min (Z.of_nat DELETE_BATCH_ROWS) (Z.of_nat (length (r :: rs))) =? 0) = false).
    { apply Z.eqb_neq. simpl length. unfold DELETE_BATCH_ROWS. lia. }
    rewrite Hn. apply IH; [done|]. change (f_domains (set_domains ?l d)) with l. rewrite length_filter_delete_first, E.
    simpl length in *. unfold DELETE_BATCH_ROWS. lia.
Qed.

End deleting.

Lemma wp_delete_domains id scope (J : FilterDb -> Prop) d :
  (forall d, J d -> J (set_domains (delete_first DELETE_BATCH_ROWS (in_scope id scope) (f_domains d)) d)) -> J d ->
  wp (delete_domains_in_batches id scope)
    (fun r d' => J d' /\ match r with Ok _ => List.filter (in_scope id scope) (f_domains d') = [] | Err _ => True end) d.
Proof.
  intros HJ Hd w Hw. unfold delete_domains_in_batches. apply (wp_delete_loop _ J HJ _ 0 d Hd); [|done].
  rewrite <- Hw. simpl view. pose proof (List.filter_length_le (in_scope id scope) (f_domains (fl_db w))). lia.
Qed.

(** ** What readers see *)

(** Same blocklists, and every reader sees the same rows. *)
Definition same_visible (d0 d : FilterDb) : Prop :=
  f_blocklists d = f_blocklists d0 /\
  forall b, b ∈ f_blocklists d0 -> List.filter (active_row b) (f_domains d) = List.filter (active_row b) (f_domains d0).

Lemma same_visible_active d0 d id : same_visible d0 d -> active_domains id d = active_domains id d0.
Proof.
  intros [E H]. unfold active_domains. rewrite E. destruct (List.find _ _) as [b|] eqn:Eb; [|done].
  apply find_Some_elem in Eb as [Hb _]. by rewrite H.
Qed.

Lemma next_generation_new g : next_generation g <> g.
Proof. unfold next_generation. case_match; breflect; lia. Qed.

Section one.
Variables (d0 : FilterDb) (b0 : DbBlocklistRow) (id : Uuid).
Hypothesis ok : NoDup (row_id <$> f_blocklists d0).
Hypothesis found : List.find (row_is id) (f_blocklists d0) = Some b0.
Abbreviation next := (next_generation (db_active_generation b0)).

(** Rows of the generation being written are nobody's yet. *)
Lemma next_invisible b r : b ∈ f_blocklists d0 -> in_scope id (Generation next) r = true -> active_row b r = false.
Proof.
  intros Hb. unfold in_scope, active_row. intros [E1 E2]%andb_true_iff. breflect. rewrite E2.
  destruct (dm_blocklist_id r =? bl_id (db_blocklist b)) eqn:E; [|done]. breflect.
  assert (b = b0) as ->.
  { apply find_Some_elem in found as [H1 H2]. unfold row_is in H2. breflect.
    apply (NoDup_fmap_elem_inj row_id (f_blocklists d0)); [done | done | done |]. unfold row_id in *. congruence. }
  assert (E3 : (next =? db_active_generation b0) = false) by (apply Z.eqb_neq, next_generation_new).
  by rewrite E3.
Qed.

Lemma visible_delete d : same_visible d0 d ->
  same_visible d0 (set_domains (delete_first DELETE_BATCH_ROWS (in_scope id (Generation next)) (f_domains d)) d).
Proof.
  intros [E H]. split; [done|]. intros b Hb. simpl. rewrite filter_delete_first; [by apply H|].
  intros r. by apply next_invisible.
Qed.

Lemma scope_rows l : List.filter (in_scope id (Generation next)) (domain_row id next <$> l) = domain_row id next <$> l.
Proof. apply filter_all. intros r (x & -> & _)%list_elem_of_fmap. unfold in_scope. simpl. by rewrite !Z.eqb_refl. Qed.

Lemma visible_insert d l : same_visible d0 d -> same_visible d0 (set_domains (f_domains d ++ (domain_row id next <$> l)) d).
Proof.
  intros [E H]. split; [done|]. intros b Hb. simpl. rewrite List.filter_app, (H b Hb), (filter_none _ (_ <$> l)); [apply app_nil_r|].
  intros r (x & -> & _)%list_elem_of_fmap. apply next_invisible; [done|]. unfold in_scope. simpl. by rewrite !Z.eqb_refl.
Qed.

(** The rows written so far. *)
Definition written (l : list str) (d : FilterDb) : Prop :=
  same_visible d0 d /\ List.filter (in_scope id (Generation next)) (f_domains d) = domain_row id next <$> l.

Lemma insert_chunks_written cs : forall d d' l, insert_chunks id next cs d = Ok d' -> written l d -> written (l ++ concat cs) d'.
Proof.
  induction cs as [|c cs IH]; intros d d' l; simpl; [intros [= <-]; by rewrite app_nil_r|]. unfold insert_chunk.
  destruct (existsb _ c); [done|]. destruct (negb _); [done|]. intros E [H1 H2]. rewrite (assoc_L (++)). apply (IH _ _ _ E).
  split; [by apply visible_insert|]. simpl. by rewrite List.filter_app, H2, scope_rows, fmap_app.
Qed.

Lemma wp_import_batch l batch d : written l d ->
  wp (import_batch id next batch) (fun r d' => match r with Ok _ => written (l ++ batch) d' | Err _ => same_visible d0 d' end) d.
Proof.
  intros Hd. apply wp_fstmt; [intros e; apply Hd|]. intros now. destruct (insert_chunks _ _ _ d) as [d'|e] eqn:E; simpl; [|apply Hd].
  apply (insert_chunks_written _ _ _ l) in E; [|done]. rewrite chunks_join in E; [done | unfold INSERT_CHUNK_ROWS; lia].
Qed.

Lemma wp_import_batches bs : forall l d, written l d ->
  wp (st_iter (import_batch id next) bs)
    (fun r d' => match r with Ok _ => written (l ++ concat bs) d' | Err _ => same_visible d0 d' end) d.
Proof.
  induction bs as [|b bs IH]; intros l d Hd; simpl; [apply wp_ret; by rewrite app_nil_r|].
  apply wp_bind. eapply wp_conseq; [by apply wp_import_batch|]. intros [[]|e] d' Hd'; [|done].
  rewrite (assoc_L (++)). by apply IH.
Qed.

(** After the swap, readers of [id] see what was written and nobody else sees a change. *)
Definition swapped (domains : list str) (d : FilterDb) : Prop :=
  active_domains id d = domains /\ (forall x, x <> id -> active_domains x d = active_domains x d0) /\
  NoDup (row_id <$> f_blocklists d) /\ exists b, List.find (row_is id) (f_blocklists d) = Some b /\ db_active_generation b = next.

Lemma find_where_other x g l : x <> id -> (forall b : DbBlocklistRow, row_id (g b) = row_id b) ->
  List.find (row_is x) (where_ (row_is id) g l) = List.find (row_is x) l.
Proof.
  intros Hx Hg. induction l as [|b l IH]; simpl; [done|]. rewrite IH. destruct (row_is id b) eqn:E; [|done].
  unfold row_is in *. fold (row_id (g b)) (row_id b) in *. rewrite Hg. breflect. rewrite E.
  assert (E2 : (id =? x) = false) by (apply Z.eqb_neq; congruence). by rewrite E2.
Qed.

Lemma find_where_self g l b : (forall b : DbBlocklistRow, row_id (g b) = row_id b) -> List.find (row_is id) l = Some b ->
  List.find (row_is id) (where_ (row_is id) g l) = Some (g b).
Proof.
  intros Hg. induction l as [|x l IH]; simpl; [done|]. destruct (row_is id x) eqn:E.
  - intros [= ->]. replace (row_is id (g b)) with true; [done|]. symmetry. unfold row_is in *. fold (row_id (g b)) (row_id b) in *. by rewrite Hg.
  - rewrite E. apply IH.
Qed.

Lemma swap_swapped l n now d : written l d ->
  swapped l (set_blocklists (where_ (row_is id) (with_generation next n now) (f_blocklists d)) d).
Proof.
  intros [[Eb Hv] Hw]. pose proof (find_where_self (with_generation next n now) _ _ (fun _ => eq_refl) found) as Hf.
  split_and!.
  - unfold active_domains. simpl. rewrite Eb, Hf. transitivity (dm_domain <$> List.filter (in_scope id (Generation next)) (f_domains d)).
    + f_equal. apply List.filter_ext. intros r. unfold active_row, in_scope. simpl.
      apply find_Some_elem in found as [_ E]. unfold row_is in E. breflect. by rewrite E.
    + rewrite Hw, <- list_fmap_compose. clear. induction l as [|x l IH]; simpl; [done|]. by f_equal.
  - intros x Hx. transitivity (active_domains x d); [|by apply same_visible_active]. unfold active_domains. simpl.
    by rewrite find_where_other.
  - simpl. by rewrite where_ids, Eb.
  - exists (with_generation next n now b0). simpl. by rewrite Eb, Hf.
Qed.

Lemma swapped_delete l d : swapped l d ->
  swapped l (set_domains (delete_first DELETE_BATCH_ROWS (in_scope id (AllExcept next)) (f_domains d)) d).
Proof.
  intros (H1 & H2 & Hn & b & Hb & Hg).
  assert (Hsame : forall x, active_domains x (set_domains (delete_first DELETE_BATCH_ROWS (in_scope id (AllExcept next)) (f_domains d)) d)
    = active_domains x d).
  { intros x. unfold active_domains. simpl. destruct (List.find (row_is x) (f_blocklists d)) as [c|] eqn:Ec; [|done].
    rewrite filter_delete_first; [done|]. intros r Hr. unfold in_scope, active_row in *. apply andb_true_iff in Hr as [E1 E2]. breflect.
    rewrite E1. destruct (_ =? bl_id _) eqn:E; [|done]. simpl. apply Z.eqb_neq. breflect.
    apply find_Some_elem in Hb as [Hin Eb], Ec as [Hcin Ecx]. unfold row_is in *. breflect.
    assert (c = b) as ->; [|congruence].
    apply (NoDup_fmap_elem_inj row_id (f_blocklists d)); [done | done | done |]. unfold row_id. congruence. }
  split_and!; [by rewrite Hsame | intros x Hx; rewrite Hsame; by apply H2 | done | eauto].
Qed.

End one.

(** How a run of [replace_blocklist_domains] ends, whatever storage refuses. *)
Definition import_outcome (d0 : FilterDb) (id : Uuid) (domains : list str) (r : result Z str) (d : FilterDb) : Prop :=
  match r with
  | Ok n => n = Z.of_nat (length (first_seen ∅ domains)) /\ exists b0, swapped d0 b0 id (first_seen ∅ domains) d
  | Err _ => same_visible d0 d
  end.

Lemma wp_replace id domains d0 : NoDup (row_id <$> f_blocklists d0) ->
  wp (repo_replace_blocklist_domains id domains) (import_outcome d0 id domains) d0.
Proof.
  intros Hok. unfold repo_replace_blocklist_domains. 
  apply wp_bind, wp_fselect; [done|]. apply wp_bind, wp_lift. destruct (List.find _ _) as [b0|] eqn:Hf; [|done]. simpl.
  apply wp_bind. eapply wp_conseq; [apply (wp_delete_domains _ _ (same_visible d0)); [by apply visible_delete | done]|].
  intros [k|e] d [Hd Hempty]; [|done]. apply wp_bind.
  eapply wp_conseq; [by apply (wp_import_batches d0 b0 id Hok Hf _ [])|]. intros [[]|e] d' Hd'; [|done].
  rewrite app_nil_l, chunks_join in Hd' by (unfold IMPORT_BATCH_ROWS; lia).
  apply wp_bind, wp_fstmt; [intros e; apply Hd'|]. intros now. cbn [fst snd].
  apply (swap_swapped _ _ _ Hok Hf _ (Z.of_nat (length (first_seen ∅ domains))) now) in Hd'.
  apply wp_bind, wp_best_effort. eapply wp_conseq; [apply (wp_delete_domains _ _ (swapped d0 b0 id (first_seen ∅ domains))); [apply swapped_delete | done]|].
  intros _ d'' [Hd'' _]. apply wp_ret. split; [done | by exists b0].
Qed.

(** C7: An import replaces what readers of the blocklist see at one moment.  Whatever storage
    refuses on the way, a run that reports an error has left every blocklist's visible
    domains as they were, and one that succeeds has made the blocklist's exactly the
    imported domains, each once, reports their number, and changed no other blocklist. *)
Theorem import_atomic id domains w : NoDup (row_id <$> f_blocklists (fl_db w)) ->
  let '(r, w') := repo_replace_blocklist_domains id domains w in
  match r with
  | Ok n => NoDup (active_domains id (fl_db w')) /\ (forall x, x ∈ active_domains id (fl_db w') <-> x ∈ domains)
            /\ n = Z.of_nat (length (active_domains id (fl_db w')))
            /\ (forall b, b <> id -> active_domains b (fl_db w') = active_domains b (fl_db w))
  | Err _ => forall b, active_domains b (fl_db w') = active_domains b (fl_db w)
  end.
Proof.
  intros Hok. pose proof (wp_replace id domains (fl_db w) Hok w eq_refl) as H.
  destruct (repo_replace_blocklist_domains id domains w) as [[n|e] w']; simpl in H.
  - destruct H as (-> & b0 & H1 & H2 & _). rewrite H1. destruct (NoDup_first_seen ∅ domains) as [Hn Hx]. split_and!; [done | | done | done].
    intros x. rewrite Hx. set_solver.
  - intros b. by apply same_visible_active.
Qed.

End import.
