(* ===== verification/FilterSync.v ===== *)
(** * Rebuilding the compiled cache

    What each rebuild of [dns_filter/service.rs] does to the cache when storage
    answers: which slots it stores into, that nothing else changes, and that what it
    rebuilt is what the tables say. *)

From S2P Require Import Prelude RustStr Net Auth FilterParser DnsFilter PolicyRouter RoutingTypes ZoneTypes PolicyDb.
From S2P Require Import Tables FilterTypes FilterRepo FilterAdmin FilterLaws.

Section sync.
Context {CL : CronLib} {RL : RegexLib} {TL : RecordTypeLib} {NL : IpNetworkLib} {U : UuidText}.

(** ** The reference: filters straight from the tables *)

Definition compiled_blocklist (d : FilterDb) (r : DbBlocklistRow) : DnsFilter :=
  if bl_enabled (db_blocklist r) then builder_finish (foldl builder_insert builder_new (active_domains (row_id r) d))
  else empty_filter.

Definition compiled_aux (d : FilterDb) (p : Uuid) : DnsFilter :=
  build {| in_blocked_domains := []; in_allowlist := allowed_of p d; in_custom_rules := rules_of p d |}.

Definition enabled_of (p : Uuid) (d : FilterDb) : list DbBlocklistRow :=
  List.filter (fun r => bl_enabled (db_blocklist r)) (blocklists_of p d).

Definition compiled_profile (d : FilterDb) (p : Uuid) : list DnsFilter :=
  (compiled_blocklist d <$> enabled_of p d) ++ [compiled_aux d p].

(** ** Runs on storage that answers *)

Abbreviation M := (ST Filters AppError).

Record frame (w w' : Filters) : Prop := {
  fr_db : fl_db w' = fl_db w; fr_faults : fl_faults w' = fl_faults w;
  fr_now : fl_now w' = fl_now w; fr_events : fl_events w' = fl_events w;
}.

#[export] Instance frame_refl : Reflexive frame.
Proof. by split. Qed.
#[export] Instance frame_trans : Transitive frame.
Proof. intros x y z [] []. split; congruence. Qed.

(** From a cache [s] to a cache [s'], reading the tables [d]. *)
Definition rebuilds {X} (m : M X) (d : FilterDb) (s : FilterMem) (x : X) (s' : FilterMem) : Prop :=
  forall w, fl_db w = d -> fl_faults w = [] -> fl_mem w = s -> exists w', m w = (Ok x, w') /\ frame w w' /\ fl_mem w' = s'.

Lemma rebuilds_bind {X Y} (m : M X) (k : X -> M Y) d s x s1 y s2 :
  rebuilds m d s x s1 -> rebuilds (k x) d s1 y s2 -> rebuilds (m ≫= k) d s y s2.
Proof.
  intros Hm Hk w Hd Hf Hs. destruct (Hm w Hd Hf Hs) as (w1 & E1 & F1 & S1).
  destruct (Hk w1) as (w2 & E2 & F2 & S2); [by rewrite (fr_db _ _ F1) | by rewrite (fr_faults _ _ F1) | done|].
  exists w2. split_and!; [|by etrans|done]. unfold mbind, st_bind. by rewrite E1.
Qed.

Lemma rebuilds_ret {X} (x : X) d s : rebuilds (mret x) d s x s.
Proof. intros w Hd Hf Hs. by exists w. Qed.
Lemma rebuilds_on_mem f d s : rebuilds (on_mem f) d s tt (f s).
Proof. intros w Hd Hf <-. by exists (set_fl_mem (f (fl_mem w)) w). Qed.
Lemma rebuilds_from_mem {X} (f : FilterMem -> X) d s : rebuilds (from_mem f) d s (f s) s.
Proof. intros w Hd Hf <-. by exists w. Qed.
Lemma rebuilds_publish d s : rebuilds publish_rebuilt d s tt s.
Proof. intros w Hd Hf <-. by exists (count_rebuilt w). Qed.
Lemma rebuilds_select {X} (f : FilterDb -> X) d s : rebuilds (stored (fselect f)) d s (f d) s.
Proof.
  intros w <- Hf <-. unfold stored, fselect, fstmt. rewrite Hf. simpl. eexists. split_and!; [done | | done]. by split.
Qed.
Lemma rebuilds_lift_ok {X} (x : X) d s : rebuilds (st_lift (Ok x)) d s x s.
Proof. intros w Hd Hf Hs. by exists w. Qed.

(** Reading statements one after the other. *)
Lemma stored_bind {X Y} (m : ST Filters str X) (k : X -> ST Filters str Y) w : stored (m ≫= k) w = (stored m ≫= fun x => stored (k x)) w.
Proof. unfold stored, mbind, st_bind. by destruct (m w) as [[]]. Qed.
Lemma rebuilds_ext {X} (m m' : M X) d s x s' : (forall w, m w = m' w) -> rebuilds m' d s x s' -> rebuilds m d s x s'.
Proof. intros E H w Hd Hf Hs. rewrite E. by apply H. Qed.
Lemma rebuilds_stored_bind {X Y} (m : ST Filters str X) (k : X -> ST Filters str Y) d s x y :
  rebuilds (stored m) d s x s -> rebuilds (stored (k x)) d s y s -> rebuilds (stored (m ≫= k)) d s y s.
Proof. intros Hm Hk. eapply rebuilds_ext; [apply stored_bind|]. by eapply rebuilds_bind. Qed.
Lemma rebuilds_stored_ret {X} (x : X) d s : rebuilds (stored (mret x)) d s x s.
Proof. intros w Hd Hf Hs. by exists w. Qed.

(** ** Slots *)

Record mem_wf (s : FilterMem) : Prop := {
  mw_blocklist id k : fm_blocklist_filters s !! id = Some k -> (k < length (fm_filters s))%nat;
  mw_aux id k : fm_profile_aux_filters s !! id = Some k -> (k < length (fm_filters s))%nat;
  mw_profile id k : fm_profiles s !! id = Some k -> (k < length (fm_runtime s))%nat;
  mw_blocklist_inj i j k : fm_blocklist_filters s !! i = Some k -> fm_blocklist_filters s !! j = Some k -> i = j;
  mw_aux_inj i j k : fm_profile_aux_filters s !! i = Some k -> fm_profile_aux_filters s !! j = Some k -> i = j;
  mw_apart i j k : fm_blocklist_filters s !! i = Some k -> fm_profile_aux_filters s !! j = Some k -> False;
  mw_profile_inj i j k : fm_profiles s !! i = Some k -> fm_profiles s !! j = Some k -> i = j;
}.

Definition synced (d : FilterDb) (s : FilterMem) (r : DbBlocklistRow) : Prop :=
  exists k, fm_blocklist_filters s !! row_id r = Some k /\ fm_filters s !! k = Some (compiled_blocklist d r).

Definition aux_synced (d : FilterDb) (s : FilterMem) (p : Uuid) : Prop :=
  exists k, fm_profile_aux_filters s !! p = Some k /\ fm_filters s !! k = Some (compiled_aux d p).

(** A profile holds the slots of its enabled blocklists in order, and its own. *)
Definition stitched (d : FilterDb) (s : FilterMem) (p : Uuid) : Prop :=
  exists slot rp a ks, fm_profiles s !! p = Some slot /\ fm_runtime s !! slot = Some rp
    /\ fm_profile_aux_filters s !! p = Some a /\ fm_filters s !! a = Some (compiled_aux d p)
    /\ Forall2 (fun r k => fm_blocklist_filters s !! row_id r = Some k) (enabled_of p d) ks
    /\ rp_filters rp = ks ++ [a].

(** What a rebuild of profile [p] leaves alone. *)
Record calm (d : FilterDb) (p : Uuid) (s s' : FilterMem) : Prop := {
  cm_wf : mem_wf s';
  cm_blocklists id k : fm_blocklist_filters s !! id = Some k -> fm_blocklist_filters s' !! id = Some k;
  cm_synced r : r ∈ f_blocklists d -> synced d s r -> synced d s' r;
  cm_profiles p' : p' <> p -> fm_profiles s' !! p' = fm_profiles s !! p';
  cm_same k : fm_profiles s !! p = Some k -> fm_profiles s' !! p = Some k;
  cm_stitched p' : p' <> p -> stitched d s p' -> stitched d s' p';
  cm_contexts : fm_contexts s' = fm_contexts s;
  cm_devices : fm_device_contexts s' = fm_device_contexts s;
  cm_default : fm_default_context s' = fm_default_context s;
  cm_config : fm_config s' = fm_config s;
}.

Lemma calm_refl d p s : mem_wf s -> calm d p s s.
Proof. intros H. by split. Qed.
Lemma calm_trans d p s1 s2 s3 : calm d p s1 s2 -> calm d p s2 s3 -> calm d p s1 s3.
Proof.
  intros [] []. split; eauto; try congruence. intros p' Hp'. rewrite (cm_profiles1 p' Hp'). by apply cm_profiles0.
Qed.

Lemma store_blocklist_cases id f s : mem_wf s -> exists k,
  fm_blocklist_filters (store_blocklist id f s) !! id = Some k /\ fm_filters (store_blocklist id f s) !! k = Some f
  /\ (forall j, j <> id -> fm_blocklist_filters (store_blocklist id f s) !! j = fm_blocklist_filters s !! j)
  /\ (forall i x, i <> k -> fm_filters s !! i = Some x -> fm_filters (store_blocklist id f s) !! i = Some x)
  /\ (fm_blocklist_filters s !! id = Some k \/ fm_blocklist_filters s !! id = None /\ k = length (fm_filters s))
  /\ (length (fm_filters s) <= length (fm_filters (store_blocklist id f s)))%nat
  /\ (k < length (fm_filters (store_blocklist id f s)))%nat.
Proof.
  intros H. unfold store_blocklist, store_filter. destruct (fm_blocklist_filters s !! id) as [k|] eqn:E; simpl.
  - exists k. pose proof (mw_blocklist _ H _ _ E). rewrite length_insert. split_and!; [done | by apply list_lookup_insert_eq | done | | by left | done | done].
    intros i x Hi Hx. by rewrite list_lookup_insert_ne.
  - exists (length (fm_filters s)). rewrite lookup_insert_eq. split_and!; [done | | | | by right | |].
    + by rewrite list_lookup_middle.
    + intros j Hj. by rewrite lookup_insert_ne.
    + intros i x _ Hx. by rewrite lookup_app_l; [|eapply lookup_lt_Some].
    + rewrite length_app. lia.
    + rewrite length_app. simpl. lia.
Qed.

Lemma store_blocklist_rest id f s :
  let s' := store_blocklist id f s in
  fm_runtime s' = fm_runtime s /\ fm_profile_aux_filters s' = fm_profile_aux_filters s /\ fm_profiles s' = fm_profiles s
  /\ fm_contexts s' = fm_contexts s /\ fm_device_contexts s' = fm_device_contexts s
  /\ fm_default_context s' = fm_default_context s /\ fm_config s' = fm_config s.
Proof. unfold store_blocklist, store_filter. by destruct (fm_blocklist_filters s !! id). Qed.

Section rows.
Context {d : FilterDb} (ok : NoDup (row_id <$> f_blocklists d)).

Lemma row_unique r r' : r ∈ f_blocklists d -> r' ∈ f_blocklists d -> row_id r = row_id r' -> r = r'.
Proof. intros. by apply (NoDup_fmap_elem_inj row_id (f_blocklists d)). Qed.

(** Storing what the tables say about a blocklist. *)
Lemma store_row p r s : mem_wf s -> r ∈ f_blocklists d ->
  calm d p s (store_blocklist (row_id r) (compiled_blocklist d r) s)
  /\ synced d (store_blocklist (row_id r) (compiled_blocklist d r) s) r
  /\ (forall p', aux_synced d s p' -> aux_synced d (store_blocklist (row_id r) (compiled_blocklist d r) s) p')
  /\ (forall p', stitched d s p' -> stitched d (store_blocklist (row_id r) (compiled_blocklist d r) s) p').
Proof.
  intros H Hr. destruct (store_blocklist_cases (row_id r) (compiled_blocklist d r) s H) as (k & E1 & E2 & E3 & E4 & E5 & E6 & E7).
  destruct (store_blocklist_rest (row_id r) (compiled_blocklist d r) s) as (R1 & R2 & R3 & R4 & R5 & R6 & R7).
  set (s' := store_blocklist (row_id r) (compiled_blocklist d r) s) in *.
  assert (Hkeep : forall id j, fm_blocklist_filters s !! id = Some j -> fm_blocklist_filters s' !! id = Some j).
  { intros id j Hj. destruct (decide (id = row_id r)) as [->|Hne]; [|by rewrite E3].
    destruct E5 as [E5|[E5 _]]; congruence. }
  assert (Hmine : forall id, fm_blocklist_filters s' !! id = Some k -> id = row_id r).
  { intros id Hid. destruct (decide (id = row_id r)) as [|Hne]; [done|]. rewrite E3 in Hid by done.
    destruct E5 as [E5|[_ ->]]; [by apply (mw_blocklist_inj _ H _ _ k)|]. apply (mw_blocklist _ H) in Hid. lia. }
  assert (Haux : forall p' a x, fm_profile_aux_filters s !! p' = Some a -> fm_filters s !! a = Some x -> fm_filters s' !! a = Some x).
  { intros p' a x Ha Hx. apply E4; [|done]. intros ->. destruct E5 as [E5|[_ ->]]; [by eapply (mw_apart _ H)|].
    apply (mw_aux _ H) in Ha. lia. }
  assert (Hst : forall p', stitched d s p' -> stitched d s' p').
  { intros p' (slot & rp & a & ks & S1 & S2 & S3 & S4 & S5 & S6). exists slot, rp, a, ks. rewrite R1, R2, R3.
    split_and!; [done | done | done | by eapply Haux | | done]. eapply Forall2_impl; [done|]. intros. by apply Hkeep. }
  split_and!; [|by exists k | |done].
  - split; try done; [|intros r' Hr' (j & J1 & J2)|by rewrite R3|by rewrite R3|by auto].
    + assert (Hk : forall id j, fm_blocklist_filters s' !! id = Some j -> id = row_id r \/ fm_blocklist_filters s !! id = Some j).
      { intros id j Hj. destruct (decide (id = row_id r)); [by left | right; by rewrite <- E3]. }
      split; rewrite ?R1, ?R2, ?R3; try apply H.
      * intros id j Hj. destruct (Hk id j Hj) as [->|Hs]; [congruence|]. apply (mw_blocklist _ H) in Hs. lia.
      * intros id j Hj. apply (mw_aux _ H) in Hj. lia.
      * intros i j l Hi Hj. destruct (decide (l = k)) as [->|Hne]; [by rewrite (Hmine i Hi), (Hmine j Hj)|].
        destruct (Hk i l Hi) as [->|Hi']; [congruence|]. destruct (Hk j l Hj) as [->|Hj']; [congruence|]. by apply (mw_blocklist_inj _ H _ _ l).
      * intros i j l Hi Hj. destruct (Hk i l Hi) as [->|Hi']; [|by eapply (mw_apart _ H)].
        assert (l = k) as -> by congruence. destruct E5 as [E5|[_ ->]]; [by eapply (mw_apart _ H)|]. apply (mw_aux _ H) in Hj. lia.
    + destruct (decide (row_id r' = row_id r)) as [Heq|Hne].
      * rewrite (row_unique r' r) by done. by exists k.
      * exists j. split; [by apply Hkeep|]. apply E4; [|done]. intros ->. apply Hne. apply Hmine. by apply Hkeep.
  - intros p' (a & A1 & A2). exists a. rewrite R2. split; [done | by eapply Haux].
Qed.

(** Storing the filter of a profile's own lists. *)
Lemma store_aux_calm p s : mem_wf s ->
  calm d p s (store_aux p (compiled_aux d p) s) /\ aux_synced d (store_aux p (compiled_aux d p) s) p.
Proof.
  intros H. unfold store_aux, store_filter. destruct (fm_profile_aux_filters s !! p) as [k|] eqn:E; simpl.
  - pose proof (mw_aux _ H _ _ E) as Hk.
    assert (Hother : forall i x, i <> k -> fm_filters s !! i = Some x -> <[k:=compiled_aux d p]> (fm_filters s) !! i = Some x).
    { intros i x Hi Hx. by rewrite list_lookup_insert_ne. }
    split; [|exists k; split; [done | by apply list_lookup_insert_eq]]. split; try done.
    + split; simpl; rewrite ?length_insert; apply H.
    + intros r Hr (j & J1 & J2). exists j. split; [done|]. apply Hother; [|done]. intros ->. by eapply (mw_apart _ H).
    + intros p' Hp' (slot & rp & a & ks & S1 & S2 & S3 & S4 & S5 & S6). exists slot, rp, a, ks. split_and!; try done.
      apply Hother; [|done]. intros ->. by apply Hp', (mw_aux_inj _ H _ _ k).
  - set (k := length (fm_filters s)).
    assert (Hother : forall i x, fm_filters s !! i = Some x -> (fm_filters s ++ [compiled_aux d p]) !! i = Some x).
    { intros i x Hx. by rewrite lookup_app_l; [|eapply lookup_lt_Some]. }
    split; [|exists k; split; [apply lookup_insert_eq | by apply list_lookup_middle]]. split; try done.
    + split; simpl; rewrite ?length_app; simpl; try apply H.
      * intros id j Hj. apply (mw_blocklist _ H) in Hj. lia.
      * intros id j [[<- <-]|[_ Hj]]%lookup_insert_Some; [unfold k; lia|]. apply (mw_aux _ H) in Hj. lia.
      * intros i j l [[<- <-]|[_ Hi]]%lookup_insert_Some [[<- Hl]|[_ Hj]]%lookup_insert_Some; try done.
        -- apply (mw_aux _ H) in Hj. unfold k in Hj. lia.
        -- apply (mw_aux _ H) in Hi. unfold k in *. lia.
        -- by apply (mw_aux_inj _ H _ _ l).
      * intros i j l Hi [[<- <-]|[_ Hj]]%lookup_insert_Some; [|by eapply (mw_apart _ H)]. apply (mw_blocklist _ H) in Hi. unfold k in Hi. lia.
    + intros r Hr (j & J1 & J2). exists j. split; [done | by apply Hother].
    + intros p' Hp' (slot & rp & a & ks & S1 & S2 & S3 & S4 & S5 & S6). exists slot, rp, a, ks. simpl. split_and!; try done.
      * by rewrite lookup_insert_ne.
      * by apply Hother.
Qed.

Lemma store_profile_calm p rp s ks a : mem_wf s -> fm_profile_aux_filters s !! p = Some a -> fm_filters s !! a = Some (compiled_aux d p) ->
  Forall2 (fun r k => fm_blocklist_filters s !! row_id r = Some k) (enabled_of p d) ks -> rp_filters rp = ks ++ [a] ->
  calm d p s (store_profile p rp s) /\ stitched d (store_profile p rp s) p.
Proof.
  intros H Ha Hc Hks Hrp. unfold store_profile. destruct (fm_profiles s !! p) as [k|] eqn:E; simpl.
  - pose proof (mw_profile _ H _ _ E) as Hk. split.
    + split; try done; [split; simpl; rewrite ?length_insert; apply H|].
      intros p' Hp' (slot & rp' & a' & ks' & S1 & S2 & S3 & S4 & S5 & S6). exists slot, rp', a', ks'. split_and!; try done.
      simpl. rewrite list_lookup_insert_ne; [done|]. intros ->. by apply Hp', (mw_profile_inj _ H _ _ slot).
    + exists k, rp, a, ks. split_and!; try done. simpl. by apply list_lookup_insert_eq.
  - set (k := length (fm_runtime s)). split.
    + split; try done; simpl.
      * split; simpl; rewrite ?length_app; simpl; try apply H.
        -- intros id j [[<- <-]|[_ Hj]]%lookup_insert_Some; [unfold k; lia|]. apply (mw_profile _ H) in Hj. lia.
        -- intros i j l [[<- <-]|[_ Hi]]%lookup_insert_Some [[<- Hl]|[_ Hj]]%lookup_insert_Some; try done.
           ++ apply (mw_profile _ H) in Hj. unfold k in Hj. lia.
           ++ apply (mw_profile _ H) in Hi. unfold k in *. lia.
           ++ by apply (mw_profile_inj _ H _ _ l).
      * intros p' Hp'. by rewrite lookup_insert_ne.
      * congruence.
      * intros p' Hp' (slot & rp' & a' & ks' & S1 & S2 & S3 & S4 & S5 & S6). exists slot, rp', a', ks'. simpl. split_and!; try done.
        -- by rewrite lookup_insert_ne.
        -- by rewrite lookup_app_l; [|eapply lookup_lt_Some].
    + exists k, rp, a, ks. simpl. split_and!; try done; [apply lookup_insert_eq | by apply list_lookup_middle].
Qed.

(** ** Rebuilding a blocklist *)

Lemma rebuilds_blocklist r s : r ∈ f_blocklists d ->
  rebuilds (rebuild_blocklist_inner (row_id r)) d s tt (store_blocklist (row_id r) (compiled_blocklist d r) s).
Proof.
  intros Hr. unfold rebuild_blocklist_inner, repo_get_blocklist. eapply rebuilds_bind; [apply rebuilds_select|]. cbv beta.
  assert (Hf : List.find (row_is (row_id r)) (f_blocklists d) = Some r).
  { destruct (List.find _ _) as [x|] eqn:E.
    - apply find_Some_elem in E as [Hx Ex]. unfold row_is in Ex. breflect. f_equal. by apply row_unique.
    - apply (find_None_elem _ _ r) in E; [|done]. unfold row_is in E. breflect. done. }
  rewrite Hf. simpl. eapply rebuilds_bind.
  - instantiate (2 := compiled_blocklist d r). unfold compile_blocklist, compiled_blocklist. simpl.
    destruct (bl_enabled (db_blocklist r)); [|apply rebuilds_ret].
    eapply rebuilds_bind; [apply rebuilds_select | apply rebuilds_ret].
  - eapply rebuilds_bind; [apply rebuilds_on_mem | apply rebuilds_publish].
Qed.

Lemma rebuild_gone_blocklist id s : List.find (row_is id) (f_blocklists d) = None ->
  rebuilds (rebuild_blocklist_inner id) d s tt (forget_blocklist id s).
Proof.
  intros Hf. unfold rebuild_blocklist_inner, repo_get_blocklist. eapply rebuilds_bind; [apply rebuilds_select|]. cbv beta.
  rewrite Hf. apply rebuilds_on_mem.
Qed.

Lemma rebuilds_ignored {X} (m : M X) s x s' : rebuilds m d s x s' -> rebuilds (ignored m) d s tt s'.
Proof. intros H w Hd Hf Hs. destruct (H w Hd Hf Hs) as (w' & E & F & S). exists w'. unfold ignored. by rewrite E. Qed.

(** Rows rebuilt one after the other. *)
Lemma rebuild_rows p rows : forall s, mem_wf s -> (forall r, r ∈ rows -> r ∈ f_blocklists d) ->
  exists s', rebuilds (rebuild_blocklists (into_blocklist <$> rows)) d s tt s' /\ calm d p s s'
    /\ (forall r, r ∈ rows -> synced d s' r) /\ (forall p', stitched d s p' -> stitched d s' p').
Proof.
  induction rows as [|r rows IH]; intros s H Hin; unfold rebuild_blocklists in *; simpl.
  - exists s. split_and!; [apply rebuilds_ret | by apply calm_refl | set_solver | done].
  - destruct (store_row p r s H) as (C1 & S1 & _ & T1); [apply Hin; by left|].
    destruct (IH _ (cm_wf _ _ _ _ C1)) as (s' & R & C2 & S2 & T2); [intros; apply Hin; by right|].
    exists s'. split_and!.
    + eapply rebuilds_bind; [apply rebuilds_blocklist, Hin; by left | exact R].
    + by eapply calm_trans.
    + intros x [->|Hx]%elem_of_cons; [|by apply S2]. apply C2; [apply Hin; by left | done].
    + eauto.
Qed.

(** Collecting slots builds what is missing. *)
Lemma collect_rows p rows : forall s, mem_wf s -> (forall r, r ∈ rows -> r ∈ f_blocklists d) ->
  exists s' ks, rebuilds (collect_slots (into_blocklist <$> rows)) d s ks s' /\ calm d p s s'
    /\ (forall p', aux_synced d s p' -> aux_synced d s' p') /\ fm_profile_aux_filters s' = fm_profile_aux_filters s
    /\ Forall2 (fun r k => fm_blocklist_filters s' !! row_id r = Some k) (List.filter (fun r => bl_enabled (db_blocklist r)) rows) ks.
Proof.
  induction rows as [|r rows IH]; intros s H Hin; simpl.
  { exists s, []. split_and!; [apply rebuilds_ret | by apply calm_refl | done | done | by constructor]. }
  assert (Hrest : forall x, x ∈ rows -> x ∈ f_blocklists d) by (intros; apply Hin; by right).
  destruct (bl_enabled (db_blocklist r)) eqn:Een; simpl; [|by apply IH].
  destruct (fm_blocklist_filters s !! row_id r) as [k|] eqn:Ek.
  - destruct (IH s H Hrest) as (s' & ks & R & C & A & X & F). exists s', (k :: ks). split_and!; try done.
    + eapply rebuilds_bind; [apply rebuilds_from_mem|]. cbv beta. fold (row_id r). rewrite Ek.
      eapply rebuilds_bind; [apply rebuilds_ret|]. eapply rebuilds_bind; [exact R | apply rebuilds_ret].
    + constructor; [by apply C | done].
  - destruct (store_row p r s H) as (C1 & (k & S1 & S2) & A1 & _); [apply Hin; by left|].
    destruct (IH _ (cm_wf _ _ _ _ C1) Hrest) as (s' & ks & R & C & A & X & F). exists s', (k :: ks). split_and!.
    + eapply rebuilds_bind; [apply rebuilds_from_mem|]. cbv beta. fold (row_id r). rewrite Ek. eapply rebuilds_bind.
      * eapply rebuilds_bind; [eapply rebuilds_ignored, rebuilds_blocklist, Hin; by left | apply rebuilds_from_mem].
      * cbv beta. fold (row_id r). rewrite S1. eapply rebuilds_bind; [exact R | apply rebuilds_ret].
    + by eapply calm_trans.
    + eauto.
    + rewrite X. apply store_blocklist_rest.
    + constructor; [by apply C | done].
Qed.

Lemma blocklists_of_rows p r : r ∈ blocklists_of p d <-> r ∈ f_blocklists d /\ row_profile r = p.
Proof.
  unfold blocklists_of. rewrite (sort_by_perm by_bl_created), list_elem_of_In, filter_In, <- list_elem_of_In.
  unfold in_profile, row_profile. by rewrite Z.eqb_eq.
Qed.

(** ** Rebuilding a profile *)

Lemma rebuild_inner p s : mem_wf s -> profile_exists p d = true ->
  exists s', rebuilds (rebuild_profile_inner p) d s tt s' /\ calm d p s s' /\ stitched d s' p.
Proof.
  intros H Hp. destruct (store_aux_calm p s H) as [C1 A1]. set (s1 := store_aux p (compiled_aux d p) s) in *.
  destruct (collect_rows p (blocklists_of p d) s1 (cm_wf _ _ _ _ C1)) as (s2 & ks & R2 & C2 & A2 & X2 & F2).
  { intros r. by intros [Hr _]%blocklists_of_rows. }
  destruct A1 as (a & Ha & Hc). destruct (A2 p) as (a' & Ha' & Hc'); [by exists a|].
  assert (a' = a) as -> by congruence. destruct (List.find (profile_is p) (f_profiles d)) as [pf|] eqn:Epf.
  2: { apply existsb_elem in Hp as (x & Hx & Ex). apply (find_None_elem _ _ x) in Epf; congruence. }
  set (rp := {| rp_id := pf_id pf; rp_name := pf_name pf; rp_filters := ks ++ [a] |}).
  destruct (store_profile_calm p rp s2 ks a (cm_wf _ _ _ _ C2) Ha' Hc' F2 eq_refl) as [C3 T3].
  exists (store_profile p rp s2). split_and!; [|by eapply calm_trans; [|eapply calm_trans] | done].
  unfold rebuild_profile_inner. eapply rebuilds_bind; [apply rebuilds_select|]. cbv beta. rewrite Epf.
  eapply rebuilds_bind.
  { unfold repo_load_filter_inputs_for_profile. eapply rebuilds_stored_bind; [apply rebuilds_select|].
    eapply rebuilds_stored_bind; [apply rebuilds_select | apply rebuilds_stored_ret]. }
  eapply rebuilds_bind; [apply rebuilds_on_mem|]. match goal with |- rebuilds _ d ?t _ _ => change t with s1 end.
  eapply rebuilds_bind; [apply rebuilds_from_mem|]. cbv beta. eapply rebuilds_bind; [apply rebuilds_select|]. eapply rebuilds_bind; [exact R2|]. rewrite Ha. simpl.
  eapply rebuilds_bind; [apply rebuilds_on_mem | apply rebuilds_publish].
Qed.

(** All of a profile: its blocklists, then itself. *)
Lemma rebuild_whole p s : mem_wf s -> profile_exists p d = true ->
  exists s', rebuilds (rebuild_whole_profile p) d s tt s' /\ calm d p s s' /\ stitched d s' p
    /\ (forall r, r ∈ f_blocklists d -> row_profile r = p -> synced d s' r).
Proof.
  intros H Hp. destruct (rebuild_rows p (blocklists_of p d) s H) as (s1 & R1 & C1 & S1 & _).
  { intros r. by intros [Hr _]%blocklists_of_rows. }
  destruct (rebuild_inner p s1 (cm_wf _ _ _ _ C1) Hp) as (s2 & R2 & C2 & T2). exists s2. split_and!.
  - eapply rebuilds_bind; [apply rebuilds_select|]. by eapply rebuilds_bind.
  - by eapply calm_trans.
  - done.
  - intros r Hr Hrp. apply C2; [done|]. apply S1. by apply blocklists_of_rows.
Qed.

(** A profile that is gone is forgotten. *)
Lemma rebuild_gone p s : profile_exists p d = false -> (forall r, r ∈ f_blocklists d -> row_profile r <> p) ->
  rebuilds (rebuild_whole_profile p) d s tt (forget_profile p s).
Proof.
  intros Hp Hr. unfold rebuild_whole_profile. eapply rebuilds_bind; [apply rebuilds_select|]. cbv beta.
  assert (E : blocklists_of p d = []).
  { destruct (blocklists_of p d) as [|r l] eqn:E; [done|]. exfalso. assert (Hin : r ∈ blocklists_of p d) by (rewrite E; by left).
    apply blocklists_of_rows in Hin as [Hin Hpr]. by apply (Hr r). }
  rewrite E. simpl. eapply rebuilds_bind; [apply rebuilds_ret|]. unfold rebuild_profile_inner.
  eapply rebuilds_bind; [apply rebuilds_select|]. cbv beta. destruct (List.find (profile_is p) (f_profiles d)) as [x|] eqn:Ex.
  - apply find_Some_elem in Ex as [Hx E2]. apply (existsb_none _ _ x) in Hp; [congruence | done].
  - apply rebuilds_on_mem.
Qed.

Lemma forget_wf p s : mem_wf s -> mem_wf (forget_profile p s).
Proof.
  intros H. split; simpl; try apply H.
  - intros id k [_ Hk]%lookup_delete_Some. by apply (mw_aux _ H) in Hk.
  - intros id k [_ Hk]%lookup_delete_Some. by apply (mw_profile _ H) in Hk.
  - intros i j k [_ Hi]%lookup_delete_Some [_ Hj]%lookup_delete_Some. by apply (mw_aux_inj _ H _ _ k).
  - intros i j k Hi [_ Hj]%lookup_delete_Some. by apply (mw_apart _ H _ _ _ Hi Hj).
  - intros i j k [_ Hi]%lookup_delete_Some [_ Hj]%lookup_delete_Some. by apply (mw_profile_inj _ H _ _ k).
Qed.

Lemma forget_stitched p p' s : p' <> p -> stitched d s p' -> stitched d (forget_profile p s) p'.
Proof.
  intros Hne (slot & rp & a & ks & S1 & S2 & S3 & S4 & S5 & S6). exists slot, rp, a, ks. simpl.
  rewrite !lookup_delete_ne by done. by split_and!.
Qed.

End rows.
End sync.
