(* ===== verification/FilterFollow.v ===== *)
(** * The cache follows the tables

    [in_step]: everything the compiled cache holds is what the tables say, or an event
    is still queued that makes the runner rebuild it.  Starting establishes it, and
    every event the runner handles keeps it. *)

From S2P Require Import Prelude RustStr Net Auth FilterParser DnsFilter PolicyRouter RoutingTypes ZoneTypes PolicyDb.
From S2P Require Import Tables FilterTypes FilterRepo FilterAdmin FilterLaws FilterSync.

Section follow.
Context {CL : CronLib} {RL : RegexLib} {TL : RecordTypeLib} {NL : IpNetworkLib} {U : UuidText}.

(** ** What a queue still promises *)

Definition profile_dirty (q : list FilterEvent) (p : Uuid) : Prop :=
  DnsFilterChanged (ProfileContent p) ∈ q \/ DnsFilterChanged (ProfileMembership p) ∈ q.
Definition feed_dirty (q : list FilterEvent) (b : Uuid) : Prop := exists n, DnsFilterBlocklistUpdated b n ∈ q.
Definition device_dirty (q : list FilterEvent) (v : Uuid) : Prop := DnsFilterChanged (DeviceAssignment v) ∈ q.
Definition default_dirty (q : list FilterEvent) : Prop :=
  DnsFilterChanged DefaultProfile ∈ q \/ DnsFilterChanged GlobalToggle ∈ q.

(** Assignments are announced for devices there are; no address changes are on their way. *)
Definition event_fine (d : FilterDb) (e : FilterEvent) : Prop :=
  match e with
  | DnsFilterChanged (DeviceAssignment v) => device_exists v d = true
  | FilterDeviceIpChanged _ _ _ => False
  | _ => True
  end.

(** Whether a device is filtered, and by which profiles. *)
Definition settings_view (d : FilterDb) (v : Uuid) : option (bool * list Uuid) :=
  match settings_of v d, profiles_of_device v d with
  | None, [] => None
  | o, ids => Some (match o with Some s => st_enabled s | None => true end, ids)
  end.

Definition context_synced (d : FilterDb) (s : FilterMem) (v : Uuid) : Prop :=
  match settings_view d v with
  | None => fm_device_contexts s !! v = None \/ fm_device_contexts s !! v = Some runtime_unfiltered
  | Some (en, ids) =>
      exists c, fm_device_contexts s !! v = Some c /\ rc_enabled c = en
        /\ if en then Forall2 (fun p k => fm_profiles s !! p = Some k) ids (rc_profiles c) else rc_profiles c = []
  end.

Definition mem_defaults (s : FilterMem) : list Uuid := fc_default_profile_ids (fm_config s).

(** [X]: devices, and [Y]: whether the default context, are about to be rebuilt. *)
Record in_step_but (X : Uuid -> Prop) (Y : Prop) (d : FilterDb) (s : FilterMem) (q : list FilterEvent) : Prop := {
  is_wf : mem_wf s;
  is_feeds r : r ∈ f_blocklists d -> bl_enabled (db_blocklist r) = true ->
    profile_dirty q (row_profile r) \/ feed_dirty q (row_id r) \/ synced d s r;
  is_stitched p : profile_exists p d = true -> profile_dirty q p \/ stitched d s p;
  is_gone p k : fm_profiles s !! p = Some k -> profile_exists p d = true \/ profile_dirty q p;
  is_device v : device_exists v d = true -> X v \/ device_dirty q v
    \/ (exists p, p ∈ profiles_of_device v d /\ profile_dirty q p) \/ context_synced d s v;
  is_address v ip : v ∈ f_devices d -> parse_ip (dr_last_ip v) = Some ip -> fm_contexts s !! ip = fm_device_contexts s !! dr_id v;
  is_nobody ip c : fm_contexts s !! ip = Some c -> exists v, v ∈ f_devices d /\ parse_ip (dr_last_ip v) = Some ip;
  is_known v c : fm_device_contexts s !! v = Some c -> device_exists v d = true;
  is_enabled : fc_enabled (fm_config s) = fc_enabled (stored_config d);
  is_defaults : List.filter (fun p => profile_exists p d) (mem_defaults s) = fc_default_profile_ids (stored_config d);
  is_default : Y \/ default_dirty q \/ (exists p, p ∈ mem_defaults s /\ profile_dirty q p)
    \/ fm_default_context s = default_context_of (fm_config s) s;
  is_queue e : e ∈ q -> event_fine d e;
}.

Definition in_step : FilterDb -> FilterMem -> list FilterEvent -> Prop := in_step_but (fun _ => False) False.

(** No two devices have the same id or address. *)
Definition unique_devices (d : FilterDb) : Prop :=
  NoDup (dr_id <$> f_devices d) /\
  forall v v' ip, v ∈ f_devices d -> v' ∈ f_devices d -> parse_ip (dr_last_ip v) = Some ip -> parse_ip (dr_last_ip v') = Some ip -> v = v'.

Lemma known_slots_ext (m m' : gmap Uuid Slot) ids : (forall p, p ∈ ids -> m' !! p = m !! p) -> known_slots m' ids = known_slots m ids.
Proof.
  intros H. apply list_omap_ext, Forall_Forall2_diag, Forall_forall. exact H.
Qed.

Lemma default_context_ext (s s' : FilterMem) c :
  (forall p, p ∈ fc_default_profile_ids c -> fm_profiles s' !! p = fm_profiles s !! p) ->
  default_context_of c s' = default_context_of c s.
Proof. intros H. unfold default_context_of. destruct (fc_default_profile_ids c); [done|]. by rewrite (known_slots_ext _ _ _ H). Qed.

(** Either every id has its slot or some has none. *)
Lemma known_slots_all (m : gmap Uuid Slot) ids :
  Forall2 (fun p k => m !! p = Some k) ids (known_slots m ids) \/ exists p, p ∈ ids /\ m !! p = None.
Proof.
  unfold known_slots. induction ids as [|p ids IH]; cbn [omap list_omap]; [left; constructor|]. destruct (m !! p) as [k|] eqn:E; [|right; exists p; set_solver].
  destruct IH as [IH|(x & Hx & Ex)]; [left; by constructor | right; exists x; set_solver].
Qed.

Section tables.
Context {d : FilterDb} (ok : filter_ok d) (uniq : unique_devices d).

Let rows_ok : NoDup (row_id <$> f_blocklists d) := ky_ids (fo_blocklists _ ok).

Lemma feed_profile r : r ∈ f_blocklists d -> profile_exists (row_profile r) d = true.
Proof. intros Hr. apply profile_exists_has. by apply (fo_feeds _ ok). Qed.

Lemma assigned_profile v p : p ∈ profiles_of_device v d -> profile_exists p d = true.
Proof.
  unfold profiles_of_device. intros (r & -> & Hr)%list_elem_of_fmap. apply profile_exists_has.
  apply list_elem_of_In, filter_In in Hr as [Hr _]. apply (fo_links _ ok). by apply list_elem_of_In.
Qed.

(** ** A profile rebuilt *)

(** What the event about [p] promised is done once [p] is rebuilt. *)
Lemma profile_dirty_cons e q p p' : (e = DnsFilterChanged (ProfileContent p) \/ e = DnsFilterChanged (ProfileMembership p)) ->
  p' <> p -> profile_dirty (e :: q) p' -> profile_dirty q p'.
Proof. unfold profile_dirty. intros [-> | ->] Hne; rewrite !elem_of_cons; naive_solver. Qed.

Lemma rebuilt_in_step e q p s s' : (e = DnsFilterChanged (ProfileContent p) \/ e = DnsFilterChanged (ProfileMembership p)) ->
  in_step d s (e :: q) -> mem_wf s' ->
  (forall r, r ∈ f_blocklists d -> row_profile r = p \/ synced d s r -> synced d s' r) ->
  (forall p', profile_exists p' d = true -> p' = p \/ stitched d s p' -> stitched d s' p') ->
  (forall p', p' <> p -> fm_profiles s' !! p' = fm_profiles s !! p') ->
  (forall k, fm_profiles s' !! p = Some k -> profile_exists p d = true) ->
  fm_contexts s' = fm_contexts s -> fm_device_contexts s' = fm_device_contexts s ->
  fm_default_context s' = fm_default_context s -> fm_config s' = fm_config s ->
  in_step_but (fun v => p ∈ profiles_of_device v d) (p ∈ mem_defaults s') d s' q.
Proof.
  intros He H Hwf Hsync Hst Hprof Hmine E1 E2 E3 E4.
  assert (Hfeed : forall b, feed_dirty (e :: q) b -> feed_dirty q b).
  { intros b (n & Hn). exists n. destruct He as [-> | ->]; set_solver. }
  assert (Hdev : forall v, device_dirty (e :: q) v -> device_dirty q v).
  { unfold device_dirty. intros v. destruct He as [-> | ->]; set_solver. }
  assert (Hdef : default_dirty (e :: q) -> default_dirty q).
  { unfold default_dirty. destruct He as [-> | ->]; set_solver. }
  split; rewrite ?E1, ?E2, ?E3, ?E4; unfold mem_defaults in *; rewrite ?E4; try apply H; [done| | | | | |].
  - intros r Hr Hen. destruct (decide (row_profile r = p)) as [|Hne]; [by right; right; auto|].
    destruct (is_feeds _ _ _ _ _ H r Hr Hen) as [Hd|[Hd|Hd]]; [left; by eapply profile_dirty_cons | by right; left; auto | by right; right; auto].
  - intros p' Hp'. destruct (decide (p' = p)) as [|Hne]; [by right; auto|].
    destruct (is_stitched _ _ _ _ _ H p' Hp') as [Hd|Hd]; [left; by eapply profile_dirty_cons | by right; auto].
  - intros p' k Hk. destruct (decide (p' = p)) as [->|Hne]; [left; by eapply Hmine|]. rewrite Hprof in Hk by done.
    destruct (is_gone _ _ _ _ _ H p' k Hk) as [|Hd]; [by left | right; by eapply profile_dirty_cons].
  - intros v Hv. destruct (decide (p ∈ profiles_of_device v d)) as [|Hnot]; [by left|]. right.
    destruct (is_device _ _ _ _ _ H v Hv) as [[]|[Hd|[(p' & Hin & Hd)|Hc]]]; [by left; auto | right; left; exists p' | right; right].
    + split; [done|]. eapply profile_dirty_cons; [done | | done]. congruence.
    + unfold context_synced in *. rewrite E2. destruct (settings_view d v) as [[[] ids]|] eqn:Ev; [|done|done].
      destruct Hc as (c & C1 & C2 & C3). exists c. split_and!; [done | done|].
      assert (Hids : ids = profiles_of_device v d).
      { unfold settings_view in Ev. destruct (settings_of v d), (profiles_of_device v d); naive_solver. }
      rewrite <- Hids in Hnot. clear -C3 Hnot Hprof. induction C3 as [|x k l l' Hx Hl IH]; constructor; [|set_solver].
      rewrite Hprof; [done | set_solver].
  - destruct (is_default _ _ _ _ _ H) as [[]|[Hd|[(p' & Hin & Hd)|Hc]]]; [by right; left; auto| |].
    + destruct (decide (p' = p)) as [->|Hne]; [by left|]. right; right; left. exists p'. split; [done | by eapply profile_dirty_cons].
    + destruct (decide (p ∈ fc_default_profile_ids (fm_config s))) as [|Hnot]; [by left|]. right; right; right. rewrite Hc. symmetry.
      apply default_context_ext. intros p' Hp'. apply Hprof. congruence.
  - intros x Hx. apply (is_queue _ _ _ _ _ H). by right.
Qed.

Lemma whole_profile_in_step e q p s : (e = DnsFilterChanged (ProfileContent p) \/ e = DnsFilterChanged (ProfileMembership p)) ->
  in_step d s (e :: q) -> exists s', rebuilds (rebuild_whole_profile p) d s tt s' /\
    in_step_but (fun v => p ∈ profiles_of_device v d) (p ∈ mem_defaults s') d s' q.
Proof.
  intros He H. destruct (profile_exists p d) eqn:Hp.
  - destruct (rebuild_whole rows_ok p s (is_wf _ _ _ _ _ H) Hp) as (s' & R & C & T & S). exists s'. split; [done|].
    eapply rebuilt_in_step; [exact He | exact H | apply C | | | apply C | by intros | apply C..].
    + intros r Hr [Hrp|Hs]; [by apply S | by apply C].
    + intros p' Hp' [-> |Hs]; [done|]. destruct (decide (p' = p)) as [->|Hne]; [done | by apply C].
  - exists (forget_profile p s). split.
    + apply rebuild_gone; [done|]. intros r Hr <-. rewrite feed_profile in Hp; done.
    + eapply rebuilt_in_step; [exact He | exact H | apply forget_wf, H | | | | | done..].
      * intros r Hr [Hrp|Hs]; [|exact Hs]. rewrite <- Hrp, feed_profile in Hp; done.
      * intros p' Hp' [-> |Hs]; [congruence|]. apply forget_stitched; [congruence | done].
      * intros p' Hne. simpl. by rewrite lookup_delete_ne.
      * intros k. simpl. by rewrite lookup_delete_eq.
Qed.

(** ** A device rebuilt *)

(** Like [rebuilds], for results that depend on the clock. *)
Definition runs_to {X} (m : ST Filters AppError X) (s : FilterMem) (Q : X -> FilterMem -> Prop) : Prop :=
  forall w, fl_db w = d -> fl_faults w = [] -> fl_mem w = s -> exists x w', m w = (Ok x, w') /\ frame w w' /\ Q x (fl_mem w').

Lemma runs_to_rebuilds {X} (m : ST Filters AppError X) s x s' (Q : X -> FilterMem -> Prop) :
  rebuilds m d s x s' -> Q x s' -> runs_to m s Q.
Proof. intros H HQ w Hd Hf Hs. destruct (H w Hd Hf Hs) as (w' & E & F & S). exists x, w'. by rewrite S. Qed.

Lemma runs_to_bind {X Y} (m : ST Filters AppError X) (k : X -> ST Filters AppError Y) s (R : X -> FilterMem -> Prop) Q :
  runs_to m s R -> (forall x s1, R x s1 -> runs_to (k x) s1 Q) -> runs_to (m ≫= k) s Q.
Proof.
  intros Hm Hk w Hd Hf Hs. destruct (Hm w Hd Hf Hs) as (x & w1 & E1 & F1 & S1).
  destruct (Hk x _ S1 w1) as (y & w2 & E2 & F2 & S2); [by rewrite (fr_db _ _ F1) | by rewrite (fr_faults _ _ F1) | done|].
  exists y, w2. split_and!; [|by etrans|done]. unfold mbind, st_bind. by rewrite E1.
Qed.

Lemma runs_to_then {X Y} (m : ST Filters AppError X) (k : X -> ST Filters AppError Y) s x s1 Q :
  rebuilds m d s x s1 -> runs_to (k x) s1 Q -> runs_to (m ≫= k) s Q.
Proof.
  intros Hm Hk. eapply runs_to_bind; [apply (runs_to_rebuilds _ _ x s1 (fun y s' => y = x /\ s' = s1)); [exact Hm | done]|].
  by intros y s' [-> ->].
Qed.

Lemma runs_to_iter {A} (body : A -> ST Filters AppError unit) xs (P : list A -> FilterMem -> Prop) s :
  (forall x xs s, P (x :: xs) s -> runs_to (body x) s (fun _ => P xs)) -> P xs s -> runs_to (st_iter body xs) s (fun _ => P []).
Proof.
  intros Hb. revert s. induction xs as [|x xs IH]; intros s Hs; simpl; [by apply (runs_to_rebuilds _ _ tt s), Hs; apply rebuilds_ret|].
  eapply runs_to_bind; [by apply Hb|]. intros u s1. apply IH.
Qed.

Definition view_of (o : option DeviceDnsFilterSettings) : option (bool * list Uuid) :=
  (fun x => (fs_filtering x, fs_profile_ids x)) <$> o.

Lemma runs_find_settings v s : runs_to (stored (repo_find_device_settings v)) s (fun o s' => view_of o = settings_view d v /\ s' = s).
Proof.
  intros w <- Hf <-. unfold repo_find_device_settings, stored, fselect, fstmt, st_gets, mbind, st_bind. simpl. rewrite Hf. simpl.
  unfold settings_view. destruct (settings_of v (fl_db w)) as [x|], (profiles_of_device v (fl_db w)) as [|p ids]; simpl.
  all: eexists _, _; split_and!; [done | by split | done | done].
Qed.

Lemma find_device v : device_exists v d = true -> exists x, List.find (fun y => dr_id y =? v) (f_devices d) = Some x /\ x ∈ f_devices d
  /\ dr_id x = v.
Proof.
  intros (x & Hx & Ex)%existsb_elem. destruct (List.find _ _) as [y|] eqn:E.
  - apply find_Some_elem in E as [Hy Ey]. breflect. by exists y.
  - apply (find_None_elem _ _ x) in E; [|done]. cbv beta in E. congruence.
Qed.

(** The context a device gets. *)
Definition rebuilt_context (s : FilterMem) (v : Uuid) : RuntimeContext :=
  match settings_view d v with
  | None => runtime_unfiltered
  | Some (false, _) => {| rc_enabled := false; rc_profiles := [] |}
  | Some (true, ids) => {| rc_enabled := true; rc_profiles := known_slots (fm_profiles s) ids |}
  end.

Definition installed (x : DeviceRow) (c : RuntimeContext) (s : FilterMem) : FilterMem :=
  set_device_contexts (<[dr_id x := c]> (fm_device_contexts s))
    (match parse_ip (dr_last_ip x) with Some ip => set_contexts (<[ip := c]> (fm_contexts s)) s | None => s end).

Lemma materialise_view st s v : view_of (Some st) = settings_view d v -> materialise_context st s = rebuilt_context s v.
Proof.
  unfold view_of, rebuilt_context, materialise_context. simpl. intros <-. destruct (fs_filtering st); simpl; [|done].
  by destruct (fs_profile_ids st).
Qed.

Lemma runs_device x s : x ∈ f_devices d ->
  runs_to (rebuild_device_inner (dr_id x)) s (fun _ s' => s' = installed x (rebuilt_context s (dr_id x)) s).
Proof.
  intros Hx. unfold rebuild_device_inner. eapply runs_to_bind; [apply runs_find_settings|]. intros o s1 [Ho ->].
  eapply runs_to_bind; [eapply (runs_to_rebuilds _ _ _ _ (fun a s' => a = Some x /\ s' = s)); [apply rebuilds_select|]|].
  { split; [|done]. destruct (find_device (dr_id x)) as (y & -> & Hy & Eid); [apply existsb_elem; exists x; split; [done | by apply Z.eqb_eq]|].
    f_equal. apply (NoDup_fmap_elem_inj dr_id (f_devices d)); [apply uniq | done..]. }
  intros a s1 [-> ->]. eapply runs_to_bind.
  { instantiate (1 := fun c s' => c = rebuilt_context s (dr_id x) /\ s' = s). destruct o as [st|].
    - eapply runs_to_rebuilds; [apply rebuilds_from_mem|]. split; [by apply materialise_view | done].
    - eapply runs_to_rebuilds; [apply rebuilds_ret|]. split; [|done]. unfold rebuilt_context. by rewrite <- Ho. }
  intros c s1 [-> ->]. cbn [mbind option_bind]. unfold installed. destruct (parse_ip (dr_last_ip x)) as [ip|].
  - eapply runs_to_rebuilds; [|done]. eapply rebuilds_bind; [apply rebuilds_on_mem|].
    eapply rebuilds_bind; [apply rebuilds_on_mem | apply rebuilds_publish].
  - eapply runs_to_rebuilds; [|done]. eapply rebuilds_bind; [apply rebuilds_ret|].
    eapply rebuilds_bind; [apply rebuilds_on_mem | apply rebuilds_publish].
Qed.

Lemma settings_view_ids v en ids : settings_view d v = Some (en, ids) -> ids = profiles_of_device v d.
Proof. unfold settings_view. destruct (settings_of v d), (profiles_of_device v d); naive_solver. Qed.

Lemma installed_rest x c s : let s' := installed x c s in
  fm_filters s' = fm_filters s /\ fm_runtime s' = fm_runtime s /\ fm_blocklist_filters s' = fm_blocklist_filters s
  /\ fm_profile_aux_filters s' = fm_profile_aux_filters s /\ fm_profiles s' = fm_profiles s
  /\ fm_default_context s' = fm_default_context s /\ fm_config s' = fm_config s
  /\ fm_device_contexts s' = <[dr_id x := c]> (fm_device_contexts s)
  /\ fm_contexts s' = match parse_ip (dr_last_ip x) with Some ip => <[ip := c]> (fm_contexts s) | None => fm_contexts s end.
Proof. unfold installed. by destruct (parse_ip (dr_last_ip x)). Qed.

(** Predicates on the filters and profiles do not look at the contexts. *)
Lemma same_heap s s' : fm_filters s' = fm_filters s -> fm_runtime s' = fm_runtime s ->
  fm_blocklist_filters s' = fm_blocklist_filters s -> fm_profile_aux_filters s' = fm_profile_aux_filters s ->
  fm_profiles s' = fm_profiles s ->
  (mem_wf s -> mem_wf s') /\ (forall r, synced d s r -> synced d s' r) /\ (forall p, stitched d s p -> stitched d s' p).
Proof.
  intros E1 E2 E3 E4 E5. unfold synced, stitched. rewrite E1, E2, E3, E4, E5. split_and!; [|done|done].
  intros []. by split; rewrite ?E1, ?E2, ?E3, ?E4, ?E5.
Qed.

Lemma device_in_step X Y x s q : in_step_but X Y d s q -> x ∈ f_devices d ->
  in_step_but (fun v => X v /\ v <> dr_id x) Y d (installed x (rebuilt_context s (dr_id x)) s) q.
Proof.
  intros H Hx. set (c := rebuilt_context s (dr_id x)). set (s' := installed x c s).
  destruct (installed_rest x c s) as (E1 & E2 & E3 & E4 & E5 & E6 & E7 & E8 & E9). fold s' in E1, E2, E3, E4, E5, E6, E7, E8, E9.
  destruct (same_heap s s' E1 E2 E3 E4 E5) as (Hwf & Hs & Ht).
  assert (Hdc : forall v, v <> dr_id x -> fm_device_contexts s' !! v = fm_device_contexts s !! v).
  { intros v Hv. rewrite E8. by rewrite lookup_insert_ne. }
  split; unfold mem_defaults in *; rewrite ?E5, ?E6, ?E7; try apply H.
  - apply Hwf, H.
  - intros r Hr Hen. destruct (is_feeds _ _ _ _ _ H r Hr Hen) as [|[|]]; auto.
  - intros p Hp. destruct (is_stitched _ _ _ _ _ H p Hp); auto.
  - intros v Hv. destruct (decide (v = dr_id x)) as [->|Hne].
    + right; right. unfold context_synced. rewrite E8, lookup_insert_eq. unfold c, rebuilt_context.
      destruct (settings_view d (dr_id x)) as [[[] ids]|] eqn:Ev; [|by right; eexists|by right; right].
      destruct (known_slots_all (fm_profiles s) ids) as [Hall|(p & Hp & Hnone)].
      * right. eexists. split_and!; [done | done|]. rewrite E5. exact Hall.
      * left. exists p. rewrite <- (settings_view_ids _ _ _ Ev). split; [done|].
        destruct (is_stitched _ _ _ _ _ H p) as [|(k & rp & a & ks & Hk & _)]; [|done|congruence].
        apply (assigned_profile (dr_id x)). by rewrite <- (settings_view_ids _ _ _ Ev).
    + destruct (is_device _ _ _ _ _ H v Hv) as [|[|[|Hc]]]; [by left | by right; left | by right; right; left | right; right; right].
      unfold context_synced in *. by rewrite Hdc, E5.
  - intros v ip Hv Hip. rewrite E9. destruct (parse_ip (dr_last_ip x)) as [ip'|] eqn:Ex.
    + destruct (decide (ip = ip')) as [->|Hne].
      * assert (v = x) as -> by (by eapply uniq). by rewrite E8, !lookup_insert_eq.
      * rewrite lookup_insert_ne by done. rewrite Hdc; [by apply (is_address _ _ _ _ _ H)|]. intros Heq.
        assert (v = x) as -> by (by apply (NoDup_fmap_elem_inj dr_id (f_devices d)); [apply uniq|..]). congruence.
    + rewrite Hdc; [by apply (is_address _ _ _ _ _ H)|]. intros Heq.
      assert (v = x) as -> by (by apply (NoDup_fmap_elem_inj dr_id (f_devices d)); [apply uniq|..]). congruence.
  - intros ip k. rewrite E9. destruct (parse_ip (dr_last_ip x)) as [ip'|] eqn:Ex; [|apply (is_nobody _ _ _ _ _ H)].
    intros [[<- _]|[_ Hk]]%lookup_insert_Some; [eauto | by eapply (is_nobody _ _ _ _ _ H)].
  - intros v k. rewrite E8. intros [[<- _]|[_ Hk]]%lookup_insert_Some; [|by eapply (is_known _ _ _ _ _ H)].
    apply existsb_elem. exists x. split; [done | by apply Z.eqb_eq].
  - rewrite (default_context_ext s s'); [apply (is_default _ _ _ _ _ H)|]. intros p _. by rewrite E5.
Qed.

Lemma in_step_weaken X X' (Y Y' : Prop) s q : (forall v, X v -> X' v) -> (Y -> Y') -> in_step_but X Y d s q -> in_step_but X' Y' d s q.
Proof.
  intros HX HY H. split; try apply H.
  - intros v Hv. destruct (is_device _ _ _ _ _ H v Hv) as [|[|[|]]]; eauto.
  - destruct (is_default _ _ _ _ _ H) as [|[|[|]]]; eauto.
Qed.

Lemma exists_device v : device_exists v d = true -> exists x, x ∈ f_devices d /\ dr_id x = v.
Proof. intros (x & Hx & Ex)%existsb_elem. breflect. eauto. Qed.

(** ** The default context rebuilt *)

Lemma default_in_step X Y s q : in_step_but X Y d s q ->
  in_step_but X False d (set_default_context (default_context_of (fm_config s) s) s) q.
Proof.
  intros H. split; try apply H.
  - destruct (is_wf _ _ _ _ _ H). by split.
  - right; right; right. simpl. done.
Qed.

(** ** Devices with settings and their addresses *)

Lemma runs_with_ips (rows : list DeviceRow) s :
  runs_to (stored (with_ips ((fun v => (v, settings_of (dr_id v) d)) <$> rows))) s
    (fun es s' => s' = s /\ Forall2 (fun v e => fs_device_id (ws_settings e) = dr_id v /\ ws_ip e = Some (dr_last_ip v)
       /\ fs_profile_ids (ws_settings e) = profiles_of_device (dr_id v) d
       /\ fs_filtering (ws_settings e) = match settings_of (dr_id v) d with Some x => st_enabled x | None => true end) rows es).
Proof.
  induction rows as [|v rows IH]; simpl.
  { eapply runs_to_rebuilds; [apply rebuilds_stored_ret|]. by split; [|constructor]. }
  intros w Hd Hf Hs. rewrite stored_bind. unfold mbind at 1, st_bind at 1. unfold stored at 1, fselect, fstmt. rewrite Hf, Hd. simpl.
  rewrite stored_bind. unfold mbind at 1, st_bind at 1. unfold stored at 1, st_gets. rewrite stored_bind. unfold mbind at 1, st_bind at 1.
  destruct (IH (set_fl_db d (set_fl_faults [] w))) as (es & w' & E & F & S & Hes); [done..|].
  unfold fmap in E. rewrite E. eexists _, _. split_and!; [done | | done | by constructor].
  destruct F as [F1 F2 F3 F4]. split; simpl in *; congruence.
Qed.

Definition settled_devices : list DeviceRow := List.filter (has_settings d) (f_devices d).

Lemma runs_list_settings s :
  runs_to (stored (repo_list_device_settings_with_ips false)) s
    (fun es s' => s' = s /\ Forall2 (fun v e => fs_device_id (ws_settings e) = dr_id v /\ ws_ip e = Some (dr_last_ip v)
       /\ fs_profile_ids (ws_settings e) = profiles_of_device (dr_id v) d
       /\ fs_filtering (ws_settings e) = match settings_of (dr_id v) d with Some x => st_enabled x | None => true end)
       settled_devices es).
Proof.
  unfold repo_list_device_settings_with_ips. simpl. intros w Hd Hf Hs. rewrite stored_bind. unfold mbind at 1, st_bind at 1.
  unfold stored at 1, fselect, fstmt. rewrite Hf, Hd. simpl.
  destruct (runs_with_ips (List.filter (fun v => has_settings d v && true) (f_devices d)) s (set_fl_db d (set_fl_faults [] w)))
    as (es & w' & E & F & S & Hes); [done..|].
  rewrite E. eexists _, _. split_and!; [done | | done |].
  - destruct F as [F1 F2 F3 F4]. split; simpl in *; congruence.
  - unfold settled_devices. rewrite (List.filter_ext (has_settings d) (fun v => has_settings d v && true)); [exact Hes|]. intros v. by rewrite andb_true_r.
Qed.

Lemma settled_device x : x ∈ settled_devices <-> x ∈ f_devices d /\ has_settings d x = true.
Proof. unfold settled_devices. by rewrite list_elem_of_In, filter_In, <- list_elem_of_In. Qed.

Lemma assigned_has_settings x p : p ∈ profiles_of_device (dr_id x) d -> has_settings d x = true.
Proof.
  unfold profiles_of_device, has_settings. intros (r & _ & Hr)%list_elem_of_fmap. apply orb_true_iff. right.
  apply list_elem_of_In, filter_In in Hr as [Hr Er]. apply existsb_elem. exists r. split; [by apply list_elem_of_In | done].
Qed.

(** ** Handling an event *)

Lemma runs_admin {X} (k : _ -> ST Filters AppError X) s Q :
  (forall a, require_admin (Some system_ctx) = Ok a -> runs_to (k a) s Q) -> runs_to (st_lift (require_admin (Some system_ctx)) ≫= k) s Q.
Proof.
  intros Hk. destruct (require_admin (Some system_ctx)) as [a|] eqn:E; [|done]. eapply runs_to_then; [apply rebuilds_lift_ok | by apply Hk].
Qed.

Lemma profile_event e q p s : (e = DnsFilterChanged (ProfileContent p) \/ e = DnsFilterChanged (ProfileMembership p)) ->
  in_step d s (e :: q) -> runs_to (rebuild_profile (Some system_ctx) p) s (fun _ s' => in_step d s' q).
Proof.
  intros He H. apply runs_admin. intros _ _. destruct (whole_profile_in_step e q p s He H) as (s1 & R1 & H1).
  eapply runs_to_then; [exact R1|]. eapply runs_to_then; [apply rebuilds_from_mem|]. eapply runs_to_bind.
  { instantiate (1 := fun _ s' => in_step_but (fun v => p ∈ profiles_of_device v d) False d s' q). case_bool_decide as Hd.
    - eapply runs_to_rebuilds; [eapply rebuilds_bind; [apply rebuilds_on_mem | apply rebuilds_publish]|]. by eapply default_in_step.
    - eapply runs_to_rebuilds; [apply rebuilds_ret|]. eapply in_step_weaken; [| |exact H1]; [done|]. by intros. }
  intros [] s2 H2. eapply runs_to_bind; [apply runs_list_settings|]. intros es s3 [-> Hes].
  set (P := fun xs s' => exists vs, Forall2 (fun v e => fs_device_id (ws_settings e) = dr_id v /\ ws_ip e = Some (dr_last_ip v)
       /\ fs_profile_ids (ws_settings e) = profiles_of_device (dr_id v) d
       /\ fs_filtering (ws_settings e) = match settings_of (dr_id v) d with Some x => st_enabled x | None => true end) vs xs
    /\ (forall x, x ∈ vs -> x ∈ f_devices d)
    /\ in_step_but (fun v => p ∈ profiles_of_device v d /\ exists x, x ∈ vs /\ dr_id x = v) False d s' q).
  assert (Hend : forall s', P [] s' -> in_step d s' q).
  { intros s' (vs & Hvs & _ & Hs'). apply Forall2_nil_inv_r in Hvs as ->. eapply in_step_weaken; [| |exact Hs']; [|done].
    intros v (_ & x & Hx & _). by apply elem_of_nil in Hx. }
  intros w Hd Hf Hs. edestruct (runs_to_iter (fun entry => if bool_decide (p ∈ fs_profile_ids (ws_settings entry))
    then rebuild_device_inner (fs_device_id (ws_settings entry)) else mret tt) es P s2) as (y & w' & E & F & HP); [| |done..|].
  - intros e' xs s' (vs & Hvs & Hin & Hs'). apply Forall2_cons_inv_r in Hvs as (x & vs' & (E1 & _ & E3 & _) & Hvs & ->).
    case_bool_decide as Hp.
    + rewrite E1. intros w1 Hd1 Hf1 Hs1. destruct (runs_device x s' (Hin x (list_elem_of_here _ _)) w1 Hd1 Hf1 Hs1) as (u & w2 & E & F & S).
      exists u, w2. split_and!; [done | done|]. exists vs'. split_and!; [done | by intros; apply Hin; right|]. rewrite S.
      eapply in_step_weaken; [| |eapply (device_in_step _ _ x); [exact Hs' | apply Hin; by left]]; [|done].
      intros v [(Hv & x' & [-> |Hx']%elem_of_cons & Ex) Hne]; [done | eauto].
    + eapply runs_to_rebuilds; [apply rebuilds_ret|]. exists vs'. split_and!; [done | by intros; apply Hin; right|].
      eapply in_step_weaken; [| |exact Hs']; [|done]. intros v (Hv & x' & [-> |Hx']%elem_of_cons & Ex); [|eauto].
      subst v. by rewrite E3 in Hp.
  - exists settled_devices. split_and!; [done | by intros x [? _]%settled_device|]. eapply in_step_weaken; [| |exact H2]; [|done].
    intros v Hv. split; [done|]. assert (Hdev : device_exists v d = true).
    { unfold profiles_of_device in Hv. apply list_elem_of_fmap in Hv as (r & _ & Hr). apply list_elem_of_In, filter_In in Hr as [Hr Er].
      breflect. subst v. apply device_exists_has. apply (fo_links _ ok). by apply list_elem_of_In. }
    destruct (exists_device v Hdev) as (x & Hx & <-). exists x. split; [|done]. apply settled_device. split; [done | by eapply assigned_has_settings].
  - exists y, w'. split_and!; [done | done | by apply Hend].
Qed.

Definition about_profile (e : FilterEvent) (p : Uuid) : Prop :=
  e = DnsFilterChanged (ProfileContent p) \/ e = DnsFilterChanged (ProfileMembership p).

Lemma profile_dirty_pop e q p : ~ about_profile e p -> profile_dirty (e :: q) p -> profile_dirty q p.
Proof. unfold about_profile, profile_dirty. rewrite !elem_of_cons. naive_solver. Qed.

(** Taking an event that is not about a profile or a feed. *)
Lemma pop_event e s q : (forall p, ~ about_profile e p) -> (forall b n, e <> DnsFilterBlocklistUpdated b n) -> in_step d s (e :: q) ->
  in_step_but (fun v => e = DnsFilterChanged (DeviceAssignment v))
    (e = DnsFilterChanged DefaultProfile \/ e = DnsFilterChanged GlobalToggle) d s q.
Proof.
  intros Hp Hb H. assert (Hpop : forall p, profile_dirty (e :: q) p -> profile_dirty q p) by (intros p; by apply profile_dirty_pop).
  split; try apply H.
  - intros r Hr Hen. destruct (is_feeds _ _ _ _ _ H r Hr Hen) as [Hd|[(n & Hd)|]]; [by auto | right; left; exists n | by auto].
    apply elem_of_cons in Hd as [Hd|Hd]; [|done]. by destruct (Hb (row_id r) n).
  - intros p Hex. destruct (is_stitched _ _ _ _ _ H p Hex); auto.
  - intros p k Hk. destruct (is_gone _ _ _ _ _ H p k Hk); auto.
  - intros v Hv. destruct (is_device _ _ _ _ _ H v Hv) as [[]|[Hd|[(p & Hin & Hd)|]]]; [|by right; right; left; eauto | by auto].
    apply elem_of_cons in Hd as [<-|Hd]; auto.
  - destruct (is_default _ _ _ _ _ H) as [[]|[Hd|[(p & Hin & Hd)|]]]; [|by right; right; left; eauto | by auto].
    unfold default_dirty in *. rewrite !elem_of_cons in Hd. naive_solver.
  - intros x Hx. apply (is_queue _ _ _ _ _ H). by right.
Qed.

Lemma device_event q v s : in_step d s (DnsFilterChanged (DeviceAssignment v) :: q) ->
  runs_to (rebuild_device (Some system_ctx) v) s (fun _ s' => in_step d s' q).
Proof.
  intros H. apply runs_admin. intros _ _.
  assert (Hv : device_exists v d = true) by (apply (is_queue _ _ _ _ _ H (DnsFilterChanged (DeviceAssignment v))); by left).
  destruct (exists_device v Hv) as (x & Hx & <-). apply pop_event in H; [|by intros p [?|?]|done].
  intros w Hd Hf Hs. destruct (runs_device x s Hx w Hd Hf Hs) as (u & w' & E & F & S). exists u, w'. split_and!; [done | done|]. rewrite S.
  eapply in_step_weaken; [| |eapply (device_in_step _ _ x); [exact H | done]]; [by intros v [[= ->] ?] | by intros [?|?]].
Qed.

Lemma rebuilds_config s : rebuilds (stored repo_get_dns_filter_config) d s (stored_config d) s.
Proof.
  unfold repo_get_dns_filter_config. eapply rebuilds_stored_bind; [apply rebuilds_select|].
  eapply rebuilds_stored_bind; [apply rebuilds_select|]. eapply rebuilds_stored_bind; [apply rebuilds_select | apply rebuilds_stored_ret].
Qed.

Lemma stored_defaults_exist : List.filter (fun p => profile_exists p d) (fc_default_profile_ids (stored_config d)) = fc_default_profile_ids (stored_config d).
Proof.
  apply filter_all. intros p (r & -> & Hr)%list_elem_of_fmap. rewrite (sort_by_perm by_default_row) in Hr.
  apply profile_exists_has. by apply (fo_default _ ok).
Qed.

Lemma default_event e q s : e = DnsFilterChanged DefaultProfile \/ e = DnsFilterChanged GlobalToggle -> in_step d s (e :: q) ->
  runs_to (rebuild_default_context (Some system_ctx)) s (fun _ s' => in_step d s' q).
Proof.
  intros He H. apply runs_admin. intros _ _. set (s1 := set_mem_config (stored_config d) s).
  assert (H1 : in_step_but (fun _ => False) True d s1 q).
  { apply pop_event in H; [|by intros p [?|?]; destruct He; congruence|by intros b n ->; destruct He].
    destruct (same_heap s s1 eq_refl eq_refl eq_refl eq_refl eq_refl) as (Hwf & _ & _).
    split; try apply H; [apply Hwf, H | | done | apply stored_defaults_exist | by left].
    intros v Hv. destruct (is_device _ _ _ _ _ H v Hv) as [->|[|[|]]]; auto. destruct He; congruence. }
  eapply runs_to_then; [eapply rebuilds_bind; [apply rebuilds_config | apply rebuilds_on_mem]|].
  eapply runs_to_rebuilds; [eapply rebuilds_bind; [apply rebuilds_on_mem | apply rebuilds_publish]|]. by eapply default_in_step.
Qed.

Lemma context_kept s s' v : fm_device_contexts s' = fm_device_contexts s ->
  (forall p k, p ∈ profiles_of_device v d -> fm_profiles s !! p = Some k -> fm_profiles s' !! p = Some k) ->
  context_synced d s v -> context_synced d s' v.
Proof.
  intros E Hp. unfold context_synced. rewrite E. destruct (settings_view d v) as [[[] ids]|] eqn:Ev; [|done|done].
  intros (c & C1 & C2 & C3). exists c. split_and!; [done | done|]. rewrite (settings_view_ids _ _ _ Ev) in *.
  eapply Forall2_impl_in; [exact C3|]. intros p k Hin Hk. by apply Hp.
Qed.

Lemma feed_event b n q s : in_step d s (DnsFilterBlocklistUpdated b n :: q) ->
  runs_to (rebuild_blocklist_filter (Some system_ctx) b) s (fun _ s' => in_step d s' q).
Proof.
  intros H. apply runs_admin. intros _ _. set (e := DnsFilterBlocklistUpdated b n) in *.
  assert (Hpop : forall p, profile_dirty (e :: q) p -> profile_dirty q p) by (intros p; apply profile_dirty_pop; by intros [?|?]).
  assert (Hdev : forall v, device_dirty (e :: q) v -> device_dirty q v) by (unfold device_dirty; set_solver).
  assert (Hdef : default_dirty (e :: q) -> default_dirty q) by (unfold default_dirty; set_solver).
  assert (Hfeed : forall x, feed_dirty (e :: q) x -> x = b \/ feed_dirty q x).
  { intros x (k & [[= -> _]|Hk]%elem_of_cons); [by left | right; by exists k]. }
  assert (Hq : forall x, x ∈ q -> event_fine d x) by (intros x Hx; apply (is_queue _ _ _ _ _ H); by right).
  destruct (List.find (row_is b) (f_blocklists d)) as [r|] eqn:Er.
  - pose proof (find_Some_elem _ _ _ Er) as [Hr Eb]. unfold row_is in Eb. breflect. fold (row_id r) in Eb. subst b.
    destruct (store_row rows_ok (row_profile r) r s (is_wf _ _ _ _ _ H) Hr) as (C1 & S1 & _ & T1).
    set (s1 := store_blocklist (row_id r) (compiled_blocklist d r) s) in *.
    destruct (rebuild_inner rows_ok (row_profile r) s1 (cm_wf _ _ _ _ C1) (feed_profile r Hr)) as (s2 & R2 & C2 & T2).
    pose proof (calm_trans _ _ _ _ _ C1 C2) as C. assert (Hst : forall p, stitched d s p -> stitched d s2 p).
    { intros p Hp. destruct (decide (p = row_profile r)) as [->|]; [done | by apply C]. }
    assert (Hk : forall p k, fm_profiles s !! p = Some k -> fm_profiles s2 !! p = Some k).
    { intros p k Hk. destruct (decide (p = row_profile r)) as [->|]; [by apply C | by rewrite (cm_profiles _ _ _ _ C)]. }
    eapply runs_to_then; [by apply rebuilds_blocklist|]. eapply runs_to_then; [apply rebuilds_select|]. cbv beta. rewrite Er.
    eapply runs_to_rebuilds; [exact R2|].
    split; unfold mem_defaults in *; rewrite ?(cm_contexts _ _ _ _ C), ?(cm_devices _ _ _ _ C), ?(cm_default _ _ _ _ C), ?(cm_config _ _ _ _ C); try apply H.
    + apply C.
    + intros r' Hr' Hen. destruct (is_feeds _ _ _ _ _ H r' Hr' Hen) as [|[[Hid|]%Hfeed|]]; [by auto | | by auto | right; right; by apply C].
      rewrite (row_unique rows_ok r' r) by done. right; right. by apply C2.
    + intros p Hp. destruct (is_stitched _ _ _ _ _ H p Hp); auto.
    + intros p k Hp. destruct (decide (p = row_profile r)) as [->|]; [left; by apply feed_profile|]. rewrite (cm_profiles _ _ _ _ C) in Hp by done.
      destruct (is_gone _ _ _ _ _ H p k Hp); auto.
    + intros v Hv. destruct (is_device _ _ _ _ _ H v Hv) as [[]|[|[(p & Hin & Hd)|Hc]]]; [by auto | by right; right; left; eauto|].
      right; right; right. eapply context_kept; [apply C | by eauto | done].
    + destruct (is_default _ _ _ _ _ H) as [[]|[|[(p & Hin & Hd)|Hc]]]; [by auto | by right; right; left; eauto|]. unfold mem_defaults in *.
      destruct (decide (row_profile r ∈ fc_default_profile_ids (fm_config s))) as [Hin|Hnot].
      2: { right; right; right. rewrite Hc. symmetry. apply default_context_ext. intros p Hp. apply C. congruence. }
      destruct (is_stitched _ _ _ _ _ H (row_profile r) (feed_profile r Hr)) as [Hd|(k & rp & a & ks & Hpk & _)]; [by right; right; left; eauto|].
      right; right; right. rewrite Hc. symmetry. apply default_context_ext. intros p Hp.
      destruct (decide (p = row_profile r)) as [->|]; [|by apply C]. by rewrite Hpk, (Hk _ _ Hpk).
    + done.
  - assert (Hnot : forall r, r ∈ f_blocklists d -> row_id r <> b).
    { intros r Hr <-. apply (find_None_elem _ _ r) in Er; [|done]. unfold row_is in Er. breflect. done. }
    eapply runs_to_then; [by apply rebuild_gone_blocklist|]. eapply runs_to_then; [apply rebuilds_select|]. cbv beta. rewrite Er.
    eapply runs_to_rebuilds; [apply rebuilds_ret|]. split; unfold mem_defaults in *; try apply H.
    + destruct (is_wf _ _ _ _ _ H) as [W1 W2 W3 W4 W5 W6 W7]. split; simpl; try done.
      * intros id k [_ Hk]%lookup_delete_Some. eauto.
      * intros i j k [_ Hi]%lookup_delete_Some [_ Hj]%lookup_delete_Some. eauto.
      * intros i j k [_ Hi]%lookup_delete_Some. eauto.
    + intros r Hr Hen. destruct (is_feeds _ _ _ _ _ H r Hr Hen) as [|[[Hid|]%Hfeed|(k & K1 & K2)]]; [by auto | by destruct (Hnot r Hr) | by auto|].
      right; right. exists k. simpl. rewrite lookup_delete_ne; [done|]. intros ->. by eapply Hnot.
    + intros p Hp. destruct (is_stitched _ _ _ _ _ H p Hp) as [|(k & rp & a & ks & S1 & S2 & S3 & S4 & S5 & S6)]; [by auto|]. right.
      exists k, rp, a, ks. split_and!; try done. simpl. eapply Forall2_impl_in; [exact S5|]. intros r j Hr Hj.
      rewrite lookup_delete_ne; [done|]. intros Eb. unfold enabled_of in Hr. apply list_elem_of_In, filter_In in Hr as [Hr _].
      apply list_elem_of_In, (blocklists_of_rows p) in Hr as [Hr _]. by apply (Hnot r Hr).
    + intros p k Hk. destruct (is_gone _ _ _ _ _ H p k Hk); auto.
    + intros v Hv. destruct (is_device _ _ _ _ _ H v Hv) as [[]|[|[(p & Hin & Hd)|Hc]]]; [by auto | by right; right; left; eauto | by auto].
    + destruct (is_default _ _ _ _ _ H) as [[]|[|[(p & Hin & Hd)|Hc]]]; [by auto | by right; right; left; eauto | by auto].
    + done.
Qed.

(** Whatever the runner receives, the cache stays in step. *)
Lemma event_in_step e q s : in_step d s (e :: q) -> runs_to (handle_event e) s (fun _ s' => in_step d s' q).
Proof.
  intros H. destruct e as [[p|p|v| | ]|b n|v o nw]; simpl.
  - by apply (profile_event (DnsFilterChanged (ProfileContent p))); [left|].
  - by apply (profile_event (DnsFilterChanged (ProfileMembership p))); [right|].
  - by apply device_event.
  - by apply (default_event (DnsFilterChanged DefaultProfile)); [left|].
  - by apply (default_event (DnsFilterChanged GlobalToggle)); [right|].
  - by eapply feed_event.
  - destruct (is_queue _ _ _ _ _ H (FilterDeviceIpChanged v o nw)). by left.
Qed.

(** ** Starting *)

Record fresh_start (todo : list DnsFilterProfile) (s : FilterMem) : Prop := {
  ft_wf : mem_wf s;
  ft_contexts : fm_contexts s = ∅;
  ft_devices : fm_device_contexts s = ∅;
  ft_config : fm_config s = stored_config d;
  ft_built p : profile_exists p d = true -> (exists x, x ∈ todo /\ pf_id x = p) \/
    stitched d s p /\ forall r, r ∈ f_blocklists d -> row_profile r = p -> synced d s r;
  ft_known p k : fm_profiles s !! p = Some k -> profile_exists p d = true;
}.

Lemma wiped s : fresh_start (sort_by by_builtin_name (f_profiles d)) (wipe (set_mem_config (stored_config d) s)).
Proof.
  split; try done.
  - intros p Hp. left. apply existsb_elem in Hp as (x & Hx & Ex). unfold profile_is in Ex. breflect. exists x. split; [|done].
    by rewrite (sort_by_perm by_builtin_name).
Qed.

Lemma runs_profiles s : fresh_start (sort_by by_builtin_name (f_profiles d)) s ->
  runs_to (st_iter (fun p => rebuild_whole_profile (pf_id p)) (sort_by by_builtin_name (f_profiles d))) s (fun _ => fresh_start []).
Proof.
  intros Hs. set (P := fun xs s' => (forall x, x ∈ xs -> x ∈ f_profiles d) /\ fresh_start xs s').
  assert (H : runs_to (st_iter (fun p => rebuild_whole_profile (pf_id p)) (sort_by by_builtin_name (f_profiles d))) s (fun _ => P [])).
  { apply runs_to_iter; [|split; [|done]; intros x; by rewrite (sort_by_perm by_builtin_name)].
    intros x xs s1 [Hin H]. assert (Hx : profile_exists (pf_id x) d = true).
    { apply existsb_elem. exists x. split; [apply Hin; by left | by apply Z.eqb_eq]. }
    destruct (rebuild_whole rows_ok (pf_id x) s1 (ft_wf _ _ H) Hx) as (s2 & R & C & T & S).
    eapply runs_to_rebuilds; [exact R|]. split; [intros; apply Hin; by right|]. destruct H as [_ H2 H3 H4 H5 H6]. split.
    - apply C.
    - by rewrite (cm_contexts _ _ _ _ C).
    - by rewrite (cm_devices _ _ _ _ C).
    - by rewrite (cm_config _ _ _ _ C).
    - intros p Hp. destruct (decide (p = pf_id x)) as [->|Hne]; [by right|].
      destruct (H5 p Hp) as [(y & [->|Hy]%elem_of_cons & Ey)|[T5 S5]]; [done | by left; eauto | right].
      split; [by apply C|]. intros r Hr Hrp. apply C; [done | by apply S5].
    - intros p k Hk. destruct (decide (p = pf_id x)) as [->|Hne]; [done|]. rewrite (cm_profiles _ _ _ _ C) in Hk by done. eauto. }
  intros w Hd Hf Hm. destruct (H w Hd Hf Hm) as (u & w' & E & F & _ & Hw'). by exists u, w'.
Qed.

Lemma has_settings_view x : has_settings d x = true -> exists en ids, settings_view d (dr_id x) = Some (en, ids).
Proof.
  unfold has_settings, settings_view, settings_of. intros [H|H]%orb_true_iff.
  - destruct (List.find _ (f_settings d)) as [st|] eqn:E; [by eauto|]. apply existsb_elem in H as (y & Hy & Ey).
    apply (find_None_elem _ _ y) in E; [|done]. cbv beta in E. congruence.
  - apply existsb_elem in H as (r & Hr & Er). destruct (List.find _ _) as [st|]; [by eauto|].
    assert (Hp : dp_profile_id r ∈ profiles_of_device (dr_id x) d).
    { unfold profiles_of_device. apply list_elem_of_fmap_2. apply list_elem_of_In, filter_In. split; [by apply list_elem_of_In | done]. }
    destruct (profiles_of_device (dr_id x) d); [by apply elem_of_nil in Hp | eauto].
Qed.

Lemma no_settings_view x : has_settings d x = false -> settings_view d (dr_id x) = None.
Proof.
  unfold has_settings, settings_view, settings_of. intros [H1 H2]%orb_false_iff.
  destruct (List.find _ (f_settings d)) as [st|] eqn:E.
  { apply find_Some_elem in E as [Hs Es]. apply (existsb_none _ _ st H1) in Hs. cbv beta in Hs. congruence. }
  assert (Hp : profiles_of_device (dr_id x) d = []); [|by rewrite Hp]. unfold profiles_of_device.
  rewrite filter_none; [done|]. intros r Hr. by apply (existsb_none _ _ r H2).
Qed.

Lemma install_rebuilt x e s : x ∈ settled_devices -> fs_device_id (ws_settings e) = dr_id x -> ws_ip e = Some (dr_last_ip x) ->
  fs_profile_ids (ws_settings e) = profiles_of_device (dr_id x) d ->
  fs_filtering (ws_settings e) = match settings_of (dr_id x) d with Some y => st_enabled y | None => true end ->
  rebuilds (install_context e) d s tt (installed x (rebuilt_context s (dr_id x)) s).
Proof.
  intros [Hx Hset]%settled_device E1 E2 E3 E4. unfold install_context. eapply rebuilds_bind; [apply rebuilds_from_mem|].
  assert (E : materialise_context (ws_settings e) s = rebuilt_context s (dr_id x)).
  { apply materialise_view. destruct (has_settings_view x Hset) as (en & ids & Ev). rewrite Ev. unfold view_of. simpl. rewrite E3, E4.
    unfold settings_view in Ev. destruct (settings_of (dr_id x) d), (profiles_of_device (dr_id x) d); naive_solver. }
  rewrite E, E1, E2. cbn [mbind option_bind]. unfold installed. destruct (parse_ip (dr_last_ip x)) as [ip|].
  - eapply rebuilds_bind; [apply rebuilds_on_mem | exact (rebuilds_on_mem _ _ _)].
  - eapply rebuilds_bind; [apply rebuilds_ret | exact (rebuilds_on_mem _ _ _)].
Qed.

Lemma start_contexts s q : fresh_start [] s -> (forall e, e ∈ q -> event_fine d e) ->
  in_step_but (fun v => exists x, x ∈ settled_devices /\ dr_id x = v) True d s q.
Proof.
  intros [H1 H2 H3 H4 H5 H6] Hq. split; unfold mem_defaults in *; rewrite ?H2, ?H3, ?H4; try done; try (by intros *; rewrite ?lookup_empty).
  - intros r Hr _. right; right. destruct (H5 (row_profile r) (feed_profile r Hr)) as [(x & Hx & _)|[_ Hs]]; [by apply elem_of_nil in Hx | by apply Hs].
  - intros p Hp. right. destruct (H5 p Hp) as [(x & Hx & _)|[Hs _]]; [by apply elem_of_nil in Hx | done].
  - intros p k Hk. left. by eapply H6.
  - intros v Hv. destruct (exists_device v Hv) as (x & Hx & <-). destruct (has_settings d x) eqn:E.
    + left. exists x. split; [by apply settled_device | done].
    + right; right; right. unfold context_synced. rewrite (no_settings_view x E), H3. left. apply lookup_empty.
  - apply stored_defaults_exist.
  - by left.
Qed.

Lemma start_in_step s q : (forall e, e ∈ q -> event_fine d e) ->
  runs_to (rebuild_all (Some system_ctx)) s (fun _ s' => in_step d s' q /\ fm_bootstrapped s' = true).
Proof.
  intros Hq. apply runs_admin. intros _ _. eapply runs_to_then; [eapply rebuilds_bind; [apply rebuilds_config | apply rebuilds_on_mem]|].
  eapply runs_to_then; [apply rebuilds_on_mem|]. eapply runs_to_then; [apply rebuilds_select|]. cbv beta.
  eapply runs_to_bind; [apply runs_profiles, wiped|]. intros [] s1 H1.
  eapply runs_to_bind; [apply runs_list_settings|]. intros es s2 [-> Hes].
  set (P := fun xs s' => exists vs, Forall2 (fun v e => fs_device_id (ws_settings e) = dr_id v /\ ws_ip e = Some (dr_last_ip v)
       /\ fs_profile_ids (ws_settings e) = profiles_of_device (dr_id v) d
       /\ fs_filtering (ws_settings e) = match settings_of (dr_id v) d with Some x => st_enabled x | None => true end) vs xs
    /\ (forall x, x ∈ vs -> x ∈ settled_devices)
    /\ in_step_but (fun v => exists x, x ∈ vs /\ dr_id x = v) True d s' q).
  eapply (runs_to_bind _ _ _ (fun _ => P [])).
  { apply runs_to_iter; [|exists settled_devices; split_and!; [done | done | by apply start_contexts]].
    intros e xs s' (vs & Hvs & Hin & Hs'). apply Forall2_cons_inv_r in Hvs as (x & vs' & (E1 & E2 & E3 & E4) & Hvs & ->).
    eapply runs_to_rebuilds; [apply (install_rebuilt x); [apply Hin; by left | done..]|]. exists vs'. split_and!; [done | by intros; apply Hin; right|].
    eapply in_step_weaken; [| |eapply (device_in_step _ _ x); [exact Hs' | apply settled_device, Hin; by left]]; [|done].
    intros v [(x' & [->|Hx']%elem_of_cons & Ex) Hne]; [done | eauto]. }
  intros [] s3 (vs & Hvs & _ & Hs3). apply Forall2_nil_inv_r in Hvs as ->.
  assert (H3 : in_step_but (fun _ => False) True d s3 q).
  { eapply in_step_weaken; [| |exact Hs3]; [|done]. by intros v (x & Hx%elem_of_nil & _). }
  eapply runs_to_then; [eapply rebuilds_bind; [apply rebuilds_on_mem | apply rebuilds_publish]|].
  eapply runs_to_rebuilds; [apply rebuilds_on_mem|]. split; [|done]. apply default_in_step in H3.
  split; try apply H3. destruct (is_wf _ _ _ _ _ H3). by split.
Qed.
End tables.
End follow.
