(* ===== verification/FilterServe.v ===== *)
(** * Changing the filter tables

    What a change of the tables must leave alone or announce for the cache to stay in
    step, which changes are of one profile only, and how statements run when storage
    answers. *)

From S2P Require Import Prelude RustStr Net Auth FilterParser DnsFilter PolicyRouter RoutingTypes ZoneTypes PolicyDb.
From S2P Require Import Tables FilterTypes FilterRepo FilterAdmin FilterLaws FilterImport FilterSync FilterFollow.

Section serve.
Context {CL : CronLib} {RL : RegexLib} {TL : RecordTypeLib} {NL : IpNetworkLib} {U : UuidText}.

Lemma dirty_app q es p : profile_dirty q p -> profile_dirty (q ++ es) p.
Proof. unfold profile_dirty. rewrite !elem_of_app. naive_solver. Qed.
Lemma feed_dirty_app q es b : feed_dirty q b -> feed_dirty (q ++ es) b.
Proof. intros (n & Hn). exists n. apply elem_of_app. by left. Qed.
Lemma device_dirty_app q es v : device_dirty q v -> device_dirty (q ++ es) v.
Proof. unfold device_dirty. rewrite elem_of_app. auto. Qed.
Lemma default_dirty_app q es : default_dirty q -> default_dirty (q ++ es).
Proof. unfold default_dirty. rewrite !elem_of_app. naive_solver. Qed.
#[local] Hint Resolve dirty_app feed_dirty_app device_dirty_app default_dirty_app : core.

(** ** Changing the tables *)

(** What a change must leave alone or announce. *)
Record announced (d d' : FilterDb) (s : FilterMem) (q es : list FilterEvent) : Prop := {
  an_feeds r' : r' ∈ f_blocklists d' -> bl_enabled (db_blocklist r') = true ->
    profile_dirty (q ++ es) (row_profile r') \/ feed_dirty (q ++ es) (row_id r') \/
    exists r, r ∈ f_blocklists d /\ bl_enabled (db_blocklist r) = true /\ row_id r = row_id r' /\ row_profile r = row_profile r'
      /\ active_domains (row_id r') d' = active_domains (row_id r) d;
  an_profiles p : profile_exists p d' = true -> profile_dirty (q ++ es) p \/
    profile_exists p d = true /\ row_id <$> enabled_of p d' = row_id <$> enabled_of p d
      /\ allowed_of p d' = allowed_of p d /\ rules_of p d' = rules_of p d;
  an_gone p : profile_exists p d = true -> profile_exists p d' = true \/ profile_dirty (q ++ es) p;
  an_devices v : device_exists v d' = true -> device_dirty (q ++ es) v \/ device_exists v d = true /\ settings_view d' v = settings_view d v;
  an_rows v' : v' ∈ f_devices d' -> exists v, v ∈ f_devices d /\ dr_id v = dr_id v' /\ dr_last_ip v = dr_last_ip v';
  an_rows_back v : v ∈ f_devices d -> exists v', v' ∈ f_devices d' /\ dr_id v = dr_id v' /\ dr_last_ip v = dr_last_ip v';
  an_enabled : fc_enabled (stored_config d') = fc_enabled (stored_config d);
  an_defaults : List.filter (fun p => profile_exists p d') (mem_defaults s) = fc_default_profile_ids (stored_config d');
  an_events e : e ∈ es -> event_fine d' e;
}.

Lemma device_exists_rows v d d' : (forall x, x ∈ f_devices d -> exists x', x' ∈ f_devices d' /\ dr_id x = dr_id x' /\ dr_last_ip x = dr_last_ip x') ->
  device_exists v d = true -> device_exists v d' = true.
Proof.
  intros H. rewrite !device_exists_has. intros (x & Hx & <-). destruct (H x Hx) as (x' & Hx' & E & _). by exists x'.
Qed.

Lemma profiles_of_view d v : profiles_of_device v d = match settings_view d v with Some (_, ids) => ids | None => [] end.
Proof. unfold settings_view. by destruct (settings_of v d), (profiles_of_device v d). Qed.

Lemma fmap_ids_Forall2 {A} (f g : A -> Uuid) (l l' : list A) : f <$> l = g <$> l' -> Forall2 (fun x y => f x = g y) l l'.
Proof.
  revert l'. induction l as [|x l IH]; intros [|y l']; simpl; try done. intros [= E1 E2]. constructor; [done | by apply IH].
Qed.

Lemma announced_in_step d d' s q es : announced d d' s q es -> in_step d s q -> in_step d' s (q ++ es).
Proof.
  intros A H. split; try apply H.
  - intros r' Hr' Hen'. destruct (an_feeds _ _ _ _ _ A r' Hr' Hen') as [|[|(r & Hr & Hen & E1 & E2 & E3)]]; [by auto | by auto|].
    destruct (is_feeds _ _ _ _ _ H r Hr Hen) as [Hd|[Hd|(k & K1 & K2)]]; [left; rewrite <- E2; by auto | right; left; rewrite <- E1; by auto|].
    right; right. exists k. rewrite <- E1. split; [done|]. rewrite K2. unfold compiled_blocklist. by rewrite Hen, Hen', E3.
  - intros p Hp. destruct (an_profiles _ _ _ _ _ A p Hp) as [|(Hp' & E1 & E2 & E3)]; [by auto|].
    destruct (is_stitched _ _ _ _ _ H p Hp') as [|(k & rp & a & ks & S1 & S2 & S3 & S4 & S5 & S6)]; [by auto|]. right.
    exists k, rp, a, ks. split_and!; try done.
    + rewrite S4. unfold compiled_aux. by rewrite E2, E3.
    + clear -S5 E1. apply fmap_ids_Forall2 in E1. revert ks S5. induction E1 as [|x y l l' Hxy _ IH]; intros ks S5.
      * by apply Forall2_nil_inv_l in S5 as ->.
      * apply Forall2_cons_inv_l in S5 as (k & ks' & Hk & Hks & ->). constructor; [by rewrite Hxy | by apply IH].
  - intros p k Hk. destruct (is_gone _ _ _ _ _ H p k Hk) as [Hp|]; [|by auto]. by apply (an_gone _ _ _ _ _ A).
  - intros v Hv. destruct (an_devices _ _ _ _ _ A v Hv) as [|[Hv' E]]; [by auto|].
    destruct (is_device _ _ _ _ _ H v Hv') as [[]|[|[(p & Hin & Hd)|Hc]]]; [by auto | right; right; left; exists p | right; right; right].
    + split; [|by auto]. rewrite profiles_of_view, E, <- profiles_of_view. done.
    + unfold context_synced. by rewrite E.
  - intros v' ip Hv' Hip. destruct (an_rows _ _ _ _ _ A v' Hv') as (v & Hv & E1 & E2). rewrite <- E1. apply (is_address _ _ _ _ _ H); [done | by rewrite E2].
  - intros ip c Hc. destruct (is_nobody _ _ _ _ _ H ip c Hc) as (v & Hv & Hip). destruct (an_rows_back _ _ _ _ _ A v Hv) as (v' & Hv' & E1 & E2).
    exists v'. split; [done | by rewrite <- E2].
  - intros v c Hc. eapply device_exists_rows; [apply A | by eapply (is_known _ _ _ _ _ H)].
  - rewrite (an_enabled _ _ _ _ _ A). apply H.
  - apply A.
  - destruct (is_default _ _ _ _ _ H) as [|[|[(p & Hin & Hd)|]]]; [by auto | by auto | right; right; left; exists p; by auto | by auto].
  - intros e [He|He]%elem_of_app; [|by apply A]. pose proof (is_queue _ _ _ _ _ H e He) as Hf. destruct e as [[]| |]; try done.
    simpl in *. by eapply device_exists_rows; [apply A|].
Qed.

(** A change of one profile's contents, announced. *)
Record content_of (p : Uuid) (d d' : FilterDb) : Prop := {
  co_exists p' : p' <> p -> profile_exists p' d' = profile_exists p' d;
  co_rows r : r ∈ f_blocklists d' -> row_profile r <> p -> r ∈ f_blocklists d /\ active_domains (row_id r) d' = active_domains (row_id r) d;
  co_lists p' : p' <> p -> blocklists_of p' d' = blocklists_of p' d /\ allowed_of p' d' = allowed_of p' d /\ rules_of p' d' = rules_of p' d;
  co_settings : f_settings d' = f_settings d;
  co_assigned : f_assigned d' = f_assigned d;
  co_devices : f_devices d' = f_devices d;
  co_config : f_config d' = f_config d;
}.

Lemma content_announced p d d' s q e : about_profile e p -> content_of p d d' ->
  List.filter (fun p => profile_exists p d') (mem_defaults s) = fc_default_profile_ids (stored_config d') -> announced d d' s q [e].
Proof.
  intros He C Hdef. assert (Hp : profile_dirty (q ++ [e]) p).
  { unfold profile_dirty. rewrite !elem_of_app, !list_elem_of_singleton. destruct He; naive_solver. }
  assert (Hdev : forall v, device_exists v d' = device_exists v d) by (intros v; unfold device_exists; by rewrite (co_devices _ _ _ C)).
  split.
  - intros r Hr Hen. destruct (decide (row_profile r = p)) as [->|Hne]; [by left|]. right; right.
    destruct (co_rows _ _ _ C r Hr Hne) as [H1 H2]. by exists r.
  - intros p' Hp'. destruct (decide (p' = p)) as [->|Hne]; [by left|]. right. destruct (co_lists _ _ _ C p' Hne) as (E1 & E2 & E3).
    unfold enabled_of. rewrite E1, <- (co_exists _ _ _ C p' Hne). done.
  - intros p' Hp'. destruct (decide (p' = p)) as [->|Hne]; [by right|]. left. by rewrite (co_exists _ _ _ C p' Hne).
  - intros v Hv. right. rewrite <- Hdev. split; [done|]. unfold settings_view, settings_of, profiles_of_device.
    by rewrite (co_settings _ _ _ C), (co_assigned _ _ _ C).
  - rewrite (co_devices _ _ _ C). eauto.
  - rewrite (co_devices _ _ _ C). eauto.
  - unfold stored_config. simpl. by rewrite (co_config _ _ _ C).
  - done.
  - intros x ->%list_elem_of_singleton. by destruct He as [-> | ->].
Qed.

(** The common case: the profiles and the defaults are as they were. *)
Lemma same_defaults d d' s q : in_step d s q -> (forall p, profile_exists p d' = profile_exists p d) -> f_defaults d' = f_defaults d ->
  List.filter (fun p => profile_exists p d') (mem_defaults s) = fc_default_profile_ids (stored_config d').
Proof.
  intros H E1 E2. unfold stored_config. simpl. rewrite E2. rewrite (List.filter_ext _ _ E1). apply (is_defaults _ _ _ _ _ H).
Qed.

(** ** Each change concerns one profile *)

Lemma exists_where id g d : (forall p, pf_id (g p) = pf_id p) -> forall p,
  profile_exists p (set_profiles (where_ (profile_is id) g (f_profiles d)) d) = profile_exists p d.
Proof.
  intros Hg p. unfold profile_exists. simpl. induction (f_profiles d) as [|x l IH]; simpl; [done|]. rewrite IH. f_equal.
  unfold profile_is. destruct (pf_id x =? id); by rewrite ?Hg.
Qed.

Lemma exists_snoc p x d : p <> pf_id x -> profile_exists p (set_profiles (f_profiles d ++ [x]) d) = profile_exists p d.
Proof.
  intros Hne. unfold profile_exists. simpl. rewrite existsb_app. cbn [existsb]. replace (profile_is p x) with false; [by rewrite !orb_false_r|].
  symmetry. apply Z.eqb_neq. congruence.
Qed.

Lemma content_profiles p l d : (forall p', p' <> p -> profile_exists p' (set_profiles l d) = profile_exists p' d) -> content_of p d (set_profiles l d).
Proof. intros H. by split. Qed.

Lemma content_allow_snoc e d : content_of (al_profile_id e) d (set_allowlist (f_allowlist d ++ [e]) d).
Proof.
  split; try done. intros p Hp. split_and!; [done | | done]. unfold allowed_of. simpl.
  rewrite filter_snoc_out; [done|]. by apply Z.eqb_neq.
Qed.

Lemma content_allow_delete p (f : AllowlistEntry -> bool) d : (forall e, e ∈ f_allowlist d -> f e = true -> al_profile_id e = p) ->
  content_of p d (set_allowlist (deleted f (f_allowlist d)) d).
Proof.
  intros Hf. split; try done. intros p' Hp. split_and!; [done | | done]. unfold allowed_of. simpl.
  rewrite filter_deleted; [done|]. intros e He E. apply Z.eqb_neq. rewrite (Hf e He E). congruence.
Qed.

Lemma content_rule_snoc r d : content_of (ru_profile_id r) d (set_custom_rules (f_rules d ++ [r]) d).
Proof.
  split; try done. intros p Hp. split_and!; [done | done|]. unfold rules_of. simpl.
  rewrite filter_snoc_out; [done|]. apply andb_false_iff. left. by apply Z.eqb_neq.
Qed.

Lemma content_rule_delete p (f : CustomFilterRule -> bool) d : (forall r, r ∈ f_rules d -> f r = true -> ru_profile_id r = p) ->
  content_of p d (set_custom_rules (deleted f (f_rules d)) d).
Proof.
  intros Hf. split; try done. intros p' Hp. split_and!; [done | done|]. unfold rules_of. simpl.
  rewrite filter_deleted; [done|]. intros r Hr E. apply andb_false_iff. left. apply Z.eqb_neq. rewrite (Hf r Hr E). congruence.
Qed.

Lemma content_rule_where p f g d : (forall r, r ∈ f_rules d -> f r = true -> ru_profile_id r = p) -> (forall r, ru_profile_id (g r) = ru_profile_id r) ->
  content_of p d (set_custom_rules (where_ f g (f_rules d)) d).
Proof.
  intros Hf Hg. split; try done. intros p' Hp. split_and!; [done | done|]. unfold rules_of. simpl. f_equal. apply filter_where.
  intros r Hr E. rewrite Hg. assert (Hne : (ru_profile_id r =? p') = false) by (apply Z.eqb_neq; rewrite (Hf r Hr E); congruence).
  by rewrite Hne.
Qed.

(** Domains of blocklists that stay are looked up as before. *)
Lemma active_same d d' r : NoDup (row_id <$> f_blocklists d) -> NoDup (row_id <$> f_blocklists d') -> r ∈ f_blocklists d -> r ∈ f_blocklists d' ->
  List.filter (active_row r) (f_domains d') = List.filter (active_row r) (f_domains d) -> active_domains (row_id r) d' = active_domains (row_id r) d.
Proof.
  intros H1 H2 Hr Hr' E. assert (Hf : forall x, NoDup (row_id <$> f_blocklists x) -> r ∈ f_blocklists x -> List.find (row_is (row_id r)) (f_blocklists x) = Some r).
  { intros x Hx Hin. destruct (List.find _ _) as [y|] eqn:Ey.
    - apply find_Some_elem in Ey as [Hy Eid]. unfold row_is in Eid. breflect. f_equal. by apply (NoDup_fmap_elem_inj row_id (f_blocklists x)).
    - apply (find_None_elem _ _ r) in Ey; [|done]. unfold row_is in Ey. by breflect. }
  unfold active_domains. by rewrite (Hf d H1 Hr), (Hf d' H2 Hr'), E.
Qed.

Lemma content_blocklist_snoc b d : NoDup (row_id <$> f_blocklists d) -> NoDup (row_id <$> (f_blocklists d ++ [b])) ->
  content_of (row_profile b) d (set_blocklists (f_blocklists d ++ [b]) d).
Proof.
  intros H1 H2. split; try done.
  - intros r [Hr|Hr%list_elem_of_singleton]%elem_of_app Hne; [|by subst r]. split; [done|].
    apply active_same; try done. simpl. apply elem_of_app. by left.
  - intros p Hp. split_and!; [|done|done]. unfold blocklists_of. simpl. rewrite filter_snoc_out; [done|]. by apply Z.eqb_neq.
Qed.

Lemma content_blocklist_where id g d : NoDup (row_id <$> f_blocklists d) ->
  (forall b, row_id (g b) = row_id b /\ row_profile (g b) = row_profile b) -> forall p,
  (forall b, b ∈ f_blocklists d -> row_is id b = true -> row_profile b = p) ->
  content_of p d (set_blocklists (where_ (row_is id) g (f_blocklists d)) d).
Proof.
  intros H1 Hg p Hp. assert (H2 : NoDup (row_id <$> where_ (row_is id) g (f_blocklists d))) by (by rewrite where_ids; [|apply Hg]).
  split; try done.
  - intros r Hr Hne. pose proof Hr as Hr2. simpl in Hr. apply elem_of_where in Hr as (b & Hb & E). destruct (row_is id b) eqn:Eb.
    + destruct Hne. rewrite E. destruct (Hg b) as [_ ->]. by apply Hp.
    + subst b. split; [done|]. by apply active_same.
  - intros p' Hne. split_and!; [|done|done]. unfold blocklists_of. simpl. f_equal. apply filter_where. intros b Hb Eb.
    specialize (Hp b Hb Eb). unfold in_profile. fold (row_profile b) (row_profile (g b)). destruct (Hg b) as [_ ->].
    split; apply Z.eqb_neq; congruence.
Qed.

Lemma content_drop_blocklists gone p d : NoDup (row_id <$> f_blocklists d) -> (forall b, b ∈ f_blocklists d -> gone b = true -> row_profile b = p) ->
  content_of p d (drop_blocklists gone d).
Proof.
  intros H1 Hp. split; try done.
  - intros r Hr Hne. pose proof Hr as Hr2. simpl in Hr. apply elem_of_deleted in Hr as [Hg Hr]. split; [done|].
    apply active_same; [done | by apply deleted_ids | done | done|]. simpl. apply filter_deleted. intros x _ (b & Hb & E)%existsb_elem.
    apply andb_true_iff in E as [E1 E2]. breflect. unfold active_row. apply andb_false_iff. left. apply Z.eqb_neq. intros E3.
    assert (b = r) as ->; [|congruence]. apply (NoDup_fmap_elem_inj row_id (f_blocklists d)); [done..|]. unfold row_id. congruence.
  - intros p' Hne. split_and!; [|done|done]. unfold blocklists_of. simpl. f_equal. apply filter_deleted. intros b Hb Eb.
    unfold in_profile. fold (row_profile b). apply Z.eqb_neq. rewrite (Hp b Hb Eb). congruence.
Qed.

(** Draining the domains of the profile's blocklists. *)
Lemma content_set_domains p l d : NoDup (row_id <$> f_blocklists d) ->
  (forall r, r ∈ f_blocklists d -> row_profile r <> p -> List.filter (active_row r) l = List.filter (active_row r) (f_domains d)) ->
  content_of p d (set_domains l d).
Proof.
  intros H1 Hl. split; try done. intros r Hr Hne. split; [done|]. apply active_same; [done..|]. by apply Hl.
Qed.

Lemma content_trans p d1 d2 d3 : content_of p d1 d2 -> content_of p d2 d3 -> content_of p d1 d3.
Proof.
  intros A B. split.
  - intros p' Hp. by rewrite (co_exists _ _ _ B), (co_exists _ _ _ A).
  - intros r Hr Hne. destruct (co_rows _ _ _ B r Hr Hne) as [H1 E1]. destruct (co_rows _ _ _ A r H1 Hne) as [H2 E2]. split; [done | by rewrite E1].
  - intros p' Hp. destruct (co_lists _ _ _ B p' Hp) as (-> & -> & ->). by apply (co_lists _ _ _ A).
  - by rewrite (co_settings _ _ _ B), (co_settings _ _ _ A).
  - by rewrite (co_assigned _ _ _ B), (co_assigned _ _ _ A).
  - by rewrite (co_devices _ _ _ B), (co_devices _ _ _ A).
  - by rewrite (co_config _ _ _ B), (co_config _ _ _ A).
Qed.

Lemma content_refl p d : content_of p d d.
Proof. by split. Qed.

Lemma content_drop_profile p d : NoDup (row_id <$> f_blocklists d) -> (forall r, r ∈ f_assigned d -> dp_profile_id r <> p) ->
  content_of p d (drop_profile p d).
Proof.
  intros H1 Hp. eapply content_trans; [apply (content_drop_blocklists (in_profile p) p); [done|]|].
  { intros b _ E. unfold in_profile in E. by breflect. }
  split; try done; simpl.
  - intros p' Hne. unfold profile_exists. simpl. induction (f_profiles d) as [|x l IH]; [done|]. unfold deleted in *. simpl.
    destruct (profile_is p x) eqn:E; simpl; rewrite IH; [|done]. unfold profile_is in *. breflect. by rewrite (proj2 (Z.eqb_neq _ _)); [|congruence].
  - intros p' Hne. split_and!; [done | |].
    + unfold allowed_of. simpl. rewrite filter_deleted; [done|]. intros e _ E. breflect. apply Z.eqb_neq. congruence.
    + unfold rules_of. simpl. rewrite filter_deleted; [done|]. intros r _ E. breflect. apply andb_false_iff. left. apply Z.eqb_neq. congruence.
  - unfold deleted. apply filter_all. intros r Hr. apply negb_true_iff, Z.eqb_neq. by apply Hp.
Qed.

(** ** Default profiles keep their order *)

Definition canonical_defaults (d : FilterDb) : Prop :=
  (forall r r', r ∈ f_defaults d -> r' ∈ f_defaults d -> df_created_at r = df_created_at r')
  /\ ascending Z.compare (df_profile_id <$> f_defaults d).

Lemma sort_ascending_id {A} (cmp : A -> A -> comparison) l : ascending cmp l -> sort_by cmp l = l.
Proof. induction l as [|x l IH]; [done|]. intros [Hx Hl]. simpl. rewrite (IH Hl). by apply insert_front. Qed.

Lemma canonical_sorted d : canonical_defaults d -> sort_by by_default_row (f_defaults d) = f_defaults d.
Proof.
  intros [Hc Ha]. apply sort_ascending_id. revert Hc Ha. generalize (f_defaults d). intros l. induction l as [|x l IH]; [done|].
  intros Hc [Hx Hl]. simpl. split.
  - intros y Hy. unfold by_default_row. rewrite (Hc x y) by set_solver. rewrite Z.compare_refl. simpl. apply Hx. by apply list_elem_of_fmap_2.
  - apply IH; [|done]. intros r r' Hr Hr'. apply Hc; by right.
Qed.

Lemma ascending_deleted (f : DefaultProfileRow -> bool) l : ascending Z.compare (df_profile_id <$> l) -> ascending Z.compare (df_profile_id <$> deleted f l).
Proof.
  induction l as [|x l IH]; [done|]. intros [Hx Hl]. unfold deleted in *. simpl. destruct (f x); simpl; [by apply IH|]. split; [|by apply IH].
  intros y (r & -> & [_ Hr]%elem_of_deleted)%list_elem_of_fmap. apply Hx. by apply list_elem_of_fmap_2.
Qed.

Lemma canonical_drop p d : canonical_defaults d -> canonical_defaults (drop_profile p d).
Proof.
  intros [Hc Ha]. split; simpl; [|by apply ascending_deleted]. intros r r' [_ Hr]%elem_of_deleted [_ Hr']%elem_of_deleted. by apply Hc.
Qed.

(** ** Runs on storage that answers *)

Record Now : Type := { nw_db : FilterDb; nw_mem : FilterMem; nw_events : list FilterEvent; nw_faults : list (option str) }.
#[export] Instance now_view : View Filters Now :=
  {| view := fun w => {| nw_db := fl_db w; nw_mem := fl_mem w; nw_events := fl_events w; nw_faults := fl_faults w |} |}.
Definition now_at (d : FilterDb) (s : FilterMem) (q : list FilterEvent) : Now :=
  {| nw_db := d; nw_mem := s; nw_events := q; nw_faults := [] |}.

Lemma wp_now_stmt {X} (f : Z -> FilterDb -> result X str * FilterDb) (Q : result X str -> Now -> Prop) d s q :
  (forall now, Q (fst (f now d)) (now_at (snd (f now d)) s q)) -> wp (fstmt f) Q (now_at d s q).
Proof.
  intros H w Hw. unfold fstmt. injection Hw as H1 H2 H3 H4. rewrite H4, H1. specialize (H (fl_now w)).
  destruct (f _ _) as [r d']. simpl in *. by rewrite H2, H3.
Qed.

Lemma wp_now_stored {X} (m : ST Filters str X) (Q : result X AppError -> Now -> Prop) v :
  wp m (fun r => Q (match r with Ok a => Ok a | Err e => Err (Internal e) end)) v -> wp (stored m) Q v.
Proof. intros Hm w Hw. specialize (Hm w Hw). unfold stored. by destruct (m w) as [[]]. Qed.

Lemma wp_now_read {X Y} (f : FilterDb -> X) (k : X -> ST Filters AppError Y) Q d s q :
  wp (k (f d)) Q (now_at d s q) -> wp (stored (fselect f) ≫= k) Q (now_at d s q).
Proof. intros H. apply wp_bind, wp_now_stored, wp_now_stmt. intros now. exact H. Qed.

Lemma wp_now_publish c d s q (Q : result unit AppError -> Now -> Prop) :
  Q (Ok tt) (now_at d s (q ++ [DnsFilterChanged c])) -> wp (publish_change c) Q (now_at d s q).
Proof. intros H w Hw. injection Hw as H1 H2 H3 H4. simpl. by rewrite H1, H2, H3, H4. Qed.

Lemma wp_now_mem f d s q (Q : result unit AppError -> Now -> Prop) :
  Q (Ok tt) (now_at d (f s) q) -> wp (on_mem f) Q (now_at d s q).
Proof. intros H w Hw. injection Hw as H1 H2 H3 H4. simpl. by rewrite H1, H2, H3, H4. Qed.

Lemma wp_now_from {X} (f : FilterMem -> X) d s q (Q : result X AppError -> Now -> Prop) :
  Q (Ok (f s)) (now_at d s q) -> wp (from_mem f) Q (now_at d s q).
Proof. intros H w Hw. injection Hw as H1 H2 H3 H4. simpl. by rewrite H1, H2, H3, H4. Qed.

Lemma wp_now_or_else {X} (m : ST Filters AppError X) x (Q : result X AppError -> Now -> Prop) v :
  wp m (fun r => Q (match r with Ok a => Ok a | Err _ => Ok x end)) v -> wp (or_else m x) Q v.
Proof. intros Hm w Hw. specialize (Hm w Hw). unfold or_else. by destruct (m w) as [[]]. Qed.

Lemma wp_now_gets {X E} (f : Filters -> X) d s q (Q : result X E -> Now -> Prop) :
  (forall x, Q (Ok x) (now_at d s q)) -> wp (st_gets f) Q (now_at d s q).
Proof. intros H w Hw. specialize (H (f w)). rewrite <- Hw in H. exact H. Qed.

(** ** Draining *)

Lemma set_domains_id d : set_domains (f_domains d) d = d.
Proof. by destruct d. Qed.

Lemma delete_first_none {A} n (f : A -> bool) (l : list A) : List.filter f l = [] -> delete_first n f l = l.
Proof.
  revert n. induction l as [|x l IH]; intros [|n]; simpl; [done..|]. destruct (f x); [done|]. intros E. by rewrite IH.
Qed.

Lemma deleted_delete_first {A} n (f : A -> bool) (l : list A) : deleted f (delete_first n f l) = deleted f l.
Proof.
  unfold deleted. revert n. induction l as [|x l IH]; intros [|n]; simpl; [done..|]. destruct (f x) eqn:E; simpl; [apply IH|]. rewrite E. simpl. by rewrite IH.
Qed.

Lemma deleted_none {A} (f : A -> bool) (l : list A) : List.filter f l = [] -> deleted f l = l.
Proof.
  intros E. apply filter_all. intros x Hx. destruct (f x) eqn:Ex; [|done]. exfalso.
  assert (Hin : x ∈ List.filter f l) by (apply list_elem_of_In, filter_In; split; [by apply list_elem_of_In | done]).
  rewrite E in Hin. by apply elem_of_nil in Hin.
Qed.

Lemma wp_now_delete_loop fuel f removed d s q (Q : result Z str -> Now -> Prop) : (length (List.filter f (f_domains d)) < fuel)%nat ->
  (forall n, Q (Ok n) (now_at (set_domains (deleted f (f_domains d)) d) s q)) -> wp (delete_loop fuel f removed) Q (now_at d s q).
Proof.
  revert removed d. induction fuel as [|fuel IH]; intros removed d Hl HQ; [lia|]. simpl. apply wp_bind, wp_now_stmt. intros _. cbn [fst snd].
  destruct (List.filter f (f_domains d)) as [|r rs] eqn:E.
  - unfold count. rewrite E. simpl. apply wp_ret. rewrite (delete_first_none _ f _ E), <- (deleted_none f _ E) at 1. apply HQ.
  - assert (Hn : (Z.min (Z.of_nat DELETE_BATCH_ROWS) (count f (f_domains d)) =? 0) = false).
    { apply Z.eqb_neq. unfold count. rewrite E. simpl length. unfold DELETE_BATCH_ROWS. lia. }
    rewrite Hn. apply IH.
    + change (f_domains (set_domains ?l d)) with l. rewrite length_filter_delete_first, E. simpl length in *. unfold DELETE_BATCH_ROWS. lia.
    + intros n. change (f_domains (set_domains ?l d)) with l. rewrite deleted_delete_first. apply HQ.
Qed.

Lemma wp_now_delete_domains id scope d s q (Q : result Z str -> Now -> Prop) :
  (forall n, Q (Ok n) (now_at (set_domains (deleted (in_scope id scope) (f_domains d)) d) s q)) ->
  wp (delete_domains_in_batches id scope) Q (now_at d s q).
Proof.
  intros HQ w Hw. apply (wp_now_delete_loop (S (length (f_domains (fl_db w)))) (in_scope id scope) 0 d s q Q); [|done|done].
  injection Hw as <- _ _ _. pose proof (List.filter_length_le (in_scope id scope) (f_domains (fl_db w))). lia.
Qed.

Lemma in_scope_other id scope r x : row_id r <> id -> in_scope id scope x = true -> active_row r x = false.
Proof. unfold in_scope, active_row. intros Hne [E _]%andb_true_iff. breflect. apply andb_false_iff. left. apply Z.eqb_neq. unfold row_id in Hne. congruence. Qed.

Lemma wp_now_drain ids removed d s q (Q : result Z str -> Now -> Prop) :
  (forall n l, (forall r, row_id r ∉ ids -> List.filter (active_row r) l = List.filter (active_row r) (f_domains d)) ->
    Q (Ok n) (now_at (set_domains l d) s q)) -> wp (drain ids removed) Q (now_at d s q).
Proof.
  revert removed d. induction ids as [|b ids IH]; intros removed d HQ; simpl.
  - apply wp_ret. rewrite <- (set_domains_id d). by apply HQ.
  - apply wp_bind, wp_now_delete_domains. intros n. apply IH. intros k l Hl. apply (HQ k l). intros r Hr. rewrite (Hl r) by set_solver. simpl.
    apply filter_deleted. intros x _. apply in_scope_other. set_solver.
Qed.

Lemma wp_now_drain_passes n id d s q (Q : result unit str -> Now -> Prop) :
  (forall l, (forall r, r ∈ f_blocklists d -> row_profile r <> id -> NoDup (row_id <$> f_blocklists d) ->
     List.filter (active_row r) l = List.filter (active_row r) (f_domains d)) ->
    Q (Ok tt) (now_at (set_domains l d) s q)) -> wp (drain_passes n id) Q (now_at d s q).
Proof.
  revert d. induction n as [|n IH]; intros d HQ; simpl.
  { apply wp_ret. rewrite <- (set_domains_id d). by apply HQ. }
  apply wp_bind, wp_now_stmt. intros _. cbn [fst snd]. apply wp_bind, wp_now_drain. intros k l Hl.
  assert (Hkeep : forall r, r ∈ f_blocklists d -> row_profile r <> id -> NoDup (row_id <$> f_blocklists d) ->
    List.filter (active_row r) l = List.filter (active_row r) (f_domains d)).
  { intros r Hr Hp Hn. apply Hl. intros (b & E & Hb)%list_elem_of_fmap. apply list_elem_of_In, filter_In in Hb as [Hb Eb].
    apply list_elem_of_In in Hb. apply Hp. assert (r = b) as ->; [by apply (NoDup_fmap_elem_inj row_id (f_blocklists d))|].
    unfold in_profile in Eb. by breflect. }
  destruct (k =? 0); [apply wp_ret; by apply HQ|]. apply IH. intros l' Hl'. apply (HQ l'). intros r Hr Hp Hn.
  rewrite (Hl' r Hr Hp Hn). by apply Hkeep.
Qed.

End serve.
