(* ===== verification/FilterCalls.v ===== *)
(** * Calls keep the cache in step

    With storage that answers, every management call and every import leaves the
    compiled cache in step with the tables or queues the event that brings it there. *)

From S2P Require Import Prelude RustStr Net Auth FilterParser DnsFilter PolicyRouter RoutingTypes ZoneTypes PolicyDb.
From S2P Require Import Tables FilterTypes FilterRepo FilterAdmin FilterLaws FilterImport FilterSync FilterFollow FilterServe.

Section serve.
Context {CL : CronLib} {RL : RegexLib} {TL : RecordTypeLib} {NL : IpNetworkLib} {U : UuidText}.

Lemma count_pos {A} (f : A -> bool) l x : x ∈ l -> f x = true -> (0 <? count f l) = true.
Proof.
  intros Hx E. apply Z.ltb_lt. unfold count. assert (Hin : x ∈ List.filter f l) by (apply list_elem_of_In, filter_In; split; [by apply list_elem_of_In | done]).
  destruct (List.filter f l); [by apply elem_of_nil in Hin | simpl; lia].
Qed.

Lemma Forall2_in_r {A B} (P : A -> B -> Prop) l l' y : Forall2 P l l' -> y ∈ l' -> exists x, x ∈ l /\ P x y.
Proof.
  intros F (i & Hi)%list_elem_of_lookup. destruct (Forall2_lookup_r _ _ _ _ _ F Hi) as (x & Hx & HP). exists x. split; [|done]. by eapply list_elem_of_lookup_2.
Qed.
Lemma Forall2_in_l {A B} (P : A -> B -> Prop) l l' x : Forall2 P l l' -> x ∈ l -> exists y, y ∈ l' /\ P x y.
Proof.
  intros F (i & Hi)%list_elem_of_lookup. destruct (Forall2_lookup_l _ _ _ _ _ F Hi) as (y & Hy & HP). exists y. split; [|done]. by eapply list_elem_of_lookup_2.
Qed.

Lemma count_none {A} (f : A -> bool) l : (0 <? count f l) = false -> deleted f l = l.
Proof.
  intros E. apply Z.ltb_ge in E. unfold count in E. unfold deleted. apply filter_all. intros x Hx. apply negb_true_iff, not_true_iff_false. intros Ex.
  pose proof (count_pos f l x Hx Ex) as Hp. apply Z.ltb_lt in Hp. unfold count in Hp. lia.
Qed.

(** Everything a call must leave as it is. *)
Definition good (v : Now) : Prop :=
  nw_faults v = [] /\ in_step (nw_db v) (nw_mem v) (nw_events v) /\ unique_devices (nw_db v) /\ canonical_defaults (nw_db v).

Lemma wp_check {X Y} (r : result X AppError) (k : X -> ST Filters AppError Y) v : good v -> (forall a, r = Ok a -> wp (k a) (fun _ => good) v) ->
  wp (st_lift r ≫= k) (fun _ => good) v.
Proof. intros Hv H. apply wp_bind, wp_lift. destruct r; [by apply H | done]. Qed.

(** The outcome of a statement that may violate a constraint. *)
Ltac outcome E := lazymatch goal with
  | |- context [fst (if ?b then _ else _)] => destruct b eqn:E
  | |- context [fst (match ?x with _ => _ end)] => destruct x eqn:E
  end; cbn [fst snd].

Section call.
Context {d : FilterDb} {s : FilterMem} {q : list FilterEvent}.
Hypothesis ok : filter_ok d.
Hypothesis start : good (now_at d s q).
Abbreviation leaves m := (wp m (fun _ => good) (now_at d s q)).
Let rows_ok : NoDup (row_id <$> f_blocklists d) := ky_ids (fo_blocklists _ ok).
Let H : in_step d s q := proj1 (proj2 start).
Let Hu : unique_devices d := proj1 (proj2 (proj2 start)).
Let Hc : canonical_defaults d := proj2 (proj2 (proj2 start)).

Lemma wp_profile_found {Y} id (k : DnsFilterProfile -> ST Filters AppError Y) :
  (forall p, List.find (profile_is id) (f_profiles d) = Some p -> leaves (k p)) -> leaves (ensure_profile_exists id ≫= k).
Proof.
  intros Hk. unfold ensure_profile_exists. apply wp_bind, wp_now_read, wp_lift.
  destruct (List.find _ _) as [p|] eqn:E; simpl; [by apply Hk | done].
Qed.

Lemma wp_blocklist_found {Y} p id (k : Blocklist -> ST Filters AppError Y) :
  (forall r, List.find (row_is id) (f_blocklists d) = Some r -> row_profile r = p -> leaves (k (into_blocklist r))) ->
  leaves (ensure_blocklist_in_profile p id ≫= k).
Proof.
  intros Hk. unfold ensure_blocklist_in_profile. apply wp_bind, wp_now_read, wp_bind, wp_lift.
  destruct (List.find _ _) as [r|] eqn:E; simpl; [|done]. destruct (bl_profile_id _ =? p) eqn:Ep; simpl; [|by apply wp_fail].
  apply wp_ret. apply Hk; [done|]. by breflect.
Qed.

Lemma wp_rule_found {Y} p id (k : CustomFilterRule -> ST Filters AppError Y) :
  (forall r, List.find (fun x => ru_id x =? id) (f_rules d) = Some r -> ru_profile_id r = p -> leaves (k r)) ->
  leaves (ensure_rule_in_profile p id ≫= k).
Proof.
  intros Hk. unfold ensure_rule_in_profile. apply wp_bind, wp_now_read, wp_bind, wp_lift.
  destruct (List.find _ _) as [r|] eqn:E; simpl; [|done]. destruct (ru_profile_id _ =? p) eqn:Ep; simpl; [|by apply wp_fail].
  apply wp_ret. apply Hk; [done|]. by breflect.
Qed.

(** A change of one profile, announced. *)
Lemma good_content p d' e : about_profile e p -> content_of p d d' ->
  List.filter (fun p => profile_exists p d') (mem_defaults s) = fc_default_profile_ids (stored_config d') -> canonical_defaults d' ->
  good (now_at d' s (q ++ [e])).
Proof.
  intros He C Hdef Hcan. split_and!; [done | | |done].
  - simpl. eapply announced_in_step; [by eapply content_announced | exact H].
  - unfold unique_devices. simpl. rewrite (co_devices _ _ _ C). exact Hu.
Qed.

(** The same, with the profiles and the defaults untouched. *)
Lemma good_same_profiles p d' : content_of p d d' -> (forall x, profile_exists x d' = profile_exists x d) -> f_defaults d' = f_defaults d ->
  good (now_at d' s (q ++ [DnsFilterChanged (ProfileContent p)])).
Proof.
  intros C E1 E2. eapply good_content; [by left | exact C | by eapply same_defaults|].
  unfold canonical_defaults. rewrite E2. exact Hc.
Qed.

Lemma call_create_profile ctx id req : id ∉ mem_defaults s -> leaves (create_profile ctx id req).
Proof.
  intros Hm. apply wp_check; [done|]. intros _ _. apply wp_check; [done|]. intros _ _. apply wp_check; [done|]. intros _ _.
  apply wp_bind, wp_now_stored, wp_now_stmt. intros now. cbv zeta. outcome E; [done|].
  apply wp_bind, wp_now_publish, wp_ret. 
  apply (good_content id); [by right | | | exact Hc].
  - apply content_profiles. intros p' Hne. by apply exists_snoc.
  - transitivity (fc_default_profile_ids (stored_config d)); [|done]. rewrite <- (is_defaults _ _ _ _ _ H). apply List.filter_ext_in. intros p Hp%list_elem_of_In.
    apply exists_snoc. simpl. congruence.
Qed.

Lemma call_update_profile ctx id req : leaves (update_profile ctx id req).
Proof.
  apply wp_check; [done|]. intros _ _. apply wp_profile_found. intros p Hp. destruct (pf_builtin p); [by apply wp_fail|].
  apply wp_check; [done|]. intros _ _. apply wp_check; [done|]. intros _ _.
  assert (Htail : forall d', (forall x, profile_exists x d' = profile_exists x d) -> content_of id d d' -> f_defaults d' = f_defaults d ->
    wp (profile ← or_else (ensure_profile_exists id) p; _ ← publish_change (ProfileMembership id); mret profile) (fun _ => good) (now_at d' s q)).
  { intros d' E1 C E2. apply wp_bind, wp_now_or_else. unfold ensure_profile_exists. apply wp_now_read, wp_lift.
    assert (Hgood : good (now_at d' s (q ++ [DnsFilterChanged (ProfileMembership id)]))).
    { eapply good_content; [by right | exact C | by eapply same_defaults|]. unfold canonical_defaults. by rewrite E2. }
    destruct (List.find (profile_is id) (f_profiles d')); simpl; apply wp_bind, wp_now_publish, wp_ret; exact Hgood. }
  apply wp_bind, wp_now_stored. unfold repo_update_profile_fields. 
  destruct (up_name req) as [n|], (up_description req) as [t|]; try (apply wp_ret; apply Htail; [done | apply content_refl | done]).
  all: apply wp_now_stmt; intros now; outcome E; [done|]; apply Htail; [by apply exists_where | | done];
    apply content_profiles; intros p' _; by apply exists_where.
Qed.

(** Nobody has the profile assigned: the filters of a device that has would not be rebuilt. *)
Lemma call_delete_profile ctx id : (forall r, r ∈ f_assigned d -> dp_profile_id r <> id) -> leaves (delete_profile ctx id).
Proof.
  intros Hfree. apply wp_check; [done|]. intros _ _. apply wp_profile_found. intros p Hp. destruct (pf_builtin p); [by apply wp_fail|].
  apply wp_bind, wp_now_stored. unfold repo_delete_profile. apply wp_bind, wp_now_stmt. intros _. cbn [fst snd].
  destruct (List.find (deletable id) (f_profiles d)) as [x|] eqn:Ex; [|apply wp_ret; by apply wp_fail].
  apply wp_bind, wp_now_drain_passes. intros l Hl. apply wp_now_stmt. intros _. outcome E.
  2: { exfalso. apply find_Some_elem in Ex as [Hx1 Hx2]. apply (existsb_none _ _ x) in E; [|done]. congruence. }
  simpl. apply wp_now_publish. set (d1 := set_domains l d).
  assert (C : content_of id d (drop_profile id d1)).
  { eapply content_trans; [apply (content_set_domains id l); [done|]; intros; by apply Hl|]. by apply content_drop_profile. }
  eapply good_content; [by right | exact C | | by apply (canonical_drop id d1)].
  assert (Es : fc_default_profile_ids (stored_config (drop_profile id d1)) = df_profile_id <$> deleted (fun r => df_profile_id r =? id) (f_defaults d)).
  { unfold stored_config. simpl fc_default_profile_ids. f_equal. exact (canonical_sorted (drop_profile id d1) (canonical_drop id d1 Hc)). }
  rewrite Es.
  simpl. transitivity (List.filter (fun p => negb (p =? id)) (List.filter (fun p => profile_exists p d) (mem_defaults s))).
  - rewrite filter_and. apply List.filter_ext. intros p'. destruct (decide (p' = id)) as [->|Hne].
    + rewrite Z.eqb_refl. simpl. apply not_true_iff_false. intros (y & Hy & Ey)%existsb_elem. simpl in Hy. apply elem_of_deleted in Hy as [Hy _]. congruence.
    + rewrite (co_exists _ _ _ C) by done. by rewrite (proj2 (Z.eqb_neq _ _)).
  - rewrite (is_defaults _ _ _ _ _ H). unfold stored_config. simpl. rewrite (canonical_sorted d Hc). unfold deleted.
    rewrite filter_map. done.
Qed.

Lemma exists_ext (d1 d2 : FilterDb) : f_profiles d1 = f_profiles d2 -> forall x, profile_exists x d1 = profile_exists x d2.
Proof. intros E x. unfold profile_exists. by rewrite E. Qed.

Lemma call_create_blocklist ctx p id req : leaves (create_blocklist ctx p id req).
Proof.
  apply wp_check; [done|]. intros _ _. apply wp_profile_found. intros pf Hp. apply wp_check; [done|]. intros [] Hurl. apply wp_check; [done|]. intros [] Hcron.
  apply wp_bind, wp_now_stored, wp_now_stmt. intros now. cbv zeta. outcome E1; [done|]. outcome E2; [done|].
  apply wp_now_read. set (b := {| db_blocklist := _; db_active_generation := 0 |}). set (d' := set_blocklists (f_blocklists d ++ [b]) d).
  assert (Hok' : filter_ok d'). { apply ok_create_blocklist; [exact E1 | by apply negb_false_iff | done | done]. }
  apply wp_bind, wp_lift. destruct (List.find (row_is id) (f_blocklists d')) as [x|] eqn:Ef; simpl.
  2: { apply (find_None_elem _ _ b) in Ef; [|simpl; set_solver]. unfold row_is in Ef. simpl in Ef. by rewrite Z.eqb_refl in Ef. }
  apply wp_bind, wp_now_publish, wp_ret. apply good_same_profiles; [|by apply exists_ext|done].
  apply (content_blocklist_snoc b); [done | apply (ky_ids (fo_blocklists _ Hok'))].
Qed.

Lemma row_profile_only id r p : List.find (row_is id) (f_blocklists d) = Some r -> row_profile r = p ->
  forall b, b ∈ f_blocklists d -> row_is id b = true -> row_profile b = p.
Proof.
  intros [Hr Er]%find_Some_elem Hp b Hb Eb. assert (b = r) as ->; [|done].
  apply (NoDup_fmap_elem_inj row_id (f_blocklists d)); [done..|]. unfold row_is in *. breflect. unfold row_id. congruence.
Qed.

Lemma call_update_blocklist ctx p id u : leaves (update_blocklist ctx p id u).
Proof.
  apply wp_check; [done|]. intros _ _. apply wp_blocklist_found. intros r Hr Hp. apply wp_check; [done|]. intros [] Hurl. apply wp_check; [done|]. intros [] Hcron.
  assert (Htail : forall d', content_of p d d' -> (forall x, profile_exists x d' = profile_exists x d) -> f_defaults d' = f_defaults d ->
    is_Some (List.find (row_is id) (f_blocklists d')) ->
    wp (bl ← stored (repo_get_blocklist id); blocklist ← st_lift (ok_or bl (not_after "blocklist not found after update"));
        _ ← publish_change (ProfileContent p); mret blocklist) (fun _ => good) (now_at d' s q)).
  { intros d' C E1 E2 [x Hx]. apply wp_now_read. rewrite Hx. apply wp_bind, wp_lift. simpl. apply wp_bind, wp_now_publish, wp_ret.
    by apply good_same_profiles. }
  assert (Hstmt : forall now, feed_taken id (bu_url u) d = false ->
    wp (bl ← stored (repo_get_blocklist id); blocklist ← st_lift (ok_or bl (not_after "blocklist not found after update"));
        _ ← publish_change (ProfileContent p); mret blocklist) (fun _ => good)
      (now_at (set_blocklists (where_ (row_is id) (with_blocklist_update u now) (f_blocklists d)) d) s q)).
  { intros now _. apply Htail; [|by apply exists_ext | done|].
    - apply content_blocklist_where; [done | done|]. by eapply row_profile_only.
    - simpl. rewrite (find_where_self id (with_blocklist_update u now) _ r (fun _ => eq_refl) Hr). done. }
  apply wp_bind, wp_now_stored. unfold repo_update_blocklist.
  destruct u as [[n|] [url|] [en|] [cron|]] eqn:Eu.
  16: { apply wp_ret. apply Htail; [apply content_refl | done | done | by rewrite Hr]. }
  all: apply wp_now_stmt; intros now; outcome E; [done|]; by apply Hstmt.
Qed.

Lemma call_delete_blocklist ctx p id : leaves (delete_blocklist ctx p id).
Proof.
  apply wp_check; [done|]. intros _ _. apply wp_blocklist_found. intros r Hr Hp. apply wp_bind, wp_now_stored. unfold repo_delete_blocklist.
  apply wp_bind, wp_now_delete_domains. intros n. apply wp_now_stmt. intros _. cbn [fst snd].
  set (d1 := set_domains _ d). assert (C : content_of p d (drop_blocklists (row_is id) d1)).
  { pose proof (row_profile_only id r p Hr Hp) as Hrow. eapply content_trans; [apply (content_set_domains p); [done|]|].
    - intros b Hb Hne. apply filter_deleted. intros x _. apply in_scope_other. intros E. apply Hne, Hrow; [done|]. unfold row_is. by apply Z.eqb_eq.
    - by apply content_drop_blocklists. }
  simpl. replace (0 <? count (row_is id) (f_blocklists d)) with true.
  2: { symmetry. apply find_Some_elem in Hr as [Hr Er]. by apply (count_pos _ _ r). }
  simpl. apply wp_now_publish. apply good_same_profiles; [exact C | by apply exists_ext | done].
Qed.


Lemma find_snoc_self {A} (f : A -> bool) l x : f x = true -> is_Some (List.find f (l ++ [x])).
Proof. intros Hx. destruct (List.find f (l ++ [x])) eqn:E; [done|]. apply (find_None_elem _ _ x) in E; [congruence | set_solver]. Qed.

Lemma call_create_allowed ctx p id req : leaves (create_allowlist_entry ctx p id req).
Proof.
  apply wp_check; [done|]. intros _ _. apply wp_profile_found. intros pf Hp. apply wp_check; [done|]. intros [] Hd.
  apply wp_bind, wp_now_stored, wp_now_stmt. intros now. cbv zeta. outcome E1; [done|]. outcome E2; [done|].
  apply wp_now_read. set (e := {| al_id := id; al_profile_id := p; al_domain := _; al_reason := _; al_created_at := now |}).
  apply wp_bind, wp_lift. destruct (List.find (fun e => al_id e =? id) _) as [x|] eqn:Ef; simpl.
  2: { apply (find_None_elem _ _ e) in Ef; [simpl in Ef; by rewrite Z.eqb_refl in Ef|]. apply elem_of_sort_by, list_elem_of_In, filter_In.
       split; [apply list_elem_of_In; simpl; set_solver | apply Z.eqb_refl]. }
  apply wp_bind, wp_now_publish, wp_ret. apply good_same_profiles; [|by apply exists_ext|done]. apply (content_allow_snoc e).
Qed.

(** The entry is the named profile's: only that profile is rebuilt. *)
Lemma call_delete_allowed ctx p id : (forall e, e ∈ f_allowlist d -> al_id e = id -> al_profile_id e = p) -> leaves (delete_allowlist_entry ctx p id).
Proof.
  intros Hmine. apply wp_check; [done|]. intros _ _. apply wp_profile_found. intros pf Hp.
  apply wp_bind, wp_now_stored, wp_now_stmt. intros now. cbn [fst snd]. destruct (0 <? count _ _) eqn:E; simpl.
  - apply wp_now_publish. apply good_same_profiles; [|by apply exists_ext|done]. apply content_allow_delete.
    intros e He Ee. breflect. by apply Hmine.
  - apply wp_fail. rewrite (count_none _ _ E). by destruct d.
Qed.

Lemma call_create_rule ctx p id req : leaves (create_custom_rule ctx p id req).
Proof.
  apply wp_check; [done|]. intros _ _. apply wp_profile_found. intros pf Hp. apply wp_check; [done|]. intros [] Hd.
  apply wp_bind, wp_now_stored, wp_now_stmt. intros now. cbv zeta. outcome E1; [done|]. outcome E2; [done|].
  set (r := {| ru_id := id; ru_profile_id := p |}). apply wp_now_read.
  destruct (find_snoc_self (fun x => ru_id x =? id) (f_rules d) r (Z.eqb_refl _)) as [x Ex]. simpl f_rules. rewrite Ex.
  apply wp_bind, wp_lift. simpl. apply wp_bind, wp_now_publish, wp_ret.
  apply good_same_profiles; [|by apply exists_ext|done]. apply (content_rule_snoc r).
Qed.

Lemma rule_profile_only id r p : List.find (fun x => ru_id x =? id) (f_rules d) = Some r -> ru_profile_id r = p ->
  forall x, x ∈ f_rules d -> (ru_id x =? id) = true -> ru_profile_id x = p.
Proof.
  intros [Hr Er]%find_Some_elem Hp x Hx Ex. breflect. assert (x = r) as ->; [|done].
  apply (NoDup_fmap_elem_inj ru_id (f_rules d)); [apply (fo_rules _ ok) | done | done | congruence].
Qed.

Lemma find_rule_where id u now l : is_Some (List.find (fun x => ru_id x =? id) l) ->
  is_Some (List.find (fun x => ru_id x =? id) (where_ (fun r => ru_id r =? id) (with_custom_rule_update u now) l)).
Proof.
  induction l as [|x l IH]; simpl; [done|]. destruct (ru_id x =? id) eqn:E; simpl; rewrite ?E; [by intros _ | exact IH].
Qed.

Lemma call_update_rule ctx p id u : leaves (update_custom_rule ctx p id u).
Proof.
  apply wp_check; [done|]. intros _ _. apply wp_rule_found. intros r Hr Hp. apply wp_check; [done|]. intros [] Hd.
  assert (Htail : forall d', content_of p d d' -> (forall x, profile_exists x d' = profile_exists x d) -> f_defaults d' = f_defaults d ->
    is_Some (List.find (fun x => ru_id x =? id) (f_rules d')) ->
    wp (r ← stored (repo_get_custom_rule id); rule ← st_lift (ok_or r (not_after "custom rule not found after update"));
        _ ← publish_change (ProfileContent p); mret rule) (fun _ => good) (now_at d' s q)).
  { intros d' C E1 E2 [x Hx]. apply wp_now_read. rewrite Hx. apply wp_bind, wp_lift. simpl. apply wp_bind, wp_now_publish, wp_ret.
    by apply good_same_profiles. }
  apply wp_bind, wp_now_stored. unfold repo_update_custom_rule.
  destruct u as [[t|] [en|] [c|]] eqn:Eu.
  8: { apply wp_ret. apply Htail; [apply content_refl | done | done | by rewrite Hr]. }
  all: apply wp_now_stmt; intros now; cbn [fst snd]; apply Htail; [|by apply exists_ext | done | apply find_rule_where; by rewrite Hr];
    apply content_rule_where; [by eapply rule_profile_only | done].
Qed.

Lemma call_delete_rule ctx p id : leaves (delete_custom_rule ctx p id).
Proof.
  apply wp_check; [done|]. intros _ _. apply wp_rule_found. intros r Hr Hp. apply wp_bind, wp_now_stored, wp_now_stmt. intros now. cbn [fst snd].
  pose proof Hr as [Hin Er]%find_Some_elem. rewrite (count_pos _ _ r Hin Er). simpl. apply wp_now_publish.
  apply good_same_profiles; [|by apply exists_ext|done]. apply content_rule_delete. by eapply rule_profile_only.
Qed.


(** ** Settings of a device *)

Record settings_change (v : Uuid) (d d' : FilterDb) : Prop := {
  sc_profiles : f_profiles d' = f_profiles d;
  sc_blocklists : f_blocklists d' = f_blocklists d;
  sc_domains : f_domains d' = f_domains d;
  sc_allowlist : f_allowlist d' = f_allowlist d;
  sc_rules : f_rules d' = f_rules d;
  sc_defaults : f_defaults d' = f_defaults d;
  sc_config : f_config d' = f_config d;
  sc_devices : Forall2 (fun x y => dr_id x = dr_id y /\ dr_last_ip x = dr_last_ip y) (f_devices d) (f_devices d');
  sc_others x : x <> v -> settings_view d' x = settings_view d x;
}.

Lemma settings_change_good v d' : device_exists v d = true -> settings_change v d d' ->
  good (now_at d' s (q ++ [DnsFilterChanged (DeviceAssignment v)])).
Proof.
  intros Hv C. assert (Eids : dr_id <$> f_devices d' = dr_id <$> f_devices d).
  { pose proof (sc_devices _ _ _ C) as F. induction F as [|x y l l' [E _] _ IH]; [done|]. rewrite !fmap_cons, E, IH. done. }
  assert (Hback : forall y, y ∈ f_devices d' -> exists x, x ∈ f_devices d /\ dr_id x = dr_id y /\ dr_last_ip x = dr_last_ip y).
  { intros y Hy. destruct (Forall2_in_r _ _ _ _ (sc_devices _ _ _ C) Hy) as (x & Hx & E). by exists x. }
  assert (Hforth : forall x, x ∈ f_devices d -> exists y, y ∈ f_devices d' /\ dr_id x = dr_id y /\ dr_last_ip x = dr_last_ip y).
  { intros x Hx. destruct (Forall2_in_l _ _ _ _ (sc_devices _ _ _ C) Hx) as (y & Hy & E). by exists y. }
  split_and!; [done | | |unfold canonical_defaults; simpl; rewrite (sc_defaults _ _ _ C); exact Hc].
  - simpl. eapply announced_in_step; [|exact H]. split; try done.
    + intros r Hr Hen. right; right. exists r. rewrite (sc_blocklists _ _ _ C) in Hr. split_and!; try done.
      unfold active_domains. by rewrite (sc_blocklists _ _ _ C), (sc_domains _ _ _ C).
    + intros p Hp. right. unfold profile_exists in *. rewrite (sc_profiles _ _ _ C) in Hp. split; [done|].
      unfold enabled_of, blocklists_of, allowed_of, rules_of. by rewrite (sc_blocklists _ _ _ C), (sc_allowlist _ _ _ C), (sc_rules _ _ _ C).
    + intros p Hp. left. unfold profile_exists in *. by rewrite (sc_profiles _ _ _ C).
    + intros x Hx. destruct (decide (x = v)) as [->|Hne]; [left; unfold device_dirty; set_solver|]. right. split; [|by apply (sc_others _ _ _ C)].
      apply device_exists_has in Hx as (y & Hy & <-). destruct (Hback y Hy) as (z & Hz & Ez & _). apply device_exists_has. by exists z.
    + unfold stored_config. simpl. by rewrite (sc_config _ _ _ C).
    + eapply same_defaults; [exact H | | by rewrite (sc_defaults _ _ _ C)]. intros p. unfold profile_exists. by rewrite (sc_profiles _ _ _ C).
    + intros e ->%list_elem_of_singleton. simpl. by eapply device_exists_rows.
  - split; simpl; [rewrite Eids; apply Hu|]. intros y y' ip Hy Hy' E1 E2.
    destruct (Hback y Hy) as (x & Hx & I1 & A1), (Hback y' Hy') as (x' & Hx' & I2 & A2).
    assert (x = x') as <-; [apply (proj2 Hu x x' ip); congruence|].
    apply (NoDup_fmap_elem_inj dr_id (f_devices d')); [rewrite Eids; apply Hu | done | done | congruence].
Qed.

Lemma insert_assigned_rows v ids d1 rows : device_exists v d1 = true -> (forall p, p ∈ ids -> profile_exists p d1 = true) -> NoDup ids ->
  (forall r, r ∈ rows -> dp_device_id r = v -> dp_profile_id r ∉ ids) ->
  insert_assigned v ids d1 rows = Ok (rows ++ ((fun p => {| dp_device_id := v; dp_profile_id := p |}) <$> ids)).
Proof.
  intros Hv. revert rows. induction ids as [|p ids IH]; intros rows Hp Hn Hr; simpl; [by rewrite app_nil_r|].
  apply NoDup_cons in Hn as [Hnp Hn].
  destruct (existsb _ rows) eqn:E.
  { exfalso. apply existsb_elem in E as (r & Hin & Er). apply andb_true_iff in Er as [E1 E2]. breflect. apply (Hr r Hin E1). rewrite E2. by left. }
  rewrite Hv, (Hp p) by by left. simpl. rewrite IH; [by rewrite <- (assoc_L (++)) | by intros; apply Hp; right | done|].
  intros r [Hin| ->%list_elem_of_singleton]%elem_of_app Er; [|done]. intros Hx. by apply (Hr r Hin Er); right.
Qed.

Lemma wp_profiles_checked ids : wp (st_iter (fun pid => _ ← ensure_profile_exists pid; mret tt) ids)
    (fun r v => v = now_at d s q /\ (r = Ok tt -> forall p, p ∈ ids -> profile_exists p d = true)) (now_at d s q).
Proof.
  induction ids as [|p ids IH]; simpl; [apply wp_ret; split; [done|]; set_solver|].
  apply wp_bind, wp_bind. unfold ensure_profile_exists. apply wp_now_read, wp_lift. destruct (List.find _ _) as [x|] eqn:E; simpl; [|done].
  apply wp_ret. eapply wp_conseq; [exact IH|]. intros r v [-> Hr]. split; [done|]. intros -> y [->|Hy]%elem_of_cons; [|by apply Hr].
  apply find_Some_elem in E. apply existsb_elem. by exists x.
Qed.

Lemma wp_profiles_found {Y} ids (k : unit -> ST Filters AppError Y) :
  ((forall p, p ∈ ids -> profile_exists p d = true) -> leaves (k tt)) -> leaves (ensure_profiles_exist ids ≫= k).
Proof.
  intros Hk. apply wp_bind. eapply wp_conseq; [apply wp_profiles_checked|]. intros [[]|e] v [-> Hr]; [by apply Hk, Hr | done].
Qed.

Lemma find_settings_other (f g : SettingsRow -> bool) h l : (forall x, f x = true -> g x = false) -> (forall x, g (h x) = false) ->
  List.find g (where_ f h l) = List.find g l.
Proof.
  intros Hfg Hh. induction l as [|x l IH]; simpl; [done|]. destruct (f x) eqn:E; rewrite IH; [|done]. by rewrite Hh, (Hfg x E).
Qed.

Lemma find_snoc_other {A} (g : A -> bool) l x : g x = false -> List.find g (l ++ [x]) = List.find g l.
Proof. intros Hx. induction l as [|y l IH]; simpl; [by rewrite Hx|]. by rewrite IH. Qed.

Lemma upserted_view v en now (d1 : FilterDb) x : x <> v -> f_settings d1 =
    (let row := {| st_device_id := v; st_enabled := en; st_updated_at := now |} in let f s := st_device_id s =? v in
     if existsb f (f_settings d) then where_ f (fun _ => row) (f_settings d) else f_settings d ++ [row]) ->
  settings_of x d1 = settings_of x d.
Proof.
  intros Hne E. unfold settings_of. rewrite E. cbv zeta. destruct (existsb _ _).
  - apply find_settings_other; [intros y Ey; breflect; apply Z.eqb_neq; congruence | intros y; apply Z.eqb_neq; simpl; congruence].
  - apply find_snoc_other. apply Z.eqb_neq. simpl. congruence.
Qed.

(** The ids given are distinct. *)
Lemma call_update_settings ctx v req : NoDup (ud_profile_ids req) -> leaves (update_device_settings ctx v req).
Proof.
  intros Hn. apply wp_check; [done|]. intros _ _. apply wp_profiles_found. intros Hp.
  apply wp_bind, wp_now_stored, wp_now_stmt. intros now. cbv zeta. outcome Ev; [done|]. apply negb_false_iff in Ev.
  apply wp_bind, wp_now_stored, wp_now_stmt. intros now2. cbv beta.
  rewrite (insert_assigned_rows v (ud_profile_ids req)); [|exact Ev | exact Hp | exact Hn|].
  2: { intros r Hr Er. simpl in Hr. apply elem_of_deleted in Hr as [Hr _]. rewrite Er, Z.eqb_refl in Hr. done. }
  cbn [fst snd]. apply wp_bind, wp_now_stored, wp_now_stmt. intros now3. cbn [fst snd]. apply wp_bind.
  set (d3 := set_filter_devices _ _).
  assert (Hread : forall d1 (Q : result DeviceDnsFilterSettings AppError -> Now -> Prop), (forall r, Q (Ok r) (now_at d1 s q)) ->
    wp (settings_or_default v) Q (now_at d1 s q)).
  { intros d1 Q HQ. unfold settings_or_default. apply wp_bind, wp_now_stored. unfold repo_find_device_settings.
    apply wp_bind, wp_now_stmt. intros _. apply wp_bind, wp_now_stmt. intros _. cbn [fst snd]. apply wp_bind, wp_now_gets. intros x.
    destruct (settings_of v d1), (profiles_of_device v d1); apply wp_ret, wp_bind, wp_now_gets; intros y; apply wp_ret, HQ. }
  apply Hread. intros r. apply wp_bind, wp_now_publish, wp_ret. apply settings_change_good; [done|]. split; try done.
  - simpl. unfold where_. induction (f_devices d) as [|x l IH]; constructor; [|exact IH]. by destruct (dr_id x =? v).
  - intros x Hne. unfold settings_view. erewrite (upserted_view v (ud_enabled req) now d3 x Hne) by done.
    assert (E : profiles_of_device x d3 = profiles_of_device x d); [|by rewrite E]. unfold profiles_of_device. simpl.
    rewrite List.filter_app, filter_deleted; [|intros y _ Ey; breflect; apply Z.eqb_neq; congruence].
    rewrite (filter_none _ (_ <$> _)); [by rewrite app_nil_r|]. intros y (p & -> & _)%list_elem_of_fmap. apply Z.eqb_neq. simpl. congruence.
Qed.

(** ** The configuration *)

Lemma insert_defaults_rows ids now d1 rows rows' : insert_defaults ids now d1 rows = Ok rows' ->
  rows' = rows ++ ((fun p => {| df_profile_id := p; df_created_at := now |}) <$> ids).
Proof.
  revert rows. induction ids as [|p ids IH]; intros rows; simpl; [intros [= <-]; by rewrite app_nil_r|].
  destruct (existsb _ rows); [done|]. destruct (negb _); [done|]. intros ->%IH. by rewrite <- (assoc_L (++)).
Qed.

Lemma dedup_ascending l : ascending Z.compare l -> ascending Z.compare (dedup_by Z.compare l).
Proof.
  assert (Hin : forall x l, x ∈ dedup_by Z.compare l -> x ∈ l).
  { intros x l0. apply elem_of_dedup_by. apply Z.compare_eq. }
  induction l as [|x l IH]; [done|]. intros [Hx Hl]. destruct l as [|y l]; [done|]. cbn [dedup_by]. specialize (IH Hl).
  destruct (x ?= y); [exact IH | |]; (split; [intros z Hz; apply Hx, Hin; exact Hz | exact IH]).
Qed.

Lemma btree_ascending l : ascending Z.compare (btree_set Z.compare l).
Proof.
  apply dedup_ascending, sort_ascending; [intros x y z; rewrite !Z.compare_ngt_iff; lia | intros x y; rewrite Z.compare_gt_iff, Z.compare_ngt_iff; lia].
Qed.

Lemma stored_ids : fc_default_profile_ids (stored_config d) = df_profile_id <$> f_defaults d.
Proof. unfold stored_config. simpl. f_equal. by apply canonical_sorted. Qed.

Definition configured (c : DnsFilterConfig) (now : Z) : FilterDb :=
  set_defaults ((fun p => {| df_profile_id := p; df_created_at := now |}) <$> fc_default_profile_ids c)
    (set_filter_config
       (<[KEY_BLOCKLIST_FAILURE_ALERT_THRESHOLD := show_u32 (fc_blocklist_failure_alert_threshold c)]>
          (<[KEY_DNS_FILTERING_ENABLED := if fc_enabled c then of_string "true" else of_string "false"]> (f_config d))) d).

Lemma configured_canonical c now : ascending Z.compare (fc_default_profile_ids c) -> canonical_defaults (configured c now).
Proof.
  intros Ha. split; simpl.
  - intros r r' (p & -> & _)%list_elem_of_fmap (p' & -> & _)%list_elem_of_fmap. done.
  - rewrite <- list_fmap_compose. rewrite (list_fmap_ext _ id); [by rewrite list_fmap_id|]. done.
Qed.

Lemma configured_ids c now : ascending Z.compare (fc_default_profile_ids c) ->
  fc_default_profile_ids (stored_config (configured c now)) = fc_default_profile_ids c.
Proof.
  intros Ha. transitivity (df_profile_id <$> f_defaults (configured c now)).
  - unfold stored_config. simpl fc_default_profile_ids. f_equal. exact (canonical_sorted _ (configured_canonical c now Ha)).
  - simpl. rewrite <- list_fmap_compose. rewrite (list_fmap_ext _ id); [by rewrite list_fmap_id|]. done.
Qed.

Lemma configured_enabled c now : fc_enabled (stored_config (configured c now)) = fc_enabled c.
Proof.
  unfold stored_config, configured. simpl. rewrite lookup_insert_ne by done. rewrite lookup_insert_eq. by destruct (fc_enabled c).
Qed.

(** The configuration stored and copied to memory, with what changed announced. *)
Lemma configured_good c now es : ascending Z.compare (fc_default_profile_ids c) -> (forall p, p ∈ fc_default_profile_ids c -> profile_exists p d = true) ->
  (forall p, p ∈ mem_defaults s -> profile_exists p d = true) -> (forall e, e ∈ es -> e = DnsFilterChanged DefaultProfile \/ e = DnsFilterChanged GlobalToggle) ->
  (fc_default_profile_ids c = fc_default_profile_ids (stored_config d) \/ es <> []) ->
  good (now_at (configured c now) (set_mem_config c s) (q ++ es)).
Proof.
  intros Ha Hex Hmem Hes Hch. assert (Hq : es <> [] -> default_dirty (q ++ es)).
  { destruct es as [|e es']; [done|]. intros _. unfold default_dirty. rewrite !elem_of_app, !elem_of_cons.
    destruct (Hes e (list_elem_of_here _ _)) as [-> | ->]; auto. }
  assert (Hsame : fc_default_profile_ids c = fc_default_profile_ids (stored_config d) -> mem_defaults s = fc_default_profile_ids c).
  { intros ->. rewrite <- (is_defaults _ _ _ _ _ H). symmetry. by apply filter_all. }
  split_and!; [done | | exact Hu | by apply configured_canonical]. simpl. split; try apply H.
  - destruct (is_wf _ _ _ _ _ H). by split.
  - intros r Hr Hen. destruct (is_feeds _ _ _ _ _ H r Hr Hen) as [Hd|[Hd|Hd]]; [left; by apply dirty_app | right; left; by apply feed_dirty_app | by right; right].
  - intros p Hp. destruct (is_stitched _ _ _ _ _ H p Hp) as [Hd|Hd]; [left; by apply dirty_app | by right].
  - intros p k Hk. destruct (is_gone _ _ _ _ _ H p k Hk) as [Hd|Hd]; [by left | right; by apply dirty_app].
  - intros v Hv. destruct (is_device _ _ _ _ _ H v Hv) as [[]|[Hd|[(p & Hin & Hd)|Hd]]];
      [right; left; by apply device_dirty_app | right; right; left; exists p; split; [done | by apply dirty_app] | by right; right; right].
  - by rewrite configured_enabled.
  - rewrite configured_ids by done. apply filter_all. intros p Hp. by apply Hex.
  - destruct es as [|e es']; [|right; left; by apply Hq]. destruct Hch as [Hch|]; [|done]. specialize (Hsame Hch). rewrite app_nil_r.
    destruct (is_default _ _ _ _ _ H) as [[]|[Hd|[(p & Hin & Hd)|Hd]]]; [by right; left | right; right; left; exists p | right; right; right].
    + split; [|done]. unfold mem_defaults in *. simpl. by rewrite <- Hsame.
    + simpl. rewrite Hd. unfold default_context_of. unfold mem_defaults in Hsame. by rewrite Hsame.
  - intros e [He|He]%elem_of_app; [by apply (is_queue _ _ _ _ _ H)|]. by destruct (Hes e He) as [-> | ->].
Qed.

Lemma wp_stored_config (Q : result DnsFilterConfig AppError -> Now -> Prop) :
  Q (Ok (stored_config d)) (now_at d s q) -> wp (stored repo_get_dns_filter_config) Q (now_at d s q).
Proof.
  intros HQ. apply wp_now_stored. unfold repo_get_dns_filter_config. apply wp_bind, wp_now_stmt. intros _. apply wp_bind, wp_now_stmt. intros _.
  apply wp_bind, wp_now_stmt. intros _. cbn [fst snd]. by apply wp_ret.
Qed.

Lemma wp_config_response c d' s' q' : good (now_at d' s' q') -> wp (config_response c) (fun _ => good) (now_at d' s' q').
Proof. intros Hg. unfold config_response. apply wp_now_read, wp_bind, wp_now_from. by apply wp_ret. Qed.

Lemma wp_publish_if {Y} (b : bool) c (k : unit -> ST Filters AppError Y) d' s' q' Q :
  wp (k tt) Q (now_at d' s' (q' ++ if b then [DnsFilterChanged c] else [])) -> wp (publish_if b c ≫= k) Q (now_at d' s' q').
Proof.
  intros Hk. apply wp_bind. unfold publish_if. destruct b; [by apply wp_now_publish|]. rewrite app_nil_r in Hk. by apply wp_ret.
Qed.

(** No deleted profile is still a default in memory. *)
Lemma call_update_config ctx req : (forall p, p ∈ mem_defaults s -> profile_exists p d = true) -> leaves (update_filter_config ctx req).
Proof.
  intros Hmem. apply wp_check; [done|]. intros _ _. apply wp_bind, wp_stored_config. cbv zeta.
  assert (Htail : forall ids changed, ascending Z.compare ids -> (forall p, p ∈ ids -> profile_exists p d = true) ->
    (ids = fc_default_profile_ids (stored_config d) \/ changed = true) -> forall c en, fc_default_profile_ids c = ids ->
    wp (_ ← stored (repo_set_dns_filter_config c); _ ← on_mem (set_mem_config c);
        _ ← publish_if changed DefaultProfile; _ ← publish_if en GlobalToggle; config_response c) (fun _ => good) (now_at d s q)).
  { intros ids changed Ha Hex Hch c en <-. apply wp_bind, wp_now_stored, wp_now_stmt. intros now. cbv beta.
    destruct (insert_defaults _ now d []) as [rows|e] eqn:E; cbn [fst snd]; [|done]. apply insert_defaults_rows in E as ->. rewrite app_nil_l.
    apply wp_bind, wp_now_mem, wp_publish_if, wp_publish_if, wp_config_response. rewrite <- (assoc_L (++)).
    apply (configured_good c now); [done | done | done | |].
    - intros e. destruct changed, en; set_solver.
    - destruct Hch as [->|Hch]; [by left|]. right. subst changed. done. }
  apply wp_bind. destruct (uc_default_profile_ids req) as [ids|].
  - apply wp_bind. unfold ensure_profiles_exist.
    refine (wp_conseq _ _ _ _ (wp_profiles_checked (btree_set Z.compare ids)) _). intros [[]|e] v [-> Hex]; [|done]. apply wp_ret.
    apply (Htail (btree_set Z.compare ids)); [apply btree_ascending | by apply Hex | | done].
    destruct (decide (sort_by Z.compare (fc_default_profile_ids (stored_config d)) = btree_set Z.compare ids)) as [E|E].
    + left. rewrite <- E. apply sort_ascending_id. rewrite stored_ids. apply Hc.
    + right. by rewrite bool_decide_eq_false_2.
  - apply wp_ret. apply (Htail (fc_default_profile_ids (stored_config d))); [rewrite stored_ids; apply Hc | | by left | done].
    intros p Hp. rewrite <- (is_defaults _ _ _ _ _ H) in Hp. apply list_elem_of_In, filter_In in Hp. apply Hp.
Qed.

End call.

(** ** Importing *)

Definition still (s : FilterMem) (q : list FilterEvent) (v : Now) : Prop := nw_mem v = s /\ nw_events v = q /\ nw_faults v = [].

Section still.
Context {s : FilterMem} {q : list FilterEvent}.

Lemma still_stmt {X} (f : Z -> FilterDb -> result X str * FilterDb) : holds (still s q) (fstmt f).
Proof. intros [d s' q' fs] (E1 & E2 & E3). simpl in *. subst. apply (wp_now_stmt f). intros now. done. Qed.

Lemma still_best_effort {X} (m : ST Filters str X) : holds (still s q) m -> holds (still s q) (best_effort m).
Proof. intros Hm v Hv w Hw. exact (Hm v Hv w Hw). Qed.

Lemma still_delete_loop fuel f removed : holds (still s q) (delete_loop fuel f removed).
Proof.
  revert removed. induction fuel as [|fuel IH]; intros removed; simpl; [by apply holds_quiet|].
  apply holds_bind; [apply still_stmt|]. intros n. destruct (_ =? 0); [by apply holds_quiet | apply IH].
Qed.

Lemma still_delete id scope : holds (still s q) (delete_domains_in_batches id scope).
Proof. intros v Hv w Hw. exact (still_delete_loop _ _ 0 v Hv w Hw). Qed.

Lemma still_replace id domains : holds (still s q) (repo_replace_blocklist_domains id domains).
Proof.
  unfold repo_replace_blocklist_domains. apply holds_bind; [apply still_stmt|]. intros row. apply holds_bind; [by apply holds_quiet|]. intros active.
  apply holds_bind; [apply still_delete|]. intros _. apply holds_bind.
  { induction (chunks _ _) as [|b bs IH]; simpl; [by apply holds_quiet|]. apply holds_bind; [apply still_stmt | intros _; exact IH]. }
  intros _. apply holds_bind; [apply still_stmt|]. intros _. apply holds_bind; [apply still_best_effort, still_delete|]. intros _. by apply holds_quiet.
Qed.
End still.

(** A row whose place among its profile's enabled blocklists is the same. *)
Definition feed_like (b b' : DbBlocklistRow) : Prop :=
  row_id b = row_id b' /\ row_profile b = row_profile b' /\ bl_enabled (db_blocklist b) = bl_enabled (db_blocklist b')
  /\ bl_created_at (db_blocklist b) = bl_created_at (db_blocklist b').

(** Only the domains, and the import state of the blocklists, differ. *)
Record feed_change (d d' : FilterDb) : Prop := {
  fc_rows : Forall2 feed_like (f_blocklists d) (f_blocklists d');
  fc_profiles : f_profiles d' = f_profiles d;
  fc_allowlist : f_allowlist d' = f_allowlist d;
  fc_rules : f_rules d' = f_rules d;
  fc_settings : f_settings d' = f_settings d;
  fc_assigned : f_assigned d' = f_assigned d;
  fc_defaults : f_defaults d' = f_defaults d;
  fc_config_rows : f_config d' = f_config d;
  fc_devices : f_devices d' = f_devices d;
}.

Lemma feed_like_refl b : feed_like b b.
Proof. done. Qed.

Lemma feed_change_refl d : feed_change d d.
Proof. split; try done. by apply Forall_Forall2_diag, Forall_true. Qed.

Lemma feed_change_domains l d d' : feed_change d d' -> feed_change d (set_domains l d').
Proof. intros []. by split. Qed.

Lemma feed_change_where id g d d' : (forall b, feed_like b (g b)) -> feed_change d d' ->
  feed_change d (set_blocklists (where_ (row_is id) g (f_blocklists d')) d').
Proof.
  intros Hg []. split; try done. simpl. unfold where_. clear - Hg fc_rows0. induction fc_rows0 as [|x y l l' Hxy _ IH]; simpl; constructor; [|exact IH].
  destruct (row_is id y); [|done]. destruct Hxy as (E1 & E2 & E3 & E4), (Hg y) as (F1 & F2 & F3 & F4). split_and!; congruence.
Qed.

Section changing.
Context {d0 : FilterDb}.

Lemma changes_delete id scope : holds (feed_change d0) (delete_domains_in_batches id scope).
Proof. apply holds_delete_domains. intros d. apply feed_change_domains. Qed.

Lemma insert_chunks_domains id g cs : forall d d', insert_chunks id g cs d = Ok d' -> exists l, d' = set_domains l d.
Proof.
  induction cs as [|c cs IH]; intros d d'; simpl; [intros [= <-]; exists (f_domains d); by rewrite set_domains_id|]. unfold insert_chunk.
  destruct (existsb _ c); [done|]. destruct (negb _); [done|]. intros (l & ->)%IH. by exists l.
Qed.

Lemma changes_replace id domains : holds (feed_change d0) (repo_replace_blocklist_domains id domains).
Proof.
  unfold repo_replace_blocklist_domains. fwalk; try apply changes_delete.
  - apply holds_fstmt. intros now d Hd. destruct (insert_chunks _ _ _ d) as [d'|e] eqn:E; [|done]. apply insert_chunks_domains in E as (l & ->).
    by apply feed_change_domains.
  - apply holds_fstmt. intros now d Hd. by apply feed_change_where.
Qed.

Lemma changes_error id e : holds (feed_change d0) (repo_set_blocklist_error id e).
Proof. apply holds_fstmt. intros now d Hd. by apply feed_change_where. Qed.
End changing.

Lemma sort_like (l l' : list DbBlocklistRow) : Forall2 feed_like l l' -> Forall2 feed_like (sort_by by_bl_created l) (sort_by by_bl_created l').
Proof.
  assert (Hins : forall x y l l', feed_like x y -> Forall2 feed_like l l' -> Forall2 feed_like (insert_by by_bl_created x l) (insert_by by_bl_created y l')).
  { intros x y m m' Hxy F. induction F as [|a b m m' Hab F IH]; simpl; [by apply Forall2_cons_2|].
    assert (E : by_bl_created x a = by_bl_created y b).
    { unfold by_bl_created. destruct Hxy as (_ & _ & _ & E1), Hab as (_ & _ & _ & E2). congruence. }
    rewrite E. destruct (by_bl_created y b); by repeat apply Forall2_cons_2. }
  induction 1 as [|x y l l' Hxy F IH]; simpl; [constructor | by apply Hins].
Qed.

Lemma filter_like (f : DbBlocklistRow -> bool) l l' : (forall x y, feed_like x y -> f x = f y) -> Forall2 feed_like l l' ->
  Forall2 feed_like (List.filter f l) (List.filter f l').
Proof. intros Hf. induction 1 as [|x y l l' Hxy F IH]; simpl; [constructor|]. rewrite <- (Hf x y Hxy). destruct (f x); [by constructor | done]. Qed.

Lemma like_ids l l' : Forall2 feed_like l l' -> row_id <$> l' = row_id <$> l.
Proof. induction 1 as [|x y l l' Hxy F IH]; [done|]. rewrite !fmap_cons, IH. by destruct Hxy as (-> & _). Qed.

(** An import announces every blocklist whose domains readers see differently. *)
Lemma feed_change_announced d d' s q es : in_step d s q -> feed_change d d' -> (forall e, e ∈ es -> exists b n, e = DnsFilterBlocklistUpdated b n) ->
  (forall b, feed_dirty es b \/ active_domains b d' = active_domains b d) -> announced d d' s q es.
Proof.
  intros Hs C Hes Hact. assert (Hx : forall p, profile_exists p d' = profile_exists p d) by (intros p; unfold profile_exists; by rewrite (fc_profiles _ _ C)).
  split.
  - intros r Hr Hen. destruct (Forall2_in_r _ _ _ _ (fc_rows _ _ C) Hr) as (r0 & Hr0 & E1 & E2 & E3 & E4). right.
    destruct (Hact (row_id r)) as [(n & Hn)|E]; [left; exists n; set_solver|]. right. exists r0. split_and!; try done; congruence.
  - intros p Hp. right. rewrite Hx in Hp. split; [done|]. unfold allowed_of, rules_of. rewrite (fc_allowlist _ _ C), (fc_rules _ _ C).
    split_and!; [|done|done]. apply like_ids. unfold enabled_of, blocklists_of. apply filter_like; [by intros x y (_ & _ & E & _)|].
    apply sort_like, filter_like; [|apply C]. intros x y (_ & E & _). unfold in_profile. fold (row_profile x) (row_profile y). by rewrite E.
  - intros p Hp. left. by rewrite Hx.
  - intros v Hv. right. unfold device_exists, settings_view, settings_of, profiles_of_device in *. by rewrite (fc_devices _ _ C), (fc_settings _ _ C), (fc_assigned _ _ C) in *.
  - rewrite (fc_devices _ _ C). eauto.
  - rewrite (fc_devices _ _ C). eauto.
  - unfold stored_config. simpl. by rewrite (fc_config_rows _ _ C).
  - eapply same_defaults; [exact Hs | exact Hx | apply C].
  - intros e He. by destruct (Hes e He) as (b & n & ->).
Qed.

Lemma active_where id g x d : (forall b : DbBlocklistRow, row_id (g b) = row_id b /\ db_active_generation (g b) = db_active_generation b) ->
  active_domains x (set_blocklists (where_ (row_is id) g (f_blocklists d)) d) = active_domains x d.
Proof.
  intros Hg. unfold active_domains. simpl. induction (f_blocklists d) as [|b l IH]; simpl; [done|]. destruct (row_is id b) eqn:Eb.
  - destruct (Hg b) as [E1 E2]. assert (E : row_is x (g b) = row_is x b) by (unfold row_is; fold (row_id (g b)) (row_id b); by rewrite E1).
    rewrite E. destruct (row_is x b); [|exact IH].
    f_equal. apply List.filter_ext. intros r. unfold active_row. fold (row_id (g b)) (row_id b). by rewrite E1, E2.
  - destruct (row_is x b); [done | exact IH].
Qed.

(** During an import: the memory and the queue wait, and readers of [A] alone may see a change. *)
Record importing (d : FilterDb) (s : FilterMem) (q : list FilterEvent) (A : Uuid -> Prop) (w : Filters) : Prop := {
  im_still : still s q (view w);
  im_change : feed_change d (fl_db w);
  im_seen b : A b \/ active_domains b (fl_db w) = active_domains b d;
}.

Lemma importing_error d s q A id e w : importing d s q A w -> importing d s q A (snd (best_effort (repo_set_blocklist_error id e) w)).
Proof.
  intros [(E1 & E2 & E3) Hc Hs]. unfold best_effort, repo_set_blocklist_error, fstmt. simpl in *. rewrite E3. simpl. split.
  - done.
  - simpl. by apply feed_change_where.
  - intros b. simpl. rewrite active_where by done. apply Hs.
Qed.

Lemma importing_start d s q w : view w = now_at d s q -> importing d s q (fun _ => False) w.
Proof. intros Hw. injection Hw as <- <- <- E. split; [done | apply feed_change_refl | by right]. Qed.

Lemma importing_replace d s q id domains w : NoDup (row_id <$> f_blocklists d) -> view w = now_at d s q ->
  let '(r, w') := repo_replace_blocklist_domains id domains w in
  match r with Ok _ => importing d s q (eq id) w' | Err _ => importing d s q (fun _ => False) w' end.
Proof.
  intros Hn Hw. assert (Hd : fl_db w = d) by (by injection Hw). pose proof (wp_replace id domains d Hn w Hd) as H.
  pose proof (still_replace (s := s) (q := q) id domains (now_at d s q) (conj eq_refl (conj eq_refl eq_refl)) w Hw) as Hst.
  pose proof (changes_replace id domains d (feed_change_refl d) w Hd) as Hc.
  destruct (repo_replace_blocklist_domains id domains w) as [[n|e] w']; simpl in *; split; try done.
  - intros b. destruct (decide (id = b)) as [|Hne]; [by left|]. right. destruct H as (_ & b0 & _ & H & _). apply H. congruence.
  - intros b. right. by apply same_visible_active.
Qed.

Lemma importing_good d s q A es w : in_step d s q -> unique_devices d -> canonical_defaults d -> importing d s q A w ->
  (forall e, e ∈ es -> exists b n, e = DnsFilterBlocklistUpdated b n) -> (forall b, A b -> feed_dirty es b) ->
  good (view (set_fl_events (fl_events w ++ es) w)).
Proof.
  intros H1 H2 H3 [(E1 & E2 & E3) Hc Hs] Hes HA. split_and!; simpl in *; [done | | |].
  - rewrite E1, E2. eapply announced_in_step; [|exact H1]. apply feed_change_announced; [done | done | done|].
    intros b. destruct (Hs b) as [Hb|Hb]; [left; by apply HA | by right].
  - unfold unique_devices. by rewrite (fc_devices _ _ Hc).
  - unfold canonical_defaults. by rewrite (fc_defaults _ _ Hc).
Qed.

Lemma set_events_same w : set_fl_events (fl_events w ++ []) w = w.
Proof. destruct w. unfold set_fl_events. simpl. by rewrite app_nil_r. Qed.

Lemma import_good bl fetched d s q w : filter_ok d -> view w = now_at d s q -> in_step d s q -> unique_devices d -> canonical_defaults d ->
  good (view (snd (import_feed bl fetched w))).
Proof.
  intros Hok Hw H1 H2 H3. pose proof (importing_start d s q w Hw) as Hi.
  assert (Hquiet : forall w', importing d s q (fun _ => False) w' -> good (view w')).
  { intros w' Hi'. rewrite <- (set_events_same w'). by eapply importing_good; [..|exact Hi'| set_solver | done]. }
  assert (Hfail : forall msg e, good (view (snd ((_ ← note_error (bl_id bl) msg; st_fail (A := Z) e) w)))).
  { intros msg e. apply Hquiet. exact (importing_error d s q _ (bl_id bl) (Some msg) w Hi). }
  unfold import_feed. destruct fetched as [body|e]; [|apply Hfail]. cbv zeta. destruct (_ =? 0); [apply Hfail|].
  pose proof (importing_replace d s q (bl_id bl) (parse_blocklist_body body) w (ky_ids (fo_blocklists _ Hok)) Hw) as Hr.
  destruct (repo_replace_blocklist_domains _ _ w) as [[n|e] w'].
  - pose proof (importing_error d s q _ (bl_id bl) None w' Hr) as Hr'. destruct (best_effort _ w') as [u w'']. simpl in *.
    eapply importing_good; [done.. | exact Hr' | |].
    + intros e ->%list_elem_of_singleton. eauto.
    + intros b <-. eexists. by left.
  - pose proof (importing_error d s q _ (bl_id bl) (Some (of_string "failed to store domains: " ++ e)) w' Hr) as Hr'.
    unfold note_error. destruct (best_effort _ w') as [u w'']. by apply Hquiet.
Qed.

End serve.
