(* ===== verification/FilterQueries.v ===== *)
(** * Queries follow the tables

    The decision for a query as the tables give it, and that the compiled cache gives
    the same one once the runner has handled what is queued. *)

From S2P Require Import Prelude RustStr Net Auth FilterParser DnsFilter PolicyRouter RoutingTypes ZoneTypes PolicyDb.
From S2P Require Import Tables FilterTypes FilterRepo FilterAdmin FilterLaws FilterImport FilterSync FilterFollow FilterServe FilterCalls.

Section queries.
Context {CL : CronLib} {RL : RegexLib} {TL : RecordTypeLib} {NL : IpNetworkLib} {U : UuidText}.

(** ** Decisions straight from the tables *)

(** What a device's settings say; [None]: it has none. *)
Definition device_context (d : FilterDb) (v : Uuid) : option DeviceFilterContext :=
  match settings_view d v with
  | None => None
  | Some (en, ids) => Some {| ctx_enabled := en; ctx_profiles := if en then compiled_profile d <$> ids else [] |}
  end.

Definition device_at (d : FilterDb) (ip : IpAddr) : option DeviceRow :=
  List.find (fun v => bool_decide (parse_ip (dr_last_ip v) = Some ip)) (f_devices d).

Definition decided (d : FilterDb) (context : option DeviceFilterContext) : str -> RecordType -> IpAddr -> CheckOutcome :=
  outcome_with_context
    {| fs_contexts := ∅; fs_device_contexts := ∅;
       fs_default_context := {| ctx_enabled := true; ctx_profiles := compiled_profile d <$> fc_default_profile_ids (stored_config d) |};
       fs_enabled := fc_enabled (stored_config d) |} context.

(** The cache decides as the tables do: by address, and for a device with settings. *)
Definition decides_as_stored (w : Filters) : Prop :=
  (forall domain qtype client,
     service_check (hot_state (fl_mem w)) domain qtype client
     = decided (fl_db w) (v ← device_at (fl_db w) client; device_context (fl_db w) (dr_id v)) domain qtype client)
  /\ (forall v c domain qtype client, device_context (fl_db w) v = Some c ->
     check_for_device (hot_state (fl_mem w)) domain qtype v client = decided (fl_db w) (Some c) domain qtype client).

(** ** An idle runner *)

Section idle.
Context {d : FilterDb} {s : FilterMem}.
Hypothesis ok : filter_ok d.
Hypothesis uniq : unique_devices d.
Hypothesis idle : in_step d s [].

Lemma nothing_dirty p b v : ~ profile_dirty [] p /\ ~ feed_dirty [] b /\ ~ device_dirty [] v /\ ~ default_dirty [].
Proof. unfold profile_dirty, feed_dirty, device_dirty, default_dirty. set_solver. Qed.

Lemma enabled_synced p r : r ∈ enabled_of p d -> synced d s r.
Proof.
  unfold enabled_of, blocklists_of. intros [Hr En]%list_elem_of_In%filter_In. apply list_elem_of_In, elem_of_sort_by, list_elem_of_In, filter_In in Hr as [Hr _].
  destruct (is_feeds _ _ _ _ _ idle r) as [Hd|[Hd|Hs]]; [by apply list_elem_of_In | done | | |done].
  - by destruct (nothing_dirty (row_profile r) 0 0).
  - by destruct (nothing_dirty 0 (row_id r) 0) as (_ & ? & _).
Qed.

Lemma slots_loaded (rs : list DbBlocklistRow) ks : (forall r, r ∈ rs -> synced d s r) ->
  Forall2 (fun r k => fm_blocklist_filters s !! row_id r = Some k) rs ks -> omap (fun f => fm_filters s !! f) ks = compiled_blocklist d <$> rs.
Proof.
  intros Hs F. induction F as [|r k rs ks Hk _ IH]; [done|]. destruct (Hs r) as (k' & K1 & K2); [by left|].
  assert (k' = k) as -> by congruence. cbn. rewrite K2. f_equal. apply IH. intros x Hx. apply Hs. by right.
Qed.

Lemma profile_loaded p k : fm_profiles s !! p = Some k -> load_profile s k = compiled_profile d p.
Proof.
  intros Hk. destruct (is_gone _ _ _ _ _ idle p k Hk) as [Hp|Hd]; [|by destruct (nothing_dirty p 0 0)].
  destruct (is_stitched _ _ _ _ _ idle p Hp) as [Hd|(slot & rp & a & ks & S1 & S2 & S3 & S4 & S5 & S6)]; [by destruct (nothing_dirty p 0 0)|].
  assert (slot = k) as -> by congruence. unfold load_profile. rewrite S2, S6. unfold compiled_profile. rewrite omap_app. f_equal.
  - apply slots_loaded; [|done]. intros r. apply enabled_synced.
  - cbn. by rewrite S4.
Qed.

Lemma known_loaded ids : load_profile s <$> known_slots (fm_profiles s) ids = compiled_profile d <$> List.filter (fun p => profile_exists p d) ids.
Proof.
  induction ids as [|p ids IH]; [done|]. unfold known_slots in *. cbn [omap list_omap List.filter]. destruct (fm_profiles s !! p) as [k|] eqn:E.
  - destruct (is_gone _ _ _ _ _ idle p k E) as [Hp|Hd]; [|by destruct (nothing_dirty p 0 0)]. rewrite Hp, !fmap_cons, IH. f_equal. by apply profile_loaded.
  - destruct (profile_exists p d) eqn:Hp; [|exact IH]. destruct (is_stitched _ _ _ _ _ idle p Hp) as [Hd|(k & rp & a & ks & Hk & _)]; [|congruence].
    by destruct (nothing_dirty p 0 0).
Qed.

Lemma default_loaded : load_context s (fm_default_context s)
  = {| ctx_enabled := true; ctx_profiles := compiled_profile d <$> fc_default_profile_ids (stored_config d) |}.
Proof.
  destruct (is_default _ _ _ _ _ idle) as [[]|[Hd|[(p & _ & Hd)|E]]];
    [by destruct (nothing_dirty 0 0 0) as (_ & _ & _ & ?) | by destruct (nothing_dirty p 0 0)|].
  rewrite <- (is_defaults _ _ _ _ _ idle), <- known_loaded, E. unfold default_context_of, mem_defaults.
  destruct (fc_default_profile_ids (fm_config s)) as [|p ids]; [done|]. by destruct (known_slots _ _).
Qed.

(** A device's context: as its settings say, or one that defers to the default. *)
Lemma device_loaded v : device_exists v d = true ->
  load_context s <$> fm_device_contexts s !! v = device_context d v
  \/ settings_view d v = None /\ fm_device_contexts s !! v = Some runtime_unfiltered.
Proof.
  intros Hv. destruct (is_device _ _ _ _ _ idle v Hv) as [[]|[Hd|[(p & _ & Hd)|Hc]]];
    [by destruct (nothing_dirty 0 0 v) as (_ & _ & ? & _) | by destruct (nothing_dirty p 0 0)|].
  unfold context_synced, device_context in *. destruct (settings_view d v) as [[en ids]|].
  - left. destruct Hc as (c & -> & <- & Hp). simpl. f_equal. unfold load_context. f_equal. destruct (rc_enabled c); [|by rewrite Hp].
    induction Hp as [|p k ids ks Hk _ IH]; [done|]. rewrite !fmap_cons, IH. f_equal. by apply profile_loaded.
  - destruct Hc as [-> | ->]; [by left | by right].
Qed.

Lemma outcome_loaded context domain qtype client :
  outcome_with_context (hot_state s) context domain qtype client = decided d context domain qtype client.
Proof.
  unfold decided, outcome_with_context, context_for_check. simpl. rewrite default_loaded, (is_enabled _ _ _ _ _ idle). done.
Qed.

Lemma outcome_unfiltered domain qtype client :
  decided d (Some (load_context s runtime_unfiltered)) domain qtype client = decided d None domain qtype client.
Proof. done. Qed.

Lemma check_loaded domain qtype client : service_check (hot_state s) domain qtype client
  = decided d (v ← device_at d client; device_context d (dr_id v)) domain qtype client.
Proof.
  unfold service_check. rewrite outcome_loaded. simpl. rewrite lookup_fmap. unfold device_at. destruct (List.find _ _) as [v|] eqn:E; simpl.
  - apply find_Some_elem in E as [Hv Ev]. apply bool_decide_eq_true in Ev. rewrite (is_address _ _ _ _ _ idle v client Hv Ev).
    destruct (device_loaded (dr_id v)) as [<- |[En ->]]; [apply device_exists_has; by exists v | done|]. unfold device_context. by rewrite En.
  - destruct (fm_contexts s !! client) as [c|] eqn:Ec; [|done]. destruct (is_nobody _ _ _ _ _ idle client c Ec) as (v & Hv & Ev).
    apply (find_None_elem _ _ v) in E; [|done]. cbv beta in E. by rewrite bool_decide_eq_true_2 in E.
Qed.

Lemma owns_settings v c : device_context d v = Some c -> device_exists v d = true.
Proof.
  unfold device_context, settings_view, settings_of, profiles_of_device. intros Hc. apply device_exists_has.
  destruct (List.find _ (f_settings d)) as [x|] eqn:E.
  - apply find_Some_elem in E as [Hx Ex]. breflect. rewrite <- Ex. by apply (fo_owned _ ok).
  - destruct (List.filter _ _) as [|r rs] eqn:Er; [done|]. assert (Hr : r ∈ List.filter (fun r => dp_device_id r =? v) (f_assigned d)) by (rewrite Er; by left).
    apply list_elem_of_In, filter_In in Hr as [Hr Ev]. breflect. rewrite <- Ev. apply (fo_links _ ok). by apply list_elem_of_In.
Qed.

Lemma check_device_loaded v c domain qtype client : device_context d v = Some c ->
  check_for_device (hot_state s) domain qtype v client = decided d (Some c) domain qtype client.
Proof.
  intros Hc. unfold check_for_device. rewrite outcome_loaded. simpl. rewrite lookup_fmap.
  destruct (device_loaded v) as [->|[En _]]; [by eapply owns_settings | by rewrite Hc|]. unfold device_context in Hc. by rewrite En in Hc.
Qed.
End idle.

(** ** What happens *)

(** A call the cache can follow (the lemmas of [FilterCalls.v] are on each).  The
    service accepts the others as well, and after them cache and tables may disagree
    for good: [FilterWitnesses.v] shows it for the deletion of an assigned profile and
    for an allow entry deleted under another profile's name.  The id of a new profile
    is fresh; no assigned profile is deleted; an allow entry is deleted under its own
    profile; settings name no profile twice; the configuration is not changed while a
    deleted profile is still among the defaults in memory. *)
Definition call_fine (c : FilterCall) (w : Filters) : Prop :=
  match c with
  | CallCreateProfile id _ => id ∉ mem_defaults (fl_mem w)
  | CallDeleteProfile id => forall r, r ∈ f_assigned (fl_db w) -> dp_profile_id r <> id
  | CallDeleteAllowed p id => forall e, e ∈ f_allowlist (fl_db w) -> al_id e = id -> al_profile_id e = p
  | CallUpdateSettings _ req => NoDup (ud_profile_ids req)
  | CallUpdateConfig _ => forall p, p ∈ mem_defaults (fl_mem w) -> profile_exists p (fl_db w) = true
  | _ => True
  end.

(** A device nobody knew, at an address nobody has. *)
Definition new_device (v : DeviceRow) (d : FilterDb) : Prop :=
  device_exists (dr_id v) d = false /\ forall x ip, x ∈ f_devices d -> parse_ip (dr_last_ip x) = Some ip -> parse_ip (dr_last_ip v) <> Some ip.

(** One thing that happens while storage answers: a call, a finished download, the runner
    handling an event, a restart of the cache, a discovered device, time passing. *)
Inductive serving : Filters -> Filters -> Prop :=
| serving_call ctx c w : call_fine c w -> serving w (snd (run_call ctx c w))
| serving_import bl fetched w : serving w (snd (import_feed bl fetched w))
| serving_runner w : serving w (runner_step w)
| serving_start w : serving w (snd (rebuild_all (Some system_ctx) w))
| serving_device v w : new_device v (fl_db w) ->
    serving w (set_fl_db (set_filter_devices (f_devices (fl_db w) ++ [v]) (fl_db w)) w)
| serving_clock now w : serving w (set_fl_now now w).

Definition ready (w : Filters) : Prop := filter_ok (fl_db w) /\ good (view w).

Lemma ready_view w : ready w -> view w = now_at (fl_db w) (fl_mem w) (fl_events w).
Proof. intros (_ & Hf & _). unfold now_at. simpl in *. by rewrite Hf. Qed.

Lemma call_to_unit {X} (m : ST Filters AppError X) v : wp m (fun _ => good) v -> wp (to_unit m) (fun _ => good) v.
Proof. intros Hm. unfold to_unit. apply wp_bind. eapply wp_conseq; [exact Hm|]. intros [x|e] v' Hv'; [by apply wp_ret | done]. Qed.

Lemma serving_call_good ctx c w : ready w -> call_fine c w -> good (view (snd (run_call ctx c w))).
Proof.
  intros Hr Hc. pose proof (ready_view w Hr) as Hv. destruct Hr as [Hok Hg]. rewrite Hv in Hg.
  assert (Hwp : wp (run_call ctx c) (fun _ => good) (now_at (fl_db w) (fl_mem w) (fl_events w))); [|exact (Hwp w Hv)].
  destruct c; simpl in *; try apply call_to_unit.
  - by apply call_create_profile.
  - by apply call_update_profile.
  - by apply call_delete_profile.
  - by apply call_create_blocklist.
  - by apply call_update_blocklist.
  - by apply call_delete_blocklist.
  - by apply call_create_allowed.
  - by apply call_delete_allowed.
  - by apply call_create_rule.
  - by apply call_update_rule.
  - by apply call_delete_rule.
  - by apply call_update_settings.
  - by apply call_update_config.
Qed.

(** Handling an event takes it off the queue and adds none. *)
Lemma runner_good w : ready w -> good (view (runner_step w)) /\ fl_events (runner_step w) = tail (fl_events w).
Proof.
  intros [Hok (Hf & Hs & Hu & Hc)]. simpl in *. unfold runner_step. destruct (fl_events w) as [|e es] eqn:E; [rewrite E; by split_and!; simpl; rewrite ?E|].
  destruct (event_in_step Hok Hu e es (fl_mem w) Hs (set_fl_events es w)) as (x & w' & -> & F & Hs'); [done..|].
  destruct F as [F1 F2 F3 F4]. simpl in *. split; [|done]. split_and!; simpl; rewrite ?F1, ?F2, ?F4; done.
Qed.

Lemma start_good w : filter_ok (fl_db w) -> unique_devices (fl_db w) -> canonical_defaults (fl_db w) -> fl_faults w = [] ->
  (forall e, e ∈ fl_events w -> event_fine (fl_db w) e) -> good (view (snd (rebuild_all (Some system_ctx) w))).
Proof.
  intros Hok Hu Hc Hf Hq. destruct (start_in_step Hok Hu (fl_mem w) (fl_events w) Hq w) as (x & w' & -> & F & Hs & _); [done..|].
  destruct F as [F1 F2 F3 F4]. split_and!; simpl; rewrite ?F1, ?F2, ?F4; done.
Qed.

(** ** A discovered device *)

Section discovered.
Context {d : FilterDb} {v : DeviceRow}.
Hypothesis ok : filter_ok d.
Hypothesis new : new_device v d.
Abbreviation d' := (set_filter_devices (f_devices d ++ [v]) d).

Lemma had_device x : has_device x d -> has_device x d'.
Proof. intros (y & Hy & E). exists y. split; [simpl; set_solver | done]. Qed.

Lemma discovered_ok : filter_ok d'.
Proof.
  constructor; try apply ok; simpl.
  - intros x Hx. by apply had_device, (fo_owned _ ok).
  - intros r Hr. split; [by apply had_device, (fo_links _ ok) | by apply (fo_links _ ok)].
Qed.

Lemma discovered_unique : unique_devices d -> unique_devices d'.
Proof.
  intros [H1 H2]. destruct new as [Hid Hip]. split; simpl.
  - rewrite fmap_app. apply NoDup_snoc; [done|]. intros (x & E & Hx)%list_elem_of_fmap.
    assert (Ht : device_exists (dr_id v) d = true) by (apply device_exists_has; by exists x). congruence.
  - intros x y ip [Hx|Hx%list_elem_of_singleton]%elem_of_app [Hy|Hy%list_elem_of_singleton]%elem_of_app E1 E2; subst; [by eapply H2 | | |done].
    + by destruct (Hip x ip Hx E1).
    + by destruct (Hip y ip Hy E2).
Qed.

Lemma discovered_exists x : device_exists x d' = true -> device_exists x d = true \/ x = dr_id v.
Proof.
  rewrite !device_exists_has. intros (y & [Hy|Hy%list_elem_of_singleton]%elem_of_app & <-); [left; by exists y | right; by subst].
Qed.

Lemma discovered_in_step s q : in_step d s q -> in_step d' s q.
Proof.
  intros H. destruct new as [Hid Hip].
  assert (Hnone : fm_device_contexts s !! dr_id v = None).
  { destruct (fm_device_contexts s !! dr_id v) as [c|] eqn:E; [|done]. apply (is_known _ _ _ _ _ H) in E. congruence. }
  split; try apply H.
  - intros x [Hx| ->]%discovered_exists; [by apply (is_device _ _ _ _ _ H)|]. right; right; right.
    assert (Ev : settings_view d' (dr_id v) = None).
    { destruct (settings_view d' (dr_id v)) as [[en ids]|] eqn:E; [|done].
      assert (Hd : device_exists (dr_id v) d = true); [|congruence]. eapply (owns_settings ok). unfold device_context.
      assert (E' : settings_view d (dr_id v) = Some (en, ids)) by exact E. by rewrite E'. }
    unfold context_synced. rewrite Ev. by left.
  - intros x ip [Hx|Hx%list_elem_of_singleton]%elem_of_app E; [by apply (is_address _ _ _ _ _ H)|]. subst x. rewrite Hnone.
    destruct (fm_contexts s !! ip) as [c|] eqn:Ec; [|done]. destruct (is_nobody _ _ _ _ _ H ip c Ec) as (y & Hy & Ey). by destruct (Hip y ip Hy Ey).
  - intros ip c Hc. destruct (is_nobody _ _ _ _ _ H ip c Hc) as (y & Hy & Ey). exists y. split; [simpl; set_solver | done].
  - intros x c Hc. apply (is_known _ _ _ _ _ H) in Hc. by apply device_exists_has, had_device, device_exists_has.
  - intros e He. pose proof (is_queue _ _ _ _ _ H e He) as Hf. destruct e as [[]| |]; try done. by apply device_exists_has, had_device, device_exists_has.
Qed.
End discovered.

Lemma serving_ready w w' : serving w w' -> ready w -> ready w'.
Proof.
  intros Hstep Hr. assert (Hok : fstep w w' -> filter_ok (fl_db w')).
  { intros Hs. eapply (fstep_kept (fl_db w) w w' Hs). split; [apply Hr | by intros p Hp _]. }
  pose proof Hr as [Hd (Hf & Hs & Hu & Hc)]. simpl in *. destruct Hstep as [ctx c w Hfine|bl fetched w|w|w|v w Hv|now w].
  - split; [apply Hok; constructor | by apply serving_call_good].
  - split; [apply Hok; constructor|]. by eapply import_good; [|apply ready_view|..].
  - split; [apply Hok; constructor | by apply runner_good].
  - split; [apply Hok; constructor|]. apply start_good; [done..|]. apply Hs.
  - split; [by apply discovered_ok|]. split_and!; simpl; [done | by apply discovered_in_step | by apply discovered_unique | done].
  - by split.
Qed.

(** As many steps of the runner as there are events. *)
Lemma drained n : forall w, length (fl_events w) = n -> ready w -> ready (Nat.iter n runner_step w) /\ fl_events (Nat.iter n runner_step w) = [].
Proof.
  induction n as [|n IH]; intros w Hn Hr; [split; [done | by apply length_zero_iff_nil]|]. rewrite Nat.iter_succ_r.
  apply IH; [|eapply serving_ready; [constructor | done]]. destruct (runner_good w Hr) as [_ ->]. destruct (fl_events w); simpl in *; lia.
Qed.

(** C5: The cache follows the tables, for the calls it can follow.  Start from a cache
    just compiled over consistent tables whose devices have distinct addresses, and let
    calls, downloads, rebuilds and discovered devices happen in any order, while
    storage answers; whenever the runner has handled what is queued, every query is
    decided exactly as the tables then say: by the profiles and the switch of the
    device at the client's address, by the default profiles when it has none, with the
    enabled blocklists' current domains, the allowlist and the custom rules of each
    profile.  The calls are those of [call_fine]: a profile that is assigned to a device
    is not deleted, an allow entry is deleted under its own profile, a device's settings
    name no profile twice, and the configuration is not updated between the deletion of
    a default profile and the handling of its event; no device changes its address or
    is removed.  Outside these the code does leave a stale cache. *)
Theorem queries_follow_tables w w' : filter_ok (fl_db w) -> unique_devices (fl_db w) -> canonical_defaults (fl_db w) -> fl_faults w = [] ->
  (forall e, e ∈ fl_events w -> event_fine (fl_db w) e) -> rtc serving (snd (rebuild_all (Some system_ctx) w)) w' ->
  let w'' := Nat.iter (length (fl_events w')) runner_step w' in fl_events w'' = [] /\ decides_as_stored w''.
Proof.
  intros Hok Hu Hc Hf Hq Hr. assert (Hw' : ready w').
  { assert (Hstart : ready (snd (rebuild_all (Some system_ctx) w))).
    { split; [|by apply start_good]. eapply (fstep_kept (fl_db w) w); [constructor|]. split; [done | by intros p Hp _]. }
    revert Hstart. clear -Hr. induction Hr as [|x y z Hxy _ IH]; [done|]. intros Hx. by apply IH, (serving_ready x). }
  intros w''. destruct (drained _ w' eq_refl Hw') as [Hready Hnil]. fold w'' in Hready, Hnil. split; [done|].
  destruct Hready as [Hok'' (_ & Hs & Hu'' & _)]. simpl in *. rewrite Hnil in Hs. split.
  - intros domain qtype client. by apply check_loaded.
  - intros v c domain qtype client. by apply check_device_loaded.
Qed.

End queries.
