(* ===== verification/FilterRefresh.v ===== *)
(** * Refreshing a blocklist

    [refresh_blocklist] of [dns_filter/service.rs] with its [InFlightRefreshGuard]: the
    dispatch gate, the reservations and the background tasks, one atomic region a step,
    in any interleaving. *)

From S2P Require Import Prelude RustStr Net Auth FilterParser DnsFilter PolicyRouter RoutingTypes ZoneTypes PolicyDb.
From S2P Require Import Tables Jobs FilterTypes FilterRepo FilterAdmin.

Record RefreshReservation : Type := { rr_token : Uuid; rr_job_id : Uuid }.

(** Waiting to be polled, waiting for the permit, importing, or over with its result
    still to be recorded in the registry. *)
Inductive Stage : Type := Fresh | Waiting | Importing | Over (r : result unit str).

(** A task, kept under its guard's token. *)
Record RefreshTask : Type := { tk_blocklist : Uuid; tk_job : Uuid; tk_stage : Stage }.
Definition set_stage (g : Stage) (t : RefreshTask) : RefreshTask := {| tk_blocklist := tk_blocklist t; tk_job := tk_job t; tk_stage := g |}.
Definition live (t : RefreshTask) : bool := match tk_stage t with Over _ => false | _ => true end.

(** The call that holds the gate; [ds_job]: what [dispatch] returned. *)
Record Dispatching : Type := { ds_blocklist : Uuid; ds_token : Uuid; ds_job : option Uuid }.

Record Refreshes : Type := {
  rf_in_flight : gmap Uuid RefreshReservation;
  rf_released : gset Uuid;
  rf_gate : option Dispatching;
  rf_tasks : gmap Uuid RefreshTask;
  rf_permits : Z;
  rf_jobs : gmap Z Job;
  rf_now : Z;
}.

Definition new_refreshes (now : Z) : Refreshes :=
  {| rf_in_flight := ∅; rf_released := ∅; rf_gate := None; rf_tasks := ∅; rf_permits := 1; rf_jobs := ∅; rf_now := now |}.

Definition set_gate (g : option Dispatching) (w : Refreshes) : Refreshes :=
  {| rf_in_flight := rf_in_flight w; rf_released := rf_released w; rf_gate := g; rf_tasks := rf_tasks w;
     rf_permits := rf_permits w; rf_jobs := rf_jobs w; rf_now := rf_now w |}.
Definition set_in_flight (m : gmap Uuid RefreshReservation) (w : Refreshes) : Refreshes :=
  {| rf_in_flight := m; rf_released := rf_released w; rf_gate := rf_gate w; rf_tasks := rf_tasks w;
     rf_permits := rf_permits w; rf_jobs := rf_jobs w; rf_now := rf_now w |}.
Definition set_jobs (m : gmap Z Job) (w : Refreshes) : Refreshes :=
  {| rf_in_flight := rf_in_flight w; rf_released := rf_released w; rf_gate := rf_gate w; rf_tasks := rf_tasks w;
     rf_permits := rf_permits w; rf_jobs := m; rf_now := rf_now w |}.
Definition set_tasks (m : gmap Uuid RefreshTask) (permits : Z) (w : Refreshes) : Refreshes :=
  {| rf_in_flight := rf_in_flight w; rf_released := rf_released w; rf_gate := rf_gate w; rf_tasks := m;
     rf_permits := permits; rf_jobs := rf_jobs w; rf_now := rf_now w |}.

(** [InFlightRefreshGuard::drop] *)
Definition drop_guard (id token : Uuid) (w : Refreshes) : Refreshes :=
  {| rf_in_flight := (match rf_in_flight w !! id with
                      | Some r => if rr_token r =? token then delete id (rf_in_flight w) else rf_in_flight w
                      | None => rf_in_flight w
                      end);
     rf_released := {[token]} ∪ rf_released w; rf_gate := rf_gate w; rf_tasks := rf_tasks w;
     rf_permits := rf_permits w; rf_jobs := rf_jobs w; rf_now := rf_now w |}.

(** ** The call *)

(** With the gate: the running job's id, or a dispatch begun. *)
Definition begin_refresh (id token : Uuid) (w : Refreshes) : option Uuid * Refreshes :=
  match rf_in_flight w !! id with
  | Some reservation => (Some (rr_job_id reservation), w)
  | None => (None, set_gate (Some {| ds_blocklist := id; ds_token := token; ds_job := None |}) w)
  end.

(** [jobs.dispatch(..)]: the entry, then the task. *)
Definition spawn_refresh (ds : Dispatching) (job_id : Uuid) (w : Refreshes) : Refreshes :=
  set_gate (Some {| ds_blocklist := ds_blocklist ds; ds_token := ds_token ds; ds_job := Some job_id |})
    (set_tasks (<[ds_token ds := {| tk_blocklist := ds_blocklist ds; tk_job := job_id; tk_stage := Fresh |}]> (rf_tasks w)) (rf_permits w)
       (set_jobs (insert_job job_id BlocklistRefresh (rf_now w) (rf_jobs w)) w)).

(** The call dropped while it waits for the registry: the task and its guard go with it. *)
Definition cancel_refresh (ds : Dispatching) (w : Refreshes) : Refreshes :=
  set_gate None (drop_guard (ds_blocklist ds) (ds_token ds) w).

(** The reservation, unless the job is already over. *)
Definition record_refresh (ds : Dispatching) (job_id : Uuid) (w : Refreshes) : Refreshes :=
  set_gate None
    (if bool_decide (ds_token ds ∈ rf_released w) then w
     else set_in_flight (<[ds_blocklist ds := {| rr_token := ds_token ds; rr_job_id := job_id |}]> (rf_in_flight w)) w).

(** ** The task *)

Definition QUEUED_PROGRESS : Z := 1.

Definition start_task (token : Uuid) (t : RefreshTask) (w : Refreshes) : Refreshes :=
  set_tasks (<[token := set_stage Waiting t]> (rf_tasks w)) (rf_permits w)
    (set_jobs (set_progress (tk_job t) QUEUED_PROGRESS (rf_now w) (mark_running (tk_job t) (rf_now w) (rf_jobs w))) w).

Definition acquire_permit (token : Uuid) (t : RefreshTask) (w : Refreshes) : Refreshes :=
  set_tasks (<[token := set_stage Importing t]> (rf_tasks w)) (rf_permits w - 1) w.

Definition report_task (t : RefreshTask) (percentage : Z) (w : Refreshes) : Refreshes :=
  set_jobs (set_progress (tk_job t) percentage (rf_now w) (rf_jobs w)) w.

(** The body's end, whichever way: the permit, then the guard. *)
Definition returned (t : RefreshTask) : Z := match tk_stage t with Importing => 1 | _ => 0 end.
Definition finish_task (token : Uuid) (t : RefreshTask) (r : result unit str) (w : Refreshes) : Refreshes :=
  drop_guard (tk_blocklist t) token (set_tasks (<[token := set_stage (Over r) t]> (rf_tasks w)) (rf_permits w + returned t) w).

(** Unwound by a panic, or dropped with the runtime: nothing is recorded. *)
Definition abort_task (token : Uuid) (t : RefreshTask) (w : Refreshes) : Refreshes :=
  drop_guard (tk_blocklist t) token (set_tasks (delete token (rf_tasks w)) (rf_permits w + returned t) w).

Definition settle_task (token : Uuid) (t : RefreshTask) (r : result unit str) (w : Refreshes) : Refreshes :=
  set_tasks (delete token (rf_tasks w)) (rf_permits w) (set_jobs (record_result (tk_job t) r (rf_now w) (rf_jobs w)) w).

Definition sweep_jobs (w : Refreshes) : Refreshes := set_jobs (sweep (rf_now w) (rf_jobs w)) w.

Definition advance (now : Z) (w : Refreshes) : Refreshes :=
  {| rf_in_flight := rf_in_flight w; rf_released := rf_released w; rf_gate := rf_gate w; rf_tasks := rf_tasks w;
     rf_permits := rf_permits w; rf_jobs := rf_jobs w; rf_now := now |}.

(** Tokens and job ids are new random UUIDs. *)
Definition new_token (token : Uuid) (w : Refreshes) : Prop :=
  rf_tasks w !! token = None /\ (token ∉ rf_released w) /\ (forall ds, rf_gate w = Some ds -> ds_token ds <> token).

Inductive rstep : Refreshes -> Refreshes -> Prop :=
| rstep_begin id token w : rf_gate w = None -> new_token token w -> rstep w (begin_refresh id token w).2
| rstep_spawn ds job_id w : rf_gate w = Some ds -> ds_job ds = None -> rf_jobs w !! job_id = None ->
    (forall k t, rf_tasks w !! k = Some t -> tk_job t <> job_id) -> rstep w (spawn_refresh ds job_id w)
| rstep_cancel ds w : rf_gate w = Some ds -> ds_job ds = None -> rstep w (cancel_refresh ds w)
| rstep_record ds job_id w : rf_gate w = Some ds -> ds_job ds = Some job_id -> rstep w (record_refresh ds job_id w)
| rstep_start token t w : rf_tasks w !! token = Some t -> tk_stage t = Fresh -> rstep w (start_task token t w)
| rstep_acquire token t w : rf_tasks w !! token = Some t -> tk_stage t = Waiting -> 0 < rf_permits w -> rstep w (acquire_permit token t w)
| rstep_report token t pct w : rf_tasks w !! token = Some t -> tk_stage t = Importing -> rstep w (report_task t pct w)
| rstep_finish token t r w : rf_tasks w !! token = Some t -> tk_stage t = Waiting \/ tk_stage t = Importing -> rstep w (finish_task token t r w)
| rstep_abort token t w : rf_tasks w !! token = Some t -> live t = true -> rstep w (abort_task token t w)
| rstep_settle token t r w : rf_tasks w !! token = Some t -> tk_stage t = Over r -> rstep w (settle_task token t r w)
| rstep_sweep w : rstep w (sweep_jobs w)
| rstep_clock now w : rstep w (advance now w).

(** ** The invariant *)

(** Whether a task's import is under way. *)
Definition importing_now (t : RefreshTask) : bool := match tk_stage t with Importing => true | _ => false end.

(** A job that has not ended. *)
Definition unfinished (id : Uuid) (w : Refreshes) : Prop := exists j, rf_jobs w !! id = Some j /\ (is_terminal (jb_status j) = false).

Record refresh_ok (w : Refreshes) : Prop := {
  ro_live k t : rf_tasks w !! k = Some t -> live t = true -> (k ∉ rf_released w) /\ unfinished (tk_job t) w
    /\ (rf_in_flight w !! tk_blocklist t = Some {| rr_token := k; rr_job_id := tk_job t |}
        \/ rf_gate w = Some {| ds_blocklist := tk_blocklist t; ds_token := k; ds_job := Some (tk_job t) |});
  ro_reserved id r : rf_in_flight w !! id = Some r ->
    exists t, rf_tasks w !! rr_token r = Some t /\ live t = true /\ tk_blocklist t = id /\ tk_job t = rr_job_id r;
  ro_gate ds : rf_gate w = Some ds -> rf_in_flight w !! ds_blocklist ds = None
    /\ match ds_job ds with
       | None => rf_tasks w !! ds_token ds = None /\ ds_token ds ∉ rf_released w
       | Some j => ds_token ds ∈ rf_released w \/ exists t, rf_tasks w !! ds_token ds = Some t /\ live t = true /\ tk_blocklist t = ds_blocklist ds /\ tk_job t = j
       end;
  ro_jobs k k' t t' : rf_tasks w !! k = Some t -> rf_tasks w !! k' = Some t' -> tk_job t = tk_job t' -> k = k';
  ro_permit : rf_permits w = 1 /\ (forall k t, rf_tasks w !! k = Some t -> importing_now t = false)
    \/ rf_permits w = 0 /\ (exists k0 t0, rf_tasks w !! k0 = Some t0 /\ importing_now t0 = true
         /\ forall k t, rf_tasks w !! k = Some t -> importing_now t = true -> k = k0);
}.

Lemma new_refreshes_ok now : refresh_ok (new_refreshes now).
Proof. split; simpl; try (by intros *; rewrite ?lookup_empty). left. split; [done|]. intros *. by rewrite lookup_empty. Qed.

(** Entries of unfinished jobs stay unfinished under everything but their own result. *)
Lemma unfinished_alter f id x w : (forall j, is_terminal (jb_status (f j)) = is_terminal (jb_status j)) -> unfinished x w ->
  unfinished x (set_jobs (alter f id (rf_jobs w)) w).
Proof.
  intros Hf (j & Hj & Ht). unfold unfinished. simpl. destruct (decide (x = id)) as [->|Hne].
  - exists (f j). rewrite lookup_alter_eq, Hj. split; [done | by rewrite Hf].
  - exists j. by rewrite lookup_alter_ne.
Qed.

Lemma running_live x id now w : unfinished x w -> unfinished x (set_jobs (mark_running id now (rf_jobs w)) w).
Proof.
  intros (j & Hj & Ht). unfold unfinished, mark_running. simpl. destruct (decide (x = id)) as [->|Hne].
  - exists (running now j). by rewrite lookup_alter_eq, Hj.
  - exists j. by rewrite lookup_alter_ne.
Qed.

Lemma progressed_live x id pct now w : unfinished x w -> unfinished x (set_jobs (set_progress id pct now (rf_jobs w)) w).
Proof. apply unfinished_alter. intros j. unfold progressed. by destruct (_ =? _). Qed.

(** A change of the registry alone. *)
Lemma refresh_ok_jobs m w : (forall k t, rf_tasks w !! k = Some t -> live t = true -> unfinished (tk_job t) w -> unfinished (tk_job t) (set_jobs m w)) ->
  refresh_ok w -> refresh_ok (set_jobs m w).
Proof.
  intros Hm H. split; try apply H. intros k t Hk Hl. destruct (ro_live _ H k t Hk Hl) as (H1 & H2 & H3). split_and!; [done | by eapply Hm | done].
Qed.

(** A task that goes on. *)
Lemma refresh_ok_stage k t g p w : refresh_ok w -> rf_tasks w !! k = Some t -> live t = true -> live (set_stage g t) = true ->
  (importing_now (set_stage g t) = importing_now t /\ p = rf_permits w
   \/ importing_now (set_stage g t) = true /\ 0 < rf_permits w /\ p = rf_permits w - 1) ->
  refresh_ok (set_tasks (<[k := set_stage g t]> (rf_tasks w)) p w).
Proof.
  intros H Hk Hl Hl' Hp. split; simpl.
  - intros x y [[<- <-]|[Hx Hy]]%lookup_insert_Some Hlive; [by apply (ro_live _ H k t) | by apply (ro_live _ H x y)].
  - intros id r Hr. destruct (ro_reserved _ H id r Hr) as (y & Hy & Hly & E1 & E2). destruct (decide (rr_token r = k)) as [Ek|Hne].
    + exists (set_stage g t). rewrite Ek, lookup_insert_eq. rewrite Ek in Hy. assert (y = t) as -> by congruence. done.
    + exists y. by rewrite lookup_insert_ne.
  - intros ds Hds. destruct (ro_gate _ H ds Hds) as [G1 G2]. split; [done|]. destruct (ds_job ds) as [j|].
    + destruct G2 as [G2|(y & Hy & Hly & E1 & E2)]; [by left|]. right. destruct (decide (ds_token ds = k)) as [Ek|Hne].
      * exists (set_stage g t). rewrite Ek, lookup_insert_eq. rewrite Ek in Hy. assert (y = t) as -> by congruence. done.
      * exists y. by rewrite lookup_insert_ne.
    + rewrite lookup_insert_ne; [done|]. intros E. destruct G2. congruence.
  - intros x x' y y' [[<- <-]|[Hx Hy]]%lookup_insert_Some [[<- <-]|[Hx' Hy']]%lookup_insert_Some E; [done | | |by eapply (ro_jobs _ H)].
    + by apply (ro_jobs _ H _ _ t y').
    + by apply (ro_jobs _ H _ _ y t).
  - destruct Hp as [[Ei ->]|(Ei & Hpos & ->)].
    + destruct (ro_permit _ H) as [[P1 P2]|[P1 (k0 & t0 & K1 & K2 & K3)]]; [left | right]; (split; [done|]).
      * intros x y [[<- <-]|[Hx Hy]]%lookup_insert_Some; [rewrite Ei|]; by eapply P2.
      * destruct (decide (k0 = k)) as [->|Hne].
        -- assert (t0 = t) as -> by congruence. exists k, (set_stage g t). rewrite lookup_insert_eq. split_and!; [done | by rewrite Ei|].
           intros x y [[<- <-]|[Hx Hy]]%lookup_insert_Some; [done | by apply K3].
        -- exists k0, t0. rewrite lookup_insert_ne by done. split_and!; [done | done|].
           intros x y [[<- <-]|[Hx Hy]]%lookup_insert_Some; [rewrite Ei; by apply K3 | by apply K3].
    + destruct (ro_permit _ H) as [[P1 P2]|[P1 _]]; [|lia]. right. split; [lia|]. exists k, (set_stage g t). rewrite lookup_insert_eq. split_and!; [done..|].
      intros x y [[<- <-]|[Hx Hy]]%lookup_insert_Some Hi; [done|]. rewrite (P2 x y Hy) in Hi. done.
Qed.

(** A task whose body ends gives back its permit and its reservation. *)
Lemma refresh_ok_end k t m w : refresh_ok w -> rf_tasks w !! k = Some t -> live t = true ->
  (forall x, x <> k -> m !! x = rf_tasks w !! x) -> (forall y, m !! k = Some y -> live y = false /\ importing_now y = false /\ tk_job y = tk_job t) ->
  refresh_ok (drop_guard (tk_blocklist t) k (set_tasks m (rf_permits w + returned t) w)).
Proof.
  intros H Hk Hl Hm Hend. set (flight := match rf_in_flight w !! tk_blocklist t with
    | Some r => if rr_token r =? k then delete (tk_blocklist t) (rf_in_flight w) else rf_in_flight w | None => rf_in_flight w end).
  assert (Hsub : forall id r, flight !! id = Some r <-> rf_in_flight w !! id = Some r /\ rr_token r <> k).
  { assert (Hmine : forall id r, rf_in_flight w !! id = Some r -> rr_token r = k -> id = tk_blocklist t).
    { intros id r Hr E. destruct (ro_reserved _ H id r Hr) as (y & Hy & _ & <- & _). rewrite E in Hy. congruence. }
    intros id r. unfold flight. destruct (rf_in_flight w !! tk_blocklist t) as [r0|] eqn:E0; [destruct (rr_token r0 =? k) eqn:Et; breflect|].
    - rewrite lookup_delete_Some. split; [intros [Hne Hr]; split; [done|]; intros E; by apply Hne; symmetry; eapply Hmine|].
      intros [Hr Hne]. split; [|done]. intros <-. congruence.
    - split; [|by intros []]. intros Hr. split; [done|]. intros E. assert (id = tk_blocklist t) as -> by (by eapply Hmine). congruence.
    - split; [|by intros []]. intros Hr. split; [done|]. intros E. assert (id = tk_blocklist t) as -> by (by eapply Hmine). congruence. }
  split; simpl; fold flight.
  - intros x y Hx Hly. assert (Hne : x <> k) by (intros ->; by destruct (Hend y Hx); congruence). rewrite Hm in Hx by done.
    destruct (ro_live _ H x y Hx Hly) as (H1 & H2 & H3). split_and!; [set_solver | exact H2|]. destruct H3 as [H3|H3]; [left | by right].
    apply Hsub. split; [done | simpl; congruence].
  - intros id r [Hr Hne]%Hsub. destruct (ro_reserved _ H id r Hr) as (y & Hy & Hrest). exists y. rewrite Hm by done. done.
  - intros ds Hds. destruct (ro_gate _ H ds Hds) as [G1 G2]. split.
    { destruct (flight !! ds_blocklist ds) as [r|] eqn:E; [|done]. apply Hsub in E as [E _]. congruence. }
    destruct (decide (ds_token ds = k)) as [Ek|Hne].
    + destruct (ds_job ds); [left; set_solver|]. destruct G2 as [G2 _]. congruence.
    + rewrite Hm by done. destruct (ds_job ds) as [j|]; [destruct G2 as [G2|G2]; [left; set_solver | by right]|]. split; [apply G2 | set_solver].
  - assert (Hb : forall x y, m !! x = Some y -> exists y0, rf_tasks w !! x = Some y0 /\ tk_job y0 = tk_job y).
    { intros x y Hx. destruct (decide (x = k)) as [->|Hne]; [|rewrite Hm in Hx by done; by exists y]. exists t. split; [done|]. symmetry. by apply Hend. }
    intros x x' y y' Hx Hx' E. destruct (Hb x y Hx) as (y0 & E0 & F0), (Hb x' y' Hx') as (y1 & E1 & F1). apply (ro_jobs _ H x x' y0 y1); [done | done | congruence].
  - unfold returned. destruct (ro_permit _ H) as [[P1 P2]|[P1 (k0 & t0 & K1 & K2 & K3)]].
    + specialize (P2 k t Hk) as Hi. left. split; [unfold importing_now in Hi; destruct (tk_stage t); try done; lia|].
      intros x y Hx. destruct (decide (x = k)) as [->|Hne]; [by apply Hend|]. rewrite Hm in Hx by done. by eapply P2.
    + destruct (decide (k0 = k)) as [->|Hne].
      * assert (t0 = t) as -> by congruence. left. unfold importing_now in K2. split; [destruct (tk_stage t); try done; lia|].
        intros x y Hx. destruct (decide (x = k)) as [->|Hne]; [by apply Hend|]. rewrite Hm in Hx by done. apply not_true_iff_false. intros Hi. by apply Hne, (K3 x y).
      * right. assert (Hi : importing_now t = false) by (apply not_true_iff_false; intros Hi; by apply Hne; symmetry; apply (K3 k t)).
        split; [unfold importing_now in Hi; destruct (tk_stage t); try done; lia|]. exists k0, t0. rewrite Hm by done. split_and!; [done | done|].
        intros x y Hx Hy. destruct (decide (x = k)) as [->|Hne']; [destruct (Hend y Hx) as (_ & E & _); congruence|]. rewrite Hm in Hx by done. by apply (K3 x y).
Qed.

Lemma begin_ok id token w : refresh_ok w -> rf_gate w = None -> new_token token w -> refresh_ok (begin_refresh id token w).2.
Proof.
  intros H Hg (N1 & N2 & _). unfold begin_refresh. destruct (rf_in_flight w !! id) eqn:E; [done|]. simpl. split; simpl; try apply H.
  - intros k t Hk Hl. destruct (ro_live _ H k t Hk Hl) as (H1 & H2 & [H3|H3]); [by split_and!; [..|left] | congruence].
  - by intros ds [= <-].
Qed.

Lemma spawn_ok ds job_id w : refresh_ok w -> rf_gate w = Some ds -> ds_job ds = None -> rf_jobs w !! job_id = None ->
  (forall k t, rf_tasks w !! k = Some t -> tk_job t <> job_id) -> refresh_ok (spawn_refresh ds job_id w).
Proof.
  intros H Hg Hj Hnew Hfresh. destruct (ro_gate _ H ds Hg) as [G1 G2]. rewrite Hj in G2. destruct G2 as [G2 G3].
  split; simpl.
  - intros k t [[<- <-]|[Hk Ht]]%lookup_insert_Some Hl.
    + split_and!; [done | |by right]. exists (new_job job_id BlocklistRefresh (rf_now w)).
      split; [apply lookup_insert_eq | done].
    + destruct (ro_live _ H k t Ht Hl) as (H1 & (j & E1 & E2) & [H3|H3]); [|rewrite Hg in H3; injection H3 as E; by rewrite E in Hj].
      split_and!; [done | |by left]. exists j. split; [|done]. simpl. etrans; [apply lookup_insert_ne; congruence | done].
  - intros id r Hr. destruct (ro_reserved _ H id r Hr) as (t & Ht & Hrest). exists t. rewrite lookup_insert_ne; [done|]. congruence.
  - intros x [= <-]. simpl. split; [done|]. right. rewrite lookup_insert_eq. by eexists.
  - intros k k' t t' [[<- <-]|[Hk Ht]]%lookup_insert_Some [[<- <-]|[Hk' Ht']]%lookup_insert_Some E; [done | | |by eapply (ro_jobs _ H)]; simpl in E.
    + by destruct (Hfresh k' t' Ht').
    + by destruct (Hfresh k t Ht).
  - destruct (ro_permit _ H) as [[P1 P2]|[P1 (k0 & t0 & K1 & K2 & K3)]]; [left | right]; (split; [done|]).
    + intros k t [[<- <-]|[Hk Ht]]%lookup_insert_Some; [done | by eapply P2].
    + exists k0, t0. rewrite lookup_insert_ne by congruence. split_and!; [done | done|]. intros k t [[<- <-]|[Hk Ht]]%lookup_insert_Some; [done | by apply K3].
Qed.

Lemma cancel_ok ds w : refresh_ok w -> rf_gate w = Some ds -> ds_job ds = None -> refresh_ok (cancel_refresh ds w).
Proof.
  intros H Hg Hj. destruct (ro_gate _ H ds Hg) as [G1 G2]. rewrite Hj in G2. destruct G2 as [G2 G3].
  unfold cancel_refresh, drop_guard. rewrite G1. split; simpl; try apply H; [|done].
  intros k t Hk Hl. destruct (ro_live _ H k t Hk Hl) as (H1 & H2 & [H3|H3]); [|rewrite Hg in H3; injection H3 as E; by rewrite E in Hj].
  split_and!; [|done|by left]. assert (k <> ds_token ds) by congruence. set_solver.
Qed.

Lemma recorded_ok ds job_id w : refresh_ok w -> rf_gate w = Some ds -> ds_job ds = Some job_id -> refresh_ok (record_refresh ds job_id w).
Proof.
  intros H Hg Hj. destruct (ro_gate _ H ds Hg) as [G1 G2]. rewrite Hj in G2. unfold record_refresh. case_bool_decide as Er.
  - split; simpl; try apply H; [|done]. intros k t Hk Hl. destruct (ro_live _ H k t Hk Hl) as (H1 & H2 & [H3|H3]); [by split_and!; [..|left]|].
    rewrite Hg in H3. injection H3 as E. rewrite E in Er. done.
  - destruct G2 as [G2|(t0 & T1 & T2 & T3 & T4)]; [done|]. split; simpl; try apply H; [| |done].
    + intros k t Hk Hl. destruct (ro_live _ H k t Hk Hl) as (H1 & H2 & [H3|H3]); (split_and!; [done | done|left]).
      * rewrite lookup_insert_ne; [done|]. congruence.
      * rewrite Hg in H3. injection H3 as E. rewrite E. simpl. rewrite lookup_insert_eq. rewrite E in Hj. simpl in Hj. congruence.
    + intros id r [[<- <-]|[Hne Hr]]%lookup_insert_Some; [|by apply (ro_reserved _ H)]. simpl. by exists t0.
Qed.

Lemma settle_ok token t r w : refresh_ok w -> rf_tasks w !! token = Some t -> tk_stage t = Over r -> refresh_ok (settle_task token t r w).
Proof.
  intros H Hk Hs. assert (Hdead : live t = false) by (unfold live; by rewrite Hs).
  assert (Hother : forall k y, rf_tasks w !! k = Some y -> live y = true -> k <> token) by (intros k y Hy Hl ->; congruence).
  split; simpl.
  - intros k y [Hne Hy]%lookup_delete_Some Hl. destruct (ro_live _ H k y Hy Hl) as (H1 & (j & E1 & E2) & H3). split_and!; [done | |done].
    exists j. split; [|done]. simpl. unfold record_result. rewrite lookup_alter_ne; [done|]. intros E. apply Hne. by apply (ro_jobs _ H _ _ t y).
  - intros id x Hx. destruct (ro_reserved _ H id x Hx) as (y & Hy & Hl & Hrest). exists y. rewrite lookup_delete_ne; [done|]. intros E. by apply (Hother (rr_token x) y).
  - intros ds Hds. destruct (ro_gate _ H ds Hds) as [G1 G2]. split; [done|]. destruct (ds_job ds) as [j|].
    + destruct G2 as [G2|(y & Hy & Hl & Hrest)]; [by left|]. right. exists y. rewrite lookup_delete_ne; [done|]. intros E. by apply (Hother (ds_token ds) y).
    + destruct G2 as [G2 G3]. split; [|done]. apply lookup_delete_None. by right.
  - intros k k' y y' [_ Hy]%lookup_delete_Some [_ Hy']%lookup_delete_Some. by apply (ro_jobs _ H).
  - destruct (ro_permit _ H) as [[P1 P2]|[P1 (k0 & t0 & K1 & K2 & K3)]]; [left | right]; (split; [done|]).
    + intros k y [_ Hy]%lookup_delete_Some. by eapply P2.
    + exists k0, t0. split_and!; [|done|by intros k y [_ Hy]%lookup_delete_Some; apply K3]. rewrite lookup_delete_ne; [done|]. intros ->.
      assert (t0 = t) as -> by congruence. unfold importing_now in K2. by rewrite Hs in K2.
Qed.

Lemma refresh_step_ok w w' : rstep w w' -> refresh_ok w -> refresh_ok w'.
Proof.
  intros Hs H. destruct Hs as [id token w Hg Hn|ds job_id w Hg Hj Hnew Hf|ds w Hg Hj|ds job_id w Hg Hj|token t w Hk Hst|token t w Hk Hst Hp
    |token t pct w Hk Hst|token t r w Hk Hst|token t w Hk Hl|token t r w Hk Hst|w|now w].
  - by apply begin_ok.
  - by apply spawn_ok.
  - by apply cancel_ok.
  - by apply recorded_ok.
  - apply (refresh_ok_stage token t Waiting (rf_permits w) (set_jobs _ w)); [|done | unfold live; by rewrite Hst | done | left; unfold importing_now; by rewrite Hst].
    apply refresh_ok_jobs; [|done]. intros k y _ _ Hu. exact (progressed_live _ _ _ _ (set_jobs _ w) (running_live _ _ _ w Hu)).
  - apply (refresh_ok_stage token t Importing (rf_permits w - 1) w); [done | done | unfold live; by rewrite Hst | done | by right].
  - apply refresh_ok_jobs; [|done]. intros k y _ _ Hu. by apply progressed_live.
  - apply refresh_ok_end; [done | done | unfold live; by destruct Hst as [-> | ->] | intros x Hx; by rewrite lookup_insert_ne|].
    intros y. rewrite lookup_insert_eq. by intros [= <-].
  - apply refresh_ok_end; [done | done | done | intros x Hx; by rewrite lookup_delete_ne|]. intros y. by rewrite lookup_delete_eq.
  - by apply settle_ok.
  - apply refresh_ok_jobs; [|done]. intros k y _ _ (j & E1 & E2). exists j. split; [|done]. simpl. apply map_lookup_filter_Some. split; [done|].
    simpl. unfold expired. by rewrite E2.
  - split; try apply H.
Qed.

Lemma refresh_reached now w : rtc rstep (new_refreshes now) w -> refresh_ok w.
Proof.
  intros Hr. pose proof (new_refreshes_ok now) as H. revert H. induction Hr as [|x y z Hxy _ IH]; [done|]. intros H. by apply IH, (refresh_step_ok x).
Qed.

(** C6: However calls, cron ticks, cancelled requests and tasks interleave, a blocklist is
    never imported twice at once and no two imports run together; a call that finds a
    refresh in flight is given the id of a job that exists and has not ended; and no
    blocklist is locked out: once no task of its refresh is left, the next call
    dispatches one. *)
Theorem refresh_once now w : rtc rstep (new_refreshes now) w ->
  (forall k k' t t', rf_tasks w !! k = Some t -> rf_tasks w !! k' = Some t' -> live t = true -> live t' = true -> tk_blocklist t = tk_blocklist t' -> k = k')
  /\ (forall k k' t t', rf_tasks w !! k = Some t -> rf_tasks w !! k' = Some t' -> importing_now t = true -> importing_now t' = true -> k = k')
  /\ (forall id token job_id, fst (begin_refresh id token w) = Some job_id -> unfinished job_id w)
  /\ (forall id token, (forall k t, rf_tasks w !! k = Some t -> live t = true -> tk_blocklist t <> id) ->
        fst (begin_refresh id token w) = None).
Proof.
  intros Hr. pose proof (refresh_reached now w Hr) as H. split_and!.
  - intros k k' t t' Hk Hk' Hl Hl' E. destruct (ro_live _ H k t Hk Hl) as (_ & _ & [H1|H1]), (ro_live _ H k' t' Hk' Hl') as (_ & _ & [H2|H2]); rewrite E in *.
    + congruence.
    + destruct (ro_gate _ H _ H2) as [G _]. simpl in G. congruence.
    + destruct (ro_gate _ H _ H1) as [G _]. simpl in G. congruence.
    + congruence.
  - intros k k' t t' Hk Hk' Hi Hi'. destruct (ro_permit _ H) as [[_ P]|[_ (k0 & t0 & _ & _ & P)]].
    + rewrite (P k t Hk) in Hi. done.
    + by rewrite (P k t Hk Hi), (P k' t' Hk' Hi').
  - intros id token job_id. unfold begin_refresh. destruct (rf_in_flight w !! id) as [r|] eqn:E; [|done]. simpl. intros [= <-].
    destruct (ro_reserved _ H id r E) as (t & Ht & Hl & _ & <-). by apply (ro_live _ H _ t Ht Hl).
  - intros id token Hnone. unfold begin_refresh. destruct (rf_in_flight w !! id) as [r|] eqn:E; [|done].
    destruct (ro_reserved _ H id r E) as (t & Ht & Hl & Hid & _). by destruct (Hnone _ t Ht Hl).
Qed.
