(* ===== verification/TunnelInterface.v ===== *)
(** * Tunnel interfaces

    The trait of [wardnetd-services/src/tunnel/interface.rs], what it promises to
    its callers, and its implementation [wardnetd/src/tunnel_interface_wireguard.rs]
    with the removal helpers of [wireguard_interface.rs], over the
    [wireguard-control] crate and the [ip] tool.  An interface name given to the
    crate is first parsed ([InterfaceName]); keys are their 32 bytes. *)

From S2P Require Import Prelude RustStr Net.

(** ** The trait *)

Section params.
Context {IpNetwork SocketAddr : Type}.

(** [TunnelConfig::WireGuard] *)
Record WireGuardParams : Type := {
  wc_address : list IpNetwork;
  wc_private_key : list Z;
  wc_listen_port : option Z;
  wc_peer_public_key : list Z;
  wc_peer_endpoint : option SocketAddr;
  wc_peer_allowed_ips : list IpNetwork;
  wc_peer_preshared_key : option (list Z);
  wc_persistent_keepalive : option Z;
}.

Record CreateTunnelParams : Type := {
  cp_interface_name : str;
  cp_config : WireGuardParams;
}.

End params.
Arguments WireGuardParams : clear implicits.
Arguments CreateTunnelParams : clear implicits.

Record TunnelStats : Type := {
  ts_bytes_tx : Z;
  ts_bytes_rx : Z;
  ts_last_handshake : option Z;
}.

Class TunnelInterface (N IpNetwork SocketAddr : Type) : Type := {
  if_create : CreateTunnelParams IpNetwork SocketAddr -> ST N str unit;
  if_bring_up : str -> ST N str unit;
  if_tear_down : str -> ST N str unit;
  if_remove : str -> ST N str unit;
  if_get_stats : str -> ST N str (option TunnelStats);
  if_list : ST N str (list str);
}.

(** What its callers rely on: a created interface is listed, a removed one is
    not, whatever fails, and no other interface comes or goes. *)
Class TunnelInterfaceLaws (N I A : Type) `{TunnelInterface N I A} : Type := {
  interfaces : N -> gset str;
  list_law n l n' : if_list n = (Ok l, n') -> interfaces n = list_to_set l;
  list_frame n : interfaces (snd (if_list n)) = interfaces n;
  create_law p n n' : if_create p n = (Ok tt, n') -> interfaces n' = {[cp_interface_name p]} ∪ interfaces n;
  create_frame p n x : x <> cp_interface_name p -> x ∈ interfaces (snd (if_create p n)) <-> x ∈ interfaces n;
  remove_law i n n' : if_remove i n = (Ok tt, n') -> interfaces n' = interfaces n ∖ {[i]};
  remove_frame i n x : x <> i -> x ∈ interfaces (snd (if_remove i n)) <-> x ∈ interfaces n;
  bring_up_frame i n : interfaces (snd (if_bring_up i n)) = interfaces n;
  tear_down_frame i n : interfaces (snd (if_tear_down i n)) = interfaces n;
  get_stats_frame i n : interfaces (snd (if_get_stats i n)) = interfaces n;
}.

(** ** Peer statistics *)

Record PeerStatsInput : Type := {
  pi_tx_bytes : Z;
  pi_rx_bytes : Z;
  pi_last_handshake_time : option Z;
}.

(** The sums of [u64] wrap. *)
Definition aggregate_step (s : TunnelStats) (p : PeerStatsInput) : TunnelStats :=
  {| ts_bytes_tx := wrap_u64 (ts_bytes_tx s + pi_tx_bytes p);
     ts_bytes_rx := wrap_u64 (ts_bytes_rx s + pi_rx_bytes p);
     ts_last_handshake :=
       match pi_last_handshake_time p with
       | Some hs => Some (match ts_last_handshake s with
                          | Some prev => if hs <? prev then prev else hs
                          | None => hs
                          end)
       | None => ts_last_handshake s
       end |}.

Definition aggregate_peer_stats (peers : list PeerStatsInput) : TunnelStats :=
  foldl aggregate_step {| ts_bytes_tx := 0; ts_bytes_rx := 0; ts_last_handshake := None |} peers.

(** ** The kernel through [wireguard-control] and [ip] *)

Inductive ErrorKind : Type := KindNotFound | KindConnectionRefused | KindOther.

Record IoError : Type := { io_raw_os_error : option Z; io_kind : ErrorKind; io_text : str }.

(** What a child process left: success, or its standard error. *)
Record Output : Type := { ou_success : bool; ou_stderr : str }.

Definition ENOENT : Z := 2.
Definition ENODEV : Z := 19.

Class WgKernel (K IpNetwork SocketAddr : Type) : Type := {
  parse_interface_name : str -> result str str;
  show_ip_network : IpNetwork -> str;
  ip_link_show : str -> ST K str Output;
  ip_link_delete : str -> ST K str Output;
  ip_link_set_up : str -> ST K str Output;
  ip_addr_add : str -> str -> ST K str Output;
  wg_apply : str -> WireGuardParams IpNetwork SocketAddr -> ST K str unit;
  wg_get : str -> ST K IoError (list PeerStatsInput);
  wg_delete : str -> ST K IoError unit;
  wg_list : ST K str (list str);
}.

Section wireguard.
Context {K I A : Type} {G : WgKernel K I A}.

Definition is_interface_absent_error (e : IoError) : bool :=
  match io_raw_os_error e with
  | Some n => (n =? ENODEV) || (n =? ENOENT)
  | None => false
  end
  || match io_kind e with KindNotFound | KindConnectionRefused => true | KindOther => false end.

(** [Device::get(..).and_then(Device::delete)] *)
Definition delete_wireguard_interface (interface_name label : str) : ST K str bool := fun k =>
  match parse_interface_name interface_name with
  | Err e => (Err ("invalid interface name: " ++ e), k)
  | Ok iface =>
      let '(r, k') := (_ ← wg_get iface; wg_delete iface) k in
      match r with
      | Ok _ => (Ok true, k')
      | Err e => (if is_interface_absent_error e then Ok false
                  else Err ("failed to remove " ++ label ++ " " ++ interface_name ++ ": " ++ io_text e), k')
      end
  end.

Definition remove_stale_link (interface_name : str) : ST K str unit := fun k =>
  let '(check, k1) := ip_link_show interface_name k in
  match check with
  | Ok o => if ou_success o then (Ok tt, snd (ip_link_delete interface_name k1)) else (Ok tt, k1)
  | Err _ => (Ok tt, k1)
  end.

Definition contains_any (ps : list string) (s : str) : bool := existsb (fun p => contains_str (of_string p) s) ps.

(** [ip addr add]; an address that is already there is no failure. *)
Definition assign_address (interface_name : str) (addr : I) : ST K str unit :=
  o ← ip_addr_add (show_ip_network addr) interface_name;
  if negb (ou_success o)
     && negb (contains_any ["RTNETLINK answers: File exists"; "Address already assigned"] (ou_stderr o))
  then st_fail ("`ip addr add " ++ show_ip_network addr ++ " dev " ++ interface_name ++ "` failed: "
                ++ trim (ou_stderr o))
  else mret tt.

Definition wg_bring_up (interface_name : str) : ST K str unit :=
  o ← ip_link_set_up interface_name;
  if negb (ou_success o)
  then st_fail ("`ip link set " ++ interface_name ++ " up` failed: " ++ trim (ou_stderr o))
  else mret tt.

Definition wg_create (params : CreateTunnelParams I A) : ST K str unit :=
  iface ← (match parse_interface_name (cp_interface_name params) with
           | Ok i => mret i
           | Err e => st_fail ("invalid interface name: " ++ e)
           end);
  _ ← remove_stale_link (cp_interface_name params);
  _ ← wg_apply iface (cp_config params);
  _ ← st_iter (assign_address (cp_interface_name params)) (wc_address (cp_config params));
  wg_bring_up (cp_interface_name params).

Definition wg_tear_down (interface_name : str) : ST K str unit := mret tt.

Definition wg_remove (interface_name : str) : ST K str unit :=
  _ ← delete_wireguard_interface interface_name (of_string "wireguard interface"); mret tt.

Definition wg_get_stats (interface_name : str) : ST K str (option TunnelStats) := fun k =>
  match parse_interface_name interface_name with
  | Err e => (Err ("invalid interface name: " ++ e), k)
  | Ok iface =>
      let '(r, k') := wg_get iface k in
      (match r with
       | Ok peers => Ok (Some (aggregate_peer_stats peers))
       | Err e => if is_interface_absent_error e then Ok None
                  else Err ("failed to query wireguard interface " ++ interface_name ++ " stats: " ++ io_text e)
       end, k')
  end.

#[export] Instance wireguard_tunnel_interface : TunnelInterface K I A := {|
  if_create := wg_create; if_bring_up := wg_bring_up; if_tear_down := wg_tear_down;
  if_remove := wg_remove; if_get_stats := wg_get_stats; if_list := wg_list;
|}.

(** What is documented of the crate and the tool: [apply] makes the interface
    exist, [delete] removes it, [get] fails as for a missing device exactly when
    it is missing, and an interface name parses to itself. *)
Class WgKernelLaws : Type := {
  links : K -> gset str;
  parse_name_law s t : parse_interface_name s = Ok t -> t = s;
  wg_list_law k l k' : wg_list k = (Ok l, k') -> links k = list_to_set l;
  wg_list_frame k : links (snd (wg_list k)) = links k;
  wg_apply_law i c k k' : wg_apply i c k = (Ok tt, k') -> links k' = {[i]} ∪ links k;
  wg_apply_frame i c k x : x <> i -> x ∈ links (snd (wg_apply i c k)) <-> x ∈ links k;
  wg_get_frame i k : links (snd (wg_get i k)) = links k;
  wg_get_absent i k e : fst (wg_get i k) = Err e -> is_interface_absent_error e = true -> i ∉ links k;
  wg_delete_law i k k' : wg_delete i k = (Ok tt, k') -> links k' = links k ∖ {[i]};
  wg_delete_absent i k e : fst (wg_delete i k) = Err e -> is_interface_absent_error e = true ->
    i ∉ links (snd (wg_delete i k));
  wg_delete_frame i k x : x <> i -> x ∈ links (snd (wg_delete i k)) <-> x ∈ links k;
  link_show_frame i k : links (snd (ip_link_show i k)) = links k;
  link_up_frame i k : links (snd (ip_link_set_up i k)) = links k;
  addr_add_frame a i k : links (snd (ip_addr_add a i k)) = links k;
  link_delete_frame i k x : x <> i -> x ∈ links (snd (ip_link_delete i k)) <-> x ∈ links k;
}.

Context {GL : WgKernelLaws}.

Lemma stale_frame i k x : x <> i -> x ∈ links (snd (remove_stale_link i k)) <-> x ∈ links k.
Proof.
  intros Hx. unfold remove_stale_link. pose proof (link_show_frame i k) as Hs.
  destruct (ip_link_show i k) as [[o|e] k1]; simpl in *; [|by rewrite Hs].
  destruct (ou_success o); simpl; [|by rewrite Hs]. by rewrite link_delete_frame, Hs.
Qed.

Lemma bring_up_links i k : links (snd (wg_bring_up i k)) = links k.
Proof.
  unfold wg_bring_up, mbind, st_bind. pose proof (link_up_frame i k) as Hs.
  destruct (ip_link_set_up i k) as [[o|e] k1]; simpl in *; [|done]. by destruct (ou_success o).
Qed.

Lemma assign_links i l k : links (snd (st_iter (assign_address i) l k)) = links k.
Proof.
  revert k. induction l as [|a l IH]; intros k; simpl; [done|]. unfold mbind, st_bind, assign_address, mbind, st_bind.
  pose proof (addr_add_frame (show_ip_network a) i k) as Ha.
  destruct (ip_addr_add (show_ip_network a) i k) as [[o|e] k1]; simpl in *; [|done].
  destruct (_ && _); simpl; [done|]. by rewrite IH.
Qed.

(** After the interface exists, nothing of the creation takes it away. *)
Lemma create_links p k x : (fst (wg_create p k) = Ok tt -> x ∈ links (snd (wg_create p k)) <->
    x = cp_interface_name p \/ x ∈ links k) /\
  (x <> cp_interface_name p -> x ∈ links (snd (wg_create p k)) <-> x ∈ links k).
Proof.
  unfold wg_create, mbind, st_bind. destruct (parse_interface_name _) as [t|] eqn:Et; simpl; [|done].
  apply parse_name_law in Et as ->. set (i := cp_interface_name p).
  pose proof (stale_frame i k x) as Hs. destruct (remove_stale_link i k) as [[u|e] k1] eqn:E1; simpl in *; [|by split; [|exact Hs]].
  pose proof (wg_apply_frame i (cp_config p) k1 x) as Hf. destruct (wg_apply i (cp_config p) k1) as [[[]|e] k2] eqn:E2; simpl in *.
  2:{ split; [done|]. intros Hx. by rewrite Hf, Hs. }
  pose proof (assign_links i (wc_address (cp_config p)) k2) as Ha.
  assert (H2 : x ∈ links k2 <-> x = i \/ x ∈ links k).
  { rewrite (wg_apply_law _ _ _ _ E2). destruct (decide (x = i)) as [->|Hx]; [set_solver|]. rewrite elem_of_union, Hs by done. set_solver. }
  destruct (st_iter (assign_address i) (wc_address (cp_config p)) k2) as [[[]|e] k3] eqn:E3; simpl in *.
  2:{ split; [done|]. intros Hx. rewrite Ha, H2. naive_solver. }
  rewrite bring_up_links, Ha. split; [done|]. intros Hx. rewrite H2. naive_solver.
Qed.

Lemma delete_links i label k x :
  (forall b, fst (delete_wireguard_interface i label k) = Ok b -> links (snd (delete_wireguard_interface i label k)) = links k ∖ {[i]}) /\
  (x <> i -> x ∈ links (snd (delete_wireguard_interface i label k)) <-> x ∈ links k).
Proof.
  unfold delete_wireguard_interface. destruct (parse_interface_name i) as [t|] eqn:Et; simpl; [|done].
  apply parse_name_law in Et as ->. unfold mbind, st_bind.
  pose proof (wg_get_frame i k) as Hg. pose proof (wg_get_absent i k) as Ha. destruct (wg_get i k) as [[u|e] k1]; simpl in *.
  - pose proof (wg_delete_frame i k1) as Hf. pose proof (wg_delete_absent i k1) as Hda.
    destruct (wg_delete i k1) as [[[]|e] k2] eqn:Ed; simpl in *.
    + rewrite (wg_delete_law _ _ _ Ed), Hg. split; [done|]. set_solver.
    + split; [|intros Hx; by rewrite Hf, Hg]. destruct (is_interface_absent_error e) eqn:Ea; [|done]. intros b _.
      specialize (Hda e eq_refl Ea). apply set_eq. intros y. destruct (decide (y = i)) as [->|Hy]; [set_solver|].
      rewrite Hf, Hg by done. set_solver.
  - split; [|intros Hx; by rewrite Hg]. destruct (is_interface_absent_error e) eqn:Ea; [|done]. intros b _. rewrite Hg.
    specialize (Ha e eq_refl Ea). set_solver.
Qed.

(** The implementation keeps the promises of the trait. *)
#[export] Instance wireguard_interface_laws : TunnelInterfaceLaws K I A.
Proof.
  refine {| interfaces := links |}; simpl.
  - exact wg_list_law.
  - exact wg_list_frame.
  - intros p k k' E. apply set_eq. intros x. destruct (create_links p k x) as [H _]. rewrite E in H. simpl in H.
    rewrite H by done. set_solver.
  - intros p k x. apply create_links.
  - intros i k k'. unfold wg_remove, mbind, st_bind. destruct (delete_links i (of_string "wireguard interface") k i) as [H _].
    destruct (delete_wireguard_interface _ _ _) as [[b|e] k1]; simpl in *; [|done]. intros [= <-]. by apply (H b).
  - intros i k x Hx. unfold wg_remove, mbind, st_bind. destruct (delete_links i (of_string "wireguard interface") k x) as [_ H].
    by destruct (delete_wireguard_interface _ _ _) as [[b|e] k1]; apply H.
  - apply bring_up_links.
  - done.
  - intros i k. unfold wg_get_stats. destruct (parse_interface_name i) as [t|]; [|done].
    pose proof (wg_get_frame t k). by destruct (wg_get t k).
Defined.

End wireguard.
Arguments WgKernelLaws : clear implicits.
Arguments WgKernelLaws K I A {G}.
