(* ===== verification/TunnelService.v ===== *)
(** * The tunnel service

    [wardnetd-services/src/tunnel/service.rs] (every method of the trait and its
    helpers) over the tunnel repository ([sqlite/tunnel.rs],
    [sqlite/tunnel_speed_test.rs]) and the statements of the device and settings
    repositories it uses.

    The tables share the database and its fault oracle with [PolicyDb]; kernel,
    keys, provider, probes, name resolution and the clock are an environment [N].
    Fresh ids are arguments, [f64] is an interface of its operations, and the
    RAII guard of a test is the pair of claim and release.  A dispatched job is
    left in [tw_jobs] until it runs. *)

From S2P Require Import Prelude RustStr Net Auth PolicyRouter RoutingTypes ZoneTypes PolicyDb WgConfig.
From S2P Require Import TunnelInterface.

(** ** What the service looks up elsewhere *)

(** [f64], as far as it is computed with here. *)
Class Float64 : Type := {
  f64 : Type;
  f_of_u64 : Z -> f64;
  f_add : f64 -> f64 -> f64;
  f_sub : f64 -> f64 -> f64;
  f_mul : f64 -> f64 -> f64;
  f_div : f64 -> f64 -> f64;
  f_sqrt : f64 -> f64;
  f_midpoint : f64 -> f64 -> f64;
}.

Inductive ResolveError : Type := EmptyServerList (msg : str) | ResolveFailed (msg : str).

Inductive ProbeError : Type :=
| ProbeConnect (msg : str) | ProbeParse (msg : str) | ProbeTimeout (ms : Z) | ProbeUnsupported (msg : str).

Inductive LatencyProbeError : Type := LatencyProbe (msg : str) | LatencyTimeout (ms : Z) | LatencyUnsupported (msg : str).

Record ExitInfo : Type := { ex_ip : str; ex_country_code : str }.

(** [Instant]s and times are nanoseconds. *)
Class TunnelEnv (N : Type) : Type := {
  IpNetwork : Type;
  SocketAddr : Type;
  te_interface :: TunnelInterface N IpNetwork SocketAddr;
  te_float :: Float64;
  decode_base64 : str -> result (list Z) str;
  parse_ip_network : str -> result IpNetwork str;
  parse_socket_addr : str -> option SocketAddr;
  lookup_host : str -> ST N str (list SocketAddr);
  save_key : Uuid -> str -> ST N str unit;
  load_key : Uuid -> ST N str str;
  delete_key : Uuid -> ST N str unit;
  resolve_server : str -> str -> Z -> ST N ResolveError (option (str * str));
  exit_probe : str -> ST N ProbeError ExitInfo;
  latency_probe : option str -> ST N LatencyProbeError Z;
  download : option str -> ST N str f64;
  utc_now : N -> Z;
  instant_now : N -> Z;
  sleep_ms : Z -> N -> N;
}.

(** ** Rows *)

(** [DbTunnelRow] with [DbTunnelConfigRow]: one row of [tunnels]; the JSON
    columns hold the value they are written from. *)
Record TunnelRec : Type := {
  tr_id : Uuid;
  tr_label : str;
  tr_country_code : str;
  tr_provider : option str;
  tr_interface_name : str;
  tr_endpoint : str;
  tr_status : str;
  tr_last_handshake : option Z;
  tr_bytes_tx : Z;
  tr_bytes_rx : Z;
  tr_address : list str;
  tr_dns : list str;
  tr_peer : WgPeerConfig;
  tr_listen_port : option Z;
  tr_override_default_dns : bool;
  tr_server_selector_country : option str;
  tr_resolved_server_name : option str;
  tr_endpoint_resolved_at : option Z;
}.

(** [Tunnel] of [wardnet-common/src/tunnel.rs], without [created_at]. *)
Record TunnelView : Type := {
  tv_id : Uuid;
  tv_label : str;
  tv_country_code : str;
  tv_provider : option str;
  tv_interface_name : str;
  tv_endpoint : str;
  tv_status : TunnelStatus;
  tv_last_handshake : option Z;
  tv_bytes_tx : Z;
  tv_bytes_rx : Z;
  tv_override_default_dns : bool;
  tv_server_selector : option str;
  tv_resolved_server_name : option str;
  tv_endpoint_resolved_at : option Z;
}.

Record StoredConfig : Type := {
  sc_address : list str;
  sc_dns : list str;
  sc_listen_port : option Z;
  sc_peer : WgPeerConfig;
  sc_override_default_dns : bool;
}.

Definition status_of_text (s : str) : TunnelStatus :=
  if bool_decide (s = of_string "up") then Up
  else if bool_decide (s = of_string "connecting") then Connecting
  else if bool_decide (s = of_string "reconnecting") then Reconnecting
  else Down.

(** [u64::cast_signed], [i64::cast_unsigned] *)
Definition cast_signed (x : Z) : Z := if x <? 2 ^ 63 then x else x - 2 ^ 64.
Definition cast_unsigned (x : Z) : Z := if x <? 0 then x + 2 ^ 64 else x.

Definition into_tunnel (r : TunnelRec) : TunnelView :=
  {| tv_id := tr_id r; tv_label := tr_label r; tv_country_code := tr_country_code r;
     tv_provider := tr_provider r; tv_interface_name := tr_interface_name r; tv_endpoint := tr_endpoint r;
     tv_status := status_of_text (tr_status r); tv_last_handshake := tr_last_handshake r;
     tv_bytes_tx := cast_unsigned (tr_bytes_tx r); tv_bytes_rx := cast_unsigned (tr_bytes_rx r);
     tv_override_default_dns := tr_override_default_dns r;
     tv_server_selector := tr_server_selector_country r; tv_resolved_server_name := tr_resolved_server_name r;
     tv_endpoint_resolved_at := tr_endpoint_resolved_at r |}.

Definition into_tunnel_config (r : TunnelRec) : StoredConfig :=
  {| sc_address := tr_address r; sc_dns := tr_dns r; sc_listen_port := tr_listen_port r;
     sc_peer := tr_peer r; sc_override_default_dns := tr_override_default_dns r |}.

(** ** SQL on texts *)

(** [REPLACE(s, pattern, '')]; [skip] bytes of a match are still to be dropped. *)
Fixpoint sql_remove (pattern : str) (skip : nat) (s : str) : str :=
  match s with
  | [] => []
  | c :: rest =>
      match skip with
      | S k => sql_remove pattern k rest
      | O => if starts_with pattern s && negb (bool_decide (pattern = []))
             then sql_remove pattern (length pattern - 1) rest
             else c :: sql_remove pattern O rest
      end
  end.

Fixpoint leading_digits (s : str) : str :=
  match s with
  | c :: rest => if is_ascii_digit c then c :: leading_digits rest else []
  | [] => []
  end.

Definition I64_MAX : Z := 9223372036854775807.

Definition decimal (s : str) : Z := foldl (fun acc c => acc * 10 + digit_val c) 0 s.

(** [CAST(s AS INTEGER)]: the longest prefix that is an integer, 0 without one,
    clamped to 64 bits. *)
Definition sql_cast_integer (s : str) : Z :=
  let s := drop_while is_ws_byte s in
  match s with
  | c :: rest =>
      if bool_decide (c = "-"%char) then Z.max (- I64_MAX - 1) (- decimal (leading_digits rest))
      else if bool_decide (c = "+"%char) then Z.min I64_MAX (decimal (leading_digits rest))
      else Z.min I64_MAX (decimal (leading_digits s))
  | [] => 0
  end.

Definition TUNNEL_INTERFACE_PREFIX : str := of_string "wg_ward".

Definition interface_index (name : str) : Z := sql_cast_integer (sql_remove TUNNEL_INTERFACE_PREFIX O name).

(** [format!("{}", idx)] of an [i64] *)
Definition show_i64 (n : Z) : str :=
  if n <? 0 then "-"%char :: show_digits 20 (- n) else show_digits 20 n.

(** ** Events *)

Inductive TunnelEvent : Type :=
| TunnelConnecting (tunnel_id : Uuid) (interface_name endpoint : str)
| TunnelUp (tunnel_id : Uuid) (interface_name endpoint : str)
| TunnelReconnecting (tunnel_id : Uuid) (interface_name : str) (last_handshake : option Z)
| TunnelDown (tunnel_id : Uuid) (interface_name reason : str)
| TunnelStartFailed (tunnel_id : Uuid) (interface_name error : str)
| TunnelStatsUpdated (tunnel_id : Uuid) (status : TunnelStatus) (bytes_tx bytes_rx : Z) (last_handshake : option Z)
| TunnelDnsOverrideChanged (tunnel_id : Uuid)
| TunnelRuleChanged (device_id : Uuid) (target : RoutingTarget) (previous_target : option RoutingTarget)
    (changed_by : RuleCreator)
| TunnelPolicyChanged (policy : str).

Definition TUNNEL_DOWN_INTERFACE_ABSENT : str := of_string "interface absent".

(** [AppError]'s [Display]; an internal error is shown as its cause. *)
Definition error_text (e : AppError) : str :=
  match e with
  | NotFound m => "not found: " ++ m
  | Unauthorized m => "unauthorized: " ++ m
  | Forbidden m => "forbidden: " ++ m
  | BadRequest m => "bad request: " ++ m
  | Conflict m => "conflict: " ++ m
  | TooManyRequests m _ => "too many requests: " ++ m
  | UpstreamUnavailable m => "upstream unavailable: " ++ m
  | Internal m => m
  | Database m => m
  end.

Definition wg_error_text (e : WgConfigError) : str :=
  match e with
  | MissingInterface => of_string "missing [Interface] section"
  | MissingPrivateKey => of_string "missing PrivateKey in [Interface]"
  | MissingPeer => of_string "missing [Peer] section"
  | MissingPublicKey => of_string "missing PublicKey in [Peer]"
  | InvalidLine l => "invalid line: " ++ l
  | UnknownSection n => "unknown section: " ++ n
  end.

(** ** [parse_port] *)

(** [rsplit(c).next()]: what follows the last [c], or all of it. *)
Definition after_last (c : ascii) (s : str) : str := default [] (last (split c s)).

Definition parse_port (endpoint : option str) : Z :=
  match endpoint ≫= (fun ep => parse_uint U16_MAX (after_last ":" ep)) with
  | Some p => p
  | None => 51820
  end.

Definition SPEED_TEST_HISTORY_LIMIT : Z := 5.

Section tunnel_service.
Context {N : Type} {TE : TunnelEnv N} {U : UuidText}.

Record SpeedTestRow : Type := {
  st_id : Uuid;
  st_tunnel_id : Uuid;
  direct_throughput_mbps : f64;
  tunnel_throughput_mbps : f64;
  direct_latency_ms : f64;
  tunnel_latency_ms : f64;
  direct_jitter_ms : f64;
  tunnel_jitter_ms : f64;
  tested_at : Z;
}.

(** A stored rule of a routing profile ([DbRuleRow] of [sqlite/routing_profile.rs]);
    no call of this service writes one. *)
Record ProfileRuleRow : Type := {
  pr_id : Uuid;
  pr_profile_id : Uuid;
  pr_pattern : str;
  pr_target_kind : str;
  pr_tunnel_id : option Uuid;
  pr_enabled : bool;
  pr_created_at : Z;
  pr_updated_at : Z;
}.

(** A sample given to the meter: counter or gauge, tunnel, value. *)
Inductive Sample : Type :=
| BytesTx (tunnel_id : Uuid) (delta : Z)
| BytesRx (tunnel_id : Uuid) (delta : Z)
| LatencyRtt (tunnel_id : Uuid) (rtt_ms : Z).

Record Tunnels : Type := {
  tw_env : N;
  tw_policy : Policy;
  tw_rows : list TunnelRec;
  tw_results : list SpeedTestRow;
  tw_profile_rules : list ProfileRuleRow;
  tw_last_bytes : gmap Uuid (Z * Z);
  tw_in_flight : gset Uuid;
  tw_jobs : list (Uuid * Uuid);
  tw_samples : list Sample;
  tw_events : list TunnelEvent;
}.

Definition upd (env : N) (policy : Policy) (rows : list TunnelRec) (w : Tunnels) : Tunnels :=
  {| tw_env := env; tw_policy := policy; tw_rows := rows; tw_results := tw_results w;
     tw_profile_rules := tw_profile_rules w;
     tw_last_bytes := tw_last_bytes w; tw_in_flight := tw_in_flight w; tw_jobs := tw_jobs w;
     tw_samples := tw_samples w; tw_events := tw_events w |}.
Definition set_env (n : N) (w : Tunnels) : Tunnels := upd n (tw_policy w) (tw_rows w) w.
Definition set_tpolicy (p : Policy) (w : Tunnels) : Tunnels := upd (tw_env w) p (tw_rows w) w.
Definition set_rows (l : list TunnelRec) (w : Tunnels) : Tunnels := upd (tw_env w) (tw_policy w) l w.
Definition set_results (l : list SpeedTestRow) (w : Tunnels) : Tunnels :=
  {| tw_env := tw_env w; tw_policy := tw_policy w; tw_rows := tw_rows w; tw_results := l;
    
     tw_profile_rules := tw_profile_rules w; tw_last_bytes := tw_last_bytes w; tw_in_flight := tw_in_flight w; tw_jobs := tw_jobs w;
     tw_samples := tw_samples w; tw_events := tw_events w |}.
Definition set_profile_rules (l : list ProfileRuleRow) (w : Tunnels) : Tunnels :=
  {| tw_env := tw_env w; tw_policy := tw_policy w; tw_rows := tw_rows w; tw_results := tw_results w;
     tw_profile_rules := l; tw_last_bytes := tw_last_bytes w; tw_in_flight := tw_in_flight w;
     tw_jobs := tw_jobs w; tw_samples := tw_samples w; tw_events := tw_events w |}.
Definition set_last_bytes (m : gmap Uuid (Z * Z)) (w : Tunnels) : Tunnels :=
  {| tw_env := tw_env w; tw_policy := tw_policy w; tw_rows := tw_rows w; tw_results := tw_results w;
     tw_profile_rules := tw_profile_rules w;
     tw_last_bytes := m; tw_in_flight := tw_in_flight w; tw_jobs := tw_jobs w; tw_samples := tw_samples w;
     tw_events := tw_events w |}.
Definition set_in_flight (s : gset Uuid) (w : Tunnels) : Tunnels :=
  {| tw_env := tw_env w; tw_policy := tw_policy w; tw_rows := tw_rows w; tw_results := tw_results w;
     tw_profile_rules := tw_profile_rules w;
     tw_last_bytes := tw_last_bytes w; tw_in_flight := s; tw_jobs := tw_jobs w; tw_samples := tw_samples w;
     tw_events := tw_events w |}.
Definition set_jobs (l : list (Uuid * Uuid)) (w : Tunnels) : Tunnels :=
  {| tw_env := tw_env w; tw_policy := tw_policy w; tw_rows := tw_rows w; tw_results := tw_results w;
     tw_profile_rules := tw_profile_rules w;
     tw_last_bytes := tw_last_bytes w; tw_in_flight := tw_in_flight w; tw_jobs := l; tw_samples := tw_samples w;
     tw_events := tw_events w |}.
Definition add_samples (l : list Sample) (w : Tunnels) : Tunnels :=
  {| tw_env := tw_env w; tw_policy := tw_policy w; tw_rows := tw_rows w; tw_results := tw_results w;
     tw_profile_rules := tw_profile_rules w;
     tw_last_bytes := tw_last_bytes w; tw_in_flight := tw_in_flight w; tw_jobs := tw_jobs w;
     tw_samples := tw_samples w ++ l; tw_events := tw_events w |}.
Definition add_tunnel_event (e : TunnelEvent) (w : Tunnels) : Tunnels :=
  {| tw_env := tw_env w; tw_policy := tw_policy w; tw_rows := tw_rows w; tw_results := tw_results w;
     tw_profile_rules := tw_profile_rules w;
     tw_last_bytes := tw_last_bytes w; tw_in_flight := tw_in_flight w; tw_jobs := tw_jobs w;
     tw_samples := tw_samples w; tw_events := tw_events w ++ [e] |}.

Abbreviation M := (ST Tunnels AppError).

(** ** Repositories *)

(** One statement on the tables of the service. *)
Definition tstmt {X} (f : Tunnels -> result X str * Tunnels) : ST Tunnels str X := fun w =>
  match po_faults (tw_policy w) with
  | Some e :: fs => (Err e, set_tpolicy (set_faults fs (tw_policy w)) w)
  | fs => let '(r, w') := f w in (r, set_tpolicy (set_faults (tail fs) (tw_policy w')) w')
  end.

Definition tselect {X} (f : list TunnelRec -> X) : ST Tunnels str X := tstmt (fun w => (Ok (f (tw_rows w)), w)).

Definition tunnels_find_all : ST Tunnels str (list TunnelView) := tselect (fun l => into_tunnel <$> l).

Definition tunnels_find_by_id (id : str) : ST Tunnels str (option TunnelView) :=
  tselect (fun l => into_tunnel <$> List.find (fun r => has_id id (tr_id r)) l).

Definition tunnels_find_config_by_id (id : str) : ST Tunnels str (option StoredConfig) :=
  tselect (fun l => into_tunnel_config <$> List.find (fun r => has_id id (tr_id r)) l).

(** Primary key and unique interface name. *)
Definition tunnels_insert (r : TunnelRec) : ST Tunnels str unit :=
  tstmt (fun w =>
    if existsb (fun x => (tr_id x =? tr_id r) || bool_decide (tr_interface_name x = tr_interface_name r)) (tw_rows w)
    then (Err unique_failed, w) else (Ok tt, set_rows (tw_rows w ++ [r]) w)).

Definition on_row (id : str) (f : TunnelRec -> TunnelRec) : ST Tunnels str unit :=
  tstmt (fun w => (Ok tt, set_rows ((fun r => if has_id id (tr_id r) then f r else r) <$> tw_rows w) w)).

Definition with_endpoint (endpoint : str) (peer : WgPeerConfig) (server_name : str) (at_ : Z) (r : TunnelRec)
    : TunnelRec :=
  {| tr_id := tr_id r; tr_label := tr_label r; tr_country_code := tr_country_code r; tr_provider := tr_provider r;
     tr_interface_name := tr_interface_name r; tr_endpoint := endpoint; tr_status := tr_status r;
     tr_last_handshake := tr_last_handshake r; tr_bytes_tx := tr_bytes_tx r; tr_bytes_rx := tr_bytes_rx r;
     tr_address := tr_address r; tr_dns := tr_dns r; tr_peer := peer; tr_listen_port := tr_listen_port r;
     tr_override_default_dns := tr_override_default_dns r;
     tr_server_selector_country := tr_server_selector_country r; tr_resolved_server_name := Some server_name;
     tr_endpoint_resolved_at := Some at_ |}.
Definition with_status (status : str) (r : TunnelRec) : TunnelRec :=
  {| tr_id := tr_id r; tr_label := tr_label r; tr_country_code := tr_country_code r; tr_provider := tr_provider r;
     tr_interface_name := tr_interface_name r; tr_endpoint := tr_endpoint r; tr_status := status;
     tr_last_handshake := tr_last_handshake r; tr_bytes_tx := tr_bytes_tx r; tr_bytes_rx := tr_bytes_rx r;
     tr_address := tr_address r; tr_dns := tr_dns r; tr_peer := tr_peer r; tr_listen_port := tr_listen_port r;
     tr_override_default_dns := tr_override_default_dns r;
     tr_server_selector_country := tr_server_selector_country r;
     tr_resolved_server_name := tr_resolved_server_name r; tr_endpoint_resolved_at := tr_endpoint_resolved_at r |}.
Definition with_dns_override (value : bool) (r : TunnelRec) : TunnelRec :=
  {| tr_id := tr_id r; tr_label := tr_label r; tr_country_code := tr_country_code r; tr_provider := tr_provider r;
     tr_interface_name := tr_interface_name r; tr_endpoint := tr_endpoint r; tr_status := tr_status r;
     tr_last_handshake := tr_last_handshake r; tr_bytes_tx := tr_bytes_tx r; tr_bytes_rx := tr_bytes_rx r;
     tr_address := tr_address r; tr_dns := tr_dns r; tr_peer := tr_peer r; tr_listen_port := tr_listen_port r;
     tr_override_default_dns := value; tr_server_selector_country := tr_server_selector_country r;
     tr_resolved_server_name := tr_resolved_server_name r; tr_endpoint_resolved_at := tr_endpoint_resolved_at r |}.
Definition with_stats (tx rx : Z) (handshake : option Z) (r : TunnelRec) : TunnelRec :=
  {| tr_id := tr_id r; tr_label := tr_label r; tr_country_code := tr_country_code r; tr_provider := tr_provider r;
     tr_interface_name := tr_interface_name r; tr_endpoint := tr_endpoint r; tr_status := tr_status r;
     tr_last_handshake := handshake; tr_bytes_tx := tx; tr_bytes_rx := rx;
     tr_address := tr_address r; tr_dns := tr_dns r; tr_peer := tr_peer r; tr_listen_port := tr_listen_port r;
     tr_override_default_dns := tr_override_default_dns r;
     tr_server_selector_country := tr_server_selector_country r;
     tr_resolved_server_name := tr_resolved_server_name r; tr_endpoint_resolved_at := tr_endpoint_resolved_at r |}.

Definition tunnels_update_endpoint (id endpoint : str) (peer : WgPeerConfig) (server_name : str) (at_ : Z)
    : ST Tunnels str unit := on_row id (with_endpoint endpoint peer server_name at_).
Definition tunnels_update_status (id status : str) : ST Tunnels str unit := on_row id (with_status status).
Definition tunnels_update_dns_override (id : str) (value : bool) : ST Tunnels str unit :=
  on_row id (with_dns_override value).
Definition tunnels_update_stats (id : str) (tx rx : Z) (handshake : option Z) : ST Tunnels str unit :=
  on_row id (with_stats tx rx handshake).

(** The speed tests of a tunnel and the profile rules that target it go with it
    ([ON DELETE CASCADE]); a rule without a tunnel stays. *)
Definition tunnels_delete (id : str) : ST Tunnels str unit :=
  tstmt (fun w =>
    let w := set_rows (filter (fun r => has_id id (tr_id r) = false) (tw_rows w)) w in
    let w := set_results (filter (fun s => has_id id (st_tunnel_id s) = false) (tw_results w)) w in
    (Ok tt, set_profile_rules
       (filter (fun r => from_option (has_id id) false (pr_tunnel_id r) = false) (tw_profile_rules w)) w)).

(** [COALESCE(MAX(CAST(REPLACE(..))) + 1, 0)] *)
Definition next_index (l : list TunnelRec) : Z :=
  match (fun r => interface_index (tr_interface_name r)) <$> l with
  | [] => 0
  | x :: xs => foldl Z.max x xs + 1
  end.

Definition tunnels_next_interface_index : ST Tunnels str Z := tselect next_index.

Definition tunnels_count : ST Tunnels str Z := tselect (fun l => Z.of_nat (length l)).
Definition tunnels_count_active : ST Tunnels str Z :=
  tselect (fun l => Z.of_nat (length (List.filter (fun r => bool_decide (tr_status r = of_string "up")) l))).

Definition speed_tests_insert (row : SpeedTestRow) : ST Tunnels str unit :=
  tstmt (fun w =>
    if negb (existsb (fun r => tr_id r =? st_tunnel_id row) (tw_rows w)) then (Err foreign_key_failed, w)
    else if existsb (fun s => st_id s =? st_id row) (tw_results w) then (Err unique_failed, w)
    else (Ok tt, set_results (tw_results w ++ [row]) w)).

Definition speed_tests_find_recent (id : str) (limit : Z) : ST Tunnels str (list SpeedTestRow) :=
  tstmt (fun w => (Ok (limited limit (sort_by (fun a b => tested_at b ?= tested_at a)
    (List.filter (fun s => has_id id (st_tunnel_id s)) (tw_results w)))), w)).

(** The device and settings repositories. *)
Definition on_policy_db {A} (m : ST Policy str A) : ST Tunnels str A := fun w =>
  let '(r, p) := m (tw_policy w) in (r, set_tpolicy p w).

(** [target_json LIKE '%"tunnel_id":"<id>"%'] *)
Definition targets_tunnel (id : str) (r : RoutingRule) : bool :=
  match rr_target r with Tunnel t => has_id id t | _ => false end.

Definition dev_find_devices_for_tunnel (id : str) : ST Policy str (list DeviceRow) :=
  select (fun d => Ok (into_device <$> newest_first (List.filter (fun v =>
    existsb (fun r => targets_tunnel id r && (rr_device_id r =? dr_id v)) (t_rules d)) (t_devices d)))).

Definition made_direct (id : str) (r : RoutingRule) : RoutingRule :=
  if targets_tunnel id r
  then {| rr_device_id := rr_device_id r; rr_target := Direct; rr_created_by := rr_created_by r |} else r.

(** Two statements. *)
Definition dev_switch_tunnel_rules_to_direct (id : str) : ST Policy str (list Uuid) :=
  ids ← select (fun d => Ok (rr_device_id <$> List.filter (targets_tunnel id) (t_rules d)));
  _ ← (if bool_decide (ids = []) then mret tt
       else execute (fun d => set_rule_rows (made_direct id <$> t_rules d) d));
  mret ids.

(** Compare and set. *)
Definition cfg_reset_default_policy_from (expected : str) : ST Policy str bool :=
  stmt (fun d =>
    let key := of_string "default_policy" in
    if bool_decide (t_config d !! key = Some expected)
    then (Ok true, set_config (<[key := of_string "direct"]> (t_config d)) d) else (Ok false, d)).

(** [.map_err(AppError::Internal)] *)
Definition internal {A} (m : ST Tunnels str A) : M A := fun w =>
  match m w with
  | (Ok a, w') => (Ok a, w')
  | (Err e, w') => (Err (Internal e), w')
  end.

(** A call of the environment. *)
Definition on_env {A E} (m : ST N E A) : ST Tunnels E A := fun w =>
  let '(r, n) := m (tw_env w) in (r, set_env n w).

Definition env_call {A} (m : ST N str A) : M A := internal (on_env m).

(** The outcome of a computation whose error is handled here. *)
Definition attempt {A E E'} (m : ST Tunnels E A) : ST Tunnels E' (result A E) := fun w =>
  let '(r, w') := m w in (Ok r, w').

Definition emit (e : TunnelEvent) : M unit := st_modify (add_tunnel_event e).
Definition clock : M Z := st_gets (fun w => utc_now (tw_env w)).
Definition admin (ctx : option AuthContext) : M unit := st_lift (require_admin ctx).
(** ** Helpers *)

Definition no_tunnel (id : Uuid) : AppError := NotFound ("tunnel " ++ uuid_to_string id ++ " not found").

Definition require_tunnel (id : Uuid) : M TunnelView :=
  t ← internal (tunnels_find_by_id (uuid_to_string id));
  st_lift (ok_or t (no_tunnel id)).

Definition decode_key (b64 : str) : result (list Z) AppError :=
  match decode_base64 (trim b64) with
  | Err e => Err (Internal ("invalid base64 key: " ++ e))
  | Ok bytes => if (length bytes =? 32)%nat then Ok bytes
                  else Err (Internal (of_string "WireGuard key must be 32 bytes"))
  end.

(** [.map(parse).collect::<Result<Vec<_>, _>>()] *)
Fixpoint parse_all {A} (parse : str -> result A str) (what : str) (l : list str) : result (list A) AppError :=
  match l with
  | [] => Ok []
  | s :: l =>
      match parse s with
      | Err e => Err (Internal (what ++ ": " ++ e))
      | Ok a => match parse_all parse what l with Ok r => Ok (a :: r) | Err e => Err e end
      end
  end.

Definition resolve_peer_endpoint (ep : option str) : M (option SocketAddr) :=
  match ep with
  | None => mret None
  | Some ep =>
      match parse_socket_addr ep with
      | Some addr => mret (Some addr)
      | None =>
          r ← attempt (on_env (lookup_host ep));
          match r with
          | Err e => st_fail (Internal ("failed to resolve peer endpoint '" ++ ep ++ "': " ++ e))
          | Ok [] => st_fail (Internal ("DNS resolution returned no addresses for '" ++ ep ++ "'"))
          | Ok (addr :: _) => mret (Some addr)
          end
      end
  end.

Definition with_peer (peer : WgPeerConfig) (c : StoredConfig) : StoredConfig :=
  {| sc_address := sc_address c; sc_dns := sc_dns c; sc_listen_port := sc_listen_port c; sc_peer := peer;
     sc_override_default_dns := sc_override_default_dns c |}.
Definition at_endpoint (ep : str) (p : WgPeerConfig) : WgPeerConfig :=
  {| wp_public_key := wp_public_key p; wp_endpoint := Some ep; wp_allowed_ips := wp_allowed_ips p;
     wp_preshared_key := wp_preshared_key p; wp_persistent_keepalive := wp_persistent_keepalive p |}.

Definition reresolve_endpoint (id : Uuid) (tunnel : TunnelView) (config : StoredConfig) : M StoredConfig :=
  match tv_server_selector tunnel, tv_provider tunnel with
  | Some selector, Some provider_id =>
      r ← attempt (on_env (resolve_server provider_id selector (parse_port (wp_endpoint (sc_peer config)))));
      match r with
      | Ok (Some (new_ep, server_name)) =>
          now ← clock;
          let updated_peer := at_endpoint new_ep (sc_peer config) in
          _ ← attempt (tunnels_update_endpoint (uuid_to_string id) new_ep updated_peer server_name now);
          mret (with_peer updated_peer config)
      | Ok None => mret config
      | Err (EmptyServerList msg) => st_fail (Internal msg)
      | Err (ResolveFailed _) => mret config
      end
  | _, _ => mret config
  end.

Definition bring_up_configure (id : Uuid) (tunnel : TunnelView) : M unit :=
  config ← internal (tunnels_find_config_by_id (uuid_to_string id));
  config ← st_lift (ok_or config (NotFound ("tunnel config " ++ uuid_to_string id ++ " not found")));
  config ← reresolve_endpoint id tunnel config;
  private_key_b64 ← env_call (load_key id);
  private_key ← st_lift (decode_key private_key_b64);
  peer_public_key ← st_lift (decode_key (wp_public_key (sc_peer config)));
  peer_preshared_key ← match wp_preshared_key (sc_peer config) with
                       | Some k => k ← st_lift (decode_key k); mret (Some k)
                       | None => mret None
                       end;
  peer_endpoint ← resolve_peer_endpoint (wp_endpoint (sc_peer config));
  peer_allowed_ips ← st_lift (parse_all parse_ip_network (of_string "invalid allowed IP")
                                (wp_allowed_ips (sc_peer config)));
  addresses ← st_lift (parse_all parse_ip_network (of_string "invalid interface address")
                         (sc_address config));
  _ ← env_call (if_create
        {| cp_interface_name := tv_interface_name tunnel;
           cp_config := {| wc_address := addresses; wc_private_key := private_key;
                           wc_listen_port := sc_listen_port config; wc_peer_public_key := peer_public_key;
                           wc_peer_endpoint := peer_endpoint; wc_peer_allowed_ips := peer_allowed_ips;
                           wc_peer_preshared_key := peer_preshared_key;
                           wc_persistent_keepalive := wp_persistent_keepalive (sc_peer config) |} |});
  _ ← env_call (if_bring_up (tv_interface_name tunnel));
  _ ← internal (tunnels_update_status (uuid_to_string id) (of_string "connecting"));
  emit (TunnelConnecting id (tv_interface_name tunnel) (tv_endpoint tunnel)).

Definition bring_up_core (id : Uuid) : M unit :=
  tunnel ← require_tunnel id;
  if negb (bool_decide (tv_status tunnel = Down)) then mret tt
  else
    r ← attempt (bring_up_configure id tunnel);
    match r with
    | Ok _ => mret tt
    | Err error =>
        _ ← emit (TunnelStartFailed id (tv_interface_name tunnel) (error_text error));
        st_fail error
    end.

Definition tear_down_core (id : Uuid) (reason : str) : M unit :=
  tunnel ← require_tunnel id;
  if bool_decide (tv_status tunnel = Down) then mret tt
  else
    _ ← env_call (if_tear_down (tv_interface_name tunnel));
    _ ← env_call (if_remove (tv_interface_name tunnel));
    _ ← internal (tunnels_update_status (uuid_to_string id) (of_string "down"));
    emit (TunnelDown id (tv_interface_name tunnel) reason).

(** ** Statistics *)

Definition record_byte_deltas (id : Uuid) (bytes_tx bytes_rx : Z) : M unit := fun w =>
  let prev := tw_last_bytes w !! id in
  let w := set_last_bytes (<[id := (bytes_tx, bytes_rx)]> (tw_last_bytes w)) w in
  match prev with
  | None => (Ok tt, w)
  | Some (prev_tx, prev_rx) =>
      if (bytes_tx <? prev_tx) || (bytes_rx <? prev_rx) then (Ok tt, w)
      else
        let tx_delta := bytes_tx - prev_tx in
        let rx_delta := bytes_rx - prev_rx in
        (Ok tt, add_samples ((if 0 <? tx_delta then [BytesTx id tx_delta] else [])
                             ++ (if 0 <? rx_delta then [BytesRx id rx_delta] else [])) w)
  end.

Definition is_active_tunnel (t : TunnelView) : bool := negb (bool_decide (tv_status t = Down)).

Definition collect_one (tunnel : TunnelView) : M unit :=
  r ← attempt (on_env (if_get_stats (tv_interface_name tunnel)));
  match r with
  | Ok (Some stats) =>
      r ← attempt (tunnels_update_stats (uuid_to_string (tv_id tunnel)) (cast_signed (ts_bytes_tx stats))
                     (cast_signed (ts_bytes_rx stats)) (ts_last_handshake stats));
      match r with
      | Err _ => mret tt
      | Ok _ =>
          _ ← record_byte_deltas (tv_id tunnel) (ts_bytes_tx stats) (ts_bytes_rx stats);
          emit (TunnelStatsUpdated (tv_id tunnel) (tv_status tunnel) (ts_bytes_tx stats) (ts_bytes_rx stats)
                  (ts_last_handshake stats))
      end
  | Ok None | Err _ => mret tt
  end.

Definition collect_stats : M unit :=
  all ← internal tunnels_find_all;
  st_iter collect_one (List.filter is_active_tunnel all).

(** ** Health *)

(** What becomes of one tunnel: kept, or found without interface. *)
Definition reconcile_one (live : list str) (tunnel : TunnelView) : M (option TunnelView) :=
  if bool_decide (tv_status tunnel = Down) then mret None
  else if bool_decide (tv_interface_name tunnel ∈ live) then mret (Some tunnel)
  else
    r ← attempt (tunnels_update_status (uuid_to_string (tv_id tunnel)) (of_string "down"));
    match r with
    | Err _ => mret None
    | Ok _ =>
        _ ← emit (TunnelDown (tv_id tunnel) (tv_interface_name tunnel) TUNNEL_DOWN_INTERFACE_ABSENT);
        mret None
    end.

Fixpoint reconcile_all (live : list str) (l : list TunnelView) : M (list TunnelView) :=
  match l with
  | [] => mret []
  | t :: l =>
      o ← reconcile_one live t;
      rest ← reconcile_all live l;
      mret (option_list o ++ rest)
  end.

Definition reconcile_iface_presence (all_tunnels : list TunnelView) : M (list TunnelView) :=
  live ← env_call if_list;
  reconcile_all live all_tunnels.

Definition minutes (n : Z) : Z := n * 60 * 1000000000.

Definition fresh_handshake (now : Z) (t : TunnelView) : bool :=
  match tv_last_handshake t with Some ts => now - ts <=? minutes 3 | None => false end.

Definition stuck (now : Z) (t : TunnelView) : bool :=
  match tv_last_handshake t with Some ts => minutes 15 <? now - ts | None => true end.

(** The verdict on one tunnel; whether it is to be recreated. *)
Definition check_one (now : Z) (tunnel : TunnelView) : M bool :=
  let mark status event :=
    r ← attempt (tunnels_update_status (uuid_to_string (tv_id tunnel)) (of_string status));
    match r with
    | Err _ => mret false
    | Ok _ => _ ← emit event; mret false
    end in
  match tv_status tunnel, fresh_handshake now tunnel with
  | Connecting, true | Reconnecting, true =>
      mark "up"%string (TunnelUp (tv_id tunnel) (tv_interface_name tunnel) (tv_endpoint tunnel))
  | Up, false =>
      mark "reconnecting"%string
        (TunnelReconnecting (tv_id tunnel) (tv_interface_name tunnel) (tv_last_handshake tunnel))
  | Reconnecting, false => mret (stuck now tunnel)
  | _, _ => mret false
  end.

Fixpoint check_all (now : Z) (l : list TunnelView) : M (list Uuid) :=
  match l with
  | [] => mret []
  | t :: l =>
      b ← check_one now t;
      rest ← check_all now l;
      mret ((if b : bool then [tv_id t] else []) ++ rest)
  end.

Definition recreate_one (id : Uuid) : M unit :=
  r ← attempt (tear_down_core id (of_string "stuck in reconnecting, recreating"));
  match r with
  | Err _ => mret tt
  | Ok _ => _ ← attempt (E' := AppError) (bring_up_core id); mret tt
  end.

Definition recreate_stuck_tunnels (ids : list Uuid) : M unit := st_iter recreate_one ids.

Definition run_health_check : M unit :=
  now ← clock;
  all ← internal tunnels_find_all;
  active ← reconcile_iface_presence all;
  to_recreate ← check_all now active;
  recreate_stuck_tunnels to_recreate.

(** An unsupported platform ends the loop. *)
Fixpoint probe_all (l : list TunnelView) : M unit :=
  match l with
  | [] => mret tt
  | t :: l =>
      r ← attempt (on_env (latency_probe (Some (tv_interface_name t))));
      match r with
      | Ok rtt_ms => _ ← st_modify (add_samples [LatencyRtt (tv_id t) rtt_ms]); probe_all l
      | Err (LatencyUnsupported _) => mret tt
      | Err _ => probe_all l
      end
  end.

Definition probe_latencies : M unit :=
  all ← internal tunnels_find_all;
  probe_all (List.filter is_active_tunnel all).

(** ** Tests *)

Definition acquire_in_flight (id : Uuid) : M unit := fun w =>
  if bool_decide (id ∈ tw_in_flight w)
  then (Err (Conflict ("test already in progress for tunnel " ++ uuid_to_string id)), w)
  else (Ok tt, set_in_flight ({[id]} ∪ tw_in_flight w) w).

(** [InFlightGuard::drop] *)
Definition release_in_flight (id : Uuid) (w : Tunnels) : Tunnels := set_in_flight (tw_in_flight w ∖ {[id]}) w.

(** The body runs with the slot held; it is released however the body returns. *)
Definition guarded {A} (id : Uuid) (body : M A) : M A := fun w =>
  match acquire_in_flight id w with
  | (Err e, w') => (Err e, w')
  | (Ok _, w') => let '(r, w'') := body w' in (r, release_in_flight id w'')
  end.

Definition ms (n : Z) : Z := n * 1000000.

(** The polling loop; [fuel] rounds of 100 ms. *)
Fixpoint await_loop (fuel : nat) (interface_name : str) (budget_ms deadline : Z) : M unit :=
  match fuel with
  | O => st_fail (Internal (of_string "out of fuel"))
  | S fuel =>
      r ← attempt (on_env (if_get_stats interface_name));
      match r with
      | Err e => st_fail (Internal ("failed to read tunnel stats while waiting for handshake: " ++ e))
      | Ok stats =>
          now ← clock;
          let fresh := match stats ≫= ts_last_handshake with
                       | Some ts => now - ts <=? 5 * 1000000000
                       | None => false
                       end in
          if fresh then mret tt
          else
            instant ← st_gets (fun w => instant_now (tw_env w));
            if deadline <=? instant
            then st_fail (UpstreamUnavailable ("tunnel handshake did not complete within "
                                               ++ show_u32 budget_ms ++ " ms"))
            else
              _ ← st_modify (fun w => set_env (sleep_ms 100 (tw_env w)) w);
              await_loop fuel interface_name budget_ms deadline
      end
  end.

Definition HANDSHAKE_BUDGET_MS : Z := 3500.

(** One round more than the budget has tenths of a second, and one to see the
    deadline pass. *)
Definition await_fresh_handshake (interface_name : str) (budget_ms : Z) : M unit :=
  start ← st_gets (fun w => instant_now (tw_env w));
  await_loop (Z.to_nat (budget_ms / 100) + 2) interface_name budget_ms (start + ms budget_ms).

Definition probe_error (e : ProbeError) : AppError :=
  match e with
  | ProbeTimeout n => UpstreamUnavailable ("probe timed out after " ++ show_i64 n ++ " ms")
  | ProbeConnect msg => UpstreamUnavailable ("probe connect failed: " ++ msg)
  | ProbeParse msg => UpstreamUnavailable ("probe parse failed: " ++ msg)
  | ProbeUnsupported msg => Internal ("probe unsupported: " ++ msg)
  end.

Definition run_test_probe (interface_name : str) : M (ExitInfo * Z) :=
  _ ← await_fresh_handshake interface_name HANDSHAKE_BUDGET_MS;
  started ← st_gets (fun w => instant_now (tw_env w));
  r ← attempt (on_env (exit_probe interface_name));
  match r with
  | Err e => st_fail (probe_error e)
  | Ok info =>
      ended ← st_gets (fun w => instant_now (tw_env w));
      mret (info, Z.min U64_MAX ((ended - started) / 1000000))
  end.

Record TunnelTestResult : Type := {
  tt_tunnel_id : Uuid;
  tt_exit_ip : str;
  tt_country_code : str;
  tt_latency_ms : Z;
}.

(** What follows the claim of the slot. *)
Definition test_body (id : Uuid) : M TunnelTestResult :=
  tunnel ← require_tunnel id;
  let was_up_before := is_active_tunnel tunnel in
  _ ← (if negb was_up_before then bring_up_core id else mret tt);
  probe_outcome ← attempt (run_test_probe (tv_interface_name tunnel));
  _ ← (if negb was_up_before
       then _ ← attempt (E' := AppError) (tear_down_core id (of_string "test completed")); mret tt
       else mret tt);
  outcome ← st_lift probe_outcome;
  mret {| tt_tunnel_id := id; tt_exit_ip := ex_ip (fst outcome); tt_country_code := ex_country_code (fst outcome);
          tt_latency_ms := snd outcome |}.

(** ** Speed tests *)

Record LegMeasurement : Type := { lm_throughput_mbps : f64; lm_latency_ms : f64; lm_jitter_ms : f64 }.

Definition f_sum (l : list f64) : f64 := foldl f_add (f_of_u64 0) l.

Definition median_of (samples : list Z) : f64 :=
  let sorted := sort_by Z.compare samples in
  let mid := (length sorted / 2)%nat in
  if Nat.even (length sorted)
  then f_midpoint (f_of_u64 (nth (mid - 1) sorted 0)) (f_of_u64 (nth mid sorted 0))
  else f_of_u64 (nth mid sorted 0).

Definition summarize_latency (samples : list Z) : f64 * f64 :=
  if bool_decide (samples = []) then (f_of_u64 0, f_of_u64 0)
  else
    let n := f_of_u64 (Z.of_nat (length samples)) in
    let mean := f_div (f_sum (f_of_u64 <$> samples)) n in
    let jitter :=
      if (1 <? length samples)%nat
      then let square s := let d := f_sub (f_of_u64 s) mean in f_mul d d in
           f_sqrt (f_div (f_sum (square <$> samples)) (f_sub n (f_of_u64 1)))
      else f_of_u64 0 in
    (median_of samples, jitter).

Fixpoint take_samples (k : nat) (interface : option str) : M (list Z) :=
  match k with
  | O => mret []
  | S k =>
      r ← attempt (on_env (latency_probe interface));
      rest ← take_samples k interface;
      mret (match r with Ok rtt => rtt :: rest | Err _ => rest end)
  end.

Context (speed_test_latency_samples : Z).

Definition measure_leg (interface : option str) : M LegMeasurement :=
  throughput ← attempt (on_env (download interface));
  match throughput with
  | Err e => st_fail (UpstreamUnavailable ("throughput download failed: " ++ e))
  | Ok mbps =>
      samples ← take_samples (Z.to_nat (Z.max speed_test_latency_samples 1)) interface;
      if bool_decide (samples = []) then st_fail (UpstreamUnavailable (of_string "all latency probes failed"))
      else let '(latency, jitter) := summarize_latency samples in
           mret {| lm_throughput_mbps := mbps; lm_latency_ms := latency; lm_jitter_ms := jitter |}
  end.

Definition run_speed_test (fresh id : Uuid) : M unit :=
  tunnel ← require_tunnel id;
  let was_down := bool_decide (tv_status tunnel = Down) in
  let interface_name := tv_interface_name tunnel in
  direct ← attempt (measure_leg None);
  through ← attempt (
    _ ← (if was_down
         then _ ← bring_up_core id; await_fresh_handshake interface_name HANDSHAKE_BUDGET_MS
         else mret tt);
    measure_leg (Some interface_name));
  _ ← (if was_down
       then _ ← attempt (E' := AppError) (tear_down_core id (of_string "speed test completed")); mret tt
       else mret tt);
  direct ← st_lift direct;
  through ← st_lift through;
  now ← clock;
  internal (speed_tests_insert
    {| st_id := fresh; st_tunnel_id := id; direct_throughput_mbps := lm_throughput_mbps direct;
       tunnel_throughput_mbps := lm_throughput_mbps through; direct_latency_ms := lm_latency_ms direct;
       tunnel_latency_ms := lm_latency_ms through; direct_jitter_ms := lm_jitter_ms direct;
       tunnel_jitter_ms := lm_jitter_ms through; tested_at := now |}).

(** The dispatched closure, which owns the guard. *)
Definition run_job (fresh job_id : Uuid) (w : Tunnels) : Tunnels :=
  match List.find (fun j => fst j =? job_id) (tw_jobs w) with
  | Some (_, id) =>
      let w := set_jobs (filter (fun j => fst j <> job_id) (tw_jobs w)) w in
      release_in_flight id (snd (run_speed_test fresh id w))
  | None => w
  end.

(** ** The service *)

Context (ctx : option AuthContext).

Record CreateTunnelRequest : Type := {
  ct_label : str;
  ct_country_code : str;
  ct_provider : option str;
  ct_config : str;
  ct_server_selector : option str;
  ct_resolved_server_name : option str;
}.

Definition import_tunnel (fresh : Uuid) (req : CreateTunnelRequest) : M TunnelView :=
  _ ← admin ctx;
  config ← (match wg_parse (ct_config req) with
            | Ok c => mret c
            | Err e => st_fail (BadRequest (wg_error_text e))
            end);
  peer ← st_lift (ok_or (head (wg_peers config)) (BadRequest "config has no peers"));
  idx ← internal tunnels_next_interface_index;
  let interface_name := TUNNEL_INTERFACE_PREFIX ++ show_i64 idx in
  _ ← env_call (save_key fresh (wi_private_key (wg_interface config)));
  now ← clock;
  let row := {| tr_id := fresh; tr_label := ct_label req; tr_country_code := ct_country_code req;
                tr_provider := ct_provider req; tr_interface_name := interface_name;
                tr_endpoint := default [] (wp_endpoint peer); tr_status := of_string "down";
                tr_last_handshake := None; tr_bytes_tx := 0; tr_bytes_rx := 0;
                tr_address := wi_address (wg_interface config); tr_dns := wi_dns (wg_interface config);
                tr_peer := peer; tr_listen_port := wi_listen_port (wg_interface config);
                tr_override_default_dns := negb (bool_decide (wi_dns (wg_interface config) = []));
                tr_server_selector_country := ct_server_selector req;
                tr_resolved_server_name := ct_resolved_server_name req;
                tr_endpoint_resolved_at := (fun _ => now) <$> ct_server_selector req |} in
  _ ← internal (tunnels_insert row);
  mret (into_tunnel row).

Definition list_tunnels : M (list TunnelView) :=
  _ ← st_lift (require_authenticated ctx); internal tunnels_find_all.

Definition get_tunnel (id : Uuid) : M TunnelView := _ ← admin ctx; require_tunnel id.

Definition test_tunnel (id : Uuid) : M TunnelTestResult := _ ← admin ctx; guarded id (test_body id).

Definition list_tunnel_devices (id : Uuid) : M (list DeviceRow) :=
  _ ← admin ctx;
  _ ← require_tunnel id;
  internal (on_policy_db (dev_find_devices_for_tunnel (uuid_to_string id))).

Definition set_dns_override (id : Uuid) (value : bool) : M TunnelView :=
  _ ← admin ctx;
  _ ← require_tunnel id;
  _ ← internal (tunnels_update_dns_override (uuid_to_string id) value);
  _ ← emit (TunnelDnsOverrideChanged id);
  require_tunnel id.

Definition rebuild (id : Uuid) : M unit :=
  _ ← admin ctx;
  guarded id (_ ← tear_down_core id (of_string "admin rebuild"); bring_up_core id).

Definition bring_up (id : Uuid) : M unit := _ ← admin ctx; bring_up_core id.
Definition tear_down (id : Uuid) (reason : str) : M unit := _ ← admin ctx; tear_down_core id reason.
Definition bring_up_internal (id : Uuid) : M unit := bring_up_core id.
Definition tear_down_internal (id : Uuid) (reason : str) : M unit := tear_down_core id reason.

Definition policy_targets (id : Uuid) (policy : option str) : bool :=
  match policy with
  | Some p => bool_decide (from_default_policy p = Tunnel id)
  | None => false
  end.

Definition delete_tunnel (id : Uuid) : M str :=
  _ ← admin ctx;
  tunnel ← require_tunnel id;
  switched ← internal (on_policy_db (dev_switch_tunnel_rules_to_direct (uuid_to_string id)));
  _ ← st_iter (fun device_id => emit (TunnelRuleChanged device_id Direct (Some (Tunnel id)) CreatedByAdmin)) switched;
  default_policy ← internal (on_policy_db cfg_get_default_policy);
  _ ← (if policy_targets id default_policy
       then
         reset ← internal (on_policy_db (cfg_reset_default_policy_from (default [] default_policy)));
         if reset : bool then emit (TunnelPolicyChanged (of_string "direct")) else mret tt
       else mret tt);
  _ ← (if is_active_tunnel tunnel then tear_down_core id (of_string "tunnel deleted") else mret tt);
  _ ← env_call (delete_key id);
  _ ← internal (tunnels_delete (uuid_to_string id));
  mret ("tunnel " ++ tv_label tunnel ++ " deleted").

Definition restore_tunnels : M unit := _ ← internal tunnels_find_all; mret tt.

Definition start_speed_test (job_id id : Uuid) : M Uuid := fun w =>
  match (_ ← admin ctx; acquire_in_flight id) w with
  | (Err e, w1) => (Err e, w1)
  | (Ok _, w1) =>
      match require_tunnel id w1 with
      | (Err e, w2) => (Err e, release_in_flight id w2)
      | (Ok _, w2) => (Ok job_id, set_jobs (tw_jobs w2 ++ [(job_id, id)]) w2)
      end
  end.

Definition list_speed_tests (id : Uuid) : M (list SpeedTestRow) :=
  _ ← admin ctx;
  _ ← require_tunnel id;
  internal (speed_tests_find_recent (uuid_to_string id) SPEED_TEST_HISTORY_LIMIT).

End tunnel_service.
