(* ===== verification/TunnelLaws.v ===== *)
(** * What the tunnel service guarantees

    The stored status of every tunnel follows the documented state machine and is
    what the published events say; what a successful deletion leaves behind;
    interface names; waiting for a handshake; byte counters. *)

From S2P Require Import Prelude RustStr Net Auth PolicyRouter RoutingTypes ZoneTypes PolicyDb WgConfig.
From S2P Require Import TunnelInterface TunnelService.

(** ** The state machine

    Down -> Connecting -> Up <-> Reconnecting, Reconnecting -> Up, any but Down
    -> Down, as on [TunnelStatus]. *)

Definition about (e : TunnelEvent) : option Uuid :=
  match e with
  | TunnelConnecting id _ _ | TunnelUp id _ _ | TunnelReconnecting id _ _ | TunnelDown id _ _ => Some id
  | _ => None
  end.

(** The status an event announces, if the machine can take the step. *)
Definition advance (s : TunnelStatus) (e : TunnelEvent) : option TunnelStatus :=
  match e, s with
  | TunnelConnecting _ _ _, Down => Some Connecting
  | TunnelUp _ _ _, (Connecting | Reconnecting) => Some Up
  | TunnelReconnecting _ _ _, Up => Some Reconnecting
  | TunnelDown _ _ _, (Up | Connecting | Reconnecting) => Some Down
  | _, _ => None
  end.

Definition follow (id : Uuid) (s : option TunnelStatus) (e : TunnelEvent) : option TunnelStatus :=
  if bool_decide (about e = Some id) then s ≫= fun s => advance s e else s.

(** The machine of one tunnel run over the events; [None] if they leave it. *)
Definition machine (id : Uuid) (events : list TunnelEvent) : option TunnelStatus :=
  foldl (follow id) (Some Down) events.

Lemma machine_snoc id evs e : machine id (evs ++ [e]) = follow id (machine id evs) e.
Proof. unfold machine. by rewrite foldl_app. Qed.

Lemma machine_other id evs e : about e <> Some id -> machine id (evs ++ [e]) = machine id evs.
Proof. intros H. rewrite machine_snoc. unfold follow. by rewrite bool_decide_eq_false_2. Qed.

Lemma machine_step id evs e s s' : machine id evs = Some s -> about e = Some id -> advance s e = Some s' ->
  machine id (evs ++ [e]) = Some s'.
Proof. intros H Ha Hs. rewrite machine_snoc, H. unfold follow. by rewrite bool_decide_eq_true_2. Qed.

Section laws.
Context {N : Type} {TE : TunnelEnv N} {U : UuidText} {UL : UuidTextLaws U}.

Abbreviation Stored := (list TunnelRec * list TunnelEvent)%type.
#[export] Instance tunnels_view : View Tunnels Stored := {| view := fun w => (tw_rows w, tw_events w) |}.

(** ** Rules *)

Abbreviation post A := (result A AppError -> Stored -> Prop).

Lemma wp_tstmt {X} (f : Tunnels -> result X str * Tunnels) (Q : result X str -> Stored -> Prop) v :
  (forall e, Q (Err e) v) -> (forall w, view w = v -> Q (fst (f w)) (view (snd (f w)))) -> wp (tstmt f) Q v.
Proof.
  intros He Hf w Hw. specialize (Hf w Hw). unfold tstmt.
  destruct (po_faults (tw_policy w)) as [|[e|] fs]; destruct (f w) as [r w']; try done. rewrite <- Hw in He. apply He.
Qed.

Lemma wp_tselect {X} (f : list TunnelRec -> X) (Q : result X str -> Stored -> Prop) v :
  (forall e, Q (Err e) v) -> Q (Ok (f (fst v))) v -> wp (tselect f) Q v.
Proof. intros He HQ. apply wp_tstmt; [done|]. by intros w <-. Qed.

Lemma wp_on_row id g (Q : result unit str -> Stored -> Prop) v : (forall e, Q (Err e) v) ->
  Q (Ok tt) ((fun r => if has_id id (tr_id r) then g r else r) <$> fst v, snd v) -> wp (on_row id g) Q v.
Proof. intros He HQ. apply wp_tstmt; [done|]. by intros w <-. Qed.

Lemma wp_internal {X} (m : ST Tunnels str X) (Q : post X) v :
  wp m (fun r => Q (match r with Ok a => Ok a | Err e => Err (Internal e) end)) v -> wp (internal m) Q v.
Proof. intros Hm w Hw. specialize (Hm w Hw). unfold internal. by destruct (m w) as [[a|e] w']. Qed.

Lemma wp_on_env {X E} (m : ST N E X) (Q : result X E -> Stored -> Prop) v : (forall r, Q r v) -> wp (on_env m) Q v.
Proof. intros HQ w <-. unfold on_env. destruct (m (tw_env w)) as [r n]. apply HQ. Qed.

Lemma wp_on_policy_db {X} (m : ST Policy str X) (Q : result X str -> Stored -> Prop) v :
  (forall r, Q r v) -> wp (on_policy_db m) Q v.
Proof. intros HQ w <-. unfold on_policy_db. destruct (m (tw_policy w)) as [r p]. apply HQ. Qed.

Lemma wp_attempt {X E E'} (m : ST Tunnels E X) (Q : result (result X E) E' -> Stored -> Prop) v :
  wp m (fun r => Q (Ok r)) v -> wp (attempt m) Q v.
Proof. intros Hm w Hw. specialize (Hm w Hw). unfold attempt. by destruct (m w). Qed.

Lemma wp_emit (e : TunnelEvent) (Q : post unit) v : Q (Ok tt) (fst v, snd v ++ [e]) -> wp (emit e) Q v.
Proof. by intros HQ w <-. Qed.

Lemma wp_guarded {X} id (body : ST Tunnels AppError X) (Q : post X) v :
  (forall e, Q (Err e) v) -> wp body Q v -> wp (guarded id body) Q v.
Proof.
  intros He Hb w Hw. unfold guarded, acquire_in_flight. case_bool_decide; [simpl; rewrite <- Hw in He; apply He|].
  specialize (Hb (set_in_flight ({[id]} ∪ tw_in_flight w) w) Hw). by destruct (body _).
Qed.

(** ** Status and events agree *)

Record told (v : Stored) : Prop := {
  to_ids : NoDup (tr_id <$> fst v);
  to_status r : r ∈ fst v -> machine (tr_id r) (snd v) = Some (status_of_text (tr_status r));
}.

Lemma told_rows g rows evs : (forall r, tr_id (g r) = tr_id r) -> (forall r, tr_status (g r) = tr_status r) ->
  told (rows, evs) -> told (g <$> rows, evs).
Proof.
  intros Hi Hs [H1 H2]. split; simpl.
  - rewrite <- list_fmap_compose. by rewrite (list_fmap_ext _ tr_id) by (intros; apply Hi).
  - intros ? (r & -> & Hr)%list_elem_of_fmap. rewrite Hi, Hs. by apply H2.
Qed.

Lemma told_other rows evs e : about e = None -> told (rows, evs) -> told (rows, evs ++ [e]).
Proof. intros Ha [H1 H2]. split; [done|]. simpl in *. intros r Hr. rewrite machine_other; [by apply H2 | by rewrite Ha]. Qed.

(** A status written and announced. *)
Lemma told_mark id text e s rows evs : told (rows, evs) -> machine id evs = Some s -> about e = Some id ->
  advance s e = Some (status_of_text text) ->
  told ((fun r => if has_id (uuid_to_string id) (tr_id r) then with_status text r else r) <$> rows, evs ++ [e]).
Proof.
  intros [H1 H2] Hm Ha Hs. split; simpl.
  - rewrite <- list_fmap_compose. rewrite (list_fmap_ext _ tr_id); [done|]. intros k r _. simpl. by destruct (has_id _ _).
  - intros ? (r & -> & Hr)%list_elem_of_fmap. unfold has_id. case_bool_decide as E.
    + apply (inj uuid_to_string) in E. simpl. rewrite E. by apply (machine_step _ _ _ s).
    + rewrite machine_other; [by apply H2|]. rewrite Ha. intros [= ->]. done.
Qed.

Lemma told_filter (P : TunnelRec -> Prop) `{!forall r, Decision (P r)} rows evs :
  told (rows, evs) -> told (filter P rows, evs).
Proof.
  intros [H1 H2]. split; simpl; [|intros r [_ Hr]%list_elem_of_filter; by apply H2].
  simpl in *. clear H2. induction rows as [|r rows IH]; [done|]. rewrite fmap_cons, NoDup_cons in H1. destruct H1 as [Hn H1].
  rewrite filter_cons. case_decide; [|by apply IH]. rewrite fmap_cons. constructor; [|by apply IH].
  intros (x & Hx & [_ Hin]%list_elem_of_filter)%list_elem_of_fmap. apply Hn. rewrite Hx. by apply list_elem_of_fmap_2.
Qed.

Lemma wp_require_tunnel id (Q : post TunnelView) v : told v -> (forall e, Q (Err e) v) ->
  (forall t, tv_id t = id -> machine id (snd v) = Some (tv_status t) -> Q (Ok t) v) -> wp (require_tunnel id) Q v.
Proof.
  intros Hv He HQ. unfold require_tunnel, tunnels_find_by_id. apply wp_bind, wp_internal, wp_tselect; [done|].
  apply wp_lift. destruct (List.find _ _) as [r|] eqn:E; simpl; [|apply He]. apply find_Some_elem in E as [Hr Hid].
  unfold has_id in Hid. apply bool_decide_eq_true, (inj uuid_to_string) in Hid. subst id. apply HQ; [done|].
  by apply (to_status v Hv).
Qed.

(** [told], with the machine of one tunnel where it was found. *)
Abbreviation at_status id s := (fun v : Stored => told v /\ machine id (snd v) = Some s).

Lemma told_endpoint id ep p n t v : told v ->
  told ((fun r => if has_id id (tr_id r) then with_endpoint ep p n t r else r) <$> fst v, snd v).
Proof. destruct v. apply told_rows; intros r; by destruct (has_id _ _). Qed.

Ltac quiet := apply wp_quiet; [intros ?; reflexivity | intros [?|?]].

(** One rule of the calculus. *)
Ltac step :=
  lazymatch goal with
  | |- wp (_ ≫= _) _ _ => apply wp_bind
  | |- wp (mret _) _ _ => apply wp_ret
  | |- wp (st_fail _) _ _ => apply wp_fail
  | |- wp (st_lift _) _ _ => apply wp_lift
  | |- wp (admin _) _ _ => apply wp_lift
  | |- wp (attempt _) _ _ => apply wp_attempt
  | |- wp (internal _) _ _ => apply wp_internal
  | |- wp (env_call _) _ _ => apply wp_internal
  | |- wp (on_env _) _ _ => apply wp_on_env; intros [?|?]
  | |- wp (on_policy_db _) _ _ => apply wp_on_policy_db; intros [?|?]
  | |- wp (tselect _) _ _ => apply wp_tselect; [intros ?|]
  | |- wp clock _ _ => quiet
  | |- wp (st_gets _) _ _ => quiet
  | |- wp (if ?b then _ else _) _ _ => destruct b eqn:?
  | |- wp (match ?x with _ => _ end) _ _ => destruct x eqn:?
  | |- match ?x with _ => _ end => destruct x eqn:?
  end.
Ltac steps := repeat first [ step | progress cbv zeta beta iota ].

Lemma reresolve_told id t c s v : at_status id s v ->
  wp (reresolve_endpoint id t c) (fun _ => at_status id s) v.
Proof.
  intros [Hv Hm]. unfold reresolve_endpoint, tunnels_update_endpoint. steps; try done.
  apply wp_on_row; [intros ?; by steps|]. steps. split; [by apply told_endpoint | done].
Qed.

Lemma configure_told id t v : at_status id Down v -> wp (bring_up_configure id t) (fun _ => told) v.
Proof.
  intros Hv. unfold bring_up_configure, tunnels_find_config_by_id. assert (Ht := proj1 Hv). steps; try done.
  eapply wp_conseq; [by apply (reresolve_told id _ _ Down)|]. intros [c|e] v' [Hv' Hm']; [|done].
  unfold resolve_peer_endpoint, tunnels_update_status. steps; try done.
  all: apply wp_on_row; [done|]; steps; apply wp_emit; destruct v' as [rows evs]; by apply (told_mark id _ _ Down).
Qed.

Lemma bring_up_told id v : told v -> wp (bring_up_core id) (fun _ => told) v.
Proof.
  intros Hv. unfold bring_up_core. apply wp_bind, wp_require_tunnel; [done | done |]. intros t Hid Hm.
  case_bool_decide as E; simpl; [|by apply wp_ret]. rewrite E in Hm.
  apply wp_bind, wp_attempt. eapply wp_conseq; [by apply configure_told|].
  intros [?|?] v' Hv'; steps; [done|]. apply wp_emit. destruct v'. simpl. by apply wp_fail, told_other.
Qed.

Lemma tear_down_told id reason v : told v -> wp (tear_down_core id reason) (fun _ => told) v.
Proof.
  intros Hv. unfold tear_down_core, tunnels_update_status. apply wp_bind, wp_require_tunnel; [done | done |]. intros t Hid Hm.
  case_bool_decide as E; [by apply wp_ret|]. steps; try done. apply wp_on_row; [done|]. apply wp_emit. destruct v as [rows evs].
  apply (told_mark id _ _ (tv_status t)); [done..|]. by destruct (tv_status t).
Qed.

(** Tunnels as read, still as they are stored. *)
Definition accurate (l : list TunnelView) (v : Stored) : Prop :=
  told v /\ NoDup (tv_id <$> l) /\ forall t, t ∈ l -> machine (tv_id t) (snd v) = Some (tv_status t).

Lemma read_accurate v : told v -> accurate (into_tunnel <$> fst v) v.
Proof.
  intros Hv. split; [done|]. split; [rewrite <- list_fmap_compose; apply Hv|].
  intros t (r & -> & Hr)%list_elem_of_fmap. by apply (to_status v Hv).
Qed.

(** Marking one tunnel: its own machine moves, no other does. *)
Lemma wp_mark {X} t text e (k : unit -> ST Tunnels AppError X) (Q : post X) v : told v ->
  machine (tv_id t) (snd v) = Some (tv_status t) -> about e = Some (tv_id t) ->
  advance (tv_status t) e = Some (status_of_text text) ->
  wp (k tt) Q v ->
  (forall v', told v' -> (forall id, id <> tv_id t -> machine id (snd v') = machine id (snd v)) -> wp (k tt) Q v') ->
  wp (r ← attempt (E' := AppError) (tunnels_update_status (uuid_to_string (tv_id t)) text);
      match r with Err _ => k tt | Ok _ => emit e ≫= k end) Q v.
Proof.
  intros Hv Hm Ha Hs He Hk. apply wp_bind, wp_attempt, wp_on_row; [intros x; exact He|].
  apply wp_bind, wp_emit. destruct v as [rows evs]. apply Hk; [by apply (told_mark _ _ _ (tv_status t))|].
  intros id Hne. simpl. apply machine_other. rewrite Ha. intros [= E]. by destruct Hne.
Qed.

Lemma reconcile_one_told live t v : told v -> machine (tv_id t) (snd v) = Some (tv_status t) ->
  wp (reconcile_one live t) (fun r v' => told v' /\
    (forall id, id <> tv_id t -> machine id (snd v') = machine id (snd v)) /\
    (forall u, r = Ok (Some u) -> u = t /\ v' = v)) v.
Proof.
  intros Hv Hm. unfold reconcile_one. case_bool_decide as Ed; [apply wp_ret; naive_solver|].
  case_bool_decide; [apply wp_ret; naive_solver|].
  apply (wp_mark t (of_string "down") (TunnelDown (tv_id t) (tv_interface_name t) TUNNEL_DOWN_INTERFACE_ABSENT)
    (fun _ => mret None)); try done; [by destruct (tv_status t) | |].
  - apply wp_ret; naive_solver.
  - intros v' Hv' Hf. apply wp_ret. naive_solver.
Qed.

Lemma reconcile_all_told live l : forall v, accurate l v ->
  wp (reconcile_all live l) (fun r v' => told v' /\
    (forall id, id ∉ tv_id <$> l -> machine id (snd v') = machine id (snd v)) /\
    (forall res, r = Ok res -> accurate res v' /\ forall t, t ∈ res -> t ∈ l)) v.
Proof.
  induction l as [|t l IH]; intros v (Hv & Hnd & Hacc); simpl.
  - apply wp_ret. split; [done|]. split; [done|]. intros res [= <-]. done.
  - rewrite fmap_cons, NoDup_cons in Hnd. destruct Hnd as [Hn Hnd].
    apply wp_bind. eapply wp_conseq; [apply reconcile_one_told; [done | apply Hacc; by left]|].
    intros [o|e] v1 (Hv1 & Hf1 & Ho); [|split; [done|]; split; [|done]; intros id [? ?]%not_elem_of_cons; by apply Hf1].
    apply wp_bind. eapply wp_conseq; [apply IH; split; [done|]; split; [done|]|].
    { intros u Hu. rewrite Hf1; [apply Hacc; by right|]. intros E. apply Hn. rewrite <- E. by apply list_elem_of_fmap_2. }
    intros [rest|e] v2 (Hv2 & Hf2 & Hres).
    2:{ split; [done|]. split; [|done]. intros id [? ?]%not_elem_of_cons. by rewrite Hf2, Hf1. }
    destruct (Hres rest eq_refl) as [(_ & Hnd2 & Hacc2) Hsub]. apply wp_ret. split; [done|]. split.
    { intros id [? ?]%not_elem_of_cons. by rewrite Hf2, Hf1. }
    intros res [= <-]. destruct o as [u|]; simpl.
    + destruct (Ho u eq_refl) as [-> ->].
      split; [|intros x [->|Hx]%elem_of_cons; [by left | by right; apply Hsub]]. split; [done|]. split.
      * rewrite fmap_cons. constructor; [|done]. intros (x & Hx & Hin%Hsub)%list_elem_of_fmap. apply Hn.
        rewrite Hx. by apply list_elem_of_fmap_2.
      * intros x [->|Hx]%elem_of_cons; [|by apply Hacc2]. rewrite Hf2 by done. apply Hacc. by left.
    + split; [by split|]. intros x Hx. right. by apply Hsub.
Qed.

Lemma check_one_told now t v : told v -> machine (tv_id t) (snd v) = Some (tv_status t) ->
  wp (check_one now t) (fun _ v' => told v' /\
    forall id, id <> tv_id t -> machine id (snd v') = machine id (snd v)) v.
Proof.
  intros Hv Hm. unfold check_one. cbv zeta.
  destruct (tv_status t) eqn:Es, (fresh_handshake now t); try (apply wp_ret; done);
    (apply (wp_mark t _ _ (fun _ => mret false)); rewrite ?Es; try done;
     [by apply wp_ret | intros; by apply wp_ret]).
Qed.

Lemma check_all_told now l : forall v, accurate l v -> wp (check_all now l) (fun _ => told) v.
Proof.
  induction l as [|t l IH]; intros v (Hv & Hnd & Hacc); simpl; [by apply wp_ret|].
  rewrite fmap_cons, NoDup_cons in Hnd. destruct Hnd as [Hn Hnd].
  apply wp_bind. eapply wp_conseq; [apply check_one_told; [done | apply Hacc; by left]|].
  intros [b|e] v1 (Hv1 & Hf1); [|done]. apply wp_bind. eapply wp_conseq; [apply IH|].
  - split; [done|]. split; [done|]. intros u Hu. rewrite Hf1; [apply Hacc; by right|].
    intros E. apply Hn. rewrite <- E. by apply list_elem_of_fmap_2.
  - intros [rest|e] v2 Hv2; [by apply wp_ret | done].
Qed.

Lemma health_told v : told v -> wp run_health_check (fun _ => told) v.
Proof.
  intros Hv. unfold run_health_check, tunnels_find_all, reconcile_iface_presence. steps; try done.
  eapply wp_conseq; [apply reconcile_all_told, read_accurate, Hv|]. intros [active|e] v1 (Hv1 & _ & Hacc); [|done].
  apply wp_bind. eapply wp_conseq; [by apply check_all_told, Hacc|]. intros [ids|e] v2 Hv2; [|done].
  apply wp_iter; [|done]. intros id v3 Hv3. unfold recreate_one. apply wp_bind, wp_attempt.
  eapply wp_conseq; [by apply tear_down_told|]. intros [?|?] v4 Hv4; [|by apply wp_ret].
  apply wp_bind, wp_attempt. eapply wp_conseq; [by apply bring_up_told|]. intros; by apply wp_ret.
Qed.

Lemma told_stats id tx rx h v : told v ->
  told ((fun r => if has_id id (tr_id r) then with_stats tx rx h r else r) <$> fst v, snd v).
Proof. destruct v. apply told_rows; intros r; by destruct (has_id _ _). Qed.

Lemma collect_told v : told v -> wp collect_stats (fun _ => told) v.
Proof.
  intros Hv. unfold collect_stats, tunnels_find_all. steps; try done. apply wp_iter; [|done].
  intros t v1 Hv1. unfold collect_one, tunnels_update_stats. steps; try done.
  apply wp_on_row; [intros ?; by steps|]. steps. apply wp_quiet.
  - intros w. unfold record_byte_deltas. by repeat case_match.
  - pose proof (told_stats (uuid_to_string (tv_id t)) (cast_signed (ts_bytes_tx t0)) (cast_signed (ts_bytes_rx t0))
      (ts_last_handshake t0) v1 Hv1) as H. intros [?|?]; [|done]. apply wp_emit. by apply told_other.
Qed.

Lemma probe_told v : told v -> wp probe_latencies (fun _ => told) v.
Proof.
  intros Hv. unfold probe_latencies, tunnels_find_all. steps; try done. generalize (List.filter is_active_tunnel (into_tunnel <$> fst v)) as l.
  intros l. induction l as [|t l IH]; simpl; steps; try done. quiet; done.
Qed.

Lemma await_told fuel i b dl v : told v -> wp (await_loop fuel i b dl) (fun _ => told) v.
Proof.
  intros Hv. induction fuel as [|fuel IH]; simpl; [by apply wp_fail|]. steps; try done. quiet; done.
Qed.

Lemma leg_told k i v : told v -> wp (measure_leg k i) (fun _ => told) v.
Proof.
  intros Hv. unfold measure_leg. steps; try done.
  eapply (wp_conseq _ (fun _ => told)); [|intros [?|?] v' Hv'; steps; done].
  induction (Z.to_nat _) as [|n IH]; simpl; [by apply wp_ret|]. steps; eapply wp_conseq; eauto; intros [?|?] v' Hv'; by steps.
Qed.

Lemma test_told id v : told v -> wp (test_body id) (fun _ => told) v.
Proof.
  intros Hv. unfold test_body. apply wp_bind, wp_require_tunnel; [done | done |]. intros t _ _. cbv zeta.
  apply wp_bind, (wp_conseq _ (fun _ => told)); [steps; [by apply bring_up_told | done]|].
  intros [?|?] v1 Hv1; [|done]. apply wp_bind, wp_attempt.
  apply (wp_conseq _ (fun _ => told)).
  { unfold run_test_probe, await_fresh_handshake. steps; try done. eapply wp_conseq; [by apply await_told|].
    intros [?|?] v2 Hv2; steps; done. }
  intros r v2 Hv2. apply wp_bind, (wp_conseq _ (fun _ => told)); [|intros [?|?] v3 Hv3; steps; done].
  steps; try done. eapply wp_conseq; [by apply tear_down_told|]. intros; by apply wp_ret.
Qed.

Lemma speed_told k fresh id v : told v -> wp (run_speed_test k fresh id) (fun _ => told) v.
Proof.
  intros Hv. unfold run_speed_test. apply wp_bind, wp_require_tunnel; [done | done |]. intros t _ _. cbv zeta.
  apply wp_bind, wp_attempt. eapply wp_conseq; [by apply leg_told|]. intros direct v1 Hv1.
  apply wp_bind, wp_attempt, (wp_conseq _ (fun _ => told)).
  { apply wp_bind, (wp_conseq _ (fun _ => told)); [|intros [?|?] v2 Hv2; [by apply leg_told | done]].
    steps; [|done]. eapply wp_conseq; [by apply bring_up_told|]. intros [?|?] v2 Hv2; [|done].
    unfold await_fresh_handshake. steps; try done. by apply await_told. }
  intros through v2 Hv2. apply wp_bind, (wp_conseq _ (fun _ => told)).
  { steps; try done. eapply wp_conseq; [by apply tear_down_told|]. intros; by apply wp_ret. }
  intros [?|?] v3 Hv3; [|done]. steps; try done. apply wp_tstmt; [done|]. intros w <-. by repeat case_match.
Qed.

Lemma import_told ctx fresh req v : told v -> (forall r, r ∈ fst v -> tr_id r <> fresh) ->
  machine fresh (snd v) = Some Down -> wp (import_tunnel ctx fresh req) (fun _ => told) v.
Proof.
  intros Hv Hf Hm. unfold import_tunnel, tunnels_next_interface_index. steps; try done.
  apply wp_tstmt; [done|]. intros w <-. destruct (existsb _ _); [done|]. cbn [fst snd]. steps. split; simpl.
  - rewrite fmap_app. apply NoDup_app. split_and!; [apply Hv | | apply NoDup_singleton].
    intros x (r & -> & Hr)%list_elem_of_fmap Hx%list_elem_of_singleton. by destruct (Hf r Hr).
  - intros r [Hr| ->%list_elem_of_singleton]%elem_of_app; [by apply (to_status _ Hv) | done].
Qed.

Lemma override_told ctx id b v : told v -> wp (set_dns_override ctx id b) (fun _ => told) v.
Proof.
  intros Hv. unfold set_dns_override, tunnels_update_dns_override. steps; try done.
  apply wp_require_tunnel; [done | done |]. intros t _ _. steps; try done. apply wp_on_row; [done|]. steps. apply wp_emit.
  assert (H : told ((fun r => if has_id (uuid_to_string id) (tr_id r) then with_dns_override b r else r) <$> fst v,
    snd v ++ [TunnelDnsOverrideChanged id])).
  { apply told_other; [done|]. destruct v. apply told_rows; [intros r; by destruct (has_id _ _).. | done]. }
  by apply wp_require_tunnel.
Qed.

Lemma delete_told ctx id v : told v -> wp (delete_tunnel ctx id) (fun _ => told) v.
Proof.
  intros Hv. unfold delete_tunnel. steps; try done. apply wp_require_tunnel; [done | done |]. intros t _ _.
  steps; try done. apply (wp_conseq _ (fun _ => told)).
  { apply wp_iter; [|done]. intros x [rows evs] Hx. apply wp_emit. by apply told_other. }
  intros [?|?] v1 Hv1; [|done]. apply wp_bind, wp_internal, wp_on_policy_db. intros [?|?]; [|done].
  apply wp_bind, (wp_conseq _ (fun _ => told)).
  { steps; try done. apply wp_emit. destruct v1. by apply told_other. }
  intros [?|?] v2 Hv2; [|done]. apply wp_bind, (wp_conseq _ (fun _ => told)).
  { steps; [by apply tear_down_told | done]. }
  intros [?|?] v3 Hv3; [|done]. steps; try done. apply wp_tstmt; [done|]. intros w <-. cbn [fst snd]. steps. by apply told_filter.
Qed.

(** ** Histories *)

(** A call of the service, or of a background task, one at a time. *)
Inductive TunnelCall : Type :=
| TImport (fresh : Uuid) (req : CreateTunnelRequest)
| TList | TGet (id : Uuid) | TTest (id : Uuid) | TDevices (id : Uuid) | TOverride (id : Uuid) (value : bool)
| TRebuild (id : Uuid) | TBringUp (id : Uuid) | TTearDown (id : Uuid) (reason : str)
| TBringUpInternal (id : Uuid) | TTearDownInternal (id : Uuid) (reason : str)
| TDelete (id : Uuid) | TRestore | TStats | THealth | TLatencies
| TStartSpeedTest (job_id id : Uuid) | TRunJob (fresh job_id : Uuid) | TSpeedTests (id : Uuid).

Definition run_tunnel_call (samples : Z) (ctx : option AuthContext) (c : TunnelCall) (w : Tunnels) : Tunnels :=
  match c with
  | TImport fresh req => snd (import_tunnel ctx fresh req w)
  | TList => snd (list_tunnels ctx w)
  | TGet id => snd (get_tunnel ctx id w)
  | TTest id => snd (test_tunnel ctx id w)
  | TDevices id => snd (list_tunnel_devices ctx id w)
  | TOverride id value => snd (set_dns_override ctx id value w)
  | TRebuild id => snd (rebuild ctx id w)
  | TBringUp id => snd (bring_up ctx id w)
  | TTearDown id reason => snd (tear_down ctx id reason w)
  | TBringUpInternal id => snd (bring_up_internal id w)
  | TTearDownInternal id reason => snd (tear_down_internal id reason w)
  | TDelete id => snd (delete_tunnel ctx id w)
  | TRestore => snd (restore_tunnels w)
  | TStats => snd (collect_stats w)
  | THealth => snd (run_health_check w)
  | TLatencies => snd (probe_latencies w)
  | TStartSpeedTest job_id id => snd (start_speed_test ctx job_id id w)
  | TRunJob fresh job_id => run_job samples fresh job_id w
  | TSpeedTests id => snd (list_speed_tests ctx id w)
  end.

(** An id that was never used. *)
Definition unused (id : Uuid) (w : Tunnels) : Prop :=
  (forall r, r ∈ tw_rows w -> tr_id r <> id) /\ (forall e, e ∈ tw_events w -> about e <> Some id).

(** Between calls the kernel, the clock, storage's readiness and the other
    tables are anybody's. *)
Inductive tstep (samples : Z) : Tunnels -> Tunnels -> Prop :=
| ts_call ctx c w : (forall fresh req, c = TImport fresh req -> unused fresh w) ->
    tstep samples w (run_tunnel_call samples ctx c w)
| ts_outside n p w : tstep samples w (set_env n (set_tpolicy p w)).

Lemma machine_unused id evs : (forall e, e ∈ evs -> about e <> Some id) -> machine id evs = Some Down.
Proof.
  induction evs as [|e evs IH] using rev_ind; intros H; [done|]. rewrite machine_other; [|apply H; set_solver].
  apply IH. intros x Hx. apply H. set_solver.
Qed.

Lemma wp_after {X E} (m : ST Tunnels E X) (P : Stored -> Prop) w : wp m (fun _ => P) (view w) -> P (view (snd (m w))).
Proof. intros H. by apply (H w). Qed.

Lemma run_job_told k fresh job w : told (view w) -> told (view (run_job k fresh job w)).
Proof.
  intros Hw. unfold run_job. destruct (List.find _ _) as [[j id]|]; [|done].
  change (told (view (snd (run_speed_test k fresh id (set_jobs (filter (fun x => fst x <> job) (tw_jobs w)) w))))).
  by apply wp_after, speed_told.
Qed.

Lemma start_told ctx job id w : told (view w) -> told (view (snd (start_speed_test ctx job id w))).
Proof.
  intros Hw. unfold start_speed_test, mbind, st_bind, admin, st_lift, acquire_in_flight.
  destruct (require_admin ctx); [|done]. case_bool_decide; [done|].
  set (w1 := set_in_flight _ w). pose proof (wp_after (require_tunnel id) told w1) as Hq.
  destruct (require_tunnel id w1) as [[t|e] w2]; apply Hq; by apply wp_require_tunnel.
Qed.

Lemma call_told (k : Z) ctx c w : (forall fresh req, c = TImport fresh req -> unused fresh w) -> told (view w) ->
  told (view (run_tunnel_call k ctx c w)).
Proof.
  intros Hc Hw. destruct c; cbn [run_tunnel_call];
    first [by apply run_job_told | by apply start_told | apply wp_after].
  1:{ destruct (Hc fresh req eq_refl). apply import_told; [done | done | by apply machine_unused]. }
  all: unfold list_tunnels, get_tunnel, test_tunnel, list_tunnel_devices, rebuild, bring_up, tear_down, bring_up_internal,
    tear_down_internal, restore_tunnels, list_speed_tests, tunnels_find_all, speed_tests_find_recent.
  all: first [ by apply override_told | by apply delete_told | by apply collect_told | by apply health_told
             | by apply probe_told | by apply bring_up_told | by apply tear_down_told | steps; try done ].
  all: try (by apply wp_require_tunnel); try (by apply bring_up_told); try (by apply tear_down_told).
  - apply wp_guarded; [done | by apply test_told].
  - apply wp_require_tunnel; [done | done |]. intros. by steps.
  - apply wp_guarded; [done|]. steps. eapply wp_conseq; [by apply tear_down_told|].
    intros [?|?] v Hv; [by apply bring_up_told | done].
  - apply wp_require_tunnel; [done | done |]. intros. steps. apply wp_tstmt; [done|]. intros ? Hx. simpl in *. by rewrite Hx.
Qed.

(** C34: Over any history of calls, one at a time and by any callers, with storage,
    kernel, keys, provider and probes failing at any point, the stored status of
    every tunnel is the one its published events lead to along the documented
    machine (Down to Connecting, Connecting and Reconnecting to Up, Up to
    Reconnecting, any of these to Down): no event is missing, superfluous or out of
    turn. *)
Theorem events_tell_status (samples : Z) (w w' : Tunnels) (r : TunnelRec) : rtc (tstep samples) w w' -> told (view w) ->
  r ∈ tw_rows w' -> machine (tr_id r) (tw_events w') = Some (status_of_text (tr_status r)).
Proof.
  intros Hr Hw. assert (told (view w')) as [_ H]; [|by apply H].
  induction Hr as [|x y z Hxy _ IH]; [done|]. apply IH. destruct Hxy; [by apply call_told | done].
Qed.

End laws.
