(* ===== verification/TunnelIdle.v ===== *)
(** * The idle watcher

    [wardnetd/src/tunnel_idle.rs]: countdowns of tunnels that lost their last
    device, the sweep that tears down the expired ones, and the loop as a run over
    timed inputs.  The routing service's answer is an argument of the event it is
    asked at, and so is the order in which a hash map is walked. *)

From S2P Require Import Prelude RustStr Net Auth PolicyRouter RoutingTypes ZoneTypes PolicyDb WgConfig.
From S2P Require Import TunnelInterface TunnelService.

Record IdleState : Type := {
  idle_since : gmap Uuid Z;
  active_tunnels : gset Uuid;
}.

Definition set_idle (m : gmap Uuid Z) (st : IdleState) : IdleState :=
  {| idle_since := m; active_tunnels := active_tunnels st |}.
Definition set_active_tunnels (s : gset Uuid) (st : IdleState) : IdleState :=
  {| idle_since := idle_since st; active_tunnels := s |}.

(** The events the watcher looks at. *)
Inductive IdleEvent : Type :=
| IdleRuleChanged (target : RoutingTarget) (previous_target : option RoutingTarget)
| IdleDeviceGone
| IdleTunnelUp (tunnel_id : Uuid)
| IdleTunnelDown (tunnel_id : Uuid)
| IdleOther.

(** [routing.devices_using_tunnel] under the system context, as it answers now. *)
Abbreviation UsersOf := (Uuid -> result (list Uuid) AppError).

(** [entry(id).or_insert_with(Instant::now)] *)
Definition start_countdown (now : Z) (id : Uuid) (st : IdleState) : IdleState :=
  match idle_since st !! id with
  | Some _ => st
  | None => set_idle (<[id := now]> (idle_since st)) st
  end.

Definition cancel_countdown (id : Uuid) (st : IdleState) : IdleState := set_idle (delete id (idle_since st)) st.

(** One tunnel after a departure. *)
Definition recheck (now : Z) (users : UsersOf) (st : IdleState) (tid : Uuid) : IdleState :=
  match idle_since st !! tid with
  | Some _ => st
  | None => match users tid with Ok [] => start_countdown now tid st | _ => st end
  end.

Definition reclaim (target : RoutingTarget) (st : IdleState) : IdleState :=
  match target with Tunnel id => cancel_countdown id st | _ => st end.

Definition handle_event (now : Z) (users : UsersOf) (e : IdleEvent) (st : IdleState) : IdleState :=
  match e with
  | IdleRuleChanged target previous_target =>
      match previous_target with
      | Some (Tunnel id) =>
          match users id with
          | Err _ => st
          | Ok [] => reclaim target (start_countdown now id st)
          | Ok _ => reclaim target st
          end
      | _ => reclaim target st
      end
  | IdleDeviceGone => foldl (recheck now users) st (elements (active_tunnels st))
  | IdleTunnelUp id => set_active_tunnels ({[id]} ∪ active_tunnels st) st
  | IdleTunnelDown id => cancel_countdown id (set_active_tunnels (active_tunnels st ∖ {[id]}) st)
  | IdleOther => st
  end.

(** The expired countdowns, in the order [order] walks the map. *)
Definition expired (order : list (Uuid * Z) -> list (Uuid * Z)) (timeout now : Z) (st : IdleState) : list Uuid :=
  fst <$> filter (fun p => timeout <= now - snd p) (order (map_to_list (idle_since st))).

Definition drop_expired (order : list (Uuid * Z) -> list (Uuid * Z)) (timeout now : Z) (st : IdleState) : IdleState :=
  foldl (fun st id => cancel_countdown id st) st (expired order timeout now st).

Section sweep.
Context {N : Type} {TE : TunnelEnv N} {U : UuidText}.

(** A failed tear-down is logged. *)
Definition sweep_idle (order : list (Uuid * Z) -> list (Uuid * Z)) (timeout now : Z)
    (s : IdleState * Tunnels) : IdleState * Tunnels :=
  foldl (fun '(st, w) id => (cancel_countdown id st, snd (tear_down_internal id (of_string "idle timeout") w)))
    s (expired order timeout now (fst s)).

(** The loop: an event, with what the routing service answers, or a tick. *)
Inductive IdleInput : Type := IdleEv (e : IdleEvent) (users : UsersOf) | IdleTick.

Context (order : list (Uuid * Z) -> list (Uuid * Z)) (timeout : Z).

Definition watch (s : IdleState * Tunnels) (i : Z * IdleInput) : IdleState * Tunnels :=
  match snd i with
  | IdleEv e users => (handle_event (fst i) users e (fst s), snd s)
  | IdleTick => sweep_idle order timeout (fst i) s
  end.

Definition event_loop (w : Tunnels) (l : list (Z * IdleInput)) : IdleState * Tunnels :=
  foldl watch ({| idle_since := ∅; active_tunnels := ∅ |}, w) l.

(** ** What a countdown and a tear-down mean *)

(** Inputs that end the countdown of [id]. *)
Definition ends (id : Uuid) (i : IdleInput) : Prop :=
  match i with
  | IdleEv (IdleRuleChanged (Tunnel t) None) _ => t = id
  | IdleEv (IdleRuleChanged (Tunnel t) (Some (Tunnel p))) users => t = id /\ is_ok (users p) = true
  | IdleEv (IdleRuleChanged (Tunnel t) (Some _)) _ => t = id
  | IdleEv (IdleTunnelDown t) _ => t = id
  | _ => False
  end.

(** An input at which the routing service said that [id] has no device. *)
Definition unused_at (id : Uuid) (i : IdleInput) : Prop :=
  match i with
  | IdleEv (IdleRuleChanged _ (Some (Tunnel p))) users => p = id /\ users id = Ok []
  | IdleEv IdleDeviceGone users => users id = Ok []
  | _ => False
  end.

(** The countdown of [id] runs since [since]. *)
Definition counted (l : list (Z * IdleInput)) (id : Uuid) (since : Z) : Prop :=
  exists l1 i l2, l = l1 ++ (since, i) :: l2 /\ unused_at id i /\ forall j, j ∈ l2 -> ~ ends id (snd j).

Lemma start_lookup now id st x s : idle_since (start_countdown now id st) !! x = Some s ->
  idle_since st !! x = Some s \/ (x = id /\ s = now).
Proof.
  unfold start_countdown. destruct (idle_since st !! id); [by left|]. simpl.
  intros [[-> ->]|[_ ?]]%lookup_insert_Some; auto.
Qed.

Lemma cancel_lookup id st x s : idle_since (cancel_countdown id st) !! x = Some s ->
  x <> id /\ idle_since st !! x = Some s.
Proof. unfold cancel_countdown. simpl. intros [??]%lookup_delete_Some. by split; [apply not_eq_sym|]. Qed.

Lemma recheck_lookup now users l : forall st x s, idle_since (foldl (recheck now users) st l) !! x = Some s ->
  idle_since st !! x = Some s \/ (users x = Ok [] /\ s = now).
Proof.
  induction l as [|t l IH]; intros st x s; simpl; [by left|]. intros [H| H]%IH; [|by right].
  unfold recheck in H. destruct (idle_since st !! t); [by left|].
  destruct (users t) as [[|]|] eqn:E; try by left. apply start_lookup in H as [H|[-> ->]]; auto.
Qed.

Lemma reclaim_lookup target st x s : idle_since (reclaim target st) !! x = Some s ->
  target <> Tunnel x /\ idle_since st !! x = Some s.
Proof. destruct target; simpl; intros H; [apply cancel_lookup in H as [? ?]; split; congruence | done..]. Qed.

(** A countdown after an event ran before it or starts with it, and the event did
    not end it. *)
Lemma handle_lookup now users e st x s : idle_since (handle_event now users e st) !! x = Some s ->
  (idle_since st !! x = Some s /\ ~ ends x (IdleEv e users)) \/ (s = now /\ unused_at x (IdleEv e users)).
Proof.
  destruct e as [target prev| |id|id|]; simpl.
  - destruct prev as [[| |]|]; simpl.
    1:{ destruct (users tunnel_id) as [[|u us]|err] eqn:E; intros H; simpl.
        - apply reclaim_lookup in H as [Ht H]. apply start_lookup in H as [H|[-> ->]]; [|by right].
          left. split; [done|]. destruct target; naive_solver.
        - apply reclaim_lookup in H as [Ht H]. left. split; [done|]. destruct target; naive_solver.
        - left. split; [done|]. destruct target; naive_solver. }
    all: intros [Ht H]%reclaim_lookup; left; (split; [done|]); destruct target; naive_solver.
  - intros [H|[? ->]]%recheck_lookup; [left; split; [done | by intros []] | by right].
  - intros H. left. split; [done | by intros []].
  - intros [Hne H]%cancel_lookup. left. split; [done|]. by intros ->.
  - intros H. left. split; [done | by intros []].
Qed.

Lemma sweep_fst now s : fst (sweep_idle order timeout now s) = drop_expired order timeout now (fst s).
Proof.
  unfold sweep_idle, drop_expired. generalize (expired order timeout now (fst s)) as l. intros l. revert s.
  induction l as [|id l IH]; intros [st w]; simpl; [done|]. by rewrite IH.
Qed.

Lemma drop_lookup now st x s : idle_since (drop_expired order timeout now st) !! x = Some s ->
  idle_since st !! x = Some s /\ x ∉ expired order timeout now st.
Proof.
  unfold drop_expired. generalize (expired order timeout now st) as l. intros l. revert st.
  induction l as [|id l IH]; intros st; simpl; [intros H; split; [done | set_solver]|].
  intros [[? ?]%cancel_lookup ?]%IH. split; [done | set_solver].
Qed.

Lemma counted_snoc l i x s : counted l x s -> ~ ends x (snd i) -> counted (l ++ [i]) x s.
Proof.
  intros (l1 & j & l2 & -> & Hj & Hl2) Hi. exists l1, j, (l2 ++ [i]). split; [by rewrite <- app_assoc|].
  split; [done|]. intros k [Hk| ->%list_elem_of_singleton]%elem_of_app; [by apply Hl2 | done].
Qed.

Lemma countdown_counted w l x s : idle_since (fst (event_loop w l)) !! x = Some s -> counted l x s.
Proof.
  revert x s. induction l as [|[now i] l IH] using rev_ind; intros x s; [simpl; by rewrite lookup_empty|].
  unfold event_loop. rewrite foldl_app. simpl. fold (event_loop w l). destruct i as [e users|]; unfold watch; simpl.
  - intros [[H Hn]|[-> Hu]]%handle_lookup; [apply counted_snoc; auto|].
    exists l, (IdleEv e users), []. split; [done|]. split; [done|]. set_solver.
  - rewrite sweep_fst. intros [H _]%drop_lookup. apply counted_snoc; [by apply IH | by intros []].
Qed.

Lemma elem_of_expired (Horder : forall l, order l ≡ₚ l) now st id : id ∈ expired order timeout now st <->
  exists since, idle_since st !! id = Some since /\ timeout <= now - since.
Proof.
  unfold expired. rewrite list_elem_of_fmap. split.
  - intros ([x s] & -> & [Hs Hin]%list_elem_of_filter). exists s. rewrite Horder in Hin. split; [by apply elem_of_map_to_list | done].
  - intros (s & Hx & Hs). exists (id, s). split; [done|]. apply list_elem_of_filter. split; [done|].
    rewrite Horder. by apply elem_of_map_to_list.
Qed.

Lemma NoDup_expired (Horder : forall l, order l ≡ₚ l) now st : NoDup (expired order timeout now st).
Proof. unfold expired. apply NoDup_filter_fmap. rewrite Horder. apply NoDup_fst_map_to_list. Qed.

Lemma drop_lookup_keep now st x : x ∉ expired order timeout now st ->
  idle_since (drop_expired order timeout now st) !! x = idle_since st !! x.
Proof.
  unfold drop_expired. generalize (expired order timeout now st) as l. intros l. revert st.
  induction l as [|id l IH]; intros st; simpl; [done|]. intros [? ?]%not_elem_of_cons. rewrite IH by done.
  unfold cancel_countdown. simpl. by rewrite lookup_delete_ne.
Qed.

Lemma drop_expired_filter (Horder : forall l, order l ≡ₚ l) now st :
  idle_since (drop_expired order timeout now st) = filter (fun p => now - snd p < timeout) (idle_since st).
Proof.
  apply map_eq. intros x. apply option_eq. intros s. rewrite map_lookup_filter_Some. simpl. split.
  - intros [Hs Hx]%drop_lookup. split; [done|]. destruct (decide (now - s < timeout)); [done|].
    exfalso. apply Hx, elem_of_expired; [done|]. exists s. split; [done | lia].
  - intros [Hs Ht]. rewrite drop_lookup_keep; [done|]. rewrite elem_of_expired by done.
    intros (s' & Hs' & ?). rewrite Hs in Hs'. simplify_eq. lia.
Qed.

(** The watcher tears a tunnel down only after its timeout: if a sweep at [now]
    picks a tunnel, then there was an event, at least the timeout earlier, at which
    the routing service answered that no device uses it, and since then neither was
    a device given this tunnel nor did it go down.  And it picks every such
    countdown it holds, each once. *)
Theorem idle_sweep_spec (Horder : forall l, order l ≡ₚ l) (w : Tunnels) (l : list (Z * IdleInput)) (now : Z) (id : Uuid) :
  NoDup (expired order timeout now (fst (event_loop w l))) /\
  (id ∈ expired order timeout now (fst (event_loop w l)) <->
     exists since, idle_since (fst (event_loop w l)) !! id = Some since /\ timeout <= now - since) /\
  (id ∈ expired order timeout now (fst (event_loop w l)) ->
     exists since, timeout <= now - since /\ counted l id since) /\
  idle_since (fst (sweep_idle order timeout now (event_loop w l))) =
    filter (fun p => now - snd p < timeout) (idle_since (fst (event_loop w l))).
Proof.
  split; [by apply NoDup_expired|]. rewrite elem_of_expired by done. split; [done|].
  rewrite sweep_fst, drop_expired_filter by done. split; [|done].
  intros (s & Hs & Ht). exists s. split; [done|]. by apply (countdown_counted w).
Qed.
End sweep.
