(* ===== verification/TunnelOps.v ===== *)
(** * Operations of the tunnel service

    What a successful deletion leaves behind, that the health check finds out which
    interfaces are gone, that waiting for a handshake ends, that imported interfaces
    get names of their own, and what the byte counters add up to. *)

From S2P Require Import Prelude RustStr Net Auth PolicyRouter RoutingTypes ZoneTypes PolicyDb WgConfig.
From S2P Require Import TunnelInterface TunnelService.

Section deletion.
Context {N : Type} {TE : TunnelEnv N} {U : UuidText} {UL : UuidTextLaws U} (id : Uuid).

(** What is not the tunnel's own: the policy tables, the other tunnels, the other
    tunnels' speed tests and the rules of routing profiles. *)
Abbreviation Others := (PolicyDb * list TunnelRec * list SpeedTestRow * list ProfileRuleRow)%type.
#[local] Instance others_view : View Tunnels Others := {| view := fun w =>
  (po_db (tw_policy w), filter (fun r => tr_id r <> id) (tw_rows w),
   filter (fun s => st_tunnel_id s <> id) (tw_results w), tw_profile_rules w) |}.

Lemma has_own i : has_id (uuid_to_string id) i = false <-> i <> id.
Proof. rewrite has_id_string. apply Z.eqb_neq. Qed.

Lemma others_row g (rows : list TunnelRec) : (forall r, tr_id (g r) = tr_id r) ->
  filter (fun r => tr_id r <> id) ((fun r => if has_id (uuid_to_string id) (tr_id r) then g r else r) <$> rows) =
  filter (fun r => tr_id r <> id) rows.
Proof.
  intros Hg. induction rows as [|r rows IH]; [done|]. rewrite fmap_cons, !filter_cons, IH.
  destruct (has_id _ _) eqn:E; [|done]. rewrite Hg. case_decide as Hr; [|done].
  apply has_own in Hr. congruence.
Qed.

Lemma quiet_tstmt {X} (f : Tunnels -> result X str * Tunnels) : (forall w, view (snd (f w)) = view w) ->
  forall w, view (snd (tstmt f w)) = view w.
Proof. intros Hf w. specialize (Hf w). unfold tstmt. by destruct (po_faults _) as [|[?|] ?]; destruct (f w). Qed.

Lemma quiet_own g : (forall r, tr_id (g r) = tr_id r) ->
  forall w, view (snd (internal (on_row (uuid_to_string id) g) w)) = view w.
Proof.
  intros Hg w. unfold internal.
  pose proof (quiet_tstmt (fun w => (Ok tt, set_rows ((fun r => if has_id (uuid_to_string id) (tr_id r) then g r else r) <$> tw_rows w) w))) as H.
  fold (on_row (uuid_to_string id) g) in H. specialize (fun Hf => H Hf w).
  destruct (on_row _ _ w) as [[?|?] ?]; apply H; intros w'; simpl; by rewrite others_row.
Qed.

Lemma quiet_env {X} (m : ST N str X) w : view (snd (env_call m w)) = view w.
Proof. unfold env_call, internal, on_env. by destruct (m (tw_env w)) as [[?|?] ?]. Qed.

Lemma quiet_require w : view (snd (require_tunnel id w)) = view w.
Proof.
  unfold require_tunnel, mbind, st_bind, internal, tunnels_find_by_id, tselect, tstmt.
  by destruct (po_faults _) as [|[?|] ?].
Qed.

(** A tear-down is the tunnel's own affair. *)
Lemma tear_down_others reason (Q : result unit AppError -> Others -> Prop) v : (forall r, Q r v) ->
  wp (tear_down_core id reason) Q v.
Proof.
  intros HQ. unfold tear_down_core, tunnels_update_status. apply wp_bind, wp_quiet; [apply quiet_require|].
  intros [t|?]; [|done]. case_bool_decide; [by apply wp_ret|].
  do 2 (apply wp_bind, wp_quiet; [apply quiet_env|]; intros [?|?]; [|done]).
  apply wp_bind, wp_quiet; [by apply quiet_own|]. intros [?|?]; [|done]. by apply wp_quiet.
Qed.

Lemma on_policy_ok {X} (m : ST Policy str X) (a : X) w w' : internal (on_policy_db m) w = (Ok a, w') ->
  exists p, m (tw_policy w) = (Ok a, p) /\ w' = set_tpolicy p w.
Proof. unfold internal, on_policy_db. destruct (m (tw_policy w)) as [[?|?] p]; intros [= <- <-]. by exists p. Qed.

Lemma made_direct_none l : List.filter (targets_tunnel (uuid_to_string id)) l = [] ->
  made_direct (uuid_to_string id) <$> l = l.
Proof.
  induction l as [|r l IH]; simpl; [done|]. unfold made_direct at 1. destruct (targets_tunnel _ r); [done|].
  intros H. f_equal. by apply IH.
Qed.

(** The tables with every rule of the tunnel made direct. *)
Definition without_rules (d : PolicyDb) : PolicyDb :=
  set_rule_rows (made_direct (uuid_to_string id) <$> t_rules d) d.

Lemma switch_ok p ids p' : dev_switch_tunnel_rules_to_direct (uuid_to_string id) p = (Ok ids, p') ->
  po_db p' = without_rules (po_db p).
Proof.
  unfold dev_switch_tunnel_rules_to_direct, mbind, st_bind, select, execute, stmt, mret, st_ret.
  destruct p as [d fs now evs]. unfold without_rules. simpl.
  destruct fs as [|[e|] [|[e'|] fs]]; simpl; try discriminate; case_bool_decide as E; simpl; intros [= <- <-];
    simpl; try done; apply fmap_nil_inv in E; by rewrite made_direct_none; [destruct d|].
Qed.

Definition default_key : str := of_string "default_policy".

(** A default policy that named the tunnel is direct. *)
Definition policy_reset (d : PolicyDb) : PolicyDb :=
  if policy_targets id (t_config d !! default_key)
  then set_config (<[default_key := of_string "direct"]> (t_config d)) d else d.

Lemma reset_ok p policy p1 w1 w2 u :
  cfg_get_default_policy p = (Ok policy, p1) -> w1 = set_tpolicy p1 w2 ->
  (if policy_targets id policy
   then reset ← internal (on_policy_db (cfg_reset_default_policy_from (default [] policy)));
        if reset : bool then emit (TunnelPolicyChanged (of_string "direct")) else mret tt
   else mret tt) w1 = (Ok tt, u) ->
  po_db (tw_policy u) = policy_reset (po_db p) /\ tw_rows u = tw_rows w2 /\ tw_results u = tw_results w2 /\
  tw_profile_rules u = tw_profile_rules w2.
Proof.
  intros Hp -> Hu. assert (policy = t_config (po_db p) !! default_key /\ po_db p1 = po_db p) as [-> Hdb].
  { revert Hp. unfold cfg_get_default_policy, cfg_get, select, stmt. destruct (po_faults p) as [|[?|] ?];
      intros [= <- <-]; done. }
  unfold policy_reset. destruct (policy_targets id _) eqn:Et; [|injection Hu as <-; by rewrite <- Hdb].
  destruct (t_config (po_db p) !! default_key) as [t|] eqn:Ed; [|done].
  apply bind_Ok_inv in Hu as (b & w3 & (p3 & Hp3 & ->)%on_policy_ok & Hu). revert Hp3.
  unfold cfg_reset_default_policy_from. fold default_key. unfold stmt. cbv zeta. cbn [tw_policy set_tpolicy upd default].
  rewrite Hdb, Ed, bool_decide_eq_true_2 by done.
  destruct (po_faults p1) as [|[?|] ?]; intros [= <- <-]; injection Hu as <-; by rewrite <- ?Hdb.
Qed.

Lemma without_rules_none d r : r ∈ t_rules (without_rules d) -> rr_target r <> Tunnel id.
Proof.
  intros (x & -> & _)%list_elem_of_fmap. unfold made_direct, targets_tunnel, has_id.
  destruct (rr_target x) eqn:E; simpl; [|by rewrite E..].
  case_bool_decide as Hu; simpl; [done|]. rewrite E. intros [= ->]. done.
Qed.

Lemma policy_reset_none d : policy_targets id (t_config (policy_reset d) !! default_key) = false.
Proof.
  unfold policy_reset. destruct (policy_targets id (t_config d !! default_key)) eqn:E; [|done]. simpl.
  by rewrite lookup_insert_eq.
Qed.

Lemma announce_only (f : Uuid -> TunnelEvent) ids : forall w u, st_iter (fun x => emit (f x)) ids w = (Ok tt, u) ->
  tw_policy u = tw_policy w /\ tw_rows u = tw_rows w /\ tw_results u = tw_results w /\
  tw_profile_rules u = tw_profile_rules w.
Proof.
  induction ids as [|x ids IH]; intros w u; simpl; [by intros [= <-]|].
  intros ([] & w1 & [= <-] & H)%bind_Ok_inv. by apply IH in H.
Qed.

Lemma removed w (u : unit) w' : internal (tunnels_delete (uuid_to_string id)) w = (Ok u, w') ->
  po_db (tw_policy w') = po_db (tw_policy w) /\ tw_rows w' = filter (fun r => tr_id r <> id) (tw_rows w) /\
  tw_results w' = filter (fun s => st_tunnel_id s <> id) (tw_results w) /\
  tw_profile_rules w' = filter (fun r => pr_tunnel_id r <> Some id) (tw_profile_rules w).
Proof.
  assert (Hp : forall o, from_option (has_id (uuid_to_string id)) false o = false <-> o <> Some id).
  { intros [i|]; simpl; [rewrite has_own; naive_solver | done]. }
  unfold internal, tunnels_delete, tstmt. destruct (po_faults _) as [|[?|] ?]; intros [= _ <-]; simpl; (split; [done|]);
    (split; [|split]); apply list_filter_iff; intros; first [apply has_own | apply Hp].
Qed.

(** C35: A successful deletion leaves nothing that refers to the tunnel, whatever
    it was doing: its row, its speed tests and the routing-profile rules that
    targeted it are gone, no device rule and no default policy targets it, the
    device rules that did are direct, and the other rows of these tables (tunnels,
    speed tests, profile rules, devices, zones, exceptions, device rules, settings)
    have not changed. *)
Theorem delete_leaves_nothing (ctx : option AuthContext) (w w' : Tunnels) (msg : str) :
  delete_tunnel ctx id w = (Ok msg, w') ->
  po_db (tw_policy w') = policy_reset (without_rules (po_db (tw_policy w))) /\
  tw_rows w' = filter (fun r => tr_id r <> id) (tw_rows w) /\
  tw_results w' = filter (fun s => st_tunnel_id s <> id) (tw_results w) /\
  tw_profile_rules w' = filter (fun r => pr_tunnel_id r <> Some id) (tw_profile_rules w) /\
  (forall r, r ∈ t_rules (po_db (tw_policy w')) -> rr_target r <> Tunnel id) /\
  policy_targets id (t_config (po_db (tw_policy w')) !! default_key) = false.
Proof.
  intros H. unfold delete_tunnel in H.
  apply bind_Ok_inv in H as (? & w0 & E & H). apply (f_equal snd) in E. simpl in E. subst w0.
  apply bind_Ok_inv in H as (t & w1 & E & H). pose proof (quiet_require w) as Q1. rewrite E in Q1. clear E.
  apply bind_Ok_inv in H as (ids & w2 & (p2 & E2 & ->)%on_policy_ok & H). apply switch_ok in E2.
  apply bind_Ok_inv in H as ([] & w3 & E3 & H). apply announce_only in E3.
  apply bind_Ok_inv in H as (policy & w4 & (p4 & E4 & Hw4)%on_policy_ok & H).
  apply bind_Ok_inv in H as ([] & w5 & E5 & H). destruct (reset_ok _ _ _ _ _ _ E4 Hw4 E5) as (D5 & R5 & S5 & G5).
  apply bind_Ok_inv in H as (? & w6 & E6 & H).
  assert (Q6 : view w6 = view w5).
  { destruct (is_active_tunnel t); [|apply (f_equal snd) in E6; simpl in E6; by subst w6].
    pose proof (tear_down_others (of_string "tunnel deleted") (fun _ v => v = view w5) (view w5) (fun _ => eq_refl) w5 eq_refl) as Q6.
    by rewrite E6 in Q6. }
  apply bind_Ok_inv in H as (? & w7 & E7 & H). pose proof (quiet_env (delete_key id) w6) as Q7. rewrite E7 in Q7.
  apply bind_Ok_inv in H as (? & w8 & E8 & H). injection H as _ <-. apply removed in E8 as (D8 & R8 & S8 & G8).
  destruct E3 as (P3 & R3 & S3 & G3). unfold view in Q1, Q6, Q7. simpl in Q1, Q6, Q7. injection Q1 as D1 R1 S1 G1.
  rewrite Q6 in Q7. injection Q7 as D7 R7 S7 G7.
  assert (Hd : po_db (tw_policy w8) = policy_reset (without_rules (po_db (tw_policy w)))).
  { rewrite D8, D7, D5, P3. simpl. by rewrite E2, D1. }
  split; [done|]. split; [rewrite R8, R7, R5, R3; exact R1|]. split; [rewrite S8, S7, S5, S3; exact S1|].
  split; [rewrite G8, G7, G5, G3; simpl; by rewrite G1|].
  rewrite Hd. split; [|apply policy_reset_none].
  intros r Hr. apply (without_rules_none (po_db (tw_policy w))). unfold policy_reset in Hr. by destruct (policy_targets _ _) in Hr.
Qed.

End deletion.

(** ** Presence *)

Section presence.
Context {N : Type} {TE : TunnelEnv N} {U : UuidText} {UL : UuidTextLaws U}.

(** Recorded as present, but not listed. *)
Definition gone (live : list str) (t : TunnelView) : bool :=
  negb (bool_decide (tv_status t = Down)) && negb (bool_decide (tv_interface_name t ∈ live)).

Definition here (live : list str) (t : TunnelView) : bool :=
  negb (bool_decide (tv_status t = Down)) && bool_decide (tv_interface_name t ∈ live).

Definition taken_down (live : list str) (l : list TunnelView) (r : TunnelRec) : TunnelRec :=
  if existsb (fun t => gone live t && has_id (uuid_to_string (tv_id t)) (tr_id r)) l
  then with_status (of_string "down") r else r.

Lemma reconcile_one_run live t w : po_faults (tw_policy w) = [] -> exists w',
  reconcile_one live t w = (Ok (if here live t then Some t else None), w') /\
  po_faults (tw_policy w') = [] /\ tw_env w' = tw_env w /\ tw_rows w' = taken_down live [t] <$> tw_rows w.
Proof.
  intros Hf. unfold reconcile_one, here, taken_down, gone. simpl.
  case_bool_decide as Ed; simpl; [by exists w; rewrite list_fmap_id|].
  case_bool_decide; simpl; [by exists w; rewrite list_fmap_id|].
  unfold mbind, st_bind, attempt, tunnels_update_status, on_row, tstmt. rewrite Hf. simpl.
  eexists. split; [done|]. split; [done|]. split; [done|]. simpl. apply list_fmap_ext. intros _ r _.
  by rewrite orb_false_r.
Qed.

Lemma taken_down_cons live t l r : taken_down live l (taken_down live [t] r) = taken_down live (t :: l) r.
Proof.
  unfold taken_down. simpl. rewrite orb_false_r. destruct (gone live t && _); simpl; [|done].
  by destruct (existsb _ _).
Qed.

Lemma reconcile_all_run live l : forall w, po_faults (tw_policy w) = [] -> exists w',
  reconcile_all live l w = (Ok (List.filter (here live) l), w') /\
  po_faults (tw_policy w') = [] /\ tw_env w' = tw_env w /\ tw_rows w' = taken_down live l <$> tw_rows w.
Proof.
  induction l as [|t l IH]; intros w Hf; simpl; [by exists w; rewrite list_fmap_id|].
  destruct (reconcile_one_run live t w Hf) as (w1 & E1 & F1 & N1 & R1).
  destruct (IH w1 F1) as (w2 & E2 & F2 & N2 & R2).
  exists w2. rewrite (bind_Ok_run _ _ _ _ _ E1), (bind_Ok_run _ _ _ _ _ E2).
  split; [by destruct (here live t)|]. split; [done|]. split; [congruence|].
  rewrite R2, R1, <- list_fmap_compose. apply list_fmap_ext. intros _ r _. apply taken_down_cons.
Qed.

Lemma taken_down_own live rows r : NoDup (tr_id <$> rows) -> r ∈ rows ->
  taken_down live (into_tunnel <$> rows) r =
  if gone live (into_tunnel r) then with_status (of_string "down") r else r.
Proof.
  intros Hnd Hr. unfold taken_down. destruct (existsb _ _) eqn:E.
  - apply existsb_exists in E as (t & Ht & [Hg Hid]%andb_true_iff).
    apply list_elem_of_In, list_elem_of_fmap in Ht as (x & -> & Hx). unfold has_id in Hid.
    apply bool_decide_eq_true, (inj uuid_to_string) in Hid.
    rewrite (NoDup_fmap_elem_inj tr_id rows r x); [by rewrite Hg | done..].
  - destruct (gone live (into_tunnel r)) eqn:Eg; [|done]. rewrite <- not_true_iff_false in E.
    destruct E. apply existsb_exists. exists (into_tunnel r). split; [by apply list_elem_of_In, list_elem_of_fmap_2|].
    rewrite Eg. unfold has_id. simpl. by apply bool_decide_eq_true.
Qed.

(** The presence check makes the records agree with the kernel: when it has
    run, on storage that answers, every tunnel recorded as connecting, up or
    reconnecting has its interface, the tunnels handed on to the health check are
    exactly those, and a tunnel that was down or has its interface is untouched. *)
Theorem presence_reconciled {IL : TunnelInterfaceLaws N IpNetwork SocketAddr} (w w' : Tunnels) (active : list TunnelView) :
  po_faults (tw_policy w) = [] -> NoDup (tr_id <$> tw_rows w) ->
  (all ← internal tunnels_find_all; reconcile_iface_presence all) w = (Ok active, w') ->
  (forall r, r ∈ tw_rows w' -> status_of_text (tr_status r) <> Down -> tr_interface_name r ∈ interfaces (tw_env w')) /\
  (forall t, t ∈ active <-> exists r, r ∈ tw_rows w' /\ t = into_tunnel r /\ tv_status t <> Down) /\
  (forall r, r ∈ tw_rows w -> status_of_text (tr_status r) = Down \/ tr_interface_name r ∈ interfaces (tw_env w) ->
     r ∈ tw_rows w').
Proof.
  intros Hf Hnd H. apply bind_Ok_inv in H as (all & w1 & E1 & H). revert E1.
  unfold internal, tunnels_find_all, tselect, tstmt. rewrite Hf. intros [= <- <-].
  apply bind_Ok_inv in H as (live & w2 & E2 & H). revert E2. unfold env_call, internal, on_env. simpl.
  destruct (if_list (tw_env w)) as [[live'|?] n] eqn:El; intros [= <- <-].
  destruct (reconcile_all_run live' (into_tunnel <$> tw_rows w) (set_env n (set_tpolicy (set_faults [] (tw_policy w)) w)))
    as (w3 & E3 & _ & N3 & R3); [done|]. rewrite E3 in H. injection H as <- <-. simpl in N3, R3.
  pose proof (list_frame (tw_env w)) as Hfr. rewrite El in Hfr. simpl in Hfr. rewrite N3, Hfr, (list_law _ _ _ El).
  assert (Hrow : forall r, r ∈ tw_rows w3 <-> exists x, x ∈ tw_rows w /\
    r = if gone live' (into_tunnel x) then with_status (of_string "down") x else x).
  { intros r. rewrite R3, list_elem_of_fmap. split; intros (x & Hx1 & Hx2); exists x.
    - by rewrite taken_down_own in Hx1.
    - by rewrite taken_down_own. }
  split_and!.
  - intros r (x & Hx & ->)%Hrow. rewrite elem_of_list_to_set. unfold gone. simpl.
    case_bool_decide; simpl; [done|]. by case_bool_decide; simpl.
  - intros t. rewrite list_elem_of_In, filter_In, <- list_elem_of_In, list_elem_of_fmap. unfold here. split.
    + intros [(x & -> & Hx) [H1 H2]%andb_true_iff]. exists x. split; [|split; [done|]].
      * apply Hrow. exists x. unfold gone. by rewrite H2, andb_false_r.
      * by apply negb_true_iff, bool_decide_eq_false in H1.
    + intros (r & (x & Hx & ->)%Hrow & -> & Hs). unfold gone in *. simpl in *.
      repeat case_bool_decide; simpl in *; try done; (split; [by exists x | done]).
  - intros r Hr Hs. apply Hrow. exists r. split; [done|]. rewrite elem_of_list_to_set in Hs. unfold gone. simpl.
    destruct Hs; [by rewrite bool_decide_eq_true_2 | by rewrite andb_comm, bool_decide_eq_true_2].
Qed.

End presence.

(** ** Waiting *)

Section waiting.
Context {N : Type} {TE : TunnelEnv N} {U : UuidText}.
(** The monotonic clock: a sleep takes at least its time, and reading the
    statistics of an interface takes no time away. *)
Context (sleep_takes : forall k n, instant_now n + ms k <= instant_now (sleep_ms k n)).
Context (stats_takes : forall i n, instant_now n <= instant_now (snd (if_get_stats i n))).

Lemma await_loop_ends (i : str) (budget deadline : Z) fuel : forall w,
  (0 < fuel)%nat -> deadline - instant_now (tw_env w) < (Z.of_nat fuel - 1) * ms 100 ->
  fst (await_loop fuel i budget deadline w) <> Err (Internal (of_string "out of fuel")).
Proof.
  induction fuel as [|fuel IH]; intros w Hp Hw; [lia|].
  cbn [await_loop]. unfold mbind, st_bind, attempt, on_env. pose proof (stats_takes i (tw_env w)) as Ht.
  destruct (if_get_stats i (tw_env w)) as [[stats|e] n]; simpl in Ht |- *; [|done].
  match goal with |- context [if ?b then mret tt else _] => destruct b end; [done|].
  simpl. destruct (Z.leb_spec deadline (instant_now n)) as [|Hlt]; [done|].
  simpl. specialize (sleep_takes 100 n). unfold ms in *. apply IH; simpl; lia.
Qed.

(** Waiting for a handshake ends: whatever the interface reports, the loop
    succeeds, fails to read the statistics, or gives up within one round after its
    budget; its fuel is never used up. *)
Theorem await_terminates (i : str) (budget : Z) (w : Tunnels) :
  fst (await_fresh_handshake i budget w) <> Err (Internal (of_string "out of fuel")).
Proof.
  apply await_loop_ends; [lia|]. simpl. unfold ms. destruct (Z.le_gt_cases 0 (budget / 100)) as [H|H].
  - rewrite Nat2Z.inj_add, Z2Nat.id by done. pose proof (Z.mod_pos_bound budget 100). zdiv.
  - assert (budget < 0) by zdiv. lia.
Qed.

End waiting.

(** ** Names *)

Section names.
Context {N : Type} {TE : TunnelEnv N} {U : UuidText}.

Definition all_digits (s : str) : Prop := Forall (fun c => is_ascii_digit c = true) s.

Lemma show_digits_all fuel : forall n, 0 <= n -> all_digits (show_digits fuel n).
Proof.
  induction fuel as [|fuel IH]; intros n Hn; simpl; [constructor|].
  destruct (Z.ltb_spec n 10); [repeat constructor; apply digit_char_val; lia|].
  apply Forall_app. split; [apply IH; apply Z.div_pos; lia|]. repeat constructor. apply digit_char_val.
  pose proof (Z.mod_pos_bound n 10). lia.
Qed.

Lemma decimal_snoc s c : decimal (s ++ [c]) = decimal s * 10 + digit_val c.
Proof. unfold decimal. by rewrite foldl_app. Qed.

Lemma decimal_show fuel : forall n, 0 <= n < 10 ^ Z.of_nat fuel -> decimal (show_digits fuel n) = n.
Proof.
  induction fuel as [|fuel IH]; intros n Hn; [simpl in *; unfold decimal; simpl; lia|].
  cbn [show_digits]. destruct (Z.ltb_spec n 10).
  - unfold decimal. simpl. destruct (digit_char_val n) as (_ & -> & _); lia.
  - rewrite decimal_snoc, IH.
    + destruct (digit_char_val (n mod 10)) as (_ & -> & _); zdiv.
    + rewrite Nat2Z.inj_succ, Z.pow_succ_r in Hn by lia. split; [apply Z.div_pos; lia | apply Z.div_lt_upper_bound; lia].
Qed.

Lemma digit_not (c d : ascii) : is_ascii_digit c = true -> is_ascii_digit d = false -> c <> d.
Proof. intros Hc Hd ->. congruence. Qed.

Lemma remove_digits s : all_digits s -> sql_remove TUNNEL_INTERFACE_PREFIX 0 s = s.
Proof.
  induction 1 as [|c s Hc Hs IH]; [done|]. cbn [sql_remove].
  replace (starts_with _ _) with false; [simpl; by rewrite IH|].
  unfold starts_with, TUNNEL_INTERFACE_PREFIX. simpl. rewrite bool_decide_eq_false_2; [done|].
  by apply not_eq_sym, digit_not.
Qed.

Lemma leading_all s : all_digits s -> leading_digits s = s.
Proof. induction 1 as [|c s Hc Hs IH]; simpl; [done|]. by rewrite Hc, IH. Qed.

Lemma cast_digits s : all_digits s -> decimal s <= I64_MAX -> sql_cast_integer s = decimal s.
Proof.
  intros Hs Hb. unfold sql_cast_integer. destruct Hs as [|c s Hc Hs]; [done|]. simpl.
  replace (is_ws_byte c) with false.
  2:{ symmetry. unfold is_ascii_digit, is_ws_byte, in_range in *. case_bool_decide as E; [by subst c|].
      rewrite orb_false_r. apply andb_false_iff. right. apply Z.leb_gt. breflect. lia. }
  rewrite !bool_decide_eq_false_2 by (by apply digit_not). rewrite leading_all by by constructor. lia.
Qed.

(** The number of an interface name is read back from it. *)
Lemma index_of_name n : 0 <= n <= I64_MAX -> interface_index (TUNNEL_INTERFACE_PREFIX ++ show_i64 n) = n.
Proof.
  intros Hn. unfold show_i64. rewrite (proj2 (Z.ltb_ge _ _)) by lia.
  assert (Hd : all_digits (show_digits 20 n)) by (apply show_digits_all; lia).
  assert (Hv : decimal (show_digits 20 n) = n) by (apply decimal_show; unfold I64_MAX in Hn; lia).
  unfold interface_index.
  change (sql_remove TUNNEL_INTERFACE_PREFIX 0 (TUNNEL_INTERFACE_PREFIX ++ show_digits 20 n))
    with (sql_remove TUNNEL_INTERFACE_PREFIX 0 (show_digits 20 n)).
  rewrite remove_digits, cast_digits; [done | done | lia | done].
Qed.

(** Interface names as the service makes them, each used once. *)
Definition names_ok (rows : list TunnelRec) : Prop :=
  NoDup (tr_interface_name <$> rows) /\
  forall r, r ∈ rows -> exists n, 0 <= n <= I64_MAX /\ tr_interface_name r = TUNNEL_INTERFACE_PREFIX ++ show_i64 n.

Lemma foldl_max_le l : forall x y, (y = x \/ y ∈ l) -> y <= foldl Z.max x l.
Proof.
  assert (Hle : forall l x, x <= foldl Z.max x l).
  { clear. induction l as [|z l IH]; intros x; simpl; [lia|]. specialize (IH (Z.max x z)). lia. }
  induction l as [|z l IH]; intros x y Hy; simpl; [set_solver by lia|].
  destruct Hy as [->|[->|Hy]%elem_of_cons]; [specialize (Hle l (Z.max x z)); lia.. | by apply IH; right].
Qed.

Lemma next_index_above rows r : r ∈ rows -> interface_index (tr_interface_name r) < next_index rows.
Proof.
  intros Hr. unfold next_index. assert (H : interface_index (tr_interface_name r)
    ∈ (fun r => interface_index (tr_interface_name r)) <$> rows) by by apply list_elem_of_fmap; exists r.
  destruct ((fun r => interface_index (tr_interface_name r)) <$> rows) as [|x l]; [set_solver|].
  apply Z.lt_succ_r, foldl_max_le. by apply elem_of_cons.
Qed.

Lemma next_index_nonneg rows : names_ok rows -> 0 <= next_index rows.
Proof.
  intros [_ Hn]. destruct rows as [|r rows]; [done|]. pose proof (next_index_above (r :: rows) r (list_elem_of_here _ _)) as H.
  destruct (Hn r (list_elem_of_here _ _)) as (n & Hb & E). rewrite E, index_of_name in H by done. lia.
Qed.

Lemma next_name_fresh rows r : names_ok rows -> next_index rows <= I64_MAX -> r ∈ rows ->
  tr_interface_name r <> TUNNEL_INTERFACE_PREFIX ++ show_i64 (next_index rows).
Proof.
  intros Hok Hb Hr E. pose proof (next_index_above rows r Hr) as H. rewrite E, index_of_name in H; [lia|].
  split; [by apply next_index_nonneg | done].
Qed.

(** An import by an admin, of a file that parses and has a peer, on stores that
    answer, succeeds: the new tunnel is stored down, with the file's peer, under an
    interface name no other tunnel has, numbered one past the highest, and the
    names stay as the service makes them. *)
Theorem import_succeeds (ctx : option AuthContext) (fresh : Uuid) (req : CreateTunnelRequest) (config : WgConfig)
    (peer : WgPeerConfig) (w : Tunnels) (n : N) :
  require_admin ctx = Ok tt -> wg_parse (ct_config req) = Ok config -> head (wg_peers config) = Some peer ->
  po_faults (tw_policy w) = [] -> save_key fresh (wi_private_key (wg_interface config)) (tw_env w) = (Ok tt, n) ->
  (forall r, r ∈ tw_rows w -> tr_id r <> fresh) -> names_ok (tw_rows w) -> next_index (tw_rows w) <= I64_MAX ->
  exists row w', import_tunnel ctx fresh req w = (Ok (into_tunnel row), w') /\ tw_rows w' = tw_rows w ++ [row] /\
    tr_id row = fresh /\ status_of_text (tr_status row) = Down /\ tr_peer row = peer /\
    tr_interface_name row = TUNNEL_INTERFACE_PREFIX ++ show_i64 (next_index (tw_rows w)) /\ names_ok (tw_rows w').
Proof.
  intros Ha Hc Hp Hf Hk Hid Hok Hb. unfold import_tunnel, admin, st_lift, mbind, st_bind. rewrite Ha, Hc. simpl. rewrite Hp.
  simpl. unfold internal, tunnels_next_interface_index, tselect, tstmt. rewrite Hf. simpl.
  unfold env_call, internal, on_env. simpl. rewrite Hk. simpl. unfold tunnels_insert, tstmt. simpl.
  set (row := {| tr_id := fresh |}). destruct (existsb _ _) eqn:E.
  - apply existsb_exists in E as (x & Hx & Hbad). apply list_elem_of_In in Hx. apply orb_true_iff in Hbad as [Hbad|Hbad].
    + apply Z.eqb_eq in Hbad. by destruct (Hid x Hx).
    + apply bool_decide_eq_true in Hbad. by destruct (next_name_fresh _ _ Hok Hb Hx).
  - eexists row, _. split; [done|]. simpl. split_and!; try done. destruct Hok as [Hnd Hn].
    assert (Hok : names_ok (tw_rows w)) by done. split.
    + rewrite fmap_app. apply NoDup_app. split_and!; [done | | apply NoDup_singleton].
      intros x (r & -> & Hr)%list_elem_of_fmap Hx%list_elem_of_singleton. by apply (next_name_fresh _ _ Hok Hb Hr).
    + intros r [Hr| ->%list_elem_of_singleton]%elem_of_app; [by apply Hn|].
      exists (next_index (tw_rows w)). split; [split; [by apply next_index_nonneg | done] | done].
Qed.

End names.
