(* ===== verification/LoginLimiter.v ===== *)
(** * Login rate limiting

    [wardnetd-services/src/auth/rate_limit.rs]: a failure counter per submitted
    subject and per source address, with exponential backoff.  Durations and
    [Instant]s are nanoseconds; [now] is an argument.  The mutexes are never
    poisoned, because no locked section can panic. *)

From S2P Require Import Prelude RustStr.

Definition SECOND : Z := 1000000000.
Definition FREE_ATTEMPTS : Z := 4.
Definition BASE_BACKOFF : Z := 2 * SECOND.
Definition MAX_BACKOFF : Z := 60 * SECOND.
Definition ENTRY_TTL : Z := 15 * 60 * SECOND.
Definition MAX_TRACKED : nat := Z.to_nat 8192.

Record Attempts : Type := { failures : Z; last_failure : Z }.

(** [1_u32.checked_shl(n).unwrap_or(u32::MAX)]: the shift amount must be below
    32, the value keeps its low 32 bits. *)
Definition checked_shl_one (n : Z) : Z :=
  if n <? 32 then Z.shiftl 1 n mod 4294967296 else U32_MAX.

Definition backoff (a : Attempts) : Z :=
  if failures a <=? FREE_ATTEMPTS then 0
  else
    let excess := failures a - FREE_ATTEMPTS - 1 in
    Z.min (BASE_BACKOFF * checked_shl_one (Z.min excess 16)) MAX_BACKOFF.

(** [now.saturating_duration_since(earlier)] *)
Definition duration_since (now earlier : Z) : Z := Z.max 0 (now - earlier).

Definition retry_after (now : Z) (a : Attempts) : option Z :=
  let elapsed := duration_since now (last_failure a) in
  if elapsed <? backoff a then Some (backoff a - elapsed) else None.

Record LoginRateLimiter : Type := {
  by_subject : gmap str Attempts;
  by_ip : gmap str Attempts;
}.

Definition limiter_new : LoginRateLimiter := {| by_subject := ∅; by_ip := ∅ |}.

Definition normalise (subject : str) : str := to_lowercase (trim subject).

Definition peek (m : gmap str Attempts) (key : str) (now : Z) : option Z :=
  m !! key ≫= retry_after now.

(** [Option<Duration>] ordering: [None] is the least. *)
Definition option_max (a b : option Z) : option Z :=
  match a, b with
  | None, _ => b
  | _, None => a
  | Some x, Some y => Some (Z.max x y)
  end.

Definition limiter_check (l : LoginRateLimiter) (subject : str) (client_ip : option str) (now : Z)
    : option Z :=
  let subject_wait := peek (by_subject l) (normalise subject) now in
  let ip_wait := ip ← client_ip; peek (by_ip l) ip now in
  option_max subject_wait ip_wait.

Definition is_fresh (now : Z) (a : Attempts) : Prop := duration_since now (last_failure a) < ENTRY_TTL.

#[export] Instance is_fresh_dec now a : Decision (is_fresh now a).
Proof. unfold is_fresh. apply _. Defined.

Definition bump (m : gmap str Attempts) (key : str) (now : Z) : gmap str Attempts :=
  let m := filter (fun kv => is_fresh now (snd kv)) m in
  let m := if bool_decide (MAX_TRACKED <= size m)%nat && bool_decide (m !! key = None)
           then ∅ else m in
  let n := match m !! key with Some a => failures a | None => 0 end in
  <[key := {| failures := Z.min U32_MAX (n + 1); last_failure := now |}]> m.

Definition record_failure (l : LoginRateLimiter) (subject : str) (client_ip : option str) (now : Z)
    : LoginRateLimiter :=
  {| by_subject := bump (by_subject l) (normalise subject) now;
     by_ip := match client_ip with Some ip => bump (by_ip l) ip now | None => by_ip l end |}.

Definition record_success (l : LoginRateLimiter) (subject : str) (client_ip : option str)
    : LoginRateLimiter :=
  {| by_subject := delete (normalise subject) (by_subject l);
     by_ip := match client_ip with Some ip => delete ip (by_ip l) | None => by_ip l end |}.

(** ** Histories *)

(** The outcome of one credential check, at a time. *)
Record login : Type := {
  lg_at : Z; lg_subject : str; lg_ip : option str; lg_success : bool }.

Definition login_step (l : LoginRateLimiter) (e : login) : LoginRateLimiter :=
  if lg_success e then record_success l (lg_subject e) (lg_ip e)
  else record_failure l (lg_subject e) (lg_ip e) (lg_at e).

Definition logins (es : list login) : LoginRateLimiter := foldl login_step limiter_new es.

(** The clock is monotonic. *)
Fixpoint ordered (t : Z) (es : list login) : Prop :=
  match es with
  | [] => True
  | e :: es' => t <= lg_at e /\ ordered (lg_at e) es'
  end.

(** ** The counter of one key on its own *)

(** Failures since the last success, forgotten after [ENTRY_TTL] of quiet. *)
Definition own_step (k : str) (o : option Attempts) (e : str * bool * Z) : option Attempts :=
  let '(key, success, t) := e in
  if decide (key = k) then
    if success : bool then None
    else
      let n := match o with
               | Some a => if decide (is_fresh t a) then failures a else 0
               | None => 0
               end in
      Some {| failures := Z.min U32_MAX (n + 1); last_failure := t |}
  else o.

Definition own (k : str) (es : list (str * bool * Z)) : option Attempts := foldl (own_step k) None es.

Definition subject_events (es : list login) : list (str * bool * Z) :=
  (fun e => (normalise (lg_subject e), lg_success e, lg_at e)) <$> es.

Definition ip_events (es : list login) : list (str * bool * Z) :=
  omap (fun e => (fun ip => (ip, lg_success e, lg_at e)) <$> lg_ip e) es.

(** ** Backoff *)

Lemma checked_shl_small n : 0 <= n <= 16 -> checked_shl_one n = 2 ^ n.
Proof.
  intros Hn. unfold checked_shl_one. rewrite (proj2 (Z.ltb_lt n 32)) by lia.
  rewrite Z.shiftl_1_l, Z.mod_small; [done|]. split; [apply Z.pow_nonneg; lia|].
  apply Z.le_lt_trans with (2 ^ 16); [apply Z.pow_le_mono_r; lia | done].
Qed.

(** Zero up to four failures, then 2, 4, 8, ... seconds, at most a minute: the
    wait never wraps back to zero. *)
Lemma backoff_closed a :
  backoff a = if failures a <=? 4 then 0
              else Z.min (2 ^ Z.min (failures a - 4) 17) 60 * SECOND.
Proof.
  unfold backoff, FREE_ATTEMPTS. destruct (Z.leb_spec (failures a) 4); [done|].
  rewrite checked_shl_small by lia. unfold BASE_BACKOFF, MAX_BACKOFF.
  replace (Z.min (failures a - 4) 17) with (1 + Z.min (failures a - 4 - 1) 16) by lia.
  rewrite Z.pow_add_r by lia. unfold SECOND. lia.
Qed.

Lemma backoff_range a : 0 <= backoff a <= MAX_BACKOFF.
Proof.
  rewrite backoff_closed. unfold MAX_BACKOFF, SECOND. destruct (_ <=? _) eqn:E; [lia|].
  breflect. pose proof (Z.pow_nonneg 2 (Z.min (failures a - 4) 17)). lia.
Qed.

(** A counter old enough to be pruned no longer delays anybody. *)
Lemma stale_no_wait now a : ~ is_fresh now a -> retry_after now a = None.
Proof.
  intros H. unfold retry_after, is_fresh in *. pose proof (backoff_range a).
  destruct (Z.ltb_spec (duration_since now (last_failure a)) (backoff a)); [|done].
  unfold ENTRY_TTL, MAX_BACKOFF, SECOND in *. lia.
Qed.

(** ** One table follows the per-key counters *)

(** What a table holds for a key, against the counter of the key on its own at
    time [now]: the same, or nothing where the counter is stale. *)
Definition tracks (now : Z) (o o' : option Attempts) : Prop :=
  o = o' \/ (o = None /\ exists a, o' = Some a /\ ~ is_fresh now a).

Lemma is_fresh_mono now now' a : now <= now' -> is_fresh now' a -> is_fresh now a.
Proof. unfold is_fresh, duration_since. lia. Qed.

Lemma tracks_later now now' o o' : now <= now' -> tracks now o o' -> tracks now' o o'.
Proof.
  intros Hle [->|(-> & a & -> & Ha)]; [by left | right]. split; [done|]. exists a.
  split; [done|]. intros Hf. apply Ha. by eapply is_fresh_mono.
Qed.

Lemma tracks_wait now o o' : tracks now o o' -> o ≫= retry_after now = o' ≫= retry_after now.
Proof. intros [->|(-> & a & -> & Ha)]; [done|]. simpl. by rewrite stale_no_wait. Qed.

Definition apply_key (m : gmap str Attempts) (e : str * bool * Z) : gmap str Attempts :=
  let '(key, success, t) := e in if success : bool then delete key m else bump m key t.

Lemma lookup_pruned (m : gmap str Attempts) k now :
  filter (fun kv : str * Attempts => is_fresh now (snd kv)) m !! k
  = (a ← m !! k; if decide (is_fresh now a) then Some a else None).
Proof.
  destruct (m !! k) as [a|] eqn:E; simpl.
  - case_decide as Hf.
    + by apply map_lookup_filter_Some.
    + apply map_lookup_filter_None. right. intros x Hx. by simplify_eq.
  - apply map_lookup_filter_None. by left.
Qed.

(** The table does not have to be emptied to record a failure of [key]: its
    fresh counters are below the limit, or [key] is one of them. *)
Definition room (m : gmap str Attempts) (key : str) (now : Z) : Prop :=
  let fresh := filter (fun kv : str * Attempts => is_fresh now (snd kv)) m in
  (size fresh < MAX_TRACKED)%nat \/ is_Some (fresh !! key).

Lemma bump_lookup m key now k : room m key now ->
  bump m key now !! k =
  let pruned := (a ← m !! k; if decide (is_fresh now a) then Some a else None) in
  if decide (key = k)
  then Some {| failures := Z.min U32_MAX (match pruned with Some a => failures a | None => 0 end + 1);
               last_failure := now |}
  else pruned.
Proof.
  intros Hs. unfold bump, room in *. rewrite (proj2 (andb_false_iff _ _)); cbv zeta.
  2: { rewrite !bool_decide_eq_false. destruct Hs as [Hs|[a Ha]]; [left; lia | right].
       intros Hn. by rewrite Ha in Hn. }
  case_decide as E; [subst; by rewrite lookup_insert_eq, lookup_pruned|].
  by rewrite lookup_insert_ne, lookup_pruned.
Qed.

Lemma bump_size m key now : (size (bump m key now) <= S (size m))%nat.
Proof.
  unfold bump. pose proof (map_subseteq_size _ _ (map_filter_subseteq
    (fun kv : str * Attempts => is_fresh now (snd kv)) m)) as Hle.
  match goal with |- context [if ?b then ∅ else ?f] =>
    assert (Hc : (size (if b then (∅ : gmap str Attempts) else f) <= size m)%nat)
      by (destruct b; [rewrite map_size_empty; lia | exact Hle]); revert Hc;
    generalize (if b then (∅ : gmap str Attempts) else f) end.
  intros g Hg. rewrite map_size_insert. destruct (g !! key); simpl; lia.
Qed.

(** Nothing is ever emptied along the events of one table. *)
Fixpoint roomy_table (m : gmap str Attempts) (l : list (str * bool * Z)) : Prop :=
  match l with
  | [] => True
  | (key, success, t) :: l' =>
      (success = false -> room m key t) /\ roomy_table (apply_key m (key, success, t)) l'
  end.

Lemma room_small m key now : (size m < MAX_TRACKED)%nat -> room m key now.
Proof.
  intros Hs. left. pose proof (map_subseteq_size _ _ (map_filter_subseteq
    (fun kv : str * Attempts => is_fresh now (snd kv)) m)). lia.
Qed.

(** Few enough events always leave room. *)
Lemma roomy_table_short l : forall m, (size m + length l <= MAX_TRACKED)%nat -> roomy_table m l.
Proof.
  induction l as [|[[key success] t] l IH]; intros m Hs; [done|]. cbn [length] in Hs.
  split; [intros _; apply room_small; lia|]. apply IH. unfold apply_key. destruct success.
  - pose proof (map_subseteq_size _ _ (delete_subseteq m key)). lia.
  - pose proof (bump_size m key t). lia.
Qed.

Lemma tracks_step now m k o' key success t : now <= t -> (success = false -> room m key t) ->
  tracks now (m !! k) o' ->
  tracks t (apply_key m (key, success, t) !! k) (own_step k o' (key, success, t)).
Proof.
  intros Hle Hs Ht%(tracks_later _ _ _ _ Hle). unfold apply_key, own_step. destruct success.
  - case_decide as E; [subst; rewrite lookup_delete_eq; by left|]. by rewrite lookup_delete_ne.
  - rewrite bump_lookup by by apply Hs. simpl.
    destruct Ht as [->|(-> & a & -> & Ha)]; simpl.
    + case_decide as E; [left; by destruct o' as [a|]; simpl; [case_decide|]|].
      destruct o' as [a|]; simpl; [|by left]. case_decide as Hf; [by left | right; eauto].
    + case_decide as E; [left; by rewrite decide_False|]. right. eauto.
Qed.

(** Events of one table, in time order from [t], none after [now]. *)
Fixpoint timed (t now : Z) (l : list (str * bool * Z)) : Prop :=
  match l with
  | [] => t <= now
  | e :: l' => t <= snd e /\ timed (snd e) now l'
  end.

Lemma timed_le t now l : timed t now l -> t <= now.
Proof. revert t. induction l as [|e l IH]; intros t; simpl; [done|]. intros [H ?%IH]. lia. Qed.

Lemma timed_weaken t t' now l : t' <= t -> timed t now l -> timed t' now l.
Proof. destruct l; simpl; intros; [lia | split; [lia | tauto]]. Qed.

Lemma tracks_run l : forall t now m k o', timed t now l -> roomy_table m l ->
  tracks t (m !! k) o' -> tracks now (foldl apply_key m l !! k) (foldl (own_step k) o' l).
Proof.
  induction l as [|[[key success] t1] l IH]; intros t now m k o' Hl Hs Ht.
  - by eapply tracks_later.
  - destruct Hl as [Hle Hl], Hs as [Hr Hs]. cbn [foldl].
    apply (IH t1); [done | done | by apply (tracks_step t)].
Qed.

Lemma table_wait l t now k : timed t now l -> roomy_table ∅ l ->
  peek (foldl apply_key ∅ l) k now = own k l ≫= retry_after now.
Proof.
  intros Hl Hs. apply tracks_wait. eapply tracks_run; [exact Hl | done | by left].
Qed.

Lemma logins_tables es :
  logins es = {| by_subject := foldl apply_key ∅ (subject_events es);
                 by_ip := foldl apply_key ∅ (ip_events es) |}.
Proof.
  unfold logins, limiter_new. generalize (∅ : gmap str Attempts) at 1 3 as m.
  generalize (∅ : gmap str Attempts) as m'.
  induction es as [|e es IH]; intros m' m; [done|]. simpl. unfold login_step.
  destruct (lg_success e) eqn:Es; unfold record_success, record_failure;
    destruct (lg_ip e) as [ip|]; simpl; by rewrite IH.
Qed.

(** The history ends by [now]. *)
Definition ended (now : Z) (es : list login) : Prop := Forall (fun e => lg_at e <= now) es.

Lemma timed_subject es : forall t now, t <= now -> ordered t es -> ended now es ->
  timed t now (subject_events es).
Proof.
  induction es as [|e es IH]; intros t now Hn Ho He; [done|].
  destruct Ho as [Hle Ho]. apply Forall_cons in He as [Hen He]. split; [done | by apply IH].
Qed.

Lemma timed_ip es : forall t now, t <= now -> ordered t es -> ended now es ->
  timed t now (ip_events es).
Proof.
  induction es as [|e es IH]; intros t now Hn Ho He; [done|].
  destruct Ho as [Hle Ho]. apply Forall_cons in He as [Hen He]. unfold ip_events. simpl.
  specialize (IH (lg_at e) now Hen Ho He). destruct (lg_ip e); simpl; [by split|].
  by eapply timed_weaken.
Qed.

(** Neither table is ever emptied: whenever a failure is recorded, each table
    has room for it at that moment. *)
Fixpoint roomy (l : LoginRateLimiter) (es : list login) : Prop :=
  match es with
  | [] => True
  | e :: es' =>
      (lg_success e = false ->
         room (by_subject l) (normalise (lg_subject e)) (lg_at e)
         /\ forall ip, lg_ip e = Some ip -> room (by_ip l) ip (lg_at e))
      /\ roomy (login_step l e) es'
  end.

Lemma step_subject l e :
  by_subject (login_step l e)
  = apply_key (by_subject l) (normalise (lg_subject e), lg_success e, lg_at e).
Proof.
  unfold login_step.
  destruct (lg_success e); cbn [by_subject record_success record_failure apply_key]; reflexivity.
Qed.

Lemma step_ip l e :
  by_ip (login_step l e)
  = match lg_ip e with
    | Some ip => apply_key (by_ip l) (ip, lg_success e, lg_at e)
    | None => by_ip l
    end.
Proof.
  unfold login_step.
  destruct (lg_success e); cbn [by_ip record_success record_failure apply_key];
    destruct (lg_ip e); reflexivity.
Qed.

Lemma roomy_subjects es : forall l, roomy l es -> roomy_table (by_subject l) (subject_events es).
Proof.
  induction es as [|e es IH]; intros l H; [exact I|]. destruct H as [Hr Hs].
  split; [intros Hf; apply Hr, Hf|]. fold (subject_events es). rewrite <- step_subject. by apply IH.
Qed.

Lemma roomy_ips es : forall l, roomy l es -> roomy_table (by_ip l) (ip_events es).
Proof.
  induction es as [|e es IH]; intros l H; [exact I|]. destruct H as [Hr Hs]. specialize (IH _ Hs).
  clear Hs. unfold ip_events. cbn [omap list_omap]. fold (ip_events es). rewrite step_ip in IH.
  destruct (lg_ip e) as [ip|]; [|exact IH]. split; [intros Hf; by apply Hr | exact IH].
Qed.

Lemma roomy_short es : forall l, (size (by_subject l) + length es <= MAX_TRACKED)%nat ->
  (size (by_ip l) + length es <= MAX_TRACKED)%nat -> roomy l es.
Proof.
  induction es as [|e es IH]; intros l H1 H2; [done|]. cbn [length] in H1, H2.
  split; [intros _; split; [|intros ip _]; apply room_small; lia|].
  unfold login_step, record_success, record_failure. destruct (lg_success e); apply IH; simpl.
  - pose proof (map_subseteq_size _ _ (delete_subseteq (by_subject l) (normalise (lg_subject e)))). lia.
  - destruct (lg_ip e) as [i|]; [|lia].
    pose proof (map_subseteq_size _ _ (delete_subseteq (by_ip l) i)). lia.
  - pose proof (bump_size (by_subject l) (normalise (lg_subject e)) (lg_at e)). lia.
  - destruct (lg_ip e) as [i|]; [|lia]. pose proof (bump_size (by_ip l) i (lg_at e)). lia.
Qed.

(** The two tables, while neither is emptied. *)
Lemma limiter_per_key es t0 subject ip now :
  t0 <= now -> ordered t0 es -> ended now es -> roomy limiter_new es ->
  limiter_check (logins es) subject ip now =
  option_max (own (normalise subject) (subject_events es) ≫= retry_after now)
             (i ← ip; own i (ip_events es) ≫= retry_after now).
Proof.
  intros Hn Ho He Hs. rewrite logins_tables. unfold limiter_check. simpl.
  rewrite (table_wait _ t0 now (normalise subject));
    [|by apply timed_subject | apply (roomy_subjects es limiter_new), Hs].
  destruct ip as [i|]; [|done]. simpl. rewrite (table_wait _ t0); [done | by apply timed_ip | apply (roomy_ips es limiter_new), Hs].
Qed.

(** C23: over a history of login outcomes of any length in which neither
    table had to be emptied (whenever a failure was recorded, the counters under
    fifteen minutes old in each table were fewer than 8192, or the key was one of
    them), the limiter is exactly two independent sets of counters: the wait an
    attempt must respect is the larger of the waits due to the failures of its own
    subject (under any spelling) and of its own address since their last success,
    whatever every other client does. *)
Theorem limiter_refines es t0 subject ip now :
  t0 <= now -> ordered t0 es -> ended now es -> roomy limiter_new es ->
  limiter_check (logins es) subject ip now =
  option_max (own (normalise subject) (subject_events es) ≫= retry_after now)
             (i ← ip; own i (ip_events es) ≫= retry_after now).
Proof. apply limiter_per_key. Qed.

(** ** Sustained guessing is refused *)

(** How many events of a list concern a key. *)
Definition hits_of (k : str) (l : list (str * bool * Z)) : Z :=
  Z.of_nat (length (filter (fun e : str * bool * Z => fst (fst e) = k) l)).

(** Failures of [k] only, at times in [t0..t1]. *)
Definition failing (k : str) (t0 t1 : Z) (e : str * bool * Z) : Prop :=
  fst (fst e) = k -> snd (fst e) = false /\ t0 <= snd e <= t1.

(** At least [n] failures on record, the last no earlier than [t0]. *)
Definition at_least (n t0 : Z) (o : option Attempts) : Prop :=
  n <= 0 \/ exists a, o = Some a /\ n <= failures a /\ t0 <= last_failure a.

Lemma at_least_step k t0 t1 n o e : t1 - t0 < ENTRY_TTL -> n <= U32_MAX - 1 ->
  (forall a, o = Some a -> 0 <= failures a) -> failing k t0 t1 e -> at_least n t0 o ->
  at_least (n + hits_of k [e]) t0 (own_step k o e).
Proof.
  intros Hw Hn Hpos Hf Ho. destruct e as [[key success] t]. unfold own_step, hits_of, failing in *.
  simpl in *. rewrite filter_cons, filter_nil. simpl. destruct (decide (key = k)) as [E|E]; simpl;
    [|by rewrite Z.add_0_r].
  destruct (Hf E) as [-> Ht]. right. eexists. split; [done|]. simpl. split; [|lia].
  destruct Ho as [Ho|(a & -> & Ha & Hl)].
  - assert (0 <= match o with Some a => if decide (is_fresh t a) then failures a else 0 | None => 0 end)
      by (destruct o as [a|]; [case_decide; [by apply Hpos|]|]; lia). lia.
  - rewrite decide_True; [lia|]. unfold is_fresh, duration_since. lia.
Qed.

Lemma own_step_pos k o e : (forall a, o = Some a -> 0 <= failures a) ->
  forall a, own_step k o e = Some a -> 0 <= failures a.
Proof.
  intros Ho a. destruct e as [[key success] t]. unfold own_step. case_decide; [|apply Ho].
  destruct success; [done|]. intros [= <-]. simpl. unfold U32_MAX.
  destruct o as [a|]; [specialize (Ho a eq_refl); case_decide|]; lia.
Qed.

Lemma own_pos k l : forall o, (forall a, o = Some a -> 0 <= failures a) ->
  forall a, foldl (own_step k) o l = Some a -> 0 <= failures a.
Proof.
  induction l as [|e l IH]; intros o Ho; [done|]. simpl. apply IH. by apply own_step_pos.
Qed.

Lemma hits_of_cons k e l : hits_of k (e :: l) = hits_of k [e] + hits_of k l.
Proof.
  unfold hits_of. rewrite !filter_cons, filter_nil. case_decide; cbn [length]; lia.
Qed.

Lemma at_least_run k t0 t1 l : t1 - t0 < ENTRY_TTL -> Forall (failing k t0 t1) l ->
  forall n o, n + Z.of_nat (length l) < U32_MAX -> (forall a, o = Some a -> 0 <= failures a) ->
  at_least n t0 o -> at_least (n + hits_of k l) t0 (foldl (own_step k) o l).
Proof.
  intros Hw. induction 1 as [|e l He _ IH]; intros n o Hn Hpos Ho.
  - unfold hits_of. rewrite filter_nil. simpl. by rewrite Z.add_0_r.
  - rewrite hits_of_cons, Z.add_assoc. simpl in Hn |- *.
    assert (0 <= hits_of k [e] <= 1).
    { unfold hits_of. rewrite filter_cons, filter_nil. case_decide; simpl; lia. }
    apply IH; [lia | by apply own_step_pos | apply at_least_step with t1; try done; lia].
Qed.

Lemma backoff_reach n a : 4 < n -> n <= failures a ->
  Z.min (2 ^ Z.min (n - 4) 17) 60 * SECOND <= backoff a.
Proof.
  intros H4 Hn. rewrite backoff_closed. rewrite (proj2 (Z.leb_gt _ _)) by lia.
  assert (2 ^ Z.min (n - 4) 17 <= 2 ^ Z.min (failures a - 4) 17) by (apply Z.pow_le_mono_r; lia).
  unfold SECOND. lia.
Qed.

(** The counter after a run of failures ended by one more. *)
Lemma failures_reach k now o recent e :
  Forall (fun x => now - ENTRY_TTL < lg_at x /\ lg_at x <= now
    /\ (normalise (lg_subject x) = k -> lg_success x = false)) recent ->
  now - ENTRY_TTL < lg_at e -> lg_at e <= now -> normalise (lg_subject e) = k ->
  Z.of_nat (length recent) < U32_MAX -> (forall a, o = Some a -> 0 <= failures a) ->
  let o' := foldl (own_step k) o (subject_events recent) in
  hits_of k (subject_events (recent ++ [e]))
  <= Z.min U32_MAX (match o' with
                    | Some a => if decide (is_fresh (lg_at e) a) then failures a else 0
                    | None => 0
                    end + 1).
Proof.
  intros Hrec Hlo Hhi Hsub Hlen Hpos o'. set (t0 := now - ENTRY_TTL + 1).
  assert (Hl : length (subject_events recent) = length recent) by apply length_fmap.
  assert (Hat : at_least (0 + hits_of k (subject_events recent)) t0 o').
  { apply at_least_run with now; [unfold t0; lia | | unfold U32_MAX in *; lia | done | by left].
    unfold subject_events. rewrite Forall_fmap. eapply Forall_impl; [exact Hrec|].
    intros x (H1 & H2 & H3) Hk. simpl in *. unfold t0. split; [by apply H3 | lia]. }
  pose proof (own_pos k (subject_events recent) o Hpos) as Hpos'. fold o' in Hpos'.
  assert (Hc : hits_of k (subject_events recent) <= Z.of_nat (length recent)).
  { unfold hits_of. rewrite <- Hl. apply inj_le, filter_length_le. }
  unfold subject_events at 1. rewrite fmap_app. fold (subject_events recent).
  unfold hits_of in *. rewrite filter_app, length_app. simpl. rewrite filter_cons, filter_nil. simpl.
  rewrite decide_True by done. simpl. unfold U32_MAX in *.
  destruct Hat as [Hz|(a & -> & Ha & Hla)].
  - destruct o' as [a|]; [specialize (Hpos' a eq_refl); case_decide|]; lia.
  - rewrite decide_True; [lia|]. unfold is_fresh, duration_since, t0 in *. lia.
Qed.

(** A subject that fails [n > 4] times within fifteen minutes, with no
    success among them, is refused for [min (2 ^ (n - 4)) 60] seconds after the
    last failure, from whatever addresses the attempts come and whatever spelling
    of the subject they use. *)
Theorem limiter_throttles before recent e subject ip t0 now :
  let es := before ++ recent ++ [e] in
  let k := normalise subject in
  let n := hits_of k (subject_events (recent ++ [e])) in
  ordered t0 es -> t0 <= now -> ended now es -> roomy limiter_new es ->
  Z.of_nat (length recent) < U32_MAX ->
  lg_success e = false -> normalise (lg_subject e) = k ->
  Forall (fun x => now - ENTRY_TTL < lg_at x /\ (normalise (lg_subject x) = k -> lg_success x = false))
    recent ->
  4 < n -> now - lg_at e < Z.min (2 ^ Z.min (n - 4) 17) 60 * SECOND ->
  exists wait, limiter_check (logins es) subject ip now = Some wait /\ 0 < wait.
Proof.
  intros es k n Ho Hn He Hs Hlen Hfail Hsub Hrec H4 Hnow.
  rewrite (limiter_per_key es t0) by done. fold k.
  assert (He' : lg_at e <= now).
  { apply (proj1 (Forall_forall _ _) He). unfold es. set_solver. }
  assert (Hown : exists a, own k (subject_events es) = Some a /\ n <= failures a
    /\ last_failure a = lg_at e).
  { unfold own, es, subject_events. rewrite !fmap_app, !foldl_app. simpl. rewrite Hsub, Hfail.
    rewrite decide_True by done. eexists. split; [done|]. simpl. split; [|done].
    apply (failures_reach k now (foldl (own_step k) None (subject_events before)) recent e).
    - apply Forall_forall. intros x Hx. destruct (proj1 (Forall_forall _ _) Hrec x Hx) as [H1 H2].
      split; [done|]. split; [|done]. apply (proj1 (Forall_forall _ _) He). unfold es. set_solver.
    - unfold ENTRY_TTL, SECOND in *. lia.
    - exact He'.
    - done.
    - exact Hlen.
    - by apply own_pos. }
  destruct Hown as (a & -> & Ha & Hl). simpl. unfold retry_after. rewrite Hl.
  assert (Hb : now - lg_at e < backoff a) by (eapply Z.lt_le_trans; [exact Hnow | by apply backoff_reach]).
  unfold duration_since. rewrite (proj2 (Z.ltb_lt _ _)) by lia.
  destruct (ip ≫= _) as [w|]; simpl; eexists; (split; [done | lia]).
Qed.

(** ** Memory *)

Lemma bump_bounded m key now : (size m <= MAX_TRACKED)%nat -> (size (bump m key now) <= MAX_TRACKED)%nat.
Proof.
  intros Hm. unfold bump. set (f := filter _ m).
  assert (Hf : (size f <= MAX_TRACKED)%nat)
    by (etrans; [apply map_subseteq_size, map_filter_subseteq | done]).
  destruct (bool_decide (MAX_TRACKED <= size f)%nat && bool_decide (f !! key = None)) eqn:E.
  - rewrite map_size_insert_None by apply lookup_empty. rewrite map_size_empty. unfold MAX_TRACKED. lia.
  - apply andb_false_iff in E as [E|E]; apply bool_decide_eq_false in E.
    + rewrite map_size_insert. destruct (f !! key); simpl; lia.
    + rewrite map_size_insert_Some by (by destruct (f !! key)). done.
Qed.

(** Over any history of attempts, however many subjects and addresses it
    names and whatever the clock does, neither table exceeds 8192 counters, and a
    wait is never longer than a minute. *)
Theorem limiter_bounded es subject ip now :
  let l := logins es in
  (size (by_subject l) <= MAX_TRACKED)%nat /\ (size (by_ip l) <= MAX_TRACKED)%nat
  /\ forall wait, limiter_check l subject ip now = Some wait -> 0 < wait <= MAX_BACKOFF.
Proof.
  intros l.
  assert (Hsz : forall evs m, (size m <= MAX_TRACKED)%nat ->
    (size (foldl apply_key m evs) <= MAX_TRACKED)%nat).
  { induction evs as [|[[key success] t] evs IH]; intros m Hm; [done|]. simpl. apply IH.
    destruct success; [|by apply bump_bounded].
    etrans; [apply map_subseteq_size, delete_subseteq | done]. }
  unfold l. rewrite logins_tables. simpl.
  split; [apply Hsz; rewrite map_size_empty; lia|]. split; [apply Hsz; rewrite map_size_empty; lia|].
  assert (Hp : forall m k w, peek m k now = Some w -> 0 < w <= MAX_BACKOFF).
  { intros m k w. unfold peek. destruct (m !! k) as [a|]; [|done]. simpl. unfold retry_after.
    destruct (Z.ltb_spec (duration_since now (last_failure a)) (backoff a)); [|done]. intros [= <-].
    pose proof (backoff_range a). unfold duration_since in *. lia. }
  intros w. unfold limiter_check, option_max. simpl.
  destruct (peek _ (normalise subject) now) eqn:E1, (ip ≫= _) eqn:E2; try done;
    try (destruct ip as [i|]; [|done]; simpl in E2); intros [= <-]; try apply Hp in E1;
    try apply Hp in E2; lia.
Qed.

(** Overflow forgets every counter, a throttled subject's included. *)
Lemma overflow_forgets m key k now now' : (MAX_TRACKED <= size m)%nat ->
  map_Forall (fun _ a => is_fresh now a) m -> m !! key = None -> key <> k ->
  peek (bump m key now) k now' = None.
Proof.
  intros Hs Hf Hk Hne. unfold peek, bump.
  assert (Hfm : filter (fun kv : str * Attempts => is_fresh now (snd kv)) m = m).
  { apply map_filter_id. intros i x Hx. by apply (Hf i). }
  rewrite Hfm, !bool_decide_eq_true_2 by done. simpl.
  by rewrite lookup_insert_ne, lookup_empty by done.
Qed.
