(* ===== verification/LocalDns.v ===== *)
(** * Local DNS

    [dns_local/service.rs] over [sqlite/dns_local.rs]: zones, custom records and
    conditional forwarding rules, the event each change announces, and the two
    runners around them: [dns/runner.rs] rebuilds the authoritative view and evicts
    from the cache what an event names, [dns/dhcp_lan_runner.rs] registers leases.

    Ids hold the UUID they are the text of; times are epoch seconds, as the texts
    stored keep them.  [ld_faults] is an oracle for storage failures: a statement
    consumes one entry, and [Some e] makes it fail with [e] without effect. *)

From S2P Require Import Prelude RustStr Net Auth RoutingTypes ZoneTypes PolicyDb Authoritative DhcpRepo Tables.

#[export] Instance DnsRecordSource_eq_dec : EqDecision DnsRecordSource.
Proof. solve_decision. Defined.
#[export] Instance DnsZoneSource_eq_dec : EqDecision DnsZoneSource.
Proof. solve_decision. Defined.

(** ** Rows and requests *)

Record ZoneRow : Type := { zr_id : Uuid; zr_name : str; zr_enabled : bool; zr_source : DnsZoneSource }.
Record ZoneUpdate : Type := { zu_name : option str; zu_enabled : option bool }.

Record RecordRow : Type := {
  rr_id : Uuid; rr_zone_id : option Uuid; rr_domain : str; rr_record_type : DnsRecordType;
  rr_value : str; rr_ttl : Z; rr_enabled : bool; rr_source : DnsRecordSource;
}.
Record UpsertRecordRow : Type := {
  ur_zone_id : option Uuid; ur_value : str; ur_ttl : Z; ur_enabled : bool; ur_source : DnsRecordSource;
}.
(** [Some None] clears the zone. *)
Record RecordUpdate : Type := {
  ru_zone_id : option (option Uuid); ru_domain : option str; ru_record_type : option DnsRecordType;
  ru_value : option str; ru_ttl : option Z; ru_enabled : option bool;
}.

Record RuleRow : Type := { fr_id : Uuid; fr_domain : str; fr_upstream : str; fr_enabled : bool }.
Record RuleUpdate : Type := { fu_domain : option str; fu_upstream : option str; fu_enabled : option bool }.

Record CreateZoneRequest : Type := { cz_name : str; cz_enabled : bool }.
Record CreateRecordRequest : Type := {
  cr_zone_id : option Uuid; cr_domain : str; cr_record_type : DnsRecordType; cr_value : str; cr_ttl : Z;
  cr_enabled : bool;
}.
Record UpsertRecordRequest : Type := {
  us_zone_id : option Uuid; us_domain : str; us_record_type : DnsRecordType; us_value : str; us_ttl : Z;
  us_enabled : bool; us_source : DnsRecordSource;
}.
Record CreateForwardingRuleRequest : Type := { cf_domain : str; cf_upstream : str; cf_enabled : bool }.

(** ** State *)

Record LocalDb : Type := {
  l_zones : list DnsZone;
  l_records : list CustomDnsRecord;
  l_rules : list ConditionalForwardingRule;
}.

Definition set_zones (l : list DnsZone) (d : LocalDb) : LocalDb :=
  {| l_zones := l; l_records := l_records d; l_rules := l_rules d |}.
Definition set_records (l : list CustomDnsRecord) (d : LocalDb) : LocalDb :=
  {| l_zones := l_zones d; l_records := l; l_rules := l_rules d |}.
Definition set_rules (l : list ConditionalForwardingRule) (d : LocalDb) : LocalDb :=
  {| l_zones := l_zones d; l_records := l_records d; l_rules := l |}.

(** [ld_events]: the domains of the [DnsLocalChanged] events not yet received, oldest first. *)
Record LocalDns : Type := { ld_db : LocalDb; ld_faults : list (option str); ld_now : Z; ld_events : list str }.

Definition set_ld_db (d : LocalDb) (w : LocalDns) : LocalDns :=
  {| ld_db := d; ld_faults := ld_faults w; ld_now := ld_now w; ld_events := ld_events w |}.
Definition set_ld_faults (fs : list (option str)) (w : LocalDns) : LocalDns :=
  {| ld_db := ld_db w; ld_faults := fs; ld_now := ld_now w; ld_events := ld_events w |}.
Definition set_ld_events (es : list str) (w : LocalDns) : LocalDns :=
  {| ld_db := ld_db w; ld_faults := ld_faults w; ld_now := ld_now w; ld_events := es |}.

(** A violated unique index or primary key, or anything else. *)
Inductive RepoError : Type := UniqueViolation | OtherRepoError (text : str).

Definition lstmt {X} (f : Z -> LocalDb -> result X RepoError * LocalDb) : ST LocalDns RepoError X := fun w =>
  match ld_faults w with
  | Some e :: fs => (Err (OtherRepoError e), set_ld_faults fs w)
  | fs => let '(r, d) := f (ld_now w) (ld_db w) in (r, set_ld_db d (set_ld_faults (tail fs) w))
  end.

Definition lselect {X} (f : LocalDb -> X) : ST LocalDns RepoError X := lstmt (fun _ d => (Ok (f d), d)).

Definition zone_missing (o : option Uuid) (d : LocalDb) : bool :=
  match o with Some z => negb (existsb (fun x => zone_id x =? z) (l_zones d)) | None => false end.
Definition fk_failed : RepoError := OtherRepoError (of_string "FOREIGN KEY constraint failed").

(** ** Zones *)

Section zones.

Definition by_name (a b : DnsZone) : comparison := str_compare (zone_name a) (zone_name b).

Definition repo_list_zones : ST LocalDns RepoError (list DnsZone) := lselect (fun d => sort_by by_name (l_zones d)).

Definition repo_get_zone (id : Uuid) : ST LocalDns RepoError (option DnsZone) :=
  lselect (fun d => List.find (fun z => zone_id z =? id) (l_zones d)).

Definition repo_create_zone (row : ZoneRow) : ST LocalDns RepoError DnsZone :=
  lstmt (fun now d =>
    if existsb (fun z => (zone_id z =? zr_id row) || bool_decide (zone_name z = zr_name row)) (l_zones d)
    then (Err UniqueViolation, d)
    else
      let zone := {| zone_id := zr_id row; zone_name := zr_name row; zone_enabled := zr_enabled row;
                     zone_source := zr_source row; zone_created_at := now; zone_updated_at := now |} in
      (Ok zone, set_zones (l_zones d ++ [zone]) d)).

Definition with_zone_update (u : ZoneUpdate) (now : Z) (z : DnsZone) : DnsZone :=
  {| zone_id := zone_id z; zone_name := default (zone_name z) (zu_name u);
     zone_enabled := default (zone_enabled z) (zu_enabled u); zone_source := zone_source z;
     zone_created_at := zone_created_at z; zone_updated_at := now |}.

Definition zone_clash (id : Uuid) (u : ZoneUpdate) (d : LocalDb) : bool :=
  match zu_name u with
  | Some n => existsb (fun z => zone_id z =? id) (l_zones d)
              && existsb (fun z => negb (zone_id z =? id) && bool_decide (zone_name z = n)) (l_zones d)
  | None => false
  end.

(** The row is read back. *)
Definition repo_update_zone (id : Uuid) (u : ZoneUpdate) : ST LocalDns RepoError (option DnsZone) :=
  affected ← lstmt (fun now d =>
    let f z := zone_id z =? id in
    if zone_clash id u d then (Err UniqueViolation, d)
    else (Ok (count f (l_zones d)), set_zones (where_ f (with_zone_update u now) (l_zones d)) d));
  if affected =? 0 then mret None else repo_get_zone id.

Definition unzoned (id : Uuid) (r : CustomDnsRecord) : CustomDnsRecord :=
  {| rec_id := rec_id r; rec_zone_id := if bool_decide (rec_zone_id r = Some id) then None else rec_zone_id r;
     rec_domain := rec_domain r; rec_type := rec_type r; rec_value := rec_value r; rec_ttl := rec_ttl r;
     rec_enabled := rec_enabled r; rec_source := rec_source r; rec_created_at := rec_created_at r;
     rec_updated_at := rec_updated_at r |}.

(** [ON DELETE SET NULL] *)
Definition repo_delete_zone (id : Uuid) : ST LocalDns RepoError bool :=
  lstmt (fun _ d =>
    let f z := zone_id z =? id in
    (Ok (0 <? count f (l_zones d)), set_records (unzoned id <$> l_records d) (set_zones (deleted f (l_zones d)) d))).

End zones.

(** ** Records *)

Definition by_domain (a b : CustomDnsRecord) : comparison := str_compare (rec_domain a) (rec_domain b).

Definition repo_list_records : ST LocalDns RepoError (list CustomDnsRecord) := lselect (fun d => sort_by by_domain (l_records d)).

Definition repo_list_records_by_zone (z : Uuid) : ST LocalDns RepoError (list CustomDnsRecord) :=
  lselect (fun d => sort_by by_domain (List.filter (fun r => bool_decide (rec_zone_id r = Some z)) (l_records d))).

Definition repo_get_record (id : Uuid) : ST LocalDns RepoError (option CustomDnsRecord) :=
  lselect (fun d => List.find (fun r => rec_id r =? id) (l_records d)).

Definition same_rrset (domain : str) (t : DnsRecordType) (r : CustomDnsRecord) : bool :=
  bool_decide (rec_domain r = domain) && bool_decide (rec_type r = t).

Definition repo_create_record (row : RecordRow) : ST LocalDns RepoError CustomDnsRecord :=
  lstmt (fun now d =>
    if existsb (fun r => (rec_id r =? rr_id row) || same_rrset (rr_domain row) (rr_record_type row) r) (l_records d)
    then (Err UniqueViolation, d)
    else if zone_missing (rr_zone_id row) d then (Err fk_failed, d)
    else
      let r := {| rec_id := rr_id row; rec_zone_id := rr_zone_id row; rec_domain := rr_domain row;
                  rec_type := rr_record_type row; rec_value := rr_value row; rec_ttl := rr_ttl row;
                  rec_enabled := rr_enabled row; rec_source := rr_source row; rec_created_at := now;
                  rec_updated_at := now |} in
      (Ok r, set_records (l_records d ++ [r]) d)).

Definition with_upsert (u : UpsertRecordRow) (now : Z) (r : CustomDnsRecord) : CustomDnsRecord :=
  {| rec_id := rec_id r; rec_zone_id := ur_zone_id u; rec_domain := rec_domain r; rec_type := rec_type r;
     rec_value := ur_value u; rec_ttl := ur_ttl u; rec_enabled := ur_enabled u; rec_source := ur_source u;
     rec_created_at := rec_created_at r; rec_updated_at := now |}.

(** Overwrites only a row of the same source; [None] otherwise. *)
Definition repo_upsert_record (id : Uuid) (domain : str) (t : DnsRecordType) (u : UpsertRecordRow)
    : ST LocalDns RepoError (option CustomDnsRecord) :=
  lstmt (fun now d =>
    match List.find (same_rrset domain t) (l_records d) with
    | Some r =>
        if negb (bool_decide (rec_source r = ur_source u)) then (Ok None, d)
        else if zone_missing (ur_zone_id u) d then (Err fk_failed, d)
        else (Ok (Some (with_upsert u now r)),
              set_records (where_ (same_rrset domain t) (with_upsert u now) (l_records d)) d)
    | None =>
        if existsb (fun r => rec_id r =? id) (l_records d) then (Err UniqueViolation, d)
        else if zone_missing (ur_zone_id u) d then (Err fk_failed, d)
        else
          let r := {| rec_id := id; rec_zone_id := ur_zone_id u; rec_domain := domain; rec_type := t;
                      rec_value := ur_value u; rec_ttl := ur_ttl u; rec_enabled := ur_enabled u;
                      rec_source := ur_source u; rec_created_at := now; rec_updated_at := now |} in
          (Ok (Some r), set_records (l_records d ++ [r]) d)
    end).

Definition with_record_update (u : RecordUpdate) (now : Z) (r : CustomDnsRecord) : CustomDnsRecord :=
  {| rec_id := rec_id r; rec_zone_id := default (rec_zone_id r) (ru_zone_id u);
     rec_domain := default (rec_domain r) (ru_domain u); rec_type := default (rec_type r) (ru_record_type u);
     rec_value := default (rec_value r) (ru_value u); rec_ttl := default (rec_ttl r) (ru_ttl u);
     rec_enabled := default (rec_enabled r) (ru_enabled u); rec_source := rec_source r;
     rec_created_at := rec_created_at r; rec_updated_at := now |}.

Definition record_clash (id : Uuid) (u : RecordUpdate) (now : Z) (d : LocalDb) : bool :=
  match List.find (fun r => rec_id r =? id) (l_records d) with
  | Some r =>
      let r' := with_record_update u now r in
      existsb (fun x => negb (rec_id x =? id) && same_rrset (rec_domain r') (rec_type r') x) (l_records d)
  | None => false
  end.

(** The row is read back. *)
Definition repo_update_record (id : Uuid) (u : RecordUpdate) : ST LocalDns RepoError (option CustomDnsRecord) :=
  affected ← lstmt (fun now d =>
    let f r := rec_id r =? id in
    if record_clash id u now d then (Err UniqueViolation, d)
    else if existsb f (l_records d) && zone_missing (default None (ru_zone_id u)) d then (Err fk_failed, d)
    else (Ok (count f (l_records d)), set_records (where_ f (with_record_update u now) (l_records d)) d));
  if affected =? 0 then mret None else repo_get_record id.

Definition repo_delete_record (id : Uuid) : ST LocalDns RepoError bool :=
  lstmt (fun _ d =>
    let f r := rec_id r =? id in
    (Ok (0 <? count f (l_records d)), set_records (deleted f (l_records d)) d)).

(** ** Forwarding rules *)

Definition by_rule_domain (a b : ConditionalForwardingRule) : comparison := str_compare (rule_domain a) (rule_domain b).

Definition repo_list_rules : ST LocalDns RepoError (list ConditionalForwardingRule) :=
  lselect (fun d => sort_by by_rule_domain (l_rules d)).

Definition repo_get_rule (id : Uuid) : ST LocalDns RepoError (option ConditionalForwardingRule) :=
  lselect (fun d => List.find (fun r => rule_id r =? id) (l_rules d)).

Definition repo_create_rule (row : RuleRow) : ST LocalDns RepoError ConditionalForwardingRule :=
  lstmt (fun now d =>
    if existsb (fun r => (rule_id r =? fr_id row) || bool_decide (rule_domain r = fr_domain row)) (l_rules d)
    then (Err UniqueViolation, d)
    else
      let r := {| rule_id := fr_id row; rule_domain := fr_domain row; rule_upstream := fr_upstream row;
                  rule_enabled := fr_enabled row; rule_created_at := now |} in
      (Ok r, set_rules (l_rules d ++ [r]) d)).

Definition with_rule_update (u : RuleUpdate) (r : ConditionalForwardingRule) : ConditionalForwardingRule :=
  {| rule_id := rule_id r; rule_domain := default (rule_domain r) (fu_domain u);
     rule_upstream := default (rule_upstream r) (fu_upstream u); rule_enabled := default (rule_enabled r) (fu_enabled u);
     rule_created_at := rule_created_at r |}.

Definition rule_clash (id : Uuid) (u : RuleUpdate) (d : LocalDb) : bool :=
  match fu_domain u with
  | Some n => existsb (fun r => rule_id r =? id) (l_rules d)
              && existsb (fun r => negb (rule_id r =? id) && bool_decide (rule_domain r = n)) (l_rules d)
  | None => false
  end.

(** An empty update only asks whether the rule exists; otherwise the row is read back. *)
Definition repo_update_rule (id : Uuid) (u : RuleUpdate) : ST LocalDns RepoError (option ConditionalForwardingRule) :=
  match fu_domain u, fu_upstream u, fu_enabled u with
  | None, None, None =>
      found ← lselect (fun d => existsb (fun r => rule_id r =? id) (l_rules d));
      if negb found then mret None else repo_get_rule id
  | _, _, _ =>
      affected ← lstmt (fun _ d =>
        let f r := rule_id r =? id in
        if rule_clash id u d then (Err UniqueViolation, d)
        else (Ok (count f (l_rules d)), set_rules (where_ f (with_rule_update u) (l_rules d)) d));
      if affected =? 0 then mret None else repo_get_rule id
  end.

Definition repo_delete_rule (id : Uuid) : ST LocalDns RepoError bool :=
  lstmt (fun _ d =>
    let f r := rule_id r =? id in
    (Ok (0 <? count f (l_rules d)), set_rules (deleted f (l_rules d)) d)).

(** ** [dns_local/service.rs] *)

Section service.
Context {U : UuidText}.

Abbreviation M := (ST LocalDns AppError).

Definition repo_text (e : RepoError) : str :=
  match e with UniqueViolation => of_string "UNIQUE constraint failed" | OtherRepoError t => t end.

(** [.map_err(AppError::Internal)] *)
Definition repo {X} (m : ST LocalDns RepoError X) : M X := fun w =>
  let '(r, w') := m w in (match r with Ok a => Ok a | Err e => Err (Internal (repo_text e)) end, w').

(** [map_repo_err] *)
Definition or_conflict {X} (conflict_msg : str) (m : ST LocalDns RepoError X) : M X := fun w =>
  let '(r, w') := m w in
  (match r with
   | Ok a => Ok a
   | Err UniqueViolation => Err (Conflict conflict_msg)
   | Err e => Err (Internal (repo_text e))
   end, w').

Definition emit_domain_changed (domain : str) : M unit := st_modify (fun w => set_ld_events (ld_events w ++ [domain]) w).

Definition require_non_empty (field : str) (value : str) : result unit AppError :=
  if bool_decide (trim value = []) then Err (BadRequest (field ++ of_string " must not be empty")) else Ok tt.

Definition not_found (what : str) (id : Uuid) : AppError := NotFound (what ++ " " ++ uuid_to_string id ++ of_string " not found").

Definition ensure_zone (id : Uuid) : M DnsZone :=
  zone ← repo (repo_get_zone id); st_lift (ok_or zone (not_found (of_string "zone") id)).
Definition ensure_record (id : Uuid) : M CustomDnsRecord :=
  record ← repo (repo_get_record id); st_lift (ok_or record (not_found (of_string "record") id)).
Definition ensure_forwarding_rule (id : Uuid) : M ConditionalForwardingRule :=
  rule ← repo (repo_get_rule id); st_lift (ok_or rule (not_found (of_string "forwarding rule") id)).

(** Responses are the rows in them; their fixed messages are left out. *)

Definition list_zones (ctx : option AuthContext) : M (list DnsZone) :=
  _ ← st_lift (require_admin ctx); repo repo_list_zones.

Definition get_zone (ctx : option AuthContext) (id : Uuid) : M DnsZone :=
  _ ← st_lift (require_admin ctx); ensure_zone id.

Definition zone_taken : str := of_string "a zone with this name already exists".

Definition create_zone (ctx : option AuthContext) (id : Uuid) (req : CreateZoneRequest) : M DnsZone :=
  _ ← st_lift (require_admin ctx);
  _ ← st_lift (validate_zone_name (cz_name req));
  zone ← or_conflict zone_taken
    (repo_create_zone {| zr_id := id; zr_name := cz_name req; zr_enabled := cz_enabled req; zr_source := ManualZone |});
  _ ← emit_domain_changed (zone_name zone);
  mret zone.

(** The validation of an optional field. *)
Definition when_some {A} (f : A -> result unit AppError) (o : option A) : result unit AppError :=
  match o with Some a => f a | None => Ok tt end.

(** The old name first when it changed. *)
Definition emit_renamed (old new : str) : M unit :=
  _ ← (if bool_decide (old = new) then mret tt else emit_domain_changed old); emit_domain_changed new.

Definition update_zone (ctx : option AuthContext) (id : Uuid) (req : ZoneUpdate) : M DnsZone :=
  _ ← st_lift (require_admin ctx);
  old_zone ← ensure_zone id;
  _ ← st_lift (when_some validate_zone_name (zu_name req));
  zone ← or_conflict zone_taken (repo_update_zone id req);
  zone ← st_lift (ok_or zone (not_found (of_string "zone") id));
  _ ← emit_renamed (zone_name old_zone) (zone_name zone);
  mret zone.

Definition delete_zone (ctx : option AuthContext) (id : Uuid) : M unit :=
  _ ← st_lift (require_admin ctx);
  zone ← ensure_zone id;
  if bool_decide (zone_source zone = SystemZone)
  then st_fail (Forbidden ("zone " ++ uuid_to_string id ++ of_string " is a system zone and cannot be deleted"))
  else
    removed ← repo (repo_delete_zone id);
    if negb removed then st_fail (not_found (of_string "zone") id) else emit_domain_changed (zone_name zone).

Definition list_zone_records (ctx : option AuthContext) (z : Uuid) : M (list CustomDnsRecord) :=
  _ ← st_lift (require_admin ctx);
  _ ← ensure_zone z;
  repo (repo_list_records_by_zone z).

Definition list_records (ctx : option AuthContext) : M (list CustomDnsRecord) :=
  _ ← st_lift (require_admin ctx); repo repo_list_records.

Definition get_record (ctx : option AuthContext) (id : Uuid) : M CustomDnsRecord :=
  _ ← st_lift (require_admin ctx); ensure_record id.

Definition record_taken : str := of_string "a record with this domain and type already exists".

(** [if let Some(zone_id) = zone_id { self.ensure_zone(zone_id).await?; }] *)
Definition ensure_given (o : option Uuid) : M unit :=
  match o with Some z => _ ← ensure_zone z; mret tt | None => mret tt end.

Definition create_record (ctx : option AuthContext) (id : Uuid) (req : CreateRecordRequest) : M CustomDnsRecord :=
  _ ← st_lift (require_admin ctx);
  _ ← st_lift (validate_record_domain (cr_domain req));
  _ ← st_lift (require_non_empty (of_string "value") (cr_value req));
  _ ← ensure_given (cr_zone_id req);
  record ← or_conflict record_taken
    (repo_create_record {| rr_id := id; rr_zone_id := cr_zone_id req; rr_domain := cr_domain req;
       rr_record_type := cr_record_type req; rr_value := cr_value req; rr_ttl := cr_ttl req;
       rr_enabled := cr_enabled req; rr_source := ManualRecord |});
  _ ← emit_domain_changed (rec_domain record);
  mret record.

Definition update_record (ctx : option AuthContext) (id : Uuid) (req : RecordUpdate) : M CustomDnsRecord :=
  _ ← st_lift (require_admin ctx);
  old_record ← ensure_record id;
  _ ← st_lift (when_some validate_record_domain (ru_domain req));
  _ ← st_lift (when_some (require_non_empty (of_string "value")) (ru_value req));
  _ ← ensure_given (default None (ru_zone_id req));
  record ← or_conflict record_taken (repo_update_record id req);
  record ← st_lift (ok_or record (not_found (of_string "record") id));
  _ ← emit_renamed (rec_domain old_record) (rec_domain record);
  mret record.

Definition delete_record (ctx : option AuthContext) (id : Uuid) : M unit :=
  _ ← st_lift (require_admin ctx);
  record ← ensure_record id;
  removed ← repo (repo_delete_record id);
  if negb removed then st_fail (not_found (of_string "record") id) else emit_domain_changed (rec_domain record).

Definition upsert_record (ctx : option AuthContext) (id : Uuid) (req : UpsertRecordRequest) : M CustomDnsRecord :=
  _ ← st_lift (require_admin ctx);
  _ ← st_lift (validate_record_domain (us_domain req));
  _ ← st_lift (require_non_empty (of_string "value") (us_value req));
  _ ← ensure_given (us_zone_id req);
  record ← repo (repo_upsert_record id (us_domain req) (us_record_type req)
    {| ur_zone_id := us_zone_id req; ur_value := us_value req; ur_ttl := us_ttl req; ur_enabled := us_enabled req;
       ur_source := us_source req |});
  record ← st_lift (ok_or record (Conflict ("record " ++ us_domain req ++ of_string " already exists from a different source")));
  _ ← emit_domain_changed (rec_domain record);
  mret record.

Definition list_forwarding_rules (ctx : option AuthContext) : M (list ConditionalForwardingRule) :=
  _ ← st_lift (require_admin ctx); repo repo_list_rules.

Definition get_forwarding_rule (ctx : option AuthContext) (id : Uuid) : M ConditionalForwardingRule :=
  _ ← st_lift (require_admin ctx); ensure_forwarding_rule id.

Definition rule_taken : str := of_string "a forwarding rule for this domain already exists".

Definition create_forwarding_rule (ctx : option AuthContext) (id : Uuid) (req : CreateForwardingRuleRequest)
    : M ConditionalForwardingRule :=
  _ ← st_lift (require_admin ctx);
  _ ← st_lift (validate_domain (cf_domain req));
  _ ← st_lift (require_non_empty (of_string "upstream") (cf_upstream req));
  rule ← or_conflict rule_taken
    (repo_create_rule {| fr_id := id; fr_domain := cf_domain req; fr_upstream := cf_upstream req; fr_enabled := cf_enabled req |});
  _ ← emit_domain_changed (rule_domain rule);
  mret rule.

Definition update_forwarding_rule (ctx : option AuthContext) (id : Uuid) (req : RuleUpdate) : M ConditionalForwardingRule :=
  _ ← st_lift (require_admin ctx);
  old_rule ← ensure_forwarding_rule id;
  _ ← st_lift (when_some validate_domain (fu_domain req));
  _ ← st_lift (when_some (require_non_empty (of_string "upstream")) (fu_upstream req));
  rule ← or_conflict rule_taken (repo_update_rule id req);
  rule ← st_lift (ok_or rule (not_found (of_string "forwarding rule") id));
  _ ← emit_renamed (rule_domain old_rule) (rule_domain rule);
  mret rule.

Definition delete_forwarding_rule (ctx : option AuthContext) (id : Uuid) : M unit :=
  _ ← st_lift (require_admin ctx);
  rule ← ensure_forwarding_rule id;
  removed ← repo (repo_delete_rule id);
  if negb removed then st_fail (not_found (of_string "forwarding rule") id) else emit_domain_changed (rule_domain rule).

(** ** [dns/dhcp_lan_runner.rs] *)

Definition LAN_ZONE_ID : Uuid := 16.
Definition FALLBACK_TTL_SECS : Z := 300.

Definition lan_label (hostname : str) : option str :=
  first ← head (split "."%char hostname);
  let label := to_lowercase (trim first) in
  if bool_decide (label = []) then None else Some label.

(** Half the lease, from what [get_dhcp_config] answered. *)
Definition lease_ttl (config : result DhcpConfig AppError) : Z :=
  match config with
  | Ok c => if 0 <? dc_lease_duration_secs c then Z.max 1 (dc_lease_duration_secs c / 2) else FALLBACK_TTL_SECS
  | Err _ => FALLBACK_TTL_SECS
  end.

(** Never fails: what goes wrong is logged. *)
Definition register_lease (config : result DhcpConfig AppError) (id : Uuid) (hostname ip : str) (w : LocalDns) : LocalDns :=
  match lan_label hostname with
  | None => w
  | Some label =>
      let domain := label ++ of_string ".lan" in
      let upsert w := snd (upsert_record (Some system_ctx) id
        {| us_zone_id := Some LAN_ZONE_ID; us_domain := domain; us_record_type := Authoritative.A; us_value := ip;
           us_ttl := lease_ttl config; us_enabled := true; us_source := DhcpRecord |} w) in
      match get_zone (Some system_ctx) LAN_ZONE_ID w with
      | (Err (NotFound _), w') => w'
      | (_, w') => upsert w'
      end
  end.

(** A lease event the runner reacts to: its address and hostname. *)
Definition on_lease (config : result DhcpConfig AppError) (id : Uuid) (ip : str) (hostname : option str) (w : LocalDns) : LocalDns :=
  match hostname with
  | Some h => if bool_decide (trim h = []) then w else register_lease config id h ip w
  | None => w
  end.

(** ** [build_authoritative_view] of [dns/runner.rs] *)

Context {NL : DnsNameLib}.

Definition view_of_reads (zones : result (list DnsZone) AppError) (records : result (list CustomDnsRecord) AppError)
    (rules : result (list ConditionalForwardingRule) AppError) : AuthoritativeView :=
  match zones, records, rules with
  | Ok z, Ok r, Ok ru => build_view z r ru
  | _, _, _ => empty_view
  end.

Definition build_authoritative_view (w : LocalDns) : AuthoritativeView * LocalDns :=
  let '(zones, w) := list_zones (Some system_ctx) w in
  let '(records, w) := list_records (Some system_ctx) w in
  let '(rules, w) := list_forwarding_rules (Some system_ctx) w in
  (view_of_reads zones records rules, w).

End service.
