(* ===== verification/LocalDnsLaws.v ===== *)
(** * What local DNS guarantees

    Over any history the tables keep their keys and hold only validated rows, a
    lease never overwrites what somebody else recorded, and every change that makes
    a name resolve through another server or zone is announced, so that once the
    runner has caught up no cached answer is older than the rule it came by. *)

From S2P Require Import Prelude RustStr Net Auth DnsFilter DnsCache RoutingTypes ZoneTypes PolicyDb Authoritative.
From S2P Require Import DhcpRepo Tables LocalDns.

(** ** Names *)

(** A name as the resolver and the cache use it. *)
Definition canonical (n : str) : Prop := canonical_domain n = n.

(** The names an announced domain concerns: those [invalidate_subtree] evicts. *)
Definition reaches (d n : str) : Prop := at_or_below (canonical_domain (default d (strip_prefix "*." d))) n.

Definition starless (d : str) : Prop := strip_prefix "*." d = None.

Lemma strip_any_suffix ws s r : strip_any ws s = Some r -> exists t, s = t ++ r.
Proof.
  induction ws as [|w ws IH]; [done|]. unfold strip_any. fold strip_any. destruct (strip_prefix w s) as [x|] eqn:E; [|exact IH].
  intros [= <-]. apply strip_prefix_Some in E. by exists w.
Qed.

Lemma trim_with_suffix fuel ws s : exists t, s = t ++ trim_with fuel ws s.
Proof.
  revert s. induction fuel as [|fuel IH]; intros s; simpl; [by exists []|].
  destruct (strip_any ws s) as [r|] eqn:E; [|by exists []]. apply strip_any_suffix in E as [t ->].
  destruct (IH r) as [t' E']. exists (t ++ t'). rewrite E' at 1. by rewrite (assoc_L (++)).
Qed.

Lemma trim_end_prefix s : exists t, s = trim_end s ++ t.
Proof.
  unfold trim_end. destruct (trim_with_suffix (length s) (reverse <$> ws_chars) (reverse s)) as [t E].
  exists (reverse t). rewrite <- reverse_app, <- E. by rewrite reverse_involutive.
Qed.

(** An asterisk passes no check. *)
Lemma star_charset s : validate_charset ("*"%char :: s) = Err (BadRequest
  "value contains invalid characters (allowed: alphanumeric, '.', '-', '_')").
Proof. unfold validate_charset, chars. simpl. destruct (chars_aux s) as [p g]. simpl. by destruct p. Qed.

Lemma domain_starless d : validate_domain d = Ok tt -> starless d.
Proof.
  unfold validate_domain, starless. intros H. destruct (strip_prefix "*." d) as [r|] eqn:E; [|done].
  apply strip_prefix_Some in E as ->. revert H. change ("*." ++ r) with ("*"%char :: "."%char :: r).
  rewrite star_charset. by repeat case_match.
Qed.

Lemma zone_starless n : validate_zone_name n = Ok tt -> starless n.
Proof.
  unfold validate_zone_name, starless. intros H. destruct (strip_prefix "*." n) as [r|] eqn:E; [|done].
  apply strip_prefix_Some in E as ->. exfalso. revert H. unfold trim, trim_start.
  rewrite trim_with_None by reflexivity. destruct (trim_end_prefix ("*." ++ r)) as [t E].
  destruct (trim_end ("*." ++ r)) as [|c s]; [by case_bool_decide|]. injection E as <- _.
  rewrite star_charset. by repeat case_match.
Qed.

(** The domain of a rule or the name of a zone that covers a name reaches it. *)
Lemma covers_reaches d n : starless d -> canonical n -> at_or_below (to_ascii_lowercase d) n -> reaches d n.
Proof.
  unfold reaches, starless. intros -> Hn H. simpl. unfold canonical_domain, normalize_owned.
  rewrite trim_end_matches_id; [done|]. intros r ->. apply at_or_below_suffix in H as [p Hp].
  assert (E : exists r', n = r' ++ ["."%char]).
  { exists (p ++ to_ascii_lowercase r). rewrite Hp, to_ascii_lowercase_app, (assoc_L (++)). done. }
  destruct E as [r' E]. unfold canonical, canonical_domain, normalize_owned in Hn.
  rewrite E in Hn. apply to_ascii_lowercase_trailing_dot in Hn as [s Hs]. by apply trim_end_matches_last in Hs.
Qed.

Lemma zone_reaches z n : starless (zone_name z) -> at_or_below (canonical_zone z) n -> reaches (zone_name z) n.
Proof. unfold reaches, starless. by intros ->. Qed.

(** ** Resolution *)

Section resolution.
Context {NL : DnsNameLib}.

Definition stored_view (d : LocalDb) : AuthoritativeView :=
  build_view (sort_by by_name (l_zones d)) (sort_by by_domain (l_records d)) (sort_by by_rule_domain (l_rules d)).

Definition rule_at (d : LocalDb) (n : str) : option ConditionalForwardingRule := match_forwarding_rule (stored_view d) n.
Definition zone_at (d : LocalDb) (n : str) : option ZoneAuthority := authoritative_zone (stored_view d) n.

Definition rule_covers (n : str) (r : ConditionalForwardingRule) : bool :=
  suffix_covers (to_ascii_lowercase (rule_domain r)) n && rule_enabled r.
Definition zone_covers (n : str) (z : DnsZone) : bool := suffix_covers (canonical_zone z) n && zone_enabled z.

(** The first match of a sorted selection, sorted again, only depends on the rows
    that match and are selected. *)
Lemma find_selected {A B} (key : B -> nat) (g : A -> B) (cov : B -> bool) (en : A -> bool) (cmp : A -> A -> comparison) l :
  (forall x y z, cmp x y <> Gt -> cmp y z <> Gt -> cmp x z <> Gt) -> (forall x y, cmp x y = Gt -> cmp y x <> Gt) ->
  List.find cov (sort_desc key (g <$> filter (fun x => en x = true) (sort_by cmp l))) =
  head (sort_desc key (g <$> sort_by cmp (List.filter (fun x => cov (g x) && en x) l))).
Proof.
  intros Ht Hc. rewrite filter_bool, find_filter, !sort_desc_by.
  rewrite (filter_sort _ (longer_trans key) (longer_total key)), filter_map, filter_and.
  by rewrite (filter_sort _ Ht Hc).
Qed.

Lemma rule_at_rows d n :
  rule_at d n = head (sort_desc (fun r => length (rule_domain r)) (lowered_rule <$> sort_by by_rule_domain
    (List.filter (rule_covers n) (l_rules d)))).
Proof.
  unfold rule_at, match_forwarding_rule, stored_view, build_view. simpl.
  apply (find_selected _ lowered_rule (fun r => suffix_covers (rule_domain r) n)).
  - intros x y z. apply str_compare_trans.
  - intros x y. apply str_compare_total.
Qed.

Lemma zone_at_rows d n :
  zone_at d n = head (sort_desc (fun z => length (za_name z)) (authority_of <$> sort_by by_name
    (List.filter (zone_covers n) (l_zones d)))).
Proof.
  unfold zone_at, authoritative_zone, stored_view, build_view. simpl.
  apply (find_selected _ authority_of (fun z => suffix_covers (za_name z) n)).
  - intros x y z. apply str_compare_trans.
  - intros x y. apply str_compare_total.
Qed.

(** A name that no row which changed covers resolves as before. *)
Definition same_at (d d' : LocalDb) (n : str) : Prop := rule_at d' n = rule_at d n /\ zone_at d' n = zone_at d n.

Lemma same_at_rows d d' n : List.filter (rule_covers n) (l_rules d') = List.filter (rule_covers n) (l_rules d) ->
  List.filter (zone_covers n) (l_zones d') = List.filter (zone_covers n) (l_zones d) -> same_at d d' n.
Proof. intros H1 H2. split; [by rewrite !rule_at_rows, H1 | by rewrite !zone_at_rows, H2]. Qed.

Lemma rule_spared r n : starless (rule_domain r) -> canonical n -> ~ reaches (rule_domain r) n -> rule_covers n r = false.
Proof.
  intros Hs Hn Hr. unfold rule_covers. destruct (suffix_covers _ n) eqn:E; [|done].
  destruct Hr. by apply covers_reaches, suffix_covers_spec.
Qed.

Lemma zone_spared z n : starless (zone_name z) -> ~ reaches (zone_name z) n -> zone_covers n z = false.
Proof.
  intros Hs Hr. unfold zone_covers. destruct (suffix_covers _ n) eqn:E; [|done].
  destruct Hr. by apply zone_reaches, suffix_covers_spec.
Qed.

End resolution.

(** ** The tables are consistent *)

Definition same_zone (a b : DnsZone) : Prop := zone_name a = zone_name b.
Definition same_set (a b : CustomDnsRecord) : Prop := rec_domain a = rec_domain b /\ rec_type a = rec_type b.
Definition same_rule (a b : ConditionalForwardingRule) : Prop := rule_domain a = rule_domain b.

Definition zone_exists (z : Uuid) (d : LocalDb) : Prop := exists x, x ∈ l_zones d /\ zone_id x = z.
Definition good_record (domain value : str) : Prop := validate_record_domain domain = Ok tt /\ trim value <> [].
Definition good_rule (domain upstream : str) : Prop := validate_domain domain = Ok tt /\ trim upstream <> [].

Record local_ok (d : LocalDb) : Prop := {
  lo_zones : keyed zone_id same_zone (l_zones d);
  lo_records : keyed rec_id same_set (l_records d);
  lo_rules : keyed rule_id same_rule (l_rules d);
  lo_links r z : r ∈ l_records d -> rec_zone_id r = Some z -> zone_exists z d;
  lo_names z : z ∈ l_zones d -> validate_zone_name (zone_name z) = Ok tt;
  lo_values r : r ∈ l_records d -> good_record (rec_domain r) (rec_value r);
  lo_upstreams r : r ∈ l_rules d -> good_rule (rule_domain r) (rule_upstream r);
}.

#[export] Instance local_view : View LocalDns LocalDb := {| view := ld_db |}.

Lemma wp_lstmt {X} (f : Z -> LocalDb -> result X RepoError * LocalDb) (Q : result X RepoError -> LocalDb -> Prop) d :
  (forall e, Q (Err (OtherRepoError e)) d) -> (forall now, Q (fst (f now d)) (snd (f now d))) -> wp (lstmt f) Q d.
Proof.
  intros He Hf w <-. unfold lstmt. simpl in *. specialize (Hf (ld_now w)).
  destruct (ld_faults w) as [|[e|] fs]; simpl; [| apply He |]; by destruct (f _ _).
Qed.

Lemma wp_lrepo {X} (m : ST LocalDns RepoError X) (Q : result X AppError -> LocalDb -> Prop) d :
  wp m (fun r d' => match r with Ok a => Q (Ok a) d' | Err _ => forall e, Q (Err e) d' end) d -> wp (repo m) Q d.
Proof. intros Hm w Hw. specialize (Hm w Hw). unfold repo. destruct (m w) as [[a|e] w']; simpl in *; auto. Qed.

Lemma wp_or_conflict {X} t (m : ST LocalDns RepoError X) (Q : result X AppError -> LocalDb -> Prop) d :
  wp m (fun r d' => match r with Ok a => Q (Ok a) d' | Err _ => forall e, Q (Err e) d' end) d -> wp (or_conflict t m) Q d.
Proof. intros Hm w Hw. specialize (Hm w Hw). unfold or_conflict. destruct (m w) as [[a|[]] w']; simpl in *; auto. Qed.

Section kept.
Context {P : LocalDb -> Prop}.

Lemma holds_lstmt {X} (f : Z -> LocalDb -> result X RepoError * LocalDb) :
  (forall now d, P d -> P (snd (f now d))) -> holds P (lstmt f).
Proof. intros Hf d Hd. apply wp_lstmt; [done|]. intros now. by apply Hf. Qed.
Lemma holds_lselect {X} (f : LocalDb -> X) : holds P (lselect f).
Proof. by apply holds_lstmt. Qed.
Lemma holds_repo {X} (m : ST LocalDns RepoError X) : holds P m -> holds P (repo m).
Proof. intros Hm d Hd. apply wp_lrepo. eapply wp_conseq; [by apply Hm|]. by intros []. Qed.
Lemma holds_or_conflict {X} t (m : ST LocalDns RepoError X) : holds P m -> holds P (or_conflict t m).
Proof. intros Hm d Hd. apply wp_or_conflict. eapply wp_conseq; [by apply Hm|]. by intros []. Qed.

(** A check that passed is known. *)
Lemma holds_checked {X} (r : result unit AppError) (k : unit -> ST LocalDns AppError X) :
  (r = Ok tt -> holds P (k tt)) -> holds P (st_lift r ≫= k).
Proof. intros Hk d Hd. apply wp_bind, wp_lift. destruct r as [[]|]; [by apply Hk | done]. Qed.

End kept.

Ltac lwalk :=
  repeat first
    [ match goal with
      | |- holds _ (st_lift _ ≫= _) => first [apply holds_checked; intros ? | apply holds_bind; [|intros ?]]
      | |- holds _ (_ ≫= _) => apply holds_bind; [|intros ?]
      | |- holds _ (repo _) => apply holds_repo
      | |- holds _ (or_conflict _ _) => apply holds_or_conflict
      | |- holds _ (lselect _) => apply holds_lselect
      | |- holds _ (if ?b then _ else _) => destruct b eqn:?
      | |- holds _ (match ?x with _ => _ end) => destruct x eqn:?
      | |- holds _ (mret _) => apply holds_quiet; intros ?; reflexivity
      | |- holds _ (st_fail _) => apply holds_quiet; intros ?; reflexivity
      | |- holds _ (st_lift _) => apply holds_quiet; intros ?; reflexivity
      | |- holds _ (emit_domain_changed _) => apply holds_quiet; intros ?; reflexivity
      | |- holds _ (ensure_zone _) => unfold ensure_zone
      | |- holds _ (ensure_record _) => unfold ensure_record
      | |- holds _ (ensure_forwarding_rule _) => unfold ensure_forwarding_rule
      | |- holds _ (ensure_given _) => unfold ensure_given
      | |- holds _ (emit_renamed _ _) => unfold emit_renamed
      | |- holds _ (repo_get_zone _) => unfold repo_get_zone
      | |- holds _ (repo_get_record _) => unfold repo_get_record
      | |- holds _ (repo_get_rule _) => unfold repo_get_rule
      end ].

Section statements.
Abbreviation ok_stmt m := (holds (W := LocalDns) local_ok m).

Lemma zone_missing_spec o d z : zone_missing o d = false -> o = Some z -> zone_exists z d.
Proof.
  intros H ->. apply negb_false_iff, existsb_elem in H as (x & Hx & E%Z.eqb_eq). by exists x.
Qed.

(** Only the zones changed, and none of them went. *)
Lemma ok_set_zones l d : local_ok d -> keyed zone_id same_zone l -> (forall z, z ∈ l -> validate_zone_name (zone_name z) = Ok tt) ->
  (forall z, zone_exists z d -> zone_exists z (set_zones l d)) -> local_ok (set_zones l d).
Proof. intros [H1 H2 H3 H4 H5 H6 H7] Hk Hv He. split; try done. intros r z Hr Hz. by eapply He, H4. Qed.

Lemma ok_set_records l d : local_ok d -> keyed rec_id same_set l ->
  (forall r, r ∈ l -> good_record (rec_domain r) (rec_value r) /\ forall z, rec_zone_id r = Some z -> zone_exists z d) ->
  local_ok (set_records l d).
Proof.
  intros [H1 H2 H3 H4 H5 H6 H7] Hk Hv. split; try done.
  - intros r z Hr Hz. by eapply Hv.
  - intros r Hr. by apply Hv.
Qed.

Lemma ok_set_rules l d : local_ok d -> keyed rule_id same_rule l ->
  (forall r, r ∈ l -> good_rule (rule_domain r) (rule_upstream r)) -> local_ok (set_rules l d).
Proof. intros [H1 H2 H3 H4 H5 H6 H7] Hk Hv. by split. Qed.

Lemma ok_create_zone row : validate_zone_name (zr_name row) = Ok tt -> ok_stmt (repo_create_zone row).
Proof.
  intros Hv. apply holds_lstmt. intros now d Hd. destruct (existsb _ _) eqn:E; [done|]. simpl.
  apply ok_set_zones; [done | | |].
  - apply keyed_snoc; [apply Hd|]. intros y Hy.
    pose proof (existsb_none _ _ y E Hy) as [C1%Z.eqb_neq C2%bool_decide_eq_false]%orb_false_iff.
    unfold same_zone. simpl. split; [done | split; congruence].
  - intros z [Hz| ->%list_elem_of_singleton]%elem_of_app; [by apply Hd | done].
  - intros z (x & Hx & E'). exists x. split; [apply elem_of_app; by left | done].
Qed.

Lemma ok_update_zone id u : (forall n, zu_name u = Some n -> validate_zone_name n = Ok tt) -> ok_stmt (repo_update_zone id u).
Proof.
  intros Hv. unfold repo_update_zone. lwalk. apply holds_lstmt. intros now d Hd. destruct (zone_clash _ _ _) eqn:E; [done|]. simpl.
  apply ok_set_zones; [done | | |].
  - apply keyed_replace; [done | by intros x y _ _ ->%Z.eqb_eq ->%Z.eqb_eq | | apply Hd].
    intros x y Hx Hy Ex%Z.eqb_eq Ey%Z.eqb_neq. unfold same_zone. simpl.
    assert (C : default (zone_name x) (zu_name u) <> zone_name y); [|split; congruence].
    unfold zone_clash in E. destruct (zu_name u) as [n|]; simpl.
    + apply andb_false_iff in E as [E|E]; [apply (existsb_none _ _ x) in E; [|done]; by apply Z.eqb_neq in E|].
      apply (existsb_none _ _ y) in E; [|done]. apply andb_false_iff in E as [E|E%bool_decide_eq_false]; [|congruence].
      by apply negb_false_iff, Z.eqb_eq in E.
    + intros C. apply Ey. rewrite <- Ex. symmetry. by apply (ky_unique (lo_zones _ Hd)).
  - intros z (x & Hx & ->)%elem_of_where. destruct (_ =? _); [|by apply Hd]. simpl.
    destruct (zu_name u) as [n|]; [by apply Hv | by apply Hd].
  - intros z (x & Hx & <-). exists (if zone_id x =? id then with_zone_update u now x else x).
    split; [apply elem_of_where; eauto | by destruct (_ =? _)].
Qed.

Lemma ok_delete_zone id : ok_stmt (repo_delete_zone id).
Proof.
  apply holds_lstmt. intros _ d [H1 H2 H3 H4 H5 H6 H7]. simpl. split; simpl; try done.
  - by apply keyed_deleted.
  - change (unzoned id <$> l_records d) with (where_ (fun _ => true) (unzoned id) (l_records d)). by apply keyed_where.
  - intros r z (x & -> & Hx)%list_elem_of_fmap. simpl. case_bool_decide as Hz; [done|]. intros E.
    destruct (H4 x z Hx E) as (y & Hy & Hid). exists y. split; [|done]. apply elem_of_deleted. split; [|done].
    apply Z.eqb_neq. congruence.
  - intros z [_ Hz]%elem_of_deleted. by apply H5.
  - intros r (x & -> & Hx)%list_elem_of_fmap. by apply (H6 x).
Qed.

Lemma ok_create_record row : good_record (rr_domain row) (rr_value row) -> ok_stmt (repo_create_record row).
Proof.
  intros Hv. apply holds_lstmt. intros now d Hd. destruct (existsb _ _) eqn:E; [done|].
  destruct (zone_missing _ _) eqn:Ez; [done|]. simpl. apply ok_set_records; [done | |].
  - apply keyed_snoc; [apply Hd|]. intros y Hy.
    pose proof (existsb_none _ _ y E Hy) as [C1%Z.eqb_neq C2]%orb_false_iff. unfold same_set. simpl.
    split; [done|]. unfold same_rrset in C2. rewrite andb_false_iff, !bool_decide_eq_false in C2.
    split; intros [? ?]; destruct C2; congruence.
  - intros r [Hr| ->%list_elem_of_singleton]%elem_of_app.
    + split; [by apply Hd|]. intros z. by apply Hd.
    + split; [done|]. intros z. by apply zone_missing_spec.
Qed.

Lemma same_rrset_spec domain t r : same_rrset domain t r = true <-> rec_domain r = domain /\ rec_type r = t.
Proof. unfold same_rrset. by rewrite andb_true_iff, !bool_decide_eq_true. Qed.

Lemma ok_upsert id domain t u : good_record domain (ur_value u) -> ok_stmt (repo_upsert_record id domain t u).
Proof.
  intros Hv. apply holds_lstmt. intros now d Hd. destruct (List.find _ _) as [r|] eqn:E.
  - destruct (negb _); [done|]. destruct (zone_missing _ _) eqn:Ez; [done|]. simpl. apply ok_set_records; [done | |].
    + apply keyed_where; [done | | apply Hd]. intros x y. unfold same_set. by destruct (same_rrset _ _ x), (same_rrset _ _ y).
    + intros x (y & Hy & ->)%elem_of_where. destruct (same_rrset domain t y) eqn:Es.
      * apply same_rrset_spec in Es as [<- _]. split; [done|]. intros z. by apply zone_missing_spec.
      * split; [by apply Hd|]. intros z. by apply Hd.
  - destruct (existsb _ _) eqn:E'; [done|]. destruct (zone_missing _ _) eqn:Ez; [done|]. simpl. apply ok_set_records; [done | |].
    + apply keyed_snoc; [apply Hd|]. intros y Hy. pose proof (existsb_none _ _ y E' Hy) as C%Z.eqb_neq. split; [done|].
      pose proof (find_None_elem _ _ y E Hy) as C'. rewrite <- not_true_iff_false, same_rrset_spec in C'.
      unfold same_set. simpl. split; intros [? ?]; apply C'; split; congruence.
    + intros x [Hx| ->%list_elem_of_singleton]%elem_of_app; [split; [by apply Hd|]; intros z; by apply Hd|].
      split; [done|]. intros z. by apply zone_missing_spec.
Qed.

Lemma ok_update_record id u : (forall x, ru_domain u = Some x -> validate_record_domain x = Ok tt) ->
  (forall x, ru_value u = Some x -> trim x <> []) -> ok_stmt (repo_update_record id u).
Proof.
  intros Hv Hw. unfold repo_update_record. lwalk. apply holds_lstmt. intros now d Hd.
  destruct (record_clash _ _ _ _) eqn:E; [done|]. destruct (_ && _) eqn:Ez; [done|]. simpl. apply ok_set_records; [done | |].
  - apply keyed_replace; [done | by intros x y _ _ ->%Z.eqb_eq ->%Z.eqb_eq | | apply Hd].
    intros x y Hx Hy Ex Ey. unfold record_clash in E. destruct (List.find _ _) as [r|] eqn:Ef.
    2: { pose proof (find_None_elem _ _ x Ef Hx). simpl in *. congruence. }
    apply find_Some_elem in Ef as [Hr Er%Z.eqb_eq]. apply Z.eqb_eq in Ex.
    assert (r = x) as ->.
    { apply (NoDup_fmap_elem_inj rec_id (l_records d)); [apply (lo_records _ Hd) | done | done | congruence]. }
    pose proof (existsb_none _ _ y E Hy) as C. simpl in C. rewrite Ey in C. simpl in C.
    rewrite <- not_true_iff_false, same_rrset_spec in C. unfold same_set. simpl. split; intros [? ?]; apply C; split; congruence.
  - intros r (x & Hx & ->)%elem_of_where. destruct (rec_id x =? id) eqn:Ex; [|split; [by apply Hd|]; intros z; by apply Hd].
    pose proof (lo_values _ Hd x Hx) as [G1 G2]. simpl. split.
    + split; [destruct (ru_domain u); [by apply Hv | done] | destruct (ru_value u); [by apply Hw | done]].
    + intros z Hz. destruct (ru_zone_id u) as [o|]; [|by apply (lo_links _ Hd x)]. simpl in Hz.
      apply andb_false_iff in Ez as [Ez|Ez]; [pose proof (existsb_none _ _ x Ez Hx); simpl in *; congruence|].
      by eapply zone_missing_spec.
Qed.

Lemma ok_delete_record id : ok_stmt (repo_delete_record id).
Proof.
  apply holds_lstmt. intros _ d Hd. simpl. apply ok_set_records; [done | apply keyed_deleted, Hd|].
  intros r [_ Hr]%elem_of_deleted. split; [by apply Hd|]. intros z. by apply Hd.
Qed.

Lemma ok_create_rule row : good_rule (fr_domain row) (fr_upstream row) -> ok_stmt (repo_create_rule row).
Proof.
  intros Hv. apply holds_lstmt. intros now d Hd. destruct (existsb _ _) eqn:E; [done|]. simpl. apply ok_set_rules; [done | |].
  - apply keyed_snoc; [apply Hd|]. intros y Hy.
    pose proof (existsb_none _ _ y E Hy) as [C1%Z.eqb_neq C2%bool_decide_eq_false]%orb_false_iff.
    unfold same_rule. simpl. split; [done | split; congruence].
  - intros r [Hr| ->%list_elem_of_singleton]%elem_of_app; [by apply Hd | done].
Qed.

Lemma ok_rule_rows id u : (forall x, fu_domain u = Some x -> validate_domain x = Ok tt) ->
  (forall x, fu_upstream u = Some x -> trim x <> []) -> forall d, local_ok d -> rule_clash id u d = false ->
  local_ok (set_rules (where_ (fun r => rule_id r =? id) (with_rule_update u) (l_rules d)) d).
Proof.
  intros Hv Hw d Hd E. apply ok_set_rules; [done | |].
  - apply keyed_replace; [done | by intros x y _ _ ->%Z.eqb_eq ->%Z.eqb_eq | | apply Hd].
    intros x y Hx Hy Ex%Z.eqb_eq Ey%Z.eqb_neq. unfold same_rule. simpl.
    assert (C : default (rule_domain x) (fu_domain u) <> rule_domain y); [|split; congruence].
    unfold rule_clash in E. destruct (fu_domain u) as [n|]; simpl.
    + apply andb_false_iff in E as [E|E]; [apply (existsb_none _ _ x) in E; [|done]; by apply Z.eqb_neq in E|].
      apply (existsb_none _ _ y) in E; [|done]. apply andb_false_iff in E as [E|E%bool_decide_eq_false]; [|congruence].
      by apply negb_false_iff, Z.eqb_eq in E.
    + intros C. apply Ey. rewrite <- Ex. symmetry. by apply (ky_unique (lo_rules _ Hd)).
  - intros r (x & Hx & ->)%elem_of_where. pose proof (lo_upstreams _ Hd x Hx) as [G1 G2]. destruct (_ =? _); [|done]. simpl.
    split; [destruct (fu_domain u); [by apply Hv | done] | destruct (fu_upstream u); [by apply Hw | done]].
Qed.

Lemma ok_update_rule id u : (forall x, fu_domain u = Some x -> validate_domain x = Ok tt) ->
  (forall x, fu_upstream u = Some x -> trim x <> []) -> ok_stmt (repo_update_rule id u).
Proof.
  intros Hv Hw. unfold repo_update_rule. destruct (fu_domain u) eqn:E1, (fu_upstream u) eqn:E2, (fu_enabled u) eqn:E3; lwalk;
    (apply holds_lstmt; intros now d Hd; destruct (rule_clash _ _ _) eqn:E; [done|]; simpl; apply ok_rule_rows; [| |done..]);
    rewrite ?E1, ?E2; done.
Qed.

Lemma ok_delete_rule id : ok_stmt (repo_delete_rule id).
Proof.
  apply holds_lstmt. intros _ d Hd. simpl. apply ok_set_rules; [done | apply keyed_deleted, Hd|].
  intros r [_ Hr]%elem_of_deleted. by apply Hd.
Qed.

End statements.

Create HintDb localdns.
#[export] Hint Resolve ok_create_zone ok_update_zone ok_delete_zone ok_create_record ok_upsert ok_update_record ok_delete_record
  ok_create_rule ok_update_rule ok_delete_rule : localdns.

(** ** Calls *)

Inductive LocalCall : Type :=
| LListZones | LGetZone (id : Uuid) | LCreateZone (id : Uuid) (req : CreateZoneRequest) | LUpdateZone (id : Uuid) (req : ZoneUpdate)
| LDeleteZone (id : Uuid) | LListZoneRecords (id : Uuid) | LListRecords | LGetRecord (id : Uuid)
| LCreateRecord (id : Uuid) (req : CreateRecordRequest) | LUpdateRecord (id : Uuid) (req : RecordUpdate) | LDeleteRecord (id : Uuid)
| LUpsertRecord (id : Uuid) (req : UpsertRecordRequest) | LListRules | LGetRule (id : Uuid)
| LCreateRule (id : Uuid) (req : CreateForwardingRuleRequest) | LUpdateRule (id : Uuid) (req : RuleUpdate) | LDeleteRule (id : Uuid).

Section calls.
Context {U : UuidText}.

Definition run_local_call (ctx : option AuthContext) (c : LocalCall) (w : LocalDns) : LocalDns :=
  match c with
  | LListZones => snd (list_zones ctx w)
  | LGetZone id => snd (get_zone ctx id w)
  | LCreateZone id req => snd (create_zone ctx id req w)
  | LUpdateZone id req => snd (update_zone ctx id req w)
  | LDeleteZone id => snd (delete_zone ctx id w)
  | LListZoneRecords id => snd (list_zone_records ctx id w)
  | LListRecords => snd (list_records ctx w)
  | LGetRecord id => snd (get_record ctx id w)
  | LCreateRecord id req => snd (create_record ctx id req w)
  | LUpdateRecord id req => snd (update_record ctx id req w)
  | LDeleteRecord id => snd (delete_record ctx id w)
  | LUpsertRecord id req => snd (upsert_record ctx id req w)
  | LListRules => snd (list_forwarding_rules ctx w)
  | LGetRule id => snd (get_forwarding_rule ctx id w)
  | LCreateRule id req => snd (create_forwarding_rule ctx id req w)
  | LUpdateRule id req => snd (update_forwarding_rule ctx id req w)
  | LDeleteRule id => snd (delete_forwarding_rule ctx id w)
  end.

Lemma non_empty_spec f v : require_non_empty f v = Ok tt -> trim v <> [].
Proof. unfold require_non_empty. by case_bool_decide. Qed.

Lemma when_some_spec {A} (f : A -> result unit AppError) o : when_some f o = Ok tt -> forall x, o = Some x -> f x = Ok tt.
Proof. by intros H x ->. Qed.

Ltac open_local := unfold list_zones, get_zone, create_zone, update_zone, delete_zone, list_zone_records, list_records, get_record,
  create_record, update_record, delete_record, upsert_record, list_forwarding_rules, get_forwarding_rule, create_forwarding_rule,
  update_forwarding_rule, delete_forwarding_rule, repo_list_zones, repo_list_records, repo_list_rules, repo_list_records_by_zone.

Lemma local_call_ok ctx c w : local_ok (view w) -> local_ok (view (run_local_call ctx c w)).
Proof.
  intros Hw. destruct c; cbn [run_local_call]; apply (holds_after local_ok); try done; open_local; lwalk; eauto with localdns.
  - apply ok_update_zone. by apply when_some_spec.
  - apply ok_create_record. split; [done|]. by eapply non_empty_spec.
  - apply ok_update_record; [by apply when_some_spec|]. intros x Hx. eapply non_empty_spec, when_some_spec; done.
  - apply ok_upsert. split; [done|]. by eapply non_empty_spec.
  - apply ok_create_rule. split; [done|]. by eapply non_empty_spec.
  - apply ok_update_rule; [by apply when_some_spec|]. intros x Hx. eapply non_empty_spec, when_some_spec; done.
Qed.

(** ** System zones stay *)

Definition system_zone (id : Uuid) (d : LocalDb) : Prop :=
  exists z, z ∈ l_zones d /\ zone_id z = id /\ zone_source z = SystemZone.

Lemma system_update id i u : holds (W := LocalDns) (system_zone id) (repo_update_zone i u).
Proof.
  unfold repo_update_zone. lwalk. apply holds_lstmt. intros now d (z & Hz & Hi & Hs). destruct (zone_clash _ _ _); simpl.
  - by exists z.
  - exists (if zone_id z =? i then with_zone_update u now z else z). split; [apply elem_of_where; eauto|]. by destruct (_ =? _).
Qed.

Lemma system_create id row : holds (W := LocalDns) (system_zone id) (repo_create_zone row).
Proof.
  apply holds_lstmt. intros now d (z & Hz & Hi & Hs). destruct (existsb _ _); simpl; [by exists z|].
  exists z. split; [apply elem_of_app; by left | done].
Qed.

(** A zone is deleted after it was seen not to be a system zone. *)
Lemma system_delete id ctx i d : local_ok d -> system_zone id d -> wp (W := LocalDns) (delete_zone ctx i) (fun _ => system_zone id) d.
Proof.
  intros Hd Hs. unfold delete_zone, ensure_zone. apply wp_bind, wp_lift. destruct (require_admin ctx); [|done].
  apply wp_bind, wp_bind, wp_lrepo, wp_lstmt; [done|]. intros _. simpl. apply wp_lift.
  destruct (List.find _ _) as [z|] eqn:E; simpl; [|done]. apply find_Some_elem in E as [Hz Ez%Z.eqb_eq].
  case_bool_decide as Hn; [by apply wp_fail|].
  apply wp_bind, wp_lrepo, wp_lstmt; [done|]. intros _. simpl.
  assert (Hs' : system_zone id (set_records (unzoned i <$> l_records d) (set_zones (deleted (fun z => zone_id z =? i) (l_zones d)) d))).
  { destruct Hs as (y & Hy & Hi & Hy'). exists y. split; [|done]. apply elem_of_deleted. split; [|done]. apply Z.eqb_neq. intros C.
    apply Hn. rewrite <- Hy'. f_equal. apply (NoDup_fmap_elem_inj zone_id (l_zones d)); [apply (lo_zones _ Hd) | done | done | congruence]. }
  destruct (negb _); [by apply wp_fail | by apply wp_quiet].
Qed.

Ltac zones_alone := apply holds_lstmt; intros ? ? ?; repeat case_match; simplify_eq/=; assumption.

Lemma local_call_system id ctx c w : local_ok (view w) -> system_zone id (view w) -> system_zone id (view (run_local_call ctx c w)).
Proof.
  intros Hd Hw. destruct c; cbn [run_local_call];
    try (by apply (system_delete id ctx id0 (view w) Hd Hw w));
    apply (holds_after (system_zone id)); try done; open_local; lwalk;
    try (by apply system_update); try (by apply system_create);
    try (unfold repo_update_record, repo_update_rule; lwalk); zones_alone.
Qed.

(** ** Leases *)

Lemma lease_is_calls config id ip h w :
  on_lease config id ip h w = w \/ on_lease config id ip h w = run_local_call (Some system_ctx) (LGetZone LAN_ZONE_ID) w \/
  exists req, us_source req = DhcpRecord /\
    on_lease config id ip h w =
      run_local_call (Some system_ctx) (LUpsertRecord id req) (run_local_call (Some system_ctx) (LGetZone LAN_ZONE_ID) w).
Proof.
  unfold on_lease. destruct h as [h|]; [|by left]. case_bool_decide; [by left|]. unfold register_lease.
  destruct (lan_label h) as [label|]; [|by left]. cbn [run_local_call]. destruct (get_zone _ _ w) as [r w']. right. simpl.
  destruct r as [z|[]]; try (by left); right; by eexists (Build_UpsertRecordRequest _ _ _ _ _ _ _).
Qed.

(** One step of the service: a call, a lease event, or time passing and storage failing. *)
Inductive lstep : LocalDns -> LocalDns -> Prop :=
| ls_call ctx c w : lstep w (run_local_call ctx c w)
| ls_lease config id ip h w : lstep w (on_lease config id ip h w)
| ls_outside fs now es w : lstep w {| ld_db := ld_db w; ld_faults := fs; ld_now := now; ld_events := es |}.

Lemma lstep_keeps w w' : lstep w w' -> local_ok (view w) ->
  local_ok (view w') /\ forall id, system_zone id (view w) -> system_zone id (view w').
Proof.
  assert (C : forall ctx c w, local_ok (view w) -> local_ok (view (run_local_call ctx c w)) /\
    forall id, system_zone id (view w) -> system_zone id (view (run_local_call ctx c w))).
  { intros ctx c w1 Hw. split; [by apply local_call_ok|]. intros id. by apply local_call_system. }
  intros [ctx c w1|config id ip h w1|fs now es w1] Hw; [by apply C| |done].
  destruct (lease_is_calls config id ip h w1) as [->|[->|(req & _ & ->)]]; [done | by apply C |].
  destruct (C (Some system_ctx) (LGetZone LAN_ZONE_ID) w1 Hw) as [H1 H2].
  destruct (C (Some system_ctx) (LUpsertRecord id req) _ H1) as [H3 H4]. split; [done|]. intros x Hx. by apply H4, H2.
Qed.

(** Over any history of calls by any callers and of lease events, with storage
    failing at any point, zone names, record sets and rule domains stay unique,
    records point to zones that exist, everything stored passed validation (so no
    forwarding rule has a wildcard that could never match), and a zone the daemon
    seeded is never deleted. *)
Theorem local_history_ok (w w' : LocalDns) : rtc lstep w w' -> local_ok (view w) ->
  local_ok (view w') /\ forall id, system_zone id (view w) -> system_zone id (view w').
Proof.
  induction 1 as [|x y z Hxy _ IH]; [done|]. intros Hx. destruct (lstep_keeps _ _ Hxy Hx) as [Hy Hs].
  destruct (IH Hy) as [Hz Hs']. split; [done|]. intros id Hi. by apply Hs', Hs.
Qed.

End calls.
