(* ===== verification/LocalDnsRunner.v ===== *)
(** * Local DNS and the cache

    The runner of [dns/runner.rs] beside the calls that change local DNS and the
    resolver that fills the cache, each step interleaved with the others: whatever
    makes a name resolve through another server or zone is announced, and when the
    runner has caught up the view is the stored one and a cached answer came by the
    rule that covers its name now, unless its query was in flight when the runner
    evicted the name. *)

From S2P Require Import Prelude RustStr Net Auth FilterParser DnsFilter DnsCache RoutingTypes ZoneTypes PolicyDb Authoritative.
From S2P Require Import DhcpRepo Tables LocalDns LocalDnsLaws.

(** ** Announcements *)

Section announced.
Context {NL : DnsNameLib} {U : UuidText}.

#[local] Instance self_view : View LocalDns LocalDns := {| view := fun w => w |}.

(** What happened between two states is told by the events added in between. *)
Definition announced (w w' : LocalDns) : Prop :=
  ld_faults w' = [] /\ exists new, ld_events w' = ld_events w ++ new /\ (new = [] -> ld_db w' = ld_db w) /\
  forall n, canonical n -> (forall x, x ∈ new -> ~ reaches x n) -> same_at (ld_db w) (ld_db w') n.

Lemma same_at_refl d n : same_at d d n.
Proof. done. Qed.

Lemma nothing_happened w : ld_faults w = [] -> announced w w.
Proof. intros H. split; [done|]. exists []. by rewrite app_nil_r. Qed.

(** A statement on storage that answers. *)
Lemma wp_answered {X} (f : Z -> LocalDb -> result X RepoError * LocalDb) (Q : result X RepoError -> LocalDns -> Prop) w :
  ld_faults w = [] -> Q (fst (f (ld_now w) (ld_db w))) (set_ld_db (snd (f (ld_now w) (ld_db w))) w) -> wp (lstmt f) Q w.
Proof.
  intros Hf HQ w' Hw. simpl in Hw. subst w'. unfold lstmt. rewrite Hf. simpl. destruct (f (ld_now w) (ld_db w)) as [r d]. simpl in *.
  destruct w as [db fs now es]. simpl in *. by rewrite <- Hf.
Qed.

Lemma wp_asked {X} (f : LocalDb -> X) (Q : result X RepoError -> LocalDns -> Prop) w :
  ld_faults w = [] -> Q (Ok (f (ld_db w))) w -> wp (lselect f) Q w.
Proof. intros Hf HQ. apply wp_answered; [done|]. simpl. by destruct w. Qed.

Lemma wp_repo_self {X} (m : ST LocalDns RepoError X) (Q : result X AppError -> LocalDns -> Prop) w :
  wp m (fun r w' => match r with Ok a => Q (Ok a) w' | Err _ => forall e, Q (Err e) w' end) w -> wp (repo m) Q w.
Proof. intros Hm w' Hw. specialize (Hm w' Hw). unfold repo. destruct (m w') as [[a|e] w1]; simpl in *; auto. Qed.

Lemma wp_or_conflict_self {X} t (m : ST LocalDns RepoError X) (Q : result X AppError -> LocalDns -> Prop) w :
  wp m (fun r w' => match r with Ok a => Q (Ok a) w' | Err _ => forall e, Q (Err e) w' end) w -> wp (or_conflict t m) Q w.
Proof. intros Hm w' Hw. specialize (Hm w' Hw). unfold or_conflict. destruct (m w') as [[a|[]] w1]; simpl in *; auto. Qed.

(** One announcement, or two when a row was renamed. *)
Lemma announced_one w d x : ld_faults w = [] -> (forall n, canonical n -> ~ reaches x n -> same_at (ld_db w) d n) ->
  announced w (set_ld_events (ld_events w ++ [x]) (set_ld_db d w)).
Proof.
  intros Hf H. split; [done|]. exists [x]. split_and!; [done..|]. intros n Hn Hx. apply H; [done|]. apply Hx. by left.
Qed.

Lemma wp_emitted x w d : ld_faults w = [] -> (forall n, canonical n -> ~ reaches x n -> same_at (ld_db w) d n) ->
  wp (emit_domain_changed x) (fun _ => announced w) (set_ld_db d w).
Proof. intros Hf H w' Hw. simpl in Hw. subst w'. exact (announced_one w d x Hf H). Qed.

(** The row is returned after the announcement. *)
Lemma wp_then_return {X} (m : ST LocalDns AppError unit) (a : X) (Q : LocalDns -> Prop) w :
  wp m (fun _ => Q) w -> wp (_ ← m; mret a) (fun _ => Q) w.
Proof. intros Hm. apply wp_bind. eapply wp_conseq; [exact Hm|]. intros [[]|e] w' H; [by apply wp_ret | done]. Qed.

Lemma wp_renamed old new w d : ld_faults w = [] ->
  (forall n, canonical n -> ~ reaches old n -> ~ reaches new n -> same_at (ld_db w) d n) ->
  wp (emit_renamed old new) (fun _ => announced w) (set_ld_db d w).
Proof.
  intros Hf H. unfold emit_renamed. case_bool_decide as E; intros w' Hw; simpl in Hw; subst w'; simpl.
  - apply announced_one; [done|]. intros n Hn Hr. apply H; congruence.
  - split; [done|]. exists [old; new]. rewrite <- (assoc_L (++)). split_and!; [done..|].
    intros n Hn Hx. apply H; [done | apply Hx; by left | apply Hx; right; by left].
Qed.

(** ** Rows found and changed *)

Lemma find_where {A} (id : A -> Z) (g : A -> A) i l : (forall x, id (g x) = id x) ->
  List.find (fun x => id x =? i) (where_ (fun x => id x =? i) g l) = g <$> List.find (fun x => id x =? i) l.
Proof.
  intros Hg. induction l as [|x l IH]; [done|]. unfold where_ in *. simpl. destruct (id x =? i) eqn:E.
  - by rewrite Hg, E.
  - rewrite E. exact IH.
Qed.

Lemma count_found {A} (f : A -> bool) l x : List.find f l = Some x -> (count f l =? 0) = false /\ (0 <? count f l) = true.
Proof.
  intros E. assert (H : 0 < count f l); [|split; [apply Z.eqb_neq | apply Z.ltb_lt]; lia].
  unfold count. rewrite find_filter in E. destruct (List.filter f l); [done|]. simpl. lia.
Qed.

(** The row with an id is the one found. *)
Lemma found_row {A} (id : A -> Z) R i l x y : keyed id R l -> List.find (fun x => id x =? i) l = Some x -> y ∈ l ->
  (id y =? i) = true -> y = x.
Proof.
  intros Hk [Hx Ex%Z.eqb_eq]%find_Some_elem Hy Ey%Z.eqb_eq.
  apply (NoDup_fmap_elem_inj id l); [apply Hk | done | done | congruence].
Qed.

Ltac refused := first [by apply nothing_happened | by intros ?; apply nothing_happened | by apply wp_fail, nothing_happened].
Ltac lifted e := apply wp_bind, wp_lift; destruct e as [[]|] eqn:?; [|refused].

Section of_tables.
Variable w : LocalDns.
Hypothesis Hf : ld_faults w = [].
Hypothesis Hd : local_ok (ld_db w).

Lemma same_db : set_ld_db (ld_db w) w = w.
Proof. by destruct w. Qed.

Lemma starless_rule r : r ∈ l_rules (ld_db w) -> starless (rule_domain r).
Proof. intros Hr. by apply domain_starless, (lo_upstreams _ Hd). Qed.
Lemma starless_zone z : z ∈ l_zones (ld_db w) -> starless (zone_name z).
Proof. intros Hz. by apply zone_starless, (lo_names _ Hd). Qed.

(** A read, and the row that must be there. *)
Lemma wp_ensure_zone {Y} id (k : DnsZone -> ST LocalDns AppError Y) (Q : result Y AppError -> LocalDns -> Prop) :
  (forall e, Q (Err e) w) ->
  (forall z, List.find (fun z => zone_id z =? id) (l_zones (ld_db w)) = Some z -> wp (k z) Q w) -> wp (ensure_zone id ≫= k) Q w.
Proof.
  intros He Hk. unfold ensure_zone. apply wp_bind, wp_bind, wp_repo_self, wp_asked; [done|]. apply wp_lift.
  destruct (List.find _ _) as [z|]; simpl; [by apply Hk | apply He].
Qed.

Lemma wp_ensure_record {Y} id (k : CustomDnsRecord -> ST LocalDns AppError Y) (Q : result Y AppError -> LocalDns -> Prop) :
  (forall e, Q (Err e) w) ->
  (forall r, List.find (fun r => rec_id r =? id) (l_records (ld_db w)) = Some r -> wp (k r) Q w) -> wp (ensure_record id ≫= k) Q w.
Proof.
  intros He Hk. unfold ensure_record. apply wp_bind, wp_bind, wp_repo_self, wp_asked; [done|]. apply wp_lift.
  destruct (List.find _ _) as [z|]; simpl; [by apply Hk | apply He].
Qed.

Lemma wp_ensure_rule {Y} id (k : ConditionalForwardingRule -> ST LocalDns AppError Y) (Q : result Y AppError -> LocalDns -> Prop) :
  (forall e, Q (Err e) w) ->
  (forall r, List.find (fun r => rule_id r =? id) (l_rules (ld_db w)) = Some r -> wp (k r) Q w) ->
  wp (ensure_forwarding_rule id ≫= k) Q w.
Proof.
  intros He Hk. unfold ensure_forwarding_rule. apply wp_bind, wp_bind, wp_repo_self, wp_asked; [done|]. apply wp_lift.
  destruct (List.find _ _) as [z|]; simpl; [by apply Hk | apply He].
Qed.

Lemma wp_ensure_given {Y} o (k : unit -> ST LocalDns AppError Y) (Q : result Y AppError -> LocalDns -> Prop) :
  (forall e, Q (Err e) w) -> wp (k tt) Q w -> wp (ensure_given o ≫= k) Q w.
Proof.
  intros He Hk. unfold ensure_given. destruct o as [z|]; [|by apply wp_bind, wp_ret].
  apply wp_bind, wp_ensure_zone; [exact He|]. intros x _. by apply wp_ret.
Qed.

(** ** Zones *)

Lemma create_zone_announced ctx id req : wp (create_zone ctx id req) (fun _ => announced w) w.
Proof.
  unfold create_zone. lifted (require_admin ctx). lifted (validate_zone_name (cz_name req)).
  apply wp_bind, wp_or_conflict_self, wp_answered; [done|]. simpl. destruct (existsb _ _); simpl; [rewrite same_db; refused|].
  apply wp_then_return, wp_emitted; [done|]. intros n Hn Hr. apply same_at_rows; [done|]. simpl.
  apply filter_snoc_out, zone_spared; [by apply zone_starless | done].
Qed.

Lemma update_zone_announced ctx id req : wp (update_zone ctx id req) (fun _ => announced w) w.
Proof.
  unfold update_zone. lifted (require_admin ctx). apply wp_ensure_zone; [refused|]. intros z Hz.
  lifted (when_some validate_zone_name (zu_name req)).
  apply wp_bind, wp_or_conflict_self. unfold repo_update_zone. apply wp_bind, wp_answered; [done|]. simpl.
  destruct (zone_clash _ _ _); simpl; [rewrite same_db; refused|]. destruct (count_found _ _ _ Hz) as [-> _].
  apply wp_asked; [done|]. simpl. apply wp_bind, wp_lift. rewrite find_where, Hz by done. simpl.
  apply wp_then_return, wp_renamed; [done|]. intros n Hn Ho Hr. apply same_at_rows; [done|]. simpl. apply filter_where.
  intros x Hx Ex. assert (x = z) as -> by (eapply found_row; [apply (lo_zones _ Hd) | done..]).
  split; [by apply zone_spared; [apply starless_zone|]|]. apply zone_spared; [|done]. simpl.
  destruct (zu_name req) as [m|]; [by apply zone_starless | by apply starless_zone].
Qed.

Lemma delete_zone_announced ctx id : wp (delete_zone ctx id) (fun _ => announced w) w.
Proof.
  unfold delete_zone. lifted (require_admin ctx). apply wp_ensure_zone; [refused|]. intros z Hz. case_bool_decide; [refused|].
  apply wp_bind, wp_repo_self, wp_answered; [done|]. simpl. destruct (count_found _ _ _ Hz) as [_ ->]. simpl.
  apply wp_emitted; [done|]. intros n Hn Hr. apply same_at_rows; [done|]. simpl. apply filter_deleted. intros x Hx Ex.
  assert (x = z) as -> by (eapply found_row; [apply (lo_zones _ Hd) | done..]). by apply zone_spared; [apply starless_zone|].
Qed.

(** ** Records, which neither rules nor zones look at *)

Lemma create_record_announced ctx id req : wp (create_record ctx id req) (fun _ => announced w) w.
Proof.
  unfold create_record. lifted (require_admin ctx). lifted (validate_record_domain (cr_domain req)).
  lifted (require_non_empty (of_string "value") (cr_value req)). apply wp_ensure_given; [refused|].
  apply wp_bind, wp_or_conflict_self, wp_answered; [done|]. simpl. destruct (existsb _ _); simpl; [rewrite same_db; refused|].
  destruct (zone_missing _ _); simpl; [rewrite same_db; refused|]. by apply wp_then_return, wp_emitted.
Qed.

Lemma update_record_announced ctx id req : wp (update_record ctx id req) (fun _ => announced w) w.
Proof.
  unfold update_record. lifted (require_admin ctx). apply wp_ensure_record; [refused|]. intros r Hr.
  lifted (when_some validate_record_domain (ru_domain req)). lifted (when_some (require_non_empty (of_string "value")) (ru_value req)).
  apply wp_ensure_given; [refused|].
  apply wp_bind, wp_or_conflict_self. unfold repo_update_record. apply wp_bind, wp_answered; [done|]. simpl.
  destruct (record_clash _ _ _ _); simpl; [rewrite same_db; refused|]. destruct (_ && _); simpl; [rewrite same_db; refused|].
  destruct (count_found _ _ _ Hr) as [-> _]. apply wp_asked; [done|]. simpl. apply wp_bind, wp_lift.
  rewrite find_where, Hr by done. simpl. by apply wp_then_return, wp_renamed.
Qed.

Lemma delete_record_announced ctx id : wp (delete_record ctx id) (fun _ => announced w) w.
Proof.
  unfold delete_record. lifted (require_admin ctx). apply wp_ensure_record; [refused|]. intros r Hr.
  apply wp_bind, wp_repo_self, wp_answered; [done|]. simpl. destruct (count_found _ _ _ Hr) as [_ ->]. by apply wp_emitted.
Qed.

Lemma upsert_record_announced ctx id req : wp (upsert_record ctx id req) (fun _ => announced w) w.
Proof.
  unfold upsert_record. lifted (require_admin ctx). lifted (validate_record_domain (us_domain req)).
  lifted (require_non_empty (of_string "value") (us_value req)). apply wp_ensure_given; [refused|].
  apply wp_bind, wp_repo_self, wp_answered; [done|]. simpl. destruct (List.find _ _) as [r|]; simpl.
  - destruct (negb _); simpl; [rewrite same_db; apply wp_bind, wp_lift; refused|].
    destruct (zone_missing _ _); simpl; [rewrite same_db; refused|]. apply wp_bind, wp_lift. by apply wp_then_return, wp_emitted.
  - destruct (existsb _ _); simpl; [rewrite same_db; refused|]. destruct (zone_missing _ _); simpl; [rewrite same_db; refused|].
    apply wp_bind, wp_lift. by apply wp_then_return, wp_emitted.
Qed.

(** ** Rules *)

Lemma create_rule_announced ctx id req : wp (create_forwarding_rule ctx id req) (fun _ => announced w) w.
Proof.
  unfold create_forwarding_rule. lifted (require_admin ctx). lifted (validate_domain (cf_domain req)).
  lifted (require_non_empty (of_string "upstream") (cf_upstream req)).
  apply wp_bind, wp_or_conflict_self, wp_answered; [done|]. simpl. destruct (existsb _ _); simpl; [rewrite same_db; refused|].
  apply wp_then_return, wp_emitted; [done|]. intros n Hn Hr. apply same_at_rows; [|done]. simpl.
  apply filter_snoc_out, rule_spared; [by apply domain_starless | done..].
Qed.

Lemma update_rule_announced ctx id req : wp (update_forwarding_rule ctx id req) (fun _ => announced w) w.
Proof.
  unfold update_forwarding_rule. lifted (require_admin ctx). apply wp_ensure_rule; [refused|]. intros r Hr.
  lifted (when_some validate_domain (fu_domain req)). lifted (when_some (require_non_empty (of_string "upstream")) (fu_upstream req)).
  assert (H : wp (rule ← or_conflict rule_taken (affected ← lstmt (fun _ d =>
        if rule_clash id req d then (Err UniqueViolation, d)
        else (Ok (count (fun r => rule_id r =? id) (l_rules d)),
              set_rules (where_ (fun r => rule_id r =? id) (with_rule_update req) (l_rules d)) d));
      if affected =? 0 then mret None else repo_get_rule id);
    rule ← st_lift (ok_or rule (not_found (of_string "forwarding rule") id));
    _ ← emit_renamed (rule_domain r) (rule_domain rule); mret rule) (fun _ => announced w) w).
  { apply wp_bind, wp_or_conflict_self, wp_bind, wp_answered; [done|]. simpl.
    destruct (rule_clash _ _ _); simpl; [rewrite same_db; refused|]. destruct (count_found _ _ _ Hr) as [-> _].
    apply wp_asked; [done|]. simpl. apply wp_bind, wp_lift. rewrite find_where, Hr by done. simpl.
    apply wp_then_return, wp_renamed; [done|]. intros n Hn Ho Hw. apply same_at_rows; [|done]. simpl. apply filter_where.
    intros x Hx Ex. assert (x = r) as -> by (eapply found_row; [apply (lo_rules _ Hd) | done..]).
    split; [by apply rule_spared; [apply starless_rule|..]|]. apply rule_spared; [|done..]. simpl.
    destruct (fu_domain req) as [m|]; [by apply domain_starless | by apply starless_rule]. }
  unfold repo_update_rule. destruct (fu_domain req) eqn:E1, (fu_upstream req) eqn:E2, (fu_enabled req) eqn:E3; try exact H.
  clear H. apply wp_bind, wp_or_conflict_self, wp_bind, wp_asked; [done|]. destruct (negb _).
  { apply wp_ret. apply wp_bind, wp_lift. refused. }
  apply wp_asked; [done|]. rewrite Hr. apply wp_bind, wp_lift. simpl. apply wp_then_return.
  pose proof (wp_renamed (rule_domain r) (rule_domain r) w (ld_db w) Hf) as H. rewrite same_db in H. by apply H.
Qed.

Lemma delete_rule_announced ctx id : wp (delete_forwarding_rule ctx id) (fun _ => announced w) w.
Proof.
  unfold delete_forwarding_rule. lifted (require_admin ctx). apply wp_ensure_rule; [refused|]. intros r Hr.
  apply wp_bind, wp_repo_self, wp_answered; [done|]. simpl. destruct (count_found _ _ _ Hr) as [_ ->]. simpl.
  apply wp_emitted; [done|]. intros n Hn Hx. apply same_at_rows; [|done]. simpl. apply filter_deleted. intros x Hin Ex.
  assert (x = r) as -> by (eapply found_row; [apply (lo_rules _ Hd) | done..]). by apply rule_spared; [apply starless_rule|..].
Qed.

(** ** Reads *)

Lemma read_announced {X} (f : LocalDb -> X) : wp (repo (lselect f)) (fun _ => announced w) w.
Proof. apply wp_repo_self, wp_asked; [done|]. by apply nothing_happened. Qed.

Lemma found_announced {X} (f : LocalDb -> option X) e :
  wp (x ← repo (lselect f); st_lift (ok_or x e)) (fun _ => announced w) w.
Proof. apply wp_bind, wp_repo_self, wp_asked; [done|]. apply wp_lift. by apply nothing_happened. Qed.

Lemma announced_after {X} (m : ST LocalDns AppError X) : wp m (fun _ => announced w) w -> announced w (snd (m w)).
Proof. intros H. exact (H w eq_refl). Qed.

Lemma call_announced ctx c : announced w (run_local_call ctx c w).
Proof.
  destruct c; cbn [run_local_call];
    first [ exact (create_zone_announced ctx id req w eq_refl) | exact (update_zone_announced ctx id req w eq_refl)
          | exact (delete_zone_announced ctx id w eq_refl) | exact (create_record_announced ctx id req w eq_refl)
          | exact (update_record_announced ctx id req w eq_refl) | exact (delete_record_announced ctx id w eq_refl)
          | exact (upsert_record_announced ctx id req w eq_refl) | exact (create_rule_announced ctx id req w eq_refl)
          | exact (update_rule_announced ctx id req w eq_refl) | exact (delete_rule_announced ctx id w eq_refl) | idtac ].
  all: apply announced_after.
  1: unfold list_zones. 2: unfold get_zone. 3: unfold list_zone_records. 4: unfold list_records. 5: unfold get_record.
  6: unfold list_forwarding_rules. 7: unfold get_forwarding_rule.
  all: lifted (require_admin ctx).
  3: apply wp_ensure_zone; [refused|]; intros z _.
  all: first [apply read_announced | apply found_announced].
Qed.

End of_tables.

Lemma announced_trans w1 w2 w3 : announced w1 w2 -> announced w2 w3 -> announced w1 w3.
Proof.
  intros (_ & n1 & E1 & D1 & S1) (F & n2 & E2 & D2 & S2). split; [done|]. exists (n1 ++ n2).
  rewrite E2, E1, (assoc_L (++)). split_and!; [done | |].
  - intros [-> ->]%app_eq_nil. by rewrite D2, D1.
  - intros n Hn Hx. destruct (S1 n Hn) as [A1 A2]; [intros x Hin; apply Hx; set_solver|].
    destruct (S2 n Hn) as [B1 B2]; [intros x Hin; apply Hx; set_solver|]. split; congruence.
Qed.

Lemma lease_announced config id ip h w : ld_faults w = [] -> local_ok (ld_db w) -> announced w (on_lease config id ip h w).
Proof.
  intros Hf Hd. destruct (lease_is_calls config id ip h w) as [->|[->|(req & _ & ->)]].
  - by apply nothing_happened.
  - by apply call_announced.
  - pose proof (call_announced w Hf Hd (Some system_ctx) (LGetZone LAN_ZONE_ID)) as H. eapply announced_trans; [exact H|].
    apply call_announced; [apply H | by apply (local_call_ok (Some system_ctx) (LGetZone LAN_ZONE_ID))].
Qed.

End announced.

(** ** The runner beside everything else *)

Section system.
Context {NL : DnsNameLib} {TL : RecordTypeLib} {U : UuidText}.

Abbreviation Read A := (option (result (list A) AppError)).

(** Where [runner_loop] is: waiting for an event, loading the three lists that
    [tokio::join!] reads in any order, or about to evict. *)
Inductive Phase : Type :=
| Waiting
| Loading (domain : str) (zones : Read DnsZone) (records : Read CustomDnsRecord) (rules : Read ConditionalForwardingRule)
| Evicting (domain : str).

(** A query on its way: the key its answer will be cached under, and the rule that
    matched it when it was asked.  [fl_late] is not part of the program: whether
    the runner has evicted the name since. *)
Record Flight : Type := {
  fl_upstream : UpstreamId;
  fl_name : str;
  fl_type : RecordType;
  fl_rule : option ConditionalForwardingRule;
  fl_late : bool;
}.

(** [sy_origin] is not part of the program: the rule by which the answer cached
    under a key was obtained, and whether it came late. *)
Record DnsSystem : Type := {
  sy_local : LocalDns;
  sy_view : AuthoritativeView;
  sy_cache : DnsCache;
  sy_phase : Phase;
  sy_flying : list Flight;
  sy_origin : gmap (UpstreamId * str * RecordType) (option ConditionalForwardingRule * bool);
}.

Definition in_local (w : LocalDns) (s : DnsSystem) : DnsSystem :=
  {| sy_local := w; sy_view := sy_view s; sy_cache := sy_cache s; sy_phase := sy_phase s; sy_flying := sy_flying s;
     sy_origin := sy_origin s |}.
Definition in_phase (p : Phase) (s : DnsSystem) : DnsSystem :=
  {| sy_local := sy_local s; sy_view := sy_view s; sy_cache := sy_cache s; sy_phase := p; sy_flying := sy_flying s;
     sy_origin := sy_origin s |}.
Definition in_view (v : AuthoritativeView) (s : DnsSystem) : DnsSystem :=
  {| sy_local := sy_local s; sy_view := v; sy_cache := sy_cache s; sy_phase := sy_phase s; sy_flying := sy_flying s;
     sy_origin := sy_origin s |}.
Definition in_cache (c : DnsCache) (s : DnsSystem) : DnsSystem :=
  {| sy_local := sy_local s; sy_view := sy_view s; sy_cache := c; sy_phase := sy_phase s; sy_flying := sy_flying s;
     sy_origin := sy_origin s |}.
Definition in_flight (l : list Flight) (s : DnsSystem) : DnsSystem :=
  {| sy_local := sy_local s; sy_view := sy_view s; sy_cache := sy_cache s; sy_phase := sy_phase s; sy_flying := l;
     sy_origin := sy_origin s |}.

(** A query is asked: the rule is matched on the view of the moment. *)
Definition ask_query (upstream : UpstreamId) (name : str) (t : RecordType) (s : DnsSystem) : DnsSystem :=
  in_flight (sy_flying s ++ [{| fl_upstream := upstream; fl_name := name; fl_type := t;
    fl_rule := match_forwarding_rule (sy_view s) (canonical_domain name); fl_late := false |}]) s.

(** Its answer comes and is cached, whatever happened to the view since. *)
Definition cache_answer (now : Z) (f : Flight) (wire : list Z) (ttl lo hi : Z) (rest : list Flight) (s : DnsSystem)
    : DnsSystem :=
  {| sy_local := sy_local s; sy_view := sy_view s;
     sy_cache := DnsCache.insert now (sy_cache s) (fl_upstream f) (fl_name f) (fl_type f) wire ttl lo hi;
     sy_phase := sy_phase s; sy_flying := rest;
     sy_origin := <[(fl_upstream f, canonical_domain (fl_name f), fl_type f) := (fl_rule f, fl_late f)]> (sy_origin s) |}.

(** The runner evicts a domain: what is in flight for a name below it is late. *)
Definition overtaken (d : str) (f : Flight) : Flight :=
  {| fl_upstream := fl_upstream f; fl_name := fl_name f; fl_type := fl_type f; fl_rule := fl_rule f;
     fl_late := fl_late f || in_subtree (canonical_domain (default d (strip_prefix "*." d))) (canonical_domain (fl_name f)) |}.

Definition reader : option AuthContext := Some system_ctx.

Inductive dstep : DnsSystem -> DnsSystem -> Prop :=
| ds_call ctx c s : dstep s (in_local (run_local_call ctx c (sy_local s)) s)
| ds_lease config id ip h s : dstep s (in_local (on_lease config id ip h (sy_local s)) s)
| ds_clock now s : dstep s (in_local {| ld_db := ld_db (sy_local s); ld_faults := ld_faults (sy_local s); ld_now := now;
                                        ld_events := ld_events (sy_local s) |} s)
| ds_receive d es s : sy_phase s = Waiting -> ld_events (sy_local s) = d :: es ->
    dstep s (in_phase (Loading d None None None) (in_local (set_ld_events es (sy_local s)) s))
| ds_zones d r u s : sy_phase s = Loading d None r u ->
    dstep s (in_phase (Loading d (Some (fst (list_zones reader (sy_local s)))) r u) s)
| ds_records d z u s : sy_phase s = Loading d z None u ->
    dstep s (in_phase (Loading d z (Some (fst (list_records reader (sy_local s)))) u) s)
| ds_rules d z r s : sy_phase s = Loading d z r None ->
    dstep s (in_phase (Loading d z r (Some (fst (list_forwarding_rules reader (sy_local s))))) s)
| ds_publish d z r u s : sy_phase s = Loading d (Some z) (Some r) (Some u) ->
    dstep s (in_phase (Evicting d) (in_view (view_of_reads z r u) s))
| ds_evict d s : sy_phase s = Evicting d ->
    dstep s (in_phase Waiting (in_flight (overtaken d <$> sy_flying s)
      (in_cache (snd (invalidate_subtree (sy_cache s) d)) s)))
| ds_ask upstream name t s : dstep s (ask_query upstream name t s)
| ds_answer now f wire ttl lo hi l1 l2 s : sy_flying s = l1 ++ f :: l2 -> clamp_ttl ttl lo hi <> 0 ->
    dstep s (cache_answer now f wire ttl lo hi (l1 ++ l2) s)
| ds_unanswered f l1 l2 s : sy_flying s = l1 ++ f :: l2 -> dstep s (in_flight (l1 ++ l2) s)
| ds_lookup now upstream name t id s : dstep s (in_cache (snd (DnsCache.get now (sy_cache s) upstream name t id)) s).

(** The domains whose eviction is still to come. *)
Definition pending (s : DnsSystem) : list str :=
  match sy_phase s with Waiting => [] | Loading d _ _ _ => [d] | Evicting d => [d] end ++ ld_events (sy_local s).

Definition awaited (ds : list str) (n : str) : Prop := exists d, d ∈ ds /\ reaches d n.

(** [v] sends [n] where the tables say, or an announcement about it is among [ds]. *)
Definition current_at (d : LocalDb) (ds : list str) (rule : str -> option ConditionalForwardingRule) : Prop :=
  forall n, canonical n -> rule n = rule_at d n \/ awaited ds n.

Definition rule_of (l : list ConditionalForwardingRule) (n : str) : option ConditionalForwardingRule :=
  match_forwarding_rule (build_view [] [] l) n.

Definition phase_ok (d : LocalDb) (es : list str) (view : AuthoritativeView) (p : Phase) : Prop :=
  match p with
  | Waiting => current_at d es (match_forwarding_rule view) /\ (es = [] -> view = stored_view d)
  | Evicting _ => current_at d es (match_forwarding_rule view) /\ (es = [] -> view = stored_view d)
  | Loading x z r u =>
      current_at d (x :: es) (match_forwarding_rule view) /\
      (forall res, z = Some res -> exists l, res = Ok l /\ (es = [] -> l = sort_by by_name (l_zones d))) /\
      (forall res, r = Some res -> exists l, res = Ok l /\ (es = [] -> l = sort_by by_domain (l_records d))) /\
      (forall res, u = Some res -> exists l, res = Ok l /\ current_at d es (rule_of l) /\
         (es = [] -> l = sort_by by_rule_domain (l_rules d)))
  end.

(** A rule that is (or was) used for [n]: it is the one the view has for it, or the
    runner has yet to evict the name, or it was overtaken. *)
Definition used_for (s : DnsSystem) (n : str) (rule : option ConditionalForwardingRule) (late : bool) : Prop :=
  rule = match_forwarding_rule (sy_view s) n \/ awaited (pending s) n \/ late = true.

Record system_ok (s : DnsSystem) : Prop := {
  so_answers : ld_faults (sy_local s) = [];
  so_tables : local_ok (ld_db (sy_local s));
  so_phase : phase_ok (ld_db (sy_local s)) (ld_events (sy_local s)) (sy_view s) (sy_phase s);
  so_flying f : f ∈ sy_flying s -> used_for s (canonical_domain (fl_name f)) (fl_rule f) (fl_late f);
  so_entries u n t e : entries (sy_cache s) !! (u, n, t) = Some e -> canonical n /\
    exists rule late, sy_origin s !! (u, n, t) = Some (rule, late) /\ used_for s n rule late;
}.

(** *** Each step *)

Lemma awaited_more ds ds' n : (forall d, d ∈ ds -> d ∈ ds') -> awaited ds n -> awaited ds' n.
Proof. intros H (d & Hd & Hr). exists d. auto. Qed.

Lemma current_more d ds ds' rule : (forall x, x ∈ ds -> x ∈ ds') -> current_at d ds rule -> current_at d ds' rule.
Proof. intros H Hc n Hn. destruct (Hc n Hn) as [|Ha]; [by left | right; by eapply awaited_more]. Qed.

(** What was current stays so while the tables change, for what is announced is awaited. *)
Lemma current_announced w w' ds rule : announced w w' ->
  current_at (ld_db w) ds rule -> (forall x, x ∈ ld_events w' -> x ∈ ds) -> current_at (ld_db w') ds rule.
Proof.
  intros (_ & new & E & _ & Hsame) Hc Hin n Hn. destruct (Hc n Hn) as [Hr|Ha]; [|by right].
  destruct (decide (Exists (fun x => in_subtree (canonical_domain (default x (strip_prefix "*." x))) n = true) new)) as [Hx|Hx].
  - right. apply Exists_exists in Hx as (x & Hx & Hs%in_subtree_spec). exists x. split; [|done]. apply Hin. rewrite E. set_solver.
  - left. rewrite Hr. symmetry. apply Hsame; [done|]. intros x Hx' Hr'. apply Hx, Exists_exists. exists x.
    split; [done|]. by apply in_subtree_spec.
Qed.

Lemma phase_announced w w' view p : announced w w' -> phase_ok (ld_db w) (ld_events w) view p -> phase_ok (ld_db w') (ld_events w') view p.
Proof.
  intros Ha. pose proof Ha as (_ & new & E & Hnil & _).
  assert (Hc : forall pre rule, current_at (ld_db w) (pre ++ ld_events w) rule -> current_at (ld_db w') (pre ++ ld_events w') rule).
  { intros pre rule H. apply (current_announced w w'); [done | | set_solver].
    eapply current_more; [|exact H]. rewrite E. set_solver. }
  assert (Hq : ld_events w' = [] -> ld_db w' = ld_db w /\ ld_events w = []).
  { rewrite E. intros [H1 H2]%app_eq_nil. auto. }
  destruct p as [|x z r u|x]; simpl.
  - intros [H1 H2]. split; [by apply (Hc [])|]. intros H. destruct (Hq H) as [-> H0]. auto.
  - intros (H1 & H2 & H3 & H4). split_and!.
    + by apply (Hc [x]).
    + intros res Hres. destruct (H2 res Hres) as (l & -> & Hl). exists l. split; [done|]. intros H. destruct (Hq H) as [-> H0]. auto.
    + intros res Hres. destruct (H3 res Hres) as (l & -> & Hl). exists l. split; [done|]. intros H. destruct (Hq H) as [-> H0]. auto.
    + intros res Hres. destruct (H4 res Hres) as (l & -> & Hl & Hl'). exists l. split; [done|]. split; [by apply (Hc [])|].
      intros H. destruct (Hq H) as [-> H0]. auto.
  - intros [H1 H2]. split; [by apply (Hc [])|]. intros H. destruct (Hq H) as [-> H0]. auto.
Qed.

(** What is used stays accounted for when the view is the same and more is awaited. *)
Lemma used_more s s' n rule late : sy_view s' = sy_view s -> (forall d, d ∈ pending s -> d ∈ pending s') ->
  used_for s n rule late -> used_for s' n rule late.
Proof.
  intros Hv Hp [H|[H|H]]; [left; by rewrite Hv | right; left; by eapply awaited_more | by right; right].
Qed.

(** A step that keeps queries and cache. *)
Lemma kept_uses s s' : sy_flying s' = sy_flying s -> sy_cache s' = sy_cache s -> sy_origin s' = sy_origin s ->
  (forall n rule late, canonical n -> used_for s n rule late -> used_for s' n rule late) -> system_ok s ->
  (forall f, f ∈ sy_flying s' -> used_for s' (canonical_domain (fl_name f)) (fl_rule f) (fl_late f)) /\
  (forall u n t e, entries (sy_cache s') !! (u, n, t) = Some e -> canonical n /\
    exists rule late, sy_origin s' !! (u, n, t) = Some (rule, late) /\ used_for s' n rule late).
Proof.
  intros -> -> -> Hu Hs. split.
  - intros f Hf. apply Hu; [apply normalize_owned_idemp | by apply so_flying].
  - intros u n t e He. destruct (so_entries s Hs u n t e He) as (Hn & rule & late & Ho & Hr). split; [done|].
    exists rule, late. auto.
Qed.

Lemma local_step s w' : system_ok s -> announced (sy_local s) w' -> local_ok (ld_db w') -> system_ok (in_local w' s).
Proof.
  intros Hs Ha Hd. destruct (kept_uses s (in_local w' s)) as [K1 K2]; try done.
  { intros n rule late _. apply used_more; [done|]. intros d. destruct Ha as (_ & new & E & _).
    unfold pending. simpl. rewrite E. set_solver. }
  destruct Hs as [H1 H2 H3 _ _]. split; simpl; [apply Ha | done | by eapply phase_announced | exact K1 | exact K2].
Qed.

Lemma reads_answer {X} (f : LocalDb -> X) w : ld_faults w = [] -> fst (repo (lselect f) w) = Ok (f (ld_db w)).
Proof. intros H. unfold repo, lselect, lstmt. by rewrite H. Qed.

Lemma read_zones w : ld_faults w = [] -> fst (list_zones reader w) = Ok (sort_by by_name (l_zones (ld_db w))).
Proof. intros H. exact (reads_answer (fun d => sort_by by_name (l_zones d)) w H). Qed.
Lemma read_records w : ld_faults w = [] -> fst (list_records reader w) = Ok (sort_by by_domain (l_records (ld_db w))).
Proof. intros H. exact (reads_answer (fun d => sort_by by_domain (l_records d)) w H). Qed.
Lemma read_rules w : ld_faults w = [] -> fst (list_forwarding_rules reader w) = Ok (sort_by by_rule_domain (l_rules (ld_db w))).
Proof. intros H. exact (reads_answer (fun d => sort_by by_rule_domain (l_rules d)) w H). Qed.

(** A change of phase that awaits the same. *)
Lemma phase_step s p : system_ok s -> phase_ok (ld_db (sy_local s)) (ld_events (sy_local s)) (sy_view s) p ->
  pending (in_phase p s) = pending s -> system_ok (in_phase p s).
Proof.
  intros Hs Hp Hq. destruct (kept_uses s (in_phase p s)) as [K1 K2]; try done.
  { intros n rule late _. apply used_more; [done|]. by rewrite Hq. }
  by destruct Hs as [H1 H2 _ _ _]; split.
Qed.

Lemma publish_step s d z r u : system_ok s -> sy_phase s = Loading d (Some z) (Some r) (Some u) ->
  system_ok (in_phase (Evicting d) (in_view (view_of_reads z r u) s)).
Proof.
  intros Hs Ep. pose proof (so_phase s Hs) as H3. rewrite Ep in H3. destruct H3 as (P1 & P2 & P3 & P4).
  destruct (P2 z eq_refl) as (lz & -> & Ez), (P3 r eq_refl) as (lr & -> & Er), (P4 u eq_refl) as (lu & -> & Cu & Eu).
  set (s' := in_phase (Evicting d) (in_view (view_of_reads (Ok lz) (Ok lr) (Ok lu)) s)).
  assert (Hpend : pending s' = pending s) by (unfold pending; simpl; by rewrite Ep).
  destruct (kept_uses s s') as [K1 K2]; try done.
  { intros n rule late Hn [Hr|[Hr|Hr]]; [|right; left; by rewrite Hpend | by right; right].
    destruct (P1 n Hn) as [E1|A1].
    2: { right. left. rewrite Hpend. unfold pending. rewrite Ep. exact A1. }
    destruct (Cu n Hn) as [E2|A2].
    2: { right. left. rewrite Hpend. eapply awaited_more; [|exact A2]. unfold pending. set_solver. }
    left. rewrite Hr, E1. symmetry. exact E2. }
  destruct Hs as [H1 H2 _ _ _]. split; simpl; try done. split; [exact Cu|]. intros E. by rewrite (Ez E), (Er E), (Eu E).
Qed.

Lemma evicted_entries c d u n t e : entries (snd (invalidate_subtree c d)) !! (u, n, t) = Some e ->
  entries c !! (u, n, t) = Some e /\ ~ reaches d n.
Proof.
  unfold invalidate_subtree. cbn [snd]. rewrite compact_entries. cbn [entries]. intros [He Hn]%map_lookup_filter_Some.
  cbn [fst snd] in Hn. split; [done|]. intros Hr%in_subtree_spec. by rewrite Hr in Hn.
Qed.

(** Past an eviction only names it did not reach are still awaited. *)
Lemma used_evicted s s' d n rule late : sy_phase s = Evicting d -> sy_view s' = sy_view s ->
  pending s' = ld_events (sy_local s) -> ~ reaches d n -> used_for s n rule late -> used_for s' n rule late.
Proof.
  intros Ep Hv Hp Hn [Hr|[(x & Hx & Hr)|Hr]]; [left; by rewrite Hv | right; left | by right; right].
  unfold pending in Hx. rewrite Ep in Hx. apply elem_of_cons in Hx as [->|Hx]; [done|]. exists x. by rewrite Hp.
Qed.

Lemma evict_step s d : system_ok s -> sy_phase s = Evicting d ->
  system_ok (in_phase Waiting (in_flight (overtaken d <$> sy_flying s)
    (in_cache (snd (invalidate_subtree (sy_cache s) d)) s))).
Proof.
  intros [H1 H2 H3 H4 H5] Ep. rewrite Ep in H3. set (s' := in_phase Waiting _).
  assert (Hu : forall n rule late, ~ reaches d n -> used_for s n rule late -> used_for s' n rule late)
    by (intros n rule late; by apply (used_evicted s s' d)).
  split; [done | done | done | |].
  - intros f (g & -> & Hg)%list_elem_of_fmap. cbn [overtaken fl_name fl_rule fl_late]. destruct (in_subtree _ _) eqn:Es.
    + right. right. by rewrite orb_true_r.
    + rewrite orb_false_r. apply Hu; [|by apply H4]. intros Hr%in_subtree_spec. by rewrite Es in Hr.
  - intros u n t e [He Hn']%evicted_entries. destruct (H5 u n t e He) as (Hn & rule & late & Ho & Hr). split; [done|].
    exists rule, late. split; [done|]. by apply Hu.
Qed.

Lemma ask_step s up name t : system_ok s -> system_ok (ask_query up name t s).
Proof.
  intros [H1 H2 H3 H4 H5]. split; simpl; try done.
  intros f [Hf| ->%list_elem_of_singleton]%elem_of_app; [by apply H4 | by left].
Qed.

Lemma answer_step s now f wire ttl lo hi l1 l2 : system_ok s -> sy_flying s = l1 ++ f :: l2 -> clamp_ttl ttl lo hi <> 0 ->
  system_ok (cache_answer now f wire ttl lo hi (l1 ++ l2) s).
Proof.
  intros [H1 H2 H3 H4 H5] Ef Hc. split; simpl; try done.
  { intros g Hg. apply H4. rewrite Ef. set_solver. }
  intros u n t' e. rewrite insert_unfold, compact_entries by done. simpl.
  destruct (decide ((u, n, t') = (fl_upstream f, canonical_domain (fl_name f), fl_type f))) as [E|E].
  - injection E as -> -> ->. rewrite !lookup_insert_eq. intros _. split; [apply normalize_owned_idemp|].
    exists (fl_rule f), (fl_late f). split; [done|]. apply H4. rewrite Ef. set_solver.
  - rewrite !lookup_insert_ne by done. intros He. apply (H5 u n t' e). revert He. unfold insert_base. case_match; [|done].
    intros He. by eapply lookup_weaken; [|apply make_room_sub].
Qed.

Lemma receive_step s d es : system_ok s -> sy_phase s = Waiting -> ld_events (sy_local s) = d :: es ->
  system_ok (in_phase (Loading d None None None) (in_local (set_ld_events es (sy_local s)) s)).
Proof.
  intros Hs Ep Ee. set (s' := in_phase _ _). destruct (kept_uses s s') as [K1 K2]; try done.
  { intros n rule late _. apply used_more; [done|]. unfold pending. simpl. by rewrite Ep, Ee. }
  destruct Hs as [H1 H2 H3 _ _]. rewrite Ep in H3. destruct H3 as [C1 C2]. rewrite Ee in C1. by split.
Qed.

Lemma dstep_ok s s' : dstep s s' -> system_ok s -> system_ok s'.
Proof.
  intros [ctx c s1|config id ip h s1|now s1|d es s1 Ep Ee|d r u s1 Ep|d z u s1 Ep|d z r s1 Ep|d z r u s1 Ep|d s1 Ep
         |up name t s1|now f wire ttl lo hi l1 l2 s1 Ef Hc|f l1 l2 s1 Ef|now up name t id s1] Hs; pose proof Hs as [H1 H2 H3 H4 H5].
  - apply local_step; [done | by apply call_announced | by apply (local_call_ok ctx c)].
  - apply local_step; [done | by apply lease_announced |]. by apply (lstep_keeps _ _ (ls_lease config id ip h (sy_local s1))).
  - by split.
  - by apply receive_step.
  - apply phase_step; [done | | unfold pending; by rewrite Ep]. rewrite Ep in H3. destruct H3 as (P1 & P2 & P3 & P4).
    simpl. split_and!; try done. intros res [= <-]. rewrite read_zones by done. by eexists.
  - apply phase_step; [done | | unfold pending; by rewrite Ep]. rewrite Ep in H3. destruct H3 as (P1 & P2 & P3 & P4).
    simpl. split_and!; try done. intros res [= <-]. rewrite read_records by done. by eexists.
  - apply phase_step; [done | | unfold pending; by rewrite Ep]. rewrite Ep in H3. destruct H3 as (P1 & P2 & P3 & P4).
    simpl. split_and!; try done. intros res [= <-]. rewrite read_rules by done. eexists. split_and!; [done | | done].
    intros n Hn. by left.
  - by apply publish_step.
  - by apply evict_step.
  - by apply ask_step.
  - by apply answer_step.
  - split; simpl; try done. intros g Hg. apply H4. rewrite Ef. set_solver.
  - split; simpl; try done. intros u n t' e. unfold DnsCache.get. repeat case_match; simpl; apply H5.
Qed.


End system.

(** ** Lease names *)

Section leases.
Context {U : UuidText}.

Lemma ensure_zone_found id w : ld_faults w = [] -> zone_exists id (ld_db w) -> exists z, ensure_zone id w = (Ok z, w).
Proof.
  intros Hf (x & Hx & Ex). unfold ensure_zone, mbind, st_bind, repo, repo_get_zone, lselect, lstmt. rewrite Hf. simpl.
  destruct (List.find _ _) as [z|] eqn:E.
  - exists z. simpl. destruct w as [db fs now es]. simpl in *. by rewrite Hf.
  - pose proof (find_None_elem _ _ x E Hx) as C. simpl in C. by rewrite Ex, Z.eqb_refl in C.
Qed.

(** What a lease's record is to be. *)
Definition lease_record (config : result DhcpConfig AppError) (dom ip : str) (r : CustomDnsRecord) : Prop :=
  rec_domain r = dom /\ rec_type r = Authoritative.A /\ rec_value r = ip /\ rec_ttl r = lease_ttl config /\ rec_enabled r = true /\
  rec_source r = DhcpRecord /\ rec_zone_id r = Some LAN_ZONE_ID.

(** The upsert on storage that answers, with the zone there and the id fresh. *)
Lemma upsert_answered id req w : ld_faults w = [] -> good_record (us_domain req) (us_value req) ->
  (forall z, us_zone_id req = Some z -> zone_exists z (ld_db w)) -> (forall r, r ∈ l_records (ld_db w) -> rec_id r <> id) ->
  let u := {| ur_zone_id := us_zone_id req; ur_value := us_value req; ur_ttl := us_ttl req; ur_enabled := us_enabled req;
              ur_source := us_source req |} in
  snd (upsert_record (Some system_ctx) id req w) =
  match List.find (same_rrset (us_domain req) (us_record_type req)) (l_records (ld_db w)) with
  | Some r =>
      if bool_decide (rec_source r = us_source req)
      then set_ld_events (ld_events w ++ [rec_domain r])
             (set_ld_db (set_records (where_ (same_rrset (us_domain req) (us_record_type req)) (with_upsert u (ld_now w))
                (l_records (ld_db w))) (ld_db w)) w)
      else w
  | None => set_ld_events (ld_events w ++ [us_domain req])
      (set_ld_db (set_records (l_records (ld_db w) ++
        [{| rec_id := id; rec_zone_id := us_zone_id req; rec_domain := us_domain req; rec_type := us_record_type req;
            rec_value := us_value req; rec_ttl := us_ttl req; rec_enabled := us_enabled req; rec_source := us_source req;
            rec_created_at := ld_now w; rec_updated_at := ld_now w |}]) (ld_db w)) w)
  end.
Proof.
  intros Hf [Hv Hn] Hz Hid u. unfold upsert_record, mbind, st_bind, st_lift. simpl. rewrite Hv. unfold require_non_empty.
  rewrite bool_decide_eq_false_2 by done. destruct w as [db fs now es]. simpl in *. subst fs.
  set (w := {| ld_db := db; ld_faults := []; ld_now := now; ld_events := es |}).
  assert (E : ensure_given (us_zone_id req) w = (Ok tt, w)).
  { unfold ensure_given, mbind, st_bind. destruct (us_zone_id req) as [z|]; [|done].
    destruct (ensure_zone_found z w eq_refl (Hz z eq_refl)) as [x ->]. done. }
  rewrite E. assert (Em : zone_missing (us_zone_id req) db = false).
  { unfold zone_missing. destruct (us_zone_id req) as [z|]; [|done]. apply negb_false_iff, existsb_elem.
    destruct (Hz z eq_refl) as (x & Hx & Ex). exists x. split; [done|]. by apply Z.eqb_eq. }
  unfold repo, repo_upsert_record, lstmt. simpl. destruct (List.find _ _) as [r|] eqn:Ef; simpl.
  - rewrite Em. case_bool_decide; done.
  - rewrite Em. assert (Ei : existsb (fun r => rec_id r =? id) (l_records db) = false).
    { apply not_true_iff_false. intros (r & Hr & Er%Z.eqb_eq)%existsb_elem. by apply (Hid r Hr). }
    by rewrite Ei.
Qed.

(** When storage answers and the LAN zone is there, a lease whose hostname gives
    a valid name ends up as the address record of that name with half the lease
    time, and the name is announced; a record under that name that an admin or the
    daemon made is left alone, and so is every other record, zone and rule. *)
Theorem lease_registered (config : result DhcpConfig AppError) (id : Uuid) (h ip label : str) (w : LocalDns) :
  ld_faults w = [] -> lan_label h = Some label -> good_record (label ++ of_string ".lan") ip ->
  zone_exists LAN_ZONE_ID (ld_db w) -> (forall r, r ∈ l_records (ld_db w) -> rec_id r <> id) ->
  let dom := label ++ of_string ".lan" in let w' := register_lease config id h ip w in
  l_zones (ld_db w') = l_zones (ld_db w) /\ l_rules (ld_db w') = l_rules (ld_db w) /\
  (forall r, ~ (rec_domain r = dom /\ rec_type r = Authoritative.A) -> r ∈ l_records (ld_db w') <-> r ∈ l_records (ld_db w)) /\
  ((exists r, r ∈ l_records (ld_db w) /\ rec_domain r = dom /\ rec_source r <> DhcpRecord /\ w' = w) \/
   (exists r, r ∈ l_records (ld_db w') /\ lease_record config dom ip r /\ ld_events w' = ld_events w ++ [dom])).
Proof.
  intros Hf Hl Hg Hz Hid dom w'. unfold w', register_lease. rewrite Hl. cbv zeta. fold dom in Hg |- *. clearbody dom.
  unfold get_zone, mbind, st_bind, st_lift. simpl. destruct (ensure_zone_found _ w Hf Hz) as [z ->].
  rewrite upsert_answered; [|done|done|by intros ? [= <-]|done]. simpl.
  destruct (List.find _ _) as [r|] eqn:Ef.
  - apply find_Some_elem in Ef as [Hr [Hd Ht]%same_rrset_spec]. case_bool_decide as Hs; simpl.
    + split_and!; [done..| |].
      * intros x Hx. rewrite elem_of_where. split.
        -- intros (y & Hy & ->). destruct (same_rrset dom _ y) eqn:Ey; [|done]. by apply same_rrset_spec in Ey.
        -- intros Hin. exists x. split; [done|]. destruct (same_rrset dom _ x) eqn:Ey; [|done]. by apply same_rrset_spec in Ey.
      * right. eexists. split; [apply elem_of_where; exists r; split; [done|reflexivity]|].
        rewrite (proj2 (same_rrset_spec dom _ r)) by done. split; [|by rewrite Hd]. by split_and!.
    + split_and!; [done..|]. left. by exists r.
  - simpl. split_and!; [done..| |].
    + intros x Hx. rewrite elem_of_app, list_elem_of_singleton. split; [|by left]. intros [?| ->]; [done|]. by destruct Hx.
    + right. eexists. split; [apply elem_of_app; right; by apply list_elem_of_singleton|]. split; [|done]. by split_and!.
Qed.

End leases.
