(* ===== verification/AccountDb.v ===== *)
(** * The household's accounts: tables

    The rows and statements of [sqlite/user.rs], [sqlite/user_credential.rs],
    [sqlite/user_enrolment.rs], [sqlite/session.rs] and [sqlite/api_key.rs] under
    the keys, indexes and foreign keys of [20260811000001_household_identity.sql],
    the in-memory store of [user/ceremony.rs], and the state they live in.

    The tables share database and fault oracle with [PolicyDb], whose [t_users]
    are the ids of [i_users].  An id column holds the UUID it is the text of, a
    role or kind column its value (both have a CHECK), a timestamp is nanoseconds:
    the texts [to_rfc3339] writes in UTC are ordered as their times.  SQLite checks
    the target of an [ON CONFLICT] before any other index. *)

From S2P Require Import Prelude RustStr Net Auth PolicyRouter RoutingTypes ZoneTypes PolicyDb LoginLimiter Tables.

(** ** Rows *)

Inductive CredentialKind : Type := KPassword | KGoogle | KGithub | KPasskey.

#[export] Instance CredentialKind_eq_dec : EqDecision CredentialKind.
Proof. solve_decision. Defined.

Record UserRow : Type := {
  us_id : Uuid;
  us_display_name : str;
  us_email : option str;
  us_role : UserRole;
  us_enabled : bool;
  us_created_at : Z;
  us_updated_at : Z;
}.

Record CredentialRow : Type := {
  cr_id : Uuid;
  cr_user_id : Uuid;
  cr_kind : CredentialKind;
  cr_subject : str;
  cr_secret : option str;
  cr_label : option str;
  cr_metadata : str;
  cr_created_at : Z;
  cr_last_used_at : option Z;
}.

Record CredentialLogin : Type := { cl_credential : CredentialRow; cl_role : UserRole; cl_display_name : str }.

(** Without the secret. *)
Record CredentialSummary : Type := {
  cs_id : Uuid;
  cs_user_id : Uuid;
  cs_kind : CredentialKind;
  cs_subject : str;
  cs_label : option str;
  cs_metadata : str;
  cs_created_at : Z;
  cs_last_used_at : option Z;
}.

Record EnrolmentTokenRow : Type := {
  en_id : Uuid;
  en_user_id : Uuid;
  en_token_hash : str;
  en_created_at : Z;
  en_expires_at : Z;
  en_used_at : option Z;
}.

Record SessionRow : Type := {
  se_id : Uuid;
  se_user_id : Uuid;
  se_token_hash : str;
  se_created_at : Z;
  se_expires_at : Z;
  se_remember_me : bool;
  se_device_id : option str;
  se_user_agent : option str;
  se_absolute_expires_at : Z;
}.

Record SessionPrincipal : Type := { sp_user_id : Uuid; sp_role : UserRole; sp_display_name : str }.

Record SessionForRefresh : Type := {
  sr_user_id : Uuid;
  sr_remember_me : bool;
  sr_created_at : Z;
  sr_absolute_expires_at : Z;
}.

Record ApiKeyRow : Type := {
  ak_id : Uuid;
  ak_label : str;
  ak_key_hash : str;
  ak_created_at : Z;
  ak_last_used_at : option Z;
}.

Record Identity : Type := {
  i_users : list UserRow;
  i_credentials : list CredentialRow;
  i_enrolments : list EnrolmentTokenRow;
  i_sessions : list SessionRow;
  i_api_keys : list ApiKeyRow;
}.

Definition set_users (l : list UserRow) (i : Identity) : Identity :=
  {| i_users := l; i_credentials := i_credentials i; i_enrolments := i_enrolments i;
     i_sessions := i_sessions i; i_api_keys := i_api_keys i |}.
Definition set_credentials (l : list CredentialRow) (i : Identity) : Identity :=
  {| i_users := i_users i; i_credentials := l; i_enrolments := i_enrolments i;
     i_sessions := i_sessions i; i_api_keys := i_api_keys i |}.
Definition set_enrolments (l : list EnrolmentTokenRow) (i : Identity) : Identity :=
  {| i_users := i_users i; i_credentials := i_credentials i; i_enrolments := l;
     i_sessions := i_sessions i; i_api_keys := i_api_keys i |}.
Definition set_sessions (l : list SessionRow) (i : Identity) : Identity :=
  {| i_users := i_users i; i_credentials := i_credentials i; i_enrolments := i_enrolments i;
     i_sessions := l; i_api_keys := i_api_keys i |}.
Definition set_api_keys (l : list ApiKeyRow) (i : Identity) : Identity :=
  {| i_users := i_users i; i_credentials := i_credentials i; i_enrolments := i_enrolments i;
     i_sessions := i_sessions i; i_api_keys := l |}.

Definition set_user_ids (l : list Uuid) (d : PolicyDb) : PolicyDb :=
  {| t_zones := t_zones d; t_devices := t_devices d; t_rules := t_rules d; t_exceptions := t_exceptions d;
     t_dns_events := t_dns_events d; t_users := l; t_config := t_config d |}.

(** What a repository call can fail with: the marker errors, or anything else. *)
Inductive DbError : Type :=
| DuplicateUserEmailError | CredentialAlreadyLinkedError | UserAlreadyHasPasswordError | OtherDbError (msg : str).

Definition db_error_text (e : DbError) : str :=
  match e with
  | DuplicateUserEmailError => of_string "a household user with that email already exists"
  | CredentialAlreadyLinkedError => of_string "that credential is already linked to an account"
  | UserAlreadyHasPasswordError => of_string "that user already has a password credential"
  | OtherDbError msg => msg
  end.

(** ** Ceremonies *)

Definition CEREMONY_TTL : Z := 5 * 60 * SECOND.
Definition MAX_OPEN : nat := Z.to_nat 256.

Section ceremony.
Context {T : Type}.

(** [Entry]: the value and when it was created. *)
Abbreviation Ceremonies := (gmap str (T * Z)).

Definition open_at (now : Z) (e : T * Z) : Prop := duration_since now (snd e) < CEREMONY_TTL.

#[export] Instance open_at_dec now e : Decision (open_at now e).
Proof. unfold open_at. apply _. Defined.

Definition older (a b : str * (T * Z)) : str * (T * Z) := if snd (snd b) <? snd (snd a) then b else a.

(** [iter().min_by_key(created)]: the first of the oldest. *)
Definition oldest (m : Ceremonies) : option str :=
  match map_to_list m with
  | [] => None
  | e :: l => Some (fst (foldl older e l))
  end.

Definition ceremony_insert (now : Z) (key : str) (value : T) (m : Ceremonies) : Ceremonies :=
  let m := filter (fun kv => open_at now (snd kv)) m in
  let m := if bool_decide (MAX_OPEN <= size m)%nat
           then match oldest m with Some k => delete k m | None => m end else m in
  <[key := (value, now)]> m.

(** The entry goes whether it is still valid or not. *)
Definition ceremony_take (now : Z) (key : str) (m : Ceremonies) : option T * Ceremonies :=
  match m !! key with
  | None => (None, m)
  | Some (value, created) =>
      (if CEREMONY_TTL <=? duration_since now created then None else Some value, delete key m)
  end.

End ceremony.

(** ** Identity providers *)

Inductive OauthProvider : Type := Google | Github.

#[export] Instance OauthProvider_eq_dec : EqDecision OauthProvider.
Proof. solve_decision. Defined.

Record PendingOauth : Type := { po_provider : OauthProvider; po_pkce_verifier : str; po_started_by : option Uuid }.

(** ** The state of the services *)

Section accounts.
Context {N : Type} {U : UuidText}.

Record Accounts : Type := {
  ac_env : N;
  ac_policy : Policy;
  ac_tables : Identity;
  ac_limiter : LoginRateLimiter;
  ac_ceremonies : gmap str (PendingOauth * Z);
}.

Definition set_ac_env (n : N) (w : Accounts) : Accounts :=
  {| ac_env := n; ac_policy := ac_policy w; ac_tables := ac_tables w; ac_limiter := ac_limiter w;
     ac_ceremonies := ac_ceremonies w |}.
Definition set_ac_db (p : Policy) (i : Identity) (w : Accounts) : Accounts :=
  {| ac_env := ac_env w; ac_policy := p; ac_tables := i; ac_limiter := ac_limiter w;
     ac_ceremonies := ac_ceremonies w |}.
Definition set_limiter (l : LoginRateLimiter) (w : Accounts) : Accounts :=
  {| ac_env := ac_env w; ac_policy := ac_policy w; ac_tables := ac_tables w; ac_limiter := l;
     ac_ceremonies := ac_ceremonies w |}.
Definition set_ceremonies (m : gmap str (PendingOauth * Z)) (w : Accounts) : Accounts :=
  {| ac_env := ac_env w; ac_policy := ac_policy w; ac_tables := ac_tables w; ac_limiter := ac_limiter w;
     ac_ceremonies := m |}.

(** One statement. *)
Definition astmt {X} (f : Identity -> PolicyDb -> result X DbError * Identity * PolicyDb) : ST Accounts DbError X :=
  fun w =>
  match po_faults (ac_policy w) with
  | Some e :: fs => (Err (OtherDbError e), set_ac_db (set_faults fs (ac_policy w)) (ac_tables w) w)
  | fs => let '(r, i, d) := f (ac_tables w) (po_db (ac_policy w)) in
          (r, set_ac_db (set_db d (set_faults (tail fs) (ac_policy w))) i w)
  end.

Definition aselect {X} (f : Identity -> X) : ST Accounts DbError X := astmt (fun i d => (Ok (f i), i, d)).
(** A statement on one table, with the number of rows it affected. *)
Definition aupdate (f : Identity -> Z * Identity) : ST Accounts DbError Z :=
  astmt (fun i d => let '(n, i') := f i in (Ok n, i', d)).

(** ** [sqlite/user.rs] *)

Definition user_is (id : str) (u : UserRow) : bool := has_id id (us_id u).
Definition user_of (id : Uuid) (i : Identity) : option UserRow := List.find (fun u => us_id u =? id) (i_users i).

(** [idx_users_email_lower] *)
Definition email_clash (email : option str) (u : UserRow) : bool :=
  match email, us_email u with
  | Some a, Some b => bool_decide (to_ascii_lowercase a = to_ascii_lowercase b)
  | _, _ => false
  end.

Definition users_create (row : UserRow) : ST Accounts DbError unit :=
  astmt (fun i d =>
    if existsb (email_clash (us_email row)) (i_users i) then (Err DuplicateUserEmailError, i, d)
    else if existsb (fun u => us_id u =? us_id row) (i_users i) then (Err (OtherDbError unique_failed), i, d)
    else (Ok tt, set_users (i_users i ++ [row]) i, set_user_ids (t_users d ++ [us_id row]) d)).

Definition users_find_by_id (id : str) : ST Accounts DbError (option UserRow) :=
  aselect (fun i => List.find (user_is id) (i_users i)).

Definition users_find_by_email (email : str) : ST Accounts DbError (option UserRow) :=
  aselect (fun i => List.find (email_clash (Some email)) (i_users i)).

(** [ORDER BY display_name COLLATE NOCASE] *)
Definition users_find_all : ST Accounts DbError (list UserRow) :=
  aselect (fun i => sort_by (fun a b => str_compare (to_ascii_lowercase (us_display_name a))
                                                    (to_ascii_lowercase (us_display_name b))) (i_users i)).

Definition with_profile (display_name : str) (email : option str) (now : Z) (u : UserRow) : UserRow :=
  {| us_id := us_id u; us_display_name := display_name; us_email := email; us_role := us_role u;
     us_enabled := us_enabled u; us_created_at := us_created_at u; us_updated_at := now |}.
Definition with_enabled (enabled : bool) (now : Z) (u : UserRow) : UserRow :=
  {| us_id := us_id u; us_display_name := us_display_name u; us_email := us_email u; us_role := us_role u;
     us_enabled := enabled; us_created_at := us_created_at u; us_updated_at := now |}.
Definition with_role (role : UserRole) (now : Z) (u : UserRow) : UserRow :=
  {| us_id := us_id u; us_display_name := us_display_name u; us_email := us_email u; us_role := role;
     us_enabled := us_enabled u; us_created_at := us_created_at u; us_updated_at := now |}.

Definition users_update_profile (id display_name : str) (email : option str) (now : Z) : ST Accounts DbError Z :=
  astmt (fun i d =>
    if existsb (user_is id) (i_users i)
       && existsb (fun u => negb (user_is id u) && email_clash email u) (i_users i)
    then (Err DuplicateUserEmailError, i, d)
    else (Ok (count (user_is id) (i_users i)),
          set_users (where_ (user_is id) (with_profile display_name email now) (i_users i)) i, d)).

Definition users_set_enabled (id : str) (enabled : bool) (now : Z) : ST Accounts DbError Z :=
  aupdate (fun i => (count (user_is id) (i_users i),
                     set_users (where_ (user_is id) (with_enabled enabled now) (i_users i)) i)).

Definition users_set_role (id : str) (role : UserRole) (now : Z) : ST Accounts DbError Z :=
  aupdate (fun i => (count (user_is id) (i_users i),
                     set_users (where_ (user_is id) (with_role role now) (i_users i)) i)).

Definition orphaned (id : str) (v : DeviceRow) : bool :=
  match dr_owner_user_id v with Some o => has_id id o | None => false end.

(** Credentials, invitations and sessions cascade; a device loses its owner. *)
Definition users_delete (id : str) : ST Accounts DbError Z :=
  astmt (fun i d =>
    (Ok (count (user_is id) (i_users i)),
     {| i_users := deleted (user_is id) (i_users i);
        i_credentials := deleted (fun c => has_id id (cr_user_id c)) (i_credentials i);
        i_enrolments := deleted (fun e => has_id id (en_user_id e)) (i_enrolments i);
        i_sessions := deleted (fun s => has_id id (se_user_id s)) (i_sessions i);
        i_api_keys := i_api_keys i |},
     set_devices (where_ (orphaned id) (set_columns [SetOwnerUserId None]) (t_devices d))
       (set_user_ids (deleted (has_id id) (t_users d)) d))).

Definition enabled_admin (u : UserRow) : bool := bool_decide (us_role u = Admin) && us_enabled u.

Definition users_count_enabled_admins : ST Accounts DbError Z := aselect (fun i => count enabled_admin (i_users i)).
Definition users_exists : ST Accounts DbError bool := aselect (fun i => negb (bool_decide (i_users i = []))).

(** [ORDER BY created_at, id LIMIT 1] *)
Definition users_find_first_enabled_admin : ST Accounts DbError (option UserRow) :=
  aselect (fun i => head (sort_by (fun a b => match us_created_at a ?= us_created_at b with
                                              | Eq => str_compare (uuid_to_string (us_id a)) (uuid_to_string (us_id b))
                                              | c => c
                                              end) (List.filter enabled_admin (i_users i)))).

(** ** [sqlite/user_credential.rs] *)

Definition same_login (kind : CredentialKind) (subject : str) (c : CredentialRow) : bool :=
  bool_decide (cr_kind c = kind) && bool_decide (cr_subject c = subject).
Definition password_of (id : str) (c : CredentialRow) : bool :=
  has_id id (cr_user_id c) && bool_decide (cr_kind c = KPassword).

(** A new row: [(kind, subject)], one password per user, the key, the user. *)
Definition insert_credential (row : CredentialRow) (i : Identity) : result Identity DbError :=
  if existsb (same_login (cr_kind row) (cr_subject row)) (i_credentials i) then Err CredentialAlreadyLinkedError
  else if bool_decide (cr_kind row = KPassword)
          && existsb (fun c => (cr_user_id c =? cr_user_id row) && bool_decide (cr_kind c = KPassword)) (i_credentials i)
  then Err UserAlreadyHasPasswordError
  else if existsb (fun c => cr_id c =? cr_id row) (i_credentials i) then Err (OtherDbError unique_failed)
  else if negb (existsb (fun u => us_id u =? cr_user_id row) (i_users i)) then Err (OtherDbError foreign_key_failed)
  else Ok (set_credentials (i_credentials i ++ [row]) i).

Definition checked (r : result Identity DbError) (i : Identity) (d : PolicyDb)
    : result unit DbError * Identity * PolicyDb :=
  match r with Ok i' => (Ok tt, i', d) | Err e => (Err e, i, d) end.

Definition credentials_insert (row : CredentialRow) : ST Accounts DbError unit :=
  astmt (fun i d => checked (insert_credential row i) i d).

Definition credentials_find_for_login (kind : CredentialKind) (subject : str)
    : ST Accounts DbError (option CredentialLogin) :=
  aselect (fun i =>
    c ← List.find (same_login kind subject) (i_credentials i);
    u ← user_of (cr_user_id c) i;
    if us_enabled u
    then Some {| cl_credential := c; cl_role := us_role u; cl_display_name := us_display_name u |} else None).

Definition credentials_find_password (id : str) : ST Accounts DbError (option CredentialRow) :=
  aselect (fun i => List.find (password_of id) (i_credentials i)).

Definition summary_of (c : CredentialRow) : CredentialSummary :=
  {| cs_id := cr_id c; cs_user_id := cr_user_id c; cs_kind := cr_kind c; cs_subject := cr_subject c;
     cs_label := cr_label c; cs_metadata := cr_metadata c; cs_created_at := cr_created_at c;
     cs_last_used_at := cr_last_used_at c |}.

Definition credentials_list_for_user (id : str) : ST Accounts DbError (list CredentialSummary) :=
  aselect (fun i => summary_of <$> sort_by (fun a b => cr_created_at b ?= cr_created_at a)
    (List.filter (fun c => has_id id (cr_user_id c)) (i_credentials i))).

Definition with_login (subject secret : str) (c : CredentialRow) : CredentialRow :=
  {| cr_id := cr_id c; cr_user_id := cr_user_id c; cr_kind := cr_kind c; cr_subject := subject;
     cr_secret := Some secret; cr_label := cr_label c; cr_metadata := cr_metadata c;
     cr_created_at := cr_created_at c; cr_last_used_at := cr_last_used_at c |}.

(** The upsert: an existing password row keeps its id. *)
Definition credentials_set_password (id uid : Uuid) (subject secret : str) (now : Z) : ST Accounts DbError unit :=
  astmt (fun i d =>
    let own := password_of (uuid_to_string uid) in
    if existsb own (i_credentials i)
    then if existsb (fun c => negb (own c) && same_login KPassword subject c) (i_credentials i)
         then (Err CredentialAlreadyLinkedError, i, d)
         else (Ok tt, set_credentials (where_ own (with_login subject secret) (i_credentials i)) i, d)
    else checked (insert_credential
      {| cr_id := id; cr_user_id := uid; cr_kind := KPassword; cr_subject := subject; cr_secret := Some secret;
         cr_label := None; cr_metadata := of_string "{}"; cr_created_at := now; cr_last_used_at := None |} i) i d).

Definition with_last_used (now : Z) (c : CredentialRow) : CredentialRow :=
  {| cr_id := cr_id c; cr_user_id := cr_user_id c; cr_kind := cr_kind c; cr_subject := cr_subject c;
     cr_secret := cr_secret c; cr_label := cr_label c; cr_metadata := cr_metadata c;
     cr_created_at := cr_created_at c; cr_last_used_at := Some now |}.

Definition credentials_touch_last_used (id : Uuid) (now : Z) : ST Accounts DbError unit :=
  astmt (fun i d => (Ok tt, set_credentials (where_ (fun c => cr_id c =? id) (with_last_used now) (i_credentials i)) i, d)).

Definition with_metadata (metadata : str) (c : CredentialRow) : CredentialRow :=
  {| cr_id := cr_id c; cr_user_id := cr_user_id c; cr_kind := cr_kind c; cr_subject := cr_subject c;
     cr_secret := cr_secret c; cr_label := cr_label c; cr_metadata := metadata;
     cr_created_at := cr_created_at c; cr_last_used_at := cr_last_used_at c |}.

Definition credentials_update_metadata (id metadata : str) : ST Accounts DbError Z :=
  aupdate (fun i => (count (fun c => has_id id (cr_id c)) (i_credentials i),
    set_credentials (where_ (fun c => has_id id (cr_id c)) (with_metadata metadata) (i_credentials i)) i)).

Definition credentials_delete (id user : str) : ST Accounts DbError Z :=
  let f c := has_id id (cr_id c) && has_id user (cr_user_id c) in
  aupdate (fun i => (count f (i_credentials i), set_credentials (deleted f (i_credentials i)) i)).

Definition credentials_delete_by_kind (user : str) (kind : CredentialKind) : ST Accounts DbError Z :=
  let f c := has_id user (cr_user_id c) && bool_decide (cr_kind c = kind) in
  aupdate (fun i => (count f (i_credentials i), set_credentials (deleted f (i_credentials i)) i)).

Definition credentials_count_by_kind (user : str) (kind : CredentialKind) : ST Accounts DbError Z :=
  aselect (fun i => count (fun c => has_id user (cr_user_id c) && bool_decide (cr_kind c = kind)) (i_credentials i)).

(** ** [sqlite/user_enrolment.rs] *)

Definition enrolments_create (row : EnrolmentTokenRow) : ST Accounts DbError unit :=
  astmt (fun i d =>
    if existsb (fun e => (en_id e =? en_id row) || bool_decide (en_token_hash e = en_token_hash row)) (i_enrolments i)
    then (Err (OtherDbError unique_failed), i, d)
    else if negb (existsb (fun u => us_id u =? en_user_id row) (i_users i))
    then (Err (OtherDbError foreign_key_failed), i, d)
    else (Ok tt, set_enrolments (i_enrolments i ++ [row]) i, d)).

Definition redeemable (token_hash : str) (now : Z) (e : EnrolmentTokenRow) : bool :=
  bool_decide (en_token_hash e = token_hash) && (now <? en_expires_at e) && bool_decide (en_used_at e = None).

Definition enrolments_find_redeemable (token_hash : str) (now : Z) : ST Accounts DbError (option EnrolmentTokenRow) :=
  aselect (fun i => List.find (redeemable token_hash now) (i_enrolments i)).

Definition with_used (now : Z) (e : EnrolmentTokenRow) : EnrolmentTokenRow :=
  {| en_id := en_id e; en_user_id := en_user_id e; en_token_hash := en_token_hash e;
     en_created_at := en_created_at e; en_expires_at := en_expires_at e; en_used_at := Some now |}.

(** Compare and set. *)
Definition enrolments_mark_used (id : Uuid) (now : Z) : ST Accounts DbError Z :=
  let f e := (en_id e =? id) && bool_decide (en_used_at e = None) in
  aupdate (fun i => (count f (i_enrolments i), set_enrolments (where_ f (with_used now) (i_enrolments i)) i)).

Definition enrolments_list_for_user (user : str) : ST Accounts DbError (list EnrolmentTokenRow) :=
  aselect (fun i => sort_by (fun a b => en_created_at b ?= en_created_at a)
    (List.filter (fun e => has_id user (en_user_id e)) (i_enrolments i))).

Definition enrolments_delete (id : str) : ST Accounts DbError Z :=
  let f e := has_id id (en_id e) in
  aupdate (fun i => (count f (i_enrolments i), set_enrolments (deleted f (i_enrolments i)) i)).

Definition enrolments_delete_expired (now : Z) : ST Accounts DbError Z :=
  let f e := en_expires_at e <=? now in
  aupdate (fun i => (count f (i_enrolments i), set_enrolments (deleted f (i_enrolments i)) i)).

(** ** [sqlite/session.rs] *)

Definition sessions_create (row : SessionRow) : ST Accounts DbError unit :=
  astmt (fun i d =>
    if existsb (fun s => (se_id s =? se_id row) || bool_decide (se_token_hash s = se_token_hash row)) (i_sessions i)
    then (Err (OtherDbError unique_failed), i, d)
    else if negb (existsb (fun u => us_id u =? se_user_id row) (i_users i))
            || match se_device_id row with
               | Some v => negb (existsb (fun x => has_id v (dr_id x)) (t_devices d))
               | None => false
               end
    then (Err (OtherDbError foreign_key_failed), i, d)
    else (Ok tt, set_sessions (i_sessions i ++ [row]) i, d)).

(** Token, sliding expiry, ceiling; the user is joined. *)
Definition live_session (token_hash : str) (now : Z) (s : SessionRow) : bool :=
  bool_decide (se_token_hash s = token_hash) && (now <? se_expires_at s) && (now <? se_absolute_expires_at s).

Definition live_join (token_hash : str) (now : Z) (i : Identity) : option (SessionRow * UserRow) :=
  s ← List.find (live_session token_hash now) (i_sessions i);
  u ← user_of (se_user_id s) i;
  if us_enabled u then Some (s, u) else None.

Definition sessions_find_principal (token_hash : str) (now : Z) : ST Accounts DbError (option SessionPrincipal) :=
  aselect (fun i => (fun '(s, u) => {| sp_user_id := se_user_id s; sp_role := us_role u;
                                       sp_display_name := us_display_name u |}) <$> live_join token_hash now i).

Definition sessions_find_for_refresh (token_hash : str) (now : Z) : ST Accounts DbError (option SessionForRefresh) :=
  aselect (fun i => (fun '(s, _) => {| sr_user_id := se_user_id s; sr_remember_me := se_remember_me s;
                                       sr_created_at := se_created_at s;
                                       sr_absolute_expires_at := se_absolute_expires_at s |})
                    <$> live_join token_hash now i).

Definition sessions_delete_where (f : SessionRow -> bool) : ST Accounts DbError Z :=
  aupdate (fun i => (count f (i_sessions i), set_sessions (deleted f (i_sessions i)) i)).

Definition sessions_delete_expired (now : Z) : ST Accounts DbError Z := sessions_delete_where (fun s => se_expires_at s <=? now).
Definition sessions_delete_by_token_hash (token_hash : str) : ST Accounts DbError Z :=
  sessions_delete_where (fun s => bool_decide (se_token_hash s = token_hash)).
Definition sessions_delete_by_id (id user : str) : ST Accounts DbError Z :=
  sessions_delete_where (fun s => has_id id (se_id s) && has_id user (se_user_id s)).
Definition sessions_delete_all_for_user (user : str) : ST Accounts DbError Z :=
  sessions_delete_where (fun s => has_id user (se_user_id s)).

Definition sessions_list_for_user (user : str) (now : Z) : ST Accounts DbError (list SessionRow) :=
  aselect (fun i => sort_by (fun a b => se_created_at b ?= se_created_at a)
    (List.filter (fun s => has_id user (se_user_id s) && (now <? se_expires_at s) && (now <? se_absolute_expires_at s))
       (i_sessions i))).

Definition with_token (token_hash : str) (expires_at : Z) (s : SessionRow) : SessionRow :=
  {| se_id := se_id s; se_user_id := se_user_id s; se_token_hash := token_hash; se_created_at := se_created_at s;
     se_expires_at := expires_at; se_remember_me := se_remember_me s; se_device_id := se_device_id s;
     se_user_agent := se_user_agent s; se_absolute_expires_at := se_absolute_expires_at s |}.

Definition sessions_rotate_token (old_hash new_hash : str) (expires_at : Z) : ST Accounts DbError unit :=
  astmt (fun i d =>
    let f s := bool_decide (se_token_hash s = old_hash) in
    if existsb f (i_sessions i)
       && existsb (fun s => negb (f s) && bool_decide (se_token_hash s = new_hash)) (i_sessions i)
    then (Err (OtherDbError unique_failed), i, d)
    else (Ok tt, set_sessions (where_ f (with_token new_hash expires_at) (i_sessions i)) i, d)).

(** ** [sqlite/api_key.rs] *)

Definition api_keys_find_all_hashes : ST Accounts DbError (list (Uuid * str)) :=
  aselect (fun i => (fun k => (ak_id k, ak_key_hash k)) <$> i_api_keys i).

Definition api_keys_create (row : ApiKeyRow) : ST Accounts DbError unit :=
  astmt (fun i d =>
    if existsb (fun k => ak_id k =? ak_id row) (i_api_keys i) then (Err (OtherDbError unique_failed), i, d)
    else (Ok tt, set_api_keys (i_api_keys i ++ [row]) i, d)).

Definition key_used (now : Z) (k : ApiKeyRow) : ApiKeyRow :=
  {| ak_id := ak_id k; ak_label := ak_label k; ak_key_hash := ak_key_hash k; ak_created_at := ak_created_at k;
     ak_last_used_at := Some now |}.

Definition api_keys_update_last_used (id : Uuid) (now : Z) : ST Accounts DbError unit :=
  astmt (fun i d => (Ok tt, set_api_keys (where_ (fun k => ak_id k =? id) (key_used now) (i_api_keys i)) i, d)).

(** The settings table. *)
Definition on_settings {X} (m : ST Policy str X) : ST Accounts DbError X := fun w =>
  let '(r, p) := m (ac_policy w) in
  (match r with Ok a => Ok a | Err e => Err (OtherDbError e) end, set_ac_db p (ac_tables w) w).

Definition cfg_delete (key : str) : ST Policy str unit :=
  execute (fun d => set_config (delete key (t_config d)) d).

End accounts.
Arguments Accounts : clear implicits.
