(* ===== verification/AccountService.v ===== *)
(** * Signing in and the household directory

    [wardnetd-services/src/auth/service.rs] and [auth/password.rs],
    [user/service.rs] and the configuration part of [user/oauth.rs], and
    [wardnetd-data/src/bootstrap.rs]: every method and helper.

    Password hashing (argon2), token hashing (sha2), PKCE, URL building, the secret
    store and the provider's answers are an environment; fresh ids, tokens, salts
    and ceremony states are arguments.  [to_lowercase] is its ASCII part, configured
    session lifetimes are taken to be within what a [Duration] holds. *)

From S2P Require Import Prelude RustStr Net Auth PolicyRouter RoutingTypes ZoneTypes PolicyDb LoginLimiter AccountDb.

(** ** What the services look up elsewhere *)

(** Everything one authorization-code exchange needs; the endpoints are those of
    the provider. *)
Record OauthExchange : Type := {
  ox_provider : OauthProvider;
  ox_client_id : str;
  ox_client_secret : str;
  ox_redirect_uri : str;
  ox_code : str;
  ox_pkce_verifier : str;
}.

Record ProviderIdentity : Type := { pi_subject : str; pi_email : option str; pi_label : option str }.

(** [argon2_verify] is [None] for a text that is not a PHC string. *)
Class AccountEnv (N : Type) : Type := {
  sha256_hex : str -> str;
  pkce_challenge : str -> str;
  argon2_hash : str -> str -> result str str;
  argon2_verify : str -> str -> option bool;
  build_url : str -> list (str * str) -> result str str;
  secret_get : str -> ST N str (option str);
  secret_put : str -> str -> ST N str unit;
  secret_delete : str -> ST N str unit;
  exchange_and_identify : OauthExchange -> ST N AppError ProviderIdentity;
  utc : N -> Z;
  instant : N -> Z;
}.

(** ** Text *)

(** [s.chars().count()]: bytes that do not continue a character. *)
Definition char_count (s : str) : Z := Z.of_nat (length (List.filter (fun c => negb (in_range 128 191 c)) s)).

(** [String::from_utf8]: [pending] continuation bytes are due, the first of them
    between [lo] and [hi]. *)
Fixpoint utf8_from (pending : nat) (lo hi : Z) (s : str) : bool :=
  match s, pending with
  | [], O => true
  | [], S _ => false
  | c :: rest, S k => in_range lo hi c && utf8_from k 128 191 rest
  | c :: rest, O =>
      if in_range 0 127 c then utf8_from 0 128 191 rest
      else if in_range 194 223 c then utf8_from 1 128 191 rest
      else if in_range 224 224 c then utf8_from 2 160 191 rest
      else if in_range 225 236 c || in_range 238 239 c then utf8_from 2 128 191 rest
      else if in_range 237 237 c then utf8_from 2 128 159 rest
      else if in_range 240 240 c then utf8_from 3 144 191 rest
      else if in_range 241 243 c then utf8_from 3 128 191 rest
      else if in_range 244 244 c then utf8_from 3 128 143 rest
      else false
  end.

Definition is_utf8 (s : str) : bool := utf8_from 0 128 191 s.

Definition show_u64 (n : Z) : str := show_digits 20 n.

(** ** The setup wizard ([wardnet-common/src/api.rs]) *)

Inductive WizardStep : Type :=
| WAdmin | WNetwork | WDhcp | WRouterMac | WDns | WTunnel | WPolicy | WRemoteAccess | WReview | WCompleted.

#[export] Instance WizardStep_eq_dec : EqDecision WizardStep.
Proof. solve_decision. Defined.

Inductive WizardMode : Type := Primary | LockedRouter.

Definition step_as_storage_str (s : WizardStep) : str :=
  of_string match s with
            | WAdmin => "admin" | WNetwork => "network" | WDhcp => "dhcp" | WRouterMac => "router_mac"
            | WDns => "dns" | WTunnel => "tunnel" | WPolicy => "policy" | WRemoteAccess => "remote_access"
            | WReview => "review" | WCompleted => "completed"
            end.

Definition step_from_storage_str (s : str) : WizardStep :=
  if bool_decide (s = of_string "network") then WNetwork
  else if bool_decide (s = of_string "dhcp") then WDhcp
  else if bool_decide (s = of_string "router_mac") then WRouterMac
  else if bool_decide (s = of_string "dns") then WDns
  else if bool_decide (s = of_string "tunnel") then WTunnel
  else if bool_decide (s = of_string "policy") then WPolicy
  else if bool_decide (s = of_string "remote_access") then WRemoteAccess
  else if bool_decide (s = of_string "review") then WReview
  else if bool_decide (s = of_string "completed") then WCompleted
  else WAdmin.

Definition ordinal (s : WizardStep) : Z :=
  match s with
  | WAdmin => 0 | WNetwork => 1 | WDhcp => 2 | WRouterMac => 3 | WDns => 4 | WTunnel => 5 | WPolicy => 6
  | WRemoteAccess => 7 | WReview => 8 | WCompleted => 9
  end.

Definition mode_as_storage_str (m : WizardMode) : str :=
  of_string match m with Primary => "primary" | LockedRouter => "locked_router" end.

Definition mode_from_storage_str (s : str) : option WizardMode :=
  if bool_decide (s = of_string "primary") then Some Primary
  else if bool_decide (s = of_string "locked_router") then Some LockedRouter
  else None.

Record WizardState : Type := { wz_step : WizardStep; wz_mode : option WizardMode }.

Definition setup_completed (s : WizardState) : bool := bool_decide (wz_step s = WCompleted).

(** ** Values *)

Record LoginResult : Type := { lr_token : str; lr_max_age_seconds : Z }.

Record LoginAttempt : Type := {
  la_subject : str;
  la_password : str;
  la_remember_me : bool;
  la_client_ip : option str;
  la_user_agent : option str;
  la_device_id : option str;
}.

Record CurrentUser : Type := {
  cu_user_id : Uuid;
  cu_display_name : str;
  cu_email : option str;
  cu_role : UserRole;
}.

Record NewUser : Type := { nu_display_name : str; nu_email : option str; nu_role : UserRole }.

Record EnrolmentInvite : Type := { ei_token : str; ei_expires_at : Z; ei_user_id : Uuid }.

Record ProviderStatus : Type := {
  ps_provider : OauthProvider;
  ps_enabled : bool;
  ps_configured : bool;
  ps_redirect_uri : option str;
}.

Record AuthMethods : Type := { am_password : bool; am_providers : list ProviderStatus }.

(** ** [user/oauth.rs] *)

Definition provider_as_str (p : OauthProvider) : str :=
  of_string match p with Google => "google" | Github => "github" end.
Definition provider_parse (raw : str) : option OauthProvider :=
  if bool_decide (raw = of_string "google") then Some Google
  else if bool_decide (raw = of_string "github") then Some Github
  else None.
Definition credential_kind (p : OauthProvider) : CredentialKind := match p with Google => KGoogle | Github => KGithub end.
Definition client_id_key (p : OauthProvider) : str := "identity_oauth_" ++ provider_as_str p ++ "_client_id".
Definition enabled_key (p : OauthProvider) : str := "identity_oauth_" ++ provider_as_str p ++ "_enabled".
Definition secret_path (p : OauthProvider) : str := "identity/oauth/" ++ provider_as_str p ++ "/client_secret".
Definition redirect_uri (p : OauthProvider) (canonical_fqdn : str) : str :=
  "https://" ++ canonical_fqdn ++ "/api/auth/oauth/" ++ provider_as_str p ++ "/callback".
(** [ProviderEndpoints::production] *)
Definition authorize_url (p : OauthProvider) : str :=
  of_string match p with
            | Google => "https://accounts.google.com/o/oauth2/v2/auth"
            | Github => "https://github.com/login/oauth/authorize"
            end.
Definition scopes (p : OauthProvider) : str :=
  of_string match p with Google => "openid email" | Github => "read:user user:email" end.

Definition KEY_PROVIDER : str := of_string "ddns_provider".
Definition KEY_SUBDOMAIN : str := of_string "ddns_subdomain".
Definition KEY_DOMAIN : str := of_string "ddns_domain".

Definition HOUR : Z := 3600 * SECOND.
Definition ENROLMENT_TTL_HOURS : Z := 72.
Definition MAX_SESSION_DAYS : Z := 90.
Definition MIN_PASSWORD_LENGTH : Z := 8.

Section accounts.
Context {N : Type} {AE : AccountEnv N} {U : UuidText}.

Abbreviation M := (ST (Accounts N) AppError).

(** [.map_err(AppError::Internal)] *)
Definition db {A} (m : ST (Accounts N) DbError A) : M A := fun w =>
  match m w with
  | (Ok a, w') => (Ok a, w')
  | (Err e, w') => (Err (Internal (db_error_text e)), w')
  end.

(** The outcome of a computation whose error is handled here. *)
Definition outcome {A E E'} (m : ST (Accounts N) E A) : ST (Accounts N) E' (result A E) := fun w =>
  let '(r, w') := m w in (Ok r, w').

(** A call of the environment. *)
Definition ext {A} (m : ST N AppError A) : M A := fun w => let '(r, n) := m (ac_env w) in (r, set_ac_env n w).
Definition secret {A} (m : ST N str A) : M A := fun w =>
  let '(r, n) := m (ac_env w) in
  (match r with Ok a => Ok a | Err e => Err (Internal e) end, set_ac_env n w).

Definition utc_clock : M Z := st_gets (fun w => utc (ac_env w)).

Definition settings {A} (m : ST Policy str A) : M A := db (on_settings m).

(** ** [auth/password.rs] *)

Definition hash_token (token : str) : str := sha256_hex token.

Definition hash_password (salt password : str) : result str AppError :=
  match argon2_hash password salt with
  | Ok h => Ok h
  | Err e => Err (Internal ("failed to hash password: " ++ e))
  end.

Definition verify_password (password stored_hash : str) : result unit AppError :=
  match argon2_verify password stored_hash with
  | None => Err (Internal (of_string "invalid stored hash"))
  | Some true => Ok tt
  | Some false => Err (Unauthorized (of_string "invalid credentials"))
  end.

Definition validate_password (password : str) : result unit AppError :=
  if len password <? MIN_PASSWORD_LENGTH
  then Err (BadRequest (of_string "password must be at least 8 characters")) else Ok tt.

(** ** [auth/service.rs] *)

Context (session_expiry_hours remember_me_expiry_hours : Z).

Definition I64_MAX_HOURS : Z := 9223372036854775807.
Definition expiry_hours_i64 (hours : Z) : Z := Z.min hours I64_MAX_HOURS.

Definition context_user_id (ctx : option AuthContext) : result Uuid AppError :=
  match default Anonymous ctx with
  | User u => Ok (user_id u)
  | Auth.Device _ | Anonymous => Err (Forbidden (of_string "must be authenticated as a household user"))
  end.

Definition no_secret (id : Uuid) : AppError :=
  Internal ("password credential " ++ uuid_to_string id ++ " has no secret").

Definition throttled (wait : Z) : AppError :=
  TooManyRequests ("too many login attempts; retry in " ++ show_u64 wait ++ "s") wait.

(** [record_failure] and [record_success] on the service's limiter. *)
Definition note_failure (rq : LoginAttempt) : M unit :=
  st_modify (fun w => set_limiter (record_failure (ac_limiter w) (la_subject rq) (la_client_ip rq) (instant (ac_env w))) w).
Definition note_success (rq : LoginAttempt) : M unit :=
  st_modify (fun w => set_limiter (record_success (ac_limiter w) (la_subject rq) (la_client_ip rq)) w).

(** The credentials are right. *)
Definition open_session (session_id : Uuid) (token : str) (rq : LoginAttempt) (c : CredentialRow) : M LoginResult :=
  now ← utc_clock;
  let expiry_hours := if la_remember_me rq then remember_me_expiry_hours else session_expiry_hours in
  _ ← db (sessions_create
    {| se_id := session_id; se_user_id := cr_user_id c; se_token_hash := hash_token token; se_created_at := now;
       se_expires_at := now + expiry_hours_i64 expiry_hours * HOUR; se_remember_me := la_remember_me rq;
       se_device_id := la_device_id rq; se_user_agent := la_user_agent rq;
       se_absolute_expires_at := now + MAX_SESSION_DAYS * 24 * HOUR |});
  _ ← outcome (credentials_touch_last_used (cr_id c) now);
  mret {| lr_token := token; lr_max_age_seconds := expiry_hours * 3600 |}.

Definition login (session_id : Uuid) (token : str) (rq : LoginAttempt) : M LoginResult :=
  wait ← st_gets (fun w => limiter_check (ac_limiter w) (la_subject rq) (la_client_ip rq) (instant (ac_env w)));
  match wait with
  | Some d => st_fail (throttled (Z.max (d / SECOND) 1))
  | None =>
      let subject := to_lowercase (trim (la_subject rq)) in
      found ← db (credentials_find_for_login KPassword subject);
      match found with
      | None => _ ← note_failure rq; st_fail (Unauthorized (of_string "invalid credentials"))
      | Some l =>
          secret ← st_lift (ok_or (cr_secret (cl_credential l)) (no_secret (cr_id (cl_credential l))));
          match verify_password (la_password rq) secret with
          | Err e => _ ← note_failure rq; st_fail e
          | Ok _ => _ ← note_success rq; open_session session_id token rq (cl_credential l)
          end
      end
  end.

Definition refresh_session (ctx : option AuthContext) (new_token token : str) : M LoginResult :=
  _ ← st_lift (require_authenticated ctx);
  ctx_user ← st_lift (context_user_id ctx);
  let token_hash := hash_token token in
  now ← utc_clock;
  session ← db (sessions_find_for_refresh token_hash now);
  session ← st_lift (ok_or session (Unauthorized (of_string "session not found or expired")));
  if negb (sr_user_id session =? ctx_user)
  then st_fail (Forbidden (of_string "session does not belong to this user"))
  else if negb (sr_remember_me session)
  then st_fail (Forbidden (of_string "session was not created with remember_me - refresh not permitted"))
  else if sr_absolute_expires_at session <=? now
  then st_fail (Unauthorized (of_string "session has exceeded maximum lifetime - please log in again"))
  else
    let slid_expiry := now + expiry_hours_i64 remember_me_expiry_hours * HOUR in
    _ ← db (sessions_rotate_token token_hash (hash_token new_token)
              (Z.min slid_expiry (sr_absolute_expires_at session)));
    mret {| lr_token := new_token; lr_max_age_seconds := remember_me_expiry_hours * 3600 |}.

Definition logout_session (ctx : option AuthContext) (token : str) : M unit :=
  _ ← st_lift (require_authenticated ctx);
  _ ← db (sessions_delete_by_token_hash (hash_token token));
  mret tt.

Definition validate_session (token : str) : M (option AuthenticatedUser) :=
  now ← utc_clock;
  p ← db (sessions_find_principal (hash_token token) now);
  mret ((fun p => from_validated_session (sp_user_id p) (sp_role p)) <$> p).

Definition cleanup_expired_sessions (ctx : option AuthContext) : M Z :=
  _ ← st_lift (require_admin ctx);
  now ← utc_clock;
  db (sessions_delete_expired now).

(** The first key that matches decides. *)
Fixpoint try_keys (key : str) (l : list (Uuid * str)) : M (option AuthenticatedUser) :=
  match l with
  | [] => mret None
  | (id, key_hash) :: l =>
      match argon2_verify key key_hash with
      | Some true =>
          now ← utc_clock;
          _ ← outcome (E' := AppError) (api_keys_update_last_used id now);
          admin ← db users_find_first_enabled_admin;
          mret ((fun u => from_validated_session (us_id u) (us_role u)) <$> admin)
      | Some false | None => try_keys key l
      end
  end.

Definition validate_api_key (key : str) : M (option AuthenticatedUser) :=
  all_keys ← db api_keys_find_all_hashes;
  try_keys key all_keys.

Definition admin_row (id : Uuid) (username : str) (now : Z) : UserRow :=
  {| us_id := id; us_display_name := username; us_email := None; us_role := Admin; us_enabled := true;
     us_created_at := now; us_updated_at := now |}.

(** The user, then the credential; a failure of the second takes the first back. *)
Definition create_admin (id cred_id : Uuid) (username password_hash : str) (now : Z) : M unit :=
  _ ← db (users_create (admin_row id username now));
  r ← outcome (credentials_set_password cred_id id (to_lowercase username) password_hash now);
  match r with
  | Ok _ => mret tt
  | Err e =>
      _ ← outcome (E' := AppError) (users_delete (uuid_to_string id));
      st_fail (Internal (db_error_text e))
  end.

Definition valid_username (username : str) : bool :=
  negb ((len username <? 3) || (32 <? len username) || negb (forallb is_ascii_alphanumeric username)).

Definition setup_admin (id cred_id : Uuid) (salt username password : str) : M unit :=
  exists_ ← db users_exists;
  if exists_ : bool then st_fail (Conflict (of_string "setup already completed"))
  else if negb (valid_username username)
  then st_fail (BadRequest (of_string "username must be 3-32 alphanumeric characters"))
  else
    _ ← st_lift (validate_password password);
    password_hash ← st_lift (hash_password salt password);
    now ← utc_clock;
    _ ← create_admin id cred_id username password_hash now;
    current ← settings (cfg_get (of_string "wizard_step"));
    if bool_decide (current = Some (step_as_storage_str WAdmin)) || bool_decide (current = None)
    then settings (cfg_set (of_string "wizard_step") (step_as_storage_str WNetwork)) else mret tt.

Definition wizard_state : M WizardState :=
  step ← settings (cfg_get (of_string "wizard_step"));
  mode ← settings (cfg_get (of_string "wizard_mode"));
  mret {| wz_step := match step with Some s => step_from_storage_str s | None => WAdmin end;
          wz_mode := mode ≫= mode_from_storage_str |}.

Definition is_setup_completed : M bool := s ← wizard_state; mret (setup_completed s).

Definition current_user (ctx : option AuthContext) : M CurrentUser :=
  _ ← st_lift (require_authenticated ctx);
  uid ← st_lift (context_user_id ctx);
  row ← db (users_find_by_id (uuid_to_string uid));
  row ← st_lift (ok_or row (Unauthorized (of_string "user account no longer exists")));
  mret {| cu_user_id := uid; cu_display_name := us_display_name row; cu_email := us_email row; cu_role := us_role row |}.

Definition advance_wizard (ctx : option AuthContext) (to_step : WizardStep) (mode : option WizardMode) : M WizardState :=
  _ ← st_lift (require_admin ctx);
  current ← wizard_state;
  if bool_decide (wz_step current = WCompleted) && negb (bool_decide (to_step = WCompleted))
  then st_fail (BadRequest (of_string "wizard is completed; cannot rewind"))
  else if (ordinal to_step <? ordinal (wz_step current)) && bool_decide (to_step = WAdmin)
  then st_fail (BadRequest ("wizard cannot rewind from " ++ step_as_storage_str (wz_step current) ++ " to admin"))
  else
    _ ← (if bool_decide (to_step = WCompleted)
         then user_exists ← db users_exists;
              if user_exists : bool then mret tt
              else st_fail (BadRequest (of_string "cannot complete wizard before an admin is created"))
         else mret tt);
    let new_mode := match mode with Some m => Some m | None => wz_mode current end in
    _ ← settings (cfg_set (of_string "wizard_step") (step_as_storage_str to_step));
    _ ← match new_mode with
        | Some m => settings (cfg_set (of_string "wizard_mode") (mode_as_storage_str m))
        | None => mret tt
        end;
    mret {| wz_step := to_step; wz_mode := new_mode |}.

(** [bootstrap_admin], at start; its errors are not shown to a caller. *)
Definition bootstrap_admin (id cred_id : Uuid) (salt : str) (credentials : option (str * str)) : M unit :=
  exists_ ← db users_exists;
  if exists_ : bool then mret tt
  else match credentials with
       | None => mret tt
       | Some (username, password) =>
           password_hash ← st_lift (hash_password salt password);
           now ← utc_clock;
           create_admin id cred_id username password_hash now
       end.

Definition bootstrap_system_config (config_default_policy : str) : M unit :=
  policy ← settings cfg_get_default_policy;
  _ ← match policy with
      | None => settings (cfg_set (of_string "default_policy") config_default_policy)
      | Some _ => mret tt
      end;
  step ← settings (cfg_get (of_string "wizard_step"));
  match step with
  | Some _ => mret tt
  | None =>
      done ← settings (cfg_get (of_string "setup_completed"));
      settings (cfg_set (of_string "wizard_step")
        (of_string (if bool_decide (done = Some (of_string "true")) then "completed" else "admin")))
  end.

End accounts.
