(* ===== verification/UserService.v ===== *)
(** * The household user directory

    [wardnetd-services/src/user/service.rs]: every method of the trait and its
    helpers.  Fresh ids, tokens, salts and ceremony states are arguments. *)

From S2P Require Import Prelude RustStr Net Auth PolicyRouter RoutingTypes ZoneTypes PolicyDb LoginLimiter.
From S2P Require Import AccountDb AccountService.

Section directory.
Context {N : Type} {AE : AccountEnv N} {U : UuidText}.

Abbreviation M := (ST (Accounts N) AppError).

(** ** Helpers *)

Definition require_admin_or_self (ctx : option AuthContext) (uid : Uuid) : result unit AppError :=
  match require_authenticated ctx with
  | Err e => Err e
  | Ok _ => match context_user_id ctx with
            | Err e => Err e
            | Ok me => if me =? uid then Ok tt else require_admin ctx
            end
  end.

(** [map_write_error] *)
Definition write {A} (m : ST (Accounts N) DbError A) : M A := fun w =>
  match m w with
  | (Ok a, w') => (Ok a, w')
  | (Err DuplicateUserEmailError, w') => (Err (Conflict (of_string "a household user with that email already exists")), w')
  | (Err e, w') => (Err (Internal (db_error_text e)), w')
  end.

(** A credential written: a taken subject is a conflict. *)
Definition link {A} (taken : string) (m : ST (Accounts N) DbError A) : M A := fun w =>
  match m w with
  | (Ok a, w') => (Ok a, w')
  | (Err CredentialAlreadyLinkedError, w') => (Err (Conflict (of_string taken)), w')
  | (Err e, w') => (Err (Internal (db_error_text e)), w')
  end.

Definition validate_display_name (display_name : str) : result unit AppError :=
  let trimmed := trim display_name in
  if bool_decide (trimmed = []) || (64 <? char_count trimmed)
  then Err (BadRequest (of_string "display name must be 1-64 characters")) else Ok tt.

Definition validate_email (email : option str) : result (option str) AppError :=
  match email with
  | None => Ok None
  | Some email =>
      let trimmed := trim email in
      if bool_decide (trimmed = []) then Ok None
      else
        let '(local, domain) := default (trimmed, []) (split_once "@" trimmed) in
        if bool_decide (local = []) || bool_decide (domain = []) || negb (contains "." domain)
        then Err (BadRequest (of_string "email address is not valid"))
        else Ok (Some (to_lowercase trimmed))
  end.

Definition load (uid : Uuid) : M UserRow :=
  u ← db (users_find_by_id (uuid_to_string uid));
  st_lift (ok_or u (NotFound (of_string "household user not found"))).

Definition guard_last_admin (target : UserRow) (action : str) : M unit :=
  if negb (enabled_admin target) then mret tt
  else
    enabled_admins ← db users_count_enabled_admins;
    if enabled_admins <=? 1
    then st_fail (Conflict ("cannot " ++ action ++ " the last enabled admin; promote another user first"))
    else mret tt.

(** ** The directory *)

Definition list_users (ctx : option AuthContext) : M (list UserRow) :=
  _ ← st_lift (require_admin ctx); db users_find_all.

Definition get_user (ctx : option AuthContext) (uid : Uuid) : M UserRow :=
  _ ← st_lift (require_admin_or_self ctx uid); load uid.

Definition create_user (ctx : option AuthContext) (id : Uuid) (new_user : NewUser) : M UserRow :=
  _ ← st_lift (require_admin ctx);
  _ ← st_lift (validate_display_name (nu_display_name new_user));
  email ← st_lift (validate_email (nu_email new_user));
  now ← utc_clock;
  let row := {| us_id := id; us_display_name := trim (nu_display_name new_user); us_email := email;
                us_role := nu_role new_user; us_enabled := true; us_created_at := now; us_updated_at := now |} in
  _ ← write (users_create row);
  mret row.

(** The login name that goes with an email. *)
Definition login_subject (uid : Uuid) (email : option str) : str := to_lowercase (default (uuid_to_string uid) email).

(** The password credential follows the email, and is written first. *)
Definition move_login (uid : Uuid) (email : option str) (now : Z) : M unit :=
  existing ← db (credentials_find_password (uuid_to_string uid));
  match existing with
  | None => mret tt
  | Some c =>
      let new_subject := login_subject uid email in
      if bool_decide (new_subject = cr_subject c) then mret tt
      else
        secret ← st_lift (ok_or (cr_secret c) (no_secret (cr_id c)));
        link "another account already signs in with that email address"
          (credentials_set_password (cr_id c) uid new_subject secret now)
  end.

Definition update_profile (ctx : option AuthContext) (uid : Uuid) (display_name : str) (email : option str) : M UserRow :=
  _ ← st_lift (require_admin_or_self ctx uid);
  _ ← st_lift (validate_display_name display_name);
  email ← st_lift (validate_email email);
  now ← utc_clock;
  _ ← move_login uid email now;
  affected ← write (users_update_profile (uuid_to_string uid) (trim display_name) email now);
  if affected =? 0 then st_fail (NotFound (of_string "household user not found")) else load uid.

Definition set_enabled (ctx : option AuthContext) (uid : Uuid) (enabled : bool) : M UserRow :=
  _ ← st_lift (require_admin ctx);
  target ← load uid;
  _ ← (if enabled then mret tt else guard_last_admin target (of_string "disable"));
  now ← utc_clock;
  _ ← db (users_set_enabled (uuid_to_string uid) enabled now);
  _ ← (if enabled then mret 0 else db (sessions_delete_all_for_user (uuid_to_string uid)));
  load uid.

Definition set_role (ctx : option AuthContext) (uid : Uuid) (role : UserRole) : M UserRow :=
  _ ← st_lift (require_admin ctx);
  target ← load uid;
  _ ← (if bool_decide (role = Admin) then mret tt else guard_last_admin target (of_string "demote"));
  now ← utc_clock;
  _ ← db (users_set_role (uuid_to_string uid) role now);
  load uid.

Definition delete_user (ctx : option AuthContext) (uid : Uuid) : M unit :=
  _ ← st_lift (require_admin ctx);
  target ← load uid;
  _ ← guard_last_admin target (of_string "delete");
  _ ← db (users_delete (uuid_to_string uid));
  mret tt.

Definition list_credentials (ctx : option AuthContext) (uid : Uuid) : M (list CredentialSummary) :=
  _ ← st_lift (require_admin_or_self ctx uid); db (credentials_list_for_user (uuid_to_string uid)).

Definition change_own_password (ctx : option AuthContext) (salt current_password new_password : str) : M unit :=
  _ ← st_lift (require_authenticated ctx);
  uid ← st_lift (context_user_id ctx);
  _ ← st_lift (validate_password new_password);
  existing ← db (credentials_find_password (uuid_to_string uid));
  c ← st_lift (ok_or existing (Conflict (of_string
        "this account has no password to change; redeem an enrolment invitation")));
  secret ← st_lift (ok_or (cr_secret c) (no_secret (cr_id c)));
  _ ← st_lift (verify_password current_password secret);
  now ← utc_clock;
  hash ← st_lift (hash_password salt new_password);
  _ ← db (credentials_set_password (cr_id c) uid (cr_subject c) hash now);
  _ ← db (sessions_delete_all_for_user (uuid_to_string uid));
  mret tt.

(** ** Enrolment *)

Definition issue_enrolment (ctx : option AuthContext) (id : Uuid) (token : str) (uid : Uuid) : M EnrolmentInvite :=
  _ ← st_lift (require_admin ctx);
  target ← load uid;
  if negb (us_enabled target)
  then st_fail (Conflict (of_string "cannot enrol a disabled user; enable the account first"))
  else
    existing ← db (credentials_find_password (uuid_to_string (us_id target)));
    match existing with
    | Some _ => st_fail (Conflict (of_string
        "that account already has a password; enrolment sets a first credential and never replaces one"))
    | None =>
        now ← utc_clock;
        let expires_at := now + ENROLMENT_TTL_HOURS * HOUR in
        _ ← db (enrolments_create {| en_id := id; en_user_id := uid; en_token_hash := hash_token token;
                                     en_created_at := now; en_expires_at := expires_at; en_used_at := None |});
        mret {| ei_token := token; ei_expires_at := expires_at; ei_user_id := uid |}
    end.

Definition list_enrolments (ctx : option AuthContext) (uid : Uuid) : M (list EnrolmentTokenRow) :=
  _ ← st_lift (require_admin ctx); db (enrolments_list_for_user (uuid_to_string uid)).

Definition revoke_enrolment (ctx : option AuthContext) (enrolment_id : Uuid) : M unit :=
  _ ← st_lift (require_admin ctx);
  removed ← db (enrolments_delete (uuid_to_string enrolment_id));
  if removed =? 0 then st_fail (NotFound (of_string "enrolment not found")) else mret tt.

Definition invalid_invitation : AppError := Unauthorized (of_string "that invitation is not valid").

Definition redeem_enrolment (cred_id : Uuid) (salt token password : str) : M UserRow :=
  _ ← st_lift (validate_password password);
  now ← utc_clock;
  row ← db (enrolments_find_redeemable (hash_token token) now);
  row ← st_lift (ok_or row invalid_invitation);
  user ← load (en_user_id row);
  if negb (us_enabled user) then st_fail (Forbidden (of_string "this account is disabled"))
  else
    existing ← db (credentials_find_password (uuid_to_string (us_id user)));
    match existing with
    | Some _ => st_fail (Conflict (of_string
        "this account already has a password; use the change-password flow instead"))
    | None =>
        let subject := login_subject (us_id user) (us_email user) in
        secret ← st_lift (hash_password salt password);
        claimed ← db (enrolments_mark_used (en_id row) now);
        if claimed =? 0 then st_fail invalid_invitation
        else
          _ ← link "another account already signs in with that email address"
                (credentials_set_password cred_id (us_id user) subject secret now);
          mret user
    end.

Definition cleanup_expired_enrolments (ctx : option AuthContext) : M Z :=
  _ ← st_lift (require_admin ctx);
  now ← utc_clock;
  db (enrolments_delete_expired now).

(** ** Providers *)

Definition canonical_fqdn : M (option str) :=
  provider ← settings (cfg_get KEY_PROVIDER);
  if bool_decide (provider = Some (of_string "wardnet")) then settings (cfg_get KEY_SUBDOMAIN)
  else if bool_decide (provider = Some (of_string "cloudflare")) then settings (cfg_get KEY_DOMAIN)
  else mret None.

Definition client_id (p : OauthProvider) : M (option str) := settings (cfg_get (client_id_key p)).

Definition client_secret (p : OauthProvider) : M (option str) :=
  raw ← secret (secret_get (secret_path p));
  match raw with
  | Some bytes => if is_utf8 bytes then mret (Some bytes)
                  else st_fail (Internal (of_string "stored client secret is not valid UTF-8"))
  | None => mret None
  end.

Definition provider_enabled (p : OauthProvider) : M bool :=
  v ← settings (cfg_get (enabled_key p));
  mret (bool_decide (v = Some (of_string "true"))).

Definition is_some {A} (o : option A) : bool := match o with Some _ => true | None => false end.

Definition provider_status (p : OauthProvider) : M ProviderStatus :=
  fqdn ← canonical_fqdn;
  id ← client_id p;
  configured ← client_secret p;
  flag ← provider_enabled p;
  mret {| ps_provider := p; ps_enabled := flag && is_some id && is_some configured && is_some fqdn;
          ps_configured := is_some configured; ps_redirect_uri := redirect_uri p <$> fqdn |}.

Definition available_methods : M AuthMethods :=
  google ← provider_status Google;
  github ← provider_status Github;
  mret {| am_password := true; am_providers := [google; github] |}.

Definition configure_oauth_provider (ctx : option AuthContext) (p : OauthProvider) (id : str) (sec : option str)
    (enabled : bool) : M ProviderStatus :=
  _ ← st_lift (require_admin ctx);
  let id := trim id in
  if bool_decide (id = []) then st_fail (BadRequest (of_string "client id must not be empty"))
  else
    _ ← settings (cfg_set (client_id_key p) id);
    _ ← match sec with
        | None => mret tt
        | Some s =>
            if bool_decide (trim s = [])
            then st_fail (BadRequest (of_string "client secret must not be empty; use the clear action to remove it"))
            else secret (secret_put (secret_path p) (trim s))
        end;
    _ ← settings (cfg_set (enabled_key p) (of_string (if enabled then "true" else "false")));
    provider_status p.

Definition clear_oauth_provider (ctx : option AuthContext) (p : OauthProvider) : M unit :=
  _ ← st_lift (require_admin ctx);
  _ ← settings (cfg_delete (client_id_key p));
  _ ← settings (cfg_set (enabled_key p) (of_string "false"));
  secret (secret_delete (secret_path p)).

Definition not_configured (p : OauthProvider) : AppError :=
  Conflict (provider_as_str p ++ " sign-in is not configured on this box").

Definition provider_ready (p : OauthProvider) : M (str * str * str) :=
  status ← provider_status p;
  match ps_redirect_uri status with
  | None => st_fail (if ps_configured status
                     then Conflict (of_string
        "this box has no canonical public hostname, so federated sign-in cannot work; set up remote access first")
                     else not_configured p)
  | Some uri =>
      if negb (ps_enabled status) then st_fail (not_configured p)
      else
        id ← client_id p;
        id ← st_lift (ok_or id (Conflict (of_string "no client id configured")));
        sec ← client_secret p;
        sec ← st_lift (ok_or sec (Conflict (of_string "no client secret configured")));
        mret (id, sec, uri)
  end.

(** [pending_oauth.insert] and [.take] *)
Definition open_ceremony (state : str) (p : PendingOauth) : M unit :=
  st_modify (fun w => set_ceremonies (ceremony_insert (instant (ac_env w)) state p (ac_ceremonies w)) w).
Definition take_ceremony (state : str) : M (option PendingOauth) := fun w =>
  let '(o, m) := ceremony_take (instant (ac_env w)) state (ac_ceremonies w) in (Ok o, set_ceremonies m w).

Definition start_oauth (ctx : option AuthContext) (state verifier : str) (p : OauthProvider) : M str :=
  ready ← provider_ready p;
  let '(id, _, uri) := ready in
  _ ← open_ceremony state {| po_provider := p; po_pkce_verifier := verifier; po_started_by := ctx ≫= ctx_user_id |};
  match build_url (authorize_url p)
          [(of_string "response_type", of_string "code"); (of_string "client_id", id); (of_string "redirect_uri", uri);
           (of_string "scope", scopes p); (of_string "state", state);
           (of_string "code_challenge", pkce_challenge verifier); (of_string "code_challenge_method", of_string "S256")] with
  | Ok url => mret url
  | Err e => st_fail (Internal ("invalid authorize url configured: " ++ e))
  end.

Definition resolve_callback (state code : str) : M (OauthProvider * ProviderIdentity * option Uuid) :=
  pending ← take_ceremony state;
  pending ← st_lift (ok_or pending (Unauthorized (of_string "that sign-in attempt is not valid; please try again")));
  ready ← provider_ready (po_provider pending);
  let '(id, sec, uri) := ready in
  identity ← ext (exchange_and_identify
    {| ox_provider := po_provider pending; ox_client_id := id; ox_client_secret := sec; ox_redirect_uri := uri;
       ox_code := code; ox_pkce_verifier := po_pkce_verifier pending |});
  mret (po_provider pending, identity, po_started_by pending).

Definition complete_oauth (state code : str) : M (UserRow * UserRole) :=
  r ← resolve_callback state code;
  let '(provider, identity, _) := r in
  login ← db (credentials_find_for_login (credential_kind provider) (pi_subject identity));
  login ← st_lift (ok_or login (Unauthorized (of_string
    "that account is not linked to a household user; ask an admin to link it")));
  now ← utc_clock;
  _ ← outcome (E' := AppError) (credentials_touch_last_used (cr_id (cl_credential login)) now);
  profile ← load (cr_user_id (cl_credential login));
  mret (profile, cl_role login).

Definition link_oauth (ctx : option AuthContext) (cred_id : Uuid) (state code : str) : M unit :=
  _ ← st_lift (require_authenticated ctx);
  uid ← st_lift (context_user_id ctx);
  r ← resolve_callback state code;
  let '(provider, identity, started_by) := r in
  if negb (bool_decide (started_by = Some uid))
  then st_fail (Forbidden (of_string "that sign-in attempt was not started by this account"))
  else
    now ← utc_clock;
    link "that provider account is already linked to an account"
      (credentials_insert {| cr_id := cred_id; cr_user_id := uid; cr_kind := credential_kind provider;
                             cr_subject := pi_subject identity; cr_secret := None; cr_label := pi_label identity;
                             cr_metadata := of_string "{}"; cr_created_at := now; cr_last_used_at := None |}).

Definition unlink_oauth (ctx : option AuthContext) (uid : Uuid) (p : OauthProvider) : M Z :=
  _ ← st_lift (require_admin_or_self ctx uid);
  db (credentials_delete_by_kind (uuid_to_string uid) (credential_kind p)).

End directory.
