(* ===== verification/AccountLaws.v ===== *)
(** * What the account services guarantee

    Keys, links and sessions stay consistent over every history, an enabled admin
    is never lost, a password only changes by its owner's hand, sessions die when
    they should, and a disabled account looks like none. *)

From S2P Require Import Prelude RustStr Net Auth PolicyRouter RoutingTypes ZoneTypes PolicyDb LoginLimiter Tables.
From S2P Require Import AccountDb AccountService UserService.

Section laws.
Context {N : Type} {AE : AccountEnv N} {U : UuidText} {UL : UuidTextLaws U}.

Abbreviation Stored := (Identity * PolicyDb)%type.
#[export] Instance accounts_view : View (Accounts N) Stored := {| view := fun w => (ac_tables w, po_db (ac_policy w)) |}.

(** ** Rules *)

Lemma wp_astmt {X} (f : Identity -> PolicyDb -> result X DbError * Identity * PolicyDb) Q (v : Stored) :
  (forall e, Q (Err (OtherDbError e)) v) ->
  (let '(r, i, d) := f (fst v) (snd v) in Q r (i, d)) -> wp (astmt f) Q v.
Proof.
  intros He Hf w <-. simpl in *. unfold astmt.
  destruct (po_faults (ac_policy w)) as [|[e|] fs]; simpl; try (destruct (f _ _) as [[r i] d]; exact Hf). apply He.
Qed.

Lemma wp_db {X} (m : ST (Accounts N) DbError X) (Q : result X AppError -> Stored -> Prop) v :
  wp m (fun r => Q (match r with Ok a => Ok a | Err e => Err (Internal (db_error_text e)) end)) v -> wp (db m) Q v.
Proof. intros Hm w Hw. specialize (Hm w Hw). unfold db. by destruct (m w) as [[a|e] w']. Qed.

Lemma wp_outcome {X E E'} (m : ST (Accounts N) E X) (Q : result (result X E) E' -> Stored -> Prop) v :
  wp m (fun r => Q (Ok r)) v -> wp (outcome m) Q v.
Proof. intros Hm w Hw. specialize (Hm w Hw). unfold outcome. by destruct (m w). Qed.

Lemma wp_write {X} (m : ST (Accounts N) DbError X) (Q : result X AppError -> Stored -> Prop) v :
  wp m (fun r v' => match r with Ok a => Q (Ok a) v' | Err e => forall e', Q (Err e') v' end) v -> wp (write m) Q v.
Proof. intros Hm w Hw. specialize (Hm w Hw). unfold write. destruct (m w) as [[a|[]] w']; simpl in *; auto. Qed.

Lemma wp_link {X} t (m : ST (Accounts N) DbError X) (Q : result X AppError -> Stored -> Prop) v :
  wp m (fun r v' => match r with Ok a => Q (Ok a) v' | Err e => forall e', Q (Err e') v' end) v -> wp (link t m) Q v.
Proof. intros Hm w Hw. specialize (Hm w Hw). unfold link. destruct (m w) as [[a|[]] w']; simpl in *; auto. Qed.

(** Settings change neither accounts nor anything but the settings. *)
Lemma wp_settings {X} (m : ST Policy str X) (Q : result X AppError -> Stored -> Prop) v :
  (forall p, exists c, po_db (snd (m p)) = set_config c (po_db p)) ->
  (forall r c, Q r (fst v, set_config c (snd v))) -> wp (settings m) Q v.
Proof.
  intros Hm HQ w <-. unfold settings, db, on_settings. destruct (Hm (ac_policy w)) as [c Hc].
  specialize (HQ). simpl in *. destruct (m (ac_policy w)) as [[a|e] p]; simpl in *; rewrite Hc; apply HQ.
Qed.

Lemma same_config d : set_config (t_config d) d = d.
Proof. by destruct d. Qed.

Lemma stmt_config {X} (f : PolicyDb -> result X str * PolicyDb) :
  (forall d, exists c, snd (f d) = set_config c d) -> forall p, exists c, po_db (snd (stmt f p)) = set_config c (po_db p).
Proof.
  intros Hf p. unfold stmt. destruct (Hf (po_db p)) as [c Hc]. destruct (po_faults p) as [|[e|] fs]; simpl.
  - destruct (f (po_db p)). exists c. exact Hc.
  - exists (t_config (po_db p)). by rewrite same_config.
  - destruct (f (po_db p)). exists c. exact Hc.
Qed.

Lemma get_config k p : exists c, po_db (snd (cfg_get k p)) = set_config c (po_db p).
Proof. apply stmt_config. intros d. exists (t_config d). by rewrite same_config. Qed.
Lemma set_config_only k x p : exists c, po_db (snd (cfg_set k x p)) = set_config c (po_db p).
Proof. apply stmt_config. intros d. by eexists. Qed.
Lemma delete_config k p : exists c, po_db (snd (cfg_delete k p)) = set_config c (po_db p).
Proof. apply stmt_config. intros d. by eexists. Qed.

Lemma wp_ext {X} (m : ST N AppError X) (Q : result X AppError -> Stored -> Prop) v : (forall r, Q r v) -> wp (ext m) Q v.
Proof. intros HQ w <-. unfold ext. destruct (m (ac_env w)). apply HQ. Qed.
Lemma wp_secret {X} (m : ST N str X) (Q : result X AppError -> Stored -> Prop) v : (forall r, Q r v) -> wp (secret m) Q v.
Proof. intros HQ w <-. unfold secret. destruct (m (ac_env w)) as [[]]; apply HQ. Qed.
Lemma wp_take s (Q : result (option PendingOauth) AppError -> Stored -> Prop) v : (forall r, Q r v) -> wp (take_ceremony s) Q v.
Proof. intros HQ w <-. unfold take_ceremony. destruct (ceremony_take _ _ _). apply HQ. Qed.

(** ** Predicates that calls keep *)

(** A predicate that ignores the settings. *)
Class Settled (P : Stored -> Prop) : Prop := { settled i d c : P (i, d) -> P (i, set_config c d) }.

Section holds.
Context {P : Stored -> Prop} {HS : Settled P}.

Lemma holds_db {X} (m : ST (Accounts N) DbError X) : holds P m -> holds P (db m).
Proof. intros Hm v Hv. by apply wp_db, Hm. Qed.
Lemma holds_outcome {X E E'} (m : ST (Accounts N) E X) : holds P m -> holds P (outcome (E' := E') m).
Proof. intros Hm v Hv. by apply wp_outcome, Hm. Qed.
Lemma holds_write {X} (m : ST (Accounts N) DbError X) : holds P m -> holds P (write m).
Proof. intros Hm v Hv. apply wp_write. eapply wp_conseq; [by apply Hm|]. by intros [] v'. Qed.
Lemma holds_link {X} t (m : ST (Accounts N) DbError X) : holds P m -> holds P (link t m).
Proof. intros Hm v Hv. apply wp_link. eapply wp_conseq; [by apply Hm|]. by intros [] v'. Qed.

Lemma holds_settings {X} (m : ST Policy str X) :
  (forall p, exists c, po_db (snd (m p)) = set_config c (po_db p)) -> holds P (settings m).
Proof. intros Hm v Hv. apply wp_settings; [done|]. intros r c. destruct v. by apply settled. Qed.

Lemma holds_aselect {X} (f : Identity -> X) : holds P (aselect f).
Proof. intros [i d] Hv. by apply wp_astmt. Qed.

Lemma holds_astmt {X} (f : Identity -> PolicyDb -> result X DbError * Identity * PolicyDb) :
  (forall i d, P (i, d) -> P (snd (fst (f i d)), snd (f i d))) -> holds P (astmt f).
Proof. intros Hf [i d] Hv. apply wp_astmt; [done|]. specialize (Hf i d Hv). simpl. by destruct (f i d) as [[r i'] d']. Qed.

Lemma holds_aupdate f : (forall i d, P (i, d) -> P (snd (f i), d)) -> holds P (aupdate f).
Proof. intros Hf. apply holds_astmt. intros i d Hv. specialize (Hf i d Hv). by destruct (f i). Qed.

End holds.

End laws.

(** Decompose a call into its statements. *)
Ltac walk :=
  repeat first
    [ apply holds_bind; [|intros ?]
    | match goal with
      | |- holds _ (settings _) => apply holds_settings; first [apply get_config | apply set_config_only | apply delete_config]
      end
    | apply holds_db | apply holds_outcome | apply holds_write | apply holds_link
    | apply holds_aselect
    | match goal with
      | |- holds _ (if ?b then _ else _) => destruct b eqn:?
      | |- holds _ (match ?x with _ => _ end) => destruct x eqn:?
      | |- holds _ (mret _) => apply holds_quiet; intros ?; reflexivity
      | |- holds _ (st_fail _) => apply holds_quiet; intros ?; reflexivity
      | |- holds _ (st_lift _) => apply holds_quiet; intros ?; reflexivity
      | |- holds _ (st_gets _) => apply holds_quiet; intros ?; reflexivity
      | |- holds _ (st_modify _) => apply holds_quiet; intros ?; reflexivity
      | |- holds _ utc_clock => apply holds_quiet; intros ?; reflexivity
      | |- holds _ (ext _) => intros ? ?; by apply wp_ext
      | |- holds _ (secret _) => intros ? ?; by apply wp_secret
      | |- holds _ (take_ceremony _) => intros ? ?; by apply wp_take
      end
    | progress cbv zeta ].

(** ** Accounts are consistent *)

Definition CEILING : Z := MAX_SESSION_DAYS * 24 * HOUR.

Definition same_email (u v : UserRow) : Prop := email_clash (us_email u) v = true.
Definition same_credential (c e : CredentialRow) : Prop :=
  (cr_kind c = cr_kind e /\ cr_subject c = cr_subject e) \/
  (cr_kind c = KPassword /\ cr_kind e = KPassword /\ cr_user_id c = cr_user_id e).
Definition same_invite (a b : EnrolmentTokenRow) : Prop := en_token_hash a = en_token_hash b.
Definition same_token (a b : SessionRow) : Prop := se_token_hash a = se_token_hash b.

(** Rows refer to users that exist. *)
Definition refers {A} (user : A -> Uuid) (users : list UserRow) (l : list A) : Prop :=
  forall x, x ∈ l -> exists u, u ∈ users /\ us_id u = user x.

Record accounts_ok (v : Identity * PolicyDb) : Prop := {
  ao_user_ids : t_users (snd v) = us_id <$> i_users (fst v);
  ao_users : keyed us_id same_email (i_users (fst v));
  ao_credentials : keyed cr_id same_credential (i_credentials (fst v));
  ao_enrolments : keyed en_id same_invite (i_enrolments (fst v));
  ao_sessions : keyed se_id same_token (i_sessions (fst v));
  ao_credential_users : refers cr_user_id (i_users (fst v)) (i_credentials (fst v));
  ao_enrolment_users : refers en_user_id (i_users (fst v)) (i_enrolments (fst v));
  ao_session_users : refers se_user_id (i_users (fst v)) (i_sessions (fst v));
  ao_ceiling s : s ∈ i_sessions (fst v) -> se_absolute_expires_at s = se_created_at s + CEILING;
  ao_secret c : c ∈ i_credentials (fst v) -> cr_kind c = KPassword -> cr_secret c <> None;
  ao_owners x o : x ∈ t_devices (snd v) -> dr_owner_user_id x = Some o -> o ∈ t_users (snd v);
}.

#[export] Instance accounts_settled : Settled accounts_ok.
Proof. split. intros i d c [? ? ? ? ? ? ? ? ? ? ?]. by split. Qed.

Lemma refers_deleted {A} (user : A -> Uuid) users (f : A -> bool) l : refers user users l -> refers user users (deleted f l).
Proof. intros H x [_ Hx]%elem_of_deleted. by apply H. Qed.

Lemma refers_where {A} (user : A -> Uuid) users (f : A -> bool) g l : (forall x, user (g x) = user x) ->
  refers user users l -> refers user users (where_ f g l).
Proof.
  intros Hg H x (y & Hy & ->)%elem_of_where. destruct (H y Hy) as (u & Hu & E). exists u. split; [done|].
  destruct (f y); by rewrite ?Hg.
Qed.

Lemma refers_snoc {A} (user : A -> Uuid) users l x : (exists u, u ∈ users /\ us_id u = user x) ->
  refers user users l -> refers user users (l ++ [x]).
Proof. intros Hx H y [Hy| ->%list_elem_of_singleton]%elem_of_app; [by apply H | done]. Qed.

(** Users changed in other columns than the key. *)
Lemma refers_users {A} (user : A -> Uuid) users (f : UserRow -> bool) g l : (forall u, us_id (g u) = us_id u) ->
  refers user users l -> refers user (where_ f g users) l.
Proof.
  intros Hg H x Hx. destruct (H x Hx) as (u & Hu & E). exists (if f u then g u else u). split; [apply elem_of_where; eauto|].
  destruct (f u); by rewrite ?Hg.
Qed.

Section statements.
Context {N : Type} {AE : AccountEnv N} {U : UuidText} {UL : UuidTextLaws U}.
Abbreviation ok_stmt m := (holds (W := Accounts N) accounts_ok m).

Lemma user_is_string id u : user_is (uuid_to_string id) u = (us_id u =? id).
Proof. apply has_id_string. Qed.

Lemma email_clash_sym a b u v : us_email u = a -> us_email v = b -> email_clash a v = email_clash b u.
Proof.
  intros <- <-. unfold email_clash. destruct (us_email u), (us_email v); try done.
  apply bool_decide_ext. split; congruence.
Qed.

Lemma ok_users_create row : ok_stmt (users_create row).
Proof.
  apply holds_astmt. intros i d Hv. destruct (existsb (email_clash (us_email row)) (i_users i)) eqn:E1; [done|].
  destruct (existsb (fun u => us_id u =? us_id row) (i_users i)) eqn:E2; [done|]. destruct Hv as [H1 H2 H3 H4 H5 H6 H7 H8 H9 H10 H11]. simpl in *.
  assert (Hin : forall (A : Type) (user : A -> Uuid) l, refers user (i_users i) l -> refers user (i_users i ++ [row]) l).
  { intros A user l H x Hx. destruct (H x Hx) as (u & ? & ?). exists u. split; [apply elem_of_app; by left | done]. }
  split; simpl; auto.
  - by rewrite fmap_app, H1.
  - apply keyed_snoc; [done|]. intros u Hu. pose proof (existsb_none _ _ u E1 Hu) as C. pose proof (existsb_none _ _ u E2 Hu) as D.
    simpl in D. apply Z.eqb_neq in D. split; [done|]. unfold same_email. rewrite C.
    rewrite (email_clash_sym _ (us_email row) u row) by done. by rewrite C.
  - intros x o Hx Ho. apply elem_of_app. left. by apply (H11 x).
Qed.

(** Columns of a user that no index looks at. *)
Lemma ok_users_where f g i d : (forall u, us_id (g u) = us_id u) -> (forall u, us_email (g u) = us_email u) ->
  accounts_ok (i, d) -> accounts_ok (set_users (where_ f g (i_users i)) i, d).
Proof.
  intros Hg He [H1 H2 H3 H4 H5 H6 H7 H8 H9 H10 H11]. simpl in *. split; simpl; auto using refers_users.
  - by rewrite where_ids.
  - apply keyed_where; [done| |done]. intros x y. unfold same_email, email_clash. destruct (f x), (f y); by rewrite ?He.
Qed.

Lemma ok_set_enabled id b now : ok_stmt (users_set_enabled id b now).
Proof. apply holds_aupdate. intros i d. by apply ok_users_where. Qed.
Lemma ok_set_role id r now : ok_stmt (users_set_role id r now).
Proof. apply holds_aupdate. intros i d. by apply ok_users_where. Qed.

Lemma ok_update_profile id n e now : ok_stmt (users_update_profile (uuid_to_string id) n e now).
Proof.
  apply holds_astmt. intros i d Hv. destruct (_ && _) eqn:E; [done|].
  destruct Hv as [H1 H2 H3 H4 H5 H6 H7 H8 H9 H10 H11]. simpl in *. split; simpl; auto using refers_users.
  - by rewrite where_ids.
  - apply keyed_replace; [done | | |done].
    + intros x y _ _. rewrite !user_is_string, !Z.eqb_eq. congruence.
    + intros x y Hx Hy Ex Ey. apply andb_false_iff in E as [E|E].
      { pose proof (existsb_none _ _ x E Hx). congruence. }
      pose proof (existsb_none _ _ y E Hy) as C. simpl in C. rewrite Ey in C. simpl in C. unfold same_email. simpl. rewrite C.
      rewrite (email_clash_sym _ e y (with_profile n e now x)) by done. by rewrite C.
Qed.

Lemma refers_survive {A} (user : A -> Uuid) id users l : refers user users l ->
  refers user (deleted (user_is (uuid_to_string id)) users) (deleted (fun x => has_id (uuid_to_string id) (user x)) l).
Proof.
  intros H x [Hn Hx]%elem_of_deleted. destruct (H x Hx) as (u & Hu & E). exists u. split; [|done].
  apply elem_of_deleted. split; [|done]. unfold user_is. by rewrite E.
Qed.

Lemma ok_users_delete id : ok_stmt (users_delete (uuid_to_string id)).
Proof.
  apply holds_astmt. intros i d [H1 H2 H3 H4 H5 H6 H7 H8 H9 H10 H11]. simpl in *. split; simpl.
  all: eauto using keyed_deleted, refers_survive.
  - rewrite H1. clear. induction (i_users i) as [|u l IH]; [done|]. unfold deleted, user_is in *. simpl.
    destruct (has_id _ _); simpl; [done|]. by f_equal.
  - intros s [_ Hs]%elem_of_deleted. by apply H9.
  - intros c [_ Hc]%elem_of_deleted. by apply H10.
  - intros x o (y & Hy & ->)%elem_of_where. destruct (orphaned _ y) eqn:E; simpl; [done|]. intros Ho.
    apply elem_of_deleted. split; [|by apply (H11 y)]. unfold orphaned in E. by rewrite Ho in E.
Qed.

(** A list of credentials put in place. *)
Lemma ok_credentials l i d : accounts_ok (i, d) -> keyed cr_id same_credential l -> refers cr_user_id (i_users i) l ->
  (forall c, c ∈ l -> cr_kind c = KPassword -> cr_secret c <> None) -> accounts_ok (set_credentials l i, d).
Proof. intros [H1 H2 H3 H4 H5 H6 H7 H8 H9 H10 H11] ? ? ?. by split. Qed.

Lemma ok_insert row i d : (cr_kind row = KPassword -> cr_secret row <> None) -> accounts_ok (i, d) ->
  forall i', insert_credential row i = Ok i' -> accounts_ok (i', d).
Proof.
  intros Hs Hv i'. unfold insert_credential. destruct (existsb _ _) eqn:E1; [done|]. destruct (_ && existsb _ _) eqn:E2; [done|].
  destruct (existsb (fun c => cr_id c =? cr_id row) _) eqn:E3; [done|]. destruct (negb _) eqn:E4; [done|]. intros [= <-].
  apply ok_credentials; [done| | |].
  - apply keyed_snoc; [apply Hv|]. intros c Hc. pose proof (existsb_none _ _ c E1 Hc) as C1. pose proof (existsb_none _ _ c E3 Hc) as C3.
    simpl in C3. apply Z.eqb_neq in C3. unfold same_login in C1. split; [done|].
    assert (Hno : cr_kind row = KPassword -> cr_kind c = KPassword -> cr_user_id c <> cr_user_id row).
    { intros Hr Hk Hu. rewrite (bool_decide_eq_true_2 _ Hr) in E2. pose proof (existsb_none _ _ c E2 Hc) as C2. simpl in C2.
      rewrite Hu, Z.eqb_refl, bool_decide_eq_true_2 in C2; done. }
    unfold same_credential. split; intros [[Ek Es]|(Ek & Ek' & Eu)]; try (by apply Hno);
      rewrite !bool_decide_eq_true_2 in C1; done.
  - apply refers_snoc; [|apply Hv]. apply negb_false_iff, existsb_elem in E4 as (u & Hu & E%Z.eqb_eq). by exists u.
  - intros c [Hc| ->%list_elem_of_singleton]%elem_of_app; [by apply (ao_secret _ Hv) | done].
Qed.

Lemma ok_checked row i d : (cr_kind row = KPassword -> cr_secret row <> None) -> accounts_ok (i, d) ->
  accounts_ok (snd (fst (checked (insert_credential row i) i d)), snd (checked (insert_credential row i) i d)).
Proof. intros Hs Hv. destruct (insert_credential row i) as [i'|e] eqn:E; simpl; [by eapply ok_insert | done]. Qed.

Lemma ok_credentials_insert row : (cr_kind row = KPassword -> cr_secret row <> None) -> ok_stmt (credentials_insert row).
Proof. intros Hs. apply holds_astmt. intros i d Hv. by apply ok_checked. Qed.

Lemma password_of_spec uid c : password_of (uuid_to_string uid) c = true <-> cr_user_id c = uid /\ cr_kind c = KPassword.
Proof. unfold password_of. by rewrite has_id_string, andb_true_iff, Z.eqb_eq, bool_decide_eq_true. Qed.

Lemma ok_set_password id uid subject secret now : ok_stmt (credentials_set_password id uid subject secret now).
Proof.
  apply holds_astmt. intros i d Hv. cbv zeta. destruct (existsb _ _) eqn:E1; [|by apply ok_checked].
  destruct (existsb (fun c => _ && _) _) eqn:E2; [done|]. apply ok_credentials; [done| | |].
  - apply keyed_replace; [done | | |apply Hv].
    + intros x y Hx Hy [Ux Kx]%password_of_spec [Uy Ky]%password_of_spec. apply (ky_unique (ao_credentials _ Hv)); [done..|].
      right. by rewrite Ux, Uy.
    + intros x y Hx Hy [Ux Kx]%password_of_spec Ey. pose proof (existsb_none _ _ y E2 Hy) as C. simpl in C. rewrite Ey in C. simpl in C.
      unfold same_login in C. assert (Hn : ~ (cr_kind y = KPassword /\ cr_user_id y = uid)).
      { intros [? ?]. assert (password_of (uuid_to_string uid) y = true) by (by apply password_of_spec). congruence. }
      unfold same_credential. simpl. rewrite Kx. split; intros [[Ek Es]|(Ek & Ek' & Eu)];
        try (apply Hn; split; congruence); rewrite !bool_decide_eq_true_2 in C by congruence; done.
  - apply refers_where; [done | apply Hv].
  - intros c (x & Hx & ->)%elem_of_where. destruct (password_of _ x); [done | by apply (ao_secret _ Hv)].
Qed.

Lemma ok_credentials_where f g : (forall c, cr_id (g c) = cr_id c /\ cr_user_id (g c) = cr_user_id c /\ cr_kind (g c) = cr_kind c /\
    cr_subject (g c) = cr_subject c /\ cr_secret (g c) = cr_secret c) ->
  forall i d, accounts_ok (i, d) -> accounts_ok (set_credentials (where_ f g (i_credentials i)) i, d).
Proof.
  intros Hg i d Hv. apply ok_credentials; [done| | |].
  - apply keyed_where; [apply Hg | | apply Hv]. intros x y. unfold same_credential.
    destruct (Hg x) as (_ & U1 & K1 & S1 & _), (Hg y) as (_ & U2 & K2 & S2 & _).
    destruct (f x), (f y); by rewrite ?U1, ?K1, ?S1, ?U2, ?K2, ?S2.
  - apply refers_where; [apply Hg | apply Hv].
  - intros c (x & Hx & ->)%elem_of_where. destruct (Hg x) as (_ & _ & E1 & _ & E2). destruct (f x); rewrite ?E1, ?E2; by apply (ao_secret _ Hv).
Qed.

Lemma ok_touch id now : ok_stmt (credentials_touch_last_used id now).
Proof. apply holds_astmt. intros i d. by apply ok_credentials_where. Qed.

Lemma ok_credentials_deleted f i d : accounts_ok (i, d) -> accounts_ok (set_credentials (deleted f (i_credentials i)) i, d).
Proof.
  intros Hv. apply ok_credentials; [done | apply keyed_deleted, Hv | apply refers_deleted, Hv |].
  intros c [_ Hc]%elem_of_deleted. by apply (ao_secret _ Hv).
Qed.

Lemma ok_delete_by_kind u k : ok_stmt (credentials_delete_by_kind u k).
Proof. apply holds_aupdate. intros i d. by apply ok_credentials_deleted. Qed.

(** Lists of invitations and of sessions put in place. *)
Lemma ok_invites l i d : accounts_ok (i, d) -> keyed en_id same_invite l -> refers en_user_id (i_users i) l ->
  accounts_ok (set_enrolments l i, d).
Proof. intros [H1 H2 H3 H4 H5 H6 H7 H8 H9 H10 H11] ? ?. by split. Qed.

Lemma ok_session_rows l i d : accounts_ok (i, d) -> keyed se_id same_token l -> refers se_user_id (i_users i) l ->
  (forall s, s ∈ l -> se_absolute_expires_at s = se_created_at s + CEILING) -> accounts_ok (set_sessions l i, d).
Proof. intros [H1 H2 H3 H4 H5 H6 H7 H8 H9 H10 H11] ? ? ?. by split. Qed.

Lemma ok_enrolments_create row : ok_stmt (enrolments_create row).
Proof.
  apply holds_astmt. intros i d Hv. destruct (existsb _ _) eqn:E1; [done|]. destruct (negb _) eqn:E2; [done|].
  apply ok_invites; [done| |].
  - apply keyed_snoc; [apply Hv|]. intros e He. pose proof (existsb_none _ _ e E1 He) as [C1%Z.eqb_neq C2%bool_decide_eq_false]%orb_false_iff.
    unfold same_invite. split; [done|]. split; congruence.
  - apply refers_snoc; [|apply Hv]. apply negb_false_iff, existsb_elem in E2 as (u & Hu & E%Z.eqb_eq). by exists u.
Qed.

Lemma ok_mark_used id now : ok_stmt (enrolments_mark_used id now).
Proof.
  apply holds_aupdate. intros i d Hv. apply ok_invites; [done | | apply refers_where; [done | apply Hv]].
  apply keyed_where; [done | | apply Hv]. intros x y. unfold same_invite. by destruct (_ && _), (_ && _).
Qed.

Lemma ok_enrolments_deleted f i d : accounts_ok (i, d) -> accounts_ok (set_enrolments (deleted f (i_enrolments i)) i, d).
Proof. intros Hv. apply ok_invites; [done | apply keyed_deleted, Hv | apply refers_deleted, Hv]. Qed.

Lemma ok_enrolments_delete id : ok_stmt (enrolments_delete id).
Proof. apply holds_aupdate. intros i d. by apply ok_enrolments_deleted. Qed.
Lemma ok_enrolments_delete_expired now : ok_stmt (enrolments_delete_expired now).
Proof. apply holds_aupdate. intros i d. by apply ok_enrolments_deleted. Qed.

Lemma ok_sessions_create row : se_absolute_expires_at row = se_created_at row + CEILING -> ok_stmt (sessions_create row).
Proof.
  intros Hc. apply holds_astmt. intros i d Hv. destruct (existsb _ _) eqn:E1; [done|]. destruct (_ || _) eqn:E2; [done|].
  apply orb_false_iff in E2 as [E2 _]. apply ok_session_rows; [done| | |].
  - apply keyed_snoc; [apply Hv|]. intros e He. pose proof (existsb_none _ _ e E1 He) as [C1%Z.eqb_neq C2%bool_decide_eq_false]%orb_false_iff.
    unfold same_token. split; [done|]. split; congruence.
  - apply refers_snoc; [|apply Hv]. apply negb_false_iff, existsb_elem in E2 as (u & Hu & E%Z.eqb_eq). by exists u.
  - intros s [Hs| ->%list_elem_of_singleton]%elem_of_app; [by apply (ao_ceiling _ Hv) | done].
Qed.

Lemma ok_rotate old new expires : ok_stmt (sessions_rotate_token old new expires).
Proof.
  apply holds_astmt. intros i d Hv. cbv zeta. destruct (_ && _) eqn:E; [done|]. apply ok_session_rows; [done| | |].
  - apply keyed_replace; [done | | |apply Hv].
    + intros x y Hx Hy Ex%bool_decide_eq_true Ey%bool_decide_eq_true. apply (ky_unique (ao_sessions _ Hv)); [done..|].
      unfold same_token. congruence.
    + intros x y Hx Hy Ex Ey. apply andb_false_iff in E as [E|E].
      { pose proof (existsb_none _ _ x E Hx). simpl in *. congruence. }
      pose proof (existsb_none _ _ y E Hy) as C. simpl in C. rewrite Ey in C. apply bool_decide_eq_false in C.
      unfold same_token. simpl. split; congruence.
  - apply refers_where; [done | apply Hv].
  - intros s (x & Hx & ->)%elem_of_where. pose proof (ao_ceiling _ Hv x Hx). by destruct (bool_decide _).
Qed.

Lemma ok_sessions_deleted f : ok_stmt (sessions_delete_where f).
Proof.
  apply holds_aupdate. intros i d Hv. apply ok_session_rows; [done | apply keyed_deleted, Hv | apply refers_deleted, Hv |].
  intros s [_ Hs]%elem_of_deleted. by apply (ao_ceiling _ Hv).
Qed.

Lemma ok_key_used id now : ok_stmt (api_keys_update_last_used id now).
Proof. apply holds_astmt. intros i d [H1 H2 H3 H4 H5 H6 H7 H8 H9 H10 H11]. by split. Qed.

End statements.

Create HintDb accounts.
#[export] Hint Resolve ok_users_create ok_set_enabled ok_set_role ok_update_profile ok_users_delete ok_set_password ok_touch
  ok_delete_by_kind ok_enrolments_create ok_mark_used ok_enrolments_delete ok_enrolments_delete_expired ok_rotate
  ok_sessions_deleted ok_key_used : accounts.

(** ** Calls *)

(** A call of one of the two services, or of a start-up task, one at a time. *)
Inductive AccountCall : Type :=
| CLogin (session_id : Uuid) (token : str) (rq : LoginAttempt)
| CRefresh (new_token token : str) | CLogout (token : str) | CValidate (token : str) | CCleanupSessions
| CApiKey (key : str) | CSetup (id cred_id : Uuid) (salt username password : str)
| CWizardState | CAdvance (to_step : WizardStep) (mode : option WizardMode) | CCurrentUser
| CBootstrap (id cred_id : Uuid) (salt : str) (credentials : option (str * str)) | CBootstrapConfig (policy : str)
| CListUsers | CGetUser (uid : Uuid) | CCreateUser (id : Uuid) (new_user : NewUser)
| CUpdateProfile (uid : Uuid) (display_name : str) (email : option str)
| CSetEnabled (uid : Uuid) (enabled : bool) | CSetRole (uid : Uuid) (role : UserRole) | CDeleteUser (uid : Uuid)
| CListCredentials (uid : Uuid) | CChangePassword (salt current_password new_password : str)
| CIssue (id : Uuid) (token : str) (uid : Uuid) | CListEnrolments (uid : Uuid) | CRevoke (enrolment_id : Uuid)
| CRedeem (cred_id : Uuid) (salt token password : str) | CCleanupEnrolments
| CMethods | CConfigure (p : OauthProvider) (id : str) (sec : option str) (enabled : bool) | CClear (p : OauthProvider)
| CStartOauth (state verifier : str) (p : OauthProvider) | CCompleteOauth (state code : str)
| CLinkOauth (cred_id : Uuid) (state code : str) | CUnlink (uid : Uuid) (p : OauthProvider).

Section keys.
Context {N : Type} {AE : AccountEnv N} {U : UuidText}.

Lemma holds_keys {P : Identity * PolicyDb -> Prop} {HS : Settled P} key l :
  (forall id now, holds P (api_keys_update_last_used (N := N) id now)) -> holds P (try_keys (N := N) key l).
Proof.
  intros Hk. induction l as [|[id h] l IH]; simpl; [walk|]. destruct (argon2_verify key h) as [[]|]; [|done..].
  walk. apply Hk.
Qed.

End keys.

Ltac open_call := unfold login, open_session, note_failure, note_success, refresh_session, logout_session, validate_session,
  cleanup_expired_sessions, validate_api_key, setup_admin, create_admin, wizard_state, advance_wizard, current_user,
  bootstrap_admin, bootstrap_system_config, list_users, get_user, create_user, update_profile, move_login, set_enabled, set_role,
  delete_user, guard_last_admin, load, list_credentials, change_own_password, issue_enrolment, list_enrolments, revoke_enrolment,
  redeem_enrolment, cleanup_expired_enrolments, available_methods, configure_oauth_provider, clear_oauth_provider,
  start_oauth, complete_oauth, link_oauth, unlink_oauth, resolve_callback, provider_ready, provider_status, canonical_fqdn,
  client_id, client_secret, provider_enabled, open_ceremony.

(** Reduces a call to the statements that write. *)
Ltac each_statement := open_call; walk; try (apply holds_keys; intros).

(** A statement that does not touch what the predicate looks at. *)
Ltac untouched :=
  first [ apply holds_aupdate; intros ? ? ?; assumption
        | apply holds_astmt; intros ? ? ?; unfold checked, insert_credential; cbv zeta;
          repeat case_match; simplify_eq/=; assumption ].

Section calls.
Context {N : Type} {AE : AccountEnv N} {U : UuidText} {UL : UuidTextLaws U} (hours remember_hours : Z).

Definition run_account_call (ctx : option AuthContext) (c : AccountCall) (w : Accounts N) : Accounts N :=
  match c with
  | CLogin sid tok rq => snd (login hours remember_hours sid tok rq w)
  | CRefresh new tok => snd (refresh_session remember_hours ctx new tok w)
  | CLogout tok => snd (logout_session ctx tok w)
  | CValidate tok => snd (validate_session tok w)
  | CCleanupSessions => snd (cleanup_expired_sessions ctx w)
  | CApiKey key => snd (validate_api_key key w)
  | CSetup id cid salt name pw => snd (setup_admin id cid salt name pw w)
  | CWizardState => snd (wizard_state w)
  | CAdvance step mode => snd (advance_wizard ctx step mode w)
  | CCurrentUser => snd (current_user ctx w)
  | CBootstrap id cid salt creds => snd (bootstrap_admin id cid salt creds w)
  | CBootstrapConfig policy => snd (bootstrap_system_config policy w)
  | CListUsers => snd (list_users ctx w)
  | CGetUser u => snd (get_user ctx u w)
  | CCreateUser id nu => snd (create_user ctx id nu w)
  | CUpdateProfile u n e => snd (update_profile ctx u n e w)
  | CSetEnabled u b => snd (set_enabled ctx u b w)
  | CSetRole u r => snd (set_role ctx u r w)
  | CDeleteUser u => snd (delete_user ctx u w)
  | CListCredentials u => snd (list_credentials ctx u w)
  | CChangePassword salt cur new => snd (change_own_password ctx salt cur new w)
  | CIssue id tok u => snd (issue_enrolment ctx id tok u w)
  | CListEnrolments u => snd (list_enrolments ctx u w)
  | CRevoke id => snd (revoke_enrolment ctx id w)
  | CRedeem cid salt tok pw => snd (redeem_enrolment cid salt tok pw w)
  | CCleanupEnrolments => snd (cleanup_expired_enrolments ctx w)
  | CMethods => snd (available_methods w)
  | CConfigure p id sec b => snd (configure_oauth_provider ctx p id sec b w)
  | CClear p => snd (clear_oauth_provider ctx p w)
  | CStartOauth st ver p => snd (start_oauth ctx st ver p w)
  | CCompleteOauth st code => snd (complete_oauth st code w)
  | CLinkOauth cid st code => snd (link_oauth ctx cid st code w)
  | CUnlink u p => snd (unlink_oauth ctx u p w)
  end.

Lemma call_ok ctx c w : accounts_ok (view w) -> accounts_ok (view (run_account_call ctx c w)).
Proof.
  intros Hw. destruct c; cbn [run_account_call]; apply (holds_after accounts_ok); try done; each_statement; eauto with accounts.
  - by apply ok_sessions_create.
  - apply ok_credentials_insert. by destruct o0.
Qed.

(** ** An admin remains *)

Definition has_admin (v : Identity * PolicyDb) : Prop := exists u, u ∈ i_users (fst v) /\ enabled_admin u = true.

#[local] Instance admin_settled : Settled has_admin.
Proof. by split. Qed.

(** The target is not the only one: somebody else is an enabled admin. *)
Lemma another_admin l u : NoDup (us_id <$> l) -> u ∈ l -> (enabled_admin u = true -> 1 < count enabled_admin l) ->
  (exists x, x ∈ l /\ enabled_admin x = true) -> exists x, x ∈ l /\ enabled_admin x = true /\ us_id x <> us_id u.
Proof.
  intros Hnd Hu Hc (x & Hx & Ha). destruct (decide (us_id x = us_id u)) as [E|]; [|eauto].
  assert (x = u) as -> by (by apply (NoDup_fmap_elem_inj us_id l)). specialize (Hc Ha). unfold count in Hc.
  assert (Hin : forall y, y ∈ List.filter enabled_admin l -> y ∈ l /\ enabled_admin y = true).
  { intros y. rewrite !list_elem_of_In, filter_In. done. }
  pose proof (keyed_deleted us_id (fun _ _ => False) (fun y => negb (enabled_admin y)) l) as Hk.
  assert (Hf : deleted (fun y => negb (enabled_admin y)) l = List.filter enabled_admin l).
  { unfold deleted. apply filter_ext. intros y. apply negb_involutive. }
  rewrite Hf in Hk. destruct Hk as [Hk _]; [by split|].
  destruct (List.filter enabled_admin l) as [|a [|b r]]; simpl in Hc; [lia..|].
  destruct (Hin a) as [Ha1 Ha2]; [by left|]. destruct (Hin b) as [Hb1 Hb2]; [right; by left|].
  destruct (decide (us_id a = us_id u)) as [Ea|]; [|eauto]. destruct (decide (us_id b = us_id u)) as [Eb|]; [|eauto].
  exfalso. simpl in Hk. apply NoDup_cons in Hk as [Hk _]. apply Hk. rewrite Ea, <- Eb. by left.
Qed.

Lemma admin_created row : holds (W := Accounts N) has_admin (users_create row).
Proof.
  apply holds_astmt. intros i d (u & Hu & Ha). simpl in Hu.
  destruct (existsb (email_clash _) _); [by exists u|]. destruct (existsb _ _); [by exists u|].
  exists u. simpl. split; [apply elem_of_app; by left | done].
Qed.

Lemma admin_where f g i d : (forall u, enabled_admin u = true -> enabled_admin (g u) = true) -> has_admin (i, d) ->
  has_admin (set_users (where_ f g (i_users i)) i, d).
Proof.
  intros Hg (u & Hu & Ha). exists (if f u then g u else u). simpl. split; [apply elem_of_where; eauto|].
  destruct (f u); auto.
Qed.

Lemma admin_profile id n e now : holds (W := Accounts N) has_admin (users_update_profile id n e now).
Proof. apply holds_astmt. intros i d Hv. destruct (_ && _); [done|]. by apply admin_where. Qed.

(** After [load] and the guard, there is another admin. *)
Lemma guarded_admin {Y} (uid : Uuid) (action : str) (k : UserRow -> ST (Accounts N) AppError Y) (Q : result Y AppError -> _ -> Prop) v :
  accounts_ok v -> has_admin v -> (forall e, Q (Err e) v) ->
  (forall u, (exists x, x ∈ i_users (fst v) /\ enabled_admin x = true /\ us_id x <> uid) -> wp (k u) Q v) ->
  wp (target ← load uid; _ ← guard_last_admin target action; k target) Q v.
Proof.
  intros Hok Had He Hk. unfold load. destruct v as [i d].
  apply wp_bind, wp_bind, wp_db, wp_astmt; [done|]. simpl. apply wp_lift.
  destruct (List.find _ _) as [u|] eqn:Ef; simpl; [|done]. apply find_Some_elem in Ef as [Hu Hid].
  rewrite user_is_string in Hid. apply Z.eqb_eq in Hid. subst uid.
  assert (Hgo : (enabled_admin u = true -> 1 < count enabled_admin (i_users i)) -> wp (k u) Q (i, d)).
  { intros Hc. apply Hk. apply another_admin; [apply Hok | done..]. }
  apply wp_bind. unfold guard_last_admin. destruct (enabled_admin u) eqn:Ea; simpl; [|apply wp_ret, Hgo; done].
  apply wp_bind, wp_db, wp_astmt; [done|]. simpl. destruct (Z.leb_spec (count enabled_admin (i_users i)) 1); [by apply wp_fail|].
  apply wp_ret, Hgo. lia.
Qed.

Lemma admin_other f g i d uid : (forall u, f u = (us_id u =? uid)) ->
  (exists x, x ∈ i_users i /\ enabled_admin x = true /\ us_id x <> uid) -> has_admin (set_users (where_ f g (i_users i)) i, d).
Proof.
  intros Hf (x & Hx & Ha & Hne). exists x. split; [|done]. apply elem_of_where. exists x. split; [done|].
  rewrite Hf. by rewrite (proj2 (Z.eqb_neq _ _)).
Qed.

Lemma enabled_keeps_admin id now : holds (W := Accounts N) has_admin (users_set_enabled id true now).
Proof.
  apply holds_aupdate. intros i d. apply admin_where. intros u [? _]%andb_true_iff. unfold enabled_admin. simpl.
  by rewrite andb_true_r.
Qed.

Lemma promoted_keeps_admin id now : holds (W := Accounts N) has_admin (users_set_role id Admin now).
Proof. apply holds_aupdate. intros i d. apply admin_where. intros u [_ ?]%andb_true_iff. done. Qed.

Lemma set_enabled_admin ctx uid b v : accounts_ok v -> has_admin v ->
  wp (set_enabled (N := N) ctx uid b) (fun _ => has_admin) v.
Proof.
  intros Hok Had. unfold set_enabled. apply wp_bind, wp_lift. destruct (require_admin ctx); [|done]. destruct b.
  - revert v Hok Had. intros v _ Hv. revert v Hv. change (holds (W := Accounts N) has_admin (target ← load uid; _ ← mret tt; now ← utc_clock;
      _ ← db (users_set_enabled (uuid_to_string uid) true now); _ ← mret 0; load uid)).
    unfold load. walk. apply enabled_keeps_admin.
  - apply guarded_admin; [done..|]. intros u Hx. destruct v as [i d].
    apply wp_bind, wp_quiet; [done|]. intros [now|e]; [|done].
    apply wp_bind, wp_db, wp_astmt; [done|]. simpl.
    assert (Hv : has_admin (set_users (where_ (user_is (uuid_to_string uid)) (with_enabled false now) (i_users i)) i, d)).
    { apply (admin_other _ _ _ _ uid); [apply user_is_string | done]. }
    revert Hv. generalize (set_users (where_ (user_is (uuid_to_string uid)) (with_enabled false now) (i_users i)) i) as i'.
    intros i' Hv. revert Hv. generalize (i', d) as v'. clear.
    change (holds (W := Accounts N) has_admin (_ ← db (sessions_delete_all_for_user (uuid_to_string uid)); load uid)).
    unfold load. walk. untouched.
Qed.

Lemma set_role_admin ctx uid r v : accounts_ok v -> has_admin v -> wp (set_role (N := N) ctx uid r) (fun _ => has_admin) v.
Proof.
  intros Hok Had. unfold set_role. apply wp_bind, wp_lift. destruct (require_admin ctx); [|done]. case_bool_decide as E.
  - subst r. revert v Hok Had. intros v _ Hv. revert v Hv. change (holds (W := Accounts N) has_admin (target ← load uid; _ ← mret tt; now ← utc_clock;
      _ ← db (users_set_role (uuid_to_string uid) Admin now); load uid)).
    unfold load. walk. apply promoted_keeps_admin.
  - apply guarded_admin; [done..|]. intros u Hx. destruct v as [i d].
    apply wp_bind, wp_quiet; [done|]. intros [now|e]; [|done].
    apply wp_bind, wp_db, wp_astmt; [done|]. simpl.
    assert (Hv : has_admin (set_users (where_ (user_is (uuid_to_string uid)) (with_role r now) (i_users i)) i, d)).
    { apply (admin_other _ _ _ _ uid); [apply user_is_string | done]. }
    revert Hv. generalize (set_users (where_ (user_is (uuid_to_string uid)) (with_role r now) (i_users i)) i, d) as v'. clear.
    change (holds (W := Accounts N) has_admin (load uid)). unfold load. walk.
Qed.

Lemma delete_user_admin ctx uid v : accounts_ok v -> has_admin v -> wp (delete_user (N := N) ctx uid) (fun _ => has_admin) v.
Proof.
  intros Hok Had. unfold delete_user. apply wp_bind, wp_lift. destruct (require_admin ctx); [|done].
  apply guarded_admin; [done..|]. intros u (x & Hx & Ha & Hne). destruct v as [i d].
  apply wp_bind, wp_db, wp_astmt; [done|]. simpl. apply wp_ret. exists x. simpl. split; [|done].
  apply elem_of_deleted. split; [|done]. rewrite user_is_string. by apply Z.eqb_neq.
Qed.

(** With a user there, setting up does nothing. *)
Lemma claimed_box {Y} (k : ST (Accounts N) AppError Y) (other : ST (Accounts N) AppError Y) (P : Identity * PolicyDb -> Prop) v :
  i_users (fst v) <> [] -> P v -> wp k (fun _ => P) v ->
  wp (exists_ ← db users_exists; if exists_ : bool then k else other) (fun _ => P) v.
Proof.
  intros Hne HP Hk. destruct v as [i d]. apply wp_bind, wp_db, wp_astmt; [done|]. simpl in *.
  rewrite bool_decide_eq_false_2 by done. exact Hk.
Qed.

Lemma admin_users v : has_admin v -> i_users (fst v) <> [].
Proof. intros (u & Hu & _) E. rewrite E in Hu. by apply not_elem_of_nil in Hu. Qed.

Lemma call_admin ctx c w : accounts_ok (view w) -> has_admin (view w) -> has_admin (view (run_account_call ctx c w)).
Proof.
  intros Hok Hw. destruct c; cbn [run_account_call];
    try (by apply (set_enabled_admin ctx uid enabled _ Hok Hw w)); try (by apply (set_role_admin ctx uid role _ Hok Hw w));
    try (by apply (delete_user_admin ctx uid _ Hok Hw w)).
  7: { apply (claimed_box (st_fail _) _ _ _ (admin_users _ Hw) Hw); [by apply wp_fail | done]. }
  10: { apply (claimed_box (mret tt) _ _ _ (admin_users _ Hw) Hw); [by apply wp_ret | done]. }
  all: apply (holds_after has_admin); try done; each_statement.
  all: try untouched. all: first [apply admin_created | apply admin_profile].
Qed.

(** Between calls, clock, provider, secrets, settings, storage's readiness and the
    other tables are anybody's, under the foreign keys. *)
Inductive astep : Accounts N -> Accounts N -> Prop :=
| as_call ctx c w : astep w (run_account_call ctx c w)
| as_outside n p w : t_users (po_db p) = t_users (po_db (ac_policy w)) ->
    (forall x o, x ∈ t_devices (po_db p) -> dr_owner_user_id x = Some o -> o ∈ t_users (po_db p)) ->
    astep w (set_ac_env n (set_ac_db p (ac_tables w) w)).

Lemma astep_ok w w' : astep w w' -> accounts_ok (view w) -> accounts_ok (view w').
Proof.
  intros [ctx c w1|n p w1 Hu Ho] Hw; [by apply call_ok|]. destruct Hw as [H1 H2 H3 H4 H5 H6 H7 H8 H9 H10 H11]. simpl in *.
  split; simpl; try done. by rewrite Hu.
Qed.

(** A token answered for now belongs to a session opened less than ninety days
    ago, however often it was refreshed since. *)
Definition recent_session (token : str) (uid : Uuid) (w : Accounts N) : Prop :=
  exists s, s ∈ i_sessions (ac_tables w) /\ se_token_hash s = hash_token token /\ se_user_id s = uid /\
    utc (ac_env w) < se_created_at s + CEILING.

Lemma live_join_recent token (w : Accounts N) s u : accounts_ok (view w) ->
  live_join (hash_token token) (utc (ac_env w)) (ac_tables w) = Some (s, u) ->
  recent_session token (se_user_id s) w.
Proof.
  intros Hok. unfold live_join. destruct (List.find _ _) as [x|] eqn:E; [|done]. simpl.
  destruct (user_of _ _) as [y|]; [|done]. simpl. destruct (us_enabled y); [|done]. intros [= -> ->].
  apply find_Some_elem in E as [Hs Hl]. unfold live_session in Hl.
  apply andb_true_iff in Hl as [[Hh%bool_decide_eq_true _]%andb_true_iff Hc%Z.ltb_lt].
  exists s. rewrite (ao_ceiling _ Hok s Hs) in Hc. done.
Qed.

Lemma find_joined {X} (f : SessionRow * UserRow -> X) (w : Accounts N) h now (o : option X) w' :
  db (aselect (fun i => f <$> live_join h now i)) w = (Ok o, w') -> o = f <$> live_join h now (ac_tables w).
Proof. unfold db, aselect, astmt. destruct (po_faults _) as [|[?|] ?]; intros [= <- _]; done. Qed.

Lemma validated_recent token (w : Accounts N) p : accounts_ok (view w) ->
  fst (validate_session token w) = Ok (Some p) -> recent_session token (user_id p) w.
Proof.
  intros Hok. unfold validate_session, sessions_find_principal, mbind, st_bind. simpl.
  destruct (db _ w) as [[o|e] w1] eqn:E; [|done]. apply find_joined in E. simpl. intros [= H].
  apply fmap_Some in H as (q & -> & ->). symmetry in E. apply fmap_Some in E as ([s u] & E & ->).
  simpl. by apply (live_join_recent token w s u).
Qed.

Lemma refreshed_recent ctx fresh token (w : Accounts N) r : accounts_ok (view w) ->
  fst (refresh_session remember_hours ctx fresh token w) = Ok r ->
  exists uid, context_user_id ctx = Ok uid /\ recent_session token uid w.
Proof.
  intros Hok. unfold refresh_session, sessions_find_for_refresh, mbind, st_bind, st_lift.
  destruct (require_authenticated ctx); [|done]. destruct (context_user_id ctx) as [uid|e]; [|done]. simpl.
  destruct (db _ w) as [[o|e] w1] eqn:E; [|done]. apply find_joined in E. subst o. simpl.
  destruct (live_join _ _ _) as [[s u]|] eqn:E; [|done]. simpl.
  destruct (Z.eqb_spec (se_user_id s) uid) as [<-|]; [|done]. simpl. intros _.
  exists (se_user_id s). split; [done|]. by eapply live_join_recent.
Qed.

(** C36: Over any history of calls of the sign-in and user services, one at a time
    and by any callers, with storage, secret store and provider failing at any
    point, users have unique ids and email addresses, a login name or provider
    account belongs to one user, nobody has two passwords, every password
    credential has its hash, tokens are unique, and no credential, invitation,
    session or device owner names a user that does not exist (push subscriptions
    and access requests, which keep the id of a deleted user, are not among them).
    No token is answered for, and none can be refreshed, ninety days after its
    session was opened, however often it was refreshed.  Once there is an enabled
    admin there always is one. *)
Theorem accounts_history_ok (w w' : Accounts N) : rtc astep w w' -> accounts_ok (view w) ->
  accounts_ok (view w') /\
  (forall token p, fst (validate_session token w') = Ok (Some p) -> recent_session token (user_id p) w') /\
  (forall ctx fresh token r, fst (refresh_session remember_hours ctx fresh token w') = Ok r ->
     exists uid, context_user_id ctx = Ok uid /\ recent_session token uid w') /\
  (has_admin (view w) -> has_admin (view w')).
Proof.
  intros H Hw. assert (Hh : accounts_ok (view w') /\ (has_admin (view w) -> has_admin (view w'))).
  { revert Hw. induction H as [|x y z Hxy _ IH]; [done|]. intros Hx. pose proof (astep_ok _ _ Hxy Hx) as Hy.
    destruct (IH Hy) as [Hz Ha]. split; [done|]. intros Hadm. apply Ha. destruct Hxy; [by apply call_admin | done]. }
  destruct Hh as [Hok Ha]. split; [done|]. split; [|split; [|done]].
  - intros token p. by apply validated_recent.
  - intros ctx fresh token r. by apply refreshed_recent.
Qed.

End calls.
