(* ===== verification/AccountSafety.v ===== *)
(** * Passwords, sessions and ceremonies

    A password only changes by its owner's hand; what a session token is good for
    and when it stops; that a disabled account looks like none; that invitations
    and sign-in ceremonies are used once. *)

From S2P Require Import Prelude RustStr Net Auth PolicyRouter RoutingTypes ZoneTypes PolicyDb LoginLimiter Tables.
From S2P Require Import AccountDb AccountService UserService AccountLaws.

Section passwords.
Context {N : Type} {AE : AccountEnv N} {U : UuidText} {UL : UuidTextLaws U} (hours remember_hours : Z).

(** ** Who can change a password *)

Section kept.
Context (r : CredentialRow) (Hr : cr_kind r = KPassword).

(** The password credential [r] still has its hash. *)
Definition is_r (c : CredentialRow) : Prop :=
  cr_id c = cr_id r /\ cr_user_id c = cr_user_id r /\ cr_kind c = KPassword /\ cr_secret c = cr_secret r.
Definition kept (v : Identity * PolicyDb) : Prop := exists c, c ∈ i_credentials (fst v) /\ is_r c.

#[export] Instance kept_settled : Settled kept.
Proof. by split. Qed.

Lemma kept_where f g i d : (forall c, c ∈ i_credentials i -> is_r c -> f c = true -> is_r (g c)) ->
  kept (i, d) -> kept (set_credentials (where_ f g (i_credentials i)) i, d).
Proof.
  intros Hg (c & Hc & Hi). exists (if f c then g c else c). simpl. split; [apply elem_of_where; eauto|].
  destruct (f c) eqn:E; auto.
Qed.

Lemma kept_deleted f i d : (forall c, is_r c -> f c = false) -> kept (i, d) -> kept (set_credentials (deleted f (i_credentials i)) i, d).
Proof. intros Hf (c & Hc & Hi). exists c. split; [|done]. apply elem_of_deleted. auto. Qed.

Lemma kept_touch id now : holds (W := Accounts N) kept (credentials_touch_last_used id now).
Proof. apply holds_astmt. intros i d. by apply kept_where. Qed.

Lemma kept_delete_by_kind u k : k <> KPassword -> holds (W := Accounts N) kept (credentials_delete_by_kind u k).
Proof.
  intros Hk. apply holds_aupdate. intros i d. apply kept_deleted. intros c (_ & _ & E & _).
  rewrite E, bool_decide_eq_false_2 by done. apply andb_false_r.
Qed.

Lemma kept_checked row i d : kept (i, d) ->
  kept (snd (fst (checked (insert_credential row i) i d)), snd (checked (insert_credential row i) i d)).
Proof.
  intros (c & Hc & Hi). unfold insert_credential. repeat case_match; simpl; try (by exists c).
  exists c. simpl. split; [apply elem_of_app; by left | done].
Qed.

Lemma kept_insert row : holds (W := Accounts N) kept (credentials_insert row).
Proof. apply holds_astmt. intros i d. apply kept_checked. Qed.

(** Somebody else's password, or the same hash. *)
Lemma kept_set_password id uid subject secret now : uid <> cr_user_id r \/ cr_secret r = Some secret ->
  holds (W := Accounts N) kept (credentials_set_password id uid subject secret now).
Proof.
  intros Hu. apply holds_astmt. intros i d Hv. cbv zeta. destruct (existsb _ _); [|by apply kept_checked].
  destruct (existsb _ _); [done|]. apply kept_where; [|done]. intros c _ (H1 & H2 & H3 & H4) [Hc _]%password_of_spec.
  split; [done|]. split; [done|]. split; [done|]. simpl. destruct Hu as [Hu|Hu]; [congruence | done].
Qed.

Lemma kept_users_delete uid : uid <> cr_user_id r -> holds (W := Accounts N) kept (users_delete (uuid_to_string uid)).
Proof.
  intros Hu. apply holds_astmt. intros i d (c & Hc & H1 & H2 & H3 & H4). exists c. simpl. split; [|done].
  apply elem_of_deleted. split; [|done]. rewrite has_id_string. apply Z.eqb_neq. congruence.
Qed.

(** The password of [uid], if it has one, is [r] or somebody else's. *)
Lemma found_password uid i d c : accounts_ok (i, d) -> r ∈ i_credentials i ->
  List.find (password_of (uuid_to_string uid)) (i_credentials i) = Some c -> c = r \/ uid <> cr_user_id r.
Proof.
  intros Hok Hin [Hc [Hu Hk]%password_of_spec]%find_Some_elem. destruct (decide (uid = cr_user_id r)) as [E|]; [left|by right].
  apply (NoDup_fmap_elem_inj cr_id (i_credentials i)); [apply (ao_credentials _ Hok) | done | done |].
  apply (ky_unique (ao_credentials _ Hok)); [done | done |]. right. by rewrite Hu.
Qed.

Lemma kept_own v : r ∈ i_credentials (fst v) -> kept v.
Proof. intros H. by exists r. Qed.

Lemma wp_holds {X E} (m : ST (Accounts N) E X) v (P : Identity * PolicyDb -> Prop) : holds P m -> P v -> wp m (fun _ => P) v.
Proof. auto. Qed.

Lemma kept_move_login uid email now v : accounts_ok v -> r ∈ i_credentials (fst v) ->
  wp (move_login (N := N) uid email now) (fun _ => kept) v.
Proof.
  intros Hok Hin. pose proof (kept_own v Hin) as Hk. destruct v as [i d]. unfold move_login.
  apply wp_bind, wp_db, wp_astmt; [done|]. simpl. destruct (List.find _ _) as [c|] eqn:Ef; [|by apply wp_ret].
  destruct (found_password _ _ _ _ Hok Hin Ef) as [->|Hne]; case_bool_decide; try (by apply wp_ret);
    (apply wp_bind, wp_lift; destruct (cr_secret _) eqn:Es; [|done]; apply wp_holds; [apply holds_link, kept_set_password | done]);
    [by right | by left].
Qed.

Lemma kept_update_profile ctx uid n e v : accounts_ok v -> r ∈ i_credentials (fst v) ->
  wp (update_profile (N := N) ctx uid n e) (fun _ => kept) v.
Proof.
  intros Hok Hin. pose proof (kept_own v Hin) as Hk. unfold update_profile.
  apply wp_bind, wp_lift. destruct (require_admin_or_self ctx uid); [|done].
  apply wp_bind, wp_lift. destruct (validate_display_name n); [|done].
  apply wp_bind, wp_lift. destruct (validate_email e); [|done].
  apply wp_bind, wp_quiet; [done|]. intros [now|?]; [|done].
  apply wp_bind. eapply wp_conseq; [by apply kept_move_login|]. intros [?|?] v' Hv'; [|done].
  apply wp_holds; [|done]. unfold load. walk. untouched.
Qed.

(** An account without password is not the owner of [r]. *)
Lemma kept_redeem cid salt token pw v : r ∈ i_credentials (fst v) -> wp (redeem_enrolment (N := N) cid salt token pw) (fun _ => kept) v.
Proof.
  intros Hin. pose proof (kept_own v Hin) as Hk. destruct v as [i d]. unfold redeem_enrolment, load.
  apply wp_bind, wp_lift. destruct (validate_password pw); [|done].
  apply wp_bind, wp_quiet; [done|]. intros [now|?]; [|done].
  apply wp_bind, wp_db, wp_astmt; [done|]. simpl. apply wp_bind, wp_lift. destruct (List.find _ _) as [row|]; simpl; [|done].
  apply wp_bind, wp_bind, wp_db, wp_astmt; [done|]. simpl. apply wp_lift. destruct (List.find (user_is _) _) as [u|]; simpl; [|done].
  destruct (us_enabled u); simpl; [|by apply wp_fail].
  apply wp_bind, wp_db, wp_astmt; [done|]. simpl. destruct (List.find _ _) as [c|] eqn:Ef; [by apply wp_fail|].
  assert (Hu : us_id u <> cr_user_id r).
  { intros E. pose proof (find_None_elem _ _ r Ef Hin) as C. rewrite <- not_true_iff_false in C. apply C. by apply password_of_spec. }
  apply wp_holds; [|done]. walk; [untouched | apply kept_set_password; by left].
Qed.

Lemma kept_change ctx salt cur new v : accounts_ok v -> r ∈ i_credentials (fst v) ->
  wp (change_own_password (N := N) ctx salt cur new) (fun _ v' => kept v' \/
    (context_user_id ctx = Ok (cr_user_id r) /\ exists s, cr_secret r = Some s /\ verify_password cur s = Ok tt)) v.
Proof.
  intros Hok Hin. pose proof (kept_own v Hin) as Hk. destruct v as [i d]. unfold change_own_password.
  apply wp_bind, wp_lift. destruct (require_authenticated ctx); [|by left].
  apply wp_bind, wp_lift. destruct (context_user_id ctx) as [uid|] eqn:Ec; [|by left].
  apply wp_bind, wp_lift. destruct (validate_password new); [|by left].
  apply wp_bind, wp_db, wp_astmt; [by left|]. simpl. apply wp_bind, wp_lift.
  destruct (List.find _ _) as [c|] eqn:Ef; simpl; [|by left].
  apply wp_bind, wp_lift. destruct (cr_secret c) as [s|] eqn:Es; simpl; [|by left].
  apply wp_bind, wp_lift. destruct (verify_password cur s) as [[]|] eqn:Ev; [|by left].
  destruct (found_password _ _ _ _ Hok Hin Ef) as [->|Hne].
  - eapply wp_conseq; [by apply (wp_holds _ _ (fun _ => True)); [intros ? ? ? ?|]|]. intros _ v' _. right.
    apply find_Some_elem in Ef as [_ [<- _]%password_of_spec]. split; [done|]. by exists s.
  - eapply wp_conseq; [apply (wp_holds _ _ kept); [|done]|by left]. walk; [apply kept_set_password; by left | untouched].
Qed.

End kept.

(** C37: Nobody but its owner, who must give the current password, can change the
    hash of a stored password, in whatever way the services are called and whatever
    fails; an admin can only delete the account. *)
Theorem password_owner_only (ctx : option AuthContext) (c : AccountCall) (w : Accounts N) (r : CredentialRow) :
  accounts_ok (view w) -> r ∈ i_credentials (ac_tables w) -> cr_kind r = KPassword ->
  kept r (view (run_account_call hours remember_hours ctx c w)) \/
  (c = CDeleteUser (cr_user_id r) /\ require_admin ctx = Ok tt) \/
  (exists salt cur new s, c = CChangePassword salt cur new /\ context_user_id ctx = Ok (cr_user_id r) /\
     cr_secret r = Some s /\ verify_password cur s = Ok tt).
Proof.
  intros Hok Hin Hr. pose proof (kept_own r Hr (view w) Hin) as Hk.
  assert (Hne : i_users (fst (view w)) <> []).
  { intros E. destruct (ao_credential_users _ Hok r Hin) as (u & Hu & _). rewrite E in Hu. by apply not_elem_of_nil in Hu. }
  destruct c; cbn [run_account_call];
    try (left; apply (holds_after (kept r)); [|exact Hk]; each_statement; try untouched;
         first [ by apply kept_touch | apply kept_delete_by_kind; by destruct p | by apply kept_insert ]).
  - left. apply (claimed_box (st_fail _) _ _ _ Hne Hk); [by apply wp_fail | done].
  - left. apply (claimed_box (mret tt) _ _ _ Hne Hk); [by apply wp_ret | done].
  - left. by apply (kept_update_profile r Hr ctx uid display_name email (view w) Hok Hin).
  - destruct (require_admin ctx) as [[]|e] eqn:Ea.
    2:{ left. unfold delete_user, mbind, st_bind, st_lift. by rewrite Ea. }
    destruct (decide (uid = cr_user_id r)) as [->|Hu]; [right; by left|].
    left. apply (holds_after (kept r)); [|exact Hk]. each_statement. by apply kept_users_delete.
  - destruct (kept_change r Hr ctx salt current_password new_password (view w) Hok Hin w eq_refl) as [?|[Hc (s & Hs & Hv)]]; [by left|].
    right. right. by exists salt, current_password, new_password, s.
  - left. exact (kept_redeem r Hr cred_id salt token password (view w) Hin w eq_refl).
Qed.

End passwords.

(** ** Sessions *)

Section sessions.
Context {N : Type} {AE : AccountEnv N} {U : UuidText} {UL : UuidTextLaws U}.

Lemma user_of_spec uid i d u : accounts_ok (i, d) -> user_of uid i = Some u <-> u ∈ i_users i /\ us_id u = uid.
Proof.
  intros Hok. unfold user_of. split.
  - intros [Hu E%Z.eqb_eq]%find_Some_elem. done.
  - intros [Hu <-]. destruct (List.find _ _) as [x|] eqn:E.
    + apply find_Some_elem in E as [Hx E%Z.eqb_eq]. f_equal.
      apply (NoDup_fmap_elem_inj us_id (i_users i)); [apply (ao_users _ Hok) | done..].
    + pose proof (find_None_elem _ _ u E Hu) as C. simpl in C. by rewrite Z.eqb_refl in C.
Qed.

Lemma live_join_spec h now i d s u : accounts_ok (i, d) -> live_join h now i = Some (s, u) <->
  s ∈ i_sessions i /\ se_token_hash s = h /\ now < se_expires_at s /\ now < se_created_at s + CEILING /\
  u ∈ i_users i /\ us_id u = se_user_id s /\ us_enabled u = true.
Proof.
  intros Hok. assert (Hl : forall x, x ∈ i_sessions i -> live_session h now x = true <->
    se_token_hash x = h /\ now < se_expires_at x /\ now < se_created_at x + CEILING).
  { intros x Hx. unfold live_session. rewrite (ao_ceiling _ Hok x Hx), !andb_true_iff, bool_decide_eq_true, !Z.ltb_lt. tauto. }
  unfold live_join. split.
  - destruct (List.find _ _) as [x|] eqn:E; [|done]. simpl. destruct (user_of _ _) as [y|] eqn:Eu; [|done]. simpl.
    destruct (us_enabled y) eqn:Ee; [|done]. intros [= -> ->]. apply find_Some_elem in E as [Hx Hx'].
    apply Hl in Hx' as (? & ? & ?); [|done]. apply (user_of_spec _ _ d) in Eu as [? ?]; [|done]. done.
  - intros (Hs & Hh & Hx & Hc & Hu & Hid & He).
    destruct (List.find _ _) as [x|] eqn:E.
    + apply find_Some_elem in E as [Hx' Hx'']. apply Hl in Hx'' as (Hh' & _ & _); [|done].
      assert (x = s) as ->.
      { apply (NoDup_fmap_elem_inj se_id (i_sessions i)); [apply (ao_sessions _ Hok) | done | done |].
        apply (ky_unique (ao_sessions _ Hok)); [done | done | unfold same_token; congruence]. }
      simpl. rewrite (proj2 (user_of_spec (se_user_id s) i d u Hok)) by done. simpl. by rewrite He.
    + pose proof (find_None_elem _ _ s E Hs) as C. rewrite <- not_true_iff_false in C. destruct C. by apply Hl.
Qed.

(** A session token names a user exactly while a session with its hash is
    within its sliding expiry and within ninety days of its opening and the user
    exists and is enabled, and with the role the user has now. *)
Theorem session_admits (w : Accounts N) (token : str) (p : AuthenticatedUser) :
  accounts_ok (view w) -> po_faults (ac_policy w) = [] ->
  fst (validate_session token w) = Ok (Some p) <->
  exists s u, s ∈ i_sessions (ac_tables w) /\ se_token_hash s = hash_token token /\ utc (ac_env w) < se_expires_at s /\
    utc (ac_env w) < se_created_at s + CEILING /\ u ∈ i_users (ac_tables w) /\ us_id u = se_user_id s /\
    us_enabled u = true /\ p = from_validated_session (us_id u) (us_role u).
Proof.
  intros Hok Hf. unfold validate_session, mbind, st_bind, db, sessions_find_principal, aselect, astmt. simpl. rewrite Hf. simpl.
  assert (H : forall s u, live_join (hash_token token) (utc (ac_env w)) (ac_tables w) = Some (s, u) <-> _)
    by (intros; exact (live_join_spec _ _ _ _ s u Hok)).
  destruct (live_join _ _ _) as [[s u]|] eqn:E; simpl; split.
  - intros [= <-]. destruct (proj1 (H s u) eq_refl) as (? & ? & ? & ? & ? & Hid & ?). exists s, u. split_and!; try done. by rewrite Hid.
  - intros (s' & u' & H1 & H2 & H3 & H4 & H5 & H6 & H7 & ->).
    assert (E' : Some (s, u) = Some (s', u')) by (by apply H). injection E' as -> ->. by rewrite H6.
  - done.
  - intros (s' & u' & H1 & H2 & H3 & H4 & H5 & H6 & H7 & _).
    assert (E' : None = Some (s', u')) by (by apply H). discriminate E'.
Qed.

(** ** Revocation *)

Definition no_session (uid : Uuid) (v : Identity * PolicyDb) : Prop := forall s, s ∈ i_sessions (fst v) -> se_user_id s <> uid.

#[local] Instance no_session_settled uid : Settled (no_session uid).
Proof. by split. Qed.

Lemma wp_any {X E} (m : ST (Accounts N) E X) v : wp m (fun _ _ => True) v.
Proof. by intros w _. Qed.

Ltac skip := apply wp_bind; eapply wp_conseq; [apply wp_any|]; intros [?|?] ? _; [|done].

Abbreviation on_ok P := (fun (r : result _ AppError) (v : Identity * PolicyDb) => if is_ok r then P v else True).

Lemma sessions_gone {Y} uid (k : Z -> ST (Accounts N) AppError Y) v : (forall n, holds (no_session uid) (k n)) ->
  wp (n ← db (sessions_delete_all_for_user (uuid_to_string uid)); k n) (on_ok (no_session uid)) v.
Proof.
  intros Hk. destruct v as [i d]. apply wp_bind, wp_db, wp_astmt; [done|]. simpl.
  eapply wp_conseq; [apply Hk|intros [] v' Hv'; done].
  intros s [Hs _]%elem_of_deleted. rewrite has_id_string in Hs. by apply Z.eqb_neq.
Qed.

Lemma disable_revokes ctx uid v : wp (set_enabled (N := N) ctx uid false) (on_ok (no_session uid)) v.
Proof. unfold set_enabled. skip. skip. skip. skip. skip. apply sessions_gone. intros n. unfold load. walk. Qed.

Lemma delete_revokes ctx uid v : wp (delete_user (N := N) ctx uid) (on_ok (no_session uid)) v.
Proof.
  unfold delete_user. skip. skip. skip. destruct v' as [i d]. apply wp_bind, wp_db, wp_astmt; [done|]. simpl. apply wp_ret.
  intros s [Hs _]%elem_of_deleted. rewrite has_id_string in Hs. by apply Z.eqb_neq.
Qed.

Lemma change_revokes ctx salt cur new uid v : context_user_id ctx = Ok uid ->
  wp (change_own_password (N := N) ctx salt cur new) (on_ok (no_session uid)) v.
Proof.
  intros Hc. unfold change_own_password. skip. rewrite Hc. apply wp_bind, wp_lift.
  do 8 skip. apply sessions_gone. intros n. walk.
Qed.

(** C38: Disabling or deleting a user, or changing one's password, ends every
    session of that user at once: whatever token is presented afterwards, it does
    not name that user. *)
Theorem revoked_at_once (ctx : option AuthContext) (uid : Uuid) (w w' : Accounts N) :
  (exists r, set_enabled ctx uid false w = (Ok r, w')) \/ (exists r, delete_user ctx uid w = (Ok r, w')) \/
  (exists salt cur new r, change_own_password ctx salt cur new w = (Ok r, w') /\ context_user_id ctx = Ok uid) ->
  forall n token p, fst (validate_session token (set_ac_env n w')) = Ok (Some p) -> user_id p <> uid.
Proof.
  intros H n token p Hp. assert (Hno : no_session uid (view w')).
  { destruct H as [[r H]|[[r H]|(salt & cur & new & r & H & Hc)]].
    - pose proof (disable_revokes ctx uid (view w) w eq_refl) as Q. by rewrite H in Q.
    - pose proof (delete_revokes ctx uid (view w) w eq_refl) as Q. by rewrite H in Q.
    - pose proof (change_revokes ctx salt cur new uid (view w) Hc w eq_refl) as Q. by rewrite H in Q. }
  revert Hp. unfold validate_session, mbind, st_bind, db, sessions_find_principal, aselect, astmt. simpl.
  assert (Hj : forall o, (fun q => from_validated_session (sp_user_id q) (sp_role q)) <$> ((fun '(s, u) =>
      {| sp_user_id := se_user_id s; sp_role := us_role u; sp_display_name := us_display_name u |}) <$> o) = Some p ->
      o = live_join (hash_token token) (utc n) (ac_tables w') -> user_id p <> uid).
  { intros [[s u]|] [= <-] E. symmetry in E. unfold live_join in E. simpl. apply Hno.
    destruct (List.find _ _) as [x|] eqn:Ef; [|done]. simpl in E. destruct (user_of _ _); [|done]. simpl in E.
    destruct (us_enabled _); [|done]. injection E as -> _. by apply find_Some_elem in Ef as [? _]. }
  destruct (po_faults _) as [|[?|] ?]; simpl; [|done|]; intros [= H1]; by eapply Hj.
Qed.

(** ** Disabled accounts *)

Definition without_credential (c : CredentialRow) (w : Accounts N) : Accounts N :=
  set_ac_db (ac_policy w) (set_credentials (deleted (fun x => cr_id x =? cr_id c) (i_credentials (ac_tables w))) (ac_tables w)) w.

(** A login to a disabled account cannot be told from a login to an account that
    does not exist: with the credential taken away the outcome and what the limiter
    remembers are the same, and neither changes an account or opens a session. *)
Theorem disabled_looks_unknown (hours remember_hours : Z) (sid : Uuid) (token : str) (rq : LoginAttempt) (w : Accounts N)
    (c : CredentialRow) (u : UserRow) :
  accounts_ok (view w) -> c ∈ i_credentials (ac_tables w) -> cr_kind c = KPassword ->
  cr_subject c = to_lowercase (trim (la_subject rq)) ->
  u ∈ i_users (ac_tables w) -> us_id u = cr_user_id c -> us_enabled u = false ->
  let '(r, w1) := login hours remember_hours sid token rq w in
  let '(r', w2) := login hours remember_hours sid token rq (without_credential c w) in
  r = r' /\ is_ok r = false /\ ac_limiter w1 = ac_limiter w2 /\ ac_tables w1 = ac_tables w /\
  ac_tables w2 = ac_tables (without_credential c w).
Proof.
  intros Hok Hc Hk Hs Hu Hid He. unfold login, mbind, st_bind, st_gets. simpl.
  destruct (limiter_check _ _ _ _); [done|].
  assert (H1 : forall x, x ∈ i_credentials (ac_tables w) -> same_login KPassword (cr_subject c) x = true -> x = c).
  { intros x Hx [E1%bool_decide_eq_true E2%bool_decide_eq_true]%andb_true_iff.
    apply (NoDup_fmap_elem_inj cr_id (i_credentials (ac_tables w))); [apply (ao_credentials _ Hok) | done | done |].
    apply (ky_unique (ao_credentials _ Hok)); [done | done |]. left. by rewrite Hk. }
  unfold db, credentials_find_for_login, aselect, astmt. simpl. rewrite <- Hs.
  assert (F1 : List.find (same_login KPassword (cr_subject c)) (deleted (fun x => cr_id x =? cr_id c) (i_credentials (ac_tables w))) = None).
  { destruct (List.find _ _) as [x|] eqn:E; [|done]. apply find_Some_elem in E as [[Hn Hx]%elem_of_deleted Hx'].
    rewrite (H1 x Hx Hx'), Z.eqb_refl in Hn. done. }
  rewrite F1. simpl.
  assert (F2 : forall A (f : CredentialRow -> UserRow -> A), (x ← List.find (same_login KPassword (cr_subject c)) (i_credentials (ac_tables w));
     v ← user_of (cr_user_id x) (ac_tables w); if us_enabled v then Some (f x v) else None) = None).
  { intros A f. destruct (List.find _ (i_credentials (ac_tables w))) as [x|] eqn:E; [|done].
    apply find_Some_elem in E as [Hx Hx']. rewrite (H1 x Hx Hx'). simpl.
    rewrite (proj2 (user_of_spec _ _ (po_db (ac_policy w)) u Hok)) by done. simpl. by rewrite He. }
  rewrite F2. destruct (po_faults (ac_policy w)) as [|[e|] fs]; simpl; done.
Qed.

End sessions.
