(* ===== verification/AccountInvites.v ===== *)
(** * Invitations and ceremonies

    An invitation token gives one account its first password, once: nothing the
    services do afterwards makes it usable again.  At the end, the in-memory store of
    open sign-in ceremonies against its history of operations. *)

From S2P Require Import Prelude RustStr Net Auth PolicyRouter RoutingTypes ZoneTypes PolicyDb LoginLimiter Tables.
From S2P Require Import AccountDb AccountService UserService AccountLaws AccountSafety.

Section invites.
Context {N : Type} {AE : AccountEnv N} {U : UuidText} {UL : UuidTextLaws U}.

(** ** A spent token stays spent *)

Section spent.
Variable h : str.

Definition spent (v : Identity * PolicyDb) : Prop :=
  forall e, e ∈ i_enrolments (fst v) -> en_token_hash e = h -> en_used_at e <> None.

#[local] Instance spent_settled : Settled spent.
Proof. by split. Qed.

Lemma spent_deleted f i d : spent (i, d) -> spent (set_enrolments (deleted f (i_enrolments i)) i, d).
Proof. intros Hs e [_ He]%elem_of_deleted. by apply Hs. Qed.

Lemma spent_users_delete id : holds (W := Accounts N) spent (users_delete id).
Proof. apply holds_astmt. intros i d Hs e [_ He]%elem_of_deleted. by apply Hs. Qed.

Lemma spent_enrolments_delete id : holds (W := Accounts N) spent (enrolments_delete id).
Proof. apply holds_aupdate. intros i d. apply spent_deleted. Qed.
Lemma spent_delete_expired now : holds (W := Accounts N) spent (enrolments_delete_expired now).
Proof. apply holds_aupdate. intros i d. apply spent_deleted. Qed.

Lemma spent_mark_used id now : holds (W := Accounts N) spent (enrolments_mark_used id now).
Proof.
  apply holds_aupdate. intros i d Hs e (x & Hx & ->)%elem_of_where. destruct (_ && _); [done|]. by apply Hs.
Qed.

Lemma spent_create row : en_token_hash row <> h -> holds (W := Accounts N) spent (enrolments_create row).
Proof.
  intros Hn. apply holds_astmt. intros i d Hs. repeat case_match; simplify_eq/=; [done..|].
  intros e [He| ->%list_elem_of_singleton]%elem_of_app; [by apply Hs | done].
Qed.

Definition mints (c : AccountCall) : bool := match c with CIssue _ tok _ => bool_decide (hash_token tok = h) | _ => false end.

Lemma spent_call hours remember_hours ctx c w : mints c = false -> spent (view w) ->
  spent (view (run_account_call hours remember_hours ctx c w)).
Proof.
  intros Hm Hs. destruct c; cbn [run_account_call]; apply (holds_after spent); try done; each_statement; try untouched;
    first [ apply spent_users_delete | apply spent_enrolments_delete | apply spent_delete_expired | apply spent_mark_used | idtac ].
  apply spent_create. by apply bool_decide_eq_false in Hm.
Qed.

(** A step of the accounts in which nobody draws the same token again. *)
Inductive invite_step (hours remember_hours : Z) : Accounts N -> Accounts N -> Prop :=
| is_call ctx c w : mints c = false -> invite_step hours remember_hours w (run_account_call hours remember_hours ctx c w)
| is_outside n p w : invite_step hours remember_hours w (set_ac_env n (set_ac_db p (ac_tables w) w)).

Lemma spent_steps hours remember_hours w w' : rtc (invite_step hours remember_hours) w w' -> spent (view w) -> spent (view w').
Proof. induction 1 as [|x y z Hxy _ IH]; [done|]. intros Hs. apply IH. destruct Hxy; [by apply spent_call | done]. Qed.

End spent.

(** ** Redeeming *)

(** The password row that a redemption leaves. *)
Definition first_password (salt password : str) (u : UserRow) (c : CredentialRow) : Prop :=
  cr_user_id c = us_id u /\ cr_kind c = KPassword /\ cr_subject c = login_subject (us_id u) (us_email u) /\
  exists secret, hash_password salt password = Ok secret /\ cr_secret c = Some secret.

Definition redeemed (token salt password : str) (u : UserRow) (v0 v : Identity * PolicyDb) : Prop :=
  spent (hash_token token) v /\ i_users (fst v) = i_users (fst v0) /\ u ∈ i_users (fst v0) /\ us_enabled u = true /\
  (forall c, c ∈ i_credentials (fst v0) -> cr_kind c = KPassword -> cr_user_id c <> us_id u) /\
  exists c, c ∈ i_credentials (fst v) /\ first_password salt password u c.

Lemma mark_spends h row now i d : accounts_ok (i, d) -> row ∈ i_enrolments i -> en_token_hash row = h ->
  spent h (set_enrolments (where_ (fun e => (en_id e =? en_id row) && bool_decide (en_used_at e = None)) (with_used now) (i_enrolments i)) i, d).
Proof.
  intros Hok Hr Hh e (x & Hx & ->)%elem_of_where.
  destruct (_ && _) eqn:E; [done|]. intros Hx'. apply andb_false_iff in E as [E%Z.eqb_neq|E%bool_decide_eq_false]; [|done].
  destruct E. apply (ky_unique (ao_enrolments _ Hok)); [done..|]. unfold same_invite. congruence.
Qed.

Lemma first_password_set cid salt pw u secret now i d : hash_password salt pw = Ok secret ->
  let '(r, i', _) := (if existsb (password_of (uuid_to_string (us_id u))) (i_credentials i)
    then (Err CredentialAlreadyLinkedError, i, d)
    else checked (insert_credential {| cr_id := cid; cr_user_id := us_id u; cr_kind := KPassword;
      cr_subject := login_subject (us_id u) (us_email u); cr_secret := Some secret; cr_label := None;
      cr_metadata := of_string "{}"; cr_created_at := now; cr_last_used_at := None |} i) i d) in
  r = Ok tt -> i_users i' = i_users i /\ i_enrolments i' = i_enrolments i /\
    exists c, c ∈ i_credentials i' /\ first_password salt pw u c.
Proof.
  intros Hs. unfold checked, insert_credential. repeat case_match; simplify_eq/=; try done.
  intros _. split_and!; try done. eexists. split; [apply elem_of_app; right; by apply list_elem_of_singleton|].
  split_and!; try done. by exists secret.
Qed.

Lemma redeem_wp cid salt token pw v : accounts_ok v ->
  wp (redeem_enrolment (N := N) cid salt token pw)
    (fun r v' => match r with Ok u => redeemed token salt pw u v v' | Err _ => True end) v.
Proof.
  intros Hok. destruct v as [i d]. unfold redeem_enrolment, load.
  apply wp_bind, wp_lift. destruct (validate_password pw); [|done].
  apply wp_bind, wp_quiet; [done|]. intros [now|?]; [|done].
  apply wp_bind, wp_db, wp_astmt; [done|]. simpl. apply wp_bind, wp_lift.
  destruct (List.find _ _) as [row|] eqn:Er; simpl; [|done]. apply find_Some_elem in Er as [Hr Hh].
  apply wp_bind, wp_bind, wp_db, wp_astmt; [done|]. simpl. apply wp_lift.
  destruct (List.find (user_is _) _) as [u|] eqn:Eu; simpl; [|done]. apply find_Some_elem in Eu as [Hu _].
  destruct (us_enabled u) eqn:Ee; simpl; [|by apply wp_fail].
  apply wp_bind, wp_db, wp_astmt; [done|]. simpl. destruct (List.find _ _) as [c|] eqn:Ef; [by apply wp_fail|].
  assert (Hn : forall c, c ∈ i_credentials i -> cr_kind c = KPassword -> cr_user_id c <> us_id u).
  { intros c Hc Hk E. pose proof (find_None_elem _ _ c Ef Hc) as C. rewrite <- not_true_iff_false in C. apply C. by apply password_of_spec. }
  apply wp_bind, wp_lift. destruct (hash_password salt pw) as [secret|] eqn:Es; [|done].
  apply wp_bind, wp_db, wp_astmt; [done|]. simpl. destruct (_ =? 0); [by apply wp_fail|].
  apply wp_bind, wp_link, wp_astmt; [done|]. simpl.
  destruct (existsb _ _) eqn:Ex.
  { apply existsb_elem in Ex as (c & Hc & Hp). pose proof (find_None_elem _ _ c Ef Hc). congruence. }
  apply andb_true_iff in Hh as [[Hh%bool_decide_eq_true _]%andb_true_iff _].
  pose proof (mark_spends _ row now i d Hok Hr Hh) as Hsp. set (i1 := set_enrolments _ i) in *.
  pose proof (first_password_set cid salt pw u secret now i1 d Es) as F. simpl in F. rewrite Ex in F.
  destruct (checked _ _ _) as [[[[]|e] i'] d']; simpl; [|done]. destruct (F eq_refl) as (F1 & F2 & F3).
  apply wp_ret. split_and!; try done. intros e. simpl. rewrite F2. apply Hsp.
Qed.

(** A spent token is refused and nothing is stored. *)
Lemma spent_refused cid salt token pw v : spent (hash_token token) v ->
  wp (redeem_enrolment (N := N) cid salt token pw) (fun r v' => is_ok r = false /\ v' = v) v.
Proof.
  intros Hs. destruct v as [i d]. unfold redeem_enrolment.
  apply wp_bind, wp_lift. destruct (validate_password pw); [|done].
  apply wp_bind, wp_quiet; [done|]. intros [now|?]; [|done].
  apply wp_bind, wp_db, wp_astmt; [done|]. simpl. apply wp_bind, wp_lift.
  destruct (List.find _ _) as [row|] eqn:Er; simpl; [|done].
  apply find_Some_elem in Er as [Hr [[Hh%bool_decide_eq_true _]%andb_true_iff Hu%bool_decide_eq_true]%andb_true_iff].
  by destruct (Hs row Hr Hh).
Qed.

(** C39: Redeeming an invitation gives an enabled account that had no password the
    chosen one under its login name and changes no account; and from then on,
    whatever calls follow and whoever makes them, as long as the same token is not
    drawn again, redeeming it is an error that changes nothing. *)
Theorem redeem_once (hours remember_hours : Z) (cid : Uuid) (salt token pw : str) (u : UserRow) (w w1 : Accounts N) :
  accounts_ok (view w) -> redeem_enrolment cid salt token pw w = (Ok u, w1) ->
  redeemed token salt pw u (view w) (view w1) /\
  forall w2 cid' salt' pw', rtc (invite_step (hash_token token) hours remember_hours) w1 w2 ->
    is_ok (fst (redeem_enrolment cid' salt' token pw' w2)) = false /\
    view (snd (redeem_enrolment cid' salt' token pw' w2)) = view w2.
Proof.
  intros Hok H. pose proof (redeem_wp cid salt token pw (view w) Hok w eq_refl) as R. rewrite H in R. split; [done|].
  intros w2 cid' salt' pw' Hl. assert (Hs : spent (hash_token token) (view w2)) by (eapply spent_steps; [done | apply R]).
  exact (spent_refused cid' salt' token pw' (view w2) Hs w2 eq_refl).
Qed.

End invites.

(** ** Sign-in ceremonies *)

Section ceremonies.
Context {T : Type}.

(** One operation of [CeremonyStore<T>], with the instant it reads. *)
Inductive CeremonyOp : Type := OpInsert (now : Z) (key : str) (value : T) | OpTake (now : Z) (key : str).

Definition op_key (o : CeremonyOp) : str := match o with OpInsert _ k _ => k | OpTake _ k => k end.

Definition ceremony_run (m : gmap str (T * Z)) (o : CeremonyOp) : gmap str (T * Z) :=
  match o with OpInsert now k v => ceremony_insert now k v m | OpTake now k => snd (ceremony_take now k m) end.

(** The newest operation on a key; the newest is last. *)
Definition newest_on (k : str) (ops : list CeremonyOp) : option CeremonyOp :=
  List.find (fun o => bool_decide (op_key o = k)) (rev ops).

Lemma newest_snoc k ops o : newest_on k (ops ++ [o]) = if decide (op_key o = k) then Some o else newest_on k ops.
Proof. unfold newest_on. rewrite rev_app_distr. simpl. by case_bool_decide; case_decide. Qed.

Lemma oldest_open (m : gmap str (T * Z)) : m <> ∅ -> exists k, oldest m = Some k /\ is_Some (m !! k).
Proof.
  intros Hm. unfold oldest. destruct (map_to_list m) as [|e l] eqn:E.
  { by apply map_to_list_empty_iff in E. }
  eexists. split; [done|]. assert (H : foldl older e l ∈ map_to_list m).
  { rewrite E. clear. revert e. induction l as [|x l IH]; intros e; simpl; [by left|].
    specialize (IH (older e x)). unfold older in *. destruct (_ <? _); set_solver. }
  destruct (foldl older e l) as [k x]. apply elem_of_map_to_list in H. by exists x.
Qed.

Lemma insert_size (now : Z) (k : str) (v : T) (m : gmap str (T * Z)) : (size m <= MAX_OPEN)%nat -> (size (ceremony_insert now k v m) <= MAX_OPEN)%nat.
Proof.
  intros Hm. unfold ceremony_insert. cbv zeta. set (f := filter _ m).
  assert (Hf : (size f <= size m)%nat) by (apply map_subseteq_size, map_filter_subseteq).
  assert (H : (size (if bool_decide (MAX_OPEN <= size f)%nat
      then match oldest f with Some k => delete k f | None => f end else f) < MAX_OPEN)%nat).
  { case_bool_decide as Hs; [|lia]. destruct (oldest_open f) as (k' & -> & Hk).
    { intros ->. rewrite map_size_empty in Hs. unfold MAX_OPEN in Hs. lia. }
    rewrite map_size_delete. destruct Hk as [x ->]. unfold MAX_OPEN in *. lia. }
  set (g := if bool_decide _ then _ else _) in *. rewrite map_size_insert. destruct (g !! k); simpl; lia.
Qed.

(** Inserting keeps or drops what was there. *)
Lemma insert_lookup_old (now : Z) (k : str) (v : T) (m : gmap str (T * Z)) k' e : ceremony_insert now k v m !! k' = Some e ->
  (k' = k /\ e = (v, now)) \/ (k' <> k /\ m !! k' = Some e).
Proof.
  unfold ceremony_insert. cbv zeta. set (f := filter _ m).
  intros [[-> <-]|[Hn H]]%lookup_insert_Some; [by left|]. right. split; [done|].
  assert (Hf : f !! k' = Some e).
  { case_bool_decide; [|done]. destruct (oldest f); [|done]. by apply lookup_delete_Some in H as [_ ?]. }
  by apply map_lookup_filter_Some in Hf as [? _].
Qed.

Definition ceremonies_ok (ops : list CeremonyOp) (m : gmap str (T * Z)) : Prop :=
  (size m <= MAX_OPEN)%nat /\ forall k v t, m !! k = Some (v, t) -> newest_on k ops = Some (OpInsert t k v).

Lemma ceremonies_step ops m o : ceremonies_ok ops m -> ceremonies_ok (ops ++ [o]) (ceremony_run m o).
Proof.
  intros [Hs Hm]. destruct o as [now k v|now k]; simpl; split.
  - by apply insert_size.
  - intros k' v' t H. rewrite newest_snoc. simpl. apply insert_lookup_old in H as [[-> [= -> ->]]|[Hn H]].
    + by rewrite decide_True.
    + rewrite decide_False by done. by apply Hm.
  - unfold ceremony_take. destruct (m !! k) as [[v t]|]; simpl; [|done]. rewrite map_size_delete. case_match; simpl in *; unfold MAX_OPEN in *; lia.
  - intros k' v' t H. rewrite newest_snoc. simpl. unfold ceremony_take in H.
    case_decide as Hk; [subst k'|].
    + destruct (m !! k) as [[v0 t0]|] eqn:E; simpl in H; [by rewrite lookup_delete_eq in H | congruence].
    + apply Hm. destruct (m !! k) as [[v0 t0]|]; simpl in H; [by apply lookup_delete_Some in H as [_ ?] | done].
Qed.

(** However many ceremonies anybody opens, at most 256 are kept, and a nonce
    opens the ceremony it was last stored with, within five minutes of that and
    never again once it was presented, whatever the outcome. *)
Theorem ceremony_single_use (ops : list CeremonyOp) (now : Z) (key : str) (v : T) :
  let m := foldl ceremony_run ∅ ops in
  (size m <= 256)%nat /\
  (fst (ceremony_take now key m) = Some v ->
   exists t, newest_on key ops = Some (OpInsert t key v) /\ duration_since now t < CEREMONY_TTL).
Proof.
  assert (H : ceremonies_ok ops (foldl ceremony_run ∅ ops)).
  { induction ops as [|o ops IH] using rev_ind; [split; [apply Nat.le_0_l | done]|].
    rewrite foldl_app. by apply ceremonies_step. }
  destruct H as [Hs Hm]. split; [exact Hs|]. unfold ceremony_take.
  destruct (_ !! key) as [[v0 t]|] eqn:E; simpl; [|done]. destruct (_ <=? _) eqn:El; [done|]. intros [= <-].
  exists t. apply Z.leb_gt in El. split; [by apply Hm | done].
Qed.

End ceremonies.
