(* ===== verification/InboundWg.v ===== *)
(** * The inbound WireGuard server

    [wardnetd-services/src/inbound_wg]: the service with every method and helper
    ([service.rs]), the interface trait ([interface.rs]), the key-store facade
    ([key_store.rs]) and key generation ([keygen.rs]), over the peer repository
    ([sqlite/inbound_wg.rs]), the settings it keeps in [system_config], the
    entitlement handle ([entitlement.rs]) and its listener
    ([wardnetd/src/entitlement_listener.rs], the inbound half).

    The peer table shares the database and its fault oracle with [PolicyDb]; ids and
    times in it hold the value they stand for.  Base64, X25519, [ipnetwork], the secret
    store, the interface and the firewall are an environment [N]; fresh ids and random
    bytes are arguments.  Keys are their 32 bytes. *)

From S2P Require Import Prelude RustStr Net Auth PolicyRouter RoutingTypes ZoneTypes PolicyDb ZoneService DeviceService.
From S2P Require Import Tables AccountService.

(** ** Entitlement *)

(** [publisher] says whether a sink is wired; [en_events] is what it received. *)
Record Entitlement : Type := {
  en_suspended : bool;
  en_premium : bool;
  en_publisher : bool;
  en_events : list bool;
}.

Definition entitlement_shared : Entitlement :=
  {| en_suspended := false; en_premium := false; en_publisher := false; en_events := [] |}.

Definition set_publisher (e : Entitlement) : Entitlement :=
  {| en_suspended := en_suspended e; en_premium := en_premium e; en_publisher := true; en_events := en_events e |}.

Definition is_suspended (e : Entitlement) : bool := en_suspended e.
Definition is_entitled (e : Entitlement) : bool := en_premium e && negb (is_suspended e).

Definition emit_if_entitlement_changed (was_entitled : bool) (e : Entitlement) : Entitlement :=
  if Bool.eqb (is_entitled e) was_entitled then e
  else if en_publisher e
  then {| en_suspended := en_suspended e; en_premium := en_premium e; en_publisher := en_publisher e;
          en_events := en_events e ++ [is_entitled e] |}
  else e.

Definition with_flags (suspended premium : bool) (e : Entitlement) : Entitlement :=
  {| en_suspended := suspended; en_premium := premium; en_publisher := en_publisher e; en_events := en_events e |}.

Definition suspend (e : Entitlement) : Entitlement :=
  emit_if_entitlement_changed (is_entitled e) (with_flags true (en_premium e) e).
Definition restore (e : Entitlement) : Entitlement :=
  emit_if_entitlement_changed (is_entitled e) (with_flags false (en_premium e) e).
Definition set_premium (premium : bool) (e : Entitlement) : Entitlement :=
  emit_if_entitlement_changed (is_entitled e) (with_flags (en_suspended e) premium e).

(** ** The interface trait *)

Section interface.
Context {I : Type}.

Record InboundWgServerConfig : Type := {
  is_interface_name : str;
  is_private_key : list Z;
  is_listen_port : Z;
  is_address : list I;
}.

Record InboundWgPeerConfig : Type := {
  ip_public_key : list Z;
  ip_allowed_ips : list I;
  ip_preshared_key : option (list Z);
  ip_persistent_keepalive : option Z;
}.

End interface.
Arguments InboundWgServerConfig : clear implicits.
Arguments InboundWgPeerConfig : clear implicits.

Record InboundWgPeerStats : Type := {
  ws_public_key : list Z;
  ws_bytes_tx : Z;
  ws_bytes_rx : Z;
  ws_last_handshake : option Z;
}.

Class InboundWgInterface (N I : Type) : Type := {
  ii_ensure_server : InboundWgServerConfig I -> ST N str unit;
  ii_tear_down_server : str -> ST N str unit;
  ii_add_peer : str -> InboundWgPeerConfig I -> ST N str unit;
  ii_remove_peer : str -> list Z -> ST N str unit;
  ii_peer_stats : str -> ST N str (list InboundWgPeerStats);
}.

(** Everything else the service uses that is not the database. *)
Class InboundEnv (N : Type) : Type := {
  WgNetwork : Type;
  ie_interface :: InboundWgInterface N WgNetwork;
  base64_encode : list Z -> str;
  base64_decode : str -> result (list Z) str;
  x25519_base : list Z -> list Z;
  network_new : Ipv4Addr -> Z -> WgNetwork;
  network_parse : str -> result WgNetwork str;
  store_put : str -> str -> ST N str unit;
  store_get : str -> ST N str (option str);
  store_delete : str -> ST N str unit;
  utf8_error : str -> str;
  vpn_add_masquerade : str -> ST N str unit;
  vpn_remove_masquerade : str -> ST N str unit;
  add_inbound_wg_accept : Z -> ST N str unit;
  remove_inbound_wg_accept : ST N str unit;
  vpn_now : N -> Z;
}.

(** ** [keygen.rs] *)

(** Curve25519 clamping. *)
Definition clamp (random : list Z) : list Z :=
  alter (fun b => Z.lor (Z.land b 127) 64) 31%nat (alter (fun b => Z.land b 248) 0%nat random).

(** ** The peer table *)

Record InboundWgPeerRow : Type := {
  pr_id : Uuid;
  pr_public_key : str;
  pr_allowed_ip : str;
  pr_name : str;
  pr_enabled : bool;
  pr_created_at : Z;
  pr_device_id : option Uuid;
}.

Inductive InsertError : Type := DeviceAlreadyGrantedError | OtherInsertError (msg : str).

Record InboundWgPeerSummary : Type := {
  ps_id : Uuid;
  ps_name : str;
  ps_public_key : str;
  ps_allowed_ip : str;
  ps_enabled : bool;
  ps_created_at : Z;
  ps_device_id : option Uuid;
}.

(** Stored ids and times were written by this program, so reading them does not fail. *)
Definition row_to_summary (row : InboundWgPeerRow) : InboundWgPeerSummary :=
  {| ps_id := pr_id row; ps_name := pr_name row; ps_public_key := pr_public_key row;
     ps_allowed_ip := pr_allowed_ip row; ps_enabled := pr_enabled row; ps_created_at := pr_created_at row;
     ps_device_id := pr_device_id row |}.

Record InboundWgConfigResponse : Type := {
  cr_enabled : bool;
  cr_listen_port : Z;
  cr_server_public_key : option str;
}.

Record AddInboundWgPeerResponse : Type := {
  ap_id : Uuid;
  ap_name : str;
  ap_public_key : str;
  ap_allowed_ip : str;
  ap_client_config : option str;
}.

Record InboundWgMonitorPeer : Type := {
  mp_device_id : Uuid;
  mp_public_key : list Z;
  mp_allowed_ip : str;
}.

(** ** [str::parse::<u16>] with its error *)

Fixpoint digits_error (bound acc : Z) (s : str) : str :=
  match s with
  | [] => []
  | c :: rest =>
      if is_ascii_digit c
      then let acc' := acc * 10 + digit_val c in
           if acc' <=? bound then digits_error bound acc' rest
           else of_string "number too large to fit in target type"
      else of_string "invalid digit found in string"
  end.

Definition parse_int_error (bound : Z) (s : str) : str :=
  match s with
  | [] => of_string "cannot parse integer from empty string"
  | [c] => if bool_decide (c = "+"%char) then of_string "invalid digit found in string" else digits_error bound 0 s
  | c :: rest => if bool_decide (c = "+"%char) then digits_error bound 0 rest else digits_error bound 0 s
  end.

(** ** Constants *)

Definition INBOUND_WG_INTERFACE : str := of_string "wg_wardin0".
Definition SUBNET_MASK : Z := 24.
Definition SERVER_HOST : Z := 1.
Definition SERVER_KEY_PATH : str := of_string "wireguard-inbound/server.key".

(** [SUBNET_PREFIX] and a last octet. *)
Definition subnet_ip (host : Z) : Ipv4Addr := ipv4_new 10 100 64 host.
Definition subnet_text (host : Z) : str :=
  show_u8 10 ++ "." ++ show_u8 100 ++ "." ++ show_u8 64 ++ "." ++ show_u8 host.

Section service.
Context {N : Type} {E : InboundEnv N} {U : UuidText}.

Record Inbound : Type := {
  iw_env : N;
  iw_policy : Policy;
  iw_rows : list InboundWgPeerRow;
  iw_entitlement : Entitlement;
}.

Definition set_iw_env (n : N) (w : Inbound) : Inbound :=
  {| iw_env := n; iw_policy := iw_policy w; iw_rows := iw_rows w; iw_entitlement := iw_entitlement w |}.
Definition set_iw_policy (p : Policy) (w : Inbound) : Inbound :=
  {| iw_env := iw_env w; iw_policy := p; iw_rows := iw_rows w; iw_entitlement := iw_entitlement w |}.
Definition set_iw_rows (l : list InboundWgPeerRow) (w : Inbound) : Inbound :=
  {| iw_env := iw_env w; iw_policy := iw_policy w; iw_rows := l; iw_entitlement := iw_entitlement w |}.
Definition set_iw_entitlement (e : Entitlement) (w : Inbound) : Inbound :=
  {| iw_env := iw_env w; iw_policy := iw_policy w; iw_rows := iw_rows w; iw_entitlement := e |}.

Abbreviation M := (ST Inbound AppError).

(** A call of the environment, with its own error. *)
Definition outside {X} (m : ST N str X) : ST Inbound str X := fun w =>
  let '(r, n) := m (iw_env w) in (r, set_iw_env n w).
(** A call of the device service. *)
Definition device_call {X} (m : Svc X) : M X := fun w =>
  let '(r, p) := m (iw_policy w) in (r, set_iw_policy p w).
(** A call of the settings repository. *)
Definition config_call {X} (m : ST Policy str X) : ST Inbound str X := fun w =>
  let '(r, p) := m (iw_policy w) in (r, set_iw_policy p w).
(** One statement on the peer table. *)
Definition peers_stmt {X Er} (fault : str -> Er)
    (f : PolicyDb -> list InboundWgPeerRow -> result X Er * list InboundWgPeerRow) : ST Inbound Er X := fun w =>
  match po_faults (iw_policy w) with
  | Some e :: fs => (Err (fault e), set_iw_policy (set_faults fs (iw_policy w)) w)
  | fs => let '(r, l) := f (po_db (iw_policy w)) (iw_rows w) in
          (r, set_iw_rows l (set_iw_policy (set_faults (tail fs) (iw_policy w)) w))
  end.

(** [.map_err(AppError::Internal)] *)
Definition internally {X} (m : ST Inbound str X) : M X := fun w =>
  match m w with (Ok a, w') => (Ok a, w') | (Err e, w') => (Err (Internal e), w') end.
(** A call whose failure is only logged. *)
Definition attempted {X Er} (m : ST Inbound Er X) : M unit := fun w => (Ok tt, snd (m w)).

(** ** [sqlite/inbound_wg.rs] *)

(** The index on [device_id] is the youngest, and the first one looked at. *)
Definition peers_insert (row : InboundWgPeerRow) : ST Inbound InsertError unit :=
  peers_stmt OtherInsertError (fun d l =>
    if existsb (fun r => bool_decide (pr_device_id r = pr_device_id row /\ is_Some (pr_device_id row))) l
    then (Err DeviceAlreadyGrantedError, l)
    else if existsb (fun r => (pr_id r =? pr_id row) || bool_decide (pr_public_key r = pr_public_key row)
                              || bool_decide (pr_allowed_ip r = pr_allowed_ip row)) l
    then (Err (OtherInsertError unique_failed), l)
    else if match pr_device_id row with
            | Some v => negb (existsb (fun d => dr_id d =? v) (t_devices d))
            | None => false
            end
    then (Err (OtherInsertError foreign_key_failed), l)
    else (Ok tt, l ++ [row])).

Definition peers_select {X} (f : list InboundWgPeerRow -> X) : ST Inbound str X :=
  peers_stmt id (fun _ l => (Ok (f l), l)).

Definition oldest_first (a b : InboundWgPeerRow) : comparison :=
  match pr_created_at a ?= pr_created_at b with
  | Eq => str_compare (uuid_to_string (pr_id a)) (uuid_to_string (pr_id b))
  | c => c
  end.

Definition has_peer_id (id : Uuid) (r : InboundWgPeerRow) : bool := pr_id r =? id.

Definition peers_find_by_id (id : Uuid) : ST Inbound str (option InboundWgPeerRow) :=
  peers_select (List.find (has_peer_id id)).
Definition peers_find_by_device_id (v : Uuid) : ST Inbound str (option InboundWgPeerRow) :=
  peers_select (List.find (fun r => bool_decide (pr_device_id r = Some v))).
Definition peers_find_all : ST Inbound str (list InboundWgPeerRow) := peers_select (sort_by oldest_first).
Definition peers_find_enabled : ST Inbound str (list InboundWgPeerRow) :=
  peers_select (fun l => sort_by oldest_first (List.filter pr_enabled l)).

Definition peers_delete (id : Uuid) : ST Inbound str unit :=
  peers_stmt Datatypes.id (fun _ l => (Ok tt, deleted (has_peer_id id) l)).

Definition with_enabled (enabled : bool) (r : InboundWgPeerRow) : InboundWgPeerRow :=
  {| pr_id := pr_id r; pr_public_key := pr_public_key r; pr_allowed_ip := pr_allowed_ip r; pr_name := pr_name r;
     pr_enabled := enabled; pr_created_at := pr_created_at r; pr_device_id := pr_device_id r |}.

Definition peers_set_enabled (id : Uuid) (enabled : bool) : ST Inbound str unit :=
  peers_stmt Datatypes.id (fun _ l => (Ok tt, where_ (has_peer_id id) (with_enabled enabled) l)).

(** ** Settings *)

Definition inbound_wg_enabled : ST Policy str bool :=
  value ← cfg_get (of_string "inbound_wg_enabled"); mret (bool_decide (value = Some (of_string "true"))).
Definition set_inbound_wg_enabled (enabled : bool) : ST Policy str unit :=
  cfg_set (of_string "inbound_wg_enabled") (of_string (if enabled then "true" else "false")).
Definition inbound_wg_listen_port : ST Policy str Z :=
  value ← cfg_get (of_string "inbound_wg_listen_port");
  let text := default (of_string "51821") value in
  match parse_uint U16_MAX text with
  | Some port => mret port
  | None => st_fail ("invalid inbound_wg_listen_port: " ++ parse_int_error U16_MAX text)
  end.
Definition set_inbound_wg_listen_port (port : Z) : ST Policy str unit :=
  cfg_set (of_string "inbound_wg_listen_port") (show_u32 port).
Definition inbound_wg_server_pubkey : ST Policy str (option str) := cfg_get (of_string "inbound_wg_server_pubkey").
Definition set_inbound_wg_server_pubkey (pubkey : str) : ST Policy str unit :=
  cfg_set (of_string "inbound_wg_server_pubkey") pubkey.

(** ** [key_store.rs] *)

Definition server_save_key (private_key : str) : ST N str unit := store_put SERVER_KEY_PATH private_key.
Definition server_load_key : ST N str (option str) :=
  bytes ← store_get SERVER_KEY_PATH;
  match bytes with
  | None => mret None
  | Some b => if is_utf8 b then mret (Some b)
              else st_fail ("inbound server private key is not valid utf-8: " ++ utf8_error b)
  end.
Definition server_delete_key : ST N str unit := store_delete SERVER_KEY_PATH.

(** ** Helpers of the service *)

Definition require_entitled : M unit := fun w =>
  (if is_entitled (iw_entitlement w) then Ok tt
   else Err (Forbidden "inbound WireGuard (Personal VPN) requires an active Premium subscription"), w).

Definition generate_keypair (random : list Z) : list Z * list Z :=
  let private := clamp random in (private, x25519_base private).

Definition encode_key (bytes : list Z) : str := base64_encode bytes.

Definition decode_key (b64 : str) : result (list Z) AppError :=
  match base64_decode (trim b64) with
  | Err e => Err (Internal ("invalid base64 key: " ++ e))
  | Ok bytes => if Nat.eqb (length bytes) 32 then Ok bytes else Err (Internal "WireGuard key must be 32 bytes")
  end.

Definition server_address : WgNetwork := network_new (subnet_ip SERVER_HOST) SUBNET_MASK.

Definition NL : str := [ascii_of_nat 10].

Definition build_client_config (private_key_b64 allowed_ip server_pubkey_b64 endpoint : str) : str :=
  "[Interface]" ++ NL
  ++ "PrivateKey = " ++ private_key_b64 ++ NL
  ++ "Address = " ++ allowed_ip ++ NL
  ++ "DNS = " ++ subnet_text SERVER_HOST ++ NL
  ++ NL
  ++ "[Peer]" ++ NL
  ++ "PublicKey = " ++ server_pubkey_b64 ++ NL
  ++ "Endpoint = " ++ endpoint ++ NL
  ++ "AllowedIPs = 0.0.0.0/0, ::/0" ++ NL
  ++ "PersistentKeepalive = 25" ++ NL.

(** [random] is what [rand::fill] yields if a key has to be made. *)
Definition ensure_server_keypair (random : list Z) : M (list Z * str) :=
  stored ← internally (outside server_load_key);
  '(private, pub_b64) ← match stored with
    | Some priv_b64 =>
        private ← st_lift (decode_key priv_b64);
        mret (private, encode_key (x25519_base private))
    | None =>
        let '(private, public) := generate_keypair random in
        _ ← internally (outside (server_save_key (encode_key private)));
        mret (private, encode_key public)
    end;
  _ ← internally (config_call (set_inbound_wg_server_pubkey pub_b64));
  mret (private, pub_b64).

Definition peer_row_to_config (row : InboundWgPeerRow) : result (InboundWgPeerConfig WgNetwork) AppError :=
  let? public_key := decode_key (pr_public_key row) in
  match network_parse (pr_allowed_ip row) with
  | Err e => Err (Internal ("invalid stored allowed_ip: " ++ e))
  | Ok allowed_ip => Ok {| ip_public_key := public_key; ip_allowed_ips := [allowed_ip]; ip_preshared_key := None;
                           ip_persistent_keepalive := None |}
  end.

Definition host_octet (ip : Ipv4Addr) : Z := let '(_, _, _, d) := octets ip in d.

Definition used_hosts (existing : list InboundWgPeerRow) : list Z :=
  omap (fun r => host_octet <$> (head (split "/" (pr_allowed_ip r)) ≫= parse_ipv4)) existing.

Definition allocate_ip (existing : list InboundWgPeerRow) : result str AppError :=
  match List.find (fun host => negb (bool_decide (host ∈ used_hosts existing))) (seqZ (SERVER_HOST + 1) 253) with
  | Some host => Ok (subnet_text host ++ "/32")
  | None => Err (Conflict "inbound WireGuard subnet is full - no free address")
  end.

(** A peer that is invalid or refused is skipped. *)
Definition readmit (row : InboundWgPeerRow) : M unit :=
  match peer_row_to_config row with
  | Ok config => attempted (outside (ii_add_peer INBOUND_WG_INTERFACE config))
  | Err _ => mret tt
  end.

Definition bring_up_server (private_key : list Z) (listen_port : Z) : M unit :=
  _ ← internally (outside (ii_ensure_server
        {| is_interface_name := INBOUND_WG_INTERFACE; is_private_key := private_key;
           is_listen_port := listen_port; is_address := [server_address] |}));
  enabled_peers ← internally peers_find_enabled;
  st_iter readmit enabled_peers.

Definition remove_peer_from_interface (row : InboundWgPeerRow) : M unit :=
  public_key ← st_lift (decode_key (pr_public_key row));
  attempted (outside (ii_remove_peer INBOUND_WG_INTERFACE public_key)).

Definition reset_peer_connection_mode (row : InboundWgPeerRow) : M unit :=
  match pr_device_id row with
  | Some v => attempted (device_call (clear_remote_connection_mode (uuid_to_string v)))
  | None => mret tt
  end.

(** ** The service *)

Section methods.
Context (ctx : option AuthContext).

Definition admin : M unit := st_lift (require_admin ctx).

Definition get_config : M InboundWgConfigResponse :=
  _ ← admin;
  enabled ← internally (config_call inbound_wg_enabled);
  listen_port ← internally (config_call inbound_wg_listen_port);
  server_public_key ← internally (config_call inbound_wg_server_pubkey);
  mret {| cr_enabled := enabled; cr_listen_port := listen_port; cr_server_public_key := server_public_key |}.

(** The firewall rules of a running server. *)
Definition open_firewall (listen_port : Z) : M unit :=
  _ ← internally (outside (vpn_add_masquerade INBOUND_WG_INTERFACE));
  internally (outside (add_inbound_wg_accept listen_port)).

Definition set_config (enabled : bool) (listen_port : Z) (random : list Z) : M InboundWgConfigResponse :=
  _ ← admin;
  if enabled then
    _ ← require_entitled;
    '(private_key, server_pubkey) ← ensure_server_keypair random;
    _ ← bring_up_server private_key listen_port;
    _ ← open_firewall listen_port;
    _ ← internally (config_call (set_inbound_wg_enabled true));
    _ ← internally (config_call (set_inbound_wg_listen_port listen_port));
    mret {| cr_enabled := true; cr_listen_port := listen_port; cr_server_public_key := Some server_pubkey |}
  else
    _ ← internally (outside (vpn_remove_masquerade INBOUND_WG_INTERFACE));
    _ ← internally (outside remove_inbound_wg_accept);
    _ ← attempted (outside (ii_tear_down_server INBOUND_WG_INTERFACE));
    _ ← internally (config_call (set_inbound_wg_enabled false));
    server_pubkey ← internally (config_call inbound_wg_server_pubkey);
    mret {| cr_enabled := false; cr_listen_port := listen_port; cr_server_public_key := server_pubkey |}.

Definition insert_peer (row : InboundWgPeerRow) : M unit := fun w =>
  match peers_insert row w with
  | (Ok _, w') => (Ok tt, w')
  | (Err DeviceAlreadyGrantedError, w') => (Err (Conflict "device already has a remote-access credential"), w')
  | (Err (OtherInsertError e), w') => (Err (Internal e), w')
  end.

(** The interface takes the new peer, or its row goes again. *)
Definition admit_or_roll_back (id : Uuid) (config : InboundWgPeerConfig WgNetwork) : M unit := fun w =>
  match outside (ii_add_peer INBOUND_WG_INTERFACE config) w with
  | (Ok _, w') => (Ok tt, w')
  | (Err e, w') => (Err (Internal e), snd (attempted (peers_delete id) w'))
  end.

Definition add_peer (device_id : Uuid) (endpoint : option str) (fresh_id : Uuid) (random : list Z)
    : M AddInboundWgPeerResponse :=
  _ ← admin;
  _ ← require_entitled;
  enabled ← internally (config_call inbound_wg_enabled);
  if negb enabled
  then st_fail (Conflict "inbound WireGuard server is disabled - enable it before adding peers")
  else
  let device_id_str := uuid_to_string device_id in
  device ← device_call (get_device device_id_str);
  device ← st_lift (ok_or device (NotFound ("device " ++ device_id_str ++ " not found")));
  granted ← internally (peers_find_by_device_id device_id);
  match granted with
  | Some _ => st_fail (Conflict ("device " ++ device_id_str ++ " already has an inbound WireGuard credential"))
  | None =>
  match dr_name device with
  | None => st_fail (Conflict ("device " ++ device_id_str ++ " has no name - name it before granting remote access"))
  | Some name =>
  let '(private, public) := generate_keypair random in
  existing ← internally peers_find_all;
  allowed_ip ← st_lift (allocate_ip existing);
  now ← st_gets (fun w => vpn_now (iw_env w));
  let row := {| pr_id := fresh_id; pr_public_key := encode_key public; pr_allowed_ip := allowed_ip; pr_name := name;
                pr_enabled := true; pr_created_at := now; pr_device_id := Some device_id |} in
  _ ← insert_peer row;
  config ← st_lift (peer_row_to_config row);
  _ ← admit_or_roll_back fresh_id config;
  _ ← device_call (mark_managed ctx device_id_str);
  server_pubkey ← internally (config_call inbound_wg_server_pubkey);
  mret {| ap_id := fresh_id; ap_name := name; ap_public_key := encode_key public; ap_allowed_ip := allowed_ip;
          ap_client_config :=
            match server_pubkey, endpoint with
            | Some pubkey, Some endpoint =>
                Some (build_client_config (encode_key private) allowed_ip pubkey endpoint)
            | _, _ => None
            end |}
  end end.

Definition peer_with_id (id : Uuid) : M InboundWgPeerRow :=
  row ← internally (peers_find_by_id id);
  st_lift (ok_or row (NotFound ("inbound-wg peer " ++ uuid_to_string id ++ " not found"))).

Definition remove_peer (id : Uuid) : M unit :=
  _ ← admin;
  row ← peer_with_id id;
  _ ← remove_peer_from_interface row;
  _ ← internally (peers_delete id);
  reset_peer_connection_mode row.

Definition set_peer_enabled (id : Uuid) (enabled : bool) : M InboundWgPeerSummary :=
  _ ← admin;
  row ← peer_with_id id;
  if Bool.eqb (pr_enabled row) enabled then mret (row_to_summary row)
  else
    server_up ← internally (config_call inbound_wg_enabled);
    _ ← (if server_up : bool
         then if enabled
              then config ← st_lift (peer_row_to_config row);
                   internally (outside (ii_add_peer INBOUND_WG_INTERFACE config))
              else remove_peer_from_interface row
         else mret tt);
    _ ← internally (peers_set_enabled id enabled);
    _ ← (if enabled then mret tt else reset_peer_connection_mode row);
    mret (row_to_summary (with_enabled enabled row)).

Definition list_peers : M (list InboundWgPeerSummary) :=
  _ ← admin;
  rows ← internally peers_find_all;
  mret (row_to_summary <$> rows).

End methods.

Definition monitored (row : InboundWgPeerRow) : option InboundWgMonitorPeer :=
  match pr_device_id row, decode_key (pr_public_key row) with
  | Some v, Ok k =>
      Some {| mp_device_id := v; mp_public_key := k;
              mp_allowed_ip := default (pr_allowed_ip row) (head (split "/" (pr_allowed_ip row))) |}
  | _, _ => None
  end.

Definition list_peers_for_monitor : M (list InboundWgMonitorPeer) :=
  rows ← internally peers_find_enabled;
  mret (omap monitored rows).

Definition reconcile (random : list Z) : M unit :=
  enabled ← internally (config_call inbound_wg_enabled);
  if negb enabled then mret tt
  else
  entitled ← st_gets (fun w => is_entitled (iw_entitlement w));
  if negb entitled
  then
    _ ← internally (config_call (set_inbound_wg_enabled false));
    _ ← attempted (outside (ii_tear_down_server INBOUND_WG_INTERFACE));
    _ ← attempted (outside (vpn_remove_masquerade INBOUND_WG_INTERFACE));
    attempted (outside remove_inbound_wg_accept)
  else
    listen_port ← internally (config_call inbound_wg_listen_port);
    '(private_key, _) ← ensure_server_keypair random;
    _ ← bring_up_server private_key listen_port;
    open_firewall listen_port.

(** ** The entitlement listener *)

Definition disable_if_enabled : M unit :=
  config ← get_config (Some system_ctx);
  if cr_enabled config
  then _ ← set_config (Some system_ctx) false (cr_listen_port config) []; mret tt
  else mret tt.

(** The inbound half of one event: [entitled] is what [EntitlementChanged] carries. *)
Definition on_entitlement_changed (entitled : bool) : M unit :=
  if entitled then mret tt else attempted disable_if_enabled.

End service.
