(* ===== verification/InboundLaws.v ===== *)
(** * What the inbound server guarantees

    Whatever fails, the peer table keeps its keys, its addresses inside the subnet and
    its links to devices, and, while removals from the interface work, whoever is
    admitted has a row or had one that went with its deleted device.  While nothing fails,
    exactly the enabled peers of an enabled server are admitted and the firewall is open
    for it alone; a box that has lost its entitlement stops serving once the listener has
    caught up. *)

From S2P Require Import Prelude RustStr Net Auth PolicyRouter RoutingTypes ZoneTypes PolicyDb ZoneService DeviceService.
From S2P Require Import PolicyLaws Tables AccountService InboundWg.

(** ** What the interface, the firewall and the libraries promise *)

(** Who is admitted, whether traffic out of the interface is masqueraded, the port that
    is accepted, the stored server key. *)
Record Vpn : Type := {
  v_peers : gset (list Z);
  v_masquerade : bool;
  v_accept : option Z;
  v_key : option str;
}.

Definition with_peers (s : gset (list Z)) (v : Vpn) : Vpn :=
  {| v_peers := s; v_masquerade := v_masquerade v; v_accept := v_accept v; v_key := v_key v |}.
Definition with_masquerade (b : bool) (v : Vpn) : Vpn :=
  {| v_peers := v_peers v; v_masquerade := b; v_accept := v_accept v; v_key := v_key v |}.
Definition with_accept (p : option Z) (v : Vpn) : Vpn :=
  {| v_peers := v_peers v; v_masquerade := v_masquerade v; v_accept := p; v_key := v_key v |}.
Definition with_key (k : option str) (v : Vpn) : Vpn :=
  {| v_peers := v_peers v; v_masquerade := v_masquerade v; v_accept := v_accept v; v_key := k |}.

(** 32 bytes. *)
Definition is_key (k : list Z) : Prop := length k = 32%nat /\ Forall is_u8 k.

(** A call does [f] when it succeeds and [g] when it fails. *)
Definition effect {N V X} (see : N -> V) (m : ST N str X) (f g : V -> V -> Prop) : Prop :=
  forall n, (if is_ok (fst (m n)) then f else g) (see n) (see (snd (m n))).

Definition same {V} (v v' : V) : Prop := v' = v.
Definition becomes {V} (f : V -> V) (v v' : V) : Prop := v' = f v.
(** Peers are dropped, if anything. *)
Definition fewer (v v' : Vpn) : Prop := exists s, s ⊆ v_peers v /\ v' = with_peers s v.

Class InboundLaws (N : Type) {E : InboundEnv N} : Type := {
  vpn : N -> Vpn;
  base64_inverse k : is_key k -> base64_decode (base64_encode k) = Ok k;
  base64_graphic k : is_key k -> Forall (fun c => is_graphic c = true) (base64_encode k);
  x25519_key k : is_key (x25519_base k);
  network_parses host : 2 <= host <= 254 -> exists net, network_parse (subnet_text host ++ "/32") = Ok net;
  ensure_effect c : is_interface_name c = INBOUND_WG_INTERFACE -> effect vpn (ii_ensure_server c) fewer fewer;
  tear_down_effect : effect vpn (ii_tear_down_server INBOUND_WG_INTERFACE) (becomes (with_peers ∅)) fewer;
  add_effect c : effect vpn (ii_add_peer INBOUND_WG_INTERFACE c)
    (becomes (fun v => with_peers ({[ip_public_key c]} ∪ v_peers v) v)) same;
  remove_effect k : effect vpn (ii_remove_peer INBOUND_WG_INTERFACE k)
    (becomes (fun v => with_peers (v_peers v ∖ {[k]}) v)) same;
  masquerade_effect : effect vpn (vpn_add_masquerade INBOUND_WG_INTERFACE) (becomes (with_masquerade true)) same;
  unmasquerade_effect : effect vpn (vpn_remove_masquerade INBOUND_WG_INTERFACE) (becomes (with_masquerade false)) same;
  accept_effect p : effect vpn (add_inbound_wg_accept p) (becomes (with_accept (Some p)))
    (fun v v' => v' = v \/ v' = with_accept None v);
  unaccept_effect : effect vpn remove_inbound_wg_accept (becomes (with_accept None)) same;
  put_effect k : effect vpn (store_put SERVER_KEY_PATH k) (becomes (with_key (Some k))) same;
  get_effect : effect vpn (store_get SERVER_KEY_PATH) same same;
  get_result n r : fst (store_get SERVER_KEY_PATH n) = Ok r -> r = v_key (vpn n);
}.

(** ** What a call sees *)

Record Sight : Type := {
  sg_rows : list InboundWgPeerRow;
  sg_db : PolicyDb;
  sg_faults : list (option str);
  sg_entitlement : Entitlement;
  sg_vpn : Vpn;
}.

Section laws.
Context {N : Type} {E : InboundEnv N} {U : UuidText} {L : InboundLaws N}.

Definition sight (w : Inbound (N := N)) : Sight :=
  {| sg_rows := iw_rows w; sg_db := po_db (iw_policy w); sg_faults := po_faults (iw_policy w);
     sg_entitlement := iw_entitlement w; sg_vpn := vpn (iw_env w) |}.

#[export] Instance sight_view : View (Inbound (N := N)) Sight := {| view := sight |}.

Definition see_rows (l : list InboundWgPeerRow) (s : Sight) : Sight :=
  {| sg_rows := l; sg_db := sg_db s; sg_faults := sg_faults s; sg_entitlement := sg_entitlement s; sg_vpn := sg_vpn s |}.
Definition see_db (d : PolicyDb) (s : Sight) : Sight :=
  {| sg_rows := sg_rows s; sg_db := d; sg_faults := sg_faults s; sg_entitlement := sg_entitlement s; sg_vpn := sg_vpn s |}.
Definition see_faults (fs : list (option str)) (s : Sight) : Sight :=
  {| sg_rows := sg_rows s; sg_db := sg_db s; sg_faults := fs; sg_entitlement := sg_entitlement s; sg_vpn := sg_vpn s |}.
Definition see_vpn (v : Vpn) (s : Sight) : Sight :=
  {| sg_rows := sg_rows s; sg_db := sg_db s; sg_faults := sg_faults s; sg_entitlement := sg_entitlement s; sg_vpn := v |}.

Abbreviation post X Er := (result X Er -> Sight -> Prop).

(** ** Steps *)

Lemma wp_outside {X} (m : ST N str X) f g (Q : post X str) s : effect vpn m f g ->
  (forall x v, f (sg_vpn s) v -> Q (Ok x) (see_vpn v s)) -> (forall e v, g (sg_vpn s) v -> Q (Err e) (see_vpn v s)) ->
  wp (outside m) Q s.
Proof.
  intros He Hf Hg w <-. specialize (He (iw_env w)). unfold outside. simpl.
  destruct (m (iw_env w)) as [[x|e] n] eqn:Em; simpl in *; [by apply Hf | by apply Hg].
Qed.

Lemma wp_stored_key (Q : post (option str) str) s : Q (Ok (v_key (sg_vpn s))) s -> (forall e, Q (Err e) s) ->
  wp (outside (store_get SERVER_KEY_PATH)) Q s.
Proof.
  intros HQ He w <-. unfold outside. simpl. pose proof (get_effect (iw_env w)) as H. pose proof (get_result (iw_env w)) as Hr.
  destruct (store_get SERVER_KEY_PATH (iw_env w)) as [r n] eqn:Em. simpl in *.
  assert (Hn : vpn n = vpn (iw_env w)) by (destruct r; exact H). unfold sight. simpl. rewrite Hn.
  destruct r as [r|e]; [|apply He]. rewrite (Hr _ eq_refl). exact HQ.
Qed.

Lemma wp_internally {X} (m : ST (Inbound (N := N)) str X) (Q : post X AppError) s :
  wp m (fun r => Q (match r with Ok a => Ok a | Err e => Err (Internal e) end)) s -> wp (internally m) Q s.
Proof. intros H w Hw. specialize (H w Hw). unfold internally. by destruct (m w) as [[?|?] ?]. Qed.

Lemma wp_attempted {X Er} (m : ST (Inbound (N := N)) Er X) (Q : post unit AppError) s :
  wp m (fun _ => Q (Ok tt)) s -> wp (attempted m) Q s.
Proof. intros H w Hw. exact (H w Hw). Qed.

Lemma wp_peers {X Er} (fault : str -> Er) f (Q : post X Er) s :
  (forall e fs, sg_faults s = Some e :: fs -> Q (Err (fault e)) (see_faults fs s)) ->
  Q (fst (f (sg_db s) (sg_rows s))) (see_rows (snd (f (sg_db s) (sg_rows s))) (see_faults (tail (sg_faults s)) s)) ->
  wp (peers_stmt fault f) Q s.
Proof.
  intros He HQ w <-. unfold peers_stmt. simpl in *.
  destruct (po_faults (iw_policy w)) as [|[e|] fs] eqn:Ef; [|by apply He|]; revert HQ;
    by destruct (f (po_db (iw_policy w)) (iw_rows w)) as [r l].
Qed.

(** A setting is read, or written. *)
Lemma wp_cfg_get k (Q : post (option str) str) s :
  (forall e fs, sg_faults s = Some e :: fs -> Q (Err e) (see_faults fs s)) ->
  Q (Ok (t_config (sg_db s) !! k)) (see_faults (tail (sg_faults s)) s) -> wp (config_call (cfg_get k)) Q s.
Proof.
  intros He HQ w <-. unfold config_call, cfg_get, select, stmt. simpl in *.
  destruct (po_faults (iw_policy w)) as [|[e|] fs] eqn:Ef; [exact HQ | by apply He | exact HQ].
Qed.

Definition configured (k x : str) (s : Sight) : Sight :=
  see_db (PolicyDb.set_config (<[k := x]> (t_config (sg_db s))) (sg_db s)) s.

Lemma wp_cfg_set k x (Q : post unit str) s :
  (forall e fs, sg_faults s = Some e :: fs -> Q (Err e) (see_faults fs s)) ->
  Q (Ok tt) (configured k x (see_faults (tail (sg_faults s)) s)) -> wp (config_call (cfg_set k x)) Q s.
Proof.
  intros He HQ w <-. unfold config_call, cfg_set, execute, stmt. simpl in *.
  destruct (po_faults (iw_policy w)) as [|[e|] fs] eqn:Ef; [exact HQ | by apply He | exact HQ].
Qed.

Lemma wp_config_bind {X Y} (m : ST Policy str X) (k : X -> ST Policy str Y) (Q : post Y str) s :
  wp (config_call m) (fun r s' => match r with Ok a => wp (config_call (k a)) Q s' | Err e => Q (Err e) s' end) s ->
  wp (config_call (m ≫= k)) Q s.
Proof.
  intros H w Hw. specialize (H w Hw). unfold config_call, mbind, st_bind in *.
  destruct (m (iw_policy w)) as [[a|e] p] eqn:Em; simpl in *; [|exact H]. exact (H _ eq_refl).
Qed.

Lemma wp_config_lift {X} (r : result X str) (Q : post X str) s : Q r s -> wp (config_call (st_lift r)) Q s.
Proof. intros HQ w <-. by destruct w. Qed.

(** What the service asks of the device service leaves the devices there are, the settings, and a quiet database. *)
Definition mild {X} (m : Svc X) : Prop := forall p,
  dr_id <$> t_devices (po_db (snd (m p))) = dr_id <$> t_devices (po_db p)
  /\ t_config (po_db (snd (m p))) = t_config (po_db p) /\ (po_faults p = [] -> po_faults (snd (m p)) = []).

Definition mildly (s s' : Sight) : Prop := exists d fs, s' = see_db d (see_faults fs s)
  /\ dr_id <$> t_devices d = dr_id <$> t_devices (sg_db s) /\ t_config d = t_config (sg_db s) /\ (sg_faults s = [] -> fs = []).

Lemma wp_device {X} (m : Svc X) (Q : post X AppError) s : mild m -> (forall r s', mildly s s' -> Q r s') -> wp (device_call m) Q s.
Proof.
  intros Hm HQ w <-. unfold device_call. destruct (Hm (iw_policy w)) as (H1 & H2 & H3).
  destruct (m (iw_policy w)) as [r p]. simpl in *. apply HQ. by exists (po_db p), (po_faults p).
Qed.

Lemma mild_select {X} (f : PolicyDb -> result X str) : mild (repo (select f)).
Proof.
  intros p. unfold repo, select, stmt. destruct (po_faults p) as [|[e|] fs]; simpl; [destruct (f (po_db p))..|destruct (f (po_db p))];
    by simpl.
Qed.

Lemma mild_assign id u : mild (repo (execute (assign id u))).
Proof.
  intros p. unfold repo, execute, stmt. destruct (po_faults p) as [|[e|] fs]; simpl; [|done|];
    (split; [|done]); unfold assign_row; rewrite <- list_fmap_compose; apply list_fmap_ext; intros _ x _; simpl; destruct (has_id id (dr_id x));
    [|done| |done]; apply set_columns_id.
Qed.

Lemma mild_bind {X Y} (m : Svc X) (k : X -> Svc Y) : mild m -> (forall a, mild (k a)) -> mild (m ≫= k).
Proof.
  intros Hm Hk p. unfold mbind, st_bind. destruct (Hm p) as (H1 & H2 & H3). destruct (m p) as [[a|e] p'] eqn:Em; simpl in *; [|done].
  destruct (Hk a p') as (H4 & H5 & H6). rewrite H4, H5. auto.
Qed.

Lemma mild_pure {X} (r : result X AppError) : mild (st_lift r).
Proof. by intros p. Qed.

Lemma mild_get id : mild (get_device id).
Proof. apply mild_select. Qed.
Lemma mild_managed ctx id : mild (mark_managed ctx id).
Proof. apply mild_bind; [apply mild_pure | intros _; apply mild_assign]. Qed.
Lemma mild_clear id : mild (clear_remote_connection_mode id).
Proof.
  apply mild_bind; [apply mild_select|]. intros [v|]; [|apply (mild_pure (Ok tt))]. unfold when.
  case_match; [apply mild_assign | apply (mild_pure (Ok tt))].
Qed.

(** ** The table *)

Definition clash (x y : InboundWgPeerRow) : Prop :=
  pr_public_key x = pr_public_key y \/ pr_allowed_ip x = pr_allowed_ip y
  \/ (pr_device_id x = pr_device_id y /\ is_Some (pr_device_id x)).

Record row_fine (d : PolicyDb) (r : InboundWgPeerRow) : Prop := {
  rf_address : exists host, 2 <= host <= 254 /\ pr_allowed_ip r = subnet_text host ++ "/32";
  rf_key : exists k, is_key k /\ pr_public_key r = encode_key k;
  rf_device : exists v, pr_device_id r = Some v /\ v ∈ dr_id <$> t_devices d;
}.

Definition table_ok (d : PolicyDb) (l : list InboundWgPeerRow) : Prop :=
  keyed pr_id clash l /\ forall r, r ∈ l -> row_fine d r.

Definition key_of (r : InboundWgPeerRow) : option (list Z) :=
  match decode_key (pr_public_key r) with Ok k => Some k | Err _ => None end.

Definition stored_keys (l : list InboundWgPeerRow) : gset (list Z) := list_to_set (omap key_of l).

Lemma decode_key_encode k : is_key k -> decode_key (encode_key k) = Ok k.
Proof.
  intros Hk. unfold decode_key, encode_key. rewrite trim_id by (by apply trimmed_graphic, base64_graphic).
  rewrite base64_inverse by done. by rewrite (proj1 Hk).
Qed.

Lemma graphic_utf8 s : Forall (fun c => is_graphic c = true) s -> is_utf8 s = true.
Proof.
  induction 1 as [|c s Hc _ IH]; [done|]. change (is_utf8 (c :: s)) with (utf8_from 0 128 191 (c :: s)). simpl.
  assert (in_range 0 127 c = true) as ->; [|exact IH]. revert Hc. unfold is_graphic. all_bytes c.
Qed.

Lemma row_key d r : row_fine d r -> exists k, is_key k /\ pr_public_key r = encode_key k /\ key_of r = Some k.
Proof. intros [_ (k & Hk & E1) _]. exists k. split_and!; [done..|]. unfold key_of. by rewrite E1, decode_key_encode. Qed.

Lemma row_config d r : row_fine d r -> exists c, peer_row_to_config r = Ok c /\ key_of r = Some (ip_public_key c).
Proof.
  intros Hr. destruct (row_key d r Hr) as (k & Hk & E1 & E2). destruct (rf_address d r Hr) as (h & Hh & E3).
  unfold peer_row_to_config. rewrite E1, E3, decode_key_encode by done. destruct (network_parses h Hh) as [net ->]. eauto.
Qed.

Lemma elem_of_stored k l : k ∈ stored_keys l <-> exists r, r ∈ l /\ key_of r = Some k.
Proof. unfold stored_keys. rewrite elem_of_list_to_set, list_elem_of_omap. done. Qed.

Lemma key_id_row {A} (id : A -> Z) R l x y : keyed id R l -> x ∈ l -> y ∈ l -> id x = id y -> x = y.
Proof.
  intros [H _] [i Hi]%list_elem_of_lookup [j Hj]%list_elem_of_lookup E1.
  assert (i = j) as ->; [|congruence]. apply (NoDup_lookup (id <$> l) i j (id x)); [done|..]; rewrite list_lookup_fmap; [by rewrite Hi | by rewrite Hj, E1].
Qed.

(** Two rows with one key are one row. *)
Lemma key_unique d l x y k : table_ok d l -> x ∈ l -> y ∈ l -> key_of x = Some k -> key_of y = Some k -> pr_id x = pr_id y.
Proof.
  intros [Ht Hf] Hx Hy Ex Ey. destruct (row_key d x (Hf x Hx)) as (a & _ & Ea & Ea'), (row_key d y (Hf y Hy)) as (b & _ & Eb & Eb').
  apply (ky_unique Ht x y Hx Hy). left. congruence.
Qed.

Lemma table_ok_db d d' l : dr_id <$> t_devices d' = dr_id <$> t_devices d -> table_ok d l -> table_ok d' l.
Proof. intros E1 [H1 H2]. split; [done|]. intros r Hr. destruct (H2 r Hr) as [A B C]. split; [done..|]. by rewrite E1. Qed.

Lemma table_deleted d f l : table_ok d l -> table_ok d (deleted f l).
Proof. intros [H1 H2]. split; [by apply keyed_deleted|]. intros r [_ Hr]%elem_of_deleted. by apply H2. Qed.

Lemma table_enabled d f b l : table_ok d l -> table_ok d (where_ f (with_enabled b) l).
Proof.
  intros [H1 H2]. split.
  - apply keyed_where; [done | | done]. intros x y. by destruct (f x), (f y).
  - intros r (y & Hy & ->)%elem_of_where. destruct (H2 y Hy) as [A B C]. by destruct (f y); split.
Qed.

Lemma stored_where f b l : stored_keys (where_ f (with_enabled b) l) = stored_keys l.
Proof.
  apply set_eq. intros k. rewrite !elem_of_stored. setoid_rewrite elem_of_where. split.
  - intros (r & (y & Hy & ->) & Hk). exists y. by destruct (f y).
  - intros (r & Hr & Hk). exists (if f r then with_enabled b r else r). split; [eauto | by destruct (f r)].
Qed.

(** ** Whatever fails *)

Definition removals_reliable : Prop :=
  forall k n, k ∉ v_peers (vpn (snd (ii_remove_peer INBOUND_WG_INTERFACE k n))).

Lemma remove_strict k : effect vpn (ii_remove_peer INBOUND_WG_INTERFACE k)
  (becomes (fun v => with_peers (v_peers v ∖ {[k]}) v)) (fun v v' => v' = v /\ (removals_reliable -> k ∉ v_peers v)).
Proof.
  intros n. pose proof (remove_effect k n) as H. destruct (is_ok (fst (ii_remove_peer INBOUND_WG_INTERFACE k n))); [exact H|].
  split; [exact H|]. intros Hr. rewrite <- H. apply Hr.
Qed.

Section guarded.
(** The keys of peers whose rows went with their device. *)
Context (lost : gset (list Z)).

Definition guarded (s : Sight) : Prop :=
  table_ok (sg_db s) (sg_rows s) /\ (removals_reliable -> v_peers (sg_vpn s) ⊆ lost ∪ stored_keys (sg_rows s)).

Lemma guarded_db d s : dr_id <$> t_devices d = dr_id <$> t_devices (sg_db s) -> guarded s -> guarded (see_db d s).
Proof. intros E1 [H1 H2]. split; [|exact H2]. by apply (table_ok_db (sg_db s)). Qed.

Lemma guarded_mildly s s' : mildly s s' -> guarded s -> guarded s'.
Proof. intros (d & fs & -> & E1 & _) Hs. by apply guarded_db. Qed.

Lemma guarded_fewer v s : v_peers v ⊆ v_peers (sg_vpn s) -> guarded s -> guarded (see_vpn v s).
Proof. intros Hv [H1 H2]. split; [exact H1|]. intros Hr. simpl. specialize (H2 Hr). set_solver. Qed.

Lemma holds_outside {X} (m : ST N str X) f g : effect vpn m f g -> (forall v v', f v v' -> v_peers v' ⊆ v_peers v) ->
  (forall v v', g v v' -> v_peers v' ⊆ v_peers v) -> holds guarded (outside m).
Proof. intros He Hf Hg s Hs. eapply wp_outside; [exact He|..]; intros ? v Hv; apply guarded_fewer; eauto. Qed.

Lemma holds_internally {X} (m : ST (Inbound (N := N)) str X) P : holds P m -> holds P (internally m).
Proof. intros H s Hs. apply wp_internally. by apply H. Qed.
Lemma holds_attempted {X Er} (m : ST (Inbound (N := N)) Er X) P : holds P m -> holds P (attempted m).
Proof. intros H s Hs. apply wp_attempted. by apply H. Qed.
Lemma holds_lift {X Er} (r : result X Er) P : holds (W := Inbound (N := N)) (V := Sight) P (st_lift r).
Proof. intros s Hs. by apply wp_lift. Qed.

Lemma holds_device {X} (m : Svc X) : mild m -> holds guarded (device_call m).
Proof. intros Hm s Hs. apply wp_device; [done|]. intros r s' Hs'. by apply (guarded_mildly s). Qed.

Lemma holds_cfg_get k : holds guarded (config_call (cfg_get k)).
Proof. intros s Hs. by apply wp_cfg_get. Qed.
Lemma holds_cfg_set k x : holds guarded (config_call (cfg_set k x)).
Proof. intros s Hs. apply wp_cfg_set; [done|]. by apply guarded_db. Qed.
Lemma holds_config_bind {X Y} (m : ST Policy str X) (k : X -> ST Policy str Y) P :
  holds P (config_call m) -> (forall a, holds P (config_call (k a))) -> holds P (config_call (m ≫= k)).
Proof.
  intros Hm Hk s Hs. apply wp_config_bind. eapply wp_conseq; [by apply Hm|]. intros [a|e] s' Hs'; [by apply Hk | done].
Qed.
Lemma holds_config_lift {X} (r : result X str) P : holds P (config_call (st_lift r)).
Proof. intros s Hs. by apply wp_config_lift. Qed.

Lemma holds_peers_select {X} (f : list InboundWgPeerRow -> X) : holds guarded (peers_select f).
Proof. intros s Hs. unfold peers_select. by apply wp_peers. Qed.

Lemma wp_iter_in {Er X} (body : X -> ST (Inbound (N := N)) Er unit) (P : Sight -> Prop) xs s :
  (forall x s', x ∈ xs -> P s' -> wp (body x) (fun _ => P) s') -> P s -> wp (st_iter body xs) (fun _ => P) s.
Proof.
  revert s. induction xs as [|x xs IH]; intros s Hb Hs; simpl; [by apply wp_ret|].
  apply wp_bind. eapply wp_conseq; [apply Hb; [by left | done]|]. intros [?|?] s' Hs'; [|done].
  apply IH; [|done]. intros y s'' Hy. apply Hb. by right.
Qed.

(** A row of the table is let in, if anything. *)
Lemma wp_admit l r c s : r ∈ l -> key_of r = Some (ip_public_key c) -> guarded s -> sg_rows s = l ->
  wp (outside (ii_add_peer INBOUND_WG_INTERFACE c)) (fun _ s' => guarded s' /\ sg_rows s' = l) s.
Proof.
  intros Hr Ek [Ht Hg] El. eapply wp_outside; [apply add_effect|..]; intros ? v ->; [|done]. split; [|exact El]. split; [exact Ht|].
  intros Hrel. simpl. specialize (Hg Hrel). assert (ip_public_key c ∈ stored_keys (sg_rows s)) by (apply elem_of_stored; exists r; by rewrite El).
  set_solver.
Qed.

Lemma wp_readmit l r s : r ∈ l -> guarded s /\ sg_rows s = l -> wp (readmit r) (fun _ s' => guarded s' /\ sg_rows s' = l) s.
Proof.
  intros Hr [Hs El]. assert (Hf : row_fine (sg_db s) r) by (apply (proj2 (proj1 Hs)); by rewrite El).
  destruct (row_config _ _ Hf) as (c & Ec & Ek). unfold readmit. rewrite Ec. apply wp_attempted.
  by eapply wp_admit.
Qed.

Lemma holds_bring_up key port : holds guarded (bring_up_server key port).
Proof.
  apply holds_bind.
  { apply holds_internally. eapply holds_outside; [by apply ensure_effect|..]; by intros v v' (x & Hx & ->). }
  intros _ s Hs. apply wp_bind, wp_internally. unfold peers_find_enabled, peers_select. apply wp_peers; [done|]. simpl.
  eapply wp_conseq; [eapply (wp_iter_in _ (fun s' => guarded s' /\ sg_rows s' = sg_rows s))|].
  - intros r s' (Hr & Hin)%elem_of_sort_by%list_elem_of_In%filter_In Hs'. apply wp_readmit; [|done]. by apply list_elem_of_In.
  - done.
  - by intros r s' [Hs' _].
Qed.

Lemma wp_peer_with_id id (Q : post InboundWgPeerRow AppError) s : (forall e fs, Q (Err e) (see_faults fs s)) ->
  (forall r fs, r ∈ sg_rows s -> pr_id r = id -> (sg_faults s = [] -> fs = []) -> Q (Ok r) (see_faults fs s)) -> wp (peer_with_id id) Q s.
Proof.
  intros He HQ. unfold peer_with_id, peers_find_by_id, peers_select. apply wp_bind, wp_internally, wp_peers; [auto|]. simpl.
  apply wp_lift. destruct (List.find (has_peer_id id) (sg_rows s)) as [r|] eqn:Er; simpl; [|apply He].
  apply List.find_some in Er as [Hin%list_elem_of_In Hid]. apply HQ; [done | by apply Z.eqb_eq in Hid | by intros ->].
Qed.

(** A key leaves with its row. *)
Lemma holds_remove_row ctx id : holds guarded (remove_peer ctx id).
Proof.
  apply holds_bind; [apply holds_lift|]. intros _ s Hs.
  apply wp_bind, wp_peer_with_id; [done|]. intros r fs0 Hin Hid _.
  destruct Hs as [Ht Hg]. destruct (row_key _ _ (proj2 Ht r Hin)) as (k & Hk & E1 & E2).
  apply wp_bind. unfold remove_peer_from_interface. apply wp_bind, wp_lift. unfold key_of in E2.
  destruct (decode_key (pr_public_key r)) as [k'|] eqn:Ed; [|done]. injection E2 as ->.
  apply wp_attempted. assert (Hgone : forall v, (removals_reliable -> v_peers v ⊆ lost ∪ stored_keys (sg_rows s) /\ k ∉ v_peers v) ->
    forall fs, let s' := see_vpn v (see_faults fs s) in guarded s' /\ guarded (see_rows (deleted (has_peer_id id) (sg_rows s)) s')).
  { intros v Hv fs. split; (split; [simpl; auto using table_deleted|]); intros Hrel; destruct (Hv Hrel) as [Hv1 Hv2]; [exact Hv1|].
    simpl. intros x Hx. apply Hv1 in Hx as Hx'. apply elem_of_union in Hx' as [?|(y & Hy & Ey)%elem_of_stored]; [set_solver|].
    apply elem_of_union_r, elem_of_stored. exists y.
    split; [|done]. apply elem_of_deleted. split; [|done]. apply Z.eqb_neq. intros E3. assert (y = r) as ->.
    { apply (key_id_row pr_id clash (sg_rows s)); [apply Ht | done | done | congruence]. } unfold key_of in Ey. rewrite Ed in Ey. congruence. }
  assert (Hrest : forall v, (removals_reliable -> v_peers v ⊆ lost ∪ stored_keys (sg_rows s) /\ k ∉ v_peers v) -> forall fs,
    wp (internally (peers_delete id) ≫= fun _ => reset_peer_connection_mode r) (fun _ => guarded) (see_vpn v (see_faults fs s))).
  { intros v Hv fs. apply wp_bind, wp_internally, wp_peers; simpl.
    - intros e fs' _. exact (proj1 (Hgone v Hv fs')).
    - destruct (Hgone v Hv (tail fs)) as [_ H]. unfold reset_peer_connection_mode. destruct (pr_device_id r); [|by apply wp_ret].
      apply (holds_attempted _ _ (holds_device _ (mild_clear _))). exact H. }
  eapply wp_outside; [apply remove_strict|..].
  - intros _ v ->. apply Hrest. intros Hrel. specialize (Hg Hrel). simpl. set_solver.
  - intros e v [-> Hv]. apply Hrest. intros Hrel. split; [by apply Hg | by apply Hv].
Qed.

Lemma holds_evict r : holds guarded (remove_peer_from_interface r).
Proof.
  apply holds_bind; [apply holds_lift|]. intros k. apply holds_attempted.
  eapply holds_outside; [apply remove_effect|..]; intros v v' ->; simpl; set_solver.
Qed.

Lemma holds_reset r : holds guarded (reset_peer_connection_mode r).
Proof.
  unfold reset_peer_connection_mode. destruct (pr_device_id r); [|apply (holds_lift (Ok tt))].
  apply holds_attempted, holds_device, mild_clear.
Qed.

Lemma holds_flag id b : holds guarded (peers_set_enabled id b).
Proof.
  intros s [Ht Hg]. apply wp_peers; [done|]. simpl. split; [by apply table_enabled|]. simpl. by rewrite stored_where.
Qed.

Lemma holds_enabled : holds guarded (config_call inbound_wg_enabled).
Proof. apply holds_config_bind; [apply holds_cfg_get|]. intros x. apply (holds_config_lift (Ok _)). Qed.

Lemma holds_port : holds guarded (config_call inbound_wg_listen_port).
Proof.
  apply holds_config_bind; [apply holds_cfg_get|]. intros x. simpl.
  case_match; [apply (holds_config_lift (Ok _)) | apply (holds_config_lift (Err _))].
Qed.

Lemma holds_set_peer_enabled ctx id b : holds guarded (set_peer_enabled ctx id b).
Proof.
  apply holds_bind; [apply holds_lift|]. intros _ s Hs. apply wp_bind, wp_peer_with_id; [done|]. intros r fs Hin Hid _.
  assert (Hrest : forall s', guarded s' -> wp (internally (peers_set_enabled id b) ≫= fun _ =>
    (if b then mret tt else reset_peer_connection_mode r) ≫= fun _ => mret (row_to_summary (with_enabled b r))) (fun _ => guarded) s').
  { apply holds_bind; [apply holds_internally, holds_flag|]. intros _. apply holds_bind; [|intros _; apply (holds_lift (Ok _))].
    destruct b; [apply (holds_lift (Ok tt)) | apply holds_reset]. }
  destruct (Bool.eqb (pr_enabled r) b); [by apply wp_ret|]. apply wp_bind, wp_internally, wp_config_bind, wp_cfg_get; [done|]. simpl.
  apply (wp_config_lift (Ok _)). apply wp_bind. case_bool_decide; [|by apply wp_ret, Hrest].
  destruct b; [|eapply wp_conseq; [by apply holds_evict|]; intros [?|?] s' Hs'; [by apply Hrest | done]].
  destruct (row_config _ _ (proj2 (proj1 Hs) r Hin)) as (c & Ec & Ek). rewrite Ec. apply wp_bind, wp_lift, wp_internally.
  eapply wp_conseq; [eapply (wp_admit _ r); [exact Hin | done | exact Hs | done]|].
  intros [?|?] s' [Hs' _]; [by apply Hrest | done].
Qed.

(** ** New peers *)

Lemma find_seqZ (f : Z -> bool) a n x : List.find f (seqZ a n) = Some x -> a <= x < a + n /\ f x = true.
Proof. intros [H1%list_elem_of_In Hf]%List.find_some. split; [by apply elem_of_seqZ in H1 | done]. Qed.

Lemma allocate_address l ip : allocate_ip l = Ok ip -> exists host, 2 <= host <= 254 /\ ip = subnet_text host ++ "/32".
Proof.
  unfold allocate_ip. destruct (List.find _ _) as [host|] eqn:Eh; [|done]. intros [= <-]. apply find_seqZ in Eh as [Hh _].
  unfold SERVER_HOST in Hh. exists host. split; [lia | done].
Qed.

(** The row goes in, in nobody's way, or nothing changes. *)
Lemma wp_insert row (Q : post unit AppError) s : table_ok (sg_db s) (sg_rows s) ->
  (exists host, 2 <= host <= 254 /\ pr_allowed_ip row = subnet_text host ++ "/32") ->
  (exists k, is_key k /\ pr_public_key row = encode_key k) -> is_Some (pr_device_id row) ->
  (forall e fs, (sg_faults s = [] -> fs = []) -> Q (Err e) (see_faults fs s)) ->
  (table_ok (sg_db s) (sg_rows s ++ [row]) -> Q (Ok tt) (see_rows (sg_rows s ++ [row]) (see_faults (tail (sg_faults s)) s))) ->
  wp (insert_peer row) Q s.
Proof.
  intros [Hk Hf] Ha Hkey [v Hv] He HQ w Hw.
  assert (H : wp (peers_insert row) (fun r => Q (match r with Ok _ => Ok tt | Err DeviceAlreadyGrantedError =>
    Err (Conflict "device already has a remote-access credential") | Err (OtherInsertError e) => Err (Internal e) end)) s).
  { apply wp_peers; [intros e fs Ef; apply He; congruence|]. assert (Hq : sg_faults s = [] -> tail (sg_faults s) = []) by (by intros ->).
    destruct (existsb _ (sg_rows s)) eqn:E1; [by apply He|].
    destruct (existsb (fun r => (pr_id r =? pr_id row) || _ || _) (sg_rows s)) eqn:E2; [by apply He|]. rewrite Hv.
    destruct (existsb _ (t_devices _)) eqn:E3; simpl; [|by apply He]. apply HQ.
    apply existsb_elem in E3 as (x & Hx & Ex%Z.eqb_eq). split.
    - apply keyed_snoc; [done|]. intros y Hy. specialize (existsb_none _ _ y E1 Hy) as D1. specialize (existsb_none _ _ y E2 Hy) as D2.
      simpl in D1, D2. rewrite !orb_false_iff in D2. destruct D2 as [[D2 D3] D4]. apply Z.eqb_neq in D2.
      apply bool_decide_eq_false in D1, D3, D4. rewrite Hv in D1. unfold clash. rewrite Hv.
      split; [done|]. split; intros [?|[?|[? ?]]]; try congruence; apply D1; (split; [congruence | done]).
    - intros r [Hr| ->%list_elem_of_singleton]%elem_of_app; [by apply Hf|]. split; [done..|]. exists v. split; [done|].
      apply list_elem_of_fmap. by exists x. }
  specialize (H w Hw). unfold insert_peer. by destruct (peers_insert row w) as [[?|[|?]] ?].
Qed.

Lemma wp_admit_new row c s : row ∈ sg_rows s -> key_of row = Some (ip_public_key c) -> table_ok (sg_db s) (sg_rows s) ->
  (removals_reliable -> v_peers (sg_vpn s) ⊆ lost ∪ stored_keys (deleted (has_peer_id (pr_id row)) (sg_rows s))) ->
  wp (admit_or_roll_back (pr_id row) c) (fun _ => guarded) s.
Proof.
  intros Hr Ek Ht Hg w Hw.
  assert (Hmono : stored_keys (deleted (has_peer_id (pr_id row)) (sg_rows s)) ⊆ stored_keys (sg_rows s)).
  { intros k (r & [_ H]%elem_of_deleted & Hk)%elem_of_stored. apply elem_of_stored. eauto. }
  assert (Hs : guarded s) by (split; [done | intros Hrel; specialize (Hg Hrel); set_solver]).
  assert (H : wp (outside (ii_add_peer INBOUND_WG_INTERFACE c)) (fun r s' => match r with Ok _ => guarded s'
    | Err _ => s' = s end) s).
  { eapply wp_outside; [apply add_effect|..]; intros ? v ->; [|by destruct s].
    split; [exact Ht|]. intros Hrel. simpl. destruct Hs as [_ Hg']. specialize (Hg' Hrel).
    assert (ip_public_key c ∈ stored_keys (sg_rows s)) by (apply elem_of_stored; by exists row). set_solver. }
  specialize (H w Hw). unfold admit_or_roll_back. destruct (outside (ii_add_peer INBOUND_WG_INTERFACE c) w) as [[?|e] w'] eqn:Eo; [exact H|].
  simpl in *. assert (Hd : wp (attempted (peers_delete (pr_id row))) (fun _ => guarded) s); [|exact (Hd w' H)].
  apply wp_attempted, wp_peers; [done|]. split; simpl; [by apply table_deleted | exact Hg].
Qed.

Lemma holds_add_peer ctx v ep id rnd : holds guarded (add_peer ctx v ep id rnd).
Proof.
  do 2 (apply holds_bind; [apply holds_lift || by apply holds_quiet|]; intros _).
  apply holds_bind; [apply holds_internally, holds_enabled|]. intros b. destruct b; [simpl|apply (holds_lift (Err _))].
  apply holds_bind; [apply holds_device, mild_get|]. intros dv. apply holds_bind; [apply holds_lift|]. intros x.
  apply holds_bind; [apply holds_internally, holds_peers_select|]. intros [?|]; [apply (holds_lift (Err _))|].
  destruct (dr_name x) as [name|]; [|apply (holds_lift (Err _))]. simpl.
  apply holds_bind; [apply holds_internally, holds_peers_select|]. intros ex s Hs. apply wp_bind, wp_lift.
  destruct (allocate_ip ex) as [ip|] eqn:Eip; [|done]. apply allocate_address in Eip. apply wp_bind, wp_quiet; [done|]. intros [now|]; [|done].
  assert (Hpub : exists k, is_key k /\ encode_key (x25519_base (clamp rnd)) = encode_key k) by (eexists; split; [apply x25519_key | done]).
  apply wp_bind. apply wp_insert; simpl; [apply Hs | exact Eip | exact Hpub | done | done |]. intros Ht.
  match type of Ht with table_ok _ (_ ++ [?row]) => destruct (row_config (sg_db s) row) as (c & Ec & Ek) end; [apply Ht; set_solver|].
  rewrite Ec. apply wp_bind, wp_lift, wp_bind. eapply wp_conseq.
  - match type of Ht with table_ok _ (_ ++ [?row]) => apply (wp_admit_new row); [simpl; set_solver | done | done|] end. intros Hrel. simpl.
    etrans; [apply Hs, Hrel|]. apply union_mono_l. intros k (r & Hr & Hk)%elem_of_stored. apply elem_of_stored. exists r. split; [|done].
    apply elem_of_deleted. split; [|set_solver]. apply Z.eqb_neq. intros E1. destruct Ht as [[Hnd _] _].
    rewrite fmap_app in Hnd. apply NoDup_app in Hnd as (_ & Hnd & _). apply (Hnd (pr_id r)); [by apply list_elem_of_fmap_2|].
    simpl. rewrite E1. set_solver.
  - intros [?|?] s' Hs'; [|done]. revert s' Hs'. apply holds_bind; [apply holds_device, mild_managed|]. intros _.
    apply holds_bind; [apply holds_internally, holds_cfg_get|]. intros pk. apply (holds_lift (Ok _)).
Qed.

(** ** The server *)

Lemma load_effect : effect vpn server_load_key same same.
Proof.
  intros n. unfold server_load_key, mbind, st_bind. pose proof (get_effect n) as H.
  destruct (store_get SERVER_KEY_PATH n) as [[r|e] n'] eqn:Eg; simpl in *; [|done]. destruct r as [b|]; [|done].
  by destruct (is_utf8 b).
Qed.

Lemma holds_keypair rnd : holds guarded (ensure_server_keypair rnd).
Proof.
  apply holds_bind; [apply holds_internally; eapply holds_outside; [apply load_effect|..]; by intros v v' ->|].
  intros stored. apply holds_bind; [|intros [pk pub]; apply holds_bind; [apply holds_internally, holds_cfg_set | intros _; apply (holds_lift (Ok _))]].
  destruct stored as [b|]; [apply holds_bind; [apply holds_lift | intros k; apply (holds_lift (Ok _))]|].
  apply holds_bind; [|intros _; apply (holds_lift (Ok _))]. apply holds_internally.
  eapply holds_outside; [apply put_effect|..]; by intros v v' ->.
Qed.

Lemma holds_firewall port : holds guarded (open_firewall port).
Proof.
  apply holds_bind; [|intros _]; apply holds_internally; eapply holds_outside.
  - apply masquerade_effect.
  - by intros v v' ->.
  - by intros v v' ->.
  - apply accept_effect.
  - by intros v v' ->.
  - by intros v v' [-> | ->].
Qed.

Lemma holds_teardown : holds guarded (outside (ii_tear_down_server INBOUND_WG_INTERFACE)).
Proof. eapply holds_outside; [apply tear_down_effect|..]; [by intros v v' -> | by intros v v' (x & Hx & ->)]. Qed.
Lemma holds_unmasquerade : holds guarded (outside (vpn_remove_masquerade INBOUND_WG_INTERFACE)).
Proof. eapply holds_outside; [apply unmasquerade_effect|..]; by intros v v' ->. Qed.
Lemma holds_unaccept : holds guarded (outside remove_inbound_wg_accept).
Proof. eapply holds_outside; [apply unaccept_effect|..]; by intros v v' ->. Qed.

Lemma holds_set_config ctx b port rnd : holds guarded (InboundWg.set_config ctx b port rnd).
Proof.
  apply holds_bind; [apply holds_lift|]. intros _. destruct b.
  - apply holds_bind; [by apply holds_quiet|]. intros _. apply holds_bind; [apply holds_keypair|]. intros [key pub].
    apply holds_bind; [apply holds_bring_up|]. intros _. apply holds_bind; [apply holds_firewall|]. intros _.
    do 2 (apply holds_bind; [apply holds_internally, holds_cfg_set|]; intros _). apply (holds_lift (Ok _)).
  - apply holds_bind; [apply holds_internally, holds_unmasquerade|]. intros _.
    apply holds_bind; [apply holds_internally, holds_unaccept|]. intros _. apply holds_bind; [apply holds_attempted, holds_teardown|]. intros _.
    apply holds_bind; [apply holds_internally, holds_cfg_set|]. intros _. apply holds_bind; [apply holds_internally, holds_cfg_get|]. intros pk.
    apply (holds_lift (Ok _)).
Qed.

Lemma holds_get_config ctx : holds guarded (InboundWg.get_config ctx).
Proof.
  apply holds_bind; [apply holds_lift|]. intros _. apply holds_bind; [apply holds_internally, holds_enabled|]. intros b.
  apply holds_bind; [apply holds_internally, holds_port|]. intros p. apply holds_bind; [apply holds_internally, holds_cfg_get|]. intros pk.
  apply (holds_lift (Ok _)).
Qed.

Lemma holds_reconcile rnd : holds guarded (InboundWg.reconcile rnd).
Proof.
  apply holds_bind; [apply holds_internally, holds_enabled|]. intros b. destruct b; [|apply (holds_lift (Ok _))]. simpl.
  apply holds_bind; [by apply holds_quiet|]. intros en. destruct en; simpl.
  - apply holds_bind; [apply holds_internally, holds_port|]. intros port. apply holds_bind; [apply holds_keypair|]. intros [key pub].
    apply holds_bind; [apply holds_bring_up|]. intros _. apply holds_firewall.
  - apply holds_bind; [apply holds_internally, holds_cfg_set|]. intros _. apply holds_bind; [apply holds_attempted, holds_teardown|]. intros _.
    apply holds_bind; [apply holds_attempted, holds_unmasquerade|]. intros _. apply holds_attempted, holds_unaccept.
Qed.

Lemma holds_listener b : holds guarded (on_entitlement_changed b).
Proof.
  destruct b; [apply (holds_lift (Ok tt))|]. apply holds_attempted. apply holds_bind; [apply holds_get_config|]. intros c.
  destruct (cr_enabled c); [|apply (holds_lift (Ok tt))]. apply holds_bind; [apply holds_set_config | intros _; apply (holds_lift (Ok tt))].
Qed.

Lemma holds_monitored : holds guarded list_peers_for_monitor.
Proof. apply holds_bind; [apply holds_internally, holds_peers_select | intros r; apply (holds_lift (Ok _))]. Qed.

Lemma holds_list_peers ctx : holds guarded (list_peers ctx).
Proof.
  apply holds_bind; [apply holds_lift|]. intros _.
  apply holds_bind; [apply holds_internally, holds_peers_select | intros r; apply (holds_lift (Ok _))].
Qed.

(** ** Histories *)

Inductive Call : Type :=
| CGetConfig
| CSetConfig (enabled : bool) (listen_port : Z) (random : list Z)
| CAddPeer (device_id : Uuid) (endpoint : option str) (fresh_id : Uuid) (random : list Z)
| CRemovePeer (id : Uuid)
| CSetPeerEnabled (id : Uuid) (enabled : bool)
| CListPeers
| CMonitor
| CReconcile (random : list Z).

Definition run (ctx : option AuthContext) (c : Call) (w : Inbound (N := N)) : Inbound :=
  match c with
  | CGetConfig => snd (InboundWg.get_config ctx w)
  | CSetConfig b port rnd => snd (InboundWg.set_config ctx b port rnd w)
  | CAddPeer v ep id rnd => snd (add_peer ctx v ep id rnd w)
  | CRemovePeer id => snd (remove_peer ctx id w)
  | CSetPeerEnabled id b => snd (set_peer_enabled ctx id b w)
  | CListPeers => snd (list_peers ctx w)
  | CMonitor => snd (list_peers_for_monitor w)
  | CReconcile rnd => snd (InboundWg.reconcile rnd w)
  end.

Lemma run_guarded ctx c w : guarded (sight w) -> guarded (sight (run ctx c w)).
Proof.
  intros Hw. destruct c; simpl.
  - by apply (holds_after _ _ w (holds_get_config ctx)).
  - by apply (holds_after _ _ w (holds_set_config ctx _ _ _)).
  - by apply (holds_after _ _ w (holds_add_peer ctx _ _ _ _)).
  - by apply (holds_after _ _ w (holds_remove_row ctx _)).
  - by apply (holds_after _ _ w (holds_set_peer_enabled ctx _ _)).
  - by apply (holds_after _ _ w (holds_list_peers ctx)).
  - by apply (holds_after _ _ w holds_monitored).
  - by apply (holds_after _ _ w (holds_reconcile _)).
Qed.

End guarded.

(** The event the listener has not seen yet is the first of [en_events]. *)
Definition delivered (q : list bool) (w : Inbound (N := N)) : Inbound :=
  set_iw_entitlement {| en_suspended := en_suspended (iw_entitlement w); en_premium := en_premium (iw_entitlement w);
    en_publisher := en_publisher (iw_entitlement w); en_events := q |} w.

(** Whoever shares the database may change it, but does not delete a device that holds a credential. *)
Definition spares (p : Policy) (w : Inbound (N := N)) : Prop :=
  forall r v, r ∈ iw_rows w -> pr_device_id r = Some v -> v ∈ dr_id <$> t_devices (po_db p).

(** The rows that go with their device when the devices become those of [p]
    ([REFERENCES devices(id) ON DELETE CASCADE]). *)
Definition cascaded (p : Policy) (r : InboundWgPeerRow) : bool :=
  match pr_device_id r with
  | Some v => bool_decide (v ∉ dr_id <$> t_devices (po_db p))
  | None => false
  end.

(** A call, a change of entitlement, an event handled, any change others make in
    the database they share, a step of the world outside; with the rows that went
    with their device. *)
Inductive istep : Inbound (N := N) -> list InboundWgPeerRow -> Inbound (N := N) -> Prop :=
| is_call ctx c w : istep w [] (run ctx c w)
| is_suspend w : istep w [] (set_iw_entitlement (suspend (iw_entitlement w)) w)
| is_restore w : istep w [] (set_iw_entitlement (restore (iw_entitlement w)) w)
| is_premium b w : istep w [] (set_iw_entitlement (set_premium b (iw_entitlement w)) w)
| is_listen b q w : en_events (iw_entitlement w) = b :: q ->
    istep w [] (snd (on_entitlement_changed b (delivered q w)))
| is_others p w : istep w (List.filter (cascaded p) (iw_rows w))
    (set_iw_rows (deleted (cascaded p) (iw_rows w)) (set_iw_policy p w))
| is_time n w : vpn n = vpn (iw_env w) -> istep w [] (set_iw_env n w).

(** A history and all the rows that went with their device in it. *)
Inductive ihistory : Inbound (N := N) -> list InboundWgPeerRow -> Inbound (N := N) -> Prop :=
| ih_nil w : ihistory w [] w
| ih_step w gone w1 gone' w2 : istep w gone w1 -> ihistory w1 gone' w2 -> ihistory w (gone ++ gone') w2.

Lemma ihistory_snoc w gone w1 gone' w2 : ihistory w gone w1 -> istep w1 gone' w2 -> ihistory w (gone ++ gone') w2.
Proof.
  intros H Hs. induction H as [w|w gone w1 gone1 w3 Hw _ IH].
  - rewrite app_nil_l, <- (app_nil_r gone'). apply (ih_step w gone' w2 [] w2 Hs), ih_nil.
  - rewrite <- app_assoc. eapply ih_step; [exact Hw | by apply IH].
Qed.

Lemma guarded_more lost lost' s : lost ⊆ lost' -> guarded lost s -> guarded lost' s.
Proof. intros Hl [Ht Hg]. split; [done|]. intros Hr. specialize (Hg Hr). set_solver. Qed.

Lemma stored_app l l' : stored_keys (l ++ l') = stored_keys l ∪ stored_keys l'.
Proof. unfold stored_keys. by rewrite omap_app, list_to_set_app_L. Qed.

Lemma cascade_guarded lost p w : guarded lost (sight w) ->
  guarded (lost ∪ stored_keys (List.filter (cascaded p) (iw_rows w)))
    (sight (set_iw_rows (deleted (cascaded p) (iw_rows w)) (set_iw_policy p w))).
Proof.
  intros [Ht Hg]. split; simpl in *.
  - destruct Ht as [Hk Hf]. split; [by apply keyed_deleted|]. intros r [Hc Hr]%elem_of_deleted.
    destruct (Hf r Hr) as [A B (v & Ev & _)]. split; [done..|]. exists v. split; [done|].
    unfold cascaded in Hc. rewrite Ev in Hc. apply bool_decide_eq_false in Hc. by apply dec_stable.
  - intros Hrel k Hk%(Hg Hrel). apply elem_of_union in Hk as [Hk|(r & Hr & Ek)%elem_of_stored]; [set_solver|].
    destruct (cascaded p r) eqn:Ec.
    + apply elem_of_union_l, elem_of_union_r, elem_of_stored. exists r. split; [|done].
      by apply list_elem_of_In, filter_In; rewrite <- list_elem_of_In.
    + apply elem_of_union_r, elem_of_stored. exists r. split; [|done]. by apply elem_of_deleted.
Qed.

Lemma istep_guarded lost w gone w' : istep w gone w' -> guarded lost (sight w) ->
  guarded (lost ∪ stored_keys gone) (sight w').
Proof.
  intros Hs Hw. destruct Hs as [ctx c w|w|w|b w|b q w _|p w|n w Hn]; [..|by apply cascade_guarded|];
    apply (guarded_more lost); try (by apply union_subseteq_l); try exact Hw.
  - by apply run_guarded.
  - by apply (holds_after _ _ (delivered q w) (holds_listener lost b)).
  - destruct Hw as [Ht Hg]. split; [exact Ht|]. simpl. by rewrite Hn.
Qed.

Lemma history_guarded w gone w' : ihistory w gone w' -> forall lost, guarded lost (sight w) ->
  guarded (lost ∪ stored_keys gone) (sight w').
Proof.
  induction 1 as [w|w gone w1 gone' w2 Hs _ IH]; intros lost Hw.
  - apply (guarded_more lost); [apply union_subseteq_l | done].
  - rewrite stored_app, (assoc_L (∪)). apply IH. by apply (istep_guarded _ w).
Qed.

(** No more peers than addresses. *)
Lemma table_bounded d l : table_ok d l -> (length l <= 253)%nat.
Proof.
  intros [[Hn Hu] Hf]. assert (Hnd : NoDup (pr_allowed_ip <$> l)).
  { apply NoDup_fmap_2_strong; [|by apply NoDup_fmap_1 in Hn]. intros x y Hx Hy E1.
    apply (key_id_row pr_id clash l); [by split | done | done|]. apply Hu; [done..|]. by right; left. }
  assert (Hsub : pr_allowed_ip <$> l ⊆ (fun h => subnet_text h ++ "/32") <$> seqZ 2 253).
  { intros a (r & -> & Hr)%list_elem_of_fmap. destruct (rf_address d r (Hf r Hr)) as (h & Hh & ->).
    apply list_elem_of_fmap. exists h. split; [done|]. apply elem_of_seqZ. lia. }
  pose proof (submseteq_length _ _ (NoDup_submseteq _ _ Hnd Hsub)) as H. rewrite !length_fmap, length_seqZ in H. lia.
Qed.

(** C10: From an empty table with nobody admitted, whatever administrators call, whichever calls of the database, the
    interface, the firewall or the secret store fail, and whatever happens to the entitlement and in the rest of the
    database in between, the deletion of devices with a credential included: ids, public keys, addresses and devices of
    the peers are unique, every address is [10.100.64.N/32] with N from 2 to 254 (so there are at most 253), every peer
    belongs to a device there is; and as long as removing a peer from the interface works, whoever the interface admits
    is in the table, or was when the deletion of its device took the row away behind the service's back. *)
Theorem peers_accounted_for (w w' : Inbound (N := N)) (gone : list InboundWgPeerRow) (Hrows : iw_rows w = [])
    (Hpeers : v_peers (vpn (iw_env w)) = ∅) (H : ihistory w gone w') :
  keyed pr_id clash (iw_rows w') /\ (length (iw_rows w') <= 253)%nat
  /\ (forall r, r ∈ iw_rows w' -> row_fine (po_db (iw_policy w')) r)
  /\ (removals_reliable -> forall k, k ∈ v_peers (vpn (iw_env w')) ->
        exists r, (r ∈ iw_rows w' \/ r ∈ gone) /\ decode_key (pr_public_key r) = Ok k).
Proof.
  assert (Hw : guarded ∅ (sight w)).
  { split; [|intros _; simpl; rewrite Hpeers; set_solver]. simpl. rewrite Hrows. split; [|set_solver].
    split; [apply NoDup_nil_2|]. intros x y Hx. by apply not_elem_of_nil in Hx. }
  destruct (history_guarded _ _ _ H _ Hw) as [Ht Hg]. split; [apply Ht|]. split; [by eapply table_bounded|]. split; [apply Ht|].
  intros Hrel k Hk%(Hg Hrel). rewrite (left_id_L ∅ (∪)) in Hk.
  assert (Hkey : forall l, k ∈ stored_keys l -> exists r, r ∈ l /\ decode_key (pr_public_key r) = Ok k).
  { intros l (r & Hr & Ek)%elem_of_stored. exists r. split; [done|]. unfold key_of in Ek.
    destruct (decode_key (pr_public_key r)); congruence. }
  apply elem_of_union in Hk as [(r & Hr & Ek)%Hkey|(r & Hr & Ek)%Hkey]; exists r; auto.
Qed.

End laws.
