(* ===== verification/InboundSync.v ===== *)
(** * The inbound server while nothing fails

    Exactly the enabled peers of an enabled server are admitted, the firewall is open for
    it and only for it, and a box without entitlement stops serving once the listener has
    handled what was published.  A grant that may be given is given, with the lowest free
    address, and the client configuration it answers with parses. *)

From S2P Require Import Prelude RustStr Net Auth PolicyRouter RoutingTypes ZoneTypes PolicyDb ZoneService DeviceService.
From S2P Require Import PolicyLaws Tables WgConfig AccountService InboundWg InboundLaws.

Definition works {N X} (m : ST N str X) : Prop := forall n, is_ok (fst (m n)) = true.

Class InboundReliable (N : Type) {E : InboundEnv N} : Prop := {
  ensure_works c : works (ii_ensure_server c);
  tear_down_works : works (ii_tear_down_server INBOUND_WG_INTERFACE);
  add_works c : works (ii_add_peer INBOUND_WG_INTERFACE c);
  remove_works k : works (ii_remove_peer INBOUND_WG_INTERFACE k);
  masquerade_works : works (vpn_add_masquerade INBOUND_WG_INTERFACE);
  unmasquerade_works : works (vpn_remove_masquerade INBOUND_WG_INTERFACE);
  accept_works p : works (add_inbound_wg_accept p);
  unaccept_works : works remove_inbound_wg_accept;
  put_works k : works (store_put SERVER_KEY_PATH k);
  get_works : works (store_get SERVER_KEY_PATH);
}.

(** ** Settings *)

Definition ENABLED : str := of_string "inbound_wg_enabled".
Definition PORT : str := of_string "inbound_wg_listen_port".

Definition enabled_in (d : PolicyDb) : bool := bool_decide (t_config d !! ENABLED = Some (of_string "true")).
Definition port_in (d : PolicyDb) : option Z := parse_uint U16_MAX (default (of_string "51821") (t_config d !! PORT)).

Section sync.
Context {N : Type} {E : InboundEnv N} {U : UuidText} {L : InboundLaws N} {R : InboundReliable N}.

Abbreviation post X Er := (result X Er -> Sight -> Prop).

Lemma wp_does {X} (m : ST N str X) f g (Q : post X str) s : effect vpn m f g -> works m ->
  (forall x v, f (sg_vpn s) v -> Q (Ok x) (see_vpn v s)) -> wp (outside m) Q s.
Proof.
  intros He Hw HQ w <-. specialize (He (iw_env w)). specialize (Hw (iw_env w)). rewrite Hw in He. unfold outside.
  destruct (m (iw_env w)) as [[x|e] n] eqn:Em; simpl in *; [by apply HQ | done].
Qed.

(** ** Calm: no storage failure is due *)

Lemma wp_calm_peers {X Er} (fault : str -> Er) f (Q : post X Er) s : sg_faults s = [] ->
  Q (fst (f (sg_db s) (sg_rows s))) (see_rows (snd (f (sg_db s) (sg_rows s))) s) -> wp (peers_stmt fault f) Q s.
Proof.
  intros Hc HQ. apply wp_peers; [intros e fs E1; congruence|]. rewrite Hc. destruct s. simpl in *. by subst.
Qed.

Lemma wp_calm_select {X} (f : list InboundWgPeerRow -> X) (Q : post X str) s : sg_faults s = [] ->
  Q (Ok (f (sg_rows s))) s -> wp (peers_select f) Q s.
Proof. intros Hc HQ. apply wp_calm_peers; [done|]. by destruct s. Qed.

Lemma wp_calm_get k (Q : post (option str) str) s : sg_faults s = [] -> Q (Ok (t_config (sg_db s) !! k)) s ->
  wp (config_call (cfg_get k)) Q s.
Proof. intros Hc HQ. apply wp_cfg_get; [intros e fs E1; congruence|]. rewrite Hc. destruct s. simpl in *. by subst. Qed.

Lemma wp_calm_set k x (Q : post unit str) s : sg_faults s = [] -> Q (Ok tt) (configured k x s) -> wp (config_call (cfg_set k x)) Q s.
Proof. intros Hc HQ. apply wp_cfg_set; [intros e fs E1; congruence|]. rewrite Hc. destruct s. simpl in *. by subst. Qed.

Lemma wp_calm_enabled (Q : post bool str) s : sg_faults s = [] -> Q (Ok (enabled_in (sg_db s))) s ->
  wp (config_call inbound_wg_enabled) Q s.
Proof. intros Hc HQ. apply wp_config_bind, wp_calm_get; [done|]. by apply (wp_config_lift (Ok _)). Qed.

Lemma wp_calm_port p (Q : post Z str) s : sg_faults s = [] -> port_in (sg_db s) = Some p -> Q (Ok p) s ->
  wp (config_call inbound_wg_listen_port) Q s.
Proof.
  intros Hc Hp HQ. apply wp_config_bind, wp_calm_get; [done|]. lazy beta iota zeta. unfold port_in, PORT in Hp. rewrite Hp.
  by apply (wp_config_lift (Ok _)).
Qed.

(** ** In step *)

Definition admitted_rows (l : list InboundWgPeerRow) : gset (list Z) := stored_keys (List.filter pr_enabled l).

Definition key_fine (v : Vpn) : Prop := v_key v = None \/ exists k, is_key k /\ v_key v = Some (encode_key k).

Record calm (s : Sight) : Prop := {
  ca_table : table_ok (sg_db s) (sg_rows s);
  ca_faults : sg_faults s = [];
  ca_key : key_fine (sg_vpn s);
  ca_port : is_Some (port_in (sg_db s));
}.

Definition serving (s : Sight) : Prop :=
  if enabled_in (sg_db s)
  then v_peers (sg_vpn s) = admitted_rows (sg_rows s) /\ v_masquerade (sg_vpn s) = true /\ v_accept (sg_vpn s) = port_in (sg_db s)
  else v_peers (sg_vpn s) = ∅ /\ v_masquerade (sg_vpn s) = false /\ v_accept (sg_vpn s) = None.

Definition entitled (s : Sight) : Prop := en_publisher (sg_entitlement s) = true
  /\ (is_entitled (sg_entitlement s) = false -> enabled_in (sg_db s) = true -> false ∈ en_events (sg_entitlement s)).

Record in_sync (s : Sight) : Prop := { sy_calm : calm s; sy_serving : serving s; sy_entitled : entitled s }.

(** Where the server can be brought up from: nobody is admitted who should not be. *)
Record ready (s : Sight) : Prop := {
  re_calm : calm s;
  re_peers : v_peers (sg_vpn s) ⊆ admitted_rows (sg_rows s);
  re_off : enabled_in (sg_db s) = false -> serving s;
  re_publisher : en_publisher (sg_entitlement s) = true;
}.

Lemma in_sync_ready s : in_sync s -> ready s.
Proof.
  intros [Hc Hs [Hp _]]. split; [done| |done|done]. unfold serving in Hs. destruct (enabled_in (sg_db s)); destruct Hs as [-> _]; set_solver.
Qed.

(** Settings of other names. *)
Lemma enabled_other k x s : k <> ENABLED -> enabled_in (sg_db (configured k x s)) = enabled_in (sg_db s).
Proof. intros Hk. unfold enabled_in. simpl. by rewrite lookup_insert_ne. Qed.
Lemma port_other k x s : k <> PORT -> port_in (sg_db (configured k x s)) = port_in (sg_db s).
Proof. intros Hk. unfold port_in. simpl. by rewrite lookup_insert_ne. Qed.
Lemma enabled_set (b : bool) s : enabled_in (sg_db (configured ENABLED (of_string (if b then "true" else "false")) s)) = b.
Proof. unfold enabled_in. simpl. rewrite lookup_insert_eq. by destruct b. Qed.
Lemma port_set p s : is_u16 p -> port_in (sg_db (configured PORT (show_u32 p) s)) = Some p.
Proof. intros Hp. unfold port_in. simpl. rewrite lookup_insert_eq. by apply parse_show_u16. Qed.

Lemma table_configured k x s l : table_ok (sg_db s) l -> table_ok (sg_db (configured k x s)) l.
Proof. by apply table_ok_db. Qed.

Lemma calm_configured k x s : calm s -> (k = PORT -> is_Some (parse_uint U16_MAX x)) -> calm (configured k x s).
Proof.
  intros Hc Hx. split; [apply table_configured, Hc | apply Hc | apply Hc|].
  destruct (decide (k = PORT)) as [->|Hk]; [|rewrite port_other; [apply Hc | done]].
  unfold port_in. simpl. rewrite lookup_insert_eq. by apply Hx.
Qed.

Lemma calm_vpn v s : calm s -> key_fine v -> calm (see_vpn v s).
Proof. intros Hc Hv. by split; [apply Hc..| |apply Hc]. Qed.

(** ** Bringing the server up *)

Lemma wp_readmit_all xs (Q : post unit AppError) s : (forall r, r ∈ xs -> row_fine (sg_db s) r) ->
  Q (Ok tt) (see_vpn (with_peers (v_peers (sg_vpn s) ∪ stored_keys xs) (sg_vpn s)) s) -> wp (st_iter readmit xs) Q s.
Proof.
  revert s. induction xs as [|r xs IH]; intros s Hf HQ; simpl.
  - apply wp_ret. replace (v_peers (sg_vpn s) ∪ stored_keys []) with (v_peers (sg_vpn s)) in HQ by set_solver.
    destruct s as [? ? ? ? []]. exact HQ.
  - destruct (row_config _ r (Hf r (list_elem_of_here _ _))) as (c & Ec & Ek).
    apply wp_bind. unfold readmit. rewrite Ec. apply wp_attempted. eapply wp_does; [apply add_effect | apply add_works|].
    intros _ v ->. apply IH; [intros x Hx; apply Hf; by right|]. simpl.
    match goal with |- context [with_peers ?a (with_peers ?b ?c)] => replace (with_peers a (with_peers b c)) with (with_peers (v_peers (sg_vpn s) ∪ stored_keys (r :: xs)) (sg_vpn s)); [exact HQ|] end.
    unfold with_peers. simpl. f_equal. unfold stored_keys. simpl. rewrite Ek. simpl. set_solver.
Qed.

Lemma wp_up key port (Q : post unit AppError) s : calm s -> v_peers (sg_vpn s) ⊆ admitted_rows (sg_rows s) ->
  Q (Ok tt) (see_vpn (with_peers (admitted_rows (sg_rows s)) (sg_vpn s)) s) -> wp (bring_up_server key port) Q s.
Proof.
  intros Hc Hp HQ. unfold bring_up_server. apply wp_bind, wp_internally. eapply wp_does; [by apply ensure_effect | apply ensure_works|].
  intros _ v (x & Hx & ->). apply wp_bind, wp_internally. apply wp_calm_select; [apply Hc|]. simpl.
  assert (Hin : forall r, r ∈ sort_by oldest_first (List.filter pr_enabled (sg_rows s)) <-> r ∈ List.filter pr_enabled (sg_rows s))
    by (intros r; apply elem_of_sort_by).
  apply wp_readmit_all.
  - intros r Hr%Hin%list_elem_of_In%filter_In. apply (ca_table s Hc). apply list_elem_of_In. tauto.
  - simpl. match goal with |- context [with_peers ?a (with_peers ?b ?c)] => replace (with_peers a (with_peers b c)) with (with_peers (admitted_rows (sg_rows s)) (sg_vpn s)); [exact HQ|] end.
    unfold with_peers. simpl. f_equal.
    assert (stored_keys (sort_by oldest_first (List.filter pr_enabled (sg_rows s))) = admitted_rows (sg_rows s)) as ->; [|set_solver].
    apply set_eq. intros k. unfold admitted_rows. rewrite !elem_of_stored. by setoid_rewrite Hin.
Qed.

Lemma clamp_checked : forallb (fun b => bool_decide (0 <= Z.land b 248 <= 255 /\ 0 <= Z.lor (Z.land b 127) 64 <= 255)) (seqZ 0 256) = true.
Proof. vm_compute. reflexivity. Qed.

Lemma clamp_u8 b : is_u8 b -> is_u8 (Z.land b 248) /\ is_u8 (Z.lor (Z.land b 127) 64).
Proof.
  unfold is_u8, U8_MAX. intros Hb. pose proof (proj1 (forallb_forall _ _) clamp_checked b) as H.
  apply (proj1 (bool_decide_eq_true _)) in H; [done|]. apply list_elem_of_In, elem_of_seqZ. lia.
Qed.

Lemma clamp_key k : is_key k -> is_key (clamp k).
Proof.
  intros [Hl Hb]. unfold clamp. split; [by rewrite !length_alter|].
  apply Forall_alter; [apply Forall_alter; [done|]|]; intros x _ Hx; by apply clamp_u8.
Qed.

(** The stored key is read, or made and stored, and its public half is cached. *)
Lemma wp_keypair rnd (Q : post (list Z * str) AppError) s : calm s -> is_key rnd ->
  (forall r v x, key_fine v -> v_peers v = v_peers (sg_vpn s) -> v_masquerade v = v_masquerade (sg_vpn s) -> v_accept v = v_accept (sg_vpn s) ->
     Q (Ok r) (configured (of_string "inbound_wg_server_pubkey") x (see_vpn v s))) ->
  wp (ensure_server_keypair rnd) Q s.
Proof.
  intros Hc Hr HQ. unfold ensure_server_keypair. apply wp_bind, wp_internally.
  assert (Hload : forall P : post (option str) str, P (Ok (v_key (sg_vpn s))) s -> wp (outside server_load_key) P s).
  { intros P HP w Hw. pose proof (get_works (iw_env w)) as Hg. pose proof (get_result (iw_env w)) as Hres. pose proof (get_effect (iw_env w)) as He.
    unfold outside, server_load_key, mbind, st_bind. rewrite Hg in He. destruct (store_get SERVER_KEY_PATH (iw_env w)) as [[r|e] n] eqn:Eg; [|done].
    simpl in *. specialize (Hres _ eq_refl). subst r. destruct Hw. unfold same in He. simpl in *.
    assert (Hsame : sight (set_iw_env n w) = sight w) by (unfold sight; simpl; by rewrite He).
    destruct (ca_key _ Hc) as [Ek|(k & Hk & Ek)]; simpl in Ek; rewrite Ek in *; simpl; [by rewrite Hsame|].
    unfold encode_key. rewrite graphic_utf8 by (by apply base64_graphic). simpl. by rewrite Hsame. }
  apply Hload. simpl. apply wp_bind. destruct (ca_key s Hc) as [Ek|(k & Hk & Ek)]; rewrite Ek.
  - unfold generate_keypair. apply wp_bind, wp_internally. eapply wp_does; [apply put_effect | apply put_works|].
    intros _ v ->. apply wp_ret, wp_bind, wp_internally, wp_calm_set; [apply Hc|]. apply wp_ret. apply HQ; [|done..].
    right. exists (clamp rnd). split; [by apply clamp_key | done].
  - rewrite (decode_key_encode _ Hk). apply wp_bind, wp_lift, wp_ret, wp_bind, wp_internally, wp_calm_set; [apply Hc|]. apply wp_ret.
    replace s with (see_vpn (sg_vpn s) s) by (by destruct s). apply HQ; [apply Hc | done..].
Qed.

Lemma wp_firewall port (Q : post unit AppError) s :
  Q (Ok tt) (see_vpn (with_accept (Some port) (with_masquerade true (sg_vpn s))) s) -> wp (open_firewall port) Q s.
Proof.
  intros HQ. apply wp_bind, wp_internally. eapply wp_does; [apply masquerade_effect | apply masquerade_works|]. intros _ v ->.
  apply wp_internally. eapply wp_does; [apply accept_effect | apply accept_works|]. intros [] v ->. exact HQ.
Qed.

Definition PUBKEY : str := of_string "inbound_wg_server_pubkey".

(** From where it is ready the interface comes up. *)
Lemma wp_serve {X} port rnd (k : str -> ST Inbound AppError X) (Q : post X AppError) s : ready s -> is_key rnd ->
  (forall pub v x, key_fine v -> v_peers v = admitted_rows (sg_rows s) -> wp (k pub) Q (configured PUBKEY x (see_vpn v s))) ->
  wp (ensure_server_keypair rnd ≫= fun '(key, pub) => bring_up_server key port ≫= fun _ => k pub) Q s.
Proof.
  intros [Hc Hp _ _] Hr HQ. apply wp_bind, wp_keypair; [done..|]. intros [key pub] v x Hk E1 _ _.
  assert (Hc' : calm (configured PUBKEY x (see_vpn v s))).
  { apply calm_configured; [by apply calm_vpn | done]. }
  apply wp_bind, wp_up; [done | simpl; by rewrite E1|]. by apply (HQ pub (with_peers (admitted_rows (sg_rows s)) v) x).
Qed.

(** Everything off, the flag cleared last or first. *)
Lemma off_in_sync s v : calm s -> en_publisher (sg_entitlement s) = true -> v = with_peers ∅ (with_accept None (with_masquerade false (sg_vpn s))) ->
  in_sync (see_vpn v (configured ENABLED (of_string "false") s)).
Proof.
  intros Hc Hp ->. assert (He : enabled_in (sg_db (configured ENABLED (of_string "false") s)) = false) by apply (enabled_set false).
  split.
  - apply calm_vpn; [by apply calm_configured | apply Hc].
  - unfold serving. change (sg_db (see_vpn _ ?s)) with (sg_db s). by rewrite He.
  - split; [done|]. intros _ H. change (enabled_in (sg_db (configured ENABLED (of_string "false") s)) = true) in H. congruence.
Qed.

Lemma wp_switch_off ctx port rnd s : calm s -> en_publisher (sg_entitlement s) = true -> is_ok (require_admin ctx) = true ->
  wp (InboundWg.set_config ctx false port rnd) (fun _ => in_sync) s.
Proof.
  intros Hc Hp Ha. apply wp_bind, wp_lift. destruct (require_admin ctx); [|done].
  apply wp_bind, wp_internally. eapply wp_does; [apply unmasquerade_effect | apply unmasquerade_works|]. intros _ v ->.
  apply wp_bind, wp_internally. eapply wp_does; [apply unaccept_effect | apply unaccept_works|]. intros _ v ->.
  apply wp_bind, wp_attempted. eapply wp_does; [apply tear_down_effect | apply tear_down_works|]. intros _ v ->.
  apply wp_bind, wp_internally, wp_calm_set; [apply Hc|]. apply wp_bind, wp_internally, wp_calm_get; [apply Hc|]. apply wp_ret.
  by apply (off_in_sync s).
Qed.

Lemma sync_set_config ctx b port rnd : is_u16 port -> (b = true -> is_key rnd) ->
  holds in_sync (InboundWg.set_config ctx b port rnd).
Proof.
  intros Hport Hrnd s Hs. destruct (require_admin ctx) as [[]|e] eqn:Ea.
  2:{ apply wp_bind, wp_lift. by rewrite Ea. }
  destruct b; [|apply wp_switch_off; [apply Hs | apply Hs | by rewrite Ea]]. apply wp_bind, wp_lift. rewrite Ea.
  apply wp_bind. apply (wp_conseq _ (fun r s' => s' = s /\ (r = Ok tt -> is_entitled (sg_entitlement s) = true))).
  { intros w <-. split; [done|]. simpl. by destruct (is_entitled (iw_entitlement w)). }
  intros [[]|e] s' [-> Hent]; [|done]. apply (wp_serve port rnd); [by apply in_sync_ready | by apply Hrnd|].
  intros pub v x Hk Hpeers. apply wp_bind, wp_firewall. apply wp_bind, wp_internally, wp_calm_set; [apply Hs|].
  apply wp_bind, wp_internally, wp_calm_set; [apply Hs|]. apply wp_ret. split.
  - apply calm_configured; [|intros _; eexists; by apply parse_show_u16]. apply calm_configured; [|done].
    apply calm_vpn; [|exact Hk]. apply calm_configured; [apply calm_vpn; [apply Hs | exact Hk] | done].
  - unfold serving. rewrite port_set by done. rewrite enabled_other by done. by rewrite (enabled_set true).
  - split; [apply Hs|]. simpl. intros H. rewrite (Hent eq_refl) in H. done.
Qed.

Lemma ready_reconcile rnd s : ready s -> is_key rnd -> wp (InboundWg.reconcile rnd) (fun _ => in_sync) s.
Proof.
  intros Hs Hr. apply wp_bind, wp_internally, wp_calm_enabled; [apply Hs|]. destruct (enabled_in (sg_db s)) eqn:Een; simpl.
  2:{ apply wp_ret. split; [apply Hs | by apply Hs | split; [apply Hs | congruence]]. }
  apply wp_bind. apply (wp_conseq _ (fun r s' => s' = s /\ r = Ok (is_entitled (sg_entitlement s)))); [by intros w <-|].
  intros r s' [-> ->]. destruct (is_entitled (sg_entitlement s)) eqn:Een'; simpl.
  - destruct (ca_port s (re_calm s Hs)) as [port Hport]. apply wp_bind, wp_internally, (wp_calm_port port); [apply Hs | done|].
    apply (wp_serve port rnd); [done..|]. intros pub v x Hk Hpeers. apply wp_firewall. split.
    + apply calm_vpn; [|exact Hk]. apply calm_configured; [apply calm_vpn; [apply Hs | exact Hk] | done].
    + unfold serving. change (sg_db (see_vpn _ ?s)) with (sg_db s). rewrite port_other, enabled_other by done. simpl. by rewrite Een, Hport.
    + split; [apply Hs|]. simpl. congruence.
  - apply wp_bind, wp_internally, wp_calm_set; [apply Hs|].
    apply wp_bind, wp_attempted. eapply wp_does; [apply tear_down_effect | apply tear_down_works|]. intros _ v ->.
    apply wp_bind, wp_attempted. eapply wp_does; [apply unmasquerade_effect | apply unmasquerade_works|]. intros _ v ->.
    apply wp_attempted. eapply wp_does; [apply unaccept_effect | apply unaccept_works|]. intros _ v ->.
    by apply (off_in_sync s); [apply Hs | apply Hs|].
Qed.

Lemma wp_get_config ctx (Q : post InboundWgConfigResponse AppError) s : calm s -> (is_ok (require_admin ctx) = false -> forall e, Q (Err e) s) ->
  (forall port pk, port_in (sg_db s) = Some port -> Q (Ok {| cr_enabled := enabled_in (sg_db s); cr_listen_port := port; cr_server_public_key := pk |}) s) ->
  wp (InboundWg.get_config ctx) Q s.
Proof.
  intros Hs He HQ. apply wp_bind, wp_lift. destruct (require_admin ctx); [|by apply He].
  apply wp_bind, wp_internally, wp_calm_enabled; [apply Hs|]. destruct (ca_port s Hs) as [port Hport].
  apply wp_bind, wp_internally, (wp_calm_port port); [apply Hs | done|]. apply wp_bind, wp_internally, wp_calm_get; [apply Hs|].
  apply wp_ret. by apply HQ.
Qed.

(** ** Peers come and go *)

Lemma elem_of_admitted k l : k ∈ admitted_rows l <-> exists r, r ∈ l /\ pr_enabled r = true /\ key_of r = Some k.
Proof.
  unfold admitted_rows. rewrite elem_of_stored. setoid_rewrite list_elem_of_In. setoid_rewrite filter_In. naive_solver.
Qed.

Section row.
Context (d : PolicyDb) (l : list InboundWgPeerRow) (r : InboundWgPeerRow) (k : list Z).
Hypothesis Ht : table_ok d l.
Hypothesis Hr : r ∈ l.
Hypothesis Hk : key_of r = Some k.

(** The row with the key is the row with the id. *)
Lemma same_row x : x ∈ l -> has_peer_id (pr_id r) x = true \/ key_of x = Some k -> x = r.
Proof.
  intros Hx H. apply (key_id_row pr_id clash l); [apply Ht | done | done|].
  destruct H as [H%Z.eqb_eq|H]; [done | by apply (key_unique d l x r k)].
Qed.

Lemma own_id : has_peer_id (pr_id r) r = true.
Proof. apply Z.eqb_refl. Qed.

Lemma admitted_deleted : admitted_rows (deleted (has_peer_id (pr_id r)) l) = admitted_rows l ∖ {[k]}.
Proof.
  apply set_eq. intros y. rewrite elem_of_difference, !elem_of_admitted. setoid_rewrite elem_of_deleted. rewrite elem_of_singleton. split.
  - intros (x & [Hid Hx] & He & Ex). split; [eauto|]. intros ->. rewrite (same_row x Hx) in Hid by auto. by rewrite own_id in Hid.
  - intros [(x & Hx & He & Ex) Hne]. exists x. split_and!; [|done..]. apply not_true_iff_false. intros Hid.
    rewrite (same_row x Hx) in Ex by auto. congruence.
Qed.

Lemma admitted_flag b : admitted_rows (where_ (has_peer_id (pr_id r)) (with_enabled b) l) =
  if b then {[k]} ∪ admitted_rows l else admitted_rows l ∖ {[k]}.
Proof.
  apply set_eq. intros y.
  assert (H : y ∈ admitted_rows (where_ (has_peer_id (pr_id r)) (with_enabled b) l) <->
    (y = k /\ b = true) \/ (y <> k /\ y ∈ admitted_rows l)).
  { rewrite !elem_of_admitted. setoid_rewrite elem_of_where. split.
    - intros (x & (z & Hz & ->) & He & Ex). destruct (has_peer_id (pr_id r) z) eqn:Hid.
      + left. rewrite (same_row z Hz) in Ex by auto. split; [|done]. change (key_of r = Some y) in Ex. congruence.
      + right. split; [|eauto]. intros ->. rewrite (same_row z Hz) in Hid by auto. by rewrite own_id in Hid.
    - intros [[-> ->]|[Hne (x & Hx & He & Ex)]].
      + exists (with_enabled true r). split_and!; [|done..]. exists r. by rewrite own_id.
      + exists x. split_and!; [|done..]. exists x. split; [done|]. destruct (has_peer_id (pr_id r) x) eqn:Hid; [|done].
        rewrite (same_row x Hx) in Ex by auto. congruence. }
  rewrite H. destruct b; [rewrite elem_of_union, elem_of_singleton | rewrite elem_of_difference, elem_of_singleton];
    destruct (decide (y = k)); naive_solver.
Qed.

End row.

Lemma in_sync_mildly s s' : mildly s s' -> in_sync s -> in_sync s'.
Proof.
  intros (d & fs & -> & E1 & E2 & E3) [[A B C D] Hv He]. split.
  - split; [by apply (table_ok_db (sg_db s)) | by apply E3 | done|]. unfold port_in. simpl. by rewrite E2.
  - unfold serving, enabled_in, port_in in *. simpl. by rewrite E2.
  - unfold entitled, enabled_in in *. simpl. by rewrite E2.
Qed.

Lemma sync_device {X} (m : Svc X) : mild m -> holds in_sync (device_call m).
Proof. intros Hm s Hs. apply wp_device; [done|]. intros r s' Hs'. by apply (in_sync_mildly s). Qed.

Lemma sync_reset r : holds in_sync (reset_peer_connection_mode r).
Proof.
  unfold reset_peer_connection_mode. destruct (pr_device_id r); [|apply (holds_lift (Ok tt))].
  apply holds_attempted, sync_device, mild_clear.
Qed.

(** The table and who is admitted changed together. *)
Lemma in_sync_rows v l s : in_sync s -> table_ok (sg_db s) l -> v_peers v = (if enabled_in (sg_db s) then admitted_rows l else ∅) ->
  v_masquerade v = v_masquerade (sg_vpn s) -> v_accept v = v_accept (sg_vpn s) -> v_key v = v_key (sg_vpn s) ->
  in_sync (see_rows l (see_vpn v s)).
Proof.
  intros [Hc Hv He] Ht E1 E2 E3 E4. split; [|unfold serving in *|exact He].
  - split; [exact Ht | apply Hc | unfold key_fine; simpl; rewrite E4; apply Hc | apply Hc].
  - simpl. rewrite E1, E2, E3. destruct (enabled_in (sg_db s)); tauto.
Qed.

Lemma sync_peers s : in_sync s -> v_peers (sg_vpn s) = if enabled_in (sg_db s) then admitted_rows (sg_rows s) else ∅.
Proof. intros [_ H _]. unfold serving in H. destruct (enabled_in (sg_db s)); tauto. Qed.

Lemma sync_faults s fs : in_sync s -> (sg_faults s = [] -> fs = []) -> see_faults fs s = s.
Proof. intros Hs Hf. rewrite (Hf (ca_faults s (sy_calm s Hs))). destruct Hs as [[_ H _ _] _ _]. destruct s. simpl in *. by rewrite H. Qed.

(** The peer is looked up. *)
Lemma wp_sync_with_id id (Q : post InboundWgPeerRow AppError) s : in_sync s -> (forall e, Q (Err e) s) ->
  (forall r, r ∈ sg_rows s -> pr_id r = id -> Q (Ok r) s) -> wp (peer_with_id id) Q s.
Proof.
  intros Hs He HQ. unfold peer_with_id, peers_find_by_id. apply wp_bind, wp_internally, wp_calm_select; [apply Hs|].
  apply wp_lift. destruct (List.find (has_peer_id id) (sg_rows s)) as [r|] eqn:Er; [|apply He].
  apply List.find_some in Er as [Hin%list_elem_of_In Hid%Z.eqb_eq]. by apply HQ.
Qed.

Lemma wp_evict r k (Q : post unit AppError) s : key_of r = Some k ->
  Q (Ok tt) (see_vpn (with_peers (v_peers (sg_vpn s) ∖ {[k]}) (sg_vpn s)) s) -> wp (remove_peer_from_interface r) Q s.
Proof.
  unfold key_of, remove_peer_from_interface. intros Hk HQ. destruct (decode_key (pr_public_key r)) as [k'|]; [|done]. injection Hk as ->.
  apply wp_bind, wp_lift, wp_attempted. eapply wp_does; [apply remove_effect | apply remove_works|]. by intros _ v ->.
Qed.

Lemma sync_remove_peer ctx id : holds in_sync (remove_peer ctx id).
Proof.
  apply holds_bind; [apply holds_lift|]. intros _ s Hs. apply wp_bind, wp_sync_with_id; [done..|]. intros r Hin <-.
  pose proof (ca_table s (sy_calm s Hs)) as Ht. destruct (row_key _ _ (proj2 Ht r Hin)) as (k & _ & _ & Hk).
  apply wp_bind, (wp_evict r k); [done|]. apply wp_bind, wp_internally, wp_calm_peers; [apply Hs|]. simpl.
  apply sync_reset. apply in_sync_rows; try done; [by apply table_deleted|]. simpl. rewrite (sync_peers s Hs).
  destruct (enabled_in (sg_db s)); [|set_solver]. by rewrite (admitted_deleted (sg_db s) (sg_rows s) r k).
Qed.

Lemma sync_set_peer_enabled ctx id b : holds in_sync (set_peer_enabled ctx id b).
Proof.
  apply holds_bind; [apply holds_lift|]. intros _ s Hs. apply wp_bind, wp_sync_with_id; [done..|]. intros r Hin <-.
  pose proof (ca_table s (sy_calm s Hs)) as Ht. destruct (row_config _ _ (proj2 Ht r Hin)) as (c & Ec & Hk).
  destruct (Bool.eqb (pr_enabled r) b); [by apply wp_ret|]. apply wp_bind, wp_internally, wp_calm_enabled; [apply Hs|].
  assert (Hrest : forall v, v_peers v = (if enabled_in (sg_db s) then if b then {[ip_public_key c]} ∪ admitted_rows (sg_rows s)
      else admitted_rows (sg_rows s) ∖ {[ip_public_key c]} else ∅) -> v_masquerade v = v_masquerade (sg_vpn s) ->
    v_accept v = v_accept (sg_vpn s) -> v_key v = v_key (sg_vpn s) ->
    wp (internally (peers_set_enabled (pr_id r) b) ≫= fun _ => (if b then mret tt else reset_peer_connection_mode r) ≫= fun _ =>
      mret (row_to_summary (with_enabled b r))) (fun _ => in_sync) (see_vpn v s)).
  { intros v E1 E2 E3 E4. apply wp_bind, wp_internally, wp_calm_peers; [apply Hs|]. simpl.
    match goal with |- wp ?m _ ?s' => cut (in_sync s' -> wp m (fun _ => in_sync) s'); [intros H; apply H|] end.
    - apply in_sync_rows; try done; [by apply table_enabled|].
      rewrite (admitted_flag (sg_db s) (sg_rows s) r (ip_public_key c) Ht Hin Hk b). exact E1.
    - revert s Hs Hin Ht v E1 E2 E3 E4. intros s0 _ _ _ v _ _ _ _. generalize (see_rows (where_ (has_peer_id (pr_id r)) (with_enabled b) (sg_rows s0)) (see_vpn v s0)).
      apply holds_bind; [|intros _; apply (holds_lift (Ok _))]. destruct b; [apply (holds_lift (Ok tt)) | apply sync_reset]. }
  pose proof (sync_peers s Hs) as Hp. apply wp_bind. destruct (enabled_in (sg_db s)); simpl.
  2:{ apply wp_ret. replace s with (see_vpn (sg_vpn s) s) by (by destruct s). by apply Hrest. }
  destruct b; simpl.
  - rewrite Ec. apply wp_bind, wp_lift, wp_internally. eapply wp_does; [apply add_effect | apply add_works|]. intros _ v ->.
    apply Hrest; [|done..]. simpl. by rewrite Hp.
  - apply (wp_evict r (ip_public_key c)); [done|]. apply Hrest; [|done..]. simpl. by rewrite Hp.
Qed.

Lemma admitted_snoc l r k : pr_enabled r = true -> key_of r = Some k -> admitted_rows (l ++ [r]) = {[k]} ∪ admitted_rows l.
Proof.
  intros He Hk. apply set_eq. intros y. rewrite elem_of_union, elem_of_singleton, !elem_of_admitted. setoid_rewrite elem_of_app.
  setoid_rewrite list_elem_of_singleton. split; [|naive_solver]. intros (x & [Hx| ->] & Hx1 & Hx2); [right; eauto | left; congruence].
Qed.

Lemma wp_admitted id c (Q : post unit AppError) s :
  Q (Ok tt) (see_vpn (with_peers ({[ip_public_key c]} ∪ v_peers (sg_vpn s)) (sg_vpn s)) s) -> wp (admit_or_roll_back id c) Q s.
Proof.
  intros HQ w Hw. assert (H : wp (outside (ii_add_peer INBOUND_WG_INTERFACE c)) (fun r s' => is_ok r = true /\ Q (Ok tt) s') s).
  { eapply wp_does; [apply add_effect | apply add_works|]. by intros x v ->. }
  specialize (H w Hw). unfold admit_or_roll_back. destruct (outside _ w) as [[[]|e] w']; simpl in *; [apply H | by destruct H].
Qed.

Lemma sync_add_peer ctx v ep id rnd : holds in_sync (add_peer ctx v ep id rnd).
Proof.
  do 2 (apply holds_bind; [apply holds_lift || by apply holds_quiet|]; intros _). intros s Hs.
  apply wp_bind, wp_internally, wp_calm_enabled; [apply Hs|]. destruct (enabled_in (sg_db s)) eqn:Een; simpl; [|by apply wp_fail].
  apply wp_bind. eapply wp_conseq; [apply wp_device; [apply mild_get | intros ? s' H; exact (conj H (in_sync_mildly _ _ H Hs))]|].
  intros [dv|e] s1 [Hm Hs1]; [|done]. assert (Een1 : enabled_in (sg_db s1) = true).
  { destruct Hm as (d & fs & -> & _ & E2 & _). unfold enabled_in in *. simpl. by rewrite E2. }
  clear s Hs Een Hm. apply wp_bind, wp_lift. destruct (ok_or dv _) as [x|]; [|done].
  apply wp_bind, wp_internally, wp_calm_select; [apply Hs1|]. destruct (List.find _ _); [by apply wp_fail|].
  destruct (dr_name x) as [name|]; [|by apply wp_fail]. simpl. apply wp_bind, wp_internally, wp_calm_select; [apply Hs1|].
  apply wp_bind, wp_lift. destruct (allocate_ip _) as [ip|] eqn:Eip; [|done]. apply allocate_address in Eip.
  apply wp_bind, wp_quiet; [done|]. intros [now|]; [|done].
  assert (Hpub : exists k, is_key k /\ encode_key (x25519_base (clamp rnd)) = encode_key k) by (eexists; split; [apply x25519_key | done]).
  apply wp_bind. apply wp_insert; simpl; [apply Hs1 | exact Eip | exact Hpub | done | intros e fs Hfs; by rewrite sync_faults|].
  intros Ht. rewrite sync_faults by (try done; by intros ->).
  match type of Ht with table_ok _ (_ ++ [?row]) => destruct (row_config (sg_db s1) row) as (c & Ec & Ek) end; [apply Ht; set_solver|].
  rewrite Ec. apply wp_bind, wp_lift, wp_bind. apply wp_admitted.
  match goal with |- wp ?m _ ?s' => cut (in_sync s'); [generalize s' | ] end.
  - apply holds_bind; [apply sync_device, mild_managed|]. intros _ s2 Hs2. apply wp_bind, wp_internally, wp_calm_get; [apply Hs2|]. by apply wp_ret.
  - apply (in_sync_rows _ _ s1); try done. rewrite Een1. simpl. rewrite (sync_peers s1 Hs1), Een1. symmetry. by apply admitted_snoc.
Qed.

(** ** Entitlement *)

Definition see_entitlement (e : Entitlement) (s : Sight) : Sight :=
  {| sg_rows := sg_rows s; sg_db := sg_db s; sg_faults := sg_faults s; sg_entitlement := e; sg_vpn := sg_vpn s |}.

(** A loss is published. *)
Lemma sync_flags a b s : in_sync s ->
  in_sync (see_entitlement (emit_if_entitlement_changed (is_entitled (sg_entitlement s)) (with_flags a b (sg_entitlement s))) s).
Proof.
  intros [Hc Hv [Hp He]]. split; [by destruct Hc | exact Hv|]. unfold entitled, emit_if_entitlement_changed. simpl. rewrite Hp.
  destruct (Bool.eqb _ _) eqn:E1; simpl.
  - split; [done|]. apply eqb_prop in E1. rewrite E1. exact He.
  - split; [done|]. intros E2 E3. unfold is_entitled, is_suspended in *. simpl in *. rewrite E2. set_solver.
Qed.

(** With the loss handled the server is off. *)
Lemma sync_disable s : calm s -> serving s -> en_publisher (sg_entitlement s) = true -> wp disable_if_enabled (fun _ => in_sync) s.
Proof.
  intros Hc Hv Hp. apply wp_bind, wp_get_config; [done | done|]. intros port pk Hport. simpl.
  destruct (enabled_in (sg_db s)) eqn:Een.
  - apply wp_bind. eapply wp_conseq; [by apply wp_switch_off|]. intros [?|?] s' Hs'; [by apply wp_ret | done].
  - apply wp_ret. split; [done..|]. split; [done | congruence].
Qed.

Lemma sync_listener b q w : en_events (iw_entitlement w) = b :: q -> in_sync (sight w) ->
  in_sync (sight (snd (on_entitlement_changed b (delivered q w)))).
Proof.
  intros Eq [Hc Hv [Hp He]]. assert (Hc' : calm (sight (delivered q w))) by (by destruct Hc; split). destruct b; simpl.
  - split; [exact Hc' | exact Hv | split; [exact Hp|]]. simpl in *. rewrite Eq in He. intros H1 H2. specialize (He H1 H2). set_solver.
  - by apply (sync_disable (sight (delivered q w))).
Qed.

(** ** Histories *)

Definition well_formed (c : Call) : Prop :=
  match c with
  | CSetConfig b port rnd => is_u16 port /\ is_key rnd
  | CReconcile rnd => is_key rnd
  | _ => True
  end.

Lemma sync_monitored : holds in_sync list_peers_for_monitor.
Proof. intros s Hs. apply wp_bind, wp_internally, wp_calm_select; [apply Hs|]. by apply wp_ret. Qed.

Lemma sync_list_peers ctx : holds in_sync (list_peers ctx).
Proof.
  apply holds_bind; [apply holds_lift|]. intros _ s Hs. apply wp_bind, wp_internally, wp_calm_select; [apply Hs|]. by apply wp_ret.
Qed.

Lemma sync_run ctx c w : well_formed c -> in_sync (sight w) -> in_sync (sight (run ctx c w)).
Proof.
  intros Hc Hs. destruct c; simpl in *.
  - eapply (wp_get_config ctx (fun _ => in_sync)); [apply Hs | done..].
  - destruct Hc. by apply (holds_after _ _ w (sync_set_config ctx _ _ _ ltac:(done) ltac:(done))).
  - by apply (holds_after _ _ w (sync_add_peer ctx _ _ _ _)).
  - by apply (holds_after _ _ w (sync_remove_peer ctx _)).
  - by apply (holds_after _ _ w (sync_set_peer_enabled ctx _ _)).
  - by apply (holds_after _ _ w (sync_list_peers ctx)).
  - by apply (holds_after _ _ w sync_monitored).
  - by apply (ready_reconcile _ (sight w)); [apply in_sync_ready|..].
Qed.

(** What others do to the database is no failure and no change of these settings. *)
Inductive calm_step : Inbound (N := N) -> Inbound (N := N) -> Prop :=
| cs_call ctx c w : well_formed c -> calm_step w (run ctx c w)
| cs_suspend w : calm_step w (set_iw_entitlement (suspend (iw_entitlement w)) w)
| cs_restore w : calm_step w (set_iw_entitlement (restore (iw_entitlement w)) w)
| cs_premium b w : calm_step w (set_iw_entitlement (set_premium b (iw_entitlement w)) w)
| cs_listen b q w : en_events (iw_entitlement w) = b :: q -> calm_step w (snd (on_entitlement_changed b (delivered q w)))
| cs_others p w : spares p w -> po_faults p = [] ->
    (forall k, k = ENABLED \/ k = PORT -> t_config (po_db p) !! k = t_config (po_db (iw_policy w)) !! k) ->
    calm_step w (set_iw_policy p w)
| cs_time n w : vpn n = vpn (iw_env w) -> calm_step w (set_iw_env n w).

Lemma sync_others p w : spares p w -> po_faults p = [] ->
  (forall k, k = ENABLED \/ k = PORT -> t_config (po_db p) !! k = t_config (po_db (iw_policy w)) !! k) ->
  in_sync (sight w) -> in_sync (sight (set_iw_policy p w)).
Proof.
  intros Hp Hf Hcfg [[[Hk Ht] _ Hkey Hport] Hv He].
  assert (E1 : enabled_in (po_db p) = enabled_in (po_db (iw_policy w))) by (unfold enabled_in; by rewrite Hcfg by auto).
  assert (E2 : port_in (po_db p) = port_in (po_db (iw_policy w))) by (unfold port_in; by rewrite Hcfg by auto).
  split; [split; [split; [done|]|done|done|]|..].
  - intros r Hr. destruct (Ht r Hr) as [A B (v & Ev & _)]. split; [done..|]. exists v. split; [done|]. by apply (Hp r v).
  - simpl. by rewrite E2.
  - unfold serving in *. simpl in *. by rewrite E1, E2.
  - unfold entitled in *. simpl in *. by rewrite E1.
Qed.

Lemma calm_step_sync w w' : calm_step w w' -> in_sync (sight w) -> in_sync (sight w').
Proof.
  intros Hs Hw. destruct Hs as [ctx c w Hc|w|w|b w|b q w Eq|p w Hp Hf Hk|n w Hn].
  - by apply sync_run.
  - by apply (sync_flags true (en_premium (iw_entitlement w)) (sight w)).
  - by apply (sync_flags false (en_premium (iw_entitlement w)) (sight w)).
  - by apply (sync_flags (en_suspended (iw_entitlement w)) b (sight w)).
  - by apply sync_listener.
  - by apply sync_others.
  - replace (sight (set_iw_env n w)) with (sight w); [done|]. unfold sight. simpl. by rewrite Hn.
Qed.

Lemma calm_history w w' : rtc calm_step w w' -> in_sync (sight w) -> in_sync (sight w').
Proof. induction 1; eauto using calm_step_sync. Qed.

(** A daemon that starts: nothing is up, the table, the stored key and the stored port are fine, the event sink is wired. *)
Record boot (w : Inbound (N := N)) : Prop := {
  bo_calm : calm (sight w);
  bo_peers : v_peers (vpn (iw_env w)) = ∅;
  bo_masquerade : v_masquerade (vpn (iw_env w)) = false;
  bo_accept : v_accept (vpn (iw_env w)) = None;
  bo_publisher : en_publisher (iw_entitlement w) = true;
}.

Lemma boot_ready w : boot w -> ready (sight w).
Proof. intros [Hc H1 H2 H3 Hp]. split; [done | simpl; rewrite H1; set_solver | | done]. intros Een. unfold serving. by rewrite Een. Qed.

(** C9: A daemon starts, reconciles, and serves any sequence of calls, entitlement changes and events while no storage,
    interface, firewall or key-store call fails.  At every moment exactly the keys of the enabled rows are admitted if
    the server is enabled, nobody otherwise; the interface is masqueraded and the configured port accepted exactly while
    the server is enabled; and once the listener has handled every published event, a box that is not entitled does not
    serve. *)
Theorem vpn_follows_settings (w w' : Inbound (N := N)) (random : list Z) (Hboot : boot w) (Hrandom : is_key random)
    (H : rtc calm_step (snd (InboundWg.reconcile random w)) w') :
  let up := enabled_in (po_db (iw_policy w')) in
  (forall k, k ∈ v_peers (vpn (iw_env w')) <->
     up = true /\ exists r, r ∈ iw_rows w' /\ pr_enabled r = true /\ decode_key (pr_public_key r) = Ok k)
  /\ v_masquerade (vpn (iw_env w')) = up
  /\ v_accept (vpn (iw_env w')) = (if up then port_in (po_db (iw_policy w')) else None)
  /\ (en_events (iw_entitlement w') = [] -> is_entitled (iw_entitlement w') = false -> up = false).
Proof.
  assert (Hs : in_sync (sight w')).
  { eapply calm_history; [exact H|]. by apply (ready_reconcile random (sight w)); [apply boot_ready|..]. }
  intros up. pose proof (sync_peers _ Hs) as Hp. destruct Hs as [_ Hv [_ He]]. unfold serving in Hv. simpl in *. fold up in Hp, Hv, He.
  split; [|split; [|split]].
  - intros k. rewrite Hp. destruct up; [|set_solver]. rewrite elem_of_admitted. split.
    + intros (r & Hr & H1 & H2). split; [done|]. exists r. split_and!; [done..|]. unfold key_of in H2. destruct (decode_key _); congruence.
    + intros [_ (r & Hr & H1 & H2)]. exists r. split_and!; [done..|]. unfold key_of. by rewrite H2.
  - destruct up; tauto.
  - destruct up; tauto.
  - intros E1 E2. rewrite E1 in He. apply not_true_is_false. intros E3. specialize (He E2 E3). by apply not_elem_of_nil in He.
Qed.

End sync.

(** ** Granting remote access *)

(** ** Addresses *)

Lemma subnet_text_show h : 0 <= h <= 255 -> subnet_text h = show_ipv4 (subnet_ip h).
Proof. intros Hh. unfold show_ipv4, subnet_ip. by rewrite octets_ipv4_new by (unfold is_u8, U8_MAX; lia). Qed.

Lemma subnet_ip_u32 h : 0 <= h <= 255 -> is_u32 (subnet_ip h).
Proof. unfold subnet_ip, ipv4_new, is_u32, U32_MAX. lia. Qed.

Lemma host_of_address h : 0 <= h <= 255 ->
  host_octet <$> (head (split "/" (subnet_text h ++ "/32")) ≫= parse_ipv4) = Some h.
Proof.
  intros Hh. rewrite subnet_text_show by done. change (show_ipv4 (subnet_ip h) ++ "/32") with (show_ipv4 (subnet_ip h) ++ "/"%char :: of_string "32").
  rewrite split_cons_piece by apply slash_free_ipv4. simpl. rewrite parse_show_ipv4 by (by apply subnet_ip_u32). simpl.
  unfold host_octet, subnet_ip. by rewrite octets_ipv4_new by (unfold is_u8, U8_MAX; lia).
Qed.

Section grant.
Context {N : Type} {E : InboundEnv N} {U : UuidText} {UL : UuidTextLaws U} {L : InboundLaws N} {R : InboundReliable N}.

Definition taken (l : list InboundWgPeerRow) (h : Z) : Prop := exists r, r ∈ l /\ pr_allowed_ip r = subnet_text h ++ "/32".

Lemma used_spec d l h : (forall r, r ∈ l -> row_fine d r) -> 2 <= h <= 254 -> h ∈ used_hosts l <-> taken l h.
Proof.
  intros Hf Hh. unfold used_hosts. rewrite list_elem_of_omap. split.
  - intros (r & Hr & Eh). exists r. split; [done|]. destruct (rf_address d r (Hf r Hr)) as (h' & Hh' & Ea).
    rewrite Ea, host_of_address in Eh by lia. congruence.
  - intros (r & Hr & Ea). exists r. split; [done|]. rewrite Ea. apply host_of_address. lia.
Qed.

Lemma find_first (f : Z -> bool) n : forall a x, 0 <= n -> List.find f (seqZ a n) = Some x ->
  a <= x < a + n /\ f x = true /\ forall y, a <= y < x -> f y = false.
Proof.
  intros a x Hn. revert a. pattern n. apply natlike_ind; [done| |done]. clear n Hn. intros n Hn IH a.
  rewrite seqZ_cons by lia. simpl. rewrite Z.pred_succ. destruct (f a) eqn:Ea.
  - intros [= <-]. split_and!; [lia..|done|]. intros y Hy. lia.
  - intros (H1 & H2 & H3)%IH. split_and!; [lia..|done|]. intros y Hy. destruct (decide (y = a)) as [->|]; [done|]. apply H3. lia.
Qed.

(** The lowest free address, and none only if all are taken. *)
Lemma allocate_lowest d l : (forall r, r ∈ l -> row_fine d r) ->
  (exists host, allocate_ip l = Ok (subnet_text host ++ "/32") /\ 2 <= host <= 254 /\ ~ taken l host
     /\ forall h, 2 <= h < host -> taken l h)
  \/ (allocate_ip l = Err (Conflict "inbound WireGuard subnet is full - no free address") /\ forall h, 2 <= h <= 254 -> taken l h).
Proof.
  intros Hf. unfold allocate_ip. destruct (List.find _ _) as [host|] eqn:Eh.
  - left. exists host. apply find_first in Eh as (H1 & H2 & H3); [|lia]. unfold SERVER_HOST in *. split_and!; [done|lia|lia|..].
    + intros Ht%(used_spec d); [|done|lia]. apply negb_true_iff, bool_decide_eq_false in H2. done.
    + intros h Hh. apply (used_spec d); [done|lia|]. specialize (H3 h ltac:(lia)). by apply negb_false_iff, bool_decide_eq_true in H3.
  - right. split; [done|]. intros h Hh. apply (used_spec d); [done..|].
    pose proof (find_none _ _ Eh h) as H. apply (proj1 (negb_false_iff _)), bool_decide_eq_true in H; [done|].
    apply list_elem_of_In, elem_of_seqZ. unfold SERVER_HOST. lia.
Qed.

Lemma omap_shorter {X Y} (f : X -> option Y) l : (length (omap f l) <= length l)%nat.
Proof.
  induction l as [|x l IH]; [done|].
  change (omap f (x :: l)) with (match f x with Some y => y :: omap f l | None => omap f l end). destruct (f x); simpl; lia.
Qed.

Lemma taken_all d l : (forall r, r ∈ l -> row_fine d r) -> (forall h, 2 <= h <= 254 -> taken l h) -> (253 <= length l)%nat.
Proof.
  intros Hf Ht. assert (Hsub : seqZ 2 253 ⊆ used_hosts l).
  { intros h Hh%elem_of_seqZ. apply (used_spec d); [done|lia|]. apply Ht. lia. }
  pose proof (submseteq_length _ _ (NoDup_submseteq _ _ (NoDup_seqZ 2 253) Hsub)) as H. rewrite length_seqZ in H.
  assert (Hl : (length (used_hosts l) <= length l)%nat) by apply omap_shorter. lia.
Qed.

(** ** The grant *)

Abbreviation post X Er := (result X Er -> Sight -> Prop).

Lemma find_ext {X} (f g : X -> bool) l : (forall x, f x = g x) -> List.find f l = List.find g l.
Proof. intros H. induction l as [|x l IH]; simpl; [done|]. by rewrite H, IH. Qed.

Lemma wp_calm_device v (Q : post (option DeviceRow) AppError) s : sg_faults s = [] ->
  Q (Ok (into_device <$> List.find (fun x => dr_id x =? v) (t_devices (sg_db s)))) s -> wp (device_call (get_device (uuid_to_string v))) Q s.
Proof.
  intros Hc HQ w <-. unfold device_call, get_device, dev_find_by_id, repo, select, stmt. simpl in *. rewrite Hc. simpl.
  rewrite (find_ext _ (fun x => dr_id x =? v)) by (intros x; apply has_id_string).
  unfold sight in *. simpl. rewrite Hc in HQ. exact HQ.
Qed.

Lemma wp_calm_managed ctx v (Q : post unit AppError) s : sg_faults s = [] -> require_admin ctx = Ok tt ->
  (forall d, t_config d = t_config (sg_db s) -> Q (Ok tt) (see_db d s)) -> wp (device_call (mark_managed ctx v)) Q s.
Proof.
  intros Hc Ha HQ w <-. unfold device_call, mark_managed, admin_only, repo, dev_set_managed, execute, stmt, mbind, st_bind, st_lift.
  rewrite Ha. simpl in *. rewrite Hc. simpl. specialize (HQ (assign v [SetManaged true] (po_db (iw_policy w))) eq_refl). unfold sight, see_db in *. simpl in *. rewrite Hc in HQ. exact HQ.
Qed.

Lemma elem_of_find_sorted l v : (forall r, r ∈ l -> pr_device_id r <> Some v) -> List.find (fun r => bool_decide (pr_device_id r = Some v)) l = None.
Proof.
  intros H. destruct (List.find _ l) as [r|] eqn:Er; [|done]. apply find_some in Er as [Hr Hb]. apply list_elem_of_In in Hr.
  by apply bool_decide_eq_true, H in Hb.
Qed.

(** Nothing stands in the way of the row. *)
Lemma wp_insert_fresh row v (Q : post unit AppError) s : sg_faults s = [] -> pr_device_id row = Some v ->
  existsb (fun x => dr_id x =? v) (t_devices (sg_db s)) = true ->
  (forall r, r ∈ sg_rows s -> pr_device_id r <> Some v /\ pr_id r <> pr_id row /\ pr_public_key r <> pr_public_key row
     /\ pr_allowed_ip r <> pr_allowed_ip row) ->
  Q (Ok tt) (see_rows (sg_rows s ++ [row]) s) -> wp (insert_peer row) Q s.
Proof.
  intros Hc Hv Hd Hf HQ w Hw.
  assert (H : wp (peers_insert row) (fun r s' => r = Ok tt /\ Q (Ok tt) s') s).
  { apply wp_calm_peers; [done|]. destruct (existsb _ (sg_rows s)) eqn:E1.
    { exfalso. apply existsb_elem in E1 as (r & Hr & Hb). apply bool_decide_eq_true in Hb as [Hb _]. destruct (Hf r Hr). congruence. }
    destruct (existsb (fun r => (pr_id r =? pr_id row) || _ || _) (sg_rows s)) eqn:E2.
    { exfalso. apply existsb_elem in E2 as (r & Hr & Hb). destruct (Hf r Hr) as (_ & H1 & H2 & H3).
      apply orb_true_iff in Hb as [[Hb|Hb]%orb_true_iff|Hb]; [by apply Z.eqb_eq in Hb | by apply bool_decide_eq_true in Hb..]. }
    rewrite Hv, Hd. done. }
  specialize (H w Hw). unfold insert_peer. destruct (peers_insert row w) as [r w']. simpl in *. by destruct H as [-> H].
Qed.

(** What a grant comes to, whoever manages the device. *)
Lemma grant_run (ctx : option AuthContext) (v id : Uuid) (endpoint : option str) (random : list Z) (device : DeviceRow) (name : str)
    (w : Inbound (N := N)) (Hsync : in_sync (sight w)) (Hadmin : require_admin ctx = Ok tt)
    (Hentitled : is_entitled (iw_entitlement w) = true) (Hup : enabled_in (po_db (iw_policy w)) = true)
    (Hdevice : List.find (fun x => dr_id x =? v) (t_devices (po_db (iw_policy w))) = Some device) (Hname : dr_name device = Some name)
    (Hroom : (length (iw_rows w) < 253)%nat)
    (Hnew : forall r, r ∈ iw_rows w -> pr_device_id r <> Some v /\ pr_id r <> id
              /\ pr_public_key r <> encode_key (x25519_base (clamp random))) :
  let key := x25519_base (clamp random) in
  exists host, 2 <= host <= 254 /\ ~ taken (iw_rows w) host /\ (forall h, 2 <= h < host -> taken (iw_rows w) h)
  /\ let address := subnet_text host ++ "/32" in
     fst (add_peer ctx v endpoint id random w) =
       Ok {| ap_id := id; ap_name := name; ap_public_key := encode_key key; ap_allowed_ip := address;
             ap_client_config :=
               match t_config (po_db (iw_policy w)) !! PUBKEY, endpoint with
               | Some pubkey, Some e => Some (build_client_config (encode_key (clamp random)) address pubkey e)
               | _, _ => None
               end |}
     /\ (exists now, iw_rows (snd (add_peer ctx v endpoint id random w)) = iw_rows w ++
          [{| pr_id := id; pr_public_key := encode_key key; pr_allowed_ip := address; pr_name := name; pr_enabled := true;
              pr_created_at := now; pr_device_id := Some v |}])
     /\ v_peers (vpn (iw_env (snd (add_peer ctx v endpoint id random w)))) = {[key]} ∪ v_peers (vpn (iw_env w)).
Proof.
  intros key. pose proof (ca_table _ (sy_calm _ Hsync)) as Ht. pose proof (ca_faults _ (sy_calm _ Hsync)) as Hc. simpl in Ht, Hc.
  assert (Hf : forall r, r ∈ sort_by oldest_first (iw_rows w) -> row_fine (po_db (iw_policy w)) r) by (intros r Hr%elem_of_sort_by; by apply Ht).
  assert (Htk : forall h, taken (sort_by oldest_first (iw_rows w)) h <-> taken (iw_rows w) h).
  { intros h. unfold taken. by setoid_rewrite elem_of_sort_by. }
  destruct (allocate_lowest _ _ Hf) as [(host & Ea & Hh & Hfree & Hlow)|[_ Hall]].
  2:{ pose proof (taken_all _ _ (proj2 Ht) (fun h Hh => proj1 (Htk h) (Hall h Hh))). lia. }
  exists host. split; [done|]. split; [by rewrite <- Htk|]. split; [intros h H; apply Htk; auto|]. intros address.
  destruct (network_parses host Hh) as [net Enet]. fold address in Ea, Enet.
  assert (Haddr : forall r, r ∈ iw_rows w -> pr_allowed_ip r <> address) by (intros r Hr Ha; apply Hfree, Htk; by exists r).
  clearbody address. assert (H : wp (add_peer ctx v endpoint id random) (fun r s => r = Ok {| ap_id := id; ap_name := name; ap_public_key := encode_key key;
      ap_allowed_ip := address; ap_client_config := match t_config (po_db (iw_policy w)) !! PUBKEY, endpoint with
        | Some pubkey, Some e => Some (build_client_config (encode_key (clamp random)) address pubkey e) | _, _ => None end |}
    /\ (exists now, sg_rows s = iw_rows w ++ [{| pr_id := id; pr_public_key := encode_key key; pr_allowed_ip := address; pr_name := name;
         pr_enabled := true; pr_created_at := now; pr_device_id := Some v |}])
    /\ v_peers (sg_vpn s) = {[key]} ∪ v_peers (vpn (iw_env w))) (sight w)); [|exact (H w eq_refl)].
  apply wp_bind, wp_lift. rewrite Hadmin. apply wp_bind. apply (wp_conseq _ (fun r s => r = Ok tt /\ s = sight w)).
  { intros w' Hw. split; [|done]. simpl. apply (f_equal sg_entitlement) in Hw. simpl in Hw. by rewrite Hw, Hentitled. }
  intros r s [-> ->]. apply wp_bind, wp_internally, wp_calm_enabled; [done|]. simpl. rewrite Hup. simpl.
  apply wp_bind, wp_calm_device; [done|]. simpl. rewrite Hdevice. apply wp_bind, wp_lift. simpl.
  apply wp_bind, wp_internally, wp_calm_select; [done|]. simpl. rewrite elem_of_find_sorted by (intros r Hr; by apply Hnew).
  rewrite Hname. apply wp_bind, wp_internally, wp_calm_select; [done|]. simpl. apply wp_bind, wp_lift. rewrite Ea.
  apply wp_bind. apply (wp_conseq _ (fun r s => is_ok r = true /\ s = sight w)); [by intros w' <-|]. intros [now|e] s [Hok ->]; [|done].
  apply wp_bind. apply (wp_insert_fresh _ v); [done | done | |..].
  { apply existsb_elem. apply find_some in Hdevice as [Hd1 Hd2]. exists device. by rewrite list_elem_of_In. }
  { intros r Hr. destruct (Hnew r Hr) as (H1 & H2 & H3). split_and!; [done..|]. by apply Haddr. }
  unfold peer_row_to_config. simpl. fold key. rewrite decode_key_encode by apply x25519_key. rewrite Enet. apply wp_bind, wp_lift, wp_bind, wp_admitted.
  apply wp_bind, wp_calm_managed; [done..|]. intros d Hd. apply wp_bind, wp_internally, wp_calm_get; [done|]. simpl. rewrite Hd.
  apply wp_ret. split_and!; [done | by exists now | done].
Qed.

(** C11: While nothing fails and the server is up on an entitled box, an administrator who grants a named, managed device
    without a credential gets one as long as one of the 253 addresses is free: the answer names the device, the peer's
    key, the lowest free address and (if the endpoint and the server's key are known) the client configuration with the
    private key; the row is stored, the key is admitted, and nobody else's access changes. *)
Theorem grant_given (ctx : option AuthContext) (v id : Uuid) (endpoint : option str) (random : list Z) (device : DeviceRow) (name : str)
    (w : Inbound (N := N)) (Hsync : in_sync (sight w)) (Hadmin : require_admin ctx = Ok tt)
    (Hentitled : is_entitled (iw_entitlement w) = true) (Hup : enabled_in (po_db (iw_policy w)) = true)
    (Hdevice : List.find (fun x => dr_id x =? v) (t_devices (po_db (iw_policy w))) = Some device) (Hname : dr_name device = Some name)
    (Hmanaged : dr_managed device = true)
    (Hroom : (length (iw_rows w) < 253)%nat)
    (Hnew : forall r, r ∈ iw_rows w -> pr_device_id r <> Some v /\ pr_id r <> id
              /\ pr_public_key r <> encode_key (x25519_base (clamp random))) :
  let key := x25519_base (clamp random) in
  exists host, 2 <= host <= 254 /\ ~ taken (iw_rows w) host /\ (forall h, 2 <= h < host -> taken (iw_rows w) h)
  /\ let address := subnet_text host ++ "/32" in
     fst (add_peer ctx v endpoint id random w) =
       Ok {| ap_id := id; ap_name := name; ap_public_key := encode_key key; ap_allowed_ip := address;
             ap_client_config :=
               match t_config (po_db (iw_policy w)) !! PUBKEY, endpoint with
               | Some pubkey, Some e => Some (build_client_config (encode_key (clamp random)) address pubkey e)
               | _, _ => None
               end |}
     /\ (exists now, iw_rows (snd (add_peer ctx v endpoint id random w)) = iw_rows w ++
          [{| pr_id := id; pr_public_key := encode_key key; pr_allowed_ip := address; pr_name := name; pr_enabled := true;
              pr_created_at := now; pr_device_id := Some v |}])
     /\ v_peers (vpn (iw_env (snd (add_peer ctx v endpoint id random w)))) = {[key]} ∪ v_peers (vpn (iw_env w)).
Proof. by apply (grant_run ctx v id endpoint random device name). Qed.

(** An unmanaged device is granted just the same. *)
Theorem unmanaged_granted (ctx : option AuthContext) (v id : Uuid) (endpoint : option str) (random : list Z) (device : DeviceRow) (name : str)
    (w : Inbound (N := N)) (Hsync : in_sync (sight w)) (Hadmin : require_admin ctx = Ok tt)
    (Hentitled : is_entitled (iw_entitlement w) = true) (Hup : enabled_in (po_db (iw_policy w)) = true)
    (Hdevice : List.find (fun x => dr_id x =? v) (t_devices (po_db (iw_policy w))) = Some device) (Hname : dr_name device = Some name)
    (Hunmanaged : dr_managed device = false) (Hroom : (length (iw_rows w) < 253)%nat)
    (Hnew : forall r, r ∈ iw_rows w -> pr_device_id r <> Some v /\ pr_id r <> id
              /\ pr_public_key r <> encode_key (x25519_base (clamp random))) :
  is_ok (fst (add_peer ctx v endpoint id random w)) = true.
Proof.
  destruct (grant_run ctx v id endpoint random device name w Hsync Hadmin Hentitled Hup Hdevice Hname Hroom Hnew)
    as (host & _ & _ & _ & Hr & _). by rewrite Hr.
Qed.


End grant.

(** ** The client configuration *)

(** A line as it is printed: printable ends, no comment, one line. *)
Record plain (l : str) : Prop := {
  pl_first : exists c s, l = c :: s /\ is_graphic c = true /\ c <> "#"%char /\ c <> ";"%char;
  pl_last : exists s d, l = s ++ [d] /\ is_graphic d = true;
  pl_line : LF ∉ l;
}.

Definition unbroken (l : str) : Prop := (LF ∉ l) /\ (forall r, l <> r ++ [CR]).

Lemma plain_unbroken l : plain l -> unbroken l.
Proof. intros [_ (s & d & -> & Hd) Hl]. split; [done|]. intros r E. apply app_inj_tail in E as [_ ->]. done. Qed.

Lemma plain_clean l : plain l -> clean l = l.
Proof.
  intros Hl. pose proof Hl as [(c & s & Ec & Hc & _) (s' & d & Ed & Hd) _]. unfold clean.
  rewrite trim_id; [apply trim_end_matches_id; by apply plain_unbroken|].
  split; [rewrite Ec; by apply strip_any_graphic | rewrite Ed, reverse_app; by apply strip_any_graphic_rev].
Qed.

Lemma plain_significant l : plain l -> ignorable l = false.
Proof.
  intros [(c & s & -> & _ & H1 & H2) _ _]. unfold ignorable, starts_with. rewrite bool_decide_eq_false_2 by done. simpl.
  by rewrite !bool_decide_eq_false_2 by congruence.
Qed.

Lemma split_nonempty c s : split c s <> [].
Proof. destruct s as [|d s]; simpl; [done|]. case_bool_decide; [done|]. by destruct (split c s). Qed.

Lemma lines_terminated ls : Forall unbroken ls -> lines (concat ((fun l => l ++ [LF]) <$> ls)) = ls.
Proof.
  unfold lines. induction 1 as [|l ls [Hl Hcr] _ IH]; [done|].
  change (concat ((fun l => l ++ [LF]) <$> l :: ls)) with ((l ++ [LF]) ++ concat ((fun l => l ++ [LF]) <$> ls)).
  rewrite <- app_assoc. simpl ([LF] ++ _). rewrite split_cons_piece by done.
  destruct (split LF (concat ((fun l => l ++ [LF]) <$> ls))) as [|p ps] eqn:Es; [by apply split_nonempty in Es|].
  cbn [lines_of]. rewrite (proj2 (strip_suffix_None _ _)) by done.
  change (l :: lines_of (p :: ps) = l :: ls). by rewrite IH.
Qed.

(** What is left of the lines. *)
Definition significant (ls : list str) : list str := filter (fun l => ignorable l = false) (clean <$> ls).

Lemma significant_app a b : significant (a ++ b) = significant a ++ significant b.
Proof. unfold significant. by rewrite fmap_app, filter_app. Qed.

Lemma significant_plain ls : Forall plain ls -> significant ls = ls.
Proof.
  unfold significant. induction 1 as [|l ls Hl _ IH]; [done|]. rewrite fmap_cons, (plain_clean l Hl), filter_cons_True by (by apply plain_significant).
  by rewrite IH.
Qed.

Definition client_config (private_key allowed_ip server_pubkey endpoint : str) : WgConfig :=
  {| wg_interface := {| wi_private_key := private_key; wi_address := [allowed_ip]; wi_listen_port := None;
                        wi_dns := [subnet_text SERVER_HOST] |};
     wg_peers := [{| wp_public_key := server_pubkey; wp_endpoint := Some endpoint;
                     wp_allowed_ips := [of_string "0.0.0.0/0"; of_string "::/0"]; wp_preshared_key := None;
                     wp_persistent_keepalive := Some 25 |}] |}.

Lemma client_text k a p e : build_client_config k a p e =
  concat ((fun l => l ++ [LF]) <$> [of_string "[Interface]"; kv "PrivateKey" k; kv "Address" a; kv "DNS" (subnet_text SERVER_HOST); [];
    of_string "[Peer]"; kv "PublicKey" p; kv "Endpoint" e; kv "AllowedIPs" (of_string "0.0.0.0/0, ::/0"); kv "PersistentKeepalive" (of_string "25")]).
Proof.
  unfold build_client_config, kv. change NL with [LF]. cbn [fmap list_fmap concat]. rewrite <- !app_assoc, ?app_nil_r. reflexivity.
Qed.

Lemma plain_kv k v : (exists c s, k = c :: s /\ is_graphic c = true /\ c <> "#"%char /\ c <> ";"%char) -> LF ∉ k -> word v -> plain (kv k v).
Proof.
  intros (c & s & -> & Hc) Hk Hv. pose proof (word_ends v Hv) as (_ & _ & _ & _ & s' & d & Ed & Hd). split.
  - exists c, (s ++ " = " ++ v). by split.
  - exists ((c :: s) ++ " = " ++ s'), d. unfold kv. by rewrite Ed, <- !app_assoc.
  - unfold kv. rewrite !not_elem_of_app. split_and!; [done | vm_compute; set_solver|]. intros H. destruct Hv as [_ Hv].
    rewrite Forall_forall in Hv. by specialize (Hv LF H).
Qed.

(** The client configuration a grant answers with is one the configuration parser of the same program reads back: the
    peer's key and address, the server as resolver, the server's key and endpoint, everything routed through it. *)
Theorem client_config_parses (private_key allowed_ip server_pubkey endpoint : str)
    (Hkey : word private_key) (Haddress : item allowed_ip) (Hserver : word server_pubkey) (Hendpoint : word endpoint) :
  wg_parse (build_client_config private_key allowed_ip server_pubkey endpoint) =
    Ok (client_config private_key allowed_ip server_pubkey endpoint).
Proof.
  assert (Hword : forall c s v, is_graphic c = true -> c <> "#"%char -> c <> ";"%char -> LF ∉ c :: s -> word v -> plain (kv (c :: s) v))
    by (intros c s v H1 H2 H3 H4 H5; apply plain_kv; [by exists c, s | done | done]).
  assert (Hclosed : forall l, match l with c :: _ => is_graphic c && negb (bool_decide (c = "#"%char)) && negb (bool_decide (c = ";"%char)) | [] => false end
      && is_graphic (List.last l " "%char) && negb (bool_decide (LF ∈ l)) = true -> plain l).
  { intros [|c l] H; [done|]. rewrite !andb_true_iff, !negb_true_iff, !bool_decide_eq_false in H. destruct H as [[[[H1 H2] H3] H4] H5].
    split; [by exists c, l | | done]. exists (removelast (c :: l)), (List.last (c :: l) " "%char). split; [by apply app_removelast_last | done]. }
  assert (Hsig : Forall plain [of_string "[Interface]"; kv "PrivateKey" private_key; kv "Address" allowed_ip; kv "DNS" (subnet_text SERVER_HOST)]
    /\ Forall plain [of_string "[Peer]"; kv "PublicKey" server_pubkey; kv "Endpoint" endpoint;
         kv "AllowedIPs" (of_string "0.0.0.0/0, ::/0"); kv "PersistentKeepalive" (of_string "25")]).
  { split; repeat apply Forall_cons_2; try apply Forall_nil_2;
      first [by apply Hclosed | apply Hword; [done | done | done | by apply (bool_decide_eq_false _) | by try apply Haddress]]. }
  destruct Hsig as [H1 H2].
  assert (Hitem : forall w, forallb is_graphic w && negb (bool_decide (w = [])) && negb (bool_decide (","%char ∈ w)) = true -> item w).
  { intros w. rewrite !andb_true_iff, !negb_true_iff, !bool_decide_eq_false, forallb_forall. intros [[Ha Hb] Hc]. split; [|done]. split; [done|].
    apply Forall_forall. intros c Hin. by apply Ha, list_elem_of_In. }
  apply canonical_parses.
  - split; [|split; [|done]].
    + split; [done|]. split; [by apply Forall_singleton|]. split; [apply Forall_singleton; by apply Hitem | done].
    + apply Forall_singleton. split; [done|]. split; [by intros e [= <-]|]. split; [|split; [done | by intros n [= <-]]].
      apply Forall_cons_2; [by apply Hitem | apply Forall_singleton; by apply Hitem].
  - rewrite client_text, lines_terminated.
    + change (significant ([of_string "[Interface]"; kv "PrivateKey" private_key; kv "Address" allowed_ip; kv "DNS" (subnet_text SERVER_HOST)] ++ [] ::
        [of_string "[Peer]"; kv "PublicKey" server_pubkey; kv "Endpoint" endpoint; kv "AllowedIPs" (of_string "0.0.0.0/0, ::/0");
         kv "PersistentKeepalive" (of_string "25")]) = config_lines (client_config private_key allowed_ip server_pubkey endpoint)).
      rewrite significant_app, (significant_plain _ H1). change (significant ([] :: ?l)) with (significant l). by rewrite (significant_plain _ H2).
    + apply (Forall_app_2 unbroken [_; _; _; _] (_ :: _)); [by eapply Forall_impl; [exact H1 | apply plain_unbroken]|].
      constructor; [split; [set_solver | by intros [] ?]|]. by eapply Forall_impl; [exact H2 | apply plain_unbroken].
Qed.
