(* ===== verification/InboundInterface.v ===== *)
(** * The inbound interface on Linux, and the peer monitor

    [wardnetd/src/inbound_wg_interface_wireguard.rs] over [wireguard-control] and the
    [ip] tool, with what it promises to the service, and
    [wardnetd/src/inbound_wg_peer_monitor.rs] over the service, the interface and device
    discovery.  Times are nanoseconds; the order in which a [HashSet] is walked is that of
    [elements]. *)

From S2P Require Import Prelude RustStr Net Auth PolicyRouter RoutingTypes ZoneTypes PolicyDb ZoneService DeviceService.
From S2P Require Import Discovery Tables TunnelInterface AccountService InboundWg InboundLaws.

(** ** [DeviceUpdate] *)

Section update.
Context {Ip : Type}.

(** [PeerConfigBuilder] *)
Record PeerUpdate : Type := {
  pu_public_key : list Z;
  pu_allowed_ips : list (Ip * Z);
  pu_preshared_key : option (list Z);
  pu_keepalive : option Z;
}.

Record DeviceUpdate : Type := {
  du_private_key : option (list Z);
  du_listen_port : option Z;
  du_add : list PeerUpdate;
  du_remove : list (list Z);
}.

End update.
Arguments PeerUpdate : clear implicits.
Arguments DeviceUpdate : clear implicits.

Record KernelPeer : Type := {
  kp_public_key : list Z;
  kp_tx_bytes : Z;
  kp_rx_bytes : Z;
  kp_last_handshake_time : option Z;
}.

Class InboundKernel (K I A : Type) : Type := {
  ik_kernel :: WgKernel K I A;
  KernelIp : Type;
  network_ip : I -> KernelIp;
  network_prefix : I -> Z;
  wg_update : str -> DeviceUpdate KernelIp -> ST K str unit;
  wg_peers : str -> ST K IoError (list KernelPeer);
}.

Section wireguard.
Context {K I A : Type} {G : InboundKernel K I A}.

Definition peer_stats_from (public_key : list Z) (tx_bytes rx_bytes : Z) (last_handshake_time : option Z) : InboundWgPeerStats :=
  {| ws_public_key := public_key; ws_bytes_tx := tx_bytes; ws_bytes_rx := rx_bytes; ws_last_handshake := last_handshake_time |}.

Definition interface_named (name : str) : ST K str str :=
  match parse_interface_name name with
  | Ok i => mret i
  | Err e => st_fail ("invalid interface name: " ++ e)
  end.

Definition wg_ensure_server (config : InboundWgServerConfig I) : ST K str unit :=
  iface ← interface_named (is_interface_name config);
  _ ← remove_stale_link (is_interface_name config);
  _ ← wg_update iface {| du_private_key := Some (is_private_key config); du_listen_port := Some (is_listen_port config);
                         du_add := []; du_remove := [] |};
  _ ← st_iter (assign_address (is_interface_name config)) (is_address config);
  wg_bring_up (is_interface_name config).

Definition wg_tear_down_server (interface_name : str) : ST K str unit :=
  _ ← delete_wireguard_interface interface_name (of_string "inbound wireguard server"); mret tt.

Definition wg_add_peer (interface_name : str) (peer : InboundWgPeerConfig I) : ST K str unit :=
  iface ← interface_named interface_name;
  wg_update iface {| du_private_key := None; du_listen_port := None;
    du_add := [{| pu_public_key := ip_public_key peer;
                  pu_allowed_ips := (fun n => (network_ip n, network_prefix n)) <$> ip_allowed_ips peer;
                  pu_preshared_key := ip_preshared_key peer; pu_keepalive := ip_persistent_keepalive peer |}];
    du_remove := [] |}.

Definition wg_remove_peer (interface_name : str) (public_key : list Z) : ST K str unit :=
  iface ← interface_named interface_name;
  wg_update iface {| du_private_key := None; du_listen_port := None; du_add := []; du_remove := [public_key] |}.

Definition kernel_stats (p : KernelPeer) : InboundWgPeerStats :=
  peer_stats_from (kp_public_key p) (kp_tx_bytes p) (kp_rx_bytes p) (kp_last_handshake_time p).

(** [Device::get]; a missing device has no peers. *)
Definition device_peers (interface_name iface : str) : ST K str (list InboundWgPeerStats) := fun k =>
  match wg_peers iface k with
  | (Ok peers, k') => (Ok (kernel_stats <$> peers), k')
  | (Err e, k') =>
      (if is_interface_absent_error e then Ok []
       else Err ("failed to query inbound wireguard server " ++ interface_name ++ " peers: " ++ io_text e), k')
  end.

Definition wg_peer_stats (interface_name : str) : ST K str (list InboundWgPeerStats) :=
  iface ← interface_named interface_name;
  device_peers interface_name iface.

#[export] Instance wireguard_inbound_interface : InboundWgInterface K I := {|
  ii_ensure_server := wg_ensure_server; ii_tear_down_server := wg_tear_down_server; ii_add_peer := wg_add_peer;
  ii_remove_peer := wg_remove_peer; ii_peer_stats := wg_peer_stats;
|}.

(** What is documented of the crate and the tool: an update adds and removes the peers it
    names and keeps the others, or changes nothing; deleting a link takes its peers
    along; a device reported missing has none; the rest does not concern peers. *)
Class InboundKernelLaws : Type := {
  peers_of : str -> K -> gset (list Z);
  name_parses s t : parse_interface_name s = Ok t -> t = s;
  update_effect i u : effect (peers_of i) (wg_update i u)
    (becomes (fun v => (v ∪ list_to_set (pu_public_key <$> du_add u)) ∖ list_to_set (du_remove u))) same;
  link_show_peers i k : peers_of i (snd (ip_link_show i k)) = peers_of i k;
  link_up_peers i k : peers_of i (snd (ip_link_set_up i k)) = peers_of i k;
  addr_add_peers a i k : peers_of i (snd (ip_addr_add a i k)) = peers_of i k;
  link_delete_peers i k : peers_of i (snd (ip_link_delete i k)) ⊆ peers_of i k;
  get_peers i k : peers_of i (snd (wg_get i k)) = peers_of i k;
  get_missing i k e : fst (wg_get i k) = Err e -> is_interface_absent_error e = true -> peers_of i k = ∅;
  delete_peers i : forall k, match fst (wg_delete i k) with
    | Ok _ => peers_of i (snd (wg_delete i k)) = ∅
    | Err e => peers_of i (snd (wg_delete i k)) ⊆ peers_of i k
               /\ (is_interface_absent_error e = true -> peers_of i (snd (wg_delete i k)) = ∅)
    end;
}.

Context {GL : InboundKernelLaws}.

(** Effects compose. *)
Lemma shrinks_bind {X Y : Type} (see : K -> gset (list Z)) (m : ST K str X) (h : X -> ST K str Y) :
  effect see m (fun v v' => v' ⊆ v) (fun v v' => v' ⊆ v) -> (forall x, effect see (h x) (fun v v' => v' ⊆ v) (fun v v' => v' ⊆ v)) ->
  effect see (m ≫= h) (fun v v' => v' ⊆ v) (fun v v' => v' ⊆ v).
Proof.
  intros Hm Hh k. unfold mbind, st_bind. specialize (Hm k). destruct (m k) as [[x|e] k']; simpl in *; [|done].
  specialize (Hh x k'). destruct (h x k') as [[y|e] k'']; simpl in *; set_solver.
Qed.

Definition shrinks {X} (i : str) (m : ST K str X) : Prop := effect (peers_of i) m (fun v v' => v' ⊆ v) (fun v v' => v' ⊆ v).

Lemma shrinks_pure {X} i (r : result X str) : shrinks i (st_lift r).
Proof. intros k. destruct r; simpl; reflexivity. Qed.

Lemma shrinks_all {X} i (m : ST K str X) : (forall k, peers_of i (snd (m k)) ⊆ peers_of i k) -> shrinks i m.
Proof. intros H k. specialize (H k). by case_match. Qed.

Lemma shrinks_iter {B} i (body : B -> ST K str unit) xs : (forall x, shrinks i (body x)) -> shrinks i (st_iter body xs).
Proof. intros H. induction xs as [|x xs IH]; simpl; [apply (shrinks_pure i (Ok tt))|]. apply shrinks_bind; [apply H | intros _; exact IH]. Qed.

Lemma shrinks_stale i : shrinks i (remove_stale_link i).
Proof.
  apply shrinks_all. intros k. unfold remove_stale_link. pose proof (link_show_peers i k) as Hs.
  destruct (ip_link_show i k) as [[o|e] k1]; simpl in *; [|by rewrite Hs]. destruct (ou_success o); simpl; [|by rewrite Hs].
  etrans; [apply link_delete_peers | by rewrite Hs].
Qed.

Lemma shrinks_assign i a : shrinks i (assign_address i a).
Proof.
  apply shrinks_bind; [apply shrinks_all; intros k; by rewrite addr_add_peers|]. intros o.
  case_match; [refine (shrinks_pure i (Err _)) | apply (shrinks_pure i (Ok tt))].
Qed.

Lemma shrinks_up i : shrinks i (wg_bring_up i).
Proof.
  apply shrinks_bind; [apply shrinks_all; intros k; by rewrite link_up_peers|]. intros o.
  case_match; [refine (shrinks_pure i (Err _)) | apply (shrinks_pure i (Ok tt))].
Qed.

(** An update that names the interface as it is. *)
Lemma named_effect i u : effect (peers_of i) (iface ← interface_named i; wg_update iface u)
  (becomes (fun v => (v ∪ list_to_set (pu_public_key <$> du_add u)) ∖ list_to_set (du_remove u))) same.
Proof.
  unfold interface_named. destruct (parse_interface_name i) as [t|e] eqn:Ep; [|by intros k].
  apply name_parses in Ep as ->. apply update_effect.
Qed.

Lemma ensure_shrinks c : shrinks (is_interface_name c) (wg_ensure_server c).
Proof.
  unfold wg_ensure_server, interface_named. destruct (parse_interface_name (is_interface_name c)) as [t|e] eqn:Ep; [|refine (shrinks_pure _ (Err _))].
  apply name_parses in Ep as ->. change (shrinks (is_interface_name c) (_ ← remove_stale_link (is_interface_name c);
    _ ← wg_update (is_interface_name c) {| du_private_key := Some (is_private_key c); du_listen_port := Some (is_listen_port c); du_add := []; du_remove := [] |};
    _ ← st_iter (assign_address (is_interface_name c)) (is_address c); wg_bring_up (is_interface_name c))).
  apply shrinks_bind; [apply shrinks_stale|]. intros _. apply shrinks_bind.
  { intros k. pose proof (update_effect (is_interface_name c) {| du_private_key := Some (is_private_key c);
      du_listen_port := Some (is_listen_port c); du_add := []; du_remove := [] |} k) as H.
    destruct (is_ok _); unfold becomes, same in H; rewrite H; simpl; set_solver. }
  intros _. apply shrinks_bind; [apply shrinks_iter, shrinks_assign | intros _; apply shrinks_up].
Qed.

Lemma tear_down_empties i : effect (peers_of i) (wg_tear_down_server i) (becomes (fun _ => ∅)) (fun v v' => v' ⊆ v).
Proof.
  intros k. unfold wg_tear_down_server, delete_wireguard_interface, mbind, st_bind.
  destruct (parse_interface_name i) as [t|e] eqn:Ep; simpl; [|done]. apply name_parses in Ep as ->.
  pose proof (get_peers i k) as Hg. pose proof (get_missing i k) as Hm. destruct (wg_get i k) as [[ps|e] k1]; simpl in *.
  - pose proof (delete_peers i k1) as Hd. destruct (wg_delete i k1) as [[?|e] k2]; simpl in *; [done|]. destruct Hd as [H1 H2].
    destruct (is_interface_absent_error e); simpl; [by apply H2 | by rewrite <- Hg].
  - destruct (is_interface_absent_error e) eqn:Ea; simpl; [|by rewrite Hg]. unfold becomes. rewrite Hg. by apply (Hm e).
Qed.

(** The interface over [wireguard-control] and [ip] keeps what the service relies on, whatever fails on the way:
    ensuring the server never lets anybody in, a successful teardown leaves nobody, adding a peer adds its key and
    removing one removes its key, each leaving the others alone, and a failed addition or removal changes nothing. *)
Theorem wireguard_keeps_promise (i : str) :
  (forall c, is_interface_name c = i -> effect (peers_of i) (ii_ensure_server c) (fun v v' => v' ⊆ v) (fun v v' => v' ⊆ v))
  /\ effect (peers_of i) (ii_tear_down_server i) (becomes (fun _ => ∅)) (fun v v' => v' ⊆ v)
  /\ (forall c, effect (peers_of i) (ii_add_peer i c) (becomes (fun v => {[ip_public_key c]} ∪ v)) same)
  /\ (forall key, effect (peers_of i) (ii_remove_peer i key) (becomes (fun v => v ∖ {[key]})) same).
Proof.
  split; [intros c <-; apply ensure_shrinks|]. split; [apply tear_down_empties|]. split.
  - intros c k. pose proof (named_effect i {| du_private_key := None; du_listen_port := None;
      du_add := [{| pu_public_key := ip_public_key c; pu_allowed_ips := (fun n => (network_ip n, network_prefix n)) <$> ip_allowed_ips c;
                    pu_preshared_key := ip_preshared_key c; pu_keepalive := ip_persistent_keepalive c |}]; du_remove := [] |} k) as H.
    simpl in *. unfold wg_add_peer. destruct (is_ok _); unfold becomes in *; [rewrite H; set_solver | exact H].
  - intros key k. pose proof (named_effect i {| du_private_key := None; du_listen_port := None; du_add := []; du_remove := [key] |} k) as H.
    simpl in *. unfold wg_remove_peer. destruct (is_ok _); unfold becomes in *; [rewrite H; set_solver | exact H].
Qed.

End wireguard.

(** ** The peer monitor *)

Definition HANDSHAKE_STALE_MINUTES : Z := 3.
Definition MINUTE : Z := 60 * 1000000000.

Section monitor.
Context {N : Type} {E : InboundEnv N} {U : UuidText} {Lib : Ipv4NetworkLib} {DD : DiscoveryDeps}.

(** The service and discovery share the database; [mo_fresh] is [previously_fresh]. *)
Record Monitor : Type := {
  mo_inbound : Inbound (N := N);
  mo_discovery : Discovery;
  mo_fresh : gset Uuid;
}.

Abbreviation M := (ST Monitor AppError).

Definition set_fresh (s : gset Uuid) (w : Monitor) : Monitor :=
  {| mo_inbound := mo_inbound w; mo_discovery := mo_discovery w; mo_fresh := s |}.

Definition inbound_call {X} (m : ST Inbound AppError X) : M X := fun w =>
  let '(r, i) := m (set_iw_policy (di_policy (mo_discovery w)) (mo_inbound w)) in
  (r, {| mo_inbound := i; mo_discovery := set_policy (iw_policy i) (mo_discovery w); mo_fresh := mo_fresh w |}).

(** A call of discovery, whose failure is only logged. *)
Definition discovery_call {X} (m : ST Discovery AppError X) : M unit := fun w =>
  (Ok tt, {| mo_inbound := mo_inbound w; mo_discovery := snd (m (mo_discovery w)); mo_fresh := mo_fresh w |}).

(** [stats.into_iter().collect()]: of two entries with one key the later stays. *)
Definition handshakes_of (stats : list InboundWgPeerStats) : gmap (list Z) (option Z) :=
  foldl (fun m s => <[ws_public_key s := ws_last_handshake s]> m) ∅ stats.

Definition is_fresh (handshakes : gmap (list Z) (option Z)) (now : Z) (peer : InboundWgMonitorPeer) : bool :=
  match mjoin (handshakes !! mp_public_key peer) with
  | Some ts => now - ts <=? HANDSHAKE_STALE_MINUTES * MINUTE
  | None => false
  end.

Definition observe_fresh (previously_fresh : gset Uuid) (peer : InboundWgMonitorPeer) : M unit :=
  if bool_decide (mp_device_id peer ∈ previously_fresh)
  then discovery_call (touch_peer_presence (mp_device_id peer))
  else discovery_call (process_peer_observation (mp_device_id peer) (mp_allowed_ip peer)).

Definition poll_once : M unit :=
  peers ← inbound_call list_peers_for_monitor;
  match peers with
  | [] => st_modify (set_fresh ∅)
  | _ =>
      stats ← inbound_call (internally (outside (ii_peer_stats INBOUND_WG_INTERFACE)));
      now ← st_gets (fun w => vpn_now (iw_env (mo_inbound w)));
      previously_fresh ← st_gets mo_fresh;
      let fresh := List.filter (is_fresh (handshakes_of stats) now) peers in
      let currently_fresh : gset Uuid := list_to_set (mp_device_id <$> fresh) in
      _ ← st_iter (observe_fresh previously_fresh) fresh;
      _ ← st_iter (fun v => discovery_call (mark_peer_gone v (HANDSHAKE_STALE_MINUTES * MINUTE)))
            (elements (previously_fresh ∖ currently_fresh));
      st_modify (set_fresh currently_fresh)
  end.

(** One turn of the loop: a failed poll is logged. *)
Definition poll_tick (w : Monitor) : Monitor := snd (poll_once w).

(** ** What is tracked *)

Definition keeps_fresh {X} (m : M X) : Prop := forall w, mo_fresh (snd (m w)) = mo_fresh w.

Lemma keeps_fresh_iter {B} (body : B -> M unit) xs : (forall x, keeps_fresh (body x)) -> keeps_fresh (st_iter body xs).
Proof.
  intros H. induction xs as [|x xs IH]; intros w; simpl; [done|]. unfold mbind, st_bind. specialize (H x w).
  destruct (body x w) as [[?|?] w']; simpl in *; [by rewrite IH | done].
Qed.

Lemma inbound_fresh {X} (m : ST Inbound AppError X) : keeps_fresh (inbound_call m).
Proof. intros w. unfold inbound_call. by destruct (m _) as [r i]. Qed.
Lemma observe_keeps prev p : keeps_fresh (observe_fresh prev p).
Proof. intros w. unfold observe_fresh. by case_match. Qed.

(** The loops cannot fail. *)
Lemma iter_total {B} (body : B -> M unit) xs w : (forall x w, fst (body x w) = Ok tt) -> fst (st_iter body xs w) = Ok tt.
Proof.
  intros H. revert w. induction xs as [|x xs IH]; intros w; simpl; [done|]. unfold mbind, st_bind. specialize (H x w).
  destruct (body x w) as [[?|?] w']; simpl in *; [apply IH | done].
Qed.

Lemma list_same_env w : iw_env (snd (list_peers_for_monitor w)) = iw_env w.
Proof.
  unfold list_peers_for_monitor, peers_find_enabled, peers_select, internally, peers_stmt, mbind, st_bind.
  by destruct (po_faults (iw_policy w)) as [|[e|] fs].
Qed.

(** A poll that fails tracks the devices that were tracked before.  One that succeeds tracks exactly the devices with
    an enabled peer whose last handshake, in the statistics the interface reported for this poll, is at most three
    minutes old; without enabled peers, none. *)
Theorem poll_tracks (w : Monitor) :
  let stats_of := ii_peer_stats INBOUND_WG_INTERFACE (iw_env (mo_inbound w)) in
  match poll_once w with
  | (Err _, w') => mo_fresh w' = mo_fresh w
  | (Ok _, w') => exists peers, fst (inbound_call list_peers_for_monitor w) = Ok peers /\
      (peers = [] /\ mo_fresh w' = ∅ \/ exists stats, fst stats_of = Ok stats /\ forall v, v ∈ mo_fresh w' <->
         exists p ts, p ∈ peers /\ mp_device_id p = v /\ handshakes_of stats !! mp_public_key p = Some (Some ts)
           /\ vpn_now (snd stats_of) - ts <= 3 * 60 * 1000000000)
  end.
Proof.
  intros stats_of. unfold poll_once, mbind, st_bind. pose proof (inbound_fresh list_peers_for_monitor w) as Hi.
  assert (He : iw_env (mo_inbound (snd (inbound_call list_peers_for_monitor w))) = iw_env (mo_inbound w)).
  { unfold inbound_call. pose proof (list_same_env (set_iw_policy (di_policy (mo_discovery w)) (mo_inbound w))) as H. by destruct (list_peers_for_monitor _). }
  destruct (inbound_call list_peers_for_monitor w) as [[peers|e] w1]; simpl in *; [|done].
  destruct peers as [|p0 peers]; [exists []; split; [done | by left]|].
  pose proof (inbound_fresh (internally (outside (ii_peer_stats INBOUND_WG_INTERFACE))) w1) as Hi2.
  assert (Hst : match inbound_call (internally (outside (ii_peer_stats INBOUND_WG_INTERFACE))) w1 with
    | (Ok stats, w2) => fst stats_of = Ok stats /\ iw_env (mo_inbound w2) = snd stats_of | _ => True end).
  { unfold inbound_call, internally, outside. simpl. rewrite He. unfold stats_of. by destruct (ii_peer_stats _ _) as [[?|?] ?]. }
  destruct (inbound_call (internally _) w1) as [[stats|e] w2]; simpl in *; [|by rewrite Hi2]. destruct Hst as [Hst <-].
  set (now := vpn_now (iw_env (mo_inbound w2))). set (fresh := if is_fresh _ _ _ then _ else _).
  pose proof (iter_total (observe_fresh (mo_fresh w2)) fresh w2) as H1.
  destruct (st_iter (observe_fresh (mo_fresh w2)) fresh w2) as [[?|?] w3]; [|exfalso; by discriminate H1; intros x w'; unfold observe_fresh; case_match].
  clear H1. set (gone := fun v => discovery_call _). set (xs := elements _).
  pose proof (iter_total gone xs w3) as H2. destruct (st_iter gone xs w3) as [[?|?] w4]; [|exfalso; by discriminate H2]. clear H2. simpl.
  exists (p0 :: peers). split; [done|]. right. exists stats. split; [done|]. intros v. rewrite elem_of_list_to_set, list_elem_of_fmap.
  change fresh with (List.filter (is_fresh (handshakes_of stats) now) (p0 :: peers)). setoid_rewrite list_elem_of_In. setoid_rewrite filter_In.
  unfold is_fresh. split.
  - intros (p & -> & Hp & Hf). destruct (handshakes_of stats !! mp_public_key p) as [[ts|]|] eqn:Eh; simpl in Hf; try done.
    exists p, ts. apply Z.leb_le in Hf. by rewrite Eh.
  - intros (p & ts & Hp & <- & Eh & Hle). exists p. split_and!; [done..|]. rewrite Eh. simpl. by apply Z.leb_le.
Qed.

End monitor.
