(* ===== verification/Witnesses.v ===== *)
(** * The theorems at work

    Concrete implementations of the interfaces that stand for third-party
    crates ([chrono], [uuid], [serde_json], [hickory_proto]) with proofs of the
    laws the development assumes of them, a small home network, and one worked
    instance of every theorem that has a hypothesis. *)

From S2P Require Import Prelude RustStr Net Auth FilterParser DnsFilter DnsWire DnsCache.
From S2P Require Import Authoritative DhcpRepo DhcpService DhcpLaws DhcpServer DhcpDispatcher.
From S2P Require Import LoginLimiter WgConfig.

(** ** Timestamps

    A column text is its instant tagged with the rendering that wrote it. *)

Definition time_second (t : Z + Z) : Z :=
  match t with inl e => e / NANOS_PER_SEC | inr n => n / NANOS_PER_SEC end.

Definition time_text_lt (a b : Z + Z) : bool :=
  match a, b with
  | inl _, inr _ => time_second a <=? time_second b
  | inl e, inl e' => e <? e'
  | inr _, _ => time_second a <? time_second b
  end.

#[export] Instance tagged_time : TimeLib := {|
  TimeText := Z + Z;
  to_rfc3339 := inl;
  format_z := inr;
  text_lt := time_text_lt;
  parse_time := fun t =>
    match t with inl e => Some e | inr n => Some (n / NANOS_PER_SEC * NANOS_PER_SEC) end;
  display_time := fun t => show_digits 20 t;
|}.

#[export] Instance tagged_time_laws : TimeLaws tagged_time.
Proof. by split. Qed.

(** ** Identifiers and JSON *)

#[export] Instance decimal_uuid : UuidLib := {| show_uuid := show_digits 39 |}.

Definition QUOTE : ascii := ascii_of_N 34.
Definition BACKSLASH : ascii := ascii_of_N 92.

Definition escape_char (c : ascii) : str :=
  if bool_decide (c = QUOTE \/ c = BACKSLASH) then [BACKSLASH; c] else [c].

Definition quote (s : str) : str := QUOTE :: (s ≫= escape_char) ++ [QUOTE].

(** The rest of a quoted string and what follows it. *)
Fixpoint unquote (s : str) : option (str * str) :=
  match s with
  | [] => None
  | c :: s' =>
      if bool_decide (c = QUOTE) then Some ([], s')
      else if bool_decide (c = BACKSLASH) then
        match s' with
        | [] => None
        | c' :: s'' => '(t, rest) ← unquote s''; Some (c' :: t, rest)
        end
      else '(t, rest) ← unquote s'; Some (c :: t, rest)
  end.

Fixpoint read_elements (fuel : nat) (s : str) : option (list str) :=
  match fuel with
  | O => None
  | S fuel' =>
      match s with
      | c :: s' =>
          if bool_decide (c = "]"%char) then (if bool_decide (s' = []) then Some [] else None)
          else if bool_decide (c = QUOTE) then
            '(t, rest) ← unquote s';
            ts ← read_elements fuel' (default rest (strip_prefix "," rest));
            Some (t :: ts)
          else None
      | [] => None
      end
  end.

#[export] Instance json_text : JsonLib := {|
  json_strings := fun l => "[" ++ join "," (quote <$> l) ++ "]";
  json_parse_strings := fun s => s' ← strip_prefix "[" s; read_elements (length s') s';
|}.

Lemma unquote_escape s rest : unquote ((s ≫= escape_char) ++ QUOTE :: rest) = Some (s, rest).
Proof.
  induction s as [|c s IH]; [done|]. rewrite bind_cons, <- app_assoc. unfold escape_char at 1.
  case_bool_decide as Hc; cbn [app unquote].
  - rewrite bool_decide_eq_false_2 by done. rewrite bool_decide_eq_true_2 by done. by rewrite IH.
  - rewrite !bool_decide_eq_false_2 by naive_solver. by rewrite IH.
Qed.

Lemma read_elements_join l fuel : (length l < fuel)%nat ->
  read_elements fuel (join "," (quote <$> l) ++ "]") = Some l.
Proof.
  revert fuel. induction l as [|s l IH]; intros [|fuel] Hf; try (simpl in Hf; lia); [done|].
  assert (Hq : forall tl, read_elements (S fuel) (quote s ++ tl) =
    ts ← read_elements fuel (default tl (strip_prefix "," tl)); Some (s :: ts)).
  { intros tl. simpl. rewrite <- app_assoc. simpl. by rewrite unquote_escape. }
  simpl in Hf. destruct l as [|s' l].
  - change (join "," (quote <$> [s])) with (quote s). rewrite Hq. destruct fuel; [lia | done].
  - change (join "," (quote <$> s :: s' :: l)) with
      (quote s ++ "," ++ join "," (quote <$> s' :: l)).
    rewrite <- !app_assoc, Hq. simpl strip_prefix. simpl default. rewrite IH; [done | simpl in *; lia].
Qed.

#[export] Instance json_text_laws : JsonLaws json_text.
Proof.
  split. intros l. simpl. apply read_elements_join. rewrite length_app. simpl.
  induction l as [|s [|s' l] IH]; simpl in *; [lia|lia|]. rewrite !length_app. simpl. lia.
Qed.

(** ** A home network

    Wardnet at 192.168.1.1; a laptop holds 192.168.1.100, a printer has
    192.168.1.101 reserved, a guest zone leases from 10.20.0.0/24. *)

Definition GATEWAY : Ipv4Addr := ipv4_new 192 168 1 1.
Definition NOON : Z := 1700000000 * NANOS_PER_SEC.
Definition LAPTOP : str := of_string "aa:bb:cc:00:00:01".
Definition PRINTER : str := of_string "aa:bb:cc:00:00:02".
Definition PHONE : str := of_string "AA:bb:cc:00:00:03".
Definition GUEST : str := of_string "aa:bb:cc:00:00:04".

Definition laptop_lease (status : str) (ends : Z) : DbLeaseRow :=
  lease_row NOON
    {| li_id := 1; li_mac := LAPTOP; li_ip := of_string "192.168.1.100"; li_hostname := None;
       li_lease_start := NOON; li_lease_end := ends; li_status := status; li_device_id := None |}.

Definition printer_reservation : DbReservationRow :=
  reservation_row NOON
    {| ri_id := 2; ri_mac := PRINTER; ri_ip := of_string "192.168.1.101"; ri_hostname := None;
       ri_description := None |}.

Definition guest_zone : ZoneRec :=
  {| nz_id := 5; nz_name := of_string "guests"; nz_subnet := Some (of_string "10.20.0.0/24");
     nz_member_isolation := true; nz_is_default_for_new := false |}.

Definition home_data (status : str) (ends : Z) : Data :=
  {| w_leases := [laptop_lease status ends]; w_reservations := [printer_reservation]; w_log := [];
     w_config := ∅;
     w_devices := [{| dev_id := 9; dev_mac := GUEST; dev_zone_id := 5; dev_managed := false |}];
     w_zones := [guest_zone]; w_events := []; w_now := NOON |}.

Definition home : World :=
  {| w_data := home_data "active" (NOON + 86400 * NANOS_PER_SEC); w_faults := [] |}.

(** The laptop's lease ran out a minute ago. *)
Definition home_due : World :=
  {| w_data := home_data "active" (NOON - 60 * NANOS_PER_SEC); w_faults := [] |}.

Lemma home_ok ends : tables_ok (home_data "active" ends).
Proof.
  split; simpl;
    [apply NoDup_singleton | apply NoDup_singleton | | | apply NoDup_singleton
    | apply NoDup_singleton |].
  - constructor; [|done]. apply into_lease_ok. split_and!; vm_compute; eauto.
  - repeat constructor. by eexists.
  - constructor; [by vm_compute | done].
Qed.

Definition sys_ctx : option AuthContext := Some system_ctx.

(** ** The DHCP service *)

(** A day at home: a phone joins, the laptop renews, an unauthenticated caller
    is refused, storage fails during an assignment, the pool is moved. *)
Definition a_day : list history_step :=
  let step ctx faults op :=
    {| hs_ctx := ctx; hs_now := NOON; hs_faults := faults; hs_config := ∅; hs_devices := [];
       hs_zones := [guest_zone]; hs_op := op |} in
  [step sys_ctx [] (OpAssignLease 1 LAPTOP None);
   step sys_ctx [] (OpAssignLease 2 PHONE (Some (of_string "phone")));
   step sys_ctx [] (OpRenewLease 3 LAPTOP None);
   step None [] (OpReleaseLease LAPTOP);
   step sys_ctx (replicate 16 None ++ [Some (of_string "disk full")]) (OpAssignLease 4 PRINTER None)].

Lemma dhcp_history_ok_witness :
  tables_ok (run_history GATEWAY fresh_data a_day)
  /\ active_macs (w_leases (run_history GATEWAY fresh_data a_day)) <> [].
Proof. split; [exact (dhcp_history_ok GATEWAY a_day) | by vm_compute]. Defined.

(** The outcome of a call through a projection of its result. *)
Definition outcome_of {X Y} (f : X -> World -> Y) (r : result X AppError * World) : option Y :=
  match r with (Ok x, w') => Some (f x w') | (Err _, _) => None end.

Lemma assign_lease_correct_witness :
  let '(r, w') := assign_lease GATEWAY sys_ctx 7 PHONE None home in
  match r with
  | Ok lease => holds PHONE lease (w_data w')
      /\ show_ipv4 (dl_ip_address lease) = of_string "192.168.1.102"
  | Err _ => False
  end.
Proof.
  assert (Hc : outcome_of (fun l _ => show_ipv4 (dl_ip_address l))
    (assign_lease GATEWAY sys_ctx 7 PHONE None home) = Some (of_string "192.168.1.102"))
    by (vm_compute; reflexivity).
  destruct (assign_lease GATEWAY sys_ctx 7 PHONE None home) as [[lease|e] w'] eqn:E; [|discriminate].
  destruct (assign_lease_correct GATEWAY sys_ctx 7 PHONE None home lease w' (home_ok _) E)
    as (scope & _ & _ & Hh & _). split; [exact Hh | by injection Hc].
Defined.

Lemma renew_lease_correct_witness :
  let '(r, w') := renew_lease GATEWAY sys_ctx 7 LAPTOP None home in
  match r with
  | Ok lease => holds LAPTOP lease (w_data w') /\ dl_id lease = 1
  | Err _ => False
  end.
Proof.
  assert (Hc : outcome_of (fun l _ => dl_id l) (renew_lease GATEWAY sys_ctx 7 LAPTOP None home)
    = Some 1) by (vm_compute; reflexivity).
  destruct (renew_lease GATEWAY sys_ctx 7 LAPTOP None home) as [[lease|e] w'] eqn:E; [|discriminate].
  destruct (renew_lease_correct GATEWAY sys_ctx 7 LAPTOP None home lease w' (home_ok _) E)
    as (_ & Hh & _). split; [exact Hh | by injection Hc].
Defined.

Lemma release_lease_correct_witness :
  let '(r, w') := release_lease sys_ctx LAPTOP home in
  match r with Ok _ => no_active_mac LAPTOP (w_data w') | Err _ => False end.
Proof.
  assert (Hc : outcome_of (fun _ _ => tt) (release_lease sys_ctx LAPTOP home) = Some tt)
    by (vm_compute; reflexivity).
  destruct (release_lease sys_ctx LAPTOP home) as [[[]|e] w'] eqn:E; [|discriminate].
  destruct (release_lease_correct sys_ctx LAPTOP home w' (home_ok _) E) as (_ & Hn & _). exact Hn.
Defined.

Lemma cleanup_expired_correct_witness :
  let '(r, w') := cleanup_expired sys_ctx home_due in
  match r with
  | Ok n => n = 1 /\ exists row, w_leases (w_data w') !! 0%nat = Some row
              /\ parse_status (row_status row) = Ok Expired
  | Err _ => False
  end.
Proof.
  assert (Hc : outcome_of (fun n _ => n) (cleanup_expired sys_ctx home_due) = Some 1)
    by (vm_compute; reflexivity).
  destruct (cleanup_expired sys_ctx home_due) as [[n|e] w'] eqn:E; [|discriminate].
  destruct (cleanup_expired_correct sys_ctx home_due n w' (home_ok _) E) as (_ & Hrows & _).
  split; [by injection Hc|].
  destruct (Hrows 0%nat (laptop_lease "active" (NOON - 60 * NANOS_PER_SEC)) eq_refl) as [Hdue _].
  destruct Hdue as (row & Hr & Hs & _); [|by exists row].
  split; [done|]. exists (NOON - 60 * NANOS_PER_SEC). split; [done|]. vm_compute. discriminate.
Defined.

Definition move_pool : UpdateDhcpConfigRequest :=
  {| uc_pool_start := of_string "192.168.1.150"; uc_pool_end := of_string "192.168.1.200";
     uc_subnet_mask := of_string "255.255.255.0"; uc_upstream_dns := [of_string "9.9.9.9"];
     uc_lease_duration_secs := 3600; uc_router_ip := None |}.

Lemma update_config_leases_witness :
  let '(r, w') := update_config GATEWAY sys_ctx move_pool home in
  match r with
  | Ok _ => (forall row, row ∈ active_rows (w_leases (w_data w')) ->
               exists a b, justified a b [printer_reservation] row)
            /\ active_macs (w_leases (w_data w')) = []
  | Err _ => False
  end.
Proof.
  assert (Hc : outcome_of (fun _ w' => active_macs (w_leases (w_data w')))
    (update_config GATEWAY sys_ctx move_pool home) = Some []) by (vm_compute; reflexivity).
  destruct (update_config GATEWAY sys_ctx move_pool home) as [[c|e] w'] eqn:E; [|discriminate].
  destruct (update_config_leases GATEWAY sys_ctx move_pool home c w' (home_ok _) E)
    as (a & b & _ & _ & _ & Hj). split; [intros row Hrow; exists a, b; by apply Hj|].
  by injection Hc.
Defined.

Lemma update_config_roundtrip_witness :
  let '(r, _) := update_config GATEWAY sys_ctx move_pool home in
  match r with
  | Ok c => parse_pool_range (of_string "192.168.1.150") (of_string "192.168.1.200")
              = Ok (dc_pool_start c, dc_pool_end c) /\ dc_lease_duration_secs c = 3600
  | Err _ => False
  end.
Proof.
  assert (Hc : outcome_of (fun _ _ => tt) (update_config GATEWAY sys_ctx move_pool home) = Some tt)
    by (vm_compute; reflexivity).
  destruct (update_config GATEWAY sys_ctx move_pool home) as [[c|e] w'] eqn:E; [|discriminate].
  destruct (update_config_roundtrip GATEWAY sys_ctx move_pool home c w') as (Hp & _ & _ & Hd & _);
    [vm_compute; split; discriminate | exact E |]. by split.
Defined.

Lemma update_config_rejects_witness :
  let bad := {| uc_pool_start := of_string "8.8.8.1"; uc_pool_end := of_string "8.8.8.9";
                uc_subnet_mask := of_string "255.255.255.0"; uc_upstream_dns := [];
                uc_lease_duration_secs := 60; uc_router_ip := None |} in
  update_config GATEWAY sys_ctx bad home
  = (Err (BadRequest ("pool_start must be " ++ PRIVATE_RANGE_HINT)), home).
Proof. intros bad. by apply (update_config_rejects GATEWAY sys_ctx bad home). Defined.

Lemma assign_lease_progress_witness :
  exists scope, fst (resolve_scope GATEWAY PHONE home) = Ok scope
  /\ ((exists lease, fst (assign_lease GATEWAY sys_ctx 7 PHONE None home) = Ok lease)
      \/ (fst (assign_lease GATEWAY sys_ctx 7 PHONE None home) = Err EXHAUSTED
          /\ forall j, ip_in_pool j (sc_pool_start scope) (sc_pool_end scope) = true ->
               taken (w_data home) j)).
Proof.
  assert (Hs : exists scope, fst (resolve_scope GATEWAY PHONE home) = Ok scope)
    by (eexists; vm_compute; reflexivity).
  destruct Hs as [scope Hs]. exists scope. split; [exact Hs|].
  apply (assign_lease_progress GATEWAY sys_ctx 7 PHONE None home scope);
    [reflexivity | reflexivity | apply home_ok | | exact Hs].
  unfold fresh_id. vm_compute. intros H. inversion H as [|? ? ? H']; subst. inversion H'.
Defined.

Lemma exec_requires_admin_witness :
  exec GATEWAY (Some (Device (of_string "aa:bb:cc:00:00:01"))) OpCleanupExpired home_due
  = (Err (Forbidden "admin privileges required"), home_due).
Proof. apply exec_requires_admin. intros u Hu. discriminate Hu. Defined.

Lemma resolve_scope_sound_witness :
  match fst (resolve_scope GATEWAY GUEST home) with
  | Ok sc => sc_dns sc <> [] /\ sc_subnet_prefix sc = Some 24 /\ sc_subnet_mask sc = BROADCAST
  | Err _ => False
  end.
Proof.
  assert (Hc : outcome_of (fun sc _ => (sc_subnet_prefix sc, sc_subnet_mask sc))
    (resolve_scope GATEWAY GUEST home) = Some (Some 24, BROADCAST)) by (vm_compute; reflexivity).
  destruct (resolve_scope GATEWAY GUEST home) as [[sc|e] w'] eqn:E; [|discriminate].
  destruct (resolve_scope_sound GATEWAY GUEST home sc w' E) as [Hd _].
  injection Hc as Hp Hm. split; [exact Hd | split; [exact Hp | exact Hm]].
Defined.

(** ** The DHCP server *)

Definition request_of (mac : list Z) (t : MessageType) (wanted : option Ipv4Addr) : Request :=
  {| rq_htype := Eth; rq_hlen := 6; rq_chaddr_field := mac ++ replicate 10 0; rq_xid := 77;
     rq_broadcast := false; rq_ciaddr := UNSPECIFIED; rq_giaddr := UNSPECIFIED;
     rq_msg_type := Some t; rq_requested_ip := wanted; rq_hostname := None;
     rq_param_list := None |}.

Definition laptop_bytes : list Z := [170; 187; 204; 0; 0; 1].

Lemma accept_packet_sound_witness :
  accept_packet ∅ (request_of laptop_bytes Discover None) = Some (Discover, LAPTOP)
  /\ LAPTOP ∉ (∅ : gset str).
Proof.
  assert (E : accept_packet ∅ (request_of laptop_bytes Discover None) = Some (Discover, LAPTOP))
    by (vm_compute; reflexivity).
  split; [exact E|].
  destruct (accept_packet_sound ∅ (request_of laptop_bytes Discover None) Discover LAPTOP)
    as (_ & _ & _ & Hn); [reflexivity | | exact E | exact Hn].
  repeat constructor; vm_compute; discriminate.
Defined.

#[local] Instance home_service : LeaseService World := dhcp_lease_service GATEWAY.

(** The laptop asks for the address it holds. *)
Lemma replies_hold_leases_witness :
  let msg := request_of laptop_bytes DRequest (Some (ipv4_new 192 168 1 100)) in
  match fst (handle_request 7 msg LAPTOP home) with
  | Ok r => opt_msg_type (rp_opts r) = Some Ack /\ rp_yiaddr r = ipv4_new 192 168 1 100
  | Err _ => False
  end.
Proof.
  intros msg.
  assert (Hc : outcome_of (fun r _ => opt_msg_type (rp_opts r)) (handle_request 7 msg LAPTOP home)
    = Some (Some Ack)) by (vm_compute; reflexivity).
  destruct (handle_request 7 msg LAPTOP home) as [[r|e] w'] eqn:E; [|discriminate].
  destruct (replies_hold_leases (data := w_data) 7 msg LAPTOP home r w' (home_ok _)) as [_ H].
  injection Hc as Hc. split; [exact Hc|].
  destruct (H E) as (l & _ & [(_ & _ & [Hu|Hy])|(Hn & _)]);
    [vm_compute in Hu; discriminate | exact Hy | congruence].
Defined.

Lemma release_needs_source_witness :
  exists l ip, V4 (ipv4_new 192 168 1 100) = V4 ip /\ ip <> UNSPECIFIED /\ ip <> BROADCAST
    /\ holds LAPTOP l (w_data home) /\ dl_ip_address l = ip.
Proof.
  apply (release_needs_source (data := w_data) LAPTOP
    {| sa_ip := V4 (ipv4_new 192 168 1 100); sa_port := 68 |} home (home_ok _)).
  intros Heq. apply (f_equal (fun d => active_macs (w_leases d))) in Heq.
  vm_compute in Heq. discriminate.
Defined.

(** ** The dispatcher *)

Definition laptop_src : SocketAddr := {| sa_ip := V4 (ipv4_new 192 168 1 100); sa_port := 68 |}.

Definition arrives (mac : str) (t : MessageType) : event :=
  EvDispatch mac t (request_of laptop_bytes t None) laptop_src.

Fixpoint run_events (st : state) (es : list event) : option state :=
  match es with
  | [] => Some st
  | e :: es' => st' ← apply_event st e; run_events st' es'
  end.

Lemma run_events_reachable es st st' : reachable st -> run_events st es = Some st' -> reachable st'.
Proof.
  revert st. induction es as [|e es IH]; intros st Hr; simpl; [by intros [= <-]|].
  destruct (apply_event st e) as [st1|] eqn:E; [|done]. apply IH. by eapply reach_step.
Qed.

(** Two clients; the laptop's second packet waits, the phone's handler panics. *)
Definition burst : list event :=
  [arrives LAPTOP Discover; arrives PHONE Discover; arrives LAPTOP DRequest; EvPanic 1%nat].

Lemma dispatcher_exclusive_witness :
  match run_events init burst with
  | Some st => (permits st + size (tasks st) = 64)%nat /\ size (tasks st) = 2%nat
  | None => False
  end.
Proof.
  assert (Hc : (fun st => size (tasks st)) <$> run_events init burst = Some 2%nat)
    by (vm_compute; reflexivity).
  assert (Hd : drained <$> run_events init burst = Some false) by (vm_compute; reflexivity).
  destruct (run_events init burst) as [st|] eqn:E; [|discriminate].
  destruct (dispatcher_exclusive st (run_events_reachable _ _ _ reach_init E)) as (_ & _ & Hp & _).
  injection Hc as Hc. injection Hd as Hd. split; [exact (Hp Hd) | exact Hc].
Defined.

Lemma dispatcher_in_order_witness :
  match run_events init (burst ++ [EvFinish 0%nat]) with
  | Some st => Sorted.StronglySorted lt (starts LAPTOP (st_started st))
      /\ starts LAPTOP (st_started st) = [0%nat; 2%nat]
  | None => False
  end.
Proof.
  assert (Hc : (fun st => starts LAPTOP (st_started st)) <$> run_events init (burst ++ [EvFinish 0%nat])
    = Some [0%nat; 2%nat]) by (vm_compute; reflexivity).
  destruct (run_events init (burst ++ [EvFinish 0%nat])) as [st|] eqn:E; [|discriminate].
  destruct (dispatcher_in_order st LAPTOP (run_events_reachable _ _ _ reach_init E)) as [Hs _].
  injection Hc as Hc. split; [exact Hs | exact Hc].
Defined.

Lemma dispatcher_newest_wins_witness :
  match run_events init burst with
  | Some st => exists q st2, finish 0 (dispatch LAPTOP Release (request_of laptop_bytes Release None)
                 laptop_src st) = Some st2
      /\ tasks st2 !! 0%nat = Some {| t_mac := LAPTOP; t_phase := Working q |}
      /\ pk_type q = Release
  | None => False
  end.
Proof.
  set (p := {| pk_seq := 0; pk_type := Discover; pk_msg := request_of laptop_bytes Discover None;
               pk_src := laptop_src |}).
  set (r := {| pk_seq := 2; pk_type := DRequest; pk_msg := request_of laptop_bytes DRequest None;
               pk_src := laptop_src |}).
  assert (Hc : (fun st => (inflight st !! LAPTOP, tasks st !! 0%nat)) <$> run_events init burst
    = Some (Some (Some r), Some {| t_mac := LAPTOP; t_phase := Working p |}))
    by (vm_compute; reflexivity).
  destruct (run_events init burst) as [st|] eqn:E; [|discriminate].
  injection Hc as Hs Ht.
  destruct (dispatcher_newest_wins st LAPTOP Release (request_of laptop_bytes Release None)
    laptop_src (Some r) 0%nat p Hs Ht) as (q & st2 & _ & Hf & Hw & _ & Hq & _).
  exists q, st2. split; [exact Hf | split; [exact Hw | exact Hq]].
Defined.

Lemma dispatcher_drained_witness :
  match run_events init [arrives LAPTOP Discover; EvFinish 0%nat; EvPermitDrop 0%nat; EvDrain] with
  | Some st => tasks st = ∅ /\ tasks (dispatch PHONE Discover (request_of laptop_bytes Discover None)
                 laptop_src st) = ∅
  | None => False
  end.
Proof.
  assert (Hc : drained <$> run_events init
    [arrives LAPTOP Discover; EvFinish 0%nat; EvPermitDrop 0%nat; EvDrain] = Some true)
    by (vm_compute; reflexivity).
  destruct (run_events init _) as [st|] eqn:E; [|discriminate]. injection Hc as Hc.
  destruct (dispatcher_drained st (arrives PHONE Discover)
    (dispatch PHONE Discover (request_of laptop_bytes Discover None) laptop_src st)
    (run_events_reachable _ _ _ reach_init E) Hc) as [Ht Hn].
  split; [exact Ht | by apply Hn].
Defined.

(** ** The DNS cache *)

#[local] Existing Instance basic_record_types.

(** [example.com], wire form, and a response for it. *)
Definition example_name : list Z :=
  7 :: [101; 120; 97; 109; 112; 108; 101] ++ (3 :: [99; 111; 109] ++ [0]).

Definition example_response : message :=
  {| m_head := [0; 1; 129; 128];
     m_questions := [{| q_name := example_name; q_type := 1; q_class := 1 |}];
     m_answers := [{| rr_name := [192; 12]; rr_type := 1; rr_class := 1; rr_ttl := 300;
                      rr_data := [93; 184; 216; 34] |}];
     m_authority := []; m_additional := [] |}.

Lemma example_response_ok : message_ok example_response.
Proof.
  assert (Hn : wire_name example_name).
  { apply wn_label; [lia | done | repeat constructor; vm_compute; discriminate |].
    apply wn_label; [lia | done | repeat constructor; vm_compute; discriminate | constructor]. }
  assert (Hr : is_u16 1) by (vm_compute; split; discriminate).
  split; [reflexivity|]. split; [|split]; [| |repeat split; vm_compute; discriminate].
  - constructor; [|constructor]. split; [exact Hn | split; exact Hr].
  - constructor; [|constructor]. split; [apply wn_pointer; [lia | vm_compute; split; discriminate]|].
    split; [exact Hr|]. split; [exact Hr|]. split; [vm_compute; split; discriminate|].
    vm_compute. discriminate.
Qed.

Definition A_RECORD : RecordType := 1.

Definition cache_ops : list (Z * cache_op) :=
  let put d := OpInsert DefaultUpstream (of_string d) A_RECORD [0; 0] 60 0 3600 in
  [(0, put "one.test"); (1, put "Two.test."); (2, put "one.test"); (3, put "three.test")].

Lemma cache_run_ok_witness :
  let c := run (new 2) cache_ops in
  (cache_len c <= 2)%nat /\ slots_cover (entries c) (insertion_order c) /\ cache_len c = 2%nat.
Proof.
  destruct (cache_run_ok 2 cache_ops) as (Hs & _ & Hl & _); [vm_compute; discriminate|].
  split; [exact Hl | split; [exact Hs | vm_compute; reflexivity]].
Defined.

(** The oldest of the two entries makes room. *)
Lemma insert_spec_witness :
  let c := run (new 2) cache_ops in
  let c' := insert 4 c DefaultUpstream (of_string "FOUR.test") A_RECORD [7] 60 0 3600 in
  entries c' !! (DefaultUpstream, of_string "four.test", A_RECORD)
    = Some {| wire := [7]; inserted_at := 4; ttl := 60 * NANOS; seq := next_seq c |}
  /\ is_some (entries c !! (DefaultUpstream, of_string "one.test", A_RECORD)) = true
  /\ is_some (entries c' !! (DefaultUpstream, of_string "one.test", A_RECORD)) = false
  /\ is_some (entries c' !! (DefaultUpstream, of_string "three.test", A_RECORD)) = true.
Proof.
  intros c c'.
  destruct (insert_spec 4 c DefaultUpstream (of_string "FOUR.test") A_RECORD [7] 60 0 3600)
    as [He _]; [|vm_compute; discriminate|].
  - apply run_ok; [apply new_ok | vm_compute; discriminate].
  - split_and!; [exact He | vm_compute; reflexivity..].
Defined.

Lemma cache_refines_ideal_witness :
  match fst (get 5 (run (new 2) cache_ops) DefaultUpstream (of_string "THREE.test") A_RECORD 9) with
  | Some out => exists w at_ life,
      ideal_run cache_ops !! (DefaultUpstream, of_string "three.test", A_RECORD) = Some (w, at_, life)
      /\ out = age_wire_ttls (stamp_id 9 w) (Z.max 0 (5 - at_) / NANOS)
                 (sat_sub (life / NANOS) (Z.max 0 (5 - at_) / NANOS))
  | None => False
  end.
Proof.
  assert (Hc : is_some (fst (get 5 (run (new 2) cache_ops) DefaultUpstream (of_string "THREE.test")
    A_RECORD 9)) = true) by (vm_compute; reflexivity).
  destruct (fst (get 5 (run (new 2) cache_ops) DefaultUpstream (of_string "THREE.test") A_RECORD 9))
    as [out|] eqn:E; [|discriminate].
  destruct (cache_refines_ideal 2 cache_ops 5 DefaultUpstream (of_string "THREE.test") A_RECORD 9 out E)
    as (w & at_ & life & Hi & _ & Ho). exists w, at_, life. split; [exact Hi | exact Ho].
Defined.

(** Forty seconds later the answer's TTL has dropped from 300 to 60 - 40. *)
Lemma cache_serves_aged_witness :
  fst (get (40 * NANOS)
    (insert 0 (new 2) DefaultUpstream (of_string "Example.com") A_RECORD (enc_message example_response)
       60 0 3600)
    DefaultUpstream (of_string "example.COM.") A_RECORD 513)
  = Some (enc_message (age_message 40 20 (with_id 513 example_response))).
Proof.
  rewrite (cache_serves_aged 0 (40 * NANOS) (new 2) DefaultUpstream (of_string "Example.com")
    (of_string "example.COM.") A_RECORD 513 example_response 60 0 3600 example_response_ok);
    [vm_compute; reflexivity | vm_compute; discriminate | vm_compute; discriminate
    | vm_compute; reflexivity | vm_compute; reflexivity].
Defined.

Lemma skip_name_runs_witness :
  name_walk (example_name ++ [0; 1]) 0 (skip_name (example_name ++ [0; 1]) 0)
  /\ skip_name (example_name ++ [0; 1]) 0 = Some 13.
Proof.
  split; [|vm_compute; reflexivity]. apply skip_name_runs; [|lia].
  repeat constructor; vm_compute; discriminate.
Defined.

(** ** Local names *)

#[local] Instance text_names : DnsNameLib := {| Name := str; name_from_utf8 := Some |}.

Definition nas_record : CustomDnsRecord :=
  {| rec_id := 1; rec_zone_id := None; rec_domain := of_string "NAS.lan."; rec_type := A;
     rec_value := of_string "192.168.1.7"; rec_ttl := 300; rec_enabled := true;
     rec_source := ManualRecord; rec_created_at := 0; rec_updated_at := 0 |}.

Lemma reverse_lookup_spec_witness :
  parse_ptr_ipv4 (ptr_name (ipv4_new 192 168 1 7)) = Some (ipv4_new 192 168 1 7)
  /\ reverse_lookup (build_view [] [nas_record] []) (ipv4_new 192 168 1 7) = Some [nas_record].
Proof.
  destruct (reverse_lookup_spec [] [nas_record] [] (ipv4_new 192 168 1 7)) as (Hp & Hr & _);
    [vm_compute; split; discriminate|].
  split; [exact Hp|]. rewrite Hr. vm_compute. reflexivity.
Defined.

(** ** Filter lists *)

#[local] Existing Instance literal_regex.
#[local] Existing Instance basic_ip_networks.

Definition domain_of (r : result (option ParsedRule) ParseError) : option str :=
  match r with Ok (Some (DomainBlock d _ _)) => Some d | _ => None end.

Lemma parse_line_canonical_witness :
  domain_of (parse_line "||Ads.Example.COM^$important") = Some (of_string "ads.example.com")
  /\ canonical (of_string "ads.example.com").
Proof.
  assert (Hc : domain_of (parse_line "||Ads.Example.COM^$important") = Some (of_string "ads.example.com"))
    by (vm_compute; reflexivity).
  split; [exact Hc|].
  destruct (parse_line "||Ads.Example.COM^$important") as [[[d m a| |]|]|] eqn:E; try discriminate.
  assert (Hd : d = of_string "ads.example.com") by (by injection Hc).
  rewrite <- Hd. exact (parse_line_canonical _ _ _ _ E).
Defined.

Lemma parse_line_spellings_witness :
  parse_line "@@0.0.0.0 ads.example.com" = Ok (plain_rule true (of_string "ads.example.com")).
Proof.
  apply (parse_line_spellings true (Hosts (of_string "0.0.0.0")) (of_string "ads.example.com")).
  - split; [reflexivity|]. split; [reflexivity|]. intros r Hr.
    apply (f_equal (fun s => List.last s "x"%char)) in Hr. rewrite List.last_last in Hr.
    vm_compute in Hr. discriminate.
  - split; reflexivity.
Defined.

(** ** Guessing a password *)

(** A failed login as [subject] from [ip], [s] seconds after start. *)
Definition guess (s : Z) (subject ip : str) : login :=
  {| lg_at := s * SECOND; lg_subject := subject; lg_ip := Some ip; lg_success := false |}.

(** Six guesses against one account, each from another address and under
    another spelling. *)
Definition guesses : list login :=
  [guess 1 "admin" "10.0.0.1"; guess 2 "Admin" "10.0.0.2"; guess 3 "ADMIN " "10.0.0.3";
   guess 4 "admin" "10.0.0.4"; guess 5 " admin" "10.0.0.5"].

Definition last_guess : login := guess 6 "aDmin" "10.0.0.6".

Lemma limiter_throttles_witness :
  exists wait, limiter_check (logins ([] ++ guesses ++ [last_guess])) "admin" None (9 * SECOND) = Some wait
    /\ 0 < wait.
Proof.
  apply (limiter_throttles [] guesses last_guess "admin" None 0 (9 * SECOND)).
  - vm_compute. repeat split; discriminate.
  - vm_compute. discriminate.
  - repeat constructor; vm_compute; discriminate.
  - apply roomy_short; apply Nat.leb_le; vm_compute; reflexivity.
  - vm_compute. reflexivity.
  - reflexivity.
  - vm_compute. reflexivity.
  - repeat constructor; vm_compute; done.
  - vm_compute. reflexivity.
  - vm_compute. reflexivity.
Defined.

Lemma limiter_refines_witness :
  limiter_check (logins (guesses ++ [last_guess])) "ADMIN" (Some (of_string "10.0.0.6")) (7 * SECOND)
  = Some (3 * SECOND).
Proof.
  rewrite (limiter_refines (guesses ++ [last_guess]) 0).
  - vm_compute. reflexivity.
  - vm_compute. discriminate.
  - vm_compute. repeat split; discriminate.
  - repeat constructor; vm_compute; discriminate.
  - apply roomy_short; apply Nat.leb_le; vm_compute; reflexivity.
Defined.

(** ** A tunnel configuration *)

Definition office : WgConfig :=
  {| wg_interface := {| wi_private_key := of_string "cHJpdmF0ZQ=="; wi_address := [of_string "10.9.0.2/32"];
                        wi_listen_port := Some 51820; wi_dns := [of_string "10.9.0.1"; of_string "1.1.1.1"] |};
     wg_peers := [{| wp_public_key := of_string "cHVibGlj="; wp_endpoint := Some (of_string "vpn.example.com:51820");
                     wp_allowed_ips := [of_string "0.0.0.0/0"; of_string "::/0"]; wp_preshared_key := None;
                     wp_persistent_keepalive := Some 25 |}] |}.

(** Its canonical text with a comment and carriage returns. *)
Definition office_file : str :=
  concat ((fun l => l ++ [CR; LF]) <$> (of_string "# office" :: config_lines office)).

Lemma word_checked s : bool_decide (s <> []) && forallb is_graphic s = true -> word s.
Proof.
  intros [H1%bool_decide_eq_true H2]%andb_prop. split; [done|]. apply Forall_forall. intros c Hc.
  by apply (proj1 (forallb_forall _ _) H2), list_elem_of_In.
Qed.

Lemma items_checked l :
  forallb (fun s => bool_decide (s <> []) && forallb is_graphic s && negb (contains ","%char s)) l = true ->
  Forall item l.
Proof.
  intros H. apply Forall_forall. intros s Hs%list_elem_of_In.
  pose proof (proj1 (forallb_forall _ _) H s Hs) as [H1 H2%negb_true_iff]%andb_prop.
  split; [by apply word_checked | by apply contains_false].
Qed.

Lemma wg_roundtrip_witness : wg_parse office_file = Ok office.
Proof.
  apply wg_roundtrip; [|vm_compute; reflexivity].
  assert (Hu : forall n p, 0 <= n <= U16_MAX -> Some n = Some p -> is_u16 p)
    by (intros n p Hn [= <-]; exact Hn).
  split; [|split; [|discriminate]].
  - split; [by apply word_checked|]. split; [by apply items_checked|]. split; [by apply items_checked|].
    intros p. apply Hu. vm_compute. split; discriminate.
  - apply Forall_singleton. split; [by apply word_checked|].
    split; [intros e [= <-]; by apply word_checked|]. split; [by apply items_checked|].
    split; [discriminate|]. intros p. apply Hu. vm_compute. split; discriminate.
Defined.

Definition peers_of (r : result WgConfig WgConfigError) : option (list WgPeerConfig) :=
  match r with Ok c => Some (wg_peers c) | Err _ => None end.

Lemma wg_parse_peers_witness : sections "peer" (clean <$> lines office_file) = 1%nat.
Proof.
  assert (H : length <$> peers_of (wg_parse office_file) = Some 1%nat) by (vm_compute; reflexivity).
  destruct (wg_parse office_file) as [c|e] eqn:E; [|discriminate].
  destruct (wg_parse_peers _ _ E) as [Hl _]. rewrite <- Hl. by injection H.
Defined.
