(* ===== verification/DnsWitnesses.v ===== *)
(** * The DNS theorems at work

    Concrete instances of the message, name and limiter interfaces, a small home
    resolver with a local zone, a filtering device and a tunnelled one, and one
    worked instance of every theorem on the query path that has a hypothesis. *)

From S2P Require Import Prelude RustStr Net FilterParser DnsFilter DnsWire DnsCache Authoritative.
From S2P Require Import UpstreamPool DnsMessage DnsPipeline DnsPipelineLaws.

(** ** Instances *)

#[local] Existing Instance literal_regex.
#[local] Existing Instance basic_record_types.
#[local] Existing Instance basic_ip_networks.

#[local] Instance plain_names : DnsNameLib := {| Name := str; name_from_utf8 := Some |}.

#[local] Instance plain_types : DnsTypesLib := {|
  RT_A := 1; RT_AAAA := 28; RT_CNAME := 5; RT_TXT := 16; RT_MX := 15; RT_SRV := 33; RT_PTR := 12;
  RT_ANY := 255;
  name_to_string := fun n => n; name_from_str_relaxed := Some;
  name_eqb := fun a b => bool_decide (a = b);
  OtherData := unit;
|}.

(** Two bytes of id, the type, and the name. *)
#[local] Instance plain_codec : DnsCodec := {|
  from_bytes := fun b =>
    match b with
    | hi :: lo :: t :: name =>
        Some {| msg_id := hi * 256 + lo; response_code := NoError; authoritative := false;
                recursion_desired := true; recursion_available := false;
                queries := [{| dq_name := bytes name; dq_type := t |}]; answers := [];
                authorities := []; additionals := [] |}
    | _ => None
    end;
  to_bytes := fun m =>
    Some (be16 (msg_id m) ++ [match response_code m with NoError => 0 | NXDomain => 3 | _ => 2 end;
                              Z.of_nat (length (answers m))]);
|}.

(** A budget of queries shared by all clients. *)
#[local] Instance budget : RateLimiter := {|
  Buckets := Z;
  bucket_check := fun _ _ n => (0 <? n, Z.max 0 (n - 1));
  bucket_set_rate := fun _ n => n;
|}.

(** ** A home resolver *)

Definition text_bytes (s : str) : list Z := byte_val <$> s.

Definition question_packet (id t : Z) (name : str) : list Z := be16 id ++ t :: text_bytes name.

Definition cloudflare : UpstreamDns :=
  {| up_address := of_string "1.1.1.1"; up_name := of_string "Cloudflare"; up_protocol := Udp;
     up_port := None; up_tls_server_name := None |}.

Definition home_config : DnsConfig :=
  {| resolution_mode := Forwarding; upstream_servers := [cloudflare];
     forwarder_selection_mode := Failover; single_upstream := None; cache_ttl_min_secs := 0;
     cache_ttl_max_secs := 86400; dnssec_enabled := false; rebinding_protection := true;
     rate_limit_per_second := 0; upstream_timeout_ms := 1500; forward_deadline_ms := 3500 |}.

Definition lan_zone : DnsZone :=
  {| zone_id := 1; zone_name := of_string "lan"; zone_enabled := true; zone_source := SystemZone;
     zone_created_at := 0; zone_updated_at := 0 |}.

Definition alias : CustomDnsRecord :=
  {| rec_id := 1; rec_zone_id := Some 1; rec_domain := of_string "media.lan"; rec_type := Cname;
     rec_value := of_string "nas.lan"; rec_ttl := 300; rec_enabled := true;
     rec_source := ManualRecord; rec_created_at := 0; rec_updated_at := 0 |}.

Definition home_view : AuthoritativeView := build_view [lan_zone] [alias] [].

(** Blocks one advertising domain. *)
Definition ad_filter : FilterState :=
  {| fs_contexts := ∅; fs_device_contexts := ∅;
     fs_default_context :=
       {| ctx_enabled := true;
          ctx_profiles := [[{| blocked_domains := {[of_string "ads.example.com"]};
                               allowed_domains := ∅; complex := [] |}]] |};
     fs_enabled := true |}.

Definition laptop : SocketAddr := {| sa_ip := V4 (ipv4_new 192 168 1 20); sa_port := 5353 |}.
Definition tablet : SocketAddr := {| sa_ip := V4 (ipv4_new 192 168 1 21); sa_port := 5353 |}.

Definition home : Pipeline :=
  {| pl_config := home_config; pl_pool := pool_build home_config; pl_recursor := false;
     pl_filter := ad_filter; pl_routing_profile := false; pl_log_sink := true;
     pl_routing_snapshot := {[sa_ip tablet := TunnelUpstream 7]};
     pl_device_routing_snapshot := ∅; pl_device_snapshot := ∅; pl_view := home_view |}.

(** The upstream answers everything with one private address. *)
Definition network : Env :=
  {| env_send := fun _ => true; env_log := fun _ => Queued;
     env_ask := fun _ d _ => Some (20, Ok [{| dr_name := d; dr_ttl := 300;
                                              dr_data := RD_A (ipv4_new 192 168 1 1) |}]);
     env_recurse := fun _ => (0, Err {| is_no_records_found := false; is_nx_domain := false;
                                        into_soa := None |});
     env_tunnel := fun _ packet => TunnelReceived 30 (Some packet);
     env_conditional := fun _ _ => {| ci_bind := true; ci_send := true; ci_datagrams := [] |};
     env_find_tunnel := fun _ => Some (Some (of_string "wg0"));
     env_find_config := fun _ => Some (Some [of_string "10.9.0.1"]);
     env_build_recursor := fun _ => true |}.

Definition start : World :=
  {| w_now := 0; w_cache := DnsCache.new 16; w_sends := 0; w_sent := [];
     w_log := {| ls_rows := []; ls_recorded := 0; ls_dropped := 0 |};
     w_contacts := []; w_notes := []; w_buckets := 5; w_forwarders := ∅; w_sockets := 0 |}.

Definition example_packet : list Z := question_packet 4660 1 "example.com".
Definition ad_packet : list Z := question_packet 4660 1 "ads.example.com".
Definition printer_packet : list Z := question_packet 4660 1 "printer.lan".

Definition request_of (packet : list Z) : Message :=
  default (response 0 {| msg_id := 0; response_code := NoError; authoritative := false;
                         recursion_desired := false; recursion_available := false; queries := [];
                         answers := []; authorities := []; additionals := [] |})
    (from_bytes packet).

Definition question_of (packet : list Z) : DnsQuery :=
  default {| dq_name := []; dq_type := 0 |} (head (queries (request_of packet))).

Abbreviation ask packet src := (handle home network packet src (ClientIp (sa_ip src)) TransportUdp).

(** Every packet here decodes to its request and question. *)
Definition decodes (packet : list Z) : Prop :=
  from_bytes packet = Some (request_of packet)
  /\ head (queries (request_of packet)) = Some (question_of packet).

Lemma example_decodes : decodes example_packet.
Proof. by split. Qed.
Lemma ad_decodes : decodes ad_packet.
Proof. by split. Qed.
Lemma printer_decodes : decodes printer_packet.
Proof. by split. Qed.

(** ** The theorems *)


Lemma local_names_stay_local_witness :
  w_contacts (snd (ask printer_packet laptop start)) = [].
Proof.
  pose proof (local_names_stay_local home network [lan_zone] [alias] [] printer_packet laptop
    (ClientIp (sa_ip laptop)) TransportUdp start (request_of printer_packet)
    (question_of printer_packet) (proj1 printer_decodes) (proj2 printer_decodes) eq_refl) as H.
  cbv zeta in H. refine (proj1 (H _)). left. split.
  - intros r Hr. by apply elem_of_nil in Hr.
  - right. exists lan_zone. split; [by left|]. split; [reflexivity|].
    right. exists (of_string "printer"). reflexivity.
Defined.

Lemma queries_confined_witness :
  Forall (allowed home network ∅
            (query_ctx home example_packet (request_of example_packet) (question_of example_packet)
               tablet (ClientIp (sa_ip tablet)) TransportUdp))
    (w_contacts (snd (ask example_packet tablet start)))
  /\ length (w_contacts (snd (ask example_packet tablet start))) = 1%nat.
Proof.
  split; [|vm_compute; reflexivity].
  destruct (queries_confined home network example_packet tablet (ClientIp (sa_ip tablet)) TransportUdp
    start (request_of example_packet)
    (question_of example_packet) (proj1 example_decodes) (proj2 example_decodes)) as [(cs & Hc & Hf) _].
  rewrite Hc. exact Hf.
Defined.

(** The query of a packet from the laptop. *)
Definition laptop_query (packet : list Z) : QueryCtx :=
  query_ctx home packet (request_of packet) (question_of packet) laptop (ClientIp (sa_ip laptop))
    TransportUdp.

Lemma rebinding_refused_witness :
  guarded (w_cache (snd (ask example_packet laptop start)))
  /\ ql_result <$> ls_rows (w_log (snd (ask example_packet laptop start))) = [of_string "rebinding_blocked"].
Proof.
  split; [|vm_compute; reflexivity].
  assert (Hf : co_action (filter_outcome home (laptop_query example_packet)) = Pass)
    by (vm_compute; reflexivity).
  refine (proj1 (rebinding_refused home network example_packet laptop (ClientIp (sa_ip laptop))
    TransportUdp start (request_of example_packet)
    (question_of example_packet) (proj1 example_decodes) (proj2 example_decodes) eq_refl
    _ _ _ _ _)).
  - vm_compute. reflexivity.
  - vm_compute. reflexivity.
  - vm_compute. reflexivity.
  - intros ip Hip. change (co_action (filter_outcome home (laptop_query example_packet)) = ActionRewrite ip) in Hip.
    rewrite Hf in Hip. discriminate.
  - intros key e He. simpl in He. rewrite lookup_empty in He. discriminate.
Defined.

Lemma block_enforced_witness :
  w_contacts (snd (ask ad_packet laptop start)) = []
  /\ ql_result <$> ls_rows (w_log (snd (ask ad_packet laptop start))) = [of_string "blocked"].
Proof.
  split; [|vm_compute; reflexivity].
  refine (proj1 (block_enforced home network ad_packet laptop (ClientIp (sa_ip laptop)) TransportUdp
    start (request_of ad_packet)
    (question_of ad_packet) (proj1 ad_decodes) (proj2 ad_decodes) _ _ _));
    vm_compute; reflexivity.
Defined.

(** The advertiser's address as another device's query left it in the cache. *)
Definition cached_ad : World :=
  set_cache (DnsCache.insert 0 (w_cache start) DefaultUpstream "ads.example.com" 1 [0; 0; 0; 1] 300 0 86400)
    start.

Lemma hit_ignores_filter_witness :
  ql_result <$> ls_rows (w_log (snd (handle (with_filter home ad_filter) network ad_packet laptop
    (ClientIp (sa_ip laptop)) TransportUdp cached_ad))) = [of_string "cache_hit"].
Proof.
  rewrite (hit_ignores_filter home network ad_packet laptop (ClientIp (sa_ip laptop)) TransportUdp
    cached_ad (request_of ad_packet) (question_of ad_packet) ad_filter [18; 52; 0; 1] (proj1 ad_decodes) (proj2 ad_decodes));
    vm_compute; reflexivity.
Defined.

(** A stale datagram of an earlier query, then the answer. *)
Definition two_datagrams : list (Z * option (list Z)) :=
  [(1, Some (question_packet 99 1 "old.example.com")); (20, Some example_packet)].

Lemma conditional_own_answer_witness :
  exists m, recv_loop (laptop_query example_packet) true two_datagrams = Ok (20, Some m, example_packet)
  /\ answers_query (laptop_query example_packet) m = true.
Proof.
  exists (request_of example_packet).
  assert (E : recv_loop (laptop_query example_packet) true two_datagrams
    = Ok (20, Some (request_of example_packet), example_packet)) by reflexivity.
  split; [exact E|].
  destruct (conditional_own_answer (laptop_query example_packet) true two_datagrams 20
    (Some (request_of example_packet)) example_packet E) as (_ & _ & _ & Ha). exact Ha.
Defined.

Definition media_query : QueryCtx := laptop_query (question_packet 4660 1 "media.lan").

Lemma cname_not_chased_witness :
  exists m r, authoritative_answer home media_query = Some (Some (m, r)) /\ answers m = [].
Proof.
  destruct (authoritative_answer home media_query) as [[[m r]|]|] eqn:E; [|discriminate|discriminate].
  exists m, r. split; [reflexivity|].
  refine (proj1 (cname_not_chased home [lan_zone] [alias] [] media_query A m r eq_refl _ _ _ _ _ _ E)).
  - vm_compute. discriminate.
  - vm_compute. reflexivity.
  - left. reflexivity.
  - vm_compute. discriminate.
  - vm_compute. reflexivity.
  - vm_compute. reflexivity.
Defined.

Lemma pool_stays_current_witness :
  pool_current (fst (update_config home network home_config start)).
Proof.
  refine (proj1 (pool_stays_current home network home_config [] start _)).
  exact (pool_build_current home_config).
Defined.

(** Two servers, the first silent. *)
Definition quad9 : UpstreamDns :=
  {| up_address := of_string "9.9.9.9"; up_name := of_string "Quad9"; up_protocol := Udp;
     up_port := None; up_tls_server_name := None |}.

Definition two_servers : DnsConfig :=
  {| resolution_mode := Forwarding; upstream_servers := [cloudflare; quad9];
     forwarder_selection_mode := Failover; single_upstream := None; cache_ttl_min_secs := 0;
     cache_ttl_max_secs := 86400; dnssec_enabled := false; rebinding_protection := true;
     rate_limit_per_second := 0; upstream_timeout_ms := 1500; forward_deadline_ms := 3500 |}.

Definition first_silent (e : UpstreamEntry) : option (Z * result (list Z) (NetError Z)) :=
  if bool_decide (address e = of_string "1.1.1.1") then None else Some (30, Ok [1]).

