(* ===== verification/RoutingWitnesses.v ===== *)
(** * A small box

    One concrete environment for the routing service and the zone enforcer: a
    kernel with rules, routes, aliases and proxy entries, an in-memory database
    and a firewall that records what it is told.  It satisfies the laws the
    theorems assume of kernel and repositories, and each theorem with a
    hypothesis is applied to it once. *)

From S2P Require Import Prelude RustStr Net Auth DnsCache PolicyRouter RoutingTypes.
From S2P Require Import Routing RoutingLaws RoutingEffects RoutingSnapshots RoutingCalls.

Record Box : Type := {
  bx_rules : list IpRule;
  bx_routes : list RouteMessage;
  bx_devices : list Device;
  bx_device_rules : list RoutingRule;
  bx_tunnels : list TunnelRow;
  bx_configs : list (Uuid * TunnelConfig);
  bx_zones : list NetworkZone;
  bx_policy : option str;
}.

Definition set_rules (l : list IpRule) (b : Box) : Box :=
  {| bx_rules := l; bx_routes := bx_routes b; bx_devices := bx_devices b;
     bx_device_rules := bx_device_rules b; bx_tunnels := bx_tunnels b; bx_configs := bx_configs b;
     bx_zones := bx_zones b; bx_policy := bx_policy b |}.
Definition set_routes (l : list RouteMessage) (b : Box) : Box :=
  {| bx_rules := bx_rules b; bx_routes := l; bx_devices := bx_devices b;
     bx_device_rules := bx_device_rules b; bx_tunnels := bx_tunnels b; bx_configs := bx_configs b;
     bx_zones := bx_zones b; bx_policy := bx_policy b |}.
Definition set_box_policy (p : str) (b : Box) : Box :=
  {| bx_rules := bx_rules b; bx_routes := bx_routes b; bx_devices := bx_devices b;
     bx_device_rules := bx_device_rules b; bx_tunnels := bx_tunnels b; bx_configs := bx_configs b;
     bx_zones := bx_zones b; bx_policy := Some p |}.

(** ** The kernel *)

Definition u32b (x : Z) : bool := (0 <=? x) && (x <=? U32_MAX).

Definition prefixb (p : Prefix) : bool :=
  match p with Some (a, len) => u32b a && ((0 <? len) && (len <=? 32)) | None => true end.

Definition rule_wfb (r : IpRule) : bool :=
  prefixb (ru_src r) && (prefixb (ru_dst r) && (u32b (ru_table r) && u32b (ru_priority r))).

Definition prefix_selectsb (len : Z) (addr : option Ipv4Addr) (p : Prefix) : bool :=
  (len =? 0) || match addr with Some a => bool_decide (p = Some (a, len)) | None => false end.

Definition rule_selectsb (m : RuleMessage) (r : IpRule) : bool :=
  prefix_selectsb (rm_src_len m) (find_map attr_source (rm_attributes m)) (ru_src r)
  && (prefix_selectsb (rm_dst_len m) (find_map attr_destination (rm_attributes m)) (ru_dst r)
  && (((rule_table m =? 0) || (rule_table m =? ru_table r))
  && match find_map attr_priority (rm_attributes m) with
     | Some p => p =? ru_priority r | None => true end)).

(** The list without its first element that satisfies [f]. *)
Fixpoint take_out {A} (f : A -> bool) (l : list A) : option (A * list A) :=
  match l with
  | [] => None
  | x :: l' => if f x then Some (x, l') else '(y, rest) ← take_out f l'; Some (y, x :: rest)
  end.

Definition kernel_rules (b : Box) : list IpRule := List.filter rule_wfb (bx_rules b).

Definition file_exists : NlError := NetlinkError (of_string "File exists (os error 17)").
Definition no_such_file : NlError := NetlinkError (of_string "No such file or directory (os error 2)").

#[export] Instance box_netlink : Netlink Box := {|
  nl_rules := kernel_rules;
  nl_routes := bx_routes;
  nl_rule_add := fun r b =>
    if existsb (fun x => bool_decide (x = r)) (kernel_rules b) then (Err file_exists, b)
    else (Ok tt, set_rules (kernel_rules b ++ [r]) b);
  nl_rule_del := fun m b =>
    match take_out (rule_selectsb m) (kernel_rules b) with
    | Some (_, rest) => (Ok tt, set_rules rest b)
    | None => (Err no_such_file, b)
    end;
  nl_rule_get := fun b => ((rule_dump <$> kernel_rules b, None), b);
  nl_link_index := fun i b => (Ok (Some (Z.of_nat (length i))), b);
  nl_link_get := fun b => (Ok tt, b);
  nl_route_add := fun _ m b => (Ok tt, set_routes (bx_routes b ++ [m]) b);
  nl_route_del := fun m b =>
    match take_out (fun x => bool_decide (x = m)) (bx_routes b) with
    | Some (_, rest) => (Ok tt, set_routes rest b)
    | None => (Err no_such_file, b)
    end;
  nl_route_get := fun b => ((bx_routes b, None), b);
  nl_address_add := fun _ _ _ b => (Ok tt, b);
  nl_address_del := fun _ _ b => (Ok tt, b);
  nl_address_get := fun _ b => (([], None), b);
  nl_neigh_add_proxy := fun _ _ b => (Ok tt, b);
  nl_neigh_del_proxy := fun _ b => (Ok tt, b);
  nl_enoent := fun e => is_not_found e;
  nl_neigh_get_proxies := fun b => (([], None), b);
  fs_read := fun _ b => (Ok (of_string "1"), b);
  fs_write := fun _ _ b => (Ok tt, b);
  run_command := fun _ _ b => (Ok {| co_success := true; co_stdout := []; co_stderr := [] |}, b);
|}.

Lemma u32b_spec x : u32b x = true <-> is_u32 x.
Proof. unfold u32b, is_u32. rewrite andb_true_iff, !Z.leb_le. done. Qed.

Lemma prefixb_spec p : prefixb p = true <-> prefix_wf p.
Proof.
  destruct p as [[a len]|]; simpl; [|done].
  rewrite !andb_true_iff, u32b_spec, Z.ltb_lt, Z.leb_le. done.
Qed.

Lemma rule_wfb_spec r : rule_wfb r = true <-> rule_wf r.
Proof. unfold rule_wfb, rule_wf. by rewrite !andb_true_iff, !prefixb_spec, !u32b_spec. Qed.

Lemma prefix_selectsb_spec len a p : prefix_selectsb len a p = true <-> prefix_selects len a p.
Proof.
  unfold prefix_selectsb, prefix_selects. rewrite orb_true_iff, Z.eqb_eq.
  destruct a as [a|]; [rewrite bool_decide_eq_true|]; naive_solver.
Qed.

Lemma rule_selectsb_spec m r : rule_selectsb m r = true <-> rule_selects m r.
Proof.
  unfold rule_selectsb, rule_selects.
  rewrite !andb_true_iff, !prefix_selectsb_spec, orb_true_iff, !Z.eqb_eq.
  destruct (find_map attr_priority (rm_attributes m)) as [p|]; [rewrite Z.eqb_eq|]; naive_solver.
Qed.

Lemma take_out_Some {A} (f : A -> bool) l x rest : take_out f l = Some (x, rest) ->
  f x = true /\ l ≡ₚ x :: rest.
Proof.
  revert rest. induction l as [|y l IH]; intros rest; [done|]. simpl.
  destruct (f y) eqn:E; [by intros [= -> ->]|]. destruct (take_out f l) as [[z r]|]; simpl; [|done].
  intros [= -> <-]. destruct (IH r eq_refl) as [? ->]. split; [done|]. apply Permutation_swap.
Qed.

Lemma take_out_None {A} (f : A -> bool) l : take_out f l = None -> forall x, x ∈ l -> f x = false.
Proof.
  induction l as [|y l IH]; [set_solver|]. simpl. destruct (f y) eqn:E; [done|].
  destruct (take_out f l) as [[z r]|]; simpl; [done|]. intros _ x [->|H]%elem_of_cons; auto.
Qed.

Lemma kernel_rules_wf b : Forall rule_wf (kernel_rules b).
Proof.
  apply Forall_forall. intros r [_ H]%list_elem_of_In%filter_In. by apply rule_wfb_spec.
Qed.

Lemma kernel_rules_set l b : Forall rule_wf l -> kernel_rules (set_rules l b) = l.
Proof.
  unfold kernel_rules. simpl. induction 1 as [|r l Hr _ IH]; [done|]. simpl.
  by rewrite (proj2 (rule_wfb_spec r) Hr), IH.
Qed.

#[export] Instance box_netlink_laws : NetlinkLaws Box.
Proof.
  split; try done.
  - apply kernel_rules_wf.
  - intros r b Hr. simpl. destruct (existsb _ (kernel_rules b)) eqn:E.
    + split; [done|]. intros _. apply existsb_exists in E as (x & Hx & ->%bool_decide_eq_true).
      by apply list_elem_of_In.
    + rewrite kernel_rules_set; [by rewrite (comm (++))|].
      apply Forall_app. split; [apply kernel_rules_wf | by apply Forall_singleton].
  - intros m b. simpl. destruct (take_out _ (kernel_rules b)) as [[r rest]|] eqn:E.
    + apply take_out_Some in E as [Hr Hp]. exists r. split; [by apply rule_selectsb_spec|].
      rewrite kernel_rules_set; [done|]. pose proof (kernel_rules_wf b) as Hw. rewrite Hp in Hw.
      by apply Forall_cons in Hw as [_ Hw].
    + split; [done|]. intros _ r Hr Hs%rule_selectsb_spec. pose proof (take_out_None _ _ E r Hr). congruence.
  - intros m b. simpl. by destruct (take_out _ (bx_routes b)) as [[? ?]|].
  - intros m b Hm. simpl. destruct (take_out _ (bx_routes b)) as [[x rest]|] eqn:E; [|done].
    by apply take_out_Some in E as [->%bool_decide_eq_true ?].
Qed.

#[export] Instance box_netlink_reliable : NetlinkReliable Box.
Proof.
  split; simpl.
  - intros r b e b'. case_match; [|done]. by intros [= <- <-].
  - intros m b e b'. case_match; [by case_match|]. by intros [= <- <-].
  - by intros b ms e b' [= <- <- <-].
Qed.

(** ** Firewall and database *)

#[export] Instance box_firewall : FirewallManager Box := {|
  init_wardnet_table := fun b => (Ok tt, b);
  ensure_isolation_jumps := fun b => (Ok tt, b);
  flush_wardnet_table := fun b => (Ok tt, b);
  add_masquerade := fun _ b => (Ok tt, b);
  cleanup_legacy_dns_redirects := fun b => (Ok tt, b);
  add_tcp_reset_reject := fun _ b => (Ok tt, b);
  remove_tcp_reset_reject := fun _ b => (Ok tt, b);
  apply_zone_rules := fun _ _ _ b => (Ok tt, b);
  remove_zone_rules := fun _ b => (Ok tt, b);
  list_zone_rule_ips := fun b => (Ok [], b);
  apply_zone_isolation := fun _ b => (Ok tt, b);
  firewall_check_tools_available := fun b => (Ok tt, b);
|}.

Definition lookup_by {A} (key : A -> Uuid) (id : Uuid) (l : list A) : option A :=
  List.find (fun x => key x =? id) l.

#[export] Instance box_deps : RoutingDeps Box := {|
  rd_router := netlink_router;
  rd_firewall := box_firewall;
  devices_find_all := fun b => (Ok (bx_devices b), b);
  devices_find_by_id := fun id b => (Ok (lookup_by dv_id id (bx_devices b)), b);
  devices_find_all_rules := fun b => (Ok (bx_device_rules b), b);
  devices_find_rule_for_device := fun id b => (Ok (lookup_by rr_device_id id (bx_device_rules b)), b);
  tunnels_find_by_id := fun id b => (Ok (lookup_by tn_id id (bx_tunnels b)), b);
  tunnels_find_config_by_id := fun id b => (Ok (snd <$> lookup_by fst id (bx_configs b)), b);
  zones_find_by_id := fun id b => (Ok (lookup_by z_id id (bx_zones b)), b);
  config_get_default_policy := fun b => (Ok (bx_policy b), b);
  config_set_default_policy := fun p b => (Ok tt, set_box_policy p b);
  get_tunnel := fun id b =>
    (match lookup_by tn_id id (bx_tunnels b) with
     | Some t => Ok t | None => Err (of_string "tunnel not found") end, b);
  bring_up_internal := fun _ b => (Ok tt, b);
|}.

#[export] Instance box_deps_laws : RoutingDepsLaws Box.
Proof. split; try done. apply netlink_router_laws. Qed.

(** Decimal ids. *)
#[export] Instance decimal_uuid_parse : UuidParse := {| parse_uuid := parse_uint (2 ^ 128 - 1) |}.

(** ** A laptop behind a tunnel *)

Definition laptop_ip : str := of_string "192.168.1.10".
Definition office_net : str := of_string "10.0.0.0/24".
Definition site_ip : Z := 1572395042.

Definition office_tunnel : TunnelRow :=
  {| tn_id := 7; tn_interface_name := of_string "wg_ward3"; tn_status := Up |}.

Definition home_zone : NetworkZone :=
  {| z_id := 5; z_name := of_string "home"; z_provenance := Manual; z_isolation_stance := SharedSubnet;
     z_allowed_targets := [KindDirect; KindTunnel]; z_member_isolation := false; z_subnet := None;
     z_admin_ui_reachable := true; z_is_default := false; z_is_default_for_new := true |}.

Definition box : Box :=
  {| bx_rules := [mkIpRule None None 255 0; mkIpRule None None RT_TABLE_MAIN 32766]; bx_routes := [];
     bx_devices := [{| dv_id := 1; dv_mac := of_string "aa:bb:cc:00:11:22"; dv_last_ip := laptop_ip; dv_zone_id := 5 |}];
     bx_device_rules := [{| rr_device_id := 1; rr_target := Default; rr_created_by := CreatedByAdmin |}];
     bx_tunnels := [office_tunnel];
     bx_configs := [(7, {| tc_dns := [of_string "10.9.0.1"]; tc_override_default_dns := true |})];
     bx_zones := [home_zone]; bx_policy := Some (of_string "direct") |}.

Definition admin : option AuthContext := Some system_ctx.

Definition fresh_service : Routing Box := new (of_string "direct") box.
Definition bound_laptop : Routing Box :=
  snd (apply_locked 1 laptop_ip (Tunnel 7) (Some office_tunnel) true fresh_service).
Definition carved_laptop : Routing Box := snd (switchback_locked 1 laptop_ip [office_net] bound_laptop).
Definition leased_laptop : Routing Box :=
  snd (route_locked 100 laptop_ip [V4 site_ip] 60 RT_TABLE_MAIN None carved_laptop).

Lemma office_net_ok : cidr_ok office_net.
Proof. exists 167772160, 24. split; [reflexivity|]. split; [lia | reflexivity]. Qed.

Lemma laptop_orderly : rtc orderly_step fresh_service leased_laptop.
Proof.
  eapply rtc_l; [|eapply rtc_l; [|eapply rtc_l; [|apply rtc_refl]]].
  - apply (orderly_section (SecApply 1 laptop_ip (Tunnel 7) (Some office_tunnel) true)). split.
    + intros t i [= <-] Hi. vm_compute in Hi. injection Hi as <-. unfold U32_MAX. lia.
    + intros id' a _ Ha. simpl in Ha. by rewrite lookup_empty in Ha.
  - apply (orderly_section (SecTargets 1 laptop_ip [office_net])). split.
    + intros id' p Hne. assert (H1 : switchback_targets (state bound_laptop) = ∅) by (vm_compute; reflexivity).
      assert (H2 : applied_switchback (state bound_laptop) = ∅) by (vm_compute; reflexivity).
      cbn [run_section]. fold bound_laptop. rewrite H1, H2, !lookup_empty. by intros [?|?].
    + apply Forall_singleton, office_net_ok.
  - apply (orderly_section (SecRoute 100 laptop_ip [V4 site_ip] 60 RT_TABLE_MAIN None)).
    unfold orderly, usable_table, RT_TABLE_MAIN, is_u32, U32_MAX. lia.
Qed.

Lemma laptop_history : rtc rstep fresh_service leased_laptop.
Proof. eapply rtc_subrel, laptop_orderly. apply orderly_rstep. Qed.

Lemma tracked_in_kernel_witness :
  from_rule 3232235786 103 3000 ∈ ip_rules (env leased_laptop).
Proof.
  apply (tracked_in_kernel (of_string "direct") box leased_laptop laptop_orderly).
  apply (tracked_binding _ 1 {| ar_device_ip := laptop_ip; ar_target := Tunnel 7; ar_table := Some 103;
    ar_tunnel_id := Some 7; ar_dns_upstream := TunnelUpstream 7 |} 103 3232235786);
    vm_compute; reflexivity.
Defined.

Lemma applied_well_typed_witness : exists a, applied (state leased_laptop) !! 1 = Some a /\ rule_ok a.
Proof.
  destruct (applied (state leased_laptop) !! 1) as [a|] eqn:E.
  - exists a. split; [reflexivity|].
    exact (applied_well_typed (of_string "direct") box leased_laptop 1 a laptop_history E).
  - vm_compute in E. discriminate E.
Defined.

Lemma drain_terminates_witness : exists removed,
  fst (drain_ip_rules laptop_ip 103 leased_laptop) = Some removed /\ 0 <= removed /\
  Z.of_nat (length (rules leased_laptop)) =
    removed + Z.of_nat (length (rules (snd (drain_ip_rules laptop_ip 103 leased_laptop)))).
Proof. exact (drain_terminates laptop_ip 103 leased_laptop). Defined.

(** A lookup by the documentation: the first rule, in the order of priorities,
    that decides. *)
Fixpoint scan (f : IpRule -> bool) (rules : list IpRule) : option IpRule :=
  match rules with
  | [] => None
  | r :: rules' =>
      match scan f rules' with
      | Some best => if f r && (ru_priority r <=? ru_priority best) then Some r else Some best
      | None => if f r then Some r else None
      end
  end.

#[export] Instance box_fib : FibLookup := fun routes rules src dst => scan (decides routes src dst) rules.

Lemma scan_spec f rules :
  match scan f rules with
  | Some r => r ∈ rules /\ f r = true /\ forall r', r' ∈ rules -> f r' = true -> ru_priority r <= ru_priority r'
  | None => forall r, r ∈ rules -> f r = false
  end.
Proof.
  induction rules as [|x rules IH]; simpl; [set_solver|]. destruct (scan f rules) as [best|].
  - destruct IH as (H1 & H2 & H3). destruct (f x && (ru_priority x <=? ru_priority best)) eqn:E.
    + breflect. split_and!; [set_solver | done |].
      intros r' [->|Hr']%elem_of_cons Ha; [lia|]. specialize (H3 r' Hr' Ha). lia.
    + split_and!; [set_solver | done |]. intros r' [->|Hr']%elem_of_cons Ha; [|by apply H3].
      rewrite Ha in E. simpl in E. breflect. lia.
  - destruct (f x) eqn:E.
    + split_and!; [set_solver | done |]. intros r' [->|Hr']%elem_of_cons Ha; [lia|].
      rewrite (IH r' Hr') in Ha. done.
    + intros r [->|Hr]%elem_of_cons; auto.
Qed.

#[export] Instance box_fib_laws : FibLookupLaws box_fib.
Proof.
  split; unfold fib_lookup, box_fib; intros routes rules src dst; pose proof (scan_spec (decides routes src dst) rules) as H.
  - intros r E. by rewrite E in H.
  - intros E. by rewrite E in H.
Qed.

(** The main table and the tunnel's have default routes. *)
Definition box_routes (table : Z) (dst : Ipv4Addr) : bool := (table =? RT_TABLE_MAIN) || (table =? 103).

(** Traffic of the laptop to 8.8.8.8, and to the office network. *)
Lemma bands_decide_witness :
  (exists r, fib_lookup box_routes (ip_rules (env leased_laptop)) 3232235786 134744072 = Some r /\
     r ∈ ip_rules (env leased_laptop) /\ decides box_routes 3232235786 134744072 r = true /\
     ru_priority r <= 3000) /\
  (exists r, fib_lookup box_routes (ip_rules (env leased_laptop)) 3232235786 167772161 = Some r /\
     r ∈ ip_rules (env leased_laptop) /\ decides box_routes 3232235786 167772161 r = true /\
     ru_priority r <= 1000).
Proof.
  split.
  - eapply (bands_decide (of_string "direct") box leased_laptop box_routes 3232235786 134744072 laptop_orderly)
      with (id := 1); vm_compute; reflexivity.
  - destruct (bands_decide (of_string "direct") box leased_laptop box_routes 3232235786 167772161 laptop_orderly)
      as (_ & _ & H).
    apply (H 1 laptop_ip [office_net] office_net 167772160 24);
      [vm_compute; reflexivity | by apply list_elem_of_singleton | vm_compute; reflexivity..].
Defined.

(** Without the order of C25 the record and the kernel part: a second device is
    bound at the laptop's address before the laptop is forgotten, and forgetting
    the laptop drains the rule of both. *)
Definition shared_address : Routing Box :=
  run_section (SecRemove admin 1 laptop_ip)
    (run_section (SecApply 2 laptop_ip (Tunnel 7) (Some office_tunnel) true) bound_laptop).

Theorem address_handed_on : rtc rstep fresh_service shared_address /\
  tracked (state shared_address) (from_rule 3232235786 103 DEVICE_RULE_PRIORITY) /\
  from_rule 3232235786 103 DEVICE_RULE_PRIORITY ∉ ip_rules (env shared_address).
Proof.
  split_and!.
  - eapply rtc_l; [apply (step_section (SecApply 1 laptop_ip (Tunnel 7) (Some office_tunnel) true))|].
    eapply rtc_l; [apply (step_section (SecApply 2 laptop_ip (Tunnel 7) (Some office_tunnel) true))|].
    apply rtc_once, (step_section (SecRemove admin 1 laptop_ip)).
  - apply (tracked_binding _ 2 {| ar_device_ip := laptop_ip; ar_target := Tunnel 7; ar_table := Some 103;
      ar_tunnel_id := Some 7; ar_dns_upstream := TunnelUpstream 7 |} 103 3232235786);
      vm_compute; reflexivity.
  - apply (bool_decide_unpack _). vm_compute. exact I.
Qed.

Lemma remove_host_route_spares_local_witness :
  let k' := snd (netlink_remove_host_route laptop_ip (of_string "eth0") box) in
  nl_routes k' = nl_routes box \/
  exists route addr, parse_ipv4 laptop_ip = Some addr /\ nl_routes box ≡ₚ route :: nl_routes k' /\
    rt_dst_len route = 32 /\ rt_scope route = ScopeLink /\ route_table route = RT_TABLE_MAIN /\
    RouteDestination addr ∈ rt_attributes route.
Proof. exact (remove_host_route_spares_local laptop_ip (of_string "eth0") box). Defined.

(** The laptop on its tunnel, by a whole call. *)
Definition called : Routing Box := snd (apply_rule admin 1 laptop_ip (Tunnel 7) fresh_service).

Lemma called_history : rtc rcall fresh_service called.
Proof. apply rtc_once, call_apply. Qed.

Lemma snapshot_tracks_devices_witness :
  dns_upstream_snapshot called !! V4 3232235786 = Some (TunnelUpstream 7).
Proof.
  eapply (snapshot_tracks_devices (of_string "direct") box called (V4 3232235786) (TunnelUpstream 7) called_history)
    with (id := 1).
  - vm_compute. reflexivity.
  - split; [|split; [|discriminate]]; vm_compute; reflexivity.
  - intros id' a' H _. destruct (decide (id' = 1)) as [->|Hne]; [reflexivity|].
    assert (E : applied (state called) = {[ 1 := {| ar_device_ip := laptop_ip; ar_target := Tunnel 7;
      ar_table := Some 103; ar_tunnel_id := Some 7; ar_dns_upstream := TunnelUpstream 7 |} ]})
      by (vm_compute; reflexivity).
    rewrite E in H. by rewrite lookup_singleton_ne in H.
Defined.

(** The default policy is the office tunnel: the laptop's entry. *)
Definition tunnelled : Routing Box := new (of_string "7") box.

Lemma device_snapshot_direct_witness :
  dns_device_upstream_snapshot (snd (rebuild_dns_device_upstream_snapshot admin tunnelled)) !! 1
  = device_upstream (fun b t => Ok (lookup_by tn_id t (bx_tunnels b)))
      (fun b t => Ok (snd <$> lookup_by fst t (bx_configs b)))
      (fun b z => Ok (lookup_by z_id z (bx_zones b))) tunnelled (device_zones (bx_devices box))
      {| rr_device_id := 1; rr_target := Default; rr_created_by := CreatedByAdmin |}.
Proof.
  pose proof (device_snapshot_direct (D := box_deps) (fun b t => Ok (lookup_by tn_id t (bx_tunnels b)))
    (fun b t => Ok (snd <$> lookup_by fst t (bx_configs b)))
    (fun b z => Ok (lookup_by z_id z (bx_zones b)))
    (fun _ _ => eq_refl) (fun _ _ => eq_refl) (fun _ _ => eq_refl) (fun _ => eq_refl) (fun _ => eq_refl)
    admin tunnelled (bx_device_rules box) (bx_devices box)
    eq_refl eq_refl eq_refl (NoDup_singleton 1)) as (_ & H & _).
  apply (H {| rr_device_id := 1; rr_target := Default; rr_created_by := CreatedByAdmin |}).
  apply list_elem_of_singleton. reflexivity.
Defined.

Lemma tunnel_down_clears_witness :
  applied (state (snd (handle_tunnel_down admin 7 called))) !! 1 = None.
Proof.
  assert (Hok : forall id a, applied (state called) !! id = Some a -> rule_ok a).
  { intros id a H.
    assert (E : applied (state called) = {[ 1 := {| ar_device_ip := laptop_ip; ar_target := Tunnel 7;
      ar_table := Some 103; ar_tunnel_id := Some 7; ar_dns_upstream := TunnelUpstream 7 |} ]})
      by (vm_compute; reflexivity).
    rewrite E in H. apply lookup_singleton_Some in H as [_ <-]. split; [reflexivity|].
    split; [by eexists | by right]. }
  pose proof (tunnel_down_clears admin 7 called Hok) as H.
  destruct (handle_tunnel_down admin 7 called) as [r w']. simpl in H |- *.
  destruct H as (_ & H & _). destruct (applied (state w') !! 1) as [a|] eqn:E; [|reflexivity].
  apply H in E as [E Hne]. exfalso. apply Hne. vm_compute in E. injection E as <-. reflexivity.
Defined.

Lemma gc_leaves_no_orphan_witness :
  fst (gc_domain_routes 1000 leased_laptop) = Ok tt /\
  forall k e, ~ domain_routes (state (snd (gc_domain_routes 1000 leased_laptop))) !! k = Some e.
Proof.
  assert (Hb : domain_band (rules leased_laptop)).
  { intros r Hr Hp.
    assert (E : rules leased_laptop = [mkIpRule None None 255 0; mkIpRule None None 254 32766;
      from_rule 3232235786 103 3000; from_to_rule 3232235786 167772160 24 254 1000;
      from_to_rule 3232235786 site_ip 32 254 2000]) by (vm_compute; reflexivity).
    rewrite E in Hr. exists 3232235786, site_ip, 254. split; [|done].
    repeat (apply elem_of_cons in Hr as [->|Hr]; [try discriminate Hp; try reflexivity|]).
    by apply elem_of_nil in Hr. }
  destruct (gc_leaves_no_orphan 1000 leased_laptop Hb) as (H1 & H2 & _). split; [exact H1|].
  intros k e [Hk He]%H2.
  assert (E : domain_routes (state leased_laptop) = {[ (laptop_ip, show_ipv4 site_ip) :=
    {| dr_table := 254; dr_expiry := 160 |} ]}) by (vm_compute; reflexivity).
  rewrite E in Hk. apply lookup_singleton_Some in Hk as [_ <-]. simpl in He. lia.
Defined.
