(* ===== verification/ZoneWitnesses.v ===== *)
(** * The enforcer on the small box

    The environment of [RoutingWitnesses] with a guest zone, an exception and
    the daemon's own host route; each theorem about the zones that has a
    hypothesis is applied to it once. *)

From S2P Require Import Prelude RustStr Net Auth DnsCache PolicyRouter RoutingTypes.
From S2P Require Import Routing RoutingLaws RoutingEffects RoutingSnapshots RoutingCalls.
From S2P Require Import ZoneTypes ZoneEnforcement ZoneLaws RoutingWitnesses.

Definition guest_zone : NetworkZone :=
  {| z_id := 6; z_name := of_string "guests"; z_provenance := Manual; z_isolation_stance := IsolateMembers;
     z_allowed_targets := [KindDirect]; z_member_isolation := true;
     z_subnet := Some (of_string "10.20.0.0/24"); z_admin_ui_reachable := false; z_is_default := false;
     z_is_default_for_new := false |}.

Definition phone : Device :=
  {| dv_id := 2; dv_mac := of_string "aa:bb:cc:00:11:33"; dv_last_ip := of_string "10.20.0.9"; dv_zone_id := 6 |}.

Definition tv_exception : ZoneException :=
  {| ze_id := 40; ze_from := {| ee_kind := EndpointDevice; ee_id := 2 |};
     ze_to := {| ee_kind := EndpointZone; ee_id := 5 |}; ze_service := Preset Casting;
     ze_bidirectional := false |}.

(** 192.168.1.1, and the link-scope route of the main table that leads to it. *)
Definition lan : Ipv4Addr := 3232235777.
Definition eth0 : str := of_string "eth0".
Definition own_route : RouteMessage :=
  {| rt_dst_len := 32; rt_table := RT_TABLE_MAIN; rt_scope := ScopeLink;
     rt_attributes := [RouteDestination lan; RouteOif 4] |}.

Definition zone_box : Box :=
  {| bx_rules := bx_rules box; bx_routes := [own_route]; bx_devices := phone :: bx_devices box;
     bx_device_rules := {| rr_device_id := 2; rr_target := Default; rr_created_by := CreatedByUser |}
                        :: bx_device_rules box;
     bx_tunnels := bx_tunnels box; bx_configs := bx_configs box; bx_zones := [guest_zone; home_zone];
     bx_policy := Some (of_string "7") |}.

#[export] Instance box_zone_deps : ZoneDeps Box := {|
  zd_routing := box_deps;
  zones_find_all := fun b => (Ok (bx_zones b), b);
  exceptions_find_all := fun b => (Ok [tv_exception], b);
  config_get := fun k b =>
    (Ok (if bool_decide (k = of_string "dhcp_enabled") then Some (of_string "true") else None), b);
  dhcp_release_lease := fun _ b => (Ok tt, b);
|}.

(** The route is there and the database is as it was. *)
Definition steady (b : Box) : Prop :=
  own_route ∈ bx_routes b /\ bx_devices b = bx_devices zone_box /\
  bx_device_rules b = bx_device_rules zone_box /\ bx_zones b = bx_zones zone_box.

Lemma steady_rules l b : steady b -> steady (set_rules l b).
Proof. done. Qed.

Lemma steady_routes l b : own_route ∈ l -> steady b -> steady (set_routes l b).
Proof. intros ? [_ ?]. done. Qed.

(** ** Every spared call keeps it *)

Lemma steady_bind {A B} (m : ST Box str A) (f : A -> ST Box str B) :
  env_keeps steady m -> (forall a, env_keeps steady (f a)) -> env_keeps steady (m ≫= f).
Proof.
  intros Hm Hf b Hb. specialize (Hm b Hb). unfold mbind, st_bind.
  destruct (m b) as [[a|e] b']; simpl in *; [by apply Hf | done].
Qed.

Lemma steady_lift {A} (r : result A str) : env_keeps steady (st_lift r).
Proof. intros b Hb. by destruct r. Qed.

Lemma steady_ret {A} (a : A) : env_keeps steady (mret a : ST Box str A).
Proof. by intros b Hb. Qed.

(** A call that returns the box as it is, or with other rules. *)
Lemma steady_same {A} (m : ST Box str A) :
  (forall b, snd (m b) = b \/ exists l, snd (m b) = set_rules l b) -> env_keeps steady m.
Proof. intros H b Hb. by destruct (H b) as [->|[l ->]]. Qed.

Lemma steady_rule_add benign what r : env_keeps steady (tolerate benign what (nl_rule_add r)).
Proof.
  apply steady_same. intros b. unfold tolerate. simpl.
  destruct (existsb _ (kernel_rules b)); simpl; [destruct (benign _); by left|]. right. by eexists.
Qed.

Lemma steady_rule_del benign what m : env_keeps steady (tolerate benign what (nl_rule_del m)).
Proof.
  apply steady_same. intros b. unfold tolerate. simpl.
  destruct (take_out _ (kernel_rules b)) as [[? l]|]; simpl; [right; by eexists|]. left. by destruct (benign _).
Qed.

Lemma steady_rule_bail what m : env_keeps steady (bail what (nl_rule_del m)).
Proof.
  apply steady_same. intros b. unfold bail. simpl.
  destruct (take_out _ (kernel_rules b)) as [[? l]|]; simpl; [right; by eexists | by left].
Qed.

Lemma steady_link i : env_keeps steady (link_index i).
Proof. apply steady_bind; [by apply steady_same; left | intros; apply steady_lift]. Qed.

Create HintDb steady.
#[export] Hint Resolve steady_lift steady_ret steady_rule_add steady_rule_del steady_rule_bail steady_link : steady.

Ltac steady :=
  repeat first
    [ apply steady_bind; [|intros ?]
    | progress auto with steady
    | match goal with |- context [let '(_, _) := ?x in _] => destruct x end
    | match goal with |- context [match ?x with Some _ => _ | None => _ end] => destruct x end
    | apply steady_same; intros; by left ].

(** Removing the host route of another address keeps ours. *)
Lemma steady_remove_host s i : parse_ipv4 s <> Some lan -> env_keeps steady (netlink_remove_host_route s i).
Proof.
  intros Hs b Hb. unfold netlink_remove_host_route. rewrite bind_run. unfold parse_or at 1, st_lift.
  destruct (parse_ipv4 s) as [addr|] eqn:Ep; cbn [fst snd ok_or]; [|done].
  rewrite !bind_run. unfold link_index. rewrite bind_run. cbn.
  rewrite bind_run. unfold search_dump.
  destruct (List.find _ (bx_routes b)) as [route|] eqn:Ef; [|done].
  apply find_some in Ef as [_ Hr]. unfold bail.
  destruct (take_out _ (bx_routes b)) as [[x rest]|] eqn:Et; simpl; [|done].
  apply take_out_Some in Et as [->%bool_decide_eq_true Hp].
  apply steady_routes; [|done]. destruct Hb as [Hin _]. rewrite Hp in Hin.
  apply elem_of_cons in Hin as [<-|?]; [|done]. exfalso.
  unfold is_removable_host_route in Hr. cbn -[Z.eqb lan] in Hr. apply andb_true_iff in Hr as [Hr _].
  apply orb_true_iff in Hr as [<-%Z.eqb_eq|?]; [by apply Hs|done].
Qed.

Lemma steady_add_host s i g : env_keeps steady (netlink_add_host_route s i g).
Proof.
  unfold netlink_add_host_route. steady. intros b Hb. unfold bail. simpl.
  apply steady_routes; [|done]. apply elem_of_app. left. apply Hb.
Qed.

#[export] Instance box_spared : Spared lan steady.
Proof.
  split; intros; try (by apply steady_same; left); try exact (steady_remove_host _ _ ltac:(done));
    try apply steady_add_host; cbn.
  all: unfold netlink_remove_ip_rule, netlink_add_switchback_rule, netlink_remove_switchback_rule,
    netlink_list_neigh_proxies, netlink_remove_neigh_proxy, netlink_list_interface_aliases,
    netlink_add_interface_alias, netlink_add_neigh_proxy, netlink_remove_interface_alias,
    netlink_flush_conntrack, netlink_set_proxy_arp, set_sysctl; steady.
  apply steady_same. intros x. left. cbn -[bool_decide trim]. by case_match.
Qed.

(** ** The theorems at work *)

Definition start : Enforcer Box := enforcer_new (new (of_string "7") zone_box).
Definition started : Enforcer Box := snd (enforcer_reconcile eth0 lan admin start).
Definition moved : Enforcer Box :=
  snd (enforcer_ip_change eth0 lan admin 2 (of_string "10.20.0.9") (of_string "192.168.1.1") started).

Lemma steady_start : steady (env (routing start)).
Proof. split; [by apply list_elem_of_singleton | done]. Qed.


Definition base_net : Ipv4Network := {| cidr_addr := lan; cidr_prefix := 24 |}.
Definition guest_net : Ipv4Network := {| cidr_addr := 169082880; cidr_prefix := 24 |}.
Definition wanted : result Desired AppError :=
  fst (wanted_isolation lan true base_net (bx_devices zone_box) start).

(** The phone is answered for, and kept from the base network. *)
Lemma isolation_spec_witness : exists d, wanted = Ok d /\ of_string "10.20.0.9" ∈ de_proxies d /\
  (of_string "10.20.0.0/24", of_string "192.168.1.0/24") ∈ deny_pairs (sort_rules (de_rules d)).
Proof.
  destruct wanted as [d|e] eqn:E; [|vm_compute in E; discriminate E]. exists d. split; [reflexivity|].
  destruct (isolation_spec lan true base_net (bx_devices zone_box) start d [guest_zone; home_zone] [tv_exception])
    as (H1 & _ & _ & H2 & _); [reflexivity | | reflexivity | exact E |].
  { apply NoDup_cons. split; [|apply NoDup_singleton]. rewrite list_elem_of_singleton. discriminate. }
  assert (Hg : guest_zone ∈ [guest_zone; home_zone]) by apply list_elem_of_here.
  split.
  - apply H2. split; [reflexivity|]. exists phone, guest_zone, guest_net, 169082889.
    split; [apply list_elem_of_here|]. do 8 (split; [first [exact Hg | vm_compute; reflexivity | discriminate]|]).
    intros z net [->|[->|[]%elem_of_nil]%elem_of_cons]%elem_of_cons Hz; [|discriminate Hz].
    vm_compute in Hz. injection Hz as <-. vm_compute. discriminate.
  - apply H1. split; [reflexivity|]. split; [|split; [by left|discriminate]]. right. exists guest_zone, guest_net.
    split; [exact Hg|]. split; vm_compute; reflexivity.
Defined.

(** The guest zone forbids tunnels: the phone, which follows the default into
    the office tunnel, is unbound; the laptop is not. *)
Lemma clamp_enforced_witness :
  let '(r, w') := enforcer_policy_changed admin (of_string "7") started in
  r = Ok tt /\ exists a, applied (state (routing w')) !! 2 = Some a /\ ar_target a = Direct.
Proof.
  pose proof (clamp_enforced lan steady (bx_devices zone_box)
    (fun id => lookup_by rr_device_id id (bx_device_rules zone_box))
    (fun id => lookup_by z_id id (bx_zones zone_box))) as H.
  assert (Hs : steady (env (routing started)))
    by exact (ecall_spared eth0 lan steady eq_refl start _ (ecall_reconcile _ _ _ _) steady_start).
  specialize (H (fun n (Hn : steady n) => f_equal Ok (proj1 (proj2 Hn)))).
  specialize (H ltac:(intros n d (_ & Hv & _); cbn [devices_find_by_id zd_routing box_zone_deps box_deps fst]; rewrite Hv;
    intros [->|[->|[]%elem_of_nil]%elem_of_cons]%elem_of_cons; reflexivity)).
  specialize (H ltac:(intros n id (_ & _ & Hv & _); cbn [devices_find_rule_for_device zd_routing box_zone_deps box_deps fst]; by rewrite Hv)).
  specialize (H ltac:(intros n id (_ & _ & _ & Hv); cbn [zones_find_by_id zd_routing box_zone_deps box_deps fst]; by rewrite Hv)).
  specialize (H admin (of_string "7") KindTunnel started eq_refl Hs).
  destruct (enforcer_policy_changed admin (of_string "7") started) as [r w'].
  destruct H as [Hr H]; [|reflexivity|].
  - by apply (bool_decide_unpack (NoDup [2; 1])).
  - split; [exact Hr|]. destruct (H phone) as (a & Ha & Ht & _); [apply list_elem_of_here|]. by exists a.
Defined.
