(* ===== verification/PolicyWitnesses.v ===== *)
(** * Zones, devices and discovery on a small database

    Identifiers as binary texts, a database of two zones and two devices, and a
    phone that appears on the LAN; each theorem about the services and discovery
    that has a hypothesis is applied to them once. *)

From S2P Require Import Prelude RustStr Net Auth PolicyRouter RoutingTypes ZoneTypes PolicyDb.
From S2P Require Import ZoneService DeviceService Discovery PolicyLaws DiscoveryLaws TrackingLaws DeviceLaws.

Fixpoint positive_text (p : positive) : str :=
  match p with
  | xH => []
  | xO p => "0"%char :: positive_text p
  | xI p => "1"%char :: positive_text p
  end.

Fixpoint text_positive (s : str) : option positive :=
  match s with
  | [] => Some xH
  | c :: s => p ← text_positive s;
              if bool_decide (c = "0"%char) then Some (xO p) else if bool_decide (c = "1"%char) then Some (xI p) else None
  end.

Lemma positive_text_roundtrip p : text_positive (positive_text p) = Some p.
Proof. by induction p as [p IH|p IH|]; simpl; rewrite ?IH. Qed.

#[export] Instance binary_uuid_parse : UuidParse := {| parse_uuid := fun s => text_positive s ≫= decode |}.
#[export] Instance binary_uuid : UuidText := {| ut_parse := binary_uuid_parse; uuid_to_string := fun id => positive_text (encode id) |}.
#[export] Instance binary_uuid_laws : UuidTextLaws binary_uuid.
Proof. split. intros id. unfold parse_uuid, uuid_to_string. simpl. rewrite positive_text_roundtrip. apply (decode_encode (A := Z)). Qed.

#[export] Instance quiet_deps : DiscoveryDeps := {|
  oui_entry := fun _ => None; catalog_entry := fun _ => None;
  active_lease_hostname := fun _ => Ok None; reverse_dns := fun _ => None;
|}.

Definition home : NetworkZone :=
  {| z_id := 5; z_name := of_string "home"; z_provenance := Manual; z_isolation_stance := SharedSubnet;
     z_allowed_targets := [KindDirect; KindTunnel]; z_member_isolation := false; z_subnet := None;
     z_admin_ui_reachable := true; z_is_default := true; z_is_default_for_new := false |}.
Definition guests : NetworkZone :=
  {| z_id := 6; z_name := of_string "guests"; z_provenance := Manual; z_isolation_stance := SharedSubnet;
     z_allowed_targets := [KindDirect]; z_member_isolation := true; z_subnet := None;
     z_admin_ui_reachable := false; z_is_default := false; z_is_default_for_new := true |}.

Definition row (id : Uuid) (mac ip : str) (zone : Uuid) (locked : bool) : DeviceRow :=
  {| dr_id := id; dr_mac := mac; dr_name := None; dr_hostname := None; dr_manufacturer := None;
     dr_manufacturer_source := None; dr_is_randomized := false; dr_device_type := UnknownType; dr_first_seen := 0;
     dr_last_seen := 0; dr_last_ip := ip; dr_admin_locked := locked; dr_zone_id := zone; dr_owner_user_id := None;
     dr_dns_capture_enabled := false; dr_dns_capture_cap_count := 1000; dr_dns_capture_cap_days := 7;
     dr_connection_mode := Lan; dr_managed := true |}.

Definition laptop_mac : str := of_string "aa:bb:cc:00:11:22".
Definition tv_mac : str := of_string "aa:bb:cc:00:11:33".
Definition phone_mac : str := of_string "aa:bb:cc:00:11:44".

Definition small_db : PolicyDb :=
  {| t_zones := [home; guests];
     t_devices := [row 1 laptop_mac (of_string "192.168.1.7") 5 false; row 2 tv_mac (of_string "192.168.1.8") 6 true];
     t_rules := [{| rr_device_id := 2; rr_target := Direct; rr_created_by := CreatedByAdmin |}];
     t_exceptions := []; t_dns_events := []; t_users := []; t_config := ∅ |}.

Lemma small_db_ok : db_ok small_db.
Proof.
  split.
  - split; [by apply (bool_decide_unpack _) | by apply (bool_decide_unpack _) | done | done |].
    intros z Hz. unfold small_db in Hz. simpl in Hz. rewrite !elem_of_cons, elem_of_nil in Hz.
    by destruct Hz as [->|[->|[]]].
  - split; [by apply (bool_decide_unpack _) | by apply (bool_decide_unpack _) |].
    intros v Hv. simpl in Hv. rewrite !elem_of_cons, elem_of_nil in Hv. by destruct Hv as [->|[->|[]]].
  - split.
    + intros v Hv. simpl in Hv. rewrite !elem_of_cons, elem_of_nil in Hv.
      destruct Hv as [->|[->|[]]]; [exists home | exists guests]; split; try done; set_solver.
    + by apply (bool_decide_unpack _).
    + intros r ->%list_elem_of_singleton. exists (row 2 tv_mac (of_string "192.168.1.8") 6 true).
      split; [|done]. simpl. set_solver.
    + intros r v z kind ->%list_elem_of_singleton Hv. simpl in Hv. rewrite !elem_of_cons, elem_of_nil in Hv.
      destruct Hv as [->|[->|[]]]; [done|]. intros _ Hz. simpl in Hz. rewrite !elem_of_cons, elem_of_nil in Hz.
      destruct Hz as [->|[->|[]]]; [done|]. intros _ [= <-]. done.
  - split; [by apply (bool_decide_unpack _)|]. by intros e He%not_elem_of_nil.
Qed.

Definition lan_net : Ipv4Network := Cidr 3232235776 24.
Definition own_ip : Ipv4Addr := 3232235777.
Definition admin_ctx : option AuthContext := Some system_ctx.

Definition policy_world : Policy := {| po_db := small_db; po_faults := []; po_now := 100; po_events := [] |}.

Definition start : System :=
  {| sy_world := discovery_new lan_net policy_world 0; sy_departing := []; sy_evicting := [] |}.

Definition phone_seen : ObservedDevice := {| ob_mac := phone_mac; ob_ip := of_string "192.168.1.9" |}.

Definition later : System :=
  in_world (snd (process_observation own_ip admin_ctx 3 phone_seen (sy_world start))) start.

Lemma start_later : sstep lan_net own_ip start later.
Proof.
  apply (ss_observe lan_net own_ip admin_ctx 3 phone_seen start); [done | | by intros d Hd%not_elem_of_nil |].
  - intros v Hv. simpl in Hv. rewrite !elem_of_cons, elem_of_nil in Hv. by destruct Hv as [->|[->|[]]].
  - intros mac e. simpl. by rewrite lookup_empty.
Qed.

Lemma policy_history_ok_witness :
  length (t_devices (dbof (sy_world later))) = 3%nat /\ db_ok (dbof (sy_world later)).
Proof.
  split; [vm_compute; reflexivity|].
  apply (policy_history_ok lan_net own_ip start later); [apply rtc_once, start_later | apply small_db_ok].
Defined.

Lemma tracking_agrees_witness : exists v, v ∈ t_devices (dbof (sy_world later)) /\ dr_id v = 3 /\
  dr_mac v = phone_mac /\ dr_last_ip v = of_string "192.168.1.9".
Proof.
  apply (tracking_agrees lan_net own_ip start later phone_mac
    {| ms_device_id := 3; ms_mac := phone_mac; ms_last_ip := of_string "192.168.1.9"; ms_last_seen := 0;
       ms_gone := false |}).
  - apply rtc_once. split; [apply start_later | reflexivity].
  - apply small_db_ok.
  - split; simpl; try (intros mac e; rewrite lookup_empty; done). intros id mac ip Hd. by apply not_elem_of_nil in Hd.
  - vm_compute. reflexivity.
  - reflexivity.
  - apply not_elem_of_nil.
Defined.

Lemma device_principal_confined_witness : confined laptop_mac small_db
  (po_db (di_policy (run_device_call lan_net own_ip (Some (Auth.Device laptop_mac))
    (ServiceCall (CallSetRuleForIp (of_string "192.168.1.7") Default)) (sy_world start)))).
Proof. apply (device_principal_confined lan_net own_ip laptop_mac _ (sy_world start)); [apply small_db_ok | done]. Defined.

Definition seen_at (ip : string) (t : Z) : Claim := {| cl_mac := phone_mac; cl_ip := of_string ip; cl_at := t |}.

Lemma flap_spec_witness :
  fst (is_flapping phone_mac (of_string "192.168.1.4") (at_instant 9 (foldl observe_claim (sy_world start)
    [seen_at "192.168.1.1" 1; seen_at "192.168.1.2" 2; seen_at "192.168.1.3" 5]))) = Ok true.
Proof.
  rewrite (flap_spec (sy_world start) phone_mac (of_string "192.168.1.4") 9 0
    [seen_at "192.168.1.1" 1; seen_at "192.168.1.2" 2; seen_at "192.168.1.3" 5]).
  - vm_compute. reflexivity.
  - reflexivity.
  - simpl. lia.
Defined.

Lemma observation_ignored_witness :
  let r := process_observation own_ip admin_ctx 3 {| ob_mac := phone_mac; ob_ip := of_string "192.168.1.1" |}
             (sy_world start) in
  fst r = Ok Ignored /\ di_policy (snd r) = policy_world.
Proof.
  destruct (observation_ignored own_ip admin_ctx 3 {| ob_mac := phone_mac; ob_ip := of_string "192.168.1.1" |}
    (sy_world start)) as [H1 H2]; [reflexivity|]. cbv zeta in *.
  assert (H : fst (process_observation own_ip admin_ctx 3 {| ob_mac := phone_mac; ob_ip := of_string "192.168.1.1" |}
    (sy_world start)) = Ok Ignored) by (apply H1; right; right; left; vm_compute; reflexivity).
  split; [exact H | exact (proj1 (H2 H))].
Defined.
