(* ===== verification/TunnelWitnesses.v ===== *)
(** * Tunnels on a small host

    A host whose kernel is a set of interface names and whose clock moves when the
    daemon sleeps; one tunnel is imported, brought up, watched and deleted, and each
    theorem about tunnels that has a hypothesis is applied there once. *)

From S2P Require Import Prelude RustStr Net Auth PolicyRouter RoutingTypes ZoneTypes PolicyDb WgConfig.
From S2P Require Import TunnelInterface TunnelService TunnelLaws TunnelIdle TunnelOps PolicyWitnesses.

Record Host : Type := { h_interfaces : list str; h_now : Z }.

Definition links_of (l : list str) (h : Host) : Host := {| h_interfaces := l; h_now := h_now h |}.

#[export] Instance host_interface : TunnelInterface Host str str := {|
  if_create := fun p h => (Ok tt, links_of (cp_interface_name p :: h_interfaces h) h);
  if_bring_up := fun _ h => (Ok tt, h);
  if_tear_down := fun _ h => (Ok tt, h);
  if_remove := fun i h => (Ok tt, links_of (filter (fun x => x <> i) (h_interfaces h)) h);
  if_get_stats := fun i h =>
    (Ok (if bool_decide (i ∈ h_interfaces h)
         then Some {| ts_bytes_tx := 10; ts_bytes_rx := 20; ts_last_handshake := None |} else None), h);
  if_list := fun h => (Ok (h_interfaces h), h);
|}.

#[export] Instance host_interface_laws : TunnelInterfaceLaws Host str str.
Proof.
  refine {| interfaces := fun h => list_to_set (h_interfaces h) |}; intros; simpl in *; simplify_eq/=; try done; try set_solver.
  - apply set_eq. intros x. rewrite elem_of_difference, !elem_of_list_to_set, list_elem_of_filter. set_solver.
  - rewrite !elem_of_list_to_set, list_elem_of_filter. set_solver.
Defined.

#[export] Instance whole_numbers : Float64 := {|
  f64 := Z; f_of_u64 := fun x => x; f_add := Z.add; f_sub := Z.sub; f_mul := Z.mul; f_div := Z.div;
  f_sqrt := Z.sqrt; f_midpoint := fun a b => (a + b) / 2;
|}.

#[export] Instance host_env : TunnelEnv Host := {|
  IpNetwork := str; SocketAddr := str; te_interface := host_interface; te_float := whole_numbers;
  decode_base64 := fun _ => Ok (repeat 0 32); parse_ip_network := Ok; parse_socket_addr := Some;
  lookup_host := fun s h => (Ok [s], h); save_key := fun _ _ h => (Ok tt, h); load_key := fun _ h => (Ok [], h);
  delete_key := fun _ h => (Ok tt, h); resolve_server := fun _ _ _ h => (Ok None, h);
  exit_probe := fun _ h => (Err (ProbeTimeout 5000), h); latency_probe := fun _ h => (Ok 12, h);
  download := fun _ h => (Ok 100, h); utc_now := h_now; instant_now := h_now;
  sleep_ms := fun k h => {| h_interfaces := h_interfaces h; h_now := h_now h + ms k |};
|}.

Definition berlin_file : str :=
  of_string "[Interface]
PrivateKey = aaaa
Address = 10.2.0.2/32
[Peer]
PublicKey = bbbb
Endpoint = 198.51.100.7:51820
AllowedIPs = 0.0.0.0/0
".

Definition berlin_request : CreateTunnelRequest :=
  {| ct_label := of_string "Berlin"; ct_country_code := of_string "DE"; ct_provider := None; ct_config := berlin_file;
     ct_server_selector := None; ct_resolved_server_name := None |}.

Definition tunnel_db : PolicyDb :=
  set_config {[default_key := uuid_to_string 9]}
    (set_rule_rows [{| rr_device_id := 1; rr_target := Tunnel 9; rr_created_by := CreatedByAdmin |}] small_db).

Definition no_tunnels : Tunnels :=
  {| tw_env := {| h_interfaces := []; h_now := 1000 |};
     tw_policy := {| po_db := tunnel_db; po_faults := []; po_now := 0; po_events := [] |};
     tw_rows := []; tw_results := [];
     tw_profile_rules := [];
     tw_last_bytes := ∅; tw_in_flight := ∅; tw_jobs := []; tw_samples := [];
     tw_events := [] |}.

(** Imported and brought up. *)
Definition with_berlin : Tunnels := run_tunnel_call 3 admin_ctx (TImport 9 berlin_request) no_tunnels.
Definition berlin_up : Tunnels := run_tunnel_call 3 admin_ctx (TBringUp 9) with_berlin.
(** Its interface removed behind the daemon's back. *)
Definition berlin_lost : Tunnels := set_env {| h_interfaces := []; h_now := 2000 |} berlin_up.

Lemma unused_nine : unused 9 no_tunnels.
Proof. split; cbn [tw_rows tw_events no_tunnels]; intros x Hx; inversion Hx. Qed.

Lemma events_tell_status_witness : exists r, tw_rows berlin_up = [r] /\
  machine 9 (tw_events berlin_up) = Some Connecting.
Proof.
  assert (Hr : exists r, tw_rows berlin_up = [r] /\ tr_id r = 9 /\ tr_status r = of_string "connecting")
    by (eexists; vm_compute; done).
  destruct Hr as (r & Hr & Hid & Hs). exists r. split; [done|].
  rewrite <- Hid. change Connecting with (status_of_text (of_string "connecting")). rewrite <- Hs.
  apply (events_tell_status 3 no_tunnels berlin_up).
  - apply (rtc_l _ _ with_berlin).
    { apply ts_call. intros f q Hq. injection Hq as <- _. apply unused_nine. }
    apply (rtc_l _ _ berlin_up); [apply ts_call; discriminate | apply rtc_refl].
  - split; cbn [view tunnels_view tw_rows no_tunnels fst]; [constructor | intros r' Hr'; inversion Hr'].
  - rewrite Hr. by left.
Defined.

(** A routing profile sends a domain through it. *)
Definition streaming : Tunnels :=
  set_profile_rules
    [{| pr_id := 4; pr_profile_id := 5; pr_pattern := of_string "*.example.com";
        pr_target_kind := of_string "tunnel"; pr_tunnel_id := Some 9; pr_enabled := true;
        pr_created_at := 0; pr_updated_at := 0 |}] berlin_up.

Lemma delete_leaves_nothing_witness :
  let w := snd (delete_tunnel admin_ctx 9 streaming) in
  tw_rows w = [] /\ tw_profile_rules w = [] /\
  policy_targets 9 (t_config (po_db (tw_policy w)) !! default_key) = false.
Proof.
  assert (H : exists msg, fst (delete_tunnel admin_ctx 9 streaming) = Ok msg) by (eexists; vm_compute; done).
  destruct H as [msg H]. destruct (delete_tunnel admin_ctx 9 streaming) as [r w] eqn:E. simpl in H. subst r.
  destruct (delete_leaves_nothing 9 admin_ctx streaming w msg E) as (_ & Hr & _ & Hg & _ & Hp).
  simpl. rewrite Hr, Hg. split; [vm_compute; done|]. split; [vm_compute; done | exact Hp].
Defined.

Lemma berlin_ids : tr_id <$> tw_rows berlin_lost = [9].
Proof. vm_compute. reflexivity. Qed.

Lemma presence_reconciled_witness : exists w,
  (all ← internal tunnels_find_all; reconcile_iface_presence all) berlin_lost = (Ok [], w) /\
  forall r, r ∈ tw_rows w -> status_of_text (tr_status r) <> Down -> tr_interface_name r ∈ interfaces (tw_env w).
Proof.
  destruct ((all ← internal tunnels_find_all; reconcile_iface_presence all) berlin_lost) as [r w] eqn:E.
  assert (Hr : r = Ok []) by (change r with (fst (r, w)); rewrite <- E; vm_compute; reflexivity). subst r.
  exists w. split; [reflexivity|]. refine (proj1 (presence_reconciled berlin_lost w [] _ _ E)).
  - vm_compute. reflexivity.
  - rewrite berlin_ids. apply NoDup_singleton.
Defined.

Lemma await_terminates_witness :
  fst (await_fresh_handshake (of_string "wg_ward0") 3500 berlin_up) <> Err (Internal (of_string "out of fuel")).
Proof. apply await_terminates; intros; simpl; lia. Defined.

Lemma import_succeeds_witness : exists row w', import_tunnel admin_ctx 9 berlin_request no_tunnels = (Ok (into_tunnel row), w') /\
  tr_interface_name row = of_string "wg_ward0".
Proof.
  assert (H : exists c p, wg_parse berlin_file = Ok c /\ head (wg_peers c) = Some p) by (do 2 eexists; split; vm_compute; done).
  destruct H as (c & p & Hc & Hp).
  destruct (import_succeeds admin_ctx 9 berlin_request c p no_tunnels (tw_env no_tunnels) eq_refl Hc Hp eq_refl eq_refl)
    as (row & w' & H & _ & _ & _ & _ & Hn & _).
  - intros r Hr. inversion Hr.
  - split; [constructor | intros r Hr; inversion Hr].
  - discriminate.
  - exists row, w'. split; [exact H|]. rewrite Hn. vm_compute. reflexivity.
Defined.

(** The last device leaves at 100; the sweep at 700 finds a timeout of 600. *)
Definition evening : list (Z * IdleInput) :=
  [(50, IdleEv (IdleTunnelUp 9) (fun _ => Ok [])); (100, IdleEv IdleDeviceGone (fun _ => Ok []))].

Lemma idle_sweep_spec_witness : exists since,
  9 ∈ expired id 600 700 (fst (event_loop id 600 berlin_up evening)) /\ counted evening 9 since.
Proof.
  destruct (idle_sweep_spec id 600 (fun l => Permutation_refl l) berlin_up evening 700 9) as (_ & _ & Hj & _).
  assert (H : 9 ∈ expired id 600 700 (fst (event_loop id 600 berlin_up evening))).
  { replace (expired id 600 700 (fst (event_loop id 600 berlin_up evening))) with [9]; [by left | vm_compute; done]. }
  destruct (Hj H) as (s & _ & Hs). by exists s.
Defined.
