(* ===== verification/AccountWitnesses.v ===== *)
(** * A small household

    An admin sets the box up, adds a member and a guest, invites the member and
    disables the guest; each theorem about accounts that has a hypothesis is
    applied to that household once. *)

From S2P Require Import Prelude RustStr Net Auth PolicyRouter RoutingTypes ZoneTypes PolicyDb LoginLimiter.
From S2P Require Import AccountDb AccountService UserService AccountLaws AccountSafety AccountInvites.
From S2P Require Import PolicyWitnesses.

(** Hashing that keeps the text, no secret, no provider; the clock is the environment. *)
#[export] Instance plain_env : AccountEnv Z := {|
  sha256_hex := fun s => s; pkce_challenge := fun s => s;
  argon2_hash := fun password _ => Ok password; argon2_verify := fun p h => Some (bool_decide (p = h));
  build_url := fun base _ => Ok base;
  secret_get := fun _ => mret None; secret_put := fun _ _ => mret tt; secret_delete := fun _ => mret tt;
  exchange_and_identify := fun _ => st_fail (Unauthorized (of_string "no provider"));
  utc := fun n => n; instant := fun n => n;
|}.

Definition empty_accounts : Accounts Z :=
  {| ac_env := 0; ac_policy := policy_world;
     ac_tables := {| i_users := []; i_credentials := []; i_enrolments := []; i_sessions := []; i_api_keys := [] |};
     ac_limiter := limiter_new; ac_ceremonies := ∅ |}.

Lemma empty_accounts_ok : accounts_ok (view empty_accounts).
Proof.
  split; try done; try (split; [constructor | by intros ? ? ?%not_elem_of_nil]); try (by intros ? ?%not_elem_of_nil).
  intros x o Hx. simpl in Hx. rewrite !elem_of_cons, elem_of_nil in Hx. by destruct Hx as [->|[->|[]]].
Qed.

Definition ann_password : str := of_string "correct horse".
Definition guest_password : str := of_string "battery staple".

Definition attempt (subject password : str) : LoginAttempt :=
  {| la_subject := subject; la_password := password; la_remember_me := false; la_client_ip := None;
     la_user_agent := None; la_device_id := None |}.

Definition guest_mail : str := of_string "guest@home.example".

Definition opening : list AccountCall :=
  [ CSetup 7 70 (of_string "salt") (of_string "ann") ann_password;
    CCreateUser 8 {| nu_display_name := of_string "Bob"; nu_email := Some (of_string "bob@home.example"); nu_role := Member |};
    CCreateUser 9 {| nu_display_name := of_string "Guest"; nu_email := Some guest_mail; nu_role := Member |};
    CIssue 90 (of_string "invite-bob") 8; CIssue 91 (of_string "invite-guest") 9;
    CRedeem 71 (of_string "salt") (of_string "invite-guest") guest_password; CSetEnabled 9 false;
    CLogin 50 (of_string "token-ann") (attempt (of_string "Ann ") ann_password) ].

Definition household : Accounts Z := foldl (fun w c => run_account_call 24 720 admin_ctx c w) empty_accounts opening.

Lemma household_history : rtc (astep 24 720) empty_accounts household.
Proof.
  unfold household. generalize empty_accounts. induction opening as [|c l IH]; intros w; [done|].
  simpl. eapply rtc_l; [apply (as_call 24 720 admin_ctx c) | apply IH].
Qed.

Lemma household_ok : accounts_ok (view household).
Proof.
  assert (H : forall w w', rtc (astep 24 720) w w' -> accounts_ok (view w) -> accounts_ok (view w')).
  { induction 1 as [|x y z Hxy _ IH]; [done|]. intros Hx. by apply IH, (astep_ok 24 720 _ _ Hxy). }
  exact (H _ _ household_history empty_accounts_ok).
Qed.

Lemma accounts_history_ok_witness :
  length (i_users (ac_tables household)) = 3%nat /\ accounts_ok (view household).
Proof.
  split; [vm_compute; reflexivity|].
  exact (proj1 (accounts_history_ok 24 720 empty_accounts household household_history empty_accounts_ok)).
Defined.

Definition password_row (id uid : Uuid) (subject secret : str) (used : option Z) : CredentialRow :=
  {| cr_id := id; cr_user_id := uid; cr_kind := KPassword; cr_subject := subject; cr_secret := Some secret;
     cr_label := None; cr_metadata := of_string "{}"; cr_created_at := 0; cr_last_used_at := used |}.

Definition ann_row : CredentialRow := password_row 70 7 (of_string "ann") ann_password (Some 0).
Definition guest_row : CredentialRow := password_row 71 9 guest_mail guest_password None.

Lemma household_credentials : i_credentials (ac_tables household) = [ann_row; guest_row].
Proof. vm_compute. reflexivity. Qed.

Lemma password_owner_only_witness :
  kept ann_row (view (run_account_call 24 720 (Some (User (from_validated_session 9 Member)))
    (CChangePassword (of_string "salt") ann_password (of_string "stolen by guest")) household)).
Proof.
  destruct (password_owner_only 24 720 (Some (User (from_validated_session 9 Member)))
    (CChangePassword (of_string "salt") ann_password (of_string "stolen by guest")) household ann_row household_ok) as [H|[[H _]|H]].
  - rewrite household_credentials. by left.
  - reflexivity.
  - exact H.
  - discriminate H.
  - destruct H as (? & ? & ? & ? & _ & H & _). discriminate H.
Defined.

Lemma session_admits_witness :
  exists s u, s ∈ i_sessions (ac_tables household) /\ se_token_hash s = of_string "token-ann" /\
    u ∈ i_users (ac_tables household) /\ us_id u = se_user_id s.
Proof.
  destruct (proj1 (session_admits household (of_string "token-ann") (from_validated_session 7 Admin) household_ok
    (ltac:(vm_compute; reflexivity))) (ltac:(vm_compute; reflexivity))) as (s & u & H1 & H2 & _ & _ & H3 & H4 & _).
  exists s, u. auto.
Defined.

(** Ann signs out everywhere by changing her password. *)
Definition ann_ctx : option AuthContext := Some (User (from_validated_session 7 Admin)).
Definition after_change : Accounts Z :=
  snd (change_own_password ann_ctx (of_string "salt") ann_password (of_string "a new password") household).

Lemma revoked_at_once_witness :
  fst (validate_session (of_string "token-ann") (set_ac_env 5 after_change)) <> Ok (Some (from_validated_session 7 Admin)).
Proof.
  intros H. apply (revoked_at_once ann_ctx 7 household after_change) in H; [exact (H eq_refl)|].
  right. right. exists (of_string "salt"), ann_password, (of_string "a new password"), tt. split; [|reflexivity].
  vm_compute. reflexivity.
Defined.

Definition guest_user : UserRow :=
  {| us_id := 9; us_display_name := of_string "Guest"; us_email := Some guest_mail; us_role := Member; us_enabled := false;
     us_created_at := 0; us_updated_at := 0 |}.

Lemma disabled_looks_unknown_witness :
  let rq := attempt guest_mail guest_password in
  let '(r, w1) := login 24 720 51 (of_string "t") rq household in
  let '(r', w2) := login 24 720 51 (of_string "t") rq (without_credential guest_row household) in
  r = r' /\ is_ok r = false /\ ac_limiter w1 = ac_limiter w2 /\ ac_tables w1 = ac_tables household /\
  ac_tables w2 = ac_tables (without_credential guest_row household).
Proof.
  apply (disabled_looks_unknown 24 720 51 (of_string "t") (attempt guest_mail guest_password) household guest_row guest_user).
  - exact household_ok.
  - rewrite household_credentials. right. left.
  - reflexivity.
  - vm_compute. reflexivity.
  - apply list_elem_of_In. vm_compute. right. right. left. reflexivity.
  - reflexivity.
  - reflexivity.
Defined.

Definition bob : UserRow :=
  {| us_id := 8; us_display_name := of_string "Bob"; us_email := Some (of_string "bob@home.example"); us_role := Member;
     us_enabled := true; us_created_at := 0; us_updated_at := 0 |}.
Definition bob_joined : Accounts Z :=
  snd (redeem_enrolment 72 (of_string "salt") (of_string "invite-bob") (of_string "bob's password") household).

Lemma redeem_once_witness :
  is_ok (fst (redeem_enrolment 73 (of_string "salt") (of_string "invite-bob") (of_string "somebody else") bob_joined)) = false.
Proof.
  apply (redeem_once 24 720 72 (of_string "salt") (of_string "invite-bob") (of_string "bob's password") bob household bob_joined).
  - exact household_ok.
  - vm_compute. reflexivity.
  - apply rtc_refl.
Defined.

Lemma ceremony_single_use_witness :
  fst (ceremony_take 20 (of_string "nonce") (foldl ceremony_run ∅ [OpInsert 10 (of_string "nonce") true])) = Some true /\
  exists t, newest_on (of_string "nonce") [OpInsert 10 (of_string "nonce") true] = Some (OpInsert t (of_string "nonce") true) /\
    duration_since 20 t < CEREMONY_TTL.
Proof.
  assert (H : fst (ceremony_take 20 (of_string "nonce") (foldl ceremony_run ∅ [OpInsert 10 (of_string "nonce") true])) = Some true)
    by (vm_compute; reflexivity).
  split; [exact H|].
  exact (proj2 (ceremony_single_use [OpInsert 10 (of_string "nonce") true] 20 (of_string "nonce") true) H).
Defined.
