(* ===== verification/LocalDnsWitnesses.v ===== *)
(** * A small local DNS

    A seeded LAN zone, an admin who adds a forwarding rule, a runner that catches
    up, and a lease; each theorem about local DNS that has a hypothesis is applied
    to them once. *)

From S2P Require Import Prelude RustStr Net Auth FilterParser DnsFilter DnsCache RoutingTypes ZoneTypes PolicyDb Authoritative.
From S2P Require Import DhcpRepo Tables LocalDns LocalDnsLaws LocalDnsRunner PolicyWitnesses.

#[local] Existing Instance basic_record_types.
#[local] Instance utf8_names : DnsNameLib := {| Name := str; name_from_utf8 := Some |}.

Definition lan_zone : DnsZone :=
  {| zone_id := LAN_ZONE_ID; zone_name := of_string "lan"; zone_enabled := true; zone_source := SystemZone;
     zone_created_at := 0; zone_updated_at := 0 |}.

Definition lan_db : LocalDb := {| l_zones := [lan_zone]; l_records := []; l_rules := [] |}.
Definition lan_only : LocalDns := {| ld_db := lan_db; ld_faults := []; ld_now := 100; ld_events := [] |}.

Lemma lan_db_ok : local_ok lan_db.
Proof.
  split; simpl; try (by intros ? ? ?%not_elem_of_nil); try (by intros ? ?%not_elem_of_nil);
    try (split; [constructor | by intros ? ? ?%not_elem_of_nil]).
  - split; [apply NoDup_singleton|]. by intros x y ->%list_elem_of_singleton ->%list_elem_of_singleton.
  - intros z ->%list_elem_of_singleton. reflexivity.
Qed.

Definition corp : str := of_string "corp.example".
Definition add_rule : LocalCall :=
  LCreateRule 40 {| cf_domain := corp; cf_upstream := of_string "10.0.0.53"; cf_enabled := true |}.
Definition with_rule : LocalDns := run_local_call admin_ctx add_rule lan_only.

Lemma local_history_ok_witness : length (l_rules (ld_db with_rule)) = 1%nat /\ local_ok (view with_rule) /\ system_zone LAN_ZONE_ID (view with_rule).
Proof.
  split; [vm_compute; reflexivity|].
  destruct (local_history_ok lan_only with_rule (rtc_once _ _ (ls_call admin_ctx add_rule lan_only)) lan_db_ok) as [H1 H2].
  split; [exact H1|]. apply H2. exists lan_zone. split; [apply list_elem_of_here | done].
Defined.

(** ** The runner catches up *)

Definition idle_system : DnsSystem :=
  {| sy_local := lan_only; sy_view := stored_view lan_db; sy_cache := DnsCache.new 10; sy_phase := Waiting; sy_flying := [];
     sy_origin := ∅ |}.

Lemma idle_ok : system_ok idle_system.
Proof.
  split; [done | apply lan_db_ok | | |].
  - split; [by left | done].
  - intros f Hf. by apply not_elem_of_nil in Hf.
  - intros u n t e. simpl. by rewrite lookup_empty.
Qed.

(** Two queries are asked; the answer to the one about another domain comes at
    once, the one about the company's host is slow. *)
Definition other : str := of_string "www.example.org".
Definition host : str := of_string "host.corp.example".
Definition flight (name : str) (late : bool) : Flight :=
  {| fl_upstream := DefaultUpstream; fl_name := name; fl_type := 1; fl_rule := None; fl_late := late |}.
Definition asked_1 : DnsSystem := ask_query DefaultUpstream other 1 idle_system.
Definition asked_2 : DnsSystem := ask_query DefaultUpstream host 1 asked_1.
Definition answered : DnsSystem := cache_answer 0 (flight other false) [0; 0; 1] 300 0 86400 [flight host false] asked_2.

(** A rule for the company's domain is added, and the runner catches up. *)
Definition changed : DnsSystem := in_local with_rule answered.
Definition received : DnsSystem := in_phase (Loading corp None None None) (in_local (set_ld_events [] (sy_local changed)) changed).
Definition read_1 : DnsSystem := in_phase (Loading corp (Some (fst (list_zones reader (sy_local received)))) None None) received.
Definition read_2 : DnsSystem := in_phase (Loading corp (Some (fst (list_zones reader (sy_local received))))
  (Some (fst (list_records reader (sy_local read_1)))) None) read_1.
Definition read_3 : DnsSystem := in_phase (Loading corp (Some (fst (list_zones reader (sy_local received))))
  (Some (fst (list_records reader (sy_local read_1)))) (Some (fst (list_forwarding_rules reader (sy_local read_2))))) read_2.
Definition published : DnsSystem := in_phase (Evicting corp) (in_view (view_of_reads (fst (list_zones reader (sy_local received)))
  (fst (list_records reader (sy_local read_1))) (fst (list_forwarding_rules reader (sy_local read_2)))) read_3).
Definition caught_up : DnsSystem := in_phase Waiting (in_flight (overtaken corp <$> sy_flying published)
  (in_cache (snd (invalidate_subtree (sy_cache published) corp)) published)).

Lemma idle_to_caught_up : rtc dstep idle_system caught_up.
Proof.
  apply (rtc_l _ _ asked_1); [apply ds_ask|]. apply (rtc_l _ _ asked_2); [apply ds_ask|].
  apply (rtc_l _ _ answered); [apply (ds_answer 0 (flight other false) [0; 0; 1] 300 0 86400 [] [flight host false] asked_2)|].
  { vm_compute. reflexivity. }
  { vm_compute. discriminate. }
  apply (rtc_l _ _ changed); [apply (ds_call admin_ctx add_rule answered)|].
  apply (rtc_l _ _ received); [apply (ds_receive corp [] changed); [reflexivity | vm_compute; reflexivity]|].
  apply (rtc_l _ _ read_1); [by apply ds_zones|].
  apply (rtc_l _ _ read_2); [by apply ds_records|].
  apply (rtc_l _ _ read_3); [by apply ds_rules|].
  apply (rtc_l _ _ published); [by apply ds_publish|].
  apply rtc_once. by apply ds_evict.
Qed.

Lemma caught_up_entry : exists e, entries (sy_cache caught_up) !! (DefaultUpstream, other, 1) = Some e.
Proof. eexists. vm_compute. reflexivity. Qed.
Lemma caught_up_origin : sy_origin caught_up !! (DefaultUpstream, other, 1) = Some (None, false).
Proof. vm_compute. reflexivity. Qed.


(** The slow answer enters the cache after the eviction and stays: the runner has
    nothing left to do, and the name is served from an answer the new rule would
    not have given. *)
Definition overtaken_answer : DnsSystem := cache_answer 0 (flight host true) [0; 0; 2] 300 0 86400 [] caught_up.

Lemma late_answer_stays : rtc dstep idle_system overtaken_answer /\
  sy_phase overtaken_answer = Waiting /\ ld_events (sy_local overtaken_answer) = [] /\
  is_Some (entries (sy_cache overtaken_answer) !! (DefaultUpstream, host, 1)) /\
  sy_origin overtaken_answer !! (DefaultUpstream, host, 1) = Some (None, true) /\
  is_Some (rule_at (ld_db (sy_local overtaken_answer)) host).
Proof.
  split.
  - eapply rtc_r; [exact idle_to_caught_up|].
    apply (ds_answer 0 (flight host true) [0; 0; 2] 300 0 86400 [] [] caught_up); vm_compute; [reflexivity | discriminate].
  - split; [reflexivity|]. split; [vm_compute; reflexivity|]. split; [vm_compute; by eexists|].
    split; [vm_compute; reflexivity | vm_compute; by eexists].
Qed.

(** ** A lease *)

Lemma lease_registered_witness :
  l_zones (ld_db (register_lease (Err (Internal (of_string "no config"))) 41 (of_string "TV.local") (of_string "192.168.1.8") lan_only)) = [lan_zone].
Proof.
  apply (lease_registered (Err (Internal (of_string "no config"))) 41 (of_string "TV.local") (of_string "192.168.1.8") (of_string "tv") lan_only).
  - reflexivity.
  - vm_compute. reflexivity.
  - split; [vm_compute; reflexivity | vm_compute; discriminate].
  - exists lan_zone. split; [apply list_elem_of_here | reflexivity].
  - intros r Hr. simpl in Hr. by apply not_elem_of_nil in Hr.
Defined.
