(* ===== verification/FilterWitnesses.v ===== *)
(** * A small filter

    A default profile, a device, a blocklist that is subscribed to and downloaded, and a
    query for what it blocks; each theorem about the filter's management that has a
    hypothesis is applied to them once. *)

From S2P Require Import Prelude RustStr Net Auth FilterParser DnsFilter PolicyRouter RoutingTypes ZoneTypes PolicyDb.
From S2P Require Import Tables Jobs FilterTypes FilterRepo FilterAdmin FilterLaws FilterImport FilterSync FilterFollow FilterServe FilterCalls FilterQueries FilterRefresh.
From S2P Require Import PolicyWitnesses.

#[local] Existing Instance literal_regex.
#[local] Existing Instance basic_record_types.
#[local] Existing Instance basic_ip_networks.

(** Every text is a schedule, due an hour later. *)
#[export] Instance hourly : CronLib := {| Schedule := unit; schedule_from_str := fun _ => Ok tt; schedule_after := fun _ t => Some (t + 3600) |}.

Definition strict : DnsFilterProfile :=
  {| pf_id := 1; pf_name := of_string "Strict"; pf_description := None; pf_builtin := true; pf_created_at := 0; pf_updated_at := 0 |}.
Definition laptop : DeviceRow := row 7 (of_string "02:00:00:00:00:07") (of_string "10.0.0.7") 3 false.

Definition filter_db : FilterDb :=
  {| f_profiles := [strict]; f_blocklists := []; f_domains := []; f_allowlist := []; f_rules := []; f_settings := []; f_assigned := [];
     f_defaults := [{| df_profile_id := 1; df_created_at := 0 |}]; f_config := ∅; f_devices := [laptop] |}.
Definition filter_world : Filters :=
  {| fl_db := filter_db; fl_faults := []; fl_now := 1000; fl_events := []; fl_rebuilt := 0; fl_mem := new_filter_mem |}.

Ltac no_rows := try (by intros ? ?%not_elem_of_nil); try (by intros ? ? ?%not_elem_of_nil).

Lemma filter_db_ok : filter_ok filter_db.
Proof.
  split; simpl; no_rows; try apply NoDup_nil_2; try apply NoDup_singleton.
  - split; [apply NoDup_singleton|]. by intros x y ->%list_elem_of_singleton ->%list_elem_of_singleton.
  - split; [apply NoDup_nil_2 | no_rows].
  - split; [apply NoDup_nil_2 | no_rows].
  - intros r ->%list_elem_of_singleton. exists strict. split; [apply list_elem_of_here | done].
Qed.

Lemma filter_db_devices : unique_devices filter_db.
Proof. split; [apply NoDup_singleton|]. by intros v v' ip ->%list_elem_of_singleton ->%list_elem_of_singleton. Qed.

Lemma filter_db_canonical : canonical_defaults filter_db.
Proof. split; simpl; [by intros r r' ->%list_elem_of_singleton ->%list_elem_of_singleton|]. split; [no_rows | done]. Qed.

(** ** Subscribing to a feed *)

Definition subscribe : FilterCall :=
  CallCreateBlocklist 1 20 {| cb_name := of_string "Ads"; cb_url := of_string "https://lists.example/ads.txt"; cb_enabled := true;
                              cb_cron_schedule := of_string "0 3 * * *" |}.
Definition running_filter : Filters := snd (rebuild_all (Some system_ctx) filter_world).
Definition subscribed : Filters := snd (run_call admin_ctx subscribe running_filter).

Definition ads_list : Blocklist :=
  {| bl_id := 20; bl_profile_id := 1; bl_name := of_string "Ads"; bl_url := of_string "https://lists.example/ads.txt"; bl_enabled := true;
     bl_entry_count := 0; bl_last_updated := None; bl_cron_schedule := of_string "0 3 * * *"; bl_last_error := None; bl_last_error_at := None;
     bl_consecutive_failures := 0; bl_created_at := 1000; bl_updated_at := 1000 |}.
Definition ads_body : str := of_string "ads.example".
Definition downloaded : Filters := snd (import_feed ads_list (Ok ads_body) subscribed).

Definition laptop_ip : IpAddr := default (V4 0) (parse_ip (of_string "10.0.0.7")).

Definition ads_query (w : Filters) : option FilterAction :=
  (fun t => co_action (service_check (hot_state (fl_mem w)) (of_string "ads.example") t laptop_ip)) <$> record_type_from_str (of_string "A").

Lemma subscribe_and_download w : rtc serving w (snd (import_feed ads_list (Ok ads_body) (snd (run_call admin_ctx subscribe w)))).
Proof. eapply rtc_l; [by apply (serving_call admin_ctx subscribe w)|]. apply rtc_once, serving_import. Qed.

Lemma queue_fine e : e ∈ fl_events filter_world -> event_fine (fl_db filter_world) e.
Proof. by intros He%elem_of_nil. Qed.

Lemma start_and_subscribe w : rtc fstep w (snd (run_call admin_ctx subscribe (snd (rebuild_all (Some system_ctx) w)))).
Proof. eapply rtc_l; [apply fstep_start|]. apply rtc_once, fstep_call. Qed.

Lemma queries_follow_tables_witness :
  ads_query downloaded = Some Pass /\ length (fl_events downloaded) = 2%nat
  /\ ads_query (Nat.iter (length (fl_events downloaded)) runner_step downloaded) = Some ActionBlock
  /\ decides_as_stored (Nat.iter (length (fl_events downloaded)) runner_step downloaded).
Proof.
  split; [vm_compute; reflexivity|]. split; [vm_compute; reflexivity|]. split; [vm_compute; reflexivity|].
  unfold downloaded, subscribed, running_filter.
  apply (queries_follow_tables filter_world _ filter_db_ok filter_db_devices filter_db_canonical eq_refl queue_fine (subscribe_and_download _)).
Defined.

(** ** Calls the cache does not follow

    The calls that [call_fine] leaves out are accepted, and after them the cache
    decides differently from the tables although nothing is queued. *)

Definition settled (w : Filters) : Filters := Nat.iter (length (fl_events w)) runner_step w.
Definition calls (l : list FilterCall) (w : Filters) : Filters :=
  foldl (fun w c => settled (snd (run_call admin_ctx c w))) w l.

Definition block_ads (profile id : Uuid) : FilterCall :=
  CallCreateRule profile id {| cr_rule_text := of_string "||ads.example^"; cr_rule_enabled := true; cr_comment := None |}.
Definition kids : FilterCall := CallCreateProfile 30 {| cp_name := of_string "Kids"; cp_description := None |}.

Definition stored_decision (w : Filters) : option FilterAction :=
  (fun t => co_action (decided (fl_db w) (v ← device_at (fl_db w) laptop_ip; device_context (fl_db w) (dr_id v))
     (of_string "ads.example") t laptop_ip)) <$> record_type_from_str (of_string "A").

Lemma disagrees w : ads_query w <> stored_decision w -> ~ decides_as_stored w.
Proof.
  unfold ads_query, stored_decision. destruct (record_type_from_str _) as [t|]; [|done].
  intros Hne [H _]. apply Hne. simpl. by rewrite H.
Qed.

(** The laptop is put under a profile that blocks the ads, and the profile is deleted. *)
Definition orphaned_context : Filters :=
  calls [kids; block_ads 30 41; CallUpdateSettings 7 {| ud_enabled := true; ud_profile_ids := [30] |}; CallDeleteProfile 30] running_filter.

Theorem deleted_profile_filters : profile_exists 30 (fl_db orphaned_context) = false /\ fl_events orphaned_context = [] /\
  ads_query orphaned_context = Some ActionBlock /\ ~ decides_as_stored orphaned_context.
Proof.
  split_and!; [vm_compute; reflexivity.. |]. apply disagrees. vm_compute. discriminate.
Qed.

(** An allow entry of the default profile is removed under the name of another profile. *)
Definition entry_elsewhere : Filters :=
  calls [kids; block_ads 1 41; CallCreateAllowed 1 40 {| ca_domain := of_string "ads.example"; ca_reason := None |};
         CallDeleteAllowed 30 40] running_filter.

Theorem removed_entry_allows : f_allowlist (fl_db entry_elsewhere) = [] /\ fl_events entry_elsewhere = [] /\
  ~ decides_as_stored entry_elsewhere.
Proof.
  split_and!; [vm_compute; reflexivity.. |]. apply disagrees. vm_compute. discriminate.
Qed.

Lemma filter_history_ok_witness : length (f_blocklists (fl_db subscribed)) = 1%nat /\ filter_ok (fl_db subscribed) /\ builtins_kept filter_db (fl_db subscribed).
Proof.
  split; [vm_compute; reflexivity|]. unfold subscribed, running_filter.
  exact (filter_history_ok filter_world _ filter_db_ok (start_and_subscribe filter_world)).
Defined.

Definition three_lines : list str := [of_string "b.example"; of_string "a.example"; of_string "b.example"].
Definition imported : result Z str * Filters := repo_replace_blocklist_domains 20 three_lines subscribed.

Lemma one_feed : NoDup (row_id <$> f_blocklists (fl_db subscribed)).
Proof. vm_compute. apply (NoDup_singleton 20). Qed.

Lemma import_atomic_witness : active_domains 20 (fl_db subscribed) = [] /\ fst imported = Ok 2
  /\ length (active_domains 20 (fl_db (snd imported))) = 2%nat /\ NoDup (active_domains 20 (fl_db (snd imported))).
Proof.
  assert (Er : fst imported = Ok 2) by (vm_compute; reflexivity).
  split; [vm_compute; reflexivity|]. split; [exact Er|]. split; [vm_compute; reflexivity|]. revert Er. unfold imported.
  generalize (import_atomic 20 three_lines subscribed one_feed). destruct (repo_replace_blocklist_domains 20 three_lines subscribed) as [r w'].
  cbv beta iota. cbn [fst snd]. intros H ->. exact (proj1 H).
Defined.

(** ** A job and a refresh *)

Definition job_1 : JobWorld := jw (insert_job 5 BlocklistRefresh 0 ∅) (<[5 := Spawned]> ∅) (new_jobs 0).
Definition job_2 : JobWorld := jw (mark_running 5 0 (jw_registry job_1)) (<[5 := Working]> (jw_tasks job_1)) job_1.
Definition job_3 : JobWorld := jw (record_result 5 (Ok tt) 0 (jw_registry job_2)) (<[5 := Recorded]> (jw_tasks job_2)) job_2.
Definition job_4 : JobWorld := {| jw_registry := jw_registry job_3; jw_tasks := jw_tasks job_3; jw_now := 1800 |}.
Definition job_5 : JobWorld := jw (sweep 1800 (jw_registry job_4)) (jw_tasks job_4) job_4.

Lemma job_lifecycle_witness : (jb_status <$> get_job 5 (jw_registry job_3)) = Some JobSucceeded /\ get_job 5 (jw_registry job_5) = get_job 5 (jw_registry job_3).
Proof.
  split; [vm_compute; reflexivity|].
  assert (Hr : rtc jstep (new_jobs 0) job_3).
  { eapply rtc_l; [by apply (jstep_dispatch 5 BlocklistRefresh)|]. eapply rtc_l; [by apply (jstep_start 5 job_1)|]. apply rtc_once. by apply (jstep_end 5 (Ok tt) job_2). }
  assert (Hr' : rtc jstep job_3 job_5).
  { eapply rtc_l; [apply (jstep_clock 1800 job_3); simpl; lia|]. apply rtc_once. apply (jstep_sweep job_4). }
  pose proof (job_lifecycle 0 job_3 job_5 5 Recorded Hr ltac:(vm_compute; reflexivity)) as H.
  destruct (get_job 5 (jw_registry job_3)) as [j|] eqn:E; [|vm_compute in E; discriminate E]. apply (proj2 H Hr' eq_refl).
  assert (Hj : jb_updated_at j = 0) by (vm_compute in E; by injection E as <-). rewrite Hj. simpl. unfold JOB_GC_TTL. lia.
Defined.

Definition refresh_0 : Refreshes := new_refreshes 0.
Definition gate_20 : Dispatching := {| ds_blocklist := 20; ds_token := 90; ds_job := None |}.
Definition refresh_1 : Refreshes := (begin_refresh 20 90 refresh_0).2.
Definition refresh_2 : Refreshes := spawn_refresh gate_20 91 refresh_1.
Definition refresh_3 : Refreshes := record_refresh {| ds_blocklist := 20; ds_token := 90; ds_job := Some 91 |} 91 refresh_2.

Lemma refresh_once_witness : fst (begin_refresh 20 95 refresh_3) = Some 91 /\ unfinished 91 refresh_3 /\ fst (begin_refresh 21 95 refresh_3) = None.
Proof.
  assert (Hr : rtc rstep (new_refreshes 0) refresh_3).
  { eapply rtc_l; [apply (rstep_begin 20 90 refresh_0); [done | by split_and!]|].
    eapply rtc_l; [apply (rstep_spawn gate_20 91 refresh_1); [done | done | done | intros k t Hk; exfalso; exact (lookup_empty_Some k t Hk)]|].
    apply rtc_once. by apply (rstep_record {| ds_blocklist := 20; ds_token := 90; ds_job := Some 91 |} 91 refresh_2). }
  destruct (refresh_once 0 refresh_3 Hr) as (_ & _ & H1 & H2). split; [vm_compute; reflexivity|].
  split; [apply (H1 20 95); vm_compute; reflexivity|]. apply H2. intros k t Hk _.
  assert (E : rf_tasks refresh_3 = {[90 := {| tk_blocklist := 20; tk_job := 91; tk_stage := Fresh |}]}) by reflexivity.
  rewrite E in Hk. by apply lookup_singleton_Some in Hk as [_ <-].
Defined.
