(* ===== verification/InboundWitnesses.v ===== *)
(** * An inbound server with one device

    Keys printed in hexadecimal, an environment that is its own view and never fails, and
    a laptop that is granted access; each theorem about the inbound server that has a
    hypothesis is applied to them once. *)

From S2P Require Import Prelude RustStr Net Auth PolicyRouter RoutingTypes ZoneTypes PolicyDb ZoneService DeviceService.
From S2P Require Import DhcpServer Tables WgConfig TunnelInterface AccountService InboundWg InboundLaws InboundSync InboundInterface.
From S2P Require Import PolicyWitnesses.

(** ** Keys as texts *)

Definition hex_text (k : list Z) : str := concat (hex_byte <$> k).

Fixpoint text_hex (s : str) : result (list Z) str :=
  match s with
  | [] => Ok []
  | a :: b :: rest =>
      match hex_val a, hex_val b with
      | Some x, Some y => let? k := text_hex rest in Ok (16 * x + y :: k)
      | _, _ => Err (of_string "invalid digit")
      end
  | _ => Err (of_string "odd length")
  end.

Lemma hex_checked : forallb (fun b => bool_decide (hex_val (hex_digit (b / 16)) = Some (b / 16)) && bool_decide (hex_val (hex_digit (b mod 16)) = Some (b mod 16))
  && is_graphic (hex_digit (b / 16)) && is_graphic (hex_digit (b mod 16)) && (16 * (b / 16) + b mod 16 =? b)) (seqZ 0 256) = true.
Proof. vm_compute. reflexivity. Qed.

Lemma key_byte_ok b : is_u8 b -> hex_val (hex_digit (b / 16)) = Some (b / 16) /\ hex_val (hex_digit (b mod 16)) = Some (b mod 16)
  /\ is_graphic (hex_digit (b / 16)) = true /\ is_graphic (hex_digit (b mod 16)) = true /\ 16 * (b / 16) + b mod 16 = b.
Proof.
  unfold is_u8, U8_MAX. intros Hb. pose proof (proj1 (forallb_forall _ _) hex_checked b) as H.
  rewrite !andb_true_iff, !bool_decide_eq_true, Z.eqb_eq in H. destruct H as [[[[H1 H2] H3] H4] H5]; [|done].
  apply list_elem_of_In, elem_of_seqZ. lia.
Qed.

Lemma hex_roundtrip k : Forall is_u8 k -> text_hex (hex_text k) = Ok k.
Proof.
  induction 1 as [|b k Hb _ IH]; [done|]. destruct (key_byte_ok b Hb) as (H1 & H2 & _ & _ & H5).
  change (hex_text (b :: k)) with (hex_digit (b / 16) :: hex_digit (b mod 16) :: hex_text k). cbn [text_hex].
  by rewrite H1, H2, IH, H5.
Qed.

Lemma hex_graphic k : Forall is_u8 k -> Forall (fun c => is_graphic c = true) (hex_text k).
Proof.
  induction 1 as [|b k Hb _ IH]; [done|]. destruct (key_byte_ok b Hb) as (_ & _ & H3 & H4 & _).
  change (hex_text (b :: k)) with (hex_digit (b / 16) :: hex_digit (b mod 16) :: hex_text k). by repeat constructor.
Qed.

(** ** The environment *)

Definition changing (f : Vpn -> Vpn) : ST Vpn str unit := fun v => (Ok tt, f v).

(** 32 bytes, whatever is given. *)
Definition as_key (k : list Z) : list Z := (fun b => b mod 256) <$> take 32 (k ++ replicate 32 0).

#[export] Instance plain_interface : InboundWgInterface Vpn str := {|
  ii_ensure_server := fun _ => changing (with_peers ∅);
  ii_tear_down_server := fun _ => changing (with_peers ∅);
  ii_add_peer := fun _ c => changing (fun v => with_peers ({[ip_public_key c]} ∪ v_peers v) v);
  ii_remove_peer := fun _ k => changing (fun v => with_peers (v_peers v ∖ {[k]}) v);
  ii_peer_stats := fun _ v => (Ok ((fun k => {| ws_public_key := k; ws_bytes_tx := 0; ws_bytes_rx := 0; ws_last_handshake := None |})
                                     <$> elements (v_peers v)), v);
|}.

#[export] Instance plain_env : InboundEnv Vpn := {|
  WgNetwork := str; base64_encode := hex_text; base64_decode := text_hex; x25519_base := as_key;
  network_new := fun ip _ => show_ipv4 ip; network_parse := fun s => Ok s;
  store_put := fun _ k => changing (with_key (Some k)); store_get := fun _ v => (Ok (v_key v), v);
  store_delete := fun _ => changing (with_key None); utf8_error := fun _ => of_string "invalid";
  vpn_add_masquerade := fun _ => changing (with_masquerade true);
  vpn_remove_masquerade := fun _ => changing (with_masquerade false);
  add_inbound_wg_accept := fun p => changing (with_accept (Some p));
  remove_inbound_wg_accept := changing (with_accept None); vpn_now := fun _ => 1000;
|}.

Lemma as_key_ok k : is_key (as_key k).
Proof.
  split.
  - unfold as_key. rewrite length_fmap, length_take, length_app, length_replicate. lia.
  - unfold as_key. apply Forall_fmap, Forall_true. intros b. unfold is_u8, U8_MAX. simpl. pose proof (Z.mod_pos_bound b 256). lia.
Qed.

#[export] Instance plain_laws : InboundLaws Vpn.
Proof.
  refine {| vpn := fun v => v |}; try done.
  - intros k Hk. apply hex_roundtrip, Hk.
  - intros k Hk. apply hex_graphic, Hk.
  - apply as_key_ok.
  - intros host _. by eexists.
  - intros c _ v. simpl. exists ∅. split; [set_solver | done].
  - by intros v r [= <-].
Defined.

#[export] Instance plain_reliable : InboundReliable Vpn.
Proof. by split. Qed.

(** ** The history *)

Definition named (d : DeviceRow) : DeviceRow := set_column d (SetName (Some (of_string "laptop"))).

Definition vpn_db : PolicyDb :=
  {| t_zones := [home]; t_devices := [named (row 1 laptop_mac (of_string "192.168.1.7") 5 false)]; t_rules := []; t_exceptions := [];
     t_dns_events := []; t_users := []; t_config := ∅ |}.

Definition at_boot : Inbound (N := Vpn) :=
  {| iw_env := {| v_peers := ∅; v_masquerade := false; v_accept := None; v_key := None |};
     iw_policy := {| po_db := vpn_db; po_faults := []; po_now := 0; po_events := [] |}; iw_rows := [];
     iw_entitlement := {| en_suspended := false; en_premium := true; en_publisher := true; en_events := [] |} |}.

Definition some_bytes (b : Z) : list Z := replicate 32 b.

Lemma some_bytes_key b : is_u8 b -> is_key (some_bytes b).
Proof. intros Hb. unfold some_bytes. split; [by rewrite length_replicate | by apply Forall_replicate]. Qed.

Definition switched_on : Inbound (N := Vpn) := run admin_ctx (CSetConfig true 51821 (some_bytes 9)) at_boot.
Definition granted : Inbound (N := Vpn) := run admin_ctx (CAddPeer 1 (Some (of_string "home.example:51821")) 77 (some_bytes 5)) switched_on.
Definition lapsed : Inbound (N := Vpn) := set_iw_entitlement (set_premium false (iw_entitlement granted)) granted.
Definition stopped : Inbound (N := Vpn) := snd (on_entitlement_changed false (delivered [] lapsed)).

Lemma boot_fine : boot at_boot.
Proof.
  split; [|done..]. split; [split; [split; [apply NoDup_nil_2|]|]|done|by left|by eexists].
  - intros x y Hx. by apply not_elem_of_nil in Hx.
  - intros r Hr. by apply not_elem_of_nil in Hr.
Qed.

Lemma calm_until_granted : rtc calm_step (snd (InboundWg.reconcile (some_bytes 9) at_boot)) granted.
Proof.
  change (snd (InboundWg.reconcile (some_bytes 9) at_boot)) with at_boot.
  eapply rtc_l; [apply (cs_call admin_ctx (CSetConfig true 51821 (some_bytes 9)))|].
  { split; [by unfold is_u16, U16_MAX | by apply some_bytes_key]. }
  apply rtc_once. by apply (cs_call admin_ctx (CAddPeer 1 (Some (of_string "home.example:51821")) 77 (some_bytes 5))).
Qed.

(** The device is deleted from the shared database; its row goes with it. *)
Definition no_devices : Policy := set_db (set_devices [] (po_db (iw_policy granted))) (iw_policy granted).
Definition orphaned : Inbound (N := Vpn) :=
  set_iw_rows (deleted (cascaded no_devices) (iw_rows granted)) (set_iw_policy no_devices granted).

Lemma granted_history : ihistory at_boot [] granted.
Proof.
  eapply (ih_step _ []); [apply (is_call admin_ctx (CSetConfig true 51821 (some_bytes 9)))|].
  eapply (ih_step _ []); [|apply ih_nil].
  apply (is_call admin_ctx (CAddPeer 1 (Some (of_string "home.example:51821")) 77 (some_bytes 5))).
Qed.

Lemma orphaned_history : ihistory at_boot ([] ++ List.filter (cascaded no_devices) (iw_rows granted)) orphaned.
Proof. exact (ihistory_snoc _ _ _ _ _ granted_history (is_others no_devices granted)). Qed.

Lemma granted_peers : v_peers (vpn (iw_env granted)) = {[as_key (clamp (some_bytes 5))]}.
Proof. vm_compute. reflexivity. Qed.
Lemma orphaned_rows : iw_rows orphaned = [].
Proof. vm_compute. reflexivity. Qed.
Lemma env_of_others l p (w : Inbound (N := Vpn)) : iw_env (set_iw_rows l (set_iw_policy p w)) = iw_env w.
Proof. done. Qed.
Lemma orphaned_peers : as_key (clamp (some_bytes 5)) ∈ v_peers (vpn (iw_env orphaned)).
Proof. unfold orphaned. rewrite env_of_others, granted_peers. by apply elem_of_singleton. Qed.
Lemma plain_removals : removals_reliable (N := Vpn).
Proof. intros k n. simpl. set_solver. Qed.

Lemma boot_peers : v_peers (vpn (iw_env at_boot)) = ∅.
Proof. reflexivity. Qed.

Lemma peers_accounted_for_witness :
  keyed pr_id clash (iw_rows granted)
  /\ exists r, r ∈ [] ++ List.filter (cascaded no_devices) (iw_rows granted)
       /\ decode_key (pr_public_key r) = Ok (as_key (clamp (some_bytes 5))).
Proof.
  split; [exact (proj1 (peers_accounted_for at_boot granted [] eq_refl boot_peers granted_history))|].
  destruct (proj2 (proj2 (proj2 (peers_accounted_for at_boot orphaned _ eq_refl boot_peers orphaned_history)))
    plain_removals _ orphaned_peers) as (r & [Hr|Hr] & Ek).
  - rewrite orphaned_rows in Hr. by apply not_elem_of_nil in Hr.
  - by exists r.
Defined.

Lemma vpn_follows_settings_witness :
  enabled_in (po_db (iw_policy granted)) = true /\ enabled_in (po_db (iw_policy stopped)) = false
  /\ v_masquerade (vpn (iw_env stopped)) = false /\ (forall k, k ∉ v_peers (vpn (iw_env stopped))).
Proof.
  split; [vm_compute; reflexivity|]. split; [vm_compute; reflexivity|].
  destruct (vpn_follows_settings at_boot stopped (some_bytes 9) boot_fine (some_bytes_key 9 ltac:(by unfold is_u8, U8_MAX))) as (Hp & Hm & _).
  - etrans; [apply calm_until_granted|].
    eapply rtc_l; [apply (cs_premium false granted)|]. apply rtc_once.
    apply (cs_listen false [] lapsed). vm_compute. reflexivity.
  - split; [rewrite Hm; vm_compute; reflexivity|]. intros k [Hk _]%Hp. revert Hk. vm_compute. done.
Defined.

Lemma switched_on_sync : in_sync (sight switched_on).
Proof.
  apply (sync_run admin_ctx (CSetConfig true 51821 (some_bytes 9)) at_boot); [split; [by unfold is_u16, U16_MAX | by apply some_bytes_key]|].
  by apply (ready_reconcile (some_bytes 9) (sight at_boot) (boot_ready _ boot_fine) (some_bytes_key 9 ltac:(by unfold is_u8, U8_MAX)) at_boot).
Qed.

Lemma grant_given_witness :
  exists host, 2 <= host <= 254 /\ is_ok (fst (add_peer admin_ctx 1 (Some (of_string "home.example:51821")) 77 (some_bytes 5) switched_on)) = true
  /\ v_peers (vpn (iw_env granted)) = {[as_key (clamp (some_bytes 5))]} ∪ v_peers (vpn (iw_env switched_on)).
Proof.
  destruct (grant_given admin_ctx 1 77 (Some (of_string "home.example:51821")) (some_bytes 5)
    (named (row 1 laptop_mac (of_string "192.168.1.7") 5 false)) (of_string "laptop") switched_on switched_on_sync eq_refl)
    as (host & Hh & _ & _ & Hr & _ & Hp); try (vm_compute; reflexivity).
  - by apply Nat.ltb_lt.
  - intros r Hr. exfalso. assert (iw_rows switched_on = []) as E1 by (vm_compute; reflexivity). rewrite E1 in Hr. by apply not_elem_of_nil in Hr.
  - exists host. split; [exact Hh|]. split; [by rewrite Hr | exact Hp].
Defined.

Lemma client_config_parses_witness :
  wg_parse (build_client_config (of_string "cHJpdmF0ZQ==") (of_string "10.100.64.2/32") (of_string "c2VydmVy") (of_string "home.example:51821"))
  = Ok (client_config (of_string "cHJpdmF0ZQ==") (of_string "10.100.64.2/32") (of_string "c2VydmVy") (of_string "home.example:51821")).
Proof.
  apply client_config_parses; repeat split; try done; try (by repeat constructor). by apply (bool_decide_eq_false _).
Defined.
