(* ===== verification/Findings.v ===== *)
(** * Where the code departs from what it says

    Worked counterexamples, evaluated on the home network of [Witnesses]: each
    shows a behaviour of the modelled code that a comment beside it rules out. *)

From S2P Require Import Prelude RustStr Net Auth FilterParser DhcpRepo DhcpService DhcpLaws Witnesses.

(** A world like [home] with other leases and reservations. *)
Definition home_with (leases : list DbLeaseRow) (reservations : list DbReservationRow) : World :=
  {| w_data :=
       {| w_leases := leases; w_reservations := reservations; w_log := []; w_config := ∅;
          w_devices := w_devices (w_data home); w_zones := w_zones (w_data home); w_events := [];
          w_now := NOON |};
     w_faults := [] |}.

Definition reserve (mac ip : str) : DbReservationRow :=
  reservation_row NOON
    {| ri_id := 3; ri_mac := mac; ri_ip := ip; ri_hostname := None; ri_description := None |}.

Definition active_table (w : World) : list (Z * str) :=
  (fun row => (row_id row, row_ip row)) <$> active_rows (w_leases (w_data w)).

(** [assign_lease] skips a reservation that lies outside the client's zone, but
    [lease_if_still_valid] does not, so the pool lease it hands out is expired
    and replaced at the next packet: here the guest's second DISCOVER. *)
Theorem foreign_reservation_churns :
  let w := home_with [] [reserve GUEST "192.168.1.50"] in
  let w1 := snd (assign_lease GATEWAY sys_ctx 7 GUEST None w) in
  let w2 := snd (assign_lease GATEWAY sys_ctx 8 GUEST None w1) in
  active_table w1 = [(7, of_string "10.20.0.10")]
  /\ active_table w2 = [(8, of_string "10.20.0.10")].
Proof. vm_compute. by split. Qed.

(** A reconfiguration of the base pool that does not even move it revokes the
    lease of a client whose zone has a subnet of its own. *)
Theorem reconfigure_revokes_zone_lease :
  let w := snd (assign_lease GATEWAY sys_ctx 7 GUEST None (home_with [] [])) in
  let same := {| uc_pool_start := of_string "192.168.1.100"; uc_pool_end := of_string "192.168.1.250";
                 uc_subnet_mask := of_string "255.255.255.0"; uc_upstream_dns := [];
                 uc_lease_duration_secs := 86400; uc_router_ip := None |} in
  active_table w = [(7, of_string "10.20.0.10")]
  /\ active_table (snd (update_config GATEWAY sys_ctx same w)) = [].
Proof. vm_compute. by split. Qed.

(** Both ends of a pool may be private while most of it is public. *)
Theorem pool_spans_public :
  parse_pool_range "10.0.0.1" "192.168.1.200" = Ok (ipv4_new 10 0 0 1, ipv4_new 192 168 1 200)
  /\ ip_in_pool (ipv4_new 93 184 216 34) (ipv4_new 10 0 0 1) (ipv4_new 192 168 1 200) = true
  /\ is_private (ipv4_new 93 184 216 34) = false.
Proof. vm_compute. by split_and!. Qed.

(** A reservation for an address that is already leased is accepted and handed
    out, so two clients hold one address. *)
Theorem reservation_duplicates_address :
  let req := {| cr_mac_address := PRINTER; cr_ip_address := of_string "192.168.1.100";
                cr_hostname := None; cr_description := None |} in
  let w := home_with [laptop_lease "active" (NOON + 86400 * NANOS_PER_SEC)] [] in
  let w1 := snd (create_reservation sys_ctx 3 req w) in
  let w2 := snd (assign_lease GATEWAY sys_ctx 7 PRINTER None w1) in
  active_table w2 = [(1, of_string "192.168.1.100"); (7, of_string "192.168.1.100")].
Proof. vm_compute. reflexivity. Qed.

(** A client that leases its reserved address counts twice towards the pool. *)
Theorem status_counts_twice :
  let w := home_with [laptop_lease "active" (NOON + 86400 * NANOS_PER_SEC)]
             [reserve LAPTOP "192.168.1.100"] in
  let one := <[of_string "dhcp_pool_end" := of_string "192.168.1.100"]> ∅ in
  let w1 := {| w_data := set_config one (w_data w); w_faults := [] |} in
  outcome_of (fun s _ => (ds_pool_total s, ds_pool_used s)) (status GATEWAY sys_ctx w1) = Some (1, 2).
Proof. vm_compute. reflexivity. Qed.

(** A wildcard rule keeps its dots as regular-expression dots. *)
Theorem wildcard_dot_unescaped (R : RegexLib) :
  wildcard_regex "ads.*.example.com" = of_string "(?i)^ads..*.example.com$".
Proof. reflexivity. Qed.
